(* ===== verification/_CoqProject ===== *)
-Q . S2P
Prelude.v
Endianconv.v
Intset.v
Util.v
Glob.v
Adlist.v
Dict.v
DictInv.v
DictRehash.v
DictOps.v
DictScan.v
DictWitness.v
Double.v
Skiplist.v
SkiplistRep.v
SkiplistInsert.v
SkiplistDelete.v
SkiplistOps.v
SkiplistQuery.v
SkiplistRange.v
Zset.v
SkiplistWitness.v
SortedSet.v
Crc.v
Bitops.v
Lzf.v
Sds.v
SdsText.v
Rio.v
Rdb.v
Reply.v
Resp.v
Aof.v
Ziplist.v
ZiplistOps.v
ZiplistSpec.v
Multi.v
MultiSpec.v
Pubsub.v
PubsubSpec.v
Replication.v
ReplicationInv.v
ReplicationSpec.v
Keyspace.v
KeyCommands.v
KeyspaceAbs.v
KeyspaceInv.v
KeyspaceRel.v
KeyspaceRefine.v
KeyspaceKeys.v
KeyspaceFrame.v
KeyspaceSpec.v
KeyspaceTotal.v
KeyspaceAof.v
KeyspaceReplay.v
KeyspaceRebuild.v
KeyspaceRecover.v
