(* ===== verification/Prelude.v ===== *)
(** * Verification of the core of the bundled Redis server

    The repository contains a web application and the sources of the Redis
    server it talks to; the server, the C code under src/redis-stable/src, is what
    this development models.  Each file translates one source file, or the part of
    it named below, into executable definitions with the names of the source, and
    proves the theorems a maintainer relies on.  This file holds what the others
    share: machine integers, byte buffers, notations and tactics.

    ** Conventions

    C integers are elements of Z; where the source relies on the wrap-around of a
    type it is written out with u8, u16, u32, u64, s32 and s64.  Bytes are integers from 0
    to 255 and memory blocks lists of them: mread and mwrite have no result outside a
    block.  A result None of an operation is therefore undefined behaviour, a failed assertion or
    an exhausted fuel, and every theorem that gives a result Some shows their absence.
    Errors the code reports are ordinary values.  What is not in the sources (the
    allocator, sockets, files, the hash seed, the uninitialised memory of arrays) is
    an argument; laws that are needed of it are hypotheses with an instance that
    satisfies them.

    ** Files, in the order of their dependencies

    - Endianconv: endianconv.c, for hosts of either byte order (class Host).
    - Intset: intset.c, sorted arrays of 16, 32 or 64 bit integers in one block,
      refined to the sorted list of elements and to a set of integers.
    - Util: the integer conversions of util.c (ll2string, string2ll, digits10, memtoll).
    - Glob: stringmatchlen of util.c against a semantics of glob patterns.
    - Adlist: adlist.c on a heap of nodes, refined to sequences.
    - Dict: dict.c; DictInv its invariant, DictRehash incremental rehashing and
      resizing, DictOps lookup, insertion and deletion as operations on a finite
      map, DictScan the cursor iteration, DictWitness examples.
    - Double: the order of scores and strings (doubles as sign, exponent and
      mantissa keys; sdscmp).  Skiplist: the skip list of t_zset.c on a heap;
      SkiplistRep the representation of a sorted list, SkiplistInsert and SkiplistDelete
      the repair of links and spans, SkiplistOps, SkiplistQuery and SkiplistRange the
      operations.  Zset: zsetAdd, zsetDel, zsetScore and zsetRank with the dictionary
      of Dict; SkiplistWitness an example; SortedSet the theorems.
    - Crc: crc16.c and crc64.c against the bitwise definition of the
      checksums, and keyHashSlot of cluster.c.
    - Bitops: redisPopcount, redisBitpos and the bit fields of bitops.c.
    - Lzf: lzf_c.c and lzf_d.c.
    - Sds: sds.c and sds.h on memory blocks with their five header types; SdsText:
      number formatting, splitting and quoting, on byte sequences.
    - Rio: rio.c and rio.h, with the back ends as instances of a class; it ends with the
      calculus of writers and readers that Rdb uses.
    - Rdb: the encodings of lengths, strings, times and numbers of rdb.c, with
      Lzf and Endianconv below.
    - Reply: the output buffers of networking.c, from addReply to writeToClient.
    - Resp: the request parser of networking.c and the loop that executes requests, over
      Reply and SdsText.
    - Aof: the append only file of aof.c, its writer and its loader, over Resp
      and Rdb.
    - Ziplist: ziplist.c, lists of strings and integers in one block; ZiplistOps its
      representation, the cascade of size updates, insertion and deletion; ZiplistSpec merging,
      reading and the theorems.
    - Multi: multi.c and processCommand of server.c, transactions over a data set and other
      commands that are parameters; MultiSpec histories of events and the theorems.
    - Pubsub: pubsub.c, the records of subscriptions of clients and server and the messages that are published;
      PubsubSpec: the specification on the clients alone and the theorem.
    - Replication: the master side of replication.c (backlog, stream of commands, partial and full
      synchronization, dumps, timers); ReplicationInv its invariant, ReplicationSpec histories and the theorems.
    - Keyspace: db.c and object.c, databases that map keys to counted objects on a heap and to
      times of expiry; KeyCommands: the commands of t_string.c, db.c and expire.c on it, with the number of
      arguments from the command table; KeyspaceAbs: the same commands on maps of byte strings; KeyspaceInv the
      counting of references, KeyspaceRel the relation between the two and the operations of the key space,
      KeyspaceRefine and KeyspaceKeys the commands, KeyspaceFrame what a command changes and signals,
      KeyspaceSpec runs and the theorems, KeyspaceTotal the absence of aborts.
    - KeyspaceAof: call and propagate of server.c, propagateExpire of db.c and the fake client of aof.c, which
      join the key space (Keyspace, KeyCommands) and the append only file (Aof); KeyspaceReplay: each command, on
      maps, against its entry in the file; KeyspaceRebuild: what is written for commands on counted objects;
      KeyspaceRecover: the file of a run, and what a server that loads it holds.

    ** What the theorems show

    - Refinement: the in-place algorithms on blocks and heaps implement the abstract
      operation (sets, sequences, finite maps, sorted associations) on every branch,
      touch nothing else, and keep the invariant of the representation; the commands on
      shared, counted and encoded objects are the commands on maps.
    - Round trips: rank and element, compression, bit fields, saved and
      loaded values, quoted and split lines, requests written and parsed.
    - Equivalence of optimised routines with plain definitions: population
      counts by parallel sums, table driven checksums, glob matching, chunked I/O.
    - Protocols over time: SCAN returns every element that stays, whatever happens
      between its calls; rehashing ends; output is sent in order through partial
      writes; requests are executed once and in order however they are fragmented; a
      crash loses only a suffix of the append only file, and loading runs the rest; a server that loads its file holds the
      data it had, under the conditions stated with the theorem; an EXEC
      runs its queue exactly when no watched key was signalled as modified since it was watched and no command failed to queue; a published message
      reaches each subscriber once per channel and matching pattern; a replica is queued exactly the stream after its dump or offset, and a partial resynchronization
      leaves no gap; a key that a command changes is signalled, with three exceptions; a value with a
      time of expiry is read until that time and not after it.
    - Errors: truncated and corrupt dumps, malformed requests, unbalanced quotes,
      overflow of bit fields, failing sockets, each with the result the code gives.
    - Examples marked as such document behaviour that differs from a comment or is
      undefined (sdsll2str_min, signed_overflow_faults, crc64_initial,
      torn_transaction_keeps_multi, merge_with_empty_loses_tail, bad_offset_in_stream,
      commands_overflow, select_wraps, unsignalled, set_stops_the_server,
      later_in_the_file, flushall_not_written, argument_end_unchecked, single_byte_overread).

    ** Bounds and fuel

    Loops are structural where the source counts; elsewhere they have fuel, and the
    theorems show that the fuel given by the model is enough: the number of elements plus
    one for searches in intset, glob patterns and lists; 64 rounds for _dictNextPower and
    7 for rev; the table length plus one for the expansions of a cursor; the length plus
    one for skip list walks; 3, 11 and 20 rounds for decimal conversions of 64 bits; the
    input length plus one for compression, decompression, splitting and bit counting,
    65 for the bits of a word; the number of bytes and nodes queued for sending;
    the number of arguments left, and of bytes received, for the parser; the length of the block for
    the walks over a ziplist; the number of queued commands for EXEC; the number of bytes fed plus one for the
    circular backlog, and three rounds for reading it.  The absence of aborts of the commands is shown for
    clocks and numbers up to 2^53 and strings up to 512 megabytes, far beyond real ones.  Sizes are
    bounded as on a 64-bit host: intset and ziplist blocks below 2^32 bytes, dictionaries of at most
    2^59 entries (tables of 2^60), skip lists below 2^32 nodes, strings below 2^60
    bytes, saved strings below 2^31, the blocks of an output buffer below 2^64 - 2^16 in all.

    ** Not modelled

    INCRBYFLOAT, KEYS, SCAN and RANDOMKEY, the sampling of the expiry cycle, lazy freeing and eviction; the commands
    on lists, sets, hashes, sorted sets and streams, whose values are opaque in the key space, and the other
    compact encodings below them (listpack, zipmap, quicklist, rax); the replica side of replication,
    cluster and sentinel beside the slot function; whole dumps, scripting,
    modules, the event loop, sockets and processes, and the vendored libraries.  Of the modelled
    files, floating point formatting, the printf style string functions, dict
    iterators and random sampling, and the ziplist encoding of sorted sets are left
    out.  Log messages have no counterpart. *)
From stdpp Require Import prelude list list_numbers.
From Stdlib Require Import ZArith Lia.

Local Open Scope Z_scope.

(** ** Machine integers *)

(** C integers are mathematical integers; the wrap-around of an unsigned
    type and the two's complement reading of a signed type are written out
    by these functions wherever the source relies on them. *)
Definition u8 (z : Z) : Z := z mod 2 ^ 8.
Definition u16 (z : Z) : Z := z mod 2 ^ 16.
Definition u32 (z : Z) : Z := z mod 2 ^ 32.
Definition u64 (z : Z) : Z := z mod 2 ^ 64.

(** The signed reading of the low [8*n] bits of [z]. *)
Definition sN (n : nat) (z : Z) : Z :=
  let w := 2 ^ (8 * Z.of_nat n) in
  let m := z mod w in
  if m <? w / 2 then m else m - w.
Definition s32 (z : Z) : Z := sN 4 z.
Definition s64 (z : Z) : Z := sN 8 z.

Definition INT16_MIN : Z := - 2 ^ 15.
Definition INT16_MAX : Z := 2 ^ 15 - 1.
Definition INT32_MIN : Z := - 2 ^ 31.
Definition INT32_MAX : Z := 2 ^ 31 - 1.
Definition LLONG_MIN : Z := - 2 ^ 63.
Definition LLONG_MAX : Z := 2 ^ 63 - 1.
Definition ULLONG_MAX : Z := 2 ^ 64 - 1.
Definition LONG_MAX : Z := 2 ^ 63 - 1.
Definition LONG_MIN : Z := - 2 ^ 63.

(** ** Notation *)

Declare Scope redis_scope.
Delimit Scope redis_scope with redis.

(** [assert! b ;; e] is [e] guarded by a condition whose failure is undefined
    behaviour or an aborted assertion of the source: the model then has no
    result. *)
Notation "'assert!' b ;; e" := (if b then e else None)
  (at level 100, b at level 10, e at level 200, right associativity,
   format "'assert!'  b  ;; '//' e") : redis_scope.


(** ** Automation *)

Create HintDb redis discriminated.

(** Case analysis on a boolean comparison that guards an [if], with the
    comparison turned into the proposition it decides. *)
Ltac bdestr1 :=
  match goal with
  | |- context [if ?a <? ?b then _ else _] => destruct (Z.ltb_spec a b)
  | |- context [if ?a <=? ?b then _ else _] => destruct (Z.leb_spec a b)
  | |- context [if ?a =? ?b then _ else _] => destruct (Z.eqb_spec a b)
  | H : context [if ?a <? ?b then _ else _] |- _ => destruct (Z.ltb_spec a b)
  | H : context [if ?a <=? ?b then _ else _] |- _ => destruct (Z.leb_spec a b)
  | H : context [if ?a =? ?b then _ else _] |- _ => destruct (Z.eqb_spec a b)
  end.
Ltac bdestr := rewrite ?Z.gtb_ltb, ?Z.geb_leb in *; repeat (bdestr1; try lia).

(** Turn boolean hypotheses into propositions. *)
Ltac breflect :=
  repeat match goal with
  | H : (_ && _) = true |- _ => apply andb_true_iff in H; destruct H
  | H : (_ || _) = false |- _ => apply orb_false_iff in H; destruct H
  | H : negb _ = true |- _ => apply negb_true_iff in H
  | H : negb _ = false |- _ => apply negb_false_iff in H
  | H : (_ <? _) = true |- _ => apply Z.ltb_lt in H
  | H : (_ <? _) = false |- _ => apply Z.ltb_ge in H
  | H : (_ <=? _) = true |- _ => apply Z.leb_le in H
  | H : (_ <=? _) = false |- _ => apply Z.leb_gt in H
  | H : (_ =? _) = true |- _ => apply Z.eqb_eq in H
  | H : (_ =? _) = false |- _ => apply Z.eqb_neq in H
  | H : bool_decide _ = true |- _ => apply bool_decide_eq_true in H
  | H : bool_decide _ = false |- _ => apply bool_decide_eq_false in H
  end.

(** Linear arithmetic with division and remainder by constants. *)
Ltac zdiv_lia := Z.div_mod_to_equations; lia.

(** ** Integer lemmas *)

Lemma u64_small z : 0 <= z < 2 ^ 64 -> u64 z = z.
Proof. apply Z.mod_small. Qed.

Lemma u32_small z : 0 <= z < 2 ^ 32 -> u32 z = z.
Proof. apply Z.mod_small. Qed.

Lemma u8_small z : 0 <= z < 2 ^ 8 -> u8 z = z.
Proof. apply Z.mod_small. Qed.

Lemma u64_range z : 0 <= u64 z < 2 ^ 64.
Proof. apply Z.mod_pos_bound. lia. Qed.

Lemma u32_range z : 0 <= u32 z < 2 ^ 32.
Proof. apply Z.mod_pos_bound. lia. Qed.

Lemma u8_range z : 0 <= u8 z < 2 ^ 8.
Proof. apply Z.mod_pos_bound. lia. Qed.

Lemma pow2_half k : 0 < k -> 2 ^ k = 2 ^ (k - 1) * 2.
Proof.
  intros. rewrite (Z.mul_comm _ 2), <- Z.pow_succ_r by lia. f_equal. lia.
Qed.

Lemma sN_range n z :
  (0 < n)%nat ->
  - 2 ^ (8 * Z.of_nat n - 1) <= sN n z < 2 ^ (8 * Z.of_nat n - 1).
Proof.
  intros Hn. unfold sN. rewrite (pow2_half (8 * Z.of_nat n)) by lia.
  assert (0 < 2 ^ (8 * Z.of_nat n - 1)) by (apply Z.pow_pos_nonneg; lia).
  rewrite Z.div_mul by lia.
  pose proof (Z.mod_pos_bound z (2 ^ (8 * Z.of_nat n - 1) * 2)).
  bdestr; lia.
Qed.

(** Two's complement is a section of reduction modulo the width. *)
Lemma sN_mod n z :
  (0 < n)%nat ->
  - 2 ^ (8 * Z.of_nat n - 1) <= z < 2 ^ (8 * Z.of_nat n - 1) ->
  sN n (z mod 2 ^ (8 * Z.of_nat n)) = z.
Proof.
  intros Hn Hz. unfold sN.
  assert (0 < 2 ^ (8 * Z.of_nat n - 1)) by (apply Z.pow_pos_nonneg; lia).
  rewrite (pow2_half (8 * Z.of_nat n)) by lia.
  rewrite Z.mod_mod, Z.div_mul by lia.
  set (h := 2 ^ (8 * Z.of_nat n - 1)) in *.
  destruct (Z.ltb_spec z 0).
  - replace (z mod (h * 2)) with (z + h * 2) by
      (symmetry; rewrite <- (Z.mod_add z 1) by lia; rewrite Z.mul_1_l; apply Z.mod_small; lia).
    bdestr; lia.
  - rewrite Z.mod_small by lia. bdestr; lia.
Qed.

Lemma sN_small n z :
  (0 < n)%nat ->
  - 2 ^ (8 * Z.of_nat n - 1) <= z < 2 ^ (8 * Z.of_nat n - 1) -> sN n z = z.
Proof.
  intros Hn Hz. rewrite <- (sN_mod n z Hn Hz) at 2. unfold sN.
  rewrite Z.mod_mod; [done|]. apply Z.pow_nonzero; lia.
Qed.

Lemma s32_small z : - 2 ^ 31 <= z < 2 ^ 31 -> s32 z = z.
Proof. intros. apply sN_small; [lia|done]. Qed.

Lemma s64_small z : - 2 ^ 63 <= z < 2 ^ 63 -> s64 z = z.
Proof. intros. apply sN_small; [lia|done]. Qed.

(** Bit operations on disjoint fields are arithmetic. *)
Lemma land_63 b : Z.land b 0x3F = b mod 64.
Proof. change 0x3F with (Z.ones 6). by rewrite Z.land_ones. Qed.

Lemma lor_shift a b k : 0 <= b < 2 ^ k -> 0 <= k -> Z.lor (Z.shiftl a k) b = a * 2 ^ k + b.
Proof.
  intros Hb Hk. rewrite <- Z.shiftl_mul_pow2 by done. pose proof (Z.add_lor_land (Z.shiftl a k) b) as Hadd.
  assert (Z.land (Z.shiftl a k) b = 0) as Hz; [|lia].
  apply Z.bits_inj'. intros i Hi. rewrite Z.land_spec, Z.bits_0. destruct (Z.lt_ge_cases i k).
  - by rewrite Z.shiftl_spec_low by done.
  - replace (Z.testbit b i) with false; [apply andb_false_r|]. symmetry. apply Z.testbit_false; [done|].
    rewrite Z.div_small; [done|]. split; [lia|]. apply Z.lt_le_trans with (2 ^ k); [lia|]. by apply Z.pow_le_mono_r.
Qed.

(** ** Byte strings *)

(** A byte string is a list of integers, each in [0, 256). *)
Definition is_byte (b : Z) : Prop := 0 <= b < 256.
Abbreviation bytes := (list Z) (only parsing).

(** The [n] low bytes of [z], least significant first, and the integer a
    byte string denotes. *)
Fixpoint le_bytes (n : nat) (z : Z) : list Z :=
  match n with
  | O => []
  | S n => z mod 256 :: le_bytes n (z / 256)
  end.

Fixpoint le_val (bs : list Z) : Z :=
  match bs with
  | [] => 0
  | b :: bs => b + 256 * le_val bs
  end.

Lemma length_le_bytes n z : length (le_bytes n z) = n.
Proof. revert z. induction n; simpl; auto. Qed.

Lemma le_bytes_bytes n z : Forall is_byte (le_bytes n z).
Proof.
  revert z. induction n; simpl; constructor; auto.
  apply Z.mod_pos_bound. lia.
Qed.

Lemma pow256_succ n : 2 ^ (8 * Z.of_nat (S n)) = 256 * 2 ^ (8 * Z.of_nat n).
Proof.
  replace (8 * Z.of_nat (S n)) with (8 + 8 * Z.of_nat n) by lia.
  rewrite Z.pow_add_r by lia. reflexivity.
Qed.

Lemma le_val_bytes n z : le_val (le_bytes n z) = z mod 2 ^ (8 * Z.of_nat n).
Proof.
  revert z. induction n as [|n IH]; intros z; cbn [le_bytes le_val].
  - symmetry. apply Z.mod_1_r.
  - rewrite IH, pow256_succ, Z.rem_mul_r by lia. reflexivity.
Qed.

Lemma le_bytes_val bs : Forall is_byte bs -> le_bytes (length bs) (le_val bs) = bs.
Proof.
  induction 1 as [|b bs Hb _ IH]; cbn [length le_bytes le_val]; [done|].
  unfold is_byte in Hb. f_equal.
  - rewrite Z.mul_comm, Z.mod_add by lia. apply Z.mod_small. lia.
  - rewrite Z.mul_comm, Z.div_add by lia. rewrite Z.div_small by lia. exact IH.
Qed.

Lemma le_val_range bs :
  Forall is_byte bs -> 0 <= le_val bs < 2 ^ (8 * Z.of_nat (length bs)).
Proof.
  intros H. rewrite <- (le_bytes_val bs H), le_val_bytes, length_le_bytes.
  apply Z.mod_pos_bound, Z.pow_pos_nonneg; lia.
Qed.

Lemma sN_le_bytes n z :
  (0 < n)%nat ->
  - 2 ^ (8 * Z.of_nat n - 1) <= z < 2 ^ (8 * Z.of_nat n - 1) ->
  sN n (le_val (le_bytes n z)) = z.
Proof. intros. rewrite le_val_bytes. by apply sN_mod. Qed.

(** ** Byte buffers

    A block of memory is a byte string; an access outside it has no result.
    Offsets and lengths are C integers. *)
Definition in_buf (buf : list Z) (off n : Z) : bool :=
  (0 <=? off) && (0 <=? n) && (off + n <=? Z.of_nat (length buf)).

Definition mread (buf : list Z) (off n : Z) : option (list Z) :=
  if in_buf buf off n
  then Some (take (Z.to_nat n) (drop (Z.to_nat off) buf)) else None.

Definition mwrite (buf : list Z) (off : Z) (bs : list Z) : option (list Z) :=
  if in_buf buf off (Z.of_nat (length bs))
  then Some (take (Z.to_nat off) buf ++ bs ++ drop (Z.to_nat off + length bs) buf)
  else None.

(** memmove(buf+dst, buf+src, n) within one block. *)
Definition memmove (buf : list Z) (dst src n : Z) : option (list Z) :=
  bs ← mread buf src n; mwrite buf dst bs.

Lemma mread_length buf off n bs :
  mread buf off n = Some bs -> Z.of_nat (length bs) = n.
Proof.
  unfold mread, in_buf. intros H. destruct (_ && _) eqn:E; simplify_eq. breflect.
  rewrite length_take, length_drop. lia.
Qed.

Lemma mwrite_length buf off bs buf' :
  mwrite buf off bs = Some buf' -> length buf' = length buf.
Proof.
  unfold mwrite, in_buf. intros H. destruct (_ && _) eqn:E; simplify_eq. breflect.
  rewrite !length_app, length_take, length_drop. lia.
Qed.

Lemma mwrite_app pre old bs post off :
  off = Z.of_nat (length pre) -> length old = length bs ->
  mwrite (pre ++ old ++ post) off bs = Some (pre ++ bs ++ post).
Proof.
  intros -> Hl. unfold mwrite, in_buf. rewrite !length_app.
  replace (_ && _) with true by
    (symmetry; rewrite !andb_true_iff, !Z.leb_le; lia).
  rewrite Nat2Z.id, take_app_length. do 3 f_equal.
  rewrite <- Hl, app_assoc. rewrite drop_app_length' by (rewrite length_app; lia). done.
Qed.

Lemma mread_app pre bs post off n :
  off = Z.of_nat (length pre) -> n = Z.of_nat (length bs) ->
  mread (pre ++ bs ++ post) off n = Some bs.
Proof.
  intros -> ->. unfold mread, in_buf. rewrite !length_app.
  replace (_ && _) with true by
    (symmetry; rewrite !andb_true_iff, !Z.leb_le; lia).
  rewrite !Nat2Z.id, drop_app_length, take_app_length. done.
Qed.

(** Moving a segment one step to the right, over free space after it, and to
    the left, over a hole before it. *)
Lemma memmove_right A B J dst src n :
  src = Z.of_nat (length A) -> n = Z.of_nat (length B) ->
  dst = src + Z.of_nat (length J) ->
  memmove (A ++ B ++ J) dst src n = Some (A ++ take (length J) (B ++ J) ++ B).
Proof.
  intros -> -> ->. unfold memmove. rewrite mread_app by done. simpl.
  rewrite <- (take_drop (length J) (B ++ J)) at 1.
  assert (length (take (length J) (B ++ J)) = length J) as Hl
    by (rewrite length_take, length_app; lia).
  rewrite app_assoc, <- (app_nil_r (drop _ _)), mwrite_app.
  - by rewrite app_nil_r, <- app_assoc.
  - rewrite length_app, Hl. lia.
  - rewrite length_drop, length_app. lia.
Qed.

Lemma memmove_left A X B dst src n :
  dst = Z.of_nat (length A) -> n = Z.of_nat (length B) ->
  src = dst + Z.of_nat (length X) ->
  memmove (A ++ X ++ B) dst src n = Some (A ++ B ++ drop (length B) (X ++ B)).
Proof.
  intros -> -> ->. unfold memmove.
  replace (mread _ _ _) with (Some B); simpl.
  - rewrite <- (take_drop (length B) (X ++ B)) at 1.
    apply mwrite_app; [done|]. rewrite length_take, length_app. lia.
  - symmetry. replace (A ++ X ++ B) with ((A ++ X) ++ B ++ []) by (by rewrite app_nil_r, app_assoc).
    apply mread_app; rewrite ?length_app; lia.
Qed.

#[export] Hint Resolve u64_range u32_range u8_range le_bytes_bytes : redis.
