(* ===== verification/Endianconv.v ===== *)
(** * Byte order conversion (src/redis-stable/src/endianconv.c, endianconv.h)

    The in-place byte reversals [memrev16/32/64], the value conversions
    [intrev16/32/64], the "only on big endian hosts" macros and the
    network-order conversions.  The byte order of the host is a class
    parameter, so every theorem below and every theorem of the components that
    serialise integers holds on both kinds of host. *)
From stdpp Require Import prelude list.
From Stdlib Require Import ZArith Lia.
From S2P Require Import Prelude.

Local Open Scope Z_scope.

(** BYTE_ORDER == BIG_ENDIAN *)
Class Host := { big_endian : bool }.

(** How the host lays out an [n]-byte integer object in memory, and how it
    reads one back. *)
Definition host_store `{Host} (n : nat) (v : Z) : list Z :=
  if big_endian then reverse (le_bytes n v) else le_bytes n v.
Definition host_load `{Host} (bs : list Z) : Z :=
  if big_endian then le_val (reverse bs) else le_val bs.

(** t = x[i]; x[i] = x[j]; x[j] = t; *)
Definition swap_bytes (i j : nat) (x : list Z) : option (list Z) :=
  t ← x !! i;
  b ← x !! j;
  Some (<[j := t]> (<[i := b]> x)).

Definition memrev16 (x : list Z) : option (list Z) := swap_bytes 0 1 x.

Definition memrev32 (x : list Z) : option (list Z) :=
  x ← swap_bytes 0 3 x;
  swap_bytes 1 2 x.

Definition memrev64 (x : list Z) : option (list Z) :=
  x ← swap_bytes 0 7 x;
  x ← swap_bytes 1 6 x;
  x ← swap_bytes 2 5 x;
  swap_bytes 3 4 x.

Section Conversions.
Context `{Host}.

Definition intrev16 (v : Z) : option Z := host_load <$> memrev16 (host_store 2 v).
Definition intrev32 (v : Z) : option Z := host_load <$> memrev32 (host_store 4 v).
Definition intrev64 (v : Z) : option Z := host_load <$> memrev64 (host_store 8 v).

Definition memrev16ifbe (p : list Z) : option (list Z) :=
  if big_endian then memrev16 p else Some p.
Definition memrev32ifbe (p : list Z) : option (list Z) :=
  if big_endian then memrev32 p else Some p.
Definition memrev64ifbe (p : list Z) : option (list Z) :=
  if big_endian then memrev64 p else Some p.

Definition intrev32ifbe (v : Z) : option Z :=
  if big_endian then intrev32 v else Some v.

Definition intrev16ifbe (v : Z) : option Z :=
  if big_endian then intrev16 v else Some v.

Definition htonu64 (v : Z) : option Z :=
  if big_endian then Some v else intrev64 v.
Definition ntohu64 (v : Z) : option Z :=
  if big_endian then Some v else intrev64 v.
End Conversions.

(** ** Lemmas *)

Lemma length_host_store `{Host} n v : length (host_store n v) = n.
Proof.
  unfold host_store. destruct big_endian; rewrite ?length_reverse; apply length_le_bytes.
Qed.

Lemma host_load_store `{Host} n v : host_load (host_store n v) = v mod 2 ^ (8 * Z.of_nat n).
Proof.
  unfold host_load, host_store. destruct big_endian; rewrite ?reverse_involutive; apply le_val_bytes.
Qed.

(** On a block of exactly the object's size each reversal is [reverse]. *)
Ltac destr_len x Hl :=
  repeat (destruct x as [|? x]; simpl in Hl; [lia|]); destruct x; simpl in Hl; [|lia].

Lemma memrev16_reverse x : length x = 2%nat -> memrev16 x = Some (reverse x).
Proof. intros Hl. destr_len x Hl. reflexivity. Qed.
Lemma memrev32_reverse x : length x = 4%nat -> memrev32 x = Some (reverse x).
Proof. intros Hl. destr_len x Hl. reflexivity. Qed.
Lemma memrev64_reverse x : length x = 8%nat -> memrev64 x = Some (reverse x).
Proof. intros Hl. destr_len x Hl. reflexivity. Qed.

(** A host load after the conditional reversal reads a little endian object,
    and a host store followed by it writes one: the stored format does not
    depend on the host. *)
Section IfBe.
Context `{Host}.

Lemma load16ifbe x : length x = 2%nat -> host_load <$> memrev16ifbe x = Some (le_val x).
Proof.
  intros Hl. unfold memrev16ifbe, host_load. destruct big_endian; [|done].
  rewrite memrev16_reverse by done. simpl. by rewrite reverse_involutive.
Qed.
Lemma load32ifbe x : length x = 4%nat -> host_load <$> memrev32ifbe x = Some (le_val x).
Proof.
  intros Hl. unfold memrev32ifbe, host_load. destruct big_endian; [|done].
  rewrite memrev32_reverse by done. simpl. by rewrite reverse_involutive.
Qed.
Lemma load64ifbe x : length x = 8%nat -> host_load <$> memrev64ifbe x = Some (le_val x).
Proof.
  intros Hl. unfold memrev64ifbe, host_load. destruct big_endian; [|done].
  rewrite memrev64_reverse by done. simpl. by rewrite reverse_involutive.
Qed.

Lemma store16ifbe v : memrev16ifbe (host_store 2 v) = Some (le_bytes 2 v).
Proof.
  unfold memrev16ifbe. pose proof (length_host_store 2 v). unfold host_store in *.
  destruct big_endian; [|done]. rewrite memrev16_reverse by done. by rewrite reverse_involutive.
Qed.
Lemma store32ifbe v : memrev32ifbe (host_store 4 v) = Some (le_bytes 4 v).
Proof.
  unfold memrev32ifbe. pose proof (length_host_store 4 v). unfold host_store in *.
  destruct big_endian; [|done]. rewrite memrev32_reverse by done. by rewrite reverse_involutive.
Qed.
Lemma store64ifbe v : memrev64ifbe (host_store 8 v) = Some (le_bytes 8 v).
Proof.
  unfold memrev64ifbe. pose proof (length_host_store 8 v). unfold host_store in *.
  destruct big_endian; [|done]. rewrite memrev64_reverse by done. by rewrite reverse_involutive.
Qed.

(** The same for an integer in memory that is converted by value. *)
Lemma host_store_load x : Forall is_byte x -> host_store (length x) (host_load x) = x.
Proof.
  intros Hb. unfold host_store, host_load. destruct big_endian; [|by apply le_bytes_val].
  rewrite <- (length_reverse x), le_bytes_val by (by apply Forall_reverse). apply reverse_involutive.
Qed.
Lemma value16ifbe x : length x = 2%nat -> Forall is_byte x -> intrev16ifbe (host_load x) = Some (le_val x).
Proof.
  intros Hl Hb. unfold intrev16ifbe, intrev16. rewrite <- Hl, host_store_load, memrev16_reverse by done.
  unfold host_load. destruct big_endian; [|done]. simpl. by rewrite reverse_involutive.
Qed.
Lemma value32ifbe x : length x = 4%nat -> Forall is_byte x -> intrev32ifbe (host_load x) = Some (le_val x).
Proof.
  intros Hl Hb. unfold intrev32ifbe, intrev32. rewrite <- Hl, host_store_load, memrev32_reverse by done.
  unfold host_load. destruct big_endian; [|done]. simpl. by rewrite reverse_involutive.
Qed.
Lemma stored16ifbe v : exists w, intrev16ifbe v = Some w /\ host_store 2 w = le_bytes 2 v.
Proof.
  unfold intrev16ifbe, intrev16. rewrite memrev16_reverse by apply length_host_store. unfold host_store, host_load.
  destruct big_endian; [|by eexists]. eexists. split; [done|]. rewrite !reverse_involutive.
  rewrite <- (length_le_bytes 2 v) at 1. rewrite <- (length_reverse (le_bytes 2 v)) at 1.
  rewrite le_bytes_val by apply Forall_reverse, le_bytes_bytes. apply reverse_involutive.
Qed.
Lemma stored32ifbe v : exists w, intrev32ifbe v = Some w /\ host_store 4 w = le_bytes 4 v.
Proof.
  unfold intrev32ifbe, intrev32. rewrite memrev32_reverse by apply length_host_store. unfold host_store, host_load.
  destruct big_endian; [|by eexists]. eexists. split; [done|]. rewrite !reverse_involutive.
  rewrite <- (length_le_bytes 4 v) at 1. rewrite <- (length_reverse (le_bytes 4 v)) at 1.
  rewrite le_bytes_val by apply Forall_reverse, le_bytes_bytes. apply reverse_involutive.
Qed.

Lemma intrev32_total v : is_Some (intrev32 v).
Proof. unfold intrev32. rewrite memrev32_reverse by apply length_host_store. done. Qed.

(** Reversing the bytes of a 32-bit value twice is the identity. *)
Lemma intrev32_involutive v w : 0 <= v < 2 ^ 32 -> intrev32 v = Some w -> intrev32 w = Some v.
Proof.
  intros Hv. unfold intrev32. rewrite memrev32_reverse by apply length_host_store.
  simpl. intros [= <-]. rewrite memrev32_reverse by apply length_host_store. simpl.
  assert (host_store 4 (host_load (reverse (host_store 4 v))) = reverse (host_store 4 v)) as ->.
  { assert (length (reverse (host_store 4 v)) = 4%nat) as Hl
      by (rewrite length_reverse; apply length_host_store).
    assert (Forall is_byte (reverse (host_store 4 v))) as Hb.
    { apply Forall_reverse. unfold host_store.
      destruct big_endian; rewrite ?Forall_reverse; apply le_bytes_bytes. }
    revert Hl Hb. generalize (reverse (host_store 4 v)) as bs. intros bs Hl Hb.
    unfold host_store, host_load. rewrite <- Hl. destruct big_endian.
    - rewrite <- (length_reverse bs), le_bytes_val by (by apply Forall_reverse).
      apply reverse_involutive.
    - by apply le_bytes_val. }
  rewrite reverse_involutive, host_load_store. f_equal. apply Z.mod_small, Hv.
Qed.

Lemma intrev32ifbe_total v : is_Some (intrev32ifbe v).
Proof. unfold intrev32ifbe. destruct big_endian; [apply intrev32_total|done]. Qed.

Lemma intrev32ifbe_involutive v w :
  0 <= v < 2 ^ 32 -> intrev32ifbe v = Some w -> intrev32ifbe w = Some v.
Proof.
  unfold intrev32ifbe. destruct big_endian; [apply intrev32_involutive|].
  intros _ [= ->]. done.
Qed.
End IfBe.
