(* ===== verification/Intset.v ===== *)
(** * Integer sets (src/redis-stable/src/intset.c, intset.h)

    A sorted array of distinct signed integers, stored as raw bytes with the
    narrowest of three encodings that fits all of them.  The model keeps the
    byte block: reads and writes go through the encoding, an insertion that
    needs a wider encoding rewrites the block in place from the back, and
    insertion and removal move the tail with memmove.  [intset_rep] relates a
    block to the list of its elements; the operations are shown to implement
    finite sets of 64-bit integers. *)
From stdpp Require Import prelude list gmap sorting.
From Stdlib Require Import ZArith Lia.
From S2P Require Import Prelude Endianconv.

Local Open Scope Z_scope.
Local Open Scope redis_scope.

Definition INTSET_ENC_INT16 : Z := 2.
Definition INTSET_ENC_INT32 : Z := 4.
Definition INTSET_ENC_INT64 : Z := 8.

(** struct intset: the two header fields hold the value as the host reads it
    from memory, [is_contents] is the flexible array member, a byte block. *)
Record intset := mk_intset {
  is_encoding : Z;
  is_length : Z;
  is_contents : list Z;
}.

Definition _intsetValueEncoding (v : Z) : Z :=
  if (v <? INT32_MIN) || (v >? INT32_MAX) then INTSET_ENC_INT64
  else if (v <? INT16_MIN) || (v >? INT16_MAX) then INTSET_ENC_INT32
  else INTSET_ENC_INT16.

Section Ops.
Context `{Host}.
(** The contents of freshly allocated bytes, by position: unspecified. *)
Variable uninit : nat -> Z.

(** zrealloc() of the contents block to [n] bytes. *)
Definition realloc_contents (c : list Z) (n : nat) : list Z :=
  take n c ++ map uninit (seq (length c) (n - length c)).

Definition _intsetGetEncoded (s : intset) (pos enc : Z) : option Z :=
  if enc =? INTSET_ENC_INT64 then
    m ← mread (is_contents s) (8 * pos) 8;
    v64 ← host_load <$> memrev64ifbe m;
    Some (sN 8 v64)
  else if enc =? INTSET_ENC_INT32 then
    m ← mread (is_contents s) (4 * pos) 4;
    v32 ← host_load <$> memrev32ifbe m;
    Some (sN 4 v32)
  else
    m ← mread (is_contents s) (2 * pos) 2;
    v16 ← host_load <$> memrev16ifbe m;
    Some (sN 2 v16).

Definition _intsetGet (s : intset) (pos : Z) : option Z :=
  enc ← intrev32ifbe (is_encoding s);
  _intsetGetEncoded s pos (u8 enc).

Definition set_contents (s : intset) (c : list Z) : intset :=
  mk_intset (is_encoding s) (is_length s) c.

Definition _intsetSet (s : intset) (pos value : Z) : option intset :=
  encoding ← intrev32ifbe (is_encoding s);
  if encoding =? INTSET_ENC_INT64 then
    m ← memrev64ifbe (host_store 8 value);
    set_contents s <$> mwrite (is_contents s) (8 * pos) m
  else if encoding =? INTSET_ENC_INT32 then
    m ← memrev32ifbe (host_store 4 value);
    set_contents s <$> mwrite (is_contents s) (4 * pos) m
  else
    m ← memrev16ifbe (host_store 2 value);
    set_contents s <$> mwrite (is_contents s) (2 * pos) m.

Definition intsetNew : option intset :=
  enc ← intrev32ifbe INTSET_ENC_INT16;
  Some (mk_intset enc 0 []).

Definition intsetResize (s : intset) (len : Z) : option intset :=
  enc ← intrev32ifbe (is_encoding s);
  let size := u32 (len * enc) in
  Some (set_contents s (realloc_contents (is_contents s) (Z.to_nat size))).

(** The binary search loop: [None] when the fuel runs out. *)
Fixpoint intsetSearch_loop (fuel : nat) (s : intset) (value min max mid cur : Z)
    : option (Z * Z * Z) :=
  match fuel with
  | O => None
  | S fuel =>
    if max >=? min then
      let mid := Z.shiftr (u32 (u32 min + u32 max)) 1 in
      cur ← _intsetGet s mid;
      if value >? cur then intsetSearch_loop fuel s value (mid + 1) max mid cur
      else if value <? cur then intsetSearch_loop fuel s value min (mid - 1) mid cur
      else Some (min, mid, cur)
    else Some (min, mid, cur)
  end.

(** Returns the found flag and the position. *)
Definition intsetSearch (s : intset) (value : Z) : option (bool * Z) :=
  len ← intrev32ifbe (is_length s);
  let max := s32 (len - 1) in
  if len =? 0 then Some (false, 0)
  else
    last ← _intsetGet s max;
    if value >? last then Some (false, len)
    else
      first ← _intsetGet s 0;
      if value <? first then Some (false, 0)
      else
        '(min, mid, cur) ← intsetSearch_loop (S (Z.to_nat len)) s value 0 max (-1) (-1);
        if value =? cur then Some (true, u32 mid) else Some (false, u32 min).

(** while(length--) _intsetSet(is,length+prepend,_intsetGetEncoded(is,length,curenc)); *)
Fixpoint upgrade_loop (length : nat) (s : intset) (prepend curenc : Z) : option intset :=
  match length with
  | O => Some s
  | S length =>
    v ← _intsetGetEncoded s (Z.of_nat length) curenc;
    s ← _intsetSet s (Z.of_nat length + prepend) v;
    upgrade_loop length s prepend curenc
  end.

Definition set_encoding (s : intset) (e : Z) : intset :=
  mk_intset e (is_length s) (is_contents s).
Definition set_length (s : intset) (l : Z) : intset :=
  mk_intset (is_encoding s) l (is_contents s).

(** is->length = intrev32ifbe(intrev32ifbe(is->length)+1); *)
Definition incr_length (s : intset) : option intset :=
  len ← intrev32ifbe (is_length s);
  len' ← intrev32ifbe (u32 (len + 1));
  Some (set_length s len').

Definition intsetUpgradeAndAdd (s : intset) (value : Z) : option intset :=
  curenc ← u8 <$> intrev32ifbe (is_encoding s);
  let newenc := _intsetValueEncoding value in
  len ← intrev32ifbe (is_length s);
  let prepend := if value <? 0 then 1 else 0 in
  enc' ← intrev32ifbe newenc;
  s ← intsetResize (set_encoding s enc') (u32 (len + 1));
  s ← upgrade_loop (Z.to_nat (s32 len)) s prepend curenc;
  s ← (if prepend =? 1 then _intsetSet s 0 value
        else _intsetSet s (s32 len) value);
  incr_length s.

Definition intsetMoveTail (s : intset) (from to : Z) : option intset :=
  len ← intrev32ifbe (is_length s);
  encoding ← intrev32ifbe (is_encoding s);
  let n := u32 (len - from) in
  let w := if encoding =? INTSET_ENC_INT64 then 8
           else if encoding =? INTSET_ENC_INT32 then 4 else 2 in
  set_contents s <$> memmove (is_contents s) (w * to) (w * from) (u32 (n * w)).

(** Returns the set and the success flag. *)
Definition intsetAdd (s : intset) (value : Z) : option (intset * bool) :=
  let valenc := _intsetValueEncoding value in
  enc ← intrev32ifbe (is_encoding s);
  if valenc >? enc then
    s ← intsetUpgradeAndAdd s value;
    Some (s, true)
  else
    '(found, pos) ← intsetSearch s value;
    if (found : bool) then Some (s, false)
    else
      len ← intrev32ifbe (is_length s);
      s ← intsetResize s (u32 (len + 1));
      s ← (if pos <? len then intsetMoveTail s pos (u32 (pos + 1)) else Some s);
      s ← _intsetSet s (s32 pos) value;
      s ← incr_length s;
      Some (s, true).

Definition intsetRemove (s : intset) (value : Z) : option (intset * bool) :=
  let valenc := _intsetValueEncoding value in
  enc ← intrev32ifbe (is_encoding s);
  if valenc <=? enc then
    '(found, pos) ← intsetSearch s value;
    if (found : bool) then
      len ← intrev32ifbe (is_length s);
      s ← (if pos <? u32 (len - 1) then intsetMoveTail s (u32 (pos + 1)) pos else Some s);
      s ← intsetResize s (u32 (len - 1));
      len' ← intrev32ifbe (u32 (len - 1));
      Some (set_length s len', true)
    else Some (s, false)
  else Some (s, false).

Definition intsetFind (s : intset) (value : Z) : option bool :=
  let valenc := _intsetValueEncoding value in
  enc ← intrev32ifbe (is_encoding s);
  if valenc <=? enc then fst <$> intsetSearch s value else Some false.

(** [rnd] is the value rand() returns. *)
Definition intsetRandom (s : intset) (rnd : Z) : option Z :=
  len ← intrev32ifbe (is_length s);
  assert! (negb (len =? 0)) ;;
  _intsetGet s (s32 (rnd mod len)).

(** [Some v] when the position is in range, [None] inside when it is not. *)
Definition intsetGet (s : intset) (pos : Z) : option (option Z) :=
  len ← intrev32ifbe (is_length s);
  if pos <? len then v ← _intsetGet s (s32 pos); Some (Some v) else Some None.

Definition intsetLen (s : intset) : option Z := intrev32ifbe (is_length s).

Definition intsetBlobLen (s : intset) : option Z :=
  len ← intrev32ifbe (is_length s);
  enc ← intrev32ifbe (is_encoding s);
  Some (u64 (8 + u32 (len * enc))).
End Ops.

(** ** Representation *)

Definition enc_ok (e : Z) : Prop := e = 2 \/ e = 4 \/ e = 8.
Definition in_enc (e v : Z) : Prop := - 2 ^ (8 * e - 1) <= v < 2 ^ (8 * e - 1).

(** The bytes of a list of integers under encoding [e]. *)
Definition encode (e : Z) (xs : list Z) : list Z := xs ≫= le_bytes (Z.to_nat e).

(** [s] stores exactly the strictly increasing list [xs], each in range of the
    encoding [e], and the block is exactly as long as the elements need. *)
Record intset_rep `{Host} (s : intset) (e : Z) (xs : list Z) : Prop := {
  rep_enc_ok : enc_ok e;
  rep_enc : intrev32ifbe (is_encoding s) = Some e;
  rep_len : intrev32ifbe (is_length s) = Some (Z.of_nat (length xs));
  rep_contents : is_contents s = encode e xs;
  rep_range : Forall (in_enc e) xs;
  rep_sorted : StronglySorted Z.lt xs;
  rep_bound : 8 * Z.of_nat (length xs) < 2 ^ 32;
}.

Lemma encode_app e xs ys : encode e (xs ++ ys) = encode e xs ++ encode e ys.
Proof. apply bind_app. Qed.

Lemma encode_cons e x xs : encode e (x :: xs) = le_bytes (Z.to_nat e) x ++ encode e xs.
Proof. reflexivity. Qed.

Lemma length_encode e xs : length (encode e xs) = (Z.to_nat e * length xs)%nat.
Proof.
  induction xs as [|x xs IH]; [simpl; lia|].
  rewrite encode_cons, length_app, length_le_bytes, IH. simpl. lia.
Qed.

Lemma enc_ok_pos e : enc_ok e -> 2 <= e <= 8.
Proof. unfold enc_ok. lia. Qed.

Lemma in_enc_mono e e' v : enc_ok e -> e <= e' -> in_enc e v -> in_enc e' v.
Proof.
  unfold in_enc. intros He Hle Hv. apply enc_ok_pos in He.
  assert (2 ^ (8 * e - 1) <= 2 ^ (8 * e' - 1)) by (apply Z.pow_le_mono_r; lia). lia.
Qed.

Lemma valueEncoding_ok v : enc_ok (_intsetValueEncoding v).
Proof. unfold _intsetValueEncoding, enc_ok. repeat case_match; vm_compute; tauto. Qed.

(** The encoding chosen for a value is the narrowest one that holds it. *)
Lemma valueEncoding_range e v :
  enc_ok e -> LLONG_MIN <= v <= LLONG_MAX -> (_intsetValueEncoding v <= e <-> in_enc e v).
Proof.
  unfold _intsetValueEncoding, in_enc, INTSET_ENC_INT64, INTSET_ENC_INT32, INTSET_ENC_INT16,
    INT16_MIN, INT16_MAX, INT32_MIN, INT32_MAX, LLONG_MIN, LLONG_MAX.
  rewrite !Z.gtb_ltb. intros He Hv.
  destruct (Z.ltb_spec v (- 2 ^ 31)), (Z.ltb_spec (2 ^ 31 - 1) v),
    (Z.ltb_spec v (- 2 ^ 15)), (Z.ltb_spec (2 ^ 15 - 1) v); simpl;
  destruct He as [->|[->| ->]]; simpl; lia.
Qed.

Lemma enc_u8 e : enc_ok e -> u8 e = e.
Proof. intros He%enc_ok_pos. apply u8_small. lia. Qed.

(** ** Cell access *)

(** Decide which encoding branch is taken, for a literal encoding. *)
Ltac enc_cases :=
  cbv beta iota delta [INTSET_ENC_INT64 INTSET_ENC_INT32 Z.eqb Pos.eqb].

Section Cells.
Context `{Host}.

Lemma get_cell s e v pre post pos :
  enc_ok e -> in_enc e v ->
  is_contents s = pre ++ le_bytes (Z.to_nat e) v ++ post ->
  Z.of_nat (length pre) = e * pos ->
  _intsetGetEncoded s pos e = Some v.
Proof.
  intros He Hv Hc Hp. unfold _intsetGetEncoded. rewrite Hc.
  destruct He as [->|[->| ->]]; enc_cases;
    rewrite mread_app by (rewrite ?length_le_bytes; lia); cbn [mbind option_bind];
    [rewrite load16ifbe by apply length_le_bytes
    |rewrite load32ifbe by apply length_le_bytes
    |rewrite load64ifbe by apply length_le_bytes]; cbn [mbind option_bind];
    f_equal; (rewrite sN_le_bytes; [done|lia|exact Hv]).
Qed.

Lemma set_cell s e v pre old post pos :
  enc_ok e -> intrev32ifbe (is_encoding s) = Some e ->
  is_contents s = pre ++ old ++ post ->
  length old = Z.to_nat e -> Z.of_nat (length pre) = e * pos ->
  _intsetSet s pos v = Some (set_contents s (pre ++ le_bytes (Z.to_nat e) v ++ post)).
Proof.
  intros He Henc Hc Ho Hp. unfold _intsetSet. rewrite Henc, Hc.
  destruct He as [->|[->| ->]]; cbn [mbind option_bind]; enc_cases;
    [rewrite store16ifbe|rewrite store32ifbe|rewrite store64ifbe]; cbn [mbind option_bind];
    rewrite mwrite_app; rewrite ?length_le_bytes; auto; lia.
Qed.

Lemma rep_get s e xs i v :
  intset_rep s e xs -> xs !! i = Some v -> _intsetGet s (Z.of_nat i) = Some v.
Proof.
  intros [He Henc _ Hc Hr _ _] Hi. unfold _intsetGet. rewrite Henc. simpl. rewrite enc_u8 by done.
  pose proof (take_drop_middle xs i v Hi) as Hx.
  apply (get_cell _ _ _ (encode e (take i xs)) (encode e (drop (S i) xs))); [done| | |].
  - eapply Forall_lookup_1; eauto.
  - by rewrite Hc, <- Hx, encode_app, encode_cons, Hx.
  - rewrite length_encode, length_take. apply lookup_lt_Some in Hi. apply enc_ok_pos in He. nia.
Qed.
End Cells.

(** ** Binary search *)

(** [pos] is where [v] is, or where it has to be inserted. *)
Definition search_post (xs : list Z) (v : Z) (found : bool) (pos : nat) : Prop :=
  if found then xs !! pos = Some v
  else (pos <= length xs)%nat /\ forall i x, xs !! i = Some x ->
         ((i < pos)%nat -> x < v) /\ ((pos <= i)%nat -> v < x).

Lemma search_post_notin xs v pos : search_post xs v false pos -> v ∉ xs.
Proof.
  intros [_ Hp] [i Hi]%list_elem_of_lookup. specialize (Hp _ _ Hi) as [H1 H2].
  destruct (decide (i < pos)%nat); [specialize (H1 ltac:(lia))|specialize (H2 ltac:(lia))]; lia.
Qed.

Lemma sorted_lookup_lt xs i j x y :
  StronglySorted Z.lt xs -> (i < j)%nat -> xs !! i = Some x -> xs !! j = Some y -> x < y.
Proof.
  intros Hs. revert i j. induction Hs as [|z xs _ IH Hz]; intros i j Hij Hi Hj; [done|].
  destruct i as [|i], j as [|j]; simpl in *; try lia; simplify_eq.
  - eapply (Forall_lookup_1 _ _ _ _ Hz Hj).
  - eapply IH; [|eauto..]; lia.
Qed.

Section Search.
Context `{Host} (s : intset) (e : Z) (xs : list Z) (v : Z).
Hypothesis Hrep : intset_rep s e xs.

(** Everything left of [min] is smaller than [v], everything right of [max]
    is larger. *)
Definition bs_inv (min max : Z) : Prop :=
  0 <= min /\ min <= max + 1 /\ max < Z.of_nat (length xs) /\
  forall i x, xs !! i = Some x ->
    (Z.of_nat i < min -> x < v) /\ (max < Z.of_nat i -> v < x).

Lemma search_loop_spec fuel min max mid cur :
  (Z.to_nat (max - min + 1) < fuel)%nat -> bs_inv min max ->
  (min <= max \/ cur <> v) ->
  exists min' mid' cur',
    intsetSearch_loop fuel s v min max mid cur = Some (min', mid', cur') /\
    ((cur' = v /\ 0 <= mid' < 2 ^ 31 /\ search_post xs v true (Z.to_nat mid')) \/
     (cur' <> v /\ 0 <= min' < 2 ^ 32 /\ search_post xs v false (Z.to_nat min'))).
Proof.
  pose proof (rep_bound _ _ _ Hrep) as Hb. pose proof (rep_sorted _ _ _ Hrep) as Hs.
  revert min max mid cur. induction fuel as [|fuel IH]; intros min max mid cur Hf Hinv Hcur; [lia|].
  destruct Hinv as (H0 & H1 & H2 & Hx). cbn [intsetSearch_loop]. rewrite Z.geb_leb.
  destruct (Z.leb_spec min max) as [Hle|Hgt].
  - rewrite (u32_small min), (u32_small max), u32_small by lia.
    rewrite Z.shiftr_div_pow2 by lia. change (2 ^ 1) with 2. set (m := (min + max) / 2).
    assert (min <= m <= max) as Hm by (unfold m; split; [apply Z.div_le_lower_bound|apply Z.div_le_upper_bound]; lia).
    destruct (lookup_lt_is_Some_2 xs (Z.to_nat m)) as [c Hc]; [lia|].
    assert (_intsetGet s m = Some c) as Hget
      by (rewrite <- (Z2Nat.id m) by lia; eapply rep_get; eauto).
    rewrite Hget. cbn [mbind option_bind].
    rewrite Z.gtb_ltb. destruct (Z.ltb_spec c v) as [Hcv|Hcv].
    + apply IH; [lia| |lia]. split_and!; try lia. intros i x Hi. split; [|apply Hx, Hi].
      intros Hil. destruct (decide (Z.of_nat i = m)) as [Hei|]; [by simplify_eq; rewrite <- Hei, Nat2Z.id in Hc; simplify_eq|].
      destruct (decide (Z.of_nat i < m)); [|lia].
      pose proof (sorted_lookup_lt xs i (Z.to_nat m) x c Hs ltac:(lia) Hi Hc). lia.
    + destruct (Z.ltb_spec v c) as [Hvc|Hvc].
      * apply IH; [lia| |lia]. split_and!; try lia. intros i x Hi. split; [apply Hx, Hi|].
        intros Hil. destruct (decide (Z.of_nat i = m)) as [Hei|]; [by simplify_eq; rewrite <- Hei, Nat2Z.id in Hc; simplify_eq|].
        destruct (decide (m < Z.of_nat i)); [|lia].
        pose proof (sorted_lookup_lt xs (Z.to_nat m) i c x Hs ltac:(lia) Hc Hi). lia.
      * do 3 eexists. split; [done|]. left. assert (c = v) by lia. subst c. simpl. split_and!; [done|lia|lia|done].
  - do 3 eexists. split; [done|]. right. split_and!; [lia|lia|lia|].
    split; [lia|]. intros i x Hi. specialize (Hx i x Hi). lia.
Qed.

Lemma search_spec :
  exists found pos, intsetSearch s v = Some (found, Z.of_nat pos) /\ search_post xs v found pos.
Proof.
  pose proof (rep_bound _ _ _ Hrep) as Hb. pose proof (rep_sorted _ _ _ Hrep) as Hs.
  unfold intsetSearch. rewrite (rep_len _ _ _ Hrep). cbn [mbind option_bind].
  destruct (Z.eqb_spec (Z.of_nat (length xs)) 0) as [H0|H0].
  { exists false, 0%nat. split; [done|]. split; [lia|]. intros i x Hi%lookup_lt_Some. lia. }
  rewrite s32_small by lia.
  destruct (lookup_lt_is_Some_2 xs (length xs - 1)) as [l Hl]; [lia|].
  destruct (lookup_lt_is_Some_2 xs 0) as [f Hf]; [lia|].
  rewrite (rep_get s e xs 0 f Hrep Hf : _intsetGet s 0 = Some f).
  replace (Z.of_nat (length xs) - 1) with (Z.of_nat (length xs - 1)) by lia.
  rewrite (rep_get s e xs _ l Hrep Hl). cbn [mbind option_bind].
  rewrite Z.gtb_ltb. destruct (Z.ltb_spec l v) as [Hlv|Hlv].
  { exists false, (length xs). split; [done|]. split; [lia|]. intros i x Hi.
    pose proof (lookup_lt_Some _ _ _ Hi). split; [intros _|lia].
    destruct (decide (i = length xs - 1)%nat); [by simplify_eq|].
    pose proof (sorted_lookup_lt xs i (length xs - 1) x l Hs ltac:(lia) Hi Hl). lia. }
  destruct (Z.ltb_spec v f) as [Hvf|Hvf].
  { exists false, 0%nat. split; [done|]. split; [lia|]. intros i x Hi. split; [lia|intros _].
    destruct i; [by simplify_eq/=|].
    pose proof (sorted_lookup_lt xs 0 (S i) f x Hs ltac:(lia) Hf Hi). lia. }
  destruct (search_loop_spec (S (Z.to_nat (Z.of_nat (length xs)))) 0
    (Z.of_nat (length xs - 1)) (-1) (-1)) as (mn & md & c & -> & Hres); [lia| |lia|].
  { split_and!; try lia. intros i x Hi%lookup_lt_Some. lia. }
  cbn [mbind option_bind].
  destruct Hres as [(-> & Hr & Hp)|(Hc & Hr & Hp)].
  - rewrite Z.eqb_refl. exists true, (Z.to_nat md). rewrite Z2Nat.id, u32_small by lia. done.
  - destruct (Z.eqb_spec v c); [congruence|].
    exists false, (Z.to_nat mn). rewrite Z2Nat.id, u32_small by lia. done.
Qed.
End Search.

(** ** Insertion and removal keep the representation *)

Lemma sorted_insert xs v pos :
  StronglySorted Z.lt xs -> search_post xs v false pos ->
  StronglySorted Z.lt (take pos xs ++ v :: drop pos xs).
Proof.
  intros Hs. revert pos. induction Hs as [|z xs Hs IH Hz]; intros pos [Hle Hp].
  - rewrite take_nil, drop_nil. repeat constructor.
  - destruct pos as [|pos]; simpl.
    + constructor; [by constructor|]. constructor.
      * by apply (Hp 0%nat z).
      * apply Forall_lookup. intros i x Hi. apply (Hp (S i) x); [done|lia].
    + constructor.
      * apply IH. split; [simpl in Hle; lia|]. intros i x Hi.
        specialize (Hp (S i) x Hi). destruct Hp as [Hp1 Hp2]. split; intros; [apply Hp1|apply Hp2]; lia.
      * apply Forall_app. split; [by apply Forall_take|]. constructor; [|by apply Forall_drop].
        apply (Hp 0%nat z); [done|lia].
Qed.

Lemma sorted_delete xs pos :
  StronglySorted Z.lt xs -> StronglySorted Z.lt (take pos xs ++ drop (S pos) xs).
Proof.
  intros Hs. revert pos. induction Hs as [|z xs Hs IH Hz]; intros pos.
  - rewrite take_nil. constructor.
  - destruct pos as [|pos]; [done|]. simpl. constructor; [apply IH|].
    apply Forall_app. split; [by apply Forall_take|by apply Forall_drop].
Qed.

Lemma set_contents_id s c : is_contents s = c -> s = set_contents s c.
Proof. by destruct s; intros <-. Qed.

Section Updates.
Context `{Host} (uninit : nat -> Z).

Lemma realloc_grow c n k :
  n = (length c + k)%nat ->
  exists junk, realloc_contents uninit c n = c ++ junk /\ length junk = k.
Proof.
  intros ->. unfold realloc_contents. rewrite take_ge by lia.
  eexists. split; [done|]. rewrite length_map, length_seq. lia.
Qed.

Lemma realloc_shrink c n : (n <= length c)%nat -> realloc_contents uninit c n = take n c.
Proof.
  intros. unfold realloc_contents. replace (n - length c)%nat with 0%nat by lia.
  simpl. apply app_nil_r.
Qed.

Lemma resize_eq s e len :
  intrev32ifbe (is_encoding s) = Some e -> enc_ok e -> 0 <= len -> 8 * len < 2 ^ 32 ->
  intsetResize uninit s len
  = Some (set_contents s (realloc_contents uninit (is_contents s) (Z.to_nat (e * len)))).
Proof.
  intros Henc He%enc_ok_pos H0 Hl. unfold intsetResize. rewrite Henc. cbn [mbind option_bind].
  rewrite u32_small by nia. by rewrite Z.mul_comm.
Qed.

Lemma incr_length_eq s n :
  intrev32ifbe (is_length s) = Some n -> 0 <= n < 2 ^ 32 - 1 ->
  exists l, incr_length s = Some (set_length s l) /\ intrev32ifbe l = Some (n + 1).
Proof.
  intros Hl Hn. unfold incr_length. rewrite Hl. cbn [mbind option_bind].
  rewrite u32_small by lia. destruct (intrev32ifbe_total (n + 1)) as [l Hl'].
  rewrite Hl'. exists l. split; [done|]. apply (intrev32ifbe_involutive (n + 1)); [lia|done].
Qed.

(** The width the encoding test of _intsetMoveTail selects. *)
Lemma move_width e : enc_ok e ->
  (if e =? INTSET_ENC_INT64 then 8 else if e =? INTSET_ENC_INT32 then 4 else 2) = e.
Proof. intros [->|[->| ->]]; reflexivity. Qed.

Lemma moveTail_eq s e n from to :
  intrev32ifbe (is_encoding s) = Some e -> enc_ok e ->
  intrev32ifbe (is_length s) = Some n -> 0 <= from <= n -> 8 * n < 2 ^ 32 ->
  intsetMoveTail s from to
  = set_contents s <$> memmove (is_contents s) (e * to) (e * from) (e * (n - from)).
Proof.
  intros Henc He Hl Hf Hn. unfold intsetMoveTail. rewrite Henc, Hl. cbn [mbind option_bind].
  rewrite move_width by done. apply enc_ok_pos in He.
  rewrite (u32_small (n - from)), u32_small by nia. by rewrite (Z.mul_comm (n - from)).
Qed.

(** In-place widening from the back: the bytes of the elements not yet
    rewritten stay intact because an element never moves towards the front. *)
Lemma upgrade_loop_spec e e' xs k s prepend mid tl :
  enc_ok e -> enc_ok e' -> e <= e' -> Forall (in_enc e) xs -> (k <= length xs)%nat ->
  intrev32ifbe (is_encoding s) = Some e' -> 0 <= prepend ->
  is_contents s = encode e (take k xs) ++ mid ++ encode e' (drop k xs) ++ tl ->
  Z.of_nat (length (encode e (take k xs) ++ mid)) = e' * (Z.of_nat k + prepend) ->
  exists hd, upgrade_loop k s prepend e = Some (set_contents s (hd ++ encode e' xs ++ tl)) /\
             Z.of_nat (length hd) = e' * prepend.
Proof.
  intros He He' Hee Hr. revert s mid.
  induction k as [|k IH]; intros s mid Hk Henc Hp Hc Hlen.
  { exists mid. simpl in *. split; [|lia]. f_equal. by apply set_contents_id. }
  destruct (lookup_lt_is_Some_2 xs k) as [x Hx]; [lia|].
  pose proof (enc_ok_pos _ He). pose proof (enc_ok_pos _ He').
  rewrite (take_S_r xs k x Hx), encode_app in Hc, Hlen.
  cbn [upgrade_loop]. erewrite (get_cell s e x (encode e (take k xs))
    (mid ++ encode e' (drop (S k) xs) ++ tl) (Z.of_nat k)); [|done| | |].
  2: { eapply Forall_lookup_1; eauto. }
  2: { rewrite Hc. cbn. by rewrite app_nil_r, <- app_assoc. }
  2: { rewrite length_encode, length_take. nia. }
  cbn [mbind option_bind].
  (* the cell written is the end of the first segment *)
  set (P := (encode e (take k xs) ++ encode e [x]) ++ mid) in *.
  set (cut := Z.to_nat (e' * (Z.of_nat k + prepend))).
  assert (length P = cut + Z.to_nat e')%nat as HlP by (unfold cut; nia).
  assert (length (encode e (take k xs)) <= cut)%nat as Hcut.
  { rewrite length_encode, length_take. unfold cut. nia. }
  erewrite (set_cell s e' x (take cut P) (drop cut P) (encode e' (drop (S k) xs) ++ tl)); [|done..| | |].
  2: { rewrite Hc, app_assoc. fold P. rewrite <- (take_drop cut P) at 1. by rewrite <- app_assoc. }
  2: { rewrite length_drop. lia. }
  2: { rewrite length_take. unfold cut in *. lia. }
  cbn [mbind option_bind].
  assert (take cut P = encode e (take k xs) ++ take (cut - length (encode e (take k xs))) (encode e [x] ++ mid)) as HP.
  { unfold P. rewrite <- app_assoc, take_app. f_equal. by apply take_ge. }
  set (mid' := take (cut - length (encode e (take k xs))) (encode e [x] ++ mid)) in *.
  destruct (IH (set_contents s (take cut P ++ le_bytes (Z.to_nat e') x ++ encode e' (drop (S k) xs) ++ tl)) mid')
    as (hd & Hup & Hhd); [lia|done|done| | |exists hd; split; [exact Hup|exact Hhd]].
  - cbn [is_contents set_contents].
    by rewrite HP, (drop_S xs x k Hx), encode_cons, <- !app_assoc.
  - rewrite <- HP, length_take. unfold cut in *. lia.
Qed.
End Updates.

(** ** Refinement to finite sets *)

(** The list with [v] inserted at [pos], and the list without position [pos]. *)
Definition ins (pos : nat) (v : Z) (xs : list Z) : list Z := take pos xs ++ v :: drop pos xs.
Definition del (pos : nat) (xs : list Z) : list Z := take pos xs ++ drop (S pos) xs.

(** The set of integers a list denotes. *)
Definition elems (xs : list Z) : gset Z := list_to_set xs.

Lemma length_ins pos v xs : length (ins pos v xs) = S (length xs).
Proof. unfold ins. rewrite length_app, length_cons, length_take, length_drop. lia. Qed.

Lemma length_del pos v xs : xs !! pos = Some v -> length (del pos xs) = (length xs - 1)%nat.
Proof.
  intros Hv%lookup_lt_Some. unfold del. rewrite length_app, length_take, length_drop. lia.
Qed.

Lemma elems_ins xs pos v : elems (ins pos v xs) = {[v]} ∪ elems xs.
Proof.
  unfold elems, ins. rewrite <- (take_drop pos xs) at 3.
  rewrite !list_to_set_app_L, list_to_set_cons. apply set_eq; intros y; rewrite !elem_of_union, !elem_of_singleton, !elem_of_list_to_set; tauto.
Qed.

Lemma elems_present xs v : v ∈ xs -> {[v]} ∪ elems xs = elems xs.
Proof. unfold elems. set_solver. Qed.

Lemma elems_absent xs v : v ∉ xs -> elems xs ∖ {[v]} = elems xs.
Proof. unfold elems. set_solver. Qed.

Lemma sorted_NoDup xs : StronglySorted Z.lt xs -> NoDup xs.
Proof.
  induction 1 as [|z xs _ IH Hz]; constructor; [|done].
  intros Hin. rewrite Forall_forall in Hz. specialize (Hz z Hin). lia.
Qed.

Lemma elems_del xs pos v :
  StronglySorted Z.lt xs -> xs !! pos = Some v -> elems (del pos xs) = elems xs ∖ {[v]}.
Proof.
  intros Hs Hv. apply sorted_NoDup in Hs. unfold elems, del.
  rewrite <- (take_drop_middle xs pos v Hv) in Hs.
  assert (list_to_set xs =@{gset Z} list_to_set (take pos xs ++ v :: drop (S pos) xs)) as ->
    by (by rewrite (take_drop_middle xs pos v Hv)).
  apply NoDup_app in Hs as (_ & H1 & [H2 _]%NoDup_cons).
  rewrite !list_to_set_app_L, list_to_set_cons.
  apply set_eq. intros y.
  rewrite elem_of_difference, !elem_of_union, !elem_of_singleton, !elem_of_list_to_set.
  split; [|tauto]. intros Hy. split; [tauto|]. intros ->.
  destruct Hy as [Hy|Hy]; [|done]. apply (H1 v Hy). left.
Qed.

Section Refinement.
Context `{Host} (uninit : nat -> Z).

Lemma rep_ins s' e' xs v pos :
  enc_ok e' -> intrev32ifbe (is_encoding s') = Some e' ->
  intrev32ifbe (is_length s') = Some (Z.of_nat (length xs) + 1) ->
  is_contents s' = encode e' (ins pos v xs) ->
  Forall (in_enc e') xs -> in_enc e' v -> StronglySorted Z.lt xs ->
  search_post xs v false pos -> 8 * (Z.of_nat (length xs) + 1) < 2 ^ 32 ->
  intset_rep s' e' (ins pos v xs).
Proof.
  intros He Henc Hl Hc Hr Hv Hs Hp Hb. split; [done|done| |done| | |].
  - rewrite Hl, length_ins. f_equal. lia.
  - apply Forall_app. split; [by apply Forall_take|]. constructor; [done|by apply Forall_drop].
  - by apply sorted_insert.
  - rewrite length_ins. lia.
Qed.

(** A value that does not fit the encoding is below or above all elements. *)
Lemma upgrade_pos e xs v :
  Forall (in_enc e) xs -> ~ in_enc e v ->
  search_post xs v false (if v <? 0 then 0%nat else length xs).
Proof.
  intros Hr Hout. split; [destruct (v <? 0); lia|]. intros i x Hi.
  pose proof (lookup_lt_Some _ _ _ Hi) as Hlt. pose proof (Forall_lookup_1 _ _ _ _ Hr Hi) as Hxi.
  unfold in_enc in *. destruct (Z.ltb_spec v 0); lia.
Qed.

(** Writing the new value in the free cell the loop left. *)
Lemma upgrade_set_value s e' xs v hd tl :
  enc_ok e' -> intrev32ifbe (is_encoding s) = Some e' ->
  is_contents s = hd ++ encode e' xs ++ tl ->
  Z.of_nat (length hd) = e' * (if v <? 0 then 1 else 0) ->
  Z.of_nat (length tl) = e' * (if v <? 0 then 0 else 1) ->
  (if (if v <? 0 then 1 else 0) =? 1 then _intsetSet s 0 v
   else _intsetSet s (Z.of_nat (length xs)) v)
  = Some (set_contents s (encode e' (ins (if v <? 0 then 0%nat else length xs) v xs))).
Proof.
  intros He Henc Hc Hh Ht. pose proof (enc_ok_pos _ He). unfold ins.
  destruct (v <? 0); cbn [Z.eqb Pos.eqb].
  - assert (tl = []) as -> by (apply nil_length_inv; lia). rewrite app_nil_r in Hc.
    by erewrite (set_cell s e' v [] hd (encode e' xs)); [|done..|lia|simpl; lia].
  - assert (hd = []) as -> by (apply nil_length_inv; lia). rewrite take_ge, drop_ge by done.
    erewrite (set_cell s e' v (encode e' xs) tl []); [by rewrite encode_app|done..| |lia|].
    + by rewrite app_nil_r.
    + rewrite length_encode. lia.
Qed.

Lemma upgrade_spec s e xs v :
  intset_rep s e xs -> LLONG_MIN <= v <= LLONG_MAX -> e < _intsetValueEncoding v ->
  8 * (Z.of_nat (length xs) + 1) < 2 ^ 32 ->
  exists s' (pos : nat), intsetUpgradeAndAdd uninit s v = Some s' /\ (v ∉ xs) /\
    intset_rep s' (_intsetValueEncoding v) (ins pos v xs).
Proof.
  intros [He Henc Hl Hc Hr Hs Hb] Hv Hlt Hn.
  set (e' := _intsetValueEncoding v) in *. set (n := length xs) in *.
  pose proof (valueEncoding_ok v : enc_ok e') as He'.
  pose proof (enc_ok_pos _ He). pose proof (enc_ok_pos _ He').
  assert (in_enc e' v) as Hin by (apply valueEncoding_range; [done|done|unfold e'; lia]).
  assert (~ in_enc e v) as Hout by (rewrite <- valueEncoding_range by done; fold e'; lia).
  assert (Forall (in_enc e') xs) as Hr'
    by (eapply Forall_impl; [exact Hr|]; intros; apply (in_enc_mono e); [done|lia|done]).
  pose proof (upgrade_pos e xs v Hr Hout) as Hpos. fold n in Hpos.
  unfold intsetUpgradeAndAdd. rewrite Henc, Hl. cbn [mbind option_bind fmap option_fmap option_map]. fold e'.
  destruct (intrev32ifbe_total e') as [w Hw]. rewrite Hw. cbn [mbind option_bind].
  assert (intrev32ifbe w = Some e') as Hw' by (apply (intrev32ifbe_involutive e'); [lia|done]).
  rewrite (u32_small (_ + 1)), enc_u8, s32_small by (done || lia).
  rewrite (resize_eq uninit _ e') by (done || simpl; lia). cbn [mbind option_bind is_contents set_encoding].
  destruct (realloc_grow uninit (is_contents s) (Z.to_nat (e' * (Z.of_nat n + 1)))
    (Z.to_nat (e' * (Z.of_nat n + 1) - e * Z.of_nat n))) as (junk & -> & Hj);
    [rewrite Hc, length_encode; fold n; nia|].
  set (s1 := set_contents _ _). set (cut := Z.to_nat ((e' - e) * Z.of_nat n)).
  set (tl := if v <? 0 then [] else drop cut junk).
  set (mid := if v <? 0 then junk else take cut junk).
  assert (length junk = cut + Z.to_nat e')%nat as Hj' by (unfold cut; nia).
  rewrite Nat2Z.id.
  destruct (upgrade_loop_spec e e' xs n s1 (if v <? 0 then 1 else 0) mid tl) as (hd & Hup & Hhd);
    [done|done|lia|done|done|done|destruct (v <? 0); lia| | |].
  { simpl. rewrite Hc, take_ge, drop_ge by done. cbn [encode mbind list_bind app].
    unfold mid, tl. destruct (v <? 0); [by rewrite app_nil_r|by rewrite take_drop]. }
  { rewrite take_ge, length_app, length_encode by done. fold n. unfold mid.
    destruct (v <? 0); rewrite ?length_take; unfold cut in *; nia. }
  rewrite Hup. cbn [mbind option_bind].
  rewrite (upgrade_set_value _ e' xs v hd tl) by
    (done || unfold tl; destruct (v <? 0); rewrite ?length_drop; simpl; lia).
  cbn [mbind option_bind].
  match goal with |- context [incr_length ?t] =>
    destruct (incr_length_eq t (Z.of_nat n)) as (l' & -> & Hl'); [exact Hl|lia|] end.
  eexists _, _. split; [done|]. split; [by eapply search_post_notin|].
  by apply rep_ins.
Qed.

Lemma insert_spec s e xs v pos :
  intset_rep s e xs -> in_enc e v -> search_post xs v false pos ->
  8 * (Z.of_nat (length xs) + 1) < 2 ^ 32 ->
  exists s',
    (s ← intsetResize uninit s (u32 (Z.of_nat (length xs) + 1));
     s ← (if Z.of_nat pos <? Z.of_nat (length xs)
          then intsetMoveTail s (Z.of_nat pos) (u32 (Z.of_nat pos + 1)) else Some s);
     s ← _intsetSet s (s32 (Z.of_nat pos)) v;
     s ← incr_length s;
     Some (s, true)) = Some (s', true) /\ intset_rep s' e (ins pos v xs).
Proof.
  intros [He Henc Hl Hc Hr Hs Hb] Hv Hp Hn. pose proof (enc_ok_pos _ He).
  pose proof (proj1 Hp) as Hpl. set (n := length xs) in *.
  rewrite !u32_small, (resize_eq uninit s e), s32_small by (done || lia). cbn [mbind option_bind].
  destruct (realloc_grow uninit (is_contents s) (Z.to_nat (e * (Z.of_nat n + 1))) (Z.to_nat e))
    as (junk & -> & Hj); [rewrite Hc, length_encode; fold n; nia|].
  set (s1 := set_contents _ _).
  assert (is_contents s1 = encode e (take pos xs) ++ encode e (drop pos xs) ++ junk) as Hc1
    by (simpl; by rewrite Hc, app_assoc, <- encode_app, take_drop).
  assert (exists old, length old = Z.to_nat e /\
    (if Z.of_nat pos <? Z.of_nat n then intsetMoveTail s1 (Z.of_nat pos) (Z.of_nat pos + 1) else Some s1)
    = Some (set_contents s1 (encode e (take pos xs) ++ old ++ encode e (drop pos xs)))) as (old & Ho & ->).
  { destruct (Z.ltb_spec (Z.of_nat pos) (Z.of_nat n)).
    - rewrite (moveTail_eq _ e (Z.of_nat n)), Hc1, memmove_right by
        (done || rewrite ?length_encode, ?length_take, ?length_drop; fold n; simpl; nia).
      eexists. split; [|done]. rewrite length_take, length_app. lia.
    - exists junk. split; [done|]. rewrite (drop_ge xs pos) in Hc1 |- * by (fold n; lia).
      f_equal. apply set_contents_id. by rewrite Hc1, app_nil_r. }
  cbn [mbind option_bind].
  erewrite (set_cell _ e v (encode e (take pos xs)) old (encode e (drop pos xs)));
    [|done..|rewrite length_encode, length_take; fold n; nia].
  cbn [mbind option_bind].
  match goal with |- context [incr_length ?t] =>
    destruct (incr_length_eq t (Z.of_nat n)) as (l' & -> & Hl'); [exact Hl|lia|] end.
  eexists. split; [done|]. apply rep_ins; try done. simpl. unfold ins. by rewrite encode_app.
Qed.

Lemma add_rep s e xs v :
  intset_rep s e xs -> LLONG_MIN <= v <= LLONG_MAX ->
  8 * (Z.of_nat (length xs) + 1) < 2 ^ 32 ->
  exists s' xs', intsetAdd uninit s v = Some (s', bool_decide (v ∉ xs)) /\
    intset_rep s' (Z.max e (_intsetValueEncoding v)) xs' /\ elems xs' = {[v]} ∪ elems xs.
Proof.
  intros Hrep Hv Hn. pose proof Hrep as [He Henc Hl Hc Hr Hs Hb].
  pose proof (valueEncoding_range e v He Hv) as Hve.
  unfold intsetAdd. rewrite Henc. cbn [mbind option_bind]. rewrite Z.gtb_ltb.
  destruct (Z.ltb_spec e (_intsetValueEncoding v)) as [Hlt|Hge].
  - destruct (upgrade_spec s e xs v Hrep Hv Hlt Hn) as (s' & pos & -> & Hni & Hrep').
    exists s', (ins pos v xs). rewrite Z.max_r by lia. cbn [mbind option_bind].
    rewrite bool_decide_eq_true_2 by done. split_and!; [done|done|apply elems_ins].
  - rewrite Z.max_l by lia.
    destruct (search_spec s e xs v Hrep) as (found & pos & -> & Hp). cbn [mbind option_bind].
    destruct found.
    + exists s, xs. simpl in Hp. assert (v ∈ xs) by (apply list_elem_of_lookup; eauto).
      rewrite bool_decide_eq_false_2 by tauto. split_and!; [done|done|by rewrite elems_present].
    + rewrite Hl. cbn [mbind option_bind].
      destruct (insert_spec s e xs v pos Hrep) as (s' & -> & Hrep'); [tauto|done|done|].
      exists s', (ins pos v xs). rewrite bool_decide_eq_true_2 by (by eapply search_post_notin).
      split_and!; [done|done|apply elems_ins].
Qed.

(** C14: intsetAdd on any well-formed set and any 64-bit value returns, reports
    success exactly when the value was absent, and yields a well-formed
    (sorted, duplicate free, exactly sized) set whose elements are the old ones
    and the value; the encoding becomes the wider of the old one and the one the
    value needs, and in-place widening loses no element. *)
Theorem intsetAdd_refines s e xs v :
  intset_rep s e xs -> LLONG_MIN <= v <= LLONG_MAX ->
  8 * (Z.of_nat (length xs) + 1) < 2 ^ 32 ->
  exists s' xs', intsetAdd uninit s v = Some (s', bool_decide (v ∉ xs)) /\
    intset_rep s' (Z.max e (_intsetValueEncoding v)) xs' /\ elems xs' = {[v]} ∪ elems xs.
Proof. apply add_rep. Qed.

Lemma remove_spec s e xs v pos :
  intset_rep s e xs -> xs !! pos = Some v ->
  exists s',
    (s ← (if Z.of_nat pos <? u32 (Z.of_nat (length xs) - 1)
          then intsetMoveTail s (u32 (Z.of_nat pos + 1)) (Z.of_nat pos) else Some s);
     s ← intsetResize uninit s (u32 (Z.of_nat (length xs) - 1));
     len' ← intrev32ifbe (u32 (Z.of_nat (length xs) - 1));
     Some (set_length s len', true)) = Some (s', true) /\ intset_rep s' e (del pos xs).
Proof.
  intros [He Henc Hl Hc Hr Hs Hb] Hv. pose proof (enc_ok_pos _ He).
  pose proof (lookup_lt_Some _ _ _ Hv) as Hpl. pose proof (length_del _ _ _ Hv) as Hld.
  set (n := length xs) in *. rewrite !u32_small by lia.
  set (A := encode e (take pos xs)). set (B := encode e (drop (S pos) xs)).
  assert (is_contents s = A ++ le_bytes (Z.to_nat e) v ++ B) as Hc1
    by (unfold A, B; rewrite Hc, <- encode_cons, <- encode_app; by rewrite (take_drop_middle xs pos v Hv)).
  assert (length A = Z.to_nat e * pos)%nat as HA
    by (unfold A; rewrite length_encode, length_take; fold n; nia).
  assert (length B = Z.to_nat e * (n - S pos))%nat as HB
    by (unfold B; rewrite length_encode, length_drop; fold n; nia).
  assert (exists rest,
    (if Z.of_nat pos <? Z.of_nat n - 1 then intsetMoveTail s (Z.of_nat pos + 1) (Z.of_nat pos) else Some s)
    = Some (set_contents s (A ++ B ++ rest)) /\ length rest = Z.to_nat e) as (rest & -> & Hrest).
  { destruct (Z.ltb_spec (Z.of_nat pos) (Z.of_nat n - 1)).
    - rewrite (moveTail_eq _ e (Z.of_nat n)), Hc1, memmove_left by
        (done || rewrite ?length_le_bytes, ?HA, ?HB; fold n; nia).
      eexists. split; [done|]. rewrite length_drop, length_app, length_le_bytes. lia.
    - exists (le_bytes (Z.to_nat e) v). rewrite length_le_bytes. split; [|done].
      assert (B = []) as HB0 by (apply nil_length_inv; nia). rewrite HB0, app_nil_r in Hc1.
      f_equal. apply set_contents_id. by rewrite HB0, Hc1. }
  cbn [mbind option_bind]. rewrite (resize_eq uninit _ e) by (done || lia).
  cbn [mbind option_bind is_contents set_contents].
  rewrite realloc_shrink, app_assoc, take_app_length' by
    (rewrite ?length_app, ?HA, ?HB, ?Hrest; nia).
  destruct (intrev32ifbe_total (Z.of_nat n - 1)) as [l' Hl']. rewrite Hl'. cbn [mbind option_bind].
  eexists. split; [done|]. split; simpl; [done|done| | | | |rewrite Hld; lia].
  - rewrite Hld. rewrite (intrev32ifbe_involutive (Z.of_nat n - 1)) by (done || lia). f_equal. lia.
  - unfold A, B, del. by rewrite encode_app.
  - apply Forall_app. split; [by apply Forall_take|by apply Forall_drop].
  - by apply sorted_delete.
Qed.

Lemma remove_rep s e xs v :
  intset_rep s e xs -> LLONG_MIN <= v <= LLONG_MAX ->
  exists s' xs', intsetRemove uninit s v = Some (s', bool_decide (v ∈ xs)) /\
    intset_rep s' e xs' /\ elems xs' = elems xs ∖ {[v]}.
Proof.
  intros Hrep Hv. pose proof Hrep as [He Henc Hl Hc Hr Hs Hb].
  pose proof (valueEncoding_range e v He Hv) as Hve.
  unfold intsetRemove. rewrite Henc. cbn [mbind option_bind].
  assert (v ∉ xs -> exists s' xs', Some (s, false) = Some (s', bool_decide (v ∈ xs)) /\
    intset_rep s' e xs' /\ elems xs' = elems xs ∖ {[v]}) as Habs.
  { intros Hni. exists s, xs. rewrite bool_decide_eq_false_2 by done. split_and!; [done|done|].
    by rewrite elems_absent. }
  destruct (Z.leb_spec (_intsetValueEncoding v) e) as [Hle|Hgt].
  - destruct (search_spec s e xs v Hrep) as (found & pos & -> & Hp). cbn [mbind option_bind].
    destruct found; [|by eapply Habs, search_post_notin].
    rewrite Hl. cbn [mbind option_bind].
    destruct (remove_spec s e xs v pos Hrep Hp) as (s' & -> & Hrep'). exists s', (del pos xs).
    rewrite bool_decide_eq_true_2 by (apply list_elem_of_lookup; eauto).
    split_and!; [done|done|by apply elems_del].
  - apply Habs. intros Hin. rewrite Forall_forall in Hr. specialize (Hr v Hin). apply Hve in Hr. lia.
Qed.

(** C21: intsetRemove on any well-formed set and any 64-bit value returns,
    reports success exactly when the value was present, keeps the encoding and
    yields a well-formed set without the value. *)
Theorem intsetRemove_refines s e xs v :
  intset_rep s e xs -> LLONG_MIN <= v <= LLONG_MAX ->
  exists s' xs', intsetRemove uninit s v = Some (s', bool_decide (v ∈ xs)) /\
    intset_rep s' e xs' /\ elems xs' = elems xs ∖ {[v]}.
Proof. apply remove_rep. Qed.

(** IntsetFind answers membership, for every 64-bit value; intsetGet
    returns the elements in increasing order by position and refuses a position
    out of range; intsetLen counts them and intsetBlobLen is the size of the
    serialised block. *)
Theorem intset_queries s e xs v (pos : nat) :
  intset_rep s e xs -> LLONG_MIN <= v <= LLONG_MAX -> Z.of_nat pos < 2 ^ 32 ->
  intsetFind s v = Some (bool_decide (v ∈ xs)) /\
  intsetGet s (Z.of_nat pos) = Some (xs !! pos) /\
  intsetLen s = Some (Z.of_nat (size (elems xs))) /\
  intsetBlobLen s = Some (8 + Z.of_nat (length (is_contents s))).
Proof.
  intros Hrep Hv Hpos. pose proof Hrep as [He Henc Hl Hc Hr Hs Hb].
  pose proof (valueEncoding_range e v He Hv) as Hve. pose proof (enc_ok_pos _ He). split_and!.
  - unfold intsetFind. rewrite Henc. cbn [mbind option_bind].
    destruct (Z.leb_spec (_intsetValueEncoding v) e) as [Hle|Hgt].
    + destruct (search_spec s e xs v Hrep) as (found & p & -> & Hp). simpl. f_equal.
      symmetry. destruct found; [|apply bool_decide_eq_false_2; by eapply search_post_notin].
      apply bool_decide_eq_true_2, list_elem_of_lookup. eauto.
    + f_equal. symmetry. apply bool_decide_eq_false_2. intros Hin.
      rewrite Forall_forall in Hr. specialize (Hr v Hin). apply Hve in Hr. lia.
  - unfold intsetGet. rewrite Hl. cbn [mbind option_bind].
    destruct (Z.ltb_spec (Z.of_nat pos) (Z.of_nat (length xs))).
    + destruct (lookup_lt_is_Some_2 xs pos) as [x Hx]; [lia|].
      rewrite s32_small, (rep_get s e xs pos x Hrep Hx), Hx by lia. done.
    + rewrite lookup_ge_None_2 by lia. done.
  - unfold intsetLen. rewrite Hl. f_equal. unfold elems.
    rewrite size_list_to_set; [done|by apply sorted_NoDup].
  - unfold intsetBlobLen. rewrite Hl, Henc. cbn [mbind option_bind].
    rewrite Hc, length_encode, u32_small, u64_small by (rewrite ?u32_small; nia). f_equal. nia.
Qed.

(** A new set is well-formed and empty. *)
Lemma intsetNew_rep : exists s, intsetNew = Some s /\ intset_rep s 2 [].
Proof.
  unfold intsetNew. destruct (intrev32ifbe_total INTSET_ENC_INT16) as [w Hw].
  rewrite Hw. cbn [mbind option_bind]. eexists. split; [done|].
  assert (intrev32ifbe 0 = Some 0) as H0.
  { unfold intrev32ifbe, intrev32, host_store, host_load. by destruct big_endian. }
  split; simpl; [by left|by eapply intrev32ifbe_involutive|done|done|constructor|constructor|lia].
Qed.
End Refinement.

(** ** Endian neutrality *)

(** The memory image of the structure: header fields in host order, then the
    contents. *)
Definition blob `{Host} (s : intset) : list Z :=
  host_store 4 (is_encoding s) ++ host_store 4 (is_length s) ++ is_contents s.

Inductive intset_op := OpAdd (v : Z) | OpRemove (v : Z).
Definition op_value (o : intset_op) : Z := match o with OpAdd v | OpRemove v => v end.

Definition run_op `{Host} (uninit : nat -> Z) (s : intset) (o : intset_op) : option intset :=
  match o with
  | OpAdd v => fst <$> intsetAdd uninit s v
  | OpRemove v => fst <$> intsetRemove uninit s v
  end.

Fixpoint run_ops `{Host} (uninit : nat -> Z) (s : intset) (os : list intset_op) : option intset :=
  match os with
  | [] => Some s
  | o :: os => s ← run_op uninit s o; run_ops uninit s os
  end.

Lemma host_store_ifbe `{Host} w e : intrev32ifbe w = Some e -> host_store 4 w = le_bytes 4 e.
Proof.
  unfold intrev32ifbe, intrev32. pose proof (length_host_store 4 w) as Hl.
  unfold host_store, host_load in *. destruct big_endian; [|by intros [= ->]].
  rewrite memrev32_reverse by done. cbn [fmap option_fmap option_map].
  rewrite !reverse_involutive. intros [= <-].
  change 4%nat with (length (reverse (le_bytes 4 w))) at 2.
  rewrite le_bytes_val; [done|]. apply Forall_reverse, le_bytes_bytes.
Qed.

Lemma sorted_elems_unique xs ys :
  StronglySorted Z.lt xs -> StronglySorted Z.lt ys -> elems xs = elems ys -> xs = ys.
Proof.
  intros Hx Hy He. apply (StronglySorted_unique_strong Z.lt); [lia|done|done|].
  apply NoDup_Permutation; [by apply sorted_NoDup|by apply sorted_NoDup|].
  intros z. unfold elems in He. rewrite <- !(elem_of_list_to_set (C := gset Z)). by rewrite He.
Qed.

Lemma run_op_rep `{Host} uninit s e xs o :
  intset_rep s e xs -> LLONG_MIN <= op_value o <= LLONG_MAX ->
  8 * (Z.of_nat (length xs) + 1) < 2 ^ 32 ->
  exists s' xs', run_op uninit s o = Some s' /\
    intset_rep s' (match o with OpAdd v => Z.max e (_intsetValueEncoding v) | OpRemove _ => e end) xs' /\
    elems xs' = (match o with OpAdd v => {[v]} ∪ elems xs | OpRemove v => elems xs ∖ {[v]} end).
Proof.
  intros Hrep Hv Hn. destruct o as [v|v]; simpl in *.
  - destruct (add_rep uninit s e xs v Hrep Hv Hn) as (s' & xs' & -> & ?). eauto.
  - destruct (remove_rep uninit s e xs v Hrep Hv) as (s' & xs' & -> & ?). eauto.
Qed.

(** Two runs of the same operations on two hosts stay in step. *)
Lemma run_ops_rep (H1 H2 : Host) u1 u2 os s1 s2 e xs :
  @intset_rep H1 s1 e xs -> @intset_rep H2 s2 e xs ->
  Forall (fun o => LLONG_MIN <= op_value o <= LLONG_MAX) os ->
  8 * (Z.of_nat (length xs) + Z.of_nat (length os)) < 2 ^ 32 ->
  exists s1' s2' e' xs',
    @run_ops H1 u1 s1 os = Some s1' /\ @run_ops H2 u2 s2 os = Some s2' /\
    @intset_rep H1 s1' e' xs' /\ @intset_rep H2 s2' e' xs'.
Proof.
  intros Hr1 Hr2 Hos. revert s1 s2 e xs Hr1 Hr2.
  induction Hos as [|o os Ho _ IH]; intros s1 s2 e xs Hr1 Hr2 Hn.
  { exists s1, s2, e, xs. done. }
  rewrite length_cons in Hn. cbn [run_ops].
  destruct (@run_op_rep H1 u1 s1 e xs o Hr1 Ho) as (t1 & ys1 & -> & Ht1 & He1); [lia|].
  destruct (@run_op_rep H2 u2 s2 e xs o Hr2 Ho) as (t2 & ys2 & -> & Ht2 & He2); [lia|].
  cbn [mbind option_bind].
  assert (ys1 = ys2) as <-.
  { apply sorted_elems_unique; [by destruct Ht1|by destruct Ht2|]. by rewrite He1, He2. }
  eapply (IH t1 t2 _ ys1 Ht1 Ht2).
  assert (size (elems ys1) <= S (size (elems xs)))%nat as Hsz.
  { rewrite He1. destruct o; [rewrite size_union_alt, size_singleton|].
    - pose proof (subseteq_size (elems xs ∖ {[v]}) (elems xs) ltac:(set_solver)). lia.
    - pose proof (subseteq_size (elems xs ∖ {[v]}) (elems xs) ltac:(set_solver)). lia. }
  unfold elems in Hsz. rewrite !size_list_to_set in Hsz by
    (eapply sorted_NoDup, rep_sorted; eassumption). lia.
Qed.

Lemma blob_rep `{Host} s e xs :
  intset_rep s e xs -> blob s = le_bytes 4 e ++ le_bytes 4 (Z.of_nat (length xs)) ++ encode e xs.
Proof.
  intros [_ Henc Hl Hc _ _ _]. unfold blob. by rewrite Hc, (host_store_ifbe _ _ Henc), (host_store_ifbe _ _ Hl).
Qed.

(** The memory image of an integer set is endian neutral: any sequence of
    insertions and removals starting from a new set produces, on a big endian
    and on a little endian host and whatever the allocator leaves in fresh
    memory, the same bytes, which are the little endian encoding, length and
    sorted elements. *)
Theorem intset_endian_neutral (H1 H2 : Host) u1 u2 os :
  Forall (fun o => LLONG_MIN <= op_value o <= LLONG_MAX) os ->
  8 * Z.of_nat (length os) < 2 ^ 32 ->
  exists e xs,
    (s ← @intsetNew H1; s ← @run_ops H1 u1 s os; Some (@blob H1 s)) =
      Some (le_bytes 4 e ++ le_bytes 4 (Z.of_nat (length xs)) ++ encode e xs) /\
    (s ← @intsetNew H2; s ← @run_ops H2 u2 s os; Some (@blob H2 s)) =
      Some (le_bytes 4 e ++ le_bytes 4 (Z.of_nat (length xs)) ++ encode e xs) /\
    StronglySorted Z.lt xs.
Proof.
  intros Hos Hn.
  destruct (@intsetNew_rep H1) as (s1 & -> & Hs1). destruct (@intsetNew_rep H2) as (s2 & -> & Hs2).
  cbn [mbind option_bind].
  destruct (run_ops_rep H1 H2 u1 u2 os s1 s2 2 [] Hs1 Hs2 Hos) as (t1 & t2 & e & xs & -> & -> & Ht1 & Ht2);
    [simpl; lia|].
  cbn [mbind option_bind]. rewrite (@blob_rep H1 t1 e xs Ht1), (@blob_rep H2 t2 e xs Ht2).
  exists e, xs. split_and!; [done|done|by destruct Ht1].
Qed.

(** ** Concrete instances *)

#[local] Instance le_host : Host := {| big_endian := false |}.
Definition be_host : Host := {| big_endian := true |}.

(** The set {-3, 1, 5} with 16-bit cells. *)
Definition ex_set : intset := mk_intset 2 3 [253; 255; 1; 0; 5; 0].

Lemma ex_set_rep : intset_rep ex_set 2 [-3; 1; 5].
Proof.
  split; [by left|done|done|done| | |simpl; lia].
  - repeat constructor; vm_compute; discriminate.
  - repeat constructor.
Qed.

(** Inserting a value that needs 32-bit cells widens the three elements. *)
Example ex_add_widen :
  fst <$> intsetAdd (fun _ => 170) ex_set 70000
  = Some (mk_intset 4 4 (encode 4 [-3; 1; 5; 70000])).
Proof. vm_compute. reflexivity. Qed.

Lemma intsetAdd_refines_witness :
  exists s' xs', intsetAdd (fun _ => 170) ex_set 70000 = Some (s', bool_decide (70000 ∉ [-3; 1; 5])) /\
    intset_rep s' (Z.max 2 (_intsetValueEncoding 70000)) xs' /\ elems xs' = {[70000]} ∪ elems [-3; 1; 5].
Proof.
  apply (intsetAdd_refines (fun _ => 170) ex_set 2 [-3; 1; 5] 70000 ex_set_rep);
    [vm_compute; split; discriminate|simpl; lia].
Defined.

Lemma intsetRemove_refines_witness :
  exists s' xs', intsetRemove (fun _ => 170) ex_set 1 = Some (s', bool_decide (1 ∈ [-3; 1; 5])) /\
    intset_rep s' 2 xs' /\ elems xs' = elems [-3; 1; 5] ∖ {[1]}.
Proof.
  apply (intsetRemove_refines (fun _ => 170) ex_set 2 [-3; 1; 5] 1 ex_set_rep).
  vm_compute; split; discriminate.
Defined.

Lemma intset_queries_witness :
  intsetFind ex_set 5 = Some (bool_decide (5 ∈ [-3; 1; 5])) /\
  intsetGet ex_set (Z.of_nat 0) = Some ([-3; 1; 5] !! 0%nat) /\
  intsetLen ex_set = Some (Z.of_nat (size (elems [-3; 1; 5]))) /\
  intsetBlobLen ex_set = Some (8 + Z.of_nat (length (is_contents ex_set))).
Proof.
  apply (intset_queries ex_set 2 [-3; 1; 5] 5 0 ex_set_rep);
    [vm_compute; split; discriminate|simpl; lia].
Defined.

Lemma intset_endian_neutral_witness :
  exists e xs,
    (s ← @intsetNew le_host; s ← @run_ops le_host (fun _ => 1) s [OpAdd 7; OpAdd (-9); OpRemove 7];
     Some (@blob le_host s)) =
      Some (le_bytes 4 e ++ le_bytes 4 (Z.of_nat (length xs)) ++ encode e xs) /\
    (s ← @intsetNew be_host; s ← @run_ops be_host (fun _ => 2) s [OpAdd 7; OpAdd (-9); OpRemove 7];
     Some (@blob be_host s)) =
      Some (le_bytes 4 e ++ le_bytes 4 (Z.of_nat (length xs)) ++ encode e xs) /\
    StronglySorted Z.lt xs.
Proof.
  apply (intset_endian_neutral le_host be_host (fun _ => 1) (fun _ => 2) [OpAdd 7; OpAdd (-9); OpRemove 7]);
    [repeat constructor; vm_compute; discriminate|simpl; lia].
Defined.
