(* ===== verification/Util.v ===== *)
(** * Numbers and strings (src/redis-stable/src/util.c)

    Decimal conversion of 64-bit integers in both directions ([ll2string],
    [string2ll], [string2l]), the digit counts they use, and amounts of memory
    with a unit ([memtoll]).  Characters are integers with the value of a
    [char]; a buffer is a list of them. *)
From stdpp Require Import prelude list.
From Stdlib Require Import ZArith Lia.
From S2P Require Import Prelude.

Local Open Scope Z_scope.
Local Open Scope redis_scope.

(** ** Model *)

(** The recursion divides by 10^12, so three levels are enough for 64 bits. *)
Fixpoint digits10_rec (fuel : nat) (v : Z) : option Z :=
  match fuel with
  | O => None
  | S fuel =>
    if v <? 10 then Some 1
    else if v <? 100 then Some 2
    else if v <? 1000 then Some 3
    else if v <? 1000000000000 then
      if v <? 100000000 then
        if v <? 1000000 then
          if v <? 10000 then Some 4
          else Some (5 + Z.b2z (v >=? 100000))
        else Some (7 + Z.b2z (v >=? 10000000))
      else if v <? 10000000000 then Some (9 + Z.b2z (v >=? 1000000000))
      else Some (11 + Z.b2z (v >=? 100000000000))
    else n ← digits10_rec fuel (v / 1000000000000); Some (u32 (12 + n))
  end.
Definition digits10 (v : Z) : option Z := digits10_rec 3 v.

Definition sdigits10 (v : Z) : option Z :=
  if v <? 0 then
    let uv := if negb (v =? LLONG_MIN) then u64 (- v) else u64 (LLONG_MAX + 1) in
    n ← digits10 uv; Some (u32 (n + 1))
  else digits10 (u64 v).

(** static const char digits[201]: the two characters of 0 .. 99. *)
Definition digits : list Z :=
  [48;48;48;49;48;50;48;51;48;52;48;53;48;54;48;55;48;56;48;57;
   49;48;49;49;49;50;49;51;49;52;49;53;49;54;49;55;49;56;49;57;
   50;48;50;49;50;50;50;51;50;52;50;53;50;54;50;55;50;56;50;57;
   51;48;51;49;51;50;51;51;51;52;51;53;51;54;51;55;51;56;51;57;
   52;48;52;49;52;50;52;51;52;52;52;53;52;54;52;55;52;56;52;57;
   53;48;53;49;53;50;53;51;53;52;53;53;53;54;53;55;53;56;53;57;
   54;48;54;49;54;50;54;51;54;52;54;53;54;54;54;55;54;56;54;57;
   55;48;55;49;55;50;55;51;55;52;55;53;55;54;55;55;55;56;55;57;
   56;48;56;49;56;50;56;51;56;52;56;53;56;54;56;55;56;56;56;57;
   57;48;57;49;57;50;57;51;57;52;57;53;57;54;57;55;57;56;57;57; 0].

(** The loop that writes two digits at a time from the back, and the last one
    or two digits after it. *)
Fixpoint ll2string_digits (fuel : nat) (dst : list Z) (next value : Z) : option (list Z) :=
  match fuel with
  | O => None
  | S fuel =>
    if value >=? 100 then
      let i := (value mod 100) * 2 in
      let value := value / 100 in
      d1 ← digits !! Z.to_nat (i + 1);
      dst ← mwrite dst next [d1];
      d0 ← digits !! Z.to_nat i;
      dst ← mwrite dst (u32 (next - 1)) [d0];
      ll2string_digits fuel dst (u32 (next - 2)) value
    else if value <? 10 then mwrite dst next [48 + value]
    else
      let i := value * 2 in
      d1 ← digits !! Z.to_nat (i + 1);
      dst ← mwrite dst next [d1];
      d0 ← digits !! Z.to_nat i;
      mwrite dst (u32 (next - 1)) [d0]
  end.

(** The buffer afterwards and the return value. *)
Definition ll2string (dst : list Z) (dstlen svalue : Z) : option (list Z * Z) :=
  let '(value, negative) :=
    if svalue <? 0 then
      (if negb (svalue =? LLONG_MIN) then u64 (- svalue) else u64 (LLONG_MAX + 1), 1)
    else (u64 svalue, 0) in
  n ← digits10 value;
  let length := u32 (n + negative) in
  if length >=? dstlen then Some (dst, 0)
  else
    dst ← mwrite dst length [0];
    dst ← ll2string_digits 11 dst (u32 (length - 1)) value;
    dst ← (if negb (negative =? 0) then mwrite dst 0 [45] else Some dst);
    Some (dst, length).

Definition isdigit (c : Z) : bool := (48 <=? c) && (c <=? 57).

(** The digit loop: [None] is the "return 0" on overflow, otherwise the value
    and the characters left. *)
Fixpoint string2ll_loop (p : list Z) (v : Z) : option (Z * list Z) :=
  match p with
  | [] => Some (v, [])
  | c :: p' =>
    if isdigit c then
      if v >? ULLONG_MAX / 10 then None
      else
        let v := u64 (v * 10) in
        if v >? ULLONG_MAX - (c - 48) then None
        else string2ll_loop p' (u64 (v + (c - 48)))
    else Some (v, p)
  end.

(** The first digit, the others, and the test that all bytes were used. *)
Definition string2ll_abs (p : list Z) : option Z :=
  match p with
  | [] => None
  | d :: p' =>
    if (49 <=? d) && (d <=? 57) then
      '(v, rest) ← string2ll_loop p' (d - 48);
      match rest with _ :: _ => None | [] => Some v end
    else None
  end.

(** [None] is the return value 0, [Some v] the return value 1 with *value = v. *)
Definition string2ll (s : list Z) : option Z :=
  if bool_decide (s = []) then None
  else if bool_decide (s = [48]) then Some 0
  else
    let '(negative, p) :=
      match s with c :: s' => if c =? 45 then (true, s') else (false, s) | [] => (false, s) end in
    v ← string2ll_abs p;
    if (negative : bool) then
      if v >? u64 (- (LLONG_MIN + 1)) + 1 then None else Some (s64 (u64 (- v)))
    else if v >? LLONG_MAX then None else Some v.

Definition string2l (s : list Z) : option Z :=
  llval ← string2ll s;
  if (llval <? LONG_MIN) || (llval >? LONG_MAX) then None else Some llval.

(** *** Amounts of memory *)

Definition tolower (c : Z) : Z := if (65 <=? c) && (c <=? 90) then c + 32 else c.

(** !strcasecmp(a,b) on the characters before the terminator. *)
Definition strcaseeq (a b : list Z) : bool := bool_decide (map tolower a = map tolower b).

(** The longest prefix of digits and what follows it. *)
Fixpoint span_digits (s : list Z) : list Z * list Z :=
  match s with
  | c :: s' => if isdigit c then let '(d, r) := span_digits s' in (c :: d, r) else ([], s)
  | [] => ([], [])
  end.

Definition dec_val (ds : list Z) : Z := foldl (fun a c => 10 * a + (c - 48)) 0 ds.

(** strtoll(s,&endptr,10) on a string without leading blanks: the value,
    saturated, and the characters from endptr on. *)
Definition strtoll (s : list Z) : Z * list Z :=
  let '(neg, p) := match s with c :: p => if c =? 45 then (true, p) else (false, s) | [] => (false, []) end in
  let '(ds, r) := span_digits p in
  match ds with
  | [] => (0, s)
  | _ => (Z.max LLONG_MIN (Z.min LLONG_MAX (if neg then - dec_val ds else dec_val ds)), r)
  end.

Definition unit_b : list Z := [98].
Definition unit_k : list Z := [107].
Definition unit_kb : list Z := [107; 98].
Definition unit_m : list Z := [109].
Definition unit_mb : list Z := [109; 98].
Definition unit_g : list Z := [103].
Definition unit_gb : list Z := [103; 98].

Definition memtoll_unit (u : list Z) : option Z :=
  if bool_decide (u = []) || strcaseeq u unit_b then Some 1
  else if strcaseeq u unit_k then Some 1000
  else if strcaseeq u unit_kb then Some 1024
  else if strcaseeq u unit_m then Some (1000 * 1000)
  else if strcaseeq u unit_mb then Some (1024 * 1024)
  else if strcaseeq u unit_g then Some (1000 * 1000 * 1000)
  else if strcaseeq u unit_gb then Some (1024 * 1024 * 1024)
  else None.

(** [p] holds the characters before the terminator.  The inner [None] is the
    error return; the outer one is the signed overflow of val*mul, which is
    undefined.  [einval] says whether strtoll() sets errno to EINVAL when there
    are no digits, which the C library may do. *)
Definition memtoll (einval : bool) (p : list Z) : option (option Z) :=
  let '(sign, q) := match p with c :: q => if c =? 45 then ([c], q) else ([], p) | [] => ([], []) end in
  let '(ds, u) := span_digits q in
  match memtoll_unit u with
  | None => Some None
  | Some mul =>
    let buf := sign ++ ds in
    if Z.of_nat (length buf) >=? 128 then Some None
    else
      let '(val, endptr) := strtoll buf in
      let inval := bool_decide (ds = []) && einval in
      if ((val =? 0) && inval) || negb (bool_decide (endptr = [])) then Some None
      else
        assert! ((LLONG_MIN <=? val * mul) && (val * mul <=? LLONG_MAX)) ;;
        Some (Some (val * mul))
  end.

(** ** Decimal notation *)

Fixpoint dec_rec (fuel : nat) (v : Z) : list Z :=
  match fuel with
  | O => []
  | S fuel => if v <? 10 then [48 + v] else dec_rec fuel (v / 10) ++ [48 + v mod 10]
  end.

(** The decimal digits of a number, and with its sign. *)
Definition dec (v : Z) : list Z := dec_rec (S (Z.to_nat (Z.log2 v))) v.
Definition decimal (v : Z) : list Z := if v <? 0 then 45 :: dec (- v) else dec v.

Lemma dec_rec_enough f g v :
  0 <= v < 2 ^ Z.of_nat f -> v < 2 ^ Z.of_nat g -> (0 < f)%nat -> (0 < g)%nat -> dec_rec f v = dec_rec g v.
Proof.
  revert g v. induction f as [|f IH]; intros g v Hf Hg Hf0 Hg0; [lia|]. destruct g as [|g]; [lia|].
  cbn [dec_rec]. bdestr1; [done|]. f_equal.
  rewrite !Nat2Z.inj_succ, !Z.pow_succ_r in * by lia.
  assert (forall n, v < 2 * 2 ^ Z.of_nat n -> (0 < n)%nat /\ v / 10 < 2 ^ Z.of_nat n) as Hd.
  { intros n Hn. destruct n as [|n]; [simpl in Hn; lia|]. split; [lia|].
    apply Z.div_lt_upper_bound; lia. }
  destruct (Hd f ltac:(lia)), (Hd g ltac:(lia)).
  apply IH; [|done..]. split; [apply Z.div_pos|]; lia.
Qed.

Lemma log2_fuel v : 0 <= v -> v < 2 ^ Z.of_nat (S (Z.to_nat (Z.log2 v))).
Proof.
  intros Hv. pose proof (Z.log2_nonneg v). rewrite Nat2Z.inj_succ, Z2Nat.id by done.
  destruct (Z.eq_dec v 0) as [->|]; [done|]. apply Z.log2_spec. lia.
Qed.

Lemma dec_unfold v : 0 <= v -> dec v = if v <? 10 then [48 + v] else dec (v / 10) ++ [48 + v mod 10].
Proof.
  intros Hv. unfold dec at 1. cbn [dec_rec]. bdestr1; [done|]. f_equal.
  pose proof (log2_fuel v Hv) as Hl. rewrite Nat2Z.inj_succ, Z.pow_succ_r in Hl by lia.
  assert (1 <= Z.log2 v) by (apply Z.log2_le_pow2; lia).
  apply dec_rec_enough; [split; [apply Z.div_pos|apply Z.div_lt_upper_bound]; lia| |lia|lia].
  apply log2_fuel, Z.div_pos; lia.
Qed.

(** A string of digits with no superfluous leading zero. *)
Definition canonical (ds : list Z) : Prop :=
  Forall (fun c => 48 <= c <= 57) ds /\ ds <> [] /\ (hd 0 ds = 48 -> ds = [48]).

Lemma isdigit_iff c : isdigit c = true <-> 48 <= c <= 57.
Proof. unfold isdigit. rewrite andb_true_iff, !Z.leb_le. done. Qed.

Lemma dec_ind (P : Z -> Prop) :
  (forall v, 0 <= v < 10 -> P v) -> (forall v, 10 <= v -> P (v / 10) -> P v) -> forall v, 0 <= v -> P v.
Proof.
  intros H0 HS v Hv0. apply (Z_lt_induction (fun v => 0 <= v -> P v)); [|done..]. clear v Hv0. intros v IH Hv.
  destruct (Z_lt_ge_dec v 10); [apply H0; lia|]. apply HS; [lia|].
  apply IH; [|apply Z.div_pos; lia]. split; [apply Z.div_pos|apply Z.div_lt_upper_bound]; lia.
Qed.

Lemma dec_small v : 0 <= v < 10 -> dec v = [48 + v].
Proof. intros Hv. rewrite dec_unfold by lia. by bdestr. Qed.

Lemma dec_step v : 10 <= v -> dec v = dec (v / 10) ++ [48 + v mod 10].
Proof. intros Hv. rewrite dec_unfold by lia. by bdestr. Qed.

Lemma dec_val_snoc ds c : dec_val (ds ++ [c]) = 10 * dec_val ds + (c - 48).
Proof. unfold dec_val. by rewrite foldl_app. Qed.

Lemma dec_val_dec v : 0 <= v -> dec_val (dec v) = v.
Proof.
  revert v. apply dec_ind; intros v Hv.
  - rewrite dec_small by done. unfold dec_val. simpl. lia.
  - intros IH. rewrite dec_step, dec_val_snoc, IH by done. zdiv_lia.
Qed.

Lemma dec_nonempty v : 0 <= v -> dec v <> [].
Proof. intros Hv. rewrite dec_unfold by done. bdestr1; [done|]. by destruct (dec _). Qed.

Lemma dec_digits v : 0 <= v -> Forall (fun c => 48 <= c <= 57) (dec v).
Proof.
  revert v. apply dec_ind; intros v Hv.
  - rewrite dec_small by done. constructor; [lia|constructor].
  - intros IH. rewrite dec_step by done. apply Forall_app. split; [done|]. constructor; [zdiv_lia|constructor].
Qed.

Lemma dec_head v : 0 < v -> 49 <= hd 0 (dec v) <= 57.
Proof.
  intros Hv. assert (0 <= v) as H0 by lia. revert v H0 Hv. apply (dec_ind (fun v => 0 < v -> _)); intros v Hv.
  - intros. rewrite dec_small by done. simpl. lia.
  - intros IH _. rewrite dec_step by done. specialize (IH ltac:(zdiv_lia)).
    destruct (dec (v / 10)) eqn:E; [|done]. by apply dec_nonempty in E; [|zdiv_lia].
Qed.

Lemma dec_canonical v : 0 <= v -> canonical (dec v).
Proof.
  intros Hv. split_and!; [by apply dec_digits|by apply dec_nonempty|]. intros Hh.
  destruct (Z.eq_dec v 0) as [->|]; [done|]. pose proof (dec_head v). lia.
Qed.

Lemma dec_val_nonneg ds : Forall (fun c => 48 <= c <= 57) ds -> 0 <= dec_val ds.
Proof.
  induction ds as [|c ds IH] using rev_ind; intros Hd; [done|].
  apply Forall_app in Hd as [Hd Hc]. rewrite Forall_singleton in Hc. rewrite dec_val_snoc.
  specialize (IH Hd). lia.
Qed.

Lemma canonical_snoc ds c : ds <> [] -> canonical (ds ++ [c]) -> canonical ds /\ 0 < dec_val ds.
Proof.
  intros Hne (Hd & _ & Hh). apply Forall_app in Hd as [Hd Hc].
  assert (hd 0 ds <> 48) as Hnz.
  { intros Hz. destruct ds as [|d [|? ?]]; [done|simpl in *..]; specialize (Hh Hz); congruence. }
  split; [by split_and!; [| |intros]|].
  clear Hh Hc. induction ds as [|x ds IH] using rev_ind; [done|].
  apply Forall_app in Hd as [Hd Hx]. rewrite Forall_singleton in Hx. rewrite dec_val_snoc.
  destruct ds as [|y ds]; [simpl in *; unfold dec_val; simpl; lia|].
  specialize (IH ltac:(done) Hd Hnz). lia.
Qed.

Lemma dec_dec_val ds : canonical ds -> dec (dec_val ds) = ds.
Proof.
  induction ds as [|c ds IH] using rev_ind; intros Hc; [by destruct Hc as (_ & ? & _)|].
  pose proof Hc as (Hd & _ & _). apply Forall_app in Hd as [Hd Hx]. rewrite Forall_singleton in Hx.
  rewrite dec_val_snoc. destruct (decide (ds = [])) as [->|Hne].
  - unfold dec_val. simpl. rewrite dec_small by lia. do 2 f_equal. lia.
  - destruct (canonical_snoc _ _ Hne Hc) as [Hds Hpos]. rewrite dec_step by lia.
    f_equal; [|do 2 f_equal; zdiv_lia]. rewrite <- (IH Hds) at 2. f_equal. zdiv_lia.
Qed.

(** ** Counting digits *)

Lemma dec_length_step v k : 0 <= k -> 10 ^ k <= v -> Z.of_nat (length (dec v)) = k + Z.of_nat (length (dec (v / 10 ^ k))).
Proof.
  intros Hk. revert v. pattern k. apply natlike_ind; [|intros n Hn IH v Hv|done].
  - intros v Hv. rewrite Z.pow_0_r, Z.div_1_r in *. lia.
  - rewrite Z.pow_succ_r in * by lia. assert (0 < 10 ^ n) by (apply Z.pow_pos_nonneg; lia).
    rewrite dec_step by nia. rewrite length_app, <- Z.div_div by lia. simpl.
    rewrite Nat2Z.inj_add, IH by (apply Z.div_le_lower_bound; lia). lia.
Qed.

Lemma dec_length v k : 0 <= k -> 10 ^ k <= v < 10 ^ (k + 1) -> Z.of_nat (length (dec v)) = k + 1.
Proof.
  intros Hk Hv. rewrite (dec_length_step v k) by lia. rewrite Z.pow_add_r in Hv by lia.
  assert (0 < 10 ^ k) by (apply Z.pow_pos_nonneg; lia).
  rewrite dec_small; [simpl; lia|].
  split; [apply Z.div_pos; lia|]. apply Z.div_lt_upper_bound; lia.
Qed.

Lemma dec_length_bound v k : 0 <= k -> 0 <= v < 10 ^ k -> Z.of_nat (length (dec v)) <= Z.max 1 k.
Proof.
  intros Hk. revert v. pattern k. apply natlike_ind; [|intros n Hn IH v Hv|done].
  - intros v Hv. rewrite Z.pow_0_r in Hv. rewrite dec_small by lia. done.
  - rewrite Z.pow_succ_r in Hv by lia. destruct (Z.ltb_spec v 10); [rewrite dec_small by lia; simpl; lia|].
    rewrite dec_step, length_app by lia. simpl.
    assert (0 <= v / 10 < 10 ^ n) as Hq by (split; [apply Z.div_pos|apply Z.div_lt_upper_bound]; lia).
    destruct (Z.eq_dec n 0) as [->|]; [rewrite Z.pow_0_r in Hq; zdiv_lia|]. specialize (IH _ Hq). lia.
Qed.

Lemma digits10_rec_spec fuel v :
  0 <= v < 10 ^ (12 * Z.of_nat fuel) -> (1 <= fuel <= 3)%nat ->
  digits10_rec fuel v = Some (Z.of_nat (length (dec v))).
Proof.
  revert v. induction fuel as [|fuel IH]; intros v Hv Hf; [lia|].
  assert (forall k n, n = k + 1 -> 0 <= k -> 10 ^ k <= v < 10 ^ (k + 1) -> n = Z.of_nat (length (dec v))) as Hl.
  { intros k n -> Hk Hr. symmetry. by apply dec_length. }
  cbn [digits10_rec].
  destruct (Z.ltb_spec v 10); [rewrite dec_small by lia; done|].
  destruct (Z.ltb_spec v 100); [f_equal; by apply (Hl 1)|].
  destruct (Z.ltb_spec v 1000); [f_equal; by apply (Hl 2)|].
  destruct (Z.ltb_spec v 1000000000000) as [H12|H12].
  - destruct (Z.ltb_spec v 100000000).
    + destruct (Z.ltb_spec v 1000000).
      * destruct (Z.ltb_spec v 10000); [f_equal; by apply (Hl 3)|]. rewrite Z.geb_leb.
        destruct (Z.leb_spec 100000 v); f_equal; [by apply (Hl 5)|by apply (Hl 4)].
      * rewrite Z.geb_leb. destruct (Z.leb_spec 10000000 v); f_equal; [by apply (Hl 7)|by apply (Hl 6)].
    + destruct (Z.ltb_spec v 10000000000); rewrite Z.geb_leb.
      * destruct (Z.leb_spec 1000000000 v); f_equal; [by apply (Hl 9)|by apply (Hl 8)].
      * destruct (Z.leb_spec 100000000000 v); f_equal; [by apply (Hl 11)|by apply (Hl 10)].
  - replace (12 * Z.of_nat (S fuel)) with (12 + 12 * Z.of_nat fuel) in Hv by lia. rewrite Z.pow_add_r in Hv by lia.
    change (10 ^ 12) with 1000000000000 in Hv.
    assert (0 <= v / 1000000000000 < 10 ^ (12 * Z.of_nat fuel)) as Hq.
    { split; [apply Z.div_pos; lia|apply Z.div_lt_upper_bound; lia]. }
    destruct fuel as [|fuel]; [simpl in Hv; lia|].
    rewrite IH by (done || lia). cbn [mbind option_bind]. f_equal.
    rewrite (dec_length_step v 12) by lia. change (10 ^ 12) with 1000000000000. apply u32_small.
    pose proof (dec_length_bound (v / 1000000000000) (12 * Z.of_nat (S fuel)) ltac:(lia) Hq). lia.
Qed.

Lemma digits10_spec v : 0 <= v < 2 ^ 64 -> digits10 v = Some (Z.of_nat (length (dec v))).
Proof.
  intros Hv. unfold digits10. rewrite digits10_rec_spec; [done| |lia].
  replace (10 ^ (12 * Z.of_nat 3)) with 1000000000000000000000000000000000000 by (vm_compute; reflexivity). lia.
Qed.

Lemma dec_length64 v : 0 <= v < 2 ^ 64 -> 1 <= Z.of_nat (length (dec v)) <= 20.
Proof.
  intros Hv. pose proof (dec_length_bound v 20 ltac:(lia) ltac:(lia)) as Hb.
  pose proof (dec_nonempty v ltac:(lia)) as Hne. destruct (dec v); [done|]. simpl in *. lia.
Qed.

(** ** ll2string *)

Lemma digits_table n : 0 <= n < 100 ->
  digits !! Z.to_nat (n * 2) = Some (48 + n / 10) /\ digits !! Z.to_nat (n * 2 + 1) = Some (48 + n mod 10).
Proof.
  intros Hn. assert (Forall (fun k => digits !! (k * 2)%nat = Some (48 + Z.of_nat k / 10) /\
    digits !! (k * 2 + 1)%nat = Some (48 + Z.of_nat k mod 10)) (seq 0 100)) as Hall.
  { apply (bool_decide_unpack _). vm_compute. exact I. }
  rewrite Forall_forall in Hall. specialize (Hall (Z.to_nat n)).
  rewrite Z2Nat.id in Hall by lia. rewrite Z2Nat.inj_add, Z2Nat.inj_mul by lia.
  apply Hall. apply elem_of_seq. lia.
Qed.

Lemma split_last_two (A : list Z) : (2 <= length A)%nat -> exists A' x y, A = A' ++ [x; y].
Proof.
  intros HA. destruct A as [|y A _] using rev_ind; [simpl in HA; lia|].
  destruct A as [|x A _] using rev_ind; [simpl in HA; lia|]. exists A, x, y. by rewrite <- app_assoc.
Qed.

(** Writing one cell. *)
Lemma mwrite_cell A x B i c : i = Z.of_nat (length A) -> mwrite (A ++ x :: B) i [c] = Some (A ++ c :: B).
Proof. intros Hi. apply (mwrite_app A [x] [c] B i Hi eq_refl). Qed.

(** Writing two cells from the back. *)
Lemma mwrite_two {R} (k : list Z -> option R) A x y B i c0 c1 :
  i = Z.of_nat (length A) + 1 -> 0 <= i < 2 ^ 32 ->
  (dst ← mwrite (A ++ x :: y :: B) i [c1]; dst ← mwrite dst (u32 (i - 1)) [c0]; k dst) = k (A ++ c0 :: c1 :: B).
Proof.
  intros Hi Hr. replace (A ++ x :: y :: B) with ((A ++ [x]) ++ y :: B) by (by rewrite <- app_assoc).
  rewrite mwrite_cell by (rewrite length_app; simpl; lia). cbn [mbind option_bind]. rewrite <- app_assoc. simpl.
  rewrite mwrite_cell by (rewrite u32_small; lia). done.
Qed.

Lemma ll2string_digits_spec fuel P A T v :
  0 <= v < 100 ^ Z.of_nat fuel -> (0 < fuel)%nat -> Z.of_nat (length P + length A) < 2 ^ 31 ->
  length (dec v) = length A ->
  ll2string_digits fuel (P ++ A ++ T) (Z.of_nat (length P + length A) - 1) v = Some (P ++ dec v ++ T).
Proof.
  revert A T v. induction fuel as [|fuel IH]; intros A T v Hv Hf HA Hlen; [lia|].
  cbn [ll2string_digits]. rewrite Z.geb_leb. destruct (Z.leb_spec 100 v) as [Hb|Hb].
  - assert (dec v = dec (v / 100) ++ [48 + v mod 100 / 10; 48 + v mod 100 mod 10]) as Hd.
    { rewrite dec_step, (dec_step (v / 10)), <- app_assoc by zdiv_lia. simpl.
      rewrite Z.div_div by lia. do 2 f_equal; [|f_equal]; zdiv_lia. }
    rewrite Hd, length_app in Hlen. simpl in Hlen.
    destruct (split_last_two A) as (A' & x & y & ->); [lia|].
    rewrite length_app in *. simpl in Hlen, HA.
    destruct (digits_table (v mod 100) ltac:(zdiv_lia)) as [-> ->]. cbn [mbind option_bind].
    rewrite Hd, <- !app_assoc, (app_assoc P A'). cbn [app length].
    rewrite (mwrite_two (fun dst => ll2string_digits fuel dst _ _)) by (rewrite ?length_app; lia).
    replace (u32 _) with (Z.of_nat (length P + length A') - 1).
    2: { pose proof (dec_nonempty (v / 100) ltac:(zdiv_lia)) as Hne. destruct (dec (v / 100)); [done|].
         simpl in Hlen. rewrite u32_small; lia. }
    rewrite <- app_assoc. apply IH; [|destruct fuel; [simpl in Hv; lia|lia]|lia|lia].
    rewrite Nat2Z.inj_succ, Z.pow_succ_r in Hv by lia. split; [zdiv_lia|].
    apply Z.div_lt_upper_bound; lia.
  - destruct (Z.ltb_spec v 10).
    + rewrite dec_small in * by lia. destruct A as [|x [|? ?]]; simpl in Hlen; try lia.
      apply mwrite_cell. simpl. lia.
    + assert (dec v = [48 + v / 10; 48 + v mod 10]) as Hd by (rewrite dec_step, dec_small by zdiv_lia; done).
      rewrite Hd in *. destruct A as [|x [|y [|? ?]]]; simpl in Hlen; try lia.
      destruct (digits_table v ltac:(lia)) as [-> ->]. cbn [mbind option_bind app length].
      pose proof (mwrite_two Some P x y T (Z.of_nat (length P + 2) - 1) (48 + v / 10) (48 + v mod 10)
        ltac:(lia) ltac:(simpl in HA; lia)) as Hm.
      rewrite <- Hm. destruct (mwrite _ _ _) as [d1|]; cbn; [|done]. by destruct (mwrite d1 _ _).
Qed.

Lemma abs_value v : LLONG_MIN <= v <= LLONG_MAX ->
  (if v <? 0 then (if negb (v =? LLONG_MIN) then u64 (- v) else u64 (LLONG_MAX + 1), 1) else (u64 v, 0)) =
  (Z.abs v, if v <? 0 then 1 else 0).
Proof.
  unfold LLONG_MIN, LLONG_MAX. intros Hv. destruct (Z.ltb_spec v 0); f_equal.
  - destruct (Z.eqb_spec v (- 2 ^ 63)); cbn [negb].
    + subst v. reflexivity.
    + rewrite u64_small; lia.
  - rewrite u64_small; lia.
Qed.

Lemma decimal_abs v : decimal v = (if v <? 0 then [45] else []) ++ dec (Z.abs v).
Proof. unfold decimal. destruct (Z.ltb_spec v 0); simpl; do 2 f_equal; lia. Qed.

Lemma fuel11 v : 0 <= v < 2 ^ 64 -> v < 100 ^ Z.of_nat 11.
Proof.
  intros Hv. replace (100 ^ Z.of_nat 11) with 10000000000000000000000 by (vm_compute; reflexivity). lia.
Qed.

Lemma split_at (n : nat) (l : list Z) : (n < length l)%nat -> exists x, l = take n l ++ x :: drop (S n) l.
Proof.
  intros Hn. destruct (lookup_lt_is_Some_2 l n Hn) as [x Hx]. exists x. symmetry. by apply take_drop_middle.
Qed.

Lemma sdigits10_spec v : LLONG_MIN <= v <= LLONG_MAX -> sdigits10 v = Some (Z.of_nat (length (decimal v))).
Proof.
  intros Hv. pose proof (abs_value v Hv) as Ha. rewrite decimal_abs, length_app. unfold sdigits10.
  assert (0 <= Z.abs v < 2 ^ 64) as Hr by (unfold LLONG_MIN, LLONG_MAX in Hv; lia).
  destruct (v <? 0); injection Ha as Ha; rewrite Ha, digits10_spec by done; [|done].
  cbn [mbind option_bind length]. f_equal. pose proof (dec_length64 _ Hr). rewrite u32_small; lia.
Qed.

Lemma ll2string_spec dst dstlen v :
  LLONG_MIN <= v <= LLONG_MAX -> 0 <= dstlen <= Z.of_nat (length dst) ->
  let n := length (decimal v) in
  ll2string dst dstlen v =
    if dstlen <=? Z.of_nat n then Some (dst, 0)
    else Some (decimal v ++ 0 :: drop (S n) dst, Z.of_nat n).
Proof.
  intros Hv Hl n. unfold ll2string. rewrite (abs_value v Hv).
  assert (0 <= Z.abs v < 2 ^ 64) as Hr by (unfold LLONG_MIN, LLONG_MAX in Hv; lia).
  rewrite digits10_spec by done. cbn [mbind option_bind]. pose proof (dec_length64 _ Hr) as Hd.
  assert (u32 (Z.of_nat (length (dec (Z.abs v))) + (if v <? 0 then 1 else 0)) = Z.of_nat n) as ->.
  { unfold n. rewrite decimal_abs, length_app. rewrite u32_small; destruct (v <? 0); simpl; lia. }
  assert (Z.of_nat n <= 21) as Hn.
  { unfold n. rewrite decimal_abs, length_app. destruct (v <? 0); simpl; lia. }
  rewrite Z.geb_leb. destruct (Z.leb_spec dstlen (Z.of_nat n)); [done|].
  destruct (split_at n dst) as [x Hx]; [lia|].
  set (D := drop (S n) dst) in *. clearbody D. set (A := take n dst) in *.
  assert (length A = n) as HA by (unfold A; rewrite length_take; lia). clearbody A. subst dst.
  rewrite mwrite_cell by lia. cbn [mbind option_bind].
  unfold n in HA. rewrite decimal_abs, length_app in HA. unfold n. rewrite (decimal_abs v), length_app.
  rewrite u32_small by (destruct (v <? 0); simpl in *; lia).
  destruct (v <? 0).
  - destruct A as [|a A]; [done|]. simpl in HA. cbn [app length Nat.add].
    pose proof (ll2string_digits_spec 11 [a] A (0 :: D) (Z.abs v)) as Hs. cbn [app length Nat.add] in Hs.
    rewrite <- HA at 1. rewrite Hs; [|split; [lia|exact (fuel11 _ Hr)]|lia..].
    cbn [mbind option_bind]. pose proof (mwrite_cell [] a (dec (Z.abs v) ++ 0 :: D) 0 45 eq_refl) as Hw.
    cbn [app] in Hw. change (negb (1 =? 0)) with true. cbv iota. by rewrite Hw.
  - pose proof (ll2string_digits_spec 11 [] A (0 :: D) (Z.abs v)) as Hs. cbn [app length Nat.add] in *.
    rewrite <- HA at 1. rewrite Hs; [done|split; [lia|exact (fuel11 _ Hr)]|lia..].
Qed.

(** Ll2string writes the decimal notation of any 64-bit signed integer,
    LLONG_MIN included, followed by the terminator, leaves the rest of the
    buffer alone and returns the length; when the buffer is too small it
    returns 0 and writes nothing. *)
Theorem ll2string_correct dst dstlen v :
  LLONG_MIN <= v <= LLONG_MAX -> 0 <= dstlen <= Z.of_nat (length dst) ->
  let n := length (decimal v) in
  ll2string dst dstlen v =
    if dstlen <=? Z.of_nat n then Some (dst, 0)
    else Some (decimal v ++ 0 :: drop (S n) dst, Z.of_nat n).
Proof. apply ll2string_spec. Qed.

(** ** string2ll *)

Lemma dec_val_app_le ds rest :
  Forall (fun c => 48 <= c <= 57) ds -> Forall (fun c => 48 <= c <= 57) rest -> dec_val ds <= dec_val (ds ++ rest).
Proof.
  intros Hd Hr. induction rest as [|c rest IH] using rev_ind; [by rewrite app_nil_r|].
  apply Forall_app in Hr as [Hr Hc]. rewrite Forall_singleton in Hc. rewrite app_assoc, dec_val_snoc.
  specialize (IH Hr). pose proof (dec_val_nonneg ds Hd). lia.
Qed.

Lemma span_digits_spec s :
  s = (span_digits s).1 ++ (span_digits s).2 /\ Forall (fun c => 48 <= c <= 57) (span_digits s).1 /\
  (forall c r, (span_digits s).2 = c :: r -> ~ 48 <= c <= 57).
Proof.
  induction s as [|c s (IH1 & IH2 & IH3)]; [done|]. cbn [span_digits].
  destruct (isdigit c) eqn:Hc.
  - destruct (span_digits s) as [d r]. simpl in *. split_and!; [by f_equal| |done].
    constructor; [by apply isdigit_iff|done].
  - simpl. split_and!; [done|constructor|]. intros c' r [= <- <-]. rewrite <- isdigit_iff. congruence.
Qed.

(** The loop reads on from the digits [ds]: it stops at the first other
    character, or because the value does not fit 64 bits. *)
Lemma string2ll_loop_spec p ds :
  Forall (fun c => 48 <= c <= 57) ds -> dec_val ds <= ULLONG_MAX ->
  let '(more, rest) := span_digits p in
  string2ll_loop p (dec_val ds) =
    if dec_val (ds ++ more) <=? ULLONG_MAX then Some (dec_val (ds ++ more), rest) else None.
Proof.
  revert ds. induction p as [|c p IH]; intros ds Hds Hm; cbn [span_digits string2ll_loop].
  { rewrite app_nil_r. by bdestr. }
  destruct (isdigit c) eqn:Hc; [|rewrite app_nil_r; by bdestr].
  apply isdigit_iff in Hc. assert (Forall (fun c => 48 <= c <= 57) (ds ++ [c])) as Hds'
    by (apply Forall_app; split; [done|by rewrite Forall_singleton]).
  specialize (IH (ds ++ [c]) Hds'). rewrite dec_val_snoc in IH. pose proof (dec_val_nonneg ds Hds) as H0.
  destruct (span_digits p) as [more rest] eqn:Hs.
  assert (Forall (fun c => 48 <= c <= 57) more) as Hmore.
  { pose proof (span_digits_spec p) as (_ & Hf & _). by rewrite Hs in Hf. }
  replace (ds ++ c :: more) with ((ds ++ [c]) ++ more) by (by rewrite <- app_assoc).
  pose proof (dec_val_app_le (ds ++ [c]) more Hds' Hmore) as Hle. rewrite dec_val_snoc in Hle.
  assert (ULLONG_MAX / 10 = 1844674407370955161) as Hq by reflexivity.
  rewrite !Z.gtb_ltb, Hq. unfold ULLONG_MAX in *.
  destruct (Z.ltb_spec 1844674407370955161 (dec_val ds)); [by bdestr|].
  rewrite (u64_small (dec_val ds * 10)) by lia.
  destruct (Z.ltb_spec (2 ^ 64 - 1 - (c - 48)) (dec_val ds * 10)); [by bdestr|].
  rewrite u64_small by lia. replace (dec_val ds * 10 + (c - 48)) with (10 * dec_val ds + (c - 48)) by lia.
  apply IH. lia.
Qed.

Lemma span_digits_all ds u :
  Forall (fun c => 48 <= c <= 57) ds -> (forall c r, u = c :: r -> ~ 48 <= c <= 57) -> span_digits (ds ++ u) = (ds, u).
Proof.
  intros Hd Hu. induction Hd as [|c ds Hc _ IH].
  - destruct u as [|c r]; [done|]. simpl. destruct (isdigit c) eqn:Hc; [|done].
    apply isdigit_iff in Hc. by destruct (Hu c r eq_refl).
  - simpl. by rewrite (proj2 (isdigit_iff c) Hc), IH.
Qed.

Lemma span_digits_nil ds : Forall (fun c => 48 <= c <= 57) ds -> span_digits ds = (ds, []).
Proof. intros Hd. rewrite <- (app_nil_r ds) at 1. by apply span_digits_all. Qed.

Lemma canonical_cons d more :
  49 <= d <= 57 -> Forall (fun c => 48 <= c <= 57) more -> canonical (d :: more).
Proof. intros Hd Hm. split_and!; [constructor; [lia|done]|done|]. simpl. lia. Qed.

(** The magnitude part, from the first digit on. *)
Lemma string2ll_digits p v :
  string2ll_abs p = Some v <-> 0 < v <= ULLONG_MAX /\ p = dec v.
Proof.
  unfold string2ll_abs. destruct p as [|d p].
  { split; [done|]. intros [Hv Hp]. pose proof (dec_nonempty v). destruct H; [lia|done]. }
  destruct ((49 <=? d) && (d <=? 57)) eqn:Hd.
  - assert (49 <= d <= 57) as Hd' by (breflect; lia).
    pose proof (string2ll_loop_spec p [d]) as Hs. pose proof (span_digits_spec p) as (Hp & Hdig & Hstop).
    destruct (span_digits p) as [more rest]. cbn [fst snd] in *.
    replace (dec_val [d]) with (d - 48) in Hs by (unfold dec_val; simpl; lia).
    rewrite Hs; [|by rewrite Forall_singleton; lia|unfold ULLONG_MAX; lia]. cbn [app]. clear Hs.
    pose proof (canonical_cons d more Hd' Hdig) as Hcan.
    pose proof (dec_val_app_le [d] more ltac:(rewrite Forall_singleton; lia) Hdig) as Hge.
    replace (dec_val [d]) with (d - 48) in Hge by (unfold dec_val; simpl; lia). cbn [app] in Hge. split.
    + destruct (Z.leb_spec (dec_val (d :: more)) ULLONG_MAX); [|done]. cbn [mbind option_bind].
      destruct rest; [|done]. intros [= <-]. rewrite app_nil_r in Hp. subst p.
      split; [lia|]. by rewrite dec_dec_val.
    + intros [Hv Heq]. assert (rest = [] /\ p = more) as [-> ->].
      { assert (Forall (fun c => 48 <= c <= 57) (d :: p)) as Hall by (rewrite Heq; apply dec_digits; lia).
        destruct rest as [|c r]; [by rewrite app_nil_r in Hp|].
        rewrite Hp in Hall. apply Forall_cons in Hall as [_ Hall]. apply Forall_app in Hall as [_ Hall].
        apply Forall_cons in Hall as [Hc _]. by destruct (Hstop c r eq_refl). }
      rewrite Heq, dec_val_dec by lia. destruct (Z.leb_spec v ULLONG_MAX); [done|lia].
  - split; [done|]. intros [Hv Heq]. pose proof (dec_head v ltac:(lia)) as Hh. rewrite <- Heq in Hh.
    simpl in Hh. apply andb_false_iff in Hd as [Hd|Hd]; apply Z.leb_gt in Hd; lia.
Qed.

Lemma decimal_neg_head c s v : decimal v = c :: s -> c = 45 <-> v < 0.
Proof.
  unfold decimal. destruct (Z.ltb_spec v 0) as [Hv|Hv]; intros H; [by simplify_eq|].
  pose proof (dec_digits v Hv) as Hd. rewrite H in Hd. apply Forall_cons in Hd as [Hc _]. lia.
Qed.

Lemma string2ll_iff s v : string2ll s = Some v <-> LLONG_MIN <= v <= LLONG_MAX /\ s = decimal v.
Proof.
  destruct (decide (s = [])) as [->|Hne].
  { split; [done|]. intros [_ Hs]. unfold decimal in Hs. destruct (Z.ltb_spec v 0); [done|].
    by apply eq_sym, dec_nonempty in Hs. }
  unfold string2ll. rewrite bool_decide_eq_false_2 by done.
  case_bool_decide as Hz.
  { subst s. split; [intros [= <-]; done|]. intros [_ Hs]. unfold decimal in Hs.
    destruct (Z.ltb_spec v 0); [done|]. f_equal. rewrite <- (dec_val_dec v), <- Hs by done. done. }
  destruct s as [|c s]; [done|]. change (u64 (- (LLONG_MIN + 1)) + 1) with (2 ^ 63).
  unfold LLONG_MIN, LLONG_MAX. destruct (Z.eqb_spec c 45) as [->|Hc].
  - split.
    + destruct (string2ll_abs s) as [w|] eqn:Hw; [|done]. apply string2ll_digits in Hw as [Hw ->].
      cbn [mbind option_bind]. rewrite Z.gtb_ltb. destruct (Z.ltb_spec (2 ^ 63) w); [done|]. intros [= <-].
      assert (s64 (u64 (- w)) = - w) as ->. { apply (sN_mod 8); simpl; lia. }
      split; [lia|]. unfold decimal. destruct (Z.ltb_spec (- w) 0); [by rewrite Z.opp_involutive|lia].
    + intros [Hv Hs]. assert (v < 0) as Hneg by (by apply (decimal_neg_head 45 s)).
      unfold decimal in Hs. destruct (Z.ltb_spec v 0); [|lia]. injection Hs as Hs.
      rewrite (proj2 (string2ll_digits s (- v))) by (unfold ULLONG_MAX; split; [lia|done]).
      cbn [mbind option_bind]. rewrite Z.gtb_ltb. destruct (Z.ltb_spec (2 ^ 63) (- v)); [lia|].
      rewrite Z.opp_involutive. f_equal. apply (sN_mod 8); simpl; lia.
  - split.
    + destruct (string2ll_abs (c :: s)) as [w|] eqn:Hw; [|done]. apply string2ll_digits in Hw as [Hw Hs].
      cbn [mbind option_bind]. rewrite Z.gtb_ltb. destruct (Z.ltb_spec (2 ^ 63 - 1) w); [done|]. intros [= <-].
      split; [lia|]. unfold decimal. destruct (Z.ltb_spec w 0); [lia|done].
    + intros [Hv Hs]. assert (0 <= v) as Hpos.
      { destruct (Z.ltb_spec v 0) as [Hlt|]; [|done]. apply (decimal_neg_head c s v) in Hlt; done. }
      assert (v <> 0) by (intros ->; done).
      unfold decimal in Hs. destruct (Z.ltb_spec v 0); [lia|].
      rewrite (proj2 (string2ll_digits (c :: s) v)) by (unfold ULLONG_MAX; split; [lia|done]).
      cbn [mbind option_bind]. rewrite Z.gtb_ltb. destruct (Z.ltb_spec (2 ^ 63 - 1) v); [lia|done].
Qed.

(** C39: string2ll accepts exactly the decimal notation of the 64-bit signed
    integers, with no sign but a minus, no leading zeros and no other
    characters, and returns the number: it is the inverse of the notation
    ll2string writes.  string2l agrees with it. *)
Theorem string2ll_correct s v :
  (string2ll s = Some v <-> LLONG_MIN <= v <= LLONG_MAX /\ s = decimal v) /\ string2l s = string2ll s.
Proof.
  split; [apply string2ll_iff|]. unfold string2l. destruct (string2ll s) as [w|] eqn:Hs; [|done].
  apply string2ll_iff in Hs as [Hw _]. cbn [mbind option_bind]. unfold LONG_MIN, LONG_MAX, LLONG_MIN, LLONG_MAX in *.
  destruct (Z.ltb_spec w (- 2 ^ 63)); [lia|]. rewrite Z.gtb_ltb. destruct (Z.ltb_spec (2 ^ 63 - 1) w); [lia|done].
Qed.

(** Digits10 and sdigits10 count the characters of the decimal notation, for
    every unsigned and every signed 64-bit integer. *)
Theorem digits10_correct v :
  (0 <= v <= ULLONG_MAX -> digits10 v = Some (Z.of_nat (length (decimal v)))) /\
  (LLONG_MIN <= v <= LLONG_MAX -> sdigits10 v = Some (Z.of_nat (length (decimal v)))).
Proof.
  split; intros Hv; [|by apply sdigits10_spec]. rewrite decimal_abs, Z.abs_eq by lia.
  destruct (Z.ltb_spec v 0); [lia|]. apply digits10_spec. unfold ULLONG_MAX in Hv. lia.
Qed.

(** *** memtoll *)

Lemma unit_nondigit u mul : memtoll_unit u = Some mul -> forall c r, u = c :: r -> ~ 48 <= c <= 57.
Proof.
  intros Hu c r -> Hc. unfold memtoll_unit, strcaseeq in Hu.
  assert (tolower c = c) as Ht by (unfold tolower; destruct (Z.leb_spec 65 c); [lia|done]).
  cbn [map] in Hu. rewrite Ht in Hu.
  assert (forall (l : list Z) x l', x <> c -> bool_decide (c :: l = x :: l') = false) as Hf
    by (intros l x l' Hx; apply bool_decide_eq_false_2; congruence).
  unfold unit_b, unit_k, unit_kb, unit_m, unit_mb, unit_g, unit_gb in Hu. cbn [map] in Hu.
  rewrite !Hf in Hu by (vm_compute tolower; lia). discriminate.
Qed.

Lemma memtoll_unit_pos u mul : memtoll_unit u = Some mul -> 1 <= mul.
Proof. unfold memtoll_unit. repeat case_match; intros [=]; subst; lia. Qed.

(** The sign, the digits and the unit of an amount in decimal notation. *)
Lemma strtoll_decimal n : strtoll (decimal n) = (Z.max LLONG_MIN (Z.min LLONG_MAX n), []).
Proof.
  unfold strtoll, decimal. destruct (Z.ltb_spec n 0) as [Hn|Hn].
  - change (45 =? 45) with true. cbv iota. pose proof (dec_digits (- n) ltac:(lia)) as Hd.
    rewrite span_digits_nil by done. pose proof (dec_nonempty (- n) ltac:(lia)).
    rewrite dec_val_dec, Z.opp_involutive by lia. by destruct (dec (- n)).
  - pose proof (dec_digits n Hn) as Hd. pose proof (dec_nonempty n Hn) as Hne. pose proof (dec_val_dec n Hn) as Hv.
    destruct (dec n) as [|c ds] eqn:E; [done|]. pose proof Hd as Hd'. apply Forall_cons in Hd' as [Hc _].
    destruct (Z.eqb_spec c 45); [lia|]. rewrite span_digits_nil by done. by rewrite Hv.
Qed.

Lemma memtoll_decimal einval n u mul :
  memtoll_unit u = Some mul -> Z.of_nat (length (decimal n)) < 128 ->
  memtoll einval (decimal n ++ u) =
    let val := Z.max LLONG_MIN (Z.min LLONG_MAX n) in
    if (LLONG_MIN <=? val * mul) && (val * mul <=? LLONG_MAX) then Some (Some (val * mul)) else None.
Proof.
  intros Hu Hl. pose proof (strtoll_decimal n) as Hst. pose proof (unit_nondigit u mul Hu) as Hnd.
  unfold memtoll. unfold decimal in *. destruct (Z.ltb_spec n 0) as [Hn|Hn].
  - cbn [app].
    change (45 =? 45) with true. cbv beta iota.
    rewrite span_digits_all by (done || apply dec_digits; lia). rewrite Hu. cbn [app].
    rewrite Z.geb_leb. destruct (Z.leb_spec 128 (Z.of_nat (length (45 :: dec (- n))))); [lia|]. rewrite Hst.
    rewrite (bool_decide_eq_false_2 (dec (- n) = [])) by (apply dec_nonempty; lia). rewrite andb_false_r. done.
  - destruct (dec n) as [|c ds] eqn:E; [by apply dec_nonempty in E|].
    pose proof (dec_digits n Hn) as Hd. rewrite E in Hd. pose proof Hd as Hd'. apply Forall_cons in Hd' as [Hc _].
    cbn [app]. destruct (Z.eqb_spec c 45); [lia|]. rewrite (app_comm_cons ds u c).
    rewrite span_digits_all by done. rewrite Hu. cbn [app]. rewrite Z.geb_leb.
    destruct (Z.leb_spec 128 (Z.of_nat (length (c :: ds)))); [lia|]. rewrite Hst.
    rewrite (bool_decide_eq_false_2 (c :: ds = [])) by done. rewrite andb_false_r. done.
Qed.

(** Memtoll reads an amount of memory, a decimal integer followed by one of
    the units in either case, as the number of bytes whenever that number fits
    a long long.  An amount that does not fit is not an error: without a
    multiplier it is silently cut to LLONG_MAX, and the multiplication of any
    larger one overflows, which is undefined. *)
Theorem memtoll_correct einval n u mul :
  memtoll_unit u = Some mul -> 0 <= n -> Z.of_nat (length (decimal n)) < 128 ->
  memtoll einval (decimal n ++ u) =
    if n * mul <=? LLONG_MAX then Some (Some (n * mul))
    else if mul =? 1 then Some (Some LLONG_MAX) else None.
Proof.
  intros Hu Hn Hl. rewrite (memtoll_decimal einval n u mul Hu Hl).
  pose proof (memtoll_unit_pos u mul Hu) as Hm. cbv zeta. unfold LLONG_MIN, LLONG_MAX.
  destruct (Z.leb_spec (n * mul) (2 ^ 63 - 1)) as [Hle|Hgt].
  - replace (Z.max _ _) with n by nia. rewrite (proj2 (Z.leb_le _ _)) by nia.
    by rewrite (proj2 (Z.leb_le _ _) Hle).
  - destruct (Z.eqb_spec mul 1) as [->|Hm1].
    + replace (Z.max _ _) with (2 ^ 63 - 1) by lia. done.
    + destruct (_ && _) eqn:Hb; [|done]. breflect. nia.
Qed.

(** ** Concrete inputs *)

Lemma ll2string_correct_witness :
  ll2string (replicate 32 7) 32 (- 2 ^ 63) =
    (if 32 <=? Z.of_nat (length (decimal (- 2 ^ 63))) then Some (replicate 32 7, 0)
     else Some (decimal (- 2 ^ 63) ++ 0 :: drop (S (length (decimal (- 2 ^ 63)))) (replicate 32 7),
                Z.of_nat (length (decimal (- 2 ^ 63))))).
Proof.
  apply (ll2string_correct (replicate 32 7) 32 (- 2 ^ 63)); [unfold LLONG_MIN, LLONG_MAX; lia|simpl; lia].
Defined.

Lemma digits10_correct_witness :
  digits10 ULLONG_MAX = Some (Z.of_nat (length (decimal ULLONG_MAX))) /\
  sdigits10 LLONG_MIN = Some (Z.of_nat (length (decimal LLONG_MIN))).
Proof.
  split.
  - apply (proj1 (digits10_correct ULLONG_MAX)). split; vm_compute; discriminate.
  - apply (proj2 (digits10_correct LLONG_MIN)). split; vm_compute; discriminate.
Defined.

Example string2ll_examples :
  string2ll [45; 57] = Some (-9) /\ string2ll [48; 49] = None /\ string2ll [45; 48] = None /\ string2ll [43; 49] = None.
Proof. repeat split. Qed.

(** 64mb, 2^33 gb. *)
Lemma memtoll_correct_witness :
  memtoll false (decimal 64 ++ [109; 66]) = Some (Some (64 * (1024 * 1024))) /\
  memtoll false (decimal (2 ^ 33) ++ [71; 98]) = None.
Proof.
  split.
  - rewrite (memtoll_correct false 64 [109; 66] (1024 * 1024)); [reflexivity|reflexivity|lia|vm_compute; reflexivity].
  - rewrite (memtoll_correct false (2 ^ 33) [71; 98] (1024 * 1024 * 1024));
      [reflexivity|reflexivity|lia|vm_compute; reflexivity].
Defined.
