(* ===== verification/Glob.v ===== *)
(** * Glob-style pattern matching (stringmatchlen, src/redis-stable/src/util.c)

    The matcher walks a pointer through the pattern and looks one character past
    its end in several places, so the model keeps the pattern's memory block and
    a position in it; a read outside the block has no result.  The theorem
    compares it with a declarative semantics of the parsed pattern. *)
From stdpp Require Import prelude list.
From Stdlib Require Import ZArith Lia.
From S2P Require Import Prelude Util.

Local Open Scope Z_scope.

(** ** Model *)

(** *(mem+i) *)
Definition cell (mem : list Z) (i : Z) : option Z := if i <? 0 then None else mem !! Z.to_nat i.

(** The comparison of a pattern character with a string character. *)
Definition chr_eq (nocase : bool) (a b : Z) : bool :=
  if nocase then tolower a =? tolower b else a =? b.

Definition in_range (nocase : bool) (start stop c : Z) : bool :=
  let '(start, stop) := if start >? stop then (stop, start) else (start, stop) in
  let '(start, stop, c) := if nocase then (tolower start, tolower stop, tolower c) else (start, stop, c) in
  (c >=? start) && (c <=? stop).

(** while(1) { ... } over the characters of a class, from pattern position [pp]
    with [plen] characters left: the match flag and the position at the break. *)
Fixpoint class_loop (fuel : nat) (mem : list Z) (nocase : bool) (c pp plen : Z) (mt : bool)
    : option (bool * Z * Z) :=
  match fuel with
  | O => None
  | S fuel =>
    p0 ← cell mem pp;
    if (p0 =? 92) && (plen >=? 2) then
      p0 ← cell mem (pp + 1);
      class_loop fuel mem nocase c (pp + 2) (plen - 2) (mt || (p0 =? c))
    else if p0 =? 93 then Some (mt, pp, plen)
    else if plen =? 0 then Some (mt, pp - 1, plen + 1)
    else
      p1 ← cell mem (pp + 1);
      if (p1 =? 45) && (plen >=? 3) then
        p2 ← cell mem (pp + 2);
        class_loop fuel mem nocase c (pp + 3) (plen - 3) (mt || in_range nocase p0 p2 c)
      else class_loop fuel mem nocase c (pp + 1) (plen - 1) (mt || chr_eq nocase p0 c)
  end.

(** while (pattern[off] == '*') { pattern++; patternLen--; } *)
Fixpoint skip_stars (fuel : nat) (mem : list Z) (off pp plen : Z) : option (Z * Z) :=
  match fuel with
  | O => None
  | S fuel =>
    x ← cell mem (pp + off);
    if x =? 42 then skip_stars fuel mem off (pp + 1) (plen - 1) else Some (pp, plen)
  end.

(** while(stringLen) { if (stringmatchlen(...)) return 1; string++; stringLen--; } return 0; *)
Fixpoint star_loop (f : list Z -> option bool) (s : list Z) : option bool :=
  match s with
  | [] => Some false
  | _ :: s' => b ← f s; if (b : bool) then Some true else star_loop f s'
  end.

(** The end of the loop body: after the pattern was advanced, trailing stars are
    skipped when the string is used up, otherwise the loop goes on. *)
Definition advance (mem : list Z) (loop : Z -> Z -> list Z -> option bool) (pp plen : Z) (s : list Z)
    : option bool :=
  match s with
  | [] => '(_, plen) ← skip_stars (S (length mem)) mem 0 pp plen; Some (plen =? 0)
  | _ => loop pp plen s
  end.

(** The main loop, on the part of the string that is left. *)
Fixpoint match_loop (fuel : nat) (mem : list Z) (nocase : bool) (pp plen : Z) (s : list Z) : option bool :=
  match fuel with
  | O => None
  | S fuel =>
    let next := advance mem (match_loop fuel mem nocase) in
    match s with
    | [] => Some (plen =? 0)
    | c :: s' =>
      if plen =? 0 then Some false
      else
        p0 ← cell mem pp;
        if p0 =? 42 then
          '(pp, plen) ← skip_stars (S (length mem)) mem 1 pp plen;
          if plen =? 1 then Some true
          else star_loop (match_loop fuel mem nocase (pp + 1) (plen - 1)) s
        else if p0 =? 63 then next (pp + 1) (plen - 1) s'
        else if p0 =? 91 then
          p1 ← cell mem (pp + 1);
          let neg := p1 =? 94 in
          let '(pp, plen) := if (neg : bool) then (pp + 2, plen - 2) else (pp + 1, plen - 1) in
          '(mt, pp, plen) ← class_loop (S (length mem)) mem nocase c pp plen false;
          if xorb neg mt then next (pp + 1) (plen - 1) s' else Some false
        else
          let '(pp, plen) := if (p0 =? 92) && (plen >=? 2) then (pp + 1, plen - 1) else (pp, plen) in
          p0 ← cell mem pp;
          if chr_eq nocase p0 c then next (pp + 1) (plen - 1) s' else Some false
    end
  end.

(** [pattern] is the memory from the pattern on, [string] the characters of the
    string. *)
Definition stringmatchlen (pattern : list Z) (patternLen : Z) (string : list Z) (nocase : bool) : option bool :=
  match_loop (S (Z.to_nat patternLen)) pattern nocase 0 patternLen string.

(** stringmatch(): the lengths are taken up to the terminators. *)
Definition stringmatch (pattern string : list Z) (nocase : bool) : option bool :=
  stringmatchlen (pattern ++ [0]) (Z.of_nat (length pattern)) string nocase.

(** ** Declarative semantics *)

(** Elements of a class: an escaped character, which is compared as it is, a
    character, a range. *)
Inductive item := Esc (a : Z) | Chr (a : Z) | Rng (a b : Z).
Inductive tok := Star | Any | Class (neg : bool) (its : list item) | Lit (a : Z).

Definition item_match (nocase : bool) (c : Z) (i : item) : bool :=
  match i with
  | Esc a => a =? c
  | Chr a => chr_eq nocase a c
  | Rng a b => in_range nocase a b c
  end.

(** The elements up to the closing bracket, or to the end of the pattern, and
    the pattern after it. *)
Fixpoint parse_class (q : list Z) : list item * list Z :=
  match q with
  | [] => ([], [])
  | a :: q1 =>
    if a =? 93 then ([], q1)
    else match q1 with
      | [] => ([Chr a], [])
      | b :: q2 =>
        if a =? 92 then let '(its, r) := parse_class q2 in (Esc b :: its, r)
        else match q2 with
          | [] => let '(its, r) := parse_class q1 in (Chr a :: its, r)
          | b' :: q3 =>
            if b =? 45 then let '(its, r) := parse_class q3 in (Rng a b' :: its, r)
            else let '(its, r) := parse_class q1 in (Chr a :: its, r)
          end
      end
  end.

Fixpoint parse_rec (fuel : nat) (q : list Z) : list tok :=
  match fuel, q with
  | S fuel, a :: q1 =>
    if a =? 42 then Star :: parse_rec fuel q1
    else if a =? 63 then Any :: parse_rec fuel q1
    else if a =? 91 then
      let '(neg, q2) := match q1 with b :: q2 => if b =? 94 then (true, q2) else (false, q1) | [] => (false, []) end in
      let '(its, r) := parse_class q2 in Class neg its :: parse_rec fuel r
    else if a =? 92 then
      match q1 with b :: q2 => Lit b :: parse_rec fuel q2 | [] => [Lit a] end
    else Lit a :: parse_rec fuel q1
  | _, _ => []
  end.
Definition parse (q : list Z) : list tok := parse_rec (length q) q.

Inductive glob (nocase : bool) : list tok -> list Z -> Prop :=
| glob_end : glob nocase [] []
| glob_star0 ts s : glob nocase ts s -> glob nocase (Star :: ts) s
| glob_star1 ts c s : glob nocase (Star :: ts) s -> glob nocase (Star :: ts) (c :: s)
| glob_any ts c s : glob nocase ts s -> glob nocase (Any :: ts) (c :: s)
| glob_class neg its ts c s :
    xorb neg (existsb (item_match nocase c) its) = true -> glob nocase ts s -> glob nocase (Class neg its :: ts) (c :: s)
| glob_lit a ts c s : chr_eq nocase a c = true -> glob nocase ts s -> glob nocase (Lit a :: ts) (c :: s).

(** ** Parsing *)

Lemma parse_class_cons2 a b q2 :
  parse_class (a :: b :: q2) =
    if a =? 93 then ([], b :: q2)
    else if a =? 92 then (Esc b :: (parse_class q2).1, (parse_class q2).2)
    else match q2 with
      | b' :: q3 =>
        if b =? 45 then (Rng a b' :: (parse_class q3).1, (parse_class q3).2)
        else (Chr a :: (parse_class (b :: q2)).1, (parse_class (b :: q2)).2)
      | [] => (Chr a :: (parse_class (b :: q2)).1, (parse_class (b :: q2)).2)
      end.
Proof.
  change (parse_class (a :: b :: q2)) with
    (if a =? 93 then ([], b :: q2)
     else if a =? 92 then let '(its, r) := parse_class q2 in (Esc b :: its, r)
     else match q2 with
       | [] => let '(its, r) := parse_class (b :: q2) in (Chr a :: its, r)
       | b' :: q3 =>
         if b =? 45 then let '(its, r) := parse_class q3 in (Rng a b' :: its, r)
         else let '(its, r) := parse_class (b :: q2) in (Chr a :: its, r)
       end).
  destruct (a =? 93); [done|]. destruct (a =? 92); [by destruct (parse_class q2)|].
  destruct q2 as [|b' q3]; [by destruct (parse_class [b])|].
  destruct (b =? 45); [by destruct (parse_class q3)|by destruct (parse_class (b :: b' :: q3))].
Qed.

Lemma parse_class_length q : (length (parse_class q).2 <= length q)%nat.
Proof.
  induction q as [q IH] using (induction_ltof1 _ length). unfold ltof in IH.
  destruct q as [|a q1]; [done|]. simpl. destruct (a =? 93); [simpl; lia|].
  destruct q1 as [|b q2]; [simpl; lia|].
  pose proof (IH q2 ltac:(simpl; lia)) as H2. pose proof (IH (b :: q2) ltac:(simpl; lia)) as H1.
  destruct (a =? 92); [destruct (parse_class q2); simpl in *; lia|].
  destruct q2 as [|b' q3]; [destruct (parse_class [b]); simpl in *; lia|].
  pose proof (IH q3 ltac:(simpl; lia)) as H3.
  destruct (b =? 45); [destruct (parse_class q3); simpl in *; lia|].
  destruct (parse_class (b :: b' :: q3)); simpl in *; lia.
Qed.

Lemma parse_rec_enough f g q : (length q <= f)%nat -> (length q <= g)%nat -> parse_rec f q = parse_rec g q.
Proof.
  revert g q. induction f as [|f IH]; intros g q Hf Hg.
  { destruct q; [by destruct g|simpl in Hf; lia]. }
  destruct q as [|a q1]; [by destruct g|]. destruct g as [|g]; [simpl in Hg; lia|]. cbn [parse_rec].
  simpl in Hf, Hg. destruct (a =? 42); [f_equal; apply IH; lia|]. destruct (a =? 63); [f_equal; apply IH; lia|].
  destruct (a =? 91).
  - set (nq := match q1 with b :: q2 => if b =? 94 then (true, q2) else (false, q1) | [] => (false, []) end).
    assert (length nq.2 <= length q1)%nat by (unfold nq; destruct q1 as [|b ?]; [|destruct (b =? 94)]; simpl; lia).
    destruct nq as [neg q2]. pose proof (parse_class_length q2). destruct (parse_class q2) as [its r].
    simpl in *. f_equal. apply IH; lia.
  - destruct (a =? 92); [|f_equal; apply IH; lia]. destruct q1; [done|]. simpl in *. f_equal. apply IH; lia.
Qed.

(** One step of the parser. *)
Lemma parse_cons a q1 :
  parse (a :: q1) =
    if a =? 42 then Star :: parse q1
    else if a =? 63 then Any :: parse q1
    else if a =? 91 then
      let '(neg, q2) := match q1 with b :: q2 => if b =? 94 then (true, q2) else (false, q1) | [] => (false, []) end in
      let '(its, r) := parse_class q2 in Class neg its :: parse r
    else if a =? 92 then match q1 with b :: q2 => Lit b :: parse q2 | [] => [Lit a] end
    else Lit a :: parse q1.
Proof.
  unfold parse at 1. cbn [length parse_rec]. destruct (a =? 42); [done|]. destruct (a =? 63); [done|].
  destruct (a =? 91).
  - set (nq := match q1 with b :: q2 => if b =? 94 then (true, q2) else (false, q1) | [] => (false, []) end).
    assert (length nq.2 <= length q1)%nat by (unfold nq; destruct q1 as [|b ?]; [|destruct (b =? 94)]; simpl; lia).
    destruct nq as [neg q2]. pose proof (parse_class_length q2). destruct (parse_class q2) as [its r].
    simpl in *. f_equal. apply parse_rec_enough; lia.
  - destruct (a =? 92); [|done]. destruct q1; [done|]. f_equal. apply parse_rec_enough; simpl; lia.
Qed.

(** ** The class loop *)

Section Correct.
(** What follows the pattern in memory: a terminator, then anything. *)
Variable junk : list Z.
Variable nocase : bool.
Implicit Types pre q s : list Z.

Lemma cell_at pre l i n : n = Z.of_nat (length pre) + Z.of_nat i -> cell (pre ++ l) n = l !! i.
Proof.
  intros ->. unfold cell. destruct (Z.ltb_spec (Z.of_nat (length pre) + Z.of_nat i) 0); [lia|].
  rewrite lookup_app_r by lia. f_equal. lia.
Qed.

Lemma cell0 pre l : cell (pre ++ l) (Z.of_nat (length pre)) = l !! 0%nat.
Proof. apply cell_at. lia. Qed.
Lemma cell1 pre l : cell (pre ++ l) (Z.of_nat (length pre) + 1) = l !! 1%nat.
Proof. apply cell_at. lia. Qed.
Lemma cell2 pre l : cell (pre ++ l) (Z.of_nat (length pre) + 2) = l !! 2%nat.
Proof. apply cell_at. lia. Qed.

Lemma class_loop_spec fuel pre q c mt :
  (length q < fuel)%nat ->
  let '(its, r) := parse_class q in
  class_loop fuel (pre ++ q ++ 0 :: junk) nocase c (Z.of_nat (length pre)) (Z.of_nat (length q)) mt =
    Some (mt || existsb (item_match nocase c) its,
          Z.of_nat (length pre + length q) - Z.of_nat (length r) - 1, Z.of_nat (length r) + 1) /\
  exists q0, q = q0 ++ r.
Proof.
  revert fuel pre mt. induction q as [q IH] using (induction_ltof1 _ length). unfold ltof in IH.
  intros fuel pre mt Hf. destruct fuel as [|fuel]; [lia|]. cbn [class_loop].
  assert (forall t q' mt', q = t ++ q' -> t <> [] ->
    class_loop fuel (pre ++ q ++ 0 :: junk) nocase c
      (Z.of_nat (length pre) + Z.of_nat (length t)) (Z.of_nat (length q) - Z.of_nat (length t)) mt' =
      Some (mt' || existsb (item_match nocase c) (parse_class q').1,
            Z.of_nat (length pre + length q) - Z.of_nat (length (parse_class q').2) - 1,
            Z.of_nat (length (parse_class q').2) + 1) /\
    exists q0, q = q0 ++ (parse_class q').2) as Hstep.
  { intros t q' mt' Hq Ht. assert (length t <> 0)%nat by (by destruct t).
    assert (length q = length t + length q')%nat as Hl by (rewrite Hq; apply length_app).
    specialize (IH q' ltac:(lia) fuel (pre ++ t) mt' ltac:(lia)).
    destruct (parse_class q') as [its r]. destruct IH as [IH (q0 & Hq0)]. cbn [fst snd].
    rewrite length_app in IH. split; [|exists (t ++ q0); rewrite Hq, Hq0; by rewrite app_assoc].
    rewrite Hq at 1. rewrite <- !app_assoc in *. rewrite <- Nat2Z.inj_add.
    replace (Z.of_nat (length q) - Z.of_nat (length t)) with (Z.of_nat (length q')) by lia.
    rewrite IH. do 3 f_equal. lia. }
  rewrite cell0, cell1, cell2. destruct q as [|a q1].
  { cbn. rewrite orb_false_r. split; [|by exists []]. do 2 f_equal. f_equal. lia. }
  assert ((Z.of_nat (length (a :: q1)) =? 0) = false) as Hnz by (apply Z.eqb_neq; simpl; lia).
  destruct q1 as [|b q2].
  { specialize (Hstep [a] [] (mt || chr_eq nocase a c) eq_refl ltac:(done)). cbn in Hstep |- *.
    destruct (a =? 92); cbn; (destruct (a =? 93); [cbn; rewrite orb_false_r; split; [|by exists [a]]; do 3 f_equal; lia|]);
      cbn; rewrite orb_false_r in *; done. }
  cbn [app lookup list_lookup mbind option_bind]. rewrite Hnz, parse_class_cons2.
  assert ((Z.of_nat (length (a :: b :: q2)) >=? 2) = true) as -> by (apply Z.geb_le; simpl; lia).
  rewrite andb_true_r. destruct (Z.eqb_spec a 92) as [->|Ha].
  { specialize (Hstep [92; b] q2 (mt || (b =? c)) eq_refl ltac:(done)). change (92 =? 93) with false. cbv iota.
    destruct (parse_class q2) as [its r]. cbn [fst snd existsb item_match] in *. by rewrite orb_assoc. }
  destruct (a =? 93).
  { cbn [existsb]. rewrite orb_false_r. split; [|by exists [a]]. do 3 f_equal; simpl; lia. }
  pose proof (Hstep [a] (b :: q2) (mt || chr_eq nocase a c) eq_refl ltac:(done)) as H1.
  destruct q2 as [|b' q3].
  { rewrite andb_false_r. destruct (parse_class [b]) as [its r].
    cbn [fst snd existsb item_match] in *. by rewrite orb_assoc. }
  cbn [lookup list_lookup mbind option_bind].
  assert ((Z.of_nat (length (a :: b :: b' :: q3)) >=? 3) = true) as -> by (apply Z.geb_le; simpl; lia).
  rewrite andb_true_r. destruct (Z.eqb_spec b 45) as [->|Hb].
  - specialize (Hstep [a; 45; b'] q3 (mt || in_range nocase a b' c) eq_refl ltac:(done)).
    destruct (parse_class q3) as [its r]. cbn [fst snd existsb item_match] in *. by rewrite orb_assoc.
  - destruct (parse_class (b :: b' :: q3)) as [its r]. cbn [fst snd existsb item_match] in *. by rewrite orb_assoc.
Qed.

(** ** Stars *)

Lemma skip_stars_spec fuel pre k l off x m :
  (k < fuel)%nat -> x <> 42 ->
  skip_stars fuel (pre ++ replicate k 42 ++ x :: l) off (Z.of_nat (length pre) - off) m =
    Some (Z.of_nat (length pre + k) - off, m - Z.of_nat k).
Proof.
  revert fuel pre m. induction k as [|k IH]; intros fuel pre m Hf Hx; (destruct fuel as [|fuel]; [lia|]); cbn [skip_stars].
  - rewrite Z.sub_add, cell0. cbn. destruct (Z.eqb_spec x 42); [done|]. do 2 f_equal; lia.
  - rewrite Z.sub_add, cell0. cbn [replicate app lookup list_lookup mbind option_bind].
    change (42 =? 42) with true. cbv iota.
    specialize (IH fuel (pre ++ [42]) (m - 1) ltac:(lia) Hx). rewrite <- app_assoc, length_app in IH. cbn [app length] in IH.
    replace (Z.of_nat (length pre) - off + 1) with (Z.of_nat (length pre + 1) - off) by lia.
    rewrite IH. do 2 f_equal; lia.
Qed.

(** The stars a pattern starts with, and the rest. *)
Lemma split_stars q : exists k q', q = replicate k 42 ++ q' /\ (forall a r, q' = a :: r -> a <> 42).
Proof.
  induction q as [|a q (k & q' & -> & Hq')]; [by exists 0%nat, []|].
  destruct (Z.eq_dec a 42) as [->|Ha]; [by exists (S k), q'|].
  exists 0%nat, (a :: replicate k 42 ++ q'). split; [done|]. by intros ? ? [= <- _].
Qed.

Lemma parse_stars k q : parse (replicate k 42 ++ q) = replicate k Star ++ parse q.
Proof. induction k as [|k IH]; [done|]. cbn [replicate app]. rewrite parse_cons. simpl. by rewrite IH. Qed.

Lemma glob_stars k ts s :
  glob nocase (replicate k Star ++ ts) s <->
  match k with O => glob nocase ts s | S _ => exists pre' t, s = pre' ++ t /\ glob nocase ts t end.
Proof.
  assert (forall ts' s', glob nocase ts' s' -> forall ts1, ts' = Star :: ts1 ->
    exists pre' t, s' = pre' ++ t /\ glob nocase ts1 t) as Hinv.
  { induction 1 as [|? s1|? c ? ? IH'|?|?|?]; intros ts1 Heq; simplify_eq; [by exists [], s1|].
    destruct (IH' ts1 eq_refl) as (p' & t & -> & Ht). by exists (c :: p'), t. }
  assert (forall pre' t ts', glob nocase ts' t -> glob nocase (Star :: ts') (pre' ++ t)) as Hintro.
  { induction pre'; intros t ts' Ht; simpl; [by apply glob_star0|]. apply glob_star1. by apply IHpre'. }
  revert s. induction k as [|k IH]; intros s; [done|]. cbn [replicate app]. split.
  - intros Hg. destruct (Hinv _ _ Hg _ eq_refl) as (p1 & t & -> & Ht). rewrite IH in Ht.
    destruct k; [by exists p1, t|]. destruct Ht as (p2 & t' & -> & Ht'). exists (p1 ++ p2), t'. by rewrite app_assoc.
  - intros (p1 & t & -> & Ht). apply Hintro. apply IH. destruct k; [done|]. by exists [], t.
Qed.

Lemma glob_empty ts : glob nocase ts [] <-> Forall (eq Star) ts.
Proof.
  split.
  - remember [] as s eqn:Hs. induction 1; try done; constructor; auto.
  - induction 1 as [|t ts <- _ IH]; [constructor|by apply glob_star0].
Qed.

Lemma parse_not_star a r : a <> 42 -> exists t ts, parse (a :: r) = t :: ts /\ t <> Star.
Proof.
  intros Ha. rewrite parse_cons. destruct (Z.eqb_spec a 42); [done|].
  destruct (a =? 63); [by eexists _, _|]. destruct (a =? 91).
  - destruct (match r with b :: q2 => if b =? 94 then (true, q2) else (false, r) | [] => (false, []) end) as [neg q2].
    destruct (parse_class q2). by eexists _, _.
  - destruct (a =? 92); [|by eexists _, _]. destruct r; by eexists _, _.
Qed.

(** The test at the end of the string. *)
Lemma trailing_stars pre q :
  exists n, skip_stars (S (length (pre ++ q ++ 0 :: junk))) (pre ++ q ++ 0 :: junk) 0 (Z.of_nat (length pre)) (Z.of_nat (length q))
    = Some (n, Z.of_nat (length q) - (n - Z.of_nat (length pre))) /\
  (Z.of_nat (length q) - (n - Z.of_nat (length pre)) = 0 <-> glob nocase (parse q) []).
Proof.
  destruct (split_stars q) as (k & q' & -> & Hq').
  assert (exists x l, q' ++ 0 :: junk = x :: l /\ x <> 42) as (x & l & Hx & Hn).
  { destruct q' as [|a r]; [by exists 0, junk|]. exists a, (r ++ 0 :: junk). split; [done|by eapply Hq']. }
  rewrite <- !app_assoc, Hx. exists (Z.of_nat (length pre + k)).
  pose proof (skip_stars_spec (S (length (pre ++ replicate k 42 ++ x :: l))) pre k l 0 x
    (Z.of_nat (length (replicate k 42 ++ q')))) as Hs.
  rewrite !Z.sub_0_r in Hs. rewrite Hs; [|rewrite !length_app, length_replicate; lia|done].
  rewrite length_app, length_replicate. split; [do 2 f_equal; lia|].
  rewrite parse_stars, glob_empty, Forall_app. split.
  - intros Hl. assert (length q' = 0%nat) as H0 by lia. apply nil_length_inv in H0 as ->.
    split; [by apply Forall_replicate|constructor].
  - intros [_ Hf]. destruct q' as [|a r]; [simpl; lia|].
    destruct (parse_not_star a r (Hq' a r eq_refl)) as (t & ts & Hp & Ht). rewrite Hp in Hf.
    apply Forall_cons in Hf as [<- _]. done.
Qed.

(** ** The main loop *)

(** What a call returns: the loop never matches an empty string unless the
    pattern is empty too. *)
Definition match_spec (q s : list Z) : Prop :=
  match s with [] => q = [] | _ => glob nocase (parse q) s end.

Definition decides (o : option bool) (P : Prop) : Prop := exists b, o = Some b /\ (b = true <-> P).

Lemma star_loop_spec f (P : list Z -> Prop) s :
  (forall c t, decides (f (c :: t)) (P (c :: t))) ->
  decides (star_loop f s) (exists pre' c t, s = pre' ++ c :: t /\ P (c :: t)).
Proof.
  intros Hf. induction s as [|c s (b & Hb & IH)].
  - exists false. split; [done|]. split; [done|]. by intros ([] & ? & ? & ? & _).
  - cbn [star_loop]. destruct (Hf c s) as (b1 & Hb1 & H1). rewrite Hb1. cbn [mbind option_bind]. destruct b1.
    + exists true. split; [done|]. split; [|done]. intros _. exists [], c, s. split; [done|]. by apply H1.
    + rewrite Hb. exists b. split; [done|]. rewrite IH. split.
      * intros (p' & c' & t & -> & Ht). by exists (c :: p'), c', t.
      * intros (p' & c' & t & Heq & Ht). destruct p' as [|x p']; simplify_eq/=; [|by exists p', c', t].
        apply H1 in Ht. done.
Qed.

Lemma advance_spec fuel pre q s :
  (forall pre' c t, pre' ++ q = pre ++ q -> decides (match_loop fuel (pre' ++ q ++ 0 :: junk) nocase (Z.of_nat (length pre')) (Z.of_nat (length q)) (c :: t))
    (glob nocase (parse q) (c :: t))) ->
  decides (advance (pre ++ q ++ 0 :: junk) (match_loop fuel (pre ++ q ++ 0 :: junk) nocase)
    (Z.of_nat (length pre)) (Z.of_nat (length q)) s) (glob nocase (parse q) s).
Proof.
  intros Hl. destruct s as [|c t]; [|by apply Hl]. cbn [advance].
  destruct (trailing_stars pre q) as (n & -> & Hn). cbn [mbind option_bind].
  eexists. split; [done|]. by rewrite Z.eqb_eq.
Qed.

Lemma decides_guard (b : bool) o P Q :
  decides o P -> (b = true -> Q <-> P) -> (b = false -> ~ Q) -> decides (if b then o else Some false) Q.
Proof.
  intros (r & Ho & Hr) Ht Hf. destruct b; [exists r|exists false]; (split; [done|]).
  - by rewrite Ht.
  - split; [done|]. intros HQ. by destruct (Hf eq_refl).
Qed.

Lemma star_case fuel pre q1 c s :
  (forall pre' q' c' t, pre' ++ q' = pre ++ 42 :: q1 -> (length q' <= length q1)%nat ->
    decides (match_loop fuel (pre ++ 42 :: q1 ++ 0 :: junk) nocase (Z.of_nat (length pre')) (Z.of_nat (length q')) (c' :: t))
      (glob nocase (parse q') (c' :: t))) ->
  decides
    ('(pp, plen) ← skip_stars (S (length (pre ++ 42 :: q1 ++ 0 :: junk))) (pre ++ 42 :: q1 ++ 0 :: junk) 1
        (Z.of_nat (length pre)) (Z.of_nat (length (42 :: q1)));
     if plen =? 1 then Some true
     else star_loop (match_loop fuel (pre ++ 42 :: q1 ++ 0 :: junk) nocase (pp + 1) (plen - 1)) (c :: s))
    (glob nocase (Star :: parse q1) (c :: s)).
Proof.
  intros Hloop. destruct (split_stars q1) as (k & q' & -> & Hq').
  assert (exists x l, q' ++ 0 :: junk = x :: l /\ x <> 42) as (x & l & Hx & Hn).
  { destruct q' as [|a r]; [by exists 0, junk|]. exists a, (r ++ 0 :: junk). split; [done|by eapply Hq']. }
  remember (pre ++ 42 :: (replicate k 42 ++ q') ++ 0 :: junk) as mem eqn:Hmem.
  assert (skip_stars (S (length mem)) mem 1 (Z.of_nat (length pre)) (Z.of_nat (length (42 :: replicate k 42 ++ q'))) =
    Some (Z.of_nat (length pre + k), Z.of_nat (length q') + 1)) as ->.
  { replace mem with ((pre ++ [42]) ++ replicate k 42 ++ x :: l) by (rewrite Hmem, <- Hx, <- !app_assoc; done).
    replace (Z.of_nat (length pre)) with (Z.of_nat (length (pre ++ [42])) - 1) by (rewrite length_app; simpl; lia).
    rewrite skip_stars_spec; [|rewrite !length_app, length_replicate; simpl; lia|done].
    cbn [length]. rewrite !length_app, length_replicate. cbn [length]. do 2 f_equal; lia. }
  cbn [mbind option_bind].
  rewrite parse_stars. change (Star :: replicate k Star ++ parse q') with (replicate (S k) Star ++ parse q').
  destruct (Z.eqb_spec (Z.of_nat (length q') + 1) 1) as [H1|H1].
  - assert (length q' = 0%nat) as H0 by lia. apply nil_length_inv in H0 as ->.
    exists true. split; [done|]. split; [|done]. intros _. apply glob_stars. exists (c :: s), [].
    rewrite app_nil_r. split; [done|constructor].
  - destruct q' as [|a r]; [simpl in H1; lia|].
    destruct (star_loop_spec (match_loop fuel mem nocase
      (Z.of_nat (length pre + k) + 1) (Z.of_nat (length (a :: r)) + 1 - 1))
      (fun t => glob nocase (parse (a :: r)) t) (c :: s)) as (b & Hb & Hiff).
    { intros c' t. specialize (Hloop (pre ++ 42 :: replicate k 42) (a :: r) c' t).
      replace (Z.of_nat (length pre + k) + 1) with (Z.of_nat (length (pre ++ 42 :: replicate k 42)))
        by (rewrite length_app; cbn [length]; rewrite length_replicate; lia).
      rewrite Z.add_simpl_r. apply Hloop; [by rewrite <- app_assoc|rewrite length_app; simpl; lia]. }
    exists b. split; [done|]. rewrite Hiff, glob_stars. split.
    + intros (p' & c' & t & Heq & Ht). by exists p', (c' :: t).
    + intros (p' & t & Heq & Ht). destruct t as [|c' t]; [|by exists p', c', t].
      apply glob_empty in Ht. destruct (parse_not_star a r (Hq' a r eq_refl)) as (tk & ts & Hp & Htk).
      rewrite Hp in Ht. apply Forall_cons in Ht as [<- _]. done.
Qed.

Lemma class_case mem next pre q c s neg pp plen :
  mem = pre ++ q ++ 0 :: junk -> pp = Z.of_nat (length pre) -> plen = Z.of_nat (length q) ->
  (forall q0 r, q = q0 ++ r ->
    decides (next (Z.of_nat (length (pre ++ q0))) (Z.of_nat (length r)) s) (glob nocase (parse r) s)) ->
  decides
    ('(mt, pp, plen) ← class_loop (S (length mem)) mem nocase c pp plen false;
     if xorb neg mt then next (pp + 1) (plen - 1) s else Some false)
    (glob nocase (let '(its, r) := parse_class q in Class neg its :: parse r) (c :: s)).
Proof.
  intros -> -> -> Hnext.
  pose proof (class_loop_spec (S (length (pre ++ q ++ 0 :: junk))) pre q c false) as Hc.
  destruct (parse_class q) as [its r]. destruct Hc as [-> (q0 & ->)]; [rewrite !length_app; lia|].
  cbn [mbind option_bind orb]. eapply decides_guard.
  - replace (_ - _ - 1 + 1) with (Z.of_nat (length (pre ++ q0))) by (rewrite !length_app; lia).
    rewrite Z.add_simpl_r. by apply Hnext.
  - intros Hb. split; [intros Hg; by inversion Hg|by apply glob_class].
  - intros Hb Hg. inversion Hg. congruence.
Qed.

Lemma lit_case (next : option bool) a q c s :
  decides next (glob nocase (parse q) s) ->
  decides (if chr_eq nocase a c then next else Some false) (glob nocase (Lit a :: parse q) (c :: s)).
Proof.
  intros Hn. eapply decides_guard; [exact Hn|..].
  - intros Hb. split; [intros Hg; by inversion Hg|by apply glob_lit].
  - intros Hb Hg. inversion Hg. congruence.
Qed.

Lemma match_loop_spec fuel pre q s :
  (length q < fuel)%nat ->
  decides (match_loop fuel (pre ++ q ++ 0 :: junk) nocase (Z.of_nat (length pre)) (Z.of_nat (length q)) s)
    (match_spec q s).
Proof.
  revert pre q s. induction fuel as [|fuel IH]; intros pre q s Hf; [lia|]. cbn [match_loop].
  destruct s as [|c s].
  { eexists. split; [done|]. rewrite Z.eqb_eq. cbn [match_spec]. destruct q; simpl; split; (done || lia). }
  destruct q as [|a q1].
  { exists false. split; [done|]. split; [done|]. intros Hg. inversion Hg. }
  assert ((Z.of_nat (length (a :: q1)) =? 0) = false) as -> by (apply Z.eqb_neq; simpl; lia).
  (* the rest of the loop on a suffix of the pattern *)
  assert (forall t q' s' pp pl, a :: q1 = t ++ q' -> t <> [] ->
    pp = Z.of_nat (length pre) + Z.of_nat (length t) -> pl = Z.of_nat (length q') ->
    decides (advance (pre ++ (a :: q1) ++ 0 :: junk) (match_loop fuel (pre ++ (a :: q1) ++ 0 :: junk) nocase) pp pl s')
      (glob nocase (parse q') s')) as Hnext.
  { intros t q' s' pp pl Heq Ht -> ->. assert (length t <> 0)%nat by (by destruct t).
    assert (S (length q1) = length t + length q')%nat as Hl by (rewrite <- length_app, <- Heq; done).
    rewrite Heq, <- app_assoc, (app_assoc pre t), <- Nat2Z.inj_add, <- length_app. apply advance_spec.
    intros pre' c' t' Hp. apply (IH pre' q' (c' :: t')). simpl in Hf. lia. }
  cbn [match_spec]. rewrite cell0, cell1. cbn [app lookup list_lookup mbind option_bind]. rewrite parse_cons.
  destruct (Z.eqb_spec a 42) as [->|Ha42].
  { apply star_case. intros pre' q' c' t Hp Hl. specialize (IH pre' q' (c' :: t)).
    rewrite (app_assoc pre'), Hp, <- app_assoc in IH. apply IH. simpl in Hf. lia. }
  destruct (a =? 63).
  { destruct (Hnext [a] q1 s (Z.of_nat (length pre) + 1) (Z.of_nat (length (a :: q1)) - 1)) as (b & Hb & Hiff);
      [done|done|done|simpl; lia|]. exists b. split; [done|]. rewrite Hiff. split; [by apply glob_any|].
    intros Hg. by inversion Hg. }
  rewrite (app_comm_cons q1 _ a).
  destruct (a =? 91).
  - destruct q1 as [|b q2]; cbn [lookup list_lookup app mbind option_bind].
    + apply (class_case _ _ (pre ++ [a]) [] c s false); [by rewrite <- app_assoc|rewrite length_app; simpl; lia|done|].
      intros q0 r Hq. apply (Hnext (a :: q0)); [simpl; by f_equal|done|rewrite !length_app; simpl; lia|done].
    + destruct (b =? 94).
      * apply (class_case _ _ (pre ++ [a; b]) q2 c s true);
          [by rewrite <- app_assoc|rewrite length_app; simpl; lia|simpl; lia|].
        intros q0 r ->. apply (Hnext (a :: b :: q0)); [done|done|rewrite !length_app; simpl; lia|done].
      * apply (class_case _ _ (pre ++ [a]) (b :: q2) c s false);
          [by rewrite <- app_assoc|rewrite length_app; simpl; lia|simpl; lia|].
        intros q0 r Hq. apply (Hnext (a :: q0)); [simpl; by f_equal|done|rewrite !length_app; simpl; lia|done].
  - destruct (a =? 92); cbn [andb]; [destruct q1 as [|b q2]|].
    + change (Z.of_nat (length [a]) >=? 2) with false. cbv iota beta.
      rewrite cell0. cbn [app lookup list_lookup mbind option_bind]. apply (lit_case _ a []).
      apply (Hnext [a] []); [done|done|done|done].
    + assert ((Z.of_nat (length (a :: b :: q2)) >=? 2) = true) as -> by (apply Z.geb_le; simpl; lia).
      cbv iota beta. rewrite cell1. cbn [app lookup list_lookup mbind option_bind]. apply lit_case.
      apply (Hnext [a; b] q2); [done|done|simpl; lia|simpl; lia].
    + rewrite cell0. cbn [app lookup list_lookup mbind option_bind]. apply lit_case.
      apply (Hnext [a] q1); [done|done|done|simpl; lia].
Qed.
End Correct.

(** C40: stringmatchlen, on any pattern followed by a terminator and any string,
    stays within the pattern and its terminator, ends, and agrees with the
    meaning of the pattern: stars, question marks, classes with ranges, escapes
    and negation, and literals, with or without case.  Only an empty string is
    treated differently: it is matched by the empty pattern alone, not by
    patterns of stars. *)
Theorem stringmatchlen_correct p junk s nocase :
  exists b, stringmatchlen (p ++ 0 :: junk) (Z.of_nat (length p)) s nocase = Some b /\
    (b = true <-> match s with [] => p = [] | _ => glob nocase (parse p) s end).
Proof.
  unfold stringmatchlen. rewrite Nat2Z.id.
  exact (match_loop_spec junk nocase (S (length p)) [] p s (Nat.lt_succ_diag_r _)).
Qed.

(** The pattern h[^x-z]*\? on "he?" and "hy?"; a star against the empty string. *)
Example glob_examples :
  stringmatch [104; 91; 94; 120; 45; 122; 93; 42; 92; 63] [104; 101; 63] false = Some true /\
  stringmatch [104; 91; 94; 120; 45; 122; 93; 42; 92; 63] [104; 121; 63] false = Some false /\
  stringmatch [97; 42] [97] false = Some true /\ stringmatch [42] [] false = Some false.
Proof. repeat split. Qed.
