(* ===== verification/Adlist.v ===== *)
(** * Doubly linked lists (src/redis-stable/src/adlist.c, adlist.h)

    Nodes live in a heap and point at each other in both directions; the
    operations relink them.  [dlist m l ns] says that the list header [l]
    represents, in the memory [m], the sequence [ns] of nodes with their
    values.  The operations are shown to implement the corresponding operations
    on sequences, without touching other nodes. *)
From stdpp Require Import prelude list gmap.
From Stdlib Require Import ZArith Lia.
From S2P Require Import Prelude.

Local Open Scope Z_scope.
Local Open Scope redis_scope.

Definition addr := positive.

Inductive direction := AL_START_HEAD | AL_START_TAIL.

(** A pointer used as a condition. *)
Definition non_null {A} (p : option A) : bool := match p with Some _ => true | None => false end.

Section Model.
Context {V : Type} `{EqDecision V}.

(** struct listNode, struct list and struct listIter; NULL is [None]. *)
Record listNode := mk_node { prev : option addr; next : option addr; value : V }.
Record dlist_header := mk_list {
  head : option addr; tail : option addr;
  dup : option (V -> option V); free : bool; match_ : option (V -> V -> bool);
  len : Z }.
Record listIter := mk_iter { it_next : option addr; it_direction : direction }.

(** The nodes allocated, and the values passed to the free method so far. *)
Record mem := mk_mem { nodes : gmap addr listNode; released : list V }.

(** *** Computations that read and write nodes; no result on a NULL or
    dangling access *)
Definition M (A : Type) : Type := mem -> option (A * mem).
#[global] Instance M_ret : MRet M := fun A x m => Some (x, m).
#[global] Instance M_bind : MBind M := fun A B f x m => '(a, m) ← x m; f a m.

Definition load (p : option addr) : M listNode := fun m =>
  p ← p; n ← nodes m !! p; Some (n, m).
Definition store (p : option addr) (n : listNode) : M unit := fun m =>
  p ← p; _ ← nodes m !! p; Some (tt, mk_mem (<[p := n]> (nodes m)) (released m)).
Definition set_prev (p q : option addr) : M unit :=
  n ← load p; store p (mk_node q (next n) (value n)).
Definition set_next (p q : option addr) : M unit :=
  n ← load p; store p (mk_node (prev n) q (value n)).

(** zmalloc(): the address of the new node is chosen by the allocator, which
    never fails (it aborts the server instead). *)
Variable zmalloc : gmap addr listNode -> addr.

Definition new_node (n : listNode) : M addr := fun m =>
  let p := zmalloc (nodes m) in Some (p, mk_mem (<[p := n]> (nodes m)) (released m)).
Definition zfree (p : option addr) : M unit := fun m =>
  p ← p; _ ← nodes m !! p; Some (tt, mk_mem (delete p (nodes m)) (released m)).
(** if (list->free) list->free(value); *)
Definition free_value (l : dlist_header) (v : V) : M unit := fun m =>
  Some (tt, if free l then mk_mem (nodes m) (released m ++ [v]) else m).

Definition with_ends (l : dlist_header) (h t : option addr) (n : Z) : dlist_header :=
  mk_list h t (dup l) (free l) (match_ l) n.

(** *** Operations *)

Definition listCreate : dlist_header := mk_list None None None false None 0.
Definition listLength (l : dlist_header) : Z := len l.

(** while(len--) { ... } *)
Fixpoint empty_loop (l : dlist_header) (n : nat) (current : option addr) : M unit :=
  match n with
  | O => mret tt
  | S n =>
    c ← load current;
    _ ← free_value l (value c);
    _ ← zfree current;
    empty_loop l n (next c)
  end.

Definition listEmpty (l : dlist_header) : M dlist_header :=
  _ ← empty_loop l (Z.to_nat (len l)) (head l);
  mret (with_ends l None None 0).

Definition listRelease (l : dlist_header) : M unit := _ ← listEmpty l; mret tt.

Definition listAddNodeHead (l : dlist_header) (v : V) : M dlist_header :=
  if len l =? 0 then
    node ← new_node (mk_node None None v);
    mret (with_ends l (Some node) (Some node) (u64 (len l + 1)))
  else
    node ← new_node (mk_node None (head l) v);
    _ ← set_prev (head l) (Some node);
    mret (with_ends l (Some node) (tail l) (u64 (len l + 1))).

Definition listAddNodeTail (l : dlist_header) (v : V) : M dlist_header :=
  if len l =? 0 then
    node ← new_node (mk_node None None v);
    mret (with_ends l (Some node) (Some node) (u64 (len l + 1)))
  else
    node ← new_node (mk_node (tail l) None v);
    _ ← set_next (tail l) (Some node);
    mret (with_ends l (head l) (Some node) (u64 (len l + 1))).

Definition listInsertNode (l : dlist_header) (old_node : addr) (v : V) (after : bool) : M dlist_header :=
  o ← load (Some old_node);
  let '(pv, nx) := if after then (Some old_node, next o) else (prev o, Some old_node) in
  node ← new_node (mk_node pv nx v);
  let hd := if negb after && bool_decide (head l = Some old_node) then Some node else head l in
  let tl := if after && bool_decide (tail l = Some old_node) then Some node else tail l in
  _ ← (if non_null pv then set_next pv (Some node) else mret tt);
  _ ← (if non_null nx then set_prev nx (Some node) else mret tt);
  mret (with_ends l hd tl (u64 (len l + 1))).

Definition listDelNode (l : dlist_header) (node : addr) : M dlist_header :=
  n ← load (Some node);
  _ ← (if non_null (prev n) then set_next (prev n) (next n) else mret tt);
  let hd := if non_null (prev n) then head l else next n in
  _ ← (if non_null (next n) then set_prev (next n) (prev n) else mret tt);
  let tl := if non_null (next n) then tail l else prev n in
  _ ← free_value l (value n);
  _ ← zfree (Some node);
  mret (with_ends l hd tl (u64 (len l - 1))).

Definition listGetIterator (l : dlist_header) (d : direction) : listIter :=
  match d with AL_START_HEAD => mk_iter (head l) d | AL_START_TAIL => mk_iter (tail l) d end.
Definition listRewind (l : dlist_header) : listIter := mk_iter (head l) AL_START_HEAD.
Definition listRewindTail (l : dlist_header) : listIter := mk_iter (tail l) AL_START_TAIL.

Definition listNext (iter : listIter) : M (option addr * listIter) :=
  match it_next iter with
  | None => mret (None, iter)
  | Some current =>
    c ← load (Some current);
    mret (Some current,
      mk_iter (match it_direction iter with AL_START_HEAD => next c | AL_START_TAIL => prev c end) (it_direction iter))
  end.

(** The loop of listDup; [None] is the NULL of an exhausted dup method. *)
Fixpoint dup_loop (fuel : nat) (copy : dlist_header) (iter : listIter) : M (option dlist_header) :=
  match fuel with
  | O => fun _ => None
  | S fuel =>
    '(node, iter) ← listNext iter;
    match node with
    | None => mret (Some copy)
    | Some node =>
      n ← load (Some node);
      match (match dup copy with Some f => f (value n) | None => Some (value n) end) with
      | None => _ ← listRelease copy; mret None
      | Some v => copy ← listAddNodeTail copy v; dup_loop fuel copy iter
      end
    end
  end.

Definition listDup (orig : dlist_header) : M (option dlist_header) :=
  dup_loop (S (Z.to_nat (len orig))) (mk_list None None (dup orig) (free orig) (match_ orig) 0) (listRewind orig).

Fixpoint search_loop (fuel : nat) (l : dlist_header) (key : V) (iter : listIter) : M (option addr) :=
  match fuel with
  | O => fun _ => None
  | S fuel =>
    '(node, iter) ← listNext iter;
    match node with
    | None => mret None
    | Some node =>
      n ← load (Some node);
      if match match_ l with Some f => f (value n) key | None => bool_decide (key = value n) end
      then mret (Some node) else search_loop fuel l key iter
    end
  end.

Definition listSearchKey (l : dlist_header) (key : V) : M (option addr) :=
  search_loop (S (Z.to_nat (len l))) l key (listRewind l).

(** while(index-- && n) n = n->next; and the same with prev. *)
Fixpoint walk (dir : listNode -> option addr) (index : nat) (n : option addr) : M (option addr) :=
  match index, n with
  | S index, Some p => c ← load (Some p); walk dir index (dir c)
  | _, _ => mret n
  end.

Definition listIndex (l : dlist_header) (index : Z) : M (option addr) :=
  if index <? 0 then walk prev (Z.to_nat (- index - 1)) (tail l)
  else walk next (Z.to_nat index) (head l).

Definition listRotate (l : dlist_header) : M dlist_header :=
  if listLength l <=? 1 then mret l
  else
    let tl := tail l in
    t ← load tl;
    let ntail := prev t in
    _ ← set_next ntail None;
    _ ← set_prev (head l) tl;
    _ ← set_prev tl None;
    _ ← set_next tl (head l);
    mret (with_ends l tl ntail (len l)).

(** The two headers afterwards. *)
Definition listJoin (l o : dlist_header) : M (dlist_header * dlist_header) :=
  _ ← (if non_null (head o) then set_prev (head o) (tail l) else mret tt);
  _ ← (if non_null (tail l) then set_next (tail l) (head o) else mret tt);
  let hd := if non_null (tail l) then head l else head o in
  let tl := if non_null (tail o) then tail o else tail l in
  mret (with_ends l hd tl (u64 (len l + len o)), with_ends o None None 0).
End Model.

Arguments listNode : clear implicits.
Arguments dlist_header : clear implicits.
Arguments mem : clear implicits.
Arguments M _ _ : clear implicits.

(** ** Representation *)

Section Refinement.
Context {V : Type} `{EqDecision V}.
Variable zmalloc : gmap addr (listNode V) -> addr.
(** The allocator returns memory that is not in use. *)
Hypothesis zmalloc_fresh : forall h, h !! zmalloc h = None.
Implicit Types (ns a b : list (addr * V)) (h : gmap addr (listNode V)) (l : dlist_header V) (m : mem V).

(** The first address of a sequence followed by [nx], the last one after [pv]. *)
Definition first_addr ns (nx : option addr) : option addr := match ns with [] => nx | (p, _) :: _ => Some p end.
Definition last_addr (pv : option addr) ns : option addr := match last ns with Some (p, _) => Some p | None => pv end.

Fixpoint dseg h (pv : option addr) ns (nx : option addr) : Prop :=
  match ns with
  | [] => True
  | (p, v) :: ns => h !! p = Some (mk_node pv (first_addr ns nx) v) /\ dseg h (Some p) ns nx
  end.

Record dlist (m : mem V) l ns : Prop := {
  dl_head : head l = first_addr ns None;
  dl_tail : tail l = last_addr None ns;
  dl_len : len l = Z.of_nat (length ns);
  dl_nodup : NoDup ns.*1;
  dl_seg : dseg (nodes m) None ns None }.

(** The nodes outside of [ns] are as before. *)
Definition frame m m' ns : Prop :=
  forall p, p ∉ ns.*1 -> nodes m' !! p = nodes m !! p.

Lemma frame_refl m ns : frame m m ns.
Proof. by intros r Hr. Qed.

(** The methods of the list are as before. *)
Definition same_methods l l' : Prop := dup l' = dup l /\ free l' = free l /\ match_ l' = match_ l.

Lemma last_addr_cons pv p v ns : last_addr pv ((p, v) :: ns) = last_addr (Some p) ns.
Proof. unfold last_addr. rewrite last_cons. by destruct (last ns). Qed.

Lemma last_addr_snoc pv ns p v : last_addr pv (ns ++ [(p, v)]) = Some p.
Proof. unfold last_addr. by rewrite last_snoc. Qed.

Lemma first_addr_app a b nx : first_addr (a ++ b) nx = first_addr a (first_addr b nx).
Proof. by destruct a as [|[] ?]. Qed.

Lemma last_addr_app pv a b : last_addr pv (a ++ b) = last_addr (last_addr pv a) b.
Proof. unfold last_addr. rewrite last_app. by destruct (last b). Qed.

Lemma dseg_app h pv a b nx :
  dseg h pv (a ++ b) nx <-> dseg h pv a (first_addr b nx) /\ dseg h (last_addr pv a) b nx.
Proof.
  revert pv. induction a as [|[p v] a IH]; intros pv; cbn [app dseg].
  - unfold last_addr. simpl. tauto.
  - rewrite IH, last_addr_cons, first_addr_app. tauto.
Qed.

Lemma dseg_insert h pv ns nx p n : p ∉ ns.*1 -> dseg (<[p := n]> h) pv ns nx <-> dseg h pv ns nx.
Proof.
  revert pv. induction ns as [|[q v] ns IH]; intros pv Hp; [done|]. cbn [dseg]. cbn in Hp.
  apply not_elem_of_cons in Hp as [Hq Hp]. by rewrite lookup_insert_ne, IH.
Qed.

Lemma dseg_delete h pv ns nx p : p ∉ ns.*1 -> dseg (delete p h) pv ns nx <-> dseg h pv ns nx.
Proof.
  revert pv. induction ns as [|[q v] ns IH]; intros pv Hp; [done|]. cbn [dseg]. cbn in Hp.
  apply not_elem_of_cons in Hp as [Hq Hp]. by rewrite lookup_delete_ne, IH.
Qed.

Lemma dseg_dom h pv ns nx p : dseg h pv ns nx -> p ∈ ns.*1 -> is_Some (h !! p).
Proof.
  revert pv. induction ns as [|[q v] ns IH]; intros pv; cbn; [by intros _ ?%elem_of_nil|].
  intros [Hq Hs] [->|Hp]%elem_of_cons; [by eexists|by eapply IH].
Qed.

Lemma dseg_fresh h pv ns nx : dseg h pv ns nx -> zmalloc h ∉ ns.*1.
Proof. intros Hs Hp. destruct (dseg_dom _ _ _ _ _ Hs Hp) as [n Hn]. by rewrite zmalloc_fresh in Hn. Qed.

(** Changing the outgoing links at the two ends. *)
Lemma dseg_set_prev h pv pv' p v ns nx :
  p ∉ ns.*1 -> dseg h pv ((p, v) :: ns) nx -> dseg (<[p := mk_node pv' (first_addr ns nx) v]> h) pv' ((p, v) :: ns) nx.
Proof. intros Hp [Hn Hs]. cbn [dseg]. by rewrite lookup_insert_eq, dseg_insert. Qed.

Lemma dseg_set_next h pv p v ns nx nx' :
  p ∉ ns.*1 -> dseg h pv (ns ++ [(p, v)]) nx ->
  dseg (<[p := mk_node (last_addr pv ns) nx' v]> h) pv (ns ++ [(p, v)]) nx'.
Proof.
  intros Hp. rewrite !dseg_app. intros [Hs [Hn _]]. split; [by rewrite dseg_insert|].
  cbn [dseg]. by rewrite lookup_insert_eq.
Qed.

(** *** Steps of the node operations *)

Lemma bind_ok {A B} (x : M V A) (f : A -> M V B) m r m' : x m = Some (r, m') -> (x ≫= f) m = f r m'.
Proof. intros Hx. unfold mbind, M_bind. by rewrite Hx. Qed.

Lemma bind_inv {A B} (x : M V A) (f : A -> M V B) m r :
  (x ≫= f) m = Some r -> exists y m', x m = Some (y, m') /\ f y m' = Some r.
Proof. unfold mbind, M_bind. destruct (x m) as [[y m']|]; [|done]. intros Hf. by exists y, m'. Qed.

Lemma load_ok m p n : nodes m !! p = Some n -> load (Some p) m = Some (n, m).
Proof. intros Hn. unfold load. simpl. by rewrite Hn. Qed.

Lemma set_next_ok m p n q : nodes m !! p = Some n ->
  set_next (Some p) q m = Some (tt, mk_mem (<[p := mk_node (prev n) q (value n)]> (nodes m)) (released m)).
Proof. intros Hn. unfold set_next. rewrite (bind_ok _ _ _ _ _ (load_ok _ _ _ Hn)). unfold store. simpl. by rewrite Hn. Qed.

Lemma set_prev_ok m p n q : nodes m !! p = Some n ->
  set_prev (Some p) q m = Some (tt, mk_mem (<[p := mk_node q (next n) (value n)]> (nodes m)) (released m)).
Proof. intros Hn. unfold set_prev. rewrite (bind_ok _ _ _ _ _ (load_ok _ _ _ Hn)). unfold store. simpl. by rewrite Hn. Qed.

Lemma dseg_frame h h' pv ns nx :
  (forall r, r ∈ ns.*1 -> h' !! r = h !! r) -> dseg h pv ns nx -> dseg h' pv ns nx.
Proof.
  revert pv. induction ns as [|[p v] ns IH]; intros pv Hr; [done|]. cbn [dseg]. intros [Hp Hs]. split.
  - rewrite Hr; [done|]. cbn. by left.
  - apply IH; [|done]. intros r Hin. apply Hr. cbn. by right.
Qed.

(** Redirecting the end of a segment: [set_next] on its last node, or nothing
    when it is empty; and the same at its front. *)
Lemma relink_last m pv a nx q :
  dseg (nodes m) pv a nx -> NoDup a.*1 ->
  exists h', (if non_null (last_addr None a) then set_next (last_addr None a) q else mret tt) m =
      Some (tt, mk_mem h' (released m)) /\
    dseg h' pv a q /\ (forall r, r ∉ a.*1 -> h' !! r = nodes m !! r).
Proof.
  intros Hs Hnd. destruct a as [|[p v] a _] using rev_ind.
  { exists (nodes m). by destruct m. }
  rewrite last_addr_snoc. cbn [non_null]. pose proof Hs as Hs'. apply dseg_app in Hs' as [_ [Hn _]].
  rewrite (set_next_ok _ _ _ _ Hn). eexists. split; [done|].
  rewrite fmap_app in Hnd |- *. apply NoDup_app in Hnd as (_ & Hd & _). split.
  - cbn [prev value]. eapply dseg_set_next; [|done]. intros Hin. apply (Hd p Hin). cbn. by left.
  - intros r Hr. apply lookup_insert_ne. intros ->. apply Hr. apply elem_of_app. right. cbn. by left.
Qed.

Lemma relink_first m pv b nx q :
  dseg (nodes m) pv b nx -> NoDup b.*1 ->
  exists h', (if non_null (first_addr b None) then set_prev (first_addr b None) q else mret tt) m =
      Some (tt, mk_mem h' (released m)) /\
    dseg h' q b nx /\ (forall r, r ∉ b.*1 -> h' !! r = nodes m !! r).
Proof.
  intros Hs Hnd. destruct b as [|[p v] b].
  { exists (nodes m). by destruct m. }
  cbn [first_addr non_null]. destruct Hs as [Hn Hs]. rewrite (set_prev_ok _ _ _ _ Hn). eexists. split; [done|].
  cbn in Hnd. apply NoDup_cons in Hnd as [Hp Hnd]. split.
  - cbn [next value]. eapply dseg_set_prev; done.
  - intros r Hr. cbn in Hr. apply not_elem_of_cons in Hr as [Hr _]. by apply lookup_insert_ne.
Qed.

(** A new node between two segments. *)
Lemma insert_between m a b v :
  dseg (nodes m) None (a ++ b) None -> NoDup (a ++ b).*1 ->
  let p := zmalloc (nodes m) in
  (p ∉ (a ++ b).*1) /\
  exists m', (_ ← new_node zmalloc (mk_node (last_addr None a) (first_addr b None) v);
         _ ← (if non_null (last_addr None a) then set_next (last_addr None a) (Some p) else mret tt);
         (if non_null (first_addr b None) then set_prev (first_addr b None) (Some p) else mret tt)) m = Some (tt, m') /\
    released m' = released m /\ dseg (nodes m') None (a ++ (p, v) :: b) None /\ frame m m' (a ++ (p, v) :: b).
Proof.
  intros Hs Hnd p. pose proof (dseg_fresh _ _ _ _ Hs) as Hp. fold p in Hp. split; [done|].
  pose proof Hp as Hp'. rewrite fmap_app in Hp', Hnd. apply not_elem_of_app in Hp' as [Hpa Hpb].
  apply NoDup_app in Hnd as (Hna & Hd & Hnb). apply dseg_app in Hs as [Hsa Hsb].
  set (n := mk_node (last_addr None a) (first_addr b None) v).
  set (m1 := mk_mem (<[p := n]> (nodes m)) (released m)).
  destruct (relink_last m1 None a (first_addr b None) (Some p)) as (h2 & H2 & Hs2 & Hf2);
    [by apply dseg_insert|done|].
  destruct (relink_first (mk_mem h2 (released m)) (last_addr None a) b None (Some p)) as (h3 & H3 & Hs3 & Hf3); [|done|].
  { eapply dseg_frame; [|apply (dseg_insert (nodes m) (last_addr None a) b None p n Hpb); exact Hsb]. intros r Hr. apply Hf2. intros Hra. by apply (Hd r). }
  exists (mk_mem h3 (released m)). split_and!; [|done| |].
  - rewrite (bind_ok _ _ m p m1) by done. rewrite (bind_ok _ _ _ _ _ H2). exact H3.
  - cbn [nodes] in *. apply dseg_app. split; [|cbn [dseg]; split].
    + cbn [first_addr]. eapply dseg_frame; [|exact Hs2]. intros r Hr. apply Hf3. intros Hrb. by apply (Hd r).
    + rewrite Hf3 by done. rewrite Hf2 by done. apply lookup_insert_eq.
    + exact Hs3.
  - intros r Hr. rewrite fmap_app in Hr. apply not_elem_of_app in Hr as [Hra Hrb]. cbn in Hrb.
    apply not_elem_of_cons in Hrb as [Hrp Hrb]. cbn [nodes] in *. rewrite Hf3, Hf2 by done. by apply lookup_insert_ne.
Qed.

(** *** Insertion *)

(** The result of inserting: the new header and memory represent [ns']. *)
Definition yields (op : M V (dlist_header V)) m l ns' : Prop :=
  exists l' m', op m = Some (l', m') /\ dlist m' l' ns' /\ same_methods l l' /\ released m' = released m /\ frame m m' ns'.

Lemma dlist_len_zero m l ns : dlist m l ns -> (len l =? 0) = bool_decide (ns = []).
Proof.
  intros [_ _ Hl _ _]. rewrite Hl. case_bool_decide as Hn; [by subst|].
  apply Z.eqb_neq. destruct ns; [done|]. simpl. lia.
Qed.

Lemma dlist_ends m l a b p v n :
  NoDup (a ++ b).*1 -> p ∉ (a ++ b).*1 -> dseg (nodes m) None (a ++ (p, v) :: b) None ->
  n = Z.of_nat (length (a ++ b)) + 1 ->
  dlist m (with_ends l (first_addr (a ++ (p, v) :: b) None) (last_addr None (a ++ (p, v) :: b)) n) (a ++ (p, v) :: b).
Proof.
  intros Hnd Hp Hs ->. split; cbn; [done|done| | |done].
  - rewrite !length_app. simpl. lia.
  - rewrite fmap_app in *. cbn. rewrite <- Permutation_middle. by constructor.
Qed.

Lemma new_node_ok m n :
  new_node zmalloc n m = Some (zmalloc (nodes m), mk_mem (<[zmalloc (nodes m) := n]> (nodes m)) (released m)).
Proof. done. Qed.

Lemma yields_between m l a b v (op : M V (dlist_header V)) hd tl :
  dlist m l (a ++ b) -> Z.of_nat (length (a ++ b)) < 2 ^ 63 ->
  let p := zmalloc (nodes m) in
  hd = first_addr (a ++ (p, v) :: b) None -> tl = last_addr None (a ++ (p, v) :: b) ->
  op m = (node ← new_node zmalloc (mk_node (last_addr None a) (first_addr b None) v);
          _ ← (if non_null (last_addr None a) then set_next (last_addr None a) (Some node) else mret tt);
          _ ← (if non_null (first_addr b None) then set_prev (first_addr b None) (Some node) else mret tt);
          mret (with_ends l hd tl (u64 (len l + 1)))) m ->
  yields op m l (a ++ (p, v) :: b).
Proof.
  intros [Hh Ht Hn Hnd Hs] Hl p -> -> Hop.
  destruct (insert_between m a b v Hs Hnd) as (Hp & m' & Hseq & Hr & Hs' & Hf). fold p in Hp, Hseq, Hs'.
  eexists _, m'. split_and!; [|by eapply dlist_ends|by destruct l|done|done]. rewrite Hop.
  apply bind_inv in Hseq as (p' & m1 & Hnew & Hseq). rewrite (bind_ok _ _ _ _ _ Hnew).
  assert (p' = p) as -> by (unfold new_node in Hnew; by simplify_eq).
  apply bind_inv in Hseq as ([] & m2 & Hn2 & Hseq). rewrite (bind_ok _ _ _ _ _ Hn2), (bind_ok _ _ _ _ _ Hseq).
  rewrite Hn, u64_small by lia. done.
Qed.

Lemma addHead_yields m l ns v :
  dlist m l ns -> Z.of_nat (length ns) < 2 ^ 63 ->
  yields (listAddNodeHead zmalloc l v) m l ((zmalloc (nodes m), v) :: ns).
Proof.
  intros Hd Hl. pose proof (dlist_len_zero m l ns Hd) as Hz. pose proof Hd as [Hh Ht Hn _ _].
  apply (yields_between m l [] ns v _ _ _ Hd Hl eq_refl eq_refl). unfold listAddNodeHead. rewrite Hz, Hh, Ht.
  case_bool_decide as He; rewrite !(bind_ok _ _ _ _ _ (new_node_ok _ _)); [by subst|].
  destruct ns as [|[q w] ns]; [done|]. cbn [app]. by rewrite !last_addr_cons.
Qed.

Lemma addTail_yields m l ns v :
  dlist m l ns -> Z.of_nat (length ns) < 2 ^ 63 ->
  yields (listAddNodeTail zmalloc l v) m l (ns ++ [(zmalloc (nodes m), v)]).
Proof.
  intros Hd Hl. pose proof (dlist_len_zero m l ns Hd) as Hz. pose proof Hd as [Hh Ht Hn _ _].
  rewrite <- (app_nil_r ns) in Hd, Hl.
  apply (yields_between m l ns [] v _ _ _ Hd Hl eq_refl eq_refl). unfold listAddNodeTail. rewrite Hz, Hh, Ht.
  rewrite last_addr_snoc. case_bool_decide as He; rewrite !(bind_ok _ _ _ _ _ (new_node_ok _ _)); [by subst|].
  destruct ns as [|[q w] ns _] using rev_ind; [done|]. rewrite last_addr_snoc. by destruct ns as [|[] ?].
Qed.

Lemma first_addr_elem ns nx q : first_addr ns nx = Some q -> ns <> [] -> q ∈ ns.*1.
Proof. destruct ns as [|[r v] ns]; [done|]. intros [= <-] _. cbn. by left. Qed.

Lemma last_addr_elem pv ns q : last_addr pv ns = Some q -> ns <> [] -> q ∈ ns.*1.
Proof.
  destruct ns as [|[r v] ns _] using rev_ind; [done|]. rewrite last_addr_snoc. intros [= <-] _.
  rewrite fmap_app. apply elem_of_app. right. cbn. by left.
Qed.

Lemma nodup_middle a (o : addr) (w : V) b : NoDup (a ++ (o, w) :: b).*1 -> (o ∉ a.*1) /\ (o ∉ b.*1) /\ NoDup (a ++ b).*1.
Proof.
  rewrite !fmap_app. cbn. rewrite <- Permutation_middle. intros [Hno Hnd]%NoDup_cons.
  apply not_elem_of_app in Hno as [??]. done.
Qed.

(** [listInsertNode] at a node that is in the list. *)
Lemma insertNode_yields m l a o w b v (after : bool) :
  dlist m l (a ++ (o, w) :: b) -> Z.of_nat (length (a ++ (o, w) :: b)) < 2 ^ 63 ->
  let p := zmalloc (nodes m) in
  yields (listInsertNode zmalloc l o v after) m l
    (if after then a ++ (o, w) :: (p, v) :: b else a ++ (p, v) :: (o, w) :: b).
Proof.
  intros Hd Hl p. pose proof Hd as [Hh Ht Hn Hnd Hs].
  pose proof Hs as Hs'. apply dseg_app in Hs' as [_ [Ho _]].
  destruct (nodup_middle _ _ _ _ Hnd) as (Hoa & Hob & _). destruct after.
  - assert (forall c, a ++ (o, w) :: c = (a ++ [(o, w)]) ++ c) as Hc by (intros; by rewrite <- app_assoc).
    rewrite (Hc (_ :: b)). rewrite (Hc b) in Hd, Hl, Hh, Ht.
    apply (yields_between m l (a ++ [(o, w)]) b v _ _ _ Hd Hl eq_refl eq_refl).
    unfold listInsertNode. rewrite (bind_ok _ _ _ _ _ (load_ok _ _ _ Ho)). cbn [next andb negb].
    rewrite last_addr_snoc, !(bind_ok _ _ _ _ _ (new_node_ok _ _)). fold p.
    assert (head l = first_addr ((a ++ [(o, w)]) ++ (p, v) :: b) None) as <-.
    { rewrite Hh, !first_addr_app. by destruct a as [|[] ?]. }
    assert ((if bool_decide (tail l = Some o) then Some p else tail l) = last_addr None ((a ++ [(o, w)]) ++ (p, v) :: b)) as <-;
      [|done].
    rewrite Ht, (last_addr_app _ _ b), (last_addr_app _ _ (_ :: b)), last_addr_snoc, last_addr_cons.
    destruct (decide (b = [])) as [->|Hb]; [by rewrite bool_decide_eq_true_2|].
    case_bool_decide as He; [by apply last_addr_elem in He|].
    destruct b as [|x b _] using rev_ind; [done|]. destruct x. by rewrite !last_addr_snoc.
  - apply (yields_between m l a ((o, w) :: b) v _ _ _ Hd Hl eq_refl eq_refl).
    unfold listInsertNode. rewrite (bind_ok _ _ _ _ _ (load_ok _ _ _ Ho)). cbn [next prev andb negb].
    rewrite !(bind_ok _ _ _ _ _ (new_node_ok _ _)). fold p.
    assert (tail l = last_addr None (a ++ (p, v) :: (o, w) :: b)) as <-.
    { rewrite Ht, !last_addr_app. by rewrite !last_addr_cons. }
    assert ((if bool_decide (head l = Some o) then Some p else head l) = first_addr (a ++ (p, v) :: (o, w) :: b) None) as <-;
      [|done].
    rewrite Hh, !first_addr_app. destruct a as [|[q u] a]; cbn [first_addr]; [by rewrite bool_decide_eq_true_2|].
    rewrite bool_decide_eq_false_2; [done|]. intros [= ->]. apply Hoa. cbn. by left.
Qed.

(** *** Removal *)

Lemma zfree_ok m p n : nodes m !! p = Some n -> zfree (Some p) m = Some (tt, mk_mem (delete p (nodes m)) (released m)).
Proof. intros Hn. unfold zfree. simpl. by rewrite Hn. Qed.

Lemma free_value_ok m l v :
  free_value l v m = Some (tt, mk_mem (nodes m) (released m ++ if free l then [v] else [])).
Proof. unfold free_value. destruct m, (free l); cbn; by rewrite ?app_nil_r. Qed.

Lemma first_del a (x : addr * V) b :
  (if non_null (last_addr None a) then first_addr (a ++ x :: b) None else first_addr b None) = first_addr (a ++ b) None.
Proof.
  destruct a as [|[q w] a]; [done|]. rewrite last_addr_cons.
  assert (non_null (last_addr (Some q) a) = true) as ->; [|done]. unfold last_addr. by destruct (last a) as [[]|].
Qed.

Lemma last_del a (x : addr * V) b :
  (if non_null (first_addr b None) then last_addr None (a ++ x :: b) else last_addr None a) = last_addr None (a ++ b).
Proof.
  destruct b as [|[q w] b]; [by rewrite app_nil_r|]. cbn [first_addr non_null].
  rewrite !last_addr_app. destruct x. by rewrite !last_addr_cons.
Qed.

Lemma delNode_spec m l a p v b :
  dlist m l (a ++ (p, v) :: b) -> Z.of_nat (length (a ++ (p, v) :: b)) < 2 ^ 63 ->
  exists l' m', listDelNode l p m = Some (l', m') /\ dlist m' l' (a ++ b) /\ same_methods l l' /\
    released m' = released m ++ (if free l then [v] else []) /\ nodes m' !! p = None /\
    (forall r, r ∉ (a ++ (p, v) :: b).*1 -> nodes m' !! r = nodes m !! r).
Proof.
  intros [Hh Ht Hn Hnd Hs] Hlen. destruct (nodup_middle _ _ _ _ Hnd) as (Hpa & Hpb & Hnab).
  apply dseg_app in Hs as [Hsa [Hp Hsb]]. cbn [first_addr] in Hsa.
  pose proof Hnab as Hnab'. rewrite fmap_app in Hnab'. apply NoDup_app in Hnab' as (Hna & Hdis & Hnb).
  destruct (relink_last m None a (Some p) (first_addr b None) Hsa Hna) as (h2 & H2 & Hs2 & Hf2).
  destruct (relink_first (mk_mem h2 (released m)) (Some p) b None (last_addr None a)) as (h3 & H3 & Hs3 & Hf3); [|done|].
  { eapply dseg_frame; [|exact Hsb]. intros r Hr. apply Hf2. intros Hra. by apply (Hdis r). }
  cbn [nodes released] in *.
  assert (h3 !! p = Some (mk_node (last_addr None a) (first_addr b None) v)) as Hp3 by (by rewrite Hf3, Hf2).
  exists (with_ends l (first_addr (a ++ b) None) (last_addr None (a ++ b)) (Z.of_nat (length (a ++ b)))).
  exists (mk_mem (delete p h3) (released m ++ if free l then [v] else [])). split_and!.
  - unfold listDelNode. rewrite (bind_ok _ _ _ _ _ (load_ok _ _ _ Hp)). cbn [prev next value].
    rewrite (bind_ok _ _ _ _ _ H2). rewrite (bind_ok _ _ _ _ _ H3).
    rewrite (bind_ok _ _ _ _ _ (free_value_ok _ _ _)). cbn [nodes released].
    erewrite bind_ok; [|eapply zfree_ok; exact Hp3]. unfold mret, M_ret. do 2 f_equal.
    rewrite Hh, Ht, Hn, first_del, last_del. f_equal. unfold with_ends. f_equal.
    rewrite !length_app in *. cbn [length] in *. rewrite u64_small by lia. lia.
  - split; cbn; [done|done|done|done|]. apply dseg_delete; [by rewrite fmap_app, not_elem_of_app|].
    apply dseg_app. split; [|done]. eapply dseg_frame; [|exact Hs2]. intros r Hr. apply Hf3. intros Hrb. by apply (Hdis r).
  - done.
  - done.
  - cbn. apply lookup_delete_eq.
  - intros r Hr. rewrite fmap_app in Hr. apply not_elem_of_app in Hr as [Hra Hr].
    cbn in Hr. apply not_elem_of_cons in Hr as [Hrp Hrb]. cbn [nodes]. by rewrite lookup_delete_ne, Hf3, Hf2.
Qed.

(** The memory without the nodes of [ns]. *)
Definition freed m m' ns : Prop :=
  (forall r, r ∈ ns.*1 -> nodes m' !! r = None) /\ (forall r, r ∉ ns.*1 -> nodes m' !! r = nodes m !! r).

Lemma empty_loop_spec l ns m pv :
  dseg (nodes m) pv ns None -> NoDup ns.*1 ->
  exists m', empty_loop l (length ns) (first_addr ns None) m = Some (tt, m') /\
    released m' = released m ++ (if free l then ns.*2 else []) /\ freed m m' ns.
Proof.
  revert m pv. induction ns as [|[p v] ns IH]; intros m pv Hs Hnd.
  { exists m. split_and!; [done|by destruct (free l); rewrite app_nil_r|]. split; [|done]. intros r Hr. by apply elem_of_nil in Hr. }
  destruct Hs as [Hp Hs]. cbn in Hnd. apply NoDup_cons in Hnd as [Hpn Hnd]. cbn [length empty_loop first_addr].
  rewrite (bind_ok _ _ _ _ _ (load_ok _ _ _ Hp)). cbn [value next].
  rewrite (bind_ok _ _ _ _ _ (free_value_ok _ _ _)). erewrite bind_ok; [|by eapply zfree_ok]. cbn [nodes released].
  destruct (IH (mk_mem (delete p (nodes m)) (released m ++ if free l then [v] else [])) (Some p)) as (m' & Hm & Hr & Hd & Hk);
    [by apply dseg_delete|done|].
  exists m'. split_and!; [done| |split].
  - rewrite Hr. cbn. rewrite <- app_assoc. by destruct (free l).
  - cbn. intros r [->|Hin]%elem_of_cons; [|by apply Hd]. rewrite Hk by done. cbn. apply lookup_delete_eq.
  - cbn. intros r [Hrp Hrn]%not_elem_of_cons. rewrite Hk by done. cbn. by apply lookup_delete_ne.
Qed.

Lemma listEmpty_spec m l ns :
  dlist m l ns ->
  exists l' m', listEmpty l m = Some (l', m') /\ dlist m' l' [] /\ same_methods l l' /\
    released m' = released m ++ (if free l then ns.*2 else []) /\ freed m m' ns.
Proof.
  intros [Hh Ht Hn Hnd Hs]. destruct (empty_loop_spec l ns m None Hs Hnd) as (m' & Hm & Hr & Hf).
  exists (with_ends l None None 0), m'. split_and!; [|by split; cbn; [| | |apply NoDup_nil_2|]|done|done|done].
  unfold listEmpty. rewrite Hn, Nat2Z.id, Hh. by rewrite (bind_ok _ _ _ _ _ Hm).
Qed.

(** *** Access *)

Lemma walk_next m pv ns k :
  dseg (nodes m) pv ns None -> walk next k (first_addr ns None) m = Some (fst <$> ns !! k, m).
Proof.
  revert pv k. induction ns as [|[p v] ns IH]; intros pv k Hs; [by destruct k|].
  destruct Hs as [Hp Hs]. destruct k as [|k]; [done|]. cbn [first_addr walk].
  rewrite (bind_ok _ _ _ _ _ (load_ok _ _ _ Hp)). cbn [next]. by apply (IH (Some p)).
Qed.

Lemma walk_prev m ns nx k :
  dseg (nodes m) None ns nx -> walk prev k (last_addr None ns) m = Some (fst <$> reverse ns !! k, m).
Proof.
  revert nx k. induction ns as [|[p v] ns IH] using rev_ind; intros nx k Hs; [by destruct k|].
  apply dseg_app in Hs as [Hs [Hp _]]. rewrite last_addr_snoc, reverse_app. destruct k as [|k]; [done|]. cbn [walk].
  rewrite (bind_ok _ _ _ _ _ (load_ok _ _ _ Hp)). cbn [prev]. by eapply IH.
Qed.

Lemma listIndex_spec m l ns i :
  dlist m l ns ->
  listIndex l i m = Some (fst <$> (if i <? 0 then reverse ns !! Z.to_nat (- i - 1) else ns !! Z.to_nat i), m).
Proof.
  intros [Hh Ht Hn Hnd Hs]. unfold listIndex. rewrite Hh, Ht. destruct (i <? 0).
  - by eapply walk_prev.
  - by eapply walk_next.
Qed.

Lemma listNext_spec m pv p v ns nx :
  dseg (nodes m) pv ((p, v) :: ns) nx ->
  listNext (mk_iter (Some p) AL_START_HEAD) m = Some ((Some p, mk_iter (first_addr ns nx) AL_START_HEAD), m).
Proof. intros [Hp _]. unfold listNext. cbn [it_next it_direction]. by rewrite (bind_ok _ _ _ _ _ (load_ok _ _ _ Hp)). Qed.

(** The test listSearchKey applies to a value. *)
Definition matches l (key v : V) : bool := match match_ l with Some f => f v key | None => bool_decide (key = v) end.

Lemma list_search_spec m l key pv ns fuel :
  dseg (nodes m) pv ns None -> (length ns < fuel)%nat ->
  search_loop fuel l key (mk_iter (first_addr ns None) AL_START_HEAD) m =
    Some (fst <$> List.find (fun x => matches l key x.2) ns, m).
Proof.
  revert pv fuel. induction ns as [|[p v] ns IH]; intros pv fuel Hs Hf; (destruct fuel as [|fuel]; [lia|]); cbn [search_loop].
  { done. }
  cbn [first_addr]. rewrite (bind_ok _ _ _ _ _ (listNext_spec _ _ _ _ _ _ Hs)). destruct Hs as [Hp Hs].
  rewrite (bind_ok _ _ _ _ _ (load_ok _ _ _ Hp)). cbn [value List.find snd].
  change (match match_ l with Some f => f v key | None => bool_decide (key = v) end) with (matches l key v).
  destruct (matches l key v); [done|]. apply (IH (Some p)); [done|]. simpl in Hf. lia.
Qed.

Lemma listSearchKey_spec m l ns key :
  dlist m l ns -> listSearchKey l key m = Some (fst <$> List.find (fun x => matches l key x.2) ns, m).
Proof.
  intros [Hh Ht Hn Hnd Hs]. unfold listSearchKey, listRewind. rewrite Hh, Hn. eapply list_search_spec; [done|lia].
Qed.

(** The use of an iterator the comments of listNext() allow: the current element
    may be deleted.  This loop deletes the elements that are not kept. *)
Fixpoint prune_loop (fuel : nat) (keep : V -> bool) l (iter : listIter) : M V (dlist_header V) :=
  match fuel with
  | O => fun _ => None
  | S fuel =>
    '(node, iter) ← listNext iter;
    match node with
    | None => mret l
    | Some node =>
      n ← load (Some node);
      if keep (value n) then prune_loop fuel keep l iter
      else l ← listDelNode l node; prune_loop fuel keep l iter
    end
  end.

Lemma prune_loop_spec keep fuel a b m l :
  dlist m l (a ++ b) -> Z.of_nat (length (a ++ b)) < 2 ^ 63 -> (length b < fuel)%nat ->
  exists l' m', prune_loop fuel keep l (mk_iter (first_addr b None) AL_START_HEAD) m = Some (l', m') /\
    dlist m' l' (a ++ List.filter (fun x => keep x.2) b) /\
    released m' = released m ++ (if free l then (List.filter (fun x => negb (keep x.2)) b).*2 else []).
Proof.
  revert a m l fuel. induction b as [|[p v] b IH]; intros a m l fuel Hd Hlen Hf; (destruct fuel as [|fuel]; [lia|]); cbn [prune_loop].
  { exists l, m. split_and!; [done|done|]. by destruct (free l); rewrite app_nil_r. }
  pose proof Hd as [_ _ _ _ Hs]. apply dseg_app in Hs as [_ Hs]. cbn [first_addr].
  rewrite (bind_ok _ _ _ _ _ (listNext_spec _ _ _ _ _ _ Hs)). destruct Hs as [Hp Hs].
  rewrite (bind_ok _ _ _ _ _ (load_ok _ _ _ Hp)). cbn [value List.filter snd]. cbn in Hf. destruct (keep v).
  - cbn [negb]. specialize (IH (a ++ [(p, v)]) m l fuel). rewrite <- !app_assoc in IH. cbn [app] in IH.
    apply IH; [done|done|lia].
  - destruct (delNode_spec m l a p v b Hd Hlen) as (l1 & m1 & Hdel & Hd1 & (_ & Hfr & _) & Hr1 & _ & _).
    rewrite (bind_ok _ _ _ _ _ Hdel). rewrite !length_app in Hlen. cbn in Hlen.
    destruct (IH a m1 l1 fuel) as (l' & m' & Hm & Hd' & Hr'); [done|rewrite length_app; lia|lia|].
    exists l', m'. split_and!; [done|done|]. rewrite Hr', Hr1, Hfr, <- app_assoc. by destruct (free l).
Qed.

(** *** Rotation and concatenation *)

Lemma relink_true {A} (p : option A) (x y : M V unit) m r :
  p <> None -> (if non_null p then x else y) m = r -> x m = r.
Proof. by destruct p. Qed.

Lemma last_addr_nonnull pv a : a <> [] -> last_addr pv a <> None.
Proof. destruct a as [|[] ? _] using rev_ind; [done|]. by rewrite last_addr_snoc. Qed.

Lemma last_addr_pv pv pv' a : a <> [] -> last_addr pv a = last_addr pv' a.
Proof. destruct a as [|[] ? _] using rev_ind; [done|]. by rewrite !last_addr_snoc. Qed.

Lemma rotate_many m l a p v :
  a <> [] -> dlist m l (a ++ [(p, v)]) -> yields (listRotate l) m l ((p, v) :: a).
Proof.
  intros Ha [Hh Ht Hn Hnd Hs]. destruct (nodup_middle _ _ _ _ Hnd) as (Hpa & _ & Hna). rewrite app_nil_r in Hna.
  apply dseg_app in Hs as [Hsa [Hp _]]. cbn [first_addr] in Hsa, Hp. rewrite last_addr_snoc in Ht.
  assert (head l = first_addr a None) as Hh' by (rewrite Hh; by destruct a as [|[] ?]).
  destruct (relink_last m None a (Some p) None Hsa Hna) as (h2 & H2 & Hs2 & Hf2).
  apply relink_true in H2; [|by apply last_addr_nonnull].
  destruct (relink_first (mk_mem h2 (released m)) None a None (Some p) Hs2 Hna) as (h3 & H3 & Hs3 & Hf3).
  apply relink_true in H3; [|by destruct a as [|[] ?]]. cbn [nodes released] in *.
  assert (h3 !! p = Some (mk_node (last_addr None a) None v)) as Hp3 by (by rewrite Hf3, Hf2).
  set (h4 := <[p := mk_node None None v]> h3). set (h5 := <[p := mk_node None (first_addr a None) v]> h4).
  exists (with_ends l (Some p) (last_addr None a) (len l)), (mk_mem h5 (released m)). split_and!; [| |done|done|].
  - unfold listRotate, listLength. rewrite Hn, length_app. cbn [length].
    destruct (Z.leb_spec (Z.of_nat (length a + 1)) 1) as [Hle|_]; [destruct a; [done|simpl in Hle; lia]|].
    rewrite Ht, Hh', (bind_ok _ _ _ _ _ (load_ok _ _ _ Hp)). cbn [prev].
    rewrite (bind_ok _ _ _ _ _ H2), (bind_ok _ _ _ _ _ H3).
    erewrite bind_ok; [|eapply set_prev_ok; exact Hp3]. cbn [next value nodes released]. fold h4.
    erewrite bind_ok; [|eapply (set_next_ok _ p (mk_node None None v)); apply lookup_insert_eq]. done.
  - split; cbn [with_ends head tail len nodes].
    + done.
    + rewrite last_addr_cons. by apply last_addr_pv.
    + rewrite Hn, length_app. simpl. lia.
    + cbn. by constructor.
    + cbn [dseg]. unfold h5, h4. rewrite lookup_insert_eq. split; [done|]. by rewrite !dseg_insert.
  - intros r Hr. cbn in Hr. apply not_elem_of_cons in Hr as [Hrp Hra]. cbn [nodes]. unfold h5, h4.
    by rewrite !lookup_insert_ne, Hf3, Hf2 by done.
Qed.

(** The last element first. *)
Definition rotated ns : list (addr * V) :=
  match last ns with Some x => x :: take (length ns - 1) ns | None => [] end.

Lemma listRotate_yields m l ns : dlist m l ns -> yields (listRotate l) m l (rotated ns).
Proof.
  intros Hd. destruct ns as [|[p v] a _] using rev_ind.
  - exists l, m. pose proof Hd as [_ _ Hn _ _]. unfold listRotate, listLength. rewrite Hn. split_and!; try done; apply frame_refl.
  - unfold rotated. rewrite last_snoc, length_app. cbn [length].
    rewrite take_app_le by lia. rewrite take_ge by lia.
    destruct (decide (a = [])) as [->|Ha]; [|by apply rotate_many].
    exists l, m. pose proof Hd as [_ _ Hn _ _]. unfold listRotate, listLength. rewrite Hn.
    split_and!; try done; apply frame_refl.
Qed.

Lemma listJoin_spec m l o a b :
  dlist m l a -> dlist m o b -> (forall r, r ∈ a.*1 -> r ∉ b.*1) -> Z.of_nat (length a + length b) < 2 ^ 64 ->
  exists l' o' m', listJoin l o m = Some ((l', o'), m') /\ dlist m' l' (a ++ b) /\ dlist m' o' [] /\
    released m' = released m /\ frame m m' (a ++ b).
Proof.
  intros [Hh Ht Hn Hna Hsa] [Hho Hto Hno Hnb Hsb] Hdis Hlen.
  destruct (relink_first m None b None (last_addr None a) Hsb Hnb) as (h2 & H2 & Hs2 & Hf2).
  destruct (relink_last (mk_mem h2 (released m)) None a None (first_addr b None)) as (h3 & H3 & Hs3 & Hf3); [|done|].
  { eapply dseg_frame; [|exact Hsa]. intros r Hr. apply Hf2. by apply Hdis. }
  cbn [nodes released] in *.
  eexists _, _, (mk_mem h3 (released m)). split_and!; [|split; cbn [with_ends head tail len nodes]..|done|].
  - unfold listJoin. rewrite Hho, Ht. by rewrite (bind_ok _ _ _ _ _ H2), (bind_ok _ _ _ _ _ H3).
  - rewrite Hh, first_addr_app. destruct a as [|[q w] a]; [done|].
    destruct (last_addr None ((q, w) :: a)) eqn:E; [done|]. by apply last_addr_nonnull in E.
  - rewrite Hto, last_addr_app. destruct b as [|x b _] using rev_ind; [done|]. destruct x. by rewrite !last_addr_snoc.
  - rewrite Hn, Hno, length_app. cbn [len with_ends]. rewrite u64_small; lia.
  - rewrite fmap_app. by apply NoDup_app.
  - apply dseg_app. split; [done|]. eapply dseg_frame; [|exact Hs2]. intros r Hr. apply Hf3. intros Hra. by apply (Hdis r).
  - done.
  - done.
  - done.
  - apply NoDup_nil_2.
  - done.
  - intros r Hr. rewrite fmap_app in Hr. apply not_elem_of_app in Hr as [Hra Hrb]. cbn [nodes]. by rewrite Hf3, Hf2.
Qed.

(** *** Copies *)

(** The values of the copy, or nothing when the dup method fails on one. *)
Fixpoint dup_values (f : option (V -> option V)) (vs : list V) : option (list V) :=
  match vs with
  | [] => Some []
  | v :: vs => w ← (match f with Some f => f v | None => Some v end); ws ← dup_values f vs; Some (w :: ws)
  end.

(** The nodes [cs] of the copy are new, the others are those of [m0]. *)
Definition copied m0 m (cs : list (addr * V)) : Prop :=
  (forall r, r ∈ cs.*1 -> nodes m0 !! r = None) /\ (forall r, r ∉ cs.*1 -> nodes m !! r = nodes m0 !! r).

Lemma dup_loop_spec m0 fuel pv ns : dseg (nodes m0) pv ns None -> forall m copy cs,
  copied m0 m cs -> dlist m copy cs -> (length ns < fuel)%nat -> Z.of_nat (length cs + length ns) < 2 ^ 63 ->
  exists r m', dup_loop zmalloc fuel copy (mk_iter (first_addr ns None) AL_START_HEAD) m = Some (r, m') /\
    match dup_values (dup copy) ns.*2 with
    | Some ws => exists copy' cs', r = Some copy' /\ dlist m' copy' cs' /\ same_methods copy copy' /\
        copied m0 m' cs' /\ cs'.*2 = cs.*2 ++ ws /\ released m' = released m
    | None => r = None /\ (forall q, nodes m' !! q = nodes m0 !! q)
    end.
Proof.
  revert fuel pv. induction ns as [|[p v] ns IH]; intros fuel pv Hs m copy cs [Hnew Hold] Hd Hf Hlen;
    (destruct fuel as [|fuel]; [lia|]); cbn [dup_loop].
  { exists (Some copy), m. split; [done|]. cbn. exists copy, cs. by rewrite app_nil_r. }
  assert (dseg (nodes m) pv ((p, v) :: ns) None) as Hsm.
  { eapply dseg_frame; [|exact Hs]. intros r Hr. apply Hold. intros Hc.
    destruct (dseg_dom _ _ _ _ _ Hs Hr) as [n Hn]. by rewrite (Hnew r Hc) in Hn. }
  cbn [first_addr]. rewrite (bind_ok _ _ _ _ _ (listNext_spec _ _ _ _ _ _ Hsm)).
  destruct Hsm as [Hp _]. destruct Hs as [_ Hs]. rewrite (bind_ok _ _ _ _ _ (load_ok _ _ _ Hp)). cbn [value].
  cbn [fmap list_fmap snd dup_values]. cbn in Hf, Hlen.
  destruct (match dup copy with Some f => f v | None => Some v end) as [w|]; cbn [mbind option_bind].
  - destruct (addTail_yields m copy cs w Hd ltac:(lia)) as (copy1 & m1 & Hadd & Hd1 & Hm1 & Hr1 & Hf1).
    rewrite (bind_ok _ _ _ _ _ Hadd).
    destruct (IH fuel (Some p) Hs m1 copy1 (cs ++ [(zmalloc (nodes m), w)])) as (r & m' & Hl & Hres); [|done|lia| |].
    { split.
      - intros r Hr. rewrite fmap_app in Hr. apply elem_of_app in Hr as [Hr|Hr]; [by apply Hnew|].
        cbn in Hr. apply list_elem_of_singleton in Hr as ->. rewrite <- Hold by apply (dseg_fresh _ _ _ _ (dl_seg _ _ _ Hd)).
        apply zmalloc_fresh.
      - intros r Hr. rewrite (Hf1 r Hr). apply Hold. rewrite fmap_app in Hr. by apply not_elem_of_app in Hr as [? _]. }
    { rewrite length_app. simpl. lia. }
    exists r, m'. split; [done|]. destruct Hm1 as (Hdup & Hfr & Hma). rewrite Hdup in Hres.
    destruct (dup_values (dup copy) ns.*2) as [ws|]; cbn [mbind option_bind]; [|done].
    destruct Hres as (copy' & cs' & -> & Hd' & Hsm & Hc & Hv & Hr). exists copy', cs'.
    rewrite fmap_app in Hv. cbn in Hv. rewrite <- app_assoc in Hv. split_and!; try done; [|congruence].
    destruct Hsm as (? & ? & ?). split_and!; congruence.
  - destruct (listEmpty_spec m copy cs Hd) as (l' & m' & He & _ & _ & _ & Hd1 & Hd2).
    exists None, m'. split.
    + unfold listRelease. by rewrite (bind_ok _ _ m tt m') by (by rewrite (bind_ok _ _ _ _ _ He)).
    + split; [done|]. intros q. destruct (decide (q ∈ cs.*1)) as [Hq|Hq].
      * by rewrite Hd1, Hnew.
      * by rewrite Hd2, Hold.
Qed.

(** *** The operations on sequences *)

(** ListAddNodeHead, listAddNodeTail and listInsertNode (before or after any
    node of the list) put a new node with the value at the place they name,
    keep the other elements in order and touch no other node. *)
Theorem list_insert_correct m l a o w b v (after : bool) :
  dlist m l (a ++ (o, w) :: b) -> Z.of_nat (length (a ++ (o, w) :: b)) < 2 ^ 63 ->
  let p := zmalloc (nodes m) in
  yields (listAddNodeHead zmalloc l v) m l ((p, v) :: a ++ (o, w) :: b) /\
  yields (listAddNodeTail zmalloc l v) m l ((a ++ (o, w) :: b) ++ [(p, v)]) /\
  yields (listInsertNode zmalloc l o v after) m l
    (if after then a ++ (o, w) :: (p, v) :: b else a ++ (p, v) :: (o, w) :: b).
Proof.
  intros Hd Hl p. split_and!; [by apply addHead_yields|by apply addTail_yields|by apply insertNode_yields].
Qed.

(** ListDelNode unlinks exactly the node it is given, frees it and passes
    its value to the free method; listEmpty does so for every node, in order,
    and leaves no node of the list allocated. *)
Theorem list_delete_correct m l a p v b :
  dlist m l (a ++ (p, v) :: b) -> Z.of_nat (length (a ++ (p, v) :: b)) < 2 ^ 63 ->
  (exists l' m', listDelNode l p m = Some (l', m') /\ dlist m' l' (a ++ b) /\
    released m' = released m ++ (if free l then [v] else []) /\ nodes m' !! p = None /\
    (forall r, r ∉ (a ++ (p, v) :: b).*1 -> nodes m' !! r = nodes m !! r)) /\
  (exists l' m', listEmpty l m = Some (l', m') /\ dlist m' l' [] /\
    released m' = released m ++ (if free l then (a ++ (p, v) :: b).*2 else []) /\ freed m m' (a ++ (p, v) :: b)).
Proof.
  intros Hd Hl. split.
  - destruct (delNode_spec m l a p v b Hd Hl) as (l' & m' & ? & ? & _ & ? & ? & ?). by exists l', m'.
  - destruct (listEmpty_spec m l _ Hd) as (l' & m' & ? & ? & _ & ? & ?). by exists l', m'.
Qed.

(** A loop that runs an iterator from the head and deletes the current
    element whenever it likes visits every element once, in order, and ends
    with exactly the elements it kept: deleting the element an iterator has
    just returned does not disturb the iteration. *)
Theorem list_iterate_deleting keep m l ns :
  dlist m l ns -> Z.of_nat (length ns) < 2 ^ 63 ->
  exists l' m', prune_loop (S (length ns)) keep l (listRewind l) m = Some (l', m') /\
    dlist m' l' (List.filter (fun x => keep x.2) ns) /\
    released m' = released m ++ (if free l then (List.filter (fun x => negb (keep x.2)) ns).*2 else []).
Proof.
  intros Hd Hl. unfold listRewind. rewrite (dl_head _ _ _ Hd). apply (prune_loop_spec keep _ [] ns); [done|done|lia].
Qed.

(** ListRotate moves the last element to the front; listJoin appends the
    elements of another list and empties it.  Both keep the nodes and touch no
    others. *)
Theorem list_relink_correct m l o a b :
  dlist m l a -> dlist m o b -> (forall r, r ∈ a.*1 -> r ∉ b.*1) -> Z.of_nat (length a + length b) < 2 ^ 64 ->
  yields (listRotate l) m l (rotated a) /\
  exists l' o' m', listJoin l o m = Some ((l', o'), m') /\ dlist m' l' (a ++ b) /\ dlist m' o' [] /\
    released m' = released m /\ frame m m' (a ++ b).
Proof. intros Ha Hb Hdis Hlen. split; [by apply listRotate_yields|by apply listJoin_spec]. Qed.

(** ListIndex returns the node at a position counted from the head, or from
    the tail for negative ones, and NULL outside; listSearchKey returns the
    first node whose value matches. *)
Theorem list_access_correct m l ns i key :
  dlist m l ns ->
  listIndex l i m = Some (fst <$> (if i <? 0 then reverse ns !! Z.to_nat (- i - 1) else ns !! Z.to_nat i), m) /\
  listSearchKey l key m = Some (fst <$> List.find (fun x => matches l key x.2) ns, m).
Proof. intros Hd. split; [by apply listIndex_spec|by apply listSearchKey_spec]. Qed.

(** ListDup builds a second list of new nodes with the values the dup method
    returns, in order, and leaves the original as it is; when the dup method
    fails it returns NULL and the memory is as before. *)
Theorem listDup_correct m l ns :
  dlist m l ns -> Z.of_nat (length ns) < 2 ^ 63 ->
  exists r m', listDup zmalloc l m = Some (r, m') /\
    match dup_values (dup l) ns.*2 with
    | Some ws => exists copy cs, r = Some copy /\ dlist m' copy cs /\ same_methods l copy /\ cs.*2 = ws /\
        (forall q, q ∈ cs.*1 -> nodes m !! q = None) /\ dlist m' l ns
    | None => r = None /\ (forall q, nodes m' !! q = nodes m !! q)
    end.
Proof.
  intros Hd Hl. pose proof Hd as [Hh Ht Hn Hnd Hs]. unfold listDup, listRewind. rewrite Hh, Hn, Nat2Z.id.
  destruct (dup_loop_spec m (S (length ns)) None ns Hs m (mk_list None None (dup l) (free l) (match_ l) 0) [])
    as (r & m' & Hr & Hres); [by split; [intros q Hq; apply elem_of_nil in Hq|]|by split; cbn; [| | |apply NoDup_nil_2|]|lia|simpl; lia|].
  exists r, m'. split; [done|]. cbn [dup] in Hres. destruct (dup_values (dup l) ns.*2) as [ws|]; [|done].
  destruct Hres as (copy & cs & -> & Hc & Hm & [Hnew Hold] & Hv & _). exists copy, cs. split_and!; try done.
  split; [done..|]. eapply dseg_frame; [|exact Hs]. intros q Hq. apply Hold. intros Hin.
  destruct (dseg_dom _ _ _ _ _ Hs Hq) as [n Hq']. by rewrite (Hnew q Hin) in Hq'.
Qed.
End Refinement.

(** ** A concrete list *)

(** Three nodes with the values 10, 20, 30, and a second list with one. *)
Definition ex_mem : mem Z := mk_mem
  (<[1%positive := mk_node None (Some 2%positive) 10]>
    (<[2%positive := mk_node (Some 1%positive) (Some 3%positive) 20]>
      (<[3%positive := mk_node (Some 2%positive) None 30]>
        (<[7%positive := mk_node None None 40]> ∅)))) [].
Definition ex_nodes : list (addr * Z) := [(1%positive, 10); (2%positive, 20); (3%positive, 30)].
Definition ex_list : dlist_header Z := mk_list (Some 1%positive) (Some 3%positive) None true None 3.
Definition ex_other : dlist_header Z := mk_list (Some 7%positive) (Some 7%positive) None true None 1.
Definition ex_malloc (h : gmap addr (listNode Z)) : addr := fresh (map_to_list h).*1.

Lemma ex_malloc_fresh h : h !! ex_malloc h = None.
Proof.
  apply eq_None_not_Some. intros [n Hn]. apply (infinite_is_fresh (map_to_list h).*1).
  apply list_elem_of_fmap. exists (ex_malloc h, n). split; [done|]. by apply elem_of_map_to_list.
Qed.

Lemma ex_dlist : dlist ex_mem ex_list ex_nodes.
Proof. split; try done. apply (bool_decide_unpack _). done. Qed.

Lemma ex_dlist' : dlist ex_mem ex_list ([(1%positive, 10)] ++ (2%positive, 20) :: [(3%positive, 30)]).
Proof. apply ex_dlist. Qed.

Lemma ex_other_dlist : dlist ex_mem ex_other [(7%positive, 40)].
Proof. split; try done. apply (bool_decide_unpack _). done. Qed.

Lemma list_insert_correct_witness :
  yields (listInsertNode ex_malloc ex_list 2%positive 25 true) ex_mem ex_list
    [(1%positive, 10); (2%positive, 20); (ex_malloc (nodes ex_mem), 25); (3%positive, 30)].
Proof.
  apply (list_insert_correct ex_malloc ex_malloc_fresh ex_mem ex_list [(1%positive, 10)] 2%positive 20 [(3%positive, 30)] 25 true);
    [apply ex_dlist'|simpl; lia].
Defined.

Lemma list_delete_correct_witness :
  exists l' m', listDelNode ex_list 2%positive ex_mem = Some (l', m') /\
    dlist m' l' [(1%positive, 10); (3%positive, 30)] /\ released m' = [20].
Proof.
  destruct (list_delete_correct ex_mem ex_list [(1%positive, 10)] 2%positive 20 [(3%positive, 30)] ex_dlist')
    as [(l' & m' & H1 & H2 & H3 & _) _]; [simpl; lia|]. by exists l', m'.
Defined.

Lemma list_iterate_deleting_witness :
  exists l' m', prune_loop 4 (fun v => v =? 20) ex_list (listRewind ex_list) ex_mem = Some (l', m') /\
    dlist m' l' [(2%positive, 20)] /\ released m' = [10; 30].
Proof.
  apply (list_iterate_deleting (fun v => v =? 20) ex_mem ex_list ex_nodes ex_dlist). simpl. lia.
Defined.

Lemma list_relink_correct_witness :
  yields (listRotate ex_list) ex_mem ex_list [(3%positive, 30); (1%positive, 10); (2%positive, 20)].
Proof.
  apply (list_relink_correct ex_mem ex_list ex_other ex_nodes [(7%positive, 40)] ex_dlist ex_other_dlist).
  - intros r Hr Hs. cbn in Hr, Hs. apply list_elem_of_singleton in Hs as ->.
    repeat (apply elem_of_cons in Hr as [Hr|Hr]; [done|]). by apply elem_of_nil in Hr.
  - simpl. lia.
Defined.

Lemma list_access_correct_witness :
  listIndex ex_list (-2) ex_mem = Some (Some 2%positive, ex_mem) /\
  listSearchKey ex_list 30 ex_mem = Some (Some 3%positive, ex_mem).
Proof.
  destruct (list_access_correct ex_mem ex_list ex_nodes (-2) 30 ex_dlist) as [H1 H2].
  split; [rewrite H1|rewrite H2]; vm_compute; reflexivity.
Defined.

Lemma listDup_correct_witness :
  exists r m', listDup ex_malloc ex_list ex_mem = Some (r, m') /\
    exists copy cs, r = Some copy /\ dlist m' copy cs /\ same_methods ex_list copy /\ cs.*2 = [10; 20; 30] /\
      (forall q, q ∈ cs.*1 -> nodes ex_mem !! q = None) /\ dlist m' ex_list ex_nodes.
Proof. apply (listDup_correct ex_malloc ex_malloc_fresh ex_mem ex_list ex_nodes ex_dlist). simpl. lia. Defined.
