(* ===== verification/Dict.v ===== *)
(** * Hash tables: the model (src/redis-stable/src/dict.c, dict.h)

    The dictionary with its two chained tables and incremental rehashing.  A
    table is the list of its buckets, a bucket the list of its entries in chain
    order; entries carry their address, so that an entry pointer handed to a
    caller can be used later.  Addresses returned by the allocator are
    arguments of the operations that allocate.  Every access to a bucket goes
    through the table: out of range, or through a NULL table, it has no result.
    The functions of struct dictType are the fields of the class [DictType];
    destructor calls and frees are recorded in an event list. *)
From stdpp Require Import prelude list.
From Stdlib Require Import ZArith Lia.
From S2P Require Import Prelude.

Local Open Scope Z_scope.
Local Open Scope redis_scope.

Abbreviation loc := positive (only parsing).

(** struct dictType.  [K] is the type of key pointers, compared by address
    before the comparison function is called; [V] the type of values. *)
Class DictType (K V : Type) := {
  key_ptr_eq :: EqDecision K;
  hashFunction : K -> Z;
  keyDup : option (K -> K);
  valDup : option (V -> V);
  keyCompare : option (K -> K -> bool);
  keyDestructor : bool;
  valDestructor : bool;
}.

Definition DICT_HT_INITIAL_SIZE : Z := 4.

Section Model.
Context {K V : Type} `{!DictType K V}.

(** struct dictEntry; the value is [None] until it is first set. *)
Record dictEntry := mk_entry { de_ptr : loc; de_key : K; de_val : option V }.

(** struct dictht; [ht_ptr] is the address of the bucket array, 0 for NULL. *)
Record dictht := mk_ht {
  ht_ptr : Z;
  ht_table : list (list dictEntry);
  ht_size : Z;
  ht_sizemask : Z;
  ht_used : Z;
}.

Record dict := mk_dict {
  ht0 : dictht;
  ht1 : dictht;
  rehashidx : Z;
  iterators : Z;
}.

(** What the operations release. *)
Inductive event := FreeKey (k : K) | FreeVal (v : option V) | FreeEntry (p : loc).

(** The process-wide settings of dict.c. *)
Record dict_globals := mk_globals { dict_can_resize : bool; dict_force_resize_ratio : Z }.

Definition dictEnableResize (g : dict_globals) : dict_globals :=
  mk_globals true (dict_force_resize_ratio g).
Definition dictDisableResize (g : dict_globals) : dict_globals :=
  mk_globals false (dict_force_resize_ratio g).

(** ** Field updates and bucket access *)

Definition set_ht0 (d : dict) (h : dictht) : dict := mk_dict h (ht1 d) (rehashidx d) (iterators d).
Definition set_ht1 (d : dict) (h : dictht) : dict := mk_dict (ht0 d) h (rehashidx d) (iterators d).
Definition set_rehashidx (d : dict) (i : Z) : dict := mk_dict (ht0 d) (ht1 d) i (iterators d).
Definition set_iterators (d : dict) (n : Z) : dict := mk_dict (ht0 d) (ht1 d) (rehashidx d) n.
Definition set_used (h : dictht) (u : Z) : dictht :=
  mk_ht (ht_ptr h) (ht_table h) (ht_size h) (ht_sizemask h) u.

(** ht->table[i] as an rvalue and as an lvalue. *)
Definition get_bucket (h : dictht) (i : Z) : option (list dictEntry) :=
  assert! (0 <=? i) ;; ht_table h !! Z.to_nat i.
Definition set_bucket (h : dictht) (i : Z) (c : list dictEntry) : option dictht :=
  assert! ((0 <=? i) && (i <? Z.of_nat (length (ht_table h)))) ;;
  Some (mk_ht (ht_ptr h) (<[Z.to_nat i := c]> (ht_table h)) (ht_size h) (ht_sizemask h) (ht_used h)).

Definition dictCompareKeys (k1 k2 : K) : bool :=
  match keyCompare with Some f => f k1 k2 | None => bool_decide (k1 = k2) end.

(** key==he->key || dictCompareKeys(d, key, he->key) *)
Definition same_key (k : K) (he : dictEntry) : bool :=
  bool_decide (k = de_key he) || dictCompareKeys k (de_key he).

Definition dictIsRehashing (d : dict) : bool := negb (rehashidx d =? -1).
Definition dictSize (d : dict) : Z := u64 (ht_used (ht0 d) + ht_used (ht1 d)).
Definition dictSlots (d : dict) : Z := u64 (ht_size (ht0 d) + ht_size (ht1 d)).

(** dictFreeKey, dictFreeVal. *)
Definition dictFreeKey (he : dictEntry) : list event :=
  if keyDestructor then [FreeKey (de_key he)] else [].
Definition dictFreeVal (he : dictEntry) : list event :=
  if valDestructor then [FreeVal (de_val he)] else [].

(** ** Creation and resizing *)

Definition _dictReset : dictht := mk_ht 0 [] 0 0 0.

Definition _dictInit : dict := mk_dict _dictReset _dictReset (-1) 0.
Definition dictCreate : dict := _dictInit.

(** The doubling loop of _dictNextPower; [None] when the fuel runs out. *)
Fixpoint next_power_loop (fuel : nat) (i size : Z) : option Z :=
  match fuel with
  | O => None
  | S fuel => if i >=? size then Some i else next_power_loop fuel (u64 (i * 2)) size
  end.

Definition _dictNextPower (size : Z) : option Z :=
  if size >=? LONG_MAX then Some (u64 (LONG_MAX + 1))
  else next_power_loop 64 DICT_HT_INITIAL_SIZE size.

(** [tp] is the address zcalloc() returns for the new bucket array.  The
    result is the dictionary and whether the call returned DICT_OK. *)
Definition dictExpand (d : dict) (size tp : Z) : option (dict * bool) :=
  if dictIsRehashing d || (ht_used (ht0 d) >? size) then Some (d, false)
  else
    realsize ← _dictNextPower size;
    if realsize =? ht_size (ht0 d) then Some (d, false)
    else
      let slots := u64 (realsize * 8) / 8 in
      let n := mk_ht tp (replicate (Z.to_nat slots) []) realsize (u64 (realsize - 1)) 0 in
      if ht_ptr (ht0 d) =? 0 then Some (set_ht0 d n, true)
      else Some (set_rehashidx (set_ht1 d n) 0, true).

Definition dictResize (g : dict_globals) (d : dict) (tp : Z) : option (dict * bool) :=
  if negb (dict_can_resize g) || dictIsRehashing d then Some (d, false)
  else
    let minimal := s32 (ht_used (ht0 d)) in
    let minimal := if minimal <? DICT_HT_INITIAL_SIZE then DICT_HT_INITIAL_SIZE else minimal in
    dictExpand d (u64 minimal) tp.

Definition _dictExpandIfNeeded (g : dict_globals) (d : dict) (tp : Z) : option (dict * bool) :=
  if dictIsRehashing d then Some (d, true)
  else if ht_size (ht0 d) =? 0 then dictExpand d DICT_HT_INITIAL_SIZE tp
  else if (ht_used (ht0 d) >=? ht_size (ht0 d)) &&
          (dict_can_resize g || (ht_used (ht0 d) / ht_size (ht0 d) >? dict_force_resize_ratio g))
  then dictExpand d (u64 (ht_used (ht0 d) * 2)) tp
  else Some (d, true).

(** ** Incremental rehashing *)

(** The entries of one old bucket move, in chain order, to the front of their
    new buckets. *)
Fixpoint rehash_chain (de : list dictEntry) (d : dict) : option dict :=
  match de with
  | [] => Some d
  | e :: nextde =>
    let h := Z.land (hashFunction (de_key e)) (ht_sizemask (ht1 d)) in
    c ← get_bucket (ht1 d) h;
    h1 ← set_bucket (ht1 d) h (e :: c);
    let d := set_ht1 d (set_used h1 (u64 (ht_used h1 + 1))) in
    let d := set_ht0 d (set_used (ht0 d) (u64 (ht_used (ht0 d) - 1))) in
    rehash_chain nextde d
  end.

(** while(d->ht[0].table[d->rehashidx] == NULL) ...: [inl] is the early
    "return 1", [inr] the first non empty bucket with the visits left. *)
Fixpoint skip_empty (fuel : nat) (d : dict) (empty_visits : Z)
    : option (dict + dict * Z * list dictEntry) :=
  match fuel with
  | O => None
  | S fuel =>
    c ← get_bucket (ht0 d) (rehashidx d);
    match c with
    | [] =>
      let d := set_rehashidx d (rehashidx d + 1) in
      if empty_visits - 1 =? 0 then Some (inl d) else skip_empty fuel d (empty_visits - 1)
    | _ :: _ => Some (inr (d, empty_visits, c))
    end
  end.

(** The part of dictRehash after the loop. *)
Definition rehash_done (d : dict) : dict * bool :=
  if ht_used (ht0 d) =? 0
  then (set_rehashidx (set_ht1 (set_ht0 d (ht1 d)) _dictReset) (-1), false)
  else (d, true).

(** while(n-- && d->ht[0].used != 0) ... *)
Fixpoint rehash_loop (n : nat) (d : dict) (empty_visits : Z) : option (dict * bool) :=
  match n with
  | O => Some (rehash_done d)
  | S n =>
    if ht_used (ht0 d) =? 0 then Some (rehash_done d)
    else
      assert! (ht_size (ht0 d) >? u64 (rehashidx d)) ;;
      r ← skip_empty (Z.to_nat empty_visits) d empty_visits;
      match r with
      | inl d => Some (d, true)
      | inr (d, empty_visits, de) =>
        d ← rehash_chain de d;
        h0 ← set_bucket (ht0 d) (rehashidx d) [];
        let d := set_ht0 d h0 in
        rehash_loop n (set_rehashidx d (rehashidx d + 1)) empty_visits
      end
  end.

(** [n] is the number of bucket steps, not negative; the callers pass 1 and 100, for which
    n*10 is far from the bounds of an int.  The flag is the return value: work is left. *)
Definition dictRehash (d : dict) (n : nat) : option (dict * bool) :=
  if dictIsRehashing d then rehash_loop n d (Z.of_nat n * 10) else Some (d, false).

Definition _dictRehashStep (d : dict) : option dict :=
  if iterators d =? 0 then fst <$> dictRehash d 1 else Some d.

(** if (dictIsRehashing(d)) _dictRehashStep(d); *)
Definition rehash_step_if (d : dict) : option dict :=
  if dictIsRehashing d then _dictRehashStep d else Some d.

(** ** Lookup, insertion, deletion *)

(** The search of one chain: while(he) { if (same) return he; he = he->next; } *)
Fixpoint chain_find (k : K) (he : list dictEntry) : option dictEntry :=
  match he with
  | [] => None
  | e :: next => if same_key k e then Some e else chain_find k next
  end.

(** The result of _dictKeyIndex: the bucket to use, or -1 with the entry that
    has the key (none after a failed expansion). *)
Inductive key_index := Index (idx : Z) | NoIndex (existing : option dictEntry).

Definition _dictKeyIndex (g : dict_globals) (d : dict) (key : K) (hash tp : Z)
    : option (dict * key_index) :=
  '(d, ok) ← _dictExpandIfNeeded g d tp;
  if negb ok then Some (d, NoIndex None)
  else
    let idx := Z.land hash (ht_sizemask (ht0 d)) in
    c ← get_bucket (ht0 d) idx;
    match chain_find key c with
    | Some he => Some (d, NoIndex (Some he))
    | None =>
      if dictIsRehashing d then
        let idx := Z.land hash (ht_sizemask (ht1 d)) in
        c ← get_bucket (ht1 d) idx;
        match chain_find key c with
        | Some he => Some (d, NoIndex (Some he))
        | None => Some (d, Index idx)
        end
      else Some (d, Index idx)
    end.

(** The entry the low level insertion returns: a new one, or NULL with the
    existing one in the out parameter. *)
Inductive add_result := Added (p : loc) | Existing (he : option dictEntry).

(** [p] is the address zmalloc() returns for the new entry. *)
Definition dictAddRaw (g : dict_globals) (d : dict) (key : K) (p : loc) (tp : Z)
    : option (dict * add_result) :=
  d ← rehash_step_if d;
  '(d, r) ← _dictKeyIndex g d key (hashFunction key) tp;
  match r with
  | NoIndex e => Some (d, Existing e)
  | Index index =>
    let ht := if dictIsRehashing d then ht1 d else ht0 d in
    let key' := match keyDup with Some f => f key | None => key end in
    c ← get_bucket ht index;
    ht ← set_bucket ht index (mk_entry p key' None :: c);
    let ht := set_used ht (u64 (ht_used ht + 1)) in
    Some (if dictIsRehashing d then set_ht1 d ht else set_ht0 d ht, Added p)
  end.

(** The assignment entry->v.val = ... through an entry pointer. *)
Definition assign_val (p : loc) (v : V) (e : dictEntry) : dictEntry :=
  if bool_decide (de_ptr e = p) then mk_entry (de_ptr e) (de_key e) (Some v) else e.
Definition ht_assign_val (p : loc) (v : V) (h : dictht) : dictht :=
  mk_ht (ht_ptr h) (map (map (assign_val p v)) (ht_table h)) (ht_size h) (ht_sizemask h) (ht_used h).

Definition dictSetVal (d : dict) (p : loc) (val : V) : dict :=
  let v := match valDup with Some f => f val | None => val end in
  mk_dict (ht_assign_val p v (ht0 d)) (ht_assign_val p v (ht1 d)) (rehashidx d) (iterators d).

(** The flag is "returned DICT_OK". *)
Definition dictAdd (g : dict_globals) (d : dict) (key : K) (val : V) (p : loc) (tp : Z)
    : option (dict * bool) :=
  '(d, r) ← dictAddRaw g d key p tp;
  match r with
  | Added entry => Some (dictSetVal d entry val, true)
  | Existing _ => Some (d, false)
  end.

(** The flag is the return value 1: the key was added from scratch. *)
Definition dictReplace (g : dict_globals) (d : dict) (key : K) (val : V) (p : loc) (tp : Z)
    : option (dict * bool * list event) :=
  '(d, r) ← dictAddRaw g d key p tp;
  match r with
  | Added entry => Some (dictSetVal d entry val, true, [])
  | Existing None => None
  | Existing (Some existing) =>
    Some (dictSetVal d (de_ptr existing) val, false, dictFreeVal existing)
  end.

Definition dictAddOrFind (g : dict_globals) (d : dict) (key : K) (p : loc) (tp : Z)
    : option (dict * option loc) :=
  '(d, r) ← dictAddRaw g d key p tp;
  match r with
  | Added entry => Some (d, Some entry)
  | Existing existing => Some (d, de_ptr <$> existing)
  end.

(** The chain without its first entry with the key, and that entry. *)
Fixpoint chain_unlink (k : K) (he : list dictEntry) : option (dictEntry * list dictEntry) :=
  match he with
  | [] => None
  | e :: next =>
    if same_key k e then Some (e, next)
    else '(x, next) ← chain_unlink k next; Some (x, e :: next)
  end.

(** One table of the deletion loop: the table afterwards and the entry found. *)
Definition ht_unlink (h : dictht) (k : K) (hash : Z) : option (dictht * option dictEntry) :=
  let idx := Z.land hash (ht_sizemask h) in
  c ← get_bucket h idx;
  match chain_unlink k c with
  | Some (he, c) =>
    h ← set_bucket h idx c;
    Some (set_used h (u64 (ht_used h - 1)), Some he)
  | None => Some (h, None)
  end.

Definition free_events (he : dictEntry) : list event :=
  dictFreeKey he ++ dictFreeVal he ++ [FreeEntry (de_ptr he)].

Definition dictGenericDelete (d : dict) (key : K) (nofree : bool)
    : option (dict * option dictEntry * list event) :=
  if (ht_used (ht0 d) =? 0) && (ht_used (ht1 d) =? 0) then Some (d, None, [])
  else
    d ← rehash_step_if d;
    let h := hashFunction key in
    '(h0, r) ← ht_unlink (ht0 d) key h;
    match r with
    | Some he => Some (set_ht0 d h0, Some he, if nofree then [] else free_events he)
    | None =>
      if dictIsRehashing d then
        '(h1, r) ← ht_unlink (ht1 d) key h;
        match r with
        | Some he => Some (set_ht1 d h1, Some he, if nofree then [] else free_events he)
        | None => Some (d, None, [])
        end
      else Some (d, None, [])
    end.

(** The flag is "returned DICT_OK". *)
Definition dictDelete (d : dict) (key : K) : option (dict * bool * list event) :=
  '(d, r, ev) ← dictGenericDelete d key false;
  Some (d, match r with Some _ => true | None => false end, ev).

Definition dictUnlink (d : dict) (key : K) : option (dict * option dictEntry) :=
  '(d, r, _) ← dictGenericDelete d key true; Some (d, r).

Definition dictFreeUnlinkedEntry (he : option dictEntry) : list event :=
  match he with None => [] | Some he => free_events he end.

Definition dictFind (d : dict) (key : K) : option (dict * option dictEntry) :=
  if u64 (ht_used (ht0 d) + ht_used (ht1 d)) =? 0 then Some (d, None)
  else
    d ← rehash_step_if d;
    let h := hashFunction key in
    c ← get_bucket (ht0 d) (Z.land h (ht_sizemask (ht0 d)));
    match chain_find key c with
    | Some he => Some (d, Some he)
    | None =>
      if dictIsRehashing d then
        c ← get_bucket (ht1 d) (Z.land h (ht_sizemask (ht1 d)));
        Some (d, chain_find key c)
      else Some (d, None)
    end.

Definition dictFetchValue (d : dict) (key : K) : option (dict * option V) :=
  '(d, he) ← dictFind d key; Some (d, he ≫= de_val).

(** ** Clearing *)

(** The loop of _dictClear over the buckets from index [i]. *)
Fixpoint clear_loop (buckets : list (list dictEntry)) (used : Z) : list event :=
  match buckets with
  | [] => []
  | c :: buckets =>
    if used >? 0
    then (c ≫= free_events) ++ clear_loop buckets (u64 (used - Z.of_nat (length c)))
    else []
  end.

Definition _dictClear (h : dictht) : dictht * list event :=
  (_dictReset, clear_loop (take (Z.to_nat (ht_size h)) (ht_table h)) (ht_used h)).

Definition dictEmpty (d : dict) : dict * list event :=
  let '(h0, ev0) := _dictClear (ht0 d) in
  let '(h1, ev1) := _dictClear (ht1 d) in
  (mk_dict h0 h1 (-1) 0, ev0 ++ ev1).

Definition dictRelease (d : dict) : list event :=
  snd (_dictClear (ht0 d)) ++ snd (_dictClear (ht1 d)).

End Model.
Arguments dictEntry : clear implicits.
Arguments dictht : clear implicits.
Arguments dict : clear implicits.
Arguments event : clear implicits.
Arguments key_index : clear implicits.
Arguments add_result : clear implicits.
