(* ===== verification/DictInv.v ===== *)
(** * Hash tables: invariant and basic lemmas

    The laws a dictType has to satisfy ([DictTypeOk]), the representation
    invariant of a dictionary ([dict_wf]), lookup in a list of entries as the
    abstract specification, and the lemmas on buckets and on incremental
    rehashing that the theorems on the operations are built from. *)
From stdpp Require Import prelude list sorting.
From Stdlib Require Import ZArith Lia.
From S2P Require Import Prelude Dict.

Local Open Scope Z_scope.

(** ** Laws of the key functions *)

(** Equality of keys as the dictionary tests it. *)
Definition keq `{DictType K V} (k1 k2 : K) : bool :=
  bool_decide (k1 = k2) || dictCompareKeys k1 k2.

(** What dict.c relies on: the comparison is symmetric and transitive, equal
    keys have equal 64-bit hashes, and a duplicated key equals the original. *)
Class DictTypeOk (K V : Type) `{!DictType K V} : Prop := {
  keq_sym k1 k2 : keq k1 k2 = true -> keq k2 k1 = true;
  keq_trans k1 k2 k3 : keq k1 k2 = true -> keq k2 k3 = true -> keq k1 k3 = true;
  hash_range (k : K) : 0 <= hashFunction k < 2 ^ 64;
  hash_keq k1 k2 : keq k1 k2 = true -> hashFunction k1 = hashFunction k2;
  keyDup_keq f (k : K) : keyDup = Some f -> keq k (f k) = true;
}.

(** ** Lists of entries as maps *)

Section Entries.
Context `{DictTypeOk K V}.
Implicit Types l c : list (dictEntry K V).
Implicit Types e : dictEntry K V.

Lemma keq_refl k : keq k k = true.
Proof. unfold keq. by rewrite bool_decide_eq_true_2. Qed.

Lemma same_key_keq k e : same_key k e = keq k (de_key e).
Proof. reflexivity. Qed.

(** The first entry of a list with the key: the specification of lookup. *)
Definition lookup_entry (l : list (dictEntry K V)) (k : K) : option (dictEntry K V) :=
  head (List.filter (same_key k) l).

(** No two entries have equal keys. *)
Fixpoint uniq_keys (l : list (dictEntry K V)) : Prop :=
  match l with
  | [] => True
  | e :: l => (forall e', e' ∈ l -> keq (de_key e) (de_key e') = false) /\ uniq_keys l
  end.

Lemma keq_sym_false k1 k2 : keq k1 k2 = false -> keq k2 k1 = false.
Proof.
  intros Hf. destruct (keq k2 k1) eqn:E; [|done]. apply keq_sym in E. congruence.
Qed.

#[global] Instance uniq_keys_perm : Proper ((≡ₚ) ==> iff) uniq_keys.
Proof.
  assert (forall l l', l ≡ₚ l' -> uniq_keys l -> uniq_keys l') as Himp.
  { induction 1 as [|e l l' Hp IH|e1 e2 l|l1 l2 l3 _ IH1 _ IH2]; simpl; auto.
    - intros [He Hl]. split; [|auto]. intros e' He'. apply He. by rewrite Hp.
    - intros (H2 & H1 & Hl). split_and!; [|set_solver|done].
      intros e' [->|He']%elem_of_cons; [|auto]. apply keq_sym_false, H2. left. }
  intros l l' Hp. split; apply Himp; [done|by symmetry].
Qed.

Lemma uniq_keys_app_l l1 l2 : uniq_keys (l1 ++ l2) -> uniq_keys l1.
Proof.
  induction l1 as [|e l1 IH]; simpl; [done|]. intros [He Hl]. split; [|auto].
  intros e' He'. apply He, elem_of_app. by left.
Qed.

Lemma chain_find_lookup k l : chain_find k l = lookup_entry l k.
Proof.
  unfold lookup_entry. induction l as [|e l IH]; simpl; [done|].
  destruct (same_key k e); [done|apply IH].
Qed.

Lemma lookup_entry_Some l k e :
  uniq_keys l -> (lookup_entry l k = Some e <-> e ∈ l /\ keq k (de_key e) = true).
Proof.
  rewrite <- chain_find_lookup. induction l as [|e' l IH]; simpl; intros Hu.
  { split; [done|]. intros [Hn _]. by apply not_elem_of_nil in Hn. }
  destruct Hu as [He' Hu]. rewrite same_key_keq, elem_of_cons.
  destruct (keq k (de_key e')) eqn:E.
  - split; [intros [= ->]; auto|]. intros [[->|Hin] Hk]; [done|]. exfalso.
    specialize (He' e Hin). apply keq_sym in E. pose proof (keq_trans _ _ _ E Hk). congruence.
  - rewrite IH by done. split; [tauto|]. intros [[->|Hin] Hk]; [congruence|done].
Qed.

Lemma lookup_entry_None l k :
  lookup_entry l k = None <-> forall e, e ∈ l -> keq k (de_key e) = false.
Proof.
  rewrite <- chain_find_lookup. induction l as [|e' l IH]; simpl.
  { split; [|done]. intros _ e Hn. by apply not_elem_of_nil in Hn. }
  rewrite same_key_keq. setoid_rewrite elem_of_cons. destruct (keq k (de_key e')) eqn:E.
  - split; [done|]. intros Hall. specialize (Hall e' (or_introl eq_refl)). congruence.
  - rewrite IH. split; [intros Hall e [->|Hin]; auto|intros Hall e Hin; auto].
Qed.

(** Lookup does not depend on the order of the entries. *)
Lemma lookup_entry_perm l l' k :
  uniq_keys l -> l ≡ₚ l' -> lookup_entry l k = lookup_entry l' k.
Proof.
  intros Hu Hp. destruct (lookup_entry l' k) as [e|] eqn:E.
  - apply lookup_entry_Some; [done|]. apply lookup_entry_Some in E; [|by rewrite <- Hp].
    by rewrite Hp.
  - apply lookup_entry_None. setoid_rewrite Hp. by apply lookup_entry_None.
Qed.

Lemma uniq_keys_cons e l :
  uniq_keys l -> lookup_entry l (de_key e) = None -> uniq_keys (e :: l).
Proof. intros Hu Hn. split; [|done]. by apply lookup_entry_None. Qed.

Lemma chain_unlink_spec k l :
  match chain_unlink k l with
  | Some (e, l') => l ≡ₚ e :: l' /\ keq k (de_key e) = true /\ lookup_entry l k = Some e
  | None => lookup_entry l k = None
  end.
Proof.
  rewrite <- chain_find_lookup. induction l as [|e l IH]; simpl; [done|].
  rewrite same_key_keq. destruct (keq k (de_key e)) eqn:E; [done|].
  destruct (chain_unlink k l) as [[x l']|]; simpl; [|done].
  destruct IH as (Hp & Hk & Hl). split_and!; [|done|done]. rewrite Hp. apply Permutation_swap.
Qed.
End Entries.

(** ** Buckets *)

(** All the entries of a bucket array. *)
Abbreviation entries_of t := (mjoin t) (only parsing).

Section Buckets.
Context {A : Type}.
Implicit Types t : list (list A).

Lemma elem_of_buckets t (x : A) : x ∈ mjoin t <-> exists i c, t !! i = Some c /\ x ∈ c.
Proof.
  rewrite list_elem_of_join. split.
  - intros (c & Hx & [i Hi]%list_elem_of_lookup). eauto.
  - intros (i & c & Hi & Hx). exists c. split; [done|]. apply list_elem_of_lookup. eauto.
Qed.

Lemma buckets_insert t i c c' :
  t !! i = Some c -> c ++ mjoin (<[i := c']> t) ≡ₚ c' ++ mjoin t.
Proof.
  intros Hi. rewrite <- (take_drop_middle t i c Hi) at 2.
  rewrite (insert_take_drop t i c') by (by eapply lookup_lt_Some).
  rewrite !join_app. simpl. solve_Permutation.
Qed.

Lemma buckets_cons t i c x : t !! i = Some c -> mjoin (<[i := x :: c]> t) ≡ₚ x :: mjoin t.
Proof.
  intros Hi. apply (Permutation_app_inv_l c). rewrite (buckets_insert t i c (x :: c) Hi).
  simpl. by rewrite Permutation_middle.
Qed.

Lemma buckets_uncons t i c c' x :
  t !! i = Some c -> c ≡ₚ x :: c' -> mjoin t ≡ₚ x :: mjoin (<[i := c']> t).
Proof.
  intros Hi Hc. apply (Permutation_app_inv_l c'). rewrite <- (buckets_insert t i c c' Hi), Hc.
  simpl. by rewrite Permutation_middle.
Qed.

Lemma buckets_clear t i c : t !! i = Some c -> mjoin t ≡ₚ c ++ mjoin (<[i := []]> t).
Proof. intros Hi. by rewrite (buckets_insert t i c [] Hi). Qed.

Lemma buckets_replicate n : mjoin (replicate n ([] : list A)) = [].
Proof. by induction n. Qed.
End Buckets.

(** ** The representation invariant *)

Section Inv.
Context `{DictTypeOk K V}.
Implicit Types h : dictht K V.
Implicit Types d : dict K V.
Implicit Types e : dictEntry K V.

Definition ht_entries (h : dictht K V) : list (dictEntry K V) := mjoin (ht_table h).
Definition entries (d : dict K V) : list (dictEntry K V) :=
  ht_entries (ht0 d) ++ ht_entries (ht1 d).

(** An allocated table: a power of two of buckets, the mask selects a bucket
    index, and every entry is in the bucket its hash selects. *)
Record ht_shape (h : dictht K V) : Prop := {
  shape_ptr : ht_ptr h <> 0;
  shape_size : exists k, 2 <= k <= 60 /\ ht_size h = 2 ^ k;
  shape_len : Z.of_nat (length (ht_table h)) = ht_size h;
  shape_mask : ht_sizemask h = ht_size h - 1;
  shape_place : forall i c e, ht_table h !! i = Some c -> e ∈ c ->
    Z.land (hashFunction (de_key e)) (ht_sizemask h) = Z.of_nat i;
}.

(** ... whose counter is right. *)
Definition ht_ok (h : dictht K V) : Prop :=
  ht_shape h /\ ht_used h = Z.of_nat (length (ht_entries h)).

(** The two phases of a dictionary. *)
Definition phase_ok (d : dict K V) : Prop :=
  if rehashidx d =? -1
  then (ht_ok (ht0 d) \/ ht0 d = _dictReset) /\ ht1 d = _dictReset
  else ht_ok (ht0 d) /\ ht_ok (ht1 d) /\ 0 <= rehashidx d < ht_size (ht0 d) /\
       forall i, Z.of_nat i < rehashidx d -> ht_table (ht0 d) !! i = Some [].

Record dict_wf (d : dict K V) : Prop := {
  wf_phase : phase_ok d;
  wf_keys : uniq_keys (entries d);
  wf_ptrs : NoDup (de_ptr <$> entries d);
  wf_bound : Z.of_nat (length (entries d)) <= 2 ^ 59;
}.

(** [d'] holds the same entries as [d]. *)
Definition same_entries (d d' : dict K V) : Prop := entries d' ≡ₚ entries d.

#[global] Instance same_entries_equiv : Equivalence same_entries.
Proof.
  split; unfold same_entries.
  - intros d. done.
  - intros d d' Hd. by symmetry.
  - intros d1 d2 d3 H12 H23. by rewrite H23.
Qed.

Lemma wf_same d d' :
  dict_wf d -> same_entries d d' -> phase_ok d' -> dict_wf d'.
Proof.
  intros [_ Hk Hp Hb] Hs Hph. unfold same_entries in Hs. split; [done| | |].
  - by rewrite Hs.
  - by rewrite Hs.
  - by rewrite Hs.
Qed.

Lemma lookup_same d d' k :
  dict_wf d -> same_entries d d' -> lookup_entry (entries d') k = lookup_entry (entries d) k.
Proof. intros Hwf Hs. symmetry. apply lookup_entry_perm; [apply Hwf|by symmetry]. Qed.

(** *** Bucket access in range *)

Lemma shape_mask_mod h x : ht_shape h -> Z.land x (ht_sizemask h) = x mod ht_size h.
Proof.
  intros [_ (k & Hk & Hs) _ -> _]. rewrite Hs. rewrite <- Z.land_ones by lia.
  f_equal. by rewrite Z.ones_equiv.
Qed.

Lemma shape_size_pos h : ht_shape h -> 4 <= ht_size h <= 2 ^ 60.
Proof.
  intros [_ (k & Hk & ->) _ _ _]. split; [change 4 with (2 ^ 2)|]; apply Z.pow_le_mono_r; lia.
Qed.

Lemma bucket_of_hash h x :
  ht_shape h -> exists c, get_bucket h (Z.land x (ht_sizemask h)) = Some c /\
    ht_table h !! Z.to_nat (Z.land x (ht_sizemask h)) = Some c /\
    0 <= Z.land x (ht_sizemask h) < ht_size h.
Proof.
  intros Hh. rewrite (shape_mask_mod _ _ Hh). pose proof (shape_size_pos _ Hh).
  pose proof (Z.mod_pos_bound x (ht_size h) ltac:(lia)) as Hr.
  destruct (lookup_lt_is_Some_2 (ht_table h) (Z.to_nat (x mod ht_size h))) as [c Hc].
  { pose proof (shape_len _ Hh). lia. }
  exists c. unfold get_bucket. rewrite (proj2 (Z.leb_le 0 _)) by lia. done.
Qed.

Lemma set_bucket_eq h i c :
  ht_shape h -> 0 <= i < ht_size h ->
  set_bucket h i c = Some (mk_ht (ht_ptr h) (<[Z.to_nat i := c]> (ht_table h)) (ht_size h) (ht_sizemask h) (ht_used h)).
Proof.
  intros Hh Hi. unfold set_bucket. rewrite (shape_len _ Hh).
  rewrite (proj2 (Z.leb_le 0 i)), (proj2 (Z.ltb_lt _ _)) by lia. done.
Qed.

(** A bucket replaced by entries that belong there keeps the shape. *)
Lemma shape_insert h i c u :
  ht_shape h -> 0 <= i < ht_size h ->
  (forall e, e ∈ c -> Z.land (hashFunction (de_key e)) (ht_sizemask h) = i) ->
  ht_shape (mk_ht (ht_ptr h) (<[Z.to_nat i := c]> (ht_table h)) (ht_size h) (ht_sizemask h) u).
Proof.
  intros [Hp Hs Hl Hm Hpl] Hi Hc. split; simpl; [done|done|by rewrite length_insert|done|].
  intros j c' e Hj He. apply list_lookup_insert_Some in Hj as [(<- & <- & _)|[Hne Hj]].
  - rewrite Hc by done. lia.
  - by eapply Hpl.
Qed.

Lemma shape_set_used h u : ht_shape h -> ht_shape (set_used h u).
Proof. by intros [? ? ? ? ?]. Qed.

(** *** Lookup in the selected bucket is lookup in the table *)

Lemma bucket_lookup h k c :
  ht_shape h -> uniq_keys (ht_entries h) ->
  ht_table h !! Z.to_nat (Z.land (hashFunction k) (ht_sizemask h)) = Some c ->
  lookup_entry c k = lookup_entry (ht_entries h) k.
Proof.
  intros Hh Hu Hc.
  assert (uniq_keys c) as Huc.
  { unfold ht_entries in Hu. rewrite (buckets_clear _ _ _ Hc) in Hu. by eapply uniq_keys_app_l. }
  assert (forall e, e ∈ ht_entries h -> keq k (de_key e) = true -> e ∈ c) as Hin.
  { intros e (i & c' & Hi & He)%elem_of_buckets Hk.
    pose proof (shape_place _ Hh i c' e Hi He) as Hp.
    rewrite <- (hash_keq _ _ Hk) in Hp. rewrite Hp, Nat2Z.id in Hc. congruence. }
  assert (forall e, e ∈ c -> e ∈ ht_entries h) as Hsub
    by (intros e He; apply elem_of_buckets; eauto).
  destruct (lookup_entry (ht_entries h) k) as [e|] eqn:E.
  - apply lookup_entry_Some in E as [He Hk]; [|done]. apply lookup_entry_Some; [done|]. auto.
  - rewrite lookup_entry_None in E. apply lookup_entry_None. auto.
Qed.

Lemma lookup_entry_app (l1 l2 : list (dictEntry K V)) k :
  lookup_entry (l1 ++ l2) k
  = match lookup_entry l1 k with Some e => Some e | None => lookup_entry l2 k end.
Proof.
  rewrite <- !chain_find_lookup. induction l1 as [|e l1 IH]; simpl; [done|].
  by destruct (same_key k e).
Qed.

Lemma uniq_keys_app_r (l1 l2 : list (dictEntry K V)) : uniq_keys (l1 ++ l2) -> uniq_keys l2.
Proof. rewrite Permutation_app_comm. apply uniq_keys_app_l. Qed.

Lemma ht_entries_reset : ht_entries _dictReset = [].
Proof. reflexivity. Qed.

Lemma phase_cases d :
  phase_ok d ->
  (dictIsRehashing d = false /\ rehashidx d = -1 /\
   (ht_ok (ht0 d) \/ ht0 d = _dictReset) /\ ht1 d = _dictReset) \/
  (dictIsRehashing d = true /\ ht_ok (ht0 d) /\ ht_ok (ht1 d) /\
   0 <= rehashidx d < ht_size (ht0 d) /\
   forall i, Z.of_nat i < rehashidx d -> ht_table (ht0 d) !! i = Some []).
Proof.
  unfold phase_ok, dictIsRehashing. destruct (Z.eqb_spec (rehashidx d) (-1)); [left|right]; tauto.
Qed.

Lemma phase_rehashing d :
  dictIsRehashing d = true -> ht_ok (ht0 d) -> ht_ok (ht1 d) ->
  0 <= rehashidx d < ht_size (ht0 d) ->
  (forall i, Z.of_nat i < rehashidx d -> ht_table (ht0 d) !! i = Some []) -> phase_ok d.
Proof. unfold phase_ok, dictIsRehashing. intros ->%negb_true_iff. done. Qed.

Lemma phase_idle d :
  rehashidx d = -1 -> ht_ok (ht0 d) \/ ht0 d = _dictReset -> ht1 d = _dictReset -> phase_ok d.
Proof. unfold phase_ok. intros -> ? ?. done. Qed.

(** The used counters add up to the number of entries, without overflow. *)
Lemma used_total d :
  dict_wf d ->
  ht_used (ht0 d) = Z.of_nat (length (ht_entries (ht0 d))) /\
  ht_used (ht1 d) = Z.of_nat (length (ht_entries (ht1 d))) /\
  ht_used (ht0 d) + ht_used (ht1 d) = Z.of_nat (length (entries d)) /\
  dictSize d = Z.of_nat (length (entries d)).
Proof.
  intros Hwf. pose proof (wf_bound _ Hwf) as Hb. unfold dictSize, entries in *. rewrite length_app in *.
  assert (ht_used (ht0 d) = Z.of_nat (length (ht_entries (ht0 d))) /\
          ht_used (ht1 d) = Z.of_nat (length (ht_entries (ht1 d)))) as [H0 H1].
  { destruct (phase_cases d (wf_phase _ Hwf)) as [(_ & _ & H0 & ->)|(_ & H0 & H1 & _)].
    - split; [|done]. destruct H0 as [[_ ?]| ->]; done.
    - split; [apply H0|apply H1]. }
  rewrite H0, H1, u64_small by lia. lia.
Qed.
End Inv.
