(* ===== verification/DictRehash.v ===== *)
(** * Hash tables: incremental rehashing and resizing

    Every rehashing operation keeps the invariant and the entries, stays inside
    the bucket arrays, and makes progress, so that a bounded number of steps
    ends the rehashing; resizing picks the smallest power of two that fits. *)
From stdpp Require Import prelude list sorting.
From Stdlib Require Import ZArith Lia.
From S2P Require Import Prelude Dict DictInv.

Local Open Scope Z_scope.

Section Rehash.
Context `{DictTypeOk K V}.
Implicit Types h : dictht K V.
Implicit Types d : dict K V.
Implicit Types e : dictEntry K V.

(** Moving a chain into the second table. *)
Lemma rehash_chain_spec de d :
  ht_ok (ht1 d) ->
  Z.of_nat (length de) <= ht_used (ht0 d) < 2 ^ 60 ->
  Z.of_nat (length de) + ht_used (ht1 d) < 2 ^ 60 ->
  exists h1, rehash_chain de d =
      Some (mk_dict (set_used (ht0 d) (ht_used (ht0 d) - Z.of_nat (length de))) h1 (rehashidx d) (iterators d)) /\
    ht_ok h1 /\ ht_size h1 = ht_size (ht1 d) /\
    ht_entries h1 ≡ₚ de ++ ht_entries (ht1 d).
Proof.
  revert d. induction de as [|e de IH]; intros d Hok H0 H1.
  { exists (ht1 d). cbn [rehash_chain length app]. split_and!; [|done..]. f_equal. rewrite Z.sub_0_r.
    destruct d as [[] ? ? ?]; reflexivity. }
  destruct Hok as [Hsh Hu]. rewrite length_cons in *. cbn [rehash_chain].
  destruct (bucket_of_hash (ht1 d) (hashFunction (de_key e)) Hsh) as (c & -> & Hc & Hr).
  cbn [mbind option_bind]. rewrite (set_bucket_eq _ _ _ Hsh Hr). cbn [mbind option_bind].
  set (i := Z.land _ _) in *.
  rewrite !u64_small by (cbn [ht_used set_ht1 ht0]; lia).
  assert (mjoin (<[Z.to_nat i := e :: c]> (ht_table (ht1 d))) ≡ₚ e :: ht_entries (ht1 d)) as Hp
    by (by apply buckets_cons).
  match goal with |- context [rehash_chain de ?t] => destruct (IH t) as (h1 & -> & Hok1 & Hs1 & Hp1) end.
  - split; [|unfold ht_entries; cbn [ht_table ht_used ht1 set_ht1 set_ht0 set_used]; rewrite Hp, length_cons; lia].
    apply (shape_insert (ht1 d) i (e :: c)); [done|done|].
    intros e' [->|He']%elem_of_cons; [done|]. rewrite (shape_place _ Hsh _ _ _ Hc He'). lia.
  - simpl. lia.
  - simpl. lia.
  - exists h1. split_and!; [|done|done|].
    + f_equal. unfold set_ht0, set_ht1, set_used. simpl. do 2 f_equal. lia.
    + rewrite Hp1. unfold ht_entries at 1. simpl. rewrite Hp. solve_Permutation.
Qed.

(** Skipping empty buckets: with a non empty bucket ahead and visits left, the
    scan stays inside the table. *)
Lemma skip_empty_spec fuel d ev j c0 :
  ht_shape (ht0 d) -> 0 <= rehashidx d <= Z.of_nat j ->
  ht_table (ht0 d) !! j = Some c0 -> c0 <> [] ->
  (forall i, Z.of_nat i < rehashidx d -> ht_table (ht0 d) !! i = Some []) ->
  1 <= ev -> fuel = Z.to_nat ev ->
  exists r, rehashidx d <= r <= Z.of_nat j /\
    (forall i, Z.of_nat i < r -> ht_table (ht0 d) !! i = Some []) /\
    ((skip_empty fuel d ev = Some (inl (set_rehashidx d r)) /\ rehashidx d < r) \/
     (exists ev' c, skip_empty fuel d ev = Some (inr (set_rehashidx d r, ev', c)) /\ 1 <= ev' /\
        c <> [] /\ ht_table (ht0 d) !! Z.to_nat r = Some c)).
Proof.
  intros Hsh. revert d ev Hsh. induction fuel as [|fuel IH]; intros d ev Hsh Hr Hj Hc0 Hemp Hev Hfuel; [lia|].
  cbn [skip_empty]. unfold get_bucket. rewrite (proj2 (Z.leb_le 0 _)) by lia.
  destruct (lookup_lt_is_Some_2 (ht_table (ht0 d)) (Z.to_nat (rehashidx d))) as [c Hc];
    [apply lookup_lt_Some in Hj; lia|].
  rewrite Hc. cbn [mbind option_bind]. destruct c as [|e c].
  - assert (rehashidx d <> Z.of_nat j) as Hne
      by (intros Hn; rewrite Hn, Nat2Z.id in Hc; congruence).
    assert (forall i, Z.of_nat i < rehashidx d + 1 -> ht_table (ht0 d) !! i = Some []) as Hemp'.
    { intros i Hi. destruct (decide (Z.of_nat i = rehashidx d)) as [Hi'|]; [|apply Hemp; lia].
      rewrite <- Hi', Nat2Z.id in Hc. done. }
    destruct (Z.eqb_spec (ev - 1) 0).
    + exists (rehashidx d + 1). split_and!; [lia|lia|done|]. left. split; [done|lia].
    + destruct (IH (set_rehashidx d (rehashidx d + 1)) (ev - 1)) as (r & Hr' & Hemp'' & Hres); simpl; try done; try lia.
      simpl in Hr'. exists r. split_and!; [lia|lia|done|].
      destruct Hres as [[Hs Hlt]|Hs]; [left|right; exact Hs]. split; [exact Hs|simpl in Hlt; lia].
  - exists (rehashidx d). split_and!; [lia|lia|done|]. right. exists ev, (e :: c).
    split_and!; [by destruct d|done|done|done].
Qed.

(** A table that is not empty has a non empty bucket. *)
Lemma nonempty_bucket h : ht_entries h <> [] -> exists j c, ht_table h !! j = Some c /\ c <> [].
Proof.
  unfold ht_entries. intros Hne. destruct (mjoin (ht_table h)) as [|e l] eqn:E; [done|].
  assert (e ∈ mjoin (ht_table h)) as (i & c & Hi & He)%elem_of_buckets by (rewrite E; left).
  exists i, c. split; [done|]. intros ->. by apply not_elem_of_nil in He.
Qed.

(** What a rehashing call guarantees: same entries, still well-formed, the flag
    tells whether rehashing goes on, and when it does the table sizes are the
    same and [lo] is a lower bound of the index reached. *)
Record rehash_post (d d' : dict K V) (more : bool) (lo : Z) : Prop := {
  rp_wf : dict_wf d';
  rp_same : same_entries d d';
  rp_more : more = dictIsRehashing d';
  rp_iter : iterators d' = iterators d;
  rp_progress : more = true ->
    lo <= rehashidx d' /\ ht_size (ht0 d') = ht_size (ht0 d) /\ ht_size (ht1 d') = ht_size (ht1 d);
}.

(** The state between two iterations of the loop: the index may have reached
    the end of the old table when that table has become empty. *)
Record loop_inv (d : dict K V) : Prop := {
  li_ok0 : ht_ok (ht0 d);
  li_ok1 : ht_ok (ht1 d);
  li_idx : 0 <= rehashidx d;
  li_empty : forall i, Z.of_nat i < rehashidx d -> (i < length (ht_table (ht0 d)))%nat ->
    ht_table (ht0 d) !! i = Some [];
  li_keys : uniq_keys (entries d);
  li_ptrs : NoDup (de_ptr <$> entries d);
  li_bound : Z.of_nat (length (entries d)) <= 2 ^ 59;
}.

Lemma wf_loop_inv d : dict_wf d -> dictIsRehashing d = true -> loop_inv d.
Proof.
  intros [Hph Hk Hp Hb] Hr.
  destruct (phase_cases d Hph) as [(? & _)|(_ & H0 & H1 & Hidx & Hemp)]; [congruence|].
  split; try done; [lia|]. intros i Hi _. by apply Hemp.
Qed.

(** A bucket ahead of the index holds an entry, when the old table is not empty. *)
Lemma loop_inv_ahead d :
  loop_inv d -> ht_used (ht0 d) <> 0 ->
  exists j c, ht_table (ht0 d) !! j = Some c /\ c <> [] /\ rehashidx d <= Z.of_nat j < ht_size (ht0 d).
Proof.
  intros [[Hsh Hu] _ _ Hemp _ _ _] Hne.
  destruct (nonempty_bucket (ht0 d)) as (j & c & Hj & Hc).
  { intros He. rewrite He in Hu. done. }
  pose proof (lookup_lt_Some _ _ _ Hj) as Hjl. pose proof (shape_len _ Hsh).
  exists j, c. split_and!; [done|done| |lia].
  destruct (Z.le_gt_cases (rehashidx d) (Z.of_nat j)) as [|Hlt]; [done|].
  rewrite (Hemp j Hlt Hjl) in Hj. congruence.
Qed.

Lemma loop_inv_wf d :
  loop_inv d -> ht_used (ht0 d) <> 0 -> dict_wf d /\ dictIsRehashing d = true.
Proof.
  intros Hi Hne. destruct (loop_inv_ahead d Hi Hne) as (j & c & _ & _ & Hj).
  destruct Hi as [H0 H1 Hidx Hemp Hk Hp Hb]. pose proof (shape_len _ (proj1 H0)).
  assert (dictIsRehashing d = true) as Hr
    by (unfold dictIsRehashing; rewrite (proj2 (Z.eqb_neq _ _)) by lia; done).
  split; [|done]. split; [|done..]. apply phase_rehashing; try done; [lia|].
  intros i Hi. apply Hemp; lia.
Qed.

Lemma rehash_done_spec d :
  loop_inv d -> rehash_post d (fst (rehash_done d)) (snd (rehash_done d)) (rehashidx d).
Proof.
  intros Hi. unfold rehash_done. destruct (Z.eqb_spec (ht_used (ht0 d)) 0) as [Hz|Hz]; cbn [fst snd].
  - destruct Hi as [H0 H1 Hidx Hemp Hk Hp Hb].
    assert (ht_entries (ht0 d) = []) as He by (apply nil_length_inv; destruct H0 as [_ Hu]; lia).
    set (d' := set_rehashidx _ _).
    assert (entries d' = entries d) as Hs
      by (unfold entries; simpl; by rewrite He, ht_entries_reset, app_nil_r).
    split; [|unfold same_entries; by rewrite Hs|done|done|done].
    split; rewrite ?Hs; try done. apply phase_idle; [done|by left|done].
  - destruct (loop_inv_wf d Hi Hz) as [Hwf Hr]. by split.
Qed.

(** Moving the bucket at the rehash index. *)
Lemma move_bucket_spec d c :
  loop_inv d -> c <> [] -> rehashidx d < ht_size (ht0 d) ->
  ht_table (ht0 d) !! Z.to_nat (rehashidx d) = Some c ->
  exists d1 h0, rehash_chain c d = Some d1 /\ set_bucket (ht0 d1) (rehashidx d1) [] = Some h0 /\
    let d2 := set_rehashidx (set_ht0 d1 h0) (rehashidx d1 + 1) in
    loop_inv d2 /\ same_entries d d2 /\ rehashidx d2 = rehashidx d + 1 /\
    iterators d2 = iterators d /\
    ht_size (ht0 d2) = ht_size (ht0 d) /\ ht_size (ht1 d2) = ht_size (ht1 d).
Proof.
  intros [H0 H1 Hidx Hemp Hk Hp Hb] Hne Hlt Hc.
  pose proof (buckets_clear _ _ _ Hc) as Hclr.
  pose proof (proj2 H0) as Hu0. pose proof (proj2 H1) as Hu1.
  assert (length (ht_entries (ht0 d)) = length c + length (mjoin (<[Z.to_nat (rehashidx d) := []]> (ht_table (ht0 d)))))%nat as Hlen.
  { unfold ht_entries. by rewrite Hclr, length_app. }
  assert (length (entries d) = length (ht_entries (ht0 d)) + length (ht_entries (ht1 d)))%nat as Htot
    by apply length_app.
  destruct (rehash_chain_spec c d H1) as (h1 & Hrc & Hok1 & Hs1 & Hp1); [lia|lia|].
  eexists _, _. split; [exact Hrc|]. cbn [ht0 rehashidx].
  rewrite set_bucket_eq by (try apply shape_set_used; try apply H0; simpl; lia).
  split; [done|]. match goal with |- loop_inv ?x /\ _ => set (d2 := x) end.
  assert (entries d2 ≡ₚ entries d) as Hs.
  { unfold entries, d2. cbn [ht0 ht1 set_ht0 set_rehashidx]. unfold ht_entries at 1. cbn [ht_table].
    rewrite Hp1. unfold ht_entries at 2. rewrite Hclr. solve_Permutation. }
  split_and!; [|done|done|done|done|done].
  split; [|exact Hok1|simpl; lia| |rewrite Hs; done..].
  - split; [apply (shape_insert (ht0 d)); [apply H0|lia|]; intros e He; by apply not_elem_of_nil in He|].
    unfold ht_entries in *. simpl. lia.
  - simpl. rewrite length_insert. intros i Hi Hil. destruct (decide (i = Z.to_nat (rehashidx d))) as [->|Hni].
    + by apply list_lookup_insert_eq.
    + rewrite list_lookup_insert_ne by done. apply Hemp; lia.
Qed.

Lemma rehash_post_trans d d1 d2 more lo :
  same_entries d d1 -> iterators d1 = iterators d ->
  ht_size (ht0 d1) = ht_size (ht0 d) -> ht_size (ht1 d1) = ht_size (ht1 d) ->
  rehash_post d1 d2 more lo -> rehash_post d d2 more lo.
Proof.
  intros Hs Hi H0 H1 [Hw Hs' Hm Hi' Hp]. split; [done|by etrans|done|congruence|].
  intros Hmt. destruct (Hp Hmt) as (? & ? & ?). split_and!; [done|congruence|congruence].
Qed.

Lemma rehash_post_weaken d d' more lo lo' :
  lo' <= lo -> rehash_post d d' more lo -> rehash_post d d' more lo'.
Proof.
  intros Hle [? ? ? ? Hp]. split; [done..|]. intros Hm. destruct (Hp Hm) as (? & ? & ?).
  split_and!; [lia|done|done].
Qed.

Lemma set_rehashidx_inv d r :
  loop_inv d -> rehashidx d <= r ->
  (forall i, Z.of_nat i < r -> ht_table (ht0 d) !! i = Some []) -> loop_inv (set_rehashidx d r).
Proof.
  intros [H0 H1 Hidx Hemp Hk Hp Hb] Hr He. split; try done; simpl; [lia|]. intros i Hi _. by apply He.
Qed.

Lemma rehash_loop_spec n d ev :
  loop_inv d -> (0 < n)%nat -> 1 <= ev ->
  exists d' more, rehash_loop n d ev = Some (d', more) /\ rehash_post d d' more (rehashidx d + 1).
Proof.
  assert (forall n d ev, loop_inv d -> 1 <= ev -> exists d' more,
    rehash_loop n d ev = Some (d', more) /\
    rehash_post d d' more (if (0 <? n)%nat then rehashidx d + 1 else rehashidx d)) as Hgen.
  2: { intros Hi Hn Hev. destruct (Hgen n d ev Hi Hev) as (d' & more & ? & Hp).
       rewrite (proj2 (Nat.ltb_lt 0 n) Hn) in Hp. eauto. }
  clear n d ev. induction n as [|n IH]; intros d ev Hi Hev; cbn [rehash_loop].
  { pose proof (rehash_done_spec d Hi). destruct (rehash_done d). eauto. }
  cbn [Nat.ltb Nat.leb]. destruct (Z.eqb_spec (ht_used (ht0 d)) 0) as [Hz|Hz].
  { pose proof (rehash_done_spec d Hi) as Hp. unfold rehash_done in *. rewrite Hz in *. simpl in *.
    eexists _, _. split; [done|]. destruct Hp. by split. }
  destruct (loop_inv_ahead d Hi Hz) as (j & c0 & Hj & Hc0 & Hjr).
  pose proof (li_idx _ Hi). pose proof (li_ok0 _ Hi) as [Hsh _]. pose proof (shape_size_pos _ Hsh).
  rewrite u64_small, Z.gtb_ltb, (proj2 (Z.ltb_lt _ _)) by lia.
  destruct (skip_empty_spec (Z.to_nat ev) d ev j c0 Hsh) as (r & Hr & Hemp & Hres); try done; [lia| |].
  { intros i Hir. apply (li_empty _ Hi); [done|]. apply lookup_lt_Some in Hj. lia. }
  pose proof (set_rehashidx_inv d r Hi ltac:(lia) Hemp) as Hi'.
  destruct Hres as [[-> Hlt]|(ev' & c & -> & Hev' & Hc & Hcr)]; cbn [mbind option_bind].
  - eexists _, _. split; [done|]. destruct (loop_inv_wf _ Hi' Hz) as [Hwf Hrh].
    split; [done|apply Permutation_refl|done|done|]. intros _. simpl. split_and!; [lia|done|done].
  - destruct (move_bucket_spec (set_rehashidx d r) c Hi' Hc) as (d1 & h0 & Hrc & Hsb & Hi2 & Hs2 & Hr2 & Hit & Hz0 & Hz1);
      [simpl; lia|done|]. rewrite Hrc. cbn [mbind option_bind]. rewrite Hsb. cbn [mbind option_bind].
    destruct (IH _ ev' Hi2 Hev') as (d' & more & Hl & Hp). exists d', more. split; [exact Hl|].
    eapply rehash_post_trans; [exact Hs2|exact Hit|exact Hz0|exact Hz1|].
    eapply rehash_post_weaken; [|exact Hp]. rewrite Hr2. simpl. destruct (0 <? n)%nat; lia.
Qed.

Lemma dictRehash_spec d n :
  dict_wf d -> (0 < n)%nat ->
  exists d' more, dictRehash d n = Some (d', more) /\ rehash_post d d' more (rehashidx d + 1).
Proof.
  intros Hwf Hn. unfold dictRehash. destruct (dictIsRehashing d) eqn:Hr.
  - apply rehash_loop_spec; [by apply wf_loop_inv|done|lia].
  - exists d, false. split; [done|]. by split.
Qed.

(** The opportunistic step the other operations start with. *)
Lemma rehash_step_if_spec d :
  dict_wf d -> exists d', rehash_step_if d = Some d' /\ dict_wf d' /\ same_entries d d' /\
    iterators d' = iterators d.
Proof.
  intros Hwf. unfold rehash_step_if, _dictRehashStep.
  destruct (dictIsRehashing d); [|by exists d]. destruct (_ =? 0); [|by exists d].
  destruct (dictRehash_spec d 1 Hwf) as (d' & more & -> & [Hw Hs _ Hi _]); [lia|].
  exists d'. done.
Qed.

(** C19: one call of dictRehash(d,n) with n > 0 on any well-formed dictionary
    returns (every bucket access is in range and the assertion on the index
    holds), keeps the representation invariant and exactly the same entries, its
    return value tells whether rehashing is still in progress, and when it is, the
    table sizes are unchanged and the rehash index has advanced. *)
Theorem dictRehash_correct d n :
  dict_wf d -> (0 < n)%nat ->
  exists d' more, dictRehash d n = Some (d', more) /\
    dict_wf d' /\ entries d' ≡ₚ entries d /\ more = dictIsRehashing d' /\
    (more = true -> rehashidx d < rehashidx d' /\
       ht_size (ht0 d') = ht_size (ht0 d) /\ ht_size (ht1 d') = ht_size (ht1 d)).
Proof.
  intros Hwf Hn. destruct (dictRehash_spec d n Hwf Hn) as (d' & more & -> & [Hw Hs Hm _ Hp]).
  exists d', more. split_and!; try done. intros Hmt. destruct (Hp Hmt) as (? & ? & ?).
  split_and!; [lia|done|done].
Qed.

(** Repeated calls of dictRehash(d,1). *)
Fixpoint rehash_times (n : nat) (d : dict K V) : option (dict K V) :=
  match n with
  | O => Some d
  | S n => '(d, _) ← dictRehash d 1; rehash_times n d
  end.

Lemma rehash_times_spec n d :
  dict_wf d -> exists d', rehash_times n d = Some d' /\ dict_wf d' /\ same_entries d d' /\
    (dictIsRehashing d' = true -> dictIsRehashing d = true /\
       rehashidx d + Z.of_nat n <= rehashidx d' /\ ht_size (ht0 d') = ht_size (ht0 d)).
Proof.
  revert d. induction n as [|n IH]; intros d Hwf; cbn [rehash_times].
  { exists d. split_and!; try done. intros ?. split_and!; [done|lia|done]. }
  destruct (dictRehash_spec d 1 Hwf) as (d1 & more & Hd & [Hw Hs Hm _ Hp]); [lia|].
  rewrite Hd. cbn [mbind option_bind].
  destruct (IH d1 Hw) as (d' & Hd' & Hw' & Hs' & Hp'). exists d'. split_and!; [done|done|by etrans|].
  intros Hr. destruct (Hp' Hr) as (Hr1 & Hi1 & Hz1).
  destruct Hp as (Hi0 & Hz0 & _); [congruence|]. split_and!; [|lia|congruence].
  destruct (dictIsRehashing d) eqn:E; [done|]. unfold dictRehash in Hd. rewrite E in Hd.
  injection Hd as <- <-. congruence.
Qed.

(** C20: rehashing ends: as many single steps as the old table has buckets, in
    any state of the rehashing, complete it, with the entries unchanged. *)
Theorem dictRehash_terminates d n :
  dict_wf d -> ht_size (ht0 d) <= Z.of_nat n ->
  exists d', rehash_times n d = Some d' /\ dict_wf d' /\ entries d' ≡ₚ entries d /\
    dictIsRehashing d' = false.
Proof.
  intros Hwf Hn. destruct (rehash_times_spec n d Hwf) as (d' & Hd' & Hw' & Hs' & Hp).
  exists d'. split_and!; try done. destruct (dictIsRehashing d') eqn:E; [|done].
  destruct (Hp eq_refl) as (Hr & Hi & Hz). exfalso.
  destruct (phase_cases _ (wf_phase _ Hw')) as [(? & _)|(_ & _ & _ & Hidx & _)]; [congruence|].
  destruct (phase_cases _ (wf_phase _ Hwf)) as [(? & _)|(_ & _ & _ & Hidx0 & _)]; [congruence|]. lia.
Qed.

(** ** Resizing *)

Lemma next_power_loop_spec fuel j size :
  2 <= j <= 60 -> size <= 2 ^ 60 -> 61 - j <= Z.of_nat fuel ->
  (j = 2 \/ 2 ^ (j - 1) < size) ->
  exists k, next_power_loop fuel (2 ^ j) size = Some (2 ^ k) /\ 2 <= k <= 60 /\ size <= 2 ^ k /\
    (k = 2 \/ 2 ^ (k - 1) < size).
Proof.
  revert j. induction fuel as [|fuel IH]; intros j Hj Hs Hf Hlow; [lia|].
  cbn [next_power_loop]. rewrite Z.geb_leb. destruct (Z.leb_spec size (2 ^ j)) as [Hle|Hgt].
  - exists j. done.
  - assert (j < 60) as Hj60 by (apply (Z.pow_lt_mono_r_iff 2); lia).
    assert (2 ^ j * 2 = 2 ^ (j + 1)) as Hd by (rewrite Z.pow_add_r by lia; lia).
    assert (2 ^ (j + 1) <= 2 ^ 60) by (apply Z.pow_le_mono_r; lia).
    rewrite Hd, u64_small by (split; [apply Z.pow_nonneg|]; lia).
    apply IH; [lia|done|lia|]. right. by replace (j + 1 - 1) with j by lia.
Qed.

Lemma dictNextPower_spec size :
  size <= 2 ^ 60 ->
  exists k, _dictNextPower size = Some (2 ^ k) /\ 2 <= k <= 60 /\ size <= 2 ^ k /\
    (k = 2 \/ 2 ^ (k - 1) < size).
Proof.
  intros Hs. unfold _dictNextPower, LONG_MAX, DICT_HT_INITIAL_SIZE. rewrite Z.geb_leb.
  rewrite (proj2 (Z.leb_gt _ _)) by lia. change 4 with (2 ^ 2).
  apply next_power_loop_spec; [lia|done|lia|by left].
Qed.

(** _dictNextPower returns the smallest power of two that is at least 4 and
    at least the argument, for every argument up to 2^60; the doubling loop ends. *)
Theorem dictNextPower_correct size :
  size <= 2 ^ 60 ->
  exists k, _dictNextPower size = Some (2 ^ k) /\ size <= 2 ^ k /\ 2 <= k /\
    forall k', 2 <= k' -> size <= 2 ^ k' -> k <= k'.
Proof.
  intros Hs. destruct (dictNextPower_spec size Hs) as (k & -> & Hk & Hle & Hmin).
  exists k. split_and!; [done|done|lia|]. intros k' Hk' Hle'.
  destruct Hmin as [->|Hlt]; [lia|]. apply Z.lt_pred_le, (Z.pow_lt_mono_r_iff 2); lia.
Qed.

(** A fresh bucket array. *)
Lemma new_table_ok k tp :
  2 <= k <= 60 -> tp <> 0 ->
  ht_ok (mk_ht (K:=K) (V:=V) tp (replicate (Z.to_nat (u64 (2 ^ k * 8) / 8)) []) (2 ^ k) (u64 (2 ^ k - 1)) 0).
Proof.
  intros Hk Htp.
  assert (2 ^ 2 <= 2 ^ k) by (apply Z.pow_le_mono_r; lia).
  assert (2 ^ k <= 2 ^ 60) by (apply Z.pow_le_mono_r; lia).
  split; [|unfold ht_entries; simpl; by rewrite buckets_replicate].
  split; simpl; [done|by exists k| | |].
  - rewrite length_replicate, u64_small, Z.div_mul by lia. lia.
  - by rewrite u64_small by lia.
  - intros i c e [-> _]%lookup_replicate He. by apply not_elem_of_nil in He.
Qed.

(** The refusals of dictExpand. *)
Definition expand_refused (d : dict K V) (size k : Z) : bool :=
  dictIsRehashing d || (size <? ht_used (ht0 d)) || (2 ^ k =? ht_size (ht0 d)).

Lemma dictExpand_spec d size tp :
  dict_wf d -> tp <> 0 -> 0 <= size <= 2 ^ 60 ->
  exists k d', _dictNextPower size = Some (2 ^ k) /\ 2 <= k <= 60 /\ size <= 2 ^ k /\
    dictExpand d size tp = Some (d', negb (expand_refused d size k)) /\
    dict_wf d' /\ entries d' = entries d /\ iterators d' = iterators d /\
    (if expand_refused d size k then d' = d
     else ht_shape (ht0 d') /\ ht_size (if dictIsRehashing d' then ht1 d' else ht0 d') = 2 ^ k).
Proof.
  intros Hwf Htp Hsz. destruct (dictNextPower_spec size) as (k & Hnp & Hk & Hle & _); [lia|].
  exists k. unfold dictExpand, expand_refused. rewrite Hnp, Z.gtb_ltb.
  destruct (dictIsRehashing d) eqn:Hr; cbn [orb negb]; [by exists d|].
  destruct (size <? ht_used (ht0 d)); cbn [orb negb]; [by exists d|]. cbn [mbind option_bind].
  destruct (Z.eqb_spec (2 ^ k) (ht_size (ht0 d))) as [|Hne]; cbn [negb]; [by exists d|].
  pose proof (new_table_ok k tp Hk Htp) as Hnew. set (n := mk_ht tp _ _ _ _) in *.
  assert (ht_entries n = []) as Hn by (unfold ht_entries; simpl; by rewrite buckets_replicate).
  destruct (phase_cases d (wf_phase _ Hwf)) as [(_ & Hidx & H0 & H1)|(? & _)]; [|congruence].
  destruct (Z.eqb_spec (ht_ptr (ht0 d)) 0) as [Hp|Hp].
  - destruct H0 as [[Hsh _]|H0]; [by apply shape_ptr in Hsh|].
    assert (entries (set_ht0 d n) = entries d) as He
      by (unfold entries; simpl; by rewrite Hn, H0, H1).
    exists (set_ht0 d n). split_and!; try (done || lia); [|apply Hnew|].
    + destruct Hwf. split; rewrite ?He; try done. apply phase_idle; [done|by left|done].
    + unfold dictIsRehashing; simpl; by rewrite Hidx.
  - destruct H0 as [Hok|H0]; [|by rewrite H0 in Hp].
    pose proof (shape_size_pos _ (proj1 Hok)).
    set (d' := set_rehashidx (set_ht1 d n) 0).
    assert (entries d' = entries d) as He by (unfold entries; simpl; by rewrite Hn, H1).
    exists d'. split_and!; try (done || lia); [|apply Hok].
    destruct Hwf. split; rewrite ?He; try done.
    apply phase_rehashing; [done|done|done|simpl; lia|]. intros i Hi. simpl in Hi. lia.
Qed.

(** After the check the insertion makes, the dictionary can take one more key. *)
Lemma dictExpandIfNeeded_spec g d tp :
  dict_wf d -> tp <> 0 ->
  exists d', _dictExpandIfNeeded g d tp = Some (d', true) /\ dict_wf d' /\
    entries d' = entries d /\ iterators d' = iterators d /\ ht_shape (ht0 d').
Proof.
  intros Hwf Htp. unfold _dictExpandIfNeeded.
  destruct (used_total d Hwf) as (Hu0 & Hu1 & Htot & _). pose proof (wf_bound _ Hwf).
  destruct (phase_cases d (wf_phase _ Hwf)) as [(Hr & Hidx & Hh0 & Hh1)|(Hr & Hh0 & _)];
    rewrite Hr; [|exists d; split_and!; [done|done|done|done|apply Hh0]].
  destruct (Z.eqb_spec (ht_size (ht0 d)) 0) as [Hz|Hz].
  - destruct Hh0 as [[Hsh _]|Hh0]; [pose proof (shape_size_pos _ Hsh); lia|].
    destruct (dictExpand_spec d DICT_HT_INITIAL_SIZE tp Hwf Htp) as (k & d' & _ & Hk & _ & -> & Hw & He & Hi & Hres);
      [unfold DICT_HT_INITIAL_SIZE; lia|].
    assert (expand_refused d DICT_HT_INITIAL_SIZE k = false) as Href.
    { unfold expand_refused. rewrite Hr, Hh0. simpl. apply Z.eqb_neq. apply Z.pow_nonzero; lia. }
    rewrite Href in *. exists d'. tauto.
  - destruct Hh0 as [[Hsh Hu]|Hh0]; [|by rewrite Hh0 in Hz].
    destruct (_ && _) eqn:Hcond; [|exists d; done]. breflect. rewrite Z.geb_leb in *. breflect.
    pose proof (shape_size_pos _ Hsh).
    rewrite u64_small by lia.
    destruct (dictExpand_spec d (ht_used (ht0 d) * 2) tp Hwf Htp) as (k & d' & _ & Hk & Hle & -> & Hw & He & Hi & Hres);
      [lia|].
    assert (expand_refused d (ht_used (ht0 d) * 2) k = false) as Href.
    { unfold expand_refused. rewrite Hr, (proj2 (Z.ltb_ge _ _)) by lia. simpl. apply Z.eqb_neq. lia. }
    rewrite Href in *. exists d'. tauto.
Qed.

(** DictExpand refuses exactly when a rehashing is in progress, the size is
    below the number of stored elements, or the table already has the size; else it
    installs a table of the smallest sufficient power of two as the first table of
    an empty dictionary or as the target of a new incremental rehashing.  In every
    case the entries and the invariant are preserved. *)
Theorem dictExpand_correct d size tp :
  dict_wf d -> tp <> 0 -> 0 <= size <= 2 ^ 60 ->
  exists k d', _dictNextPower size = Some (2 ^ k) /\
    let refused := dictIsRehashing d || (size <? ht_used (ht0 d)) || (2 ^ k =? ht_size (ht0 d)) in
    dictExpand d size tp = Some (d', negb refused) /\ dict_wf d' /\ entries d' = entries d /\
    (if refused then d' = d
     else ht_size (if dictIsRehashing d' then ht1 d' else ht0 d') = 2 ^ k).
Proof.
  intros Hwf Htp Hs.
  destruct (dictExpand_spec d size tp Hwf Htp Hs) as (k & d' & Hn & _ & _ & Hd & Hw & He & _ & Hres).
  exists k, d'. unfold expand_refused in *. split_and!; try done. destruct (_ || _); [done|apply Hres].
Qed.
End Rehash.
