(* ===== verification/DictOps.v ===== *)
(** * Hash tables: the operations implement a finite map

    Lookup, insertion, replacement, deletion and clearing on a well-formed
    dictionary, in either phase of rehashing, against the specification on the
    multiset of entries. *)
From stdpp Require Import prelude list sorting.
From Stdlib Require Import ZArith Lia.
From S2P Require Import Prelude Dict DictInv DictRehash.

Local Open Scope Z_scope.

Section Ops.
Context `{DictTypeOk K V}.
Implicit Types h : dictht K V.
Implicit Types d : dict K V.
Implicit Types e : dictEntry K V.

(** ** Lookup *)

Lemma ht_uniq d : dict_wf d -> uniq_keys (ht_entries (ht0 d)) /\ uniq_keys (ht_entries (ht1 d)).
Proof.
  intros Hwf. pose proof (wf_keys _ Hwf) as Hk. unfold entries in Hk.
  split; [by eapply uniq_keys_app_l|by eapply uniq_keys_app_r].
Qed.

Lemma bucket_chain_find h k :
  ht_shape h -> uniq_keys (ht_entries h) ->
  exists c, get_bucket h (Z.land (hashFunction k) (ht_sizemask h)) = Some c /\
    chain_find k c = lookup_entry (ht_entries h) k.
Proof.
  intros Hsh Hu. destruct (bucket_of_hash h (hashFunction k) Hsh) as (c & Hg & Hc & _).
  exists c. split; [done|]. rewrite chain_find_lookup. by apply bucket_lookup.
Qed.

(** A dictionary that holds something has a first table. *)
Lemma nonempty_shape d : dict_wf d -> entries d <> [] -> ht_shape (ht0 d).
Proof.
  intros Hwf Hne. destruct (phase_cases d (wf_phase _ Hwf)) as [(_ & _ & [[Hsh _]|H0] & H1)|(_ & H0 & _)].
  - done.
  - exfalso. apply Hne. unfold entries. by rewrite H0, H1.
  - apply H0.
Qed.

Lemma find_tables_spec d k :
  dict_wf d -> ht_shape (ht0 d) ->
  exists c, get_bucket (ht0 d) (Z.land (hashFunction k) (ht_sizemask (ht0 d))) = Some c /\
    match chain_find k c with
    | Some he => lookup_entry (entries d) k = Some he
    | None => if dictIsRehashing d then
        exists c1, get_bucket (ht1 d) (Z.land (hashFunction k) (ht_sizemask (ht1 d))) = Some c1 /\
          chain_find k c1 = lookup_entry (entries d) k
      else lookup_entry (entries d) k = None
    end.
Proof.
  intros Hwf Hsh. destruct (ht_uniq d Hwf) as [Hu0 Hu1].
  destruct (bucket_chain_find (ht0 d) k Hsh Hu0) as (c & Hc & Hf). exists c. split; [done|].
  rewrite Hf. unfold entries. rewrite lookup_entry_app.
  destruct (lookup_entry (ht_entries (ht0 d)) k) as [he|]; [done|].
  destruct (phase_cases d (wf_phase _ Hwf)) as [(-> & _ & _ & ->)|(-> & _ & [Hsh1 _] & _)]; [done|].
  by apply bucket_chain_find.
Qed.

Lemma dictFind_spec d k :
  dict_wf d ->
  exists d', dictFind d k = Some (d', lookup_entry (entries d) k) /\ dict_wf d' /\ same_entries d d'.
Proof.
  intros Hwf. unfold dictFind. destruct (used_total d Hwf) as (_ & _ & Ht & Hs).
  unfold dictSize in Hs. rewrite Hs. destruct (Z.eqb_spec (Z.of_nat (length (entries d))) 0) as [Hz|Hz].
  { exists d. assert (entries d = []) as -> by (apply nil_length_inv; lia). done. }
  destruct (rehash_step_if_spec d Hwf) as (d1 & -> & Hw1 & Hs1 & _). cbn [mbind option_bind].
  assert (ht_shape (ht0 d1)) as Hsh.
  { apply nonempty_shape; [done|]. intros He. unfold same_entries in Hs1. rewrite He in Hs1.
    apply Permutation_nil in Hs1. rewrite Hs1 in Hz. done. }
  rewrite <- (lookup_same d d1 k Hwf Hs1).
  destruct (find_tables_spec d1 k Hw1 Hsh) as (c & -> & Hf). cbn [mbind option_bind].
  exists d1. destruct (chain_find k c) as [he|]; [by rewrite Hf|].
  destruct (dictIsRehashing d1); [|by rewrite Hf].
  destruct Hf as (c1 & -> & Hf). cbn [mbind option_bind]. by rewrite Hf.
Qed.

(** ** Insertion *)

Lemma dictKeyIndex_spec g d k tp :
  dict_wf d -> tp <> 0 ->
  exists d' r, _dictKeyIndex g d k (hashFunction k) tp = Some (d', r) /\
    dict_wf d' /\ entries d' = entries d /\ ht_shape (ht0 d') /\
    match r with
    | NoIndex he => is_Some he /\ lookup_entry (entries d) k = he
    | Index i => lookup_entry (entries d) k = None /\
        i = Z.land (hashFunction k) (ht_sizemask (if dictIsRehashing d' then ht1 d' else ht0 d'))
    end.
Proof.
  intros Hwf Htp. unfold _dictKeyIndex.
  destruct (dictExpandIfNeeded_spec g d tp Hwf Htp) as (d1 & -> & Hw1 & He1 & _ & Hsh).
  cbn [mbind option_bind negb]. rewrite <- He1.
  destruct (find_tables_spec d1 k Hw1 Hsh) as (c & -> & Hf). cbn [mbind option_bind].
  destruct (chain_find k c) as [he|]; [by exists d1, (NoIndex (Some he)); split_and!|].
  destruct (dictIsRehashing d1) eqn:Hr.
  - destruct Hf as (c1 & -> & Hf). cbn [mbind option_bind]. destruct (chain_find k c1) as [he|].
    + by exists d1, (NoIndex (Some he)); split_and!.
    + eexists d1, (Index _). rewrite Hr. by split_and!.
  - eexists d1, (Index _). rewrite Hr. by split_and!.
Qed.

(** Pushing a new entry on the bucket its key selects. *)
Lemma ht_push h e :
  ht_ok h -> ht_used h < 2 ^ 60 ->
  let i := Z.land (hashFunction (de_key e)) (ht_sizemask h) in
  exists c h', get_bucket h i = Some c /\ set_bucket h i (e :: c) = Some h' /\
    let h'' := set_used h' (u64 (ht_used h' + 1)) in
    ht_ok h'' /\ ht_size h'' = ht_size h /\ ht_entries h'' ≡ₚ e :: ht_entries h /\
    (forall j, ht_table h !! j = Some [] -> j <> Z.to_nat i -> ht_table h'' !! j = Some []).
Proof.
  intros [Hsh Hu] Hlt i. destruct (bucket_of_hash h (hashFunction (de_key e)) Hsh) as (c & Hg & Hc & Hr).
  fold i in Hg, Hc, Hr. exists c. eexists. split; [done|].
  rewrite (set_bucket_eq _ _ _ Hsh Hr). split; [done|]. cbn [set_used ht_used ht_table ht_size].
  assert (mjoin (<[Z.to_nat i := e :: c]> (ht_table h)) ≡ₚ e :: ht_entries h) as Hp
    by (by apply buckets_cons). split_and!.
  - split.
    + apply (shape_insert h i (e :: c)); [done|done|].
      intros e' [->|He']%elem_of_cons; [done|]. rewrite (shape_place _ Hsh _ _ _ Hc He'). lia.
    + unfold ht_entries. cbn [ht_used ht_table]. rewrite Hp, length_cons, u64_small by lia. simpl. lia.
  - done.
  - exact Hp.
  - intros j Hj Hne. by rewrite list_lookup_insert_ne.
Qed.

(** The new key hashes like the argument. *)
Definition stored_key (k : K) : K := match keyDup with Some f => f k | None => k end.

Lemma stored_key_keq k : keq k (stored_key k) = true.
Proof. unfold stored_key. destruct keyDup eqn:E; [by eapply keyDup_keq|apply keq_refl]. Qed.

Lemma stored_key_absent l k :
  lookup_entry l k = None -> lookup_entry l (stored_key k) = None.
Proof.
  rewrite !lookup_entry_None. intros Hn e He. specialize (Hn e He).
  destruct (keq (stored_key k) (de_key e)) eqn:E; [|done].
  by rewrite (keq_trans _ _ _ (stored_key_keq k) E) in Hn.
Qed.

(** A fresh entry: its address is not in use and its key is absent. *)
Lemma wf_cons d d' e :
  dict_wf d -> phase_ok d' -> entries d' ≡ₚ e :: entries d ->
  lookup_entry (entries d) (de_key e) = None -> (de_ptr e ∉ de_ptr <$> entries d) ->
  Z.of_nat (length (entries d)) < 2 ^ 59 -> dict_wf d'.
Proof.
  intros Hwf Hph He Hk Hp Hb. split; [done| | |].
  - rewrite He. apply uniq_keys_cons; [apply Hwf|done].
  - rewrite He. simpl. constructor; [done|apply Hwf].
  - rewrite He, length_cons. lia.
Qed.

Lemma dictAddRaw_spec g d k p tp :
  dict_wf d -> tp <> 0 -> (p ∉ de_ptr <$> entries d) -> Z.of_nat (length (entries d)) < 2 ^ 59 ->
  exists d' r, dictAddRaw g d k p tp = Some (d', r) /\ dict_wf d' /\
    match lookup_entry (entries d) k with
    | Some he => r = Existing (Some he) /\ same_entries d d'
    | None => r = Added p /\ entries d' ≡ₚ mk_entry p (stored_key k) None :: entries d
    end.
Proof.
  intros Hwf Htp Hp Hb. unfold dictAddRaw.
  destruct (rehash_step_if_spec d Hwf) as (d1 & -> & Hw1 & Hs1 & _). cbn [mbind option_bind].
  destruct (dictKeyIndex_spec g d1 k tp Hw1 Htp) as (d2 & r & -> & Hw2 & He2 & Hsh2 & Hr).
  cbn [mbind option_bind]. rewrite (lookup_same d d1 k Hwf Hs1) in Hr.
  destruct r as [i|he].
  2: { destruct Hr as [[he' ->] ->]. eexists _, _. split_and!; [done|done|done|].
       unfold same_entries in *. by rewrite He2. }
  destruct Hr as [Hnone Hi]. rewrite Hnone. fold (stored_key k).
  set (e := mk_entry p (stored_key k) None).
  assert (hashFunction k = hashFunction (de_key e)) as Hh by (apply hash_keq, stored_key_keq).
  unfold same_entries in Hs1. rewrite <- He2 in Hs1.
  assert (lookup_entry (entries d2) (de_key e) = None) as Habs.
  { apply stored_key_absent. rewrite <- Hnone. symmetry. apply lookup_entry_perm; [apply Hwf|by symmetry]. }
  destruct (used_total d2 Hw2) as (Hu0 & Hu1 & Htot & _). pose proof (wf_bound _ Hw2) as Hb2.
  assert (forall d3, phase_ok d3 -> entries d3 ≡ₚ e :: entries d2 -> dict_wf d3 /\ entries d3 ≡ₚ e :: entries d) as Hfin.
  { intros d3 Hph Hp3. split; [|by rewrite Hp3, Hs1].
    eapply (wf_cons d2); [done|done|done|done|by rewrite Hs1|by rewrite Hs1]. }
  destruct (phase_cases d2 (wf_phase _ Hw2)) as [(Hr & Hidx & H0 & H1)|(Hr & H0 & H1 & Hidx & Hemp)];
    rewrite Hr in *; rewrite Hh in Hi; subst i.
  - destruct H0 as [H0|H0]; [|by rewrite H0 in Hsh2; apply shape_ptr in Hsh2].
    destruct (ht_push (ht0 d2) e H0) as (c & h' & -> & Hsb & Hok & _ & Hpe & _); [lia|].
    cbn [mbind option_bind]. rewrite Hsb. cbn [mbind option_bind].
    eexists _, _. split; [done|]. match goal with |- dict_wf ?x /\ _ => destruct (Hfin x) as [Hw3 He3] end.
    + apply phase_idle; [done|by left|done].
    + unfold entries. cbn [ht0 ht1 set_ht0]. rewrite Hpe. done.
    + done.
  - destruct (ht_push (ht1 d2) e H1) as (c & h' & -> & Hsb & Hok & _ & Hpe & _); [lia|].
    cbn [mbind option_bind]. rewrite Hsb. cbn [mbind option_bind].
    eexists _, _. split; [done|]. match goal with |- dict_wf ?x /\ _ => destruct (Hfin x) as [Hw3 He3] end.
    + apply phase_rehashing; done.
    + unfold entries. cbn [ht0 ht1 set_ht1]. rewrite Hpe. solve_Permutation.
    + done.
Qed.

(** ** Assignment through an entry pointer *)

Definition stored_val (v : V) : V := match valDup with Some f => f v | None => v end.

Lemma ht_entries_assign p v h :
  ht_entries (ht_assign_val p v h) = map (assign_val p v) (ht_entries h).
Proof.
  unfold ht_entries, ht_assign_val. cbn [ht_table].
  induction (ht_table h) as [|c t IH]; [done|]. simpl. by rewrite IH, map_app.
Qed.

Lemma entries_setval d p v :
  entries (dictSetVal d p v) = map (assign_val p (stored_val v)) (entries d).
Proof. unfold entries, dictSetVal. cbn [ht0 ht1]. by rewrite !ht_entries_assign, map_app. Qed.

Lemma assign_key p v e : de_key (assign_val p v e) = de_key e.
Proof. unfold assign_val. by destruct (bool_decide _). Qed.
Lemma assign_ptr p v e : de_ptr (assign_val p v e) = de_ptr e.
Proof. unfold assign_val. by destruct (bool_decide _). Qed.

Lemma assign_others p v (l : list (dictEntry K V)) :
  (p ∉ de_ptr <$> l) -> map (assign_val p v) l = l.
Proof.
  induction l as [|e l IH]; simpl; [done|]. rewrite not_elem_of_cons. intros [Hne Hl].
  rewrite IH by done. f_equal. unfold assign_val. by rewrite bool_decide_eq_false_2.
Qed.

Lemma ht_assign_shape p v h : ht_shape h -> ht_shape (ht_assign_val p v h).
Proof.
  intros [Hp Hs Hl Hm Hpl]. split; cbn; [done|done|by rewrite length_map|done|].
  intros i c e Hi He. change (fmap (map (assign_val p v)) (ht_table h) !! i = Some c) in Hi.
  rewrite list_lookup_fmap in Hi. destruct (ht_table h !! i) as [c0|] eqn:Hc0; [|done].
  injection Hi as <-. apply list_elem_of_fmap in He as (e0 & -> & He0).
  rewrite assign_key. by eapply Hpl.
Qed.

Lemma ht_assign_ok p v h : ht_ok h -> ht_ok (ht_assign_val p v h).
Proof.
  intros [Hsh Hu]. split; [by apply ht_assign_shape|]. by rewrite ht_entries_assign, length_map.
Qed.

Lemma uniq_keys_map (f : dictEntry K V -> dictEntry K V) l :
  (forall e, de_key (f e) = de_key e) -> uniq_keys l -> uniq_keys (map f l).
Proof.
  intros Hf. induction l as [|e l IH]; simpl; [done|]. intros [He Hl]. split; [|auto].
  intros e' (e0 & -> & He0)%list_elem_of_fmap. rewrite !Hf. auto.
Qed.

Lemma setval_wf d p v : dict_wf d -> dict_wf (dictSetVal d p v).
Proof.
  intros [Hph Hk Hp Hb]. split; rewrite ?entries_setval.
  - destruct (phase_cases d Hph) as [(Hr & Hidx & H0 & H1)|(Hr & H0 & H1 & Hidx & Hemp)].
    + apply phase_idle; [done| |cbn; by rewrite H1].
      destruct H0 as [H0| H0]; [left; by apply ht_assign_ok|right; cbn; by rewrite H0].
    + apply phase_rehashing; [done|by apply ht_assign_ok|by apply ht_assign_ok|done|].
      intros i Hi. cbn. change (fmap (map (assign_val p (stored_val v))) (ht_table (ht0 d)) !! i = Some []).
      by rewrite list_lookup_fmap, (Hemp i Hi).
  - apply uniq_keys_map; [|done]. intros. apply assign_key.
  - change (map ?f ?l) with (f <$> l). rewrite <- list_fmap_compose.
    rewrite (list_fmap_ext _ de_ptr (entries d)); [done|]. intros. apply assign_ptr.
  - by rewrite length_map.
Qed.

(** Assigning through the pointer of one entry changes that entry only. *)
Lemma setval_entry d p v e rest :
  dict_wf d -> entries d ≡ₚ e :: rest -> de_ptr e = p ->
  entries (dictSetVal d p v) ≡ₚ mk_entry p (de_key e) (Some (stored_val v)) :: rest.
Proof.
  intros Hwf He <-. rewrite entries_setval, He. simpl.
  pose proof (wf_ptrs _ Hwf) as Hn. rewrite He in Hn. simpl in Hn. apply NoDup_cons in Hn as [Hn _].
  rewrite assign_others by done. unfold assign_val. by rewrite bool_decide_eq_true_2.
Qed.

Lemma dictAdd_spec g d k v p tp :
  dict_wf d -> tp <> 0 -> (p ∉ de_ptr <$> entries d) -> Z.of_nat (length (entries d)) < 2 ^ 59 ->
  exists d' ok, dictAdd g d k v p tp = Some (d', ok) /\ dict_wf d' /\
    match lookup_entry (entries d) k with
    | Some he => ok = false /\ entries d' ≡ₚ entries d
    | None => ok = true /\ entries d' ≡ₚ mk_entry p (stored_key k) (Some (stored_val v)) :: entries d
    end.
Proof.
  intros Hwf Htp Hp Hb. unfold dictAdd.
  destruct (dictAddRaw_spec g d k p tp Hwf Htp Hp Hb) as (d1 & r & -> & Hw1 & Hr).
  cbn [mbind option_bind]. destruct (lookup_entry (entries d) k) as [he|].
  - destruct Hr as [-> Hs]. by exists d1, false.
  - destruct Hr as [-> He]. eexists _, true. split; [done|]. split; [by apply setval_wf|]. split; [done|].
    rewrite (setval_entry _ _ _ _ _ Hw1 He); done.
Qed.

(** Splitting the entry that has a key from the others. *)
Lemma lookup_split l k (he : dictEntry K V) :
  lookup_entry l k = Some he -> exists rest, l ≡ₚ he :: rest.
Proof.
  intros Hl. assert (he ∈ l) as Hin.
  { rewrite <- chain_find_lookup in Hl. induction l as [|e l IH]; simpl in Hl; [done|].
    destruct (same_key k e); [simplify_eq; left|right; auto]. }
  apply list_elem_of_split in Hin as (l1 & l2 & ->). exists (l1 ++ l2). by rewrite Permutation_middle.
Qed.

Lemma dictReplace_spec g d k v p tp :
  dict_wf d -> tp <> 0 -> (p ∉ de_ptr <$> entries d) -> Z.of_nat (length (entries d)) < 2 ^ 59 ->
  exists d' added ev, dictReplace g d k v p tp = Some (d', added, ev) /\ dict_wf d' /\
    match lookup_entry (entries d) k with
    | Some he => added = false /\ ev = dictFreeVal he /\
        exists rest, entries d ≡ₚ he :: rest /\
          entries d' ≡ₚ mk_entry (de_ptr he) (de_key he) (Some (stored_val v)) :: rest
    | None => added = true /\ ev = [] /\
        entries d' ≡ₚ mk_entry p (stored_key k) (Some (stored_val v)) :: entries d
    end.
Proof.
  intros Hwf Htp Hp Hb. unfold dictReplace.
  destruct (dictAddRaw_spec g d k p tp Hwf Htp Hp Hb) as (d1 & r & -> & Hw1 & Hr).
  cbn [mbind option_bind]. destruct (lookup_entry (entries d) k) as [he|] eqn:Hl.
  - destruct Hr as [-> Hs]. eexists _, false, _. split; [done|]. split; [by apply setval_wf|].
    split_and!; [done|done|]. destruct (lookup_split _ _ _ Hl) as [rest He]. exists rest. split; [done|].
    apply setval_entry; [done| |done]. unfold same_entries in Hs. by rewrite Hs.
  - destruct Hr as [-> He]. eexists _, true, []. split; [done|]. split; [by apply setval_wf|].
    split_and!; [done|done|]. by rewrite (setval_entry _ _ _ _ _ Hw1 He).
Qed.

(** ** Deletion *)

Lemma ht_unlink_spec h k :
  ht_ok h -> uniq_keys (ht_entries h) -> ht_used h < 2 ^ 60 ->
  exists h', ht_unlink h k (hashFunction k) = Some (h', lookup_entry (ht_entries h) k) /\
    ht_ok h' /\ ht_size h' = ht_size h /\
    match lookup_entry (ht_entries h) k with
    | Some he => ht_entries h ≡ₚ he :: ht_entries h'
    | None => h' = h
    end /\
    (forall i, ht_table h !! i = Some [] -> ht_table h' !! i = Some []).
Proof.
  intros [Hsh Hu] Huk Hb. unfold ht_unlink.
  destruct (bucket_of_hash h (hashFunction k) Hsh) as (c & -> & Hc & Hr). cbn [mbind option_bind].
  rewrite <- (bucket_lookup h k c Hsh Huk Hc). pose proof (chain_unlink_spec k c) as Hcu.
  destruct (chain_unlink k c) as [[he c']|]; [|rewrite Hcu; by exists h].
  destruct Hcu as (Hp & Hk & ->). rewrite (set_bucket_eq _ _ _ Hsh Hr). cbn [mbind option_bind].
  set (i := Z.land _ _) in *. pose proof (buckets_uncons _ _ _ c' he Hc Hp) as Hj.
  assert (length (ht_entries h) = S (length (mjoin (<[Z.to_nat i := c']> (ht_table h)))))%nat as Hlen
    by (unfold ht_entries; by rewrite Hj).
  rewrite u64_small by (cbn [ht_used]; lia).
  eexists. split; [done|]. split_and!; cbn [set_used ht_size ht_table]; [split| |exact Hj|].
  - apply (shape_insert h i c'); [done|done|]. intros e' He'.
    assert (e' ∈ c) as Hin by (rewrite Hp; by right). rewrite (shape_place _ Hsh _ _ _ Hc Hin). lia.
  - unfold ht_entries in *. cbn [ht_used ht_table set_used]. lia.
  - done.
  - intros j Hjt. destruct (decide (j = Z.to_nat i)) as [->|Hne]; [|by rewrite list_lookup_insert_ne].
    exfalso. rewrite Hjt in Hc. simplify_eq. by apply Permutation_nil_cons in Hp.
Qed.

Lemma wf_uncons d d' e :
  dict_wf d -> phase_ok d' -> entries d ≡ₚ e :: entries d' -> dict_wf d'.
Proof.
  intros [_ Hk Hp Hb] Hph He. rewrite He in Hk, Hp, Hb. split; [done|apply Hk| |].
  - simpl in Hp. by apply NoDup_cons in Hp as [_ Hp].
  - rewrite length_cons in Hb. lia.
Qed.

Lemma dictGenericDelete_spec d k nofree :
  dict_wf d ->
  exists d' ev, dictGenericDelete d k nofree = Some (d', lookup_entry (entries d) k, ev) /\ dict_wf d' /\
    match lookup_entry (entries d) k with
    | Some he => entries d ≡ₚ he :: entries d' /\ ev = if nofree then [] else free_events he
    | None => entries d' ≡ₚ entries d /\ ev = []
    end.
Proof.
  intros Hwf. unfold dictGenericDelete. destruct (used_total d Hwf) as (Hu0 & Hu1 & Ht & _).
  destruct (_ && _) eqn:Hz; breflect.
  { assert (entries d = []) as He by (apply nil_length_inv; lia). exists d, [].
    rewrite He. split_and!; done. }
  destruct (rehash_step_if_spec d Hwf) as (d1 & -> & Hw1 & Hs1 & _). cbn [mbind option_bind].
  assert (ht_shape (ht0 d1)) as Hsh.
  { apply nonempty_shape; [done|]. intros He. unfold same_entries in Hs1. rewrite He in Hs1.
    apply Permutation_nil in Hs1. rewrite Hs1 in Ht. simpl in Ht. rewrite andb_false_iff in Hz.
    destruct Hz as [Hz|Hz]; breflect; lia. }
  rewrite <- (lookup_same d d1 k Hwf Hs1). unfold same_entries in Hs1.
  destruct (used_total d1 Hw1) as (Hv0 & Hv1 & Hvt & _). pose proof (wf_bound _ Hw1) as Hb1.
  destruct (ht_uniq d1 Hw1) as [Huq0 Huq1].
  assert (ht_ok (ht0 d1)) as Hok0 by (split; [done|exact Hv0]).
  destruct (ht_unlink_spec (ht0 d1) k Hok0 Huq0) as (h0 & -> & Hok0' & Hsz0 & Hm0 & Hemp0); [lia|].
  cbn [mbind option_bind].
  rewrite (lookup_entry_app (ht_entries (ht0 d1)) (ht_entries (ht1 d1)) k : lookup_entry (entries d1) k = _).
  destruct (lookup_entry (ht_entries (ht0 d1)) k) as [he|] eqn:Hl0.
  - assert (entries d1 ≡ₚ he :: entries (set_ht0 d1 h0)) as He
      by (unfold entries; cbn [ht0 ht1 set_ht0]; by rewrite Hm0).
    eexists _, _. split; [done|]. split; [|split; [by rewrite <- Hs1|done]].
    eapply wf_uncons; [exact Hw1| |exact He].
    destruct (phase_cases d1 (wf_phase _ Hw1)) as [(Hr & Hidx & _ & H1)|(Hr & H0 & H1 & Hidx & Hemp)].
    + apply phase_idle; [done|by left|done].
    + apply phase_rehashing; [done|done|done|cbn; by rewrite Hsz0|]. intros i Hi. by apply Hemp0, Hemp.
  - destruct (phase_cases d1 (wf_phase _ Hw1)) as [(Hr & Hidx & _ & H1)|(Hr & H0 & H1 & Hidx & Hemp)]; rewrite Hr.
    { rewrite H1. cbn. exists d1, []. done. }
    destruct (ht_unlink_spec (ht1 d1) k H1 Huq1) as (h1 & -> & Hok1' & Hsz1 & Hm1 & _); [lia|].
    cbn [mbind option_bind]. destruct (lookup_entry (ht_entries (ht1 d1)) k) as [he|] eqn:Hl1.
    + assert (entries d1 ≡ₚ he :: entries (set_ht1 d1 h1)) as He
        by (unfold entries; cbn [ht0 ht1 set_ht1]; rewrite Hm1; solve_Permutation).
      eexists _, _. split; [done|]. split; [|split; [by rewrite <- Hs1|done]].
      eapply wf_uncons; [exact Hw1| |exact He]. apply phase_rehashing; done.
    + exists d1, []. done.
Qed.

(** ** Clearing *)

Lemma clear_loop_spec (t : list (list (dictEntry K V))) :
  Z.of_nat (length (mjoin t)) < 2 ^ 60 ->
  clear_loop t (Z.of_nat (length (mjoin t))) = mjoin t ≫= free_events.
Proof.
  induction t as [|c t IH]; [done|]. change (mjoin (c :: t)) with (c ++ mjoin t).
  cbn [clear_loop]. rewrite length_app. intros Hb.
  rewrite Z.gtb_ltb. destruct (Z.ltb_spec 0 (Z.of_nat (length c + length (mjoin t)))) as [Hlt|Hge].
  - rewrite bind_app, u64_small by lia. f_equal.
    replace (Z.of_nat (length c + length (mjoin t)) - Z.of_nat (length c)) with (Z.of_nat (length (mjoin t))) by lia.
    apply IH. lia.
  - assert (c = []) as -> by (apply nil_length_inv; lia).
    assert (mjoin t = []) as Ht by (apply nil_length_inv; lia). simpl. by rewrite Ht.
Qed.

Lemma dictClear_spec h :
  ht_ok h \/ h = _dictReset -> Z.of_nat (length (ht_entries h)) < 2 ^ 60 ->
  _dictClear h = (_dictReset, ht_entries h ≫= free_events).
Proof.
  intros [[Hsh Hu]| ->] Hb; [|done]. unfold _dictClear. f_equal.
  rewrite take_ge by (pose proof (shape_len _ Hsh); lia). rewrite Hu. by apply clear_loop_spec.
Qed.

Lemma wf_tables d :
  dict_wf d -> (ht_ok (ht0 d) \/ ht0 d = _dictReset) /\ (ht_ok (ht1 d) \/ ht1 d = _dictReset).
Proof.
  intros Hwf. destruct (phase_cases d (wf_phase _ Hwf)) as [(_ & _ & H0 & H1)|(_ & H0 & H1 & _)]; auto.
Qed.

(** DictEmpty resets the dictionary to the state of a new one, and releases
    the key, the value and the entry of every stored element exactly once, in both
    tables. *)
Theorem dictEmpty_correct d :
  dict_wf d -> dictEmpty d = (dictCreate, entries d ≫= free_events).
Proof.
  intros Hwf. destruct (wf_tables d Hwf) as [H0 H1]. pose proof (wf_bound _ Hwf) as Hb.
  unfold entries in Hb. rewrite length_app in Hb. unfold dictEmpty.
  rewrite !dictClear_spec by (done || lia). unfold entries. by rewrite bind_app.
Qed.

(** ** Single operations *)

(** DictFind on any well-formed dictionary returns the entry with the given
    key if there is one and NULL otherwise, whichever of the two tables holds it;
    the rehashing step it may perform keeps the entries and the invariant. *)
Theorem dictFind_correct d k :
  dict_wf d ->
  exists d', dictFind d k = Some (d', lookup_entry (entries d) k) /\ dict_wf d' /\
    entries d' ≡ₚ entries d.
Proof. apply dictFind_spec. Qed.

(** DictAdd inserts exactly when no entry has an equal key: then the new
    dictionary holds one more entry, with the (duplicated) key and value at the new
    address; otherwise it returns DICT_ERR and the entries are unchanged. *)
Theorem dictAdd_correct g d k v p tp :
  dict_wf d -> tp <> 0 -> (p ∉ de_ptr <$> entries d) -> Z.of_nat (length (entries d)) < 2 ^ 59 ->
  exists d' ok, dictAdd g d k v p tp = Some (d', ok) /\ dict_wf d' /\
    match lookup_entry (entries d) k with
    | Some he => ok = false /\ entries d' ≡ₚ entries d
    | None => ok = true /\ entries d' ≡ₚ mk_entry p (stored_key k) (Some (stored_val v)) :: entries d
    end.
Proof. apply dictAdd_spec. Qed.

(** C17: dictDelete removes exactly the entry with the given key and releases its
    key, value and entry once, returning DICT_OK; when no entry has the key it
    returns DICT_ERR and releases nothing.  dictUnlink removes it without
    releasing anything and returns it, and dictFreeUnlinkedEntry then releases what
    dictDelete would have released. *)
Theorem dictDelete_correct d k :
  dict_wf d ->
  exists d', dict_wf d' /\
    match lookup_entry (entries d) k with
    | Some he => entries d ≡ₚ he :: entries d' /\
        dictDelete d k = Some (d', true, free_events he) /\
        dictUnlink d k = Some (d', Some he) /\
        dictFreeUnlinkedEntry (Some he) = free_events he
    | None => entries d' ≡ₚ entries d /\ dictDelete d k = Some (d', false, []) /\
        dictUnlink d k = Some (d', None)
    end.
Proof.
  intros Hwf. unfold dictDelete, dictUnlink.
  destruct (dictGenericDelete_spec d k false Hwf) as (d' & ev & Hd & Hw & Hm).
  destruct (dictGenericDelete_spec d k true Hwf) as (d'' & ev' & Hd' & _ & _).
  assert (d'' = d') as ->.
  { revert Hd Hd'. unfold dictGenericDelete. clear. destruct (_ && _); [by intros; simplify_eq|].
    destruct (rehash_step_if d) as [d1|]; [|done]. cbn [mbind option_bind].
    destruct (ht_unlink (ht0 d1) k _) as [[h0 [he|]]|]; [| |done]; cbn [mbind option_bind]; [by intros; simplify_eq|].
    destruct (dictIsRehashing d1); [|by intros; simplify_eq].
    destruct (ht_unlink (ht1 d1) k _) as [[h1 [he|]]|]; [| |done]; cbn [mbind option_bind]; by intros; simplify_eq. }
  exists d'. split; [done|]. rewrite Hd, Hd'. cbn [mbind option_bind].
  destruct (lookup_entry (entries d) k); destruct Hm as [He ->]; by split_and!.
Qed.

(** ** The dictionary as a finite map *)

(** The value stored under a key. *)
Definition dict_get (d : dict K V) (k : K) : option V := lookup_entry (entries d) k ≫= de_val.

Lemma lookup_entry_cons e l k :
  lookup_entry (e :: l) k = if keq k (de_key e) then Some e else lookup_entry l k.
Proof. by rewrite <- !chain_find_lookup. Qed.

Lemma keq_stored k k' : keq k' (stored_key k) = keq k' k.
Proof.
  pose proof (stored_key_keq k) as Hs. destruct (keq k' k) eqn:E; [by eapply keq_trans|].
  destruct (keq k' (stored_key k)) eqn:E'; [|done].
  rewrite (keq_trans _ _ _ E' (keq_sym _ _ Hs)) in E. done.
Qed.

(** Equal keys select the same entry. *)
Lemma keq_subst k1 k2 k3 : keq k1 k2 = true -> keq k3 k1 = keq k3 k2.
Proof.
  intros H12. destruct (keq k3 k1) eqn:E1, (keq k3 k2) eqn:E2; try done.
  - by rewrite (keq_trans _ _ _ E1 H12) in E2.
  - by rewrite (keq_trans _ _ _ E2 (keq_sym _ _ H12)) in E1.
Qed.

Lemma get_perm d l k :
  dict_wf d -> entries d ≡ₚ l -> dict_get d k = lookup_entry l k ≫= de_val.
Proof. intros Hwf Hl. unfold dict_get. by rewrite (lookup_entry_perm _ l k (wf_keys _ Hwf) Hl). Qed.

Lemma dictReplace_get g d k v p tp :
  dict_wf d -> tp <> 0 -> (p ∉ de_ptr <$> entries d) -> Z.of_nat (length (entries d)) < 2 ^ 59 ->
  exists d' added ev, dictReplace g d k v p tp = Some (d', added, ev) /\ dict_wf d' /\
    added = bool_decide (lookup_entry (entries d) k = None) /\
    (forall k', dict_get d' k' = if keq k' k then Some (stored_val v) else dict_get d k').
Proof.
  intros Hwf Htp Hp Hb.
  destruct (dictReplace_spec g d k v p tp Hwf Htp Hp Hb) as (d' & added & ev & -> & Hw & Hm).
  exists d', added, ev. split; [done|]. split; [done|].
  destruct (lookup_entry (entries d) k) as [he|] eqn:Hl.
  - destruct Hm as (-> & -> & rest & He & He'). rewrite bool_decide_eq_false_2 by done. split; [done|].
    intros k'. rewrite (get_perm d' _ k' Hw He'), (get_perm d _ k' Hwf He), !lookup_entry_cons. cbn [de_key].
    apply (lookup_entry_Some _ _ _ (wf_keys _ Hwf)) in Hl as [_ Hk].
    rewrite <- (keq_subst k (de_key he) k' Hk). by destruct (keq k' k).
  - destruct Hm as (-> & -> & He'). rewrite bool_decide_eq_true_2 by done. split; [done|].
    intros k'. rewrite (get_perm d' _ k' Hw He'), lookup_entry_cons. cbn [de_key].
    rewrite keq_stored. by destruct (keq k' k).
Qed.

(** DictReplace is the update of a finite map: afterwards the key, and every
    key equal to it, has the new value and every other key the value it had; it
    returns 1 exactly when the key was absent. *)
Theorem dictReplace_correct g d k v p tp :
  dict_wf d -> tp <> 0 -> (p ∉ de_ptr <$> entries d) -> Z.of_nat (length (entries d)) < 2 ^ 59 ->
  exists d' added ev, dictReplace g d k v p tp = Some (d', added, ev) /\ dict_wf d' /\
    added = bool_decide (lookup_entry (entries d) k = None) /\
    (forall k', dict_get d' k' = if keq k' k then Some (stored_val v) else dict_get d k').
Proof. apply dictReplace_get. Qed.
End Ops.
