(* ===== verification/DictScan.v ===== *)
(** * Hash tables: the stateless scan (dictScan of src/redis-stable/src/dict.c)

    The reverse binary cursor: its bit reversal, one step of the scan in both
    phases of rehashing, and the documented guarantee, that an element present
    from the first to the last call of a full scan is returned, whatever
    happens to the dictionary (resizes included) between the calls. *)
From stdpp Require Import prelude list sorting.
From Stdlib Require Import ZArith Lia.
From S2P Require Import Prelude Dict DictInv DictRehash DictOps.

Local Open Scope Z_scope.

(** ** Model *)

(** while ((s >>= 1) > 0) { mask ^= (mask << s); v = ((v >> s) & mask) | ((v << s) & ~mask); } *)
Fixpoint rev_loop (fuel : nat) (s mask v : Z) : Z :=
  match fuel with
  | O => v
  | S fuel =>
    let s := Z.shiftr s 1 in
    if s >? 0 then
      let mask := Z.lxor mask (u64 (Z.shiftl mask s)) in
      let v := Z.lor (Z.land (Z.shiftr v s) mask) (Z.land (u64 (Z.shiftl v s)) (u64 (Z.lnot mask))) in
      rev_loop fuel s mask v
    else v
  end.

(** The loop halves s from 64, so it runs six times. *)
Definition rev (v : Z) : Z := rev_loop 7 64 (2 ^ 64 - 1) v.

(** v |= ~m; v = rev(v); v++; v = rev(v); *)
Definition next_cursor (v m : Z) : Z := rev (u64 (rev (Z.lor v (u64 (Z.lnot m))) + 1)).

Section Model.
Context {K V : Type} `{!DictType K V}.

(** The do-while loop over the expansions of the cursor in the larger table:
    the entries passed to the callback and the cursor. *)
Fixpoint scan_expansions (fuel : nat) (t1 : dictht K V) (m0 m1 v : Z)
    : option (list (dictEntry K V) * Z) :=
  match fuel with
  | O => None
  | S fuel =>
    de ← get_bucket t1 (Z.land v m1);
    let v := next_cursor v m1 in
    if Z.land v (Z.lxor m0 m1) =? 0 then Some (de, v)
    else '(es, v) ← scan_expansions fuel t1 m0 m1 v; Some (de ++ es, v)
  end.

(** The entries the callback is called with, in order, and the new cursor. *)
Definition dictScan (d : dict K V) (v : Z) : option (list (dictEntry K V) * Z) :=
  if dictSize d =? 0 then Some ([], 0)
  else if negb (dictIsRehashing d) then
    let t0 := ht0 d in
    let m0 := ht_sizemask t0 in
    de ← get_bucket t0 (Z.land v m0);
    Some (de, next_cursor v m0)
  else
    let '(t0, t1) := if ht_size (ht0 d) >? ht_size (ht1 d) then (ht1 d, ht0 d) else (ht0 d, ht1 d) in
    let m0 := ht_sizemask t0 in
    let m1 := ht_sizemask t1 in
    de ← get_bucket t0 (Z.land v m0);
    '(es, v) ← scan_expansions (S (length (ht_table t1))) t1 m0 m1 v;
    Some (de ++ es, v).
End Model.

(** ** Bit reversal *)

(** One round of the swap, and where it takes the bit at a position from. *)
Definition rev_round (s mask v : Z) : Z :=
  Z.lor (Z.land (Z.shiftr v s) mask) (Z.land (u64 (Z.shiftl v s)) (u64 (Z.lnot mask))).
Definition round_pos (s mask i : Z) : Z := if Z.testbit mask i then i + s else i - s.

(** The six rounds with their masks. *)
Definition rounds : list (Z * Z) :=
  [(32, 0x00000000FFFFFFFF); (16, 0x0000FFFF0000FFFF); (8, 0x00FF00FF00FF00FF);
   (4, 0x0F0F0F0F0F0F0F0F); (2, 0x3333333333333333); (1, 0x5555555555555555)].

Lemma rev_rounds v : rev v = foldl (fun v '(s, m) => rev_round s m v) v rounds.
Proof. reflexivity. Qed.

Lemma testbit_u64 z i : 0 <= i < 64 -> Z.testbit (u64 z) i = Z.testbit z i.
Proof. intros Hi. unfold u64. apply Z.mod_pow2_bits_low. lia. Qed.

Lemma testbit_above v i : 0 <= v < 2 ^ 64 -> 64 <= i -> Z.testbit v i = false.
Proof. intros Hv Hi. rewrite <- (Z.mod_small v (2 ^ 64)) by done. by apply Z.mod_pow2_bits_high. Qed.

Lemma bits_range v : 0 <= v -> (forall i, 64 <= i -> Z.testbit v i = false) -> v < 2 ^ 64.
Proof.
  intros H0 Hb. destruct (Z.lt_ge_cases v (2 ^ 64)) as [|Hge]; [done|].
  assert (64 <= Z.log2 v) as Hl by (apply Z.log2_le_pow2; lia).
  pose proof (Hb (Z.log2 v) Hl) as Hc. rewrite Z.bit_log2 in Hc by lia. done.
Qed.

(** A round is sound when every position reads from a position in range. *)
Definition round_ok (sm : Z * Z) : Prop :=
  0 < fst sm < 64 /\ 0 <= snd sm < 2 ^ 64 /\
  forall i, 0 <= i < 64 -> 0 <= round_pos (fst sm) (snd sm) i < 64.

Lemma rev_round_bit s m v i :
  round_ok (s, m) -> 0 <= v < 2 ^ 64 -> 0 <= i < 64 ->
  Z.testbit (rev_round s m v) i = Z.testbit v (round_pos s m i).
Proof.
  intros (Hs & Hm & Hpos) Hv Hi. specialize (Hpos i Hi). simpl in *. unfold rev_round, round_pos in *.
  rewrite Z.lor_spec, !Z.land_spec, Z.shiftr_spec, !testbit_u64, Z.shiftl_spec, Z.lnot_spec by lia.
  destruct (Z.testbit m i); simpl; by rewrite ?andb_true_r, ?andb_false_r, ?orb_false_r.
Qed.

Lemma rev_round_range s m v : round_ok (s, m) -> 0 <= v < 2 ^ 64 -> 0 <= rev_round s m v < 2 ^ 64.
Proof.
  intros (Hs & Hm & _) Hv. simpl in *. unfold rev_round.
  assert (0 <= Z.lor (Z.land (Z.shiftr v s) m) (Z.land (u64 (Z.shiftl v s)) (u64 (Z.lnot m)))) as H0.
  { apply Z.lor_nonneg. rewrite !Z.land_nonneg, Z.shiftr_nonneg.
    pose proof (u64_range (Z.shiftl v s)). lia. }
  split; [done|]. apply bits_range; [done|]. intros i Hi.
  rewrite Z.lor_spec, !Z.land_spec, (testbit_above m), (testbit_above (u64 (Z.shiftl v s)))
    by (done || apply u64_range). by rewrite andb_false_r.
Qed.

(** Checks on the 64 positions are decided by evaluation. *)
Definition positions : list Z := map Z.of_nat (seq 0 64).

Lemma positions_spec (P : Z -> bool) i : 0 <= i < 64 -> forallb P positions = true -> P i = true.
Proof.
  intros Hi Hf. rewrite forallb_forall in Hf. apply Hf. unfold positions.
  apply in_map_iff. exists (Z.to_nat i). rewrite in_seq. lia.
Qed.

Lemma rounds_ok : Forall round_ok rounds.
Proof.
  repeat constructor; simpl; try lia;
    match goal with |- _ <= round_pos ?s ?m ?i => idtac | |- round_pos ?s ?m ?i < _ => idtac end;
    match goal with H : 0 <= ?i < 64 |- context [round_pos ?s ?m ?i] =>
      pose proof (positions_spec (fun i => (0 <=? round_pos s m i) && (round_pos s m i <? 64)) i H eq_refl) end;
    cbv beta in *; breflect; lia.
Qed.

Lemma foldl_rounds_bit rs v i :
  Forall round_ok rs -> 0 <= v < 2 ^ 64 -> 0 <= i < 64 ->
  0 <= foldl (fun v '(s, m) => rev_round s m v) v rs < 2 ^ 64 /\
  Z.testbit (foldl (fun v '(s, m) => rev_round s m v) v rs) i
  = Z.testbit v (foldr (fun '(s, m) i => round_pos s m i) i rs) /\
  0 <= foldr (fun '(s, m) i => round_pos s m i) i rs < 64.
Proof.
  intros Hrs. revert v. induction Hrs as [|[s m] rs Hr Hrs IH]; intros v Hv Hi; simpl; [done|].
  destruct (IH (rev_round s m v) (rev_round_range s m v Hr Hv) Hi) as (H1 & H2 & H3).
  split_and!; [apply H1|apply H1| |by apply Hr|by apply Hr].
  rewrite H2. by apply rev_round_bit.
Qed.

Lemma rev_range v : 0 <= v < 2 ^ 64 -> 0 <= rev v < 2 ^ 64.
Proof. intros Hv. rewrite rev_rounds. apply (foldl_rounds_bit rounds v 0 rounds_ok Hv). lia. Qed.

Lemma rev_bit v i : 0 <= v < 2 ^ 64 -> 0 <= i < 64 -> Z.testbit (rev v) i = Z.testbit v (63 - i).
Proof.
  intros Hv Hi. rewrite rev_rounds.
  destruct (foldl_rounds_bit rounds v i rounds_ok Hv Hi) as (_ & -> & _). f_equal.
  apply Z.eqb_eq, (positions_spec (fun i => foldr (fun '(s, m) i => round_pos s m i) i rounds =? 63 - i) i Hi).
  vm_compute. reflexivity.
Qed.

Lemma bits_eq64 a b :
  0 <= a < 2 ^ 64 -> 0 <= b < 2 ^ 64 ->
  (forall i, 0 <= i < 64 -> Z.testbit a i = Z.testbit b i) -> a = b.
Proof.
  intros Ha Hb Hi. apply Z.bits_inj'. intros i Hi0.
  destruct (Z.lt_ge_cases i 64); [apply Hi; lia|]. by rewrite !testbit_above.
Qed.

Lemma rev_rev v : 0 <= v < 2 ^ 64 -> rev (rev v) = v.
Proof.
  intros Hv. pose proof (rev_range v Hv) as Hr. apply bits_eq64; [by apply rev_range|done|].
  intros i Hi. rewrite !rev_bit by lia. f_equal. lia.
Qed.

(** The parallel bit swap of rev() reverses the 64 bits of its argument, and
    is its own inverse. *)
Theorem rev_correct v :
  0 <= v < 2 ^ 64 ->
  (forall i, 0 <= i < 64 -> Z.testbit (rev v) i = Z.testbit v (63 - i)) /\
  0 <= rev v < 2 ^ 64 /\ rev (rev v) = v.
Proof. intros Hv. split_and!; [intros; by apply rev_bit|apply rev_range, Hv|apply rev_range, Hv|by apply rev_rev]. Qed.

#[global] Opaque rev.

(** ** The cursor in reversed order

    A position of the scan is the reversed cursor: the elements already covered
    are those whose reversed hash is below it.  With a table of 2^k buckets one
    bucket is an interval of 2^(64-k) reversed hashes. *)

(** The end of the interval of size 2^j that contains r. *)
Definition block_end (r j : Z) : Z := (r / 2 ^ j + 1) * 2 ^ j.

Lemma block_end_gt r j : 0 <= j -> r < block_end r j.
Proof.
  intros Hj. unfold block_end. assert (0 < 2 ^ j) by (apply Z.pow_pos_nonneg; lia).
  pose proof (Z.div_mod r (2 ^ j)). pose proof (Z.mod_pos_bound r (2 ^ j)). lia.
Qed.

Lemma pow64_split j : 0 <= j <= 64 -> 2 ^ 64 = 2 ^ (64 - j) * 2 ^ j.
Proof. intros. rewrite <- Z.pow_add_r by lia. f_equal. lia. Qed.

Lemma block_end_le r j : 0 <= j <= 64 -> r < 2 ^ 64 -> block_end r j <= 2 ^ 64.
Proof.
  intros Hj Hr. unfold block_end. assert (0 < 2 ^ j) by (apply Z.pow_pos_nonneg; lia).
  rewrite (pow64_split j Hj). apply Z.mul_le_mono_nonneg_r; [lia|].
  enough (r / 2 ^ j < 2 ^ (64 - j)) by lia. apply Z.div_lt_upper_bound; [done|].
  rewrite Z.mul_comm, <- (pow64_split j Hj). done.
Qed.

Lemma lor_ones r j : 0 <= j -> Z.lor r (Z.ones j) = r / 2 ^ j * 2 ^ j + (2 ^ j - 1).
Proof.
  intros Hj. assert (0 < 2 ^ j) by (apply Z.pow_pos_nonneg; lia).
  rewrite (Z.div_mod (Z.lor r (Z.ones j)) (2 ^ j)) by lia. f_equal.
  - rewrite <- !Z.shiftr_div_pow2, Z.shiftr_lor by lia.
    replace (Z.shiftr (Z.ones j) j) with 0; [rewrite Z.lor_0_r; lia|].
    rewrite Z.shiftr_div_pow2, Z.ones_equiv by lia. symmetry. apply Z.div_small. lia.
  - rewrite <- Z.land_ones by lia. rewrite Z.land_lor_distr_l, Z.land_diag.
    replace (2 ^ j - 1) with (Z.ones j) by (rewrite Z.ones_equiv; lia).
    apply Z.bits_inj'. intros i Hi. rewrite Z.lor_spec, Z.land_spec.
    destruct (Z.testbit r i), (Z.testbit (Z.ones j) i); done.
Qed.

Lemma rev_set_high v k :
  0 <= v < 2 ^ 64 -> 0 <= k <= 64 ->
  0 <= Z.lor v (u64 (Z.lnot (2 ^ k - 1))) < 2 ^ 64 /\
  rev (Z.lor v (u64 (Z.lnot (2 ^ k - 1)))) = Z.lor (rev v) (Z.ones (64 - k)).
Proof.
  intros Hv Hk. pose proof (u64_range (Z.lnot (2 ^ k - 1))) as Hu.
  assert (0 <= Z.lor v (u64 (Z.lnot (2 ^ k - 1))) < 2 ^ 64) as Hr.
  { assert (0 <= Z.lor v (u64 (Z.lnot (2 ^ k - 1)))) by (apply Z.lor_nonneg; lia). split; [done|].
    apply bits_range; [done|]. intros i Hi. by rewrite Z.lor_spec, !testbit_above. }
  split; [done|]. pose proof (rev_range v Hv) as Hrv.
  assert (0 <= Z.lor (rev v) (Z.ones (64 - k)) < 2 ^ 64) as Hr'.
  { assert (0 <= Z.ones (64 - k)) by (rewrite Z.ones_equiv; pose proof (Z.pow_pos_nonneg 2 (64 - k)); lia).
    assert (0 <= Z.lor (rev v) (Z.ones (64 - k))) by (apply Z.lor_nonneg; lia). split; [done|].
    apply bits_range; [done|]. intros i Hi. rewrite Z.lor_spec, testbit_above, Z.ones_spec_high by lia. done. }
  apply bits_eq64; [by apply rev_range|done|]. intros i Hi.
  rewrite rev_bit, !Z.lor_spec, rev_bit, testbit_u64, Z.lnot_spec by lia. f_equal.
  replace (2 ^ k - 1) with (Z.ones k) by (rewrite Z.ones_equiv; lia).
  destruct (Z.lt_ge_cases (63 - i) k).
  - rewrite (Z.ones_spec_low k), (Z.ones_spec_high (64 - k)) by lia. done.
  - rewrite (Z.ones_spec_high k), (Z.ones_spec_low (64 - k)) by lia. done.
Qed.

(** Incrementing the reversed cursor moves to the next interval. *)
Lemma next_cursor_spec v k :
  0 <= v < 2 ^ 64 -> 0 <= k <= 64 ->
  0 <= next_cursor v (2 ^ k - 1) < 2 ^ 64 /\
  rev (next_cursor v (2 ^ k - 1)) = u64 (block_end (rev v) (64 - k)).
Proof.
  intros Hv Hk. unfold next_cursor. destruct (rev_set_high v k Hv Hk) as [Hr ->].
  rewrite lor_ones by lia.
  replace (rev v / 2 ^ (64 - k) * 2 ^ (64 - k) + (2 ^ (64 - k) - 1) + 1)
    with (block_end (rev v) (64 - k)) by (unfold block_end; lia).
  split; [apply rev_range, u64_range|apply rev_rev, u64_range].
Qed.

Lemma block_bit z i k :
  0 <= z < 2 ^ 64 -> 0 <= i < k -> k <= 64 ->
  Z.testbit z i = Z.testbit (rev z / 2 ^ (64 - k)) (k - 1 - i).
Proof.
  intros Hz Hi Hk. rewrite <- Z.shiftr_div_pow2, Z.shiftr_spec, rev_bit by lia. f_equal. lia.
Qed.

(** Reversed hashes in the same interval select the same bucket. *)
Lemma same_block_same_bucket x y k :
  0 <= x < 2 ^ 64 -> 0 <= y < 2 ^ 64 -> 0 <= k <= 64 ->
  rev x / 2 ^ (64 - k) = rev y / 2 ^ (64 - k) ->
  Z.land x (2 ^ k - 1) = Z.land y (2 ^ k - 1).
Proof.
  intros Hx Hy Hk Hd. replace (2 ^ k - 1) with (Z.ones k) by (rewrite Z.ones_equiv; lia).
  apply Z.bits_inj'. intros i Hi. rewrite !Z.land_spec.
  destruct (Z.lt_ge_cases i k); [|by rewrite Z.ones_spec_high, !andb_false_r by lia].
  f_equal. rewrite (block_bit x i k), (block_bit y i k) by lia. by rewrite Hd.
Qed.

Lemma in_block r x j :
  0 <= j -> r / 2 ^ j * 2 ^ j <= x < block_end r j -> x / 2 ^ j = r / 2 ^ j.
Proof.
  intros Hj Hx. unfold block_end in Hx. assert (0 < 2 ^ j) by (apply Z.pow_pos_nonneg; lia).
  symmetry. apply (Z.div_unique _ _ _ (x - r / 2 ^ j * 2 ^ j)); [left; lia|lia].
Qed.

Section Scan.
Context `{DictTypeOk K V}.
Implicit Types d : dict K V.
Implicit Types h : dictht K V.
Implicit Types e : dictEntry K V.

(** The place of an entry in the scan order. *)
Definition rhash (k : K) : Z := rev (hashFunction k).

Lemma rhash_range k : 0 <= rhash k < 2 ^ 64.
Proof. apply rev_range, hash_range. Qed.

Lemma shape_pow h : ht_shape h -> exists k, 2 <= k <= 60 /\ ht_size h = 2 ^ k /\ ht_sizemask h = 2 ^ k - 1.
Proof. intros [_ (k & Hk & Hs) _ Hm _]. exists k. by rewrite Hm, Hs. Qed.

(** The bucket at the cursor holds every entry of the cursor's interval. *)
Lemma bucket_block h v k :
  ht_shape h -> 0 <= v < 2 ^ 64 -> 2 <= k <= 60 -> ht_sizemask h = 2 ^ k - 1 ->
  exists c, get_bucket h (Z.land v (ht_sizemask h)) = Some c /\
    (forall e, e ∈ c -> e ∈ ht_entries h) /\
    (forall e, e ∈ ht_entries h ->
       rev v / 2 ^ (64 - k) * 2 ^ (64 - k) <= rhash (de_key e) < block_end (rev v) (64 - k) -> e ∈ c).
Proof.
  intros Hsh Hv Hk Hm. destruct (bucket_of_hash h v Hsh) as (c & Hg & Hc & _). exists c.
  split_and!; [done| |].
  - intros e He. apply elem_of_buckets. eauto.
  - intros e (i & c' & Hi & He)%elem_of_buckets Hr. apply in_block in Hr; [|lia].
    unfold rhash in Hr.
    pose proof (same_block_same_bucket _ v k (hash_range (de_key e)) Hv ltac:(lia) Hr) as Hl. clear Hr.
    rename Hl into Hr. rewrite <- Hm in Hr. pose proof (shape_place _ Hsh _ _ _ Hi He) as Hp. rewrite Hr in Hp.
    rewrite Hp, Nat2Z.id in Hc. congruence.
Qed.

(** *** The loop over the larger table *)

Lemma mod_pow2_zero_bits z j :
  0 <= j -> (z mod 2 ^ j = 0 <-> forall i, 0 <= i < j -> Z.testbit z i = false).
Proof.
  intros Hj. split.
  - intros Hz i Hi. rewrite <- (Z.mod_pow2_bits_low z j i), Hz by lia. apply Z.bits_0.
  - intros Hb. apply Z.bits_inj'. intros i Hi. rewrite Z.bits_0.
    destruct (Z.lt_ge_cases i j); [rewrite Z.mod_pow2_bits_low by lia; apply Hb; lia|].
    apply Z.mod_pow2_bits_high. lia.
Qed.

Lemma mask_diff_bit k0 k1 i :
  0 <= k0 <= k1 -> 0 <= i ->
  Z.testbit (Z.lxor (2 ^ k0 - 1) (2 ^ k1 - 1)) i = (k0 <=? i) && (i <? k1).
Proof.
  intros Hk Hi. replace (2 ^ k0 - 1) with (Z.ones k0) by (rewrite Z.ones_equiv; lia).
  replace (2 ^ k1 - 1) with (Z.ones k1) by (rewrite Z.ones_equiv; lia).
  rewrite Z.lxor_spec, !Z.testbit_ones_nonneg by lia.
  destruct (Z.ltb_spec i k0), (Z.ltb_spec i k1), (Z.leb_spec k0 i); simpl; lia || done.
Qed.

(** The loop condition tests whether the reversed cursor is at the start of an
    interval of the smaller table. *)
Lemma stop_test v k0 k1 :
  0 <= v < 2 ^ 64 -> 0 <= k0 <= k1 -> k1 <= 64 -> rev v mod 2 ^ (64 - k1) = 0 ->
  (Z.land v (Z.lxor (2 ^ k0 - 1) (2 ^ k1 - 1)) =? 0) = (rev v mod 2 ^ (64 - k0) =? 0).
Proof.
  intros Hv Hk Hk1 Hlow. rewrite mod_pow2_zero_bits in Hlow by lia.
  apply eq_iff_eq_true. rewrite !Z.eqb_eq, mod_pow2_zero_bits by lia. split.
  - intros Hz i Hi. destruct (Z.lt_ge_cases i (64 - k1)); [apply Hlow; lia|].
    rewrite rev_bit by lia. assert (Z.testbit (Z.land v (Z.lxor (2 ^ k0 - 1) (2 ^ k1 - 1))) (63 - i) = false) as Hb
      by (rewrite Hz; apply Z.bits_0).
    rewrite Z.land_spec, mask_diff_bit in Hb by lia.
    rewrite (proj2 (Z.leb_le _ _)), (proj2 (Z.ltb_lt _ _)), andb_true_r in Hb by lia. done.
  - intros Hz. apply Z.bits_inj'. intros i Hi. rewrite Z.bits_0, Z.land_spec, mask_diff_bit by lia.
    destruct (Z.leb_spec k0 i), (Z.ltb_spec i k1); simpl; rewrite ?andb_false_r; try done.
    rewrite andb_true_r. replace i with (63 - (63 - i)) by lia. rewrite <- rev_bit by lia. apply Hz. lia.
Qed.

Lemma u64_multiple z j : 0 <= j <= 64 -> z mod 2 ^ j = 0 -> u64 z mod 2 ^ j = 0.
Proof.
  intros Hj. rewrite !mod_pow2_zero_bits by lia. intros Hz i Hi. rewrite testbit_u64 by lia. by apply Hz.
Qed.

Lemma block_end_multiple r j : 0 <= j -> block_end r j mod 2 ^ j = 0.
Proof. intros. unfold block_end. apply Z.mod_mul, Z.pow_nonzero; lia. Qed.

(** Intervals of the larger table subdivide those of the smaller one. *)
Lemma block_end_nested r j1 j0 :
  0 <= j1 <= j0 -> block_end r j1 <= block_end r j0 /\
  (block_end r j1 < block_end r j0 -> block_end (block_end r j1) j0 = block_end r j0 /\
    block_end r j1 mod 2 ^ j0 <> 0).
Proof.
  intros Hj. unfold block_end.
  assert (0 < 2 ^ j1) by (apply Z.pow_pos_nonneg; lia).
  assert (0 < 2 ^ j0) by (apply Z.pow_pos_nonneg; lia).
  set (p := 2 ^ (j0 - j1)). assert (0 < p) by (apply Z.pow_pos_nonneg; lia).
  assert (2 ^ j0 = 2 ^ j1 * p) as Hp by (unfold p; rewrite <- Z.pow_add_r by lia; f_equal; lia).
  assert (r / 2 ^ j0 = r / 2 ^ j1 / p) as Hd by (rewrite Hp, Z.div_div by lia; done).
  set (q := r / 2 ^ j1) in *. pose proof (Z.div_mod q p ltac:(lia)). pose proof (Z.mod_pos_bound q p ltac:(lia)).
  rewrite Hd, Hp. split; [nia|]. intros Hlt.
  assert (q + 1 < (q / p + 1) * p) as Hlt' by nia.
  assert ((q + 1) * 2 ^ j1 / (2 ^ j1 * p) = q / p) as Hq.
  { rewrite (Z.mul_comm (q + 1)), Z.div_mul_cancel_l by lia. symmetry.
    apply (Z.div_unique _ _ _ (q mod p + 1)); lia. }
  split; [by rewrite Hq|]. intros Hm. apply Z.mod_divide in Hm; [|lia].
  destruct Hm as [c Hc]. assert (q + 1 = c * p) as Hc' by nia.
  assert (c = q / p + 1); nia.
Qed.

Lemma scan_expansions_spec fuel t1 k0 k1 v :
  ht_shape t1 -> 2 <= k0 <= k1 -> k1 <= 60 -> ht_sizemask t1 = 2 ^ k1 - 1 -> 0 <= v < 2 ^ 64 ->
  block_end (rev v) (64 - k0) - rev v / 2 ^ (64 - k1) * 2 ^ (64 - k1) <= Z.of_nat fuel * 2 ^ (64 - k1) ->
  exists es v', scan_expansions fuel t1 (2 ^ k0 - 1) (2 ^ k1 - 1) v = Some (es, v') /\
    0 <= v' < 2 ^ 64 /\ rev v' = u64 (block_end (rev v) (64 - k0)) /\
    (forall e, e ∈ es -> e ∈ ht_entries t1) /\
    (forall e, e ∈ ht_entries t1 -> rev v <= rhash (de_key e) < block_end (rev v) (64 - k0) -> e ∈ es).
Proof.
  intros Hsh Hk Hk1 Hm. revert v. induction fuel as [|fuel IH]; intros v Hv Hf.
  { pose proof (block_end_gt (rev v) (64 - k0) ltac:(lia)).
    assert (0 < 2 ^ (64 - k1)) by (apply Z.pow_pos_nonneg; lia).
    pose proof (Z.mul_div_le (rev v) (2 ^ (64 - k1)) ltac:(lia)). lia. }
  cbn [scan_expansions]. rewrite <- Hm.
  destruct (bucket_block t1 v k1 Hsh Hv ltac:(lia) Hm) as (c & -> & Hsub & Hcov). cbn [mbind option_bind].
  rewrite Hm. destruct (next_cursor_spec v k1 Hv ltac:(lia)) as [Hr1 Hrev].
  set (v1 := next_cursor v (2 ^ k1 - 1)) in *. set (r := rev v) in *.
  pose proof (rev_range v Hv : 0 <= r < 2 ^ 64) as Hr.
  destruct (block_end_nested r (64 - k1) (64 - k0) ltac:(lia)) as [Hle Hlt].
  pose proof (block_end_le r (64 - k0) ltac:(lia) ltac:(lia)) as Hb0.
  pose proof (block_end_gt r (64 - k1) ltac:(lia)) as Hgt.
  assert (0 < 2 ^ (64 - k1)) as Hpos by (apply Z.pow_pos_nonneg; lia).
  pose proof (Z.mul_div_le r (2 ^ (64 - k1)) ltac:(lia)) as Hfl.
  assert (rev v1 mod 2 ^ (64 - k1) = 0) as Hlow.
  { rewrite Hrev. apply u64_multiple; [lia|]. apply block_end_multiple. lia. }
  rewrite stop_test by (done || lia).
  destruct (Z.eq_dec (block_end r (64 - k1)) (block_end r (64 - k0))) as [Heq|Hne].
  - rewrite Hrev, Heq. rewrite (proj2 (Z.eqb_eq _ _)); cycle 1.
    { apply u64_multiple; [lia|]. apply block_end_multiple. lia. }
    exists c, v1. split_and!; try done; try apply Hr1. { by rewrite Hrev, Heq. }
    intros e He Hx. apply Hcov; [done|]. rewrite Heq. lia.
  - destruct (Hlt ltac:(lia)) as [Hsame Hnz]. rewrite Hrev.
    rewrite u64_small in Hrev |- * by lia. rewrite (proj2 (Z.eqb_neq _ _)) by done.
    destruct (IH v1 Hr1) as (es & v' & -> & Hv' & Hrv' & Hsub' & Hcov').
    { rewrite Hrev, Hsame. unfold block_end in Hf |- *. rewrite Z.div_mul by lia. lia. }
    cbn [mbind option_bind]. exists (c ++ es), v'. rewrite Hrev, Hsame in *.
    split_and!; [done|lia|lia|done| |].
    + intros e [He|He]%elem_of_app; auto.
    + intros e He Hx. apply elem_of_app.
      destruct (Z.lt_ge_cases (rhash (de_key e)) (block_end r (64 - k1))); [left; apply Hcov|right; apply Hcov']; done || lia.
Qed.

(** *** One call *)

(** A call that starts at cursor [v] covers the interval of reversed hashes from
    the reversed cursor up to [B]: every entry in it is returned, nothing that is
    not an entry is, and [B] is the next position. *)
Definition scan_step (d : dict K V) (v : Z) (es : list (dictEntry K V)) (v' B : Z) : Prop :=
  0 <= v' < 2 ^ 64 /\ rev v < B <= 2 ^ 64 /\ rev v' = u64 B /\
  (forall e, e ∈ es -> e ∈ entries d) /\
  (forall e, e ∈ entries d -> rev v <= rhash (de_key e) < B -> e ∈ es).

Lemma block_start r j : 0 <= j -> r / 2 ^ j * 2 ^ j <= r.
Proof. intros Hj. assert (0 < 2 ^ j) by (apply Z.pow_pos_nonneg; lia). pose proof (Z.mul_div_le r (2 ^ j)). lia. Qed.

(** Both tables, smaller first. *)
Lemma scan_tables_spec d t0 t1 v :
  ht_shape t0 -> ht_shape t1 -> ht_size t0 <= ht_size t1 -> 0 <= v < 2 ^ 64 ->
  (forall e, e ∈ entries d <-> e ∈ ht_entries t0 \/ e ∈ ht_entries t1) ->
  exists es v' B,
    (de ← get_bucket t0 (Z.land v (ht_sizemask t0));
     '(es, v) ← scan_expansions (S (length (ht_table t1))) t1 (ht_sizemask t0) (ht_sizemask t1) v;
     Some (de ++ es, v)) = Some (es, v') /\ scan_step d v es v' B.
Proof.
  intros Hs0 Hs1 Hsz Hv Hent.
  destruct (shape_pow t0 Hs0) as (k0 & Hk0 & Hz0 & Hm0). destruct (shape_pow t1 Hs1) as (k1 & Hk1 & Hz1 & Hm1).
  assert (k0 <= k1) as Hk by (apply (Z.pow_le_mono_r_iff 2); lia).
  destruct (bucket_block t0 v k0 Hs0 Hv Hk0 Hm0) as (c & -> & Hsub & Hcov). cbn [mbind option_bind].
  pose proof (rev_range v Hv) as Hr.
  pose proof (block_end_le (rev v) (64 - k0) ltac:(lia) ltac:(lia)) as Hle.
  pose proof (block_end_gt (rev v) (64 - k0) ltac:(lia)) as Hgt.
  pose proof (block_start (rev v) (64 - k0) ltac:(lia)) as Hst.
  assert (0 < 2 ^ (64 - k1)) as Hp by (apply Z.pow_pos_nonneg; lia).
  destruct (scan_expansions_spec (S (length (ht_table t1))) t1 k0 k1 v Hs1) as (es & v' & Hse & Hv' & Hrv & Hsub' & Hcov');
    [lia|lia|done|done| |].
  { pose proof (shape_len _ Hs1) as Hl. assert (Z.of_nat (S (length (ht_table t1))) = 2 ^ k1 + 1) as -> by lia.
    rewrite (pow64_split (64 - k1)) in Hle by lia. replace (64 - (64 - k1)) with k1 in Hle by lia.
    pose proof (Z.div_pos (rev v) (2 ^ (64 - k1)) ltac:(lia) Hp). nia. }
  rewrite Hm0, Hm1, Hse. cbn [mbind option_bind].
  exists (c ++ es), v', (block_end (rev v) (64 - k0)). split; [done|].
  split_and!; [lia|lia|lia|lia|done| |].
  - intros e [He|He]%elem_of_app; apply Hent; auto.
  - intros e [He|He]%Hent Hx; apply elem_of_app; [left; apply Hcov|right; apply Hcov']; done || lia.
Qed.

Lemma dictScan_spec d v :
  dict_wf d -> 0 <= v < 2 ^ 64 ->
  exists es v' B, dictScan d v = Some (es, v') /\ scan_step d v es v' B.
Proof.
  intros Hwf Hv. pose proof (rev_range v Hv) as Hr. unfold dictScan.
  destruct (used_total d Hwf) as (_ & _ & _ & ->).
  destruct (Z.eqb_spec (Z.of_nat (length (entries d))) 0) as [Hz|Hz].
  { exists [], 0, (2 ^ 64). split; [done|]. assert (entries d = []) as He by (apply nil_length_inv; lia).
    unfold scan_step. rewrite He. split_and!; try lia; done. }
  assert (ht_shape (ht0 d)) as Hs0 by (apply nonempty_shape; [done|]; intros He; by rewrite He in Hz).
  destruct (phase_cases d (wf_phase _ Hwf)) as [(-> & _ & _ & H1)|(-> & H0 & [Hs1 _] & _)]; cbn [negb].
  - destruct (shape_pow _ Hs0) as (k & Hk & _ & Hm).
    destruct (bucket_block _ v k Hs0 Hv Hk Hm) as (c & -> & Hsub & Hcov). cbn [mbind option_bind]. rewrite Hm.
    destruct (next_cursor_spec v k Hv ltac:(lia)) as [Hn Hrn].
    pose proof (block_start (rev v) (64 - k) ltac:(lia)).
    assert (entries d = ht_entries (ht0 d)) as He
      by (unfold entries; by rewrite H1, ht_entries_reset, app_nil_r).
    exists c, (next_cursor v (2 ^ k - 1)), (block_end (rev v) (64 - k)). split; [done|].
    unfold scan_step. rewrite He. split_and!; try done; try lia.
    + apply block_end_gt. lia.
    + apply block_end_le; lia.
    + intros e Hin Hx. apply Hcov; [done|lia].
  - rewrite Z.gtb_ltb. destruct (Z.ltb_spec (ht_size (ht1 d)) (ht_size (ht0 d))).
    + apply scan_tables_spec; [done|done|lia|done|]. intros e. unfold entries. rewrite elem_of_app. tauto.
    + apply scan_tables_spec; [done|done|lia|done|]. intros e. unfold entries. apply elem_of_app.
Qed.

(** The cursor is 0 exactly when the covered interval ends at 2^64. *)
Lemma cursor_zero d v es v' B : scan_step d v es v' B -> 0 <= rev v -> (v' = 0 <-> B = 2 ^ 64).
Proof.
  intros (Hv' & HB & Hr & _) H0. split.
  - intros ->. change (rev 0) with 0 in Hr. destruct (Z.eq_dec B (2 ^ 64)); [done|].
    rewrite u64_small in Hr by lia. lia.
  - intros ->. change (u64 (2 ^ 64)) with 0 in Hr. rewrite <- (rev_rev v' Hv'), Hr. reflexivity.
Qed.

(** ** A full scan *)

(** The calls of a scan from cursor [v] to the first returned cursor 0, each on
    the dictionary as it is at that moment, and everything returned. *)
Inductive scan_full : Z -> list (dict K V) -> list (dictEntry K V) -> Prop :=
  | scan_last v d es : dictScan d v = Some (es, 0) -> scan_full v [d] es
  | scan_more v d es v' ds es' : dictScan d v = Some (es, v') -> v' <> 0 ->
      scan_full v' ds es' -> scan_full v (d :: ds) (es ++ es').

Lemma scan_full_covers v ds es k :
  scan_full v ds es -> Forall dict_wf ds -> 0 <= v < 2 ^ 64 -> rev v <= rhash k ->
  (forall d, d ∈ ds -> exists e, e ∈ entries d /\ keq k (de_key e) = true) ->
  exists e, e ∈ es /\ keq k (de_key e) = true.
Proof.
  assert (forall e, keq k (de_key e) = true -> rhash (de_key e) = rhash k) as Hrk
    by (intros e He; unfold rhash; by rewrite (hash_keq _ _ He)).
  induction 1 as [v d es Hs|v d es v' ds es' Hs Hne Hfull IH]; intros Hwf Hv Hk Hin.
  - apply Forall_cons in Hwf as [Hwf _]. destruct (dictScan_spec d v Hwf Hv) as (es0 & v0 & B & Hs' & Hst).
    rewrite Hs in Hs'. simplify_eq. pose proof (rev_range v Hv).
    pose proof (proj1 (cursor_zero _ _ _ _ _ Hst ltac:(lia)) eq_refl) as Hz.
    destruct (Hin d ltac:(left)) as (e & He & Hke). exists e. split; [|done].
    destruct Hst as (_ & _ & _ & _ & Hcov). apply Hcov; [done|]. rewrite Hrk by done.
    pose proof (rhash_range k). lia.
  - apply Forall_cons in Hwf as [Hwf Hwfs]. destruct (dictScan_spec d v Hwf Hv) as (es0 & v0 & B & Hs' & Hst).
    rewrite Hs in Hs'. simplify_eq. pose proof (rev_range v Hv) as Hr.
    pose proof (cursor_zero _ _ _ _ _ Hst ltac:(lia)) as Hz.
    destruct Hst as (Hv0 & HB & Hrv & _ & Hcov).
    destruct (Z.lt_ge_cases (rhash k) B) as [Hlt|Hge].
    + destruct (Hin d ltac:(left)) as (e & He & Hke). exists e. split; [|done].
      apply elem_of_app. left. apply Hcov; [done|]. rewrite Hrk by done. lia.
    + destruct IH as (e & He & Hke); [done|done| | |].
      * rewrite Hrv, u64_small; [done|]. pose proof (rhash_range k). lia.
      * intros d' Hd'. apply Hin. by right.
      * exists e. split; [|done]. apply elem_of_app. by right.
Qed.

(** C1: the guarantee of SCAN: whatever happens to the dictionary between the
    calls (insertions, deletions, growing, shrinking, rehashing steps), a key that
    is in the dictionary at every call of a full scan, started at cursor 0 and
    ended by the first returned cursor 0, is among the returned elements. *)
Theorem dictScan_guarantee ds es k :
  scan_full 0 ds es -> Forall dict_wf ds ->
  (forall d, d ∈ ds -> exists e, e ∈ entries d /\ keq k (de_key e) = true) ->
  exists e, e ∈ es /\ keq k (de_key e) = true.
Proof.
  intros Hf Hwf Hin. eapply (scan_full_covers 0 ds es k Hf Hwf); [lia| |done].
  change (rev 0) with 0. apply rhash_range.
Qed.

(** Scanning a dictionary that does not change. *)
Lemma scan_ends d v :
  dict_wf d -> 0 <= v < 2 ^ 64 -> exists n es, scan_full v (replicate n d) es /\ (n <> 0)%nat /\
    (forall e, e ∈ es -> e ∈ entries d).
Proof.
  intros Hwf. remember (Z.to_nat (2 ^ 64 - rev v)) as m eqn:Hm. revert v Hm.
  induction (lt_wf m) as [m _ IH]. intros v -> Hv. pose proof (rev_range v Hv) as Hr.
  destruct (dictScan_spec d v Hwf Hv) as (es & v' & B & Hs & Hst).
  pose proof (cursor_zero _ _ _ _ _ Hst ltac:(lia)) as Hz. destruct Hst as (Hv' & HB & Hrv & Hsub & _).
  destruct (Z.eq_dec v' 0) as [->|Hne].
  - exists 1%nat, es. split_and!; [by apply scan_last|done|done].
  - assert (B <> 2 ^ 64) by tauto. rewrite u64_small in Hrv by lia.
    destruct (IH (Z.to_nat (2 ^ 64 - rev v')) ltac:(lia) v' eq_refl Hv') as (n & es' & Hf & _ & Hsub').
    exists (S n), (es ++ es'). split_and!; [by eapply scan_more|done|].
    intros e [He|He]%elem_of_app; auto.
Qed.

(** C38: a full scan of a dictionary that is not modified ends, after a number of
    calls each of which succeeds, and returns all the elements and nothing else. *)
Theorem dictScan_complete d :
  dict_wf d ->
  exists n es, scan_full 0 (replicate n d) es /\ (n <> 0)%nat /\
    forall e, e ∈ entries d <-> e ∈ es.
Proof.
  intros Hwf. destruct (scan_ends d 0 Hwf ltac:(lia)) as (n & es & Hf & Hn & Hsub).
  exists n, es. split_and!; [done|done|]. intros e. split; [|apply Hsub]. intros He.
  destruct (scan_full_covers 0 (replicate n d) es (de_key e) Hf) as (e' & He' & Hk).
  - by apply Forall_replicate.
  - lia.
  - change (rev 0) with 0. apply rhash_range.
  - intros d' Hd'. apply elem_of_replicate in Hd' as [-> _]. exists e. split; [done|apply keq_refl].
  - assert (lookup_entry (entries d) (de_key e) = Some e) as H1
      by (apply lookup_entry_Some; [apply Hwf|]; split; [done|apply keq_refl]).
    assert (lookup_entry (entries d) (de_key e) = Some e') as H2
      by (apply lookup_entry_Some; [apply Hwf|]; split; [by apply Hsub|done]).
    congruence.
Qed.
End Scan.
