(* ===== verification/DictWitness.v ===== *)
(** * Hash tables: concrete instances

    A dictionary with integer keys and values, small enough to evaluate: five
    insertions fill the first table of four buckets and start the rehashing to a
    table of eight.  The theorems on dictionaries are applied to it. *)
From stdpp Require Import prelude list sorting.
From Stdlib Require Import ZArith Lia.
From S2P Require Import Prelude Dict DictInv DictRehash DictOps DictScan.

Local Open Scope Z_scope.

(** Keys are integers; the comparison function ignores the sign. *)
#[local] Instance absType : DictType Z Z := {|
  hashFunction k := u64 (Z.abs k);
  keyDup := None; valDup := None;
  keyCompare := Some (fun a b => Z.abs a =? Z.abs b);
  keyDestructor := true; valDestructor := true;
|}.

Lemma abs_keq k1 k2 : keq k1 k2 = true <-> Z.abs k1 = Z.abs k2.
Proof.
  unfold keq, dictCompareKeys. simpl. rewrite orb_true_iff, bool_decide_eq_true, Z.eqb_eq.
  split; [intros [->|]; done|auto].
Qed.

#[local] Instance absTypeOk : DictTypeOk Z Z.
Proof.
  split.
  - intros k1 k2. rewrite !abs_keq. lia.
  - intros k1 k2 k3. rewrite !abs_keq. lia.
  - intros k. apply u64_range.
  - intros k1 k2. rewrite abs_keq. simpl. by intros ->.
  - done.
Qed.

Definition ex_globals : dict_globals := mk_globals true 5.

Lemma create_wf : dict_wf dictCreate.
Proof. split; [by apply phase_idle; [|right|]|done|constructor|simpl; lia]. Qed.

(** The dictionary after [n] insertions of the keys 1, -2, 3, -4, ... *)
Fixpoint ex_fill (n : nat) : option (dict Z Z) :=
  match n with
  | O => Some dictCreate
  | S n => d ← ex_fill n;
      fst <$> dictAdd ex_globals d ((-1) ^ Z.of_nat n * Z.of_nat (S n)) (Z.of_nat n * 10)
        (Pos.of_succ_nat n) (Z.of_nat (n + 4096))
  end.

Definition ex_dict : dict Z Z := default dictCreate (ex_fill 5).

Lemma ex_fill_wf n d :
  (n < 100)%nat -> ex_fill n = Some d ->
  dict_wf d /\ (length (entries d) <= n)%nat /\ Forall (fun p => (Pos.to_nat p <= n)%nat) (de_ptr <$> entries d).
Proof.
  revert d. induction n as [|n IH]; intros d Hn Hd; cbn [ex_fill] in Hd.
  { simplify_eq. split_and!; [apply create_wf|done|constructor]. }
  destruct (ex_fill n) as [d0|]; [|done]. cbn [mbind option_bind] in Hd.
  destruct (IH d0 ltac:(lia) eq_refl) as (Hw & Hl & Hp).
  destruct (dictAdd_spec ex_globals d0 ((-1) ^ Z.of_nat n * Z.of_nat (S n)) (Z.of_nat n * 10)
    (Pos.of_succ_nat n) (Z.of_nat (n + 4096)) Hw) as (d' & ok & Hadd & Hw' & Hm).
  - lia.
  - intros Hin. rewrite Forall_forall in Hp. specialize (Hp _ Hin). lia.
  - lia.
  - rewrite Hadd in Hd. simpl in Hd. simplify_eq.
    destruct (lookup_entry (entries d0) _); destruct Hm as [_ He]; rewrite !He.
    + split_and!; [done|lia|]. eapply Forall_impl; [exact Hp|]. simpl. lia.
    + cbn [length fmap list_fmap]. split_and!; [done|lia|]. constructor; [simpl; lia|].
      eapply Forall_impl; [exact Hp|]. simpl. lia.
Qed.

Lemma ex_dict_fill : ex_fill 5 = Some ex_dict.
Proof. vm_compute. reflexivity. Qed.

Lemma ex_dict_wf : dict_wf ex_dict.
Proof. apply (ex_fill_wf 5 ex_dict); [lia|apply ex_dict_fill]. Qed.

(** It is in the middle of a rehashing, with five entries in two tables. *)
Example ex_dict_rehashing :
  dictIsRehashing ex_dict = true /\ length (entries ex_dict) = 5%nat /\
  map length (ht_table (ht0 ex_dict)) = [1; 1; 1; 1]%nat /\ ht_size (ht1 ex_dict) = 8.
Proof. vm_compute. done. Qed.

(** ** Instances of the theorems *)

Lemma dictRehash_correct_witness :
  exists d' more, dictRehash ex_dict 1 = Some (d', more) /\
    dict_wf d' /\ entries d' ≡ₚ entries ex_dict /\ more = dictIsRehashing d' /\
    (more = true -> rehashidx ex_dict < rehashidx d' /\
       ht_size (ht0 d') = ht_size (ht0 ex_dict) /\ ht_size (ht1 d') = ht_size (ht1 ex_dict)).
Proof. apply (dictRehash_correct ex_dict 1 ex_dict_wf). lia. Defined.

Lemma dictRehash_terminates_witness :
  exists d', rehash_times 4 ex_dict = Some d' /\ dict_wf d' /\ entries d' ≡ₚ entries ex_dict /\
    dictIsRehashing d' = false.
Proof. apply (dictRehash_terminates ex_dict 4 ex_dict_wf). vm_compute. discriminate. Defined.

Lemma dictNextPower_correct_witness :
  exists k, _dictNextPower 5 = Some (2 ^ k) /\ 5 <= 2 ^ k /\ 2 <= k /\
    forall k', 2 <= k' -> 5 <= 2 ^ k' -> k <= k'.
Proof. apply (dictNextPower_correct 5). lia. Defined.

Lemma dictExpand_correct_witness :
  exists k d', _dictNextPower 5 = Some (2 ^ k) /\
    let refused := dictIsRehashing (dictCreate (K:=Z) (V:=Z)) || (5 <? ht_used (ht0 (dictCreate (K:=Z) (V:=Z))))
                   || (2 ^ k =? ht_size (ht0 (dictCreate (K:=Z) (V:=Z)))) in
    dictExpand dictCreate 5 4096 = Some (d', negb refused) /\ dict_wf d' /\ entries d' = entries dictCreate /\
    (if refused then d' = dictCreate
     else ht_size (if dictIsRehashing d' then ht1 d' else ht0 d') = 2 ^ k).
Proof. apply (dictExpand_correct dictCreate 5 4096 create_wf); lia. Defined.

Lemma dictEmpty_correct_witness :
  dictEmpty ex_dict = (dictCreate, entries ex_dict ≫= free_events).
Proof. apply (dictEmpty_correct ex_dict ex_dict_wf). Defined.

Lemma dictFind_correct_witness :
  exists d', dictFind ex_dict 4 = Some (d', lookup_entry (entries ex_dict) 4) /\ dict_wf d' /\
    entries d' ≡ₚ entries ex_dict.
Proof. apply (dictFind_correct ex_dict 4 ex_dict_wf). Defined.

(** The key 4 is found under the equal key -4. *)
Example ex_find : snd <$> dictFind ex_dict 4 = Some (Some (mk_entry 4 (-4) (Some 30))).
Proof. vm_compute. reflexivity. Qed.

Lemma ex_fresh : (9%positive ∉ de_ptr <$> entries ex_dict).
Proof.
  apply (bool_decide_eq_false (9%positive ∈ de_ptr <$> entries ex_dict)). vm_compute. reflexivity.
Qed.

Lemma dictAdd_correct_witness :
  exists d' ok, dictAdd ex_globals ex_dict 6 60 9 8192 = Some (d', ok) /\ dict_wf d' /\
    match lookup_entry (entries ex_dict) 6 with
    | Some he => ok = false /\ entries d' ≡ₚ entries ex_dict
    | None => ok = true /\ entries d' ≡ₚ mk_entry 9 (stored_key 6) (Some (stored_val 60)) :: entries ex_dict
    end.
Proof.
  apply (dictAdd_correct ex_globals ex_dict 6 60 9 8192 ex_dict_wf); [lia|exact ex_fresh|vm_compute; reflexivity].
Defined.

Lemma dictReplace_correct_witness :
  exists d' added ev, dictReplace ex_globals ex_dict (-3) 77 9 8192 = Some (d', added, ev) /\ dict_wf d' /\
    added = bool_decide (lookup_entry (entries ex_dict) (-3) = None) /\
    (forall k', dict_get d' k' = if keq k' (-3) then Some (stored_val 77) else dict_get ex_dict k').
Proof.
  apply (dictReplace_correct ex_globals ex_dict (-3) 77 9 8192 ex_dict_wf);
    [lia|exact ex_fresh|vm_compute; reflexivity].
Defined.

Lemma dictDelete_correct_witness :
  exists d', dict_wf d' /\
    match lookup_entry (entries ex_dict) 2 with
    | Some he => entries ex_dict ≡ₚ he :: entries d' /\
        dictDelete ex_dict 2 = Some (d', true, free_events he) /\
        dictUnlink ex_dict 2 = Some (d', Some he) /\
        dictFreeUnlinkedEntry (Some he) = free_events he
    | None => entries d' ≡ₚ entries ex_dict /\ dictDelete ex_dict 2 = Some (d', false, []) /\
        dictUnlink ex_dict 2 = Some (d', None)
    end.
Proof. apply (dictDelete_correct ex_dict 2 ex_dict_wf). Defined.

Lemma rev_correct_witness :
  (forall i, 0 <= i < 64 -> Z.testbit (rev 5) i = Z.testbit 5 (63 - i)) /\
  0 <= rev 5 < 2 ^ 64 /\ rev (rev 5) = 5.
Proof. apply (rev_correct 5). lia. Defined.

(** *** Scanning while the dictionary is rehashed *)

(** The same entries, one rehashing step later. *)
Definition ex_dict2 : dict Z Z := default dictCreate (fst <$> dictRehash ex_dict 1).

Lemma ex_dict2_wf : dict_wf ex_dict2.
Proof.
  destruct (dictRehash_spec ex_dict 1 ex_dict_wf) as (d' & more & Hd & [Hw _ _ _ _]); [lia|].
  unfold ex_dict2. by rewrite Hd.
Qed.

(** What one call returns, and a scan whose third call sees [ex_dict2]. *)
Definition ex_emit (d : dict Z Z) (v : Z) : list (dictEntry Z Z) := default [] (fst <$> dictScan d v).
Definition ex_emitted : list (dictEntry Z Z) :=
  ex_emit ex_dict 0 ++ ex_emit ex_dict 2 ++ ex_emit ex_dict2 1 ++ ex_emit ex_dict2 3.

Lemma ex_scan : scan_full 0 [ex_dict; ex_dict; ex_dict2; ex_dict2] ex_emitted.
Proof.
  unfold ex_emitted. eapply (scan_more _ _ _ 2); [vm_compute; reflexivity|done|].
  eapply (scan_more _ _ _ 1); [vm_compute; reflexivity|done|].
  eapply (scan_more _ _ _ 3); [vm_compute; reflexivity|done|].
  apply scan_last. vm_compute. reflexivity.
Qed.

Lemma ex_dict_has_1 : mk_entry 1 1 (Some 0) ∈ entries ex_dict /\ mk_entry 1 1 (Some 0) ∈ entries ex_dict2.
Proof.
  split.
  - apply list_elem_of_lookup. exists 1%nat. vm_compute. reflexivity.
  - apply list_elem_of_lookup. exists 0%nat. vm_compute. reflexivity.
Qed.

Lemma dictScan_guarantee_witness : exists e, e ∈ ex_emitted /\ keq 1 (de_key e) = true.
Proof.
  destruct ex_dict_has_1 as [H1 H2].
  apply (dictScan_guarantee [ex_dict; ex_dict; ex_dict2; ex_dict2] ex_emitted 1 ex_scan).
  - exact (Forall_cons_2 _ _ _ ex_dict_wf (Forall_cons_2 _ _ _ ex_dict_wf
      (Forall_cons_2 _ _ _ ex_dict2_wf (Forall_cons_2 _ _ _ ex_dict2_wf (Forall_nil_2 _))))).
  - intros d Hd. exists (mk_entry 1 1 (Some 0)). split; [|reflexivity].
    repeat (apply elem_of_cons in Hd as [->|Hd]; [assumption|]). by apply not_elem_of_nil in Hd.
Defined.

Lemma dictScan_complete_witness :
  exists n es, scan_full 0 (replicate n ex_dict) es /\ (n <> 0)%nat /\
    forall e, e ∈ entries ex_dict <-> e ∈ es.
Proof. apply (dictScan_complete ex_dict ex_dict_wf). Defined.
