(* ===== verification/Double.v ===== *)
(** * Double precision numbers and string comparison

    The scores of sorted sets are C doubles.  They are the binary floating point
    data of the Standard Library ([spec_float]: signed zeros, infinities, finite
    numbers, NaN) and the C comparison operators are IEEE 754 comparison; on
    numbers other than NaN these are shown to be a total preorder.  Also here:
    sdscmp() (src/redis-stable/src/sds.c), the order of byte strings, and the
    order of (score, element) pairs the skip list is sorted by. *)
From stdpp Require Import prelude list.
From Stdlib Require Import ZArith Lia SpecFloat.
From S2P Require Import Prelude.

Local Open Scope Z_scope.

Definition double := spec_float.

Definition isnan (d : double) : bool := match d with S754_nan => true | _ => false end.

(** The operators <, ==, <=, >, >= *)
Definition dlt (a b : double) : bool := SFltb a b.
Definition deq (a b : double) : bool := SFeqb a b.
Definition dle (a b : double) : bool := SFleb a b.
Definition dgt (a b : double) : bool := dlt b a.
Definition dge (a b : double) : bool := dle b a.

(** Comparison is lexicographic on the class of the number (negative infinity,
    negative, zero, positive, infinity), the exponent and the mantissa. *)
Definition dkey (d : double) : Z * Z * Z :=
  match d with
  | S754_zero _ => (0, 0, 0)
  | S754_infinity s => (if s then -2 else 2, 0, 0)
  | S754_finite s m e => if s then (-1, - e, - Z.pos m) else (1, e, Z.pos m)
  | S754_nan => (3, 0, 0)
  end.

Definition klt3 (a b : Z * Z * Z) : Prop :=
  a.1.1 < b.1.1 \/ (a.1.1 = b.1.1 /\ (a.1.2 < b.1.2 \/ (a.1.2 = b.1.2 /\ a.2 < b.2))).

Lemma dcompare a b : isnan a = false -> isnan b = false ->
  match SFcompare a b with
  | Some Lt => klt3 (dkey a) (dkey b)
  | Some Eq => dkey a = dkey b
  | Some Gt => klt3 (dkey b) (dkey a)
  | None => False
  end.
Proof.
  unfold klt3. intros Ha Hb.
  destruct a as [sa|sa| |sa ma ea], b as [sb|sb| |sb mb eb]; try done;
    try destruct sa; try destruct sb; cbn; try done; try lia.
  all: destruct (Z.compare_spec ea eb) as [->|He|He]; cbn; try lia.
  all: change (Pos.compare_cont Eq ma mb) with (Pos.compare ma mb); destruct (Pos.compare_spec ma mb) as [->|Hm|Hm]; cbn;
    try done; lia.
Qed.

Lemma dlt_iff a b : isnan a = false -> isnan b = false -> dlt a b = true <-> klt3 (dkey a) (dkey b).
Proof.
  intros Ha Hb. pose proof (dcompare a b Ha Hb) as Hc. unfold dlt, SFltb, klt3 in *.
  destruct (SFcompare a b) as [[]|]; try done; split; try done; [rewrite Hc; lia|lia].
Qed.

Lemma deq_iff a b : isnan a = false -> isnan b = false -> deq a b = true <-> dkey a = dkey b.
Proof.
  intros Ha Hb. pose proof (dcompare a b Ha Hb) as Hc. unfold deq, SFeqb, klt3 in *.
  destruct (SFcompare a b) as [[]|]; try done; split; try done; intros He; rewrite He in Hc; lia.
Qed.

Lemma dle_iff a b : isnan a = false -> isnan b = false -> dle a b = true <-> klt3 (dkey a) (dkey b) \/ dkey a = dkey b.
Proof.
  intros Ha Hb. pose proof (dcompare a b Ha Hb) as Hc. unfold dle, SFleb, klt3 in *.
  destruct (SFcompare a b) as [[]|]; try done; split; try done; try tauto; intros [He|He]; [lia|rewrite He in Hc; lia].
Qed.

Lemma dkey_eq a b : dkey a = dkey b <-> (dkey a).1.1 = (dkey b).1.1 /\ (dkey a).1.2 = (dkey b).1.2 /\ (dkey a).2 = (dkey b).2.
Proof. destruct (dkey a) as [[??]?], (dkey b) as [[??]?]. cbn. split; [by intros [= -> -> ->]|by intros (-> & -> & ->)]. Qed.

(** ** sdscmp *)

(** A string of bytes. *)
Abbreviation sds := (list Z).

(** memcmp(): the sign of the result is the order of the first bytes that
    differ. *)
Fixpoint memcmp (s1 s2 : list Z) (n : nat) : Z :=
  match n, s1, s2 with
  | S n, x :: s1, y :: s2 => if x =? y then memcmp s1 s2 n else x - y
  | _, _, _ => 0
  end.

Definition sdscmp (s1 s2 : sds) : Z :=
  let l1 := length s1 in
  let l2 := length s2 in
  let minlen := if (l1 <? l2)%nat then l1 else l2 in
  let cmp := memcmp s1 s2 minlen in
  if cmp =? 0 then (if (l2 <? l1)%nat then 1 else if (l1 <? l2)%nat then -1 else 0) else cmp.

Lemma sdscmp_cons x y a b : sdscmp (x :: a) (y :: b) = if x =? y then sdscmp a b else x - y.
Proof.
  unfold sdscmp. cbn [length]. change (S (length a) <? S (length b))%nat with (length a <? length b)%nat.
  change (S (length b) <? S (length a))%nat with (length b <? length a)%nat.
  destruct (Nat.ltb_spec (length a) (length b)); cbn [memcmp];
    (destruct (Z.eqb_spec x y); [done|]; destruct (Z.eqb_spec (x - y) 0); [lia|done]).
Qed.

Lemma sdscmp_eq a b : sdscmp a b = 0 <-> a = b.
Proof.
  revert b. induction a as [|x a IH]; intros [|y b]; try done. rewrite sdscmp_cons.
  destruct (Z.eqb_spec x y) as [->|]; [rewrite IH; split; congruence|]. split; [lia|congruence].
Qed.

Lemma sdscmp_opp a b : sdscmp a b < 0 <-> sdscmp b a > 0.
Proof.
  revert b. induction a as [|x a IH]; intros [|y b]; try done. rewrite !sdscmp_cons, (Z.eqb_sym y x).
  destruct (x =? y); [apply IH|lia].
Qed.

Lemma sdscmp_trans a b c : sdscmp a b < 0 -> sdscmp b c < 0 -> sdscmp a c < 0.
Proof.
  revert b c. induction a as [|x a IH]; intros [|y b] [|z c]; try done. rewrite !sdscmp_cons.
  destruct (Z.eqb_spec x y), (Z.eqb_spec y z), (Z.eqb_spec x z); try lia. apply IH.
Qed.

Lemma sdscmp_total a b : sdscmp a b < 0 \/ a = b \/ sdscmp b a < 0.
Proof. rewrite <- sdscmp_eq. pose proof (sdscmp_opp b a). lia. Qed.

(** ** Keys of a sorted set *)

(** The test "comes before" of the skip list. *)
Definition key_lt (s1 : double) (e1 : sds) (s2 : double) (e2 : sds) : bool :=
  dlt s1 s2 || (deq s1 s2 && (sdscmp e1 e2 <? 0)).

Definition klex (s1 : double) (e1 : sds) (s2 : double) (e2 : sds) : Prop :=
  klt3 (dkey s1) (dkey s2) \/ (dkey s1 = dkey s2 /\ sdscmp e1 e2 < 0).

Lemma key_lt_iff s1 e1 s2 e2 : isnan s1 = false -> isnan s2 = false -> key_lt s1 e1 s2 e2 = true <-> klex s1 e1 s2 e2.
Proof.
  intros H1 H2. unfold key_lt, klex. by rewrite orb_true_iff, andb_true_iff, dlt_iff, deq_iff, Z.ltb_lt.
Qed.

Lemma klt3_trans a b c : klt3 a b -> klt3 b c -> klt3 a c.
Proof. unfold klt3. lia. Qed.

Lemma klt3_irrefl a : ~ klt3 a a.
Proof. unfold klt3. lia. Qed.

Lemma klt3_total a b : klt3 a b \/ a = b \/ klt3 b a.
Proof.
  destruct a as [[a1 a2] a3], b as [[b1 b2] b3]. unfold klt3. cbn.
  destruct (decide (a1 = b1 /\ a2 = b2 /\ a3 = b3)) as [(-> & -> & ->)|Hn]; [by right; left|]. lia.
Qed.

Lemma klex_trans s1 e1 s2 e2 s3 e3 : klex s1 e1 s2 e2 -> klex s2 e2 s3 e3 -> klex s1 e1 s3 e3.
Proof.
  unfold klex. intros [H1|[H1 L1]] [H2|[H2 L2]].
  - left. by eapply klt3_trans.
  - left. by rewrite <- H2.
  - left. by rewrite H1.
  - right. split; [congruence|]. by eapply sdscmp_trans.
Qed.

Lemma klex_irrefl s e : ~ klex s e s e.
Proof.
  unfold klex. intros [H|[_ H]]; [by apply klt3_irrefl in H|]. pose proof (proj2 (sdscmp_eq e e) eq_refl). lia.
Qed.

Lemma klex_total s1 e1 s2 e2 : klex s1 e1 s2 e2 \/ (dkey s1 = dkey s2 /\ e1 = e2) \/ klex s2 e2 s1 e1.
Proof.
  unfold klex. destruct (klt3_total (dkey s1) (dkey s2)) as [|[He|]]; [tauto| |tauto].
  destruct (sdscmp_total e1 e2) as [|[|]]; rewrite He; tauto.
Qed.
