(* ===== verification/Skiplist.v ===== *)
(** * Skip lists of sorted sets: model (src/redis-stable/src/t_zset.c, server.h)

    A skip list is a heap of nodes; a node has a forward pointer and a span (how
    many positions the pointer skips) on each of its levels, and a backward
    pointer.  Every function below is the C function of the same name; the
    descent from the top level, which the source repeats in most of them with
    another test, is written once ([walk_level], [descend]). *)
From stdpp Require Import prelude list gmap.
From Stdlib Require Import ZArith Lia.
From S2P Require Import Prelude Dict Double.

Local Open Scope Z_scope.
Local Open Scope redis_scope.

Definition zaddr := positive.
Definition ZSKIPLIST_MAXLEVEL : nat := 64.

(** struct zskiplistLevel: forward, span. *)
Abbreviation zlink := (option zaddr * Z)%type.

(** struct zskiplistNode; the element of the header is NULL. *)
Record zskiplistNode := mk_znode {
  ele : option sds; score : double; backward : option zaddr; level : list zlink }.

(** struct zskiplist *)
Record zskiplist := mk_zsl { header : zaddr; ztail : option zaddr; zlength : Z; zlevel : nat }.

Abbreviation zheap := (gmap zaddr zskiplistNode).

(** *** Computations on the heap; no result on a NULL or dangling access *)
Definition ZM (A : Type) : Type := zheap -> option (A * zheap).
#[global] Instance H_ret : MRet ZM := fun A x h => Some (x, h).
#[global] Instance H_bind : MBind ZM := fun A B f x h => '(a, h) ← x h; f a h.

Definition zload (p : zaddr) : ZM zskiplistNode := fun h => n ← h !! p; Some (n, h).
Definition zstore (p : zaddr) (n : zskiplistNode) : ZM unit := fun h => _ ← h !! p; Some (tt, <[p := n]> h).
Definition zassert (b : bool) : ZM unit := fun h => assert! b ;; Some (tt, h).
Definition lift {A} (o : option A) : ZM A := fun h => a ← o; Some (a, h).
Definition nonnull (p : option zaddr) : ZM zaddr := lift p.

(** x->level[i] *)
Definition get_level (p : zaddr) (i : nat) : ZM zlink :=
  n ← zload p; lift (level n !! i).
Definition set_level (p : zaddr) (i : nat) (c : zlink) : ZM unit :=
  n ← zload p;
  _ ← get_level p i;
  zstore p (mk_znode (ele n) (score n) (backward n) (<[i := c]> (level n))).
Definition set_backward (p : zaddr) (b : option zaddr) : ZM unit :=
  n ← zload p; zstore p (mk_znode (ele n) (score n) b (level n)).

(** ** Creation and release *)

(** zmalloc() returns [p]; the links of the node are not initialised. *)
Definition zslCreateNode (p : zaddr) (lvl : nat) (sc : double) (e : option sds) (junk : list zlink) : ZM unit := fun h =>
  Some (tt, <[p := mk_znode e sc None (take lvl (junk ++ replicate lvl (None, 0)))]> h).

Definition zero : double := SpecFloat.S754_zero false.

Definition zslCreate (p : zaddr) : ZM zskiplist := fun h =>
  Some (mk_zsl p None 0 1, <[p := mk_znode None zero None (replicate ZSKIPLIST_MAXLEVEL (None, 0))]> h).

Definition zslFreeNode (p : zaddr) : ZM unit := fun h => _ ← h !! p; Some (tt, delete p h).

Fixpoint free_loop (fuel : nat) (node : option zaddr) : ZM unit :=
  match node with
  | None => mret tt
  | Some p =>
    match fuel with
    | O => fun _ => None
    | S fuel => '(next, _) ← get_level p 0; _ ← zslFreeNode p; free_loop fuel next
    end
  end.

Definition zslFree (z : zskiplist) : ZM unit :=
  '(node, _) ← get_level (header z) 0;
  _ ← zslFreeNode (header z);
  free_loop (S (Z.to_nat (zlength z))) node.

(** The values random() returns; 0.25 * 0xFFFF = 16383.75. *)
Fixpoint random_level_loop (rs : list Z) (lvl : Z) : option Z :=
  match rs with
  | [] => None
  | r :: rs => if Z.land r 65535 <=? 16383 then random_level_loop rs (lvl + 1) else Some lvl
  end.
Definition zslRandomLevel (rs : list Z) : option nat :=
  lvl ← random_level_loop rs 1;
  Some (if lvl <? Z.of_nat ZSKIPLIST_MAXLEVEL then Z.to_nat lvl else ZSKIPLIST_MAXLEVEL).

(** ** The descent *)

Section Descent.
(** The type of the rank counter, and the condition to go on: it is given the
    rank of the forward node and the node. *)
Variable wrap : Z -> Z.
Variable go : Z -> zskiplistNode -> bool.

(** while (x->level[i].forward && ...) { rank += x->level[i].span; x = x->level[i].forward; } *)
Fixpoint walk_level (fuel : nat) (i : nat) (x : zaddr) (rank : Z) : ZM (zaddr * Z) :=
  match fuel with
  | O => fun _ => None
  | S fuel =>
    '(fw, span) ← get_level x i;
    match fw with
    | None => mret (x, rank)
    | Some y =>
      n ← zload y;
      if go (wrap (rank + span)) n then walk_level fuel i y (wrap (rank + span)) else mret (x, rank)
    end
  end.

(** for (i = lvl-1; i >= 0; i--) { ... update[i] = x; }: the last node, its
    rank, and update[] with rank[]. *)
Fixpoint descend (fuel : nat) (lvl : nat) (x : zaddr) (rank : Z) : ZM (zaddr * Z * list (zaddr * Z)) :=
  match lvl with
  | O => mret (x, rank, [])
  | S i =>
    '(x, rank) ← walk_level fuel i x rank;
    '(x', rank', ups) ← descend fuel i x rank;
    mret (x', rank', ups ++ [(x, rank)])
  end.
End Descent.

Definition zfuel (z : zskiplist) : nat := S (Z.to_nat (zlength z)).

Definition node_lt (sc : double) (e : sds) (n : zskiplistNode) : bool :=
  dlt (score n) sc || (deq (score n) sc && (sdscmp (default [] (ele n)) e <? 0)).
Definition node_le (sc : double) (e : sds) (n : zskiplistNode) : bool :=
  dlt (score n) sc || (deq (score n) sc && (sdscmp (default [] (ele n)) e <=? 0)).

(** ** Insertion *)

(** for (i = zsl->level; i < level; i++): the new entries of update[] and
    rank[] and the spans of the header. *)
Fixpoint raise_loop (n : nat) (z : zskiplist) (i : nat) : ZM (list (zaddr * Z)) :=
  match n with
  | O => mret []
  | S n =>
    '(fw, _) ← get_level (header z) i;
    _ ← set_level (header z) i (fw, zlength z);
    ups ← raise_loop n z (S i);
    mret ((header z, 0) :: ups)
  end.

(** for (i = 0; i < level; i++): [ups] is the rest of update[] and rank[] from
    level [i] on. *)
Fixpoint link_loop (ups : list (zaddr * Z)) (x : zaddr) (rank0 : Z) (i : nat) : ZM unit :=
  match ups with
  | [] => mret tt
  | (u, rank) :: ups =>
    '(fw, span) ← get_level u i;
    _ ← set_level x i (fw, u64 (span - u32 (rank0 - rank)));
    _ ← set_level u i (Some x, u32 (u32 (rank0 - rank) + 1));
    link_loop ups x rank0 (S i)
  end.

(** for (i = level; i < zsl->level; i++) update[i]->level[i].span++; *)
Fixpoint incr_loop (update : list zaddr) (i : nat) : ZM unit :=
  match update with
  | [] => mret tt
  | u :: update =>
    '(fw, span) ← get_level u i;
    _ ← set_level u i (fw, u64 (span + 1));
    incr_loop update (S i)
  end.

(** [lvl] is what zslRandomLevel() returned and [x] the address of the new
    node. *)
Definition zslInsert (z : zskiplist) (sc : double) (e : sds) (lvl : nat) (x : zaddr) (junk : list zlink)
    : ZM (zskiplist * zaddr) :=
  _ ← zassert (negb (isnan sc));
  '(_, _, ups) ← descend u32 (fun _ => node_lt sc e) (zfuel z) (zlevel z) (header z) 0;
  ups' ← raise_loop (lvl - zlevel z) z (zlevel z);
  let ups := ups ++ ups' in
  let zl := Nat.max (zlevel z) lvl in
  _ ← zslCreateNode x lvl sc (Some e) junk;
  '(u0, rank0) ← lift (ups !! 0%nat);
  _ ← link_loop (take lvl ups) x rank0 0;
  _ ← incr_loop (drop lvl ups.*1) lvl;
  _ ← set_backward x (if bool_decide (u0 = header z) then None else Some u0);
  '(fw, _) ← get_level x 0;
  tl ← match fw with
       | Some y => _ ← set_backward y (Some x); mret (ztail z)
       | None => mret (Some x)
       end;
  mret (mk_zsl (header z) tl (u64 (zlength z + 1)) zl, x).

(** ** Removal *)

(** for (i = 0; i < zsl->level; i++) ... *)
Fixpoint unlink_loop (ups : list zaddr) (x : zaddr) (i : nat) : ZM unit :=
  match ups with
  | [] => mret tt
  | u :: ups =>
    '(fw, span) ← get_level u i;
    _ ← (if bool_decide (fw = Some x) then
           '(xfw, xspan) ← get_level x i;
           set_level u i (xfw, u64 (span + (xspan - 1)))
         else set_level u i (fw, u64 (span - 1)));
    unlink_loop ups x (S i)
  end.

(** while(zsl->level > 1 && zsl->header->level[zsl->level-1].forward == NULL) zsl->level--; *)
Fixpoint lower_level (lvl : nat) (hd : zaddr) : ZM nat :=
  match lvl with
  | S ((S _) as l) => '(fw, _) ← get_level hd l; match fw with None => lower_level l hd | Some _ => mret lvl end
  | _ => mret lvl
  end.

Definition zslDeleteNode (z : zskiplist) (x : zaddr) (update : list zaddr) : ZM zskiplist :=
  _ ← unlink_loop (take (zlevel z) update) x 0;
  n ← zload x;
  '(fw, _) ← get_level x 0;
  tl ← match fw with
       | Some y => _ ← set_backward y (backward n); mret (ztail z)
       | None => mret (backward n)
       end;
  lvl ← lower_level (zlevel z) (header z);
  mret (mk_zsl (header z) tl (u64 (zlength z - 1)) lvl).

(** The flag is the return value; the node is freed ([node] is NULL) or handed
    to the caller. *)
Definition zslDelete (z : zskiplist) (sc : double) (e : sds) (node : bool) : ZM (zskiplist * bool * option zaddr) :=
  '(x, _, ups) ← descend u64 (fun _ => node_lt sc e) (zfuel z) (zlevel z) (header z) 0;
  '(fw, _) ← get_level x 0;
  match fw with
  | None => mret (z, false, None)
  | Some x =>
    n ← zload x;
    if deq sc (score n) && (sdscmp (default [] (ele n)) e =? 0) then
      z ← zslDeleteNode z x ups.*1;
      if node then mret (z, true, Some x)
      else _ ← zslFreeNode x; mret (z, true, None)
    else mret (z, false, None)
  end.

Definition zslUpdateScore (z : zskiplist) (curscore : double) (e : sds) (newscore : double)
    (lvl : nat) (p : zaddr) (junk : list zlink) : ZM (zskiplist * zaddr) :=
  '(x, _, ups) ← descend u64 (fun _ => node_lt curscore e) (zfuel z) (zlevel z) (header z) 0;
  '(fw, _) ← get_level x 0;
  x ← nonnull fw;
  n ← zload x;
  _ ← zassert (deq curscore (score n) && (sdscmp (default [] (ele n)) e =? 0));
  '(nfw, _) ← get_level x 0;
  back_ok ← match backward n with None => mret true | Some b => nb ← zload b; mret (dlt (score nb) newscore) end;
  fwd_ok ← match nfw with None => mret true | Some f => nf ← zload f; mret (dgt (score nf) newscore) end;
  if (back_ok : bool) && (fwd_ok : bool) then
    _ ← zstore x (mk_znode (ele n) newscore (backward n) (level n));
    mret (z, x)
  else
    z ← zslDeleteNode z x ups.*1;
    '(z, newnode) ← zslInsert z newscore (default [] (ele n)) lvl p junk;
    _ ← zslFreeNode x;
    mret (z, newnode).

(** ** Ranges of scores *)

Record zrangespec := mk_range { rmin : double; rmax : double; minex : bool; maxex : bool }.

Definition zslValueGteMin (v : double) (spec : zrangespec) : bool :=
  if minex spec then dgt v (rmin spec) else dge v (rmin spec).
Definition zslValueLteMax (v : double) (spec : zrangespec) : bool :=
  if maxex spec then dlt v (rmax spec) else dle v (rmax spec).

Definition zslIsInRange (z : zskiplist) (range : zrangespec) : ZM bool :=
  if dgt (rmin range) (rmax range) || (deq (rmin range) (rmax range) && (minex range || maxex range)) then mret false
  else match ztail z with
  | None => mret false
  | Some t =>
    nt ← zload t;
    if negb (zslValueGteMin (score nt) range) then mret false
    else
      '(fw, _) ← get_level (header z) 0;
      match fw with
      | None => mret false
      | Some x => n ← zload x; mret (zslValueLteMax (score n) range)
      end
  end.

Definition zslFirstInRange (z : zskiplist) (range : zrangespec) : ZM (option zaddr) :=
  inr ← zslIsInRange z range;
  if negb inr then mret None
  else
    '(x, _, _) ← descend u64 (fun _ n => negb (zslValueGteMin (score n) range)) (zfuel z) (zlevel z) (header z) 0;
    '(fw, _) ← get_level x 0;
    x ← nonnull fw;
    n ← zload x;
    mret (if negb (zslValueLteMax (score n) range) then None else Some x).

Definition zslLastInRange (z : zskiplist) (range : zrangespec) : ZM (option zaddr) :=
  inr ← zslIsInRange z range;
  if negb inr then mret None
  else
    '(x, _, _) ← descend u64 (fun _ n => zslValueLteMax (score n) range) (zfuel z) (zlevel z) (header z) 0;
    n ← zload x;
    mret (if negb (zslValueGteMin (score n) range) then None else Some x).

(** ** Ranges of elements *)

(** shared.minstring, shared.maxstring or a string. *)
Inductive lexbound := LexMin | LexMax | LexVal (s : sds).
Record zlexrangespec := mk_lex { lmin : lexbound; lmax : lexbound; lminex : bool; lmaxex : bool }.

Definition sdscmplex (a b : lexbound) : Z :=
  match a, b with
  | LexMin, LexMin | LexMax, LexMax => 0
  | LexMin, _ | _, LexMax => -1
  | LexMax, _ | _, LexMin => 1
  | LexVal a, LexVal b => sdscmp a b
  end.
Definition zslLexValueGteMin (v : sds) (spec : zlexrangespec) : bool :=
  if lminex spec then sdscmplex (LexVal v) (lmin spec) >? 0 else sdscmplex (LexVal v) (lmin spec) >=? 0.
Definition zslLexValueLteMax (v : sds) (spec : zlexrangespec) : bool :=
  if lmaxex spec then sdscmplex (LexVal v) (lmax spec) <? 0 else sdscmplex (LexVal v) (lmax spec) <=? 0.

Definition zslIsInLexRange (z : zskiplist) (range : zlexrangespec) : ZM bool :=
  let cmp := sdscmplex (lmin range) (lmax range) in
  if (cmp >? 0) || ((cmp =? 0) && (lminex range || lmaxex range)) then mret false
  else match ztail z with
  | None => mret false
  | Some t =>
    nt ← zload t;
    if negb (zslLexValueGteMin (default [] (ele nt)) range) then mret false
    else
      '(fw, _) ← get_level (header z) 0;
      match fw with
      | None => mret false
      | Some x => n ← zload x; mret (zslLexValueLteMax (default [] (ele n)) range)
      end
  end.

Definition zslFirstInLexRange (z : zskiplist) (range : zlexrangespec) : ZM (option zaddr) :=
  inr ← zslIsInLexRange z range;
  if negb inr then mret None
  else
    '(x, _, _) ← descend u64 (fun _ n => negb (zslLexValueGteMin (default [] (ele n)) range)) (zfuel z) (zlevel z) (header z) 0;
    '(fw, _) ← get_level x 0;
    x ← nonnull fw;
    n ← zload x;
    mret (if negb (zslLexValueLteMax (default [] (ele n)) range) then None else Some x).

Definition zslLastInLexRange (z : zskiplist) (range : zlexrangespec) : ZM (option zaddr) :=
  inr ← zslIsInLexRange z range;
  if negb inr then mret None
  else
    '(x, _, _) ← descend u64 (fun _ n => zslLexValueLteMax (default [] (ele n)) range) (zfuel z) (zlevel z) (header z) 0;
    n ← zload x;
    mret (if negb (zslLexValueGteMin (default [] (ele n)) range) then None else Some x).

(** ** Removing ranges *)

Section DeleteRange.
(** The hash table view of the sorted set, from which the elements are removed
    too. *)
Context {V : Type} `{!DictType sds V}.

(** while (x && ...) { ... }: [go] is given the rank of the node. *)
Fixpoint delete_range_loop (fuel : nat) (go : Z -> zskiplistNode -> bool) (update : list zaddr)
    (z : zskiplist) (x : option zaddr) (traversed removed : Z) (d : dict sds V) : ZM (zskiplist * Z * dict sds V) :=
  match x with
  | None => mret (z, removed, d)
  | Some x =>
    match fuel with
    | O => fun _ => None
    | S fuel =>
      n ← zload x;
      if go traversed n then
        '(next, _) ← get_level x 0;
        z ← zslDeleteNode z x update;
        '(d, _, _) ← lift (dictDelete d (default [] (ele n)));
        _ ← zslFreeNode x;
        delete_range_loop fuel go update z next (u64 (traversed + 1)) (u64 (removed + 1)) d
      else mret (z, removed, d)
    end
  end.

Definition zslDeleteRangeByScore (z : zskiplist) (range : zrangespec) (d : dict sds V) : ZM (zskiplist * Z * dict sds V) :=
  '(x, _, ups) ← descend u64
     (fun _ n => if minex range then dle (score n) (rmin range) else dlt (score n) (rmin range))
     (zfuel z) (zlevel z) (header z) 0;
  '(x, _) ← get_level x 0;
  delete_range_loop (zfuel z)
    (fun _ n => if maxex range then dlt (score n) (rmax range) else dle (score n) (rmax range)) ups.*1 z x 0 0 d.

Definition zslDeleteRangeByLex (z : zskiplist) (range : zlexrangespec) (d : dict sds V) : ZM (zskiplist * Z * dict sds V) :=
  '(x, _, ups) ← descend u64 (fun _ n => negb (zslLexValueGteMin (default [] (ele n)) range))
     (zfuel z) (zlevel z) (header z) 0;
  '(x, _) ← get_level x 0;
  delete_range_loop (zfuel z) (fun _ n => zslLexValueLteMax (default [] (ele n)) range) ups.*1 z x 0 0 d.

Definition zslDeleteRangeByRank (z : zskiplist) (start stop : Z) (d : dict sds V) : ZM (zskiplist * Z * dict sds V) :=
  '(x, traversed, ups) ← descend u64 (fun rank _ => rank <? start) (zfuel z) (zlevel z) (header z) 0;
  '(x, _) ← get_level x 0;
  delete_range_loop (zfuel z) (fun traversed _ => traversed <=? stop) ups.*1 z x (u64 (traversed + 1)) 0 d.
End DeleteRange.

(** ** Ranks *)

Fixpoint rank_loop (fuel : nat) (lvl : nat) (sc : double) (e : sds) (x : zaddr) (rank : Z) : ZM Z :=
  match lvl with
  | O => mret 0
  | S i =>
    '(x, rank) ← walk_level u64 (fun _ => node_le sc e) fuel i x rank;
    n ← zload x;
    if match ele n with Some e' => sdscmp e' e =? 0 | None => false end then mret rank
    else rank_loop fuel i sc e x rank
  end.
Definition zslGetRank (z : zskiplist) (sc : double) (e : sds) : ZM Z :=
  rank_loop (zfuel z) (zlevel z) sc e (header z) 0.

Fixpoint by_rank_loop (fuel : nat) (lvl : nat) (rank : Z) (x : zaddr) (traversed : Z) : ZM (option zaddr) :=
  match lvl with
  | O => mret None
  | S i =>
    '(x, traversed) ← walk_level u64 (fun r _ => r <=? rank) fuel i x traversed;
    if traversed =? rank then mret (Some x) else by_rank_loop fuel i rank x traversed
  end.
Definition zslGetElementByRank (z : zskiplist) (rank : Z) : ZM (option zaddr) :=
  by_rank_loop (zfuel z) (zlevel z) rank (header z) 0.
