(* ===== verification/SkiplistRep.v ===== *)
(** * Skip lists: representation and search

    [zsl_struct h z ns] says that the heap [h] represents, under the header [z],
    the sequence [ns] of entries: every pointer and span of every level is the
    one the sequence determines.  [zsl_rep] adds that the sequence is sorted.
    The descent through the levels is shown to find, on every level, the last
    node that satisfies the condition of the search. *)
From stdpp Require Import prelude list gmap sorting.
From Stdlib Require Import ZArith Lia.
From S2P Require Import Prelude Double Skiplist.

Local Open Scope Z_scope.

(** An entry: the address of its node, the score, the element and the number of
    levels. *)
Record zentry := mk_entry { za : zaddr; zs : double; ze : sds; zh : nat }.

(** The link on level [i] of a node that is followed by the entries [Q]: the
    first entry with more than [i] levels and its distance; to the end when
    there is none. *)
Fixpoint fwd (i : nat) (Q : list zentry) : option zaddr :=
  match Q with [] => None | e :: Q => if (i <? zh e)%nat then Some (za e) else fwd i Q end.
Fixpoint spn (i : nat) (Q : list zentry) : Z :=
  match Q with [] => 0 | e :: Q => if (i <? zh e)%nat then 1 else 1 + spn i Q end.
Definition lv (i : nat) (Q : list zentry) : zlink := (fwd i Q, spn i Q).

(** The address of the node after the entries [P], the header's if there are
    none. *)
Definition prev_addr (P : list zentry) : option zaddr := za <$> last P.
Definition at_pos (hd : zaddr) (P : list zentry) : zaddr := default hd (prev_addr P).

(** The node of [e] between [P] and [Q]. *)
Definition znode (P : list zentry) (e : zentry) (Q : list zentry) : zskiplistNode :=
  mk_znode (Some (ze e)) (zs e) (prev_addr P) (map (fun i => lv i Q) (seq 0 (zh e))).

(** The header node: no forward pointers above the level of the list. *)
Definition zheader_ok (lvl : nat) (n : zskiplistNode) (ns : list zentry) : Prop :=
  ele n = None /\ length (level n) = ZSKIPLIST_MAXLEVEL /\
  (forall i, (i < lvl)%nat -> level n !! i = Some (lv i ns)) /\
  (forall i, (lvl <= i < ZSKIPLIST_MAXLEVEL)%nat -> exists s, level n !! i = Some (None, s)).

(** The nodes and links of a list whose header is at [hd] and has [L] levels in
    use. *)
Record zcore (h : zheap) (hd : zaddr) (L : nat) (ns : list zentry) : Prop := {
  core_header : exists n, h !! hd = Some n /\ zheader_ok L n ns;
  core_nodes : forall P e Q, ns = P ++ e :: Q -> h !! za e = Some (znode P e Q);
  core_heights : Forall (fun e => (1 <= zh e <= L)%nat) ns;
  core_max : (1 <= L <= ZSKIPLIST_MAXLEVEL)%nat;
  core_len : Z.of_nat (length ns) < 2 ^ 32;
  core_nodup : NoDup (hd :: (za <$> ns)) }.

Record zsl_struct (h : zheap) (z : zskiplist) (ns : list zentry) : Prop := {
  rep_core : zcore h (header z) (zlevel z) ns;
  rep_tight : zlevel z = 1%nat \/ fwd (zlevel z - 1) ns <> None;
  rep_tail : ztail z = prev_addr ns;
  rep_length : zlength z = Z.of_nat (length ns) }.

Definition entry_lt (a b : zentry) : Prop := klex (zs a) (ze a) (zs b) (ze b).

Record zsl_rep (h : zheap) (z : zskiplist) (ns : list zentry) : Prop := {
  rep_struct : zsl_struct h z ns;
  rep_sorted : StronglySorted entry_lt ns;
  rep_nan : Forall (fun e => isnan (zs e) = false) ns }.

(** ** Links *)

Lemma prev_addr_snoc P e : prev_addr (P ++ [e]) = Some (za e).
Proof. unfold prev_addr. by rewrite last_snoc. Qed.

Lemma at_pos_snoc hd P e : at_pos hd (P ++ [e]) = za e.
Proof. unfold at_pos. by rewrite prev_addr_snoc. Qed.

Definition low (i : nat) (Q : list zentry) : Prop := Forall (fun e => (zh e <= i)%nat) Q.

Lemma fwd_low i M Q : low i M -> fwd i (M ++ Q) = fwd i Q.
Proof.
  induction 1 as [|e M He _ IH]; [done|]. simpl. destruct (Nat.ltb_spec i (zh e)); [lia|done].
Qed.

Lemma spn_low i M Q : low i M -> spn i (M ++ Q) = Z.of_nat (length M) + spn i Q.
Proof.
  induction 1 as [|e M He _ IH]; [done|]. simpl length. cbn [app spn]. destruct (Nat.ltb_spec i (zh e)); [lia|].
  rewrite IH. lia.
Qed.

Lemma fwd_high i e Q : (i < zh e)%nat -> fwd i (e :: Q) = Some (za e).
Proof. intros He. cbn [fwd]. by destruct (Nat.ltb_spec i (zh e)); [|lia]. Qed.
Lemma spn_high i e Q : (i < zh e)%nat -> spn i (e :: Q) = 1.
Proof. intros He. cbn [spn]. by destruct (Nat.ltb_spec i (zh e)); [|lia]. Qed.

Lemma spn_range i Q : 0 <= spn i Q <= Z.of_nat (length Q).
Proof. induction Q as [|e Q IH]; cbn [spn]; [done|]. simpl length. destruct (i <? zh e)%nat; lia. Qed.

Lemma low_or_high i M : low i M \/ exists M1 y M2, M = M1 ++ y :: M2 /\ low i M1 /\ (i < zh y)%nat.
Proof.
  induction M as [|e M IH]; [left; constructor|]. destruct (Nat.ltb_spec i (zh e)) as [He|He].
  - right. exists [], e, M. split_and!; [done|constructor|done].
  - destruct IH as [IH|(M1 & y & M2 & -> & H1 & Hy)]; [left; by constructor|].
    right. exists (e :: M1), y, M2. split_and!; [done|by constructor|done].
Qed.

(** ** The last entry of a sequence that reaches a level *)

Fixpoint upto (i : nat) (A : list zentry) : list zentry :=
  match A with
  | [] => []
  | e :: A => match upto i A with [] => if (i <? zh e)%nat then [e] else [] | P => e :: P end
  end.

(** The entries [P] are none, or end with one that reaches level [i]. *)
Definition reaches (i : nat) (P : list zentry) : Prop := forall R e, P = R ++ [e] -> (i < zh e)%nat.

Lemma upto_low i A : low i A -> upto i A = [].
Proof. induction 1 as [|e A He _ IH]; [done|]. cbn [upto]. rewrite IH. by destruct (Nat.ltb_spec i (zh e)); [lia|]. Qed.

Lemma upto_high i M y A : (i < zh y)%nat -> upto i (M ++ y :: A) = M ++ y :: upto i A.
Proof.
  intros Hy. induction M as [|e M IH]; cbn [upto app].
  - destruct (upto i A); [by destruct (Nat.ltb_spec i (zh y)); [|lia]|done].
  - rewrite IH. by destruct M.
Qed.

Lemma upto_app i P M : reaches i P -> upto i (P ++ M) = P ++ upto i M.
Proof.
  intros HP. destruct P as [|e P _] using rev_ind; [done|]. rewrite <- !app_assoc. cbn.
  apply upto_high. by eapply HP.
Qed.

Lemma upto_split i A : exists R, A = upto i A ++ R /\ low i R /\ reaches i (upto i A).
Proof.
  induction A as [|e A (R & HA & HR & Hr)].
  { exists []. split_and!; [done|constructor|]. intros R e He. by destruct R. }
  cbn [upto]. destruct (upto i A) as [|y P] eqn:E.
  - destruct (Nat.ltb_spec i (zh e)).
    + exists R. rewrite HA at 1. split_and!; [done|done|]. intros R' e' He.
      destruct R' as [|? [|]]; by simplify_eq/=.
    + exists (e :: R). rewrite HA at 1. split_and!; [done|by constructor|]. intros R' e' He. by destruct R'.
  - exists R. rewrite HA at 1. split_and!; [done|done|]. intros R' e' He.
    destruct R' as [|x R']; simplify_eq/=. by apply (Hr R').
Qed.

Lemma upto_all A : Forall (fun e => (1 <= zh e)%nat) A -> upto 0 A = A.
Proof.
  intros HA. destruct (upto_split 0 A) as (R & HA' & HR & _). destruct R as [|e R]; [by rewrite app_nil_r in HA'|].
  rewrite HA' in HA. apply Forall_app in HA as [_ HA]. apply Forall_cons in HA as [He _].
  apply Forall_cons in HR as [He' _]. lia.
Qed.

(** ** Steps of the heap operations *)

Lemma hbind_ok {A B} (x : ZM A) (f : A -> ZM B) h r h' : x h = Some (r, h') -> (x ≫= f) h = f r h'.
Proof. intros Hx. unfold mbind, H_bind. by rewrite Hx. Qed.

Lemma zload_ok h p n : h !! p = Some n -> zload p h = Some (n, h).
Proof. intros Hn. unfold zload. by rewrite Hn. Qed.

Lemma get_level_ok h p n i c : h !! p = Some n -> level n !! i = Some c -> get_level p i h = Some (c, h).
Proof. intros Hn Hc. unfold get_level. rewrite (hbind_ok _ _ _ _ _ (zload_ok _ _ _ Hn)). unfold lift. by rewrite Hc. Qed.

Definition put_level (i : nat) (c : zlink) (n : zskiplistNode) : zskiplistNode :=
  mk_znode (ele n) (score n) (backward n) (<[i := c]> (level n)).

Lemma set_level_ok h p n i c c0 : h !! p = Some n -> level n !! i = Some c0 ->
  set_level p i c h = Some (tt, <[p := put_level i c n]> h).
Proof.
  intros Hn Hc. unfold set_level. rewrite (hbind_ok _ _ _ _ _ (zload_ok _ _ _ Hn)).
  rewrite (hbind_ok _ _ _ _ _ (get_level_ok _ _ _ _ _ Hn Hc)). unfold zstore. by rewrite Hn.
Qed.

Definition put_backward (b : option zaddr) (n : zskiplistNode) : zskiplistNode :=
  mk_znode (ele n) (score n) b (level n).

Lemma set_backward_ok h p n b : h !! p = Some n -> set_backward p b h = Some (tt, <[p := put_backward b n]> h).
Proof.
  intros Hn. unfold set_backward. rewrite (hbind_ok _ _ _ _ _ (zload_ok _ _ _ Hn)). unfold zstore. by rewrite Hn.
Qed.

(** ** Searching *)

(** The number of levels of the node after [P]. *)
Definition hgt (L : nat) (P : list zentry) : nat := default L (zh <$> last P).

Lemma znode_level P e Q i : (i < zh e)%nat -> level (znode P e Q) !! i = Some (lv i Q).
Proof. intros Hi. cbn. rewrite list_lookup_fmap, lookup_seq_lt by done. done. Qed.

Section Search.
Context (h : zheap) (hd : zaddr) (L : nat) (ns : list zentry) (Hrep : zcore h hd L ns).

Lemma struct_level P Q i : ns = P ++ Q -> (i < hgt L P)%nat ->
  exists n, h !! at_pos hd P = Some n /\ level n !! i = Some (lv i Q).
Proof.
  intros Hns Hi. destruct P as [|e P _] using rev_ind.
  - destruct (core_header _ _ _ _ Hrep) as (n & Hn & _ & _ & Hl & _). exists n. split; [done|].
    cbn in Hi. rewrite Hns in Hl. by apply Hl.
  - rewrite <- app_assoc in Hns. exists (znode P e Q). rewrite at_pos_snoc.
    split; [by apply (core_nodes _ _ _ _ Hrep)|]. apply znode_level. unfold hgt in Hi. by rewrite last_snoc in Hi.
Qed.

Lemma level_get P Q i : ns = P ++ Q -> (i < hgt L P)%nat -> get_level (at_pos hd P) i h = Some (lv i Q, h).
Proof. intros Hns Hi. destruct (struct_level P Q i Hns Hi) as (n & Hn & Hl). by eapply get_level_ok. Qed.

(** The search condition holds for the entries [A] and not for [B]. *)
Context (wrap : Z -> Z) (go : Z -> zskiplistNode -> bool) (A B : list zentry).
Hypothesis Hwrap : forall n, 0 <= n <= Z.of_nat (length ns) -> wrap n = n.
Hypothesis HAB : ns = A ++ B.
Hypothesis HA : forall P e M Q, A = P ++ e :: M -> go (Z.of_nat (length P) + 1) (znode P e Q) = true.
Hypothesis HB : forall P e M Q, B = P ++ e :: M -> go (Z.of_nat (length A + length P) + 1) (znode (A ++ P) e Q) = false.

Lemma walk_level_spec fuel i P M :
  A = P ++ M -> (i < hgt L P)%nat -> (length M < fuel)%nat ->
  walk_level wrap go fuel i (at_pos hd P) (Z.of_nat (length P)) h =
    Some ((at_pos hd (P ++ upto i M), Z.of_nat (length (P ++ upto i M))), h).
Proof.
  revert fuel P. induction M as [M IH] using (induction_ltof1 _ length). unfold ltof in IH.
  intros fuel P HP Hi Hf. destruct fuel as [|fuel]; [lia|]. cbn [walk_level].
  assert (ns = P ++ M ++ B) as Hns by (by rewrite HAB, HP, <- app_assoc).
  rewrite (hbind_ok _ _ _ _ _ (level_get P (M ++ B) i Hns Hi)). cbn [lv fst snd].
  destruct (low_or_high i M) as [Hlow|(M1 & y & M2 & -> & Hlow & Hy)].
  - rewrite (upto_low _ _ Hlow), app_nil_r, fwd_low, spn_low by done.
    destruct (low_or_high i B) as [HlB|(B1 & y & B2 & -> & HlB & Hy)].
    + rewrite <- (app_nil_r B), fwd_low by done. done.
    + rewrite fwd_low, fwd_high, spn_low, spn_high by done.
      assert (ns = (A ++ B1) ++ y :: B2) as Hns' by (by rewrite HAB, <- app_assoc).
      rewrite (hbind_ok _ _ _ _ _ (zload_ok _ _ _ (core_nodes _ _ _ _ Hrep _ _ _ Hns'))).
      replace (wrap _) with (Z.of_nat (length A + length B1) + 1).
      * by rewrite (HB B1 y B2 B2 eq_refl).
      * rewrite HP, length_app. rewrite Hwrap; [lia|]. rewrite Hns, !length_app. simpl. lia.
  - rewrite <- app_assoc, fwd_low, spn_low by done. cbn [app]. rewrite fwd_high, spn_high by done.
    assert (ns = (P ++ M1) ++ y :: M2 ++ B) as Hns' by (by rewrite Hns, <- !app_assoc).
    rewrite (hbind_ok _ _ _ _ _ (zload_ok _ _ _ (core_nodes _ _ _ _ Hrep _ _ _ Hns'))).
    assert (wrap (Z.of_nat (length P) + (Z.of_nat (length M1) + 1)) = Z.of_nat (length (P ++ M1)) + 1) as ->.
    { rewrite Hwrap; [rewrite length_app; lia|]. rewrite Hns', !length_app. simpl. lia. }
    rewrite (HA (P ++ M1) y M2 (M2 ++ B)) by (by rewrite HP, <- app_assoc).
    rewrite upto_high by done.
    specialize (IH M2 ltac:(rewrite length_app; simpl; lia) fuel ((P ++ M1) ++ [y])).
    rewrite at_pos_snoc, (length_app _ [y]) in IH. cbn [length] in IH. rewrite Nat2Z.inj_add in IH.
    change (Z.of_nat 1) with 1 in IH.
    rewrite IH; [|by rewrite HP, <- !app_assoc|unfold hgt; by rewrite last_snoc|rewrite length_app in Hf; simpl in Hf; lia].
    by rewrite <- !app_assoc.
Qed.

Definition update_of (A : list zentry) (j : nat) : zaddr * Z :=
  (at_pos hd (upto j A), Z.of_nat (length (upto j A))).

Lemma hgt_reaches i P : reaches i P -> (i < L)%nat -> (i < hgt L P)%nat.
Proof.
  intros HP Hi. destruct P as [|e P _] using rev_ind; [done|]. unfold hgt. rewrite last_snoc. by eapply HP.
Qed.

(** One level of a descent. *)
Lemma walk_step fuel i :
  (i < L)%nat -> (length ns < fuel)%nat ->
  walk_level wrap go fuel i (at_pos hd (upto (S i) A)) (Z.of_nat (length (upto (S i) A))) h = Some (update_of A i, h).
Proof.
  intros Hi Hf. destruct (upto_split (S i) A) as (R & HR & _ & Hreach).
  assert (reaches i (upto (S i) A)) as Hri by (intros ? ? He; pose proof (Hreach _ _ He); lia).
  rewrite (walk_level_spec fuel i (upto (S i) A) R HR).
  - unfold update_of. replace (upto i A) with (upto (S i) A ++ upto i R); [done|]. rewrite HR at 2. by rewrite upto_app.
  - by apply hgt_reaches.
  - rewrite HAB, length_app in Hf. rewrite HR, length_app in Hf. lia.
Qed.

Lemma descend_spec fuel i :
  (i <= L)%nat -> (length ns < fuel)%nat ->
  descend wrap go fuel i (at_pos hd (upto i A)) (Z.of_nat (length (upto i A))) h =
    Some ((update_of A 0, map (update_of A) (seq 0 i)), h).
Proof.
  intros Hi Hf. induction i as [|i IH]; [done|]. cbn [descend].
  rewrite (hbind_ok _ _ _ _ _ (walk_step fuel i Hi Hf)). cbn [update_of].
  rewrite (hbind_ok _ _ _ _ _ (IH ltac:(lia))). rewrite seq_S, map_app. cbn. reflexivity.
Qed.

Lemma upto_top : upto L A = [].
Proof.
  pose proof (core_heights _ _ _ _ Hrep) as Hh. rewrite HAB in Hh. apply Forall_app in Hh as [Hh _].
  apply upto_low. eapply Forall_impl; [exact Hh|]. simpl. lia.
Qed.

Lemma upto_bottom : upto 0 A = A.
Proof.
  pose proof (core_heights _ _ _ _ Hrep) as Hh. rewrite HAB in Hh. apply Forall_app in Hh as [Hh _].
  apply upto_all. eapply Forall_impl; [exact Hh|]. simpl. lia.
Qed.

Lemma zsl_search_spec fuel :
  (length ns < fuel)%nat ->
  descend wrap go fuel L hd 0 h =
    Some ((at_pos hd A, Z.of_nat (length A), map (update_of A) (seq 0 L)), h).
Proof.
  intros Hf. pose proof (descend_spec fuel L ltac:(lia) Hf) as Hd. rewrite upto_top in Hd.
  etransitivity; [exact Hd|]. unfold update_of at 1. by rewrite upto_bottom.
Qed.
End Search.
