(* ===== verification/SkiplistInsert.v ===== *)
(** * Skip lists: insertion and removal of a node

    The loops of zslInsert() and zslDeleteNode() over the levels change, on each
    level, the link of the last node before the position.  The lemmas below
    describe what they do to every node, and show that the pointers and spans
    are afterwards those of the new sequence. *)
From stdpp Require Import prelude list gmap sorting.
From Stdlib Require Import ZArith Lia.
From S2P Require Import Prelude Double Skiplist SkiplistRep.

Local Open Scope Z_scope.

(** ** Changing single links *)

(** [n'] is [n] with the link on every level [k] changed by [g k]. *)
Record upd_node (g : nat -> zlink -> zlink) (n n' : zskiplistNode) : Prop := {
  upd_ele : ele n' = ele n; upd_score : score n' = score n; upd_back : backward n' = backward n;
  upd_len : length (level n') = length (level n);
  upd_link : forall k c, level n !! k = Some c -> level n' !! k = Some (g k c) }.

Lemma upd_node_id n : upd_node (fun _ c => c) n n.
Proof. by split. Qed.

Lemma upd_node_ext g g' n n' : (forall k c, level n !! k = Some c -> g k c = g' k c) -> upd_node g n n' -> upd_node g' n n'.
Proof. intros Hg [? ? ? ? Hl]. split; try done. intros k c Hc. rewrite <- Hg by done. by apply Hl. Qed.

Lemma upd_node_trans g1 g2 n1 n2 n3 :
  upd_node g1 n1 n2 -> upd_node g2 n2 n3 -> upd_node (fun k c => g2 k (g1 k c)) n1 n3.
Proof.
  intros [? ? ? ? H1] [? ? ? ? H2]. split; try congruence. intros k c Hc. by apply H2, H1.
Qed.

Lemma upd_put i c n : upd_node (fun k c0 => if decide (k = i) then c else c0) n (put_level i c n).
Proof.
  split; cbn; [done..|by rewrite length_insert|]. intros k c0 Hc. destruct (decide (k = i)) as [->|Hk].
  - apply list_lookup_insert_eq. by eapply lookup_lt_Some.
  - by rewrite list_lookup_insert_ne.
Qed.

(** A node that is replaced, the others left alone. *)
Lemma upd_insert (h : zheap) u n n' g :
  h !! u = Some n -> upd_node g n n' ->
  forall q m, h !! q = Some m ->
    exists m', (<[u := n']> h) !! q = Some m' /\ upd_node (fun k c => if decide (q = u) then g k c else c) m m'.
Proof.
  intros Hn Hu q m Hq. destruct (decide (q = u)) as [->|Hne].
  - exists n'. rewrite lookup_insert_eq. split; [done|]. assert (m = n) as -> by congruence. done.
  - exists m. rewrite lookup_insert_ne by done. split; [done|apply upd_node_id].
Qed.

(** A loop over the levels [i .. i+m-1] that changes the link on level [k] of
    the node [U k] by [g k]; the node [x] is read and not changed. *)
Section CellsLoop.
Context (loop : list zaddr -> nat -> ZM unit) (g : nat -> zlink -> zlink) (x : zaddr) (nx : zskiplistNode).
Context (ok : nat -> zlink -> Prop).
Hypothesis Hnil : forall i h, loop [] i h = Some (tt, h).
Hypothesis Hcons : forall u us i h n c, u <> x -> h !! x = Some nx -> h !! u = Some n -> level n !! i = Some c -> ok i c ->
  loop (u :: us) i h = loop us (S i) (<[u := put_level i (g i c) n]> h).

Lemma cells_loop_spec (U : nat -> zaddr) m : forall i h,
  h !! x = Some nx ->
  (forall k, (i <= k < i + m)%nat -> U k <> x /\ exists n c, h !! U k = Some n /\ level n !! k = Some c /\ ok k c) ->
  exists h', loop (map U (seq i m)) i h = Some (tt, h') /\ h' !! x = Some nx /\
    (forall q, h !! q = None -> h' !! q = None) /\
    (forall q n, h !! q = Some n -> exists n', h' !! q = Some n' /\
      upd_node (fun k c => if decide ((i <= k < i + m)%nat /\ U k = q) then g k c else c) n n').
Proof.
  induction m as [|m IH]; intros i h Hx HU.
  { exists h. cbn [seq map]. rewrite Hnil. split_and!; [done|done|done|]. intros q n Hn. exists n. split; [done|].
    eapply upd_node_ext; [|apply upd_node_id]. intros k c _. case_decide as Hd; [lia|done]. }
  destruct (HU i ltac:(lia)) as (Hne & n & c & Hn & Hc & Hok). cbn [seq map]. rewrite (Hcons _ _ _ _ _ _ Hne Hx Hn Hc Hok).
  set (h1 := <[U i := put_level i (g i c) n]> h).
  pose proof (upd_insert h (U i) n (put_level i (g i c) n) _ Hn (upd_put i (g i c) n)) as Hstep. fold h1 in Hstep.
  destruct (IH (S i) h1) as (h' & Hl & Hx' & Hnone & Hupd).
  { unfold h1. by rewrite lookup_insert_ne. }
  { intros k Hk. destruct (HU k ltac:(lia)) as (Hkx & n1 & c1 & Hn1 & Hc1 & Hok1). split; [done|].
    destruct (Hstep _ _ Hn1) as (n2 & Hn2 & Hu2). exists n2, c1. split; [done|]. split; [|done].
    rewrite (upd_link _ _ _ Hu2 _ _ Hc1). rewrite (decide_False (P := k = i)) by lia. by case_decide. }
  exists h'. split_and!; [done|done| |].
  - intros q Hq. apply Hnone. unfold h1. rewrite lookup_insert_ne; [done|]. intros <-. congruence.
  - intros q n0 Hq. destruct (Hstep q n0 Hq) as (n1 & Hn1 & Hu1). destruct (Hupd q n1 Hn1) as (n' & Hn' & Hu').
    exists n'. split; [done|]. eapply upd_node_ext; [|eapply upd_node_trans; [exact Hu1|exact Hu']].
    intros k c0 Hc0. cbv beta. destruct (decide (q = U i)) as [->|Hqi].
    + destruct (decide (k = i)) as [->|Hki].
      * rewrite decide_False by lia. rewrite decide_True by (split; [lia|done]). congruence.
      * destruct (decide ((S i <= k < S i + m)%nat /\ U k = U i)) as [Hd|Hd].
        -- rewrite decide_True by (split; [lia|tauto]). done.
        -- rewrite decide_False; [done|]. intros [Hk He]. apply Hd. split; [lia|done].
    + destruct (decide ((S i <= k < S i + m)%nat /\ U k = q)) as [Hd|Hd].
      * rewrite decide_True by (split; [lia|tauto]). done.
      * rewrite decide_False; [done|]. intros [Hk He]. apply Hd. split; [|done].
        destruct (decide (k = i)) as [->|]; [congruence|lia].
Qed.
End CellsLoop.

Lemma map_fst_ups (U : nat -> zaddr) (R : nat -> Z) l : (map (fun k => (U k, R k)) l).*1 = map U l.
Proof. induction l as [|k l IH]; [done|]. cbn. by f_equal. Qed.

(** update[i]->level[i].span++ *)
Lemma incr_loop_spec (U : nat -> zaddr) x nx m i h :
  h !! x = Some nx ->
  (forall k, (i <= k < i + m)%nat -> U k <> x /\ exists n c, h !! U k = Some n /\ level n !! k = Some c) ->
  exists h', incr_loop (map U (seq i m)) i h = Some (tt, h') /\ h' !! x = Some nx /\
    (forall q, h !! q = None -> h' !! q = None) /\
    (forall q n, h !! q = Some n -> exists n', h' !! q = Some n' /\
      upd_node (fun k c => if decide ((i <= k < i + m)%nat /\ U k = q) then (c.1, u64 (c.2 + 1)) else c) n n').
Proof.
  intros Hx HU. apply (cells_loop_spec incr_loop (fun _ c => (c.1, u64 (c.2 + 1))) x nx (fun _ _ => True)); [done| |done|].
  - intros u us i' h' n [fw s] Hux _ Hn Hc _. cbn [incr_loop].
    rewrite (hbind_ok _ _ _ _ _ (get_level_ok _ _ _ _ _ Hn Hc)).
    by rewrite (hbind_ok _ _ _ _ _ (set_level_ok _ _ _ _ _ _ Hn Hc)).
  - intros k Hk. destruct (HU k Hk) as (? & n & c & ? & ?). split; [done|]. by exists n, c.
Qed.

(** The loop of zslDeleteNode; [X k] is the link of the removed node on level
    [k], where it has one. *)
Lemma unlink_loop_spec (U : nat -> zaddr) x nx (X : nat -> zlink) m i h :
  h !! x = Some nx ->
  (forall k, (i <= k < i + m)%nat -> U k <> x /\ exists n c, h !! U k = Some n /\ level n !! k = Some c /\
    (c.1 = Some x -> level nx !! k = Some (X k))) ->
  exists h', unlink_loop (map U (seq i m)) x i h = Some (tt, h') /\ h' !! x = Some nx /\
    (forall q, h !! q = None -> h' !! q = None) /\
    (forall q n, h !! q = Some n -> exists n', h' !! q = Some n' /\
      upd_node (fun k c => if decide ((i <= k < i + m)%nat /\ U k = q) then
         (if bool_decide (c.1 = Some x) then ((X k).1, u64 (c.2 + ((X k).2 - 1))) else (c.1, u64 (c.2 - 1))) else c) n n').
Proof.
  intros Hx HU.
  apply (cells_loop_spec (fun us => unlink_loop us x)
    (fun k c => if bool_decide (c.1 = Some x) then ((X k).1, u64 (c.2 + ((X k).2 - 1))) else (c.1, u64 (c.2 - 1)))
    x nx (fun k c => c.1 = Some x -> level nx !! k = Some (X k))); [done| |done|done].
  intros u us i' h' n [fw s] Hux Hx' Hn Hc Hok. cbn [unlink_loop fst snd] in *.
  rewrite (hbind_ok _ _ _ _ _ (get_level_ok _ _ _ _ _ Hn Hc)). case_bool_decide as Hfw.
  - specialize (Hok Hfw). destruct (X i') as [xf xs] eqn:HX. cbn [fst snd].
    rewrite (hbind_ok (get_level x i' ≫= _) _ _ tt (<[u := put_level i' (xf, u64 (s + (xs - 1))) n]> h')); [done|].
    rewrite (hbind_ok _ _ _ _ _ (get_level_ok _ _ _ _ _ Hx' Hok)). by apply (set_level_ok _ _ _ _ _ _ Hn Hc).
  - by rewrite (hbind_ok _ _ _ _ _ (set_level_ok _ _ _ _ _ _ Hn Hc)).
Qed.

(** The loop of zslInsert that links the new node [x]. *)
Lemma link_loop_spec (U : nat -> zaddr) (R : nat -> Z) x r0 m : forall i h nx,
  h !! x = Some nx -> (i + m <= length (level nx))%nat ->
  (forall k, (i <= k < i + m)%nat -> U k <> x /\ exists n c, h !! U k = Some n /\ level n !! k = Some c) ->
  exists h' nx', link_loop (map (fun k => (U k, R k)) (seq i m)) x r0 i h = Some (tt, h') /\
    (forall q, h !! q = None -> h' !! q = None) /\
    (forall q n, q <> x -> h !! q = Some n -> exists n', h' !! q = Some n' /\
      upd_node (fun k c => if decide ((i <= k < i + m)%nat /\ U k = q) then (Some x, u32 (u32 (r0 - R k) + 1)) else c) n n') /\
    h' !! x = Some nx' /\ ele nx' = ele nx /\ score nx' = score nx /\ backward nx' = backward nx /\
    length (level nx') = length (level nx) /\
    (forall k, (k < i)%nat -> level nx' !! k = level nx !! k) /\
    (forall k n (c : zlink), (i <= k < i + m)%nat -> h !! U k = Some n -> level n !! k = Some c ->
      level nx' !! k = Some (c.1, u64 (c.2 - u32 (r0 - R k)))).
Proof.
  induction m as [|m IH]; intros i h nx Hx Hlen HU.
  { exists h, nx. split_and!; try done; [|intros; lia]. intros q n Hq Hn. exists n. split; [done|].
    eapply upd_node_ext; [|apply upd_node_id]. intros k c _. case_decide as Hd; [lia|done]. }
  destruct (HU i ltac:(lia)) as (Hne & n & [fw s] & Hn & Hc). cbn [seq map link_loop].
  rewrite (hbind_ok _ _ _ _ _ (get_level_ok _ _ _ _ _ Hn Hc)).
  destruct (lookup_lt_is_Some_2 (level nx) i ltac:(lia)) as [cx Hcx].
  rewrite (hbind_ok _ _ _ _ _ (set_level_ok _ _ _ _ _ _ Hx Hcx)).
  set (nx1 := put_level i (fw, u64 (s - u32 (r0 - R i))) nx). set (h1 := <[x := nx1]> h).
  assert (h1 !! U i = Some n) as Hn1 by (unfold h1; by rewrite lookup_insert_ne).
  rewrite (hbind_ok _ _ _ _ _ (set_level_ok _ _ _ _ _ _ Hn1 Hc)).
  set (n1 := put_level i (Some x, u32 (u32 (r0 - R i) + 1)) n). set (h2 := <[U i := n1]> h1).
  assert (forall q n0, q <> x -> h !! q = Some n0 -> exists n2, h2 !! q = Some n2 /\
    upd_node (fun k c => if decide (q = U i) then if decide (k = i) then (Some x, u32 (u32 (r0 - R i) + 1)) else c else c) n0 n2) as Hstep.
  { intros q n0 Hq Hn0. apply (upd_insert h1 (U i) n n1 _ Hn1 (upd_put i _ n)). unfold h1. by rewrite lookup_insert_ne. }
  destruct (IH (S i) h2 nx1) as (h' & nx' & Hl & Hnone & Hupd & Hx' & E1 & E2 & E3 & E4 & Elow & Enew).
  { unfold h2, h1. rewrite lookup_insert_ne by done. apply lookup_insert_eq. }
  { cbn. rewrite length_insert. lia. }
  { intros k Hk. destruct (HU k ltac:(lia)) as (Hkx & n2 & c2 & Hn2 & Hc2). split; [done|].
    destruct (Hstep _ _ Hkx Hn2) as (n3 & Hn3 & Hu3). exists n3. eexists. split; [done|]. by apply (upd_link _ _ _ Hu3). }
  exists h', nx'. split_and!; try done.
  - intros q Hq. apply Hnone. unfold h2, h1. rewrite !lookup_insert_ne; [done|congruence|congruence].
  - intros q n0 Hq Hn0. destruct (Hstep q n0 Hq Hn0) as (n2 & Hn2 & Hu2). destruct (Hupd q n2 Hq Hn2) as (n' & Hn' & Hu').
    exists n'. split; [done|]. eapply upd_node_ext; [|eapply upd_node_trans; [exact Hu2|exact Hu']].
    intros k c0 Hc0. cbv beta. destruct (decide (q = U i)) as [->|Hqi].
    + destruct (decide (k = i)) as [->|Hki].
      * rewrite decide_False by lia. by rewrite decide_True by (split; [lia|done]).
      * destruct (decide ((S i <= k < S i + m)%nat /\ U k = U i)) as [Hd|Hd].
        -- by rewrite decide_True by (split; [lia|tauto]).
        -- rewrite decide_False; [done|]. intros [Hk He]. apply Hd. split; [lia|done].
    + destruct (decide ((S i <= k < S i + m)%nat /\ U k = q)) as [Hd|Hd].
      * by rewrite decide_True by (split; [lia|tauto]).
      * rewrite decide_False; [done|]. intros [Hk He]. apply Hd. split; [|done].
        destruct (decide (k = i)) as [->|]; [congruence|lia].
  - rewrite E4. cbn. apply length_insert.
  - intros k Hk. rewrite Elow by lia. cbn. by rewrite list_lookup_insert_ne by lia.
  - intros k n0 c0 Hk Hn0 Hc0. destruct (decide (k = i)) as [->|Hki].
    + rewrite Elow by lia. cbn. rewrite list_lookup_insert_eq by lia.
      assert (n0 = n) as -> by congruence. by assert (c0 = (fw, s)) as -> by congruence.
    + destruct (HU k ltac:(lia)) as [Hkx _]. destruct (Hstep _ _ Hkx Hn0) as (n2 & Hn2 & Hu2).
      apply (Enew k n2 c0); [lia|done|]. rewrite (upd_link _ _ _ Hu2 _ _ Hc0).
      rewrite (decide_False (P := k = i)) by done. by case_decide.
Qed.

(** ** Positions *)

Lemma at_pos_inj hd ns P Q P' Q' :
  NoDup (hd :: (za <$> ns)) -> ns = P ++ Q -> ns = P' ++ Q' -> at_pos hd P = at_pos hd P' -> P = P'.
Proof.
  intros [Hhd Hnd]%NoDup_cons HP HP' Heq.
  destruct P as [|e R _] using rev_ind; destruct P' as [|e' R' _] using rev_ind; [done| | |]; rewrite ?at_pos_snoc in Heq.
  - exfalso. apply Hhd. cbn in Heq. rewrite Heq, HP', !fmap_app. apply elem_of_app. left. apply elem_of_app. right. cbn. by left.
  - exfalso. apply Hhd. cbn in Heq. rewrite <- Heq, HP, !fmap_app. apply elem_of_app. left. apply elem_of_app. right. cbn. by left.
  - assert ((za <$> ns) !! length R = Some (za e)) as H1.
    { rewrite HP, <- app_assoc, list_lookup_fmap. cbn [app]. by rewrite list_lookup_middle. }
    assert ((za <$> ns) !! length R' = Some (za e')) as H2.
    { rewrite HP', <- app_assoc, list_lookup_fmap. cbn [app]. by rewrite list_lookup_middle. }
    rewrite Heq in H1. pose proof (NoDup_lookup _ _ _ _ Hnd H1 H2) as Hlen.
    rewrite HP in HP'. apply app_inj_1 in HP' as [-> _]; [done|]. rewrite !length_app. simpl. lia.
Qed.

(** The node before the position on level [k], and its rank. *)
Definition U (hd : zaddr) (A : list zentry) (k : nat) : zaddr := at_pos hd (upto k A).
Definition R (A : list zentry) (k : nat) : Z := Z.of_nat (length (upto k A)).

(** A node at or before the position is the one on level [k] exactly when no
    later entry of [A] reaches the level. *)
Lemma U_here hd A B P M k :
  NoDup (hd :: (za <$> (A ++ B))) -> A = P ++ M -> reaches k P -> U hd A k = at_pos hd P <-> low k M.
Proof.
  intros Hnd HA HP. unfold U. rewrite HA, upto_app by done. split.
  - intros Heq. destruct (upto_split k M) as (M' & HM & Hlow & _).
    assert (P ++ upto k M = P) as Hnil.
    { apply (at_pos_inj hd (A ++ B) _ (M' ++ B) _ (M ++ B)); [done| | |done].
      - by rewrite HA, HM at 1; rewrite <- !app_assoc.
      - by rewrite HA, <- app_assoc. }
    rewrite <- (app_nil_r P) in Hnil at 2. apply app_inv_head in Hnil. rewrite Hnil in HM. by rewrite HM.
  - intros Hlow. by rewrite (upto_low k M Hlow), app_nil_r.
Qed.

(** The nodes after the position are not touched. *)
Lemma U_after hd A B P y M k : NoDup (hd :: (za <$> (A ++ B))) -> B = P ++ y :: M -> U hd A k <> za y.
Proof.
  intros Hnd HB Heq. destruct (upto_split k A) as (R' & HA & _ & _).
  assert (upto k A = A ++ P ++ [y]) as Hbad.
  { apply (at_pos_inj hd (A ++ B) _ (R' ++ B) _ M); [done| | |].
    - by rewrite HA at 1; rewrite <- app_assoc.
    - by rewrite HB, <- !app_assoc.
    - by rewrite app_assoc, at_pos_snoc. }
  apply (f_equal length) in Hbad. apply (f_equal length) in HA. rewrite !length_app in *. simpl in Hbad. lia.
Qed.

(** ** Linking a new node *)

Lemma upd_znode g P y Q Q' n' :
  upd_node g (znode P y Q) n' -> (forall k, (k < zh y)%nat -> g k (lv k Q) = lv k Q') -> n' = znode P y Q'.
Proof.
  intros [E1 E2 E3 E4 E5] Hg. destruct n' as [e' s' b' l']. cbn in *. subst. unfold znode. f_equal.
  rewrite length_map, length_seq in E4. apply list_eq. intros k. destruct (decide (k < zh y)%nat) as [Hk|Hk].
  - rewrite (E5 k (lv k Q)); [|by apply (znode_level P y Q)]. rewrite Hg by done. symmetry.
    by apply (znode_level P y Q').
  - rewrite !(lookup_ge_None_2 _ k); [done|rewrite length_map, length_seq; lia|lia].
Qed.

Lemma upd_header L g n n' ns ns' :
  zheader_ok L n ns -> upd_node g n n' ->
  (forall k, (k < L)%nat -> g k (lv k ns) = lv k ns') -> (forall k c, (L <= k)%nat -> g k c = c) -> zheader_ok L n' ns'.
Proof.
  intros (H1 & H2 & H3 & H4) [E1 E2 E3 E4 E5] Hg Hid. split_and!; [congruence|congruence| |].
  - intros k Hk. rewrite (E5 _ _ (H3 k Hk)). by rewrite Hg.
  - intros k Hk. destruct (H4 k Hk) as [s Hs]. exists s. rewrite (E5 _ _ Hs). rewrite Hid by lia. done.
Qed.


Section Insert.
Context (h : zheap) (hd : zaddr) (L : nat) (A B : list zentry) (Hcore : zcore h hd L (A ++ B)).
Context (x : zaddr) (Hx : h !! x = None) (sc : double) (e : sds) (lvl : nat).
Hypothesis Hlvl : (1 <= lvl <= L)%nat.
Hypothesis Hlen : Z.of_nat (length (A ++ B)) + 1 < 2 ^ 32.
Let new : zentry := mk_entry x sc e lvl.

Lemma core_U k : (k < L)%nat -> U hd A k <> x /\ exists n, h !! U hd A k = Some n /\
  level n !! k = Some (fwd k B, Z.of_nat (length A) - R A k + spn k B).
Proof.
  intros Hk. destruct (upto_split k A) as (R' & HA & Hlow & Hr).
  destruct (struct_level h hd L (A ++ B) Hcore (upto k A) (R' ++ B) k) as (n & Hn & Hl).
  - by rewrite HA at 1; rewrite <- app_assoc.
  - by apply hgt_reaches.
  - split; [unfold U; congruence|]. exists n. split; [done|]. rewrite Hl. unfold lv.
    rewrite fwd_low, spn_low by done. do 2 f_equal. unfold R. apply (f_equal length) in HA.
    rewrite length_app in HA. lia.
Qed.

(** What happens to the link on level [k] of a node that is not the new one. *)
Definition inserted (q : zaddr) (k : nat) (c : zlink) : zlink :=
  if decide ((k < L)%nat /\ U hd A k = q) then
    if (k <? lvl)%nat then (Some x, u32 (u32 (Z.of_nat (length A) - R A k) + 1)) else (c.1, u64 (c.2 + 1))
  else c.

Lemma inserted_before P M k : A = P ++ M -> reaches k P -> (k < L)%nat ->
  inserted (at_pos hd P) k (lv k (M ++ B)) = lv k (M ++ new :: B).
Proof.
  intros HA HP Hk. unfold inserted. pose proof (U_here hd A B P M k (core_nodup _ _ _ _ Hcore) HA HP) as HU.
  assert (length A = length P + length M)%nat as Hl by (by rewrite HA, length_app).
  destruct (low_or_high k M) as [Hlow|(M1 & y & M2 & -> & Hlow & Hy)].
  - rewrite decide_True by (split; [done|by apply HU]). unfold lv. rewrite !fwd_low, !spn_low by done.
    destruct (Nat.ltb_spec k lvl) as [Hkl|Hkl].
    + rewrite fwd_high, spn_high by done. f_equal. unfold R. rewrite HA, upto_app, upto_low, app_nil_r, length_app by done.
      rewrite length_app in Hlen. rewrite (u32_small (_ - _)) by lia. rewrite u32_small by lia. lia.
    + cbn [fst snd fwd spn zh new]. destruct (Nat.ltb_spec k lvl); [lia|]. f_equal.
      pose proof (spn_range k B). rewrite length_app in Hlen. rewrite u64_small by lia. lia.
  - rewrite decide_False.
    + unfold lv. rewrite <- !app_assoc. cbn [app]. rewrite !(fwd_low k M1), !(spn_low k M1) by done. by rewrite !fwd_high, !spn_high by done.
    + intros [_ HUk]. apply HU in HUk. apply Forall_app in HUk as [_ HUk]. apply Forall_cons in HUk as [HUk _]. lia.
Qed.


(** The links after both loops. *)
Lemma insert_loops n0 :
  ele n0 = Some e -> score n0 = sc -> length (level n0) = lvl ->
  exists h2 h3,
    link_loop (map (update_of hd A) (seq 0 lvl)) x (Z.of_nat (length A)) 0 (<[x := n0]> h) = Some (tt, h2) /\
    incr_loop (map (U hd A) (seq lvl (L - lvl))) lvl h2 = Some (tt, h3) /\
    (forall q, h !! q = None -> q <> x -> h3 !! q = None) /\
    (forall q n, h !! q = Some n -> exists n', h3 !! q = Some n' /\ upd_node (inserted q) n n') /\
    h3 !! x = Some (mk_znode (Some e) sc (backward n0) (map (fun k => lv k B) (seq 0 lvl))).
Proof.
  intros He Hs Hl0.
  assert (forall q n, h !! q = Some n -> (<[x := n0]> h) !! q = Some n) as Hkeep.
  { intros q n Hq. rewrite lookup_insert_ne; [done|]. intros <-. congruence. }
  destruct (link_loop_spec (U hd A) (R A) x (Z.of_nat (length A)) lvl 0 (<[x := n0]> h) n0)
    as (h2 & nx & Hlink & Hnone2 & Hupd2 & Hx2 & E1 & E2 & E3 & E4 & _ & Enew).
  { apply lookup_insert_eq. }
  { lia. }
  { intros k Hk. destruct (core_U k ltac:(lia)) as (Hne & n & Hn & Hc). split; [done|]. exists n. eexists. by split; [apply Hkeep|]. }
  destruct (incr_loop_spec (U hd A) x nx (L - lvl) lvl h2 Hx2) as (h3 & Hincr & Hx3 & Hnone3 & Hupd3).
  { intros k Hk. destruct (core_U k ltac:(lia)) as (Hne & n & Hn & Hc). split; [done|].
    destruct (Hupd2 _ _ Hne (Hkeep _ _ Hn)) as (n' & Hn' & Hu). exists n'. eexists. split; [done|]. by apply (upd_link _ _ _ Hu). }
  exists h2, h3. split_and!; [exact Hlink|exact Hincr| | |].
  - intros q Hq Hqx. apply Hnone3, Hnone2. by rewrite lookup_insert_ne.
  - intros q n Hq. assert (q <> x) as Hqx by congruence.
    destruct (Hupd2 q n Hqx (Hkeep _ _ Hq)) as (n2 & Hn2 & Hu2). destruct (Hupd3 q n2 Hn2) as (n3 & Hn3 & Hu3).
    exists n3. split; [done|]. eapply upd_node_ext; [|eapply upd_node_trans; [exact Hu2|exact Hu3]].
    intros k c Hc. cbv beta. unfold inserted. destruct (Nat.ltb_spec k lvl) as [Hk|Hk].
    + rewrite decide_False by lia. apply decide_ext. intuition lia.
    + rewrite (decide_False (P := (0 <= k < 0 + lvl)%nat /\ U hd A k = q)) by lia. apply decide_ext. intuition lia.
  - rewrite Hx3. f_equal. destruct nx as [e' s' b' l']. cbn in E1, E2, E3, E4, Enew.
    rewrite E1, E2, E3, He, Hs. f_equal. apply list_eq. intros k. destruct (decide (k < lvl)%nat) as [Hk|Hk].
    + destruct (core_U k ltac:(lia)) as (Hne & n & Hn & Hc). rewrite (Enew k n _ ltac:(lia) (Hkeep _ _ Hn) Hc).
      rewrite list_lookup_fmap, lookup_seq_lt by lia. cbn. unfold lv. do 2 f_equal.
      destruct (upto_split k A) as (R' & HA & _). apply (f_equal length) in HA. rewrite length_app in HA, Hlen.
      unfold R. pose proof (spn_range k B). rewrite (u32_small) by lia. rewrite u64_small by lia. lia.
    + rewrite !(lookup_ge_None_2 _ k); [done|rewrite length_map, length_seq; lia|lia].
Qed.

(** The backward pointers. *)
Definition fix_back (h3 : zheap) : zheap :=
  match B with
  | [] => <[x := znode A new B]> h3
  | y :: B2 => <[za y := znode (A ++ [new]) y B2]> (<[x := znode A new B]> h3)
  end.

Lemma x_not_in : x ∉ hd :: (za <$> (A ++ B)).
Proof.
  intros Hin. apply elem_of_cons in Hin as [->|Hin].
  - destruct (core_header _ _ _ _ Hcore) as (n & Hn & _). congruence.
  - apply list_elem_of_fmap in Hin as (y & -> & Hy). apply list_elem_of_split in Hy as (P & Q & Hy).
    rewrite (core_nodes _ _ _ _ Hcore P y Q Hy) in Hx. done.
Qed.

Section Nodes.
Context (h3 : zheap).
Hypothesis Hupd : forall q n, h !! q = Some n -> exists n', h3 !! q = Some n' /\ upd_node (inserted q) n n'.

Lemma fix_back_other q : q <> x -> (forall y B2, B = y :: B2 -> q <> za y) -> fix_back h3 !! q = h3 !! q.
Proof.
  clear Hcore Hlen. intros Hq Hy. unfold fix_back. destruct B as [|y B2]; [by rewrite lookup_insert_ne by congruence|].
  specialize (Hy y B2 eq_refl). by rewrite !lookup_insert_ne by congruence.
Qed.

Lemma addr_in P y M : A ++ B = P ++ y :: M -> za y <> x.
Proof.
  intros HAB Heq. pose proof x_not_in as Hn. apply Hn. apply elem_of_cons. right.
  rewrite HAB, fmap_app, elem_of_app. right. cbn. rewrite Heq. by left.
Qed.

Lemma addr_neq P y M P' y' M' : A ++ B = P ++ y :: M -> A ++ B = P' ++ y' :: M' -> za y = za y' -> P = P'.
Proof.
  intros H1 H2 Heq. assert (P ++ [y] = P' ++ [y']) as Hs.
  { apply (at_pos_inj hd (A ++ B) _ M _ M'); [apply (core_nodup _ _ _ _ Hcore)|..].
    - by rewrite H1, <- app_assoc.
    - by rewrite H2, <- app_assoc.
    - by rewrite !at_pos_snoc. }
  by apply app_inj_2 in Hs as [-> _].
Qed.

Lemma node_before P y M : A = P ++ y :: M -> fix_back h3 !! za y = Some (znode P y (M ++ new :: B)).
Proof.
  intros HA. assert (A ++ B = P ++ y :: M ++ B) as HAB by (by rewrite HA, <- app_assoc).
  destruct (Hupd _ _ (core_nodes _ _ _ _ Hcore _ _ _ HAB)) as (n' & Hn' & Hu).
  rewrite fix_back_other; [|by eapply addr_in|].
  - rewrite Hn'. f_equal. eapply upd_znode; [exact Hu|]. intros k Hk.
    rewrite <- (at_pos_snoc hd P y). apply inserted_before.
    + by rewrite <- app_assoc.
    + intros P' y' HP'. by apply app_inj_2 in HP' as [_ [= <-]].
    + pose proof (core_heights _ _ _ _ Hcore) as Hh. rewrite HAB in Hh. apply Forall_app in Hh as [_ Hh].
      apply Forall_cons in Hh as [Hh _]. lia.
  - intros y' B2 HB Heq. assert (P = A) as HP.
    { eapply addr_neq; [exact HAB| |exact Heq]. by rewrite HB. }
    rewrite HP in HA. apply (f_equal length) in HA. rewrite length_app in HA. simpl in HA. lia.
Qed.

Lemma node_after M y Q : B = M ++ y :: Q -> fix_back h3 !! za y = Some (znode (A ++ new :: M) y Q).
Proof.
  intros HB. destruct M as [|y' M].
  { unfold fix_back. rewrite HB. cbn. by rewrite lookup_insert_eq. }
  assert (A ++ B = (A ++ y' :: M) ++ y :: Q) as HAB by (by rewrite HB, <- app_assoc).
  destruct (Hupd _ _ (core_nodes _ _ _ _ Hcore _ _ _ HAB)) as (n' & Hn' & Hu).
  rewrite fix_back_other; [|by eapply addr_in|].
  - rewrite Hn'. f_equal. transitivity (znode (A ++ y' :: M) y Q).
    + eapply upd_znode; [exact Hu|]. intros k Hk. unfold inserted. rewrite decide_False; [done|].
      intros [_ HU]. by apply (U_after hd A B _ _ _ k (core_nodup _ _ _ _ Hcore) HB).
    + unfold znode. f_equal. unfold prev_addr. rewrite !last_app, !last_cons. by destruct (last M).
  - intros y2 B2 HB2 Heq. assert (A ++ y' :: M = A) as HP.
    { eapply addr_neq; [exact HAB| |exact Heq]. by rewrite HB2. }
    apply (f_equal length) in HP. rewrite length_app in HP. simpl in HP. lia.
Qed.
End Nodes.

Lemma insert_core h3 :
  (forall q n, h !! q = Some n -> exists n', h3 !! q = Some n' /\ upd_node (inserted q) n n') ->
  h3 !! x = Some (mk_znode (Some e) sc None (map (fun k => lv k B) (seq 0 lvl))) ->
  zcore (fix_back h3) hd L (A ++ new :: B).
Proof.
  intros Hupd Hx3. pose proof (core_nodup _ _ _ _ Hcore) as Hnd. pose proof x_not_in as Hxn.
  apply not_elem_of_cons in Hxn as [Hxhd Hxn].
  assert (fix_back h3 !! x = Some (znode A new B)) as Hfx.
  { unfold fix_back. destruct B as [|y B2]; [apply lookup_insert_eq|].
    rewrite lookup_insert_ne; [apply lookup_insert_eq|]. intros Heq. apply Hxn. rewrite fmap_app, elem_of_app. right.
    cbn. rewrite Heq. by left. }
  split.
  - destruct (core_header _ _ _ _ Hcore) as (n & Hn & Hok). destruct (Hupd _ _ Hn) as (n' & Hn' & Hu). exists n'. split.
    + rewrite fix_back_other; [done|congruence|]. intros y B2 HB Heq. apply NoDup_cons in Hnd as [Hnd _]. apply Hnd.
      rewrite Heq, HB, fmap_app, elem_of_app. right. cbn. by left.
    + eapply upd_header; [exact Hok|exact Hu| |].
      * intros k Hk. by apply (inserted_before [] A k); [|intros [] ? ?|].
      * intros k c Hk. unfold inserted. by rewrite decide_False by lia.
  - intros P y Q Heq. destruct (app_eq_inv _ _ _ _ Heq) as [(M & HA & HM)|(M & HP & HM)].
    + destruct M as [|y' M]; cbn in HM; [injection HM as -> ->; rewrite app_nil_r in HA; by rewrite <- HA|].
      injection HM as -> ->. by apply node_before.
    + destruct M as [|y' M]; cbn in HM; [injection HM as <- <-; rewrite app_nil_r in HP; by rewrite HP|].
      injection HM as <- HB. rewrite HP. by apply node_after.
  - pose proof (core_heights _ _ _ _ Hcore) as Hh. apply Forall_app in Hh as [HhA HhB].
    apply Forall_app. split; [done|]. constructor; [done|done].
  - apply (core_max _ _ _ _ Hcore).
  - rewrite length_app in *. simpl. lia.
  - rewrite fmap_app. cbn. rewrite <- Permutation_middle. rewrite fmap_app in Hnd, Hxn.
    apply NoDup_cons in Hnd as [Hhd Hnd]. constructor; [|by constructor].
    apply not_elem_of_cons. by split.
Qed.
End Insert.

(** ** zslInsert *)

Lemma fwd_None i Q : fwd i Q = None <-> low i Q.
Proof.
  split.
  - induction Q as [|e Q IH]; [constructor|]. cbn [fwd]. destruct (Nat.ltb_spec i (zh e)); [done|].
    intros HQ. constructor; [done|by apply IH].
  - intros HQ. rewrite <- (app_nil_r Q). by rewrite fwd_low.
Qed.

Lemma core_low h hd L ns k : zcore h hd L ns -> (L <= k)%nat -> low k ns.
Proof. intros Hc Hk. eapply Forall_impl; [apply (core_heights _ _ _ _ Hc)|]. simpl. lia. Qed.

(** The header's links above the level of the list. *)
Lemma raise_one h hd L ns n :
  zcore h hd L ns -> h !! hd = Some n -> (L < ZSKIPLIST_MAXLEVEL)%nat ->
  zcore (<[hd := put_level L (None, Z.of_nat (length ns)) n]> h) hd (S L) ns.
Proof.
  intros Hc Hn HL. pose proof Hc as [(n' & Hn' & H1 & H2 & H3 & H4) Hnodes Hh Hm Hl Hnd].
  assert (n' = n) as -> by congruence. split; [| | | |done|done].
  - eexists. rewrite lookup_insert_eq. split; [done|]. split_and!; [done|by cbn; rewrite length_insert| |].
    + intros i Hi. cbn. destruct (decide (i = L)) as [->|Hne].
      * rewrite list_lookup_insert_eq by (rewrite H2; done). unfold lv. pose proof (core_low _ _ _ _ L Hc ltac:(lia)) as Hlow.
        rewrite (proj2 (fwd_None L ns) Hlow). rewrite <- (app_nil_r ns), spn_low by done. cbn. by rewrite app_nil_r, Z.add_0_r.
      * rewrite list_lookup_insert_ne by done. apply H3. lia.
    + intros i Hi. cbn. rewrite list_lookup_insert_ne by lia. apply H4. lia.
  - intros P y Q Heq. rewrite lookup_insert_ne; [by apply Hnodes|]. intros Heq'. apply NoDup_cons in Hnd as [Hhd _].
    apply Hhd. rewrite Heq', Heq, fmap_app, elem_of_app. right. cbn. by left.
  - eapply Forall_impl; [exact Hh|]. simpl. lia.
  - lia.
Qed.

Lemma raise_loop_spec z ns m : forall h L,
  zcore h (header z) L ns -> zlength z = Z.of_nat (length ns) -> (L + m <= ZSKIPLIST_MAXLEVEL)%nat ->
  exists h', raise_loop m z L h = Some (replicate m (header z, 0), h') /\ zcore h' (header z) (L + m) ns /\
    (forall q, q <> header z -> h' !! q = h !! q).
Proof.
  induction m as [|m IH]; intros h L Hc Hlen Hm.
  { exists h. rewrite Nat.add_0_r. done. }
  pose proof Hc as [(n & Hn & H1 & H2 & H3 & H4) _ _ _ _ _]. destruct (H4 L ltac:(lia)) as [s Hs]. cbn [raise_loop].
  rewrite (hbind_ok _ _ _ _ _ (get_level_ok _ _ _ _ _ Hn Hs)), (hbind_ok _ _ _ _ _ (set_level_ok _ _ _ _ _ _ Hn Hs)).
  rewrite Hlen. destruct (IH _ (S L) (raise_one _ _ _ _ _ Hc Hn ltac:(lia)) Hlen ltac:(lia)) as (h' & Hr & Hc' & Hf).
  exists h'. rewrite (hbind_ok _ _ _ _ _ Hr). split_and!; [done|by rewrite <- Nat.add_succ_comm|].
  intros q Hq. rewrite Hf by done. by apply lookup_insert_ne.
Qed.

Lemma ups_raised hd A L m : low L A ->
  map (update_of hd A) (seq 0 L) ++ replicate m (hd, 0) = map (update_of hd A) (seq 0 (L + m)).
Proof.
  intros Hlow. rewrite seq_app, map_app. f_equal. cbn. induction m as [|m IH] in L, Hlow |- *; [done|]. cbn.
  rewrite <- IH by (eapply Forall_impl; [exact Hlow|simpl; lia]). f_equal. unfold update_of.
  rewrite (upto_low L A Hlow). done.
Qed.

Lemma at_pos_prev hd A B : NoDup (hd :: (za <$> (A ++ B))) ->
  (if bool_decide (at_pos hd A = hd) then None else Some (at_pos hd A)) = prev_addr A.
Proof.
  intros Hnd. destruct A as [|e A _] using rev_ind; [by rewrite bool_decide_eq_true_2|].
  rewrite at_pos_snoc, prev_addr_snoc, bool_decide_eq_false_2; [done|]. intros Heq.
  apply NoDup_cons in Hnd as [Hhd _]. apply Hhd. rewrite <- Heq, !fmap_app, !elem_of_app. left. right. cbn. by left.
Qed.

Lemma upd_node_same n n' : upd_node (fun _ c => c) n n' -> n' = n.
Proof.
  intros [E1 E2 E3 E4 E5]. destruct n as [e s b l], n' as [e' s' b' l']. cbn in *. subst. f_equal. apply list_eq.
  intros k. destruct (decide (k < length l)%nat) as [Hk|Hk].
  - destruct (lookup_lt_is_Some_2 l k Hk) as [c Hc]. by rewrite (E5 k c Hc).
  - rewrite !(lookup_ge_None_2 _ k) by lia. done.
Qed.
