(* ===== verification/SkiplistDelete.v ===== *)
(** * Skip lists: unlinking a node (zslDeleteNode) *)
From stdpp Require Import prelude list gmap sorting.
From Stdlib Require Import ZArith Lia.
From S2P Require Import Prelude Double Skiplist SkiplistRep SkiplistInsert.

Local Open Scope Z_scope.

(** Nodes that do not belong to the list are left alone. *)
Definition zframe (h h' : zheap) (hd : zaddr) (ns : list zentry) : Prop :=
  forall q, q ∉ hd :: (za <$> ns) -> h' !! q = h !! q.

Lemma U_elem hd A k : U hd A k ∈ hd :: (za <$> A).
Proof.
  unfold U. destruct (upto_split k A) as (R' & HA & _ & _). destruct (upto k A) as [|e P _] using rev_ind; [by left|].
  rewrite at_pos_snoc, HA, !fmap_app. right. rewrite !elem_of_app. left. right. cbn. by left.
Qed.

Lemma fwd_elem i Q a : fwd i Q = Some a -> a ∈ za <$> Q.
Proof.
  induction Q as [|e Q IH]; [done|]. cbn [fwd]. destruct (i <? zh e)%nat; cbn; [intros [= <-]; by left|].
  intros Hf. right. by apply IH.
Qed.

Section Delete.
Context (h : zheap) (hd : zaddr) (L : nat) (A : list zentry) (y : zentry) (B : list zentry).
Context (Hcore : zcore h hd L (A ++ y :: B)).

Lemma y_not_in : (za y ∉ hd :: (za <$> A)) /\ (za y ∉ za <$> B).
Proof.
  pose proof (core_nodup _ _ _ _ Hcore) as Hnd. rewrite fmap_app in Hnd. cbn [fmap list_fmap] in Hnd.
  rewrite <- Permutation_middle, Permutation_swap in Hnd. apply NoDup_cons in Hnd as [Hn _].
  rewrite not_elem_of_cons, not_elem_of_app in Hn. rewrite not_elem_of_cons. tauto.
Qed.

Lemma y_height : (1 <= zh y <= L)%nat.
Proof.
  pose proof (core_heights _ _ _ _ Hcore) as Hh. apply Forall_app in Hh as [_ Hh]. by apply Forall_cons in Hh as [? _].
Qed.

(** What happens to the link on level [k] of a node that is not the removed
    one. *)
Definition unlinked (q : zaddr) (k : nat) (c : zlink) : zlink :=
  if decide ((0 <= k < 0 + L)%nat /\ U hd A k = q) then
    if bool_decide (c.1 = Some (za y)) then ((lv k B).1, u64 (c.2 + ((lv k B).2 - 1))) else (c.1, u64 (c.2 - 1))
  else c.

Lemma unlinked_before P M k : A = P ++ M -> reaches k P -> (k < L)%nat ->
  unlinked (at_pos hd P) k (lv k (M ++ y :: B)) = lv k (M ++ B).
Proof.
  intros HA HP Hk. unfold unlinked. destruct y_not_in as [_ HyB].
  pose proof (U_here hd A (y :: B) P M k (core_nodup _ _ _ _ Hcore) HA HP) as HU.
  pose proof (core_len _ _ _ _ Hcore) as Hlen. rewrite HA, !length_app in Hlen. simpl in Hlen.
  pose proof (spn_range k B) as HsB.
  destruct (low_or_high k M) as [Hlow|(M1 & w & M2 & -> & Hlow & Hw)].
  - rewrite decide_True by (split; [lia|by apply HU]). unfold lv. rewrite !(fwd_low k M), !(spn_low k M) by done.
    cbn [fst snd]. destruct (Nat.ltb_spec k (zh y)) as [Hky|Hky].
    + rewrite fwd_high, spn_high, bool_decide_eq_true_2 by done. rewrite u64_small by lia. f_equal. lia.
    + cbn [fwd spn]. destruct (Nat.ltb_spec k (zh y)); [lia|]. rewrite bool_decide_eq_false_2.
      * rewrite u64_small by lia. f_equal. lia.
      * intros Hf. apply HyB. by eapply fwd_elem.
  - rewrite decide_False.
    + unfold lv. rewrite <- !app_assoc. cbn [app]. rewrite !(fwd_low k M1), !(spn_low k M1) by done.
      by rewrite !fwd_high, !spn_high by done.
    + intros [_ HUk]. apply HU in HUk. apply Forall_app in HUk as [_ HUk]. apply Forall_cons in HUk as [HUk _]. lia.
Qed.

Lemma unlink_ok :
  exists h', unlink_loop (map (U hd A) (seq 0 L)) (za y) 0 h = Some (tt, h') /\
    h' !! za y = Some (znode A y B) /\ (forall q, h !! q = None -> h' !! q = None) /\
    (forall q n, h !! q = Some n -> exists n', h' !! q = Some n' /\ upd_node (unlinked q) n n').
Proof.
  apply (unlink_loop_spec (U hd A) (za y) (znode A y B) (fun k => lv k B) L 0 h).
  - by apply (core_nodes _ _ _ _ Hcore).
  - intros k Hk. destruct (upto_split k A) as (R' & HA & Hlow & Hr).
    destruct (struct_level h hd L _ Hcore (upto k A) (R' ++ y :: B) k) as (n & Hn & Hl).
    + rewrite HA at 1. by rewrite <- app_assoc.
    + apply hgt_reaches; [done|lia].
    + split.
      * pose proof (U_elem hd A k) as Hin. destruct y_not_in as [HyA _]. congruence.
      * exists n. eexists. split; [done|]. split; [done|]. cbn. rewrite fwd_low by done. intros Hf.
        apply (znode_level A y B). destruct (Nat.ltb_spec k (zh y)) as [|Hge]; [done|].
        cbn [fwd] in Hf. destruct (Nat.ltb_spec k (zh y)); [lia|]. apply fwd_elem in Hf. by destruct y_not_in.
Qed.

(** The backward pointer of the next node. *)
Definition unfix_back (h1 : zheap) : zheap :=
  match B with [] => h1 | w :: B2 => <[za w := znode A w B2]> h1 end.

Section UnlinkNodes.
Context (h1 : zheap).
Hypothesis Hupd : forall q n, h !! q = Some n -> exists n', h1 !! q = Some n' /\ upd_node (unlinked q) n n'.

Lemma unfix_other q : (forall w B2, B = w :: B2 -> q <> za w) -> unfix_back h1 !! q = h1 !! q.
Proof.
  clear Hcore Hupd. intros Hq. unfold unfix_back. destruct B as [|w B2]; [done|]. specialize (Hq w B2 eq_refl).
  by rewrite lookup_insert_ne by congruence.
Qed.

Lemma addr_pos P w M P' w' M' : A ++ y :: B = P ++ w :: M -> A ++ y :: B = P' ++ w' :: M' -> za w = za w' -> P = P'.
Proof.
  intros H1 H2 Heq. assert (P ++ [w] = P' ++ [w']) as Hs.
  { apply (at_pos_inj hd (A ++ y :: B) _ M _ M'); [apply (core_nodup _ _ _ _ Hcore)|..].
    - by rewrite H1, <- app_assoc.
    - by rewrite H2, <- app_assoc.
    - by rewrite !at_pos_snoc. }
  by apply app_inj_2 in Hs as [-> _].
Qed.

Lemma unlink_before P w M : A = P ++ w :: M -> unfix_back h1 !! za w = Some (znode P w (M ++ B)).
Proof.
  intros HA. assert (A ++ y :: B = P ++ w :: M ++ y :: B) as HAB by (by rewrite HA, <- app_assoc).
  destruct (Hupd _ _ (core_nodes _ _ _ _ Hcore _ _ _ HAB)) as (n' & Hn' & Hu). rewrite unfix_other.
  - rewrite Hn'. f_equal. eapply upd_znode; [exact Hu|]. intros k Hk.
    rewrite <- (at_pos_snoc hd P w). apply unlinked_before.
    + by rewrite <- app_assoc.
    + intros P' w' HP'. by apply app_inj_2 in HP' as [_ [= <-]].
    + pose proof (core_heights _ _ _ _ Hcore) as Hh. rewrite HAB in Hh. apply Forall_app in Hh as [_ Hh].
      apply Forall_cons in Hh as [Hh _]. lia.
  - intros w' B2 HB Heq. assert (P = A ++ [y]) as HP.
    { eapply addr_pos; [exact HAB| |exact Heq]. by rewrite HB, <- app_assoc. }
    rewrite HP in HA. apply (f_equal length) in HA. rewrite !length_app in HA. simpl in HA. lia.
Qed.

Lemma unlink_after M w Q : B = M ++ w :: Q -> unfix_back h1 !! za w = Some (znode (A ++ M) w Q).
Proof.
  intros HB. destruct M as [|w' M].
  { unfold unfix_back. rewrite HB. cbn. by rewrite lookup_insert_eq, app_nil_r. }
  assert (A ++ y :: B = (A ++ y :: w' :: M) ++ w :: Q) as HAB by (by rewrite HB, <- app_assoc).
  destruct (Hupd _ _ (core_nodes _ _ _ _ Hcore _ _ _ HAB)) as (n' & Hn' & Hu). rewrite unfix_other.
  - rewrite Hn'. f_equal. transitivity (znode (A ++ y :: w' :: M) w Q).
    + eapply upd_znode; [exact Hu|]. intros k Hk. unfold unlinked. rewrite decide_False; [done|].
      intros [_ HU]. apply (U_after hd A (y :: B) (y :: w' :: M) w Q k (core_nodup _ _ _ _ Hcore)); [by rewrite HB|done].
    + unfold znode. f_equal. unfold prev_addr. rewrite !last_app, !last_cons. by destruct (last M).
  - intros w2 B2 HB2 Heq. assert (A ++ y :: w' :: M = A ++ [y]) as HP.
    { eapply addr_pos; [exact HAB| |exact Heq]. by rewrite HB2, <- app_assoc. }
    apply (f_equal length) in HP. rewrite !length_app in HP. simpl in HP. lia.
Qed.
End UnlinkNodes.

Lemma unlink_core h1 :
  (forall q n, h !! q = Some n -> exists n', h1 !! q = Some n' /\ upd_node (unlinked q) n n') ->
  zcore (unfix_back h1) hd L (A ++ B).
Proof.
  intros Hupd. pose proof (core_nodup _ _ _ _ Hcore) as Hnd. pose proof y_height as Hhy.
  split.
  - destruct (core_header _ _ _ _ Hcore) as (n & Hn & Hok). destruct (Hupd _ _ Hn) as (n' & Hn' & Hu). exists n'. split.
    + rewrite unfix_other; [done|]. intros w B2 HB Heq. apply NoDup_cons in Hnd as [Hnd _]. apply Hnd.
      rewrite Heq, HB, fmap_app, elem_of_app. right. cbn. right. by left.
    + eapply upd_header; [exact Hok|exact Hu| |].
      * intros k Hk. by apply (unlinked_before [] A k); [|intros [] ? ?|].
      * intros k c Hk. unfold unlinked. by rewrite decide_False by lia.
  - intros P w Q Heq. destruct (app_eq_inv _ _ _ _ Heq) as [(M & HA & HM)|(M & HP & HM)].
    + destruct M as [|w' M].
      * cbn in HM. rewrite app_nil_r in HA. rewrite <- HA, (unlink_after h1 Hupd [] w Q) by done. by rewrite app_nil_r.
      * cbn in HM. injection HM as -> ->. by apply unlink_before.
    + rewrite HP. by apply unlink_after.
  - pose proof (core_heights _ _ _ _ Hcore) as Hh. apply Forall_app in Hh as [HhA HhB]. apply Forall_cons in HhB as [_ HhB].
    by apply Forall_app.
  - apply (core_max _ _ _ _ Hcore).
  - pose proof (core_len _ _ _ _ Hcore) as Hl. rewrite length_app in *. simpl in Hl. lia.
  - rewrite fmap_app in *. cbn [fmap list_fmap] in Hnd. rewrite <- Permutation_middle, Permutation_swap in Hnd.
    by apply NoDup_cons in Hnd as [_ Hnd].
Qed.
End Delete.

(** ** Lowering the level *)

Lemma lower_core h hd L ns : zcore h hd (S L) ns -> (1 <= L)%nat -> fwd L ns = None -> zcore h hd L ns.
Proof.
  intros [(n & Hn & H1 & H2 & H3 & H4) Hnodes Hh Hm Hl Hnd] HL Hf. apply fwd_None in Hf. split; [|done| |lia|done|done].
  - exists n. split; [done|]. split_and!; [done|done|intros; apply H3; lia|]. intros i Hi.
    destruct (decide (i = L)) as [->|]; [|apply H4; lia]. exists (spn L ns). rewrite (H3 L) by lia. unfold lv.
    by rewrite (proj2 (fwd_None L ns) Hf).
  - apply Forall_forall. intros e He. rewrite Forall_forall in Hh. unfold low in Hf. rewrite Forall_forall in Hf.
    specialize (Hh e He). specialize (Hf e He). lia.
Qed.

Lemma lower_level_spec h hd ns L : zcore h hd L ns ->
  exists L', lower_level L hd h = Some (L', h) /\ (L' <= L)%nat /\ zcore h hd L' ns /\
    (L' = 1%nat \/ fwd (L' - 1) ns <> None).
Proof.
  induction L as [|L IH]; intros Hc; [pose proof (core_max _ _ _ _ Hc); lia|].
  destruct L as [|L]; [exists 1%nat; by split_and!; [| | |left]|].
  change (lower_level (S (S L)) hd) with
    ('(fw, _) ← get_level hd (S L); match fw with None => lower_level (S L) hd | Some _ => mret (S (S L)) end).
  rewrite (hbind_ok _ _ _ _ _ (level_get h hd (S (S L)) ns Hc [] ns (S L) eq_refl ltac:(cbn; lia))). cbn [lv fst snd].
  destruct (fwd (S L) ns) as [a|] eqn:Hf.
  - exists (S (S L)). split_and!; [done|lia|done|]. right. cbn. congruence.
  - destruct (IH (lower_core _ _ _ _ Hc ltac:(lia) Hf)) as (L' & HL & Hle & Hc' & Ht). exists L'. split_and!; [done|lia|done|done].
Qed.

(** ** zslDeleteNode *)

Lemma unlink_frame h h1 hd L A y B :
  (forall q, h !! q = None -> h1 !! q = None) ->
  (forall q n, h !! q = Some n -> exists n', h1 !! q = Some n' /\ upd_node (unlinked hd L A y B q) n n') ->
  zframe h (unfix_back A B h1) hd (A ++ B).
Proof.
  intros Hnone Hupd q Hq. apply not_elem_of_cons in Hq as [Hqh Hq]. rewrite fmap_app in Hq. apply not_elem_of_app in Hq as [HqA HqB].
  rewrite unfix_other.
  - destruct (h !! q) as [n|] eqn:Hn; [|by apply Hnone]. destruct (Hupd q n Hn) as (n' & Hn' & Hu). rewrite Hn'. f_equal.
    apply upd_node_same. eapply upd_node_ext; [|exact Hu]. intros k c _. unfold unlinked. rewrite decide_False; [done|].
    intros [_ HU]. pose proof (U_elem hd A k) as Hin. rewrite HU in Hin. apply elem_of_cons in Hin as [?|?]; done.
  - intros w B2 -> ->. apply HqB. cbn. by left.
Qed.

Lemma zslDeleteNode_struct h z A y B update :
  zsl_struct h z (A ++ y :: B) -> take (zlevel z) update = map (U (header z) A) (seq 0 (zlevel z)) ->
  exists z' h', zslDeleteNode z (za y) update h = Some (z', h') /\ header z' = header z /\ (zlevel z' <= zlevel z)%nat /\
    zsl_struct h' z' (A ++ B) /\ zframe h h' (header z) (A ++ B).
Proof.
  intros [Hc Ht Htl Hl] Hup. pose proof (core_len _ _ _ _ Hc) as Hln.
  destruct (unlink_ok h (header z) (zlevel z) A y B Hc) as (h1 & Hun & Hy1 & Hnone & Hupd).
  unfold zslDeleteNode. rewrite Hup, (hbind_ok _ _ _ _ _ Hun), (hbind_ok _ _ _ _ _ (zload_ok _ _ _ Hy1)).
  pose proof (y_height h (header z) (zlevel z) A y B Hc) as Hhy.
  rewrite (hbind_ok _ _ _ _ _ (get_level_ok _ _ _ 0 _ Hy1 (znode_level A y B 0 ltac:(lia)))). cbn [lv fst snd backward znode].
  pose proof (unlink_core h (header z) (zlevel z) A y B Hc h1 Hupd) as Hc1.
  pose proof (unlink_frame h h1 (header z) (zlevel z) A y B Hnone Hupd) as Hframe.
  destruct (lower_level_spec _ _ _ _ Hc1) as (L' & Hlow & HL' & Hc2 & Ht2).
  assert (u64 (zlength z - 1) = Z.of_nat (length (A ++ B))) as Hlen'.
  { rewrite Hl, length_app in *. simpl in *. rewrite u64_small by lia. rewrite length_app. lia. }
  assert (forall tl, tl = prev_addr (A ++ B) -> zsl_struct (unfix_back A B h1) (mk_zsl (header z) tl (u64 (zlength z - 1)) L') (A ++ B)) as Hst.
  { intros tl ->. by split. }
  destruct B as [|w B2].
  - eexists _, _. split; [rewrite (hbind_ok _ _ _ (prev_addr A) h1) by done; by rewrite (hbind_ok _ _ _ _ _ Hlow)|].
    split_and!; [done|done|apply Hst; by rewrite app_nil_r|exact Hframe].
  - pose proof (core_heights _ _ _ _ Hc) as Hh. apply Forall_app in Hh as [_ Hh]. apply Forall_cons in Hh as [_ Hh].
    apply Forall_cons in Hh as [Hhw _]. rewrite fwd_high by lia.
    assert (h1 !! za w = Some (znode (A ++ [y]) w B2)) as Hw1.
    { assert (A ++ y :: w :: B2 = (A ++ [y]) ++ w :: B2) as HAB by (by rewrite <- app_assoc).
      destruct (Hupd _ _ (core_nodes _ _ _ _ Hc _ _ _ HAB)) as (n' & Hn' & Hu). rewrite Hn'. f_equal. apply upd_node_same.
      eapply upd_node_ext; [|exact Hu]. intros k c _. unfold unlinked. rewrite decide_False; [done|]. intros [_ HU].
      by apply (U_after (header z) A (y :: w :: B2) [y] w B2 k (core_nodup _ _ _ _ Hc) eq_refl). }
    eexists _, _. split.
    { rewrite (hbind_ok _ _ _ (ztail z) (unfix_back A (w :: B2) h1)); [by rewrite (hbind_ok _ _ _ _ _ Hlow)|].
      by rewrite (hbind_ok _ _ _ _ _ (set_backward_ok _ _ _ _ Hw1)). }
    split_and!; [done|done| |exact Hframe]. apply Hst. rewrite Htl. unfold prev_addr. rewrite !last_app, !last_cons.
    by destruct (last B2).
Qed.
