(* ===== verification/SkiplistOps.v ===== *)
(** * Skip lists: the operations on sorted sequences

    zslInsert, zslDelete, zslUpdateScore, the range deletions, the rank queries
    and the range searches, each shown to do on the heap what the operation
    means on the sorted sequence of entries. *)
From stdpp Require Import prelude list gmap sorting.
From Stdlib Require Import ZArith Lia.
From S2P Require Import Prelude Double Skiplist SkiplistRep SkiplistInsert SkiplistDelete.

Local Open Scope Z_scope.

(** ** Insertion at a position *)

(** [below] holds for the entries of [A] and not for those of [B]. *)
Definition cut (below : zentry -> bool) (A B : list zentry) : Prop :=
  Forall (fun e => below e = true) A /\ Forall (fun e => below e = false) B.

Lemma cut_search h z ns wrap go below A B :
  zsl_struct h z ns -> ns = A ++ B -> (forall n, 0 <= n < 2 ^ 32 -> wrap n = n) ->
  (forall r P e Q, e ∈ ns -> go r (znode P e Q) = below e) -> cut below A B ->
  descend wrap go (zfuel z) (zlevel z) (header z) 0 h =
    Some ((at_pos (header z) A, Z.of_nat (length A), map (update_of (header z) A) (seq 0 (zlevel z))), h).
Proof.
  intros Hz -> Hw Hgo [HA HB]. pose proof (rep_core _ _ _ Hz) as Hc. pose proof (core_len _ _ _ _ Hc) as Hl.
  rewrite !Forall_forall in *.
  eapply (zsl_search_spec h (header z) (zlevel z) (A ++ B) Hc wrap go A B); [|done|..].
  - intros n Hn. apply Hw. lia.
  - intros P e M Q Heq. assert (e ∈ A) as He by (rewrite Heq, elem_of_app; right; by left).
    rewrite Hgo; [by apply HA|apply elem_of_app; by left].
  - intros P e M Q Heq. assert (e ∈ B) as He by (rewrite Heq, elem_of_app; right; by left).
    rewrite Hgo; [by apply HB|apply elem_of_app; by right].
  - unfold zfuel. rewrite (rep_length _ _ _ Hz). lia.
Qed.

(** The ranks fit in an unsigned long. *)
Lemma u64_rank n : 0 <= n < 2 ^ 32 -> u64 n = n.
Proof. intros Hn. apply u64_small. lia. Qed.

Lemma take_ups {T} (f : nat -> T) n m : (n <= m)%nat -> take n (map f (seq 0 m)) = map f (seq 0 n).
Proof. intros Hn. rewrite <- fmap_take, take_seq. do 2 f_equal. lia. Qed.

Lemma drop_ups hd A n m : (n <= m)%nat ->
  drop n (map (update_of hd A) (seq 0 m)).*1 = map (U hd A) (seq n (m - n)).
Proof.
  intros Hn. rewrite <- list_fmap_compose, <- fmap_drop, drop_seq. done.
Qed.

Lemma insert_frame h h3 hd L A B x sc e lvl :
  (forall q, h !! q = None -> q <> x -> h3 !! q = None) ->
  (forall q n, h !! q = Some n -> exists n', h3 !! q = Some n' /\ upd_node (inserted hd L A x lvl q) n n') ->
  zframe h (fix_back A B x sc e lvl h3) hd (A ++ mk_entry x sc e lvl :: B).
Proof.
  intros Hnone Hupd q Hq. apply not_elem_of_cons in Hq as [Hqh Hq]. rewrite fmap_app in Hq. apply not_elem_of_app in Hq as [HqA Hq].
  cbn in Hq. apply not_elem_of_cons in Hq as [Hqx HqB]. rewrite fix_back_other; [|done|].
  - destruct (h !! q) as [n|] eqn:Hn; [|by apply Hnone]. destruct (Hupd q n Hn) as (n' & Hn' & Hu). rewrite Hn'. f_equal.
    apply upd_node_same. eapply upd_node_ext; [|exact Hu]. intros k c _. unfold inserted. rewrite decide_False; [done|].
    intros [_ HU]. pose proof (U_elem hd A k) as Hin. rewrite HU in Hin. apply elem_of_cons in Hin as [?|?]; done.
  - intros y B2 -> ->. apply HqB. cbn. by left.
Qed.

Lemma insert_tight L lvl A B (new : zentry) :
  zh new = lvl -> (1 <= L)%nat -> (1 <= lvl)%nat -> (L = 1%nat \/ fwd (L - 1) (A ++ B) <> None) ->
  Nat.max L lvl = 1%nat \/ fwd (Nat.max L lvl - 1) (A ++ new :: B) <> None.
Proof.
  intros Hn HL Hl Ht. rewrite fwd_None in *. unfold low in *. rewrite !Forall_app, Forall_cons in *.
  destruct (Nat.max_spec L lvl) as [[Hlt ->]|[Hle ->]].
  - right. intros (_ & Hnew & _). lia.
  - destruct Ht as [->|Ht]; [by left|]. right. tauto.
Qed.

Lemma zslInsert_struct h z A B sc e lvl x junk :
  zsl_struct h z (A ++ B) -> h !! x = None -> isnan sc = false -> (1 <= lvl <= ZSKIPLIST_MAXLEVEL)%nat ->
  Z.of_nat (length (A ++ B)) + 1 < 2 ^ 32 -> cut (fun y => key_lt (zs y) (ze y) sc e) A B ->
  exists z' h', zslInsert z sc e lvl x junk h = Some ((z', x), h') /\ header z' = header z /\
    zsl_struct h' z' (A ++ mk_entry x sc e lvl :: B) /\ zframe h h' (header z) (A ++ mk_entry x sc e lvl :: B).
Proof.
  intros Hz Hx Hnan Hlvl Hlen Hcut. pose proof Hz as [Hc Ht Htl Hzl].
  pose proof (core_nodup _ _ _ _ Hc) as Hnd. pose proof (core_max _ _ _ _ Hc) as Hmax. pose proof (core_len _ _ _ _ Hc) as Hln.
  unfold zslInsert. rewrite (hbind_ok _ _ h tt h) by (unfold zassert; by rewrite Hnan).
  rewrite (hbind_ok _ _ _ _ _ (cut_search h z (A ++ B) u32 (fun _ => node_lt sc e) (fun y => key_lt (zs y) (ze y) sc e)
    A B Hz eq_refl u32_small ltac:(reflexivity) Hcut)).
  cbn beta iota zeta.
  destruct (raise_loop_spec z (A ++ B) (lvl - zlevel z) h (zlevel z) Hc Hzl ltac:(lia)) as (h1 & Hraise & Hc1 & Hf1).
  rewrite (hbind_ok _ _ _ _ _ Hraise). cbv zeta.
  replace (zlevel z + (lvl - zlevel z))%nat with (Nat.max (zlevel z) lvl) in Hc1 by lia.
  pose proof (core_low _ _ _ _ (zlevel z) Hc ltac:(lia)) as Hlow. apply Forall_app in Hlow as [HlowA _].
  pose proof (core_heights _ _ _ _ Hc) as Hhts. apply Forall_app in Hhts as [HhA HhB].
  rewrite ups_raised by done.
  replace (zlevel z + (lvl - zlevel z))%nat with (Nat.max (zlevel z) lvl) by lia.
  set (L := Nat.max (zlevel z) lvl) in *.
  assert (h1 !! x = None) as Hx1.
  { rewrite Hf1; [done|]. intros ->. destruct (core_header _ _ _ _ Hc) as (n & Hn & _). congruence. }
  set (n0 := mk_znode (Some e) sc None (take lvl (junk ++ replicate lvl (None, 0)))).
  rewrite (hbind_ok _ _ h1 tt (<[x := n0]> h1)) by done.
  destruct (insert_loops h1 (header z) L A B Hc1 x Hx1 sc e lvl ltac:(lia) Hlen n0 eq_refl eq_refl)
    as (h2 & h3 & Hlink & Hincr & Hnone & Hupd & Hx3).
  { cbn. rewrite length_take, length_app, length_replicate. lia. }
  assert (update_of (header z) A 0 = (at_pos (header z) A, Z.of_nat (length A))) as Hu0.
  { unfold update_of. rewrite upto_all; [done|]. eapply Forall_impl; [exact HhA|]. simpl. lia. }
  rewrite (hbind_ok _ _ (<[x := n0]> h1) (at_pos (header z) A, Z.of_nat (length A)) (<[x := n0]> h1)).
  2: { unfold lift. rewrite list_lookup_fmap, lookup_seq_lt by lia. cbn -[update_of]. by rewrite Hu0. }
  cbn beta iota.
  rewrite take_ups, drop_ups by lia.
  rewrite (hbind_ok _ _ _ _ _ Hlink), (hbind_ok _ _ _ _ _ Hincr), (at_pos_prev _ A B Hnd).
  rewrite (hbind_ok _ _ _ _ _ (set_backward_ok _ _ _ _ Hx3)).
  change (put_backward (prev_addr A) _) with (znode A (mk_entry x sc e lvl) B).
  set (h4 := <[x := znode A (mk_entry x sc e lvl) B]> h3).
  assert (h4 !! x = Some (znode A (mk_entry x sc e lvl) B)) as Hx4 by apply lookup_insert_eq.
  rewrite (hbind_ok _ _ _ _ _ (get_level_ok _ _ _ 0 _ Hx4 (znode_level A (mk_entry x sc e lvl) B 0 ltac:(cbn; lia)))).
  cbn [lv fst snd].
  assert (zcore (fix_back A B x sc e lvl h3) (header z) L (A ++ mk_entry x sc e lvl :: B)) as Hcore'.
  { apply (insert_core h1); done || lia. }
  assert (zframe h (fix_back A B x sc e lvl h3) (header z) (A ++ mk_entry x sc e lvl :: B)) as Hframe.
  { intros q Hq. rewrite (insert_frame h1 h3 (header z) L A B x sc e lvl Hnone Hupd q Hq). apply Hf1.
    by apply not_elem_of_cons in Hq as [? _]. }
  assert (u64 (zlength z + 1) = Z.of_nat (length (A ++ mk_entry x sc e lvl :: B))) as Hlen'.
  { rewrite Hzl, u64_small by lia. rewrite !length_app. simpl. lia. }
  assert (L = 1%nat \/ fwd (L - 1) (A ++ mk_entry x sc e lvl :: B) <> None) as Htight by (apply insert_tight; done || lia).
  destruct B as [|y B2].
  - eexists _, _. split; [reflexivity|]. split; [done|]. split; [|exact Hframe]. split; cbn [header zlevel ztail zlength]; try done.
    by rewrite prev_addr_snoc.
  - apply Forall_cons in HhB as [Hhy _]. rewrite fwd_high by lia.
    assert (h4 !! za y = Some (znode A y B2)) as Hy4.
    { assert (za y <> x) as Hyx.
      { intros Heq. rewrite <- Heq in Hx1. by rewrite (core_nodes _ _ _ _ Hc1 A y B2 eq_refl) in Hx1. }
      unfold h4. rewrite lookup_insert_ne by done.
      destruct (Hupd _ _ (core_nodes _ _ _ _ Hc1 A y B2 eq_refl)) as (n' & Hn' & Hu). rewrite Hn'. f_equal.
      apply upd_node_same. eapply upd_node_ext; [|exact Hu]. intros k c _. unfold inserted. rewrite decide_False; [done|].
      intros [_ HU]. by apply (U_after (header z) A (y :: B2) [] y B2 k Hnd). }
    eexists _, _. split.
    { rewrite (hbind_ok _ _ _ (ztail z) (fix_back A (y :: B2) x sc e lvl h3)); [reflexivity|].
      rewrite (hbind_ok _ _ _ _ _ (set_backward_ok _ _ _ _ Hy4)). unfold mret, H_ret. do 2 f_equal.
      unfold fix_back. fold h4. f_equal. unfold put_backward, znode. f_equal. by rewrite prev_addr_snoc. }
    split; [done|]. split; [|exact Hframe]. split; cbn [header zlevel ztail zlength]; try done.
    rewrite Htl. unfold prev_addr. rewrite !last_app, !last_cons. by destruct (last B2).
Qed.

(** ** Sorted sequences *)

Definition closed (below : zentry -> bool) (ns : list zentry) : Prop :=
  forall a b, a ∈ ns -> b ∈ ns -> entry_lt a b -> below b = true -> below a = true.

(** A condition that holds for the smaller entries cuts a sorted sequence in
    two. *)
Lemma sorted_cut below ns :
  closed below ns -> StronglySorted entry_lt ns -> exists A B, ns = A ++ B /\ cut below A B.
Proof.
  intros Hc. induction ns as [|a ns IH]; intros Hs; [by exists [], []|].
  apply StronglySorted_cons in Hs as [Ha Hs].
  destruct IH as (A & B & -> & HA & HB); [|done|].
  { intros x y Hx Hy. apply Hc; by right. }
  destruct (below a) eqn:Hb.
  - exists (a :: A), B. split; [done|]. split; [by constructor|done].
  - exists [], (a :: A ++ B). split; [done|]. split; [constructor|]. constructor; [done|].
    apply Forall_forall. intros b Hin. destruct (below b) eqn:Hbb; [|done]. rewrite Forall_forall in Ha.
    rewrite (Hc a b) in Hb; [done|by left|by right|by apply Ha|done].
Qed.

Lemma key_lt_closed sc e ns : isnan sc = false -> Forall (fun e => isnan (zs e) = false) ns ->
  closed (fun y => key_lt (zs y) (ze y) sc e) ns.
Proof.
  intros Hsc Hn a b Ha Hb Hab Hlt. rewrite Forall_forall in Hn. rewrite key_lt_iff in * by auto. by eapply klex_trans.
Qed.

Lemma sorted_middle A y B : StronglySorted entry_lt (A ++ y :: B) ->
  StronglySorted entry_lt (A ++ B) /\ Forall (fun a => entry_lt a y) A /\ Forall (fun b => entry_lt y b) B.
Proof.
  rewrite !StronglySorted_app, StronglySorted_cons, !Forall_forall. intros (H1 & H2 & H3 & H4). split_and!; try done.
  - intros a b Ha Hb. apply H1; [done|by right].
  - intros a Ha. apply H1; [done|by left].
Qed.

Lemma sorted_put A y B : StronglySorted entry_lt (A ++ B) -> Forall (fun a => entry_lt a y) A -> Forall (fun b => entry_lt y b) B ->
  StronglySorted entry_lt (A ++ y :: B).
Proof.
  rewrite !StronglySorted_app, StronglySorted_cons. intros (H1 & H2 & H3) HA HB. rewrite Forall_forall in HA.
  split_and!; try done. intros a b Ha [->|Hb]%elem_of_cons; [by apply HA|by apply H1].
Qed.

(** The entries before and after a key that is not in the list. *)
Lemma cut_sorted sc e A B :
  isnan sc = false -> Forall (fun y => isnan (zs y) = false) (A ++ B) -> cut (fun y => key_lt (zs y) (ze y) sc e) A B ->
  Forall (fun y => ~ (dkey (zs y) = dkey sc /\ ze y = e)) (A ++ B) ->
  Forall (fun y => klex (zs y) (ze y) sc e) A /\ Forall (fun y => klex sc e (zs y) (ze y)) B.
Proof.
  intros Hsc Hn [HA HB] Hne. apply Forall_app in Hn as [HnA HnB]. apply Forall_app in Hne as [_ HneB].
  rewrite !Forall_forall in *. split.
  - intros y Hy. apply key_lt_iff; [by apply HnA|done|by apply HA].
  - intros y Hy. destruct (klex_total (zs y) (ze y) sc e) as [Hlt|[Heq|Hgt]]; [|by destruct (HneB y Hy)|done].
    apply key_lt_iff in Hlt; [|by apply HnB|done]. specialize (HB y Hy). congruence.
Qed.

(** ** zslInsert *)

(** No entry has the score and the element. *)
Definition key_free (sc : double) (e : sds) (ns : list zentry) : Prop :=
  Forall (fun y => ~ (dkey (zs y) = dkey sc /\ ze y = e)) ns.

Lemma zslInsert_rep h z ns sc e lvl x junk :
  zsl_rep h z ns -> h !! x = None -> isnan sc = false -> (1 <= lvl <= ZSKIPLIST_MAXLEVEL)%nat ->
  Z.of_nat (length ns) + 1 < 2 ^ 32 -> key_free sc e ns ->
  exists z' h' A B, ns = A ++ B /\ zslInsert z sc e lvl x junk h = Some ((z', x), h') /\ header z' = header z /\
    zsl_rep h' z' (A ++ mk_entry x sc e lvl :: B) /\ zframe h h' (header z) (A ++ mk_entry x sc e lvl :: B).
Proof.
  intros [Hz Hs Hn] Hx Hsc Hlvl Hlen Hfree.
  destruct (sorted_cut _ ns (key_lt_closed sc e ns Hsc Hn) Hs) as (A & B & -> & Hcut).
  destruct (zslInsert_struct h z A B sc e lvl x junk Hz Hx Hsc Hlvl Hlen Hcut) as (z' & h' & Hins & Hhd & Hz' & Hf).
  destruct (cut_sorted sc e A B Hsc Hn Hcut Hfree) as [HA HB].
  exists z', h', A, B. split_and!; try done. split; [done|by apply sorted_put|].
  apply Forall_app in Hn as [HnA HnB]. apply Forall_app. split; [done|]. by constructor.
Qed.

(** ** zslDelete *)

Lemma znode_get h z P e Q ns i : zsl_struct h z ns -> ns = P ++ e :: Q -> (i < zh e)%nat ->
  get_level (za e) i h = Some (lv i Q, h).
Proof.
  intros Hz Hns Hi. eapply get_level_ok; [by apply (core_nodes _ _ _ _ (rep_core _ _ _ Hz))|by apply znode_level].
Qed.

Lemma pos_get h z A B : zsl_struct h z (A ++ B) -> get_level (at_pos (header z) A) 0 h = Some (lv 0 B, h).
Proof.
  intros Hz. pose proof (rep_core _ _ _ Hz) as Hc. pose proof (core_max _ _ _ _ Hc) as Hm.
  apply (level_get _ _ _ _ Hc); [done|]. destruct A as [|e A _] using rev_ind; [cbn; lia|]. unfold hgt. rewrite last_snoc. cbn.
  pose proof (core_heights _ _ _ _ Hc) as Hh. apply Forall_app in Hh as [Hh _]. apply Forall_app in Hh as [_ Hh].
  apply Forall_cons in Hh as [Hh _]. lia.
Qed.

Lemma fwd0 h z A B : zsl_struct h z (A ++ B) -> fwd 0 B = za <$> List.hd_error B.
Proof.
  intros Hz. pose proof (core_heights _ _ _ _ (rep_core _ _ _ Hz)) as Hh. apply Forall_app in Hh as [_ Hh].
  destruct B as [|b B]; [done|]. apply Forall_cons in Hh as [Hh _]. rewrite fwd_high by lia. done.
Qed.

(** The representation only depends on the nodes of the list. *)
Lemma struct_frame h h' z ns :
  (forall q, q ∈ header z :: (za <$> ns) -> h' !! q = h !! q) -> zsl_struct h z ns -> zsl_struct h' z ns.
Proof.
  intros Hq [[(n & Hn & Hok) Hnodes ? ? ? ?] ? ? ?]. split; try done. split; try done.
  - exists n. split; [|done]. rewrite Hq; [done|by left].
  - intros P e Q Heq. rewrite Hq; [by apply Hnodes|]. right. rewrite Heq, fmap_app, elem_of_app. right. cbn. by left.
Qed.

Lemma zframe_weaken h h' hd A y B : zframe h h' hd (A ++ B) -> zframe h h' hd (A ++ y :: B).
Proof.
  intros Hf q Hq. apply Hf. rewrite fmap_app in *. cbn [fmap list_fmap] in Hq.
  rewrite not_elem_of_cons, not_elem_of_app, not_elem_of_cons in Hq. rewrite not_elem_of_cons, not_elem_of_app. tauto.
Qed.

(** The address of a removed entry is not used any more. *)
Lemma removed_fresh h z A y B : zsl_struct h z (A ++ y :: B) -> za y ∉ header z :: (za <$> (A ++ B)).
Proof.
  intros Hz. destruct (y_not_in _ _ _ _ _ _ (rep_core _ _ _ Hz)) as [H1 H2].
  rewrite fmap_app. apply not_elem_of_cons in H1 as [? ?]. by rewrite not_elem_of_cons, not_elem_of_app.
Qed.

Lemma zslFreeNode_struct h z ns p n :
  zsl_struct h z ns -> p ∉ header z :: (za <$> ns) -> h !! p = Some n ->
  zslFreeNode p h = Some (tt, delete p h) /\ zsl_struct (delete p h) z ns.
Proof.
  intros Hz Hp Hn. split; [unfold zslFreeNode; by rewrite Hn|].
  eapply struct_frame; [|exact Hz]. intros q Hq. apply lookup_delete_ne. by intros <-.
Qed.

(** The update array the searches compute. *)
Lemma ups_fst hd A L : (map (update_of hd A) (seq 0 L)).*1 = map (U hd A) (seq 0 L).
Proof. by rewrite <- list_fmap_compose. Qed.

Lemma ups_take hd A L L' : (L' <= L)%nat -> take L' (map (U hd A) (seq 0 L)) = map (U hd A) (seq 0 L').
Proof. apply take_ups. Qed.

Definition key_is (sc : double) (e : sds) (y : zentry) : Prop := dkey (zs y) = dkey sc /\ ze y = e.

(** The test zslDelete makes on the node it arrives at. *)
Lemma key_test sc e y : isnan sc = false -> isnan (zs y) = false ->
  deq sc (zs y) && (sdscmp (ze y) e =? 0) = true <-> key_is sc e y.
Proof.
  intros H1 H2. unfold key_is. rewrite andb_true_iff, deq_iff, Z.eqb_eq, sdscmp_eq by done. intuition congruence.
Qed.

(** The entries around a key: either it is the first entry that is not smaller,
    or it is not there. *)
Lemma cut_key sc e A B :
  isnan sc = false -> Forall (fun y => isnan (zs y) = false) (A ++ B) -> StronglySorted entry_lt (A ++ B) ->
  cut (fun y => key_lt (zs y) (ze y) sc e) A B ->
  match B with y :: _ => ~ key_is sc e y | [] => True end -> key_free sc e (A ++ B).
Proof.
  intros Hsc Hn Hs [HA HB] Hy. apply Forall_app in Hn as [HnA HnB]. apply Forall_app. split.
  - apply Forall_forall. intros a Ha [H1 H2]. rewrite Forall_forall in HA, HnA. specialize (HA a Ha).
    apply key_lt_iff in HA; [|by apply HnA|done]. unfold klex in HA. rewrite H1, H2 in HA. by apply (klex_irrefl sc e).
  - destruct B as [|y B]; [constructor|]. constructor; [done|]. apply Forall_forall. intros b Hb [H1 H2].
    apply StronglySorted_app in Hs as (_ & _ & Hs). apply StronglySorted_cons in Hs as [Hyb _].
    rewrite Forall_forall in Hyb. specialize (Hyb b Hb). apply Forall_cons in HB as [HBy _]. apply Forall_cons in HnB as [Hny _].
    assert (klex (zs y) (ze y) sc e) as Hlt by (unfold entry_lt, klex in *; by rewrite H1, H2 in Hyb).
    apply key_lt_iff in Hlt; [congruence|done|done].
Qed.

Lemma zslDelete_rep h z ns sc e (node : bool) :
  zsl_rep h z ns -> isnan sc = false ->
  (key_free sc e ns /\ zslDelete z sc e node h = Some ((z, false, None), h)) \/
  (exists A y B z' h', ns = A ++ y :: B /\ key_is sc e y /\
    zslDelete z sc e node h = Some ((z', true, if node then Some (za y) else None), h') /\ header z' = header z /\
    zsl_rep h' z' (A ++ B) /\ h' !! za y = (if node then Some (znode A y B) else None) /\
    zframe h h' (header z) (A ++ y :: B)).
Proof.
  intros [Hz Hs Hn] Hsc. destruct (sorted_cut _ ns (key_lt_closed sc e ns Hsc Hn) Hs) as (A & B & -> & Hcut).
  unfold zslDelete.
  rewrite (hbind_ok _ _ _ _ _ (cut_search h z (A ++ B) u64 (fun _ => node_lt sc e) (fun y => key_lt (zs y) (ze y) sc e)
    A B Hz eq_refl u64_rank ltac:(reflexivity) Hcut)). cbn beta iota.
  rewrite (hbind_ok _ _ _ _ _ (pos_get h z A B Hz)). cbn [lv fst snd]. rewrite (fwd0 h z A B Hz), ups_fst.
  destruct B as [|y B]; cbn [List.hd_error fmap option_fmap option_map].
  { left. split; [|done]. by apply (cut_key sc e A []). }
  pose proof (core_nodes _ _ _ _ (rep_core _ _ _ Hz) A y B eq_refl) as Hy.
  rewrite (hbind_ok _ _ _ _ _ (zload_ok _ _ _ Hy)). cbn [score ele znode]. change (default [] (Some (ze y))) with (ze y).
  pose proof Hn as Hn'. apply Forall_app in Hn' as [HnA HnB]. apply Forall_cons in HnB as [Hny HnB].
  destruct (deq sc (zs y) && (sdscmp (ze y) e =? 0)) eqn:Ht.
  - right. apply key_test in Ht; [|done..].
    destruct (zslDeleteNode_struct h z A y B (map (U (header z) A) (seq 0 (zlevel z))) Hz) as (z' & h' & Hdel & Hhd & Hle & Hz' & Hf).
    { by apply ups_take. }
    rewrite (hbind_ok _ _ _ _ _ Hdel).
    assert (h' !! za y = Some (znode A y B)) as Hy'.
    { rewrite Hf; [done|]. by apply (removed_fresh h z A y B Hz). }
    assert (zframe h h' (header z) (A ++ y :: B)) as Hf'.
    { by apply zframe_weaken. }
    destruct (sorted_middle A y B Hs) as (Hs' & _ & _).
    assert (Forall (fun y => isnan (zs y) = false) (A ++ B)) as Hn2 by (by apply Forall_app).
    rewrite <- Hhd in Hf'. destruct node.
    + exists A, y, B, z', h'. rewrite <- Hhd. by split_and!.
    + destruct (zslFreeNode_struct h' z' (A ++ B) (za y) (znode A y B)) as [Hfree Hz3]; [done| |done|].
      { rewrite Hhd. by apply (removed_fresh h z A y B Hz). }
      rewrite (hbind_ok _ _ _ _ _ Hfree). exists A, y, B, z', (delete (za y) h'). rewrite <- Hhd. split_and!; try done.
      * apply lookup_delete_eq.
      * intros q Hq. rewrite lookup_delete_ne; [by apply Hf'|]. intros <-. apply Hq. right.
        rewrite fmap_app, elem_of_app. right. cbn. by left.
  - left. split; [|done]. apply (cut_key sc e A (y :: B)); try done. intros Hk. apply key_test in Hk; [congruence|done..].
Qed.

(** ** zslUpdateScore *)

Definition rescored (y : zentry) (sc : double) : zentry := mk_entry (za y) sc (ze y) (zh y).

Lemma lv_rescored i M y sc B : lv i (M ++ rescored y sc :: B) = lv i (M ++ y :: B).
Proof.
  unfold lv. f_equal.
  - induction M as [|m M IH]; [done|]. cbn [app fwd]. by rewrite IH.
  - induction M as [|m M IH]; [done|]. cbn [app spn]. by rewrite IH.
Qed.

Lemma prev_addr_rescored A M y sc : prev_addr (A ++ rescored y sc :: M) = prev_addr (A ++ y :: M).
Proof. unfold prev_addr. rewrite !last_app, !last_cons. by destruct (last M). Qed.

Lemma fmap_za_rescored A y sc B : za <$> (A ++ rescored y sc :: B) = za <$> (A ++ y :: B).
Proof. by rewrite !fmap_app. Qed.

(** Changing the score of a node in place. *)
Lemma rescore_core h hd L A y B sc :
  zcore h hd L (A ++ y :: B) -> zcore (<[za y := znode A (rescored y sc) B]> h) hd L (A ++ rescored y sc :: B).
Proof.
  intros Hc. destruct (y_not_in _ _ _ _ _ _ Hc) as [HyA HyB]. apply not_elem_of_cons in HyA as [Hyh HyA].
  pose proof Hc as [(n & Hn & H1 & H2 & H3 & H4) Hnodes Hh Hm Hl Hnd]. split; [| | |done| |].
  - exists n. rewrite lookup_insert_ne by done. split; [done|]. split_and!; try done. intros i Hi. rewrite (H3 i Hi).
    by rewrite (lv_rescored i A y sc B).
  - intros P w Q Heq. destruct (app_eq_inv _ _ _ _ Heq) as [(M & HA & HM)|(M & HP & HM)].
    + destruct M as [|w' M]; cbn in HM; injection HM as -> ->.
      { rewrite app_nil_r in HA. subst P. apply lookup_insert_eq. }
      rewrite lookup_insert_ne by (intros Heq'; apply HyA; rewrite Heq', HA, fmap_app, elem_of_app; right; cbn; by left).
      rewrite (Hnodes P w' (M ++ y :: B)) by (by rewrite HA, <- app_assoc). f_equal. unfold znode. f_equal.
      apply map_ext. intros i. symmetry. apply lv_rescored.
    + destruct M as [|w' M]; cbn in HM; [injection HM as <- <-; rewrite app_nil_r in HP; subst P; apply lookup_insert_eq|].
      injection HM as <- HB.
      rewrite lookup_insert_ne by (intros Heq'; apply HyB; rewrite Heq', HB, fmap_app, elem_of_app; right; cbn; by left).
      rewrite (Hnodes (A ++ y :: M) w Q) by (by rewrite HB, <- app_assoc). rewrite HP. f_equal. unfold znode. f_equal.
      symmetry. apply prev_addr_rescored.
  - apply Forall_app in Hh as [HhA HhB]. apply Forall_cons in HhB as [Hhy HhB]. apply Forall_app. split; [done|]. by constructor.
  - rewrite length_app in *. done.
  - by rewrite fmap_za_rescored.
Qed.

Lemma rescore_struct h z A y B sc :
  zsl_struct h z (A ++ y :: B) -> zsl_struct (<[za y := znode A (rescored y sc) B]> h) z (A ++ rescored y sc :: B).
Proof.
  intros [Hc Ht Htl Hl]. split; [by apply rescore_core| | |].
  - destruct Ht as [Ht|Ht]; [by left|right]. pose proof (lv_rescored (zlevel z - 1) A y sc B) as Hlv.
    unfold lv in Hlv. injection Hlv as -> _. done.
  - by rewrite prev_addr_rescored.
  - rewrite length_app in *. done.
Qed.

Lemma key_is_cut sc e A y B :
  isnan sc = false -> Forall (fun y => isnan (zs y) = false) (A ++ y :: B) -> StronglySorted entry_lt (A ++ y :: B) ->
  key_is sc e y -> cut (fun y => key_lt (zs y) (ze y) sc e) A (y :: B).
Proof.
  intros Hsc Hn Hs [H1 H2]. destruct (sorted_middle A y B Hs) as (_ & HA & HB). apply Forall_app in Hn as [HnA HnB].
  apply Forall_cons in HnB as [Hny HnB]. rewrite !Forall_forall in *. split; apply Forall_forall.
  - intros a Ha. specialize (HA a Ha). apply key_lt_iff; [by apply HnA|done|]. unfold entry_lt, klex in *. by rewrite H1, H2 in HA.
  - intros b Hb. apply not_true_is_false. intros Hlt. apply elem_of_cons in Hb as [->|Hb].
    + apply key_lt_iff in Hlt; [|done..]. unfold klex in Hlt. rewrite H1, H2 in Hlt. by apply (klex_irrefl sc e).
    + apply key_lt_iff in Hlt; [|by apply HnB|done]. specialize (HB b Hb). unfold entry_lt, klex in HB. rewrite H1, H2 in HB.
      apply (klex_irrefl sc e). by eapply klex_trans.
Qed.

(** In place: the neighbours have scores on either side of the new one. *)
Lemma rescore_sorted A y B sc :
  isnan sc = false -> Forall (fun y => isnan (zs y) = false) (A ++ y :: B) -> StronglySorted entry_lt (A ++ y :: B) ->
  match last A with Some a => dlt (zs a) sc = true | None => True end ->
  match B with b :: _ => dgt (zs b) sc = true | [] => True end ->
  StronglySorted entry_lt (A ++ rescored y sc :: B).
Proof.
  intros Hsc Hn Hs Ha Hb. destruct (sorted_middle A y B Hs) as (Hs' & _ & _). apply Forall_app in Hn as [HnA HnB].
  apply Forall_cons in HnB as [_ HnB]. apply StronglySorted_app in Hs' as Hs2. destruct Hs2 as (_ & HsA & HsB).
  apply sorted_put; [done|..].
  - destruct A as [|a A _] using rev_ind; [constructor|]. rewrite last_snoc in Ha. apply Forall_app in HnA as [HnA Hna].
    apply Forall_cons in Hna as [Hna _]. apply dlt_iff in Ha; [|done..].
    assert (entry_lt a (rescored y sc)) as Hlast by (by left). apply Forall_app. split; [|by constructor].
    apply StronglySorted_app in HsA as (HA & _ & _). apply Forall_forall. intros x Hx.
    eapply klex_trans; [apply (HA x a Hx); by left|exact Hlast].
  - destruct B as [|b B]; [constructor|]. apply Forall_cons in HnB as [Hnb _]. apply dlt_iff in Hb; [|done..].
    assert (entry_lt (rescored y sc) b) as Hfirst by (by left). constructor; [done|].
    apply StronglySorted_cons in HsB as [HB _]. rewrite Forall_forall in *. intros x Hx.
    eapply klex_trans; [exact Hfirst|by apply HB].
Qed.

(** An address that is not allocated is not a node of the list. *)
Lemma fresh_addr h z ns p : zsl_struct h z ns -> h !! p = None -> p ∉ header z :: (za <$> ns).
Proof.
  intros Hz Hp Hin. pose proof (rep_core _ _ _ Hz) as Hc. apply elem_of_cons in Hin as [->|Hin].
  - destruct (core_header _ _ _ _ Hc) as (n & Hn & _). congruence.
  - apply list_elem_of_fmap in Hin as (y & -> & Hy). apply list_elem_of_split in Hy as (P & Q & Hns).
    rewrite (core_nodes _ _ _ _ Hc P y Q Hns) in Hp. done.
Qed.

(** The scores of the neighbours, as zslUpdateScore reads them. *)
Lemma back_read h z A y B sc : zsl_struct h z (A ++ y :: B) ->
  match prev_addr A with None => mret true | Some b => nb ← zload b; mret (dlt (score nb) sc) end h =
    Some (match last A with Some a => dlt (zs a) sc | None => true end, h).
Proof.
  intros Hz. destruct A as [|a A _] using rev_ind; [done|]. rewrite prev_addr_snoc, last_snoc.
  rewrite <- app_assoc in Hz. by rewrite (hbind_ok _ _ _ _ _ (zload_ok _ _ _ (core_nodes _ _ _ _ (rep_core _ _ _ Hz) A a _ eq_refl))).
Qed.

Lemma next_read h z A y B sc : zsl_struct h z (A ++ y :: B) ->
  match fwd 0 B with None => mret true | Some f => nf ← zload f; mret (dgt (score nf) sc) end h =
    Some (match B with b :: _ => dgt (zs b) sc | [] => true end, h).
Proof.
  intros Hz. assert (zsl_struct h z ((A ++ [y]) ++ B)) as Hz' by (by rewrite <- app_assoc).
  rewrite (fwd0 _ _ _ _ Hz'). destruct B as [|b B]; [done|]. cbn.
  by rewrite (hbind_ok _ _ _ _ _ (zload_ok _ _ _ (core_nodes _ _ _ _ (rep_core _ _ _ Hz') (A ++ [y]) b B eq_refl))).
Qed.

(** Removing the node and inserting a new one in its place. *)
Lemma reinsert_rep h z A y B cur e new lvl p junk update :
  zsl_rep h z (A ++ y :: B) -> isnan new = false -> key_is cur e y -> h !! p = None ->
  (1 <= lvl <= ZSKIPLIST_MAXLEVEL)%nat -> Forall (fun w => ze w <> e) (A ++ B) ->
  update = map (U (header z) A) (seq 0 (zlevel z)) ->
  exists z' h' A' B',
    (z ← zslDeleteNode z (za y) update; '(z, newnode) ← zslInsert z new e lvl p junk; _ ← zslFreeNode (za y); mret (z, newnode)) h
      = Some ((z', p), h') /\ header z' = header z /\ A' ++ B' = A ++ B /\ zsl_rep h' z' (A' ++ mk_entry p new e lvl :: B').
Proof.
  intros [Hz Hs Hn] Hnew Hk Hp Hlvl Huniq ->. pose proof (core_len _ _ _ _ (rep_core _ _ _ Hz)) as Hlen.
  destruct (zslDeleteNode_struct h z A y B (map (U (header z) A) (seq 0 (zlevel z))) Hz) as (z1 & h1 & Hdel & Hhd & _ & Hz1 & Hf1).
  { by apply ups_take. }
  pose proof (removed_fresh h z A y B Hz) as Hyf. pose proof (fresh_addr _ _ _ _ Hz Hp) as Hpf.
  assert (h1 !! za y = Some (znode A y B)) as Hy1.
  { rewrite Hf1 by done. by apply (core_nodes _ _ _ _ (rep_core _ _ _ Hz)). }
  destruct (sorted_middle A y B Hs) as (Hs1 & _ & _).
  assert (zsl_rep h1 z1 (A ++ B)) as Hrep1.
  { split; [done|done|]. apply Forall_app in Hn as [HnA HnB]. apply Forall_cons in HnB as [_ HnB]. by apply Forall_app. }
  destruct (zslInsert_rep h1 z1 (A ++ B) new e lvl p junk Hrep1) as (z2 & h2 & A' & B' & HAB & Hins & Hhd2 & [Hz2 Hs2 Hn2] & Hf2); try done.
  { rewrite Hf1; [done|]. intros Hin. apply Hpf. rewrite fmap_app in *. cbn [fmap list_fmap].
    rewrite elem_of_cons, elem_of_app in *. rewrite elem_of_cons. tauto. }
  { rewrite length_app in *. simpl in Hlen. lia. }
  { eapply Forall_impl; [exact Huniq|]. simpl. tauto. }
  assert (za y ∉ header z1 :: (za <$> (A' ++ mk_entry p new e lvl :: B'))) as Hyf2.
  { rewrite Hhd. rewrite HAB, fmap_app in Hyf. rewrite fmap_app. cbn [fmap list_fmap za].
    rewrite not_elem_of_cons, not_elem_of_app in *. rewrite not_elem_of_cons. split_and!; try tauto.
    intros <-. apply Hpf. rewrite fmap_app, elem_of_app. right. cbn. by left. }
  destruct (zslFreeNode_struct h2 z2 _ (za y) (znode A y B) Hz2) as [Hfree Hz3].
  { by rewrite Hhd2. }
  { by rewrite Hf2. }
  exists z2, (delete (za y) h2), A', B'. rewrite (hbind_ok _ _ _ _ _ Hdel), (hbind_ok _ _ _ _ _ Hins).
  cbn beta iota. rewrite (hbind_ok _ _ _ _ _ Hfree). split_and!; [done|congruence|done|by split].
Qed.

Lemma zslUpdateScore_rep h z A y B cur e new lvl p junk :
  zsl_rep h z (A ++ y :: B) -> isnan cur = false -> isnan new = false -> key_is cur e y -> h !! p = None ->
  (1 <= lvl <= ZSKIPLIST_MAXLEVEL)%nat -> Forall (fun w => ze w <> e) (A ++ B) ->
  exists z' h' A' y' B', zslUpdateScore z cur e new lvl p junk h = Some ((z', za y'), h') /\ header z' = header z /\
    A' ++ B' = A ++ B /\ zs y' = new /\ ze y' = e /\ zsl_rep h' z' (A' ++ y' :: B').
Proof.
  intros Hrep Hcur Hnew Hk Hp Hlvl Huniq. pose proof Hrep as [Hz Hs Hn].
  pose proof (key_is_cut cur e A y B Hcur Hn Hs Hk) as Hcut.
  pose proof (core_nodes _ _ _ _ (rep_core _ _ _ Hz) A y B eq_refl) as Hy.
  unfold zslUpdateScore.
  rewrite (hbind_ok _ _ _ _ _ (cut_search h z _ u64 (fun _ => node_lt cur e) (fun y => key_lt (zs y) (ze y) cur e)
    A (y :: B) Hz eq_refl u64_rank ltac:(reflexivity) Hcut)).
  cbn beta iota. rewrite (hbind_ok _ _ _ _ _ (pos_get h z A (y :: B) Hz)). cbn [lv fst snd].
  rewrite (fwd0 h z A (y :: B) Hz), ups_fst. cbn [List.hd_error fmap option_fmap option_map].
  rewrite (hbind_ok _ _ h (za y) h) by done. rewrite (hbind_ok _ _ _ _ _ (zload_ok _ _ _ Hy)). cbn [score ele znode backward level].
  change (default [] (Some (ze y))) with (ze y). pose proof Hn as Hn'. apply Forall_app in Hn' as [_ HnB]. apply Forall_cons in HnB as [Hny _].
  rewrite (hbind_ok _ _ h tt h) by (unfold zassert; by rewrite (proj2 (key_test cur e y Hcur Hny) Hk)).
  pose proof (y_height _ _ _ _ _ _ (rep_core _ _ _ Hz)) as Hhy.
  rewrite (hbind_ok _ _ _ _ _ (znode_get h z A y B _ 0 Hz eq_refl ltac:(lia))). cbn beta iota delta [lv].
  rewrite (hbind_ok _ _ _ _ _ (back_read h z A y B new Hz)), (hbind_ok _ _ _ _ _ (next_read h z A y B new Hz)).
  match goal with |- context [if ?b && ?f then _ else _] => destruct (b && f) eqn:Hfit end.
  - apply andb_true_iff in Hfit as [Hb Hf]. exists z, (<[za y := znode A (rescored y new) B]> h), A, (rescored y new), B.
    destruct Hk as [Hk1 Hk2]. split_and!; try done.
    + rewrite (hbind_ok _ _ h tt (<[za y := znode A (rescored y new) B]> h)); [done|]. unfold zstore. rewrite Hy. done.
    + split; [by apply rescore_struct|apply rescore_sorted; try done|].
      * by destruct (last A).
      * by destruct B.
      * apply Forall_app in Hn as [HnA HnB]. apply Forall_cons in HnB as [_ HnB]. apply Forall_app. split; [done|]. by constructor.
  - destruct Hk as [Hk1 Hk2]. rewrite Hk2.
    destruct (reinsert_rep h z A y B cur e new lvl p junk _ Hrep Hnew (conj Hk1 Hk2) Hp Hlvl Huniq eq_refl)
      as (z' & h' & A' & B' & Hrun & Hhd & HAB & Hrep').
    exists z', h', A', (mk_entry p new e lvl), B'. by split_and!.
Qed.

(** ** Creation, levels and release *)

Lemma zslCreate_rep p h : exists z, zslCreate p h = Some (z, <[p := mk_znode None zero None (replicate ZSKIPLIST_MAXLEVEL (None, 0))]> h) /\
  zsl_rep (<[p := mk_znode None zero None (replicate ZSKIPLIST_MAXLEVEL (None, 0))]> h) z [].
Proof.
  eexists. split; [reflexivity|]. split; [|constructor|constructor]. split; [|by left|done|done].
  split; cbn [header zlevel]; [|by intros [] ? ?|constructor|unfold ZSKIPLIST_MAXLEVEL; lia|done|apply NoDup_cons; by split; [apply not_elem_of_nil|constructor]].
  eexists. split; [apply lookup_insert_eq|]. split_and!; [done|done| |].
  - intros i Hi. cbn [level]. rewrite lookup_replicate_2 by (unfold ZSKIPLIST_MAXLEVEL; lia). done.
  - intros i Hi. exists 0. cbn [level]. apply lookup_replicate_2. lia.
Qed.

Lemma random_level_bounds rs : forall lvl r, 1 <= lvl -> random_level_loop rs lvl = Some r -> lvl <= r.
Proof.
  induction rs as [|x rs IH]; intros lvl r Hl Hr; [done|]. cbn [random_level_loop] in Hr.
  destruct (Z.land x 65535 <=? 16383); [apply IH in Hr; lia|injection Hr as <-; lia].
Qed.

Lemma zslRandomLevel_bounds rs lvl : zslRandomLevel rs = Some lvl -> (1 <= lvl <= ZSKIPLIST_MAXLEVEL)%nat.
Proof.
  unfold zslRandomLevel. destruct (random_level_loop rs 1) as [r|] eqn:Hr; [|done]. cbn -[ZSKIPLIST_MAXLEVEL Z.of_nat].
  apply random_level_bounds in Hr; [|lia]. intros [= <-]. destruct (Z.ltb_spec r (Z.of_nat ZSKIPLIST_MAXLEVEL)); [lia|].
  unfold ZSKIPLIST_MAXLEVEL. lia.
Qed.

(** A sequence of random numbers that contains one above the threshold gives a
    level. *)
Lemma zslRandomLevel_total rs : Exists (fun r => 16383 < Z.land r 65535) rs -> exists lvl, zslRandomLevel rs = Some lvl.
Proof.
  intros Hrs. assert (forall lvl, exists r, random_level_loop rs lvl = Some r) as Hl.
  { induction Hrs as [r rs Hr|r rs _ IH]; intros lvl; cbn [random_level_loop].
    - rewrite (proj2 (Z.leb_gt _ _)) by lia. eauto.
    - destruct (Z.land r 65535 <=? 16383); eauto. }
  destruct (Hl 1) as (r & Hr). unfold zslRandomLevel. rewrite Hr. eexists. reflexivity.
Qed.

Lemma free_loop_spec Q : forall P h fuel, Forall (fun e => (1 <= zh e)%nat) Q -> NoDup (za <$> Q) ->
  (forall M e R, Q = M ++ e :: R -> h !! za e = Some (znode (P ++ M) e R)) -> (length Q <= fuel)%nat ->
  exists h', free_loop fuel (fwd 0 Q) h = Some (tt, h') /\
    (forall q, q ∈ za <$> Q -> h' !! q = None) /\ (forall q, (q ∉ za <$> Q) -> h' !! q = h !! q).
Proof.
  induction Q as [|e Q IH]; intros P h fuel Hh Hnd Hn Hf.
  { exists h. split; [by destruct fuel|]. split; [|done]. intros q Hq. by apply not_elem_of_nil in Hq. }
  apply Forall_cons in Hh as [Hhe Hh]. cbn [fmap list_fmap] in Hnd |- *. apply NoDup_cons in Hnd as [He Hnd].
  destruct fuel as [|fuel]; [simpl in Hf; lia|]. rewrite fwd_high by lia. cbn [free_loop].
  pose proof (Hn [] e Q eq_refl) as Hne. rewrite app_nil_r in Hne.
  rewrite (hbind_ok _ _ _ _ _ (get_level_ok _ _ _ 0 _ Hne (znode_level P e Q 0 ltac:(lia)))). cbn beta iota delta [lv].
  rewrite (hbind_ok _ _ h tt (delete (za e) h)) by (unfold zslFreeNode; by rewrite Hne).
  destruct (IH (P ++ [e]) (delete (za e) h) fuel Hh Hnd) as (h' & Hrun & Hin & Hout); [|simpl in Hf; lia|].
  { intros M w R Heq. rewrite lookup_delete_ne, (Hn (e :: M) w R).
    - by rewrite <- app_assoc.
    - by rewrite Heq.
    - intros Hew. apply He. rewrite Heq, Hew, fmap_app, elem_of_app. right. cbn. by left. }
  exists h'. split; [done|]. split.
  - intros q [->|Hq]%elem_of_cons; [|by apply Hin]. rewrite Hout by done. apply lookup_delete_eq.
  - intros q [Hqe Hq]%not_elem_of_cons. rewrite Hout by done. by apply lookup_delete_ne.
Qed.

Lemma zslFree_spec h z ns : zsl_struct h z ns ->
  exists h', zslFree z h = Some (tt, h') /\ (forall q, q ∈ header z :: (za <$> ns) -> h' !! q = None) /\
    (forall q, (q ∉ header z :: (za <$> ns)) -> h' !! q = h !! q).
Proof.
  intros Hz. pose proof (rep_core _ _ _ Hz) as Hc. pose proof (core_nodup _ _ _ _ Hc) as Hnd. apply NoDup_cons in Hnd as [Hhd Hnd].
  unfold zslFree. rewrite (hbind_ok _ _ _ _ _ (pos_get h z [] ns Hz)). cbn beta iota delta [lv].
  destruct (core_header _ _ _ _ Hc) as (n & Hn & _).
  rewrite (hbind_ok _ _ h tt (delete (header z) h)) by (unfold zslFreeNode; by rewrite Hn).
  destruct (free_loop_spec ns [] (delete (header z) h) (S (Z.to_nat (zlength z)))) as (h' & Hrun & Hin & Hout).
  - eapply Forall_impl; [exact (core_heights _ _ _ _ Hc)|]. simpl. lia.
  - done.
  - intros M e R Heq. rewrite lookup_delete_ne; [by apply (core_nodes _ _ _ _ Hc)|].
    intros Heh. apply Hhd. rewrite Heh, Heq, fmap_app, elem_of_app. right. cbn. by left.
  - rewrite (rep_length _ _ _ Hz). lia.
  - exists h'. split; [done|]. split.
    + intros q [->|Hq]%elem_of_cons; [|by apply Hin]. rewrite Hout by done. apply lookup_delete_eq.
    + intros q [Hqe Hq]%not_elem_of_cons. rewrite Hout by done. by apply lookup_delete_ne.
Qed.
