(* ===== verification/SkiplistQuery.v ===== *)
(** * Skip lists: ranks and ranges

    zslGetRank and zslGetElementByRank against positions in the sequence of
    entries, and the searches for the first and last entry of a range of scores
    or of elements, which the source writes twice, against one interface
    ([RangeLaws]). *)
From stdpp Require Import prelude list gmap sorting.
From Stdlib Require Import ZArith Lia.
From S2P Require Import Prelude Double Skiplist SkiplistRep SkiplistInsert SkiplistDelete SkiplistOps.

Local Open Scope Z_scope.

(** ** Rank of an element *)

Definition key_le (sc : double) (e : sds) (y : zentry) : bool :=
  dlt (zs y) sc || (deq (zs y) sc && (sdscmp (ze y) e <=? 0)).

Lemma key_le_iff sc e y : isnan sc = false -> isnan (zs y) = false ->
  key_le sc e y = true <-> klex (zs y) (ze y) sc e \/ key_is sc e y.
Proof.
  intros H1 H2. unfold key_le, key_is, klex. rewrite orb_true_iff, andb_true_iff, dlt_iff, deq_iff, Z.leb_le, <- (sdscmp_eq (ze y) e) by done.
  split; [intros [?|[? ?]]|intros [[?|[? ?]]|[? ?]]]; auto.
  - destruct (Z.eq_dec (sdscmp (ze y) e) 0); [by right|left; right; split; [done|lia]].
  - right. split; [done|lia].
  - right. split; [done|lia].
Qed.

Lemma key_le_closed sc e ns : isnan sc = false -> Forall (fun e => isnan (zs e) = false) ns -> closed (key_le sc e) ns.
Proof.
  intros Hsc Hn a b Ha Hb Hab Hlt. rewrite Forall_forall in Hn. rewrite key_le_iff in * by auto. left.
  destruct Hlt as [Hlt|[H1 H2]]; [by eapply klex_trans|]. unfold entry_lt, klex in *. by rewrite H1, H2 in Hab.
Qed.

(** With the key at the end of the entries that are not larger. *)
Lemma key_le_cut sc e A y B :
  isnan sc = false -> Forall (fun y => isnan (zs y) = false) (A ++ y :: B) -> StronglySorted entry_lt (A ++ y :: B) ->
  key_is sc e y -> cut (key_le sc e) (A ++ [y]) B.
Proof.
  intros Hsc Hn Hs Hk. destruct (sorted_middle A y B Hs) as (_ & HA & HB). rewrite Forall_forall in *.
  pose proof Hk as [H1 H2]. split; apply Forall_forall.
  - intros a Ha. apply key_le_iff; [done|apply Hn; rewrite cons_middle, app_assoc, elem_of_app; by left|]. apply elem_of_app in Ha as [Ha|Ha%list_elem_of_singleton]; [left|by subst a; right].
    specialize (HA a Ha). unfold entry_lt, klex in *. by rewrite H1, H2 in HA.
  - intros b Hb. apply not_true_is_false. intros Hle. apply key_le_iff in Hle; [|done|apply Hn; apply elem_of_app; right; by right].
    specialize (HB b Hb). unfold entry_lt, klex in HB. rewrite H1, H2 in HB. destruct Hle as [Hlt|[H3 H4]].
    + apply (klex_irrefl sc e). by eapply klex_trans.
    + rewrite H3, H4 in HB. by apply (klex_irrefl sc e).
Qed.

Section Rank.
Context (h : zheap) (z : zskiplist) (C B : list zentry) (Hz : zsl_struct h z (C ++ B)).

(** The node at the end of the part of [C] a level reaches. *)
Lemma end_node P M : C = P ++ M ->
  exists n, h !! at_pos (header z) P = Some n /\ ele n = (ze <$> last P).
Proof.
  intros HP. pose proof (rep_core _ _ _ Hz) as Hc. destruct P as [|w P _] using rev_ind.
  - destruct (core_header _ _ _ _ Hc) as (n & Hn & He & _). by exists n.
  - exists (znode P w (M ++ B)). rewrite at_pos_snoc, last_snoc. split; [|done].
    apply (core_nodes _ _ _ _ Hc). by rewrite HP, <- !app_assoc.
Qed.

Section Loop.
Context (sc : double) (e : sds) (Hcut : cut (key_le sc e) C B).

Lemma rank_step i : (i < zlevel z)%nat ->
  walk_level u64 (fun _ => node_le sc e) (zfuel z) i (at_pos (header z) (upto (S i) C)) (Z.of_nat (length (upto (S i) C))) h =
    Some ((at_pos (header z) (upto i C), Z.of_nat (length (upto i C))), h).
Proof.
  intros Hi. destruct Hcut as [HC HB]. pose proof (rep_core _ _ _ Hz) as Hc. pose proof (core_len _ _ _ _ Hc) as Hl.
  eapply (walk_step h (header z) (zlevel z) (C ++ B) Hc u64 _ C B); [|done|..]; [| | |done|].
  - intros n Hn. apply u64_rank. lia.
  - intros P y M Q Heq. rewrite Heq in HC. apply Forall_app in HC as [_ HC]. by apply Forall_cons in HC as [HC _].
  - intros P y M Q Heq. rewrite Heq in HB. apply Forall_app in HB as [_ HB]. by apply Forall_cons in HB as [HB _].
  - unfold zfuel. rewrite (rep_length _ _ _ Hz). lia.
Qed.

(** The search stops at the first level on which it arrives at the element. *)
Lemma rank_loop_spec i (r : Z) : (i <= zlevel z)%nat ->
  (forall j, (j < i)%nat -> match ze <$> last (upto j C) with
     | Some e' => e' = e -> Z.of_nat (length (upto j C)) = r | None => True end) ->
  (r = 0 \/ (0 < i)%nat /\ (ze <$> last (upto 0 C)) = Some e) ->
  (r = 0 -> forall j, (j < i)%nat -> (ze <$> last (upto j C)) <> Some e) ->
  rank_loop (zfuel z) i sc e (at_pos (header z) (upto i C)) (Z.of_nat (length (upto i C))) h = Some (r, h).
Proof.
  induction i as [|i IH]; intros Hi Hat Hend Hzero; cbn [rank_loop].
  { destruct Hend as [->|[? _]]; [done|lia]. }
  rewrite (hbind_ok _ _ _ _ _ (rank_step i Hi)). cbn beta iota.
  destruct (upto_split i C) as (M & HM & _). destruct (end_node (upto i C) M HM) as (n & Hn & He).
  rewrite (hbind_ok _ _ _ _ _ (zload_ok _ _ _ Hn)), He. pose proof (Hat i ltac:(lia)) as Hati.
  destruct (ze <$> last (upto i C)) as [e'|] eqn:Hlast.
  - destruct (sdscmp e' e =? 0) eqn:Heq.
    + apply Z.eqb_eq, sdscmp_eq in Heq. by rewrite (Hati Heq).
    + apply IH; [lia|intros j Hj; apply Hat; lia| |intros Hr j Hj; apply Hzero; [done|lia]].
      destruct Hend as [->|[_ Hend]]; [by left|]. destruct i as [|i]; [|right; split; [lia|done]].
      rewrite Hlast in Hend. injection Hend as ->. by rewrite (proj2 (sdscmp_eq e e) eq_refl) in Heq.
  - apply IH; [lia|intros j Hj; apply Hat; lia| |intros Hr j Hj; apply Hzero; [done|lia]].
    destruct Hend as [->|[_ Hend]]; [by left|]. destruct i as [|i]; [congruence|right; split; [lia|done]].
Qed.
End Loop.
End Rank.

Lemma zslGetRank_found h z A y B sc e :
  zsl_rep h z (A ++ y :: B) -> isnan sc = false -> key_is sc e y -> Forall (fun w => ze w <> e) A ->
  zslGetRank z sc e h = Some (Z.of_nat (length A) + 1, h).
Proof.
  intros [Hz Hs Hn] Hsc Hk Huniq. pose proof (key_le_cut sc e A y B Hsc Hn Hs Hk) as Hcut.
  assert (zsl_struct h z ((A ++ [y]) ++ B)) as Hz' by (by rewrite <- app_assoc).
  pose proof (rep_core _ _ _ Hz') as Hc. pose proof (core_max _ _ _ _ Hc) as Hm.
  pose proof (upto_top _ _ _ _ Hc (A ++ [y]) B eq_refl) as Htop.
  pose proof (rank_loop_spec h z (A ++ [y]) B Hz' sc e Hcut (zlevel z) (Z.of_nat (length A) + 1) ltac:(lia)) as Hloop.
  rewrite Htop in Hloop. apply Hloop.
  - intros j Hj. destruct (upto_split j (A ++ [y])) as (M & HM & _). destruct (last (upto j (A ++ [y]))) as [w|] eqn:Hw; [|done].
    cbn. intros Hew. apply last_Some in Hw as (P & HP). rewrite HP in HM |- *. rewrite <- app_assoc in HM.
    destruct M as [|m M _] using rev_ind.
    + rewrite app_nil_r in HM. rewrite <- HM, length_app. simpl. lia.
    + exfalso. rewrite !app_assoc in HM. apply app_inj_tail in HM as [HA _]. rewrite HA in Huniq.
      rewrite !Forall_app, Forall_singleton in Huniq. tauto.
  - right. split; [lia|]. rewrite (upto_bottom _ _ _ _ Hc (A ++ [y]) B eq_refl), last_snoc. destruct Hk as [_ Hk]. cbn. by rewrite Hk.
  - lia.
Qed.

Lemma zslGetRank_absent h z ns sc e :
  zsl_rep h z ns -> isnan sc = false -> Forall (fun w => ze w <> e) ns -> zslGetRank z sc e h = Some (0, h).
Proof.
  intros [Hz Hs Hn] Hsc Hno. destruct (sorted_cut _ ns (key_le_closed sc e ns Hsc Hn) Hs) as (C & B & -> & Hcut).
  pose proof (rep_core _ _ _ Hz) as Hc. pose proof (upto_top _ _ _ _ Hc C B eq_refl) as Htop.
  pose proof (rank_loop_spec h z C B Hz sc e Hcut (zlevel z) 0 ltac:(lia)) as Hloop. rewrite Htop in Hloop.
  assert (forall j, (ze <$> last (upto j C)) <> Some e) as Hne.
  { intros j Hj. destruct (last (upto j C)) as [w|] eqn:Hw; [|done]. injection Hj as Hj. apply last_Some in Hw as (P & HP).
    destruct (upto_split j C) as (M & HM & _). rewrite HP in HM. rewrite HM in Hno.
    rewrite !Forall_app, Forall_singleton in Hno. tauto. }
  apply Hloop; [|by left|done]. intros j _. specialize (Hne j). destruct (ze <$> last (upto j C)); [|done]. intros ->. done.
Qed.

(** ** Element of a rank *)

Section ByRank.
Context (h : zheap) (z : zskiplist) (ns : list zentry) (Hz : zsl_struct h z ns).
Context (rank : Z) (Hrank : 0 <= rank).
Definition ahead : list zentry := take (Z.to_nat rank) ns.

Lemma ahead_split : ns = ahead ++ drop (Z.to_nat rank) ns.
Proof. symmetry. apply take_drop. Qed.

Lemma by_rank_step i : (i < zlevel z)%nat ->
  walk_level u64 (fun r _ => r <=? rank) (zfuel z) i (at_pos (header z) (upto (S i) ahead)) (Z.of_nat (length (upto (S i) ahead))) h =
    Some ((at_pos (header z) (upto i ahead), Z.of_nat (length (upto i ahead))), h).
Proof.
  intros Hi. pose proof (rep_core _ _ _ Hz) as Hc. pose proof (core_len _ _ _ _ Hc) as Hl.
  eapply (walk_step h (header z) (zlevel z) ns Hc u64 _ ahead (drop (Z.to_nat rank) ns)); [| | | |done|].
  - intros n Hn. apply u64_rank. lia.
  - apply ahead_split.
  - intros P y M Q Heq. apply Z.leb_le. assert (length ahead <= Z.to_nat rank)%nat as Hle by (unfold ahead; rewrite length_take; lia).
    rewrite Heq, length_app in Hle. simpl in Hle. lia.
  - intros P y M Q Heq. apply Z.leb_gt. assert (Z.to_nat rank < length ns)%nat as Hlt.
    { destruct (decide (length ns <= Z.to_nat rank)%nat) as [Hle|]; [|lia]. rewrite drop_ge in Heq by done. by destruct P. }
    unfold ahead. rewrite length_take. lia.
  - unfold zfuel. rewrite (rep_length _ _ _ Hz). lia.
Qed.

Lemma by_rank_loop_spec i : (i <= zlevel z)%nat -> (0 < i)%nat \/ (length ahead < Z.to_nat rank)%nat ->
  by_rank_loop (zfuel z) i rank (at_pos (header z) (upto i ahead)) (Z.of_nat (length (upto i ahead))) h =
    Some (if Z.of_nat (length ahead) =? rank then Some (at_pos (header z) ahead) else None, h).
Proof.
  induction i as [|i IH]; intros Hi Hpos; cbn [by_rank_loop].
  { destruct Hpos as [?|Hpos]; [lia|]. rewrite (proj2 (Z.eqb_neq _ _)) by lia. done. }
  rewrite (hbind_ok _ _ _ _ _ (by_rank_step i Hi)). cbn beta iota.
  destruct (upto_split i ahead) as (M & HM & _).
  assert (length ahead <= Z.to_nat rank)%nat as Hle by (unfold ahead; rewrite length_take; lia).
  pose proof (f_equal length HM) as Hlen. rewrite length_app in Hlen.
  destruct (Z.of_nat (length (upto i ahead)) =? rank) eqn:Heq.
  - apply Z.eqb_eq in Heq. destruct M; [|simpl in Hlen; lia]. rewrite app_nil_r in HM. rewrite <- HM in Heq |- *.
    by rewrite (proj2 (Z.eqb_eq _ _) Heq).
  - apply IH; [lia|]. destruct i as [|i]; [right|left; lia]. apply Z.eqb_neq in Heq.
    rewrite (upto_bottom _ _ _ _ (rep_core _ _ _ Hz) ahead (drop (Z.to_nat rank) ns) ahead_split) in Heq. lia.
Qed.
End ByRank.

Lemma zslGetElementByRank_spec h z ns rank :
  zsl_struct h z ns -> 1 <= rank ->
  zslGetElementByRank z rank h = Some (za <$> ns !! Z.to_nat (rank - 1), h).
Proof.
  intros Hz Hr. pose proof (rep_core _ _ _ Hz) as Hc. pose proof (core_max _ _ _ _ Hc) as Hm.
  pose proof (by_rank_loop_spec h z ns Hz rank ltac:(lia) (zlevel z) ltac:(lia) ltac:(left; lia)) as Hloop.
  rewrite (upto_top _ _ _ _ Hc (ahead ns rank) (drop (Z.to_nat rank) ns) (ahead_split ns rank)) in Hloop.
  etransitivity; [exact Hloop|]. f_equal. f_equal. unfold ahead. rewrite length_take.
  destruct (ns !! Z.to_nat (rank - 1)) as [y|] eqn:Hy.
  - pose proof (lookup_lt_Some _ _ _ Hy) as Hlt. rewrite (proj2 (Z.eqb_eq _ _)) by lia.
    replace (Z.to_nat rank) with (S (Z.to_nat (rank - 1))) by lia. rewrite (take_S_r _ _ y Hy), at_pos_snoc. done.
  - apply lookup_ge_None in Hy. rewrite (proj2 (Z.eqb_neq _ _)) by lia. done.
Qed.

(** ** Ranges *)

(** What zrangespec and zlexrangespec have in common: whether the range is empty
    by its bounds, and the tests against the lower and the upper bound. *)
Class ZRange (R : Type) := {
  r_empty : R -> bool;
  r_ge : R -> double -> sds -> bool;
  r_le : R -> double -> sds -> bool }.

#[global] Instance score_range : ZRange zrangespec := {
  r_empty r := dgt (rmin r) (rmax r) || (deq (rmin r) (rmax r) && (minex r || maxex r));
  r_ge r s _ := zslValueGteMin s r;
  r_le r s _ := zslValueLteMax s r }.

#[global] Instance lex_range : ZRange zlexrangespec := {
  r_empty r := (sdscmplex (lmin r) (lmax r) >? 0) || ((sdscmplex (lmin r) (lmax r) =? 0) && (lminex r || lmaxex r));
  r_ge r _ e := zslLexValueGteMin e r;
  r_le r _ e := zslLexValueLteMax e r }.

Section Ranges.
Context {R : Type} {HR : ZRange R} (r : R).

Definition e_ge (y : zentry) : bool := r_ge r (zs y) (ze y).
Definition e_le (y : zentry) : bool := r_le r (zs y) (ze y).
Definition in_range (y : zentry) : bool := e_ge y && e_le y.

(** The bounds agree with the order of the list. *)
Class RangeLaws (ns : list zentry) : Prop := {
  ge_up : forall a b, a ∈ ns -> b ∈ ns -> entry_lt a b -> e_ge a = true -> e_ge b = true;
  le_down : closed e_le ns;
  empty_none : r_empty r = true -> forall y, y ∈ ns -> in_range y = false }.

(** The searches of both kinds of range. *)
Definition n_ge (n : zskiplistNode) : bool := r_ge r (score n) (default [] (ele n)).
Definition n_le (n : zskiplistNode) : bool := r_le r (score n) (default [] (ele n)).

Definition is_in_range (z : zskiplist) : ZM bool :=
  if r_empty r then mret false
  else match ztail z with
  | None => mret false
  | Some t =>
    nt ← zload t;
    if negb (n_ge nt) then mret false
    else
      '(fw, _) ← get_level (header z) 0;
      match fw with None => mret false | Some x => n ← zload x; mret (n_le n) end
  end.

Definition first_in_range (z : zskiplist) : ZM (option zaddr) :=
  inr ← is_in_range z;
  if negb inr then mret None
  else
    '(x, _, _) ← descend u64 (fun _ n => negb (n_ge n)) (zfuel z) (zlevel z) (header z) 0;
    '(fw, _) ← get_level x 0;
    x ← nonnull fw;
    n ← zload x;
    mret (if negb (n_le n) then None else Some x).

Definition last_in_range (z : zskiplist) : ZM (option zaddr) :=
  inr ← is_in_range z;
  if negb inr then mret None
  else
    '(x, _, _) ← descend u64 (fun _ n => n_le n) (zfuel z) (zlevel z) (header z) 0;
    n ← zload x;
    mret (if negb (n_ge n) then None else Some x).

Context (h : zheap) (z : zskiplist) (ns : list zentry) (Hrep : zsl_rep h z ns) (Hlaws : RangeLaws ns).

Lemma filter_none (f : zentry -> bool) l : Forall (fun y => f y = false) l -> List.filter f l = [].
Proof. induction 1 as [|y l Hy _ IH]; [done|]. cbn. by rewrite Hy. Qed.

Lemma filter_all (f : zentry -> bool) l : Forall (fun y => f y = true) l -> List.filter f l = l.
Proof. induction 1 as [|y l Hy _ IH]; [done|]. cbn. by rewrite Hy, IH. Qed.

Lemma not_ge_closed : closed (fun y => negb (e_ge y)) ns.
Proof.
  intros a b Ha Hb Hab. rewrite !negb_true_iff. intros Hge. apply not_true_is_false. intros Hga.
  rewrite (ge_up a b Ha Hb Hab Hga) in Hge. done.
Qed.

(** The entries below the range, in the range, and beyond it. *)
Lemma range_split : exists A M B, ns = A ++ M ++ B /\ cut (fun y => negb (e_ge y)) A (M ++ B) /\
  cut e_le M B /\ List.filter in_range ns = M.
Proof.
  destruct Hrep as [_ Hs _]. destruct (sorted_cut _ ns not_ge_closed Hs) as (A & B0 & Hns & HA & HB0).
  destruct (sorted_cut e_le B0) as (M & B & -> & HM & HB).
  { intros a b Ha Hb. apply le_down; rewrite Hns; apply elem_of_app; by right. }
  { rewrite Hns in Hs. by apply StronglySorted_app in Hs as (_ & _ & Hs). }
  exists A, M, B. split_and!; try done. rewrite Hns, !List.filter_app.
  rewrite (filter_none _ A), (filter_all _ M), (filter_none _ B), app_nil_r; [done|..].
  - eapply Forall_impl; [exact HB|]. intros y Hy. unfold in_range. by rewrite Hy, andb_false_r.
  - apply Forall_app in HB0 as [HgM _]. rewrite !Forall_forall in *. intros y Hy. unfold in_range.
    specialize (HgM y Hy). apply negb_false_iff in HgM. by rewrite HgM, (HM y Hy).
  - eapply Forall_impl; [exact HA|]. intros y Hy. apply negb_true_iff in Hy. unfold in_range. by rewrite Hy.
Qed.

Lemma load_entry P y Q : ns = P ++ y :: Q -> zload (za y) h = Some (znode P y Q, h).
Proof. intros Hns. destruct Hrep as [Hz _ _]. by apply zload_ok, (core_nodes _ _ _ _ (rep_core _ _ _ Hz)). Qed.

Lemma head_get : get_level (header z) 0 h = Some (lv 0 ns, h).
Proof. destruct Hrep as [Hz _ _]. by apply (pos_get h z [] ns). Qed.

(** zslIsInRange: when it says no, no entry is in the range; when it says yes,
    the last entry is not below and the first not beyond it. *)
Lemma is_in_range_spec :
  (is_in_range z h = Some (false, h) /\ List.filter in_range ns = []) \/
  (is_in_range z h = Some (true, h) /\ (exists a P, ns = a :: P /\ e_le a = true) /\ (exists P b, ns = P ++ [b] /\ e_ge b = true)).
Proof.
  pose proof Hrep as [Hz Hs _]. unfold is_in_range. destruct (r_empty r) eqn:He.
  { left. split; [done|]. apply filter_none, Forall_forall. by apply empty_none. }
  rewrite (rep_tail _ _ _ Hz). destruct (list_eq_nil_dec ns) as [Hnil|Hcons].
  { left. by rewrite Hnil. }
  destruct (exists_last Hcons) as (P & b & Hb).
  assert (prev_addr ns = Some (za b)) as -> by (rewrite Hb; apply prev_addr_snoc).
  rewrite (hbind_ok _ _ _ _ _ (load_entry P b [] Hb)). change (n_ge (znode P b [])) with (e_ge b).
  destruct (e_ge b) eqn:Hgb; cbn [negb].
  - rewrite (hbind_ok _ _ _ _ _ head_get). cbn [lv fst snd]. rewrite (fwd0 h z [] ns Hz).
    assert (exists a ns', ns = a :: ns') as (a & ns' & Hcns) by (destruct ns; [done|eauto]).
    replace (List.hd_error ns) with (Some a) by (by rewrite Hcns). cbn [fmap option_fmap option_map].
    rewrite (hbind_ok _ _ _ _ _ (load_entry [] a ns' Hcns)). change (n_le (znode [] a ns')) with (e_le a).
    destruct (e_le a) eqn:Hla; [right; split_and!; [done|by exists a, ns'|by exists P, b]|left; split; [done|]].
    apply filter_none. rewrite Hcns in Hs |- *. apply StronglySorted_cons in Hs as [Has _].
    constructor; [unfold in_range; by rewrite Hla, andb_false_r|].
    rewrite Forall_forall in *. intros y Hy. unfold in_range. apply andb_false_iff. right. apply not_true_is_false. intros Hly.
    rewrite (le_down a y) in Hla; [done|rewrite Hcns; by left|rewrite Hcns; by right|by apply Has|done].
  - left. split; [done|]. apply filter_none, Forall_forall. intros y Hy. unfold in_range. apply andb_false_iff. left.
    apply not_true_is_false. intros Hgy. pose proof Hy as Hy'. rewrite Hb in Hy. apply elem_of_app in Hy as [Hy|Hy%list_elem_of_singleton]; [|congruence].
    rewrite Hb in Hs. apply StronglySorted_app in Hs as (Hs & _ & _).
    rewrite (ge_up y b) in Hgb; [done|done|rewrite Hb; apply elem_of_app; right; by left|apply Hs; [done|by left]|done].
Qed.

Lemma first_in_range_spec : first_in_range z h = Some (za <$> List.hd_error (List.filter in_range ns), h).
Proof.
  unfold first_in_range. pose proof Hrep as [Hz _ _].
  destruct is_in_range_spec as [[Hin Hnone]|(Hin & _ & (P & b & Hb & Hgb))]; rewrite (hbind_ok _ _ _ _ _ Hin); [by rewrite Hnone|]. cbn [negb].
  destruct range_split as (A & M & B & Hns & Hcut & [HM HB] & ->).
  rewrite (hbind_ok _ _ _ _ _ (cut_search h z ns u64 (fun _ n => negb (n_ge n)) (fun y => negb (e_ge y)) A (M ++ B) Hz Hns u64_rank ltac:(reflexivity) Hcut)).
  cbn beta iota. rewrite Hns in Hz. rewrite (hbind_ok _ _ _ _ _ (pos_get h z A (M ++ B) Hz)). cbn [lv fst snd].
  rewrite (fwd0 h z A (M ++ B) Hz).
  destruct (M ++ B) as [|x rest] eqn:Hrest.
  { exfalso. destruct Hcut as [HA _]. rewrite Hns, app_nil_r in Hb. subst A. apply Forall_app in HA as [_ HA].
    apply Forall_cons in HA as [HA _]. by rewrite Hgb in HA. }
  cbn [List.hd_error fmap option_fmap option_map]. rewrite (hbind_ok _ _ h (za x) h) by done.
  rewrite (hbind_ok _ _ _ _ _ (load_entry A x rest Hns)). change (n_le (znode A x rest)) with (e_le x).
  destruct M as [|m M]; cbn in Hrest.
  - rewrite Hrest in HB. apply Forall_cons in HB as [-> _]. done.
  - injection Hrest as -> _. apply Forall_cons in HM as [-> _]. done.
Qed.

Lemma last_in_range_spec : last_in_range z h = Some (za <$> last (List.filter in_range ns), h).
Proof.
  unfold last_in_range. pose proof Hrep as [Hz Hs _].
  destruct is_in_range_spec as [[Hin Hnone]|(Hin & (a & P & Ha & Hla) & _)]; rewrite (hbind_ok _ _ _ _ _ Hin); [by rewrite Hnone|]. cbn [negb].
  destruct (sorted_cut e_le ns le_down Hs) as (C & D & Hns & HC & HD).
  rewrite (hbind_ok _ _ _ _ _ (cut_search h z ns u64 (fun _ n => n_le n) e_le C D Hz Hns u64_rank ltac:(reflexivity) (conj HC HD))). cbn beta iota.
  destruct C as [|c C _] using rev_ind.
  { cbn in Hns. rewrite <- Hns, Ha in HD. apply Forall_cons in HD as [HD _]. congruence. }
  rewrite at_pos_snoc. assert (ns = C ++ c :: D) as Hns' by (by rewrite Hns, <- app_assoc).
  rewrite (hbind_ok _ _ _ _ _ (load_entry C c D Hns')). change (n_ge (znode C c D)) with (e_ge c).
  rewrite Hns, !List.filter_app. cbn [List.filter]. rewrite (filter_none _ D), app_nil_r.
  2: { eapply Forall_impl; [exact HD|]. intros y Hy. unfold in_range. by rewrite Hy, andb_false_r. }
  apply Forall_app in HC as [HC Hc]. apply Forall_cons in Hc as [Hc _]. unfold in_range at 2. rewrite Hc, andb_true_r.
  destruct (e_ge c) eqn:Hge; cbn [negb]; [by rewrite last_snoc|]. rewrite app_nil_r, filter_none; [done|].
  rewrite Hns' in Hs. destruct (sorted_middle C c D Hs) as (_ & HCc & _). apply Forall_forall. intros y Hy. unfold in_range.
  apply andb_false_iff. left. apply not_true_is_false. intros Hgy. rewrite Forall_forall in HCc.
  rewrite (ge_up y c) in Hge; [done|rewrite Hns'; apply elem_of_app; by left|rewrite Hns'; apply elem_of_app; right; by left|by apply HCc|done].
Qed.
End Ranges.

(** The functions of the source are these searches. *)
Lemma zslFirstInRange_is z r : zslFirstInRange z r = first_in_range r z.
Proof. reflexivity. Qed.
Lemma zslLastInRange_is z r : zslLastInRange z r = last_in_range r z.
Proof. reflexivity. Qed.
Lemma zslFirstInLexRange_is z r : zslFirstInLexRange z r = first_in_range r z.
Proof. reflexivity. Qed.
Lemma zslLastInLexRange_is z r : zslLastInLexRange z r = last_in_range r z.
Proof. reflexivity. Qed.

(** ** The laws for scores and for elements *)

Lemma entry_lt_score a b : entry_lt a b -> klt3 (dkey (zs a)) (dkey (zs b)) \/ dkey (zs a) = dkey (zs b).
Proof. intros [?|[? _]]; auto. Qed.

(** Case analysis on comparisons of scores. *)
Ltac kcases :=
  repeat match goal with
  | H : _ \/ _ |- _ => destruct H
  | H : _ /\ _ |- _ => destruct H
  | H : dkey _ = dkey _ |- _ => rewrite H in *; clear H
  | H : klt3 ?a ?a |- _ => destruct (klt3_irrefl _ H)
  | H1 : klt3 ?a ?b, H2 : klt3 ?b ?c |- _ =>
    lazymatch goal with _ : klt3 a c |- _ => fail | _ => pose proof (klt3_trans _ _ _ H1 H2) end
  end.

Lemma gte_min_iff v r : isnan v = false -> isnan (rmin r) = false ->
  zslValueGteMin v r = true <-> klt3 (dkey (rmin r)) (dkey v) \/ (minex r = false /\ dkey (rmin r) = dkey v).
Proof.
  intros Hv Hr. unfold zslValueGteMin, dgt, dge. destruct (minex r); [rewrite dlt_iff by done|rewrite dle_iff by done]; intuition congruence.
Qed.

Lemma lte_max_iff v r : isnan v = false -> isnan (rmax r) = false ->
  zslValueLteMax v r = true <-> klt3 (dkey v) (dkey (rmax r)) \/ (maxex r = false /\ dkey v = dkey (rmax r)).
Proof.
  intros Hv Hr. unfold zslValueLteMax. destruct (maxex r); [rewrite dlt_iff by done|rewrite dle_iff by done]; intuition congruence.
Qed.

Lemma score_laws r ns : isnan (rmin r) = false -> isnan (rmax r) = false ->
  Forall (fun y => isnan (zs y) = false) ns -> RangeLaws r ns.
Proof.
  intros Hmin Hmax Hn. rewrite Forall_forall in Hn. split.
  - intros a b Ha Hb Hab%entry_lt_score. unfold e_ge. cbn. rewrite !gte_min_iff by auto. intros Hge. destruct (minex r); kcases; eauto; congruence.
  - intros a b Ha Hb Hab%entry_lt_score. unfold e_le. cbn. rewrite !lte_max_iff by auto. intros Hle. destruct (maxex r); kcases; eauto; congruence.
  - intros He y Hy. apply not_true_is_false. unfold in_range, e_ge, e_le. cbn in *. rewrite andb_true_iff, gte_min_iff, lte_max_iff by auto.
    unfold dgt in He. rewrite orb_true_iff, andb_true_iff, orb_true_iff, dlt_iff, deq_iff in He by done. intros [H1 H2].
    destruct (minex r), (maxex r); kcases; congruence.
Qed.

Lemma lex_ge_up a b m (ex : bool) : sdscmp a b < 0 ->
  (if ex then sdscmplex (LexVal a) m >? 0 else sdscmplex (LexVal a) m >=? 0) = true -> sdscmplex (LexVal b) m > 0.
Proof.
  intros Hab. destruct m as [| |s]; cbn; [lia|destruct ex; discriminate|]. intros Ha. apply sdscmp_opp.
  destruct (sdscmp_total s a) as [Hs|[->|Hs]]; [by eapply sdscmp_trans|done|destruct ex; lia].
Qed.

Lemma lex_le_down a b m (ex : bool) : sdscmp a b < 0 ->
  (if ex then sdscmplex (LexVal b) m <? 0 else sdscmplex (LexVal b) m <=? 0) = true -> sdscmplex (LexVal a) m < 0.
Proof.
  intros Hab. destruct m as [| |s]; cbn; [destruct ex; discriminate|lia|]. intros Hb.
  destruct (sdscmp_total b s) as [Hs|[->|Hs]]; [by eapply sdscmp_trans|done|]. apply sdscmp_opp in Hs. destruct ex; lia.
Qed.

(** No string is above a lower bound and below a smaller upper bound. *)
Lemma lex_between a m1 m2 : sdscmplex (LexVal a) m1 >= 0 -> sdscmplex (LexVal a) m2 <= 0 ->
  sdscmplex m1 m2 <= 0 /\ (sdscmplex m1 m2 = 0 -> sdscmplex (LexVal a) m1 = 0 /\ sdscmplex (LexVal a) m2 = 0).
Proof.
  destruct m1 as [| |s1], m2 as [| |s2]; cbn; try lia. intros H1 H2.
  destruct (sdscmp_total a s1) as [Hs|[->|Hs]]; [lia|rewrite (proj2 (sdscmp_eq s1 s1) eq_refl); lia|].
  destruct (sdscmp_total a s2) as [Ht|[->|Ht]].
  - pose proof (sdscmp_trans _ _ _ Hs Ht). lia.
  - lia.
  - apply sdscmp_opp in Ht. lia.
Qed.

Lemma lex_laws r ns : (forall a b, a ∈ ns -> b ∈ ns -> dkey (zs a) = dkey (zs b)) -> RangeLaws r ns.
Proof.
  intros Heq. assert (forall a b, a ∈ ns -> b ∈ ns -> entry_lt a b -> sdscmp (ze a) (ze b) < 0) as Hlt.
  { intros a b Ha Hb [Hk|[_ Hk]]; [|done]. rewrite (Heq a b Ha Hb) in Hk. by apply klt3_irrefl in Hk. }
  split.
  - intros a b Ha Hb Hab Hge. pose proof (lex_ge_up _ _ _ _ (Hlt a b Ha Hb Hab) Hge). unfold e_ge. cbn. unfold zslLexValueGteMin.
    destruct (lminex r); lia.
  - intros a b Ha Hb Hab Hle. pose proof (lex_le_down _ _ _ _ (Hlt a b Ha Hb Hab) Hle). unfold e_le. cbn. unfold zslLexValueLteMax.
    destruct (lmaxex r); lia.
  - intros He y Hy. apply not_true_is_false. intros [Hge Hle]%andb_true_iff. unfold e_ge, e_le in *. cbn in *.
    unfold zslLexValueGteMin, zslLexValueLteMax in *. destruct (lex_between (ze y) (lmin r) (lmax r)) as [H1 H2].
    + destruct (lminex r); lia.
    + destruct (lmaxex r); lia.
    + destruct (lminex r), (lmaxex r); cbn in He; lia.
Qed.
