(* ===== verification/SkiplistRange.v ===== *)
(** * Skip lists: removing ranges

    zslDeleteRangeByScore, zslDeleteRangeByLex and zslDeleteRangeByRank remove a
    run of consecutive entries from the skip list and their elements from the
    dictionary of the sorted set. *)
From stdpp Require Import prelude list gmap sorting.
From Stdlib Require Import ZArith Lia.
From S2P Require Import Prelude Dict DictInv DictRehash DictOps.
From S2P Require Import Double Skiplist SkiplistRep SkiplistInsert SkiplistDelete SkiplistOps SkiplistQuery.

Local Open Scope Z_scope.

Section DeleteRange.
Context {V : Type} `{Hok : DictTypeOk sds V}.
Implicit Types d : dict sds V.

(** The entry's key is none of [ks]. *)
Definition key_kept (ks : list sds) (e : dictEntry sds V) : bool := negb (existsb (fun k => keq k (de_key e)) ks).

Lemma filter_id {T} (f : T -> bool) l : (forall x, x ∈ l -> f x = true) -> List.filter f l = l.
Proof. induction l as [|x l IH]; intros Hf; [done|]. cbn. rewrite Hf by (by left). f_equal. apply IH. intros y Hy. apply Hf. by right. Qed.

Lemma filter_perm {T} (f : T -> bool) l l' : l ≡ₚ l' -> List.filter f l ≡ₚ List.filter f l'.
Proof.
  induction 1 as [|x l l' _ IH|x y l|l1 l2 l3 _ IH1 _ IH2]; cbn; [done| | |by rewrite IH1].
  - destruct (f x); by rewrite IH.
  - destruct (f x), (f y); done || apply Permutation_swap.
Qed.

Lemma filter_filter {T} (f g : T -> bool) l : List.filter f (List.filter g l) = List.filter (fun x => g x && f x) l.
Proof. induction l as [|x l IH]; [done|]. cbn. destruct (g x); cbn; [destruct (f x)|]; by rewrite IH. Qed.

Lemma dictDelete_kept d k : dict_wf d ->
  exists d' ok ev, dictDelete d k = Some (d', ok, ev) /\ dict_wf d' /\ entries d' ≡ₚ List.filter (key_kept [k]) (entries d).
Proof.
  intros Hwf. unfold dictDelete. destruct (dictGenericDelete_spec d k false Hwf) as (d' & ev & -> & Hw & Hm). cbn.
  eexists d', _, _. split; [reflexivity|]. split; [done|].
  assert (forall e, key_kept [k] e = negb (keq k (de_key e))) as Hkk by (intros e; unfold key_kept; cbn; by rewrite orb_false_r).
  destruct (lookup_entry (entries d) k) as [he|] eqn:Hl; destruct Hm as [He _].
  - apply (lookup_entry_Some _ _ _ (wf_keys _ Hwf)) in Hl as [_ Hk]. rewrite (filter_perm _ _ _ He). cbn [List.filter].
    rewrite Hkk, Hk. cbn [negb]. rewrite filter_id; [done|]. intros e Hin. rewrite Hkk. apply negb_true_iff, not_true_is_false. intros Hke.
    pose proof (wf_keys _ Hwf) as Hu. rewrite He in Hu. destruct Hu as [Hu _]. specialize (Hu e Hin).
    rewrite (keq_trans _ _ _ (keq_sym _ _ Hk) Hke) in Hu. done.
  - rewrite filter_id; [done|]. intros e Hin. rewrite Hkk. rewrite lookup_entry_None in Hl. by rewrite (Hl e Hin).
Qed.

(** What the loop removes: [M], between the entries [A] it passed and [B]. *)
Lemma delete_range_loop_spec go A B L0 M : forall h z t r d fuel,
  zsl_struct h z (A ++ M ++ B) -> dict_wf d -> (length M < fuel)%nat -> (zlevel z <= L0)%nat ->
  (forall M1 y M2 P Q, M = M1 ++ y :: M2 -> go (t + Z.of_nat (length M1)) (znode P y Q) = true) ->
  (forall y B2 P Q, B = y :: B2 -> go (t + Z.of_nat (length M)) (znode P y Q) = false) ->
  0 <= t -> 0 <= r -> t + Z.of_nat (length M) < 2 ^ 63 -> r + Z.of_nat (length M) < 2 ^ 63 ->
  exists z' h' d',
    delete_range_loop fuel go (map (U (header z) A) (seq 0 L0)) z (fwd 0 (M ++ B)) t r d h =
      Some ((z', r + Z.of_nat (length M), d'), h') /\
    header z' = header z /\ zsl_struct h' z' (A ++ B) /\
    dict_wf d' /\ entries d' ≡ₚ List.filter (key_kept (ze <$> M)) (entries d) /\
    Forall (fun y => h' !! za y = None) M /\ zframe h h' (header z) (A ++ M ++ B).
Proof.
  induction M as [|y M IH]; intros h z t r d fuel Hz Hd Hf HL HgoM HgoB Ht Hr Ht2 Hr2.
  - cbn [app]. exists z, h, d. rewrite (fwd0 h z A B Hz). split.
    + destruct B as [|b B]; cbn [List.hd_error fmap option_fmap option_map]; [destruct fuel; cbn; by rewrite Z.add_0_r|].
      destruct fuel as [|fuel]; [lia|]. cbn [delete_range_loop].
      rewrite (hbind_ok _ _ _ _ _ (zload_ok _ _ _ (core_nodes _ _ _ _ (rep_core _ _ _ Hz) A b B eq_refl))).
      specialize (HgoB b B A B eq_refl). cbn [length] in HgoB. rewrite Z.add_0_r in HgoB. rewrite HgoB, Z.add_0_r. done.
    + split_and!; try done. rewrite filter_id by done. done.
  - pose proof (y_height _ _ _ _ _ _ (rep_core _ _ _ Hz)) as Hhy. cbn [app] in *. rewrite fwd_high by lia.
    destruct fuel as [|fuel]; [lia|]. cbn [delete_range_loop].
    pose proof (core_nodes _ _ _ _ (rep_core _ _ _ Hz) A y (M ++ B) eq_refl) as Hy.
    rewrite (hbind_ok _ _ _ _ _ (zload_ok _ _ _ Hy)).
    pose proof (HgoM [] y M A (M ++ B) eq_refl) as Hgo. cbn [length] in Hgo. rewrite Z.add_0_r in Hgo. rewrite Hgo.
    rewrite (hbind_ok _ _ _ _ _ (znode_get h z A y (M ++ B) _ 0 Hz eq_refl ltac:(lia))). cbn beta iota delta [lv].
    destruct (zslDeleteNode_struct h z A y (M ++ B) (map (U (header z) A) (seq 0 L0)) Hz) as (z1 & h1 & Hdel & Hhd & Hle & Hz1 & Hf1).
    { by apply ups_take. }
    rewrite (hbind_ok _ _ _ _ _ Hdel). cbn [ele znode]. change (default [] (Some (ze y))) with (ze y).
    destruct (dictDelete_kept d (ze y) Hd) as (d1 & ok & ev & Hdd & Hd1 & He1).
    rewrite (hbind_ok _ _ h1 (d1, ok, ev) h1) by (unfold lift; by rewrite Hdd). cbn beta iota.
    pose proof (removed_fresh h z A y (M ++ B) Hz) as Hyf.
    destruct (zslFreeNode_struct h1 z1 (A ++ M ++ B) (za y) (znode A y (M ++ B)) Hz1) as [Hfree Hz2].
    { by rewrite Hhd. }
    { by rewrite Hf1. }
    rewrite (hbind_ok _ _ _ _ _ Hfree). cbn [length] in *. rewrite <- Hhd.
    rewrite (u64_small (t + 1)), (u64_small (r + 1)) by lia.
    destruct (IH (delete (za y) h1) z1 (t + 1) (r + 1) d1 fuel) as (z' & h' & d' & Hrun & Hhd' & Hz' & Hd' & He' & Hgone & Hframe);
      try done || lia.
    { intros M1 w M2 P Q Heq. pose proof (HgoM (y :: M1) w M2 P Q ltac:(by rewrite Heq)) as Hw. rewrite <- Hw. f_equal. cbn [length]. lia. }
    { intros w B2 P Q Heq. rewrite <- (HgoB w B2 P Q Heq). f_equal. lia. }
    exists z', h', d'. rewrite Hrun. split; [do 3 f_equal; f_equal; lia|]. split_and!; try done.
    + rewrite He', (filter_perm _ _ _ He1), filter_filter. apply Permutation_refl', List.filter_ext. intros e.
      unfold key_kept. cbn [fmap list_fmap existsb]. by rewrite orb_false_r, negb_orb.
    + constructor; [|done]. rewrite Hframe by (by rewrite Hhd). apply lookup_delete_eq.
    + rewrite Hhd in *. intros q Hq. rewrite Hframe.
      * rewrite lookup_delete_ne; [|intros <-; apply Hq; right; rewrite fmap_app, elem_of_app; right; cbn; by left].
        by apply (zframe_weaken h h1 (header z) A y (M ++ B) Hf1).
      * intros Hin. apply Hq. rewrite !fmap_app in *. cbn [fmap list_fmap]. rewrite fmap_app. rewrite elem_of_cons, !elem_of_app in *.
        rewrite elem_of_cons, elem_of_app. tauto.
Qed.

(** The result of removing a run of entries. *)
Record run_removed (h h' : zheap) (z z' : zskiplist) (d d' : dict sds V) (A M B : list zentry) : Prop := {
  run_header : header z' = header z;
  run_rep : zsl_rep h' z' (A ++ B);
  run_dict : dict_wf d';
  run_entries : entries d' ≡ₚ List.filter (key_kept (ze <$> M)) (entries d);
  run_freed : Forall (fun y => h' !! za y = None) M;
  run_frame : zframe h h' (header z) (A ++ M ++ B) }.

Lemma sorted_run A M B : StronglySorted entry_lt (A ++ M ++ B) -> StronglySorted entry_lt (A ++ B).
Proof.
  rewrite !StronglySorted_app. intros (H1 & H2 & _ & _ & H5). split_and!; try done.
  intros a b Ha Hb. apply H1; [done|]. apply elem_of_app. by right.
Qed.

(** The search for the beginning of the run and the loop that removes it. *)
Lemma delete_run_spec h z d A M B go1 go2 t :
  zsl_rep h z (A ++ M ++ B) -> dict_wf d ->
  descend u64 go1 (zfuel z) (zlevel z) (header z) 0 h =
    Some ((at_pos (header z) A, Z.of_nat (length A), map (update_of (header z) A) (seq 0 (zlevel z))), h) ->
  0 <= t <= 2 ^ 33 ->
  (forall M1 y M2 P Q, M = M1 ++ y :: M2 -> go2 (t + Z.of_nat (length M1)) (znode P y Q) = true) ->
  (forall y B2 P Q, B = y :: B2 -> go2 (t + Z.of_nat (length M)) (znode P y Q) = false) ->
  exists z' h' d',
    ('(x, _, ups) ← descend u64 go1 (zfuel z) (zlevel z) (header z) 0;
     '(x, _) ← get_level x 0;
     delete_range_loop (zfuel z) go2 ups.*1 z x t 0 d) h = Some ((z', Z.of_nat (length M), d'), h') /\
    run_removed h h' z z' d d' A M B.
Proof.
  intros [Hz Hs Hn] Hd Hsearch Ht HgoM HgoB. pose proof (core_len _ _ _ _ (rep_core _ _ _ Hz)) as Hl.
  rewrite (hbind_ok _ _ _ _ _ Hsearch). cbn beta iota. rewrite (hbind_ok _ _ _ _ _ (pos_get h z A (M ++ B) Hz)).
  cbn beta iota delta [lv]. rewrite ups_fst. rewrite !length_app in Hl.
  destruct (delete_range_loop_spec go2 A B (zlevel z) M h z t 0 d (zfuel z) Hz Hd) as (z' & h' & d' & Hrun & Hhd & Hz' & Hd' & He & Hfr & Hf);
    try done || lia.
  { unfold zfuel. rewrite (rep_length _ _ _ Hz), !length_app. lia. }
  exists z', h', d'. rewrite Hrun. split; [done|]. split; try done. split; [done|by eapply sorted_run|].
  rewrite !Forall_app in *. tauto.
Qed.

(** Removing the entries of a range of scores or of elements. *)
Lemma delete_in_range_spec {R} `{!ZRange R} (r : R) h z ns d go1 go2 :
  zsl_rep h z ns -> RangeLaws r ns -> dict_wf d ->
  (forall t P y Q, y ∈ ns -> go1 t (znode P y Q) = negb (e_ge r y)) ->
  (forall t P y Q, y ∈ ns -> go2 t (znode P y Q) = e_le r y) ->
  exists z' h' d' A B, ns = A ++ List.filter (in_range r) ns ++ B /\ A ++ B = List.filter (fun y => negb (in_range r y)) ns /\
    ('(x, _, ups) ← descend u64 go1 (zfuel z) (zlevel z) (header z) 0;
     '(x, _) ← get_level x 0;
     delete_range_loop (zfuel z) go2 ups.*1 z x 0 0 d) h =
      Some ((z', Z.of_nat (length (List.filter (in_range r) ns)), d'), h') /\
    run_removed h h' z z' d d' A (List.filter (in_range r) ns) B.
Proof.
  intros Hrep Hlaws Hd Hgo1 Hgo2. pose proof Hrep as [Hz _ _].
  destruct (range_split r h z ns Hrep Hlaws) as (A & M & B & Hns & Hcut & [HM HB] & HMf). rewrite HMf.
  pose proof (cut_search h z ns u64 go1 (fun y => negb (e_ge r y)) A (M ++ B) Hz Hns u64_rank Hgo1 Hcut) as Hsearch.
  rewrite Hns in Hrep. rewrite !Forall_forall in *.
  destruct (delete_run_spec h z d A M B go1 go2 0 Hrep Hd Hsearch) as (z' & h' & d' & Hrun & Hres); [lia|..].
  { intros M1 y M2 P Q Heq. assert (y ∈ M) as Hy by (rewrite Heq, elem_of_app; right; by left).
    rewrite Hgo2; [by apply HM|]. rewrite Hns, !elem_of_app. auto. }
  { intros y B2 P Q Heq. assert (y ∈ B) as Hy by (rewrite Heq; by left).
    rewrite Hgo2; [by apply HB|]. rewrite Hns, !elem_of_app. auto. }
  exists z', h', d', A, B. split_and!; [done| |done|done].
  rewrite Hns, !List.filter_app. destruct Hcut as [HA HMB].
  rewrite (filter_id _ A), (filter_none _ M), (filter_id _ B); [done|..].
  - intros y Hy. unfold in_range. by rewrite (HB y Hy), andb_false_r.
  - apply Forall_forall. intros y Hy. apply negb_false_iff. rewrite <- HMf in Hy. apply list_elem_of_In, List.filter_In in Hy as [_ Hy]. done.
  - intros y Hy. rewrite Forall_forall in HA. specialize (HA y Hy). apply negb_true_iff in HA. unfold in_range. by rewrite HA.
Qed.

Lemma zslDeleteRangeByScore_spec h z ns d (r : zrangespec) :
  zsl_rep h z ns -> dict_wf d -> isnan (rmin r) = false -> isnan (rmax r) = false ->
  exists z' h' d' A B, ns = A ++ List.filter (in_range r) ns ++ B /\ A ++ B = List.filter (fun y => negb (in_range r y)) ns /\
    zslDeleteRangeByScore z r d h = Some ((z', Z.of_nat (length (List.filter (in_range r) ns)), d'), h') /\
    run_removed h h' z z' d d' A (List.filter (in_range r) ns) B.
Proof.
  intros Hrep Hd Hmin Hmax. pose proof (rep_nan _ _ _ Hrep) as Hn. rewrite Forall_forall in Hn.
  apply delete_in_range_spec; [done|apply score_laws; try done; by apply rep_nan in Hrep|done|..].
  - intros t P y Q Hy. specialize (Hn y Hy). cbn [score znode]. unfold e_ge. cbn [r_ge score_range].
    apply eq_true_iff_eq. rewrite negb_true_iff, <- not_true_iff_false, gte_min_iff by done.
    destruct (klt3_total (dkey (zs y)) (dkey (rmin r))) as [Hk|[Hk|Hk]];
      destruct (minex r); rewrite ?dle_iff, ?dlt_iff by done; split; intros; kcases; try tauto; try congruence;
      intros Hcon; kcases; congruence.
  - intros t P y Q Hy. done.
Qed.

Lemma zslDeleteRangeByLex_spec h z ns d (r : zlexrangespec) :
  zsl_rep h z ns -> dict_wf d -> (forall a b, a ∈ ns -> b ∈ ns -> dkey (zs a) = dkey (zs b)) ->
  exists z' h' d' A B, ns = A ++ List.filter (in_range r) ns ++ B /\ A ++ B = List.filter (fun y => negb (in_range r y)) ns /\
    zslDeleteRangeByLex z r d h = Some ((z', Z.of_nat (length (List.filter (in_range r) ns)), d'), h') /\
    run_removed h h' z z' d d' A (List.filter (in_range r) ns) B.
Proof. intros Hrep Hd Heq. by apply delete_in_range_spec; [|apply lex_laws|..]. Qed.

(** The entries with ranks from [start] to [stop]; the first has rank 1. *)
Definition rank_before (start : Z) (ns : list zentry) : list zentry := take (Z.to_nat (start - 1)) ns.
Definition rank_run (start stop : Z) (ns : list zentry) : list zentry :=
  take (Z.to_nat stop - Z.to_nat (start - 1)) (drop (Z.to_nat (start - 1)) ns).
Definition rank_after (start stop : Z) (ns : list zentry) : list zentry :=
  drop (Z.to_nat stop - Z.to_nat (start - 1)) (drop (Z.to_nat (start - 1)) ns).

Lemma zslDeleteRangeByRank_spec h z ns d start stop :
  zsl_rep h z ns -> dict_wf d -> 0 <= start < 2 ^ 32 -> 0 <= stop < 2 ^ 32 ->
  exists z' h' d',
    zslDeleteRangeByRank z start stop d h = Some ((z', Z.of_nat (length (rank_run start stop ns)), d'), h') /\
    run_removed h h' z z' d d' (rank_before start ns) (rank_run start stop ns) (rank_after start stop ns).
Proof.
  intros Hrep Hd Hst Hsp. pose proof Hrep as [Hz _ _]. pose proof (core_len _ _ _ _ (rep_core _ _ _ Hz)) as Hl.
  set (A := rank_before start ns). set (M := rank_run start stop ns). set (B := rank_after start stop ns).
  assert (ns = A ++ M ++ B) as Hns by (unfold A, M, B, rank_before, rank_run, rank_after; by rewrite !take_drop).
  assert (descend u64 (fun rank _ => rank <? start) (zfuel z) (zlevel z) (header z) 0 h =
    Some ((at_pos (header z) A, Z.of_nat (length A), map (update_of (header z) A) (seq 0 (zlevel z))), h)) as Hsearch.
  { eapply (zsl_search_spec h (header z) (zlevel z) ns (rep_core _ _ _ Hz) u64 _ A (M ++ B)); [|done|..].
    - intros n Hn. apply u64_rank. lia.
    - intros P y M' Q Heq. apply (f_equal length) in Heq. unfold A, rank_before in Heq.
      rewrite length_take, length_app in Heq. simpl in Heq. apply Z.ltb_lt. lia.
    - intros P y M' Q Heq. apply Z.ltb_ge. apply (f_equal length) in Heq. apply (f_equal length) in Hns.
      rewrite !length_app in *. simpl in Heq. unfold A, rank_before in Hns |- *. rewrite length_take in *. lia.
    - unfold zfuel. rewrite (rep_length _ _ _ Hz). lia. }
  assert (length A <= length ns)%nat as HlA by (unfold A, rank_before; rewrite length_take; lia).
  rewrite Hns in Hrep.
  destruct (delete_run_spec h z d A M B (fun rank _ => rank <? start) (fun traversed _ => traversed <=? stop)
    (Z.of_nat (length A) + 1) Hrep Hd Hsearch) as (z' & h' & d' & Hrun & Hres); [lia|..].
  - intros M1 y M2 P Q Heq. apply Z.leb_le. apply (f_equal length) in Heq. unfold M, rank_run in Heq.
    rewrite length_take, length_drop, length_app in Heq. simpl in Heq. unfold A, rank_before. rewrite length_take. lia.
  - intros y B2 P Q Heq. apply Z.leb_gt. apply (f_equal length) in Heq. unfold B, rank_after in Heq.
    rewrite !length_drop in Heq. simpl in Heq. unfold A, M, rank_before, rank_run. rewrite !length_take, length_drop. lia.
  - exists z', h', d'. split; [|done]. unfold zslDeleteRangeByRank. rewrite (hbind_ok _ _ _ _ _ Hsearch). rewrite (hbind_ok _ _ _ _ _ Hsearch) in Hrun.
    cbn beta iota in Hrun |- *. rewrite u64_small by lia. exact Hrun.
Qed.
End DeleteRange.
