(* ===== verification/Zset.v ===== *)
(** * Sorted sets (src/redis-stable/src/t_zset.c, server.c)

    A sorted set in the skip list encoding is a skip list together with a
    dictionary from elements to (pointers to) the scores in the nodes.
    zsetLength, zsetScore, zsetAdd, zsetDel and zsetRank are modelled for this
    encoding and shown to keep the two views consistent and to implement the
    operations on the association of scores to elements.  The strings of the
    elements are values here: that the dictionary and the node share one string
    is not modelled. *)
From stdpp Require Import prelude list gmap sorting.
From Stdlib Require Import ZArith Lia Floats.SpecFloat.
From S2P Require Import Prelude Dict DictInv DictRehash DictOps.
From S2P Require Import Double Skiplist SkiplistRep SkiplistInsert SkiplistDelete SkiplistOps SkiplistQuery SkiplistRange.

Local Open Scope Z_scope.
Local Open Scope redis_scope.

(** ** zsetDictType *)

(** The lengths are compared as ints: strings are shorter than 2^31 bytes. *)
Definition dictSdsKeyCompare (key1 key2 : sds) : bool :=
  let l1 := length key1 in
  let l2 := length key2 in
  if negb (l1 =? l2)%nat then false else memcmp key1 key2 l1 =? 0.

(** IEEE 754 double precision addition. *)
Definition dadd (a b : double) : double := SFadd 53 1024 a b.

Definition ZADD_INCR : Z := 1.
Definition ZADD_NX : Z := 2.
Definition ZADD_XX : Z := 4.
Definition ZADD_NOP : Z := 8.
Definition ZADD_NAN : Z := 16.
Definition ZADD_ADDED : Z := 32.
Definition ZADD_UPDATED : Z := 64.

Section Zset.
(** dictSdsHash: SipHash with the seed of the process. *)
Context (dictSdsHash : sds -> Z).

#[local] Instance zsetDictType : DictType sds zaddr := {|
  hashFunction := dictSdsHash;
  keyDup := None; valDup := None;
  keyCompare := Some dictSdsKeyCompare;
  keyDestructor := false; valDestructor := false;
|}.

Record zset := mk_zset { zs_dict : dict sds zaddr; zs_zsl : zskiplist }.

Definition htNeedsResize (d : dict sds zaddr) : bool :=
  let size := s64 (dictSlots d) in
  let used := s64 (dictSize d) in
  (size >? DICT_HT_INITIAL_SIZE) && (Z.quot (s64 (used * 100)) size <? 10).

(** *( double* )dictGetVal(de) *)
Definition entry_score (de : dictEntry sds zaddr) : ZM double :=
  a ← lift (de_val de); n ← zload a; mret (score n).

Definition zsetLength (zs : zset) : Z := zlength (zs_zsl zs).

(** No score: C_ERR. *)
Definition zsetScore (zs : zset) (member : sds) : ZM (zset * option double) :=
  '(d, de) ← lift (dictFind (zs_dict zs) member);
  let zs := mk_zset d (zs_zsl zs) in
  match de with
  | None => mret (zs, None)
  | Some de => s ← entry_score de; mret (zs, Some s)
  end.

(** What the allocator and the random generator return during the call: level,
    address and contents of a new node; address of a new entry of the
    dictionary and of a new table. *)
Record supply := mk_supply { new_level : nat; new_node : zaddr; new_junk : list zlink; new_entry : positive; new_table : Z }.

(** The result: the sorted set, the return value, the flags, and the value
    stored in *newscore if any. *)
Definition zsetAdd (g : dict_globals) (zs : zset) (score : double) (ele : sds) (flags : Z) (s : supply)
    : ZM (zset * bool * Z * option double) :=
  let incr := negb (Z.land flags ZADD_INCR =? 0) in
  let nx := negb (Z.land flags ZADD_NX =? 0) in
  let xx := negb (Z.land flags ZADD_XX =? 0) in
  if isnan score then mret (zs, false, ZADD_NAN, None)
  else
    '(d, de) ← lift (dictFind (zs_dict zs) ele);
    let zs := mk_zset d (zs_zsl zs) in
    match de with
    | Some de =>
      if (nx : bool) then mret (zs, true, ZADD_NOP, None)
      else
        curscore ← entry_score de;
        let score := if (incr : bool) then dadd score curscore else score in
        if incr && isnan score then mret (zs, false, ZADD_NAN, None)
        else
          let newscore := if incr then Some score else None in
          if negb (deq score curscore) then
            '(z, znode) ← zslUpdateScore (zs_zsl zs) curscore ele score (new_level s) (new_node s) (new_junk s);
            mret (mk_zset (dictSetVal d (de_ptr de) znode) z, true, ZADD_UPDATED, newscore)
          else mret (zs, true, 0, newscore)
    | None =>
      if (xx : bool) then mret (zs, true, ZADD_NOP, None)
      else
        '(z, znode) ← zslInsert (zs_zsl zs) score ele (new_level s) (new_node s) (new_junk s);
        '(d, ok) ← lift (dictAdd g d ele znode (new_entry s) (new_table s));
        _ ← zassert ok;
        mret (mk_zset d z, true, ZADD_ADDED, Some score)
    end.

Definition zsetDel (g : dict_globals) (zs : zset) (ele : sds) (tp : Z) : ZM (zset * bool) :=
  '(d, de) ← lift (dictUnlink (zs_dict zs) ele);
  match de with
  | None => mret (mk_zset d (zs_zsl zs), false)
  | Some de =>
    score ← entry_score de;
    (* dictFreeUnlinkedEntry: neither the key nor the value has a destructor *)
    '(z, retval, _) ← zslDelete (zs_zsl zs) score ele false;
    _ ← zassert retval;
    d ← (if htNeedsResize d then '(d, _) ← lift (dictResize g d tp); mret d else mret d);
    mret (mk_zset d z, true)
  end.

(** The result is a long. *)
Definition zsetRank (zs : zset) (ele : sds) (reverse : bool) : ZM (zset * Z) :=
  let llen := zsetLength zs in
  '(d, de) ← lift (dictFind (zs_dict zs) ele);
  let zs := mk_zset d (zs_zsl zs) in
  match de with
  | None => mret (zs, -1)
  | Some de =>
    score ← entry_score de;
    rank ← zslGetRank (zs_zsl zs) score ele;
    _ ← zassert (negb (rank =? 0));
    mret (zs, if reverse then s64 (u64 (llen - rank)) else s64 (u64 (rank - 1)))
  end.
End Zset.

(** ** The two views agree *)

Section Views.
Context (hash : sds -> Z) (Hhash : forall s, 0 <= hash s < 2 ^ 64).
#[local] Instance the_type : DictType sds zaddr := zsetDictType hash.

Lemma memcmp_eq a : forall b, length a = length b -> memcmp a b (length a) = 0 <-> a = b.
Proof.
  induction a as [|x a IH]; intros [|y b] Hl; try done. cbn [length memcmp].
  injection Hl as Hl. destruct (Z.eqb_spec x y) as [->|Hne]; [rewrite (IH b Hl); split; congruence|]. split; [lia|congruence].
Qed.

Lemma keq_eq k1 k2 : keq k1 k2 = true <-> k1 = k2.
Proof.
  unfold keq, dictCompareKeys. cbn. rewrite orb_true_iff, bool_decide_eq_true. split; [intros [?|Hc]; [done|]|by left].
  unfold dictSdsKeyCompare in Hc. destruct (Nat.eqb_spec (length k1) (length k2)) as [Hl|]; [|done]. cbn in Hc.
  apply Z.eqb_eq in Hc. by apply memcmp_eq in Hc.
Qed.

#[local] Instance the_type_ok : DictTypeOk sds zaddr.
Proof using Hhash.
  split.
  - intros k1 k2. rewrite !keq_eq. by symmetry.
  - intros k1 k2 k3. rewrite !keq_eq. congruence.
  - exact Hhash.
  - intros k1 k2. rewrite keq_eq. by intros ->.
  - done.
Qed.

(** The dictionary holds the elements of the list with the addresses of their
    nodes. *)
Definition d_pair (e : dictEntry sds zaddr) : sds * option zaddr := (de_key e, de_val e).
Definition n_pair (y : zentry) : sds * option zaddr := (ze y, Some (za y)).

Record zset_rep (h : zheap) (zs : zset) (ns : list zentry) : Prop := {
  zr_list : zsl_rep h (zs_zsl zs) ns;
  zr_dict : dict_wf (zs_dict zs);
  zr_views : d_pair <$> entries (zs_dict zs) ≡ₚ n_pair <$> ns }.

Lemma uniq_nodup (l : list (dictEntry sds zaddr)) : uniq_keys l -> NoDup (de_key <$> l).
Proof.
  induction l as [|e l IH]; [constructor|]. intros [He Hl]. cbn. constructor; [|by apply IH].
  intros (e' & Hk & Hin)%list_elem_of_fmap. specialize (He e' Hin). rewrite <- Hk in He.
  rewrite (proj2 (keq_eq _ _) eq_refl) in He. done.
Qed.

Lemma zset_nodup h zs ns : zset_rep h zs ns -> NoDup (ze <$> ns).
Proof.
  intros [_ Hd Hv]. pose proof (uniq_nodup _ (wf_keys _ Hd)) as Hn.
  replace (de_key <$> entries (zs_dict zs)) with (fst <$> (d_pair <$> entries (zs_dict zs))) in Hn by (by rewrite <- list_fmap_compose).
  rewrite Hv, <- list_fmap_compose in Hn. exact Hn.
Qed.

Lemma nodup_split (A B : list zentry) y : NoDup (ze <$> (A ++ y :: B)) -> Forall (fun w => ze w <> ze y) (A ++ B).
Proof.
  rewrite fmap_app. cbn [fmap list_fmap]. intros Hn. apply NoDup_app in Hn as (_ & HA & Hn). apply NoDup_cons in Hn as [HB _].
  apply Forall_app. split; apply Forall_forall; intros w Hw Heq.
  - apply (HA (ze y)); [rewrite <- Heq; apply list_elem_of_fmap; eauto|by left].
  - apply HB. rewrite <- Heq. apply list_elem_of_fmap. eauto.
Qed.

(** Looking an element up in the dictionary. *)
Inductive looked_up (d : dict sds zaddr) (ns : list zentry) (k : sds) : Prop :=
  | lu_found A y B he rest : ns = A ++ y :: B -> ze y = k -> Forall (fun w => ze w <> k) (A ++ B) ->
      lookup_entry (entries d) k = Some he -> de_key he = k -> de_val he = Some (za y) ->
      entries d ≡ₚ he :: rest -> d_pair <$> rest ≡ₚ n_pair <$> (A ++ B) -> looked_up d ns k
  | lu_absent : Forall (fun w => ze w <> k) ns -> lookup_entry (entries d) k = None -> looked_up d ns k.

Lemma zset_lookup h zs ns k : zset_rep h zs ns -> looked_up (zs_dict zs) ns k.
Proof using Hhash.
  intros Hr. pose proof (zset_nodup h zs ns Hr) as Hn. destruct Hr as [_ Hd Hv].
  destruct (lookup_entry (entries (zs_dict zs)) k) as [he|] eqn:Hl.
  - pose proof Hl as Hl'. apply (lookup_entry_Some _ _ _ (wf_keys _ Hd)) in Hl' as [Hin Hk]. apply keq_eq in Hk.
    destruct (lookup_split _ _ _ Hl) as (rest & Hrest).
    assert (d_pair he ∈ n_pair <$> ns) as Hp by (rewrite <- Hv; apply list_elem_of_fmap; eauto).
    apply list_elem_of_fmap in Hp as (y & Hy & Hyn). apply list_elem_of_split in Hyn as (A & B & ->).
    unfold d_pair, n_pair in Hy. injection Hy as Hy1 Hy2.
    apply (lu_found _ _ _ A y B he rest); try done; [congruence| |].
    + rewrite Hk, Hy1. by apply nodup_split.
    + rewrite Hrest, fmap_app in Hv. cbn [fmap list_fmap] in Hv. rewrite <- Permutation_middle, <- fmap_app in Hv.
      unfold d_pair at 1, n_pair at 1 in Hv. rewrite Hy1, Hy2 in Hv. by apply Permutation_cons_inv in Hv.
  - apply lu_absent; [|done]. apply Forall_forall. intros w Hw Heq. rewrite lookup_entry_None in Hl.
    assert (n_pair w ∈ d_pair <$> entries (zs_dict zs)) as Hp by (rewrite Hv; apply list_elem_of_fmap; eauto).
    apply list_elem_of_fmap in Hp as (e & He & Hin). unfold d_pair, n_pair in He. injection He as He _.
    specialize (Hl e Hin). rewrite (proj2 (keq_eq _ _)) in Hl by congruence. done.
Qed.

(** dictFind may perform a step of rehashing. *)
Lemma zset_find h zs ns k : zset_rep h zs ns ->
  exists d', dictFind (zs_dict zs) k = Some (d', lookup_entry (entries d') k) /\ zset_rep h (mk_zset d' (zs_zsl zs)) ns.
Proof using Hhash.
  intros [Hl Hd Hv]. destruct (dictFind_spec (zs_dict zs) k Hd) as (d' & Hf & Hd' & He). unfold same_entries in He. exists d'.
  rewrite Hf, (lookup_entry_perm _ _ k (wf_keys _ Hd') He). split; [done|]. split; [done|done|].
  change (d_pair <$> entries d' ≡ₚ n_pair <$> ns). rewrite He. exact Hv.
Qed.

Lemma lift_ok {A} (o : option A) a (h : zheap) : o = Some a -> lift o h = Some (a, h).
Proof. unfold lift. by intros ->. Qed.

Lemma entry_score_read h z A y B he : zsl_rep h z (A ++ y :: B) -> de_val he = Some (za y) ->
  entry_score he h = Some (zs y, h).
Proof.
  intros [Hz _ _] Hv. unfold entry_score. rewrite (hbind_ok _ _ h (za y) h) by (unfold lift; by rewrite Hv).
  by rewrite (hbind_ok _ _ _ _ _ (zload_ok _ _ _ (core_nodes _ _ _ _ (rep_core _ _ _ Hz) A y B eq_refl))).
Qed.

(** ** The operations *)

(** The association of scores to elements. *)
Definition members (ns : list zentry) : list (sds * double) := (fun y => (ze y, zs y)) <$> ns.

Lemma members_split A y B : members (A ++ y :: B) ≡ₚ (ze y, zs y) :: members (A ++ B).
Proof. unfold members. rewrite !fmap_app. cbn [fmap list_fmap]. by rewrite Permutation_middle. Qed.

Definition score_of (ns : list zentry) (k : sds) : option double := zs <$> List.find (fun y => bool_decide (ze y = k)) ns.

Lemma find_split A y B : Forall (fun w => ze w <> ze y) A -> List.find (fun w => bool_decide (ze w = ze y)) (A ++ y :: B) = Some y.
Proof.
  induction 1 as [|a A Ha _ IH]; cbn; [by rewrite bool_decide_eq_true_2|]. by rewrite bool_decide_eq_false_2.
Qed.

Lemma find_absent ns k : Forall (fun w => ze w <> k) ns -> List.find (fun w => bool_decide (ze w = k)) ns = None.
Proof. induction 1 as [|a A Ha _ IH]; cbn; [done|]. by rewrite bool_decide_eq_false_2. Qed.

Lemma score_split A y B k : ze y = k -> Forall (fun w => ze w <> k) (A ++ B) -> score_of (A ++ y :: B) k = Some (zs y).
Proof. intros <- Hn. unfold score_of. rewrite find_split; [done|]. by apply Forall_app in Hn as [? _]. Qed.

Lemma score_absent ns k : Forall (fun w => ze w <> k) ns -> score_of ns k = None.
Proof. intros Hn. unfold score_of. by rewrite find_absent. Qed.

Lemma zsetScore_rep h zs ns k : zset_rep h zs ns ->
  exists zs', zsetScore hash zs k h = Some ((zs', score_of ns k), h) /\ zset_rep h zs' ns.
Proof using Hhash.
  intros Hr. destruct (zset_find h zs ns k Hr) as (d' & Hf & Hr'). exists (mk_zset d' (zs_zsl zs)). split; [|done].
  unfold zsetScore. rewrite (hbind_ok _ _ _ _ _ (lift_ok _ _ _ Hf)). cbn beta iota.
  destruct (zset_lookup _ _ _ k Hr') as [A y B he rest Hns Hy Hu Hl _ Hv _ _|Hno Hl]; cbn [zs_dict] in Hl; rewrite Hl.
  - rewrite Hns in *. rewrite (hbind_ok _ _ _ _ _ (entry_score_read h _ A y B he (zr_list _ _ _ Hr') Hv)).
    by rewrite (score_split A y B k Hy Hu).
  - by rewrite score_absent.
Qed.

(** *** zsetAdd *)

(** What the call means for the association: the new association, the return
    value, the flags and *newscore. *)
Definition add_spec (m : list (sds * double)) (cur : option double) (sc : double) (k : sds) (flags : Z)
    : list (sds * double) * bool * Z * option double :=
  let incr := negb (Z.land flags ZADD_INCR =? 0) in
  let nx := negb (Z.land flags ZADD_NX =? 0) in
  let xx := negb (Z.land flags ZADD_XX =? 0) in
  if isnan sc then (m, false, ZADD_NAN, None)
  else match cur with
  | None => if (xx : bool) then (m, true, ZADD_NOP, None) else ((k, sc) :: m, true, ZADD_ADDED, Some sc)
  | Some cur =>
    if (nx : bool) then (m, true, ZADD_NOP, None)
    else
      let sc' := if (incr : bool) then dadd sc cur else sc in
      if isnan sc' then (m, false, ZADD_NAN, None)
      else
        (if deq sc' cur then m else (k, sc') :: List.filter (fun p => negb (bool_decide (p.1 = k))) m, true,
         if deq sc' cur then 0 else ZADD_UPDATED, if (incr : bool) then Some sc' else None)
  end.

Record supply_ok (h : zheap) (zs : zset) (ns : list zentry) (s : supply) : Prop := {
  sup_level : (1 <= new_level s <= ZSKIPLIST_MAXLEVEL)%nat;
  sup_node : h !! new_node s = None;
  sup_entry : new_entry s ∉ de_ptr <$> entries (zs_dict zs);
  sup_table : new_table s <> 0;
  sup_room : Z.of_nat (length ns) + 1 < 2 ^ 32 }.

Lemma members_absent ns k : Forall (fun w => ze w <> k) ns ->
  List.filter (fun p => negb (bool_decide (p.1 = k))) (members ns) = members ns.
Proof.
  unfold members. induction 1 as [|w l Hw _ IH]; [done|]. cbn [fmap list_fmap List.filter fst].
  rewrite bool_decide_eq_false_2 by done. cbn [negb]. by f_equal.
Qed.

Lemma members_others A y B k : ze y = k -> Forall (fun w => ze w <> k) (A ++ B) ->
  List.filter (fun p => negb (bool_decide (p.1 = k))) (members (A ++ y :: B)) = members (A ++ B).
Proof.
  intros Hy Hn. rewrite <- (members_absent (A ++ B) k Hn). unfold members. rewrite !fmap_app, !List.filter_app.
  cbn [fmap list_fmap List.filter fst]. by rewrite (bool_decide_eq_true_2 _ Hy).
Qed.

(** A new node for an element, in both views. *)
Lemma views_put d A B y p rest :
  d_pair <$> rest ≡ₚ n_pair <$> (A ++ B) -> entries d ≡ₚ Dict.mk_entry p (ze y) (Some (za y)) :: rest ->
  d_pair <$> entries d ≡ₚ n_pair <$> (A ++ y :: B).
Proof.
  intros Hr He. rewrite He, fmap_app. cbn [fmap list_fmap]. rewrite <- Permutation_middle, <- fmap_app. by rewrite Hr.
Qed.

Lemma zset_update h d z A y B he rest k sc s :
  zset_rep h (mk_zset d z) (A ++ y :: B) -> ze y = k -> Forall (fun w => ze w <> k) (A ++ B) -> isnan sc = false ->
  de_key he = k -> entries d ≡ₚ he :: rest -> d_pair <$> rest ≡ₚ n_pair <$> (A ++ B) ->
  h !! new_node s = None -> (1 <= new_level s <= ZSKIPLIST_MAXLEVEL)%nat ->
  exists z' a h' ns', zslUpdateScore z (zs y) k sc (new_level s) (new_node s) (new_junk s) h = Some ((z', a), h') /\
    zset_rep h' (mk_zset (dictSetVal d (de_ptr he) a) z') ns' /\ members ns' ≡ₚ (k, sc) :: members (A ++ B).
Proof using Hhash.
  intros [Hz Hd _] Hy Hu Hsc Hk He Hrest Hp Hlvl. cbn [zs_dict zs_zsl] in *.
  assert (isnan (zs y) = false) as Hny.
  { pose proof (rep_nan _ _ _ Hz) as Hn. apply Forall_app in Hn as [_ Hn]. by apply Forall_cons in Hn as [Hn _]. }
  destruct (zslUpdateScore_rep h z A y B (zs y) k sc _ _ (new_junk s) Hz Hny Hsc (conj eq_refl Hy) Hp Hlvl Hu)
    as (z' & h' & A' & y' & B' & Hrun & _ & HAB & Hs' & He' & Hz').
  exists z', (za y'), h', (A' ++ y' :: B'). split; [done|]. split.
  - split; cbn [zs_dict zs_zsl]; [done|by apply setval_wf|]. apply (views_put _ A' B' y' (de_ptr he) rest); [by rewrite HAB|].
    rewrite He', <- Hk. exact (setval_entry d (de_ptr he) (za y') he rest Hd He eq_refl).
  - by rewrite members_split, HAB, Hs', He'.
Qed.

Lemma zset_insert g h d z ns k sc s :
  zset_rep h (mk_zset d z) ns -> supply_ok h (mk_zset d z) ns s -> isnan sc = false -> Forall (fun w => ze w <> k) ns ->
  lookup_entry (entries d) k = None ->
  exists z' a h' d' ns', zslInsert z sc k (new_level s) (new_node s) (new_junk s) h = Some ((z', a), h') /\
    dictAdd g d k a (new_entry s) (new_table s) = Some (d', true) /\
    zset_rep h' (mk_zset d' z') ns' /\ members ns' ≡ₚ (k, sc) :: members ns.
Proof using Hhash.
  intros [Hz Hd Hv] [Hlvl Hp Hq Htp Hroom] Hsc Hno Hl. cbn [zs_dict zs_zsl] in *.
  destruct (zslInsert_rep h z ns sc k (new_level s) (new_node s) (new_junk s) Hz Hp Hsc Hlvl Hroom) as (z' & h' & A & B & -> & Hrun & _ & Hz' & _).
  { eapply Forall_impl; [exact Hno|]. simpl. tauto. }
  assert (length (entries d) = length (A ++ B)) as Hlen.
  { rewrite <- (length_fmap n_pair (A ++ B)), <- (length_fmap d_pair (entries d)). by rewrite Hv. }
  destruct (dictAdd_spec g d k (new_node s) (new_entry s) (new_table s) Hd Htp Hq ltac:(lia)) as (d' & ok & Hadd & Hd' & Hm).
  rewrite Hl in Hm. destruct Hm as [-> He].
  eexists z', _, h', d', _. split; [exact Hrun|]. split; [exact Hadd|]. split; [split; [exact Hz'|done|]|by rewrite members_split].
  cbn [zs_dict]. by apply (views_put _ A B _ (new_entry s) (entries d)).
Qed.

Lemma zsetAdd_rep g h st ns sc k flags s :
  zset_rep h st ns -> supply_ok h st ns s ->
  exists zs' ret fl nsc h' ns' m, zsetAdd hash g st sc k flags s h = Some ((zs', ret, fl, nsc), h') /\ zset_rep h' zs' ns' /\
    add_spec (members ns) (score_of ns k) sc k flags = (m, ret, fl, nsc) /\ members ns' ≡ₚ m.
Proof using Hhash.
  intros Hr Hs. unfold zsetAdd, add_spec. destruct (isnan sc) eqn:Hsc.
  { by eexists st, _, _, _, h, ns, _. }
  destruct (zset_find h st ns k Hr) as (d & Hf & Hr'). rewrite (hbind_ok _ _ _ _ _ (lift_ok _ _ _ Hf)). cbn beta iota.
  assert (supply_ok h (mk_zset d (zs_zsl st)) ns s) as Hs'.
  { destruct Hs. split; try done. cbn. destruct (dictFind_spec (zs_dict st) k (zr_dict _ _ _ Hr)) as (d2 & Hf2 & _ & He).
    rewrite Hf in Hf2. injection Hf2 as <- _. unfold same_entries in He. by rewrite He. }
  destruct (zset_lookup _ _ _ k Hr') as [A y B he rest Hns Hy Hu Hl Hk Hv He Hrest|Hno Hl]; cbn [zs_dict] in *; rewrite Hl.
  - rewrite Hns in *. rewrite (score_split A y B k Hy Hu).
    destruct (negb (Z.land flags ZADD_NX =? 0)); [by eexists _, _, _, _, h, _, _|].
    rewrite (hbind_ok _ _ _ _ _ (entry_score_read h _ A y B he (zr_list _ _ _ Hr') Hv)). cbv zeta.
    set (sc' := if negb (Z.land flags ZADD_INCR =? 0) then dadd sc (zs y) else sc).
    assert (negb (Z.land flags ZADD_INCR =? 0) && isnan sc' = isnan sc') as ->.
    { unfold sc'. by destruct (negb (Z.land flags ZADD_INCR =? 0)); [|rewrite Hsc]. }
    destruct (isnan sc') eqn:Hsc'; [by eexists _, _, _, _, h, _, _|].
    destruct (deq sc' (zs y)) eqn:Hdeq; cbn [negb]; [by eexists _, _, _, _, h, _, _|].
    destruct (zset_update h d (zs_zsl st) A y B he rest k sc' s Hr' Hy Hu Hsc' Hk He Hrest (sup_node _ _ _ _ Hs') (sup_level _ _ _ _ Hs'))
      as (z' & a & h' & ns' & Hrun & Hrep & Hm).
    rewrite (hbind_ok _ _ _ _ _ Hrun). eexists _, _, _, _, h', ns', _. split; [reflexivity|]. split; [exact Hrep|].
    split; [reflexivity|]. by rewrite Hm, (members_others A y B k Hy Hu).
  - rewrite (score_absent ns k Hno). destruct (negb (Z.land flags ZADD_XX =? 0)); [by eexists _, _, _, _, h, _, _|].
    destruct (zset_insert g h d (zs_zsl st) ns k sc s Hr' Hs' Hsc Hno Hl) as (z' & a & h' & d' & ns' & Hrun & Hadd & Hrep & Hm).
    cbn [zs_zsl]. rewrite (hbind_ok _ _ _ _ _ Hrun). cbn beta iota.
    rewrite (hbind_ok _ _ _ _ _ (lift_ok _ _ _ Hadd)). cbn beta iota.
    rewrite (hbind_ok _ _ h' tt h') by done. by eexists _, _, _, _, h', ns', _.
Qed.

(** *** zsetDel *)

Lemma dictResize_spec g d tp : dict_wf d -> tp <> 0 -> Z.of_nat (length (entries d)) < 2 ^ 31 ->
  exists d' ok, dictResize g d tp = Some (d', ok) /\ dict_wf d' /\ entries d' = entries d.
Proof using Hhash.
  intros Hd Htp Hlen. unfold dictResize. destruct (_ || _); [by exists d, false|]. cbv zeta.
  destruct (used_total d Hd) as (Hu0 & Hu1 & Htot & _).
  rewrite s32_small by lia. set (m := if _ <? _ then _ else _).
  assert (4 <= m < 2 ^ 31) as Hm by (unfold m, DICT_HT_INITIAL_SIZE; destruct (Z.ltb_spec (ht_used (ht0 d)) 4); lia).
  rewrite u64_small by lia. destruct (dictExpand_spec d m tp Hd Htp ltac:(lia)) as (k & d' & _ & _ & _ & He & Hd' & Hent & _).
  by eexists d', _.
Qed.

Lemma resize_views g h d z ns tp : zset_rep h (mk_zset d z) ns -> tp <> 0 -> Z.of_nat (length ns) < 2 ^ 31 ->
  exists d', (if htNeedsResize d then '(d, _) ← lift (dictResize g d tp); mret d else mret d) h = Some (d', h) /\
    zset_rep h (mk_zset d' z) ns.
Proof using Hhash.
  intros Hr Htp Hlen. destruct (htNeedsResize d); [|by exists d]. destruct Hr as [Hz Hd Hv]. cbn [zs_dict zs_zsl] in *.
  assert (length (entries d) = length ns) as Hle.
  { rewrite <- (length_fmap n_pair ns), <- (length_fmap d_pair (entries d)). by rewrite Hv. }
  destruct (dictResize_spec g d tp Hd Htp ltac:(lia)) as (d' & ok & Hres & Hd' & He).
  exists d'. rewrite (hbind_ok _ _ _ _ _ (lift_ok _ _ _ Hres)). split; [done|]. split; [done|done|]. cbn [zs_dict]. by rewrite He.
Qed.

(** The entry of an element is unique. *)
Lemma entry_unique (A B A' B' : list zentry) y y' k :
  A ++ y :: B = A' ++ y' :: B' -> ze y' = k -> Forall (fun w => ze w <> k) (A ++ B) -> y' = y /\ A ++ B ≡ₚ A' ++ B'.
Proof.
  intros Heq Hk Hu. assert (y' = y) as ->.
  { assert (y' ∈ y :: (A ++ B)) as Hin by (rewrite Permutation_middle, Heq, elem_of_app; right; by left).
    apply elem_of_cons in Hin as [?|Hin]; [done|]. rewrite Forall_forall in Hu. by destruct (Hu y' Hin). }
  split; [done|]. apply (Permutation_cons_inv (a := y)). by rewrite !Permutation_middle, Heq.
Qed.

Lemma zsetDel_rep g h st ns k tp :
  zset_rep h st ns -> tp <> 0 -> Z.of_nat (length ns) < 2 ^ 31 ->
  exists st' h' ns', zsetDel hash g st k tp h = Some ((st', bool_decide (score_of ns k <> None)), h') /\ zset_rep h' st' ns' /\
    members ns' = List.filter (fun p => negb (bool_decide (p.1 = k))) (members ns).
Proof using Hhash.
  intros Hr Htp Hlen. pose proof Hr as [Hz Hd Hv]. pose proof (zset_nodup h st ns Hr) as Hnd.
  destruct (dictGenericDelete_spec (zs_dict st) k true Hd) as (d' & ev & Hdel & Hd' & Hm).
  assert (dictUnlink (zs_dict st) k = Some (d', lookup_entry (entries (zs_dict st)) k)) as Hun by (unfold dictUnlink; by rewrite Hdel).
  unfold zsetDel. rewrite (hbind_ok _ _ _ _ _ (lift_ok _ _ _ Hun)). cbn beta iota.
  destruct (zset_lookup _ _ _ k Hr) as [A y B he rest Hns Hy Hu Hl Hk Hv' He Hrest|Hno Hl]; rewrite Hl in Hm |- *; destruct Hm as [Hent _].
  - rewrite Hns in *. rewrite (hbind_ok _ _ _ _ _ (entry_score_read h _ A y B he Hz Hv')).
    assert (isnan (zs y) = false) as Hny.
    { pose proof (rep_nan _ _ _ Hz) as Hn. apply Forall_app in Hn as [_ Hn]. by apply Forall_cons in Hn as [Hn _]. }
    destruct (zslDelete_rep h (zs_zsl st) _ (zs y) k false Hz Hny) as [[Hfree _]|(A' & y' & B' & z' & h' & Hns' & [_ Hk'] & Hrun & _ & Hz' & _)].
    { exfalso. unfold key_free in Hfree. rewrite Forall_app, Forall_cons in Hfree. tauto. }
    rewrite (hbind_ok _ _ _ _ _ Hrun). cbn beta iota. rewrite (hbind_ok _ _ h' tt h') by done.
    destruct (entry_unique A B A' B' y y' k Hns' Hk' Hu) as [-> HAB].
    assert (zset_rep h' (mk_zset d' z') (A' ++ B')) as Hr'.
    { split; [done|done|]. cbn [zs_dict]. rewrite He in Hent. apply Permutation_cons_inv in Hent. by rewrite <- Hent, Hrest, HAB. }
    destruct (resize_views g h' d' z' (A' ++ B') tp Hr' Htp) as (d2 & Hres & Hr2).
    { rewrite Hns', !length_app in Hlen. simpl in Hlen. rewrite length_app. lia. }
    rewrite (hbind_ok _ _ _ _ _ Hres). exists (mk_zset d2 z'), h', (A' ++ B').
    rewrite (score_split A y B k Hy Hu), bool_decide_eq_true_2 by done. split_and!; [done|done|].
    rewrite Hns', members_others; [done|done|]. by rewrite <- HAB.
  - exists (mk_zset d' (zs_zsl st)), h, ns. rewrite (score_absent ns k Hno), bool_decide_eq_false_2 by (by intros []).
    split_and!; [done| |].
    + split; [done|done|]. cbn [zs_dict]. by rewrite Hent.
    + symmetry. by apply members_absent.
Qed.

(** *** zsetRank *)

(** The position of the entry of an element, from 0. *)
Fixpoint index_of (k : sds) (ns : list zentry) : option nat :=
  match ns with
  | [] => None
  | y :: ns => if bool_decide (ze y = k) then Some 0%nat else S <$> index_of k ns
  end.

Lemma index_split A y B : Forall (fun w => ze w <> ze y) A -> index_of (ze y) (A ++ y :: B) = Some (length A).
Proof. induction 1 as [|a A Ha _ IH]; cbn; [by rewrite bool_decide_eq_true_2|]. by rewrite bool_decide_eq_false_2, IH by done. Qed.

Lemma index_absent ns k : Forall (fun w => ze w <> k) ns -> index_of k ns = None.
Proof. induction 1 as [|a A Ha _ IH]; cbn; [done|]. by rewrite bool_decide_eq_false_2, IH by done. Qed.

Lemma zsetRank_rep h st ns k reverse : zset_rep h st ns ->
  exists st', zsetRank hash st k reverse h =
    Some ((st', match index_of k ns with
                | None => -1
                | Some i => if (reverse : bool) then Z.of_nat (length ns) - 1 - Z.of_nat i else Z.of_nat i
                end), h) /\ zset_rep h st' ns.
Proof using Hhash.
  intros Hr. destruct (zset_find h st ns k Hr) as (d' & Hf & Hr'). exists (mk_zset d' (zs_zsl st)). split; [|done].
  unfold zsetRank. cbv zeta. rewrite (hbind_ok _ _ _ _ _ (lift_ok _ _ _ Hf)). cbn beta iota.
  destruct (zset_lookup _ _ _ k Hr') as [A y B he rest Hns Hy Hu Hl _ Hv _ _|Hno Hl]; cbn [zs_dict] in Hl; rewrite Hl;
    [|by rewrite index_absent].
  rewrite Hns in *. rewrite (hbind_ok _ _ _ _ _ (entry_score_read h _ A y B he (zr_list _ _ _ Hr') Hv)).
  pose proof (zr_list _ _ _ Hr') as Hz. cbn [zs_zsl] in *. apply Forall_app in Hu as [HuA _].
  assert (isnan (zs y) = false) as Hny.
  { pose proof (rep_nan _ _ _ Hz) as Hn. apply Forall_app in Hn as [_ Hn]. by apply Forall_cons in Hn as [Hn _]. }
  rewrite (hbind_ok _ _ _ _ _ (zslGetRank_found h _ A y B (zs y) k Hz Hny (conj eq_refl Hy) HuA)).
  rewrite (hbind_ok _ _ h tt h) by (unfold zassert; rewrite (proj2 (Z.eqb_neq _ _)) by lia; done).
  rewrite <- Hy, index_split by (by rewrite Hy). unfold zsetLength. rewrite (rep_length _ _ _ (rep_struct _ _ _ Hz)).
  pose proof (core_len _ _ _ _ (rep_core _ _ _ (rep_struct _ _ _ Hz))) as Hlen. rewrite length_app in *. simpl in *.
  rewrite !u64_small, !s64_small by lia. unfold mret, H_ret. do 3 f_equal. destruct reverse; lia.
Qed.

(** *** Removing ranges *)

Definition pair_kept (ks : list sds) (p : sds * option zaddr) : bool := negb (existsb (fun k => keq k p.1) ks).

Lemma kept_pairs ks l : d_pair <$> List.filter (key_kept ks) l = List.filter (pair_kept ks) (d_pair <$> l).
Proof.
  induction l as [|e l IH]; [done|]. cbn [List.filter fmap list_fmap].
  change (pair_kept ks (d_pair e)) with (key_kept ks e). destruct (key_kept ks e); cbn [fmap list_fmap]; by rewrite <- IH.
Qed.

Lemma pair_kept_iff (M : list zentry) y : pair_kept (ze <$> M) (n_pair y) = true <-> ze y ∉ ze <$> M.
Proof.
  unfold pair_kept, n_pair. cbn [fst]. rewrite negb_true_iff, <- not_true_iff_false, existsb_exists.
  setoid_rewrite keq_eq. setoid_rewrite <- list_elem_of_In. split; intros Hn Hin; apply Hn; [eauto|by destruct Hin as (k & Hk & <-)].
Qed.

Lemma run_pairs A M B : NoDup (ze <$> (A ++ M ++ B)) ->
  List.filter (pair_kept (ze <$> M)) (n_pair <$> (A ++ M ++ B)) = n_pair <$> (A ++ B).
Proof.
  rewrite !fmap_app. intros Hn. apply NoDup_app in Hn as (_ & HA & Hn). apply NoDup_app in Hn as (_ & HB & _).
  rewrite !List.filter_app. rewrite (filter_id _ (n_pair <$> A)), (filter_id _ (n_pair <$> B)).
  - assert (List.filter (pair_kept (ze <$> M)) (n_pair <$> M) = []) as ->; [|done].
    assert (forall l, (forall y, y ∈ l -> ze y ∈ ze <$> M) -> List.filter (pair_kept (ze <$> M)) (n_pair <$> l) = []) as Hl.
    { induction l as [|y l IH]; intros Hin; [done|]. cbn [fmap list_fmap List.filter].
      rewrite (not_true_is_false (pair_kept (ze <$> M) (n_pair y))); [apply IH; intros w Hw; apply Hin; by right|].
      rewrite pair_kept_iff. intros Hno. apply Hno, Hin. by left. }
    apply Hl. intros y Hy. apply list_elem_of_fmap. eauto.
  - intros p (y & -> & Hy)%list_elem_of_fmap. apply pair_kept_iff. intros Hin. apply (HB (ze y) Hin). apply list_elem_of_fmap. eauto.
  - intros p (y & -> & Hy)%list_elem_of_fmap. apply pair_kept_iff. intros Hin. apply (HA (ze y)).
    + apply list_elem_of_fmap. eauto.
    + apply elem_of_app. by left.
Qed.

Lemma run_views h h' d d' z z' A M B :
  zset_rep h (mk_zset d z) (A ++ M ++ B) -> run_removed h h' z z' d d' A M B -> zset_rep h' (mk_zset d' z') (A ++ B).
Proof using Hhash.
  intros Hr [_ Hz Hd He _ _]. pose proof (zset_nodup _ _ _ Hr) as Hn. destruct Hr as [_ _ Hv]. cbn [zs_dict] in Hv.
  split; [done|done|]. cbn [zs_dict]. rewrite He, kept_pairs, (filter_perm _ _ _ Hv). by rewrite run_pairs.
Qed.
End Views.
