(* ===== verification/SkiplistWitness.v ===== *)
(** * Skip lists and sorted sets: concrete instances

    A sorted set with two elements, built by the operations: "a" with score 1 on
    two levels and "b" with score 2 on one level.  The theorems on skip lists and
    sorted sets are applied to it. *)
From stdpp Require Import prelude list gmap sorting.
From Stdlib Require Import ZArith Lia Floats.SpecFloat.
From S2P Require Import Prelude Dict DictInv DictRehash DictOps.
From S2P Require Import Double Skiplist SkiplistRep SkiplistInsert SkiplistDelete SkiplistOps SkiplistQuery SkiplistRange Zset.

Local Open Scope Z_scope.

Definition d1 : double := S754_finite false (2 ^ 52) (-52).
Definition d2 : double := S754_finite false (2 ^ 52) (-51).
Definition d3 : double := S754_finite false (3 * 2 ^ 51) (-51).
Definition s_a : sds := [97].
Definition s_b : sds := [98].
Definition s_c : sds := [99].

Definition ex_hash (s : sds) : Z := u64 (foldr Z.add 0 s).
Lemma ex_hash_range s : 0 <= ex_hash s < 2 ^ 64.
Proof. apply u64_range. Qed.

#[local] Instance ex_type : DictType sds zaddr := zsetDictType ex_hash.
#[local] Instance ex_type_ok : DictTypeOk sds zaddr := the_type_ok ex_hash ex_hash_range.

Definition ex_g : dict_globals := mk_globals true 5.

Definition ex_run : option (zset * zheap) :=
  '(z, h) ← zslCreate 1%positive ∅;
  '(st, _, _, _, h) ← zsetAdd ex_hash ex_g (mk_zset dictCreate z) d1 s_a 0 (mk_supply 2 2%positive [] 1 4096) h;
  '(st, _, _, _, h) ← zsetAdd ex_hash ex_g st d2 s_b 0 (mk_supply 1 3%positive [] 2 8192) h;
  Some (st, h).

Definition ex_zs : zset := Eval vm_compute in default (mk_zset dictCreate (mk_zsl 1%positive None 0 1)) (fst <$> ex_run).
Definition ex_h : zheap := Eval vm_compute in default ∅ (snd <$> ex_run).
Definition ex_ns : list zentry := [SkiplistRep.mk_entry 2%positive d1 s_a 2; SkiplistRep.mk_entry 3%positive d2 s_b 1].

Lemma ex_run_ok : ex_run = Some (ex_zs, ex_h).
Proof. vm_compute. reflexivity. Qed.

(** Splitting the two-element list. *)
Lemma ex_split P e Q : ex_ns = P ++ e :: Q ->
  (P = [] /\ e = SkiplistRep.mk_entry 2%positive d1 s_a 2 /\ Q = [SkiplistRep.mk_entry 3%positive d2 s_b 1]) \/
  (P = [SkiplistRep.mk_entry 2%positive d1 s_a 2] /\ e = SkiplistRep.mk_entry 3%positive d2 s_b 1 /\ Q = []).
Proof.
  unfold ex_ns. intros Heq. destruct P as [|p1 P]; cbn in Heq; injection Heq.
  - intros <- <-. by left.
  - intros Heq2 <-. destruct P as [|p2 P]; cbn in Heq2; injection Heq2; [intros <- <-; by right|]. intros Heq3 _. by destruct P.
Qed.

Lemma ex_core : zcore ex_h 1%positive 2 ex_ns.
Proof.
  split.
  - eexists. split; [reflexivity|]. split_and!; [reflexivity|reflexivity| |].
    + intros i Hi. do 2 (destruct i; [reflexivity|]). lia.
    + intros i Hi. do 64 (destruct i; [first [eexists; reflexivity | lia]|]). unfold ZSKIPLIST_MAXLEVEL in Hi. lia.
  - intros P e Q Heq. destruct (ex_split P e Q Heq) as [(-> & -> & ->)|(-> & -> & ->)]; reflexivity.
  - repeat constructor.
  - unfold ZSKIPLIST_MAXLEVEL. lia.
  - done.
  - apply (bool_decide_unpack _). vm_compute. done.
Qed.

Lemma ex_rep : zsl_rep ex_h (zs_zsl ex_zs) ex_ns.
Proof.
  split.
  - split; [exact ex_core|right; discriminate|reflexivity|reflexivity].
  - apply SSorted_cons; [apply SSorted_cons; constructor|]. constructor; [|constructor]. left. unfold klt3. cbn. lia.
  - repeat constructor.
Qed.

Lemma create_ok : dict_wf dictCreate.
Proof. split; [by apply phase_idle; [|right|]|done|constructor|simpl; lia]. Qed.

Lemma ex_dict_ok : dict_wf (zs_dict ex_zs).
Proof.
  destruct (dictAdd_spec ex_g dictCreate s_a 2%positive 1 4096 create_ok) as (da & oka & Ha & Hwa & Hma);
    [lia|by apply not_elem_of_nil|simpl; lia|].
  assert (exists da', dictAdd ex_g dictCreate s_a 2%positive 1 4096 = Some (da', true)) as Hev by (eexists; vm_compute; reflexivity).
  destruct (dictAdd_spec ex_g da s_b 3%positive 2 8192 Hwa) as (db & okb & Hb & Hwb & _); [lia| | |].
  - vm_compute in Ha. injection Ha as <- _. apply (bool_decide_unpack _). vm_compute. done.
  - vm_compute in Ha. injection Ha as <- _. vm_compute. done.
  - vm_compute in Ha. injection Ha as <- _. vm_compute in Hb. injection Hb as <- _. exact Hwb.
Qed.

Lemma ex_zset : zset_rep ex_hash ex_h ex_zs ex_ns.
Proof. split; [exact ex_rep|exact ex_dict_ok|vm_compute; reflexivity]. Qed.
