(* ===== verification/SortedSet.v ===== *)
(** * Sorted sets: the properties

    The theorems on skip lists and on sorted sets in the skip list encoding, each
    with an instance on the two-element sorted set of SkiplistWitness.v. *)
From stdpp Require Import prelude list gmap sorting.
From Stdlib Require Import ZArith Lia.
From S2P Require Import Prelude Dict DictInv DictRehash DictOps.
From S2P Require Import Double Skiplist SkiplistRep SkiplistInsert SkiplistDelete SkiplistOps SkiplistQuery SkiplistRange Zset SkiplistWitness.

Local Open Scope Z_scope.

(** ZslInsert of a new (score, element) pair, whatever level the random
    generator gives the node, returns the new node and yields a skip list of the
    same entries with the new one at its place in the order: forward pointers and
    spans of every level, backward pointers, tail, length and level are all
    right, and no other memory is touched. *)
Theorem zslInsert_correct h z ns sc e lvl x junk :
  zsl_rep h z ns -> h !! x = None -> isnan sc = false -> (1 <= lvl <= ZSKIPLIST_MAXLEVEL)%nat ->
  Z.of_nat (length ns) + 1 < 2 ^ 32 -> Forall (fun y => ~ (dkey (zs y) = dkey sc /\ ze y = e)) ns ->
  exists z' h' A B, zslInsert z sc e lvl x junk h = Some ((z', x), h') /\ ns = A ++ B /\
    zsl_rep h' z' (A ++ SkiplistRep.mk_entry x sc e lvl :: B) /\ header z' = header z /\
    (forall q, q <> header z -> q <> x -> (q ∉ za <$> ns) -> h' !! q = h !! q).
Proof.
  intros Hz Hx Hsc Hlvl Hlen Hfree.
  destruct (zslInsert_rep h z ns sc e lvl x junk Hz Hx Hsc Hlvl Hlen Hfree) as (z' & h' & A & B & -> & Hrun & Hhd & Hrep & Hf).
  exists z', h', A, B. split_and!; try done. intros q Hq Hqx Hqn. apply Hf. rewrite fmap_app in *. cbn [fmap list_fmap za].
  rewrite not_elem_of_cons, not_elem_of_app in *. rewrite not_elem_of_cons. tauto.
Qed.

Lemma zslInsert_correct_witness :
  exists z' h' A B, zslInsert (zs_zsl ex_zs) d3 s_c 3 9%positive [] ex_h = Some ((z', 9%positive), h') /\ ex_ns = A ++ B /\
    zsl_rep h' z' (A ++ SkiplistRep.mk_entry 9%positive d3 s_c 3 :: B) /\ header z' = header (zs_zsl ex_zs) /\
    (forall q, q <> header (zs_zsl ex_zs) -> q <> 9%positive -> (q ∉ za <$> ex_ns) -> h' !! q = ex_h !! q).
Proof.
  apply (zslInsert_correct ex_h (zs_zsl ex_zs) ex_ns d3 s_c 3 9%positive []); [exact ex_rep|reflexivity|reflexivity|unfold ZSKIPLIST_MAXLEVEL; lia|done|].
  repeat constructor; by intros [].
Defined.

(** ZslCreate makes a skip list without entries, zslRandomLevel returns a level
    between 1 and ZSKIPLIST_MAXLEVEL as soon as the generator yields a number above
    the threshold, and zslFree releases the header and every node, and nothing
    else. *)
Theorem zsl_lifecycle_correct h z ns rs :
  zsl_rep h z ns -> Exists (fun r => 16383 < Z.land r 65535) rs ->
  (forall p h0, exists z0 h1, zslCreate p h0 = Some (z0, h1) /\ zsl_rep h1 z0 []) /\
  (exists lvl, zslRandomLevel rs = Some lvl /\ (1 <= lvl <= ZSKIPLIST_MAXLEVEL)%nat) /\
  (exists h', zslFree z h = Some (tt, h') /\
    forall q, h' !! q = if bool_decide (q ∈ header z :: (za <$> ns)) then None else h !! q).
Proof.
  intros [Hz _ _] Hrs. split_and!.
  - intros p h0. destruct (zslCreate_rep p h0) as (z0 & Hrun & Hrep). eauto.
  - destruct (zslRandomLevel_total rs Hrs) as (lvl & Hlvl). exists lvl. split; [done|]. by apply (zslRandomLevel_bounds rs).
  - destruct (zslFree_spec h z ns Hz) as (h' & Hrun & Hin & Hout). exists h'. split; [done|]. intros q.
    case_bool_decide; [by apply Hin|by apply Hout].
Qed.

Lemma zsl_lifecycle_correct_witness :
  (exists lvl, zslRandomLevel [5; 65540; 16384] = Some lvl /\ (1 <= lvl <= ZSKIPLIST_MAXLEVEL)%nat) /\
  (exists h', zslFree (zs_zsl ex_zs) ex_h = Some (tt, h') /\
    forall q, h' !! q = if bool_decide (q ∈ [1; 2; 3]%positive) then None else ex_h !! q).
Proof.
  destruct (zsl_lifecycle_correct ex_h (zs_zsl ex_zs) ex_ns [5; 65540; 16384] ex_rep) as (_ & Hl & Hf).
  - right. right. left. done.
  - split; [exact Hl|exact Hf].
Defined.

(** ZslDelete removes the node with the given score and element, keeps every
    link, span and counter right, and frees the node or hands it to the caller;
    it returns 0 and changes nothing exactly when there is no such node. *)
Theorem zslDelete_correct h z ns sc e (node : bool) :
  zsl_rep h z ns -> isnan sc = false ->
  (Forall (fun y => ~ (dkey (zs y) = dkey sc /\ ze y = e)) ns /\ zslDelete z sc e node h = Some ((z, false, None), h)) \/
  (exists A y B z' h', ns = A ++ y :: B /\ dkey (zs y) = dkey sc /\ ze y = e /\
    zslDelete z sc e node h = Some ((z', true, if node then Some (za y) else None), h') /\
    zsl_rep h' z' (A ++ B) /\ h' !! za y = (if node then h !! za y else None)).
Proof.
  intros Hz Hsc. destruct (zslDelete_rep h z ns sc e node Hz Hsc) as [[Hfree Hrun]|(A & y & B & z' & h' & -> & [Hk1 Hk2] & Hrun & _ & Hrep & Hy & _)]; [by left|].
  right. exists A, y, B, z', h'. split_and!; try done. rewrite Hy. destruct node; [|done].
  symmetry. by apply (core_nodes _ _ _ _ (rep_core _ _ _ (rep_struct _ _ _ Hz))).
Qed.

Lemma zslDelete_correct_witness :
  (exists A y B z' h', ex_ns = A ++ y :: B /\ dkey (zs y) = dkey d1 /\ ze y = s_a /\
    zslDelete (zs_zsl ex_zs) d1 s_a false ex_h = Some ((z', true, None), h') /\
    zsl_rep h' z' (A ++ B) /\ h' !! za y = None).
Proof.
  destruct (zslDelete_correct ex_h (zs_zsl ex_zs) ex_ns d1 s_a false ex_rep eq_refl) as [[Hno _]|Hyes]; [|exact Hyes].
  exfalso. apply Forall_cons in Hno as [Hno _]. by apply Hno.
Defined.

(** ZslUpdateScore moves the element to the place of its new score, in place
    when the neighbours allow it and else by removing and inserting a node; the
    other entries stay, in order, and the node it returns is the element's. *)
Theorem zslUpdateScore_correct h z A y B newscore lvl p junk :
  zsl_rep h z (A ++ y :: B) -> isnan newscore = false -> h !! p = None ->
  (1 <= lvl <= ZSKIPLIST_MAXLEVEL)%nat -> Forall (fun w => ze w <> ze y) (A ++ B) ->
  exists z' h' A' y' B', zslUpdateScore z (zs y) (ze y) newscore lvl p junk h = Some ((z', za y'), h') /\
    A' ++ B' = A ++ B /\ zs y' = newscore /\ ze y' = ze y /\ zsl_rep h' z' (A' ++ y' :: B').
Proof.
  intros Hz Hnew Hp Hlvl Hu. pose proof (rep_nan _ _ _ Hz) as Hn. apply Forall_app in Hn as [_ Hn]. apply Forall_cons in Hn as [Hn _].
  destruct (zslUpdateScore_rep h z A y B (zs y) (ze y) newscore lvl p junk Hz Hn Hnew (conj eq_refl eq_refl) Hp Hlvl Hu)
    as (z' & h' & A' & y' & B' & Hrun & _ & HAB & Hs & He & Hrep).
  by exists z', h', A', y', B'.
Qed.

Lemma zslUpdateScore_correct_witness :
  exists z' h' A' y' B', zslUpdateScore (zs_zsl ex_zs) d1 s_a d3 1 9%positive [] ex_h = Some ((z', za y'), h') /\
    A' ++ B' = [SkiplistRep.mk_entry 3%positive d2 s_b 1] /\ zs y' = d3 /\ ze y' = s_a /\ zsl_rep h' z' (A' ++ y' :: B').
Proof.
  apply (zslUpdateScore_correct ex_h (zs_zsl ex_zs) [] (SkiplistRep.mk_entry 2%positive d1 s_a 2) [SkiplistRep.mk_entry 3%positive d2 s_b 1] d3 1 9%positive []);
    [exact ex_rep|reflexivity|reflexivity|unfold ZSKIPLIST_MAXLEVEL; lia|]. by repeat constructor.
Defined.

(** ZslGetRank returns the 1-based position of an element and 0 for an
    element that is not in the list, and zslGetElementByRank returns the node at a
    1-based position, NULL beyond the end: the spans count the positions. *)
Theorem zsl_rank_correct h z ns sc e r :
  zsl_rep h z ns -> NoDup (ze <$> ns) -> isnan sc = false -> 1 <= r ->
  (forall A y B, ns = A ++ y :: B -> zslGetRank z (zs y) (ze y) h = Some (Z.of_nat (length A) + 1, h)) /\
  ((e ∉ ze <$> ns) -> zslGetRank z sc e h = Some (0, h)) /\
  zslGetElementByRank z r h = Some (za <$> ns !! Z.to_nat (r - 1), h).
Proof.
  intros Hz Hnd Hsc Hr. split_and!.
  - intros A y B ->. pose proof (rep_nan _ _ _ Hz) as Hn. apply Forall_app in Hn as [_ Hn]. apply Forall_cons in Hn as [Hn _].
    apply (zslGetRank_found h z A y B); [done|done|done|]. by apply nodup_split, Forall_app in Hnd as [? _].
  - intros He. apply (zslGetRank_absent h z ns); [done|done|]. apply Forall_forall. intros w Hw <-. apply He, list_elem_of_fmap. eauto.
  - apply zslGetElementByRank_spec; [apply Hz|done].
Qed.

Lemma zsl_rank_correct_witness :
  (forall A y B, ex_ns = A ++ y :: B -> zslGetRank (zs_zsl ex_zs) (zs y) (ze y) ex_h = Some (Z.of_nat (length A) + 1, ex_h)) /\
  ((s_c ∉ ze <$> ex_ns) -> zslGetRank (zs_zsl ex_zs) d3 s_c ex_h = Some (0, ex_h)) /\
  zslGetElementByRank (zs_zsl ex_zs) 2 ex_h = Some (Some 3%positive, ex_h).
Proof.
  apply (zsl_rank_correct ex_h (zs_zsl ex_zs) ex_ns d3 s_c 2); [exact ex_rep| |reflexivity|lia].
  apply (bool_decide_unpack _). vm_compute. done.
Defined.

(** ZslFirstInRange and zslLastInRange return the first and the last node whose
    score is in the range, NULL when there is none; when all scores are equal,
    zslFirstInLexRange and zslLastInLexRange do the same for ranges of elements. *)
Theorem zsl_range_search_correct h z ns (r : zrangespec) (l : zlexrangespec) :
  zsl_rep h z ns -> isnan (rmin r) = false -> isnan (rmax r) = false ->
  let scored := List.filter (fun y => zslValueGteMin (zs y) r && zslValueLteMax (zs y) r) ns in
  let named := List.filter (fun y => zslLexValueGteMin (ze y) l && zslLexValueLteMax (ze y) l) ns in
  zslFirstInRange z r h = Some (za <$> List.hd_error scored, h) /\
  zslLastInRange z r h = Some (za <$> last scored, h) /\
  ((forall a b, a ∈ ns -> b ∈ ns -> dkey (zs a) = dkey (zs b)) ->
   zslFirstInLexRange z l h = Some (za <$> List.hd_error named, h) /\
   zslLastInLexRange z l h = Some (za <$> last named, h)).
Proof.
  intros Hz Hmin Hmax scored named. pose proof (score_laws r ns Hmin Hmax (rep_nan _ _ _ Hz)) as Hlaws. split_and!.
  - by apply (first_in_range_spec r h z ns Hz Hlaws).
  - by apply (last_in_range_spec r h z ns Hz Hlaws).
  - intros Heq. pose proof (lex_laws l ns Heq) as Hll. split.
    + by apply (first_in_range_spec l h z ns Hz Hll).
    + by apply (last_in_range_spec l h z ns Hz Hll).
Qed.

Lemma zsl_range_search_correct_witness :
  zslFirstInRange (zs_zsl ex_zs) (mk_range d1 d2 true false) ex_h = Some (Some 3%positive, ex_h) /\
  zslLastInRange (zs_zsl ex_zs) (mk_range d1 d2 true false) ex_h = Some (Some 3%positive, ex_h).
Proof.
  destruct (zsl_range_search_correct ex_h (zs_zsl ex_zs) ex_ns (mk_range d1 d2 true false) (mk_lex LexMin LexMax false false)
    ex_rep eq_refl eq_refl) as (Hf & Hl & _). split; [exact Hf|exact Hl].
Defined.

Section Sets.
Context (hash : sds -> Z) (Hhash : forall s, 0 <= hash s < 2 ^ 64).
#[local] Instance set_type : DictType sds zaddr := zsetDictType hash.
#[local] Instance set_type_ok : DictTypeOk sds zaddr := the_type_ok hash Hhash.

(** C25: zslDeleteRangeByScore with bounds that are numbers, each inclusive or exclusive as the range
    says; zslDeleteRangeByRank with 32-bit ranks; and zslDeleteRangeByLex on a set whose scores
    are all equal (with different scores it stops at the first entry past the range and misses others):
    each removes exactly the entries of the range from the skip list and their elements from the
    dictionary, returns how many it removed, frees their nodes, and leaves the two
    views of the sorted set in agreement. *)
Theorem zsl_delete_range_correct h d z ns (r : zrangespec) (l : zlexrangespec) start stop :
  zset_rep hash h (mk_zset d z) ns -> isnan (rmin r) = false -> isnan (rmax r) = false ->
  0 <= start < 2 ^ 32 -> 0 <= stop < 2 ^ 32 ->
  let gone out run kept := exists z' d' h', out h = Some ((z', Z.of_nat (length run), d'), h') /\
    zset_rep hash h' (mk_zset d' z') kept /\ Forall (fun y => h' !! za y = None) run in
  let scored y := zslValueGteMin (zs y) r && zslValueLteMax (zs y) r in
  let named y := zslLexValueGteMin (ze y) l && zslLexValueLteMax (ze y) l in
  gone (zslDeleteRangeByScore z r d) (List.filter scored ns) (List.filter (fun y => negb (scored y)) ns) /\
  gone (zslDeleteRangeByRank z start stop d) (rank_run start stop ns) (rank_before start ns ++ rank_after start stop ns) /\
  ((forall a b, a ∈ ns -> b ∈ ns -> dkey (zs a) = dkey (zs b)) ->
   gone (zslDeleteRangeByLex z l d) (List.filter named ns) (List.filter (fun y => negb (named y)) ns)).
Proof.
  intros Hr Hmin Hmax Hst Hsp gone scored named. pose proof Hr as [Hz Hd _]. cbn [zs_zsl zs_dict] in *. split_and!.
  - destruct (zslDeleteRangeByScore_spec h z ns d r Hz Hd Hmin Hmax) as (z' & h' & d' & A & B & Hns & Hkept & Hrun & Hres).
    exists z', d', h'. split; [exact Hrun|]. split; [|exact (run_freed _ _ _ _ _ _ _ _ _ Hres)].
    rewrite Hns in Hr. pose proof (run_views hash Hhash h h' d d' z z' _ _ _ Hr Hres) as Hv. rewrite Hkept in Hv. exact Hv.
  - destruct (zslDeleteRangeByRank_spec h z ns d start stop Hz Hd Hst Hsp) as (z' & h' & d' & Hrun & Hres).
    exists z', d', h'. split; [exact Hrun|]. split; [|exact (run_freed _ _ _ _ _ _ _ _ _ Hres)].
    eapply (run_views hash Hhash); [|exact Hres]. unfold rank_before, rank_run, rank_after. by rewrite !take_drop.
  - intros Heq. destruct (zslDeleteRangeByLex_spec h z ns d l Hz Hd Heq) as (z' & h' & d' & A & B & Hns & Hkept & Hrun & Hres).
    exists z', d', h'. split; [exact Hrun|]. split; [|exact (run_freed _ _ _ _ _ _ _ _ _ Hres)].
    rewrite Hns in Hr. pose proof (run_views hash Hhash h h' d d' z z' _ _ _ Hr Hres) as Hv. rewrite Hkept in Hv. exact Hv.
Qed.

(** C16: zsetAdd on a sorted set in the skip list encoding is the update of the
    association of scores to elements its flags ask for (add_spec: INCR, NX, XX,
    NaN), returns the flags and the score that go with it, and keeps the skip list
    sorted and in agreement with the dictionary. *)
Theorem zsetAdd_correct g h st ns sc k flags s :
  zset_rep hash h st ns -> supply_ok h st ns s ->
  exists st' ret fl nsc h' ns' m, zsetAdd hash g st sc k flags s h = Some ((st', ret, fl, nsc), h') /\
    zset_rep hash h' st' ns' /\ add_spec (members ns) (score_of ns k) sc k flags = (m, ret, fl, nsc) /\ members ns' ≡ₚ m.
Proof. by apply zsetAdd_rep. Qed.

(** ZsetDel removes the element from both views of the sorted set and returns
    whether it was there; the other members keep their scores and their order. *)
Theorem zsetDel_correct g h st ns k tp :
  zset_rep hash h st ns -> tp <> 0 -> Z.of_nat (length ns) < 2 ^ 31 ->
  exists st' h' ns', zsetDel hash g st k tp h = Some ((st', bool_decide (score_of ns k <> None)), h') /\
    zset_rep hash h' st' ns' /\ members ns' = List.filter (fun p => negb (bool_decide (p.1 = k))) (members ns).
Proof. by apply zsetDel_rep. Qed.

(** ZsetScore returns the score the sorted order has for the element, zsetRank
    its 0-based position from the lowest or the highest score (-1 if absent), and
    zsetLength the number of members; none of them changes the sorted set. *)
Theorem zset_queries_correct h st ns k (reverse : bool) :
  zset_rep hash h st ns ->
  zsetLength st = Z.of_nat (length ns) /\
  (exists st', zsetScore hash st k h = Some ((st', score_of ns k), h) /\ zset_rep hash h st' ns) /\
  (exists st', zsetRank hash st k reverse h =
     Some ((st', match index_of k ns with
                 | None => -1
                 | Some i => if reverse then Z.of_nat (length ns) - 1 - Z.of_nat i else Z.of_nat i
                 end), h) /\ zset_rep hash h st' ns).
Proof.
  intros Hr. split_and!; [exact (rep_length _ _ _ (rep_struct _ _ _ (zr_list _ _ _ _ Hr)))|by apply zsetScore_rep|by apply zsetRank_rep].
Qed.
End Sets.

Lemma zsl_delete_range_correct_witness :
  exists z' d' h', zslDeleteRangeByScore (V := zaddr) (DictType0 := zsetDictType ex_hash) (zs_zsl ex_zs) (mk_range d2 d3 false true) (zs_dict ex_zs) ex_h =
      Some ((z', 1, d'), h') /\ zset_rep ex_hash h' (mk_zset d' z') [SkiplistRep.mk_entry 2%positive d1 s_a 2] /\
      Forall (fun y => h' !! za y = None) [SkiplistRep.mk_entry 3%positive d2 s_b 1].
Proof.
  apply (zsl_delete_range_correct ex_hash ex_hash_range ex_h (zs_dict ex_zs) (zs_zsl ex_zs) ex_ns (mk_range d2 d3 false true)
    (mk_lex LexMin LexMax false false) 1 1); [exact ex_zset|reflexivity|reflexivity|lia|lia].
Defined.

Lemma ex_supply_ok : supply_ok ex_h ex_zs ex_ns (mk_supply 3 9%positive [] 5 12288).
Proof.
  split; [cbn; unfold ZSKIPLIST_MAXLEVEL; lia|reflexivity| |done|done].
  apply (bool_decide_unpack _). vm_compute. done.
Qed.

Lemma zsetAdd_correct_witness :
  exists st' ret fl nsc h' ns' m,
    zsetAdd ex_hash ex_g ex_zs d2 s_a ZADD_INCR (mk_supply 3 9%positive [] 5 12288) ex_h = Some ((st', ret, fl, nsc), h') /\
    zset_rep ex_hash h' st' ns' /\ ([(s_a, d3); (s_b, d2)], true, ZADD_UPDATED, Some d3) = (m, ret, fl, nsc) /\ members ns' ≡ₚ m.
Proof.
  apply (zsetAdd_correct ex_hash ex_hash_range ex_g ex_h ex_zs ex_ns d2 s_a ZADD_INCR); [exact ex_zset|exact ex_supply_ok].
Defined.

Lemma zsetDel_correct_witness :
  exists st' h' ns', zsetDel ex_hash ex_g ex_zs s_b 12288 ex_h = Some ((st', true), h') /\
    zset_rep ex_hash h' st' ns' /\ members ns' = [(s_a, d1)].
Proof. apply (zsetDel_correct ex_hash ex_hash_range ex_g ex_h ex_zs ex_ns s_b 12288); [exact ex_zset|lia|done]. Defined.

Lemma zset_queries_correct_witness :
  zsetLength ex_zs = 2 /\
  (exists st', zsetScore ex_hash ex_zs s_b ex_h = Some ((st', Some d2), ex_h) /\ zset_rep ex_hash ex_h st' ex_ns) /\
  (exists st', zsetRank ex_hash ex_zs s_b true ex_h = Some ((st', 0), ex_h) /\ zset_rep ex_hash ex_h st' ex_ns).
Proof. apply (zset_queries_correct ex_hash ex_hash_range ex_h ex_zs ex_ns s_b true ex_zset). Defined.
