(* ===== verification/Crc.v ===== *)
(** * Checksums and key slots (src/redis-stable/src/crc16.c, crc64.c, cluster.c)

    The table driven CRC-16 of the cluster's key slots and CRC-64 of the dump
    files, shown to be the bit by bit definitions with the documented
    polynomials, and keyHashSlot with its hash tags. *)
From stdpp Require Import prelude list.
From Stdlib Require Import ZArith Lia.
From S2P Require Import Prelude.

Local Open Scope Z_scope.

(** ** The model *)

Definition crc16tab : list Z := [
  0x0000; 0x1021; 0x2042; 0x3063; 0x4084; 0x50a5; 0x60c6; 0x70e7; 0x8108; 0x9129; 0xa14a; 0xb16b; 0xc18c; 0xd1ad; 0xe1ce; 0xf1ef;
  0x1231; 0x0210; 0x3273; 0x2252; 0x52b5; 0x4294; 0x72f7; 0x62d6; 0x9339; 0x8318; 0xb37b; 0xa35a; 0xd3bd; 0xc39c; 0xf3ff; 0xe3de;
  0x2462; 0x3443; 0x0420; 0x1401; 0x64e6; 0x74c7; 0x44a4; 0x5485; 0xa56a; 0xb54b; 0x8528; 0x9509; 0xe5ee; 0xf5cf; 0xc5ac; 0xd58d;
  0x3653; 0x2672; 0x1611; 0x0630; 0x76d7; 0x66f6; 0x5695; 0x46b4; 0xb75b; 0xa77a; 0x9719; 0x8738; 0xf7df; 0xe7fe; 0xd79d; 0xc7bc;
  0x48c4; 0x58e5; 0x6886; 0x78a7; 0x0840; 0x1861; 0x2802; 0x3823; 0xc9cc; 0xd9ed; 0xe98e; 0xf9af; 0x8948; 0x9969; 0xa90a; 0xb92b;
  0x5af5; 0x4ad4; 0x7ab7; 0x6a96; 0x1a71; 0x0a50; 0x3a33; 0x2a12; 0xdbfd; 0xcbdc; 0xfbbf; 0xeb9e; 0x9b79; 0x8b58; 0xbb3b; 0xab1a;
  0x6ca6; 0x7c87; 0x4ce4; 0x5cc5; 0x2c22; 0x3c03; 0x0c60; 0x1c41; 0xedae; 0xfd8f; 0xcdec; 0xddcd; 0xad2a; 0xbd0b; 0x8d68; 0x9d49;
  0x7e97; 0x6eb6; 0x5ed5; 0x4ef4; 0x3e13; 0x2e32; 0x1e51; 0x0e70; 0xff9f; 0xefbe; 0xdfdd; 0xcffc; 0xbf1b; 0xaf3a; 0x9f59; 0x8f78;
  0x9188; 0x81a9; 0xb1ca; 0xa1eb; 0xd10c; 0xc12d; 0xf14e; 0xe16f; 0x1080; 0x00a1; 0x30c2; 0x20e3; 0x5004; 0x4025; 0x7046; 0x6067;
  0x83b9; 0x9398; 0xa3fb; 0xb3da; 0xc33d; 0xd31c; 0xe37f; 0xf35e; 0x02b1; 0x1290; 0x22f3; 0x32d2; 0x4235; 0x5214; 0x6277; 0x7256;
  0xb5ea; 0xa5cb; 0x95a8; 0x8589; 0xf56e; 0xe54f; 0xd52c; 0xc50d; 0x34e2; 0x24c3; 0x14a0; 0x0481; 0x7466; 0x6447; 0x5424; 0x4405;
  0xa7db; 0xb7fa; 0x8799; 0x97b8; 0xe75f; 0xf77e; 0xc71d; 0xd73c; 0x26d3; 0x36f2; 0x0691; 0x16b0; 0x6657; 0x7676; 0x4615; 0x5634;
  0xd94c; 0xc96d; 0xf90e; 0xe92f; 0x99c8; 0x89e9; 0xb98a; 0xa9ab; 0x5844; 0x4865; 0x7806; 0x6827; 0x18c0; 0x08e1; 0x3882; 0x28a3;
  0xcb7d; 0xdb5c; 0xeb3f; 0xfb1e; 0x8bf9; 0x9bd8; 0xabbb; 0xbb9a; 0x4a75; 0x5a54; 0x6a37; 0x7a16; 0x0af1; 0x1ad0; 0x2ab3; 0x3a92;
  0xfd2e; 0xed0f; 0xdd6c; 0xcd4d; 0xbdaa; 0xad8b; 0x9de8; 0x8dc9; 0x7c26; 0x6c07; 0x5c64; 0x4c45; 0x3ca2; 0x2c83; 0x1ce0; 0x0cc1;
  0xef1f; 0xff3e; 0xcf5d; 0xdf7c; 0xaf9b; 0xbfba; 0x8fd9; 0x9ff8; 0x6e17; 0x7e36; 0x4e55; 0x5e74; 0x2e93; 0x3eb2; 0x0ed1; 0x1ef0
].

Definition crc64_tab : list Z := [
  0x0000000000000000; 0x7ad870c830358979; 0xf5b0e190606b12f2; 0x8f689158505e9b8b;
  0xc038e5739841b68f; 0xbae095bba8743ff6; 0x358804e3f82aa47d; 0x4f50742bc81f2d04;
  0xab28ecb46814fe75; 0xd1f09c7c5821770c; 0x5e980d24087fec87; 0x24407dec384a65fe;
  0x6b1009c7f05548fa; 0x11c8790fc060c183; 0x9ea0e857903e5a08; 0xe478989fa00bd371;
  0x7d08ff3b88be6f81; 0x07d08ff3b88be6f8; 0x88b81eabe8d57d73; 0xf2606e63d8e0f40a;
  0xbd301a4810ffd90e; 0xc7e86a8020ca5077; 0x4880fbd87094cbfc; 0x32588b1040a14285;
  0xd620138fe0aa91f4; 0xacf86347d09f188d; 0x2390f21f80c18306; 0x594882d7b0f40a7f;
  0x1618f6fc78eb277b; 0x6cc0863448deae02; 0xe3a8176c18803589; 0x997067a428b5bcf0;
  0xfa11fe77117cdf02; 0x80c98ebf2149567b; 0x0fa11fe77117cdf0; 0x75796f2f41224489;
  0x3a291b04893d698d; 0x40f16bccb908e0f4; 0xcf99fa94e9567b7f; 0xb5418a5cd963f206;
  0x513912c379682177; 0x2be1620b495da80e; 0xa489f35319033385; 0xde51839b2936bafc;
  0x9101f7b0e12997f8; 0xebd98778d11c1e81; 0x64b116208142850a; 0x1e6966e8b1770c73;
  0x8719014c99c2b083; 0xfdc17184a9f739fa; 0x72a9e0dcf9a9a271; 0x08719014c99c2b08;
  0x4721e43f0183060c; 0x3df994f731b68f75; 0xb29105af61e814fe; 0xc849756751dd9d87;
  0x2c31edf8f1d64ef6; 0x56e99d30c1e3c78f; 0xd9810c6891bd5c04; 0xa3597ca0a188d57d;
  0xec09088b6997f879; 0x96d1784359a27100; 0x19b9e91b09fcea8b; 0x636199d339c963f2;
  0xdf7adabd7a6e2d6f; 0xa5a2aa754a5ba416; 0x2aca3b2d1a053f9d; 0x50124be52a30b6e4;
  0x1f423fcee22f9be0; 0x659a4f06d21a1299; 0xeaf2de5e82448912; 0x902aae96b271006b;
  0x74523609127ad31a; 0x0e8a46c1224f5a63; 0x81e2d7997211c1e8; 0xfb3aa75142244891;
  0xb46ad37a8a3b6595; 0xceb2a3b2ba0eecec; 0x41da32eaea507767; 0x3b024222da65fe1e;
  0xa2722586f2d042ee; 0xd8aa554ec2e5cb97; 0x57c2c41692bb501c; 0x2d1ab4dea28ed965;
  0x624ac0f56a91f461; 0x1892b03d5aa47d18; 0x97fa21650afae693; 0xed2251ad3acf6fea;
  0x095ac9329ac4bc9b; 0x7382b9faaaf135e2; 0xfcea28a2faafae69; 0x8632586aca9a2710;
  0xc9622c4102850a14; 0xb3ba5c8932b0836d; 0x3cd2cdd162ee18e6; 0x460abd1952db919f;
  0x256b24ca6b12f26d; 0x5fb354025b277b14; 0xd0dbc55a0b79e09f; 0xaa03b5923b4c69e6;
  0xe553c1b9f35344e2; 0x9f8bb171c366cd9b; 0x10e3202993385610; 0x6a3b50e1a30ddf69;
  0x8e43c87e03060c18; 0xf49bb8b633338561; 0x7bf329ee636d1eea; 0x012b592653589793;
  0x4e7b2d0d9b47ba97; 0x34a35dc5ab7233ee; 0xbbcbcc9dfb2ca865; 0xc113bc55cb19211c;
  0x5863dbf1e3ac9dec; 0x22bbab39d3991495; 0xadd33a6183c78f1e; 0xd70b4aa9b3f20667;
  0x985b3e827bed2b63; 0xe2834e4a4bd8a21a; 0x6debdf121b863991; 0x1733afda2bb3b0e8;
  0xf34b37458bb86399; 0x8993478dbb8deae0; 0x06fbd6d5ebd3716b; 0x7c23a61ddbe6f812;
  0x3373d23613f9d516; 0x49aba2fe23cc5c6f; 0xc6c333a67392c7e4; 0xbc1b436e43a74e9d;
  0x95ac9329ac4bc9b5; 0xef74e3e19c7e40cc; 0x601c72b9cc20db47; 0x1ac40271fc15523e;
  0x5594765a340a7f3a; 0x2f4c0692043ff643; 0xa02497ca54616dc8; 0xdafce7026454e4b1;
  0x3e847f9dc45f37c0; 0x445c0f55f46abeb9; 0xcb349e0da4342532; 0xb1eceec59401ac4b;
  0xfebc9aee5c1e814f; 0x8464ea266c2b0836; 0x0b0c7b7e3c7593bd; 0x71d40bb60c401ac4;
  0xe8a46c1224f5a634; 0x927c1cda14c02f4d; 0x1d148d82449eb4c6; 0x67ccfd4a74ab3dbf;
  0x289c8961bcb410bb; 0x5244f9a98c8199c2; 0xdd2c68f1dcdf0249; 0xa7f41839ecea8b30;
  0x438c80a64ce15841; 0x3954f06e7cd4d138; 0xb63c61362c8a4ab3; 0xcce411fe1cbfc3ca;
  0x83b465d5d4a0eece; 0xf96c151de49567b7; 0x76048445b4cbfc3c; 0x0cdcf48d84fe7545;
  0x6fbd6d5ebd3716b7; 0x15651d968d029fce; 0x9a0d8ccedd5c0445; 0xe0d5fc06ed698d3c;
  0xaf85882d2576a038; 0xd55df8e515432941; 0x5a3569bd451db2ca; 0x20ed197575283bb3;
  0xc49581ead523e8c2; 0xbe4df122e51661bb; 0x3125607ab548fa30; 0x4bfd10b2857d7349;
  0x04ad64994d625e4d; 0x7e7514517d57d734; 0xf11d85092d094cbf; 0x8bc5f5c11d3cc5c6;
  0x12b5926535897936; 0x686de2ad05bcf04f; 0xe70573f555e26bc4; 0x9ddd033d65d7e2bd;
  0xd28d7716adc8cfb9; 0xa85507de9dfd46c0; 0x273d9686cda3dd4b; 0x5de5e64efd965432;
  0xb99d7ed15d9d8743; 0xc3450e196da80e3a; 0x4c2d9f413df695b1; 0x36f5ef890dc31cc8;
  0x79a59ba2c5dc31cc; 0x037deb6af5e9b8b5; 0x8c157a32a5b7233e; 0xf6cd0afa9582aa47;
  0x4ad64994d625e4da; 0x300e395ce6106da3; 0xbf66a804b64ef628; 0xc5bed8cc867b7f51;
  0x8aeeace74e645255; 0xf036dc2f7e51db2c; 0x7f5e4d772e0f40a7; 0x05863dbf1e3ac9de;
  0xe1fea520be311aaf; 0x9b26d5e88e0493d6; 0x144e44b0de5a085d; 0x6e963478ee6f8124;
  0x21c640532670ac20; 0x5b1e309b16452559; 0xd476a1c3461bbed2; 0xaeaed10b762e37ab;
  0x37deb6af5e9b8b5b; 0x4d06c6676eae0222; 0xc26e573f3ef099a9; 0xb8b627f70ec510d0;
  0xf7e653dcc6da3dd4; 0x8d3e2314f6efb4ad; 0x0256b24ca6b12f26; 0x788ec2849684a65f;
  0x9cf65a1b368f752e; 0xe62e2ad306bafc57; 0x6946bb8b56e467dc; 0x139ecb4366d1eea5;
  0x5ccebf68aecec3a1; 0x2616cfa09efb4ad8; 0xa97e5ef8cea5d153; 0xd3a62e30fe90582a;
  0xb0c7b7e3c7593bd8; 0xca1fc72bf76cb2a1; 0x45775673a732292a; 0x3faf26bb9707a053;
  0x70ff52905f188d57; 0x0a2722586f2d042e; 0x854fb3003f739fa5; 0xff97c3c80f4616dc;
  0x1bef5b57af4dc5ad; 0x61372b9f9f784cd4; 0xee5fbac7cf26d75f; 0x9487ca0fff135e26;
  0xdbd7be24370c7322; 0xa10fceec0739fa5b; 0x2e675fb4576761d0; 0x54bf2f7c6752e8a9;
  0xcdcf48d84fe75459; 0xb71738107fd2dd20; 0x387fa9482f8c46ab; 0x42a7d9801fb9cfd2;
  0x0df7adabd7a6e2d6; 0x772fdd63e7936baf; 0xf8474c3bb7cdf024; 0x829f3cf387f8795d;
  0x66e7a46c27f3aa2c; 0x1c3fd4a417c62355; 0x935745fc4798b8de; 0xe98f353477ad31a7;
  0xa6df411fbfb21ca3; 0xdc0731d78f8795da; 0x536fa08fdfd90e51; 0x29b7d047efec8728
].

Definition crc16_step (crc byte : Z) : Z :=
  u16 (Z.lxor (Z.shiftl crc 8) (nth (Z.to_nat (Z.land (Z.lxor (Z.shiftr crc 8) byte) 255)) crc16tab 0)).
Definition crc16 (buf : list Z) : Z := foldl crc16_step 0 buf.

Definition crc64_step (crc byte : Z) : Z :=
  Z.lxor (nth (Z.to_nat (Z.lxor (u8 crc) byte)) crc64_tab 0) (Z.shiftr crc 8).
Definition crc64 (crc : Z) (s : list Z) : Z := foldl crc64_step crc s.

(** for (s = 0; s < keylen; s++) if (key[s] == c) break; *)
Fixpoint scan (c : Z) (key : list Z) : nat :=
  match key with
  | [] => 0
  | x :: key => if x =? c then 0 else S (scan c key)
  end.

Definition keyHashSlot (key : list Z) : Z :=
  let keylen := length key in
  let s := scan 123 key in
  if (s =? keylen)%nat then Z.land (crc16 key) 16383
  else
    let e := (S s + scan 125 (drop (S s) key))%nat in
    if ((e =? keylen) || (e =? S s))%nat then Z.land (crc16 key) 16383
    else Z.land (crc16 (take (e - s - 1) (drop (S s) key))) 16383.

(** ** Bit by bit definitions *)

(** One step of the shift register for the polynomial 0x1021, most significant
    bit first. *)
Definition bit16 (x : Z) : Z := u16 (Z.lxor (Z.shiftl x 1) (if Z.testbit x 15 then 4129 else 0)).
(** One step for the reflection of 0xad93d23594c935a9, least significant bit
    first. *)
Definition bit64 (x : Z) : Z := Z.lxor (Z.shiftr x 1) (if Z.testbit x 0 then 0x95ac9329ac4bc9b5 else 0).

Definition crc16_ref (buf : list Z) : Z := foldl (fun crc b => Nat.iter 8 bit16 (Z.lxor crc (Z.shiftl b 8))) 0 buf.
Definition crc64_ref (crc : Z) (s : list Z) : Z := foldl (fun crc b => Nat.iter 8 bit64 (Z.lxor crc b)) crc s.

Definition byte_string (l : list Z) : Prop := Forall (fun b => 0 <= b < 256) l.

(** ** The shift registers are linear *)

Lemma xor_bit (b c : bool) (p x y : Z) :
  Z.lxor (Z.lxor x y) (if xorb b c then p else 0) = Z.lxor (Z.lxor x (if b then p else 0)) (Z.lxor y (if c then p else 0)).
Proof.
  apply Z.bits_inj'. intros i Hi. destruct b, c; cbn [xorb]; rewrite !Z.lxor_spec, ?Z.bits_0; btauto.Btauto.btauto.
Qed.

Lemma bit64_lxor x y : bit64 (Z.lxor x y) = Z.lxor (bit64 x) (bit64 y).
Proof. unfold bit64. rewrite Z.lxor_spec, Z.shiftr_lxor. apply xor_bit. Qed.

Lemma u16_land x : u16 x = Z.land x (Z.ones 16).
Proof. unfold u16. by rewrite Z.land_ones by lia. Qed.

Lemma u16_lxor x y : u16 (Z.lxor x y) = Z.lxor (u16 x) (u16 y).
Proof. rewrite !u16_land. apply Z.bits_inj'. intros i Hi. rewrite !Z.lxor_spec, !Z.land_spec, !Z.lxor_spec. btauto.Btauto.btauto. Qed.

Lemma bit16_lxor x y : bit16 (Z.lxor x y) = Z.lxor (bit16 x) (bit16 y).
Proof. unfold bit16. rewrite <- u16_lxor. f_equal. rewrite Z.lxor_spec, Z.shiftl_lxor. apply xor_bit. Qed.

Lemma iter_lxor (f : Z -> Z) n x y :
  (forall x y, f (Z.lxor x y) = Z.lxor (f x) (f y)) -> Nat.iter n f (Z.lxor x y) = Z.lxor (Nat.iter n f x) (Nat.iter n f y).
Proof. intros Hf. induction n as [|n IH]; [done|]. cbn [Nat.iter nat_rect]. fold (Nat.iter n f (Z.lxor x y)). by rewrite IH, Hf. Qed.

Lemma bit64_shifted n h : Nat.iter n bit64 (Z.shiftl h (Z.of_nat n)) = h.
Proof.
  induction n as [|n IH]; [apply Z.shiftl_0_r|]. rewrite Nat.iter_succ_r.
  assert (bit64 (Z.shiftl h (Z.of_nat (S n))) = Z.shiftl h (Z.of_nat n)) as ->; [|exact IH].
  unfold bit64. rewrite Z.shiftl_spec_low, Z.lxor_0_r by lia. rewrite Z.shiftr_shiftl_l by lia. f_equal. lia.
Qed.

Lemma bit16_small n x : 0 <= x -> x * 2 ^ Z.of_nat n < 2 ^ 16 -> Nat.iter n bit16 x = Z.shiftl x (Z.of_nat n).
Proof.
  intros Hx. induction n as [|n IH]; intros Hn; [by rewrite Z.shiftl_0_r|].
  rewrite Nat2Z.inj_succ, Z.pow_succ_r in Hn by lia. cbn [Nat.iter nat_rect]. fold (Nat.iter n bit16 x). rewrite IH by lia.
  unfold bit16. rewrite !Z.shiftl_mul_pow2 by lia. rewrite (Z.bits_above_log2 _ 15), Z.lxor_0_r.
  - rewrite Nat2Z.inj_succ, Z.pow_succ_r by lia. unfold u16. rewrite Z.mod_small by lia. lia.
  - apply Z.mul_nonneg_nonneg; lia.
  - destruct (Z.eq_dec (x * 2 ^ Z.of_nat n) 0) as [->|Hnz]; [done|]. apply Z.log2_lt_pow2; [nia|lia].
Qed.

(** ** Tables *)

Lemma table_lookup (f : Z -> Z) (tab : list Z) :
  forallb (fun i => f i =? nth (Z.to_nat i) tab 0) (Z.of_nat <$> seq 0 256) = true ->
  forall i, 0 <= i < 256 -> f i = nth (Z.to_nat i) tab 0.
Proof.
  rewrite forallb_forall. intros Hall i Hi. apply Z.eqb_eq, Hall, list_elem_of_In, list_elem_of_fmap.
  exists (Z.to_nat i). split; [lia|]. apply elem_of_seq. lia.
Qed.

Lemma crc64_table i : 0 <= i < 256 -> Nat.iter 8 bit64 i = nth (Z.to_nat i) crc64_tab 0.
Proof. apply table_lookup. vm_compute. reflexivity. Qed.

Lemma crc16_table i : 0 <= i < 256 -> Nat.iter 8 bit16 (Z.shiftl i 8) = nth (Z.to_nat i) crc16tab 0.
Proof. apply (table_lookup (fun i => Nat.iter 8 bit16 (Z.shiftl i 8))). vm_compute. reflexivity. Qed.

(** A number is its upper part and its last byte. *)
Lemma split_byte x : x = Z.lxor (Z.shiftl (Z.shiftr x 8) 8) (Z.land x 255).
Proof.
  change 255 with (Z.ones 8). apply Z.bits_inj'. intros i Hi. rewrite Z.lxor_spec, Z.land_spec.
  destruct (Z.ltb_spec i 8).
  - rewrite Z.shiftl_spec_low, Z.ones_spec_low by lia. by rewrite andb_true_r.
  - rewrite Z.shiftl_spec_high, Z.shiftr_spec, Z.ones_spec_high by lia. rewrite andb_false_r, xorb_false_r. f_equal. lia.
Qed.

Lemma byte_range x : 0 <= Z.land x 255 < 256.
Proof. change 255 with (Z.ones 8). rewrite Z.land_ones by lia. apply Z.mod_pos_bound. lia. Qed.

Lemma shiftr_byte b : 0 <= b < 256 -> Z.shiftr b 8 = 0.
Proof. intros Hb. rewrite Z.shiftr_div_pow2 by lia. apply Z.div_small. lia. Qed.

Lemma land_byte b : 0 <= b < 256 -> Z.land b 255 = b.
Proof. intros Hb. change 255 with (Z.ones 8). rewrite Z.land_ones by lia. apply Z.mod_small. lia. Qed.

Lemma land_lxor_r a b c : Z.land (Z.lxor a b) c = Z.lxor (Z.land a c) (Z.land b c).
Proof. apply Z.bits_inj'. intros i Hi. rewrite !Z.land_spec, !Z.lxor_spec, !Z.land_spec. btauto.Btauto.btauto. Qed.

Lemma crc64_step_bits crc b : 0 <= b < 256 -> crc64_step crc b = Nat.iter 8 bit64 (Z.lxor crc b).
Proof.
  intros Hb. rewrite (split_byte (Z.lxor crc b)), (iter_lxor _ _ _ _ bit64_lxor), (bit64_shifted 8).
  rewrite crc64_table by apply byte_range. rewrite Z.shiftr_lxor, (shiftr_byte b Hb), Z.lxor_0_r, land_lxor_r, (land_byte b Hb).
  rewrite Z.lxor_comm. unfold crc64_step. do 3 f_equal. unfold u8. change 255 with (Z.ones 8). by rewrite Z.land_ones by lia.
Qed.

Lemma crc16_step_bits crc b : 0 <= crc < 2 ^ 16 -> 0 <= b < 256 ->
  crc16_step crc b = Nat.iter 8 bit16 (Z.lxor crc (Z.shiftl b 8)) /\ 0 <= crc16_step crc b < 2 ^ 16.
Proof.
  intros Hc Hb. split; [|apply Z.mod_pos_bound; lia].
  set (hi := Z.lxor (Z.shiftr crc 8) b).
  assert (0 <= hi < 256) as Hhi.
  { unfold hi. rewrite Z.shiftr_div_pow2 by lia. assert (0 <= crc / 2 ^ 8 < 256) as Hd by zdiv_lia.
    rewrite <- (land_byte _ Hd), <- (land_byte _ Hb), <- land_lxor_r. apply byte_range. }
  assert (Z.lxor crc (Z.shiftl b 8) = Z.lxor (Z.shiftl hi 8) (Z.land crc 255)) as ->.
  { rewrite (split_byte crc) at 1. unfold hi. rewrite Z.shiftl_lxor, !Z.lxor_assoc. f_equal. apply Z.lxor_comm. }
  rewrite (iter_lxor _ _ _ _ bit16_lxor), crc16_table by done.
  pose proof (byte_range crc) as Hbr.
  rewrite bit16_small by (change (2 ^ Z.of_nat 8) with 256; lia). change (Z.of_nat 8) with 8.
  unfold crc16_step. fold hi. rewrite (land_byte _ Hhi), u16_lxor, Z.lxor_comm.
  assert (forall i, 0 <= i < 256 -> 0 <= nth (Z.to_nat i) crc16tab 0 < 2 ^ 16) as Htab.
  { intros i Hi. rewrite <- (crc16_table i Hi). change 8%nat with (S 7). cbn [Nat.iter nat_rect]. apply Z.mod_pos_bound. lia. }
  f_equal.
  - unfold u16. by rewrite Z.mod_small by (by apply Htab).
  - unfold u16. change 255 with (Z.ones 8). rewrite Z.land_ones, !Z.shiftl_mul_pow2 by lia. change (2 ^ 16) with (2 ^ 8 * 2 ^ 8).
    by rewrite Z.mul_mod_distr_r by lia.
Qed.

Lemma crc64_bits s : forall crc, byte_string s -> crc64 crc s = crc64_ref crc s.
Proof.
  induction s as [|b s IH]; intros crc Hs; [done|]. apply Forall_cons in Hs as [Hb Hs].
  unfold crc64, crc64_ref in *. cbn [foldl]. rewrite crc64_step_bits by done. by apply IH.
Qed.

Lemma crc16_fold s : forall crc, 0 <= crc < 2 ^ 16 -> byte_string s ->
  foldl crc16_step crc s = foldl (fun crc b => Nat.iter 8 bit16 (Z.lxor crc (Z.shiftl b 8))) crc s /\
  0 <= foldl crc16_step crc s < 2 ^ 16.
Proof.
  induction s as [|b s IH]; intros crc Hc Hs; [done|]. apply Forall_cons in Hs as [Hb Hs]. cbn [foldl].
  destruct (crc16_step_bits crc b Hc Hb) as [<- Hr]. by apply IH.
Qed.

Lemma crc16_bits s : byte_string s -> crc16 s = crc16_ref s /\ 0 <= crc16 s < 2 ^ 16.
Proof. apply crc16_fold. lia. Qed.

(** ** Hash tags *)

(** The part of a key that is hashed: what is between the first { and the first }
    after it, unless that is empty or missing. *)
Inductive hashtag : list Z -> list Z -> Prop :=
  | tag_inner a t r : 123 ∉ a -> 125 ∉ t -> t <> [] -> hashtag (a ++ 123 :: t ++ 125 :: r) t
  | tag_no_open key : 123 ∉ key -> hashtag key key
  | tag_no_close a t : 123 ∉ a -> 125 ∉ t -> hashtag (a ++ 123 :: t) (a ++ 123 :: t)
  | tag_empty a r : 123 ∉ a -> hashtag (a ++ 123 :: 125 :: r) (a ++ 123 :: 125 :: r).

Lemma scan_absent c l : c ∉ l -> scan c l = length l.
Proof.
  induction l as [|x l IH]; [done|]. intros [Hx Hl]%not_elem_of_cons. cbn. rewrite (proj2 (Z.eqb_neq x c)) by congruence. by rewrite IH.
Qed.

Lemma scan_found c a r : c ∉ a -> scan c (a ++ c :: r) = length a.
Proof.
  induction a as [|x a IH]; [cbn; by rewrite Z.eqb_refl|]. intros [Hx Hl]%not_elem_of_cons. cbn [app scan length].
  rewrite (proj2 (Z.eqb_neq x c)) by congruence. by rewrite IH.
Qed.

Lemma scan_split (c : Z) (l : list Z) : (c ∉ l) \/ exists a r, l = a ++ c :: r /\ c ∉ a.
Proof.
  induction l as [|x l IH]; [left; apply not_elem_of_nil|]. destruct (decide (x = c)) as [->|Hx].
  - right. exists [], l. split; [done|apply not_elem_of_nil].
  - destruct IH as [Hno|(a & r & -> & Ha)].
    + left. rewrite not_elem_of_cons. split; [congruence|done].
    + right. exists (x :: a), r. split; [done|]. rewrite not_elem_of_cons. split; [congruence|done].
Qed.

Lemma hashtag_total key : exists t, hashtag key t.
Proof.
  destruct (scan_split 123 key) as [Hno|(a & r & -> & Ha)]; [exists key; by apply tag_no_open|].
  destruct (scan_split 125 r) as [Hno|(t & r' & -> & Ht)]; [eexists; by apply tag_no_close|].
  destruct t as [|x t]; [eexists; by apply tag_empty|]. exists (x :: t). by apply tag_inner.
Qed.

Lemma keyHashSlot_tag key t : hashtag key t -> keyHashSlot key = Z.land (crc16 t) 16383.
Proof.
  unfold keyHashSlot. destruct 1 as [a t r Ha Ht Hne|key Hno|a t Ha Ht|a r Ha].
  - rewrite scan_found by done. rewrite length_app. cbn [length]. rewrite (proj2 (Nat.eqb_neq _ _)) by lia.
    change (a ++ 123 :: t ++ 125 :: r) with (a ++ [123] ++ t ++ 125 :: r). rewrite (app_assoc a).
    replace (S (length a)) with (length (a ++ [123])) by (rewrite length_app; simpl; lia).
    rewrite drop_app_length, scan_found by done. rewrite !length_app. cbn [length].
    assert (length t <> 0%nat) as Hl by (by destruct t).
    rewrite (proj2 (Nat.eqb_neq _ _)), (proj2 (Nat.eqb_neq _ _)) by lia. cbn [orb].
    replace (length a + 1 + length t - length a - 1)%nat with (length t) by lia. by rewrite take_app_length.
  - rewrite scan_absent by done. by rewrite Nat.eqb_refl.
  - rewrite scan_found by done. rewrite length_app. cbn [length]. rewrite (proj2 (Nat.eqb_neq _ _)) by lia.
    change (a ++ 123 :: t) with (a ++ [123] ++ t). rewrite (app_assoc a).
    replace (S (length a)) with (length (a ++ [123])) by (rewrite length_app; simpl; lia).
    rewrite drop_app_length, scan_absent by done. rewrite length_app. cbn [length].
    rewrite (proj2 (Nat.eqb_eq (length a + 1 + length t) _)) by lia. done.
  - rewrite scan_found by done. rewrite length_app. cbn [length]. rewrite (proj2 (Nat.eqb_neq _ _)) by lia.
    change (a ++ 123 :: 125 :: r) with (a ++ [123] ++ 125 :: r). rewrite (app_assoc a).
    replace (S (length a)) with (length (a ++ [123])) by (rewrite length_app; simpl; lia).
    rewrite drop_app_length. cbn [scan]. rewrite Z.eqb_refl, Nat.add_0_r, Nat.eqb_refl, orb_true_r. done.
Qed.

(** ** The properties *)

(** C37: the table driven checksums are the bit by bit ones: crc16 is the CRC of the
    polynomial 0x1021 with initial value 0, most significant bit first, and crc64
    that of the reflected polynomial 0xad93d23594c935a9 from any initial value;
    the CRC-64 of a stream can be computed piece by piece. *)
Theorem crc_correct s1 s2 crc :
  byte_string s1 -> byte_string s2 ->
  crc16 s1 = crc16_ref s1 /\ crc64 crc s1 = crc64_ref crc s1 /\
  crc64 (crc64 crc s1) s2 = crc64_ref crc (s1 ++ s2).
Proof.
  intros H1 H2. split_and!; [by apply crc16_bits|by apply crc64_bits|].
  rewrite <- crc64_bits by (by apply Forall_app). unfold crc64. by rewrite foldl_app.
Qed.

(** "123456789" *)
Definition check_input : list Z := [49; 50; 51; 52; 53; 54; 55; 56; 57].

Lemma crc_correct_witness :
  crc16_ref check_input = 0x31c3 /\ crc64_ref 0 check_input = 0xe9c6d914c4b8d9ca /\
  crc64 (crc64 0 [49]) [50] = crc64_ref 0 [49; 50].
Proof.
  assert (byte_string check_input) as Hb by (repeat constructor; lia).
  destruct (crc_correct check_input [] 0 Hb (Forall_nil_2 _)) as (H16 & H64 & _). rewrite <- H16, <- H64.
  split; [vm_compute; reflexivity|]. split; [vm_compute; reflexivity|].
  apply (crc_correct [49] [50] 0); repeat constructor; lia.
Defined.

(** The check value is that of the initial value 0, not of the Xor_In of the
    comment at the top of crc64.c. *)
Example crc64_initial : crc64 0 check_input = 0xe9c6d914c4b8d9ca /\ crc64 0xffffffffffffffff check_input <> 0xe9c6d914c4b8d9ca.
Proof. vm_compute. split; [reflexivity|discriminate]. Qed.

(** KeyHashSlot hashes exactly the hash tag of the key, so that keys with the
    same tag are in the same slot, and the slot is below 16384. *)
Theorem keyHashSlot_correct key1 key2 t :
  byte_string key1 -> hashtag key1 t -> hashtag key2 t ->
  keyHashSlot key1 = crc16_ref t mod 16384 /\ keyHashSlot key1 = keyHashSlot key2 /\ 0 <= keyHashSlot key1 < 16384.
Proof.
  intros Hb H1 H2. rewrite (keyHashSlot_tag key1 t H1), (keyHashSlot_tag key2 t H2).
  assert (byte_string t) as Ht.
  { destruct H1; try done. apply Forall_app in Hb as [_ Hb]. apply Forall_cons in Hb as [_ Hb]. by apply Forall_app in Hb as [Hb _]. }
  destruct (crc16_bits t Ht) as [-> _]. change 16383 with (Z.ones 14). rewrite Z.land_ones by lia. split_and!; try done; apply Z.mod_pos_bound; lia.
Qed.

Lemma keyHashSlot_correct_witness :
  keyHashSlot [97; 123; 120; 125; 98] = crc16_ref [120] mod 16384 /\
  keyHashSlot [97; 123; 120; 125; 98] = keyHashSlot [123; 120; 125; 123] /\ 0 <= keyHashSlot [97; 123; 120; 125; 98] < 16384.
Proof.
  apply (keyHashSlot_correct [97; 123; 120; 125; 98] [123; 120; 125; 123] [120]).
  - repeat constructor; lia.
  - apply (tag_inner [97] [120] [98]); [by apply (bool_decide_unpack _)|by apply (bool_decide_unpack _)|done].
  - apply (tag_inner [] [120] [123]); [by apply (bool_decide_unpack _)|by apply (bool_decide_unpack _)|done].
Defined.
