(* ===== verification/Bitops.v ===== *)
(** * Bit operations (src/redis-stable/src/bitops.c)

    redisPopcount and redisBitpos with their word at a time loops, the access to
    bit fields of up to 64 bits at any offset, and the overflow rules of the
    BITFIELD command.  A bitmap is a byte string, bit 0 the most significant bit
    of the first byte. *)
From stdpp Require Import prelude list.
From Stdlib Require Import ZArith Lia.
From S2P Require Import Prelude Endianconv.

Local Open Scope Z_scope.
Local Open Scope redis_scope.

(** ** redisPopcount *)

(** static const unsigned char bitsinbyte[256] *)
Definition bitsinbyte : list Z := [
  0; 1; 1; 2; 1; 2; 2; 3; 1; 2; 2; 3; 2; 3; 3; 4; 1; 2; 2; 3; 2; 3; 3; 4; 2; 3; 3; 4; 3; 4; 4; 5;
  1; 2; 2; 3; 2; 3; 3; 4; 2; 3; 3; 4; 3; 4; 4; 5; 2; 3; 3; 4; 3; 4; 4; 5; 3; 4; 4; 5; 4; 5; 5; 6;
  1; 2; 2; 3; 2; 3; 3; 4; 2; 3; 3; 4; 3; 4; 4; 5; 2; 3; 3; 4; 3; 4; 4; 5; 3; 4; 4; 5; 4; 5; 5; 6;
  2; 3; 3; 4; 3; 4; 4; 5; 3; 4; 4; 5; 4; 5; 5; 6; 3; 4; 4; 5; 4; 5; 5; 6; 4; 5; 5; 6; 5; 6; 6; 7;
  1; 2; 2; 3; 2; 3; 3; 4; 2; 3; 3; 4; 3; 4; 4; 5; 2; 3; 3; 4; 3; 4; 4; 5; 3; 4; 4; 5; 4; 5; 5; 6;
  2; 3; 3; 4; 3; 4; 4; 5; 3; 4; 4; 5; 4; 5; 5; 6; 3; 4; 4; 5; 4; 5; 5; 6; 4; 5; 5; 6; 5; 6; 6; 7;
  2; 3; 3; 4; 3; 4; 4; 5; 3; 4; 4; 5; 4; 5; 5; 6; 3; 4; 4; 5; 4; 5; 5; 6; 4; 5; 5; 6; 5; 6; 6; 7;
  3; 4; 4; 5; 4; 5; 5; 6; 4; 5; 5; 6; 5; 6; 6; 7; 4; 5; 5; 6; 5; 6; 6; 7; 5; 6; 6; 7; 6; 7; 7; 8].

Definition nbits (b : Z) : Z := nth (Z.to_nat b) bitsinbyte 0.

(** while((unsigned long)p & 3 && count) ...: [addr] is the address of [s]. *)
Fixpoint pop_align (addr : Z) (s : list Z) (bits : Z) : list Z * Z :=
  match s with
  | [] => ([], bits)
  | b :: s' => if Z.land addr 3 =? 0 then (s, bits) else pop_align (addr + 1) s' (u64 (bits + nbits b))
  end.

(** while(count--) bits += bitsinbyte[*p++]; *)
Fixpoint pop_bytes (s : list Z) (bits : Z) : Z :=
  match s with
  | [] => bits
  | b :: s => pop_bytes s (u64 (bits + nbits b))
  end.

(** aux = aux - ((aux >> 1) & 0x55555555); aux = (aux & 0x33333333) + ((aux >> 2) & 0x33333333); *)
Definition pairs_step (aux : Z) : Z := u32 (aux - Z.land (Z.shiftr aux 1) 0x55555555).
Definition nibbles_step (aux : Z) : Z := u32 (Z.land aux 0x33333333 + Z.land (Z.shiftr aux 2) 0x33333333).
(** (aux + (aux >> 4)) & 0x0F0F0F0F *)
Definition bytes_step (aux : Z) : Z := Z.land (u32 (aux + Z.shiftr aux 4)) 0x0F0F0F0F.
Definition swar (aux : Z) : Z := bytes_step (nibbles_step (pairs_step aux)).

(** while(count>=28) ... *)
Fixpoint pop_words `{Host} (fuel : nat) (s : list Z) (bits : Z) : option (list Z * Z) :=
  match fuel with
  | O => None
  | S fuel =>
    if (28 <=? length s)%nat then
      let aux i := host_load (take 4 (drop (4 * i) s)) in
      let sum := u32 (swar (aux 0%nat) + swar (aux 1%nat) + swar (aux 2%nat) + swar (aux 3%nat)
                      + swar (aux 4%nat) + swar (aux 5%nat) + swar (aux 6%nat)) in
      pop_words fuel (drop 28 s) (u64 (bits + Z.shiftr (u32 (sum * 0x01010101)) 24))
    else Some (s, bits)
  end.

Definition redisPopcount `{Host} (addr : Z) (s : list Z) : option Z :=
  let '(s, bits) := pop_align addr s 0 in
  '(s, bits) ← pop_words (S (length s)) s bits;
  Some (pop_bytes s bits).

(** ** redisBitpos *)

(** while((unsigned long)c & (sizeof( *l)-1) && count) ...: the rest of the
    string, the position and whether a byte that differs was found. *)
Fixpoint skip_bytes (addr : Z) (skipval : Z) (s : list Z) (pos : Z) : list Z * Z * bool :=
  match s with
  | [] => ([], pos, false)
  | c :: s' =>
    if Z.land addr 7 =? 0 then (s, pos, false)
    else if negb (c =? skipval) then (s, pos, true)
    else skip_bytes (addr + 1) skipval s' (pos + 8)
  end.

(** while (count >= sizeof( *l)) ... *)
Fixpoint skip_words `{Host} (fuel : nat) (skipval : Z) (s : list Z) (pos : Z) : option (list Z * Z) :=
  match fuel with
  | O => None
  | S fuel =>
    if (8 <=? length s)%nat then
      if negb (host_load (take 8 s) =? skipval) then Some (s, pos)
      else skip_words fuel skipval (drop 8 s) (pos + 64)
    else Some (s, pos)
  end.

(** for (j = 0; j < sizeof( *l); j++) ... *)
Fixpoint load_word (n : nat) (s : list Z) (word : Z) : Z :=
  match n with
  | O => word
  | S n =>
    let word := u64 (Z.shiftl word 8) in
    match s with
    | [] => load_word n [] word
    | c :: s => load_word n s (Z.lor word c)
    end
  end.

(** while(one) ...; serverPanic() when no bit is found. *)
Fixpoint scan_bits (fuel : nat) (one word : Z) (bit : bool) (pos : Z) : option Z :=
  match fuel with
  | O => None
  | S fuel =>
    if one =? 0 then None
    else if Bool.eqb (negb (Z.land one word =? 0)) bit then Some pos
    else scan_bits fuel (Z.shiftr one 1) word bit (pos + 1)
  end.

Definition redisBitpos `{Host} (addr : Z) (s : list Z) (bit : bool) : option Z :=
  let '(s, pos, found) := skip_bytes addr (if bit then 0 else 255) s 0 in
  '(s, pos) ← (if found then Some (s, pos)
               else skip_words (S (length s)) (if bit then 0 else 2 ^ 64 - 1) s pos);
  let word := load_word 8 s 0 in
  if bit && (word =? 0) then Some (-1)
  else scan_bits 65 (2 ^ 63) word bit pos.

(** ** Bit fields *)

(** The loop over the bits; [j] counts up, [n] is bits - j. *)
Fixpoint set_loop (n : nat) (p : list Z) (offset value : Z) : option (list Z) :=
  match n with
  | O => Some p
  | S n =>
    let bitval := if Z.land value (Z.shiftl 1 (Z.of_nat n)) =? 0 then 0 else 1 in
    let byte := Z.to_nat (Z.shiftr offset 3) in
    let bit := 7 - Z.land offset 7 in
    byteval ← p !! byte;
    let byteval := Z.land byteval (Z.lnot (Z.shiftl 1 bit)) in
    let byteval := Z.lor byteval (Z.shiftl bitval bit) in
    set_loop n (<[byte := Z.land byteval 255]> p) (u64 (offset + 1)) value
  end.
Definition setUnsignedBitfield (p : list Z) (offset bits value : Z) : option (list Z) :=
  set_loop (Z.to_nat bits) p offset value.

Definition setSignedBitfield (p : list Z) (offset bits value : Z) : option (list Z) :=
  setUnsignedBitfield p offset bits (u64 value).

Fixpoint get_loop (n : nat) (p : list Z) (offset value : Z) : option Z :=
  match n with
  | O => Some value
  | S n =>
    let byte := Z.to_nat (Z.shiftr offset 3) in
    let bit := 7 - Z.land offset 7 in
    byteval ← p !! byte;
    let bitval := Z.land (Z.shiftr byteval bit) 1 in
    get_loop n p (u64 (offset + 1)) (Z.lor (u64 (Z.shiftl value 1)) bitval)
  end.
Definition getUnsignedBitfield (p : list Z) (offset bits : Z) : option Z :=
  get_loop (Z.to_nat bits) p offset 0.

(** Shifting a 64-bit integer by 64 or more is undefined. *)
Definition shl64 (x n : Z) : option Z := assert! ((0 <=? n) && (n <? 64)) ;; Some (u64 (Z.shiftl x n)).

Definition getSignedBitfield (p : list Z) (offset bits : Z) : option Z :=
  u ← getUnsignedBitfield p offset bits;
  msb ← shl64 1 (bits - 1);
  if negb (Z.land u msb =? 0) then
    ext ← shl64 (2 ^ 64 - 1) bits;
    Some (s64 (Z.lor u ext))
  else Some (s64 u).

(** ** Overflow *)

Inductive bfoverflow := BFOVERFLOW_WRAP | BFOVERFLOW_SAT | BFOVERFLOW_FAIL.

(** The return value and what is stored in *limit, if anything. *)
Definition checkUnsignedBitfieldOverflow (value incr bits : Z) (owtype : bfoverflow) : option (Z * option Z) :=
  max ← (if bits =? 64 then Some (2 ^ 64 - 1) else (fun x => u64 (x - 1)) <$> shl64 1 bits);
  let maxincr := s64 (u64 (max - value)) in
  let minincr := s64 (u64 (- value)) in
  let handle_wrap :=
    mask ← shl64 (2 ^ 64 - 1) bits;
    Some (1, Some (Z.land (u64 (value + incr)) (u64 (Z.lnot mask)))) in
  if (value >? max) || ((incr >? 0) && (incr >? maxincr)) then
    match owtype with
    | BFOVERFLOW_WRAP => handle_wrap
    | BFOVERFLOW_SAT => Some (1, Some max)
    | BFOVERFLOW_FAIL => Some (1, None)
    end
  else if (incr <? 0) && (incr <? minincr) then
    match owtype with
    | BFOVERFLOW_WRAP => handle_wrap
    | BFOVERFLOW_SAT => Some (-1, Some 0)
    | BFOVERFLOW_FAIL => Some (-1, None)
    end
  else Some (0, None).

(** The subtractions wrap around where they overflow. *)
Definition checkSignedBitfieldOverflow (value incr bits : Z) (owtype : bfoverflow) : option (Z * option Z) :=
  max ← (if bits =? 64 then Some LLONG_MAX else (fun x => x - 1) <$> shl64 1 (bits - 1));
  let min := - max - 1 in
  let maxincr := s64 (max - value) in
  let minincr := s64 (min - value) in
  let handle_wrap :=
    mask ← shl64 (2 ^ 64 - 1) bits;
    msb ← shl64 1 (bits - 1);
    let c := u64 (u64 value + u64 incr) in
    let c := if negb (Z.land c msb =? 0) then Z.lor c mask else Z.land c (u64 (Z.lnot mask)) in
    Some (1, Some (s64 c)) in
  if (value >? max) || (negb (bits =? 64) && (incr >? maxincr)) || ((value >=? 0) && (incr >? 0) && (incr >? maxincr)) then
    match owtype with
    | BFOVERFLOW_WRAP => handle_wrap
    | BFOVERFLOW_SAT => Some (1, Some max)
    | BFOVERFLOW_FAIL => Some (1, None)
    end
  else if (value <? min) || (negb (bits =? 64) && (incr <? minincr)) || ((value <? 0) && (incr <? 0) && (incr <? minincr)) then
    match owtype with
    | BFOVERFLOW_WRAP => handle_wrap
    | BFOVERFLOW_SAT => Some (-1, Some min)
    | BFOVERFLOW_FAIL => Some (-1, None)
    end
  else Some (0, None).

(** ** Counting bits *)

(** The number of bits set in a byte and in a byte string. *)
Definition byte_ones (b : Z) : Z := foldr Z.add 0 ((fun i => Z.b2z (Z.testbit b i)) <$> [0; 1; 2; 3; 4; 5; 6; 7]).
Definition ones (s : list Z) : Z := foldr Z.add 0 (byte_ones <$> s).

(** Checking a property of all bytes. *)
Definition all_bytes (f : Z -> bool) : bool := forallb f (Z.of_nat <$> seq 0 256).
Lemma all_bytes_spec f : all_bytes f = true -> forall b, is_byte b -> f b = true.
Proof.
  unfold all_bytes, is_byte. rewrite forallb_forall. intros Hall b Hb. apply Hall, list_elem_of_In, list_elem_of_fmap.
  exists (Z.to_nat b). split; [lia|]. apply elem_of_seq. lia.
Qed.

Lemma nbits_ones b : is_byte b -> nbits b = byte_ones b.
Proof. intros Hb. apply Z.eqb_eq. revert b Hb. apply all_bytes_spec. vm_compute. reflexivity. Qed.

Lemma byte_ones_range b : 0 <= byte_ones b <= 8.
Proof.
  unfold byte_ones. cbn [fmap list_fmap foldr]. assert (forall x, 0 <= Z.b2z x <= 1) as Hb by (intros []; cbn; lia).
  pose proof (Hb (Z.testbit b 0)). pose proof (Hb (Z.testbit b 1)). pose proof (Hb (Z.testbit b 2)). pose proof (Hb (Z.testbit b 3)).
  pose proof (Hb (Z.testbit b 4)). pose proof (Hb (Z.testbit b 5)). pose proof (Hb (Z.testbit b 6)). pose proof (Hb (Z.testbit b 7)). lia.
Qed.

Lemma ones_cons b s : ones (b :: s) = byte_ones b + ones s.
Proof. done. Qed.

Lemma ones_app s1 s2 : ones (s1 ++ s2) = ones s1 + ones s2.
Proof. induction s1 as [|b s1 IH]; [done|]. cbn [app]. rewrite !ones_cons, IH. lia. Qed.

Lemma ones_range s : 0 <= ones s <= 8 * Z.of_nat (length s).
Proof.
  induction s as [|b s IH]; [done|]. rewrite ones_cons. pose proof (byte_ones_range b).
  cbn [length]. lia.
Qed.

(** *** Word arithmetic byte by byte *)

Lemma land_split a r m M : is_byte a -> is_byte m -> Z.land (a + 256 * r) (m + 256 * M) = Z.land a m + 256 * Z.land r M.
Proof.
  unfold is_byte. intros Ha Hm. change 256 with (2 ^ 8) in *. rewrite !(Z.mul_comm (2 ^ 8)), <- !Z.shiftl_mul_pow2 by lia.
  assert (forall x y, 0 <= x < 2 ^ 8 -> forall i, 0 <= i -> Z.testbit (x + Z.shiftl y 8) i = if i <? 8 then Z.testbit x i else Z.testbit y (i - 8)) as Hbit.
  { intros x y Hx i Hi. rewrite Z.shiftl_mul_pow2 by lia. destruct (Z.ltb_spec i 8).
    - rewrite <- (Z.mod_pow2_bits_low _ 8 i) by lia. rewrite Z.mod_add by lia. by rewrite Z.mod_pow2_bits_low by lia.
    - replace i with (i - 8 + 8) at 1 by lia. rewrite <- Z.div_pow2_bits by lia. rewrite Z.div_add by lia. by rewrite Z.div_small by lia. }
  apply Z.bits_inj'. intros i Hi. rewrite Z.land_spec, !Hbit by lia.
  rewrite Hbit; [|change (2 ^ 8) with 256|done].
  - rewrite !Z.land_spec. by destruct (i <? 8).
  - split; [apply Z.land_nonneg; lia|]. pose proof (Z.land_nonneg a m). destruct (Z.eq_dec (Z.land a m) 0) as [->|]; [lia|].
    apply (Z.log2_lt_pow2 _ 8); [lia|]. pose proof (Z.log2_land a m ltac:(lia) ltac:(lia)).
    destruct (Z.eq_dec a 0) as [->|]; [by rewrite Z.land_0_l in *|].
    assert (Z.log2 a < 8) by (apply Z.log2_lt_pow2; lia). lia.
Qed.

(** Masking a shifted word: the bits that come from the next byte are masked
    out. *)
Lemma land_shift_bytes k m l : 0 <= k < 8 -> is_byte m -> Forall is_byte l ->
  (forall a c, is_byte a -> 0 <= c < 2 ^ k -> Z.land (a / 2 ^ k + 2 ^ (8 - k) * c) m = Z.land (a / 2 ^ k) m) ->
  Z.land (Z.shiftr (le_val l) k) (le_val (replicate (length l) m)) = le_val ((fun a => Z.land (a / 2 ^ k) m) <$> l).
Proof.
  intros Hk Hm Hl Hmask. rewrite Z.shiftr_div_pow2 by lia. induction Hl as [|a l Ha _ IH]; [by rewrite Z.land_0_r|].
  cbn [length replicate le_val fmap list_fmap]. rewrite <- IH. set (r := le_val l).
  assert (2 ^ k * 2 ^ (8 - k) = 256) as H256 by (rewrite <- Z.pow_add_r by lia; replace (k + (8 - k)) with 8 by lia; done).
  assert (0 < 2 ^ k) by (apply Z.pow_pos_nonneg; lia). assert (0 < 2 ^ (8 - k)) by (apply Z.pow_pos_nonneg; lia).
  assert ((a + 256 * r) / 2 ^ k = (a / 2 ^ k + 2 ^ (8 - k) * (r mod 2 ^ k)) + 256 * (r / 2 ^ k)) as ->.
  { rewrite <- H256. replace (a + 2 ^ k * 2 ^ (8 - k) * r) with (a + (2 ^ (8 - k) * r) * 2 ^ k) by lia. rewrite Z.div_add by lia.
    pose proof (Z.div_mod r (2 ^ k)). nia. }
  pose proof (Z.mod_pos_bound r (2 ^ k)). rewrite land_split; [|unfold is_byte in *|done].
  - by rewrite Hmask by (done || lia).
  - pose proof (Z.div_lt_upper_bound a (2 ^ k) (2 ^ (8 - k))). pose proof (Z.div_pos a (2 ^ k)). nia.
Qed.

Lemma land_bytes m l : is_byte m -> Forall is_byte l ->
  Z.land (le_val l) (le_val (replicate (length l) m)) = le_val ((fun a => Z.land a m) <$> l).
Proof.
  intros Hm. induction 1 as [|a l Ha _ IH]; [done|]. cbn [length replicate le_val fmap list_fmap]. by rewrite land_split, IH.
Qed.

Lemma le_val_sub (f g : Z -> Z) l : le_val (f <$> l) - le_val (g <$> l) = le_val ((fun a => f a - g a) <$> l).
Proof. induction l as [|a l IH]; cbn [fmap list_fmap le_val]; lia. Qed.

Lemma le_val_add (f g : Z -> Z) l : le_val (f <$> l) + le_val (g <$> l) = le_val ((fun a => f a + g a) <$> l).
Proof. induction l as [|a l IH]; cbn [fmap list_fmap le_val]; lia. Qed.

Lemma u32_word l : length l = 4%nat -> Forall is_byte l -> u32 (le_val l) = le_val l.
Proof. intros Hl Hb. apply u32_small. pose proof (le_val_range l Hb) as Hr. by rewrite Hl in Hr. Qed.

(** The three steps on one byte. *)
Definition pair_byte (a : Z) : Z := a - Z.land (a / 2) 0x55.
Definition nibble_byte (a : Z) : Z := Z.land a 0x33 + Z.land (a / 4) 0x33.

Definition bounded_by (lo hi : Z) (f : Z -> Z) : bool := all_bytes (fun a => (lo <=? f a) && (f a <=? hi)).
Lemma bounded_by_spec lo hi f : bounded_by lo hi f = true -> forall a, is_byte a -> lo <= f a <= hi.
Proof. intros Hb a Ha. pose proof (all_bytes_spec _ Hb a Ha) as H. cbn in H. lia. Qed.

(** Masking a byte together with one of [n] carries from the next one. *)
Definition carries_masked (sh w m : Z) (n : nat) : bool :=
  all_bytes (fun a => forallb (fun c => Z.land (a / sh + w * c) m =? Z.land (a / sh) m) (Z.of_nat <$> seq 0 n)).
Lemma carries_masked_spec sh w m n a c : carries_masked sh w m n = true -> is_byte a -> 0 <= c < Z.of_nat n ->
  Z.land (a / sh + w * c) m = Z.land (a / sh) m.
Proof.
  intros Hm Ha Hc. pose proof (all_bytes_spec _ Hm a Ha) as Hall. cbn in Hall. rewrite forallb_forall in Hall.
  apply Z.eqb_eq, Hall, list_elem_of_In, list_elem_of_fmap. exists (Z.to_nat c). split; [lia|]. apply elem_of_seq. lia.
Qed.

Lemma pairs_step_bytes l : length l = 4%nat -> Forall is_byte l -> pairs_step (le_val l) = le_val (pair_byte <$> l).
Proof.
  intros Hl Hb. unfold pairs_step. change 0x55555555 with (le_val (replicate 4 0x55)). rewrite <- Hl, land_shift_bytes; [|lia|unfold is_byte; lia|done|].
  - rewrite <- (list_fmap_id l) at 1. rewrite le_val_sub. apply u32_word; [by rewrite length_fmap|]. apply Forall_fmap.
    eapply Forall_impl; [exact Hb|]. intros a Ha. unfold compose, is_byte. pose proof (bounded_by_spec 0 255 pair_byte ltac:(vm_compute; reflexivity) a Ha).
    unfold pair_byte in *. cbn in *. lia.
  - intros a c Ha Hc. apply (carries_masked_spec 2 128 0x55 2); [vm_compute; reflexivity|done|done].
Qed.

Lemma nibbles_step_bytes l : length l = 4%nat -> Forall is_byte l -> nibbles_step (le_val l) = le_val (nibble_byte <$> l).
Proof.
  intros Hl Hb. unfold nibbles_step. change 0x33333333 with (le_val (replicate 4 0x33)).
  rewrite <- Hl, land_shift_bytes; [|lia|unfold is_byte; lia|done|].
  - rewrite land_bytes by (done || unfold is_byte; lia). rewrite le_val_add. apply u32_word; [by rewrite length_fmap|]. apply Forall_fmap.
    eapply Forall_impl; [exact Hb|]. intros a Ha. unfold compose, is_byte. pose proof (bounded_by_spec 0 255 nibble_byte ltac:(vm_compute; reflexivity) a Ha).
    unfold nibble_byte in *. cbn in *. lia.
  - intros a c Ha Hc. apply (carries_masked_spec 4 64 0x33 4); [vm_compute; reflexivity|done|done].
Qed.

(** After the second step both halves of a byte are at most 4. *)
Definition halves_ok (a : Z) : Prop := 0 <= a /\ a / 16 <= 4 /\ a mod 16 <= 4.

Lemma fold_byte_mask a c : halves_ok a -> 0 <= c <= 4 -> Z.land (a + a / 16 + 16 * c) 0x0F = a / 16 + a mod 16.
Proof.
  unfold halves_ok. intros (H0 & H1 & H2) Hc. change 0x0F with (Z.ones 4). rewrite Z.land_ones by lia. change (2 ^ 4) with 16.
  rewrite Z.mul_comm, Z.mod_add by lia. pose proof (Z.div_mod a 16 ltac:(lia)) as Hd. pose proof (Z.mod_pos_bound a 16 ltac:(lia)).
  rewrite Hd at 1. replace (16 * (a / 16) + a mod 16 + a / 16) with (a / 16 + a mod 16 + (a / 16) * 16) by lia.
  rewrite Z.mod_add by lia. apply Z.mod_small. pose proof (Z.div_pos a 16). lia.
Qed.

Lemma fold_word l : Forall halves_ok l ->
  Z.land (le_val l + Z.shiftr (le_val l) 4) (le_val (replicate (length l) 0x0F)) = le_val ((fun a => a / 16 + a mod 16) <$> l) /\
  0 <= le_val l /\ le_val l mod 16 <= 4.
Proof.
  rewrite Z.shiftr_div_pow2 by lia. change (2 ^ 4) with 16. induction 1 as [|a l Ha _ (IH & Hp & Hm)]; [by rewrite Z.land_0_r|].
  cbn [length replicate le_val fmap list_fmap]. rewrite <- IH. set (r := le_val l) in *. pose proof Ha as (H0 & H1 & H2). split_and!.
  - assert (a + 256 * r + (a + 256 * r) / 16 = (a + a / 16 + 16 * (r mod 16)) + 256 * (r + r / 16)) as ->.
    { replace (a + 256 * r) with (a + (16 * r) * 16) at 2 by lia. rewrite Z.div_add by lia. pose proof (Z.div_mod r 16). lia. }
    pose proof (Z.mod_pos_bound r 16 ltac:(lia)). pose proof (Z.div_mod a 16 ltac:(lia)). pose proof (Z.div_pos a 16).
    rewrite land_split by (unfold is_byte; lia). by rewrite fold_byte_mask by (done || lia).
  - lia.
  - replace (a + 256 * r) with (a + (16 * r) * 16) by lia. rewrite Z.mod_add by lia. done.
Qed.

Lemma bytes_step_bytes l : length l = 4%nat -> Forall halves_ok l -> bytes_step (le_val l) = le_val ((fun a => a / 16 + a mod 16) <$> l).
Proof.
  intros Hl Hb. unfold bytes_step. rewrite u32_small.
  - change 0x0F0F0F0F with (le_val (replicate 4 0x0F)). rewrite <- Hl. by apply fold_word.
  - destruct (fold_word l Hb) as (_ & H0 & _). assert (le_val l < 69 * 2 ^ 24) as Hub.
    { destr_len l Hl. unfold halves_ok in Hb. rewrite !Forall_cons in Hb. cbn [le_val].
      repeat match goal with H : _ /\ _ |- _ => destruct H end. zdiv_lia. }
    rewrite Z.shiftr_div_pow2 by lia. change (2 ^ 4) with 16. zdiv_lia.
Qed.

Lemma swar_bytes l : length l = 4%nat -> Forall is_byte l -> swar (le_val l) = le_val (byte_ones <$> l).
Proof.
  intros Hl Hb. unfold swar. rewrite pairs_step_bytes by done.
  assert (Forall is_byte (pair_byte <$> l)) as Hp.
  { apply Forall_fmap. eapply Forall_impl; [exact Hb|]. intros a Ha. unfold compose, is_byte.
    pose proof (bounded_by_spec 0 255 pair_byte ltac:(vm_compute; reflexivity) a Ha). lia. }
  rewrite nibbles_step_bytes by (by rewrite ?length_fmap). rewrite <- list_fmap_compose.
  rewrite bytes_step_bytes; [|by rewrite length_fmap|].
  - rewrite <- list_fmap_compose. f_equal. apply list_fmap_ext. intros i a Ha. apply Z.eqb_eq.
    assert (is_byte a) as Hba by (rewrite Forall_forall in Hb; apply Hb; by eapply list_elem_of_lookup_2). revert a Hba Ha.
    assert (forall a, is_byte a -> ((nibble_byte (pair_byte a)) / 16 + (nibble_byte (pair_byte a)) mod 16 =? byte_ones a) = true) as Hall.
    { apply all_bytes_spec. vm_compute. reflexivity. }
    intros a Hba _. by apply Hall.
  - apply Forall_fmap. eapply Forall_impl; [exact Hb|]. intros a Ha. unfold compose, halves_ok.
    pose proof (bounded_by_spec 0 255 (fun a => nibble_byte (pair_byte a)) ltac:(vm_compute; reflexivity) a Ha).
    pose proof (bounded_by_spec 0 4 (fun a => nibble_byte (pair_byte a) / 16) ltac:(vm_compute; reflexivity) a Ha).
    pose proof (bounded_by_spec 0 4 (fun a => nibble_byte (pair_byte a) mod 16) ltac:(vm_compute; reflexivity) a Ha). cbv beta in *. lia.
Qed.

(** Multiplying by 0x01010101 adds the bytes up in the top byte. *)
Lemma mul_sum b0 b1 b2 b3 : 0 <= b0 <= 56 -> 0 <= b1 <= 56 -> 0 <= b2 <= 56 -> 0 <= b3 <= 56 ->
  Z.shiftr (u32 (u32 (le_val [b0; b1; b2; b3]) * 0x01010101)) 24 = b0 + b1 + b2 + b3.
Proof.
  intros H0 H1 H2 H3. cbn [le_val]. rewrite (u32_small (b0 + _)) by lia. unfold u32. rewrite Z.shiftr_div_pow2 by lia.
  change 0x01010101 with 16843009. zdiv_lia.
Qed.

Lemma swar_host `{Host} bs : length bs = 4%nat -> Forall is_byte bs ->
  exists x0 x1 x2 x3, swar (host_load bs) = le_val [x0; x1; x2; x3] /\
    0 <= x0 <= 8 /\ 0 <= x1 <= 8 /\ 0 <= x2 <= 8 /\ 0 <= x3 <= 8 /\ x0 + x1 + x2 + x3 = ones bs.
Proof.
  intros Hl Hb. destr_len bs Hl. unfold host_load.
  pose proof (byte_ones_range z). pose proof (byte_ones_range z0). pose proof (byte_ones_range z1). pose proof (byte_ones_range z2).
  assert (forall a b c d, ones [a; b; c; d] = byte_ones a + byte_ones b + byte_ones c + byte_ones d) as Ho
    by (intros; rewrite !ones_cons; unfold ones; cbn; lia).
  rewrite Ho. destruct big_endian.
  - rewrite swar_bytes by (done || by apply Forall_reverse). exists (byte_ones z2), (byte_ones z1), (byte_ones z0), (byte_ones z).
    split; [reflexivity|lia].
  - rewrite swar_bytes by done. exists (byte_ones z), (byte_ones z0), (byte_ones z1), (byte_ones z2). split; [reflexivity|lia].
Qed.

Lemma ones_take n m s : ones (take (n + m) s) = ones (take n s) + ones (take m (drop n s)).
Proof. by rewrite <- take_take_drop, ones_app. Qed.

(** One round of the loop over words. *)
Lemma words_round `{Host} s : (28 <= length s)%nat -> Forall is_byte s ->
  let aux i := host_load (take 4 (drop (4 * i) s)) in
  Z.shiftr (u32 (u32 (swar (aux 0%nat) + swar (aux 1%nat) + swar (aux 2%nat) + swar (aux 3%nat)
    + swar (aux 4%nat) + swar (aux 5%nat) + swar (aux 6%nat)) * 0x01010101)) 24 = ones (take 28 s).
Proof.
  intros Hl Hb aux.
  assert (forall i, (i < 7)%nat -> exists x0 x1 x2 x3, swar (aux i) = le_val [x0; x1; x2; x3] /\
    0 <= x0 <= 8 /\ 0 <= x1 <= 8 /\ 0 <= x2 <= 8 /\ 0 <= x3 <= 8 /\ x0 + x1 + x2 + x3 = ones (take 4 (drop (4 * i) s))) as Hw.
  { intros i Hi. apply swar_host; [rewrite length_take, length_drop; lia|]. by apply Forall_take, Forall_drop. }
  assert (ones (take 28 s) = ones (take 4 (drop (4 * 0) s)) + ones (take 4 (drop (4 * 1) s)) + ones (take 4 (drop (4 * 2) s))
    + ones (take 4 (drop (4 * 3) s)) + ones (take 4 (drop (4 * 4) s)) + ones (take 4 (drop (4 * 5) s)) + ones (take 4 (drop (4 * 6) s))) as ->.
  { change 28%nat with (4 + (4 + (4 + (4 + (4 + (4 + 4))))))%nat. rewrite !ones_take, !drop_drop. cbn [Nat.add Nat.mul]. rewrite drop_0. lia. }
  destruct (Hw 0%nat ltac:(lia)) as (a0 & a1 & a2 & a3 & -> & ? & ? & ? & ? & <-).
  destruct (Hw 1%nat ltac:(lia)) as (b0 & b1 & b2 & b3 & -> & ? & ? & ? & ? & <-).
  destruct (Hw 2%nat ltac:(lia)) as (c0 & c1 & c2 & c3 & -> & ? & ? & ? & ? & <-).
  destruct (Hw 3%nat ltac:(lia)) as (d0 & d1 & d2 & d3 & -> & ? & ? & ? & ? & <-).
  destruct (Hw 4%nat ltac:(lia)) as (e0 & e1 & e2 & e3 & -> & ? & ? & ? & ? & <-).
  destruct (Hw 5%nat ltac:(lia)) as (f0 & f1 & f2 & f3 & -> & ? & ? & ? & ? & <-).
  destruct (Hw 6%nat ltac:(lia)) as (g0 & g1 & g2 & g3 & -> & ? & ? & ? & ? & <-). clear Hw.
  replace (le_val [a0; a1; a2; a3] + le_val [b0; b1; b2; b3] + le_val [c0; c1; c2; c3] + le_val [d0; d1; d2; d3]
    + le_val [e0; e1; e2; e3] + le_val [f0; f1; f2; f3] + le_val [g0; g1; g2; g3])
    with (le_val [a0 + b0 + c0 + d0 + e0 + f0 + g0; a1 + b1 + c1 + d1 + e1 + f1 + g1;
                  a2 + b2 + c2 + d2 + e2 + f2 + g2; a3 + b3 + c3 + d3 + e3 + f3 + g3]) by (cbn [le_val]; lia).
  rewrite mul_sum by lia. lia.
Qed.

Lemma pop_words_spec `{Host} fuel : forall s bits, (length s < fuel)%nat -> Forall is_byte s ->
  0 <= bits -> bits + ones s < 2 ^ 64 ->
  exists s' bits', pop_words fuel s bits = Some (s', bits') /\ Forall is_byte s' /\ 0 <= bits' /\ bits' + ones s' = bits + ones s.
Proof.
  induction fuel as [|fuel IH]; intros s bits Hf Hb Hp Hlt; [lia|]. cbn [pop_words].
  destruct (Nat.leb_spec 28 (length s)) as [Hl|Hl]; [|by exists s, bits].
  cbv zeta. rewrite (words_round s Hl Hb).
  assert (ones s = ones (take 28 s) + ones (drop 28 s)) as Hsplit by (by rewrite <- ones_app, take_drop).
  pose proof (ones_range (take 28 s)). pose proof (ones_range (drop 28 s)).
  rewrite u64_small by lia.
  destruct (IH (drop 28 s) (bits + ones (take 28 s))) as (s' & bits' & Hrun & Hb' & Hp' & Heq); [rewrite length_drop; lia|by apply Forall_drop|lia|lia|].
  exists s', bits'. split_and!; try done. lia.
Qed.

Lemma pop_align_spec s : forall addr bits, Forall is_byte s -> 0 <= bits -> bits + ones s < 2 ^ 64 ->
  exists s' bits', pop_align addr s bits = (s', bits') /\ Forall is_byte s' /\ 0 <= bits' /\ bits' + ones s' = bits + ones s.
Proof.
  induction s as [|b s IH]; intros addr bits Hb Hp Hlt; cbn [pop_align]; [by exists [], bits|].
  destruct (Z.land addr 3 =? 0); [by exists (b :: s), bits|].
  apply Forall_cons in Hb as [Hbb Hb]. rewrite ones_cons in *. pose proof (byte_ones_range b). pose proof (ones_range s).
  rewrite (nbits_ones b Hbb), u64_small by lia.
  destruct (IH (addr + 1) (bits + byte_ones b) Hb) as (s' & bits' & Hrun & Hb' & Hp' & Heq); [lia|lia|].
  exists s', bits'. split_and!; try done. lia.
Qed.

Lemma pop_bytes_spec s : forall bits, Forall is_byte s -> 0 <= bits -> bits + ones s < 2 ^ 64 -> pop_bytes s bits = bits + ones s.
Proof.
  induction s as [|b s IH]; intros bits Hb Hp Hlt; cbn [pop_bytes]; [unfold ones; cbn; lia|].
  apply Forall_cons in Hb as [Hbb Hb]. rewrite ones_cons in *. pose proof (byte_ones_range b). pose proof (ones_range s).
  rewrite (nbits_ones b Hbb), u64_small by lia. rewrite IH by (done || lia). lia.
Qed.

Lemma redisPopcount_spec `{Host} addr s : Forall is_byte s -> ones s < 2 ^ 64 -> redisPopcount addr s = Some (ones s).
Proof.
  intros Hb Hlt. unfold redisPopcount. destruct (pop_align_spec s addr 0 Hb) as (s1 & bits1 & -> & Hb1 & Hp1 & He1); [lia|lia|].
  destruct (pop_words_spec (S (length s1)) s1 bits1) as (s2 & bits2 & -> & Hb2 & Hp2 & He2); [lia|done|lia|lia|]. cbn [mbind option_bind].
  rewrite pop_bytes_spec by (done || lia). f_equal. lia.
Qed.

(** ** Searching bits *)

(** The bits of a number of [m] bits, of a byte and of a byte string, the most
    significant first. *)
Definition word_bits (m : nat) (w : Z) : list bool := (fun i => Z.testbit w (Z.of_nat (m - 1 - i))) <$> seq 0 m.
Definition byte_bits (b : Z) : list bool := word_bits 8 b.
Definition string_bits (s : list Z) : list bool := mjoin (byte_bits <$> s).

(** The position of the first bit with a value, counted from [pos]. *)
Fixpoint first_of (bit : bool) (l : list bool) (pos : Z) : option Z :=
  match l with
  | [] => None
  | x :: l => if Bool.eqb x bit then Some pos else first_of bit l (pos + 1)
  end.

Lemma string_bits_app s1 s2 : string_bits (s1 ++ s2) = string_bits s1 ++ string_bits s2.
Proof. unfold string_bits. by rewrite fmap_app, join_app. Qed.

Lemma first_of_skip bit l1 l2 : forall pos, Forall (fun x => x = negb bit) l1 ->
  first_of bit (l1 ++ l2) pos = first_of bit l2 (pos + Z.of_nat (length l1)).
Proof.
  induction l1 as [|x l1 IH]; intros pos Hl; cbn [app length]; [by rewrite Z.add_0_r|]. apply Forall_cons in Hl as [-> Hl].
  cbn [first_of]. rewrite eqb_negb1, IH by done. f_equal. lia.
Qed.

Lemma first_of_app bit l1 l2 pos r : first_of bit l1 pos = Some r -> first_of bit (l1 ++ l2) pos = Some r.
Proof. revert pos. induction l1 as [|x l1 IH]; intros pos; cbn; [done|]. destruct (Bool.eqb x bit); [done|apply IH]. Qed.

Lemma first_of_in bit l pos : bit ∈ l -> is_Some (first_of bit l pos).
Proof.
  revert pos. induction l as [|x l IH]; intros pos Hin; [by apply not_elem_of_nil in Hin|]. cbn [first_of].
  destruct (Bool.eqb x bit) eqn:He; [done|]. apply IH. apply elem_of_cons in Hin as [->|?]; [|done]. by rewrite eqb_reflx in He.
Qed.

(** The byte all of whose bits are not [bit]. *)
Definition skip_byte (bit : bool) : Z := if bit then 0 else 255.

Lemma skip_byte_bits bit : byte_bits (skip_byte bit) = replicate 8 (negb bit).
Proof. by destruct bit. Qed.

Lemma other_byte_bits bit b : is_byte b -> b <> skip_byte bit -> bit ∈ byte_bits b.
Proof.
  intros Hb Hne. assert (forall b, is_byte b -> (b =? skip_byte bit) || existsb (Bool.eqb bit) (byte_bits b) = true) as Hall.
  { apply all_bytes_spec. destruct bit; vm_compute; reflexivity. }
  specialize (Hall b Hb). rewrite (proj2 (Z.eqb_neq _ _) Hne) in Hall. cbn [orb] in Hall.
  apply existsb_exists in Hall as (x & Hin & ->%eqb_prop). by apply list_elem_of_In.
Qed.

Lemma skip_string_bits bit n : string_bits (replicate n (skip_byte bit)) = replicate (8 * n) (negb bit).
Proof.
  induction n as [|n IH]; [done|]. cbn [replicate]. change (string_bits (?a :: ?l)) with (byte_bits a ++ string_bits l).
  rewrite skip_byte_bits, IH, <- replicate_add. f_equal. lia.
Qed.

Lemma first_of_skipped bit n s pos :
  first_of bit (string_bits (replicate n (skip_byte bit) ++ s)) pos = first_of bit (string_bits s) (pos + 8 * Z.of_nat n).
Proof.
  rewrite string_bits_app, skip_string_bits, first_of_skip by (by apply Forall_replicate). rewrite length_replicate. f_equal. lia.
Qed.

(** *** The word *)

Lemma word_bits_split j x : 0 <= x -> word_bits (j + 8) x = word_bits j (x / 256) ++ byte_bits (x mod 256).
Proof.
  intros Hx. unfold byte_bits, word_bits. rewrite seq_app, fmap_app. cbn [Nat.add]. f_equal.
  - apply list_fmap_ext. intros i y Hy. apply lookup_seq in Hy as [-> Hi]. change 256 with (2 ^ 8).
    rewrite Z.div_pow2_bits by lia. f_equal. lia.
  - replace (seq j 8) with (seq (j + 0) 8) by (f_equal; lia). rewrite <- (fmap_add_seq j 0 8), <- list_fmap_compose. apply list_fmap_ext. intros i y Hy. apply lookup_seq in Hy as [-> Hi].
    unfold compose. change 256 with (2 ^ 8). rewrite Z.mod_pow2_bits_low by lia. f_equal. lia.
Qed.

Lemma load_word_bits n : forall j s w, (j + 8 * n <= 64)%nat -> 0 <= w < 2 ^ Z.of_nat j -> Forall is_byte s ->
  word_bits (j + 8 * n) (load_word n s w) = word_bits j w ++ string_bits (take n (s ++ replicate n 0)) /\
  0 <= load_word n s w < 2 ^ Z.of_nat (j + 8 * n).
Proof.
  induction n as [|n IH]; intros j s w Hj Hw Hs.
  { cbn [load_word take]. rewrite Nat.mul_0_r, Nat.add_0_r. unfold string_bits. cbn. by rewrite app_nil_r. }
  assert (forall c, is_byte c -> Z.lor (u64 (Z.shiftl w 8)) c = w * 256 + c) as Hlor.
  { intros c Hc. unfold is_byte in Hc. assert (w * 256 < 2 ^ 64) as Hlt.
    { assert (2 ^ Z.of_nat j * 256 <= 2 ^ 64); [|nia]. change 256 with (2 ^ 8). rewrite <- Z.pow_add_r by lia. apply Z.pow_le_mono_r; lia. }
    rewrite Z.shiftl_mul_pow2 by lia. change (2 ^ 8) with 256. rewrite u64_small by lia.
    rewrite <- Z.lxor_lor; [rewrite <- Z.add_nocarry_lxor|]; [done|..].
    all: change 256 with (2 ^ 8) in *; rewrite <- Z.shiftl_mul_pow2 by lia; apply Z.bits_inj'; intros i Hi; rewrite Z.land_spec, Z.bits_0;
      destruct (Z.ltb_spec i 8); [by rewrite Z.shiftl_spec_low by lia|rewrite andb_false_iff; right];
      destruct (Z.eq_dec c 0) as [->|]; [apply Z.bits_0|apply Z.bits_above_log2; [lia|]];
      assert (Z.log2 c < 8) by (apply Z.log2_lt_pow2; lia); lia. }
  assert (load_word (S n) s w = load_word n (drop 1 s) (w * 256 + nth 0 s 0) /\ is_byte (nth 0 s 0)) as [-> Hc].
  { destruct s as [|c s]; cbn [load_word drop nth]; rewrite ?drop_0.
    - split; [|unfold is_byte; lia]. rewrite <- (Hlor 0) by (unfold is_byte; lia). by rewrite Z.lor_0_r.
    - apply Forall_cons in Hs as [Hc Hs]. by rewrite Hlor. }
  set (c := nth 0 s 0) in *. assert (0 <= w * 256 + c < 2 ^ Z.of_nat (j + 8)) as Hw'.
  { unfold is_byte in Hc. rewrite Nat2Z.inj_add, Z.pow_add_r by lia. change (2 ^ Z.of_nat 8) with 256. nia. }
  destruct (IH (j + 8)%nat (drop 1 s) (w * 256 + c) ltac:(lia) Hw' ltac:(by apply Forall_drop)) as [Hbits Hr].
  replace (j + 8 * S n)%nat with (j + 8 + 8 * n)%nat by lia. split; [|exact Hr]. rewrite Hbits, word_bits_split by lia.
  unfold is_byte in Hc. rewrite Z.div_add_l, Z.div_small, Z.add_0_r, (Z.add_comm _ c), Z.mod_add, (Z.mod_small c) by lia.
  rewrite <- app_assoc. f_equal. destruct s as [|x s]; cbn [drop]; subst c; cbn [nth app replicate take]; [|rewrite drop_0]; [done|].
  change (string_bits (x :: ?l)) with (byte_bits x ++ string_bits l). f_equal. f_equal.
  change (0 :: replicate n 0) with (replicate (S n) 0). rewrite replicate_S_end, app_assoc.
  by rewrite (take_app_le (s ++ replicate n 0) [0] n) by (rewrite length_app, length_replicate; lia).
Qed.

Lemma land_pow2 n w : 0 <= n -> (Z.land (2 ^ n) w =? 0) = negb (Z.testbit w n).
Proof.
  intros Hn. destruct (Z.testbit w n) eqn:Hb; cbn [negb].
  - apply Z.eqb_neq. intros H0. assert (Z.testbit (Z.land (2 ^ n) w) n = true) as Ht by (by rewrite Z.land_spec, Z.pow2_bits_true, Hb by lia).
    by rewrite H0, Z.bits_0 in Ht.
  - apply Z.eqb_eq, Z.bits_inj'. intros i Hi. rewrite Z.land_spec, Z.bits_0, Z.pow2_bits_eqb by lia.
    destruct (Z.eqb_spec n i) as [<-|]; [done|done].
Qed.

Lemma word_bits_S n w : word_bits (S n) w = Z.testbit w (Z.of_nat n) :: word_bits n w.
Proof.
  unfold word_bits. cbn [seq fmap list_fmap]. f_equal; [f_equal; lia|]. rewrite <- fmap_S_seq, <- list_fmap_compose.
  apply list_fmap_ext. intros i y Hy. apply lookup_seq in Hy as [-> Hi]. unfold compose. f_equal. lia.
Qed.

Lemma scan_bits_spec n : forall fuel word bit pos, (n < fuel)%nat ->
  scan_bits fuel (if (n =? 0)%nat then 0 else 2 ^ Z.of_nat (n - 1)) word bit pos = first_of bit (word_bits n word) pos.
Proof.
  induction n as [|n IH]; intros [|fuel] word bit pos Hf; [lia|done|lia|]. cbn [scan_bits Nat.eqb].
  rewrite Nat.sub_succ, Nat.sub_0_r. rewrite (proj2 (Z.eqb_neq _ _)) by (apply Z.pow_nonzero; lia).
  rewrite land_pow2, word_bits_S by lia. rewrite negb_involutive. cbn [first_of]. destruct (Bool.eqb (Z.testbit word (Z.of_nat n)) bit); [done|].
  rewrite <- (IH fuel) by lia. f_equal. destruct n as [|n]; [done|]. cbn [Nat.eqb]. rewrite Nat.sub_succ, Nat.sub_0_r.
  rewrite Z.shiftr_div_pow2 by lia. rewrite Nat2Z.inj_succ, Z.pow_succ_r by lia. rewrite Z.mul_comm, Z.div_mul by lia. done.
Qed.

(** *** Skipping *)

Lemma skip_bytes_spec bit s : forall addr pos, exists k s' found,
  skip_bytes addr (skip_byte bit) s pos = (s', pos + 8 * Z.of_nat k, found) /\ s = replicate k (skip_byte bit) ++ s' /\
  (found = true -> exists c r, s' = c :: r /\ c <> skip_byte bit).
Proof.
  induction s as [|c s IH]; intros addr pos; cbn [skip_bytes].
  { exists 0%nat, [], false. split; [by rewrite Z.add_0_r|done]. }
  destruct (Z.land addr 7 =? 0). { exists 0%nat, (c :: s), false. split; [by rewrite Z.add_0_r|done]. }
  destruct (Z.eqb_spec c (skip_byte bit)) as [->|Hne]; cbn [negb].
  - destruct (IH (addr + 1) (pos + 8)) as (k & s' & found & Hrun & -> & Hf). exists (S k), s', found.
    split; [rewrite Hrun; do 2 f_equal; lia|done].
  - exists 0%nat, (c :: s), true. split; [by rewrite Z.add_0_r|]. split; [done|eauto].
Qed.

Definition skip_word (bit : bool) : Z := if bit then 0 else 2 ^ 64 - 1.

Lemma word_eq_bytes bs v : Forall is_byte bs -> le_val bs = v -> bs = le_bytes (length bs) v.
Proof. intros Hb <-. symmetry. by apply le_bytes_val. Qed.

Lemma skip_word_bytes `{Host} bit bs : length bs = 8%nat -> Forall is_byte bs ->
  host_load bs = skip_word bit <-> bs = replicate 8 (skip_byte bit).
Proof.
  intros Hl Hb. assert (le_bytes 8 (skip_word bit) = replicate 8 (skip_byte bit)) as Hle by (by destruct bit).
  assert (forall l, length l = 8%nat -> Forall is_byte l -> le_val l = skip_word bit <-> l = replicate 8 (skip_byte bit)) as Heq.
  { intros l Hll Hlb. split; [|intros ->; by destruct bit]. intros Hv. apply word_eq_bytes in Hv; [|done]. by rewrite Hll, Hle in Hv. }
  unfold host_load. destruct big_endian; [|by apply Heq]. rewrite Heq by (by rewrite ?length_reverse || by apply Forall_reverse).
  split; intros Hr; [rewrite <- (reverse_involutive bs), Hr|rewrite Hr]; by destruct bit.
Qed.

(** The bytes after the skipped ones: fewer than a word, or not all skippable. *)
Definition stops (bit : bool) (s : list Z) : Prop :=
  (length s < 8)%nat \/ exists b, b ∈ take 8 s /\ b <> skip_byte bit.

Lemma not_all_skip bit l : l <> replicate (length l) (skip_byte bit) -> exists b, b ∈ l /\ b <> skip_byte bit.
Proof.
  induction l as [|b l IH]; [done|]. cbn [length replicate]. intros Hne. destruct (decide (b = skip_byte bit)) as [->|Hb].
  - destruct IH as (x & Hx & Hxn); [congruence|]. exists x. split; [by right|done].
  - exists b. split; [by left|done].
Qed.

Lemma skip_words_spec `{Host} bit fuel : forall s pos, (length s < fuel)%nat -> Forall is_byte s ->
  exists k s', skip_words fuel (skip_word bit) s pos = Some (s', pos + 8 * Z.of_nat k) /\ s = replicate k (skip_byte bit) ++ s' /\ stops bit s'.
Proof.
  induction fuel as [|fuel IH]; intros s pos Hf Hb; [lia|]. cbn [skip_words]. destruct (Nat.leb_spec 8 (length s)) as [Hl|Hl].
  - assert (length (take 8 s) = 8%nat) as Hl8 by (rewrite length_take; lia).
    destruct (Z.eqb_spec (host_load (take 8 s)) (skip_word bit)) as [Heq|Hne]; cbn [negb].
    + apply skip_word_bytes in Heq; [|done|by apply Forall_take].
      destruct (IH (drop 8 s) (pos + 64)) as (k & s' & Hrun & Hs & Hst); [rewrite length_drop; lia|by apply Forall_drop|].
      exists (8 + k)%nat, s'. split; [rewrite Hrun; do 2 f_equal; lia|]. split; [|done].
      rewrite replicate_add, <- app_assoc, <- Hs, <- Heq. by rewrite take_drop.
    + exists 0%nat, s. split; [by rewrite Z.add_0_r|]. split; [done|]. right. apply not_all_skip. rewrite Hl8. intros Heq. apply Hne.
      by apply skip_word_bytes; [|apply Forall_take|].
  - exists 0%nat, s. split; [by rewrite Z.add_0_r|]. split; [done|by left].
Qed.

(** ** redisBitpos *)

Definition bitpos_ref (s : list Z) (bit : bool) : Z :=
  match first_of bit (string_bits s) 0 with
  | Some i => i
  | None => if bit then -1 else 8 * Z.of_nat (length s)
  end.

Lemma bits_zero n w : 0 <= w < 2 ^ Z.of_nat n -> true ∈ word_bits n w -> w <> 0.
Proof.
  intros Hw Hin ->. apply list_elem_of_fmap in Hin as (i & Hi & _). by rewrite Z.bits_0 in Hi.
Qed.

(** Scanning the word loaded from the bytes where the search stopped. *)
Lemma bitpos_found bit k s' b :
  Forall is_byte s' -> b ∈ take 8 s' -> b <> skip_byte bit ->
  exists r, first_of bit (string_bits s') (8 * Z.of_nat k) = Some r /\
    first_of bit (string_bits (take 8 (s' ++ replicate 8 0))) (8 * Z.of_nat k) = Some r /\
    bit ∈ string_bits (take 8 (s' ++ replicate 8 0)).
Proof.
  intros Hb Hin Hne. assert (bit ∈ string_bits (take 8 s')) as Hbit.
  { unfold string_bits. apply list_elem_of_join. exists (byte_bits b). split; [|apply list_elem_of_fmap; eauto].
    apply other_byte_bits; [|done]. rewrite Forall_forall in Hb. apply Hb. rewrite <- (take_drop 8 s'). apply elem_of_app. by left. }
  destruct (first_of_in bit _ (8 * Z.of_nat k) Hbit) as (r & Hfirst). exists r.
  rewrite take_app, string_bits_app, (first_of_app _ _ _ _ _ Hfirst).
  rewrite <- (take_drop 8 s') at 1. rewrite string_bits_app, (first_of_app _ _ _ _ _ Hfirst).
  split_and!; [done|done|apply elem_of_app; by left].
Qed.

Lemma skip_only bit m pos : (m < 8)%nat ->
  first_of bit (string_bits (take 8 (replicate m (skip_byte bit) ++ replicate 8 0))) pos =
    if bit then None else Some (pos + 8 * Z.of_nat m).
Proof.
  intros Hm. rewrite take_app, length_replicate, (take_ge (replicate m _)) by (rewrite length_replicate; lia).
  rewrite first_of_skipped, take_replicate. replace (Nat.min (8 - m) 8) with (S (7 - m)) by lia. destruct bit; [|by cbn].
  change 0 with (skip_byte true) at 1. rewrite <- (app_nil_r (replicate _ _)), first_of_skipped. done.
Qed.

Lemma load_word_zero n m : load_word n (replicate m 0) 0 = 0.
Proof. revert m. induction n as [|n IH]; intros [|m]; cbn; [done|done|apply (IH 0%nat)|apply IH]. Qed.

Lemma bitpos_tail bit k s' :
  Forall is_byte s' -> stops bit s' ->
  (let word := load_word 8 s' 0 in
   if bit && (word =? 0) then Some (-1) else scan_bits 65 (2 ^ 63) word bit (8 * Z.of_nat k)) =
  Some (bitpos_ref (replicate k (skip_byte bit) ++ s') bit).
Proof.
  intros Hb Hst. cbv zeta. destruct (load_word_bits 8 0 s' 0 ltac:(lia) ltac:(cbn; lia) Hb) as [Hbits Hr]. cbn [Nat.add Nat.mul app] in Hbits, Hr.
  change (2 ^ 63) with (if (64 =? 0)%nat then 0 else 2 ^ Z.of_nat (64 - 1)). rewrite scan_bits_spec by lia.
  change (word_bits 0 0 ++ ?l) with l in Hbits. rewrite Hbits.
  unfold bitpos_ref. rewrite first_of_skipped, Z.add_0_l.
  destruct (decide (take 8 s' = replicate (length (take 8 s')) (skip_byte bit))) as [Hall|(b & Hin & Hne)%not_all_skip].
  - destruct Hst as [Hl|(b & Hin & Hne)]; [|rewrite Hall in Hin; by apply elem_of_replicate in Hin as [? _]].
    rewrite (take_ge s') in Hall by lia. revert Hall Hl. generalize (length s') as m. intros m -> Hl.
    rewrite skip_only by done.
    rewrite <- (app_nil_r (replicate m _)) at 2. rewrite first_of_skipped. cbn [string_bits fmap list_fmap mjoin list_join first_of].
    destruct bit; cbn [andb]; [by rewrite load_word_zero|]. do 2 f_equal. rewrite length_app, !length_replicate. lia.
  - destruct (bitpos_found bit k s' b Hb Hin Hne) as (r & -> & -> & Hbit).
    assert (bit && (load_word 8 s' 0 =? 0) = false) as ->; [|done].
    destruct bit; [|done]. cbn [andb]. apply Z.eqb_neq, (bits_zero 64); [done|]. by rewrite Hbits.
Qed.

Lemma redisBitpos_spec `{Host} addr s bit : Forall is_byte s -> redisBitpos addr s bit = Some (bitpos_ref s bit).
Proof.
  intros Hb. unfold redisBitpos. change (if bit then 0 else 255) with (skip_byte bit). change (if bit then 0 else 2 ^ 64 - 1) with (skip_word bit).
  destruct (skip_bytes_spec bit s addr 0) as (k & s1 & found & -> & -> & Hf). apply Forall_app in Hb as [_ Hb]. rewrite Z.add_0_l.
  destruct found.
  - cbn [mbind option_bind]. apply bitpos_tail; [done|]. destruct (Hf eq_refl) as (c & r & -> & Hc). right. exists c. split; [by left|done].
  - destruct (skip_words_spec bit (S (length s1)) s1 (8 * Z.of_nat k)) as (k2 & s2 & -> & -> & Hst); [lia|done|]. cbn [mbind option_bind].
    apply Forall_app in Hb as [_ Hb]. rewrite app_assoc, <- replicate_add.
    replace (8 * Z.of_nat k + 8 * Z.of_nat k2) with (8 * Z.of_nat (k + k2)) by lia. by apply bitpos_tail.
Qed.

(** ** Bit fields *)

Lemma length_word_bits n w : length (word_bits n w) = n.
Proof. unfold word_bits. by rewrite length_fmap, length_seq. Qed.

Lemma length_string_bits p : length (string_bits p) = (8 * length p)%nat.
Proof.
  induction p as [|b p IH]; [done|]. change (string_bits (b :: p)) with (byte_bits b ++ string_bits p).
  rewrite length_app, IH. unfold byte_bits. rewrite length_word_bits. cbn [length]. lia.
Qed.

Lemma word_bits_lookup n w i : (i < n)%nat -> word_bits n w !! i = Some (Z.testbit w (Z.of_nat (n - 1 - i))).
Proof. intros Hi. unfold word_bits. rewrite list_lookup_fmap, lookup_seq_lt by done. done. Qed.

(** The byte and the bit of an offset, as the code computes them. *)
Lemma offset_split o : 0 <= o ->
  Z.to_nat (Z.shiftr o 3) = (Z.to_nat o / 8)%nat /\ 7 - Z.land o 7 = Z.of_nat (8 - 1 - Z.to_nat o mod 8).
Proof.
  intros Ho. rewrite Z.shiftr_div_pow2 by lia. change 7 with (Z.ones 3) at 2. rewrite Z.land_ones by lia. change (2 ^ 3) with 8.
  split; [rewrite Z2Nat.inj_div by lia; done|].
  assert (o mod 8 = Z.of_nat (Z.to_nat o mod 8)) as -> by (rewrite Nat2Z.inj_mod, Z2Nat.id by lia; done).
  pose proof (Nat.mod_upper_bound (Z.to_nat o) 8). lia.
Qed.

Lemma string_bits_at p1 b p2 j : (j < 8)%nat -> string_bits (p1 ++ b :: p2) !! (8 * length p1 + j)%nat = Some (Z.testbit b (Z.of_nat (8 - 1 - j))).
Proof.
  intros Hj. rewrite string_bits_app, lookup_app_r by (rewrite length_string_bits; lia). rewrite length_string_bits.
  replace (8 * length p1 + j - 8 * length p1)%nat with j by lia. change (string_bits (b :: p2)) with (byte_bits b ++ string_bits p2).
  rewrite lookup_app_l by (unfold byte_bits; by rewrite length_word_bits). by apply word_bits_lookup.
Qed.

Definition put_bit (b : Z) (bit : Z) (v : bool) : Z :=
  Z.land (Z.lor (Z.land b (Z.lnot (Z.shiftl 1 bit))) (Z.shiftl (Z.b2z v) bit)) 255.

Lemma put_bit_bits b j v : is_byte b -> (j < 8)%nat ->
  byte_bits (put_bit b (Z.of_nat (8 - 1 - j)) v) = <[j := v]> (byte_bits b) /\ is_byte (put_bit b (Z.of_nat (8 - 1 - j)) v).
Proof.
  intros Hb Hj. assert (forall b, is_byte b -> forallb (fun j => forallb (fun v =>
    bool_decide (byte_bits (put_bit b (Z.of_nat (8 - 1 - j)) v) = <[j := v]> (byte_bits b)) &&
    (0 <=? put_bit b (Z.of_nat (8 - 1 - j)) v) && (put_bit b (Z.of_nat (8 - 1 - j)) v <? 256)) [true; false]) (seq 0 8) = true) as Hall.
  { apply all_bytes_spec. vm_compute. reflexivity. }
  specialize (Hall b Hb). rewrite forallb_forall in Hall. specialize (Hall j ltac:(apply list_elem_of_In, elem_of_seq; lia)).
  rewrite forallb_forall in Hall. specialize (Hall v ltac:(destruct v; cbn; auto)). breflect. split; [done|]. unfold is_byte. lia.
Qed.

Lemma string_bits_put p1 b p2 j b' v : (j < 8)%nat -> byte_bits b' = <[j := v]> (byte_bits b) ->
  string_bits (p1 ++ b' :: p2) = <[(8 * length p1 + j)%nat := v]> (string_bits (p1 ++ b :: p2)).
Proof.
  intros Hj Hb. rewrite !string_bits_app. rewrite insert_app_r_alt by (rewrite length_string_bits; lia). rewrite length_string_bits.
  replace (8 * length p1 + j - 8 * length p1)%nat with j by lia. change (string_bits (?x :: p2)) with (byte_bits x ++ string_bits p2).
  rewrite insert_app_l by (unfold byte_bits; by rewrite length_word_bits). by rewrite Hb.
Qed.

(** Access to one bit of the string. *)
Lemma bit_split (p : list Z) o : 0 <= o < 8 * Z.of_nat (length p) -> exists p1 b p2, p = p1 ++ b :: p2 /\ length p1 = (Z.to_nat o / 8)%nat /\
  Z.to_nat o = (8 * length p1 + Z.to_nat o mod 8)%nat /\ (Z.to_nat o mod 8 < 8)%nat.
Proof.
  intros Ho. pose proof (Nat.div_mod (Z.to_nat o) 8 ltac:(lia)) as Hd. pose proof (Nat.mod_upper_bound (Z.to_nat o) 8 ltac:(lia)) as Hm.
  destruct (lookup_lt_is_Some_2 p (Z.to_nat o / 8)) as (b & Hb); [lia|].
  exists (take (Z.to_nat o / 8) p), b, (drop (S (Z.to_nat o / 8)) p).
  rewrite length_take_le by (apply lookup_lt_Some in Hb; lia). split_and!; [by rewrite take_drop_middle|done|lia|done].
Qed.

Lemma land_shiftl_bit v n : (Z.land v (Z.shiftl 1 (Z.of_nat n)) =? 0) = negb (Z.testbit v (Z.of_nat n)).
Proof. rewrite Z.shiftl_mul_pow2, Z.mul_1_l, Z.land_comm by lia. apply land_pow2. lia. Qed.

Lemma set_loop_spec n : forall p o v, Forall is_byte p -> 0 <= o -> o + Z.of_nat n <= 8 * Z.of_nat (length p) -> 8 * Z.of_nat (length p) < 2 ^ 64 ->
  exists p', set_loop n p o v = Some p' /\ length p' = length p /\ Forall is_byte p' /\
    string_bits p' = take (Z.to_nat o) (string_bits p) ++ word_bits n v ++ drop (Z.to_nat o + n) (string_bits p).
Proof.
  induction n as [|n IH]; intros p o v Hb Ho Hn Hp; cbn [set_loop].
  { exists p. split_and!; [done|done|done|]. rewrite Nat.add_0_r. cbn [word_bits seq fmap list_fmap app]. by rewrite take_drop. }
  destruct (offset_split o Ho) as [-> ->]. destruct (bit_split p o ltac:(lia)) as (p1 & b & p2 & -> & Hl1 & Ho1 & Hj).
  set (j := (Z.to_nat o mod 8)%nat) in *. rewrite <- Hl1, list_lookup_middle by done. cbn [mbind option_bind].
  rewrite insert_app_r_alt, Nat.sub_diag by lia. cbn [insert list_insert]. rewrite land_shiftl_bit.
  assert ((if negb (Z.testbit v (Z.of_nat n)) then 0 else 1) = Z.b2z (Z.testbit v (Z.of_nat n))) as -> by (by destruct (Z.testbit v (Z.of_nat n))).
  set (b' := put_bit b (Z.of_nat (8 - 1 - j)) (Z.testbit v (Z.of_nat n))).
  change (Z.land (Z.lor _ _) 255) with b'. apply Forall_app in Hb as [Hb1 Hb]. apply Forall_cons in Hb as [Hbb Hb2].
  destruct (put_bit_bits b j (Z.testbit v (Z.of_nat n)) Hbb Hj) as [Hbits Hbyte]. fold b' in Hbits, Hbyte.
  pose proof (string_bits_put p1 b p2 j b' _ Hj Hbits) as Hput. rewrite <- Ho1 in Hput.
  assert (length (p1 ++ b' :: p2) = length (p1 ++ b :: p2)) as Hlen by (by rewrite !length_app).
  rewrite u64_small by lia.
  destruct (IH (p1 ++ b' :: p2) (o + 1) v) as (p' & Hrun & Hl' & Hb' & Hs'); [by apply Forall_app; split; [|constructor]|lia|lia|lia|].
  exists p'. split_and!; [done|congruence|done|]. rewrite Hs', Hput, word_bits_S.
  replace (Z.to_nat (o + 1)) with (S (Z.to_nat o)) by lia.
  rewrite drop_insert_lt by lia. rewrite (take_S_r _ _ (Z.testbit v (Z.of_nat n))) by (apply list_lookup_insert_eq; rewrite length_string_bits; lia).
  rewrite take_insert_ge by lia.
  rewrite <- app_assoc. cbn [app]. do 4 f_equal. lia.
Qed.

(** A number is determined by its bits. *)
Lemma word_bits_mod n x y : word_bits n x = word_bits n y -> x mod 2 ^ Z.of_nat n = y mod 2 ^ Z.of_nat n.
Proof.
  intros Heq. apply Z.bits_inj'. intros i Hi. destruct (Z.ltb_spec i (Z.of_nat n)).
  - rewrite !Z.mod_pow2_bits_low by lia. pose proof (f_equal (fun l => l !! (n - 1 - Z.to_nat i)%nat) Heq) as Hl. cbn beta in Hl.
    rewrite !word_bits_lookup in Hl by lia. injection Hl as Hl. by replace (Z.of_nat (n - 1 - (n - 1 - Z.to_nat i))) with i in Hl by lia.
  - rewrite !Z.mod_pow2_bits_high by lia. done.
Qed.

Lemma word_bits_low n a r : word_bits n (a * 2 ^ Z.of_nat n + r) = word_bits n r.
Proof.
  unfold word_bits. apply list_fmap_ext. intros i y Hy. apply lookup_seq in Hy as [-> Hi].
  rewrite <- (Z.mod_pow2_bits_low _ (Z.of_nat n)) by lia. rewrite Z.add_comm, Z.mod_add by (apply Z.pow_nonzero; lia).
  by rewrite Z.mod_pow2_bits_low by lia.
Qed.

Lemma get_loop_spec n : forall p o v, Forall is_byte p -> 0 <= o -> o + Z.of_nat n <= 8 * Z.of_nat (length p) -> 8 * Z.of_nat (length p) < 2 ^ 64 ->
  0 <= v < 2 ^ (64 - Z.of_nat n) -> (n <= 64)%nat ->
  exists r, get_loop n p o v = Some (v * 2 ^ Z.of_nat n + r) /\ 0 <= r < 2 ^ Z.of_nat n /\
    word_bits n r = take n (drop (Z.to_nat o) (string_bits p)).
Proof.
  induction n as [|n IH]; intros p o v Hb Ho Hn Hp Hv Hn64; cbn [get_loop].
  { exists 0. split; [f_equal; lia|]. split; [lia|done]. }
  destruct (offset_split o Ho) as [-> ->]. destruct (bit_split p o ltac:(lia)) as (p1 & b & p2 & Hpp & Hl1 & Ho1 & Hj).
  set (j := (Z.to_nat o mod 8)%nat) in *. rewrite <- Hl1.
  assert (p !! length p1 = Some b) as -> by (rewrite Hpp; by apply list_lookup_middle). cbn [mbind option_bind].
  pose proof (string_bits_at p1 b p2 j Hj) as Hat. rewrite <- Hpp, <- Ho1 in Hat.
  assert (Z.land (Z.shiftr b (Z.of_nat (8 - 1 - j))) 1 = Z.b2z (Z.testbit b (Z.of_nat (8 - 1 - j)))) as ->.
  { rewrite Z.testbit_spec' by lia. rewrite <- Z.shiftr_div_pow2 by lia. apply (Z.land_ones _ 1). lia. }
  set (x := Z.testbit b (Z.of_nat (8 - 1 - j))) in *.
  assert (2 ^ (64 - Z.of_nat n) = 2 * 2 ^ (64 - Z.of_nat (S n))) as Hpow by (rewrite <- Z.pow_succ_r by lia; f_equal; lia).
  assert (2 ^ (64 - Z.of_nat n) <= 2 ^ 64) as Hpow64 by (apply Z.pow_le_mono_r; lia).
  assert (Z.lor (u64 (Z.shiftl v 1)) (Z.b2z x) = 2 * v + Z.b2z x) as ->.
  { rewrite Z.shiftl_mul_pow2, u64_small by lia. change (v * 2 ^ 1) with (v * 2). rewrite (Z.mul_comm v 2). destruct x; cbn [Z.b2z]; [|by rewrite Z.lor_0_r, Z.add_0_r].
    apply Z.bits_inj'. intros i Hi. rewrite Z.lor_spec. destruct (Z.eq_dec i 0) as [->|Hne].
    - by rewrite Z.testbit_even_0, Z.testbit_odd_0.
    - replace i with (Z.succ (Z.pred i)) by lia. rewrite Z.testbit_even_succ, Z.testbit_odd_succ by lia.
      rewrite (Z.bits_above_log2 1) by (cbn; lia). apply orb_false_r. }
  rewrite u64_small by lia.
  assert (0 <= Z.b2z x <= 1) as Hx by (destruct x; cbn; lia).
  destruct (IH p (o + 1) (2 * v + Z.b2z x) Hb) as (r & Hrun & Hr & Hbits); [lia|lia|lia|lia|lia|].
  assert (2 ^ Z.of_nat (S n) = 2 * 2 ^ Z.of_nat n) as HpS by (rewrite Nat2Z.inj_succ, Z.pow_succ_r by lia; done).
  exists (Z.b2z x * 2 ^ Z.of_nat n + r). rewrite HpS. split; [rewrite Hrun; f_equal; lia|]. split; [nia|].
  rewrite (drop_S _ _ _ Hat). cbn [take]. rewrite word_bits_S. f_equal.
  - rewrite <- (Z.add_0_l (Z.of_nat n)), <- Z.div_pow2_bits by lia. rewrite Z.add_0_l.
    rewrite Z.div_add_l, (Z.div_small r), Z.add_0_r by lia. by destruct x.
  - rewrite word_bits_low. replace (S (Z.to_nat o)) with (Z.to_nat (o + 1)) by lia. exact Hbits.
Qed.

(** The bits of a field. *)
Definition field_bits (p : list Z) (o n : Z) : list bool := take (Z.to_nat n) (drop (Z.to_nat o) (string_bits p)).
Definition with_field (p : list Z) (o n v : Z) : list bool :=
  take (Z.to_nat o) (string_bits p) ++ word_bits (Z.to_nat n) v ++ drop (Z.to_nat (o + n)) (string_bits p).

Record field_ok (p : list Z) (o n : Z) : Prop := {
  fo_bytes : Forall is_byte p; fo_offset : 0 <= o; fo_size : 1 <= n <= 64;
  fo_room : o + n <= 8 * Z.of_nat (length p); fo_len : 8 * Z.of_nat (length p) < 2 ^ 64 }.

Lemma getUnsigned_spec p o n : field_ok p o n ->
  exists r, getUnsignedBitfield p o n = Some r /\ 0 <= r < 2 ^ n /\ word_bits (Z.to_nat n) r = field_bits p o n.
Proof.
  intros [Hb Ho Hn Hr Hl]. unfold getUnsignedBitfield.
  destruct (get_loop_spec (Z.to_nat n) p o 0 Hb Ho ltac:(lia) Hl) as (r & Hrun & Hrange & Hbits); [split; [lia|apply Z.pow_pos_nonneg; lia]|lia|].
  rewrite Z2Nat.id in Hrange by lia. exists r. by rewrite Hrun.
Qed.

Lemma set_get p o n v : field_ok p o n ->
  exists p', setUnsignedBitfield p o n v = Some p' /\ field_ok p' o n /\ length p' = length p /\ string_bits p' = with_field p o n v /\
    getUnsignedBitfield p' o n = Some (v mod 2 ^ n).
Proof.
  intros Hf. pose proof Hf as [Hb Ho Hn Hr Hl]. unfold setUnsignedBitfield.
  destruct (set_loop_spec (Z.to_nat n) p o v Hb Ho ltac:(lia) Hl) as (p' & Hrun & Hlen & Hb' & Hs).
  exists p'. replace (Z.to_nat o + Z.to_nat n)%nat with (Z.to_nat (o + n)) in Hs by lia.
  assert (field_ok p' o n) as Hf' by (split; try done; lia). split_and!; try done.
  destruct (getUnsigned_spec p' o n Hf') as (r & -> & Hrange & Hbits). f_equal.
  assert (word_bits (Z.to_nat n) r = word_bits (Z.to_nat n) v) as Heq.
  { rewrite Hbits. unfold field_bits. rewrite Hs, drop_app_length', take_app_length'; [done|by rewrite length_word_bits|].
    rewrite length_take, length_string_bits. lia. }
  apply word_bits_mod in Heq. rewrite Z2Nat.id in Heq by lia. by rewrite (Z.mod_small r) in Heq by lia.
Qed.

(** *** Signed fields *)

Definition signed_of (n r : Z) : Z := if r <? 2 ^ (n - 1) then r else r - 2 ^ n.

Lemma shl64_ok x n : 0 <= n < 64 -> shl64 x n = Some (u64 (x * 2 ^ n)).
Proof. intros Hn. unfold shl64. rewrite (proj2 (andb_true_iff _ _)) by (split; lia). by rewrite Z.shiftl_mul_pow2 by lia. Qed.

Lemma shl64_one n : 0 <= n < 64 -> shl64 1 n = Some (2 ^ n).
Proof.
  intros Hn. rewrite shl64_ok by done. rewrite Z.mul_1_l, u64_small; [done|]. split; [apply Z.pow_nonneg; lia|apply Z.pow_lt_mono_r; lia].
Qed.

(** The mask of the bits from [n] on. *)
Lemma high_mask n : 0 <= n < 64 -> shl64 (2 ^ 64 - 1) n = Some (2 ^ 64 - 2 ^ n).
Proof.
  intros Hn. rewrite shl64_ok by done. f_equal. unfold u64. assert (2 ^ n < 2 ^ 64) by (apply Z.pow_lt_mono_r; lia).
  assert (0 < 2 ^ n) by (apply Z.pow_pos_nonneg; lia).
  replace ((2 ^ 64 - 1) * 2 ^ n) with (2 ^ 64 - 2 ^ n + (2 ^ n - 1) * 2 ^ 64) by lia. rewrite Z.mod_add, Z.mod_small by lia. done.
Qed.

Lemma lor_high n r : 0 <= n < 64 -> 0 <= r < 2 ^ n -> Z.lor r (2 ^ 64 - 2 ^ n) = r + (2 ^ 64 - 2 ^ n).
Proof.
  intros Hn Hr. assert (2 ^ 64 - 2 ^ n = Z.shiftl (2 ^ (64 - n) - 1) n) as ->.
  { rewrite Z.shiftl_mul_pow2, Z.mul_sub_distr_r, <- Z.pow_add_r by lia. replace (64 - n + n) with 64 by lia. lia. }
  assert (Z.land r (Z.shiftl (2 ^ (64 - n) - 1) n) = 0) as Hdis.
  { apply Z.bits_inj'. intros i Hi. rewrite Z.land_spec, Z.bits_0. destruct (Z.ltb_spec i n).
    - by rewrite Z.shiftl_spec_low, andb_false_r by lia.
    - rewrite <- (Z.mod_small r (2 ^ n)) by lia. by rewrite Z.mod_pow2_bits_high by lia. }
  rewrite <- Z.lxor_lor by done. symmetry. by apply Z.add_nocarry_lxor.
Qed.

Lemma testbit_top n r : 1 <= n -> 0 <= r < 2 ^ n -> Z.testbit r (n - 1) = negb (r <? 2 ^ (n - 1)).
Proof.
  intros Hn Hr. rewrite (pow2_half n) in Hr by lia. assert (0 < 2 ^ (n - 1)) by (apply Z.pow_pos_nonneg; lia).
  rewrite <- (Z.add_0_l (n - 1)), <- Z.div_pow2_bits, Z.add_0_l by lia. destruct (Z.ltb_spec r (2 ^ (n - 1))).
  - by rewrite Z.div_small by lia.
  - replace (r / 2 ^ (n - 1)) with 1; [done|]. apply (Z.div_unique r (2 ^ (n - 1)) 1 (r - 2 ^ (n - 1))); lia.
Qed.

Lemma sign_extend n r : 1 <= n <= 63 -> 2 ^ (n - 1) <= r < 2 ^ n -> s64 (Z.lor r (2 ^ 64 - 2 ^ n)) = r - 2 ^ n.
Proof.
  intros Hn Hr. assert (2 ^ n <= 2 ^ 63) by (apply Z.pow_le_mono_r; lia). assert (0 < 2 ^ (n - 1)) by (apply Z.pow_pos_nonneg; lia).
  rewrite lor_high by lia. rewrite (pow2_half n) in * by lia. unfold s64, sN. change (2 ^ (8 * Z.of_nat 8)) with (2 ^ 64). cbv zeta.
  rewrite Z.mod_small by lia. rewrite (proj2 (Z.ltb_ge _ _)) by (change (2 ^ 64 / 2) with (2 ^ 63); lia). lia.
Qed.

Lemma getSigned_spec p o n : field_ok p o n -> n < 64 ->
  exists r, getUnsignedBitfield p o n = Some r /\ getSignedBitfield p o n = Some (signed_of n r).
Proof.
  intros Hf Hn64. pose proof Hf as [_ _ Hn _ _]. destruct (getUnsigned_spec p o n Hf) as (r & Hget & Hr & _). exists r. split; [done|].
  unfold getSignedBitfield. rewrite Hget. cbn [mbind option_bind]. rewrite shl64_one by lia. cbn [mbind option_bind].
  rewrite Z.land_comm, land_pow2, negb_involutive, testbit_top by lia. unfold signed_of.
  assert (2 ^ n <= 2 ^ 63) by (apply Z.pow_le_mono_r; lia).
  destruct (r <? 2 ^ (n - 1)) eqn:Hlt; cbn [negb]; [by rewrite s64_small by lia|]. rewrite high_mask by lia. cbn [mbind option_bind]. f_equal.
  apply sign_extend; [lia|]. breflect. lia.
Qed.

Lemma signed_of_mod n v : 1 <= n -> - 2 ^ (n - 1) <= v < 2 ^ (n - 1) -> signed_of n (v mod 2 ^ n) = v.
Proof.
  intros Hn Hv. unfold signed_of. assert (0 < 2 ^ (n - 1)) by (apply Z.pow_pos_nonneg; lia). rewrite (pow2_half n) by lia.
  set (h := 2 ^ (n - 1)) in *. destruct (Z.ltb_spec v 0).
  - replace (v mod (h * 2)) with (v + h * 2) by (symmetry; rewrite <- (Z.mod_add v 1), Z.mul_1_l by lia; apply Z.mod_small; lia).
    rewrite (proj2 (Z.ltb_ge _ _)) by lia. lia.
  - rewrite Z.mod_small by lia. by rewrite (proj2 (Z.ltb_lt _ _)) by lia.
Qed.

(** ** Overflow *)

(** What the checks should answer for a result [r] and a field with values from
    [lo] to [hi]; [wrapped] is [r] reduced to the field. *)
Definition overflow_ref (r lo hi wrapped : Z) (owtype : bfoverflow) : Z * option Z :=
  if hi <? r then
    match owtype with BFOVERFLOW_WRAP => (1, Some wrapped) | BFOVERFLOW_SAT => (1, Some hi) | BFOVERFLOW_FAIL => (1, None) end
  else if r <? lo then
    match owtype with BFOVERFLOW_WRAP => (1, Some wrapped) | BFOVERFLOW_SAT => (-1, Some lo) | BFOVERFLOW_FAIL => (-1, None) end
  else (0, None).

Lemma low_mask n : 0 <= n < 64 -> u64 (Z.lnot (2 ^ 64 - 2 ^ n)) = Z.ones n.
Proof.
  intros Hn. assert (2 ^ n < 2 ^ 64) by (apply Z.pow_lt_mono_r; lia). assert (0 < 2 ^ n) by (apply Z.pow_pos_nonneg; lia).
  unfold Z.lnot, u64. rewrite Z.ones_equiv. replace (Z.pred (- (2 ^ 64 - 2 ^ n))) with (Z.pred (2 ^ n) + (-1) * 2 ^ 64) by lia.
  rewrite Z.mod_add, Z.mod_small by lia. done.
Qed.

Lemma u64_mod_pow x n : 0 <= n <= 64 -> u64 x mod 2 ^ n = x mod 2 ^ n.
Proof.
  intros Hn. unfold u64. replace (2 ^ 64) with (2 ^ n * 2 ^ (64 - n)) by (rewrite <- Z.pow_add_r by lia; f_equal; lia).
  assert (0 < 2 ^ n) by (apply Z.pow_pos_nonneg; lia). assert (0 < 2 ^ (64 - n)) by (apply Z.pow_pos_nonneg; lia).
  rewrite Z.rem_mul_r, (Z.mul_comm (2 ^ n)), Z.mod_add by lia. apply Z.mod_mod. lia.
Qed.

Lemma checkUnsigned_spec value incr bits owtype :
  1 <= bits <= 63 -> 0 <= value < 2 ^ 64 -> - 2 ^ 63 <= incr < 2 ^ 63 -> value < 2 ^ bits \/ incr = 0 ->
  checkUnsignedBitfieldOverflow value incr bits owtype =
    Some (overflow_ref (value + incr) 0 (2 ^ bits - 1) ((value + incr) mod 2 ^ bits) owtype).
Proof.
  intros Hb Hv Hi Hor. unfold checkUnsignedBitfieldOverflow, overflow_ref. rewrite (proj2 (Z.eqb_neq bits 64)) by lia.
  rewrite shl64_one by lia. cbn [fmap option_fmap option_map mbind option_bind].
  assert (2 ^ bits <= 2 ^ 63) by (apply Z.pow_le_mono_r; lia). assert (1 < 2 ^ bits) by (apply Z.pow_gt_1; lia).
  rewrite (u64_small (2 ^ bits - 1)) by lia. rewrite (high_mask bits) by lia. cbn [mbind option_bind].
  rewrite low_mask, Z.land_ones, u64_mod_pow by lia. rewrite !Z.gtb_ltb.
  destruct (Z.ltb_spec (2 ^ bits - 1) value) as [Hover|Hin]; cbn [orb].
  - rewrite (proj2 (Z.ltb_lt (2 ^ bits - 1) (value + incr))) by lia. by destruct owtype.
  - rewrite (u64_small (2 ^ bits - 1 - value)), s64_small by lia.
    assert (s64 (u64 (- value)) = - value) as ->.
    { unfold s64, u64. change (2 ^ 64) with (2 ^ (8 * Z.of_nat 8)). apply sN_mod; [lia|]. cbn. lia. }
    replace ((0 <? incr) && (2 ^ bits - 1 - value <? incr)) with (2 ^ bits - 1 <? value + incr).
    2: { destruct (Z.ltb_spec (2 ^ bits - 1) (value + incr)), (Z.ltb_spec 0 incr), (Z.ltb_spec (2 ^ bits - 1 - value) incr); cbn; lia. }
    replace ((incr <? 0) && (incr <? - value)) with (value + incr <? 0).
    2: { destruct (Z.ltb_spec (value + incr) 0), (Z.ltb_spec incr 0), (Z.ltb_spec incr (- value)); cbn; lia. }
    destruct (2 ^ bits - 1 <? value + incr); [by destruct owtype|]. destruct (value + incr <? 0); by destruct owtype.
Qed.

(** The sign extension of a wrapped sum. *)
Lemma wrap_signed x bits : 1 <= bits <= 63 ->
  s64 (if negb (Z.land (u64 x) (2 ^ (bits - 1)) =? 0) then Z.lor (u64 x) (2 ^ 64 - 2 ^ bits)
       else Z.land (u64 x) (u64 (Z.lnot (2 ^ 64 - 2 ^ bits)))) = signed_of bits (x mod 2 ^ bits).
Proof.
  intros Hb. assert (0 < 2 ^ bits) by (apply Z.pow_pos_nonneg; lia). assert (2 ^ bits <= 2 ^ 63) by (apply Z.pow_le_mono_r; lia).
  rewrite low_mask, Z.land_ones, u64_mod_pow by lia. pose proof (Z.mod_pos_bound x (2 ^ bits) ltac:(lia)) as Hr.
  rewrite Z.land_comm, land_pow2, negb_involutive by lia.
  assert (Z.testbit (u64 x) (bits - 1) = Z.testbit (x mod 2 ^ bits) (bits - 1)) as ->.
  { rewrite <- (u64_mod_pow x bits) by lia. by rewrite Z.mod_pow2_bits_low by lia. }
  assert (Z.lor (u64 x) (2 ^ 64 - 2 ^ bits) = Z.lor (x mod 2 ^ bits) (2 ^ 64 - 2 ^ bits)) as ->.
  { rewrite <- (u64_mod_pow x bits) by lia.
    assert (2 ^ 64 - 2 ^ bits = Z.shiftl (Z.ones (64 - bits)) bits) as ->.
    { rewrite Z.ones_equiv, Z.shiftl_mul_pow2, <- Z.sub_1_r, Z.mul_sub_distr_r, <- Z.pow_add_r by lia.
      replace (64 - bits + bits) with 64 by lia. lia. }
    apply Z.bits_inj'. intros i Hi. rewrite !Z.lor_spec. destruct (Z.ltb_spec i bits); [by rewrite Z.mod_pow2_bits_low by lia|].
    rewrite Z.mod_pow2_bits_high by lia. rewrite Z.shiftl_spec_high by lia. cbn [orb]. destruct (Z.ltb_spec i 64).
    - rewrite Z.ones_spec_low by lia. apply orb_true_r.
    - unfold u64. by rewrite Z.mod_pow2_bits_high by lia. }
  unfold signed_of. rewrite testbit_top by lia. destruct (x mod 2 ^ bits <? 2 ^ (bits - 1)) eqn:Hlt; cbn [negb]; [by rewrite s64_small by lia|].
  apply sign_extend; [lia|]. breflect. lia.
Qed.

Lemma checkSigned_spec value incr bits owtype :
  1 <= bits <= 64 -> (bits = 64 -> owtype <> BFOVERFLOW_WRAP) -> - 2 ^ 63 <= incr < 2 ^ 63 -> - 2 ^ 63 <= value < 2 ^ 63 ->
  - 2 ^ (bits - 1) <= value < 2 ^ (bits - 1) \/ (incr = 0 /\ 2 ^ (bits - 1) - 1 - value <= LLONG_MAX) ->
  checkSignedBitfieldOverflow value incr bits owtype =
    Some (overflow_ref (value + incr) (- 2 ^ (bits - 1)) (2 ^ (bits - 1) - 1) (signed_of bits ((value + incr) mod 2 ^ bits)) owtype).
Proof.
  intros Hb Hw Hi Hv Hor. unfold LLONG_MAX in Hor.
  assert ((if bits =? 64 then Some LLONG_MAX else (fun x => x - 1) <$> shl64 1 (bits - 1)) = Some (2 ^ (bits - 1) - 1)) as Hmax.
  { destruct (Z.eqb_spec bits 64) as [->|]; [done|]. by rewrite shl64_one by lia. }
  unfold checkSignedBitfieldOverflow. rewrite Hmax. cbn [mbind option_bind]. clear Hmax.
  set (m := 2 ^ (bits - 1)) in *. assert (1 <= m) as Hm1 by (unfold m; pose proof (Z.pow_pos_nonneg 2 (bits - 1)); lia).
  replace (- (m - 1) - 1) with (- m) by lia. rewrite !Z.gtb_ltb, Z.geb_leb.
  assert (bits = 64 -> m = 2 ^ 63) as H64 by (unfold m; by intros ->).
  assert (bits <> 64 -> 2 * m <= 2 ^ 63) as H63.
  { intros Hne. unfold m. rewrite <- Z.pow_succ_r by lia. apply Z.pow_le_mono_r; lia. }
  assert (((m - 1 <? value) || (negb (bits =? 64) && (s64 (m - 1 - value) <? incr)) ||
    ((0 <=? value) && (0 <? incr) && (s64 (m - 1 - value) <? incr))) = (m - 1 <? value + incr)) as ->.
  { apply eq_true_iff_eq. rewrite !orb_true_iff, !andb_true_iff, negb_true_iff, Z.eqb_neq, !Z.ltb_lt, Z.leb_le.
    destruct (decide (bits = 64)) as [He|Hne]; [specialize (H64 He)|specialize (H63 Hne)].
    - destruct (Z.leb_spec 0 value); [rewrite s64_small by lia|]; lia.
    - destruct (Z.leb_spec value (m - 1)); [rewrite s64_small by lia|]; lia. }
  assert (u64 (u64 value + u64 incr) = u64 (value + incr)) as -> by (unfold u64; by rewrite <- Z.add_mod by lia).
  assert (owtype = BFOVERFLOW_WRAP ->
    (mask ← shl64 (2 ^ 64 - 1) bits; msb ← shl64 1 (bits - 1);
     Some (1, Some (s64 (if negb (Z.land (u64 (value + incr)) msb =? 0) then Z.lor (u64 (value + incr)) mask
                         else Z.land (u64 (value + incr)) (u64 (Z.lnot mask)))))) =
    Some (1, Some (signed_of bits ((value + incr) mod 2 ^ bits)))) as Hwrap.
  { intros He. assert (bits <> 64) by tauto. rewrite (high_mask bits), (shl64_one (bits - 1)) by lia. cbn [mbind option_bind].
    by rewrite wrap_signed by lia. }
  unfold overflow_ref. destruct (Z.ltb_spec (m - 1) (value + incr)) as [Hover|Hle]; [by destruct owtype; [apply Hwrap|..]|].
  assert (((value <? - m) || (negb (bits =? 64) && (incr <? s64 (- m - value))) ||
    ((value <? 0) && (incr <? 0) && (incr <? s64 (- m - value)))) = (value + incr <? - m)) as ->.
  { apply eq_true_iff_eq. rewrite !orb_true_iff, !andb_true_iff, negb_true_iff, Z.eqb_neq, !Z.ltb_lt.
    destruct (decide (bits = 64)) as [He|Hne]; [specialize (H64 He)|specialize (H63 Hne)].
    - destruct (Z.ltb_spec value 0); [rewrite s64_small by lia|]; lia.
    - rewrite s64_small by lia. lia. }
  destruct (Z.ltb_spec (value + incr) (- m)); [by destruct owtype; [apply Hwrap|..]|done].
Qed.

(** ** The properties *)

(** RedisPopcount, with its table, its unrolled 28 byte rounds of parallel
    32-bit counting and its unaligned prefix, counts the bits set in the string,
    at every address and on hosts of either byte order. *)
Theorem redisPopcount_correct `{Host} addr s :
  Forall is_byte s -> Z.of_nat (length s) < 2 ^ 60 -> redisPopcount addr s = Some (ones s).
Proof. intros Hb Hl. apply redisPopcount_spec; [done|]. pose proof (ones_range s). lia. Qed.

Lemma redisPopcount_correct_witness :
  redisPopcount (H := {| big_endian := true |}) 3 (replicate 40 0xa7) = Some 200.
Proof.
  rewrite (redisPopcount_correct (H := {| big_endian := true |}) 3 (replicate 40 0xa7)).
  - vm_compute. reflexivity.
  - apply Forall_replicate. unfold is_byte. lia.
  - cbn. lia.
Defined.

(** RedisBitpos returns the position of the first bit of the string with the
    given value, at every address and on hosts of either byte order; without one
    it returns -1 for a set bit and the length in bits for a clear one, and the
    panic at its end is not reached. *)
Theorem redisBitpos_correct `{Host} addr s bit :
  Forall is_byte s -> redisBitpos addr s bit = Some (bitpos_ref s bit).
Proof. apply redisBitpos_spec. Qed.

Lemma redisBitpos_correct_witness :
  redisBitpos (H := {| big_endian := false |}) 5 (replicate 20 255 ++ [0xf0]) false = Some 164.
Proof.
  rewrite (redisBitpos_correct (H := {| big_endian := false |}) 5 (replicate 20 255 ++ [0xf0]) false).
  - vm_compute. reflexivity.
  - apply Forall_app. split; [apply Forall_replicate; unfold is_byte; lia|]. repeat constructor; lia.
Defined.

Lemma with_field_u64 p o n v : 0 <= n <= 64 -> with_field p o n (u64 v) = with_field p o n v.
Proof.
  intros Hn. unfold with_field. do 2 f_equal. unfold word_bits. apply list_fmap_ext. intros i y Hy. apply lookup_seq in Hy as [-> Hi]. unfold u64. apply Z.mod_pow2_bits_low. lia.
Qed.

(** C35: an unsigned or signed value written to a field of 1 to 64 bits, at any offset at
    which the field is inside the string, changes exactly the bits of the field, to the low bits of the value; an
    unsigned field reads back as the value modulo its width, and a signed field of at most 63
    bits reads back as the value when it is in the range of the field.  (Reading a
    signed field of 64 bits shifts by 64, which C leaves undefined.) *)
Theorem bitfield_roundtrip p o n v :
  field_ok p o n ->
  (exists p', setUnsignedBitfield p o n v = Some p' /\ getUnsignedBitfield p' o n = Some (v mod 2 ^ n) /\
    length p' = length p /\ string_bits p' = with_field p o n v) /\
  (exists p', setSignedBitfield p o n v = Some p' /\ length p' = length p /\ string_bits p' = with_field p o n v /\
    (n < 64 -> - 2 ^ (n - 1) <= v < 2 ^ (n - 1) -> getSignedBitfield p' o n = Some v)).
Proof.
  intros Hf. pose proof (fo_size _ _ _ Hf) as Hn. split.
  - destruct (set_get p o n v Hf) as (p' & Hset & _ & Hl & Hs & Hget). by exists p'.
  - unfold setSignedBitfield. destruct (set_get p o n (u64 v) Hf) as (p' & Hset & Hf' & Hl & Hbits & Hget). exists p'. split_and!; [done..|rewrite Hbits; apply with_field_u64; lia|]. intros Hn64 Hv.
    destruct (getSigned_spec p' o n Hf' Hn64) as (r & Hr & Hs). rewrite Hget in Hr. injection Hr as <-.
    rewrite Hs, u64_mod_pow, signed_of_mod by lia. done.
Qed.

Lemma bitfield_roundtrip_witness :
  (exists p', setUnsignedBitfield [0; 255; 0] 5 9 (-27) = Some p' /\ getUnsignedBitfield p' 5 9 = Some ((-27) mod 2 ^ 9) /\
    length p' = 3%nat /\ string_bits p' = with_field [0; 255; 0] 5 9 (-27)) /\
  (exists p', setSignedBitfield [0; 255; 0] 5 9 (-27) = Some p' /\ length p' = 3%nat /\ string_bits p' = with_field [0; 255; 0] 5 9 (-27) /\ getSignedBitfield p' 5 9 = Some (-27)).
Proof.
  destruct (bitfield_roundtrip [0; 255; 0] 5 9 (-27)) as [Hu Hs].
  - split; [repeat constructor; lia|lia|lia|cbn; lia|cbn; lia].
  - split; [exact Hu|]. destruct Hs as (p' & H1 & H2 & H3 & H4). exists p'. split_and!; [done..|]. apply H4; lia.
Defined.

(** C36: for a value of the field and any 64-bit increment, and for any value to be stored,
    the overflow checks of BITFIELD answer 0 when the sum fits the field; otherwise they give
    the sum modulo the width and answer 1 in the wrapping mode, give the bound that is passed in the
    saturating mode and nothing in the failing one, and answer there 1 above and -1 below
    the range.  Unsigned fields have at most 63 bits.  For signed fields two cases are excluded, in which the code is
    wrong (the example below): 64 bits in the wrapping mode, where the mask is shifted by 64, and
    a value to be stored that lies more than 2^63-1 below the maximum. *)
Theorem bitfield_overflow_correct value incr bits owtype :
  1 <= bits <= 64 -> - 2 ^ 63 <= incr < 2 ^ 63 ->
  (bits < 64 -> 0 <= value < 2 ^ 64 -> value < 2 ^ bits \/ incr = 0 ->
   checkUnsignedBitfieldOverflow value incr bits owtype =
     Some (overflow_ref (value + incr) 0 (2 ^ bits - 1) ((value + incr) mod 2 ^ bits) owtype)) /\
  ((bits = 64 -> owtype <> BFOVERFLOW_WRAP) -> - 2 ^ 63 <= value < 2 ^ 63 ->
   - 2 ^ (bits - 1) <= value < 2 ^ (bits - 1) \/ (incr = 0 /\ 2 ^ (bits - 1) - 1 - value <= LLONG_MAX) ->
   checkSignedBitfieldOverflow value incr bits owtype =
     Some (overflow_ref (value + incr) (- 2 ^ (bits - 1)) (2 ^ (bits - 1) - 1) (signed_of bits ((value + incr) mod 2 ^ bits)) owtype)).
Proof.
  intros Hb Hi. split.
  - intros Hb64 Hv Hor. apply checkUnsigned_spec; done || lia.
  - intros Hw Hv Hor. by apply checkSigned_spec.
Qed.

Lemma bitfield_overflow_correct_witness :
  checkUnsignedBitfieldOverflow 250 10 8 BFOVERFLOW_WRAP = Some (1, Some 4) /\
  checkSignedBitfieldOverflow (-100) (-100) 8 BFOVERFLOW_SAT = Some (-1, Some (-128)).
Proof.
  destruct (bitfield_overflow_correct 250 10 8 BFOVERFLOW_WRAP) as [Hu _]; [lia|lia|].
  destruct (bitfield_overflow_correct (-100) (-100) 8 BFOVERFLOW_SAT) as [_ Hs]; [lia|lia|]. split.
  - apply Hu; [lia|lia|]. left. reflexivity.
  - apply Hs; [discriminate|lia|]. left. split; [discriminate|reflexivity].
Defined.

(** The excluded cases are faults of the code: the distance overflows and a
    value far below the minimum saturates to the maximum, and the 64-bit wrap
    and the sign extension of 64-bit fields shift by 64. *)
Example signed_overflow_faults :
  checkSignedBitfieldOverflow LLONG_MIN 0 8 BFOVERFLOW_SAT = Some (1, Some 127) /\
  checkSignedBitfieldOverflow LLONG_MAX 1 64 BFOVERFLOW_WRAP = None /\
  getSignedBitfield (replicate 8 255) 0 64 = None.
Proof. vm_compute. done. Qed.
