(* ===== verification/Lzf.v ===== *)
(** * LZF compression (src/redis-stable/src/lzf_c.c, lzf_d.c)

    The compressor and the decompressor of the strings in dump files and of list
    nodes, in the configuration of the server (VERY_FAST, HLOG 16, CHECK_INPUT,
    hash table not initialised).  Pointers into the input are offsets; the output
    of the compressor is the finished part and the literal run that is being
    written after its control byte, so that op - out_data is the length of the
    one, plus one, plus the length of the other.  Every access outside the input
    or the output has no result. *)
From stdpp Require Import prelude list.
From Stdlib Require Import ZArith Lia.
From S2P Require Import Prelude.

Local Open Scope Z_scope.
Local Open Scope redis_scope.

Definition MAX_LIT : nat := 32.
Definition MAX_OFF : Z := 8192.
Definition MAX_REF : nat := 264.

(** ** The compressor *)

Section Compress.
Context (inp : list Z) (out_len : nat).
Let in_len : nat := length inp.

(** The macros FRST, NEXT and IDX. *)
Definition FRST (p : nat) : option Z := a ← inp !! p; b ← inp !! S p; Some (Z.lor (Z.shiftl a 8) b).
Definition NEXT (v : Z) (p : nat) : option Z := c ← inp !! S (S p); Some (u32 (Z.lor (Z.shiftl v 8) c)).
Definition IDX (h : Z) : Z := Z.land (u32 (Z.shiftr h 8 - h * 5)) 65535.

(** The hash table holds offsets of the input. *)
Record cstate := mk_cstate { ip : nat; finished : list Z; run : list Z; hval : Z; htab : Z -> Z }.

Definition op (s : cstate) : nat := length (finished s) + 1 + length (run s).
Definition set_slot (t : Z -> Z) (i v : Z) : Z -> Z := fun j => if j =? i then v else t j.

(** op [- lit - 1] = lit - 1; op -= !lit; *)
Definition stop_run (s : cstate) : option (list Z) :=
  assert! (length (finished s) <? out_len)%nat ;;
  Some (match run s with [] => finished s | _ => finished s ++ Z.of_nat (length (run s)) - 1 :: run s end).

(** len++; if (ref [len] != ip [len]) break;  [n] times *)
Fixpoint unrolled (n : nat) (ref p len : nat) : option (nat * bool) :=
  match n with
  | O => Some (len, false)
  | S n =>
    let len := S len in
    a ← inp !! (ref + len)%nat; b ← inp !! (p + len)%nat;
    if negb (a =? b) then Some (len, true) else unrolled n ref p len
  end.

(** do len++; while (len < maxlen && ref[len] == ip[len]); *)
Fixpoint extend (fuel : nat) (ref p maxlen len : nat) : option nat :=
  match fuel with
  | O => None
  | S fuel =>
    let len := S len in
    if (len <? maxlen)%nat then
      a ← inp !! (ref + len)%nat; b ← inp !! (p + len)%nat;
      if a =? b then extend fuel ref p maxlen len else Some len
    else Some len
  end.

Definition match_length (ref p : nat) : option nat :=
  let maxlen := (in_len - p - 2)%nat in
  let maxlen := if (MAX_REF <? maxlen)%nat then MAX_REF else maxlen in
  if (16 <? maxlen)%nat then
    '(len, stop) ← unrolled 16 ref p 2;
    if (stop : bool) then Some len else extend (S maxlen) ref p maxlen len
  else extend (S maxlen) ref p maxlen 2.

(** The test for a match at the offset [ref] of the hash slot. *)
Definition match_at (ref : Z) (p : nat) : option bool :=
  let off := u64 (Z.of_nat p - ref - 1) in
  if (off <? MAX_OFF) && (ref >? 0) then
    let r := Z.to_nat ref in
    a2 ← inp !! S (S r); b2 ← inp !! S (S p);
    if negb (a2 =? b2) then Some false
    else
      a0 ← inp !! r; a1 ← inp !! S r; b0 ← inp !! p; b1 ← inp !! S p;
      Some ((a0 =? b0) && (a1 =? b1))
  else Some false.

(** The bytes of a back reference; [len] is the number of octets minus 2. *)
Definition encode_ref (off : Z) (len : nat) : list Z :=
  if (len <? 7)%nat then [u8 (Z.shiftr off 8 + Z.shiftl (Z.of_nat len) 5); u8 off]
  else [u8 (Z.shiftr off 8 + Z.shiftl 7 5); u8 (Z.of_nat len - 7); u8 off].

(** A literal byte at [ip]; a full run is ended. *)
Definition put_literal (s : cstate) : option cstate :=
  assert! (op s <? out_len)%nat ;;
  b ← inp !! ip s;
  let s := mk_cstate (S (ip s)) (finished s) (run s ++ [b]) (hval s) (htab s) in
  if (length (run s) =? MAX_LIT)%nat then
    f ← stop_run s; Some (mk_cstate (ip s) f [] (hval s) (htab s))
  else Some s.

(** One round of the main loop: return 0, leave the loop, or go on. *)
Inductive outcome := Return0 | Break (s : cstate) | Continue (s : cstate).

Definition compress_round (s : cstate) : option outcome :=
  let p := ip s in
  hv ← NEXT (hval s) p;
  let ref := htab s (IDX hv) in
  let t := set_slot (htab s) (IDX hv) (Z.of_nat p) in
  found ← match_at ref p;
  if (found : bool) then
    let off := u64 (Z.of_nat p - ref - 1) in
    let nolit := match run s with [] => 1 | _ => 0 end%nat in
    if (out_len <=? op s + 3 + 1)%nat && (out_len <=? op s - nolit + 3 + 1)%nat then Some Return0
    else
      f ← stop_run s;
      len ← match_length (Z.to_nat ref) p;
      let len := (len - 2)%nat in
      let f' := f ++ encode_ref off len in
      assert! (length f' <=? out_len)%nat ;;
      let p' := (S p + (len + 1))%nat in
      if (in_len <=? p' + 2)%nat then Some (Break (mk_cstate p' f' [] hv t))
      else
        hv ← FRST (p' - 2);
        hv ← NEXT hv (p' - 2);
        let t := set_slot t (IDX hv) (Z.of_nat (p' - 2)) in
        hv ← NEXT hv (p' - 1);
        let t := set_slot t (IDX hv) (Z.of_nat (p' - 1)) in
        Some (Continue (mk_cstate p' f' [] hv t))
  else if (out_len <=? op s)%nat then Some Return0
  else Continue <$> put_literal (mk_cstate p (finished s) (run s) hv t).

(** while (ip < in_end - 2) ...; no state: return 0 *)
Fixpoint compress_loop (fuel : nat) (s : cstate) : option (option cstate) :=
  match fuel with
  | O => None
  | S fuel =>
    if (ip s + 2 <? in_len)%nat then
      r ← compress_round s;
      match r with Return0 => Some None | Break s => Some (Some s) | Continue s => compress_loop fuel s end
    else Some (Some s)
  end.

(** while (ip < in_end) ... *)
Fixpoint tail_loop (fuel : nat) (s : cstate) : option cstate :=
  if (ip s <? in_len)%nat then
    match fuel with O => None | S fuel => s ← put_literal s; tail_loop fuel s end
  else Some s.

(** [htab0] is what the uninitialised hash table holds; the result is the output,
    none when the function returns 0. *)
Definition lzf_compress (htab0 : Z -> Z) : option (option (list Z)) :=
  if (in_len =? 0)%nat || (out_len =? 0)%nat then Some None
  else
    hv ← FRST 0;
    r ← compress_loop (S in_len) (mk_cstate 0 [] [] hv htab0);
    match r with
    | None => Some None
    | Some s =>
      if (out_len <? op s + 3)%nat then Some None
      else s ← tail_loop 2 s; Some <$> stop_run s
    end.
End Compress.

(** ** The decompressor *)

(** *op++ = *ref++;  [n] times *)
Fixpoint copy_ref (n : nat) (ref : nat) (out : list Z) : option (list Z) :=
  match n with
  | O => Some out
  | S n => b ← out !! ref; copy_ref n (S ref) (out ++ [b])
  end.

(** One round of the do loop on the rest of the input; no rest: return 0. *)
Definition decompress_round (out_len : nat) (c out : list Z) : option (option (list Z * list Z)) :=
  match c with
  | [] => None
  | ctrl :: c =>
    if ctrl <? 32 then
      let n := S (Z.to_nat ctrl) in
      if (out_len <? length out + n)%nat then Some None
      else if (length c <? n)%nat then Some None
      else Some (Some (drop n c, out ++ take n c))
    else
      let len := Z.shiftr ctrl 5 in
      let ref := Z.of_nat (length out) - Z.shiftl (Z.land ctrl 31) 8 - 1 in
      match c with
      | [] => Some None
      | b :: c' =>
        let '(len, c) := if len =? 7 then (len + b, c') else (len, c) in
        match c with
        | [] => Some None
        | b :: c =>
          let ref := ref - b in
          if Z.of_nat out_len <? Z.of_nat (length out) + len + 2 then Some None
          else if ref <? 0 then Some None
          else out ← copy_ref (Z.to_nat (len + 2)) (Z.to_nat ref) out; Some (Some (c, out))
        end
      end
  end.

Fixpoint decompress_loop (fuel : nat) (out_len : nat) (c out : list Z) : option (option (list Z)) :=
  match fuel with
  | O => None
  | S fuel =>
    r ← decompress_round out_len c out;
    match r with
    | None => Some None
    | Some ([], out) => Some (Some out)
    | Some (c, out) => decompress_loop fuel out_len c out
    end
  end.
Definition lzf_decompress (c : list Z) (out_len : nat) : option (option (list Z)) :=
  decompress_loop (S (length c)) out_len c [].

Example lzf_abab : 
  let s := [97; 98; 97; 98; 97; 98; 97; 98; 97; 98; 97; 98; 97; 98; 97; 98; 97; 98; 97; 98; 99; 100] in
  (o ← lzf_compress s 18 (fun _ => 7); match o with Some c => lzf_decompress c 22 | None => None end) = Some (Some s).
Proof. vm_compute. reflexivity. Qed.

(** ** The format *)

(** The bytes [c] decode to [out]. *)
Inductive decodes : list Z -> list Z -> Prop :=
  | dec_nil : decodes [] []
  | dec_lit c out l : decodes c out -> (1 <= length l <= 32)%nat -> decodes (c ++ Z.of_nat (length l) - 1 :: l) (out ++ l)
  | dec_ref c out off len ref out' : decodes c out -> (1 <= len <= 262)%nat -> 0 <= off < MAX_OFF ->
      Z.of_nat ref + off + 1 = Z.of_nat (length out) -> copy_ref (len + 2) ref out = Some out' ->
      decodes (c ++ encode_ref off len) out'.

Lemma copy_ref_length n : forall ref out out', copy_ref n ref out = Some out' -> length out' = (length out + n)%nat.
Proof.
  induction n as [|n IH]; intros ref out out' Hc; cbn in Hc; [injection Hc as <-; lia|].
  destruct (out !! ref); [|done]. cbn in Hc. apply IH in Hc. rewrite length_app in Hc. simpl in Hc. lia.
Qed.

Lemma round_lit out_len l rest out : (1 <= length l <= 32)%nat -> (length out + length l <= out_len)%nat ->
  decompress_round out_len (Z.of_nat (length l) - 1 :: l ++ rest) out = Some (Some (rest, out ++ l)).
Proof.
  intros Hl Ho. unfold decompress_round. rewrite (proj2 (Z.ltb_lt _ _)) by lia.
  replace (S (Z.to_nat (Z.of_nat (length l) - 1))) with (length l) by lia.
  rewrite (proj2 (Nat.ltb_ge _ _)) by lia. rewrite length_app, (proj2 (Nat.ltb_ge _ _)) by lia.
  by rewrite drop_app_length, take_app_length.
Qed.

(** Reading a back reference back. *)
Lemma ref_bytes off len : (1 <= len <= 262)%nat -> 0 <= off < MAX_OFF ->
  exists hi b, encode_ref off len = (if (len <? 7)%nat then [hi; b] else [hi; Z.of_nat len - 7; b]) /\ 32 <= hi /\
    Z.shiftr hi 5 = (if (len <? 7)%nat then Z.of_nat len else 7) /\ Z.shiftl (Z.land hi 31) 8 + b = off.
Proof.
  intros Hl Ho. unfold MAX_OFF in Ho. unfold encode_ref. rewrite !Z.shiftl_mul_pow2, !Z.shiftr_div_pow2 by lia.
  change 31 with (Z.ones 5). unfold u8. change (2 ^ 8) with 256. change (2 ^ 5) with 32.
  destruct (Nat.ltb_spec len 7).
  - exists (off / 256 + Z.of_nat len * 32), (off mod 256). rewrite (Z.mod_small (off / 256 + _)) by zdiv_lia. split; [done|].
    rewrite Z.land_ones, Z.shiftl_mul_pow2, Z.shiftr_div_pow2 by lia. change (2 ^ 8) with 256. change (2 ^ 5) with 32.
    split_and!; zdiv_lia.
  - exists (off / 256 + 7 * 32), (off mod 256). rewrite (Z.mod_small (off / 256 + _)) by zdiv_lia.
    rewrite (Z.mod_small (Z.of_nat len - 7)) by lia. split; [done|].
    rewrite Z.land_ones, Z.shiftl_mul_pow2, Z.shiftr_div_pow2 by lia. change (2 ^ 8) with 256. change (2 ^ 5) with 32.
    split_and!; zdiv_lia.
Qed.

Lemma round_ref out_len off len ref rest out out' : (1 <= len <= 262)%nat -> 0 <= off < MAX_OFF ->
  Z.of_nat ref + off + 1 = Z.of_nat (length out) -> copy_ref (len + 2) ref out = Some out' -> (length out' <= out_len)%nat ->
  decompress_round out_len (encode_ref off len ++ rest) out = Some (Some (rest, out')).
Proof.
  intros Hl Ho Href Hcopy Hlen. pose proof (copy_ref_length _ _ _ _ Hcopy) as Hcl.
  destruct (ref_bytes off len Hl Ho) as (hi & b & -> & Hhi & Hsh & Hoff). unfold decompress_round.
  destruct (Nat.ltb_spec len 7) as [H7|H7]; cbn [app]; rewrite (proj2 (Z.ltb_ge _ _)) by lia; rewrite Hsh.
  - rewrite (proj2 (Z.eqb_neq _ 7)) by lia. cbn beta iota. rewrite (proj2 (Z.ltb_ge _ (_ + 2))) by lia. rewrite (proj2 (Z.ltb_ge _ 0)) by lia.
    replace (Z.to_nat (Z.of_nat len + 2)) with (len + 2)%nat by lia.
    replace (Z.to_nat (Z.of_nat (length out) - Z.shiftl (Z.land hi 31) 8 - 1 - b)) with ref by lia. by rewrite Hcopy.
  - rewrite Z.eqb_refl. cbn beta iota. rewrite (proj2 (Z.ltb_ge _ (_ + 2))) by lia. rewrite (proj2 (Z.ltb_ge _ 0)) by lia.
    replace (Z.to_nat (7 + (Z.of_nat len - 7) + 2)) with (len + 2)%nat by lia.
    replace (Z.to_nat (Z.of_nat (length out) - Z.shiftl (Z.land hi 31) 8 - 1 - b)) with ref by lia. by rewrite Hcopy.
Qed.

(** The loop from the test at its end. *)
Definition rest_loop (fuel out_len : nat) (c out : list Z) : option (option (list Z)) :=
  match c with [] => Some (Some out) | _ => decompress_loop fuel out_len c out end.

Lemma rest_loop_round fuel out_len c out c' out' : c <> [] -> decompress_round out_len c out = Some (Some (c', out')) ->
  rest_loop (S fuel) out_len c out = rest_loop fuel out_len c' out'.
Proof. intros Hc Hr. destruct c as [|x c]; [done|]. cbn [rest_loop decompress_loop]. rewrite Hr. by destruct c'. Qed.

Lemma encode_ref_cons off len : exists x l, encode_ref off len = x :: l.
Proof. unfold encode_ref. destruct (len <? 7)%nat; eauto. Qed.

Lemma decodes_loop c out : decodes c out -> forall out_len rest fuel, (length out <= out_len)%nat -> (length (c ++ rest) <= fuel)%nat ->
  exists fuel', (length rest <= fuel')%nat /\ rest_loop fuel out_len (c ++ rest) [] = rest_loop fuel' out_len rest out.
Proof.
  induction 1 as [|c out l Hdec IH Hl|c out off len ref out' Hdec IH Hlen Hoff Href Hcopy]; intros out_len rest fuel Ho Hf.
  - by exists fuel.
  - rewrite <- app_assoc in *. cbn [app] in *. rewrite length_app in Ho.
    destruct (IH out_len (Z.of_nat (length l) - 1 :: l ++ rest) fuel ltac:(lia) Hf) as (fuel' & Hf' & ->).
    destruct fuel' as [|fuel']; [simpl in Hf'; lia|]. exists fuel'. split; [simpl in Hf'; rewrite length_app in Hf'; lia|].
    apply rest_loop_round; [done|]. by apply round_lit.
  - rewrite <- app_assoc in *. pose proof (copy_ref_length _ _ _ _ Hcopy) as Hcl.
    destruct (IH out_len (encode_ref off len ++ rest) fuel ltac:(lia) Hf) as (fuel' & Hf' & ->).
    destruct (encode_ref_cons off len) as (x & t & Hx).
    destruct fuel' as [|fuel']; [rewrite Hx in Hf'; simpl in Hf'; lia|]. exists fuel'.
    split; [rewrite Hx in Hf'; simpl in Hf'; rewrite length_app in Hf'; lia|].
    apply rest_loop_round; [by rewrite Hx|]. by apply (round_ref out_len off len ref rest out out').
Qed.

Lemma decodes_decompress c out out_len : decodes c out -> c <> [] -> (length out <= out_len)%nat ->
  lzf_decompress c out_len = Some (Some out).
Proof.
  intros Hdec Hc Ho. destruct (decodes_loop c out Hdec out_len [] (S (length c)) Ho) as (fuel & _ & Heq); [rewrite app_nil_r; lia|].
  rewrite app_nil_r in Heq. unfold lzf_decompress. by destruct c.
Qed.

(** ** Matches *)

Section CompressProof.
Context (inp : list Z) (out_len : nat).

(** The [n] octets at [ref] and at [p] agree. *)
Definition agree (ref p n : nat) : Prop := forall i, (i < n)%nat -> inp !! (ref + i)%nat = inp !! (p + i)%nat.

Lemma agree_S ref p n : agree ref p n -> inp !! (ref + n)%nat = inp !! (p + n)%nat -> agree ref p (S n).
Proof. intros Ha Hn i Hi. destruct (decide (i = n)) as [->|]; [done|]. apply Ha. lia. Qed.

Lemma read_both ref p len : (ref < p)%nat -> (p + len < length inp)%nat ->
  exists a b, inp !! (ref + len)%nat = Some a /\ inp !! (p + len)%nat = Some b.
Proof.
  intros Hr Hp. destruct (lookup_lt_is_Some_2 inp (ref + len)) as (a & Ha); [lia|].
  destruct (lookup_lt_is_Some_2 inp (p + len)) as (b & Hb); [lia|]. eauto.
Qed.

Lemma unrolled_spec ref p : (ref < p)%nat -> forall n len, agree ref p (S len) -> (p + len + n < length inp)%nat ->
  exists len' stop, unrolled inp n ref p len = Some (len', stop) /\ (len <= len' <= len + n)%nat /\
    (if (stop : bool) then (len < len')%nat /\ agree ref p len' else len' = (len + n)%nat /\ agree ref p (S len')).
Proof.
  intros Hr. induction n as [|n IH]; intros len Ha Hp; cbn [unrolled].
  { exists len, false. split; [done|]. split; [lia|]. split; [lia|done]. }
  destruct (read_both ref p (S len) Hr ltac:(lia)) as (a & b & Hra & Hrb). rewrite Hra, Hrb. cbn [mbind option_bind].
  destruct (Z.eqb_spec a b) as [->|Hne]; cbn [negb].
  - destruct (IH (S len)) as (len' & stop & Hrun & Hb & Hs); [apply agree_S; [done|congruence]|lia|].
    exists len', stop. split; [done|]. split; [lia|]. destruct stop; destruct Hs; (split; [lia|done]).
  - exists (S len), true. split; [done|]. split; [lia|]. split; [lia|done].
Qed.

Lemma extend_spec ref p maxlen : (ref < p)%nat -> (p + maxlen <= length inp)%nat -> forall fuel len, agree ref p (S len) -> (maxlen - len < fuel)%nat ->
  exists L, extend inp fuel ref p maxlen len = Some L /\ (S len <= L <= Nat.max (S len) maxlen)%nat /\ agree ref p L.
Proof.
  intros Hr Hp. induction fuel as [|fuel IH]; intros len Ha Hf; [lia|]. cbn [extend].
  destruct (Nat.ltb_spec (S len) maxlen) as [Hl|Hl]; [|exists (S len); split; [done|split; [lia|done]]].
  destruct (read_both ref p (S len) Hr ltac:(lia)) as (a & b & Hra & Hrb). rewrite Hra, Hrb. cbn [mbind option_bind].
  destruct (Z.eqb_spec a b) as [->|Hne]; [|exists (S len); split; [done|split; [lia|done]]].
  destruct (IH (S len)) as (L & Hrun & Hb & HL); [apply agree_S; [done|congruence]|lia|].
  exists L. split; [done|]. split; [lia|done].
Qed.

Lemma match_length_spec ref p : (ref < p)%nat -> (p + 2 < length inp)%nat -> agree ref p 3 ->
  exists L, match_length inp ref p = Some L /\ (3 <= L <= MAX_REF)%nat /\ (p + L <= length inp)%nat /\ agree ref p L.
Proof.
  intros Hr Hp Ha. unfold match_length. cbv zeta. set (maxlen := if (MAX_REF <? _)%nat then _ else _).
  assert (1 <= maxlen <= MAX_REF /\ p + maxlen + 2 <= length inp)%nat as [Hm1 Hm2].
  { unfold maxlen. destruct (Nat.ltb_spec MAX_REF (length inp - p - 2)); unfold MAX_REF in *; lia. }
  unfold MAX_REF in *. destruct (Nat.ltb_spec 16 maxlen) as [H16|H16].
  - destruct (unrolled_spec ref p Hr 16 2 Ha) as (len & stop & -> & Hb & Hs); [lia|]. cbn [mbind option_bind]. destruct stop.
    + destruct Hs as [Hlt Hag]. exists len. split; [done|]. split; [lia|]. split; [lia|done].
    + destruct Hs as [-> Hag]. destruct (extend_spec ref p maxlen Hr ltac:(lia) (S maxlen) (2 + 16) Hag) as (L & -> & HL & Hag'); [lia|].
      exists L. split; [done|]. split; [lia|]. split; [lia|done].
  - destruct (extend_spec ref p maxlen Hr ltac:(lia) (S maxlen) 2 Ha) as (L & -> & HL & Hag'); [lia|].
    exists L. split; [done|]. split; [lia|]. split; [lia|done].
Qed.

(** A match is always behind the current position, whatever the hash table
    holds. *)
Lemma match_at_spec ref p : (p + 2 < length inp)%nat -> Z.of_nat p < 2 ^ 32 -> 0 <= ref < 2 ^ 32 ->
  exists found, match_at inp ref p = Some found /\
    (found = true -> 0 < ref /\ (Z.to_nat ref < p)%nat /\ 0 <= Z.of_nat p - ref - 1 < MAX_OFF /\ agree (Z.to_nat ref) p 3).
Proof.
  intros Hp Hp32 Href. unfold match_at. cbv zeta. destruct (_ && _) eqn:Hc; [|by exists false].
  apply andb_true_iff in Hc as [Hoff Hpos]. rewrite Z.gtb_ltb in Hpos. apply Z.ltb_lt in Hpos. apply Z.ltb_lt in Hoff.
  assert (0 <= Z.of_nat p - ref - 1) as H0.
  { destruct (Z.leb_spec 0 (Z.of_nat p - ref - 1)) as [|Hneg]; [done|]. exfalso. unfold u64, MAX_OFF in Hoff.
    replace (Z.of_nat p - ref - 1) with (2 ^ 64 + (Z.of_nat p - ref - 1) + (-1) * 2 ^ 64) in Hoff by lia.
    rewrite Z.mod_add, Z.mod_small in Hoff by lia. lia. }
  rewrite u64_small in Hoff by lia. set (r := Z.to_nat ref) in *. assert (r < p)%nat as Hrp by lia.
  destruct (read_both r p 2 Hrp ltac:(lia)) as (a2 & b2 & Ha2 & Hb2).
  destruct (read_both r p 1 Hrp ltac:(lia)) as (a1 & b1 & Ha1 & Hb1).
  destruct (read_both r p 0 Hrp ltac:(lia)) as (a0 & b0 & Ha0 & Hb0).
  replace (S (S r)) with (r + 2)%nat by lia. replace (S (S p)) with (p + 2)%nat by lia.
  replace (S r) with (r + 1)%nat by lia. replace (S p) with (p + 1)%nat by lia.
  rewrite Nat.add_0_r in Ha0, Hb0. rewrite Ha2, Hb2, Ha1, Hb1, Ha0, Hb0. cbn [mbind option_bind].
  destruct (Z.eqb_spec a2 b2) as [->|]; cbn [negb]; [|by exists false].
  eexists. split; [reflexivity|]. intros [->%Z.eqb_eq ->%Z.eqb_eq]%andb_true_iff. split; [lia|]. split; [done|]. split; [done|].
  intros i Hi. destruct i as [|[|[|i]]]; [rewrite !Nat.add_0_r; congruence|congruence|congruence|lia].
Qed.

(** Copying the match continues the input. *)
Lemma copy_agree n : forall ref p, (ref < p)%nat -> (p + n <= length inp)%nat -> agree ref p n ->
  copy_ref n ref (take p inp) = Some (take (p + n) inp).
Proof.
  induction n as [|n IH]; intros ref p Hr Hp Ha; cbn [copy_ref]; [by rewrite Nat.add_0_r|].
  destruct (lookup_lt_is_Some_2 inp p) as (b & Hb); [lia|].
  assert (inp !! ref = Some b) as Hb'.
  { pose proof (Ha 0%nat ltac:(lia)) as H0. rewrite !Nat.add_0_r in H0. congruence. }
  rewrite lookup_take_lt by done. rewrite Hb'. cbn [mbind option_bind]. rewrite <- (take_S_r _ _ _ Hb). rewrite IH; [|lia|lia|].
  - do 2 f_equal. lia.
  - intros i Hi. pose proof (Ha (S i) ltac:(lia)) as Hs. by rewrite <- !Nat.add_succ_comm in Hs.
Qed.

(** ** The invariant of the compressor *)

Record cinv (s : cstate) : Prop := {
  ci_ip : (ip s <= length inp)%nat;
  ci_run : (length (run s) <= ip s)%nat /\ run s = take (length (run s)) (drop (ip s - length (run s)) inp);
  ci_dec : decodes (finished s) (take (ip s - length (run s)) inp);
  ci_tab : forall i, 0 <= htab s i < 2 ^ 32 }.

Lemma run_bytes s : cinv s -> take (ip s - length (run s)) inp ++ run s = take (ip s) inp.
Proof.
  intros [_ [Hl Hr] _ _]. rewrite Hr at 2. rewrite take_take_drop. f_equal. lia.
Qed.

Lemma stop_run_spec s : cinv s -> (length (run s) <= 32)%nat -> (length (finished s) < out_len)%nat ->
  exists f, stop_run out_len s = Some f /\ decodes f (take (ip s) inp) /\
    length f = (length (finished s) + match run s with [] => 0 | _ => 1 + length (run s) end)%nat.
Proof.
  intros Hs Hl Ho. unfold stop_run. rewrite (proj2 (Nat.ltb_lt _ _)) by lia. pose proof (run_bytes s Hs) as Hb. pose proof (ci_dec s Hs) as Hd.
  rewrite <- Hb. destruct (run s) as [|x l] eqn:Hrun; eexists; (split; [reflexivity|]).
  - rewrite app_nil_r. split; [done|lia].
  - split; [apply dec_lit; [done|simpl in *; lia]|]. rewrite length_app. simpl. lia.
Qed.

(** One more literal. *)
Lemma put_literal_spec s : cinv s -> (length (run s) < 32)%nat -> (ip s < length inp)%nat -> (op s < out_len)%nat ->
  exists s', put_literal inp out_len s = Some s' /\ cinv s' /\ ip s' = S (ip s) /\
    ((length (run s') < 32)%nat /\ length (run s') = S (length (run s)) /\ finished s' = finished s \/
     run s' = [] /\ length (run s) = 31%nat /\ length (finished s') = (length (finished s) + 33)%nat).
Proof.
  intros Hs Hl Hip Hop. unfold put_literal. rewrite (proj2 (Nat.ltb_lt _ _)) by lia.
  destruct (lookup_lt_is_Some_2 inp (ip s) Hip) as (b & Hb). rewrite Hb. cbn [mbind option_bind].
  set (s1 := mk_cstate (S (ip s)) (finished s) (run s ++ [b]) (hval s) (htab s)).
  assert (length (run s1) = S (length (run s))) as Hr1 by (cbn; rewrite length_app; simpl; lia).
  assert (cinv s1) as Hs1.
  { pose proof Hs as [_ [Hle Hrun] Hd Ht]. split; [cbn; lia| | |done].
    - rewrite Hr1. split; [cbn; lia|]. cbn [ip run s1]. replace (S (ip s) - S (length (run s)))%nat with (ip s - length (run s))%nat by lia.
      rewrite (take_S_r _ _ b); [by rewrite <- Hrun|]. rewrite lookup_drop. replace (ip s - length (run s) + length (run s))%nat with (ip s) by lia. done.
    - rewrite Hr1. cbn [ip finished s1]. by replace (S (ip s) - S (length (run s)))%nat with (ip s - length (run s))%nat by lia. }
  cbv zeta. fold s1. unfold MAX_LIT. destruct (Nat.eqb_spec (length (run s1)) 32) as [He|Hne].
  - assert (length (finished s) < out_len)%nat as Hf by (unfold op in Hop; lia).
    destruct (stop_run_spec s1 Hs1 ltac:(lia) Hf) as (f & -> & Hd & Hlen). cbn [mbind option_bind]. eexists. split; [reflexivity|].
    split; [|split; [done|right]].
    + split; cbn [ip run finished htab length]; [apply Hs1|split; [lia|done]|rewrite Nat.sub_0_r; exact Hd|apply Hs].
    + cbn [run finished]. split_and!; [done|lia|]. destruct (run s1) as [|x l]; [simpl in He; lia|]. simpl in *. lia.
  - exists s1. split; [done|]. split; [done|]. split; [done|]. left. split_and!; [lia|done|done].
Qed.

Lemma next_ok v p : (p + 2 < length inp)%nat -> exists hv, NEXT inp v p = Some hv.
Proof. intros Hp. unfold NEXT. destruct (lookup_lt_is_Some_2 inp (S (S p))) as (c & ->); [lia|]. eexists. reflexivity. Qed.

Lemma frst_ok p : (p + 1 < length inp)%nat -> exists hv, FRST inp p = Some hv.
Proof.
  intros Hp. unfold FRST. destruct (lookup_lt_is_Some_2 inp p) as (a & ->); [lia|].
  destruct (lookup_lt_is_Some_2 inp (S p)) as (b & ->); [lia|]. eexists. reflexivity.
Qed.

Lemma set_slot_ok t i v : (forall i, 0 <= t i < 2 ^ 32) -> 0 <= v < 2 ^ 32 -> forall j, 0 <= set_slot t i v j < 2 ^ 32.
Proof. intros Ht Hv j. unfold set_slot. destruct (j =? i); [done|apply Ht]. Qed.

Hypothesis Hlen32 : Z.of_nat (length inp) < 2 ^ 32.

(** The input after a match, flushed. *)
Lemma match_done s f ref : cinv s -> decodes f (take (ip s) inp) -> 0 < ref -> (Z.to_nat ref < ip s)%nat -> (ip s + 2 < length inp)%nat ->
  0 <= Z.of_nat (ip s) - ref - 1 < MAX_OFF -> agree (Z.to_nat ref) (ip s) 3 ->
  exists L, match_length inp (Z.to_nat ref) (ip s) = Some L /\ (3 <= L)%nat /\ (ip s + L <= length inp)%nat /\
    decodes (f ++ encode_ref (Z.of_nat (ip s) - ref - 1) (L - 2)) (take (ip s + L) inp).
Proof.
  intros Hs Hd Hpos Hrp Hp Hoff Hag. destruct (match_length_spec (Z.to_nat ref) (ip s) Hrp Hp Hag) as (L & Hm & HL & HpL & HagL).
  unfold MAX_REF in HL. exists L. split; [done|]. split; [lia|]. split; [done|].
  apply (dec_ref f (take (ip s) inp) _ _ (Z.to_nat ref)); [done|lia|done|rewrite length_take; lia|].
  replace (L - 2 + 2)%nat with L by lia. by apply copy_agree.
Qed.

(** One round of the main loop. *)
Lemma compress_round_spec s : cinv s -> (length (run s) < 32)%nat -> (ip s + 2 < length inp)%nat ->
  exists r, compress_round inp out_len s = Some r /\
    match r with
    | Return0 => True
    | Break s' => cinv s' /\ (length (run s') < 32)%nat /\ (length inp <= ip s' + 2)%nat
    | Continue s' => cinv s' /\ (length (run s') < 32)%nat /\ (ip s < ip s')%nat
    end.
Proof.
  intros Hs Hl Hip. unfold compress_round. cbv zeta. destruct (next_ok (hval s) (ip s) Hip) as (hv & ->). cbn [mbind option_bind].
  set (ref := htab s (IDX hv)). pose proof (ci_tab s Hs (IDX hv)) as Href. fold ref in Href.
  destruct (match_at_spec ref (ip s) Hip ltac:(lia) Href) as (found & -> & Hfound). cbn [mbind option_bind].
  set (t := set_slot (htab s) (IDX hv) (Z.of_nat (ip s))).
  assert (forall i, 0 <= t i < 2 ^ 32) as Ht by (apply set_slot_ok; [apply Hs|lia]). destruct found.
  - destruct (Hfound eq_refl) as (Hpos & Hrp & Hoff & Hag). clear Hfound.
    destruct (_ && _) eqn:Hroom; [by exists Return0|].
    assert (op s - match run s with [] => 1 | _ => 0 end + 4 < out_len)%nat as Hop.
    { apply andb_false_iff in Hroom as [Hr|Hr]; apply Nat.leb_gt in Hr; lia. }
    assert (length (finished s) < out_len)%nat as Hf by (unfold op in Hop; destruct (run s); simpl in Hop; lia).
    destruct (stop_run_spec s Hs ltac:(lia) Hf) as (f & -> & Hd & Hlf). cbn [mbind option_bind].
    destruct (match_done s f ref Hs Hd Hpos Hrp Hip Hoff Hag) as (L & -> & HL & HpL & HdL). cbn [mbind option_bind].
    rewrite u64_small by (unfold MAX_OFF in Hoff; lia).
    assert (length (encode_ref (Z.of_nat (ip s) - ref - 1) (L - 2)) <= 3)%nat as Henc by (unfold encode_ref; destruct (_ <? 7)%nat; simpl; lia).
    rewrite (proj2 (Nat.leb_le _ out_len)) by (rewrite length_app; unfold op in Hop; destruct (run s); simpl in *; lia).
    replace (S (ip s) + (L - 2 + 1))%nat with (ip s + L)%nat by lia.
    assert (forall hv t', (forall i, 0 <= t' i < 2 ^ 32) ->
      cinv (mk_cstate (ip s + L) (f ++ encode_ref (Z.of_nat (ip s) - ref - 1) (L - 2)) [] hv t')) as Hinv.
    { intros hv' t' Ht'. split; cbn [ip run finished htab length]; [lia|split; [lia|done]|rewrite Nat.sub_0_r; exact HdL|done]. }
    destruct (Nat.leb_spec (length inp) (ip s + L + 2)) as [Hend|Hend].
    + eexists. split; [reflexivity|]. split; [by apply Hinv|]. cbn. lia.
    + destruct (frst_ok (ip s + L - 2) ltac:(lia)) as (hv1 & ->). cbn [mbind option_bind].
      destruct (next_ok hv1 (ip s + L - 2) ltac:(lia)) as (hv2 & ->). cbn [mbind option_bind].
      destruct (next_ok hv2 (ip s + L - 1) ltac:(lia)) as (hv3 & ->). cbn [mbind option_bind].
      eexists. split; [reflexivity|]. split; [apply Hinv; do 2 (apply set_slot_ok; [|lia]); done|]. cbn. lia.
  - destruct (Nat.leb_spec out_len (op s)) as [Hfull|Hroom]; [by exists Return0|].
    set (s1 := mk_cstate (ip s) (finished s) (run s) hv t).
    assert (cinv s1) as Hs1 by (destruct Hs; split; done).
    destruct (put_literal_spec s1 Hs1 Hl ltac:(cbn; lia) Hroom) as (s' & -> & Hs' & Hip' & Hcases).
    eexists. split; [reflexivity|]. split; [done|]. split; [|rewrite Hip'; cbn; lia].
    destruct Hcases as [[? _]|[-> _]]; [done|cbn; lia].
Qed.

Lemma compress_loop_spec fuel : forall s, cinv s -> (length (run s) < 32)%nat -> (length inp - ip s < fuel)%nat ->
  exists r, compress_loop inp out_len fuel s = Some r /\
    match r with None => True | Some s' => cinv s' /\ (length (run s') < 32)%nat /\ (length inp <= ip s' + 2)%nat end.
Proof.
  induction fuel as [|fuel IH]; intros s Hs Hl Hf; [lia|]. cbn [compress_loop].
  destruct (Nat.ltb_spec (ip s + 2) (length inp)) as [Hip|Hip]; [|by exists (Some s)].
  destruct (compress_round_spec s Hs Hl Hip) as (r & -> & Hr). cbn [mbind option_bind]. destruct r as [|s'|s'].
  - by exists None.
  - by exists (Some s').
  - destruct Hr as (Hs' & Hl' & Hip'). apply IH; [done|done|lia].
Qed.

(** The last two bytes at most, and the end of the run. *)
Lemma tail_spec s : cinv s -> (length (run s) < 32)%nat -> (length inp <= ip s + 2)%nat -> (op s + 3 <= out_len)%nat ->
  exists c, (s ← tail_loop inp out_len 2 s; Some <$> stop_run out_len s) = Some (Some c) /\ decodes c inp /\ (length c <= out_len)%nat.
Proof.
  intros Hs Hl Hip Hop.
  assert (exists s', tail_loop inp out_len 2 s = Some s' /\ cinv s' /\ ip s' = length inp /\ (length (run s') < 32)%nat /\
    (length (finished s') + match run s' with [] => 0 | _ => 1 + length (run s') end <= out_len)%nat /\ (length (finished s') < out_len)%nat)
    as (s' & -> & Hs' & Hip' & Hl' & Hlen & Hf).
  { unfold op in Hop. cbn [tail_loop]. pose proof (ci_ip s Hs). destruct (Nat.ltb_spec (ip s) (length inp)) as [H1|H1].
    2: { exists s. split_and!; [done|done|lia|done|destruct (run s); simpl in *; lia|lia]. }
    destruct (put_literal_spec s Hs Hl H1 ltac:(unfold op; lia)) as (s1 & -> & Hs1 & Hip1 & Hc1). cbn [mbind option_bind].
    destruct (Nat.ltb_spec (ip s1) (length inp)) as [H2|H2].
    2: { exists s1. split_and!; [done|done|lia|..]; destruct Hc1 as [(Hl1 & Hr1 & Hf1)|(Hr1 & Hr & Hf1)]; rewrite ?Hf1, ?Hr1; cbn; try lia;
         destruct (run s1); simpl in *; lia. }
    assert (length (run s1) < 32 /\ op s1 < out_len)%nat as [Hl1 Ho1].
    { unfold op. destruct Hc1 as [(Hl1 & Hr1 & Hf1)|(Hr1 & Hr & Hf1)]; rewrite ?Hf1, ?Hr1; cbn; lia. }
    destruct (put_literal_spec s1 Hs1 Hl1 H2 Ho1) as (s2 & -> & Hs2 & Hip2 & Hc2). cbn [mbind option_bind].
    destruct (Nat.ltb_spec (ip s2) (length inp)) as [H3|H3]; [lia|]. exists s2. pose proof (ci_ip s2 Hs2).
    split_and!; [done|done|lia|..]; destruct Hc1 as [(Hl1' & Hr1 & Hf1)|(Hr1 & Hr & Hf1)], Hc2 as [(Hl2 & Hr2 & Hf2)|(Hr2 & Hr2' & Hf2)];
      rewrite ?Hf2, ?Hf1, ?Hr2, ?Hr1 in *; cbn in *; try lia; destruct (run s2); simpl in *; lia. }
  cbn [mbind option_bind]. destruct (stop_run_spec s' Hs' ltac:(lia) Hf) as (c & -> & Hd & Hlc). exists c.
  split; [done|]. rewrite Hip', take_ge in Hd by lia. split; [done|]. lia.
Qed.

Lemma compress_spec htab0 : (2 <= length inp)%nat -> (forall i, 0 <= htab0 i < 2 ^ 32) ->
  exists r, lzf_compress inp out_len htab0 = Some r /\ match r with None => True | Some c => decodes c inp /\ (length c <= out_len)%nat end.
Proof.
  intros Hl Ht. unfold lzf_compress. destruct (_ || _); [by exists None|]. destruct (frst_ok 0 ltac:(lia)) as (hv & ->). cbn [mbind option_bind].
  assert (cinv (mk_cstate 0 [] [] hv htab0)) as Hs.
  { split; cbn; [lia|split; [lia|done]|constructor|done]. }
  destruct (compress_loop_spec (S (length inp)) _ Hs) as (r & -> & Hr); [cbn; lia|cbn; lia|]. cbn [mbind option_bind].
  destruct r as [s|]; [|by exists None]. destruct Hr as (Hs' & Hl' & Hip').
  destruct (Nat.ltb_spec out_len (op s + 3)) as [|Hop]; [by exists None|].
  destruct (tail_spec s Hs' Hl' Hip' Hop) as (c & Hc & Hd & Hlen). exists (Some c). by split.
Qed.
End CompressProof.

(** ** The property *)

Lemma decodes_nonempty c out : decodes c out -> out <> [] -> c <> [].
Proof.
  destruct 1 as [|c out l _ _|c out off len ref out' _ _ _ _ _]; intros Ho; [done|by destruct c|].
  destruct (encode_ref_cons off len) as (x & t & ->). by destruct c.
Qed.

(** C26: for an input of less than 4 gigabytes that is not a single byte (for which the first hash reads
    the byte behind the input; the callers compress more than 20 bytes): lzf_compress, whatever its
    uninitialised hash table contains, reads only the input and writes only the
    output buffer; when it does not give up, its output fits the buffer and
    lzf_decompress turns it back into the input, for any output buffer that can
    hold it. *)
Theorem lzf_roundtrip s out_len htab0 buf_len :
  length s <> 1%nat -> Z.of_nat (length s) < 2 ^ 32 -> (forall i, 0 <= htab0 i < 2 ^ 32) -> (length s <= buf_len)%nat ->
  exists r, lzf_compress s out_len htab0 = Some r /\
    match r with
    | None => True
    | Some c => (length c <= out_len)%nat /\ lzf_decompress c buf_len = Some (Some s)
    end.
Proof.
  intros Hl H32 Ht Hb. destruct s as [|a s]; [by exists None|]. destruct (compress_spec (a :: s) out_len H32 htab0 ltac:(cbn [length] in *; lia) Ht) as (r & Hr & Hres). exists r. split; [done|].
  destruct r as [c|]; [|done]. destruct Hres as [Hd Hlen]. split; [done|]. apply decodes_decompress; [done| |done].
  by eapply decodes_nonempty.
Qed.

(** A single byte: FRST(ip) is out of bounds. *)
Example single_byte_overread htab0 : lzf_compress [97] 10 htab0 = None.
Proof. reflexivity. Qed.

Lemma lzf_roundtrip_witness :
  exists c, lzf_compress (replicate 40 97) 36 (fun i => i mod 100) = Some (Some c) /\ (length c <= 36)%nat /\
    lzf_decompress c 40 = Some (Some (replicate 40 97)).
Proof.
  destruct (lzf_roundtrip (replicate 40 97) 36 (fun i => i mod 100) 40) as (r & Hr & Hres).
  - cbn. lia.
  - cbn. lia.
  - intros i. pose proof (Z.mod_pos_bound i 100). lia.
  - cbn. lia.
  - destruct r as [c|]; [by exists c|]. vm_compute in Hr. discriminate.
Defined.
