(* ===== verification/Sds.v ===== *)
(** * Dynamic strings (src/redis-stable/src/sds.c, sds.h)

    An sds pointer points behind a header whose size depends on a type kept in the
    byte before the string: a block of memory is a byte list and the pointer is an
    offset in it, so that every access of the header and of the characters is an
    access of the block.  The operations are shown to implement operations on byte
    sequences, and to keep the header right: [sds_rep s c free] says that [s] points
    to the string [c] with the bytes [free] allocated after its terminator. *)
From stdpp Require Import prelude list.
From Stdlib Require Import ZArith Lia.
From S2P Require Import Prelude Endianconv.

Local Open Scope Z_scope.
Local Open Scope redis_scope.

(** ** The model *)

Definition SDS_TYPE_5 : Z := 0.
Definition SDS_TYPE_8 : Z := 1.
Definition SDS_TYPE_16 : Z := 2.
Definition SDS_TYPE_32 : Z := 3.
Definition SDS_TYPE_64 : Z := 4.
Definition SDS_TYPE_MASK : Z := 7.
Definition SDS_MAX_PREALLOC : Z := 1024 * 1024.

(** The width of the length fields of struct sdshdr8 to sdshdr64; [None] for the
    other values of the type bits. *)
Definition hdr_width (type : Z) : option nat :=
  if type =? SDS_TYPE_8 then Some 1%nat else if type =? SDS_TYPE_16 then Some 2%nat
  else if type =? SDS_TYPE_32 then Some 4%nat else if type =? SDS_TYPE_64 then Some 8%nat else None.

Definition sdsHdrSize (type : Z) : Z :=
  let type := Z.land type SDS_TYPE_MASK in
  if type =? SDS_TYPE_5 then 1
  else match hdr_width type with Some w => 2 * Z.of_nat w + 1 | None => 0 end.

Definition sdsReqType (string_size : Z) : Z :=
  if string_size <? 2 ^ 5 then SDS_TYPE_5
  else if string_size <? 2 ^ 8 then SDS_TYPE_8
  else if string_size <? 2 ^ 16 then SDS_TYPE_16
  else if string_size <? 2 ^ 32 then SDS_TYPE_32 else SDS_TYPE_64.

(** A char * into an allocated block. *)
Record sds := mk_sds { blk : list Z; off : Z }.

Section Sds.
Context `{Host}.

(** s[i], s[i] = c, and the fields len and alloc of the header, of width [w]. *)
Definition get_char (s : sds) (i : Z) : option Z := c ← mread (blk s) (off s + i) 1; head c.
Definition put_bytes (s : sds) (i : Z) (bs : list Z) : option sds :=
  b ← mwrite (blk s) (off s + i) bs; Some (mk_sds b (off s)).
Definition get_len (w : nat) (s : sds) : option Z :=
  bs ← mread (blk s) (off s - (2 * Z.of_nat w + 1)) (Z.of_nat w); Some (host_load bs).
Definition get_alloc (w : nat) (s : sds) : option Z :=
  bs ← mread (blk s) (off s - (Z.of_nat w + 1)) (Z.of_nat w); Some (host_load bs).
Definition set_len (w : nat) (s : sds) (v : Z) : option sds := put_bytes s (- (2 * Z.of_nat w + 1)) (host_store w v).
Definition set_alloc (w : nat) (s : sds) (v : Z) : option sds := put_bytes s (- (Z.of_nat w + 1)) (host_store w v).

Definition sdslen (s : sds) : option Z :=
  flags ← get_char s (-1);
  let type := Z.land flags SDS_TYPE_MASK in
  if type =? SDS_TYPE_5 then Some (Z.shiftr flags 3)
  else match hdr_width type with Some w => get_len w s | None => Some 0 end.

Definition sdsavail (s : sds) : option Z :=
  flags ← get_char s (-1);
  let type := Z.land flags SDS_TYPE_MASK in
  if type =? SDS_TYPE_5 then Some 0
  else match hdr_width type with
       | Some w => alloc ← get_alloc w s; len ← get_len w s; Some (u64 (alloc - len))
       | None => Some 0
       end.

Definition sdsalloc (s : sds) : option Z :=
  flags ← get_char s (-1);
  let type := Z.land flags SDS_TYPE_MASK in
  if type =? SDS_TYPE_5 then Some (Z.shiftr flags 3)
  else match hdr_width type with Some w => get_alloc w s | None => Some 0 end.

Definition sdssetlen (s : sds) (newlen : Z) : option sds :=
  flags ← get_char s (-1);
  let type := Z.land flags SDS_TYPE_MASK in
  if type =? SDS_TYPE_5 then put_bytes s (-1) [u8 (Z.lor SDS_TYPE_5 (Z.shiftl newlen 3))]
  else match hdr_width type with Some w => set_len w s newlen | None => Some s end.

Definition sdssetalloc (s : sds) (newlen : Z) : option sds :=
  flags ← get_char s (-1);
  let type := Z.land flags SDS_TYPE_MASK in
  if type =? SDS_TYPE_5 then Some s
  else match hdr_width type with Some w => set_alloc w s newlen | None => Some s end.

(** The allocator returns a block of the size asked for with any content; it does
    not return NULL but ends the process when there is no memory. *)
Context (malloc : Z -> list Z).
Definition realloc (b : list Z) (n : Z) : list Z := take (Z.to_nat n) b ++ drop (length b) (malloc n).

(** What the new string is initialised with: the bytes at a pointer, nothing
    (SDS_NOINIT) or zeroes (NULL). *)
Inductive sds_init := InitBytes (bs : list Z) | InitNone | InitZero.

Definition sdsnewlen (init : sds_init) (initlen : Z) : option sds :=
  let type := sdsReqType initlen in
  let type := if (type =? SDS_TYPE_5) && (initlen =? 0) then SDS_TYPE_8 else type in
  let hdrlen := sdsHdrSize type in
  let size := u64 (hdrlen + initlen + 1) in
  let sh := match init with InitZero => replicate (Z.to_nat size) 0 | _ => malloc size end in
  let s := mk_sds sh hdrlen in
  s ← (if type =? SDS_TYPE_5 then put_bytes s (-1) [u8 (Z.lor type (Z.shiftl initlen 3))]
       else match hdr_width type with
            | Some w => s ← set_len w s initlen; s ← set_alloc w s initlen; put_bytes s (-1) [type]
            | None => Some s
            end);
  s ← match init with
      | InitBytes bs => if initlen =? 0 then Some s else bs ← mread bs 0 initlen; put_bytes s 0 bs
      | _ => Some s
      end;
  put_bytes s initlen [0].

Definition sdsempty : option sds := sdsnewlen (InitBytes [0]) 0.
Definition sdsdup (s : sds) : option sds :=
  n ← sdslen s; sdsnewlen (InitBytes (drop (Z.to_nat (off s)) (blk s))) n.

(** strlen(s) for the bytes at [s]: the bytes before the first zero. *)
Fixpoint strlen (bs : list Z) : option nat :=
  match bs with [] => None | c :: bs => if c =? 0 then Some O else S <$> strlen bs end.

Definition sdsupdatelen (s : sds) : option sds :=
  n ← strlen (drop (Z.to_nat (off s)) (blk s)); sdssetlen s (Z.of_nat n).

Definition sdsclear (s : sds) : option sds := s ← sdssetlen s 0; put_bytes s 0 [0].

Definition sdsMakeRoomFor (s : sds) (addlen : Z) : option sds :=
  avail ← sdsavail s;
  flags ← get_char s (-1);
  let oldtype := Z.land flags SDS_TYPE_MASK in
  if avail >=? addlen then Some s
  else
    len ← sdslen s;
    let newlen := u64 (len + addlen) in
    let newlen := if newlen <? SDS_MAX_PREALLOC then u64 (newlen * 2) else u64 (newlen + SDS_MAX_PREALLOC) in
    let type := sdsReqType newlen in
    let type := if type =? SDS_TYPE_5 then SDS_TYPE_8 else type in
    let hdrlen := sdsHdrSize type in
    let size := u64 (hdrlen + newlen + 1) in
    s ← (if oldtype =? type then Some (mk_sds (realloc (blk s) size) hdrlen)
         else
           bs ← mread (blk s) (off s) (len + 1);
           newsh ← mwrite (malloc size) hdrlen bs;
           s ← put_bytes (mk_sds newsh hdrlen) (-1) [type];
           sdssetlen s len);
    sdssetalloc s newlen.

Definition sdsRemoveFreeSpace (s : sds) : option sds :=
  flags ← get_char s (-1);
  let oldtype := Z.land flags SDS_TYPE_MASK in
  let oldhdrlen := sdsHdrSize oldtype in
  len ← sdslen s;
  avail ← sdsavail s;
  if avail =? 0 then Some s
  else
    let type := sdsReqType len in
    let hdrlen := sdsHdrSize type in
    s ← (if (oldtype =? type) || (type >? SDS_TYPE_8)
         then Some (mk_sds (realloc (blk s) (u64 (oldhdrlen + len + 1))) oldhdrlen)
         else
           bs ← mread (blk s) (off s) (len + 1);
           newsh ← mwrite (malloc (u64 (hdrlen + len + 1))) hdrlen bs;
           s ← put_bytes (mk_sds newsh hdrlen) (-1) [type];
           sdssetlen s len);
    sdssetalloc s len.

Definition sdsAllocSize (s : sds) : option Z :=
  alloc ← sdsalloc s; flags ← get_char s (-1); Some (sdsHdrSize flags + alloc + 1).

(** The sum of the assignment is reduced to the width of the field, and so is the
    unsigned comparison of the assertions to 64 bits. *)
Definition sdsIncrLen (s : sds) (incr : Z) : option sds :=
  flags ← get_char s (-1);
  let type := Z.land flags SDS_TYPE_MASK in
  if type =? SDS_TYPE_5 then
    let oldlen := Z.shiftr flags 3 in
    assert! ((0 <? incr) && (oldlen + incr <? 32) || (incr <? 0) && (u32 (- incr) <=? oldlen)) ;;
    s ← put_bytes s (-1) [u8 (Z.lor SDS_TYPE_5 (Z.shiftl (oldlen + incr) 3))];
    put_bytes s (oldlen + incr) [0]
  else match hdr_width type with
  | Some w =>
    len ← get_len w s; alloc ← get_alloc w s;
    assert! ((0 <=? incr) && ((if (w =? 4)%nat then u32 incr else incr) <=?
                              (if (w =? 4)%nat then u32 (alloc - len) else if (w =? 8)%nat then u64 (alloc - len) else alloc - len)) ||
             (incr <? 0) && ((if (w =? 8)%nat then u64 (- incr) else u32 (- incr)) <=? len)) ;;
    let newlen := (len + incr) mod 2 ^ (8 * Z.of_nat w) in
    s ← set_len w s newlen;
    put_bytes s newlen [0]
  | None => put_bytes s 0 [0]
  end.

Definition sdsgrowzero (s : sds) (len : Z) : option sds :=
  curlen ← sdslen s;
  if len <=? curlen then Some s
  else
    s ← sdsMakeRoomFor s (len - curlen);
    s ← put_bytes s curlen (replicate (Z.to_nat (len - curlen + 1)) 0);
    sdssetlen s len.

(** [t] holds the bytes at the pointer [t], which is outside the block of [s]. *)
Definition sdscatlen (s : sds) (t : list Z) (len : Z) : option sds :=
  curlen ← sdslen s;
  s ← sdsMakeRoomFor s len;
  bs ← mread t 0 len;
  s ← put_bytes s curlen bs;
  s ← sdssetlen s (curlen + len);
  put_bytes s (curlen + len) [0].
Definition sdscat (s : sds) (t : list Z) : option sds := n ← strlen t; sdscatlen s t (Z.of_nat n).
Definition sdscatsds (s t : sds) : option sds :=
  n ← sdslen t; sdscatlen s (drop (Z.to_nat (off t)) (blk t)) n.

Definition sdscpylen (s : sds) (t : list Z) (len : Z) : option sds :=
  alloc ← sdsalloc s;
  s ← (if alloc <? len then n ← sdslen s; sdsMakeRoomFor s (len - n) else Some s);
  bs ← mread t 0 len;
  s ← put_bytes s 0 bs;
  s ← put_bytes s len [0];
  sdssetlen s len.
Definition sdscpy (s : sds) (t : list Z) : option sds := n ← strlen t; sdscpylen s t (Z.of_nat n).

(** *** Cutting *)

(** strchr(cset,c), which ends at the first zero byte and also finds it *)
Fixpoint strchr (cset : list Z) (c : Z) : bool :=
  match cset with [] => c =? 0 | x :: cset => if x =? c then true else if x =? 0 then false else strchr cset c end.

Fixpoint trim_left (fuel : nat) (cset : list Z) (s : sds) (sp end_ : Z) : option Z :=
  if sp <=? end_ then
    match fuel with
    | O => None
    | S fuel =>
      c ← get_char s sp;
      if strchr cset c then trim_left fuel cset s (sp + 1) end_ else Some sp
    end
  else Some sp.
Fixpoint trim_right (fuel : nat) (cset : list Z) (s : sds) (sp ep : Z) : option Z :=
  if ep >? sp then
    match fuel with
    | O => None
    | S fuel =>
      c ← get_char s ep;
      if strchr cset c then trim_right fuel cset s sp (ep - 1) else Some ep
    end
  else Some ep.

(** memmove(s+dst, s+src, n) *)
Definition move_chars (s : sds) (dst src n : Z) : option sds :=
  b ← memmove (blk s) (off s + dst) (off s + src) n; Some (mk_sds b (off s)).

(** The pointers are offsets from s. *)
Definition sdstrim (s : sds) (cset : list Z) : option sds :=
  n ← sdslen s;
  sp ← trim_left (Z.to_nat n) cset s 0 (n - 1);
  ep ← trim_right (Z.to_nat n) cset s sp (n - 1);
  let len := if sp >? ep then 0 else ep - sp + 1 in
  s ← (if negb (sp =? 0) then move_chars s 0 sp len else Some s);
  s ← put_bytes s len [0];
  sdssetlen s len.

(** (end-start)+1 in signed arithmetic *)
Definition span_len (start end_ : Z) : option Z :=
  if start >? end_ then Some 0 else assert! (end_ - start + 1 <=? LONG_MAX) ;; Some (end_ - start + 1).

Definition sdsrange (s : sds) (start end_ : Z) : option sds :=
  len ← sdslen s;
  if len =? 0 then Some s
  else
    let start := if start <? 0 then Z.max 0 (s64 (u64 (len + start))) else start in
    let end_ := if end_ <? 0 then Z.max 0 (s64 (u64 (len + end_))) else end_ in
    newlen ← span_len start end_;
    '(start, newlen) ←
      (if negb (newlen =? 0) then
         if start >=? len then Some (start, 0)
         else if end_ >=? len then n ← span_len start (len - 1); Some (start, n)
         else Some (start, newlen)
       else Some (0, newlen));
    s ← (if negb (start =? 0) && negb (newlen =? 0) then move_chars s 0 start newlen else Some s);
    s ← put_bytes s newlen [0];
    sdssetlen s newlen.

(** for (j = 0; j < len; j++) s[j] = f(s[j]) *)
Fixpoint map_loop (f : Z -> Z) (n : nat) (j : Z) (s : sds) : option sds :=
  match n with
  | O => Some s
  | S n => c ← get_char s j; s ← put_bytes s j [f c]; map_loop f n (j + 1) s
  end.
Definition to_lower (c : Z) : Z := if (65 <=? c) && (c <=? 90) then c + 32 else c.
Definition to_upper (c : Z) : Z := if (97 <=? c) && (c <=? 122) then c - 32 else c.
Definition sdstolower (s : sds) : option sds := n ← sdslen s; map_loop to_lower (Z.to_nat n) 0 s.
Definition sdstoupper (s : sds) : option sds := n ← sdslen s; map_loop to_upper (Z.to_nat n) 0 s.

(** The inner loop of sdsmapchars: the first position of the character in from. *)
Fixpoint map_char (from to : list Z) (c : Z) : Z :=
  match from, to with
  | f :: from, t :: to => if c =? f then t else map_char from to c
  | _, _ => c
  end.
Definition sdsmapchars (s : sds) (from to : list Z) (setlen : Z) : option sds :=
  n ← sdslen s; map_loop (map_char (take (Z.to_nat setlen) from) (take (Z.to_nat setlen) to)) (Z.to_nat n) 0 s.
End Sds.

(** ** Representation *)

Section Rep.
Context `{Host}.

Definition hdr (ty len alloc : Z) : list Z :=
  match hdr_width ty with
  | Some w => host_store w len ++ host_store w alloc ++ [ty]
  | None => [Z.shiftl len 3]
  end.

(** The length [n] can be stored in a header of type [ty]. *)
Definition fits (ty n : Z) : Prop :=
  (ty = SDS_TYPE_5 /\ 0 <= n < 32) \/ exists w, hdr_width ty = Some w /\ 0 <= n < 2 ^ (8 * Z.of_nat w).

(** A header followed by the characters. *)
Definition raw (ty len alloc : Z) (body : list Z) : sds :=
  mk_sds (hdr ty len alloc ++ body) (Z.of_nat (length (hdr ty len alloc))).

Definition zlen (l : list Z) : Z := Z.of_nat (length l).

(** [s] points to the string [c], its terminator and [free] more bytes, with a
    header of type [ty]. *)
Record sds_rep (s : sds) (ty : Z) (c free : list Z) : Prop := {
  sr_block : s = raw ty (zlen c) (zlen c + zlen free) (c ++ 0 :: free);
  sr_len : fits ty (zlen c);
  sr_alloc : ty <> SDS_TYPE_5 -> fits ty (zlen c + zlen free) }.

Lemma hdr_width_cases ty w : hdr_width ty = Some w ->
  (ty = 1 /\ w = 1%nat) \/ (ty = 2 /\ w = 2%nat) \/ (ty = 3 /\ w = 4%nat) \/ (ty = 4 /\ w = 8%nat).
Proof. unfold hdr_width, SDS_TYPE_8, SDS_TYPE_16, SDS_TYPE_32, SDS_TYPE_64. intros Hw. repeat (bdestr1; simplify_eq; auto 6). Qed.

(** The cases of a valid type: the small header, or a width. *)
Lemma fits_cases ty n : fits ty n ->
  (ty = 0 /\ hdr_width ty = None /\ 0 <= n < 32) \/
  (exists w, hdr_width ty = Some w /\ (ty =? SDS_TYPE_5) = false /\ Z.land ty 7 = ty /\ (1 <= w <= 8)%nat /\ 0 <= n < 2 ^ (8 * Z.of_nat w)).
Proof.
  intros [[-> Hn]|(w & Hw & Hn)]; [left; auto|right]. exists w. split_and!; try lia; try done;
    destruct (hdr_width_cases _ _ Hw) as [[-> ->]|[[-> ->]|[[-> ->]|[-> ->]]]]; try done; lia.
Qed.

Lemma length_hdr ty n a : fits ty n -> Z.of_nat (length (hdr ty n a)) = sdsHdrSize ty.
Proof.
  intros [(-> & Hw & Hn)|(w & Hw & Hne & Hl & Hr & Hn)]%fits_cases; unfold hdr, sdsHdrSize, SDS_TYPE_MASK.
  - done.
  - rewrite Hl, Hne, Hw, !length_app, !length_host_store. simpl. lia.
Qed.

Lemma flags5 n : 0 <= n < 32 -> Z.land (Z.shiftl n 3) 7 = 0 /\ Z.shiftr (Z.shiftl n 3) 3 = n /\ u8 (Z.shiftl n 3) = Z.shiftl n 3.
Proof.
  intros Hn. change 7 with (Z.ones 3). rewrite Z.land_ones by lia. rewrite Z.shiftl_mul_pow2, Z.shiftr_div_pow2 by lia.
  rewrite Z.mod_mul, Z.div_mul by lia. split_and!; [done|done|]. apply u8_small. lia.
Qed.

(** *** Accesses of a block of this shape *)

Lemma put_bytes_at pre old bs post o i :
  o + i = Z.of_nat (length pre) -> length old = length bs ->
  put_bytes (mk_sds (pre ++ old ++ post) o) i bs = Some (mk_sds (pre ++ bs ++ post) o).
Proof. intros Ho Hl. unfold put_bytes. simpl. rewrite Ho, mwrite_app by done. done. Qed.

Lemma put_raw ty n a A old B bs i :
  i = zlen A -> length old = length bs ->
  put_bytes (raw ty n a (A ++ old ++ B)) i bs = Some (raw ty n a (A ++ bs ++ B)).
Proof.
  intros -> Hl. unfold raw. rewrite app_assoc, put_bytes_at by (rewrite ?length_app; unfold zlen; lia || done).
  by rewrite <- app_assoc.
Qed.

Lemma get_raw ty n a A c B i : i = zlen A -> get_char (raw ty n a (A ++ c :: B)) i = Some c.
Proof.
  intros ->. unfold get_char, raw. simpl. rewrite app_assoc. change (c :: B) with ([c] ++ B).
  rewrite mread_app; [done|rewrite length_app; unfold zlen; lia|done].
Qed.

Lemma flags_raw ty n a body : fits ty n ->
  exists f, get_char (raw ty n a body) (-1) = Some f /\ Z.land f SDS_TYPE_MASK = ty /\ (ty = 0 -> f = Z.shiftl n 3).
Proof.
  intros [(-> & Hw & Hn)|(w & Hw & Hne & Hl & Hr & Hn)]%fits_cases; unfold raw, hdr, SDS_TYPE_MASK; rewrite Hw.
  - exists (Z.shiftl n 3). split_and!; [|by apply flags5|done].
    unfold get_char. cbn [blk off length]. pose proof (mread_app [] [Z.shiftl n 3] body 0 1 eq_refl eq_refl) as Hr.
    cbn [app] in Hr. cbn [app]. change (Z.of_nat 1 + -1) with 0. by rewrite Hr.
  - exists ty. split_and!; [|done|intros ->; done].
    unfold get_char. cbn [blk off]. rewrite !length_app, (app_assoc (host_store w n)), <- app_assoc.
    rewrite mread_app; [done|rewrite !length_app; simpl; lia|done].
Qed.

Ltac with_flags Hf :=
  match goal with |- context [get_char (raw ?ty ?n ?a ?b) (-1)] =>
    let f := fresh "f" in let E := fresh "E" in let L := fresh "L" in let Fz := fresh "Fz" in
    destruct (flags_raw ty n a b Hf) as (f & E & L & Fz); rewrite E; cbn [mbind option_bind]; rewrite L
  end.

Lemma get_len_raw ty w n a body : hdr_width ty = Some w -> 0 <= n < 2 ^ (8 * Z.of_nat w) -> get_len w (raw ty n a body) = Some n.
Proof.
  intros Hw Hn. unfold get_len, raw, hdr. rewrite Hw. simpl. rewrite <- app_assoc.
  pose proof (mread_app [] (host_store w n) ((host_store w a ++ [ty]) ++ body)) as Hr. simpl in Hr.
  rewrite Hr by (rewrite ?length_app, ?length_host_store; simpl; lia). cbn [mbind option_bind].
  by rewrite host_load_store, Z.mod_small.
Qed.

Lemma get_alloc_raw ty w n a body : hdr_width ty = Some w -> 0 <= a < 2 ^ (8 * Z.of_nat w) -> get_alloc w (raw ty n a body) = Some a.
Proof.
  intros Hw Hn. unfold get_alloc, raw, hdr. rewrite Hw. simpl. rewrite <- !app_assoc.
  rewrite mread_app by (rewrite ?length_app, ?length_host_store; simpl; lia). cbn [mbind option_bind].
  by rewrite host_load_store, Z.mod_small.
Qed.

Lemma set_len_raw ty w n a body m : hdr_width ty = Some w -> set_len w (raw ty n a body) m = Some (raw ty m a body).
Proof.
  intros Hw. unfold set_len, raw, hdr. rewrite Hw, <- !app_assoc.
  pose proof (put_bytes_at [] (host_store w n) (host_store w m) (host_store w a ++ [ty] ++ body)) as Hp. cbn [app] in *.
  rewrite Hp; rewrite ?length_app, ?length_host_store; simpl; [done|lia|done].
Qed.

Lemma set_alloc_raw ty w n a body m : hdr_width ty = Some w -> set_alloc w (raw ty n a body) m = Some (raw ty n m body).
Proof.
  intros Hw. unfold set_alloc, raw, hdr. rewrite Hw, <- !app_assoc.
  rewrite put_bytes_at; rewrite ?length_app, ?length_host_store; simpl; [done|lia|done].
Qed.

Lemma sdslen_raw ty n a body : fits ty n -> sdslen (raw ty n a body) = Some n.
Proof.
  intros Hf. unfold sdslen. with_flags Hf.
  apply fits_cases in Hf as [(-> & Hw & Hn)|(w & Hw & Hne & Hl & Hr & Hn)].
  - rewrite (Fz eq_refl). simpl. f_equal. by apply flags5.
  - rewrite Hne, Hw. by apply get_len_raw.
Qed.

Lemma sdsalloc_raw ty n a body :
  fits ty n -> (ty <> SDS_TYPE_5 -> fits ty a) -> sdsalloc (raw ty n a body) = Some (if ty =? SDS_TYPE_5 then n else a).
Proof.
  intros Hf Ha. unfold sdsalloc. with_flags Hf.
  apply fits_cases in Hf as [(-> & Hw & Hn)|(w & Hw & Hne & Hl & Hr & Hn)].
  - rewrite (Fz eq_refl). simpl. f_equal. by apply flags5.
  - rewrite Hne, Hw. apply Z.eqb_neq in Hne. destruct (fits_cases _ _ (Ha Hne)) as [(-> & _)|(w' & Hw' & _ & _ & _ & Ha')]; [done|].
    apply get_alloc_raw; congruence.
Qed.

Lemma sdsavail_raw ty n a body :
  fits ty n -> (ty <> SDS_TYPE_5 -> fits ty a) -> n <= a -> sdsavail (raw ty n a body) = Some (if ty =? SDS_TYPE_5 then 0 else a - n).
Proof.
  intros Hf Ha Hle. unfold sdsavail. with_flags Hf.
  apply fits_cases in Hf as [(-> & Hw & Hn)|(w & Hw & Hne & Hl & Hr & Hn)]; [done|].
  rewrite Hne, Hw. apply Z.eqb_neq in Hne. destruct (fits_cases _ _ (Ha Hne)) as [(-> & _)|(w' & Hw' & _ & _ & _ & Ha')]; [done|].
  assert (w' = w) as -> by congruence. rewrite (get_alloc_raw ty w), (get_len_raw ty w) by done. cbn [mbind option_bind].
  f_equal. apply u64_small. assert (2 ^ (8 * Z.of_nat w) <= 2 ^ 64) by (apply Z.pow_le_mono_r; lia). lia.
Qed.

Lemma sdssetlen_raw ty n a body m : fits ty n -> fits ty m -> sdssetlen (raw ty n a body) m = Some (raw ty m a body).
Proof.
  intros Hf Hm. unfold sdssetlen. with_flags Hf.
  apply fits_cases in Hf as [(-> & Hw & Hn)|(w & Hw & Hne & Hl & Hr & Hn)].
  - apply fits_cases in Hm as [(_ & _ & Hm)|(w & Hw' & _)]; [|congruence]. unfold SDS_TYPE_5. rewrite Z.eqb_refl, Z.lor_0_l.
    destruct (flags5 m Hm) as (_ & _ & Hu). rewrite Hu. unfold raw, hdr. rewrite Hw.
    pose proof (put_bytes_at [] [Z.shiftl n 3] [Z.shiftl m 3] body 1 (-1) eq_refl eq_refl) as Hp. exact Hp.
  - rewrite Hne, Hw. by apply set_len_raw.
Qed.

Lemma sdssetalloc_raw ty n a body m : fits ty n -> sdssetalloc (raw ty n a body) m = Some (raw ty n m body).
Proof.
  intros Hf. unfold sdssetalloc. with_flags Hf.
  apply fits_cases in Hf as [(-> & Hw & Hn)|(w & Hw & Hne & Hl & Hr & Hn)].
  - unfold raw, hdr. by rewrite Hw.
  - rewrite Hne, Hw. by apply set_alloc_raw.
Qed.

(** *** The accessors on a string *)
Lemma zlen_nonneg l : 0 <= zlen l.
Proof. unfold zlen. lia. Qed.

Lemma sdslen_rep s ty c free : sds_rep s ty c free -> sdslen s = Some (zlen c).
Proof. intros [-> Hl _]. by apply sdslen_raw. Qed.

Lemma sdsavail_rep s ty c free :
  sds_rep s ty c free -> sdsavail s = Some (if ty =? SDS_TYPE_5 then 0 else zlen free).
Proof.
  intros [-> Hl Ha]. pose proof (zlen_nonneg free). rewrite sdsavail_raw; [|exact Hl|exact Ha|lia]. destruct (_ =? _); f_equal; lia.
Qed.

Lemma sdsalloc_rep s ty c free :
  sds_rep s ty c free -> sdsalloc s = Some (if ty =? SDS_TYPE_5 then zlen c else zlen c + zlen free).
Proof. intros [-> Hl Ha]. by apply sdsalloc_raw. Qed.

Lemma rep_nul s ty c free : sds_rep s ty c free -> get_char s (zlen c) = Some 0.
Proof. intros [-> Hl Ha]. by apply get_raw. Qed.

Lemma sdsAllocSize_rep s ty c free :
  sds_rep s ty c free -> ty <> SDS_TYPE_5 -> sdsAllocSize s = Some (zlen (blk s)).
Proof.
  intros Hr Hne. unfold sdsAllocSize. rewrite (sdsalloc_rep _ _ _ _ Hr). apply Z.eqb_neq in Hne. rewrite Hne.
  destruct Hr as [-> Hl Ha]. cbn [mbind option_bind]. destruct (flags_raw _ _ (zlen c + zlen free) (c ++ 0 :: free) Hl) as (f & -> & L & _).
  cbn [mbind option_bind]. f_equal.
  assert (sdsHdrSize f = sdsHdrSize ty) as ->.
  { destruct (fits_cases _ _ Hl) as [(-> & _)|(w & _ & _ & Hl7 & _)]; unfold sdsHdrSize; rewrite L; [done|]. unfold SDS_TYPE_MASK. by rewrite Hl7. }
  unfold zlen at 3. unfold raw. cbn [blk]. rewrite !length_app, !Nat2Z.inj_add, (length_hdr _ _ _ Hl). simpl.
  unfold zlen. lia.
Qed.

(** ** The operations *)

Lemma fits_mono ty n m : fits ty n -> 0 <= m <= n -> fits ty m.
Proof. intros [[-> Hn]|(w & Hw & Hn)] Hm; [left; split; [done|lia]|right; exists w; split; [done|lia]]. Qed.

Lemma sdsReqType_fits n : 0 <= n < 2 ^ 64 -> fits (sdsReqType n) n.
Proof.
  intros Hn. unfold sdsReqType. repeat bdestr1; [left; split; [done|lia]|right..].
  - exists 1%nat. split; [done|simpl; lia].
  - exists 2%nat. split; [done|simpl; lia].
  - exists 4%nat. split; [done|simpl; lia].
  - exists 8%nat. split; [done|simpl; lia].
Qed.

Lemma sdsHdrSize_range ty n : fits ty n -> 1 <= sdsHdrSize ty <= 17.
Proof.
  intros [(-> & Hw & Hn)|(w & Hw & Hne & Hl & Hr & Hn)]%fits_cases; [done|].
  unfold sdsHdrSize, SDS_TYPE_MASK. rewrite Hl, Hne, Hw. lia.
Qed.

(** The memory the allocator returns. *)
Context (malloc : Z -> list Z).
Context (malloc_size : forall n, 0 <= n -> zlen (malloc n) = n).
Context (malloc_bytes : forall n, Forall is_byte (malloc n)).

Lemma host_load_range bs : Forall is_byte bs -> 0 <= host_load bs < 2 ^ (8 * Z.of_nat (length bs)).
Proof.
  intros Hb. unfold host_load. destruct big_endian; [|by apply le_val_range].
  rewrite <- (length_reverse bs). apply le_val_range. by apply Forall_reverse.
Qed.

(** Bytes in the place of a header are a header once the type is stored. *)
Lemma junk_header ty m P :
  fits ty m -> Forall is_byte P -> zlen P = sdsHdrSize ty ->
  exists n a x, fits ty n /\ P = match hdr_width ty with Some w => host_store w n ++ host_store w a ++ [x] | None => [x] end.
Proof.
  intros [(-> & Hw & Hn)|(w & Hw & Hne & Hl & Hr & Hn)]%fits_cases HP Hz; rewrite Hw; unfold zlen in Hz.
  - unfold sdsHdrSize in Hz. simpl in Hz. destruct P as [|x [|]]; simpl in Hz; [lia| |lia].
    exists 0, 0, x. split; [left; split; [done|lia]|done].
  - unfold sdsHdrSize, SDS_TYPE_MASK in Hz. rewrite Hl, Hne, Hw in Hz.
    rewrite <- (take_drop w P), <- (take_drop w (drop w P)) in HP |- *.
    apply Forall_app in HP as [H1 HP]. apply Forall_app in HP as [H2 H3].
    assert (length (take w P) = w) as L1 by (rewrite length_take; lia).
    assert (length (take w (drop w P)) = w) as L2 by (rewrite length_take, length_drop; lia).
    assert (length (drop w (drop w P)) = 1%nat) as L3 by (rewrite !length_drop; lia).
    destruct (drop w (drop w P)) as [|x [|]]; try (simpl in L3; lia).
    exists (host_load (take w P)), (host_load (take w (drop w P))), x. split.
    + right. exists w. split; [done|]. pose proof (host_load_range _ H1) as Hg. by rewrite L1 in Hg.
    + pose proof (host_store_load _ H1) as S1. pose proof (host_store_load _ H2) as S2. rewrite L1 in S1. rewrite L2 in S2. by rewrite S1, S2.
Qed.

Lemma stamp_type ty m P :
  fits ty m -> Forall is_byte P -> zlen P = sdsHdrSize ty ->
  exists n a, fits ty n /\ forall body, put_bytes (mk_sds (P ++ body) (sdsHdrSize ty)) (-1) [ty] = Some (raw ty n a body).
Proof.
  intros Hm HP Hz. destruct (junk_header ty m P Hm HP Hz) as (n & a & x & Hf & ->).
  assert (Hcase : ty = 0 \/ exists w, hdr_width ty = Some w) by (destruct Hm as [[-> _]|(w & Hw & _)]; eauto).
  destruct Hcase as [->|(w & Hw)].
  - exists 0, a. split; [left; split; [done|lia]|]. intros body.
    exact (put_bytes_at [] [x] [0] body 1 (-1) eq_refl eq_refl).
  - exists n, a. split; [done|]. intros body. rewrite Hw in Hz |- *.
    unfold raw, hdr. rewrite Hw. rewrite !(app_assoc (host_store w n)), <- !(app_assoc _ _ body).
    unfold zlen in Hz. rewrite !length_app in *. rewrite put_bytes_at; [|rewrite length_app; simpl in *; lia|done].
    do 2 f_equal. simpl in *. lia.
Qed.

Lemma init_header ty n P body :
  fits ty n -> Forall is_byte P -> zlen P = sdsHdrSize ty ->
  (if ty =? SDS_TYPE_5 then put_bytes (mk_sds (P ++ body) (sdsHdrSize ty)) (-1) [u8 (Z.lor ty (Z.shiftl n 3))]
   else match hdr_width ty with
        | Some w => s ← set_len w (mk_sds (P ++ body) (sdsHdrSize ty)) n; s ← set_alloc w s n; put_bytes s (-1) [ty]
        | None => Some (mk_sds (P ++ body) (sdsHdrSize ty))
        end) = Some (raw ty n n body).
Proof.
  intros Hf HP Hz. destruct (junk_header ty n P Hf HP Hz) as (n0 & a & x & Hf0 & ->).
  destruct (fits_cases _ _ Hf) as [(-> & Hw & Hn)|(w & Hw & Hne & Hl & Hr & Hn)]; rewrite Hw in *.
  - change (0 =? SDS_TYPE_5) with true. cbv iota. rewrite Z.lor_0_l. destruct (flags5 n Hn) as (_ & _ & ->).
    exact (put_bytes_at [] [x] [Z.shiftl n 3] body 1 (-1) eq_refl eq_refl).
  - rewrite Hne. assert (sdsHdrSize ty = 2 * Z.of_nat w + 1) as Hs by (unfold sdsHdrSize, SDS_TYPE_MASK; by rewrite Hl, Hne, Hw).
    rewrite Hs. unfold set_len, set_alloc. rewrite <- !app_assoc.
    pose proof (put_bytes_at [] (host_store w n0) (host_store w n) (host_store w a ++ [x] ++ body)) as Hp. cbn [app] in *.
    rewrite Hp by (rewrite ?length_host_store; simpl; lia). cbn [mbind option_bind].
    rewrite put_bytes_at by (rewrite ?length_host_store; simpl; lia). cbn [mbind option_bind].
    rewrite (app_assoc (host_store w n)). change (x :: body) with ([x] ++ body).
    rewrite put_bytes_at by (rewrite ?length_app, ?length_host_store; simpl; lia).
    unfold raw, hdr. rewrite Hw, <- !app_assoc, !length_app, !length_host_store. do 2 f_equal. simpl. lia.
Qed.

(** A block from the allocator, cut into the place of the header and the rest. *)
Lemma malloc_split h m : 0 <= h -> 0 <= m ->
  exists P body, malloc (h + m) = P ++ body /\ zlen P = h /\ zlen body = m /\ Forall is_byte P.
Proof.
  intros Hh Hm. exists (take (Z.to_nat h) (malloc (h + m))), (drop (Z.to_nat h) (malloc (h + m))).
  pose proof (malloc_size (h + m) ltac:(lia)) as Hz. unfold zlen in *. rewrite take_drop, length_take, length_drop.
  split_and!; [done|lia|lia|]. apply Forall_take, malloc_bytes.
Qed.

(** The content of a new string: the bytes given, any bytes, or zeroes. *)
Definition init_content (init : sds_init) (n : Z) (c : list Z) : Prop :=
  zlen c = n /\
  match init with InitBytes bs => c = take (Z.to_nat n) bs | InitNone => True | InitZero => c = replicate (Z.to_nat n) 0 end.

Definition init_ok (init : sds_init) (n : Z) : Prop := match init with InitBytes bs => n <= zlen bs | _ => True end.

Lemma split_body (body : list Z) n : 0 <= n -> zlen body = n + 1 -> exists c x, body = c ++ [x] /\ zlen c = n.
Proof.
  unfold zlen. intros Hn Hl. destruct body as [|x c _] using rev_ind; [simpl in Hl; lia|].
  exists c, x. rewrite length_app in Hl. simpl in Hl. split; [done|lia].
Qed.

Lemma mread_prefix bs n : 0 <= n <= zlen bs -> mread bs 0 n = Some (take (Z.to_nat n) bs).
Proof.
  unfold zlen. intros Hn. unfold mread, in_buf. replace (_ && _) with true; [done|].
  symmetry. rewrite !andb_true_iff, !Z.leb_le. lia.
Qed.

Lemma sdsnewlen_spec init n :
  0 <= n -> n + 18 < 2 ^ 64 -> init_ok init n ->
  exists s ty c, sdsnewlen malloc init n = Some s /\ sds_rep s ty c [] /\ init_content init n c /\ (n = 0 -> ty = SDS_TYPE_8).
Proof.
  intros Hn H64 Hi. unfold sdsnewlen. set (ty := if _ && _ then _ else _).
  assert (fits ty n) as Hf.
  { unfold ty. destruct (_ && _) eqn:E; [|apply sdsReqType_fits; lia]. right. exists 1%nat. split; [done|]. breflect. subst. simpl. lia. }
  assert (n = 0 -> ty = SDS_TYPE_8) as H0 by (intros ->; done).
  clearbody ty. pose proof (sdsHdrSize_range ty n Hf) as Hh.
  rewrite (u64_small (sdsHdrSize ty + n + 1)) by lia.
  set (sh := match init with InitZero => _ | _ => _ end).
  assert (exists P c0 x, sh = P ++ c0 ++ [x] /\ zlen P = sdsHdrSize ty /\ zlen c0 = n /\ Forall is_byte P /\
            match init with InitZero => c0 = replicate (Z.to_nat n) 0 | _ => True end) as (P & c0 & x & Hsh & HP & Hc & Hb & Hz).
  { assert (forall b, zlen b = sdsHdrSize ty + n + 1 -> Forall is_byte b ->
       exists P c0 x, b = P ++ c0 ++ [x] /\ zlen P = sdsHdrSize ty /\ zlen c0 = n /\ Forall is_byte P) as Hsplit.
    { intros b Hl Hbs. destruct (split_body (drop (Z.to_nat (sdsHdrSize ty)) b) n Hn) as (c0 & x & E & Hc).
      { unfold zlen in *. rewrite length_drop. lia. }
      exists (take (Z.to_nat (sdsHdrSize ty)) b), c0, x. rewrite <- E, take_drop. split_and!; [done| |done|by apply Forall_take].
      unfold zlen in *. rewrite length_take. lia. }
    destruct init; unfold sh.
    - destruct (Hsplit (malloc (sdsHdrSize ty + n + 1))) as (P & c0 & x & ? & ? & ? & ?); [apply malloc_size; lia|apply malloc_bytes|by exists P, c0, x].
    - destruct (Hsplit (malloc (sdsHdrSize ty + n + 1))) as (P & c0 & x & ? & ? & ? & ?); [apply malloc_size; lia|apply malloc_bytes|by exists P, c0, x].
    - destruct (Hsplit (replicate (Z.to_nat (sdsHdrSize ty + n + 1)) 0)) as (P & c0 & x & E & ? & Hl & ?).
      { unfold zlen. rewrite length_replicate. lia. }
      { apply Forall_replicate. unfold is_byte. lia. }
      exists P, c0, x. split_and!; try done. symmetry. apply replicate_as_elem_of. unfold zlen in Hl. split; [lia|].
      intros y Hy. assert (y ∈ replicate (Z.to_nat (sdsHdrSize ty + n + 1)) 0) as Hin by (rewrite E, !elem_of_app; auto).
      by apply elem_of_replicate in Hin as [-> _]. }
  clearbody sh. subst sh. rewrite (init_header ty n P (c0 ++ [x]) Hf Hb HP). cbn [mbind option_bind].
  assert (exists c, init_content init n c /\ match init with
      | InitBytes bs => if n =? 0 then Some (raw ty n n (c0 ++ [x])) else bs ← mread bs 0 n; put_bytes (raw ty n n (c0 ++ [x])) 0 bs
      | _ => Some (raw ty n n (c0 ++ [x])) end = Some (raw ty n n (c ++ [x]))) as (c & Hcont & ->).
  { destruct init as [bs| |]; [|by exists c0|by exists c0]. simpl in Hi. destruct (Z.eqb_spec n 0) as [->|Hne].
    - exists []. unfold zlen in Hc. destruct c0; [|simpl in Hc; lia]. done.
    - exists (take (Z.to_nat n) bs). assert (zlen (take (Z.to_nat n) bs) = n) as Hl by (unfold zlen in *; rewrite length_take; lia).
      split; [done|]. rewrite mread_prefix by lia. cbn [mbind option_bind].
      apply (put_raw ty n n [] c0 [x]); [done|unfold zlen in *; lia]. }
  cbn [mbind option_bind]. pose proof Hcont as [Hl _]. exists (raw ty n n (c ++ [0])), ty, c.
  split_and!; [|split|done|done].
  - replace (c ++ [x]) with (c ++ [x] ++ []) by by rewrite app_nil_r. rewrite put_raw by done. by rewrite app_nil_r.
  - rewrite Hl. do 2 f_equal. unfold zlen. simpl. lia.
  - by rewrite Hl.
  - intros _. rewrite Hl. replace (n + zlen []) with n by (unfold zlen; simpl; lia). done.
Qed.

Lemma block_grow (b : list Z) n : zlen b <= n -> exists extra, realloc malloc b n = b ++ extra /\ zlen extra = n - zlen b.
Proof.
  intros Hn. exists (drop (length b) (malloc n)). pose proof (malloc_size n ltac:(unfold zlen in *; lia)) as Hz. unfold realloc, zlen in *.
  rewrite take_ge, length_drop by lia. split; [done|lia].
Qed.

Lemma block_shrink (a b : list Z) : realloc malloc (a ++ b) (zlen a) = a.
Proof.
  unfold realloc, zlen. rewrite Nat2Z.id, take_app_length. pose proof (malloc_size (zlen a) ltac:(unfold zlen; lia)) as Hz. unfold zlen in Hz.
  rewrite drop_ge by (rewrite length_app; lia). apply app_nil_r.
Qed.

(** What a call that makes room for [add] more bytes returns. *)
Definition has_room (s : sds) (c : list Z) (add : Z) : Prop :=
  exists ty free, sds_rep s ty c free /\ add <= zlen free /\ (ty = SDS_TYPE_5 -> add = 0).

Lemma copy_to_new ty len c newlen :
  fits ty newlen -> len = zlen c -> len <= newlen -> sdsHdrSize ty + newlen + 1 < 2 ^ 64 ->
  exists n a free, fits ty n /\ zlen free = newlen - len /\
    (newsh ← mwrite (malloc (u64 (sdsHdrSize ty + newlen + 1))) (sdsHdrSize ty) (c ++ [0]);
     s ← put_bytes (mk_sds newsh (sdsHdrSize ty)) (-1) [ty]; sdssetlen s len) = Some (raw ty len a (c ++ 0 :: free)).
Proof.
  intros Hf -> Hle H64. pose proof (sdsHdrSize_range ty _ Hf) as Hh. pose proof (zlen_nonneg c).
  rewrite u64_small by lia. destruct (malloc_split (sdsHdrSize ty) (newlen + 1)) as (P & body & Hm & HP & Hbody & Hb); [lia|lia|].
  rewrite Z.add_assoc in Hm. rewrite Hm.
  destruct (stamp_type ty newlen P Hf Hb HP) as (n & a & Hn & Hst).
  exists n, a, (drop (length (c ++ [0])) body). split_and!; [done| |].
  { unfold zlen in *. rewrite length_drop, length_app. simpl. lia. }
  rewrite <- (take_drop (length (c ++ [0])) body) at 1. rewrite mwrite_app; [|unfold zlen in HP; lia|].
  2:{ unfold zlen in *. rewrite length_take, length_app. simpl. lia. }
  cbn [mbind option_bind]. rewrite Hst. cbn [mbind option_bind]. rewrite <- app_assoc.
  apply sdssetlen_raw; [done|]. eapply fits_mono; [exact Hf|lia].
Qed.

Lemma mread_string ty n a c free : mread (blk (raw ty n a (c ++ 0 :: free))) (off (raw ty n a (c ++ 0 :: free))) (zlen c + 1) = Some (c ++ [0]).
Proof.
  unfold raw. cbn [blk off]. replace (c ++ 0 :: free) with ((c ++ [0]) ++ free) by by rewrite <- app_assoc.
  apply mread_app; [done|]. unfold zlen. rewrite length_app. simpl. lia.
Qed.

Lemma sdsMakeRoomFor_spec s ty c free add :
  sds_rep s ty c free -> 0 <= add -> zlen c + add + 2 ^ 21 < 2 ^ 64 ->
  exists s', sdsMakeRoomFor malloc s add = Some s' /\ has_room s' c add.
Proof.
  intros Hrep Hadd H64. pose proof (zlen_nonneg c). pose proof (zlen_nonneg free). unfold sdsMakeRoomFor.
  rewrite (sdsavail_rep _ _ _ _ Hrep). cbn [mbind option_bind].
  destruct (flags_raw ty (zlen c) (zlen c + zlen free) (c ++ 0 :: free) (sr_len _ _ _ _ Hrep)) as (f & Ef & Lf & _).
  assert (get_char s (-1) = Some f) as -> by (by rewrite (sr_block _ _ _ _ Hrep)). cbn [mbind option_bind]. rewrite Lf, Z.geb_leb.
  destruct (Z.leb_spec add (if ty =? SDS_TYPE_5 then 0 else zlen free)) as [Hle|Hlt].
  { exists s. split; [done|]. exists ty, free. destruct (Z.eqb_spec ty SDS_TYPE_5) as [->|]; split_and!; try done; lia. }
  rewrite (sdslen_rep _ _ _ _ Hrep). cbn [mbind option_bind]. rewrite (u64_small (zlen c + add)) by lia.
  set (newlen := if _ <? SDS_MAX_PREALLOC then _ else _).
  assert (zlen c + add <= newlen /\ newlen + 18 < 2 ^ 64) as [Hnl Hnb].
  { unfold newlen, SDS_MAX_PREALLOC. destruct (Z.ltb_spec (zlen c + add) (1024 * 1024)); rewrite u64_small; lia. }
  clearbody newlen. set (ty' := if sdsReqType newlen =? SDS_TYPE_5 then SDS_TYPE_8 else sdsReqType newlen).
  assert (fits ty' newlen /\ ty' <> SDS_TYPE_5) as [Hf' Hne'].
  { unfold ty'. pose proof (sdsReqType_fits newlen ltac:(lia)) as Hf. destruct (Z.eqb_spec (sdsReqType newlen) SDS_TYPE_5) as [E|E]; [|done].
    split; [|done]. right. exists 1%nat. split; [done|]. rewrite E in Hf. destruct (fits_cases _ _ Hf) as [(_ & _ & ?)|(w & Hw & _)]; [simpl; lia|done]. }
  clearbody ty'. pose proof (sdsHdrSize_range ty' newlen Hf') as Hh.
  assert (exists a free', zlen free' = newlen - zlen c /\
    (if ty =? ty' then Some (mk_sds (realloc malloc (blk s) (u64 (sdsHdrSize ty' + newlen + 1))) (sdsHdrSize ty'))
     else bs ← mread (blk s) (off s) (zlen c + 1);
       newsh ← mwrite (malloc (u64 (sdsHdrSize ty' + newlen + 1))) (sdsHdrSize ty') bs;
       s ← put_bytes (mk_sds newsh (sdsHdrSize ty')) (-1) [ty']; sdssetlen s (zlen c)) = Some (raw ty' (zlen c) a (c ++ 0 :: free'))) as (a & free' & Hfl & ->).
  { destruct (Z.eqb_spec ty ty') as [<-|Hdiff].
    - destruct (Z.eqb_spec ty SDS_TYPE_5); [done|]. rewrite u64_small by lia. pose proof (length_hdr ty (zlen c) (zlen c + zlen free) (sr_len _ _ _ _ Hrep)) as Hlh.
      assert (zlen (blk s) = sdsHdrSize ty + zlen c + zlen free + 1) as Hbl.
      { rewrite (sr_block _ _ _ _ Hrep). unfold raw, zlen in *. cbn [blk]. rewrite !length_app. simpl. lia. }
      destruct (block_grow (blk s) (sdsHdrSize ty + newlen + 1)) as (extra & -> & Hex); [lia|].
      exists (zlen c + zlen free), (free ++ extra). split; [unfold zlen in *; rewrite length_app; lia|].
      rewrite (sr_block _ _ _ _ Hrep). unfold raw. cbn [blk]. rewrite Hlh. do 2 f_equal. rewrite <- !app_assoc. done.
    - rewrite (sr_block _ _ _ _ Hrep), mread_string. cbn [mbind option_bind].
      destruct (copy_to_new ty' (zlen c) c newlen Hf') as (n & a & free' & _ & Hfl & ->); [done|lia|lia|]. by exists a, free'. }
  cbn [mbind option_bind]. assert (fits ty' (zlen c)) as Hfc by (eapply fits_mono; [exact Hf'|lia]).
  rewrite sdssetalloc_raw by done. eexists. split; [done|]. exists ty', free'. split_and!; [|lia|done].
  split; [|done|]; replace (zlen c + zlen free') with newlen by lia; done.
Qed.

Lemma raw_5 n a a' body : raw 0 n a body = raw 0 n a' body.
Proof. done. Qed.

(** The string in a block whose header says so. *)
Lemma rep_intro ty c free a :
  fits ty (zlen c) -> (ty <> SDS_TYPE_5 -> a = zlen c + zlen free /\ fits ty a) ->
  sds_rep (raw ty (zlen c) a (c ++ 0 :: free)) ty c free.
Proof.
  intros Hf Ha. destruct (Z.eq_dec ty SDS_TYPE_5) as [->|Hne]; [by split|]. destruct (Ha Hne) as [-> Hfa]. by split.
Qed.

Lemma put_over ty n a body i bs :
  0 <= i -> i + zlen bs <= zlen body ->
  put_bytes (raw ty n a body) i bs = Some (raw ty n a (take (Z.to_nat i) body ++ bs ++ drop (Z.to_nat (i + zlen bs)) body)).
Proof.
  unfold zlen. intros Hi Hl. rewrite <- (put_raw ty n a (take (Z.to_nat i) body) (take (length bs) (drop (Z.to_nat i) body)) (drop (Z.to_nat (i + Z.of_nat (length bs))) body) bs i).
  - f_equal. f_equal. rewrite Z2Nat.inj_add, Nat2Z.id by lia. rewrite <- drop_drop, !take_drop. done.
  - unfold zlen. rewrite length_take. lia.
  - rewrite length_take, length_drop. lia.
Qed.

(** Storing a new content from the start, its terminator and its length, in either
    order of the last two. *)
Lemma store_content ty n a body c' :
  fits ty n -> fits ty (zlen c') -> zlen c' < zlen body -> (ty <> SDS_TYPE_5 -> a = zlen body - 1 /\ fits ty a) ->
  take (length c') body = c' ->
  exists s free, zlen c' + zlen free + 1 = zlen body /\ sds_rep s ty c' free /\
    (s ← put_bytes (raw ty n a body) (zlen c') [0]; sdssetlen s (zlen c')) = Some s /\
    (s ← sdssetlen (raw ty n a body) (zlen c'); put_bytes s (zlen c') [0]) = Some s.
Proof.
  intros Hn Hf Hl Ha Ht. pose proof (zlen_nonneg c'). assert (zlen [0] = 1) as H1 by done.
  exists (raw ty (zlen c') a (c' ++ 0 :: drop (S (length c')) body)), (drop (S (length c')) body).
  assert (zlen (drop (S (length c')) body) = zlen body - zlen c' - 1) as Hd by (unfold zlen in *; rewrite length_drop; lia).
  assert (forall m, put_bytes (raw ty m a body) (zlen c') [0] = Some (raw ty m a (c' ++ 0 :: drop (S (length c')) body))) as Hput.
  { intros m. rewrite put_over by lia. rewrite H1. unfold zlen. rewrite Nat2Z.id, Ht. do 3 f_equal. cbn [app]. do 2 f_equal. lia. }
  split_and!; [lia| | |].
  - apply rep_intro; [done|]. intros Hne. destruct (Ha Hne) as [Hb Hfa]. split; [lia|done].
  - rewrite Hput. cbn [mbind option_bind]. by apply sdssetlen_raw.
  - rewrite sdssetlen_raw by done. cbn [mbind option_bind]. apply Hput.
Qed.

Lemma sdscatlen_spec s ty c free t n :
  sds_rep s ty c free -> 0 <= n <= zlen t -> zlen c + n + 2 ^ 21 < 2 ^ 64 ->
  exists s' ty' free', sdscatlen malloc s t n = Some s' /\ sds_rep s' ty' (c ++ take (Z.to_nat n) t) free'.
Proof.
  intros Hrep Hn H64. unfold sdscatlen. rewrite (sdslen_rep _ _ _ _ Hrep). cbn [mbind option_bind].
  destruct (sdsMakeRoomFor_spec s ty c free n Hrep) as (s1 & -> & (ty1 & free1 & Hrep1 & Hroom & H5)); [lia|lia|]. cbn [mbind option_bind].
  rewrite mread_prefix by lia. cbn [mbind option_bind]. set (bs := take (Z.to_nat n) t).
  assert (zlen bs = n) as Hb by (unfold bs, zlen in *; rewrite length_take; lia).
  destruct Hrep1 as [-> Hf1 Ha1]. pose proof (zlen_nonneg c). assert (zlen (c ++ 0 :: free1) = zlen c + zlen free1 + 1) as Hbl by (unfold zlen; rewrite length_app; simpl; lia).
  rewrite put_over by lia. cbn [mbind option_bind]. rewrite Hb.
  set (body := _ ++ bs ++ _). assert (zlen body = zlen c + zlen free1 + 1) as Hbody.
  { unfold body, zlen in *. rewrite !length_app, length_take, length_drop, !length_app. simpl. lia. }
  assert (zlen (c ++ bs) = zlen c + n) as Hcb by (unfold zlen in *; rewrite length_app; lia).
  assert (fits ty1 (zlen c + n)) as Hfn.
  { destruct (Z.eq_dec ty1 SDS_TYPE_5) as [E|E]; [rewrite (H5 E); by rewrite Z.add_0_r|]. eapply fits_mono; [by apply Ha1|lia]. }
  destruct (store_content ty1 (zlen c) (zlen c + zlen free1) body (c ++ bs)) as (s' & free' & _ & Hrep' & _ & Heq); [done|by rewrite Hcb|lia| | |].
  - intros Hne. split; [lia|by apply Ha1].
  - unfold body. rewrite app_assoc, take_app_length'; [|unfold zlen; rewrite !length_app, length_take, length_app; lia].
    f_equal. unfold zlen. by rewrite Nat2Z.id, take_app_length.
  - rewrite Hcb in Heq. exists s', ty1, free'. split; [exact Heq|done].
Qed.

Lemma sdsclear_spec s ty c free : sds_rep s ty c free -> exists s' free', sdsclear s = Some s' /\ sds_rep s' ty [] free' /\ zlen free' = zlen c + zlen free.
Proof.
  intros [-> Hf Ha]. unfold sdsclear. pose proof (zlen_nonneg c).
  destruct (store_content ty (zlen c) (zlen c + zlen free) (c ++ 0 :: free) []) as (s' & free' & Hl & Hrep & _ & Heq); try done.
  - eapply fits_mono; [exact Hf|]. unfold zlen in *. simpl. lia.
  - unfold zlen. rewrite length_app. simpl. lia.
  - intros Hne. split; [|by apply Ha]. unfold zlen. rewrite length_app. simpl. lia.
  - exists s', free'. split_and!; [exact Heq|done|]. unfold zlen in *. rewrite length_app in Hl. simpl in Hl. lia.
Qed.

Lemma sdscpylen_spec s ty c free t n :
  sds_rep s ty c free -> 0 <= n <= zlen t -> zlen c + n + 2 ^ 21 < 2 ^ 64 ->
  exists s' ty' free', sdscpylen malloc s t n = Some s' /\ sds_rep s' ty' (take (Z.to_nat n) t) free'.
Proof.
  intros Hrep Hn H64. unfold sdscpylen. rewrite (sdsalloc_rep _ _ _ _ Hrep). cbn [mbind option_bind].
  assert (exists s1 ty1 c1 free1, (if (if ty =? SDS_TYPE_5 then zlen c else zlen c + zlen free) <? n then n0 ← sdslen s; sdsMakeRoomFor malloc s (n - n0) else Some s) = Some s1 /\
    sds_rep s1 ty1 c1 free1 /\ n <= zlen c1 + zlen free1 /\ fits ty1 n) as (s1 & ty1 & c1 & free1 & -> & [-> Hf1 Ha1] & Hle & Hfn).
  { pose proof (zlen_nonneg c). pose proof (zlen_nonneg free). destruct (Z.ltb_spec (if ty =? SDS_TYPE_5 then zlen c else zlen c + zlen free) n) as [Hlt|Hge].
    - rewrite (sdslen_rep _ _ _ _ Hrep). cbn [mbind option_bind].
      assert (zlen c < n) by (destruct (ty =? _); lia).
      destruct (sdsMakeRoomFor_spec s ty c free (n - zlen c) Hrep) as (s1 & -> & (ty1 & free1 & Hrep1 & Hroom & H5)); [lia|lia|].
      exists s1, ty1, c, free1. split_and!; [done|done|lia|]. eapply fits_mono; [eapply (sr_alloc _ _ _ _ Hrep1); intros E; specialize (H5 E); lia|lia].
    - exists s, ty, c, free. split_and!; [done|done|destruct (ty =? _); lia|]. destruct (Z.eqb_spec ty SDS_TYPE_5) as [->|E].
      + eapply fits_mono; [exact (sr_len _ _ _ _ Hrep)|lia].
      + eapply fits_mono; [exact (sr_alloc _ _ _ _ Hrep E)|lia]. }
  cbn [mbind option_bind]. rewrite mread_prefix by lia. cbn [mbind option_bind]. set (bs := take (Z.to_nat n) t).
  assert (zlen bs = n) as Hb by (unfold bs, zlen in *; rewrite length_take; lia).
  assert (zlen (c1 ++ 0 :: free1) = zlen c1 + zlen free1 + 1) as Hbl by (unfold zlen; rewrite length_app; simpl; lia).
  rewrite put_over by lia. cbn [mbind option_bind]. rewrite Hb. cbn [take app Z.to_nat].
  set (body := bs ++ _). assert (zlen body = zlen c1 + zlen free1 + 1) as Hbody.
  { unfold body, zlen in *. rewrite !length_app, length_drop, !length_app. simpl in *. lia. }
  destruct (store_content ty1 (zlen c1) (zlen c1 + zlen free1) body bs) as (s' & free' & _ & Hrep' & Heq & _); [done|by rewrite Hb|lia| | |].
  - intros Hne. split; [lia|by apply Ha1].
  - apply take_app_length.
  - rewrite Hb in Heq. exists s', ty1, free'. split; [exact Heq|done].
Qed.

Lemma sdsgrowzero_spec s ty c free n :
  sds_rep s ty c free -> n + 2 ^ 21 < 2 ^ 64 ->
  exists s' ty' free', sdsgrowzero malloc s n = Some s' /\ sds_rep s' ty' (c ++ replicate (Z.to_nat (n - zlen c)) 0) free'.
Proof.
  intros Hrep H64. unfold sdsgrowzero. rewrite (sdslen_rep _ _ _ _ Hrep). cbn [mbind option_bind]. pose proof (zlen_nonneg c).
  destruct (Z.leb_spec n (zlen c)) as [Hle|Hgt].
  { exists s, ty, free. replace (Z.to_nat (n - zlen c)) with O by lia. by rewrite app_nil_r. }
  destruct (sdsMakeRoomFor_spec s ty c free (n - zlen c) Hrep) as (s1 & -> & (ty1 & free1 & [-> Hf1 Ha1] & Hroom & H5)); [lia|lia|]. cbn [mbind option_bind].
  assert (ty1 <> SDS_TYPE_5) as Hne by (intros E; specialize (H5 E); lia).
  assert (zlen (c ++ 0 :: free1) = zlen c + zlen free1 + 1) as Hbl by (unfold zlen; rewrite length_app; simpl; lia).
  set (zs := replicate _ 0). assert (zlen zs = n - zlen c + 1) as Hz by (unfold zs, zlen in *; rewrite length_replicate; lia).
  rewrite put_over by lia. cbn [mbind option_bind]. rewrite Hz.
  assert (zlen (c ++ replicate (Z.to_nat (n - zlen c)) 0) = n) as Hcl by (unfold zlen in *; rewrite length_app, length_replicate; lia).
  rewrite sdssetlen_raw; [|done|eapply fits_mono; [by apply Ha1|lia]].
  eexists _, ty1, (drop (Z.to_nat (zlen c + (n - zlen c + 1))) (c ++ 0 :: free1)). split; [done|].
  match goal with |- sds_rep (raw _ _ _ ?b) _ _ ?f =>
    assert (b = (c ++ replicate (Z.to_nat (n - zlen c)) 0) ++ 0 :: f) as -> end.
  { unfold zlen at 1. rewrite Nat2Z.id, take_app_length. rewrite <- app_assoc. f_equal.
    unfold zs. replace (Z.to_nat (n - zlen c + 1)) with (Z.to_nat (n - zlen c) + 1)%nat by lia.
    rewrite replicate_add, <- app_assoc. done. }
  rewrite <- Hcl at 1. apply rep_intro; [rewrite Hcl; eapply fits_mono; [by apply Ha1|lia]|]. intros _. split; [|by apply Ha1].
  rewrite Hcl. unfold zlen in *. rewrite length_drop. lia.
Qed.

(** Adding to the length of a string behind which the caller has written. *)
Lemma sdsIncrLen_raw ty len a body n :
  fits ty len -> fits ty a -> a = zlen body - 1 -> 0 <= n -> len + n <= a -> n < 2 ^ 31 -> ty <> SDS_TYPE_5 ->
  exists s' free', sdsIncrLen (raw ty len a body) n = Some s' /\ sds_rep s' ty (take (Z.to_nat (len + n)) body) free'.
Proof.
  intros Hf Ha Hab Hn Hle H31 Hne. unfold sdsIncrLen. with_flags Hf.
  destruct (fits_cases _ _ Hf) as [(-> & _)|(w & Hw & Hb & Hl & Hr & Hc)]; [done|].
  destruct (fits_cases _ _ Ha) as [(-> & _)|(w' & Hw' & _ & _ & _ & Hca)]; [done|]. assert (w' = w) as -> by congruence.
  rewrite Hb, Hw, (get_len_raw ty w), (get_alloc_raw ty w) by done. cbn [mbind option_bind].
  assert (2 ^ (8 * Z.of_nat w) <= 2 ^ 64) as H64 by (apply Z.pow_le_mono_r; lia).
  assert (((if (w =? 4)%nat then u32 n else n) <=?
     (if (w =? 4)%nat then u32 (a - len) else if (w =? 8)%nat then u64 (a - len) else a - len)) = true) as ->.
  { apply Z.leb_le. destruct (Nat.eqb_spec w 4) as [->|]; [rewrite !u32_small by lia; lia|]. destruct (w =? 8)%nat; [rewrite u64_small by lia|]; lia. }
  destruct (Z.leb_spec 0 n); [|lia]. cbn [andb orb]. rewrite Z.mod_small by lia.
  set (c' := take (Z.to_nat (len + n)) body). assert (zlen c' = len + n) as Hcl by (unfold c', zlen in *; rewrite length_take; lia).
  assert (fits ty (len + n)) as Hfn by (eapply fits_mono; [exact Ha|lia]).
  destruct (store_content ty len a body c') as (s' & free' & Hlen & Hrep & _ & Heq).
  - done.
  - by rewrite Hcl.
  - lia.
  - intros _. by split.
  - unfold c'. rewrite length_take. unfold zlen in *. f_equal. lia.
  - exists s', free'. rewrite Hcl, sdssetlen_raw in Heq by done.
    rewrite (set_len_raw ty w) by done. by split.
Qed.

(** The schema the header documents: make room, write behind the string, add to
    the length. *)
Lemma append_in_place s ty c free n bs :
  sds_rep s ty c free -> 0 < zlen bs <= n -> zlen c + n + 2 ^ 21 < 2 ^ 64 -> zlen bs < 2 ^ 31 ->
  exists s1 s2 s3 ty' free', sdsMakeRoomFor malloc s n = Some s1 /\ put_bytes s1 (zlen c) bs = Some s2 /\
    sdsIncrLen s2 (zlen bs) = Some s3 /\ sds_rep s3 ty' (c ++ bs) free'.
Proof.
  intros Hrep Hbs H64 H31. pose proof (zlen_nonneg c).
  destruct (sdsMakeRoomFor_spec s ty c free n Hrep) as (s1 & -> & (ty1 & free1 & [-> Hf1 Ha1] & Hroom & H5)); [lia|lia|].
  assert (ty1 <> SDS_TYPE_5) as Hne by (intros E; specialize (H5 E); lia).
  assert (zlen (c ++ 0 :: free1) = zlen c + zlen free1 + 1) as Hbl by (unfold zlen; rewrite length_app; simpl; lia).
  exists (raw ty1 (zlen c) (zlen c + zlen free1) (c ++ 0 :: free1)). rewrite put_over by lia. set (body := _ ++ bs ++ _).
  assert (zlen body = zlen c + zlen free1 + 1) as Hbody.
  { unfold body, zlen in *. rewrite !length_app, length_take, length_drop, !length_app. simpl. lia. }
  destruct (sdsIncrLen_raw ty1 (zlen c) (zlen c + zlen free1) body (zlen bs)) as (s3 & free3 & Hs3 & Hr3); [done|by apply Ha1|lia|lia|lia|lia|done|].
  exists (raw ty1 (zlen c) (zlen c + zlen free1) body), s3, ty1, free3. split_and!; [done|done|exact Hs3|].
  assert (take (Z.to_nat (zlen c + zlen bs)) body = c ++ bs) as Ht; [|by rewrite Ht in Hr3].
  unfold body, zlen. rewrite Nat2Z.id, take_app_length, app_assoc. apply take_app_length'. rewrite length_app. lia.
Qed.

Lemma sdsRemoveFreeSpace_spec s ty c free :
  sds_rep s ty c free -> zlen c + zlen free + 18 < 2 ^ 64 ->
  exists s' ty', sdsRemoveFreeSpace malloc s = Some s' /\ sds_rep s' ty' c (if ty =? SDS_TYPE_5 then free else []).
Proof.
  intros Hrep H64. unfold sdsRemoveFreeSpace. pose proof (zlen_nonneg c). pose proof (zlen_nonneg free).
  rewrite (sdsavail_rep _ _ _ _ Hrep), (sdslen_rep _ _ _ _ Hrep).
  assert (exists f, get_char s (-1) = Some f /\ Z.land f SDS_TYPE_MASK = ty) as (f & -> & Lf).
  { destruct (flags_raw ty (zlen c) (zlen c + zlen free) (c ++ 0 :: free) (sr_len _ _ _ _ Hrep)) as (f & Ef & Lf & _).
    exists f. by rewrite (sr_block _ _ _ _ Hrep). }
  cbn [mbind option_bind]. rewrite Lf. destruct (Z.eqb_spec ty SDS_TYPE_5) as [->|Hne]; [by exists s, SDS_TYPE_5|].
  destruct (Z.eqb_spec (zlen free) 0) as [Hz|Hz]; [unfold zlen in Hz; destruct free; [by exists s, ty|simpl in Hz; lia]|].
  pose proof (sdsReqType_fits (zlen c) ltac:(lia)) as Hf'. set (ty' := sdsReqType (zlen c)) in *. clearbody ty'.
  pose proof (sdsHdrSize_range ty' _ Hf'). pose proof (sr_len _ _ _ _ Hrep) as Hf. pose proof (sdsHdrSize_range ty _ Hf).
  destruct (_ || _).
  - pose proof (length_hdr ty (zlen c) (zlen c + zlen free) Hf) as Hlh. rewrite u64_small by lia.
    assert (realloc malloc (blk s) (sdsHdrSize ty + zlen c + 1) = hdr ty (zlen c) (zlen c + zlen free) ++ c ++ [0]) as ->.
    { rewrite (sr_block _ _ _ _ Hrep). unfold raw. cbn [blk].
      replace (hdr ty (zlen c) (zlen c + zlen free) ++ c ++ 0 :: free) with ((hdr ty (zlen c) (zlen c + zlen free) ++ c ++ [0]) ++ free) by (by rewrite <- !app_assoc).
      replace (sdsHdrSize ty + zlen c + 1) with (zlen (hdr ty (zlen c) (zlen c + zlen free) ++ c ++ [0])); [apply block_shrink|].
      unfold zlen in *. rewrite !length_app. simpl. lia. }
    cbn [mbind option_bind]. rewrite <- Hlh. change (mk_sds _ _) with (raw ty (zlen c) (zlen c + zlen free) (c ++ [0])).
    rewrite sdssetalloc_raw by done. eexists _, ty. split; [done|]. apply rep_intro; [done|]. intros _. split; [unfold zlen; simpl; lia|done].
  - rewrite (sr_block _ _ _ _ Hrep), mread_string. cbn [mbind option_bind].
    destruct (copy_to_new ty' (zlen c) c (zlen c) Hf') as (n & a & free' & Hn & Hfl & ->); [done|lia|lia|]. cbn [mbind option_bind].
    assert (free' = []) as -> by (unfold zlen in Hfl; destruct free'; [done|simpl in Hfl; lia]).
    rewrite sdssetalloc_raw by done. eexists _, ty'. split; [done|]. apply rep_intro; [done|]. intros _. split; [unfold zlen; simpl; lia|done].
Qed.

(** The bytes from the string on. *)
Lemma chars_rep s ty c free : sds_rep s ty c free -> drop (Z.to_nat (off s)) (blk s) = c ++ 0 :: free.
Proof. intros [-> _ _]. unfold raw. cbn [blk off]. by rewrite Nat2Z.id, drop_app_length. Qed.

Lemma sdsdup_spec s ty c free :
  sds_rep s ty c free -> zlen c + 18 < 2 ^ 64 -> exists s' ty', sdsdup malloc s = Some s' /\ sds_rep s' ty' c [].
Proof.
  intros Hrep H64. unfold sdsdup. rewrite (sdslen_rep _ _ _ _ Hrep). cbn [mbind option_bind]. rewrite (chars_rep _ _ _ _ Hrep).
  destruct (sdsnewlen_spec (InitBytes (c ++ 0 :: free)) (zlen c)) as (s' & ty' & c' & -> & Hrep' & [_ ->] & _).
  - apply zlen_nonneg.
  - done.
  - simpl. unfold zlen. rewrite length_app. lia.
  - exists s', ty'. split; [done|]. unfold zlen in Hrep'. by rewrite Nat2Z.id, take_app_length in Hrep'.
Qed.

Lemma sdscatsds_spec s ty c free t ty2 c2 free2 :
  sds_rep s ty c free -> sds_rep t ty2 c2 free2 -> zlen c + zlen c2 + 2 ^ 21 < 2 ^ 64 ->
  exists s' ty' free', sdscatsds malloc s t = Some s' /\ sds_rep s' ty' (c ++ c2) free'.
Proof.
  intros Hrep Ht H64. unfold sdscatsds. rewrite (sdslen_rep _ _ _ _ Ht). cbn [mbind option_bind]. rewrite (chars_rep _ _ _ _ Ht).
  destruct (sdscatlen_spec s ty c free (c2 ++ 0 :: free2) (zlen c2) Hrep) as (s' & ty' & free' & -> & Hrep').
  - unfold zlen. rewrite length_app. lia.
  - lia.
  - exists s', ty', free'. split; [done|]. unfold zlen in Hrep'. by rewrite Nat2Z.id, take_app_length in Hrep'.
Qed.

(** *** Cutting *)

Lemma move_raw ty n a body i m :
  0 <= i -> 0 <= m -> i + m <= zlen body ->
  move_chars (raw ty n a body) 0 i m = Some (raw ty n a (take (Z.to_nat m) (drop (Z.to_nat i) body) ++ drop (Z.to_nat m) body)).
Proof.
  intros Hi Hm Hl. unfold move_chars, memmove, zlen in *.
  assert (mread (blk (raw ty n a body)) (off (raw ty n a body) + i) m = Some (take (Z.to_nat m) (drop (Z.to_nat i) body))) as ->.
  { unfold raw. cbn [blk off]. rewrite <- (take_drop (Z.to_nat i) body) at 1. rewrite <- (take_drop (Z.to_nat m) (drop (Z.to_nat i) body)) at 1.
    rewrite app_assoc. apply mread_app; rewrite ?length_app, ?length_take, ?length_drop; lia. }
  cbn [mbind option_bind]. set (bs := take _ _). assert (zlen bs = m) as Hb by (unfold bs, zlen; rewrite length_take, length_drop; lia).
  pose proof (put_over ty n a body 0 bs ltac:(lia) ltac:(unfold zlen in *; lia)) as Hp. unfold put_bytes in Hp.
  rewrite Hp, Hb. done.
Qed.

(** Replacing the content by a part of it. *)
Lemma cut_content s ty c free i m :
  sds_rep s ty c free -> 0 <= i -> 0 <= m -> i + m <= zlen c ->
  exists s' free', sds_rep s' ty (take (Z.to_nat m) (drop (Z.to_nat i) c)) free' /\ zlen free' = zlen c + zlen free - m /\
    (s ← (if negb (i =? 0) then move_chars s 0 i m else Some s); s ← put_bytes s m [0]; sdssetlen s m) = Some s'.
Proof.
  intros [-> Hf Ha] Hi Hm Hl. pose proof (zlen_nonneg free). set (c' := take (Z.to_nat m) (drop (Z.to_nat i) c)).
  assert (zlen c' = m) as Hc' by (unfold c', zlen in *; rewrite length_take, length_drop; lia).
  assert (zlen (c ++ 0 :: free) = zlen c + zlen free + 1) as Hbl by (unfold zlen; rewrite length_app; simpl; lia).
  assert (exists body, zlen body = zlen c + zlen free + 1 /\ take (length c') body = c' /\
    (if negb (i =? 0) then move_chars (raw ty (zlen c) (zlen c + zlen free) (c ++ 0 :: free)) 0 i m
     else Some (raw ty (zlen c) (zlen c + zlen free) (c ++ 0 :: free))) = Some (raw ty (zlen c) (zlen c + zlen free) body)) as (body & Hb & Ht & ->).
  { destruct (Z.eqb_spec i 0) as [->|Hne]; cbn [negb].
    - exists (c ++ 0 :: free). split_and!; [done| |done]. unfold c'. cbn [drop Z.to_nat]. rewrite length_take. unfold zlen in *.
      rewrite take_app_le by lia. f_equal. rewrite length_drop. lia.
    - eexists. split_and!; [| |apply move_raw; lia].
      + unfold zlen in *. rewrite length_app, length_take, !length_drop. lia.
      + replace (take (Z.to_nat m) (drop (Z.to_nat i) (c ++ 0 :: free))) with c'; [apply take_app_length|].
        unfold c', zlen in *. rewrite drop_app_le by lia. rewrite take_app_le; [done|rewrite length_drop; lia]. }
  cbn [mbind option_bind].
  destruct (store_content ty (zlen c) (zlen c + zlen free) body c') as (s' & free' & Hlen & Hrep & Heq & _).
  - done.
  - rewrite Hc'. eapply fits_mono; [exact Hf|lia].
  - lia.
  - intros Hne. split; [lia|by apply Ha].
  - done.
  - rewrite Hc' in Heq. exists s', free'. split_and!; [done|lia|exact Heq].
Qed.

Fixpoint lstrip (f : Z -> bool) (l : list Z) : list Z :=
  match l with x :: l' => if f x then lstrip f l' else l | [] => [] end.
Definition rstrip (f : Z -> bool) (l : list Z) : list Z := reverse (lstrip f (reverse l)).
Definition strip (f : Z -> bool) (l : list Z) : list Z := rstrip f (lstrip f l).

Lemma lstrip_suffix f l : exists p, l = p ++ lstrip f l /\ Forall (fun x => f x = true) p.
Proof.
  induction l as [|x l (p & E & Hp)]; [by exists []|]. simpl. destruct (f x) eqn:Ex; [|by exists []].
  exists (x :: p). split; [by rewrite E at 1|by constructor].
Qed.

Lemma lstrip_head f l x r : lstrip f l = x :: r -> f x = false.
Proof. induction l as [|y l IH]; simpl; [done|]. destruct (f y) eqn:E; [done|]. by intros [= <- <-]. Qed.

Lemma rstrip_snoc f l x : rstrip f (l ++ [x]) = if f x then rstrip f l else l ++ [x].
Proof. unfold rstrip. rewrite reverse_snoc. simpl. destruct (f x); [done|]. by rewrite reverse_cons, reverse_involutive. Qed.

Lemma rstrip_head f x l : f x = false -> rstrip f (x :: l) <> [].
Proof.
  intros Hx. induction l as [|y l IH] using rev_ind; [unfold rstrip; simpl; by rewrite Hx|].
  rewrite app_comm_cons, rstrip_snoc. destruct (f y); [done|]. intros E. by apply app_eq_nil in E as [E _].
Qed.

Lemma get_char_rep s ty c free i x : sds_rep s ty c free -> c !! i = Some x -> get_char s (Z.of_nat i) = Some x.
Proof.
  intros [-> _ _] Hi. rewrite <- (take_drop_middle c i x Hi), <- app_assoc. cbn [app]. apply get_raw.
  unfold zlen. apply lookup_lt_Some in Hi. rewrite length_take. lia.
Qed.

Lemma trim_left_spec s ty A B free cset fuel :
  sds_rep s ty (A ++ B) free -> (length B <= fuel)%nat ->
  trim_left fuel cset s (zlen A) (zlen (A ++ B) - 1) = Some (zlen (A ++ B) - zlen (lstrip (strchr cset) B)).
Proof.
  revert A fuel. induction B as [|x B IH]; intros A fuel Hrep Hf; unfold zlen in *.
  - rewrite app_nil_r. destruct fuel; simpl; destruct (Z.leb_spec (Z.of_nat (length A)) (Z.of_nat (length A) - 1)); try lia; f_equal; lia.
  - destruct fuel as [|fuel]; [simpl in Hf; lia|]. simpl trim_left. rewrite !length_app in *. simpl length in *.
    destruct (Z.leb_spec (Z.of_nat (length A)) (Z.of_nat (length A + S (length B)) - 1)); [|lia].
    rewrite (get_char_rep _ _ _ _ (length A) x Hrep) by apply list_lookup_middle, eq_refl. cbn [mbind option_bind lstrip].
    destruct (strchr cset x); [|simpl; f_equal; lia].
    specialize (IH (A ++ [x]) fuel). rewrite <- app_assoc in IH. specialize (IH Hrep ltac:(lia)).
    rewrite !length_app in IH. cbn [length] in IH. rewrite Nat2Z.inj_add in IH. exact IH.
Qed.

Lemma trim_right_spec s ty A M R free cset fuel :
  sds_rep s ty (A ++ M ++ R) free -> (length M <= fuel)%nat -> match M with [] => True | x :: _ => strchr cset x = false end ->
  trim_right fuel cset s (zlen A) (zlen A + zlen M - 1) = Some (zlen A + zlen (rstrip (strchr cset) M) - 1).
Proof.
  revert R fuel. induction M as [|x M IH] using rev_ind; intros R fuel Hrep Hf Hh; unfold zlen in *.
  - destruct fuel; simpl; destruct (Z.ltb_spec (Z.of_nat (length A)) (Z.of_nat (length A) + 0 - 1)); rewrite ?Z.gtb_ltb; bdestr; done.
  - rewrite length_app in Hf. simpl in Hf. destruct fuel as [|fuel]; [lia|]. simpl trim_right. rewrite Z.gtb_ltb, rstrip_snoc, length_app. simpl length.
    destruct M as [|y M].
    + simpl in Hh. rewrite Hh. destruct (Z.ltb_spec (Z.of_nat (length A)) (Z.of_nat (length A) + Z.of_nat (length (@nil Z) + 1) - 1)); [simpl in *; lia|]. f_equal.
    + destruct (Z.ltb_spec (Z.of_nat (length A)) (Z.of_nat (length A) + Z.of_nat (length (y :: M) + 1) - 1)); [|simpl in *; lia].
      replace (Z.of_nat (length A) + Z.of_nat (length (y :: M) + 1) - 1) with (Z.of_nat (length (A ++ y :: M))) by (rewrite length_app; lia).
      rewrite (get_char_rep _ _ _ _ (length (A ++ y :: M)) x Hrep).
      2:{ rewrite <- app_assoc, app_assoc. apply list_lookup_middle, eq_refl. }
      cbn [mbind option_bind]. destruct (strchr cset x); [|f_equal; rewrite !length_app; simpl; lia].
      specialize (IH (x :: R) fuel). rewrite <- app_assoc in Hrep. specialize (IH Hrep ltac:(lia) Hh).
      rewrite <- IH. f_equal. rewrite length_app. lia.
Qed.

Lemma rstrip_length f l : (length (rstrip f l) <= length l)%nat.
Proof.
  unfold rstrip. rewrite length_reverse. destruct (lstrip_suffix f (reverse l)) as (p & E & _).
  apply (f_equal length) in E. rewrite length_app, length_reverse in E. lia.
Qed.

Lemma rstrip_prefix f l : take (length (rstrip f l)) l = rstrip f l.
Proof.
  unfold rstrip. destruct (lstrip_suffix f (reverse l)) as (p & E & _).
  apply (f_equal reverse) in E. rewrite reverse_involutive, reverse_app in E. rewrite E at 2. apply take_app_length.
Qed.

Lemma sdstrim_spec s ty c free cset :
  sds_rep s ty c free ->
  exists s' free', sdstrim s cset = Some s' /\ sds_rep s' ty (strip (strchr cset) c) free' /\ zlen (strip (strchr cset) c) + zlen free' = zlen c + zlen free.
Proof.
  intros Hrep. unfold sdstrim. rewrite (sdslen_rep _ _ _ _ Hrep). cbn [mbind option_bind].
  destruct (lstrip_suffix (strchr cset) c) as (A & E & _). set (B := lstrip (strchr cset) c) in *.
  assert (zlen c = zlen A + zlen B) as Hl by (unfold zlen; rewrite E at 1; rewrite length_app; lia).
  replace (trim_left _ cset s 0 _) with (Some (zlen A)).
  2:{ symmetry. pose proof (trim_left_spec s ty [] c free cset (Z.to_nat (zlen c)) Hrep) as Ht. simpl app in Ht. fold B in Ht.
      change (zlen []) with 0 in Ht. rewrite Ht by (unfold zlen; lia). f_equal. lia. }
  cbn [mbind option_bind]. replace (zlen c - 1) with (zlen A + zlen B - 1) by lia.
  rewrite (trim_right_spec s ty A B [] free cset).
  2:{ by rewrite app_nil_r, <- E. }
  2:{ unfold zlen in *. lia. }
  2:{ destruct B as [|x B'] eqn:EB; [done|]. by eapply lstrip_head. }
  cbn [mbind option_bind]. fold (strip (strchr cset) c). pose proof (rstrip_length (strchr cset) B) as Hrl. set (D := rstrip (strchr cset) B) in *.
  assert ((if zlen A >? zlen A + zlen D - 1 then 0 else zlen A + zlen D - 1 - zlen A + 1) = zlen D) as ->.
  { rewrite Z.gtb_ltb. unfold zlen in *. bdestr; lia. }
  destruct (cut_content s ty c free (zlen A) (zlen D) Hrep) as (s' & free' & Hrep' & Hfl & Heq); [unfold zlen in *; lia..|].
  exists s', free'. assert (take (Z.to_nat (zlen D)) (drop (Z.to_nat (zlen A)) c) = strip (strchr cset) c) as Hs.
  { unfold zlen. rewrite !Nat2Z.id. rewrite E at 1. rewrite drop_app_length. apply rstrip_prefix. }
  rewrite Hs in Hrep'. split_and!; [exact Heq|done|]. change (strip (strchr cset) c) with D. lia.
Qed.

(** The part of [c] from index [start] to index [end_], both included and both
    counted from the end when negative. *)
Definition norm_index (n i : Z) : Z := if i <? 0 then Z.max 0 (n + i) else i.
Definition substring (c : list Z) (start end_ : Z) : list Z :=
  let a := norm_index (zlen c) start in
  let b := Z.min (norm_index (zlen c) end_) (zlen c - 1) in
  take (Z.to_nat (b - a + 1)) (drop (Z.to_nat a) c).

Lemma norm_wrap n i : 0 <= n < 2 ^ 63 -> - 2 ^ 63 <= i < 2 ^ 63 ->
  (if i <? 0 then Z.max 0 (s64 (u64 (n + i))) else i) = norm_index n i.
Proof.
  intros Hn Hi. unfold norm_index. destruct (Z.ltb_spec i 0); [|done]. f_equal. unfold s64, u64.
  change 64 with (8 * Z.of_nat 8). apply sN_mod; [lia|]. change (8 * Z.of_nat 8 - 1) with 63. lia.
Qed.

Lemma sdsrange_spec s ty c free start end_ :
  sds_rep s ty c free -> zlen c < 2 ^ 63 -> - 2 ^ 63 <= start < 2 ^ 63 -> - 2 ^ 63 <= end_ < 2 ^ 63 - 1 ->
  exists s' free', sdsrange s start end_ = Some s' /\ sds_rep s' ty (substring c start end_) free'.
Proof.
  intros Hrep Hc Hs He. pose proof (zlen_nonneg c). unfold sdsrange. rewrite (sdslen_rep _ _ _ _ Hrep). cbn [mbind option_bind].
  destruct (Z.eqb_spec (zlen c) 0) as [Hz|Hz].
  { exists s, free. split; [done|]. assert (c = []) as -> by (unfold zlen in Hz; destruct c; [done|simpl in Hz; lia]).
    unfold substring. by rewrite drop_nil, take_nil. }
  rewrite !norm_wrap by lia. unfold substring. set (a := norm_index (zlen c) start). set (e := norm_index (zlen c) end_).
  assert (0 <= a /\ 0 <= e < 2 ^ 63 - 1) as [Ha0 He0] by (unfold a, e, norm_index; destruct (Z.ltb_spec start 0), (Z.ltb_spec end_ 0); lia).
  clearbody a e. unfold span_len. rewrite !Z.gtb_ltb, !Z.geb_leb.
  assert (forall i m, 0 <= i -> 0 <= m -> (m <> 0 -> i + m <= zlen c) ->
    take (Z.to_nat (Z.min e (zlen c - 1) - a + 1)) (drop (Z.to_nat a) c) = take (Z.to_nat m) (drop (Z.to_nat i) c) ->
    exists s' free', (s ← (if negb (i =? 0) && negb (m =? 0) then move_chars s 0 i m else Some s); s ← put_bytes s m [0]; sdssetlen s m) = Some s' /\
      sds_rep s' ty (take (Z.to_nat (Z.min e (zlen c - 1) - a + 1)) (drop (Z.to_nat a) c)) free') as Hcut.
  { intros i m Hi Hm Him Heq. rewrite Heq. destruct (Z.eqb_spec m 0) as [->|Hne].
    - rewrite andb_false_r. destruct (cut_content s ty c free 0 0 Hrep) as (s' & free' & Hrep' & _ & Hp); [lia..|].
      exists s', free'. by split.
    - rewrite andb_true_r. destruct (cut_content s ty c free i m Hrep) as (s' & free' & Hrep' & _ & Hp); [lia|lia|by apply Him|].
      exists s', free'. by split. }
  destruct (Z.ltb_spec e a) as [Hlt|Hge]; cbn [mbind option_bind].
  - rewrite Z.eqb_refl. cbn [negb mbind option_bind]. apply Hcut; [lia..|]. replace (Z.to_nat (Z.min e (zlen c - 1) - a + 1)) with O by lia. done.
  - destruct (Z.leb_spec (e - a + 1) LONG_MAX); [|unfold LONG_MAX in *; lia]. cbn [mbind option_bind].
    destruct (Z.eqb_spec (e - a + 1) 0); [lia|]. cbn [negb].
    destruct (Z.leb_spec (zlen c) a); cbn [mbind option_bind].
    { apply Hcut; [lia..|]. replace (Z.to_nat (Z.min e (zlen c - 1) - a + 1)) with O by lia. done. }
    destruct (Z.leb_spec (zlen c) e); cbn [mbind option_bind].
    + destruct (Z.ltb_spec (zlen c - 1) a); [lia|]. destruct (Z.leb_spec (zlen c - 1 - a + 1) LONG_MAX); [|unfold LONG_MAX in *; lia].
      cbn [mbind option_bind]. apply Hcut; [lia..|]. do 2 f_equal. lia.
    + apply Hcut; [lia..|]. do 2 f_equal. lia.
Qed.

Lemma map_loop_spec f s ty A B free :
  sds_rep s ty (A ++ B) free ->
  exists s', map_loop f (length B) (zlen A) s = Some s' /\ sds_rep s' ty (A ++ (f <$> B)) free.
Proof.
  revert A s. induction B as [|x B IH]; intros A s Hrep; cbn [length map_loop]; [by exists s|].
  assert (get_char s (zlen A) = Some x) as -> by (apply (get_char_rep _ _ _ _ (length A) x Hrep), list_lookup_middle, eq_refl). cbn [mbind option_bind].
  destruct Hrep as [-> Hf Ha].
  assert (zlen (A ++ f x :: B) = zlen (A ++ x :: B)) as Hl by (unfold zlen; rewrite !length_app; done).
  assert (put_bytes (raw ty (zlen (A ++ x :: B)) (zlen (A ++ x :: B) + zlen free) ((A ++ x :: B) ++ 0 :: free)) (zlen A) [f x] =
    Some (raw ty (zlen (A ++ f x :: B)) (zlen (A ++ f x :: B) + zlen free) ((A ++ f x :: B) ++ 0 :: free))) as ->.
  { rewrite Hl, <- !app_assoc. change ((x :: B) ++ 0 :: free) with ([x] ++ B ++ 0 :: free). by rewrite put_raw. }
  cbn [mbind option_bind].
  destruct (IH (A ++ [f x]) (raw ty (zlen (A ++ f x :: B)) (zlen (A ++ f x :: B) + zlen free) ((A ++ f x :: B) ++ 0 :: free))) as (s' & Hs & Hr).
  - replace ((A ++ [f x]) ++ B) with (A ++ f x :: B) by by rewrite <- app_assoc. split; [done|by rewrite Hl|by rewrite Hl].
  - exists s'. rewrite <- app_assoc in Hr. split; [|exact Hr]. rewrite <- Hs. f_equal. unfold zlen. rewrite length_app. simpl. lia.
Qed.

Lemma sds_map_spec s ty c free :
  sds_rep s ty c free ->
  (exists s', sdstolower s = Some s' /\ sds_rep s' ty (to_lower <$> c) free) /\
  (exists s', sdstoupper s = Some s' /\ sds_rep s' ty (to_upper <$> c) free) /\
  (forall from to n, exists s', sdsmapchars s from to n = Some s' /\
     sds_rep s' ty (map_char (take (Z.to_nat n) from) (take (Z.to_nat n) to) <$> c) free).
Proof.
  intros Hrep. unfold sdstolower, sdstoupper, sdsmapchars. rewrite (sdslen_rep _ _ _ _ Hrep). cbn [mbind option_bind].
  unfold zlen. rewrite Nat2Z.id. change 0 with (zlen []). split_and!.
  - apply (map_loop_spec to_lower s ty [] c free Hrep).
  - apply (map_loop_spec to_upper s ty [] c free Hrep).
  - intros from to n. apply (map_loop_spec _ s ty [] c free Hrep).
Qed.

Lemma strlen_spec c rest : Forall (fun x => x <> 0) c -> strlen (c ++ 0 :: rest) = Some (length c).
Proof. induction 1 as [|x c Hx _ IH]; [done|]. simpl. apply Z.eqb_neq in Hx. by rewrite Hx, IH. Qed.

(** After the caller stored a zero inside the string. *)
Lemma sdsupdatelen_spec s ty c c2 free :
  sds_rep s ty (c ++ 0 :: c2) free -> Forall (fun x => x <> 0) c ->
  exists s' free', sdsupdatelen s = Some s' /\ sds_rep s' ty c free'.
Proof.
  intros Hrep Hc. unfold sdsupdatelen. rewrite (chars_rep _ _ _ _ Hrep), <- app_assoc. cbn [app].
  rewrite strlen_spec by done. cbn [mbind option_bind]. destruct Hrep as [-> Hf Ha].
  assert (zlen (c ++ 0 :: c2) = zlen c + zlen c2 + 1) as Hl by (unfold zlen; rewrite length_app; simpl; lia).
  assert (fits ty (zlen c)) as Hfc by (eapply fits_mono; [exact Hf|unfold zlen in *; lia]).
  fold (zlen c). rewrite sdssetlen_raw by done. eexists _, (c2 ++ 0 :: free). split; [done|]. rewrite <- app_assoc. cbn [app].
  apply rep_intro; [done|]. intros Hne. split; [|by apply Ha]. unfold zlen. rewrite !length_app. simpl. rewrite ?length_app. simpl. lia.
Qed.
End Rep.

(** ** Sequences of operations

    The operations as the rest of the server uses them, on a pointer and on the
    byte sequence it represents. *)
Inductive sds_op :=
  | OpCat (bs : list Z) | OpCpy (bs : list Z) | OpClear | OpTrim (cset : list Z) | OpRange (start end_ : Z)
  | OpGrow (n : Z) | OpMakeRoom (n : Z) | OpShrink | OpDup | OpLower | OpUpper.

Section Exec.
Context `{Host} (malloc : Z -> list Z).

Definition sds_exec (op : sds_op) (s : sds) : option sds :=
  match op with
  | OpCat bs => sdscatlen malloc s bs (zlen bs)
  | OpCpy bs => sdscpylen malloc s bs (zlen bs)
  | OpClear => sdsclear s
  | OpTrim cset => sdstrim s cset
  | OpRange a b => sdsrange s a b
  | OpGrow n => sdsgrowzero malloc s n
  | OpMakeRoom n => sdsMakeRoomFor malloc s n
  | OpShrink => sdsRemoveFreeSpace malloc s
  | OpDup => sdsdup malloc s
  | OpLower => sdstolower s
  | OpUpper => sdstoupper s
  end.

Definition sds_apply (c : list Z) (op : sds_op) : list Z :=
  match op with
  | OpCat bs => c ++ bs
  | OpCpy bs => bs
  | OpClear => []
  | OpTrim cset => strip (strchr cset) c
  | OpRange a b => substring c a b
  | OpGrow n => c ++ replicate (Z.to_nat (n - zlen c)) 0
  | OpLower => to_lower <$> c
  | OpUpper => to_upper <$> c
  | _ => c
  end.

(** Sizes below 2^60 and indexes of 63 bits. *)
Definition op_ok (op : sds_op) (c : list Z) : Prop :=
  zlen c < 2 ^ 60 /\
  match op with
  | OpCat bs | OpCpy bs => zlen bs < 2 ^ 60
  | OpRange a b => - 2 ^ 63 <= a < 2 ^ 63 /\ - 2 ^ 63 <= b < 2 ^ 63 - 1
  | OpGrow n | OpMakeRoom n => 0 <= n < 2 ^ 60
  | _ => True
  end.

Fixpoint ops_ok (c : list Z) (ops : list sds_op) : Prop :=
  match ops with [] => True | op :: ops => op_ok op c /\ ops_ok (sds_apply c op) ops end.

Context (malloc_size : forall n, 0 <= n -> zlen (malloc n) = n).
Context (malloc_bytes : forall n, Forall is_byte (malloc n)).

(** The block in memory is not larger than the address space. *)
Definition in_memory (s : sds) : Prop := zlen (blk s) < 2 ^ 62.

Lemma sds_exec_spec op s ty c free :
  sds_rep s ty c free -> op_ok op c -> in_memory s ->
  exists s' ty' free', sds_exec op s = Some s' /\ sds_rep s' ty' (sds_apply c op) free'.
Proof.
  intros Hrep [Hc Hop] Hmem. pose proof (zlen_nonneg c). destruct op; cbn [sds_exec sds_apply].
  - destruct (sdscatlen_spec malloc malloc_size malloc_bytes s ty c free bs (zlen bs) Hrep) as (s' & ty' & free' & -> & Hr); [unfold zlen; lia|lia|].
    exists s', ty', free'. split; [done|]. unfold zlen in Hr. by rewrite Nat2Z.id, firstn_all in Hr.
  - destruct (sdscpylen_spec malloc malloc_size malloc_bytes s ty c free bs (zlen bs) Hrep) as (s' & ty' & free' & -> & Hr); [unfold zlen; lia|lia|].
    exists s', ty', free'. split; [done|]. unfold zlen in Hr. by rewrite Nat2Z.id, firstn_all in Hr.
  - destruct (sdsclear_spec s ty c free Hrep) as (s' & free' & -> & Hr & _). by exists s', ty, free'.
  - destruct (sdstrim_spec s ty c free cset Hrep) as (s' & free' & -> & Hr & _). by exists s', ty, free'.
  - destruct (sdsrange_spec s ty c free start end_ Hrep) as (s' & free' & -> & Hr); [lia|lia|lia|]. by exists s', ty, free'.
  - destruct (sdsgrowzero_spec malloc malloc_size malloc_bytes s ty c free n Hrep) as (s' & ty' & free' & -> & Hr); [lia|]. by exists s', ty', free'.
  - destruct (sdsMakeRoomFor_spec malloc malloc_size malloc_bytes s ty c free n Hrep) as (s' & -> & (ty' & free' & Hr & _)); [lia|lia|]. by exists s', ty', free'.
  - destruct (sdsRemoveFreeSpace_spec malloc malloc_size malloc_bytes s ty c free Hrep) as (s' & ty' & -> & Hr); [|by eexists s', ty', _].
    unfold in_memory in Hmem. rewrite (sr_block _ _ _ _ Hrep) in Hmem. unfold raw, zlen in *. cbn [blk] in Hmem. rewrite !length_app in Hmem. simpl in Hmem. lia.
  - destruct (sdsdup_spec malloc malloc_size malloc_bytes s ty c free Hrep) as (s' & ty' & -> & Hr); [lia|]. by eexists s', ty', _.
  - destruct (sds_map_spec s ty c free Hrep) as ((s' & -> & Hr) & _ & _). by eexists s', ty, _.
  - destruct (sds_map_spec s ty c free Hrep) as (_ & (s' & -> & Hr) & _). by eexists s', ty, _.
Qed.

Fixpoint sds_execs (ops : list sds_op) (s : sds) : option sds :=
  match ops with [] => Some s | op :: ops => s ← sds_exec op s; sds_execs ops s end.

(** Reachable pointers: from sdsempty by operations, all in memory. *)
Inductive sds_reach : list sds_op -> sds -> Prop :=
  | reach_nil s : sdsempty malloc = Some s -> sds_reach [] s
  | reach_step ops op s s' : sds_reach ops s -> in_memory s -> sds_exec op s = Some s' -> sds_reach (ops ++ [op]) s'.

Definition content (ops : list sds_op) : list Z := foldl sds_apply [] ops.

Lemma ops_ok_app c ops op : ops_ok c (ops ++ [op]) <-> ops_ok c ops /\ op_ok op (foldl sds_apply c ops).
Proof. revert c. induction ops as [|o ops IH]; intros c; simpl; [tauto|]. rewrite IH. tauto. Qed.

Lemma sdsempty_rep : exists s, sdsempty malloc = Some s /\ sds_rep s SDS_TYPE_8 [] [].
Proof.
  unfold sdsempty. destruct (sdsnewlen_spec malloc malloc_size malloc_bytes (InitBytes [0]) 0) as (s & ty & c & -> & Hr & [Hl ->] & Hty); [lia|lia|simpl; unfold zlen; simpl; lia|].
  exists s. split; [done|]. by rewrite (Hty eq_refl) in Hr.
Qed.

Lemma reach_rep ops s : sds_reach ops s -> ops_ok [] ops -> exists ty free, sds_rep s ty (content ops) free.
Proof.
  induction 1 as [s Hs|ops op s s' Hreach IH Hmem Hs]; intros Hok.
  - destruct sdsempty_rep as (s0 & E & Hr). rewrite E in Hs. injection Hs as <-. by eexists _, _.
  - apply ops_ok_app in Hok as [Hok Hop]. destruct (IH Hok) as (ty & free & Hr).
    destruct (sds_exec_spec op s ty _ free Hr Hop Hmem) as (s1 & ty1 & free1 & E & Hr1). rewrite E in Hs. injection Hs as <-.
    exists ty1, free1. unfold content. by rewrite foldl_app.
Qed.

(** C29: whatever operations a string is built with, its block is well formed: the
    header has one of the five types, the length and the allocation fit its
    fields, sdslen, sdsavail, sdsalloc and sdsAllocSize read them back, the bytes are those
    of the abstract sequence with the terminator after them, and no operation
    accesses memory outside the block or fails. *)
Theorem sds_well_formed ops s op :
  sds_reach ops s -> ops_ok [] (ops ++ [op]) -> in_memory s ->
  let c := content ops in
  exists ty free, sds_rep s ty c free /\
    sdslen s = Some (zlen c) /\ get_char s (zlen c) = Some 0 /\
    (forall i x, c !! i = Some x -> get_char s (Z.of_nat i) = Some x) /\
    (ty <> SDS_TYPE_5 -> sdsavail s = Some (zlen free) /\ sdsalloc s = Some (zlen c + zlen free) /\ sdsAllocSize s = Some (zlen (blk s))) /\
    exists s' ty' free', sds_exec op s = Some s' /\ sds_rep s' ty' (content (ops ++ [op])) free'.
Proof.
  intros Hreach Hok Hmem c. apply ops_ok_app in Hok as [Hok Hop]. destruct (reach_rep ops s Hreach Hok) as (ty & free & Hr).
  exists ty, free. split_and!; [done|by eapply sdslen_rep|by eapply rep_nul|intros i x; by eapply get_char_rep| |].
  - intros Hne. rewrite (sdsavail_rep _ _ _ _ Hr), (sdsalloc_rep _ _ _ _ Hr), (sdsAllocSize_rep _ _ _ _ Hr Hne).
    apply Z.eqb_neq in Hne. by rewrite Hne.
  - destruct (sds_exec_spec op s ty _ free Hr Hop Hmem) as (s1 & ty1 & free1 & E & Hr1). exists s1, ty1, free1.
    split; [done|]. unfold content. by rewrite foldl_app.
Qed.

(** A caller that asks sdsMakeRoomFor for n bytes can write up to n bytes
    behind the string and then call sdsIncrLen, and gets the string with these bytes
    appended; the room left is at least what was asked for. *)
Theorem sds_append_schema ops s n bs :
  sds_reach ops s -> ops_ok [] (ops ++ [OpMakeRoom n]) -> 0 < zlen bs <= n -> zlen bs < 2 ^ 31 ->
  let c := content ops in
  exists s1 s2 s3 avail ty free, sdsMakeRoomFor malloc s n = Some s1 /\ sdsavail s1 = Some avail /\ n <= avail /\
    put_bytes s1 (zlen c) bs = Some s2 /\ sdsIncrLen s2 (zlen bs) = Some s3 /\ sds_rep s3 ty (c ++ bs) free.
Proof.
  intros Hreach Hok Hbs H31 c. apply ops_ok_app in Hok as [Hok [Hc Hn]]. destruct (reach_rep ops s Hreach Hok) as (ty & free & Hr).
  fold (content ops) in Hc. fold c in Hc, Hr.
  destruct (append_in_place malloc malloc_size malloc_bytes s ty c free n bs Hr) as (s1 & s2 & s3 & ty' & free' & E1 & E2 & E3 & Hr3); [done|lia|done|].
  destruct (sdsMakeRoomFor_spec malloc malloc_size malloc_bytes s ty c free n Hr) as (s1' & E1' & (ty1 & free1 & Hr1 & Hroom & H5)); [lia|lia|].
  rewrite E1 in E1'. injection E1' as <-. exists s1, s2, s3, (zlen free1), ty', free'. split_and!; try done.
  rewrite (sdsavail_rep _ _ _ _ Hr1). destruct (Z.eqb_spec ty1 SDS_TYPE_5) as [E|E]; [specialize (H5 E); lia|done].
Qed.
End Exec.

(** *** Concrete runs *)

Definition malloc_aa (n : Z) : list Z := replicate (Z.to_nat n) 170.
Definition le_host : Host := {| big_endian := false |}.
Definition be_host : Host := {| big_endian := true |}.

Lemma malloc_aa_size n : 0 <= n -> zlen (malloc_aa n) = n.
Proof. intros Hn. unfold zlen, malloc_aa. rewrite length_replicate. lia. Qed.
Lemma malloc_aa_bytes n : Forall is_byte (malloc_aa n).
Proof. apply Forall_replicate. unfold is_byte. lia. Qed.

(** "  Hello " trimmed and extended *)
Definition demo_ops : list sds_op := [OpCat [32; 72; 101; 108; 108; 111; 32]; OpTrim [32]; OpGrow 40; OpRange 1 (-37)].
Definition demo (H : Host) : sds :=
  match sdsempty (H := H) malloc_aa with
  | Some s => match sds_execs (H := H) malloc_aa demo_ops s with Some s => s | None => s end
  | None => mk_sds [] 0
  end.

Example demo_content : content demo_ops = [101; 108; 108].
Proof. reflexivity. Qed.

(** A run of operations reaches its result when every block on the way is in memory. *)
Fixpoint all_in_memory `{Host} (malloc : Z -> list Z) (ops : list sds_op) (s : sds) : bool :=
  match ops with
  | [] => true
  | op :: ops => (zlen (blk s) <? 2 ^ 62) && match sds_exec malloc op s with Some s => all_in_memory malloc ops s | None => false end
  end.

Lemma execs_reach `{Host} malloc ops1 ops2 s s' :
  sds_reach malloc ops1 s -> all_in_memory malloc ops2 s = true -> sds_execs malloc ops2 s = Some s' -> sds_reach malloc (ops1 ++ ops2) s'.
Proof.
  revert ops1 s. induction ops2 as [|op ops2 IH]; intros ops1 s Hr Hm He; simpl in *.
  - injection He as <-. by rewrite app_nil_r.
  - apply andb_true_iff in Hm as [Hm1 Hm2]. apply Z.ltb_lt in Hm1. destruct (sds_exec malloc op s) as [s1|] eqn:E; [|done].
    replace (ops1 ++ op :: ops2) with ((ops1 ++ [op]) ++ ops2) by by rewrite <- app_assoc. apply (IH _ s1); [|done|done]. by apply (reach_step malloc ops1 op s s1).
Qed.

Definition empty_string (H : Host) : sds := match sdsempty (H := H) malloc_aa with Some s => s | None => mk_sds [] 0 end.

Lemma demo_reach (H : Host) (HH : H = le_host \/ H = be_host) : sds_reach (H := H) malloc_aa demo_ops (demo H).
Proof.
  apply (execs_reach (H := H) malloc_aa [] demo_ops (empty_string H)); destruct HH as [-> | ->]; try (vm_compute; reflexivity); apply reach_nil; vm_compute; reflexivity.
Qed.

Lemma demo_ok op : op = OpCat [33] \/ op = OpMakeRoom 100 -> ops_ok [] (demo_ops ++ [op]).
Proof. intros [-> | ->]; cbn -[Z.lt Z.le]; unfold op_ok; split_and!; vm_compute; done. Qed.

Lemma sds_well_formed_witness :
  exists s' ty' free', sds_exec (H := be_host) malloc_aa (OpCat [33]) (demo be_host) = Some s' /\
    sds_rep (H := be_host) s' ty' [101; 108; 108; 33] free'.
Proof.
  destruct (sds_well_formed (H := be_host) malloc_aa malloc_aa_size malloc_aa_bytes demo_ops (demo be_host) (OpCat [33])) as (ty & free & _ & _ & _ & _ & _ & Hx).
  - apply demo_reach. by right.
  - apply demo_ok. by left.
  - vm_compute. reflexivity.
  - exact Hx.
Defined.

Lemma sds_append_schema_witness :
  exists s1 s2 s3 avail ty free, sdsMakeRoomFor (H := le_host) malloc_aa (demo le_host) 100 = Some s1 /\ sdsavail (H := le_host) s1 = Some avail /\
    100 <= avail /\ put_bytes s1 3 [33; 33] = Some s2 /\ sdsIncrLen (H := le_host) s2 2 = Some s3 /\ sds_rep (H := le_host) s3 ty [101; 108; 108; 33; 33] free.
Proof.
  apply (sds_append_schema (H := le_host) malloc_aa malloc_aa_size malloc_aa_bytes demo_ops (demo le_host) 100 [33; 33]).
  - apply demo_reach. by left.
  - apply demo_ok. by right.
  - vm_compute. split; [reflexivity|discriminate].
  - vm_compute. reflexivity.
Defined.
