(* ===== verification/SdsText.v ===== *)
(** * Strings: numbers, splitting, quoting (src/redis-stable/src/sds.c)

    The functions of sds.c that build strings from other values or take them
    apart.  They use strings only through the operations of [Sds], so that a string
    is its byte sequence here. *)
From stdpp Require Import prelude list.
From Stdlib Require Import ZArith Lia.
From S2P Require Import Prelude Util.

Local Open Scope Z_scope.
Local Open Scope redis_scope.

(** ** The model *)

(** *** Numbers *)

Definition SDS_LLSTR_SIZE : Z := 21.

(** The loop that stores the digits of v, last one first. *)
Fixpoint emit_digits (fuel : nat) (s : list Z) (p v : Z) : option (list Z * Z) :=
  match fuel with
  | O => None
  | S fuel =>
    s ← mwrite s p [48 + v mod 10];
    let v := v / 10 in
    if v =? 0 then Some (s, p + 1) else emit_digits fuel s (p + 1) v
  end.

(** The loop that exchanges the characters at s and p until they meet. *)
Fixpoint reverse_chars (fuel : nat) (buf : list Z) (s p : Z) : option (list Z) :=
  if s <? p then
    match fuel with
    | O => None
    | S fuel =>
      a ← mread buf s 1;
      b ← mread buf p 1;
      buf ← mwrite buf s b;
      buf ← mwrite buf p a;
      reverse_chars fuel buf (s + 1) (p - 1)
    end
  else Some buf.

(** The negation of LLONG_MIN is undefined. *)
Definition sdsll2str (s : list Z) (value : Z) : option (list Z * Z) :=
  v ← (if value <? 0 then assert! (LLONG_MIN <? value) ;; Some (u64 (- value)) else Some (u64 value));
  '(s, p) ← emit_digits 20 s 0 v;
  '(s, p) ← (if value <? 0 then s ← mwrite s p [45]; Some (s, p + 1) else Some (s, p));
  s ← mwrite s p [0];
  s ← reverse_chars 21 s 0 (p - 1);
  Some (s, p).

Definition sdsull2str (s : list Z) (v : Z) : option (list Z * Z) :=
  '(s, p) ← emit_digits 20 s 0 v;
  s ← mwrite s p [0];
  s ← reverse_chars 21 s 0 (p - 1);
  Some (s, p).

(** [buf] is the uninitialised array. *)
Definition sdsfromlonglong (buf : list Z) (value : Z) : option (list Z) :=
  '(buf, len) ← sdsll2str buf value;
  mread buf 0 len.

(** *** Splitting and joining *)

(** The search loop from index [j] on, with the tokens found and the start of the
    next one. *)
Fixpoint split_loop (fuel : nat) (s sep : list Z) (j start : Z) (tokens : list (list Z)) : option (list (list Z) * Z) :=
  let seplen := Z.of_nat (length sep) in
  let len := Z.of_nat (length s) in
  if j <? len - (seplen - 1) then
    match fuel with
    | O => None
    | S fuel =>
      c ← mread s j 1;
      w ← mread s j seplen;
      if ((seplen =? 1) && bool_decide (head c = head sep)) || bool_decide (w = sep) then
        t ← mread s start (j - start);
        split_loop fuel s sep (j + seplen - 1 + 1) (j + seplen) (tokens ++ [t])
      else split_loop fuel s sep (j + 1) start tokens
    end
  else Some (tokens, start).

(** The inner [None] is the NULL pointer. *)
Definition sdssplitlen (s sep : list Z) : option (option (list (list Z))) :=
  if Z.of_nat (length sep) <? 1 then Some None
  else if bool_decide (s = []) then Some (Some [])
  else
    '(tokens, start) ← split_loop (S (length s)) s sep 0 0 [];
    t ← mread s start (Z.of_nat (length s) - start);
    Some (Some (tokens ++ [t])).

Fixpoint sdsjoinsds (argv : list (list Z)) (sep : list Z) : list Z :=
  match argv with
  | [] => []
  | [a] => a
  | a :: argv => a ++ sep ++ sdsjoinsds argv sep
  end.

(** *** Quoting *)

Definition isprint (c : Z) : bool := (32 <=? c) && (c <=? 126).
Definition isspace (c : Z) : bool := (c =? 32) || ((9 <=? c) && (c <=? 13)).

(** One digit of "%02x" *)
Definition hex_char (d : Z) : Z := if d <? 10 then 48 + d else 87 + d.

(** The body of the switch of sdscatrepr. *)
Definition repr_char (c : Z) : list Z :=
  if (c =? 92) || (c =? 34) then [92; c]
  else if c =? 10 then [92; 110]
  else if c =? 13 then [92; 114]
  else if c =? 9 then [92; 116]
  else if c =? 7 then [92; 97]
  else if c =? 8 then [92; 98]
  else if isprint c then [c]
  else [92; 120; hex_char (c / 16); hex_char (c mod 16)].
Definition sdscatrepr (s p : list Z) : list Z := ((s ++ [34]) ++ mjoin (repr_char <$> p)) ++ [34].

Definition is_hex_digit (c : Z) : bool :=
  ((48 <=? c) && (c <=? 57)) || ((97 <=? c) && (c <=? 102)) || ((65 <=? c) && (c <=? 70)).
Definition hex_digit_to_int (c : Z) : Z :=
  if (48 <=? c) && (c <=? 57) then c - 48
  else if (97 <=? c) && (c <=? 102) then c - 87
  else if (65 <=? c) && (c <=? 70) then c - 55
  else 0.

(** The characters after the pointer [p], before the terminator; [at_ p i] is
    p[i]. *)
Definition at_ (p : list Z) (i : nat) : Z := nth i p 0.
Definition inc (p : list Z) : list Z := tail p.

Inductive quoting := Plain | InQuotes | InSingleQuotes.

(** One round of the loop over a token: an error, the end of the token, or the
    next state. *)
Inductive round := Err | Done (p cur : list Z) | Next (q : quoting) (p cur : list Z).

Definition unescape (c : Z) : Z :=
  if c =? 110 then 10 else if c =? 114 then 13 else if c =? 116 then 9
  else if c =? 98 then 8 else if c =? 97 then 7 else c.

Definition token_round (q : quoting) (p cur : list Z) : round :=
  match q with
  | InQuotes =>
    if (at_ p 0 =? 92) && (at_ p 1 =? 120) && is_hex_digit (at_ p 2) && is_hex_digit (at_ p 3) then
      Next q (inc (drop 3 p)) (cur ++ [u8 (hex_digit_to_int (at_ p 2) * 16 + hex_digit_to_int (at_ p 3))])
    else if (at_ p 0 =? 92) && negb (at_ p 1 =? 0) then
      let p := inc p in Next q (inc p) (cur ++ [unescape (at_ p 0)])
    else if at_ p 0 =? 34 then
      if negb (at_ p 1 =? 0) && negb (isspace (at_ p 1)) then Err else Done (inc p) cur
    else if at_ p 0 =? 0 then Err
    else Next q (inc p) (cur ++ [at_ p 0])
  | InSingleQuotes =>
    if (at_ p 0 =? 92) && (at_ p 1 =? 39) then
      let p := inc p in Next q (inc p) (cur ++ [39])
    else if at_ p 0 =? 39 then
      if negb (at_ p 1 =? 0) && negb (isspace (at_ p 1)) then Err else Done (inc p) cur
    else if at_ p 0 =? 0 then Err
    else Next q (inc p) (cur ++ [at_ p 0])
  | Plain =>
    if (at_ p 0 =? 32) || (at_ p 0 =? 10) || (at_ p 0 =? 13) || (at_ p 0 =? 9) || (at_ p 0 =? 0)
    then Done (inc p) cur
    else if at_ p 0 =? 34 then Next InQuotes (inc p) cur
    else if at_ p 0 =? 39 then Next InSingleQuotes (inc p) cur
    else Next q (inc p) (cur ++ [at_ p 0])
  end.

Fixpoint token_loop (fuel : nat) (q : quoting) (p cur : list Z) : option (option (list Z * list Z)) :=
  match fuel with
  | O => None
  | S fuel =>
    match token_round q p cur with
    | Err => Some None
    | Done p cur => Some (Some (p, cur))
    | Next q p cur => token_loop fuel q p cur
    end
  end.

(** The blanks at the start. *)
Fixpoint skip_blanks (p : list Z) : list Z :=
  match p with c :: p' => if negb (c =? 0) && isspace c then skip_blanks p' else p | [] => [] end.

Fixpoint args_loop (fuel : nat) (p : list Z) (vector : list (list Z)) : option (option (list (list Z))) :=
  match fuel with
  | O => None
  | S fuel =>
    let p := skip_blanks p in
    if at_ p 0 =? 0 then Some (Some vector)
    else
      r ← token_loop (S (length p)) Plain p [];
      match r with
      | None => Some None
      | Some (p, current) => args_loop fuel p (vector ++ [current])
      end
  end.

(** [line] holds the characters before the terminator; the inner [None] is the
    NULL pointer of the error path. *)
Definition sdssplitargs (line : list Z) : option (option (list (list Z))) := args_loop (S (length line)) line [].

(** ** Numbers *)

Lemma emit_digits_S fuel s p v :
  emit_digits (S fuel) s p v =
    (s ← mwrite s p [48 + v mod 10]; if v / 10 =? 0 then Some (s, p + 1) else emit_digits fuel s (p + 1) (v / 10)).
Proof. reflexivity. Qed.

Lemma emit_digits_spec fuel A old B v :
  0 <= v -> v < 10 ^ Z.of_nat (S fuel) -> (length (dec v) = length old)%nat ->
  emit_digits (S fuel) (A ++ old ++ B) (Z.of_nat (length A)) v =
    Some (A ++ reverse (dec v) ++ B, Z.of_nat (length A + length (dec v))).
Proof.
  revert A old v. induction fuel as [|fuel IH]; intros A old v Hv Hf Hl; rewrite emit_digits_S.
  all: destruct old as [|x old]; [destruct (dec v) eqn:E; [by apply dec_nonempty in E|done]|].
  all: cbn [app]; rewrite mwrite_cell by done; cbn [mbind option_bind].
  - rewrite (dec_small v) in * by (simpl in Hf; lia). destruct old; [|done]. rewrite Z.div_small, Z.eqb_refl, Z.mod_small by (simpl in Hf; lia).
    do 2 f_equal. simpl. lia.
  - destruct (Z.eqb_spec (v / 10) 0) as [Hz|Hz].
    + assert (v < 10) as Hv10 by (apply Z.div_small_iff in Hz; lia). rewrite (dec_small v) in * by lia. destruct old; [|done].
      rewrite Z.mod_small by lia. do 2 f_equal. simpl. lia.
    + assert (10 <= v) as Hge by (destruct (Z.lt_ge_cases v 10); [rewrite Z.div_small in Hz; lia|done]).
      rewrite (dec_step v Hge) in *. rewrite length_app in *. simpl in Hl.
      specialize (IH (A ++ [48 + v mod 10]) old (v / 10)). rewrite length_app, Nat2Z.inj_add in IH. cbn [length Nat.add] in IH.
      rewrite <- !app_assoc in IH. change (Z.of_nat 1) with 1 in IH. cbn [app] in IH.
      rewrite IH; [|apply Z.div_pos; lia| |lia].
      * rewrite reverse_app. simpl. do 2 f_equal. lia.
      * apply Z.div_lt_upper_bound; [lia|]. replace (10 * 10 ^ Z.of_nat (S fuel)) with (10 ^ Z.of_nat (S (S fuel))); [done|].
        rewrite (Nat2Z.inj_succ (S fuel)), Z.pow_succ_r by lia. done.
Qed.

Lemma mread_cell A x B i : i = Z.of_nat (length A) -> mread (A ++ x :: B) i 1 = Some [x].
Proof. intros ->. change (x :: B) with ([x] ++ B). by apply mread_app. Qed.

Lemma reverse_chars_spec fuel A M B :
  (length M <= 2 * fuel + 1)%nat ->
  reverse_chars fuel (A ++ M ++ B) (Z.of_nat (length A)) (Z.of_nat (length A + length M) - 1) = Some (A ++ reverse M ++ B).
Proof.
  revert A M B. induction fuel as [|fuel IH]; intros A M B Hl.
  { destruct M as [|x [|y M]]; simpl in Hl; [| |lia]; simpl.
    - destruct (Z.ltb_spec (Z.of_nat (length A)) (Z.of_nat (length A + 0) - 1)); [lia|done].
    - destruct (Z.ltb_spec (Z.of_nat (length A)) (Z.of_nat (length A + 1) - 1)); [lia|done]. }
  destruct M as [|x M]; [simpl; destruct (Z.ltb_spec (Z.of_nat (length A)) (Z.of_nat (length A + 0) - 1)); try lia; done|].
  destruct M as [|y M _] using rev_ind.
  { simpl; destruct (Z.ltb_spec (Z.of_nat (length A)) (Z.of_nat (length A + 1) - 1)); try lia; done. }
  cbn [reverse_chars]. rewrite length_cons, length_app. cbn [length].
  destruct (Z.ltb_spec (Z.of_nat (length A)) (Z.of_nat (length A + S (length M + 1)) - 1)) as [_|]; [|lia].
  assert (A ++ (x :: M ++ [y]) ++ B = A ++ x :: (M ++ y :: B)) as -> by (cbn [app]; by rewrite <- app_assoc).
  rewrite (mread_cell A x (M ++ y :: B) (Z.of_nat (length A)) eq_refl). cbn [mbind option_bind].
  replace (mread (A ++ x :: M ++ y :: B) _ 1) with (Some [y]).
  2:{ symmetry. replace (A ++ x :: M ++ y :: B) with ((A ++ x :: M) ++ y :: B) by by rewrite <- app_assoc.
      apply mread_cell. rewrite length_app. simpl. lia. }
  cbn [mbind option_bind]. rewrite mwrite_cell by done. cbn [mbind option_bind].
  replace (A ++ y :: M ++ y :: B) with ((A ++ y :: M) ++ y :: B) by by rewrite <- app_assoc.
  rewrite mwrite_cell by (rewrite length_app; simpl; lia). cbn [mbind option_bind].
  specialize (IH (A ++ [y]) M (x :: B)). rewrite length_app in IH. cbn [length] in IH.
  replace ((A ++ y :: M) ++ x :: B) with ((A ++ [y]) ++ M ++ x :: B) by by rewrite <- !app_assoc.
  replace (Z.of_nat (length A) + 1) with (Z.of_nat (length A + 1)) by lia.
  replace (Z.of_nat (length A + S (length M + 1)) - 1 - 1) with (Z.of_nat (length A + 1 + length M) - 1) by lia.
  rewrite IH by (simpl in Hl; rewrite length_app in Hl; simpl in Hl; lia).
  f_equal. rewrite reverse_cons, reverse_snoc, <- !app_assoc. done.
Qed.

Lemma pow20 v : 0 <= v < 2 ^ 64 -> v < 10 ^ Z.of_nat 20.
Proof. intros Hv. change (10 ^ Z.of_nat 20) with 100000000000000000000. lia. Qed.

Lemma decimal_length v : LLONG_MIN <= v <= LLONG_MAX -> (length (decimal v) <= 20)%nat.
Proof.
  intros Hv. rewrite decimal_abs, length_app. pose proof (dec_length_bound (Z.abs v) 19 ltac:(lia)) as Hb.
  change (10 ^ 19) with 10000000000000000000 in Hb. unfold LLONG_MIN, LLONG_MAX in Hv. destruct (v <? 0); simpl; lia.
Qed.

Lemma sdsull2str_spec s v :
  0 <= v < 2 ^ 64 -> SDS_LLSTR_SIZE <= Z.of_nat (length s) ->
  sdsull2str s v = Some (dec v ++ 0 :: drop (S (length (dec v))) s, Z.of_nat (length (dec v))).
Proof.
  unfold SDS_LLSTR_SIZE. intros Hv Hs. pose proof (dec_length64 v Hv) as Hd. unfold sdsull2str.
  destruct (split_at (length (dec v)) s) as [x Hx]; [lia|].
  set (old := take (length (dec v)) s) in *. assert (length old = length (dec v)) as Ho by (unfold old; rewrite length_take; lia).
  set (D := drop (S (length (dec v))) s) in *. clearbody old D. subst s.
  pose proof (emit_digits_spec 19 [] old (x :: D) v ltac:(lia) (pow20 v Hv) (eq_sym Ho)) as He. cbn [app length] in He.
  change (Z.of_nat 0) with 0 in He. rewrite He. cbn [mbind option_bind]. rewrite mwrite_cell by (rewrite length_reverse; lia). cbn [mbind option_bind].
  pose proof (reverse_chars_spec 21 [] (reverse (dec v)) (0 :: D)) as Hr. cbn [app length] in Hr. rewrite length_reverse, reverse_involutive in Hr.
  change (Z.of_nat 0) with 0 in Hr. rewrite Hr by lia. done.
Qed.

Lemma sdsll2str_spec s v :
  LLONG_MIN < v <= LLONG_MAX -> SDS_LLSTR_SIZE <= Z.of_nat (length s) ->
  sdsll2str s v = Some (decimal v ++ 0 :: drop (S (length (decimal v))) s, Z.of_nat (length (decimal v))).
Proof.
  intros Hv Hs. destruct (Z.ltb_spec v 0) as [Hneg|Hpos].
  2:{ unfold sdsll2str, decimal. destruct (Z.ltb_spec v 0); [lia|]. cbn [mbind option_bind].
      rewrite u64_small by (unfold LLONG_MAX in Hv; lia).
      rewrite <- sdsull2str_spec by (unfold LLONG_MAX in Hv; lia || done). unfold sdsull2str. by destruct (emit_digits 20 s 0 v) as [[]|]. }
  pose proof (decimal_length v ltac:(unfold LLONG_MIN in *; lia)) as Hd. unfold SDS_LLSTR_SIZE in Hs.
  unfold sdsll2str, decimal in *. destruct (Z.ltb_spec v 0); [|lia]. destruct (Z.ltb_spec LLONG_MIN v); [|lia]. cbn [mbind option_bind].
  unfold LLONG_MIN in Hv. rewrite u64_small by lia. assert (0 <= - v < 2 ^ 64) as Hr64 by lia. simpl in Hd.
  destruct (split_at (S (length (dec (- v)))) s) as [x Hx]; [lia|]. simpl length.
  set (old := take (S (length (dec (- v)))) s) in *. assert (length old = S (length (dec (- v)))) as Ho by (unfold old; rewrite length_take; lia).
  set (D := drop (S (S (length (dec (- v))))) s) in *. clearbody old D. subst s.
  destruct old as [|y old _] using rev_ind; [done|]. rewrite length_app in Ho. simpl in Ho. rewrite <- app_assoc. cbn [app].
  pose proof (emit_digits_spec 19 [] old (y :: x :: D) (- v) ltac:(lia) (pow20 _ Hr64) ltac:(lia)) as He. cbn [app length] in He.
  change (Z.of_nat 0) with 0 in He. rewrite He. cbn [mbind option_bind]. rewrite mwrite_cell by (rewrite length_reverse; lia). cbn [mbind option_bind].
  replace (reverse (dec (- v)) ++ 45 :: x :: D) with ((reverse (dec (- v)) ++ [45]) ++ x :: D) by by rewrite <- app_assoc.
  rewrite mwrite_cell by (rewrite length_app, length_reverse; simpl; lia). cbn [mbind option_bind].
  pose proof (reverse_chars_spec 21 [] (reverse (dec (- v)) ++ [45]) (0 :: D)) as Hr. cbn [app length] in Hr.
  rewrite length_app, length_reverse, reverse_snoc, reverse_involutive in Hr. change (Z.of_nat 0) with 0 in Hr. cbn [length] in Hr.
  replace (Z.of_nat (0 + length (dec (- v))) + 1 - 1) with (Z.of_nat (0 + (length (dec (- v)) + 1)) - 1) by lia.
  rewrite Hr by lia. cbn [mbind option_bind]. f_equal. f_equal. lia.
Qed.

(** A number in decimal notation; the smallest one is excluded. *)
Lemma sdsfromlonglong_spec buf v :
  LLONG_MIN < v <= LLONG_MAX -> Z.of_nat (length buf) = SDS_LLSTR_SIZE -> sdsfromlonglong buf v = Some (decimal v).
Proof.
  intros Hv Hb. unfold sdsfromlonglong. rewrite sdsll2str_spec by (done || lia). cbn [mbind option_bind].
  exact (mread_app [] (decimal v) (0 :: drop (S (length (decimal v))) buf) 0 _ eq_refl eq_refl).
Qed.

(** ** Splitting *)

(** No occurrence of the separator. *)
Definition sep_free (sep l : list Z) : Prop := forall k, ~ (sep `prefix_of` drop k l).

Lemma join_cons_app (a : list Z) toks sep : toks <> [] -> sdsjoinsds (a :: toks) sep = a ++ sep ++ sdsjoinsds toks sep.
Proof. by destruct toks. Qed.

Lemma match_test sep (c w : list Z) :
  sep <> [] -> w = take 1 w ++ drop 1 w -> c = take 1 w ->
  (((Z.of_nat (length sep) =? 1) && bool_decide (head c = head sep)) || bool_decide (w = sep)) = true -> length w = length sep -> w = sep.
Proof.
  intros Hs _ -> Ht Hl. apply orb_true_iff in Ht as [Ht|Ht]; breflect; [|done].
  destruct sep as [|x [|]]; simpl in *; try lia. destruct w as [|y [|]]; simpl in *; try lia. congruence.
Qed.

Lemma prefix_take (sep l : list Z) : sep `prefix_of` l <-> take (length sep) l = sep.
Proof.
  split; [intros [k ->]; apply take_app_length|]. intros E. exists (drop (length sep) l). rewrite <- (take_drop (length sep) l) at 1. by rewrite E.
Qed.

Lemma split_loop_spec sep fuel P T R tokens :
  sep <> [] -> (length R < fuel)%nat -> (forall k, (k < length T)%nat -> ~ (sep `prefix_of` drop k (T ++ R))) ->
  exists toks last, split_loop fuel (P ++ T ++ R) sep (Z.of_nat (length P + length T)) (Z.of_nat (length P)) tokens =
      Some (tokens ++ toks, Z.of_nat (length (P ++ T ++ R) - length last)) /\
    (exists pre, P ++ T ++ R = pre ++ last) /\
    sdsjoinsds (toks ++ [last]) sep = T ++ R /\ Forall (sep_free sep) (toks ++ [last]).
Proof.
  intros Hs. assert (1 <= length sep)%nat as Hs1 by (destruct sep; [done|simpl; lia]).
  revert P T R tokens. induction fuel as [|fuel IH]; intros P T R tokens Hf Hk; [lia|]. cbn [split_loop].
  set (s := P ++ T ++ R). assert (length s = length P + length T + length R)%nat as Hls by (unfold s; rewrite !length_app; lia).
  destruct (Z.ltb_spec (Z.of_nat (length P + length T)) (Z.of_nat (length s) - (Z.of_nat (length sep) - 1))) as [Hlt|Hge].
  2:{ exists [], (T ++ R). rewrite app_nil_r. split_and!; [|by exists P|done|].
      - do 2 f_equal. rewrite length_app. lia.
      - constructor; [|done]. intros k Hp. destruct (decide (k < length T)%nat) as [Hkt|Hkt]; [by apply (Hk k Hkt)|].
        apply prefix_length in Hp. rewrite length_drop, length_app in Hp. lia. }
  assert (mread s (Z.of_nat (length P + length T)) 1 = Some (take 1 R)) as ->.
  { unfold s. rewrite <- (take_drop 1 R) at 1. rewrite (app_assoc P). apply mread_app; rewrite ?length_app, ?length_take; lia. }
  assert (mread s (Z.of_nat (length P + length T)) (Z.of_nat (length sep)) = Some (take (length sep) R)) as ->.
  { unfold s. rewrite <- (take_drop (length sep) R) at 1. rewrite (app_assoc P). apply mread_app; rewrite ?length_app, ?length_take; lia. }
  cbn [mbind option_bind]. destruct (_ || _) eqn:Et.
  - assert (take (length sep) R = sep) as Hm.
    { apply (match_test sep (take 1 R) (take (length sep) R)); [done|by rewrite take_drop|by rewrite take_take, Nat.min_l by lia|done|rewrite length_take; lia]. }
    assert (mread s (Z.of_nat (length P)) (Z.of_nat (length P + length T) - Z.of_nat (length P)) = Some T) as -> by (apply mread_app; lia).
    cbn [mbind option_bind]. set (R' := drop (length sep) R). assert (R = sep ++ R') as HR by (rewrite <- (take_drop (length sep) R) at 1; by rewrite Hm).
    assert (s = (P ++ T ++ sep) ++ [] ++ R') as -> by (unfold s; rewrite HR, <- !app_assoc; done).
    destruct (IH (P ++ T ++ sep) [] R' (tokens ++ [T])) as (toks & last & He & Hpre & Hj & Hfree).
    + unfold R'. rewrite length_drop. lia.
    + intros k Hk0. simpl in Hk0. lia.
    + exists (T :: toks), last. split_and!.
      * replace (tokens ++ T :: toks) with ((tokens ++ [T]) ++ toks) by by rewrite <- app_assoc. rewrite <- He. f_equal; rewrite !length_app; simpl; lia.
      * done.
      * cbn [app]. rewrite join_cons_app by (by destruct toks). rewrite Hj. by rewrite HR.
      * cbn [app]. constructor; [|done]. intros k Hp. destruct (decide (k < length T)%nat) as [Hkt|Hkt].
        -- apply (Hk k Hkt). rewrite drop_app_le by lia. by apply prefix_app_r.
        -- apply prefix_length in Hp. rewrite length_drop in Hp. lia.
  - assert (take (length sep) R <> sep) as Hm by (apply orb_false_iff in Et as [_ Et]; by apply bool_decide_eq_false in Et).
    destruct R as [|x R]; [simpl in Hls; lia|].
    destruct (IH P (T ++ [x]) R tokens) as (toks & last & He & Hpre & Hj & Hfree); [simpl in Hf; lia| |].
    + intros k Hk1. rewrite length_app in Hk1. simpl in Hk1. rewrite <- app_assoc. cbn [app]. destruct (decide (k < length T)%nat) as [Hkt|Hkt]; [by apply Hk|].
      replace k with (length T) by lia. rewrite drop_app_length. by rewrite prefix_take.
    + rewrite <- !app_assoc in He, Hpre, Hj. cbn [app] in He, Hpre, Hj. exists toks, last. split_and!; [|done..].
      fold s in He. rewrite <- He. f_equal. rewrite length_app. simpl. lia.
Qed.

(** The tokens are those between the separators, from the left. *)
Lemma sdssplitlen_spec s sep :
  sep <> [] -> s <> [] -> exists toks, sdssplitlen s sep = Some (Some toks) /\ sdsjoinsds toks sep = s /\ Forall (sep_free sep) toks.
Proof.
  intros Hsep Hs. unfold sdssplitlen. destruct (Z.ltb_spec (Z.of_nat (length sep)) 1); [destruct sep; [done|simpl in *; lia]|].
  rewrite bool_decide_eq_false_2 by done.
  destruct (split_loop_spec sep (S (length s)) [] [] s [] Hsep) as (toks & last & He & (pre & Hpre) & Hj & Hfree); [lia|simpl; lia|].
  cbn [app length Nat.add] in *. change (Z.of_nat 0) with 0 in He. rewrite He. cbn [mbind option_bind].
  assert (length s = length pre + length last)%nat as Hl by (rewrite Hpre at 1; apply length_app).
  assert (mread s (Z.of_nat (length s - length last)) (Z.of_nat (length s) - Z.of_nat (length s - length last)) = Some last) as ->.
  { rewrite Hpre at 1. rewrite <- (app_nil_r last) at 1. apply mread_app; lia. }
  cbn [mbind option_bind]. by exists (toks ++ [last]).
Qed.

(** ** Quoting *)

Lemma hex_char_ok d : 0 <= d < 16 -> is_hex_digit (hex_char d) = true /\ hex_digit_to_int (hex_char d) = d.
Proof.
  intros Hd. unfold hex_char, is_hex_digit, hex_digit_to_int. destruct (Z.ltb_spec d 10).
  - replace ((48 <=? 48 + d) && (48 + d <=? 57)) with true by (symmetry; apply andb_true_iff; rewrite !Z.leb_le; lia). split; [done|lia].
  - replace ((48 <=? 87 + d) && (87 + d <=? 57)) with false by (symmetry; apply andb_false_iff; rewrite !Z.leb_gt; lia).
    replace ((97 <=? 87 + d) && (87 + d <=? 102)) with true by (symmetry; apply andb_true_iff; rewrite !Z.leb_le; lia). split; [done|lia].
Qed.

(** Reading back one character. *)
Lemma token_round_repr c rest cur : is_byte c -> token_round InQuotes (repr_char c ++ rest) cur = Next InQuotes rest (cur ++ [c]).
Proof.
  unfold is_byte. intros Hc. unfold repr_char.
  destruct ((c =? 92) || (c =? 34)) eqn:E1; [apply orb_true_iff in E1 as [->%Z.eqb_eq | ->%Z.eqb_eq]; reflexivity|].
  apply orb_false_iff in E1 as [E92 E34].
  repeat match goal with |- context [c =? ?k] => destruct (Z.eqb_spec c k) as [->|]; [reflexivity|] end.
  destruct (isprint c) eqn:Ep.
  - apply andb_true_iff in Ep as [Hlo Hhi]. apply Z.leb_le in Hlo, Hhi. unfold token_round, at_, inc. cbn [app nth tail].
    rewrite E92, E34. cbn [andb]. by destruct (Z.eqb_spec c 0); [lia|].
  - unfold token_round, at_, inc. cbn [app nth tail drop].
    destruct (hex_char_ok (c / 16)) as [-> ->]; [split; [apply Z.div_pos; lia|apply Z.div_lt_upper_bound; lia]|].
    destruct (hex_char_ok (c mod 16)) as [-> ->]; [apply Z.mod_pos_bound; lia|]. cbn [Z.eqb andb Pos.eqb].
    do 2 f_equal. rewrite Z.mul_comm, <- Z.div_mod by lia. by rewrite u8_small.
Qed.

Lemma repr_cons c s : mjoin (repr_char <$> c :: s) = repr_char c ++ mjoin (repr_char <$> s).
Proof. done. Qed.

Lemma token_loop_repr fuel s rest cur :
  Forall is_byte s ->
  token_loop (length s + fuel) InQuotes (mjoin (repr_char <$> s) ++ rest) cur = token_loop fuel InQuotes rest (cur ++ s).
Proof.
  intros Hs. revert cur. induction Hs as [|c s Hc _ IH]; intros cur; cbn [length Nat.add]; [by rewrite app_nil_r|].
  rewrite repr_cons. cbn [token_loop]. rewrite <- app_assoc, token_round_repr by done.
  rewrite IH, <- app_assoc. done.
Qed.

(** What may follow a closing quote. *)
Definition ends_token (rest : list Z) : Prop := rest = [] \/ exists c r, rest = c :: r /\ isspace c = true.

Lemma repr_char_length c : (1 <= length (repr_char c))%nat.
Proof. unfold repr_char. repeat destruct (_ : bool); simpl; lia. Qed.

Lemma repr_length s : (length s <= length (mjoin (repr_char <$> s)))%nat.
Proof.
  induction s as [|c s IH]; [done|]. rewrite repr_cons, length_app. cbn [length]. pose proof (repr_char_length c). lia.
Qed.

Lemma sdscatrepr_eq s : sdscatrepr [] s = 34 :: mjoin (repr_char <$> s) ++ [34].
Proof. done. Qed.

Lemma token_quoted s tail_ fuel :
  Forall is_byte s -> (length s + 2 <= fuel)%nat ->
  token_loop fuel Plain (34 :: mjoin (repr_char <$> s) ++ tail_) [] =
    token_loop (fuel - length s - 1) InQuotes tail_ s.
Proof.
  intros Hs Hf. destruct fuel as [|fuel]; [lia|]. cbn [token_loop].
  change (token_round Plain (34 :: mjoin (repr_char <$> s) ++ tail_) []) with (Next InQuotes (mjoin (repr_char <$> s) ++ tail_) []). cbv iota.
  replace fuel with (length s + (fuel - length s))%nat by lia. rewrite token_loop_repr by done. f_equal; lia.
Qed.

Lemma token_closed s rest fuel :
  Forall is_byte s -> (length s + 2 <= fuel)%nat -> ends_token rest ->
  token_loop fuel Plain (34 :: mjoin (repr_char <$> s) ++ 34 :: rest) [] = Some (Some (rest, s)).
Proof.
  intros Hs Hf Hr. rewrite token_quoted by done. destruct (fuel - length s - 1)%nat as [|f] eqn:E; [lia|]. cbn [token_loop].
  unfold token_round, at_, inc. cbn [nth tail Z.eqb Pos.eqb andb]. destruct Hr as [-> |(c & r & -> & Hc)]; [done|]. cbn [nth].
  rewrite Hc. by rewrite andb_false_r.
Qed.

Lemma args_step fuel s rest v :
  Forall is_byte s -> ends_token rest ->
  args_loop (S fuel) (sdscatrepr [] s ++ rest) v = args_loop fuel rest (v ++ [s]).
Proof.
  intros Hs Hr. rewrite sdscatrepr_eq. cbn [app]. rewrite <- app_assoc. cbn [app args_loop].
  change (skip_blanks (34 :: mjoin (repr_char <$> s) ++ 34 :: rest)) with (34 :: mjoin (repr_char <$> s) ++ 34 :: rest). cbv zeta.
  change (at_ (34 :: _) 0 =? 0) with false. cbv iota. rewrite token_closed; [done|done| |done].
  pose proof (repr_length s). cbn [length]. rewrite length_app. simpl. lia.
Qed.

(** A blank before the next argument is skipped. *)
Lemma args_blank fuel p v : args_loop fuel (32 :: p) v = args_loop fuel p v.
Proof. by destruct fuel. Qed.

(** Arguments, each followed by a blank, before the rest of the line. *)
Definition quoted (args : list (list Z)) (rest : list Z) : list Z := foldr (fun a t => sdscatrepr [] a ++ 32 :: t) rest args.

Lemma args_quoted args fuel rest v :
  Forall (Forall is_byte) args -> args_loop (length args + fuel) (quoted args rest) v = args_loop fuel rest (v ++ args).
Proof.
  intros Ha. revert v. induction Ha as [|a args Hb _ IH]; intros v; cbn [length Nat.add quoted foldr]; [by rewrite app_nil_r|].
  rewrite args_step by (done || right; by exists 32, (quoted args rest)). rewrite args_blank. fold (quoted args rest). rewrite IH, <- app_assoc. done.
Qed.

Lemma join_quoted args a : sdsjoinsds ((sdscatrepr [] <$> args) ++ [sdscatrepr [] a]) [32] = quoted args (sdscatrepr [] a).
Proof. induction args as [|b args IH]; [done|]. rewrite fmap_cons. cbn [app quoted foldr]. rewrite join_cons_app, IH by (by destruct args). done. Qed.

Lemma quoted_length args rest : (length args + length rest <= length (quoted args rest))%nat.
Proof. induction args as [|a args IH]; simpl; [lia|]. fold (quoted args rest). rewrite length_app. simpl. lia. Qed.

Lemma splitargs_join args :
  Forall (Forall is_byte) args -> sdssplitargs (sdsjoinsds (sdscatrepr [] <$> args) [32]) = Some (Some args).
Proof.
  intros Ha. destruct args as [|a args _] using rev_ind; [done|]. apply Forall_app in Ha as [Ha Hb]. apply Forall_cons in Hb as [Hb _].
  rewrite fmap_app. change (sdscatrepr [] <$> [a]) with [sdscatrepr [] a]. rewrite join_quoted. unfold sdssplitargs. pose proof (quoted_length args (sdscatrepr [] a)) as Hl.
  assert (2 <= length (sdscatrepr [] a))%nat by (rewrite sdscatrepr_eq; simpl; rewrite length_app; simpl; lia).
  replace (S (length (quoted args (sdscatrepr [] a)))) with (length args + (S (S (length (quoted args (sdscatrepr [] a)) - length args - 1))))%nat by lia.
  rewrite args_quoted by done. generalize (length (quoted args (sdscatrepr [] a)) - length args - 1)%nat as f. intros f.
  pose proof (args_step (S f) a [] ([] ++ args) Hb ltac:(by left)) as Hst. rewrite app_nil_r in Hst. exact Hst.
Qed.

(** An unterminated quote, and a closing quote followed by another character, make
    the whole line invalid. *)
Lemma splitargs_bad args a bad :
  Forall (Forall is_byte) args -> Forall is_byte a ->
  bad = [] \/ (exists c r, bad = 34 :: c :: r /\ isspace c = false /\ c <> 0) ->
  sdssplitargs (quoted args (34 :: mjoin (repr_char <$> a) ++ bad)) = Some None.
Proof.
  intros Ha Hb Hbad. unfold sdssplitargs. set (rest := 34 :: _). pose proof (quoted_length args rest) as Hl.
  replace (S (length (quoted args rest))) with (length args + (S (length (quoted args rest) - length args)))%nat by lia.
  rewrite args_quoted by done. unfold rest. cbn [args_loop].
  change (skip_blanks (34 :: mjoin (repr_char <$> a) ++ bad)) with (34 :: mjoin (repr_char <$> a) ++ bad). cbv zeta.
  change (at_ (34 :: _) 0 =? 0) with false. cbv iota. pose proof (repr_length a) as Hrl.
  rewrite token_quoted by (done || cbn [length]; rewrite length_app; lia). cbn [length]. rewrite length_app.
  destruct (S (S (length (mjoin (repr_char <$> a)) + length bad)) - length a - 1)%nat as [|f] eqn:E; [lia|]. cbn [token_loop].
  destruct Hbad as [-> |(c & r & -> & Hc & H0)]; [done|]. unfold token_round, at_. cbn [nth Z.eqb Pos.eqb andb].
  apply Z.eqb_neq in H0. by rewrite H0, Hc.
Qed.

(** ** Properties *)

(** The conversions of integers to strings write the decimal notation of every
    64-bit unsigned value and of every signed one but the smallest, with its
    terminator, into any buffer of SDS_LLSTR_SIZE bytes; sdsfromlonglong of it is read back by
    string2ll. *)
Theorem sds_number_correct s v w buf :
  LLONG_MIN < v <= LLONG_MAX -> 0 <= w < 2 ^ 64 -> SDS_LLSTR_SIZE <= Z.of_nat (length s) -> Z.of_nat (length buf) = SDS_LLSTR_SIZE ->
  sdsll2str s v = Some (decimal v ++ 0 :: drop (S (length (decimal v))) s, Z.of_nat (length (decimal v))) /\
  sdsull2str s w = Some (decimal w ++ 0 :: drop (S (length (decimal w))) s, Z.of_nat (length (decimal w))) /\
  exists t, sdsfromlonglong buf v = Some t /\ string2ll t = Some v.
Proof.
  intros Hv Hw Hs Hb. split_and!; [by apply sdsll2str_spec| |].
  - unfold decimal. destruct (Z.ltb_spec w 0); [lia|]. by apply sdsull2str_spec.
  - exists (decimal v). split; [by apply sdsfromlonglong_spec|]. apply string2ll_iff. split; [lia|done].
Qed.

Lemma sds_number_correct_witness :
  sdsll2str (replicate 21 7) (-120) = Some ([45; 49; 50; 48; 0] ++ replicate 16 7, 4) /\
  exists t, sdsfromlonglong (replicate 21 7) (-120) = Some t /\ string2ll t = Some (-120).
Proof.
  destruct (sds_number_correct (replicate 21 7) (-120) 0 (replicate 21 7)) as (H1 & _ & H3); [split; [reflexivity|discriminate]|split; [discriminate|reflexivity]|discriminate|reflexivity|].
  split; [exact H1|exact H3].
Defined.

(** Sdssplitlen splits a string into parts that contain no separator and that
    sdsjoinsds joins to the same string; without a separator it returns NULL and for
    the empty string no parts. *)
Theorem sdssplit_correct s sep :
  sep <> [] -> s <> [] ->
  (exists toks, sdssplitlen s sep = Some (Some toks) /\ sdsjoinsds toks sep = s /\ Forall (sep_free sep) toks) /\
  sdssplitlen [] sep = Some (Some []) /\ sdssplitlen s [] = Some None.
Proof.
  intros Hsep Hs. split_and!; [by apply sdssplitlen_spec| |done].
  unfold sdssplitlen. destruct (Z.ltb_spec (Z.of_nat (length sep)) 1); [destruct sep; [done|simpl in *; lia]|done].
Qed.

Lemma sdssplit_correct_witness :
  exists toks, sdssplitlen [97; 1; 2; 98; 1; 1; 2] [1; 2] = Some (Some toks) /\ sdsjoinsds toks [1; 2] = [97; 1; 2; 98; 1; 1; 2] /\
    Forall (sep_free [1; 2]) toks.
Proof. apply (sdssplit_correct [97; 1; 2; 98; 1; 1; 2] [1; 2]); discriminate. Defined.

(** C30: sdssplitargs inverts sdscatrepr: a line of quoted arguments, whatever bytes
    they contain, is split into exactly these arguments. *)
Theorem sdssplitargs_roundtrip args :
  Forall (Forall is_byte) args -> sdssplitargs (sdsjoinsds (sdscatrepr [] <$> args) [32]) = Some (Some args).
Proof. apply splitargs_join. Qed.

Lemma sdssplitargs_roundtrip_witness :
  sdssplitargs (sdsjoinsds (sdscatrepr [] <$> [[0; 34; 92; 10]; []; [255; 120]]) [32]) = Some (Some [[0; 34; 92; 10]; []; [255; 120]]).
Proof. apply sdssplitargs_roundtrip. repeat constructor; vm_compute; congruence. Defined.

(** A line whose last argument has an unterminated quote, or a closing quote
    directly followed by another character, is rejected with NULL, whatever valid
    arguments come before. *)
Theorem sdssplitargs_unbalanced args a bad :
  Forall (Forall is_byte) args -> Forall is_byte a ->
  bad = [] \/ (exists c r, bad = 34 :: c :: r /\ isspace c = false /\ c <> 0) ->
  sdssplitargs (quoted args (34 :: mjoin (repr_char <$> a) ++ bad)) = Some None.
Proof. apply splitargs_bad. Qed.

Lemma sdssplitargs_unbalanced_witness :
  sdssplitargs (quoted [[97]] (34 :: mjoin (repr_char <$> [98; 34]) ++ [34; 99])) = Some None.
Proof.
  apply sdssplitargs_unbalanced; [repeat constructor; vm_compute; congruence..|].
  right. exists 99, []. split; [reflexivity|]. split; [reflexivity|discriminate].
Defined.

(** The negation in sdsll2str of the smallest value is undefined. *)
Example sdsll2str_min : sdsll2str (replicate 21 0) LLONG_MIN = None.
Proof. reflexivity. Qed.
