(* ===== verification/Rio.v ===== *)
(** * Stream I/O (src/redis-stable/src/rio.c, rio.h)

    A [rio] is an object with a backend (a memory buffer, a file) and generic
    state: a running checksum, the number of bytes processed and the largest
    chunk the backend is given at once.  The backend is a class, as the source has
    a table of function pointers; its laws are what the serialisation code above
    relies on, and the buffer and the file backends satisfy them.  The last part
    is the small calculus of writers and readers the dump format and the protocol
    are verified with: [saves m bs v] says that [m] writes exactly [bs], and
    [loads m bs a err] that [m] reads exactly [bs], and fails on every shorter
    input. *)
From stdpp Require Import prelude list.
From Stdlib Require Import ZArith Lia.
From S2P Require Import Prelude Crc Util.

Local Open Scope Z_scope.
Local Open Scope redis_scope.

(** ** Computations

    A computation on the state [S]: no result is undefined behaviour (or an
    exhausted fuel), [Exit] the end of the process. *)
Inductive outcome (A : Type) := Ret (a : A) | Exit.
Arguments Ret {A} a.
Arguments Exit {A}.

Definition IO (S A : Type) : Type := S -> option (outcome A * S).
#[global] Instance IO_ret {S} : MRet (IO S) := fun A a s => Some (Ret a, s).
#[global] Instance IO_bind {S} : MBind (IO S) := fun A B f m s =>
  '(o, s) ← m s; match o with Ret a => f a s | Exit => Some (Exit, s) end.

Definition exit_ {S A} : IO S A := fun s => Some (Exit, s).
Definition liftO {S A} (o : option A) : IO S A := fun s => a ← o; Some (Ret a, s).

(** if ((n = m) == -1) return -1; k *)
Notation "n ←? m ; k" := (m ≫= fun n : Z => if n =? -1 then mret (-1) else k)
  (at level 20, m at level 100, k at level 200, only parsing) : redis_scope.

(** ** Backends *)

(** The read and write methods of struct _rio: they return the data, or the
    failure, and the new state of the backend. *)
Class Backend (St : Type) := {
  io_read : St -> nat -> St * option (list Z);
  io_write : St -> list Z -> St * bool }.

(** struct _rio *)
Record rio (St : Type) := mk_rio {
  io : St; update_cksum : bool; cksum : Z; processed_bytes : Z; max_processing_chunk : Z }.
Arguments mk_rio {St} _ _ _ _ _.
Arguments io {St} _.
Arguments update_cksum {St} _.
Arguments cksum {St} _.
Arguments processed_bytes {St} _.
Arguments max_processing_chunk {St} _.

Section Generic.
Context {St : Type} `{Backend St}.

Definition rioGenericUpdateChecksum (r : rio St) (buf : list Z) : rio St :=
  if update_cksum r
  then mk_rio (io r) true (crc64 (cksum r) buf) (processed_bytes r) (max_processing_chunk r) else r.
Definition set_io (r : rio St) (s : St) : rio St :=
  mk_rio s (update_cksum r) (cksum r) (processed_bytes r) (max_processing_chunk r).
Definition add_processed (r : rio St) (n : Z) : rio St :=
  mk_rio (io r) (update_cksum r) (cksum r) (u64 (processed_bytes r + n)) (max_processing_chunk r).

(** bytes_to_write, bytes_to_read *)
Definition chunk (r : rio St) (len : nat) : nat :=
  if negb (max_processing_chunk r =? 0) && (max_processing_chunk r <? Z.of_nat len)
  then Z.to_nat (max_processing_chunk r) else len.

Fixpoint rioWrite_loop (fuel : nat) (r : rio St) (buf : list Z) : option (rio St * bool) :=
  match buf with
  | [] => Some (r, true)
  | _ =>
    match fuel with
    | O => None
    | S fuel =>
      let n := chunk r (length buf) in
      let r := rioGenericUpdateChecksum r (take n buf) in
      let '(s, ok) := io_write (io r) (take n buf) in
      let r := set_io r s in
      if ok then rioWrite_loop fuel (add_processed r (Z.of_nat n)) (drop n buf)
      else Some (r, false)
    end
  end.
Definition rioWrite (buf : list Z) : IO (rio St) bool := fun r =>
  '(r, ok) ← rioWrite_loop (length buf) r buf; Some (Ret ok, r).

Fixpoint rioRead_loop (fuel : nat) (r : rio St) (buf : list Z) (len : nat) : option (rio St * option (list Z)) :=
  match len with
  | O => Some (r, Some buf)
  | _ =>
    match fuel with
    | O => None
    | S fuel =>
      let n := chunk r len in
      let '(s, res) := io_read (io r) n in
      let r := set_io r s in
      match res with
      | None => Some (r, None)
      | Some data =>
        let r := rioGenericUpdateChecksum r data in
        rioRead_loop fuel (add_processed r (Z.of_nat n)) (buf ++ data) (len - n)
      end
    end
  end.
Definition rioRead (len : nat) : IO (rio St) (option (list Z)) := fun r =>
  '(r, res) ← rioRead_loop len r [] len; Some (Ret res, r).
End Generic.

(** *** The memory buffer *)

Record buffer := mk_buffer { ptr : list Z; pos : nat }.

(** The difference in the test is unsigned. *)
Definition rioBufferRead (b : buffer) (len : nat) : buffer * option (list Z) :=
  if u64 (Z.of_nat (length (ptr b)) - Z.of_nat (pos b)) <? Z.of_nat len then (b, None)
  else (mk_buffer (ptr b) (pos b + len), Some (take len (drop (pos b) (ptr b)))).
Definition rioBufferWrite (b : buffer) (buf : list Z) : buffer * bool :=
  (mk_buffer (ptr b ++ buf) (pos b + length buf), true).
#[global] Instance buffer_io : Backend buffer := {| io_read := rioBufferRead; io_write := rioBufferWrite |}.

Definition rioInitWithBuffer (s : list Z) : rio buffer := mk_rio (mk_buffer s 0) false 0 0 0.

(** *** The file

    A stdio stream: what is left to read, what was written, how many more
    bytes the device takes, and how many of the written ones were synchronised
    with it. *)
Record file := mk_file {
  unread : list Z; written : list Z; room : nat; synced : nat;
  buffered : Z; autosync : Z }.

(** fwrite(buf,len,1,fp), fflush(fp), fsync(fileno(fp)), fread(buf,len,1,fp) *)
Definition fwrite (f : file) (buf : list Z) : file * bool :=
  let k := Nat.min (length buf) (room f) in
  (mk_file (unread f) (written f ++ take k buf) (room f - k) (synced f) (buffered f) (autosync f),
   bool_decide (k = length buf)).
Definition fsync (f : file) : file :=
  mk_file (unread f) (written f) (room f) (length (written f)) (buffered f) (autosync f).
Definition set_buffered (f : file) (n : Z) : file :=
  mk_file (unread f) (written f) (room f) (synced f) n (autosync f).

Definition rioFileWrite (f : file) (buf : list Z) : file * bool :=
  let '(f, retval) := fwrite f buf in
  let f := set_buffered f (buffered f + Z.of_nat (length buf)) in
  let f := if negb (autosync f =? 0) && (buffered f >=? autosync f)
           then set_buffered (fsync f) 0 else f in
  (f, retval).
Definition rioFileRead (f : file) (len : nat) : file * option (list Z) :=
  let data := take len (unread f) in
  (mk_file (drop len (unread f)) (written f) (room f) (synced f) (buffered f) (autosync f),
   if bool_decide (length data = len) then Some data else None).
#[global] Instance file_io : Backend file := {| io_read := rioFileRead; io_write := rioFileWrite |}.

Definition rioInitWithFile (f : file) : rio file := 
  mk_rio (mk_file (unread f) (written f) (room f) (synced f) 0 0) false 0 0 0.
Definition rioSetAutoSync (r : rio file) (bytes : Z) : rio file :=
  let f := io r in
  set_io r (mk_file (unread f) (written f) (room f) (synced f) (buffered f) bytes).

(** ** What a backend promises

    [rest] is what is left to read, [out] what was written, and [accepts s n] says
    that the backend takes [n] more bytes. *)
Class BackendLaws (St : Type) `{Backend St} := {
  rest : St -> list Z;
  out : St -> list Z;
  accepts : St -> nat -> bool;
  readable : St -> Prop;
  read_ok s n : readable s -> (0 < n <= length (rest s))%nat ->
    exists s', io_read s n = (s', Some (take n (rest s))) /\ rest s' = drop n (rest s) /\ readable s';
  read_short s n : readable s -> (length (rest s) < n)%nat -> exists s', io_read s n = (s', None);
  accepts_0 s : accepts s 0 = true;
  accepts_less s n m : accepts s (n + m) = true -> accepts s n = true;
  write_ok s bs : accepts s (length bs) = true ->
    exists s', io_write s bs = (s', true) /\ out s' = out s ++ bs /\ forall m, accepts s' m = accepts s (length bs + m);
  write_full s bs : accepts s (length bs) = false -> exists s', io_write s bs = (s', false) }.

#[global, refine] Instance buffer_laws : BackendLaws buffer := {|
  rest b := drop (pos b) (ptr b);
  out := ptr;
  accepts _ _ := true;
  readable b := (pos b <= length (ptr b))%nat /\ Z.of_nat (length (ptr b)) < 2 ^ 64 |}.
Proof.
  - intros [p o] n [Hp Hl] Hn. simpl in *. rewrite length_drop in Hn. unfold rioBufferRead. simpl.
    rewrite u64_small by lia. bdestr1; [lia|]. eexists. split; [done|]. simpl. rewrite drop_drop. auto with lia.
  - intros [p o] n [Hp Hl] Hn. simpl in *. rewrite length_drop in Hn. unfold rioBufferRead. simpl.
    rewrite u64_small by lia. bdestr1; [|lia]. by eexists.
  - done.
  - done.
  - intros [p o] bs _. simpl. eexists. by split.
  - done.
Defined.

#[global, refine] Instance file_laws : BackendLaws file := {|
  rest := unread;
  out := written;
  accepts f n := (n <=? room f)%nat;
  readable _ := True |}.
Proof.
  - intros f n _ Hn. simpl. unfold rioFileRead. rewrite length_take, bool_decide_eq_true_2 by lia. by eexists.
  - intros f n _ Hn. simpl. unfold rioFileRead. rewrite length_take, bool_decide_eq_false_2 by lia. by eexists.
  - done.
  - intros f n m Hn%Nat.leb_le. apply Nat.leb_le. lia.
  - intros f bs Hn%Nat.leb_le. simpl. unfold rioFileWrite, fwrite. rewrite Nat.min_l, bool_decide_eq_true_2 by lia.
    eexists. split; [done|]. rewrite take_ge by lia. destruct (_ && _); simpl; (split; [done|]); intros m; apply eq_iff_eq_true; rewrite !Nat.leb_le; lia.
  - intros f bs Hn%Nat.leb_gt. simpl. unfold rioFileWrite, fwrite. rewrite Nat.min_r, bool_decide_eq_false_2 by lia. by eexists.
Defined.

(** ** The generic operations *)

Lemma crc64_app crc a b : crc64 crc (a ++ b) = crc64 (crc64 crc a) b.
Proof. apply foldl_app. Qed.

Lemma u64_add a b c : u64 (u64 (a + b) + c) = u64 (a + (b + c)).
Proof. unfold u64. rewrite Z.add_mod_idemp_l by lia. f_equal. lia. Qed.

Section Laws.
Context {St : Type} `{BackendLaws St}.

(** The bookkeeping after [bs] went through the stream. *)
Record passed (r : rio St) (bs : list Z) (r' : rio St) : Prop := {
  ps_update : update_cksum r' = update_cksum r;
  ps_cksum : cksum r' = if update_cksum r then crc64 (cksum r) bs else cksum r;
  ps_bytes : u64 (processed_bytes r') = u64 (processed_bytes r + Z.of_nat (length bs));
  ps_chunk : max_processing_chunk r' = max_processing_chunk r }.

Lemma passed_nil r : passed r [] r.
Proof. split; [done| |simpl; f_equal; lia|done]. by destruct (update_cksum r). Qed.

Lemma passed_app r a r1 b r2 : passed r a r1 -> passed r1 b r2 -> passed r (a ++ b) r2.
Proof.
  intros [U1 C1 B1 M1] [U2 C2 B2 M2]. split; [congruence| | |congruence].
  - rewrite C2, U1, C1. destruct (update_cksum r); [|done]. by rewrite crc64_app.
  - rewrite B2. unfold u64 in *. rewrite <- Z.add_mod_idemp_l, B1, Z.add_mod_idemp_l by lia. rewrite length_app. f_equal. lia.
Qed.

Lemma passed_chunk r s bs n :
  n = Z.of_nat (length bs) -> passed r bs (add_processed (set_io (rioGenericUpdateChecksum r bs) s) n).
Proof.
  intros ->. unfold rioGenericUpdateChecksum. destruct (update_cksum r) eqn:E; split; simpl; rewrite ?E; auto;
    unfold u64; by rewrite Z.mod_mod by lia.
Qed.

Lemma chunk_range (r : rio St) len : 0 <= max_processing_chunk r -> (0 < len)%nat -> (0 < chunk r len <= len)%nat.
Proof. intros Hm Hl. unfold chunk. destruct (_ && _) eqn:E; breflect; lia. Qed.

Definition wrote (r : rio St) (bs : list Z) (r' : rio St) : Prop :=
  out (io r') = out (io r) ++ bs /\ passed r bs r' /\ forall m, accepts (io r') m = accepts (io r) (length bs + m).

Lemma wrote_nil r : wrote r [] r.
Proof. split_and!; [by rewrite app_nil_r|apply passed_nil|done]. Qed.

Lemma wrote_app r a r1 b r2 : wrote r a r1 -> wrote r1 b r2 -> wrote r (a ++ b) r2.
Proof.
  intros (O1 & P1 & A1) (O2 & P2 & A2). split_and!; [by rewrite O2, O1, app_assoc|by eapply passed_app|].
  intros m. rewrite A2, A1, length_app. f_equal. lia.
Qed.

(** Whatever the chunk size, a write succeeds exactly when the backend has room
    for all of it, and the checksum is that of the whole block. *)
Lemma rioWrite_loop_spec fuel r bs :
  0 <= max_processing_chunk r -> (length bs <= fuel)%nat ->
  exists r' ok, rioWrite_loop fuel r bs = Some (r', ok) /\ ok = accepts (io r) (length bs) /\ (ok = true -> wrote r bs r').
Proof.
  revert r bs. induction fuel as [|fuel IH]; intros r bs Hm Hf.
  { destruct bs; [|simpl in Hf; lia]. exists r, true. split_and!; [done|by rewrite accepts_0|]. intros _. apply wrote_nil. }
  destruct bs as [|b bs]; [exists r, true; split_and!; [done|by rewrite accepts_0|]; intros _; apply wrote_nil|].
  cbn [rioWrite_loop]. set (l := b :: bs) in *. pose proof (chunk_range r (length l) Hm ltac:(simpl; lia)) as Hc. set (n := chunk r (length l)) in *.
  assert (length (take n l) = n) as Hln by (rewrite length_take; lia).
  assert (length l = n + length (drop n l))%nat as Hld by (rewrite length_drop; lia).
  destruct (io_write _ _) as [s ok] eqn:E. replace (io (rioGenericUpdateChecksum r (take n l))) with (io r) in E
    by (unfold rioGenericUpdateChecksum; by destruct (update_cksum r)).
  destruct (accepts (io r) n) eqn:Ha.
  - destruct (write_ok (io r) (take n l)) as (s' & Hw & Ho & Hacc); [by rewrite Hln|]. rewrite Hw in E. injection E as <- <-.
    set (r1 := add_processed (set_io (rioGenericUpdateChecksum r (take n l)) s') (Z.of_nat n)).
    assert (wrote r (take n l) r1) as Hw1 by (split_and!; [done|apply passed_chunk; by rewrite Hln|done]).
    assert (max_processing_chunk r1 = max_processing_chunk r) as Hm1 by apply Hw1.
    destruct (IH r1 (drop n l)) as (r' & ok & Hr & Hok & Hwr); [lia|lia|].
    exists r', ok. rewrite Hr. split_and!; [done| |].
    + rewrite Hok, Hld. destruct Hw1 as (_ & _ & ->). by rewrite Hln.
    + intros Ht. rewrite <- (take_drop n l). eapply wrote_app; [exact Hw1|by apply Hwr].
  - destruct (write_full (io r) (take n l)) as (s' & Hw); [by rewrite Hln|]. rewrite Hw in E. injection E as <- <-.
    eexists _, false. split_and!; [done| |done]. symmetry. apply not_true_iff_false. intros Ht.
    rewrite Hld in Ht. apply accepts_less in Ht. congruence.
Qed.

Lemma rioWrite_spec r bs :
  0 <= max_processing_chunk r ->
  exists r', rioWrite bs r = Some (Ret (accepts (io r) (length bs)), r') /\ (accepts (io r) (length bs) = true -> wrote r bs r').
Proof.
  intros Hm. destruct (rioWrite_loop_spec (length bs) r bs Hm) as (r' & ok & Hr & -> & Hw); [done|].
  exists r'. unfold rioWrite. by rewrite Hr.
Qed.

Definition consumed (r : rio St) (bs : list Z) (r' : rio St) : Prop :=
  readable (io r') /\ rest (io r) = bs ++ rest (io r') /\ passed r bs r'.

Lemma consumed_nil r : readable (io r) -> consumed r [] r.
Proof. intros. split_and!; [done|done|apply passed_nil]. Qed.

Lemma consumed_app r a r1 b r2 : consumed r a r1 -> consumed r1 b r2 -> consumed r (a ++ b) r2.
Proof.
  intros (_ & O1 & P1) (Hr & O2 & P2). split_and!; [done|by rewrite O1, O2, app_assoc|by eapply passed_app].
Qed.

Lemma rioRead_loop_spec fuel r acc len :
  0 <= max_processing_chunk r -> readable (io r) -> (len <= fuel)%nat ->
  exists r' res, rioRead_loop fuel r acc len = Some (r', res) /\
    if (len <=? length (rest (io r)))%nat
    then res = Some (acc ++ take len (rest (io r))) /\ consumed r (take len (rest (io r))) r' else res = None.
Proof.
  revert r acc len. induction fuel as [|fuel IH]; intros r acc len Hm Hr Hf.
  { destruct len; [|lia]. exists r, (Some acc). simpl. rewrite app_nil_r. auto using consumed_nil. }
  destruct len as [|len]; [exists r, (Some acc); simpl; rewrite app_nil_r; auto using consumed_nil|].
  cbn [rioRead_loop]. pose proof (chunk_range r (S len) Hm ltac:(lia)) as Hc. set (n := chunk r (S len)) in *.
  destruct (decide (n <= length (rest (io r)))%nat) as [Hn|Hn].
  - destruct (read_ok (io r) n Hr) as (s' & -> & Hs' & Hr'); [lia|].
    set (r1 := add_processed (rioGenericUpdateChecksum (set_io r s') (take n (rest (io r)))) (Z.of_nat n)).
    assert (io r1 = s') as Hio by (unfold r1, rioGenericUpdateChecksum; simpl; by destruct (update_cksum r)).
    assert (consumed r (take n (rest (io r))) r1) as Hc1.
    { split_and!; rewrite ?Hio; [done|by rewrite Hs', take_drop|].
      unfold r1, rioGenericUpdateChecksum. simpl. destruct (update_cksum r) eqn:E; split; simpl; rewrite ?E; auto;
        unfold u64; rewrite Z.mod_mod by lia; rewrite length_take; do 3 f_equal; lia. }
    assert (max_processing_chunk r1 = max_processing_chunk r) as Hm1 by apply Hc1.
    destruct (IH r1 (acc ++ take n (rest (io r))) (S len - n)%nat) as (r' & res & Hres & Hcase); [lia|by rewrite Hio|lia|].
    exists r', res. split; [done|]. rewrite Hio, Hs', length_drop in Hcase.
    destruct (Nat.leb_spec (S len) (length (rest (io r)))) as [Hl|Hl].
    + destruct (Nat.leb_spec (S len - n) (length (rest (io r)) - n)); [|lia]. destruct Hcase as [-> Hcons].
      assert (take (S len) (rest (io r)) = take n (rest (io r)) ++ take (S len - n) (drop n (rest (io r)))) as ->.
      { rewrite take_take_drop. f_equal. lia. }
      rewrite app_assoc. split; [done|]. by eapply consumed_app.
    + destruct (Nat.leb_spec (S len - n) (length (rest (io r)) - n)); [lia|done].
  - destruct (read_short (io r) n Hr) as (s' & ->); [lia|]. eexists _, None. split; [done|].
    destruct (Nat.leb_spec (S len) (length (rest (io r)))); [lia|done].
Qed.

Lemma rioRead_spec r len :
  0 <= max_processing_chunk r -> readable (io r) ->
  exists r' res, rioRead len r = Some (Ret res, r') /\
    if (len <=? length (rest (io r)))%nat
    then res = Some (take len (rest (io r))) /\ consumed r (take len (rest (io r))) r' else res = None.
Proof.
  intros Hm Hr. destruct (rioRead_loop_spec len r [] len Hm Hr) as (r' & res & Hres & Hcase); [done|].
  exists r', res. unfold rioRead. by rewrite Hres.
Qed.

(** *** Writers

    [m] writes [bs] and returns [v] when the stream takes all of [bs], returns -1
    when it does not, and only returns [v] when there is no stream. *)
Definition saves (m : IO (option (rio St)) Z) (bs : list Z) (v : Z) : Prop :=
  m None = Some (Ret v, None) /\
  forall r, 0 <= max_processing_chunk r -> exists r',
    if accepts (io r) (length bs) then m (Some r) = Some (Ret v, Some r') /\ wrote r bs r'
    else m (Some r) = Some (Ret (-1), Some r').

Lemma saves_ret v : saves (mret v) [] v.
Proof. split; [done|]. intros r _. exists r. simpl. rewrite accepts_0. split; [done|apply wrote_nil]. Qed.

Lemma saves_bind m bs1 v1 k bs2 v2 :
  saves m bs1 v1 -> v1 <> -1 -> saves (k v1) bs2 v2 -> saves (n ←? m; k n) (bs1 ++ bs2) v2.
Proof.
  intros [N1 S1] Hv [N2 S2]. split.
  { unfold mbind, IO_bind. rewrite N1. simpl. destruct (Z.eqb_spec v1 (-1)); [done|apply N2]. }
  intros r Hr. destruct (S1 r Hr) as (r1 & H1). unfold mbind, IO_bind. rewrite length_app.
  destruct (accepts (io r) (length bs1)) eqn:A1.
  - destruct H1 as [-> W1]. simpl. destruct (Z.eqb_spec v1 (-1)); [done|].
    destruct (S2 r1) as (r2 & H2); [by destruct W1 as (_ & [_ _ _ ->] & _)|]. exists r2.
    destruct W1 as (? & ? & Ha). rewrite Ha in H2.
    destruct (accepts (io r) (length bs1 + length bs2)); [|done]. destruct H2 as [-> W2]. split; [done|]. eapply wrote_app; [|done]. by split.
  - exists r1. rewrite H1. destruct (accepts (io r) (length bs1 + length bs2)) eqn:A; [|done].
    apply accepts_less in A. congruence.
Qed.

Lemma saves_liftO {A} (o : option A) a (k : A -> IO (option (rio St)) Z) bs v :
  o = Some a -> saves (k a) bs v -> saves (liftO o ≫= k) bs v.
Proof. intros -> Hk. exact Hk. Qed.

(** *** Readers

    [m] reads exactly [bs] and returns [a]; when the stream ends inside [bs] the
    outcome is [err]. *)
Definition loads {A} (m : IO (rio St) A) (bs : list Z) (a : A) (err : outcome A) : Prop :=
  forall r, 0 <= max_processing_chunk r -> readable (io r) ->
    (forall tl, rest (io r) = bs ++ tl -> exists r', m r = Some (Ret a, r') /\ consumed r bs r') /\
    (forall x, x <> [] -> bs = rest (io r) ++ x -> exists r', m r = Some (err, r')).

Lemma loads_ret {A} (a : A) err : loads (mret a) [] a err.
Proof.
  intros r _ Hr. split; [intros tl _; exists r; auto using consumed_nil|].
  intros x Hx Hn. symmetry in Hn. by apply app_nil in Hn as [_ ->].
Qed.

Lemma loads_read bs : bs <> [] -> loads (rioRead (length bs)) bs (Some bs) (Ret None).
Proof.
  intros Hbs r Hm Hr. destruct (rioRead_spec r (length bs) Hm Hr) as (r' & res & Hres & Hcase). split.
  - intros tl Ht. exists r'. rewrite Ht, length_app in Hcase. destruct (Nat.leb_spec (length bs) (length bs + length tl)); [|lia].
    rewrite take_app_length in Hcase. destruct Hcase as [-> Hc]. auto.
  - intros x Hx Hn. exists r'. apply (f_equal length) in Hn. rewrite length_app in Hn. destruct x; [done|]. simpl in Hn.
    destruct (Nat.leb_spec (length bs) (length (rest (io r)))); [lia|]. by rewrite Hres, Hcase.
Qed.

(** The continuation [k] turns the failure [o] into [err]. *)
Definition fails_to {A B} (k : A -> IO (rio St) B) (o : outcome A) (err : outcome B) : Prop :=
  forall r, exists r', match o with Ret e => k e r | Exit => Some (Exit, r) end = Some (err, r').

Lemma loads_bind {A B} (m : IO (rio St) A) (k : A -> IO (rio St) B) bs1 a1 o1 bs2 a2 err :
  loads m bs1 a1 o1 -> fails_to k o1 err -> loads (k a1) bs2 a2 err -> loads (m ≫= k) (bs1 ++ bs2) a2 err.
Proof.
  intros L1 Hf L2 r Hm Hr. destruct (L1 r Hm Hr) as [Ok1 Sh1]. unfold mbind, IO_bind. split.
  - intros tl Ht. rewrite <- app_assoc in Ht. destruct (Ok1 _ Ht) as (r1 & -> & C1). simpl.
    pose proof C1 as (R1 & E1 & [_ _ _ M1]). destruct (L2 r1) as [Ok2 _]; [lia|done|].
    destruct (Ok2 tl) as (r2 & -> & C2); [rewrite E1 in Ht; by apply app_inv_head in Ht|].
    exists r2. split; [done|by eapply consumed_app].
  - intros x Hx Hn. destruct (decide (length (rest (io r)) < length bs1)%nat) as [Hl|Hl].
    + assert (bs1 = rest (io r) ++ drop (length (rest (io r))) bs1) as Hb1.
      { assert (rest (io r) = take (length (rest (io r))) bs1) as Ht.
        { apply (f_equal (take (length (rest (io r))))) in Hn. by rewrite take_app_length, take_app_le in Hn by lia. }
        rewrite Ht at 1. by rewrite take_drop. }
      destruct (Sh1 (drop (length (rest (io r))) bs1)) as (r1 & ->); [|done|].
      { intros E. apply (f_equal length) in E. rewrite length_drop in E. simpl in E. lia. }
      simpl.
      destruct (Hf r1) as (r2 & Hr2). destruct o1; by exists r2.
    + assert (rest (io r) = bs1 ++ drop (length bs1) (rest (io r))) as Hrest.
      { assert (take (length bs1) (rest (io r)) = bs1) as Ht.
        { apply (f_equal (take (length bs1))) in Hn. by rewrite take_app_length, take_app_le in Hn by lia. }
        rewrite <- Ht at 1. by rewrite take_drop. }
      destruct (Ok1 _ Hrest) as (r1 & -> & C1). simpl. pose proof C1 as (R1 & E1 & [_ _ _ M1]).
      destruct (L2 r1) as [_ Sh2]; [lia|done|]. apply (Sh2 x Hx). rewrite E1, <- app_assoc in Hn. by apply app_inv_head in Hn.
Qed.

Lemma loads_liftO {A B} (o : option A) a (k : A -> IO (rio St) B) bs b err :
  o = Some a -> loads (k a) bs b err -> loads (liftO o ≫= k) bs b err.
Proof. intros -> Hk. exact Hk. Qed.

(** A failed read that is returned at once. *)
Lemma fails_ret {A B} (k : A -> IO (rio St) B) e b : (forall r, k e r = Some (Ret b, r)) -> fails_to k (Ret e) (Ret b).
Proof. intros Hk r. exists r. apply Hk. Qed.
End Laws.

(** ** Properties *)

(** The bytes of the file that are not on the device yet are counted by [buffered],
    which stays below the limit. *)
Record sync_ok (f : file) : Prop := {
  so_count : (length (written f) - synced f <= Z.to_nat (buffered f))%nat;
  so_limit : 0 < autosync f -> 0 <= buffered f < autosync f }.

Lemma rioFileWrite_sync f bs : 0 < autosync f -> sync_ok f -> sync_ok (fst (rioFileWrite f bs)).
Proof.
  intros Ha [Hc Hl]. specialize (Hl Ha). unfold rioFileWrite, fwrite. simpl.
  destruct (Z.eqb_spec (autosync f) 0); [lia|]. rewrite Z.geb_leb. cbn [negb andb].
  destruct (Z.leb_spec (autosync f) (buffered f + Z.of_nat (length bs))); split; simpl; try lia.
  rewrite length_app, length_take. lia.
Qed.

(** The file after some writes, whether they succeed or not. *)
Definition writes_to_file (f : file) (l : list (list Z)) : file := foldl (fun f bs => fst (rioFileWrite f bs)) f l.
Lemma writes_sync l : forall f, 0 < autosync f -> sync_ok f -> sync_ok (writes_to_file f l) /\ autosync (writes_to_file f l) = autosync f.
Proof.
  induction l as [|bs l IH]; intros f Ha Hs; [done|]. cbn [writes_to_file foldl]. fold (writes_to_file (fst (rioFileWrite f bs)) l).
  assert (autosync (fst (rioFileWrite f bs)) = autosync f) as E by (unfold rioFileWrite, fwrite; simpl; by destruct (_ && _)).
  destruct (IH (fst (rioFileWrite f bs))) as [H1 H2]; [by rewrite E|by apply rioFileWrite_sync|]. split; [done|congruence].
Qed.


Definition demo_stream : rio file := mk_rio (mk_file [1; 2; 3; 4; 5] [] 100 0 0 8) true 0 0 2.

