(* ===== verification/Rdb.v ===== *)
(** * The dump format: lengths, integers and strings (src/redis-stable/src/rdb.c, rdb.h)

    The writers and readers of the binary format the data set is saved in, over
    any stream of [Rio].  A writer returns the number of bytes it wrote or -1, and
    does not write when there is no stream; a reader returns NULL (or the error
    value of its type) at the end of the input, and ends the process when the input
    cannot be a dump. *)
From stdpp Require Import prelude list.
From Stdlib Require Import ZArith Lia.
From S2P Require Import Prelude Endianconv Util Crc Lzf SdsText Rio.

Local Open Scope Z_scope.
Local Open Scope redis_scope.

(** ** The model *)

Definition RDB_6BITLEN : Z := 0.
Definition RDB_14BITLEN : Z := 1.
Definition RDB_32BITLEN : Z := 0x80.
Definition RDB_64BITLEN : Z := 0x81.
Definition RDB_ENCVAL : Z := 3.
Definition RDB_LENERR : Z := ULLONG_MAX.
Definition RDB_ENC_INT8 : Z := 0.
Definition RDB_ENC_INT16 : Z := 1.
Definition RDB_ENC_INT32 : Z := 2.
Definition RDB_ENC_LZF : Z := 3.
Definition RDB_LOAD_ENC : Z := 1.
Definition RDB_LOAD_PLAIN : Z := 2.
Definition RDB_LOAD_SDS : Z := 4.
Definition flag (flags f : Z) : bool := negb (Z.land flags f =? 0).

(** htonl() and ntohl() *)
Definition htonl `{Host} (v : Z) : option Z := if big_endian then Some v else intrev32 v.
Definition ntohl `{Host} (v : Z) : option Z := if big_endian then Some v else intrev32 v.

(** String objects: an integer, possibly one of the shared ones, or a string
    embedded in the object or allocated on its own. *)
Inductive string_obj := ObjInt (shared : bool) (v : Z) | ObjEmbstr (bs : list Z) | ObjRaw (bs : list Z).

(** What the loading functions return: a plain buffer, a string, an object. *)
Inductive loaded := LPlain (bs : list Z) | LSds (bs : list Z) | LObj (o : string_obj).

Definition OBJ_ENCODING_EMBSTR_SIZE_LIMIT : Z := 44.
Definition OBJ_SHARED_INTEGERS : Z := 10000.
Definition LONG_STR_SIZE : nat := 21.

Definition createStringObject (bs : list Z) : string_obj :=
  if Z.of_nat (length bs) <=? OBJ_ENCODING_EMBSTR_SIZE_LIMIT then ObjEmbstr bs else ObjRaw bs.

(** The settings of the server that matter here: rdb_compression, and whether
    maxmemory is set with a policy that needs an object per key. *)
Record config := mk_config { rdb_compression : bool; no_shared_integers : bool }.

Definition createStringObjectFromLongLongWithOptions (cfg : config) (value : Z) (valueobj : bool) : option string_obj :=
  let valueobj := if negb (no_shared_integers cfg) then false else valueobj in
  if (0 <=? value) && (value <? OBJ_SHARED_INTEGERS) && negb valueobj then Some (ObjInt true value)
  else if (LONG_MIN <=? value) && (value <=? LONG_MAX) then Some (ObjInt false value)
  else ObjRaw <$> sdsfromlonglong (replicate 21 0) value.
Definition createStringObjectFromLongLongForValue (cfg : config) (value : Z) : option string_obj :=
  createStringObjectFromLongLongWithOptions cfg value true.

Definition rdbEncodeInteger (value : Z) : list Z :=
  if (value >=? - 2 ^ 7) && (value <=? 2 ^ 7 - 1) then
    [Z.lor (Z.shiftl RDB_ENCVAL 6) RDB_ENC_INT8; Z.land value 0xFF]
  else if (value >=? - 2 ^ 15) && (value <=? 2 ^ 15 - 1) then
    [Z.lor (Z.shiftl RDB_ENCVAL 6) RDB_ENC_INT16; Z.land value 0xFF; Z.land (Z.shiftr value 8) 0xFF]
  else if (value >=? - 2 ^ 31) && (value <=? 2 ^ 31 - 1) then
    [Z.lor (Z.shiftl RDB_ENCVAL 6) RDB_ENC_INT32; Z.land value 0xFF; Z.land (Z.shiftr value 8) 0xFF;
     Z.land (Z.shiftr value 16) 0xFF; Z.land (Z.shiftr value 24) 0xFF]
  else [].

(** strtoll(s,&endptr,10) on the characters before the terminator: the value,
    saturated, and the characters from endptr on. *)
Fixpoint drop_spaces (s : list Z) : list Z :=
  match s with c :: s' => if isspace c then drop_spaces s' else s | [] => [] end.
Definition strtoll10 (s : list Z) : Z * list Z :=
  let p := drop_spaces s in
  let '(neg, q) := match p with c :: q => if c =? 45 then (true, q) else if c =? 43 then (false, q) else (false, p) | [] => (false, []) end in
  let '(ds, r) := span_digits q in
  match ds with
  | [] => (0, s)
  | _ => (Z.max LLONG_MIN (Z.min LLONG_MAX (if neg then - dec_val ds else dec_val ds)), r)
  end.

(** The characters of [s], which is terminated, before its first zero. *)
Fixpoint c_string (s : list Z) : list Z :=
  match s with c :: s' => if c =? 0 then [] else c :: c_string s' | [] => [] end.

(** The encoding, empty when there is none. *)
Definition rdbTryIntegerEncoding (s : list Z) : option (list Z) :=
  let '(value, endptr) := strtoll10 (c_string s) in
  match endptr with
  | _ :: _ => Some []
  | [] =>
    '(buf, _) ← ll2string (replicate 32 0) 32 value;
    let t := c_string buf in
    if negb (length t =? length s)%nat || negb (bool_decide (t = s)) then Some []
    else Some (rdbEncodeInteger value)
  end.

Section Rdb.
Context {St : Type} `{Backend St} `{Host}.

(** *** Writers *)

Abbreviation W := (IO (option (rio St)) Z).

(** The length is converted to int. *)
Definition rdbWriteRaw (p : list Z) : W := fun rdb =>
  let len := s32 (Z.of_nat (length p)) in
  match rdb with
  | None => Some (Ret len, None)
  | Some r =>
    '(o, r) ← rioWrite p r;
    match o with
    | Ret ok => Some (Ret (if (ok : bool) then len else -1), Some r)
    | Exit => Some (Exit, Some r)
    end
  end.

Definition rdbSaveType (type : Z) : W := rdbWriteRaw [u8 type].

Definition rdbSaveMillisecondTime (t : Z) : W :=
  bs ← liftO (memrev64ifbe (host_store 8 t)); rdbWriteRaw bs.

Definition rdbSaveLen (len : Z) : W :=
  if len <? 2 ^ 6 then
    n ←? rdbWriteRaw [Z.lor (Z.land len 0xFF) (Z.shiftl RDB_6BITLEN 6)]; mret 1
  else if len <? 2 ^ 14 then
    n ←? rdbWriteRaw [Z.lor (Z.land (Z.shiftr len 8) 0xFF) (Z.shiftl RDB_14BITLEN 6); Z.land len 0xFF]; mret 2
  else if len <=? 2 ^ 32 - 1 then
    n ←? rdbWriteRaw [RDB_32BITLEN];
    len32 ← liftO (htonl len);
    n ←? rdbWriteRaw (host_store 4 len32);
    mret (1 + 4)
  else
    n ←? rdbWriteRaw [RDB_64BITLEN];
    len ← liftO (htonu64 len);
    n ←? rdbWriteRaw (host_store 8 len);
    mret (1 + 8).

Definition rdbSaveLzfBlob (data : list Z) (original_len : Z) : W :=
  n1 ←? rdbWriteRaw [Z.lor (Z.shiftl RDB_ENCVAL 6) RDB_ENC_LZF];
  n2 ←? rdbSaveLen (Z.of_nat (length data));
  n3 ←? rdbSaveLen original_len;
  n4 ←? rdbWriteRaw data;
  mret (0 + n1 + n2 + n3 + n4).

(** The hash table of the compressor is not initialised; the lengths are
    converted to unsigned int. *)
Context (htab0 : Z -> Z).
Definition rdbSaveLzfStringObject (s : list Z) : W :=
  let len := Z.of_nat (length s) in
  if len <=? 4 then mret 0
  else
    let outlen := len - 4 in
    r ← liftO (lzf_compress (take (Z.to_nat (u32 len)) s) (Z.to_nat (u32 outlen)) htab0);
    match r with
    | None => mret 0
    | Some out => rdbSaveLzfBlob out len
    end.

Context (cfg : config).
Definition rdbSaveRawString (s : list Z) : W :=
  let len := Z.of_nat (length s) in
  enc ← liftO (if len <=? 11 then rdbTryIntegerEncoding s else Some []);
  if bool_decide (enc <> []) then n ←? rdbWriteRaw enc; mret (Z.of_nat (length enc))
  else
    n ← (if rdb_compression cfg && (len >? 20) then rdbSaveLzfStringObject s else mret 0 : W);
    if n =? -1 then mret (-1)
    else if n >? 0 then mret n
    else
      n ←? rdbSaveLen len;
      if len >? 0 then m ←? rdbWriteRaw s; mret (0 + n + len)
      else mret (0 + n).

Definition rdbSaveLongLongAsStringObject (value : Z) : W :=
  let buf := rdbEncodeInteger value in
  if bool_decide (buf <> []) then rdbWriteRaw buf
  else
    '(buf, enclen) ← liftO (ll2string (replicate 32 0) 32 value);
    _ ← liftO (assert! (enclen <? 32) ;; Some tt);
    n ←? rdbSaveLen enclen;
    bs ← liftO (mread buf 0 enclen);
    m ←? rdbWriteRaw bs;
    mret (0 + n + m).

Definition rdbSaveStringObject (o : string_obj) : W :=
  match o with
  | ObjInt _ v => rdbSaveLongLongAsStringObject v
  | ObjEmbstr s | ObjRaw s => rdbSaveRawString s
  end.

(** The double and the float are the 64 and 32 bits of the value. *)
Definition rdbSaveBinaryDoubleValue (val : Z) : W := bs ← liftO (memrev64ifbe (host_store 8 val)); rdbWriteRaw bs.
Definition rdbSaveBinaryFloatValue (val : Z) : W := bs ← liftO (memrev32ifbe (host_store 4 val)); rdbWriteRaw bs.

(** *** Readers *)

Abbreviation R := (IO (rio St)).

Definition rdbLoadRaw (len : nat) : R (list Z) :=
  r ← rioRead len; match r with None => exit_ | Some bs => mret bs end.

(** -1 on failure *)
Definition rdbLoadType : R Z :=
  r ← rioRead 1; match r with Some [type] => mret type | _ => mret (-1) end.
Definition rdbLoadTime : R Z := bs ← rdbLoadRaw 4; mret (sN 4 (host_load bs)).
Definition rdbLoadMillisecondTime (rdbver : Z) : R Z :=
  bs ← rdbLoadRaw 8;
  bs ← liftO (if rdbver >=? 9 then memrev64ifbe bs else Some bs);
  mret (sN 8 (host_load bs)).

(** [None] is the return value -1, otherwise *isencoded and *lenptr. *)
Definition rdbLoadLenByRef : R (option (bool * Z)) :=
  r ← rioRead 1;
  match r with
  | Some [b0] =>
    let type := Z.shiftr (Z.land b0 0xC0) 6 in
    if type =? RDB_ENCVAL then mret (Some (true, Z.land b0 0x3F))
    else if type =? RDB_6BITLEN then mret (Some (false, Z.land b0 0x3F))
    else if type =? RDB_14BITLEN then
      r ← rioRead 1;
      match r with Some [b1] => mret (Some (false, Z.lor (Z.shiftl (Z.land b0 0x3F) 8) b1)) | _ => mret None end
    else if b0 =? RDB_32BITLEN then
      r ← rioRead 4;
      match r with Some bs => len ← liftO (ntohl (host_load bs)); mret (Some (false, len)) | None => mret None end
    else if b0 =? RDB_64BITLEN then
      r ← rioRead 8;
      match r with Some bs => len ← liftO (ntohu64 (host_load bs)); mret (Some (false, len)) | None => mret None end
    else exit_
  | _ => mret None
  end.

(** *isencoded, which is 0 on failure, and the length. *)
Definition rdbLoadLen : R (bool * Z) :=
  r ← rdbLoadLenByRef; match r with None => mret (false, RDB_LENERR) | Some p => mret p end.

(** NULL is [None]; [zmalloc] gives the content of a new buffer. *)
Context (zmalloc : Z -> list Z).

(** The value as the flags ask for it. *)
Definition integer_result (flags val : Z) : R (option loaded) :=
  let plain := flag flags RDB_LOAD_PLAIN in
  let sds := flag flags RDB_LOAD_SDS in
  let encode := flag flags RDB_LOAD_ENC in
  if plain || sds then
    '(buf, len) ← liftO (ll2string (replicate LONG_STR_SIZE 0) (Z.of_nat LONG_STR_SIZE) val);
    bs ← liftO (mread buf 0 len);
    mret (Some (if plain then LPlain bs else LSds bs))
  else if encode then
    o ← liftO (createStringObjectFromLongLongForValue cfg val); mret (Some (LObj o))
  else
    bs ← liftO (sdsfromlonglong (replicate 21 0) val); mret (Some (LObj (ObjRaw bs))).

Definition rdbLoadIntegerObject (enctype flags : Z) : R (option loaded) :=
  if enctype =? RDB_ENC_INT8 then
    r ← rioRead 1; match r with Some [a] => integer_result flags (sN 1 a) | _ => mret None end
  else if enctype =? RDB_ENC_INT16 then
    r ← rioRead 2; match r with Some [a; b] => integer_result flags (sN 2 (u16 (Z.lor a (Z.shiftl b 8)))) | _ => mret None end
  else if enctype =? RDB_ENC_INT32 then
    r ← rioRead 4;
    match r with
    | Some [a; b; c; d] => integer_result flags (sN 4 (u32 (Z.lor (Z.lor (Z.lor a (Z.shiftl b 8)) (Z.shiftl c 16)) (Z.shiftl d 24))))
    | _ => mret None
    end
  else exit_.

Definition rdbLoadLzfStringObject (flags : Z) : R (option loaded) :=
  let plain := flag flags RDB_LOAD_PLAIN in
  let sds := flag flags RDB_LOAD_SDS in
  '(_, clen) ← rdbLoadLen;
  if clen =? RDB_LENERR then mret None
  else
    '(_, len) ← rdbLoadLen;
    if len =? RDB_LENERR then mret None
    else
      r ← rioRead (Z.to_nat clen);
      match r with
      | None => mret None
      | Some c =>
        d ← liftO (lzf_decompress (take (Z.to_nat (u32 clen)) c) (Z.to_nat (u32 len)));
        match d with
        | None => mret None
        | Some out =>
          let val := out ++ drop (length out) (zmalloc len) in
          mret (Some (if plain then LPlain val else if sds then LSds val else LObj (ObjRaw val)))
        end
      end.

Definition rdbGenericLoadStringObject (flags : Z) : R (option loaded) :=
  let encode := flag flags RDB_LOAD_ENC in
  let plain := flag flags RDB_LOAD_PLAIN in
  let sds := flag flags RDB_LOAD_SDS in
  '(isencoded, len) ← rdbLoadLen;
  if isencoded : bool then
    if (len =? RDB_ENC_INT8) || (len =? RDB_ENC_INT16) || (len =? RDB_ENC_INT32) then rdbLoadIntegerObject len flags
    else if len =? RDB_ENC_LZF then rdbLoadLzfStringObject flags
    else exit_
  else if len =? RDB_LENERR then mret None
  else
    r ← (if len =? 0 then mret (Some []) else rioRead (Z.to_nat len));
    match r with
    | None => mret None
    | Some bs =>
      mret (Some (if plain then LPlain bs else if sds then LSds bs
                  else LObj (if encode then createStringObject bs else ObjRaw bs)))
    end.
Definition rdbLoadStringObject : R (option loaded) := rdbGenericLoadStringObject 0.
Definition rdbLoadEncodedStringObject : R (option loaded) := rdbGenericLoadStringObject RDB_LOAD_ENC.

(** 0 and the value, or -1 ([None]). *)
Definition rdbLoadBinaryDoubleValue : R (option Z) :=
  r ← rioRead 8;
  match r with Some bs => bs ← liftO (memrev64ifbe bs); mret (Some (host_load bs)) | None => mret None end.
Definition rdbLoadBinaryFloatValue : R (option Z) :=
  r ← rioRead 4;
  match r with Some bs => bs ← liftO (memrev32ifbe bs); mret (Some (host_load bs)) | None => mret None end.
End Rdb.

(** ** The format *)

Definition be_bytes (n : nat) (v : Z) : list Z := reverse (le_bytes n v).

(** The encoding of a length. *)
Definition enc_len (n : Z) : list Z :=
  if n <? 2 ^ 6 then [n]
  else if n <? 2 ^ 14 then [64 + n / 256; n mod 256]
  else if n <? 2 ^ 32 then 128 :: be_bytes 4 n
  else 129 :: be_bytes 8 n.

(** The encoding of a small integer. *)
Definition enc_int (v : Z) : list Z :=
  if (- 2 ^ 7 <=? v) && (v <? 2 ^ 7) then 192 :: le_bytes 1 v
  else if (- 2 ^ 15 <=? v) && (v <? 2 ^ 15) then 193 :: le_bytes 2 v
  else 194 :: le_bytes 4 v.

(** The bytes that stand for the string [s]. *)
Inductive string_wire (s : list Z) : list Z -> Prop :=
  | wire_int v : s = decimal v -> - 2 ^ 31 <= v < 2 ^ 31 -> string_wire s (enc_int v)
  | wire_lzf c : decodes c s -> s <> [] -> Z.of_nat (length c) < 2 ^ 31 -> string_wire s (195 :: enc_len (Z.of_nat (length c)) ++ enc_len (Z.of_nat (length s)) ++ c)
  | wire_raw : string_wire s (enc_len (Z.of_nat (length s)) ++ s).

Lemma land_255 v : Z.land v 0xFF = v mod 256.
Proof. change 0xFF with (Z.ones 8). by rewrite Z.land_ones. Qed.

Lemma be_bytes_eq n v : length (be_bytes n v) = n.
Proof. unfold be_bytes. rewrite length_reverse. apply length_le_bytes. Qed.

Lemma rdbEncodeInteger_eq v :
  rdbEncodeInteger v = if (- 2 ^ 31 <=? v) && (v <? 2 ^ 31) then enc_int v else [].
Proof.
  unfold rdbEncodeInteger, enc_int. rewrite !Z.geb_leb, !land_255, !Z.shiftr_div_pow2 by lia.
  replace (v <=? 2 ^ 7 - 1) with (v <? 2 ^ 7) by (apply eq_iff_eq_true; rewrite Z.ltb_lt, Z.leb_le; lia).
  replace (v <=? 2 ^ 15 - 1) with (v <? 2 ^ 15) by (apply eq_iff_eq_true; rewrite Z.ltb_lt, Z.leb_le; lia).
  replace (v <=? 2 ^ 31 - 1) with (v <? 2 ^ 31) by (apply eq_iff_eq_true; rewrite Z.ltb_lt, Z.leb_le; lia).
  assert (v / 2 ^ 16 = v / 256 / 256 /\ v / 2 ^ 24 = v / 256 / 256 / 256) as [-> ->] by (rewrite !Z.div_div by lia; done).
  change (2 ^ 8) with 256.
  destruct ((- 2 ^ 7 <=? v) && (v <? 2 ^ 7)) eqn:E7.
  { apply andb_true_iff in E7 as [? ?]. breflect. replace ((- 2 ^ 31 <=? v) && (v <? 2 ^ 31)) with true; [done|].
    symmetry. apply andb_true_iff. rewrite Z.leb_le, Z.ltb_lt. lia. }
  destruct ((- 2 ^ 15 <=? v) && (v <? 2 ^ 15)) eqn:E15.
  { apply andb_true_iff in E15 as [? ?]. breflect. replace ((- 2 ^ 31 <=? v) && (v <? 2 ^ 31)) with true; [done|].
    symmetry. apply andb_true_iff. rewrite Z.leb_le, Z.ltb_lt. lia. }
  by destruct (_ && _).
Qed.

(** Storing a value in network order writes its bytes from the most significant
    one on, and loading reads them back. *)
Section Network.
Context `{Host}.

Lemma host_store_reverse n v : host_store n (host_load (reverse (host_store n v))) = reverse (host_store n v).
Proof.
  assert (Forall is_byte (reverse (host_store n v))) as Hb.
  { apply Forall_reverse. unfold host_store. destruct big_endian; rewrite ?Forall_reverse; apply le_bytes_bytes. }
  assert (length (reverse (host_store n v)) = n) as Hl by (rewrite length_reverse; apply length_host_store).
  revert Hb Hl. generalize (reverse (host_store n v)) as bs. intros bs Hb <-. unfold host_store, host_load. destruct big_endian.
  - rewrite <- (length_reverse bs), le_bytes_val by (by apply Forall_reverse). apply reverse_involutive.
  - by apply le_bytes_val.
Qed.

Lemma htonl_store v : exists w, htonl v = Some w /\ host_store 4 w = be_bytes 4 v.
Proof.
  unfold htonl. destruct big_endian eqn:E; [exists v; split; [done|]; unfold host_store, be_bytes; by rewrite E|].
  unfold intrev32. rewrite memrev32_reverse by apply length_host_store. eexists. split; [done|].
  rewrite host_store_reverse. unfold host_store, be_bytes. by rewrite E.
Qed.

Lemma htonu64_store v : exists w, htonu64 v = Some w /\ host_store 8 w = be_bytes 8 v.
Proof.
  unfold htonu64. destruct big_endian eqn:E; [exists v; split; [done|]; unfold host_store, be_bytes; by rewrite E|].
  unfold intrev64. rewrite memrev64_reverse by apply length_host_store. eexists. split; [done|].
  rewrite host_store_reverse. unfold host_store, be_bytes. by rewrite E.
Qed.

Lemma ntohl_load v : 0 <= v < 2 ^ 32 -> ntohl (host_load (be_bytes 4 v)) = Some v.
Proof.
  intros Hv. unfold ntohl. destruct big_endian eqn:E.
  - unfold host_load, be_bytes. rewrite E, reverse_involutive, le_val_bytes. f_equal. by apply Z.mod_small.
  - unfold intrev32. rewrite memrev32_reverse by apply length_host_store. simpl. f_equal.
    replace (be_bytes 4 v) with (reverse (host_store 4 v)) by (unfold host_store, be_bytes; by rewrite E).
    rewrite host_store_reverse, reverse_involutive, host_load_store. by apply Z.mod_small.
Qed.

Lemma ntohu64_load v : 0 <= v < 2 ^ 64 -> ntohu64 (host_load (be_bytes 8 v)) = Some v.
Proof.
  intros Hv. unfold ntohu64. destruct big_endian eqn:E.
  - unfold host_load, be_bytes. rewrite E, reverse_involutive, le_val_bytes. f_equal. by apply Z.mod_small.
  - unfold intrev64. rewrite memrev64_reverse by apply length_host_store. simpl. f_equal.
    replace (be_bytes 8 v) with (reverse (host_store 8 v)) by (unfold host_store, be_bytes; by rewrite E).
    rewrite host_store_reverse, reverse_involutive, host_load_store. by apply Z.mod_small.
Qed.
End Network.

(** ** Writers *)

Section Save.
Context {St : Type} `{BackendLaws St} `{Host}.

Lemma saves_raw (p : list Z) : Z.of_nat (length p) < 2 ^ 31 -> saves (rdbWriteRaw p) p (Z.of_nat (length p)).
Proof.
  intros Hp. unfold rdbWriteRaw. rewrite s32_small by lia. split; [done|]. intros r Hr.
  destruct (rioWrite_spec r p Hr) as (r' & -> & Hw). exists r'. cbn [mbind option_bind].
  destruct (accepts (io r) (length p)); [|done]. auto.
Qed.

(** One write, whose result is compared with -1 and then forgotten. *)
Lemma saves_raw_then (p : list Z) k bs v :
  Z.of_nat (length p) < 2 ^ 31 -> saves k bs v -> saves (n ←? rdbWriteRaw p; k) (p ++ bs) v.
Proof. intros Hp Hk. eapply (saves_bind _ _ _ (fun _ => k)); [by apply saves_raw|lia|done]. Qed.

Lemma saves_eq m bs bs' (v v' : Z) : saves m bs v -> bs = bs' -> v = v' -> saves m bs' v'.
Proof. by intros ? -> ->. Qed.

Lemma saves_len n : 0 <= n < 2 ^ 64 -> saves (rdbSaveLen n) (enc_len n) (Z.of_nat (length (enc_len n))).
Proof.
  intros Hn. unfold rdbSaveLen, enc_len. repeat bdestr1; try lia.
  - eapply saves_eq; [apply saves_raw_then; [simpl; lia|apply saves_ret]| |done]. cbn [app]. rewrite land_255, Z.lor_0_r. f_equal. apply Z.mod_small. lia.
  - eapply saves_eq; [apply saves_raw_then; [simpl; lia|apply saves_ret]| |done]. cbn [app]. rewrite !land_255, Z.shiftr_div_pow2 by lia. do 2 f_equal.
    change (2 ^ 8) with 256. assert (0 <= n / 256 < 64) by (split; [apply Z.div_pos|apply Z.div_lt_upper_bound]; lia).
    rewrite Z.mod_small by lia. change (Z.shiftl RDB_14BITLEN 6) with (Z.shiftl 1 6). rewrite Z.lor_comm.
    pose proof (Z.add_lor_land (Z.shiftl 1 6) (n / 256)) as Hadd. assert (Z.land (Z.shiftl 1 6) (n / 256) = 0) as Hland; [|change (Z.shiftl 1 6) with 64 in *; lia].
    apply Z.bits_inj'. intros k Hk. rewrite Z.land_spec, Z.bits_0, Z.shiftl_1_l, Z.pow2_bits_eqb by lia.
    destruct (Z.eqb_spec 6 k) as [<-|]; [|done]. cbn [andb]. apply Z.testbit_false; [lia|]. rewrite Z.div_small by lia. done.
  - destruct (htonl_store n) as (w & Hw & Hs). eapply saves_eq.
    + apply saves_raw_then; [simpl; lia|]. eapply saves_liftO; [exact Hw|]. apply saves_raw_then; [rewrite length_host_store; lia|apply saves_ret].
    + cbn [app]. by rewrite app_nil_r, Hs.
    + cbn [length]. rewrite be_bytes_eq. done.
  - destruct (htonu64_store n) as (w & Hw & Hs). eapply saves_eq.
    + apply saves_raw_then; [simpl; lia|]. eapply saves_liftO; [exact Hw|]. apply saves_raw_then; [rewrite length_host_store; lia|apply saves_ret].
    + cbn [app]. by rewrite app_nil_r, Hs.
    + cbn [length]. rewrite be_bytes_eq. done.
Qed.

Lemma length_enc_len n : (1 <= length (enc_len n) <= 9)%nat.
Proof. unfold enc_len. repeat bdestr1; cbn [length]; rewrite ?be_bytes_eq; lia. Qed.

Lemma saves_lzf_blob c n :
  Z.of_nat (length c) < 2 ^ 31 -> 0 <= n < 2 ^ 64 ->
  saves (rdbSaveLzfBlob c n) (195 :: enc_len (Z.of_nat (length c)) ++ enc_len n ++ c)
    (Z.of_nat (length (195 :: enc_len (Z.of_nat (length c)) ++ enc_len n ++ c))).
Proof.
  intros Hc Hn. eapply saves_eq.
  - eapply saves_bind; [apply saves_raw; simpl; lia|simpl; lia|].
    eapply saves_bind; [apply saves_len; lia|lia|].
    eapply saves_bind; [apply saves_len; lia|lia|].
    eapply saves_bind; [by apply saves_raw|lia|]. apply saves_ret.
  - by rewrite app_nil_r.
  - cbn [length]. rewrite !length_app. lia.
Qed.
End Save.

(** *** Integers in strings *)

Lemma ll2string_ok dst dstlen v :
  LLONG_MIN <= v <= LLONG_MAX -> 21 <= dstlen <= Z.of_nat (length dst) ->
  ll2string dst dstlen v = Some (decimal v ++ 0 :: drop (S (length (decimal v))) dst, Z.of_nat (length (decimal v))).
Proof.
  intros Hv Hd. pose proof (decimal_length v Hv). rewrite ll2string_spec by (done || lia).
  by destruct (Z.leb_spec dstlen (Z.of_nat (length (decimal v)))); [lia|].
Qed.

Lemma decimal_nonzero v : Forall (fun c => c <> 0) (decimal v).
Proof.
  rewrite decimal_abs. apply Forall_app. split; [destruct (v <? 0); repeat constructor; lia|].
  eapply Forall_impl; [apply (dec_digits (Z.abs v)); lia|]. simpl. lia.
Qed.

Lemma c_string_spec c rest : Forall (fun x => x <> 0) c -> c_string (c ++ 0 :: rest) = c.
Proof. induction 1 as [|x c Hx _ IH]; [done|]. simpl. apply Z.eqb_neq in Hx. by rewrite Hx, IH. Qed.

Lemma c_string_id c : Forall (fun x => x <> 0) c -> c_string c = c.
Proof. induction 1 as [|x c Hx _ IH]; [done|]. simpl. apply Z.eqb_neq in Hx. by rewrite Hx, IH. Qed.

Lemma strtoll10_range s : LLONG_MIN <= (strtoll10 s).1 <= LLONG_MAX.
Proof.
  unfold strtoll10. destruct (match drop_spaces s with [] => _ | _ => _ end) as [neg q]. destruct (span_digits q) as [[|d ds] r]; unfold LLONG_MIN, LLONG_MAX; simpl; lia.
Qed.

Lemma strtoll10_decimal v : LLONG_MIN <= v <= LLONG_MAX -> strtoll10 (decimal v) = (v, []).
Proof.
  intros Hv. pose proof (strtoll_decimal v) as Hs. unfold strtoll10, strtoll in *.
  assert (drop_spaces (decimal v) = decimal v) as ->.
  { rewrite decimal_abs. destruct (v <? 0); [done|]. cbn [app]. pose proof (dec_digits (Z.abs v) ltac:(lia)) as Hd.
    destruct (dec (Z.abs v)) as [|c ds]; [done|]. apply Forall_cons in Hd as [Hc _]. cbn [drop_spaces]. unfold isspace.
    destruct (Z.eqb_spec c 32); [lia|]. destruct (Z.leb_spec c 13); [lia|]. by rewrite andb_false_r. }
  assert (forall c q, decimal v = c :: q -> (c =? 43) = false) as H43.
  { intros c q. rewrite decimal_abs. pose proof (dec_digits (Z.abs v) ltac:(lia)) as Hd. destruct (v <? 0); cbn [app].
    - by intros [= <- _].
    - intros E. rewrite E in Hd. apply Forall_cons in Hd as [Hc _]. apply Z.eqb_neq. lia. }
  destruct (decimal v) as [|c q] eqn:E.
  { rewrite decimal_abs in E. apply app_eq_nil in E as [_ E]. by apply dec_nonempty in E; [|lia]. }
  rewrite (H43 c q eq_refl). rewrite Z.min_r, Z.max_r in Hs by lia. destruct (c =? 45); exact Hs.
Qed.

Lemma rdbTryIntegerEncoding_spec s :
  exists e, rdbTryIntegerEncoding s = Some e /\ (e <> [] -> exists v, s = decimal v /\ - 2 ^ 31 <= v < 2 ^ 31 /\ e = enc_int v).
Proof.
  unfold rdbTryIntegerEncoding. destruct (strtoll10 (c_string s)) as [value endptr] eqn:E.
  destruct endptr; [|by exists []]. pose proof (strtoll10_range (c_string s)) as Hr. rewrite E in Hr. simpl in Hr.
  pose proof (decimal_length value Hr) as Hl.
  rewrite ll2string_ok by (done || simpl; lia). cbn [mbind option_bind].
  rewrite c_string_spec by apply decimal_nonzero. destruct (_ || _) eqn:Et; [by exists []|].
  apply orb_false_iff in Et as [_ Et]. breflect. exists (rdbEncodeInteger value). split; [done|]. rewrite rdbEncodeInteger_eq.
  destruct (_ && _) eqn:Er; [|done]. breflect. intros _. by exists value.
Qed.

(** Every decimal notation of a 32-bit integer is found. *)
Lemma rdbTryIntegerEncoding_complete v : - 2 ^ 31 <= v < 2 ^ 31 -> rdbTryIntegerEncoding (decimal v) = Some (enc_int v).
Proof.
  intros Hv. assert (LLONG_MIN <= v <= LLONG_MAX) as Hr by (unfold LLONG_MIN, LLONG_MAX; lia).
  unfold rdbTryIntegerEncoding. rewrite c_string_id by apply decimal_nonzero. rewrite strtoll10_decimal by done.
  pose proof (decimal_length v Hr) as Hl.
  rewrite ll2string_ok by (done || simpl; lia). cbn [mbind option_bind].
  rewrite c_string_spec by apply decimal_nonzero. rewrite Nat.eqb_refl, bool_decide_eq_true_2 by done. cbn [negb orb].
  rewrite rdbEncodeInteger_eq. replace (_ && _) with true; [done|]. symmetry. apply andb_true_iff. rewrite Z.leb_le, Z.ltb_lt. lia.
Qed.

Lemma enc_int_length v : (2 <= length (enc_int v) <= 5)%nat.
Proof. unfold enc_int. repeat (destruct (_ && _)); simpl; lia. Qed.

Section SaveStrings.
Context {St : Type} `{BackendLaws St} `{Host}.
Context (htab0 : Z -> Z) (htab0_range : forall i, 0 <= htab0 i < 2 ^ 32) (cfg : config).

(** Compression either gives up without writing or writes a compressed string. *)
Lemma saves_lzf_string s :
  (5 <= length s)%nat -> Z.of_nat (length s) < 2 ^ 31 ->
  rdbSaveLzfStringObject htab0 s = mret 0 \/
  exists bs, string_wire s bs /\ saves (rdbSaveLzfStringObject htab0 s) bs (Z.of_nat (length bs)) /\ bs <> [].
Proof.
  intros H5 Hl. unfold rdbSaveLzfStringObject. destruct (Z.leb_spec (Z.of_nat (length s)) 4); [lia|].
  rewrite !u32_small by lia. rewrite Nat2Z.id, firstn_all.
  destruct (compress_spec s (Z.to_nat (Z.of_nat (length s) - 4)) ltac:(lia) htab0) as (r & -> & Hr); [lia|done|].
  destruct r as [c|]; [right|by left]. destruct Hr as [Hd Hc].
  exists (195 :: enc_len (Z.of_nat (length c)) ++ enc_len (Z.of_nat (length s)) ++ c). split_and!; [|apply saves_lzf_blob; lia|done].
  apply wire_lzf; [done| |lia]. by destruct s.
Qed.

Lemma saves_string s :
  Z.of_nat (length s) < 2 ^ 31 ->
  exists bs, string_wire s bs /\ saves (rdbSaveRawString htab0 cfg s) bs (Z.of_nat (length bs)).
Proof.
  intros Hl. unfold rdbSaveRawString.
  assert (exists e, (if Z.of_nat (length s) <=? 11 then rdbTryIntegerEncoding s else Some []) = Some e /\
    (e <> [] -> exists v, s = decimal v /\ - 2 ^ 31 <= v < 2 ^ 31 /\ e = enc_int v)) as (e & He & Hint).
  { destruct (_ <=? 11); [apply rdbTryIntegerEncoding_spec|by exists []]. }
  rewrite He. destruct (decide (e <> [])) as [Hne|Hnil%dec_stable].
  { destruct (Hint Hne) as (v & Hs & Hv & ->). exists (enc_int v). split; [by apply wire_int|].
    eapply saves_liftO; [done|]. rewrite bool_decide_eq_true_2 by done. pose proof (enc_int_length v).
    eapply saves_eq; [apply saves_raw_then; [lia|apply saves_ret]|by rewrite app_nil_r|done]. }
  subst e. set (raw := fun n : Z => if n =? -1 then _ else _ : IO (option (rio St)) Z).
  assert (saves (raw 0) (enc_len (Z.of_nat (length s)) ++ s) (Z.of_nat (length (enc_len (Z.of_nat (length s)) ++ s)))) as Hraw.
  { unfold raw. cbn [Z.eqb Z.gtb Z.compare]. eapply saves_bind; [apply saves_len; lia|lia|]. rewrite Z.gtb_ltb. destruct (Z.ltb_spec 0 (Z.of_nat (length s))).
    - eapply saves_eq; [apply saves_raw_then; [done|apply saves_ret]|by rewrite app_nil_r|rewrite length_app; lia].
    - assert (s = []) as -> by (destruct s; [done|simpl in *; lia]). eapply saves_eq; [apply saves_ret|done|]. rewrite app_nil_r. lia. }
  destruct (rdb_compression cfg && (Z.of_nat (length s) >? 20)) eqn:Ec.
  - apply andb_true_iff in Ec as [_ Ec]. rewrite Z.gtb_ltb in Ec. breflect.
    destruct (saves_lzf_string s) as [Hz|(bs & Hw & Hsv & Hne)]; [lia|done| |].
    + exists (enc_len (Z.of_nat (length s)) ++ s). split; [apply wire_raw|]. eapply saves_liftO; [done|]. cbv beta. rewrite bool_decide_eq_false_2 by auto.
      rewrite Hz. exact Hraw.
    + exists bs. split; [done|]. eapply saves_liftO; [done|]. cbv beta. rewrite bool_decide_eq_false_2 by auto.
      eapply saves_eq; [eapply (saves_bind _ bs _ (fun n => if n >? 0 then mret n else _)); [exact Hsv|lia|]|apply app_nil_r|done].
      destruct (Z.gtb_spec (Z.of_nat (length bs)) 0); [apply saves_ret|]. destruct bs; [done|simpl in *; lia].
  - exists (enc_len (Z.of_nat (length s)) ++ s). split; [apply wire_raw|]. eapply saves_liftO; [done|]. cbv beta. rewrite bool_decide_eq_false_2 by auto.
    exact Hraw.
Qed.
End SaveStrings.

(** ** Readers *)

Lemma len_type b : Z.shiftr (Z.land b 0xC0) 6 = b / 64 mod 4.
Proof. rewrite Z.shiftr_land. change (Z.shiftr 0xC0 6) with (Z.ones 2). rewrite Z.land_ones, Z.shiftr_div_pow2 by lia. done. Qed.

Section Load.
Context {St : Type} `{BackendLaws St} `{Host}.

Lemma loads_eq {A} (m : IO (rio St) A) bs bs' a a' err : loads m bs a err -> bs = bs' -> a = a' -> loads m bs' a' err.
Proof. by intros ? -> ->. Qed.

(** A read whose failure is answered at once. *)
Lemma loads_read_then {A} (k : option (list Z) -> IO (rio St) A) p bs a err n :
  n = length p -> p <> [] -> k None = mret err -> loads (k (Some p)) bs a (Ret err) -> loads (rioRead n ≫= k) (p ++ bs) a (Ret err).
Proof.
  intros -> Hp Hn Hk. eapply loads_bind; [by apply loads_read| |exact Hk]. apply fails_ret. intros r. by rewrite Hn.
Qed.

Lemma loads_lenref n : 0 <= n < 2 ^ 64 -> loads rdbLoadLenByRef (enc_len n) (Some (false, n)) (Ret None).
Proof.
  intros Hn. unfold rdbLoadLenByRef, enc_len. repeat bdestr1; try lia.
  - apply (loads_read_then _ [n] []); [done..|]. cbv beta iota zeta. rewrite len_type, land_63.
    rewrite Z.div_small, (Z.mod_small n 64) by lia. change (0 mod 4) with 0. cbn [Z.eqb]. apply loads_ret.
  - assert (0 <= n / 256 < 64) as Hh by (split; [apply Z.div_pos|apply Z.div_lt_upper_bound]; lia).
    apply (loads_read_then _ [64 + n / 256] [n mod 256]); [done..|]. cbv beta iota zeta. rewrite len_type, land_63.
    replace ((64 + n / 256) / 64 mod 4) with 1 by (replace ((64 + n / 256) / 64) with 1; [done|]; apply Z.div_unique with (n / 256); lia).
    replace ((64 + n / 256) mod 64) with (n / 256) by (apply Z.mod_unique with 1; lia). cbn [Z.eqb].
    apply (loads_read_then _ [n mod 256] []); [done..|]. cbv beta iota zeta.
    rewrite lor_shift by (try lia; apply Z.mod_pos_bound; lia). eapply loads_eq; [apply loads_ret|done|].
    do 2 f_equal. change (2 ^ 8) with 256. rewrite Z.mul_comm. symmetry. apply Z.div_mod. lia.
  - apply (loads_read_then _ [128] (be_bytes 4 n)); [done..|]. cbv beta iota zeta.
    change (Z.shiftr (Z.land 128 0xC0) 6 =? RDB_ENCVAL) with false. change (Z.shiftr (Z.land 128 0xC0) 6 =? RDB_6BITLEN) with false.
    change (Z.shiftr (Z.land 128 0xC0) 6 =? RDB_14BITLEN) with false. change (128 =? RDB_32BITLEN) with true. cbv iota.
    rewrite <- (app_nil_r (be_bytes 4 n)). apply loads_read_then; [by rewrite be_bytes_eq| |done|].
    { intros E. apply (f_equal length) in E. by rewrite be_bytes_eq in E. }
    eapply loads_liftO; [apply ntohl_load; lia|]. apply loads_ret.
  - apply (loads_read_then _ [129] (be_bytes 8 n)); [done..|]. cbv beta iota zeta.
    change (Z.shiftr (Z.land 129 0xC0) 6 =? RDB_ENCVAL) with false. change (Z.shiftr (Z.land 129 0xC0) 6 =? RDB_6BITLEN) with false.
    change (Z.shiftr (Z.land 129 0xC0) 6 =? RDB_14BITLEN) with false. change (129 =? RDB_32BITLEN) with false. change (129 =? RDB_64BITLEN) with true. cbv iota.
    rewrite <- (app_nil_r (be_bytes 8 n)). apply loads_read_then; [by rewrite be_bytes_eq| |done|].
    { intros E. apply (f_equal length) in E. by rewrite be_bytes_eq in E. }
    eapply loads_liftO; [apply ntohu64_load; lia|]. apply loads_ret.
Qed.

Lemma loads_len n : 0 <= n < 2 ^ 64 -> loads rdbLoadLen (enc_len n) (false, n) (Ret (false, RDB_LENERR)).
Proof.
  intros Hn. unfold rdbLoadLen. rewrite <- (app_nil_r (enc_len n)).
  eapply loads_bind; [by apply loads_lenref|by apply fails_ret|apply loads_ret].
Qed.

(** The code of a special encoding in the place of a length. *)
Lemma loads_code k : 0 <= k < 64 -> loads rdbLoadLen [192 + k] (true, k) (Ret (false, RDB_LENERR)).
Proof.
  intros Hk. unfold rdbLoadLen. change [192 + k] with ([192 + k] ++ []).
  eapply (loads_bind _ _ _ (Some (true, k)) (Ret None)); [|by apply fails_ret|apply loads_ret].
  unfold rdbLoadLenByRef. apply (loads_read_then _ [192 + k] []); [done..|]. cbv beta iota zeta. rewrite len_type, land_63.
  replace ((192 + k) / 64 mod 4) with 3 by (replace ((192 + k) / 64) with 3; [done|]; apply Z.div_unique with k; lia).
  replace ((192 + k) mod 64) with k by (apply Z.mod_unique with 3; lia). cbn [Z.eqb Pos.eqb]. apply loads_ret.
Qed.
End Load.

(** The byte string a result stands for, and its form. *)
Definition obj_bytes (o : string_obj) : list Z :=
  match o with ObjInt _ v => decimal v | ObjEmbstr bs | ObjRaw bs => bs end.
Definition loaded_bytes (l : loaded) : list Z :=
  match l with LPlain bs | LSds bs => bs | LObj o => obj_bytes o end.
Definition loaded_as (flags : Z) (l : loaded) : Prop :=
  match l with
  | LPlain _ => flag flags RDB_LOAD_PLAIN = true
  | LSds _ => flag flags RDB_LOAD_PLAIN = false /\ flag flags RDB_LOAD_SDS = true
  | LObj _ => flag flags RDB_LOAD_PLAIN = false /\ flag flags RDB_LOAD_SDS = false
  end.

Section LoadStrings.
Context {St : Type} `{BackendLaws St} `{Host}.
Context (cfg : config) (zmalloc : Z -> list Z) (zmalloc_size : forall n, 0 <= n -> Z.of_nat (length (zmalloc n)) = n).

(** [m] reads [bs] and returns the string [s] in the form [flags] asks for; it
    returns NULL when the input ends too early. *)
Definition loads_string (m : IO (rio St) (option loaded)) (flags : Z) (bs s : list Z) : Prop :=
  exists l, loads m bs (Some l) (Ret None) /\ loaded_bytes l = s /\ loaded_as flags l.

Lemma loads_integer_result flags v :
  - 2 ^ 31 <= v < 2 ^ 31 -> loads_string (integer_result cfg flags v) flags [] (decimal v).
Proof.
  intros Hv. assert (LLONG_MIN < v <= LLONG_MAX) as Hr by (unfold LLONG_MIN, LLONG_MAX; lia).
  pose proof (decimal_length v ltac:(lia)) as Hl. unfold integer_result, loads_string, loaded_as.
  destruct (flag flags RDB_LOAD_PLAIN || flag flags RDB_LOAD_SDS) eqn:Ef.
  - exists (if flag flags RDB_LOAD_PLAIN then LPlain (decimal v) else LSds (decimal v)). split_and!.
    + eapply loads_liftO; [apply ll2string_ok; [lia|split; vm_compute; discriminate]|]. cbv beta iota.
      eapply loads_liftO; [exact (mread_app [] (decimal v) _ 0 _ eq_refl eq_refl)|]. apply loads_ret.
    + by destruct (flag flags RDB_LOAD_PLAIN).
    + destruct (flag flags RDB_LOAD_PLAIN); [done|]. by split.
  - apply orb_false_iff in Ef as [-> ->]. destruct (flag flags RDB_LOAD_ENC).
    + unfold createStringObjectFromLongLongForValue, createStringObjectFromLongLongWithOptions.
      destruct (_ && negb _); [eexists; split_and!; [eapply loads_liftO; [done|]; apply loads_ret|done..]|].
      destruct (Z.leb_spec LONG_MIN v); [|unfold LONG_MIN in *; unfold LLONG_MIN in *; lia]. destruct (Z.leb_spec v LONG_MAX); [|unfold LONG_MAX, LLONG_MAX in *; lia].
      eexists; split_and!; [eapply loads_liftO; [done|]; apply loads_ret|done..].
    + eexists. split_and!; [eapply loads_liftO; [by apply sdsfromlonglong_spec|]; apply loads_ret|done..].
Qed.

Lemma combine2 a b : is_byte a -> is_byte b -> u16 (Z.lor a (Z.shiftl b 8)) = le_val [a; b].
Proof.
  unfold is_byte. intros Ha Hb. rewrite Z.lor_comm, lor_shift by lia. unfold u16. cbn [le_val]. rewrite Z.mod_small by lia. lia.
Qed.

Lemma combine4 a b c d : is_byte a -> is_byte b -> is_byte c -> is_byte d ->
  u32 (Z.lor (Z.lor (Z.lor a (Z.shiftl b 8)) (Z.shiftl c 16)) (Z.shiftl d 24)) = le_val [a; b; c; d].
Proof.
  unfold is_byte. intros Ha Hb Hc Hd. rewrite (Z.lor_comm a), lor_shift by lia. rewrite (Z.lor_comm _ (Z.shiftl c 16)), lor_shift by lia.
  rewrite (Z.lor_comm _ (Z.shiftl d 24)), lor_shift by lia. cbn [le_val]. rewrite u32_small by lia. lia.
Qed.

Lemma loads_string_bind {A} (m : IO (rio St) A) (k : A -> IO (rio St) (option loaded)) bs1 a o flags bs2 s :
  loads m bs1 a o -> fails_to k o (Ret None) -> loads_string (k a) flags bs2 s -> loads_string (m ≫= k) flags (bs1 ++ bs2) s.
Proof. intros Hm Hf (l & Hl & Hs & Ha). exists l. split_and!; [by eapply loads_bind|done|done]. Qed.

(** Reading [w] bytes and then going on with them. *)
Lemma loads_string_read (k : option (list Z) -> IO (rio St) (option loaded)) p flags bs s n :
  n = length p -> p <> [] -> k None = mret None -> loads_string (k (Some p)) flags bs s -> loads_string (rioRead n ≫= k) flags (p ++ bs) s.
Proof. intros -> Hp Hn (l & Hl & Hs & Ha). exists l. split_and!; [by apply loads_read_then|done|done]. Qed.

Lemma loads_integer flags v :
  - 2 ^ 31 <= v < 2 ^ 31 -> loads_string (rdbGenericLoadStringObject cfg zmalloc flags) flags (enc_int v) (decimal v).
Proof.
  intros Hv. unfold enc_int.
  assert (forall k bs, 0 <= k < 3 -> loads_string (rdbLoadIntegerObject cfg k flags) flags bs (decimal v) ->
            loads_string (rdbGenericLoadStringObject cfg zmalloc flags) flags ([192 + k] ++ bs) (decimal v)) as Hgen.
  { intros k bs Hk Hl. unfold rdbGenericLoadStringObject. eapply loads_string_bind; [apply loads_code; lia|by apply fails_ret|]. cbv beta iota zeta.
    assert (((k =? RDB_ENC_INT8) || (k =? RDB_ENC_INT16) || (k =? RDB_ENC_INT32)) = true) as ->; [|exact Hl].
    unfold RDB_ENC_INT8, RDB_ENC_INT16, RDB_ENC_INT32. rewrite !orb_true_iff, !Z.eqb_eq. lia. }
  pose proof (loads_integer_result flags v Hv) as Hfin.
  destruct ((- 2 ^ 7 <=? v) && (v <? 2 ^ 7)) eqn:E7; [|destruct ((- 2 ^ 15 <=? v) && (v <? 2 ^ 15)) eqn:E15].
  - breflect. apply (Hgen 0); [lia|]. unfold rdbLoadIntegerObject. cbn [Z.eqb]. change (0 =? RDB_ENC_INT8) with true. cbv iota.
    rewrite <- (app_nil_r (le_bytes 1 v)). apply loads_string_read; [done..|]. cbn [le_bytes].
    replace (sN 1 (v mod 256)) with v; [done|]. symmetry. apply (sN_mod 1); [lia|]. simpl. lia.
  - breflect. apply (Hgen 1); [lia|]. unfold rdbLoadIntegerObject. change (1 =? RDB_ENC_INT8) with false. change (1 =? RDB_ENC_INT16) with true. cbv iota.
    rewrite <- (app_nil_r (le_bytes 2 v)). apply loads_string_read; [done..|].
    pose proof (le_bytes_bytes 2 v) as Hb. pose proof (sN_le_bytes 2 v ltac:(lia) ltac:(simpl; lia)) as Hs. cbn [le_bytes] in *.
    apply Forall_cons in Hb as [Ha Hb]. apply Forall_cons in Hb as [Hb _]. rewrite combine2 by done. by rewrite Hs.
  - apply (Hgen 2); [lia|]. unfold rdbLoadIntegerObject. change (2 =? RDB_ENC_INT8) with false. change (2 =? RDB_ENC_INT16) with false. change (2 =? RDB_ENC_INT32) with true. cbv iota.
    rewrite <- (app_nil_r (le_bytes 4 v)). apply loads_string_read; [done..|].
    pose proof (le_bytes_bytes 4 v) as Hb. pose proof (sN_le_bytes 4 v ltac:(lia) ltac:(simpl; lia)) as Hs. cbn [le_bytes] in *.
    do 3 (let Hx := fresh "Hx" in apply Forall_cons in Hb as [Hx Hb]). apply Forall_cons in Hb as [Hb _]. rewrite combine4 by done. by rewrite Hs.
Qed.

Lemma len_not_err n : 0 <= n < 2 ^ 63 -> (n =? RDB_LENERR) = false.
Proof. intros Hn. apply Z.eqb_neq. unfold RDB_LENERR, ULLONG_MAX. lia. Qed.

(** The form of a string read as it is. *)
Lemma loaded_form flags (bs : list Z) (o : string_obj) :
  obj_bytes o = bs ->
  let l := if flag flags RDB_LOAD_PLAIN then LPlain bs else if flag flags RDB_LOAD_SDS then LSds bs else LObj o in
  loaded_bytes l = bs /\ loaded_as flags l.
Proof.
  intros Ho. simpl. destruct (flag flags RDB_LOAD_PLAIN) eqn:Ep; [by split|]. destruct (flag flags RDB_LOAD_SDS) eqn:Es; by split.
Qed.

Lemma loads_lzf flags c s :
  decodes c s -> s <> [] -> Z.of_nat (length c) < 2 ^ 31 -> Z.of_nat (length s) < 2 ^ 31 ->
  loads_string (rdbGenericLoadStringObject cfg zmalloc flags) flags (195 :: enc_len (Z.of_nat (length c)) ++ enc_len (Z.of_nat (length s)) ++ c) s.
Proof.
  intros Hd Hs Hc Hl. change (195 :: ?x) with ([192 + 3] ++ x). unfold rdbGenericLoadStringObject.
  eapply loads_string_bind; [apply loads_code; lia|by apply fails_ret|]. cbv beta iota zeta. change ((3 =? RDB_ENC_INT8) || (3 =? RDB_ENC_INT16) || (3 =? RDB_ENC_INT32)) with false.
  change (3 =? RDB_ENC_LZF) with true. cbv iota. unfold rdbLoadLzfStringObject.
  eapply loads_string_bind; [apply loads_len; lia|apply fails_ret; done|]. cbv beta iota zeta. rewrite len_not_err by lia.
  eapply loads_string_bind; [apply loads_len; lia|apply fails_ret; done|]. cbv beta iota zeta. rewrite len_not_err by lia.
  assert (c <> []) as Hc0 by (by eapply decodes_nonempty).
  rewrite <- (app_nil_r c) at 2. apply loads_string_read; [by rewrite Nat2Z.id|done|done|]. cbv beta iota zeta.
  rewrite !u32_small, !Nat2Z.id, firstn_all by lia. unfold loads_string.
  assert (s ++ drop (length s) (zmalloc (Z.of_nat (length s))) = s) as Hz.
  { pose proof (zmalloc_size (Z.of_nat (length s)) ltac:(lia)). rewrite drop_ge by lia. apply app_nil_r. }
  destruct (loaded_form flags s (ObjRaw s) eq_refl) as [Hb Ha]. eexists. split_and!; [|exact Hb|exact Ha].
  eapply loads_liftO; [by apply decodes_decompress|]. cbv beta iota zeta. rewrite Hz. apply loads_ret.
Qed.

Lemma loads_raw_string flags s :
  Z.of_nat (length s) < 2 ^ 31 ->
  loads_string (rdbGenericLoadStringObject cfg zmalloc flags) flags (enc_len (Z.of_nat (length s)) ++ s) s.
Proof.
  intros Hl. unfold rdbGenericLoadStringObject. eapply loads_string_bind; [apply loads_len; lia|by apply fails_ret|]. cbv beta iota zeta.
  rewrite len_not_err by lia. unfold loads_string.
  destruct (loaded_form flags s (if flag flags RDB_LOAD_ENC then createStringObject s else ObjRaw s)) as [Hb Ha].
  { destruct (flag flags RDB_LOAD_ENC); [|done]. unfold createStringObject. by destruct (_ <=? _). }
  eexists. split_and!; [|exact Hb|exact Ha]. destruct (Z.eqb_spec (Z.of_nat (length s)) 0) as [E|E].
  - assert (s = []) as -> by (destruct s; [done|simpl in E; lia]). apply loads_ret.
  - rewrite <- (app_nil_r s) at 2. eapply loads_eq; [apply loads_read_then; [by rewrite Nat2Z.id|by destruct s|done|apply loads_ret]|done|done].
Qed.

(** Every encoding of a string is read back, whatever form is asked for. *)
Lemma loads_wire flags s bs :
  string_wire s bs -> Z.of_nat (length s) < 2 ^ 31 ->
  loads_string (rdbGenericLoadStringObject cfg zmalloc flags) flags bs s.
Proof.
  intros [v -> Hv|c Hd Hs Hc|] Hl; [by apply loads_integer|by apply loads_lzf|by apply loads_raw_string].
Qed.
End LoadStrings.

(** ** Objects, times and numbers *)

(** A string object whose parts are in range. *)
Definition obj_ok (o : string_obj) : Prop :=
  match o with
  | ObjInt _ v => LLONG_MIN <= v <= LLONG_MAX
  | ObjEmbstr bs | ObjRaw bs => Z.of_nat (length bs) < 2 ^ 31
  end.

Lemma obj_bytes_length o : obj_ok o -> Z.of_nat (length (obj_bytes o)) < 2 ^ 31.
Proof. destruct o as [sh v|bs|bs]; simpl; [|done..]. intros Hv. pose proof (decimal_length v Hv). lia. Qed.

Section SaveObjects.
Context {St : Type} `{BackendLaws St} `{Host}.
Context (htab0 : Z -> Z) (htab0_range : forall i, 0 <= htab0 i < 2 ^ 32) (cfg : config).

Lemma saves_longlong v :
  LLONG_MIN <= v <= LLONG_MAX ->
  exists bs, string_wire (decimal v) bs /\ saves (rdbSaveLongLongAsStringObject v) bs (Z.of_nat (length bs)).
Proof.
  intros Hv. unfold rdbSaveLongLongAsStringObject. rewrite rdbEncodeInteger_eq. pose proof (decimal_length v Hv) as Hl.
  destruct (_ && _) eqn:E.
  - apply andb_true_iff in E as [? ?]. breflect. exists (enc_int v). split; [by apply wire_int|]. pose proof (enc_int_length v).
    rewrite bool_decide_eq_true_2 by (intros E; rewrite E in *; simpl in *; lia). apply saves_raw. lia.
  - exists (enc_len (Z.of_nat (length (decimal v))) ++ decimal v). split; [apply wire_raw|]. rewrite bool_decide_eq_false_2 by auto.
    eapply saves_liftO; [apply ll2string_ok; [done|simpl; lia]|]. cbv beta iota.
    eapply saves_liftO; [by rewrite (proj2 (Z.ltb_lt _ _)) by lia|].
    eapply saves_bind; [apply saves_len; lia|lia|].
    eapply saves_liftO; [exact (mread_app [] (decimal v) _ 0 _ eq_refl eq_refl)|].
    eapply saves_eq; [eapply saves_bind; [apply saves_raw; lia|lia|apply saves_ret]|apply app_nil_r|rewrite length_app; lia].
Qed.

Lemma saves_object o :
  obj_ok o -> exists bs, string_wire (obj_bytes o) bs /\ saves (rdbSaveStringObject htab0 cfg o) bs (Z.of_nat (length bs)).
Proof. destruct o as [sh v|s|s]; simpl; [apply saves_longlong|by apply saves_string..]. Qed.

(** Fixed size values are written least significant byte first on every host. *)
Lemma saves_time t : saves (rdbSaveMillisecondTime t) (le_bytes 8 t) 8.
Proof. eapply saves_liftO; [apply store64ifbe|]. eapply saves_eq; [apply saves_raw; rewrite length_le_bytes; lia|done|by rewrite length_le_bytes]. Qed.
Lemma saves_double t : saves (rdbSaveBinaryDoubleValue t) (le_bytes 8 t) 8.
Proof. exact (saves_time t). Qed.
Lemma saves_float t : saves (rdbSaveBinaryFloatValue t) (le_bytes 4 t) 4.
Proof. eapply saves_liftO; [apply store32ifbe|]. eapply saves_eq; [apply saves_raw; rewrite length_le_bytes; lia|done|by rewrite length_le_bytes]. Qed.
Lemma saves_type t : saves (rdbSaveType t) [u8 t] 1.
Proof. apply saves_raw. simpl. lia. Qed.
End SaveObjects.

Section LoadValues.
Context {St : Type} `{BackendLaws St} `{Host}.

Lemma le_bytes_nonempty n v : (0 < n)%nat -> le_bytes n v <> [].
Proof. by destruct n; [lia|]. Qed.

Lemma loads_rdbLoadRaw p : p <> [] -> loads (rdbLoadRaw (length p)) p p Exit.
Proof.
  intros Hp. unfold rdbLoadRaw. rewrite <- (app_nil_r p) at 2. eapply loads_bind; [by apply loads_read| |apply loads_ret].
  intros r. by exists r.
Qed.

Lemma loads_time t ver : 9 <= ver -> - 2 ^ 63 <= t < 2 ^ 63 -> loads (rdbLoadMillisecondTime ver) (le_bytes 8 t) t Exit.
Proof.
  intros Hver Ht. unfold rdbLoadMillisecondTime. rewrite <- (app_nil_r (le_bytes 8 t)). eapply loads_bind.
  - pose proof (loads_rdbLoadRaw (le_bytes 8 t) (le_bytes_nonempty 8 t ltac:(lia))) as Hr. by rewrite length_le_bytes in Hr.
  - intros r. by exists r.
  - rewrite Z.geb_leb. destruct (Z.leb_spec 9 ver); [|lia]. pose proof (load64ifbe (le_bytes 8 t) (length_le_bytes 8 t)) as Hb.
    destruct (memrev64ifbe (le_bytes 8 t)) as [bs|] eqn:E; [|done]. apply (inj Some) in Hb. eapply loads_liftO; [done|].
    rewrite Hb. eapply loads_eq; [apply loads_ret|done|]. apply sN_le_bytes; [lia|simpl; lia].
Qed.

Lemma loads_double t : 0 <= t < 2 ^ 64 -> loads rdbLoadBinaryDoubleValue (le_bytes 8 t) (Some t) (Ret None).
Proof.
  intros Ht. unfold rdbLoadBinaryDoubleValue. rewrite <- (app_nil_r (le_bytes 8 t)). apply loads_read_then; [done|done|done|].
  pose proof (load64ifbe (le_bytes 8 t) (length_le_bytes 8 t)) as Hb. destruct (memrev64ifbe (le_bytes 8 t)) as [bs|] eqn:E; [|done].
  apply (inj Some) in Hb. eapply loads_liftO; [done|]. rewrite Hb, le_val_bytes. eapply loads_eq; [apply loads_ret|done|]. f_equal. by apply Z.mod_small.
Qed.

Lemma loads_float t : 0 <= t < 2 ^ 32 -> loads rdbLoadBinaryFloatValue (le_bytes 4 t) (Some t) (Ret None).
Proof.
  intros Ht. unfold rdbLoadBinaryFloatValue. rewrite <- (app_nil_r (le_bytes 4 t)). apply loads_read_then; [done|done|done|].
  pose proof (load32ifbe (le_bytes 4 t) (length_le_bytes 4 t)) as Hb. destruct (memrev32ifbe (le_bytes 4 t)) as [bs|] eqn:E; [|done].
  apply (inj Some) in Hb. eapply loads_liftO; [done|]. rewrite Hb, le_val_bytes. eapply loads_eq; [apply loads_ret|done|]. f_equal. by apply Z.mod_small.
Qed.

Lemma loads_type t : loads rdbLoadType [u8 t] (u8 t) (Ret (-1)).
Proof. unfold rdbLoadType. change [u8 t] with ([u8 t] ++ []). apply loads_read_then; [done..|]. apply loads_ret. Qed.
End LoadValues.

(** *** Invalid input *)

Section Corrupt.
Context {St : Type} `{BackendLaws St} `{Host}.
Context (cfg : config) (zmalloc : Z -> list Z).

Lemma read_first (r : rio St) b tl :
  0 <= max_processing_chunk r -> readable (io r) -> rest (io r) = b :: tl ->
  exists r', rioRead 1 r = Some (Ret (Some [b]), r').
Proof.
  intros Hm Hr Hb. destruct (rioRead_spec r 1 Hm Hr) as (r' & res & Hres & Hc). rewrite Hb in Hc. simpl in Hc. destruct Hc as [-> _]. by exists r'.
Qed.

(** A first byte that is no length ends the process. *)
Lemma load_len_corrupt r b tl :
  0 <= max_processing_chunk r -> readable (io r) -> rest (io r) = b :: tl -> 130 <= b < 192 ->
  exists r', rdbLoadLen r = Some (Exit, r') /\ rdbLoadLenByRef r = Some (Exit, r').
Proof.
  intros Hm Hr Hb Hc. destruct (read_first r b tl Hm Hr Hb) as (r' & Hrd). exists r'.
  assert (rdbLoadLenByRef r = Some (Exit, r')) as E; [|split; [|done]; unfold rdbLoadLen, mbind, IO_bind; by rewrite E].
  unfold rdbLoadLenByRef, mbind, IO_bind. rewrite Hrd. cbn [mbind option_bind]. rewrite len_type.
  assert (b / 64 = 2) as -> by (symmetry; apply Z.div_unique with (b - 128); lia). change (2 mod 4) with 2. cbn [Z.eqb Pos.eqb].
  change (2 =? RDB_ENCVAL) with false. change (2 =? RDB_6BITLEN) with false. change (2 =? RDB_14BITLEN) with false. cbv iota.
  unfold RDB_32BITLEN, RDB_64BITLEN. destruct (Z.eqb_spec b 128); [lia|]. destruct (Z.eqb_spec b 129); [lia|]. done.
Qed.

(** So does an unknown encoding of a string. *)
Lemma load_string_corrupt r b tl flags :
  0 <= max_processing_chunk r -> readable (io r) -> rest (io r) = b :: tl -> 130 <= b < 192 \/ 196 <= b < 256 ->
  exists r', rdbGenericLoadStringObject cfg zmalloc flags r = Some (Exit, r').
Proof.
  intros Hm Hr Hb [Hc|Hc].
  - destruct (load_len_corrupt r b tl Hm Hr Hb Hc) as (r' & E & _). exists r'. unfold rdbGenericLoadStringObject, mbind, IO_bind. by rewrite E.
  - destruct (loads_code (b - 192) ltac:(lia) r Hm Hr) as [Hok _]. destruct (Hok tl) as (r' & E & _).
    { rewrite Hb. cbn [app]. f_equal. lia. }
    exists r'. unfold rdbGenericLoadStringObject, mbind, IO_bind. rewrite E. cbn [mbind option_bind].
    unfold RDB_ENC_INT8, RDB_ENC_INT16, RDB_ENC_INT32, RDB_ENC_LZF.
    destruct (Z.eqb_spec (b - 192) 0); [lia|]. destruct (Z.eqb_spec (b - 192) 1); [lia|]. destruct (Z.eqb_spec (b - 192) 2); [lia|].
    destruct (Z.eqb_spec (b - 192) 3); [lia|]. reflexivity.
Qed.
End Corrupt.

(** ** Properties *)

(** C27: a string object saved to any stream with room for it, on a host of either
    byte order, with or without compression, integers included, is read back by
    rdbGenericLoadStringObject from any stream and on any host with the same bytes,
    in the form the flags ask for, and exactly the bytes written are read; without
    a stream the number of bytes is returned as well. *)
Theorem rdb_string_roundtrip {Sw Sr : Type} `{BackendLaws Sw} `{BackendLaws Sr} (hw hr : Host)
    htab0 zmalloc cfg cfg' o flags :
  (forall i, 0 <= htab0 i < 2 ^ 32) -> (forall n, 0 <= n -> Z.of_nat (length (zmalloc n)) = n) -> obj_ok o ->
  exists bs l,
    rdbSaveStringObject (St := Sw) (H0 := hw) htab0 cfg o None = Some (Ret (Z.of_nat (length bs)), None) /\
    (forall w : rio Sw, 0 <= max_processing_chunk w -> accepts (io w) (length bs) = true ->
       exists w', rdbSaveStringObject (H0 := hw) htab0 cfg o (Some w) = Some (Ret (Z.of_nat (length bs)), Some w') /\ wrote w bs w') /\
    (forall (r : rio Sr) tl, 0 <= max_processing_chunk r -> readable (io r) -> rest (io r) = bs ++ tl ->
       exists r', rdbGenericLoadStringObject (H0 := hr) cfg' zmalloc flags r = Some (Ret (Some l), r') /\ rest (io r') = tl) /\
    loaded_bytes l = obj_bytes o /\ loaded_as flags l.
Proof.
  intros Ht Hz Ho. destruct (saves_object (St := Sw) (H1 := hw) htab0 Ht cfg o Ho) as (bs & Hw & Hnone & Hsave).
  destruct (loads_wire (St := Sr) (H1 := hr) cfg' zmalloc Hz flags _ bs Hw (obj_bytes_length o Ho)) as (l & Hload & Hb & Ha).
  exists bs, l. split_and!; [exact Hnone| | |done|done].
  - intros w Hm Hacc. destruct (Hsave w Hm) as (w' & Hx). rewrite Hacc in Hx. by exists w'.
  - intros r tl Hm Hr Hrest. destruct (Hload r Hm Hr) as [Hok _]. destruct (Hok tl Hrest) as (r' & E & (_ & Hc & _)).
    exists r'. split; [exact E|]. rewrite Hrest in Hc. by apply app_inv_head in Hc.
Qed.

(** C31: errors of the dump format: saving an object to a stream without room for
    all of it returns -1; loading from a stream that ends anywhere inside a saved
    string returns NULL; a byte that is no length or no known encoding ends the
    process instead of being read as data. *)
Theorem rdb_errors {Sw Sr : Type} `{BackendLaws Sw} `{BackendLaws Sr} (hw hr : Host) htab0 zmalloc cfg cfg' o flags :
  (forall i, 0 <= htab0 i < 2 ^ 32) -> (forall n, 0 <= n -> Z.of_nat (length (zmalloc n)) = n) -> obj_ok o ->
  exists bs, rdbSaveStringObject (St := Sw) (H0 := hw) htab0 cfg o None = Some (Ret (Z.of_nat (length bs)), None) /\
    (forall w : rio Sw, 0 <= max_processing_chunk w -> accepts (io w) (length bs) = false ->
       exists w', rdbSaveStringObject (H0 := hw) htab0 cfg o (Some w) = Some (Ret (-1), Some w')) /\
    (forall (r : rio Sr) cut, 0 <= max_processing_chunk r -> readable (io r) -> cut <> [] -> bs = rest (io r) ++ cut ->
       exists r', rdbGenericLoadStringObject (H0 := hr) cfg' zmalloc flags r = Some (Ret None, r')) /\
    (forall (r : rio Sr) b tl, 0 <= max_processing_chunk r -> readable (io r) -> rest (io r) = b :: tl ->
       130 <= b < 192 \/ 196 <= b < 256 ->
       exists r', rdbGenericLoadStringObject (H0 := hr) cfg' zmalloc flags r = Some (Exit, r')).
Proof.
  intros Ht Hz Ho. destruct (saves_object (St := Sw) (H1 := hw) htab0 Ht cfg o Ho) as (bs & Hw & Hnone & Hsave).
  destruct (loads_wire (St := Sr) (H1 := hr) cfg' zmalloc Hz flags _ bs Hw (obj_bytes_length o Ho)) as (l & Hload & Hb & Ha).
  exists bs. split_and!; [exact Hnone| | |].
  - intros w Hm Hacc. destruct (Hsave w Hm) as (w' & Hx). rewrite Hacc in Hx. by exists w'.
  - intros r cut Hm Hr Hcut E. destruct (Hload r Hm Hr) as [_ Hshort]. by apply (Hshort cut).
  - intros r b tl. apply load_string_corrupt.
Qed.

(** Lengths of 64 bits are written in 1, 2, 5 or 9 bytes and read back on any
    host; times of 64 bits, doubles and floats are written in the same bytes on
    every host and read back. *)
Theorem rdb_values_roundtrip {Sw Sr : Type} `{BackendLaws Sw} `{BackendLaws Sr} (hw hr : Host) n t d f :
  0 <= n < 2 ^ 64 -> - 2 ^ 63 <= t < 2 ^ 63 -> 0 <= d < 2 ^ 64 -> 0 <= f < 2 ^ 32 ->
  (exists bs : list Z, Z.of_nat (length bs) = (if n <? 2 ^ 6 then 1 else if n <? 2 ^ 14 then 2 else if n <? 2 ^ 32 then 5 else 9) /\
     saves (St := Sw) (rdbSaveLen (H0 := hw) n) bs (Z.of_nat (length bs)) /\
     loads (St := Sr) (rdbLoadLenByRef (H0 := hr)) bs (Some (false, n)) (Ret None)) /\
  (exists bs, saves (St := Sw) (rdbSaveMillisecondTime (H0 := hw) t) bs 8 /\ loads (St := Sr) (rdbLoadMillisecondTime (H0 := hr) 9) bs t Exit) /\
  (exists bs, saves (St := Sw) (rdbSaveBinaryDoubleValue (H0 := hw) d) bs 8 /\ loads (St := Sr) (rdbLoadBinaryDoubleValue (H0 := hr)) bs (Some d) (Ret None)) /\
  (exists bs, saves (St := Sw) (rdbSaveBinaryFloatValue (H0 := hw) f) bs 4 /\ loads (St := Sr) (rdbLoadBinaryFloatValue (H0 := hr)) bs (Some f) (Ret None)).
Proof.
  intros Hn Ht Hd Hf. split_and!.
  - exists (enc_len n). split_and!; [|by apply saves_len|by apply loads_lenref]. unfold enc_len. repeat bdestr1; simpl; rewrite ?be_bytes_eq; done.
  - exists (le_bytes 8 t). split; [apply saves_time|by apply loads_time].
  - exists (le_bytes 8 d). split; [apply saves_double|by apply loads_double].
  - exists (le_bytes 4 f). split; [apply saves_float|by apply loads_float].
Qed.

(** *** Concrete dumps *)

Definition demo_malloc (n : Z) : list Z := replicate (Z.to_nat n) 170.
Lemma demo_malloc_size n : 0 <= n -> Z.of_nat (length (demo_malloc n)) = n.
Proof. intros Hn. unfold demo_malloc. rewrite length_replicate. lia. Qed.
Definition demo_file : rio file := mk_rio (mk_file [] [] 100 0 0 4096) true 0 0 7.
Definition le_machine : Host := {| big_endian := false |}.
Definition be_machine : Host := {| big_endian := true |}.

(** Forty equal characters, compressed on a big endian host into a file, and read
    from a buffer on a little endian one. *)
Definition demo_obj : string_obj := ObjRaw (replicate 40 97).

Lemma rdb_string_roundtrip_witness :
  exists bs l,
    rdbSaveStringObject (St := file) (H0 := be_machine) (fun i => i mod 100) (mk_config true false) demo_obj None = Some (Ret (Z.of_nat (length bs)), None) /\
    (exists w', rdbSaveStringObject (H0 := be_machine) (fun i => i mod 100) (mk_config true false) demo_obj (Some demo_file) =
       Some (Ret (Z.of_nat (length bs)), Some w') /\ wrote demo_file bs w') /\
    (exists r', rdbGenericLoadStringObject (H0 := le_machine) (mk_config false false) demo_malloc RDB_LOAD_ENC (rioInitWithBuffer (bs ++ [255])) =
       Some (Ret (Some l), r') /\ rest (io r') = [255]) /\
    loaded_bytes l = replicate 40 97.
Proof.
  destruct (rdb_string_roundtrip (Sw := file) (Sr := buffer) be_machine le_machine (fun i => i mod 100) demo_malloc (mk_config true false) (mk_config false false)
    demo_obj RDB_LOAD_ENC) as (bs & l & Hn & Hw & Hr & Hb & _).
  - intros i. pose proof (Z.mod_pos_bound i 100). lia.
  - exact demo_malloc_size.
  - vm_compute. reflexivity.
  - assert (length bs = 12%nat) as Hl.
    { apply Nat2Z.inj. assert (Some (Ret (Z.of_nat (length bs)), @None (rio file)) = Some (Ret 12, None)) as E by (rewrite <- Hn; vm_compute; reflexivity). by injection E. }
    exists bs, l. split; [exact Hn|]. split; [|split; [|exact Hb]].
    + apply Hw; [discriminate|]. rewrite Hl. reflexivity.
    + apply Hr; [discriminate| |reflexivity]. simpl. rewrite length_app, Hl. simpl. split; lia.
Defined.

Lemma rdb_errors_witness :
  exists (bs : list Z) w' r',
    rdbSaveStringObject (St := file) (H0 := le_machine) (fun i => 0) (mk_config true false) (ObjInt true 300) None = Some (Ret (Z.of_nat (length bs)), None) /\
    rdbSaveStringObject (H0 := le_machine) (fun i => 0) (mk_config true false) (ObjInt true 300) (Some (rioInitWithFile (mk_file [] [] 2 0 0 0))) = Some (Ret (-1), Some w') /\
    rdbGenericLoadStringObject (H0 := be_machine) (mk_config true false) demo_malloc 0 (rioInitWithBuffer [200; 1]) = Some (Exit, r').
Proof.
  destruct (rdb_errors (Sw := file) (Sr := buffer) le_machine be_machine (fun i => 0) demo_malloc (mk_config true false) (mk_config true false) (ObjInt true 300) 0)
    as (bs & Hn & Hw & _ & Hx).
  - intros i. lia.
  - exact demo_malloc_size.
  - split; discriminate.
  - assert (length bs = 3%nat) as Hl.
    { apply Nat2Z.inj. assert (Some (Ret (Z.of_nat (length bs)), @None (rio file)) = Some (Ret 3, None)) as E by (rewrite <- Hn; vm_compute; reflexivity). by injection E. }
    destruct (Hw (rioInitWithFile (mk_file [] [] 2 0 0 0))) as (w' & Hw'); [discriminate|rewrite Hl; reflexivity|].
    destruct (Hx (rioInitWithBuffer [200; 1]) 200 [1]) as (r' & Hr'); [discriminate|split; [vm_compute; lia|reflexivity]|reflexivity|right; lia|].
    exists bs, w', r'. split; [exact Hn|]. split; [exact Hw'|exact Hr'].
Defined.

Lemma rdb_values_roundtrip_witness :
  exists bs : list Z, saves (St := file) (rdbSaveLen (H0 := be_machine) 20000) bs 5 /\ loads (St := buffer) (rdbLoadLenByRef (H0 := le_machine)) bs (Some (false, 20000)) (Ret None).
Proof.
  destruct (rdb_values_roundtrip (Sw := file) (Sr := buffer) be_machine le_machine 20000 0 0 0) as ((bs & Hl & Hs & Hld) & _); [lia..|].
  exists bs. rewrite Hl in Hs. split; [exact Hs|exact Hld].
Defined.
