(* ===== verification/Reply.v ===== *)
(** * Client output buffers (src/redis-stable/src/networking.c)

    The reply of a command is queued in the output buffer of the client: a
    static array first, then a list of blocks with room left at their ends, with
    placeholders for array lengths that are not known yet.  The event loop sends
    it in as many writes as the socket needs.  Operations are computations on the
    client and the lists of the server it is a member of; no result means a failed
    assertion, an access outside an array or undefined behaviour.  A block holds
    the bytes in use; a node of the reply list is named by its position, which
    stays valid because only later nodes are removed while a placeholder is open. *)
From stdpp Require Import prelude list list_numbers strings.
From Stdlib Require Import ZArith Lia.
From S2P Require Import Prelude Util SdsText Rio Rdb.

Local Open Scope Z_scope.
Local Open Scope redis_scope.

(** ** The model *)

(** *** Data *)

(** Bytes of a C string literal. *)
Definition str (s : string) : list Z := (fun a => Z.of_N (Ascii.N_of_ascii a)) <$> String.list_ascii_of_string s.
Arguments str s%_string.
Definition crlf : list Z := [13; 10].
Abbreviation zlen l := (Z.of_nat (length l)).

Definition CLIENT_SLAVE : Z := 2 ^ 0.
Definition CLIENT_MASTER : Z := 2 ^ 1.
Definition CLIENT_MONITOR : Z := 2 ^ 2.
Definition CLIENT_MULTI : Z := 2 ^ 3.
Definition CLIENT_BLOCKED : Z := 2 ^ 4.
Definition CLIENT_CLOSE_AFTER_REPLY : Z := 2 ^ 6.
Definition CLIENT_LUA : Z := 2 ^ 8.
Definition CLIENT_ASKING : Z := 2 ^ 9.
Definition CLIENT_CLOSE_ASAP : Z := 2 ^ 10.
Definition CLIENT_MASTER_FORCE_REPLY : Z := 2 ^ 13.
Definition CLIENT_PUBSUB : Z := 2 ^ 18.
Definition CLIENT_PENDING_WRITE : Z := 2 ^ 21.
Definition CLIENT_REPLY_OFF : Z := 2 ^ 22.
Definition CLIENT_REPLY_SKIP_NEXT : Z := 2 ^ 23.
Definition CLIENT_REPLY_SKIP : Z := 2 ^ 24.
Definition CLIENT_MODULE : Z := 2 ^ 27.

Definition CLIENT_TYPE_NORMAL : Z := 0.
Definition CLIENT_TYPE_SLAVE : Z := 1.
Definition CLIENT_TYPE_PUBSUB : Z := 2.
Definition CLIENT_TYPE_MASTER : Z := 3.

Definition REPL_STATE_NONE : Z := 0.
Definition SLAVE_STATE_ONLINE : Z := 9.
Definition PROTO_REPLY_CHUNK_BYTES : Z := 16 * 1024.
Definition NET_MAX_WRITES_PER_EVENT : Z := 1024 * 64.
Definition OBJ_SHARED_BULKHDR_LEN : Z := 32.

(** sizeof(clientReplyBlock), sizeof(listNode) *)
Definition sizeof_block : Z := 16.
Definition sizeof_listNode : Z := 24.

(** The bytes in use and the size of the array. *)
Record clientReplyBlock := mk_block { size : Z; bytes : list Z }.
Definition used (b : clientReplyBlock) : Z := zlen (bytes b).

(** The members of struct client that the output uses; [buf] holds the [bufpos] bytes
    in use of the static array. *)
Record client := mk_client {
  id : Z; fd : Z; flags : Z; replstate : Z; repl_put_online_on_ack : bool;
  buf : list Z; sentlen : Z; reply : list (option clientReplyBlock); reply_bytes : Z;
  obuf_soft_limit_reached_time : Z; lastinteraction : Z }.

(** The members of struct redisServer that the output changes. *)
Record server := mk_server { clients_pending_write : list Z; clients_to_close : list Z; stat_net_output_bytes : Z }.

Record clientBufferLimitsConfig := mk_limits { hard_limit_bytes : Z; soft_limit_bytes : Z; soft_limit_seconds : Z }.

(** What the output reads of the rest of the server: the clock, the settings, the
    memory in use and the size the allocator really gives to a request. *)
Record env := mk_env {
  unixtime : Z; client_obuf_limits : list clientBufferLimitsConfig; maxmemory : Z;
  zmalloc_used_memory : client -> Z; usable : Z -> Z }.

Definition with_flags (f : Z) (c : client) : client :=
  mk_client (id c) (fd c) f (replstate c) (repl_put_online_on_ack c) (buf c) (sentlen c) (reply c) (reply_bytes c)
    (obuf_soft_limit_reached_time c) (lastinteraction c).
Definition with_buf (b : list Z) (n : Z) (c : client) : client :=
  mk_client (id c) (fd c) (flags c) (replstate c) (repl_put_online_on_ack c) b n (reply c) (reply_bytes c)
    (obuf_soft_limit_reached_time c) (lastinteraction c).
Definition with_reply (r : list (option clientReplyBlock)) (n sent : Z) (c : client) : client :=
  mk_client (id c) (fd c) (flags c) (replstate c) (repl_put_online_on_ack c) (buf c) sent r n
    (obuf_soft_limit_reached_time c) (lastinteraction c).
Definition with_times (soft last : Z) (c : client) : client :=
  mk_client (id c) (fd c) (flags c) (replstate c) (repl_put_online_on_ack c) (buf c) (sentlen c) (reply c) (reply_bytes c)
    soft last.

(** *** Computations on a client and its server *)

Definition M (A : Type) : Type := server * client -> option (A * (server * client)).
#[global] Instance M_ret : MRet M := fun A a s => Some (a, s).
#[global] Instance M_bind : MBind M := fun A B f m s => '(a, s) ← m s; f a s.
Definition get : M client := fun s => Some (s.2, s).
Definition modify (f : client -> client) : M () := fun s => Some ((), (s.1, f s.2)).
Definition on_server (f : server -> server) : M () := fun s => Some ((), (f s.1, s.2)).
Definition lift {A} (o : option A) : M A := fun s => a ← o; Some (a, s).

(** flags & mask *)
Definition has (f mask : Z) : bool := negb (Z.land f mask =? 0).

(** *** Scheduling *)

Definition clientHasPendingReplies (c : client) : bool :=
  negb (bool_decide (buf c = [])) || negb (bool_decide (reply c = [])).

Definition clientInstallWriteHandler : M () :=
  c ← get;
  if negb (has (flags c) CLIENT_PENDING_WRITE) &&
     ((replstate c =? REPL_STATE_NONE) || ((replstate c =? SLAVE_STATE_ONLINE) && negb (repl_put_online_on_ack c)))
  then
    modify (with_flags (Z.lor (flags c) CLIENT_PENDING_WRITE)) ;;
    on_server (fun s => mk_server (id c :: clients_pending_write s) (clients_to_close s) (stat_net_output_bytes s))
  else mret ().

(** True is C_OK. *)
Definition prepareClientToWrite : M bool :=
  c ← get;
  if has (flags c) (Z.lor CLIENT_LUA CLIENT_MODULE) then mret true
  else if has (flags c) (Z.lor CLIENT_REPLY_OFF CLIENT_REPLY_SKIP) then mret false
  else if has (flags c) CLIENT_MASTER && negb (has (flags c) CLIENT_MASTER_FORCE_REPLY) then mret false
  else if fd c <=? 0 then mret false
  else
    (if negb (clientHasPendingReplies c) then clientInstallWriteHandler else mret ()) ;;
    mret true.

Definition freeClientAsync : M () :=
  c ← get;
  if has (flags c) CLIENT_CLOSE_ASAP || has (flags c) CLIENT_LUA then mret () else
  modify (with_flags (Z.lor (flags c) CLIENT_CLOSE_ASAP)) ;;
  on_server (fun s => mk_server (clients_pending_write s) (clients_to_close s ++ [id c]) (stat_net_output_bytes s)).

(** *** Limits of the output buffer *)

Definition getClientOutputBufferMemoryUsage (c : client) : Z :=
  let list_item_size := sizeof_listNode + sizeof_block in
  u64 (reply_bytes c + list_item_size * zlen (reply c)).

Definition getClientType (c : client) : Z :=
  if has (flags c) CLIENT_MASTER then CLIENT_TYPE_MASTER
  else if has (flags c) CLIENT_SLAVE && negb (has (flags c) CLIENT_MONITOR) then CLIENT_TYPE_SLAVE
  else if has (flags c) CLIENT_PUBSUB then CLIENT_TYPE_PUBSUB
  else CLIENT_TYPE_NORMAL.

Section Output.
Context (e : env).

Definition checkClientOutputBufferLimits : M bool :=
  c ← get;
  let used_mem := getClientOutputBufferMemoryUsage c in
  let class := getClientType c in
  let class := if class =? CLIENT_TYPE_MASTER then CLIENT_TYPE_NORMAL else class in
  l ← lift (client_obuf_limits e !! Z.to_nat class);
  let hard := negb (hard_limit_bytes l =? 0) && (hard_limit_bytes l <=? used_mem) in
  let soft := negb (soft_limit_bytes l =? 0) && (soft_limit_bytes l <=? used_mem) in
  soft ← (if soft then
            if obuf_soft_limit_reached_time c =? 0 then
              modify (with_times (unixtime e) (lastinteraction c)) ;; mret false
            else
              let elapsed := unixtime e - obuf_soft_limit_reached_time c in
              mret (negb (elapsed <=? soft_limit_seconds l))
          else modify (with_times 0 (lastinteraction c)) ;; mret false);
  mret (soft || hard).

Definition SIZE_MAX : Z := 2 ^ 64 - 1.

Definition asyncCloseClientOnOutputBufferLimitReached : M () :=
  c ← get;
  if fd c =? -1 then mret () else
  lift (assert! (reply_bytes c <? SIZE_MAX - 1024 * 64) ;; Some ()) ;;
  if (reply_bytes c =? 0) || has (flags c) CLIENT_CLOSE_ASAP then mret () else
  b ← checkClientOutputBufferLimits;
  if b : bool then freeClientAsync else mret ().

(** *** Queueing bytes *)

(** True is C_OK. *)
Definition _addReplyToBuffer (s : list Z) : M bool :=
  c ← get;
  let available := u64 (PROTO_REPLY_CHUNK_BYTES - zlen (buf c)) in
  if has (flags c) CLIENT_CLOSE_AFTER_REPLY then mret true
  else if 0 <? zlen (reply c) then mret false
  else if available <? zlen s then mret false
  else
    lift (assert! (zlen (buf c) + zlen s <=? PROTO_REPLY_CHUNK_BYTES) ;; Some ()) ;;
    modify (with_buf (buf c ++ s) (sentlen c)) ;;
    mret true.

(** memcpy(b->buf + b->used, s, len); b->used += len *)
Definition block_append (b : clientReplyBlock) (s : list Z) : option clientReplyBlock :=
  assert! (used b + zlen s <=? size b) ;; Some (mk_block (size b) (bytes b ++ s)).

(** A new block for a request of n bytes that holds s. *)
Definition block_new (n : Z) (s : list Z) : option clientReplyBlock :=
  block_append (mk_block (u64 (usable e (n + sizeof_block) - sizeof_block)) []) s.

Definition _addReplyStringToList (s : list Z) : M () :=
  c ← get;
  if has (flags c) CLIENT_CLOSE_AFTER_REPLY then mret () else
  s ← match last (reply c) with
      | Some (Some tail) =>
        let avail := u64 (size tail - used tail) in
        let copy := if zlen s <=? avail then zlen s else avail in
        tail ← lift (block_append tail (take (Z.to_nat copy) s));
        modify (fun c => with_reply (<[(length (reply c) - 1)%nat := Some tail]> (reply c)) (reply_bytes c) (sentlen c) c) ;;
        mret (drop (Z.to_nat copy) s)
      | _ => mret s
      end;
  (if 0 <? zlen s then
     let size_ := if zlen s <? PROTO_REPLY_CHUNK_BYTES then PROTO_REPLY_CHUNK_BYTES else zlen s in
     tail ← lift (block_new size_ s);
     modify (fun c => with_reply (reply c ++ [Some tail]) (u64 (reply_bytes c + size tail)) (sentlen c) c)
   else mret ()) ;;
  asyncCloseClientOnOutputBufferLimitReached.

(** The test and the two calls all functions below end in. *)
Definition addReplyString (s : list Z) : M () :=
  ok ← prepareClientToWrite;
  if negb ok then mret () else
  ok ← _addReplyToBuffer s;
  if negb ok then _addReplyStringToList s else mret ().

Definition addReplySds (s : list Z) : M () := addReplyString s.

Definition addReply (obj : string_obj) : M () :=
  ok ← prepareClientToWrite;
  if negb ok then mret () else
  s ← match obj with
      | ObjEmbstr s | ObjRaw s => mret s
      | ObjInt _ v =>
        '(buf, len) ← lift (ll2string (replicate 32 0) 32 v);
        mret (take (Z.to_nat len) buf)
      end;
  ok ← _addReplyToBuffer s;
  if negb ok then _addReplyStringToList s else mret ().

(** *** Replies *)

Definition addReplyErrorLength (s : list Z) : M () :=
  (if bool_decide (head s = Some 45) then mret () else addReplyString (str "-ERR ")) ;;
  addReplyString s ;;
  addReplyString crlf.
Definition addReplyError (err : list Z) : M () := addReplyErrorLength err.

(** [s] is the formatted message. *)
Definition addReplyErrorFormat (s : list Z) : M () :=
  addReplyErrorLength ((fun b => if (b =? 13) || (b =? 10) then 32 else b) <$> s).

Definition addReplyStatusLength (s : list Z) : M () :=
  addReplyString (str "+") ;;
  addReplyString s ;;
  addReplyString crlf.
Definition addReplyStatus (status : list Z) : M () := addReplyStatusLength status.

(** The shared objects of createSharedObjects. *)
Definition shared_crlf : string_obj := ObjRaw crlf.
Definition shared_czero : string_obj := ObjRaw (str ":0" ++ crlf).
Definition shared_cone : string_obj := ObjRaw (str ":1" ++ crlf).
Definition shared_nullbulk : string_obj := ObjRaw (str "$-1" ++ crlf).
Definition shared_mbulkhdr : list string_obj :=
  (fun j => ObjRaw (str "*" ++ decimal j ++ crlf)) <$> seqZ 0 OBJ_SHARED_BULKHDR_LEN.
Definition shared_bulkhdr : list string_obj :=
  (fun j => ObjRaw (str "$" ++ decimal j ++ crlf)) <$> seqZ 0 OBJ_SHARED_BULKHDR_LEN.

Definition addReplyLongLongWithPrefix (ll prefix : Z) : M () :=
  if (prefix =? 42) && (ll <? OBJ_SHARED_BULKHDR_LEN) && (0 <=? ll) then
    hdr ← lift (shared_mbulkhdr !! Z.to_nat ll); addReply hdr
  else if (prefix =? 36) && (ll <? OBJ_SHARED_BULKHDR_LEN) && (0 <=? ll) then
    hdr ← lift (shared_bulkhdr !! Z.to_nat ll); addReply hdr
  else
    '(buf, len) ← lift (ll2string (replicate 127 0) 127 ll);
    buf ← lift (mwrite (prefix :: buf) (len + 1) [13]);
    buf ← lift (mwrite buf (len + 2) [10]);
    addReplyString (take (Z.to_nat (len + 3)) buf).

Definition addReplyLongLong (ll : Z) : M () :=
  if ll =? 0 then addReply shared_czero
  else if ll =? 1 then addReply shared_cone
  else addReplyLongLongWithPrefix ll 58.

(** A negative length indexes the array of headers out of bounds. *)
Definition addReplyMultiBulkLen (length : Z) : M () :=
  if length <? OBJ_SHARED_BULKHDR_LEN then
    hdr ← lift (assert! (0 <=? length) ;; shared_mbulkhdr !! Z.to_nat length); addReply hdr
  else addReplyLongLongWithPrefix length 42.

(** while((n = n/10) != 0) len++ *)
Fixpoint radix10_len (fuel : nat) (n len : Z) : option Z :=
  match fuel with
  | O => None
  | S fuel => let n := Z.quot n 10 in if n =? 0 then Some len else radix10_len fuel n (len + 1)
  end.

(** The negation of LONG_MIN is undefined. *)
Definition addReplyBulkLen (obj : string_obj) : M () :=
  len ← match obj with
        | ObjEmbstr s | ObjRaw s => mret (zlen s)
        | ObjInt _ n =>
          lift (if n <? 0 then assert! (LONG_MIN <? n) ;; radix10_len 20 (- n) 2 else radix10_len 20 n 1)
        end;
  if len <? OBJ_SHARED_BULKHDR_LEN then hdr ← lift (shared_bulkhdr !! Z.to_nat len); addReply hdr
  else addReplyLongLongWithPrefix len 36.

Definition addReplyBulk (obj : string_obj) : M () :=
  addReplyBulkLen obj ;;
  addReply obj ;;
  addReply shared_crlf.

Definition addReplyBulkCBuffer (p : list Z) : M () :=
  addReplyLongLongWithPrefix (zlen p) 36 ;;
  addReplyString p ;;
  addReply shared_crlf.

Definition addReplyBulkSds (s : list Z) : M () :=
  addReplyLongLongWithPrefix (zlen s) 36 ;;
  addReplySds s ;;
  addReply shared_crlf.

(** None is the NULL pointer. *)
Definition addReplyBulkCString (s : option (list Z)) : M () :=
  match s with None => addReply shared_nullbulk | Some s => addReplyBulkCBuffer s end.

Definition addReplyBulkLongLong (ll : Z) : M () :=
  '(buf, len) ← lift (ll2string (replicate 64 0) 64 ll);
  addReplyBulkCBuffer (take (Z.to_nat len) buf).

(** *** Arrays whose length is not known yet *)

Definition addDeferredMultiBulkLength : M (option nat) :=
  ok ← prepareClientToWrite;
  if negb ok then mret None else
  modify (fun c => with_reply (reply c ++ [None]) (reply_bytes c) (sentlen c) c) ;;
  c ← get;
  mret (Some (length (reply c) - 1)%nat).

(** A new node for the length in place of the placeholder. *)
Definition fill_node (ln : nat) (lenstr : list Z) : M () :=
  c ← get;
  buf ← lift (block_new (zlen lenstr) lenstr);
  modify (with_reply (<[ln := Some buf]> (reply c)) (u64 (reply_bytes c + size buf)) (sentlen c)).

(** The length in front of the next node, and the placeholder removed. *)
Definition glue_node (ln : nat) (next : clientReplyBlock) (lenstr : list Z) : M () :=
  c ← get;
  lift (assert! (used next + zlen lenstr <=? size next) ;; Some ()) ;;
  modify (with_reply (delete ln (<[S ln := Some (mk_block (size next) (lenstr ++ bytes next))]> (reply c)))
                     (reply_bytes c) (sentlen c)).

Definition setDeferredMultiBulkLength (node : option nat) (length : Z) : M () :=
  let lenstr := str "*" ++ decimal length ++ crlf in
  match node with
  | None => mret ()
  | Some ln =>
    c ← get;
    lift (match reply c !! ln with Some None => Some () | _ => None end) ;;
    match reply c !! S ln with
    | Some (Some next) =>
      if (zlen lenstr <=? u64 (size next - used next)) && (used next <? PROTO_REPLY_CHUNK_BYTES * 4)
      then glue_node ln next lenstr
      else fill_node ln lenstr
    | _ => fill_node ln lenstr
    end ;;
    asyncCloseClientOnOutputBufferLimitReached
  end.

(** *** Sending *)

(** What a call of write(2) does: it takes some of the bytes, would block, or fails. *)
Inductive write_result := Wrote (n : nat) | WouldBlock | WriteError.

(** A socket: the bytes taken so far and the behaviour of the next calls; when
    nothing is said about a call it would block. *)
Record socket := mk_socket { taken : list Z; script : list write_result }.

(** write(fd, bs, len): the result, -1 with the failure of errno otherwise. *)
Definition write (bs : list Z) (sk : socket) : Z * bool * socket :=
  match script sk with
  | [] => (-1, false, sk)
  | WouldBlock :: r => (-1, false, mk_socket (taken sk) r)
  | WriteError :: r => (-1, true, mk_socket (taken sk) r)
  | Wrote n :: r => (zlen (take n bs), false, mk_socket (taken sk ++ take n bs) r)
  end.

(** One round of the loop: whether it goes on, the last result of write and its
    failure, the total, and the new states. *)
Definition round_result : Type := bool * Z * bool * Z * client * socket.

Definition write_buf (c : client) (sk : socket) (tot : Z) : round_result :=
  let '(n, err, sk) := write (drop (Z.to_nat (sentlen c)) (buf c)) sk in
  if n <=? 0 then (false, n, err, tot, c, sk) else
  let c := with_buf (buf c) (sentlen c + n) c in
  let c := if sentlen c =? zlen (buf c) then with_buf [] 0 c else c in
  (true, n, err, tot + n, c, sk).

Definition write_node (o : clientReplyBlock) (rest : list (option clientReplyBlock)) (c : client) (sk : socket) (tot : Z) : option round_result :=
  let objlen := used o in
  if objlen =? 0 then Some (true, 0, false, tot, with_reply rest (u64 (reply_bytes c - size o)) (sentlen c) c, sk) else
  let '(n, err, sk) := write (drop (Z.to_nat (sentlen c)) (bytes o)) sk in
  if n <=? 0 then Some (false, n, err, tot, c, sk) else
  let c := with_reply (reply c) (reply_bytes c) (sentlen c + n) c in
  if sentlen c =? objlen then
    let c := with_reply rest (u64 (reply_bytes c - size o)) 0 c in
    assert! (negb (bool_decide (rest = [])) || (reply_bytes c =? 0)) ;; Some (true, n, err, tot + n, c, sk)
  else Some (true, n, err, tot + n, c, sk).

Definition write_round (c : client) (sk : socket) (tot : Z) : option round_result :=
  if negb (bool_decide (buf c = [])) then Some (write_buf c sk tot) else
  match reply c with
  | Some o :: rest => write_node o rest c sk tot
  | _ => None
  end.

(** A node that holds nothing is skipped by continue, before the limit is tested. *)
Definition enough (c : client) (tot : Z) (skipped : bool) : bool :=
  negb skipped && (NET_MAX_WRITES_PER_EVENT <? tot) &&
  ((maxmemory e =? 0) || (zmalloc_used_memory e c <? maxmemory e)) && negb (has (flags c) CLIENT_SLAVE).

Fixpoint write_loop (fuel : nat) (c : client) (sk : socket) (nw : Z) (err : bool) (tot : Z) :
    option (Z * bool * Z * client * socket) :=
  if negb (clientHasPendingReplies c) then Some (nw, err, tot, c, sk) else
  match fuel with
  | O => None
  | S fuel =>
    '(go, n, er, tot', c, sk) ← write_round c sk tot;
    let skipped := go && (n =? 0) in
    let n := if skipped then nw else n in
    if negb go || enough c tot' skipped then Some (n, er, tot', c, sk)
    else write_loop fuel c sk n er tot'
  end.

(** All the bytes that are queued, and one round for each and for each node. *)
Definition queued (c : client) : list Z := buf c ++ mjoin ((fun o => match o with Some b => bytes b | None => [] end) <$> reply c).
Definition write_fuel (c : client) : nat := length (queued c) + length (reply c).

(** C_OK with the client and whether its write handler stays installed, or C_ERR
    for a client that was freed. *)
Inductive write_outcome := Alive (s : server) (c : client) (handler_installed : bool) (sk : socket) | Freed (sk : socket).

Definition writeToClient (sk : socket) (handler_installed : bool) (s : server) (c : client) : option write_outcome :=
  '(nwritten, err, totwritten, c, sk) ← write_loop (write_fuel c) c sk 0 false 0;
  let s := mk_server (clients_pending_write s) (clients_to_close s) (stat_net_output_bytes s + totwritten) in
  if (nwritten =? -1) && err then Some (Freed sk) else
  let c := if (0 <? totwritten) && negb (has (flags c) CLIENT_MASTER)
           then with_times (obuf_soft_limit_reached_time c) (unixtime e) c else c in
  if negb (clientHasPendingReplies c) then
    let c := with_buf (buf c) 0 c in
    if has (flags c) CLIENT_CLOSE_AFTER_REPLY then Some (Freed sk) else Some (Alive s c false sk)
  else Some (Alive s c handler_installed sk).

End Output.

(** ** Invariants and specifications *)

Definition SCHEDULING : Z := Z.lor CLIENT_PENDING_WRITE CLIENT_CLOSE_ASAP.

(** Queueing only ever sets the two scheduling flags. *)
Definition kept (c c' : client) : Prop :=
  id c' = id c /\ fd c' = fd c /\ forall k, Z.land SCHEDULING k = 0 -> has (flags c') k = has (flags c) k.

Definition content (r : list (option clientReplyBlock)) : list Z :=
  mjoin ((fun o => match o with Some b => bytes b | None => [] end) <$> r).
Definition block_size (o : option clientReplyBlock) : Z := match o with Some b => size b | None => 0 end.
Definition sizes (r : list (option clientReplyBlock)) : Z := foldr (fun o n => block_size o + n) 0 r.
Definition block_ok (o : option clientReplyBlock) : Prop := match o with Some b => used b <= size b | None => True end.

(** What is being sent, and what is still to be sent. *)
Definition front (c : client) : list Z :=
  match buf c, reply c with [], Some b :: _ => bytes b | b, _ => b end.
Definition pending (c : client) : list Z := drop (Z.to_nat (sentlen c)) (queued c).

Record client_ok (c : client) : Prop := {
  ok_buf : zlen (buf c) <= PROTO_REPLY_CHUNK_BYTES;
  ok_blocks : Forall block_ok (reply c);
  ok_bytes : reply_bytes c = sizes (reply c);
  ok_total : reply_bytes c < SIZE_MAX - 1024 * 64;
  ok_sent : sentlen c = 0 \/ 0 <= sentlen c < zlen (front c) }.

(** prepareClientToWrite lets the reply through, and the client is not closing. *)
Definition may_write (c : client) : bool :=
  has (flags c) (Z.lor CLIENT_LUA CLIENT_MODULE) ||
  (negb (has (flags c) (Z.lor CLIENT_REPLY_OFF CLIENT_REPLY_SKIP)) &&
   negb (has (flags c) CLIENT_MASTER && negb (has (flags c) CLIENT_MASTER_FORCE_REPLY)) && negb (fd c <=? 0)).
Definition accepts_replies (c : client) : bool := may_write c && negb (has (flags c) CLIENT_CLOSE_AFTER_REPLY).

(** The memory a list of strings can need, given that an allocation is at most
    twice the request and a page. *)
Definition budget (ps : list (list Z)) : Z := foldr (fun s n => 2 * zlen s + 40000 + n) 0 ps.

Definition allocator_ok (e : env) : Prop :=
  (forall n, 0 <= n -> n <= usable e n <= 2 * n + 4096) /\ length (client_obuf_limits e) = 3%nat.

(** The state after queueing: [bs] behind what was queued, and only nodes behind a placeholder change. *)
Record queued_more (c c' : client) (bs : list Z) : Prop := {
  q_ok : client_ok c';
  q_kept : kept c c';
  q_pending : pending c' = pending c ++ bs;
  q_behind l r : reply c = l ++ None :: r ->
    exists r', reply c' = l ++ None :: r' /\ content r' = content r ++ bs /\ buf c' = buf c /\ sentlen c' = sentlen c }.

Definition appends (m : M ()) (ps : list (list Z)) : Prop :=
  forall s c, client_ok c -> reply_bytes c + budget ps < SIZE_MAX - 1024 * 64 ->
  exists s' c', m (s, c) = Some ((), (s', c')) /\ reply_bytes c' <= reply_bytes c + budget ps /\
    queued_more c c' (if accepts_replies c then mjoin ps else []).

(** Nothing but the flags and the times differs. *)
Definition same_output (c c' : client) : Prop :=
  kept c c' /\ buf c' = buf c /\ sentlen c' = sentlen c /\ reply c' = reply c /\ reply_bytes c' = reply_bytes c.

(** ** Flags *)

Lemma has_lor f m k : Z.land m k = 0 -> has (Z.lor f m) k = has f k.
Proof. intros Hm. unfold has. by rewrite Z.land_lor_distr_l, Hm, Z.lor_0_r. Qed.

Lemma kept_refl c : kept c c.
Proof. done. Qed.
Lemma kept_trans c1 c2 c3 : kept c1 c2 -> kept c2 c3 -> kept c1 c3.
Proof.
  intros (A & B & C) (A' & B' & C'). split_and!; [congruence..|].
  intros k Hk. by rewrite C' by done; apply C.
Qed.
Lemma kept_flag c m : Z.land SCHEDULING m = m -> kept c (with_flags (Z.lor (flags c) m) c).
Proof.
  intros Hm. split_and!; [done..|]. intros k Hk. apply has_lor.
  rewrite <-Hm, <-Z.land_assoc, (Z.land_comm m), Z.land_assoc, Hk. done.
Qed.

Lemma kept_has c c' k : kept c c' -> (Z.land SCHEDULING k =? 0) = true -> has (flags c') k = has (flags c) k.
Proof. intros (_ & _ & H) Hk. by apply H, Z.eqb_eq. Qed.
Lemma kept_accepts c c' : kept c c' -> accepts_replies c' = accepts_replies c /\ may_write c' = may_write c.
Proof.
  intros Hk. assert (may_write c' = may_write c) as Hm.
  { unfold may_write. rewrite !(kept_has c c') by done. by rewrite (proj1 (proj2 Hk)). }
  unfold accepts_replies. by rewrite Hm, (kept_has c c').
Qed.

Lemma same_output_ok c c' : same_output c c' -> client_ok c -> client_ok c'.
Proof.
  intros (K & B & S & R & N) [? ? ? ? ?]. split; rewrite ?B, ?S, ?R, ?N; try done.
  unfold front. by rewrite B, R.
Qed.
Lemma same_output_pending c c' : same_output c c' -> pending c' = pending c.
Proof. intros (K & B & S & R & N). unfold pending, queued. by rewrite B, S, R. Qed.
Lemma same_output_refl c : same_output c c.
Proof. by split_and!. Qed.
Lemma same_output_trans c1 c2 c3 : same_output c1 c2 -> same_output c2 c3 -> same_output c1 c3.
Proof.
  intros (K & B & S & R & N) (K' & B' & S' & R' & N'). split_and!; [by eapply kept_trans|congruence..].
Qed.

Lemma M_bind_ok {A B} (m : M A) (f : A -> M B) s a s' : m s = Some (a, s') -> (m ≫= f) s = f a s'.
Proof. intros H. unfold mbind, M_bind. by rewrite H. Qed.

(** ** Scheduling *)

Lemma install_spec s c : exists s' c', clientInstallWriteHandler (s, c) = Some ((), (s', c')) /\ same_output c c'.
Proof.
  unfold clientInstallWriteHandler. rewrite (M_bind_ok _ _ _ c (s, c)) by done.
  destruct (_ && _); [|by eexists _, c].
  eexists _, _. split; [done|]. split_and!; try done. by apply kept_flag.
Qed.

Lemma prepare_spec s c :
  exists s' c', prepareClientToWrite (s, c) = Some (may_write c, (s', c')) /\ same_output c c'.
Proof.
  unfold prepareClientToWrite, may_write. rewrite (M_bind_ok _ _ _ c (s, c)) by done.
  destruct (has _ (Z.lor CLIENT_LUA _)); [by eexists _, c|]. cbn [orb].
  destruct (has _ (Z.lor CLIENT_REPLY_OFF _)); [by eexists _, c|]. cbn [negb andb].
  destruct (has _ CLIENT_MASTER && _); [by eexists _, c|]. cbn [negb andb].
  destruct (fd c <=? 0); [by eexists _, c|]. cbn [negb].
  destruct (clientHasPendingReplies c); cbn [negb]; [by eexists _, c|].
  destruct (install_spec s c) as (s1 & c1 & E1 & S1). rewrite (M_bind_ok _ _ _ _ _ E1). by eexists _, _.
Qed.

Lemma client_class c : 0 <= (if getClientType c =? CLIENT_TYPE_MASTER then CLIENT_TYPE_NORMAL else getClientType c) < 3.
Proof.
  unfold getClientType, CLIENT_TYPE_MASTER, CLIENT_TYPE_SLAVE, CLIENT_TYPE_PUBSUB, CLIENT_TYPE_NORMAL.
  destruct (has _ CLIENT_MASTER); [done|]. destruct (_ && _); [done|]. by destruct (has _ CLIENT_PUBSUB).
Qed.

Lemma check_limits_spec e s c :
  allocator_ok e -> exists b c', checkClientOutputBufferLimits e (s, c) = Some (b, (s, c')) /\ same_output c c'.
Proof.
  intros [_ He]. unfold checkClientOutputBufferLimits. rewrite (M_bind_ok _ _ _ c (s, c)) by done.
  pose proof (client_class c) as Hc. set (k := if _ =? CLIENT_TYPE_MASTER then _ else _) in *.
  destruct (lookup_lt_is_Some_2 (client_obuf_limits e) (Z.to_nat k)) as [l Hl]; [lia|].
  rewrite (M_bind_ok _ _ _ l (s, c)) by (unfold lift; by rewrite Hl).
  destruct (negb (soft_limit_bytes l =? 0) && _).
  - destruct (obuf_soft_limit_reached_time c =? 0); (eexists _, _; split; [reflexivity|by split_and!]).
  - eexists _, _; split; [reflexivity|by split_and!].
Qed.

Lemma freeClientAsync_spec s c : exists s' c', freeClientAsync (s, c) = Some ((), (s', c')) /\ same_output c c'.
Proof.
  unfold freeClientAsync. rewrite (M_bind_ok _ _ _ c (s, c)) by done.
  destruct (_ || _); [by eexists _, c|].
  eexists _, _. split; [done|]. split_and!; try done. by apply kept_flag.
Qed.

Lemma async_close_spec e s c :
  allocator_ok e -> client_ok c ->
  exists s' c', asyncCloseClientOnOutputBufferLimitReached e (s, c) = Some ((), (s', c')) /\ same_output c c'.
Proof.
  intros He Hc. unfold asyncCloseClientOnOutputBufferLimitReached. rewrite (M_bind_ok _ _ _ c (s, c)) by done.
  destruct (fd c =? -1); [by eexists _, c|].
  pose proof (ok_total _ Hc) as Ht. apply Z.ltb_lt in Ht. rewrite (M_bind_ok _ _ _ () (s, c)) by (unfold lift; by rewrite Ht).
  destruct (_ || _); [by eexists _, c|].
  destruct (check_limits_spec e s c He) as (b & c1 & E1 & S1). rewrite (M_bind_ok _ _ _ _ _ E1).
  destruct b; [|by eexists _, c1].
  destruct (freeClientAsync_spec s c1) as (s2 & c2 & E2 & S2). rewrite E2.
  eexists _, _. split; [done|]. by eapply same_output_trans.
Qed.

(** ** Blocks *)

Lemma content_app r1 r2 : content (r1 ++ r2) = content r1 ++ content r2.
Proof. unfold content. by rewrite fmap_app, join_app. Qed.
Lemma sizes_app r1 r2 : sizes (r1 ++ r2) = sizes r1 + sizes r2.
Proof.
  induction r1 as [|o r1 IH]; [done|].
  change (sizes ((o :: r1) ++ r2)) with (block_size o + sizes (r1 ++ r2)).
  change (sizes (o :: r1)) with (block_size o + sizes r1). lia.
Qed.
Lemma sizes_one o : sizes [o] = block_size o.
Proof. cbn. lia. Qed.
Lemma block_size_nonneg o : block_ok o -> 0 <= block_size o.
Proof. destruct o as [b|]; cbn; [unfold used; lia|lia]. Qed.
Lemma sizes_nonneg r : Forall block_ok r -> 0 <= sizes r.
Proof. induction 1 as [|o r Ho Hr IH]; cbn; [lia|]. fold (sizes r). apply block_size_nonneg in Ho. lia. Qed.

Lemma queued_content c : queued c = buf c ++ content (reply c).
Proof. done. Qed.
Lemma front_prefix c : exists t, queued c = front c ++ t.
Proof.
  unfold front. rewrite queued_content. destruct (buf c) as [|x b]; [|by eexists].
  destruct (reply c) as [|[o|] r]; [by exists []| |by eexists]. by exists (content r).
Qed.
Lemma sent_le c : client_ok c -> 0 <= sentlen c <= zlen (queued c).
Proof.
  intros Hc. destruct (front_prefix c) as [t Ht]. rewrite Ht, length_app. destruct (ok_sent _ Hc); lia.
Qed.
Lemma pending_grow c c' bs :
  client_ok c -> sentlen c' = sentlen c -> queued c' = queued c ++ bs -> pending c' = pending c ++ bs.
Proof.
  intros Hc Hs Hq. unfold pending. rewrite Hs, Hq. apply drop_app_le. pose proof (sent_le c Hc). lia.
Qed.

(** The same position in a longer or equal front. *)
Lemma sent_grow c c' t :
  client_ok c -> sentlen c' = sentlen c -> front c = [] \/ front c' = front c ++ t ->
  sentlen c' = 0 \/ 0 <= sentlen c' < zlen (front c').
Proof.
  intros Hc Hs Hf. rewrite Hs. destruct (ok_sent _ Hc) as [?|?]; [by left|]. destruct Hf as [Hf|Hf].
  - rewrite Hf in *. cbn in *. lia.
  - rewrite Hf, length_app. lia.
Qed.

Lemma block_append_ok b s : used b + zlen s <= size b -> block_append b s = Some (mk_block (size b) (bytes b ++ s)).
Proof. intros H. unfold block_append. apply Z.leb_le in H. by rewrite H. Qed.

Lemma block_new_ok e n s :
  allocator_ok e -> zlen s <= n -> 2 * n + 4128 < 2 ^ 64 ->
  exists b, block_new e n s = Some b /\ bytes b = s /\ block_ok (Some b) /\ size b <= 2 * n + 4128.
Proof.
  intros [Ha _] Hn Hn2. pose proof (Ha (n + sizeof_block)) as Hu. unfold sizeof_block in *. specialize (Hu ltac:(lia)).
  unfold block_new. unfold sizeof_block. rewrite u64_small by lia.
  rewrite block_append_ok by (unfold used; cbn; lia). eexists. split; [done|]. unfold block_ok, used. cbn. split_and!; [done|lia..].
Qed.

(** The memcpy into the last block. *)
Lemma tail_append c l b s :
  client_ok c -> reply c = l ++ [Some b] -> used b + zlen s <= size b ->
  let c' := with_reply (<[(length (reply c) - 1)%nat := Some (mk_block (size b) (bytes b ++ s))]> (reply c)) (reply_bytes c) (sentlen c) c in
  client_ok c' /\ queued c' = queued c ++ s /\ reply c' = l ++ [Some (mk_block (size b) (bytes b ++ s))].
Proof.
  intros Hc Hr Hs c'. assert (reply c' = l ++ [Some (mk_block (size b) (bytes b ++ s))]) as Hr'.
  { cbn. rewrite Hr. rewrite insert_app_r_alt by (rewrite length_app; cbn; lia).
    rewrite length_app. cbn. by replace (length l + 1 - 1 - length l)%nat with 0%nat by lia. }
  split_and!; [|rewrite !queued_content, Hr, Hr', !content_app; cbn; by rewrite !app_nil_r, !app_assoc|done].
  pose proof (ok_blocks _ Hc) as Hb. rewrite Hr in Hb. apply Forall_app in Hb as [Hb1 Hb2]. destruct Hc as [H1 H2 H3 H4 H5]. split; try done.
  - rewrite Hr'. apply Forall_app. split; [done|]. constructor; [|done]. unfold block_ok, used in *. cbn. rewrite length_app. lia.
  - rewrite Hr'. cbn. rewrite H3, Hr, !sizes_app. done.
  - apply (sent_grow c c' (if decide (buf c = [] /\ l = []) then s else [])); [done|done|]. right.
    unfold front. rewrite Hr, Hr'. change (buf c') with (buf c). destruct (buf c) as [|x bb].
    + destruct l; cbn; [done|rewrite decide_False by naive_solver; by rewrite app_nil_r].
    + rewrite decide_False by naive_solver. by rewrite app_nil_r.
Qed.

(** listAddNodeTail(c->reply, tail) *)
Lemma push_block c o :
  client_ok c -> block_ok o -> reply_bytes c + block_size o < SIZE_MAX - 1024 * 64 ->
  let c' := with_reply (reply c ++ [o]) (reply_bytes c + block_size o) (sentlen c) c in
  client_ok c' /\ queued c' = queued c ++ content [o].
Proof.
  intros Hc Ho Hs c'. split; [|rewrite !queued_content; cbn [c' reply buf with_reply]; by rewrite content_app, app_assoc].
  pose proof Hc as [H1 H2 H3 H4 H5]. split; try done.
  - apply Forall_app. split; [done|]. by constructor.
  - cbn. rewrite H3, sizes_app, sizes_one. done.
  - apply (sent_grow c c' []); [done|done|]. unfold front. cbn [c' reply buf with_reply]. destruct (buf c); [|by right; rewrite app_nil_r].
    destruct (reply c); [by left|right; by rewrite app_nil_r].
Qed.

(** ** Queueing a string *)

Lemma snoc_none_inj (l l' : list (option clientReplyBlock)) b : l ++ [None] = l' ++ [Some b] -> False.
Proof. intros H. by apply app_inj_tail in H as [_ H]. Qed.

Lemma queued_more_refl c : client_ok c -> queued_more c c [].
Proof. intros Hc. split; [done|apply kept_refl|by rewrite app_nil_r|]. intros l r Hl. exists r. by rewrite app_nil_r. Qed.

Lemma queued_more_trans c1 c2 c3 a b : queued_more c1 c2 a -> queued_more c2 c3 b -> queued_more c1 c3 (a ++ b).
Proof.
  intros [O1 K1 P1 B1] [O2 K2 P2 B2]. split; [done|by eapply kept_trans|by rewrite P2, P1, app_assoc|].
  intros l r Hl. destruct (B1 l r Hl) as (r1 & R1 & C1 & F1 & S1). destruct (B2 l r1 R1) as (r2 & R2 & C2 & F2 & S2).
  exists r2. split_and!; [done| |congruence..]. by rewrite C2, C1, app_assoc.
Qed.

Lemma queued_more_same c c' : client_ok c -> same_output c c' -> queued_more c c' [].
Proof.
  intros Hc Hs. split; [by eapply same_output_ok|apply Hs|by rewrite app_nil_r; apply same_output_pending|].
  destruct Hs as (_ & B & S & R & _). intros l r Hl. exists r. by rewrite R, app_nil_r.
Qed.

Lemma tail_more c l b s :
  client_ok c -> reply c = l ++ [Some b] -> used b + zlen s <= size b ->
  queued_more c (with_reply (<[(length (reply c) - 1)%nat := Some (mk_block (size b) (bytes b ++ s))]> (reply c)) (reply_bytes c) (sentlen c) c) s.
Proof.
  intros Hc Hr Hs. destruct (tail_append c l b s Hc Hr Hs) as (O & Q & R). set (c' := with_reply _ _ _ c) in *.
  split; [done|done|by apply pending_grow|]. intros l' r Hl.
  destruct r as [|x r _] using rev_ind; [by rewrite Hr in Hl; symmetry in Hl; apply snoc_none_inj in Hl|].
  rewrite Hr, app_comm_cons, app_assoc in Hl. apply app_inj_tail in Hl as [-> <-].
  eexists. rewrite R, <-app_assoc. split; [done|]. rewrite !content_app. cbn. by rewrite !app_nil_r, !app_assoc.
Qed.

Lemma push_more c o :
  client_ok c -> block_ok o -> reply_bytes c + block_size o < SIZE_MAX - 1024 * 64 ->
  queued_more c (with_reply (reply c ++ [o]) (reply_bytes c + block_size o) (sentlen c) c) (content [o]).
Proof.
  intros Hc Ho Hs. destruct (push_block c o Hc Ho Hs) as (O & Q). split; [done|done|by apply pending_grow|].
  intros l r Hl. exists (r ++ [o]). cbn [reply with_reply buf sentlen]. rewrite Hl, content_app, <-app_assoc. done.
Qed.

Lemma closing_false c : accepts_replies c = true -> has (flags c) CLIENT_CLOSE_AFTER_REPLY = false /\ may_write c = true.
Proof. unfold accepts_replies. intros [? ?%negb_true_iff]%andb_true_iff. done. Qed.

Lemma to_buffer_spec s c bs :
  client_ok c -> has (flags c) CLIENT_CLOSE_AFTER_REPLY = false ->
  (exists c', _addReplyToBuffer bs (s, c) = Some (true, (s, c')) /\ queued_more c c' bs /\ reply_bytes c' = reply_bytes c) \/
  _addReplyToBuffer bs (s, c) = Some (false, (s, c)).
Proof.
  intros Hc Hf. unfold _addReplyToBuffer. rewrite (M_bind_ok _ _ _ c (s, c)) by done. rewrite Hf.
  destruct (Z.ltb_spec 0 (zlen (reply c))) as [?|Hr]; [by right|].
  pose proof (ok_buf _ Hc) as Hb. unfold PROTO_REPLY_CHUNK_BYTES in *. rewrite u64_small by lia.
  destruct (Z.ltb_spec (16 * 1024 - zlen (buf c)) (zlen bs)) as [?|Hs]; [by right|left].
  destruct (Z.leb_spec (zlen (buf c) + zlen bs) (16 * 1024)); [|lia].
  destruct (reply c) as [|] eqn:Er; [|cbn in Hr; lia].
  set (c' := with_buf (buf c ++ bs) (sentlen c) c). exists c'. split; [done|]. split; [|done].
  assert (queued c' = queued c ++ bs) as Hq.
  { rewrite !queued_content. cbn [c' buf reply with_buf]. rewrite Er. cbn. by rewrite !app_nil_r. }
  split; [|done|by apply pending_grow|by rewrite Er; intros [|? ?]].
  pose proof Hc as [H1 H2 H3 H4 H5]. split; try done.
  - cbn. rewrite length_app. unfold PROTO_REPLY_CHUNK_BYTES. lia.
  - apply (sent_grow c c' bs); [done|done|]. unfold front. cbn [c' buf reply with_buf]. rewrite Er. right.
    by destruct (buf c), bs.
Qed.

(** The list part: what the last block has room for, the rest in a new one. *)
Lemma to_list_spec e s c bs :
  allocator_ok e -> client_ok c -> reply_bytes c + budget [bs] < SIZE_MAX - 1024 * 64 ->
  exists s' c', _addReplyStringToList e bs (s, c) = Some ((), (s', c')) /\
    queued_more c c' (if has (flags c) CLIENT_CLOSE_AFTER_REPLY then [] else bs) /\ reply_bytes c' <= reply_bytes c + budget [bs].
Proof.
  intros He Hc Hb. unfold _addReplyStringToList. rewrite (M_bind_ok _ _ _ c (s, c)) by done.
  assert (0 <= reply_bytes c) by (rewrite (ok_bytes _ Hc); apply sizes_nonneg, Hc).
  unfold budget in *. cbn [foldr] in Hb |- *. destruct (has _ CLIENT_CLOSE_AFTER_REPLY); [eexists _, c; split; [done|]; split; [by apply queued_more_refl|lia]|].
  match goal with |- context [(?m ≫= _) (s, c)] => assert (exists k c1, m (s, c) = Some (drop k bs, (s, c1)) /\
    queued_more c c1 (take k bs) /\ reply_bytes c1 = reply_bytes c) as (k & c1 & E1 & Q1 & N1) end.
  { destruct (reply c) as [|x l _] eqn:Er using rev_ind; [exists 0%nat, c; by split; [|split; [apply queued_more_refl|]]|].
    rewrite last_snoc. destruct x as [b|]; [|exists 0%nat, c; by split; [|split; [apply queued_more_refl|]]].
    pose proof (ok_blocks _ Hc) as Hk. rewrite Er in Hk. apply Forall_app in Hk as [Hk1 Hk2].
    pose proof (Forall_inv Hk2) as Hu. cbn in Hu. pose proof (ok_bytes _ Hc) as Hs. rewrite Er, sizes_app, sizes_one in Hs. cbn in Hs.
    apply sizes_nonneg in Hk1. unfold SIZE_MAX in Hb. rewrite u64_small by (unfold used in *; lia).
    set (k := Z.to_nat (if zlen bs <=? size b - used b then zlen bs else size b - used b)).
    assert (used b + zlen (take k bs) <= size b) as Hfit.
    { rewrite length_take. unfold k, used in *. destruct (Z.leb_spec (zlen bs) (size b - zlen (bytes b))); lia. }
    rewrite (M_bind_ok _ _ _ _ (s, c)) by (unfold lift; by rewrite block_append_ok).
    eexists k, _. split; [done|]. split; [|done]. by apply (tail_more c l). }
  rewrite (M_bind_ok _ _ _ _ _ E1). pose proof (q_ok _ _ _ Q1) as O1.
  match goal with |- context [(?m ≫= _) (s, c1)] => assert (exists c2, m (s, c1) = Some ((), (s, c2)) /\
    queued_more c1 c2 (drop k bs) /\ reply_bytes c2 <= reply_bytes c + (2 * zlen bs + 40000)) as (c2 & E2 & Q2 & N2) end.
  { destruct (Z.ltb_spec 0 (zlen (drop k bs))) as [Hd|Hd].
    2:{ exists c1. destruct (drop k bs); [|cbn in Hd; lia]. split; [done|]. split; [by apply queued_more_refl|lia]. }
    set (n := if _ <? _ then _ else _). assert (zlen (drop k bs) <= n <= zlen bs + 16384) as Hn.
    { unfold n, PROTO_REPLY_CHUNK_BYTES. pose proof (length_drop bs k). destruct (Z.ltb_spec (zlen (drop k bs)) (16 * 1024)); lia. }
    unfold SIZE_MAX in Hb. destruct (block_new_ok e n (drop k bs) He) as (b & Eb & Db & Ob & Sb); [lia..|].
    rewrite (M_bind_ok _ _ _ b (s, c1)) by (unfold lift; by rewrite Eb).
    pose proof (block_size_nonneg _ Ob) as Hp. cbn in Hp.
    eexists. split; [done|]. cbn [fst snd]. rewrite u64_small by (unfold SIZE_MAX in *; lia).
    replace (drop k bs) with (content [Some b]) by (cbn; by rewrite app_nil_r).
    split; [apply (push_more c1 (Some b)); [done|done|cbn; unfold SIZE_MAX; lia]|]. cbn. lia. }
  rewrite (M_bind_ok _ _ _ _ _ E2). pose proof (q_ok _ _ _ Q2) as O2.
  destruct (async_close_spec e s c2 He O2) as (s3 & c3 & E3 & S3). exists s3, c3. split; [done|]. split.
  - rewrite <-(take_drop k bs), <-(app_nil_r (drop k bs)). eapply queued_more_trans; [done|].
    eapply queued_more_trans; [done|]. by apply queued_more_same.
  - destruct S3 as (_ & _ & _ & _ & ->). lia.
Qed.

(** ** The calculus of replies *)

(** Like [appends], for clients that accept replies. *)
Definition writes (m : M ()) (ps : list (list Z)) : Prop :=
  forall s c, client_ok c -> accepts_replies c = true -> reply_bytes c + budget ps < SIZE_MAX - 1024 * 64 ->
  exists s' c', m (s, c) = Some ((), (s', c')) /\ reply_bytes c' <= reply_bytes c + budget ps /\ queued_more c c' (mjoin ps).

Lemma budget_cons p ps : budget (p :: ps) = 2 * zlen p + 40000 + budget ps.
Proof. done. Qed.
Lemma budget_app ps qs : budget (ps ++ qs) = budget ps + budget qs.
Proof. induction ps as [|p ps IH]; [done|]. rewrite <-app_comm_cons, !budget_cons. lia. Qed.
Lemma budget_nonneg ps : 0 <= budget ps.
Proof. induction ps as [|p ps IH]; [done|]. rewrite budget_cons. lia. Qed.

Lemma appends_writes m ps : appends m ps -> writes m ps.
Proof. intros H s c Hc Ha Hb. specialize (H s c Hc Hb). by rewrite Ha in H. Qed.

Lemma appends_bind m (k : M ()) ps qs : appends m ps -> appends k qs -> appends (m ;; k) (ps ++ qs).
Proof.
  intros Hm Hk s c Hc Hb. rewrite budget_app in *. pose proof (budget_nonneg qs).
  destruct (Hm s c Hc) as (s1 & c1 & E1 & N1 & Q1); [lia|].
  destruct (Hk s1 c1 (q_ok _ _ _ Q1)) as (s2 & c2 & E2 & N2 & Q2); [lia|].
  rewrite (M_bind_ok _ _ _ _ _ E1). exists s2, c2. split; [done|]. split; [lia|].
  rewrite (proj1 (kept_accepts c c1 (q_kept _ _ _ Q1))) in Q2. rewrite join_app.
  pose proof (queued_more_trans _ _ _ _ _ Q1 Q2) as Q. by destruct (accepts_replies c).
Qed.
Lemma writes_bind m (k : M ()) ps qs : writes m ps -> writes k qs -> writes (m ;; k) (ps ++ qs).
Proof.
  intros Hm Hk s c Hc Ha Hb. rewrite budget_app in *. pose proof (budget_nonneg qs).
  destruct (Hm s c Hc Ha) as (s1 & c1 & E1 & N1 & Q1); [lia|].
  destruct (Hk s1 c1 (q_ok _ _ _ Q1)) as (s2 & c2 & E2 & N2 & Q2); [|lia|].
  { by rewrite (proj1 (kept_accepts c c1 (q_kept _ _ _ Q1))). }
  rewrite (M_bind_ok _ _ _ _ _ E1). exists s2, c2. split; [done|]. split; [lia|].
  rewrite join_app. by eapply queued_more_trans.
Qed.
Lemma appends_ret : appends (mret ()) [].
Proof.
  intros s c Hc _. exists s, c. split; [done|]. split; [cbn; lia|].
  destruct (accepts_replies c); by apply queued_more_refl.
Qed.
Lemma appends_lift {A} (o : option A) a (k : A -> M ()) ps : o = Some a -> appends (k a) ps -> appends (lift o ≫= k) ps.
Proof. intros Ho Hk s c Hc Hb. rewrite (M_bind_ok _ _ _ a (s, c)) by (unfold lift; by rewrite Ho). by apply Hk. Qed.

(** What is queued depends on whether prepareClientToWrite lets replies through and on
    whether the client is closing; the memory is that of [ps] in any case. *)
Definition closing (c : client) : bool := has (flags c) CLIENT_CLOSE_AFTER_REPLY.
Definition emits (m : M ()) (ps : list (list Z)) (out : bool -> bool -> list (list Z)) : Prop :=
  forall s c, client_ok c -> reply_bytes c + budget ps < SIZE_MAX - 1024 * 64 ->
  exists s' c', m (s, c) = Some ((), (s', c')) /\ reply_bytes c' <= reply_bytes c + budget ps /\ queued_more c c' (mjoin (out (may_write c) (closing c))).
Lemma kept_modes c c' : kept c c' -> may_write c' = may_write c /\ closing c' = closing c.
Proof. intros Hk. split; [by apply kept_accepts|]. by apply kept_has. Qed.
Lemma emits_bind m (k : M ()) ps qs f g : emits m ps f -> emits k qs g -> emits (m ;; k) (ps ++ qs) (fun w cl => f w cl ++ g w cl).
Proof.
  intros Hm Hk s c Hc Hb. rewrite budget_app in *. pose proof (budget_nonneg qs).
  destruct (Hm s c Hc) as (s1 & c1 & E1 & N1 & Q1); [lia|]. destruct (Hk s1 c1 (q_ok _ _ _ Q1)) as (s2 & c2 & E2 & N2 & Q2); [lia|].
  rewrite (M_bind_ok _ _ _ _ _ E1). exists s2, c2. split; [done|]. split; [lia|]. destruct (kept_modes c c1 (q_kept _ _ _ Q1)) as [Ew Ec]. rewrite Ew, Ec in Q2. rewrite join_app. by eapply queued_more_trans.
Qed.
Lemma emits_ext m ps f g : (forall w cl, f w cl = g w cl) -> emits m ps f -> emits m ps g.
Proof. intros Hfg Hm s c Hc Hb. rewrite <-Hfg. by apply Hm. Qed.
Lemma appends_emits m ps : appends m ps -> emits m ps (fun w cl => if w && negb cl then ps else []).
Proof. intros H s c Hc Hb. specialize (H s c Hc Hb). unfold accepts_replies in H. fold (closing c) in H. by destruct (may_write c && negb (closing c)). Qed.

Section Replies.
Context (e : env) (He : allocator_ok e).

(** Both ways to the output buffer. *)
Lemma enqueue_spec s c bs :
  client_ok c -> may_write c = true -> reply_bytes c + budget [bs] < SIZE_MAX - 1024 * 64 ->
  exists s' c', (ok ← _addReplyToBuffer bs; if negb ok then _addReplyStringToList e bs else mret ()) (s, c) = Some ((), (s', c')) /\
    reply_bytes c' <= reply_bytes c + budget [bs] /\ queued_more c c' (if accepts_replies c then bs else []).
Proof.
  intros Hc Hm Hb. pose proof (budget_nonneg [bs]). unfold accepts_replies. rewrite Hm. cbn [andb].
  destruct (has (flags c) CLIENT_CLOSE_AFTER_REPLY) eqn:Hf; cbn [negb].
  - exists s, c. split; [|split; [lia|by apply queued_more_refl]]. rewrite (M_bind_ok _ _ _ true (s, c)); [done|].
    unfold _addReplyToBuffer. rewrite (M_bind_ok _ _ _ c (s, c)) by done. by rewrite Hf.
  - destruct (to_buffer_spec s c bs Hc Hf) as [(c' & E & Q & N)|E]; rewrite (M_bind_ok _ _ _ _ _ E); cbn [negb].
    + exists s, c'. split; [done|]. split; [lia|done].
    + destruct (to_list_spec e s c bs He Hc Hb) as (s' & c' & E' & Q & N). rewrite Hf in Q. by exists s', c'.
Qed.

Lemma prepared_appends (o : option (list Z)) bs :
  o = Some bs ->
  appends (ok ← prepareClientToWrite; if negb ok then mret () else
           s ← lift o; ok ← _addReplyToBuffer s; if negb ok then _addReplyStringToList e s else mret ()) [bs].
Proof.
  intros -> s c Hc Hb. destruct (prepare_spec s c) as (s1 & c1 & E1 & S1). rewrite (M_bind_ok _ _ _ _ _ E1).
  pose proof (same_output_ok _ _ S1 Hc) as O1. pose proof (queued_more_same _ _ Hc S1) as Q1.
  destruct (kept_accepts c c1 (proj1 S1)) as [Ka Km]. pose proof (budget_nonneg [bs]).
  assert (reply_bytes c1 = reply_bytes c) as N1 by apply S1.
  destruct (may_write c) eqn:Hm; cbn [negb].
  - rewrite (M_bind_ok _ _ _ bs (s1, c1)) by done.
    destruct (enqueue_spec s1 c1 bs O1) as (s2 & c2 & E2 & N2 & Q2); [done|by rewrite N1|].
    exists s2, c2. split; [done|]. split; [lia|]. rewrite Ka in Q2. cbn. rewrite app_nil_r.
    pose proof (queued_more_trans _ _ _ _ _ Q1 Q2) as Q. done.
  - exists s1, c1. split; [done|]. split; [lia|]. unfold accepts_replies. by rewrite Hm.
Qed.

Lemma addReplyString_appends bs : appends (addReplyString e bs) [bs].
Proof. apply (prepared_appends (Some bs) bs). done. Qed.

(** Integer objects hold a long. *)
Definition object_ok (o : string_obj) : Prop := match o with ObjInt _ v => LONG_MIN < v <= LONG_MAX | _ => True end.

Lemma take_decimal v (t : list Z) : take (Z.to_nat (zlen (decimal v))) (decimal v ++ t) = decimal v.
Proof. by rewrite Nat2Z.id, take_app_length. Qed.

Lemma addReply_appends o : object_ok o -> appends (addReply e o) [obj_bytes o].
Proof.
  intros Ho. destruct o as [sh v|s|s]; [|by apply (prepared_appends (Some s) s)..].
  pose proof (prepared_appends (Some (decimal v)) (decimal v) eq_refl) as Hp. intros s c Hc Hb.
  destruct (Hp s c Hc Hb) as (s' & c' & E & R). exists s', c'. split; [|done]. rewrite <-E.
  destruct (prepare_spec s c) as (s1 & c1 & E1 & _). unfold addReply. rewrite !(M_bind_ok _ _ _ _ _ E1).
  destruct (may_write c); [|done]. cbn [negb]. unfold object_ok, LONG_MIN, LONG_MAX in Ho.
  rewrite (M_bind_ok (lift (Some (decimal v))) _ _ (decimal v) (s1, c1)) by done.
  rewrite (M_bind_ok _ _ _ (decimal v) (s1, c1)); [done|].
  erewrite M_bind_ok; [|unfold lift; rewrite ll2string_ok by (unfold LLONG_MIN, LLONG_MAX; cbn; lia); done].
  unfold mret, M_ret. by rewrite take_decimal.
Qed.

Definition long_ok (v : Z) : Prop := LLONG_MIN <= v <= LLONG_MAX.
(** <prefix><number>\r\n *)
Definition header (prefix v : Z) : list Z := prefix :: decimal v ++ crlf.
Definition bulk (s : list Z) : list Z := header 36 (zlen s) ++ s ++ crlf.

Lemma shared_lookup p v :
  0 <= v < OBJ_SHARED_BULKHDR_LEN ->
  ((fun j => ObjRaw (p ++ decimal j ++ crlf)) <$> seqZ 0 OBJ_SHARED_BULKHDR_LEN) !! Z.to_nat v = Some (ObjRaw (p ++ decimal v ++ crlf)).
Proof.
  intros Hv. rewrite list_lookup_fmap, lookup_seqZ_lt by lia. cbn [fmap option_fmap option_map]. by rewrite Z.add_0_l, Z2Nat.id by lia.
Qed.

Lemma prefix_appends v p : long_ok v -> appends (addReplyLongLongWithPrefix e v p) [header p v].
Proof.
  intros Hv. unfold addReplyLongLongWithPrefix, header.
  destruct ((p =? 42) && _ && _) eqn:E1.
  { apply andb_true_iff in E1 as [[->%Z.eqb_eq ?]%andb_true_iff ?]. eapply appends_lift; [apply shared_lookup; lia|]. by apply addReply_appends. }
  destruct ((p =? 36) && _ && _) eqn:E2.
  { apply andb_true_iff in E2 as [[->%Z.eqb_eq ?]%andb_true_iff ?]. eapply appends_lift; [apply shared_lookup; lia|]. by apply addReply_appends. }
  pose proof (decimal_length v Hv) as Hl. eapply appends_lift; [apply ll2string_ok; [done|cbn; lia]|]. cbn beta iota.
  rewrite drop_replicate. destruct (127 - S (length (decimal v)))%nat as [|m] eqn:Em; [lia|]. cbn [replicate].
  rewrite app_comm_cons. eapply appends_lift; [apply mwrite_cell; cbn; lia|].
  rewrite cons_middle, app_assoc. eapply appends_lift; [apply mwrite_cell; rewrite length_app; cbn; lia|].
  replace (take _ _) with (p :: decimal v ++ crlf); [apply addReplyString_appends|]. unfold crlf.
  rewrite !app_comm_cons, <-!app_assoc. cbn [app].
  replace (p :: decimal v ++ 13 :: 10 :: replicate m 0) with ((p :: decimal v ++ [13; 10]) ++ replicate m 0) by (cbn; by rewrite <-app_assoc).
  rewrite take_app_length'; [done|]. cbn. rewrite length_app. cbn. lia.
Qed.

Lemma radix10_len_ok fuel n len : (0 < fuel)%nat -> 0 <= n < 10 ^ Z.of_nat fuel -> radix10_len fuel n len = Some (len - 1 + zlen (dec n)).
Proof.
  revert n len. induction fuel as [|fuel IH]; intros n len Hf Hn; [lia|].
  cbn [radix10_len]. rewrite Z.quot_div_nonneg by lia. rewrite Nat2Z.inj_succ, Z.pow_succ_r in Hn by lia.
  destruct (Z.eqb_spec (n / 10) 0) as [Hz|Hz].
  - apply Z.div_small_iff in Hz; [|lia]. rewrite dec_small by lia. cbn. f_equal. lia.
  - assert (0 <= n / 10 < 10 ^ Z.of_nat fuel) by (split; [apply Z.div_pos; lia|apply Z.div_lt_upper_bound; [lia|apply Hn]]).
    rewrite IH; [|destruct fuel; [cbn in *; lia|lia]|done]. assert (10 <= n) by (destruct (Z.lt_ge_cases n 10); [rewrite Z.div_small in Hz; lia|lia]).
    rewrite (dec_step n) by lia. rewrite length_app. cbn. f_equal. lia.
Qed.

Definition fits (o : string_obj) : Prop := object_ok o /\ zlen (obj_bytes o) <= LLONG_MAX.

Lemma addReplyBulkLen_appends o : fits o -> appends (addReplyBulkLen e o) [header 36 (zlen (obj_bytes o))].
Proof.
  intros [Ho Hl]. unfold addReplyBulkLen.
  assert (appends (if zlen (obj_bytes o) <? OBJ_SHARED_BULKHDR_LEN
    then hdr ← lift (shared_bulkhdr !! Z.to_nat (zlen (obj_bytes o))); addReply e hdr
    else addReplyLongLongWithPrefix e (zlen (obj_bytes o)) 36) [header 36 (zlen (obj_bytes o))]) as Hm.
  { destruct (Z.ltb_spec (zlen (obj_bytes o)) OBJ_SHARED_BULKHDR_LEN).
    - eapply appends_lift; [apply shared_lookup; lia|]. by apply addReply_appends.
    - apply prefix_appends. unfold long_ok, LLONG_MIN, LLONG_MAX in *. lia. }
  destruct o as [sh v|s|s]; [|done..]. eapply appends_lift; [|exact Hm]. unfold object_ok, LONG_MIN, LONG_MAX in *.
  unfold obj_bytes, decimal. destruct (Z.ltb_spec v 0).
  - destruct (Z.ltb_spec (- 2 ^ 63) v); [|lia]. rewrite radix10_len_ok by (cbn; lia). cbn [length]. f_equal. lia.
  - by rewrite radix10_len_ok by (cbn; lia).
Qed.

Lemma addReplyBulk_appends o : fits o -> appends (addReplyBulk e o) [header 36 (zlen (obj_bytes o)); obj_bytes o; crlf].
Proof.
  intros Ho. apply (appends_bind _ _ [_] [_; _]); [by apply addReplyBulkLen_appends|].
  apply (appends_bind _ _ [_] [_]); [apply addReply_appends, Ho|by apply addReply_appends].
Qed.

Lemma bulk_buffer_appends s : zlen s <= LLONG_MAX -> appends (addReplyBulkCBuffer e s) [header 36 (zlen s); s; crlf].
Proof.
  intros Hs. apply (appends_bind _ _ [_] [_; _]); [apply prefix_appends; unfold long_ok, LLONG_MIN in *; lia|].
  apply (appends_bind _ _ [_] [_]); [apply addReplyString_appends|by apply addReply_appends].
Qed.

Lemma error_appends s :
  appends (addReplyErrorLength e s) ((if bool_decide (head s = Some 45) then [] else [str "-ERR "]) ++ [s; crlf]).
Proof.
  apply appends_bind; [case_bool_decide; [apply appends_ret|apply addReplyString_appends]|].
  apply (appends_bind _ _ [_] [_]); apply addReplyString_appends.
Qed.

Lemma mbulk_len_appends n : 0 <= n <= LLONG_MAX -> appends (addReplyMultiBulkLen e n) [header 42 n].
Proof.
  intros Hn. unfold addReplyMultiBulkLen. destruct (Z.ltb_spec n OBJ_SHARED_BULKHDR_LEN).
  - eapply appends_lift; [destruct (Z.leb_spec 0 n); [|lia]; apply shared_lookup; lia|]. by apply addReply_appends.
  - apply prefix_appends. unfold long_ok, LLONG_MIN. lia.
Qed.

(** *** Deferred lengths *)

(** Nodes are put in place of a placeholder and of what follows it. *)
Lemma replace_behind c l r rr n bs lenstr :
  client_ok c -> reply c = l ++ None :: r -> content r = bs -> content rr = lenstr ++ bs -> Forall block_ok rr ->
  n = sizes (l ++ rr) -> n < SIZE_MAX - 1024 * 64 ->
  let c' := with_reply (l ++ rr) n (sentlen c) c in
  client_ok c' /\ queued c' = buf c ++ content l ++ lenstr ++ bs.
Proof.
  intros Hc Hr Hbs Hrr Hb Hn Ht c'.
  split; [|rewrite queued_content; cbn [c' buf reply with_reply]; by rewrite content_app, Hrr].
  pose proof Hc as [H1 H2 H3 H4 H5]. rewrite Hr in H2. apply Forall_app in H2 as [H2 _]. split; try done.
  - by apply Forall_app.
  - apply (sent_grow c c' []); [done|done|]. unfold front. cbn [c' buf reply with_reply]. rewrite Hr.
    destruct (buf c); [|by right; rewrite app_nil_r]. destruct l as [|[b|] l]; cbn; [by left|right; by rewrite app_nil_r|by left].
Qed.

(** What both ways of filling a placeholder give. *)
Definition filled (m : M ()) (s : server) (c : client) (l : list (option clientReplyBlock)) (bs : list Z) (room : Z) : Prop :=
  exists rr k, m (s, c) = Some ((), (s, with_reply (l ++ rr) k (sentlen c) c)) /\
    content rr = bs /\ Forall block_ok rr /\ k = sizes (l ++ rr) /\ k <= reply_bytes c + room.

Lemma sizes_cons o r : sizes (o :: r) = block_size o + sizes r.
Proof. done. Qed.

Lemma fill_spec s c l r lenstr :
  client_ok c -> reply c = l ++ None :: r -> reply_bytes c + budget [lenstr] < SIZE_MAX - 1024 * 64 ->
  filled (fill_node e (length l) lenstr) s c l (lenstr ++ content r) (budget [lenstr]).
Proof.
  intros [H1 H2 H3 H4 H5] Hr Hb. rewrite Hr in H2, H3. rewrite budget_cons in *. change (budget []) with 0 in *.
  pose proof (sizes_nonneg _ H2) as Hn. apply Forall_app in H2 as [Hl [_ Hr2]%Forall_cons].
  destruct (block_new_ok e (zlen lenstr) lenstr He) as (b & Eb & Db & Ob & Sb); [lia|unfold SIZE_MAX in *; lia|].
  pose proof (block_size_nonneg _ Ob) as Hp. cbn in Hp. unfold filled, fill_node. rewrite (M_bind_ok _ _ _ c (s, c)) by done.
  exists (Some b :: r), (reply_bytes c + size b). split_and!.
  - rewrite (M_bind_ok _ _ _ b (s, c)) by (unfold lift; by rewrite Eb). unfold modify. cbn [fst snd]. rewrite Hr.
    rewrite u64_small by (unfold SIZE_MAX in *; lia). rewrite insert_app_r_alt by lia. by rewrite Nat.sub_diag.
  - cbn. by rewrite Db.
  - by constructor.
  - rewrite H3, !sizes_app, !sizes_cons. cbn [block_size]. lia.
  - lia.
Qed.

Lemma glue_spec s c l next r lenstr :
  client_ok c -> reply c = l ++ None :: Some next :: r -> used next + zlen lenstr <= size next ->
  filled (glue_node (length l) next lenstr) s c l (lenstr ++ content (Some next :: r)) (budget [lenstr]).
Proof.
  intros [H1 H2 H3 H4 H5] Hr Hfit. rewrite Hr in H2, H3. apply Forall_app in H2 as [Hl [_ [_ Hr2]%Forall_cons]%Forall_cons].
  pose proof (budget_nonneg [lenstr]). unfold filled, glue_node. rewrite (M_bind_ok _ _ _ c (s, c)) by done.
  exists (Some (mk_block (size next) (lenstr ++ bytes next)) :: r), (reply_bytes c). split_and!.
  - rewrite (M_bind_ok _ _ _ () (s, c)) by (unfold lift; apply Z.leb_le in Hfit; by rewrite Hfit).
    unfold modify. cbn [fst snd]. rewrite Hr, insert_app_r_alt by lia. replace (S (length l) - length l)%nat with 1%nat by lia.
    cbn [insert list_insert]. by rewrite delete_middle.
  - cbn. by rewrite <-app_assoc.
  - constructor; [|done]. unfold block_ok, used in *. cbn [bytes size]. rewrite length_app. lia.
  - rewrite H3, !sizes_app, !sizes_cons. cbn [block_size size]. lia.
  - lia.
Qed.

Lemma set_deferred_spec s c l r n :
  client_ok c -> reply c = l ++ None :: r -> reply_bytes c + budget [header 42 n] < SIZE_MAX - 1024 * 64 ->
  exists s' c' rr, setDeferredMultiBulkLength e (Some (length l)) n (s, c) = Some ((), (s', c')) /\
    reply c' = l ++ rr /\ content rr = header 42 n ++ content r /\ buf c' = buf c /\ sentlen c' = sentlen c /\
    client_ok c' /\ kept c c' /\ reply_bytes c' <= reply_bytes c + budget [header 42 n].
Proof.
  intros Hc Hr Hb. pose proof (fill_spec s c l r _ Hc Hr Hb) as Hfill.
  unfold setDeferredMultiBulkLength. change (str "*" ++ decimal n ++ crlf) with (header 42 n). set (lenstr := header 42 n) in *.
  rewrite (M_bind_ok _ _ _ c (s, c)) by done. rewrite Hr.
  rewrite (M_bind_ok _ _ _ () (s, c)) by (unfold lift; rewrite list_lookup_middle by done; done).
  rewrite lookup_app_r by lia. replace (S (length l) - length l)%nat with 1%nat by lia. cbn [lookup list_lookup].
  match goal with |- context [(?m ≫= _) (s, c)] => assert (filled m s c l (lenstr ++ content r) (budget [lenstr]))
    as (rr & k & E1 & Crr & Frr & Hk & Nk) end.
  { destruct r as [|[next|] r]; cbn [lookup list_lookup]; [done| |done]. destruct (_ && _) eqn:Ec; [|done].
    apply andb_true_iff in Ec as [Hfit%Z.leb_le _]. apply glue_spec; [done..|].
    destruct Hc as [_ H2 H3 H4 _]. rewrite Hr in H2, H3. pose proof (sizes_nonneg _ H2). rewrite sizes_app, !sizes_cons in H3. cbn [block_size] in H3.
    apply Forall_app in H2 as [Hl%sizes_nonneg [_ [Hu Hr2%sizes_nonneg]%Forall_cons]%Forall_cons]. cbn in Hu.
    rewrite u64_small in Hfit by (unfold SIZE_MAX, used in *; lia). lia. }
  rewrite (M_bind_ok _ _ _ _ _ E1).
  destruct (replace_behind c l r rr k _ lenstr Hc Hr eq_refl Crr Frr Hk) as [O1 _]; [lia|].
  destruct (async_close_spec e s _ He O1) as (s2 & c2 & E2 & S2). exists s2, c2, rr. split; [done|].
  pose proof (same_output_ok _ _ S2 O1) as O2. destruct S2 as (K & B & S & R & N). cbn in K, B, S, R, N.
  split_and!; try done. by rewrite N.
Qed.

(** addDeferredMultiBulkLength, the elements, setDeferredMultiBulkLength *)
Definition deferred_array (body : M ()) (n : Z) : M () :=
  node ← addDeferredMultiBulkLength;
  body ;;
  setDeferredMultiBulkLength e node n.

Lemma deferred_silent body n s c s1 c1 r : prepareClientToWrite (s, c) = Some (false, (s1, c1)) -> body (s1, c1) = Some ((), r) -> deferred_array body n (s, c) = Some ((), r).
Proof.
  intros E1 E2. unfold deferred_array. assert (addDeferredMultiBulkLength (s, c) = Some (None, (s1, c1))) as E by (unfold addDeferredMultiBulkLength; by rewrite (M_bind_ok _ _ _ _ _ E1)).
  rewrite (M_bind_ok _ _ _ _ _ E), (M_bind_ok _ _ _ _ _ E2). done.
Qed.
Lemma deferred_emits body n ps f : emits body ps f -> (forall cl, f false cl = []) -> emits (deferred_array body n) (header 42 n :: ps) (fun w cl => if w then header 42 n :: f w cl else []).
Proof.
  intros Hbody Hsilent s c Hc Hb. rewrite budget_cons in *. pose proof (budget_nonneg ps).
  destruct (prepare_spec s c) as (s1 & c1 & E1 & S1). pose proof (same_output_ok _ _ S1 Hc) as O1.
  pose proof (queued_more_same _ _ Hc S1) as Q1. destruct (kept_modes c c1 (proj1 S1)) as [Km Kc].
  assert (reply_bytes c1 = reply_bytes c) as N1 by apply S1. destruct (may_write c) eqn:Hm.
  2:{ destruct (Hbody s1 c1 O1) as (s2 & c2 & E2 & N2 & Q2); [lia|]. rewrite Km, Hsilent in Q2. exists s2, c2. split; [by eapply deferred_silent|]. split; [lia|]. by eapply (queued_more_trans c c1 c2 [] []). }
  unfold deferred_array. set (c2 := with_reply (reply c1 ++ [None]) (reply_bytes c1 + block_size None) (sentlen c1) c1).
  assert (queued_more c1 c2 []) as Q2 by (apply (push_more c1 None); [done|done|cbn; lia]).
  assert (addDeferredMultiBulkLength (s, c) = Some (Some (length (reply c1)), (s1, c2))) as E2.
  { unfold addDeferredMultiBulkLength. rewrite (M_bind_ok _ _ _ _ _ E1). cbn [negb].
    rewrite (M_bind_ok _ _ _ () (s1, c2)) by (unfold modify, c2; cbn [fst snd block_size]; by rewrite Z.add_0_r).
    rewrite (M_bind_ok _ _ _ c2 (s1, c2)) by done. unfold mret, M_ret. do 3 f_equal.
    unfold c2. cbn [reply with_reply]. rewrite length_app. cbn [length]. lia. }
  rewrite (M_bind_ok _ _ _ _ _ E2). destruct (kept_modes c1 c2 (q_kept _ _ _ Q2)) as [Km2 Kc2].
  destruct (Hbody s1 c2 (q_ok _ _ _ Q2)) as (s3 & c3 & E3 & N3 & Q3); [cbn; lia|]. rewrite Km2, Kc2, Km, Kc in Q3.
  rewrite (M_bind_ok _ _ _ _ _ E3). destruct (q_behind _ _ _ Q3 (reply c1) [] eq_refl) as (r & R3 & C3 & B3 & T3). cbn in C3, B3, T3, N3.
  destruct (set_deferred_spec s3 c3 (reply c1) r n (q_ok _ _ _ Q3) R3) as (s4 & c4 & rr & E4 & R4 & C4 & B4 & T4 & O4 & K4 & N4).
  { rewrite budget_cons. change (budget []) with 0. lia. }
  rewrite budget_cons in N4. change (budget []) with 0 in N4. exists s4, c4. split; [done|]. split; [lia|].
  rewrite C3 in C4. change (mjoin (header 42 n :: ?l)) with (header 42 n ++ mjoin l).
  eapply (queued_more_trans c c1 c4 []); [done|]. split; [done| | |].
  - eapply kept_trans; [apply Q2|]. eapply kept_trans; [apply Q3|done].
  - apply pending_grow; [done|congruence|]. rewrite !queued_content, R4, B4, B3, content_app, C4. by rewrite app_assoc.
  - intros l r' Hl. exists (r' ++ rr). rewrite R4, Hl, <-app_assoc, content_app, C4. split_and!; [done|done|congruence..].
Qed.
End Replies.

(** ** Replies as a whole *)

(** The calls a command makes to build its reply; an array with a deferred
    length contains calls itself. *)
Inductive reply_item :=
  | RString (s : list Z) | RSds (s : list Z) | RObject (o : string_obj)
  | RError (s : list Z) | RErrorFormat (s : list Z) | RStatus (s : list Z)
  | RLongLong (v : Z) | RMultiBulkLen (n : Z)
  | RBulk (o : string_obj) | RBulkCBuffer (s : list Z) | RBulkSds (s : list Z)
  | RBulkCString (s : option (list Z)) | RBulkLongLong (v : Z)
  | RDeferred (n : Z) (items : list reply_item).

Fixpoint reply_with (e : env) (i : reply_item) : M () :=
  match i with
  | RString s => addReplyString e s
  | RSds s => addReplySds e s
  | RObject o => addReply e o
  | RError s => addReplyError e s
  | RErrorFormat s => addReplyErrorFormat e s
  | RStatus s => addReplyStatus e s
  | RLongLong v => addReplyLongLong e v
  | RMultiBulkLen n => addReplyMultiBulkLen e n
  | RBulk o => addReplyBulk e o
  | RBulkCBuffer s => addReplyBulkCBuffer e s
  | RBulkSds s => addReplyBulkSds e s
  | RBulkCString s => addReplyBulkCString e s
  | RBulkLongLong v => addReplyBulkLongLong e v
  | RDeferred n items =>
    deferred_array e ((fix go l : M () := match l with [] => mret () | i :: l => reply_with e i ;; go l end) items) n
  end.
Fixpoint reply_all (e : env) (l : list reply_item) : M () :=
  match l with [] => mret () | i :: l => reply_with e i ;; reply_all e l end.

(** The protocol, as the pieces that are queued. *)
Definition error_pieces (s : list Z) : list (list Z) :=
  (if bool_decide (head s = Some 45) then [] else [str "-ERR "]) ++ [s; crlf].
Definition one_line (s : list Z) : list Z := (fun b => if (b =? 13) || (b =? 10) then 32 else b) <$> s.
Definition bulk_pieces (s : list Z) : list (list Z) := [header 36 (zlen s); s; crlf].
Fixpoint pieces (i : reply_item) : list (list Z) :=
  match i with
  | RString s | RSds s => [s]
  | RObject o => [obj_bytes o]
  | RError s => error_pieces s
  | RErrorFormat s => error_pieces (one_line s)
  | RStatus s => [str "+"; s; crlf]
  | RLongLong v => [header 58 v]
  | RMultiBulkLen n => [header 42 n]
  | RBulk o => bulk_pieces (obj_bytes o)
  | RBulkCBuffer s | RBulkSds s | RBulkCString (Some s) => bulk_pieces s
  | RBulkCString None => [header 36 (-1)]
  | RBulkLongLong v => bulk_pieces (decimal v)
  | RDeferred n items => header 42 n :: (fix go l := match l with [] => [] | i :: l => pieces i ++ go l end) items
  end.
Fixpoint all_pieces (l : list reply_item) : list (list Z) :=
  match l with [] => [] | i :: l => pieces i ++ all_pieces l end.
Definition wire (l : list reply_item) : list Z := mjoin (all_pieces l).

(** Numbers and lengths fit a long. *)
Fixpoint item_ok (i : reply_item) : Prop :=
  match i with
  | RObject o => object_ok o
  | RLongLong v | RBulkLongLong v => long_ok v
  | RMultiBulkLen n => 0 <= n <= LLONG_MAX
  | RBulk o => fits o
  | RBulkCBuffer s | RBulkSds s | RBulkCString (Some s) => zlen s <= LLONG_MAX
  | RDeferred n items => (fix go l := match l with [] => True | i :: l => item_ok i /\ go l end) items
  | _ => True
  end.
Definition immediate (i : reply_item) : Prop := match i with RDeferred _ _ => False | _ => True end.

Lemma immediate_appends e i : allocator_ok e -> item_ok i -> immediate i -> appends (reply_with e i) (pieces i).
Proof.
  intros He Hi Hm. destruct i as [s|s|o|s|s|s|v|n|o|s|s|[s|]|v|n l]; cbn [reply_with pieces]; cbn in Hi; try done.
  - by apply addReplyString_appends.
  - by apply addReplyString_appends.
  - by apply addReply_appends.
  - by apply error_appends.
  - by apply error_appends.
  - apply (appends_bind _ _ [_] [_; _]); [by apply addReplyString_appends|].
    by apply (appends_bind _ _ [_] [_]); apply addReplyString_appends.
  - unfold addReplyLongLong. destruct (Z.eqb_spec v 0) as [->|]; [by apply addReply_appends|].
    destruct (Z.eqb_spec v 1) as [->|]; [by apply addReply_appends|by apply prefix_appends].
  - by apply mbulk_len_appends.
  - by apply addReplyBulk_appends.
  - by apply bulk_buffer_appends.
  - by apply bulk_buffer_appends.
  - by apply bulk_buffer_appends.
  - by apply addReply_appends.
  - pose proof (decimal_length v Hi). eapply appends_lift; [apply ll2string_ok; [done|cbn; lia]|]. cbn beta iota.
    rewrite take_decimal. apply bulk_buffer_appends; [done|unfold LLONG_MAX; lia].
Qed.

(** Induction on items that goes through the arrays. *)
Lemma reply_item_ind' (P : reply_item -> Prop) :
  (forall i, immediate i -> P i) -> (forall n l, Forall P l -> P (RDeferred n l)) -> forall i, P i.
Proof.
  intros Hi Hd. fix IH 1. intros i. destruct i as [s|s|o|s|s|s|v|n|o|s|s|s|v|n l]; try (by apply Hi).
  apply Hd. induction l as [|i l IHl]; constructor; [apply IH|apply IHl].
Qed.

(** What is queued: the protocol, for a client that is closing only the counts of the arrays of
    deferred length, and nothing when prepareClientToWrite refuses. *)
Fixpoint counts (i : reply_item) : list (list Z) :=
  match i with RDeferred n items => header 42 n :: (fix go l := match l with [] => [] | i :: l => counts i ++ go l end) items | _ => [] end.
Fixpoint all_counts (l : list reply_item) : list (list Z) := match l with [] => [] | i :: l => counts i ++ all_counts l end.
Definition heard (i : reply_item) (w cl : bool) : list (list Z) := if w then (if cl then counts i else pieces i) else [].
Definition all_heard (l : list reply_item) (w cl : bool) : list (list Z) := if w then (if cl then all_counts l else all_pieces l) else [].

Lemma item_emits e i : allocator_ok e -> item_ok i -> emits (reply_with e i) (pieces i) (heard i).
Proof.
  intros He. induction i as [i Hi|n l IH] using reply_item_ind'; intros Hok.
  { eapply emits_ext; [|by apply appends_emits, immediate_appends]. intros [|] [|]; try done. cbn. by destruct i. }
  cbn [reply_with pieces]. eapply emits_ext; [|apply (deferred_emits e He _ n _ (all_heard l)); [|done]]; [by intros [|] [|]|]. cbn in Hok.
  induction IH as [|i l Hi _ IHl]; [eapply emits_ext; [|apply appends_emits, appends_ret]; by intros [|] [|]|]. destruct Hok as [Ho Hok].
  eapply emits_ext; [|apply emits_bind; [by apply Hi|by apply IHl]]. by intros [|] [|].
Qed.
Lemma all_emits e l : allocator_ok e -> Forall item_ok l -> emits (reply_all e l) (all_pieces l) (all_heard l).
Proof.
  intros He. induction 1 as [|i l Hi _ IH]; [eapply emits_ext; [|apply appends_emits, appends_ret]; by intros [|] [|]|].
  eapply emits_ext; [|apply emits_bind; [by apply item_emits|exact IH]]. by intros [|] [|].
Qed.
Lemma immediate_counts l : Forall immediate l -> all_counts l = [].
Proof. induction 1 as [|i l Hi _ IH]; [done|]. cbn. rewrite IH. by destruct i. Qed.

(** C32: whatever sequence of calls a command builds its reply with, arrays with a
    length that is set afterwards and nested in each other included, a client that
    accepts replies has exactly their protocol queued behind what it had, whether
    in the static buffer, in the room of the last block or in new blocks, with no
    write outside a buffer and no failed assertion.  A client that prepareClientToWrite refuses
    (replies turned off or skipped, a link to a master, no connection) has nothing queued.  A client that
    is closing has nothing queued but the counts of the arrays of deferred length, whose
    functions do not test the flag. *)
Theorem reply_correct e s c items :
  allocator_ok e -> client_ok c -> Forall item_ok items ->
  reply_bytes c + budget (all_pieces items) < SIZE_MAX - 1024 * 64 ->
  exists s' c', reply_all e items (s, c) = Some ((), (s', c')) /\ client_ok c' /\
    (accepts_replies c = true -> pending c' = pending c ++ wire items) /\
    (may_write c = false -> pending c' = pending c) /\
    (may_write c = true -> closing c = true -> pending c' = pending c ++ mjoin (all_counts items) /\ (Forall immediate items -> pending c' = pending c)).
Proof.
  intros He Hc Hi Hb. destruct (all_emits e items He Hi s c Hc Hb) as (s' & c' & E & _ & Q). exists s', c'. split; [done|]. split; [apply Q|]. pose proof (q_pending _ _ _ Q) as Hp. unfold all_heard in Hp. split_and!.
  - intros Ha. unfold accepts_replies in Ha. fold (closing c) in Ha. by destruct (may_write c), (closing c).
  - intros Hw. rewrite Hw in Hp. cbn in Hp. by rewrite app_nil_r in Hp.
  - intros Hw Hcl. rewrite Hw, Hcl in Hp. split; [done|]. intros Him. rewrite immediate_counts in Hp by done. cbn in Hp. by rewrite app_nil_r in Hp.
Qed.

(** ** Sending *)

(** No array length is missing. *)
Definition complete (c : client) : Prop := Forall (fun o => o <> None) (reply c).

(** A call of write(2) takes a prefix, and fails only when the socket does. *)
Lemma write_spec bs sk :
  exists n err sk' k, write bs sk = (n, err, sk') /\ (k <= length bs)%nat /\ taken sk' = taken sk ++ take k bs /\
    (n = Z.of_nat k /\ err = false \/ n = -1 /\ k = 0%nat) /\
    (exists pre, script sk = pre ++ script sk' /\ (err = true -> exists pre', pre = pre' ++ [WriteError])) /\
    (forall m r, script sk = Wrote (S m) :: r -> bs <> [] -> (0 < k)%nat).
Proof.
  unfold write. destruct (script sk) as [|[n| |] r] eqn:E.
  - eexists _, _, _, 0%nat. split; [done|]. rewrite E. cbn. rewrite app_nil_r. split_and!; [lia|done|by right|by exists []|done].
  - eexists _, _, _, (length (take n bs)). split; [done|]. cbn. rewrite length_take.
    split_and!; [lia| |by left|by exists [Wrote n]|].
    + f_equal. destruct (Nat.min_spec n (length bs)) as [[? ->]|[? ->]]; [done|]. by rewrite !take_ge by lia.
    + intros m r' [= -> _] Hb. destruct bs; [done|]. cbn. lia.
  - eexists _, _, _, 0%nat. split; [done|]. cbn. rewrite app_nil_r. split_and!; [lia|done|by right|by exists [WouldBlock]|done].
  - eexists _, _, _, 0%nat. split; [done|]. cbn. rewrite app_nil_r. split_and!; [lia|done|by right| |done].
    exists [WriteError]. split; [done|]. intros _. by exists [].
Qed.

(** What is sent is the front; the rest follows. *)
Lemma front_pending c t : client_ok c -> queued c = front c ++ t -> pending c = drop (Z.to_nat (sentlen c)) (front c) ++ t.
Proof.
  intros Hc Hq. unfold pending. rewrite Hq. apply drop_app_le. destruct (ok_sent _ Hc); lia.
Qed.

(** k bytes of the front were sent: only the position moves, or the front is dropped. *)
Definition round_post (c : client) (sk : socket) (c' : client) (sk' : socket) (k : nat) : Prop :=
  client_ok c' /\ complete c' /\ flags c' = flags c /\ taken sk' = taken sk ++ take k (pending c) /\
  pending c' = drop k (pending c) /\ (k <= length (pending c))%nat /\ exists pre, script sk = pre ++ script sk'.

Lemma round_ends c sk sk' :
  client_ok c -> complete c -> taken sk' = taken sk -> (exists pre, script sk = pre ++ script sk') -> round_post c sk c sk' 0.
Proof. intros Hc Hn Ht Hs. split_and!; try done; [by rewrite Ht, app_nil_r|lia]. Qed.

Lemma advance_buf c sent' t :
  client_ok c -> buf c <> [] -> sentlen c < sent' <= zlen (buf c) -> queued c = buf c ++ t ->
  let c1 := with_buf (buf c) sent' c in
  let c' := if sent' =? zlen (buf c) then with_buf [] 0 c1 else c1 in
  client_ok c' /\ reply c' = reply c /\ flags c' = flags c /\ pending c' = drop (Z.to_nat (sent' - sentlen c)) (pending c).
Proof.
  intros Hc Hb Hs Hq c1 c'. pose proof (sent_le c Hc) as Hle. pose proof Hc as [H1 H2 H3 H4 H5].
  assert (t = content (reply c)) as -> by (rewrite queued_content in Hq; by apply app_inv_head in Hq).
  assert (pending c = drop (Z.to_nat (sentlen c)) (buf c ++ content (reply c))) as Hp by (unfold pending; by rewrite Hq).
  unfold c'. destruct (Z.eqb_spec sent' (zlen (buf c))) as [He|He]; (split; [|split; [done|split; [done|]]]).
  - split; try done. by left.
  - rewrite Hp, drop_drop. unfold pending, queued. cbn [with_buf buf reply sentlen c1].
    replace (_ + _)%nat with (length (buf c)) by lia. by rewrite drop_app_length.
  - split; try done. right. unfold front. cbn [with_buf buf reply sentlen c1].
    destruct (buf c); [done|]. lia.
  - rewrite Hp, drop_drop. unfold pending, queued. cbn [with_buf buf reply sentlen c1]. f_equal. lia.
Qed.

(** The first node of the list is dropped. *)
Lemma drop_node c o rest :
  client_ok c -> buf c = [] -> reply c = Some o :: rest ->
  let c' := with_reply rest (u64 (reply_bytes c - size o)) 0 c in
  client_ok c' /\ reply_bytes c' = sizes rest /\ pending c' = content rest.
Proof.
  intros Hc Hb Hr c'. pose proof Hc as [H1 H2 H3 H4 H5]. rewrite Hr in H2, H3. rewrite sizes_cons in H3. cbn in H3.
  apply Forall_cons in H2 as [Ho H2]. pose proof (sizes_nonneg _ H2). cbn in Ho. unfold used in Ho.
  assert (u64 (reply_bytes c - size o) = sizes rest) as Hn by (unfold SIZE_MAX in *; rewrite u64_small; lia).
  split_and!; [|done|unfold pending; rewrite queued_content; cbn; by rewrite Hb].
  split; cbn [c' with_reply reply reply_bytes buf sentlen]; rewrite ?Hn; try done; [lia|by left].
Qed.

Lemma advance_node c o rest sent' :
  client_ok c -> buf c = [] -> reply c = Some o :: rest -> sentlen c < sent' < used o ->
  let c' := with_reply (reply c) (reply_bytes c) sent' c in
  client_ok c' /\ pending c' = drop (Z.to_nat (sent' - sentlen c)) (pending c).
Proof.
  intros Hc Hb Hr Hs c'. pose proof (sent_le c Hc) as Hle. pose proof Hc as [H1 H2 H3 H4 H5]. split.
  - split; try done. right. unfold front. cbn [c' with_reply reply buf sentlen]. rewrite Hb, Hr. unfold used in Hs. lia.
  - unfold pending. rewrite drop_drop, !queued_content. cbn [c' with_reply reply buf sentlen]. f_equal. lia.
Qed.

(** Writing the first part of what is pending. *)
Lemma write_front c fr t sk :
  pending c = fr ++ t -> fr <> [] ->
  exists n err sk' k, write fr sk = (n, err, sk') /\ (k <= length fr)%nat /\ taken sk' = taken sk ++ take k (pending c) /\
    (n <= 0 /\ k = 0%nat \/ n = Z.of_nat k /\ 0 < n) /\ (exists pre, script sk = pre ++ script sk') /\
    (n = -1 -> err = true -> exists pre, script sk = pre ++ WriteError :: script sk') /\
    (forall m r, script sk = Wrote (S m) :: r -> (0 < k)%nat).
Proof.
  intros Hp Hf. destruct (write_spec fr sk) as (n & err & sk' & k & E & Hk & Ht & Hr & (pre & Hsc & Her) & Hpr).
  exists n, err, sk', k. split_and!; [done|done| |lia|by eexists| |eauto].
  - by rewrite Ht, Hp, take_app_le.
  - intros _ H. destruct (Her H) as [pre' ->]. exists pre'. by rewrite Hsc, <-app_assoc.
Qed.

Definition measure (c : client) : nat := (length (pending c) + length (reply c))%nat.

(** One round sends a prefix of what is pending, and makes progress when it goes on. *)
Definition round_spec (c : client) (sk : socket) (tot : Z) (r : round_result) : Prop :=
  exists go n err c' sk' k, r = (go, n, err, tot + Z.of_nat k, c', sk') /\ round_post c sk c' sk' k /\
    (if go : bool then n = Z.of_nat k /\ (measure c' < measure c)%nat else n <= 0 /\ k = 0%nat) /\
    (n = -1 -> err = true -> exists pre, script sk = pre ++ WriteError :: script sk') /\
    (forall m r, script sk = Wrote (S m) :: r -> (0 < k)%nat \/ go = true /\ sk' = sk).

Lemma round_stops c sk sk' n err tot :
  client_ok c -> complete c -> taken sk' = taken sk ++ take 0 (pending c) -> (exists pre, script sk = pre ++ script sk') ->
  (n = -1 -> err = true -> exists pre, script sk = pre ++ WriteError :: script sk') ->
  (forall m r, script sk = Wrote (S m) :: r -> (0 < 0)%nat) -> n <= 0 ->
  round_spec c sk tot (false, n, err, tot, c, sk').
Proof.
  intros Hc Hn Ht Hs He Hp Hle. exists false, n, err, c, sk', 0%nat. rewrite Z.add_0_r. cbn in Ht. rewrite app_nil_r in Ht.
  split_and!; [done|by apply round_ends|done..|]. intros m r Hm. left. by eapply Hp.
Qed.

(** k bytes were sent and the round goes on with c'. *)
Lemma round_goes c sk c' sk' k err tot :
  (0 < k <= length (pending c))%nat -> client_ok c' -> complete c' -> flags c' = flags c -> taken sk' = taken sk ++ take k (pending c) ->
  pending c' = drop k (pending c) -> (length (reply c') <= length (reply c))%nat -> (exists pre, script sk = pre ++ script sk') ->
  round_spec c sk tot (true, Z.of_nat k, err, tot + Z.of_nat k, c', sk').
Proof.
  intros Hk Hc Hn Hf Ht Hp Hr Hs. exists true, (Z.of_nat k), err, c', sk', k.
  split_and!; [done|split_and!; [done..|lia|done]|done| |lia|by intros; left; lia].
  unfold measure. rewrite Hp, length_drop. lia.
Qed.

Lemma write_buf_spec c sk tot : client_ok c -> complete c -> buf c <> [] -> round_spec c sk tot (write_buf c sk tot).
Proof.
  intros Hc Hn Hb. assert (front c = buf c) as Hf by (unfold front; by destruct (buf c)).
  pose proof (front_pending c (content (reply c)) Hc ltac:(by rewrite Hf)) as Hpe. rewrite Hf in Hpe.
  assert (0 < zlen (buf c)) as Hl by (destruct (buf c); [done|cbn; lia]).
  assert (0 <= sentlen c < zlen (buf c)) as Hs by (pose proof (ok_sent _ Hc) as [?|Hs']; [lia|by rewrite Hf in Hs']).
  assert (drop (Z.to_nat (sentlen c)) (buf c) <> []) as Hne.
  { intros Hd. apply (f_equal length) in Hd. rewrite length_drop in Hd. cbn in Hd. lia. }
  destruct (write_front c _ _ sk Hpe Hne) as (n & err & sk' & k & E & Hk & Ht & Hr & Hsc & Her & Hpr).
  unfold write_buf. rewrite E. rewrite length_drop in Hk. destruct (Z.leb_spec n 0) as [Hle|Hgt].
  { assert (k = 0%nat) as -> by lia. by apply round_stops. }
  assert (n = Z.of_nat k) as -> by lia.
  destruct (advance_buf c (sentlen c + Z.of_nat k) (content (reply c)) Hc Hb) as (Oa & Ra & Fa & Pa); [lia|done|].
  replace (Z.to_nat (sentlen c + Z.of_nat k - sentlen c)) with k in Pa by lia.
  apply round_goes; cbn [with_buf sentlen buf]; try done.
  - rewrite Hpe, length_app, length_drop. lia.
  - unfold complete. by rewrite Ra.
  - by rewrite Ra.
Qed.

Lemma write_node_spec c o rest sk tot :
  client_ok c -> complete c -> buf c = [] -> reply c = Some o :: rest ->
  exists r, write_node o rest c sk tot = Some r /\ round_spec c sk tot r.
Proof.
  intros Hc Hn Hb Er. assert (Forall (fun o => o <> None) rest) as Hn' by (unfold complete in Hn; rewrite Er in Hn; by apply Forall_inv_tail in Hn).
  assert (front c = bytes o) as Hf by (unfold front; by rewrite Hb, Er).
  assert (queued c = bytes o ++ content rest) as Hq by (rewrite queued_content, Hb, Er; done).
  pose proof (front_pending c (content rest) Hc ltac:(by rewrite Hf)) as Hpe. rewrite Hf in Hpe.
  destruct (drop_node c o rest Hc Hb Er) as (Od & Nd & Pd). unfold write_node. destruct (Z.eqb_spec (used o) 0) as [Hz|Hz].
  { assert (bytes o = []) as Hbo by (apply nil_length_inv; unfold used in Hz; lia).
    assert (sentlen c = 0) as Hs by (pose proof (ok_sent _ Hc) as [?|Hs']; [done|]; rewrite Hf, Hbo in Hs'; cbn in Hs'; lia).
    eexists. split; [done|]. eexists true, 0, false, _, sk, 0%nat. rewrite Z.add_0_r. split; [done|]. rewrite Hs, Hbo in Hpe. cbn in Hpe. rewrite Hs.
    split_and!; [|done| |by intros|by intros; right].
    - split_and!; try done; [by rewrite app_nil_r|by rewrite Pd, Hpe|lia|by exists []].
    - unfold measure. rewrite Pd, Hpe, Er. cbn [with_reply reply length]. rewrite drop_nil. cbn [app]. lia. }
  assert (0 <= sentlen c < used o) as Hs.
  { pose proof (ok_sent _ Hc) as [?|Hs']; [|rewrite Hf in Hs'; by unfold used]. unfold used in *. lia. }
  assert (drop (Z.to_nat (sentlen c)) (bytes o) <> []) as Hne.
  { intros Hd. apply (f_equal length) in Hd. rewrite length_drop in Hd. cbn in Hd. unfold used in Hs. lia. }
  destruct (write_front c _ _ sk Hpe Hne) as (n & err & sk' & k & E & Hk & Ht & Hr & Hsc & Her & Hpr).
  rewrite E. rewrite length_drop in Hk. destruct (Z.leb_spec n 0) as [Hle|Hgt].
  { assert (k = 0%nat) as -> by lia. eexists. split; [done|]. by apply round_stops. }
  assert (n = Z.of_nat k) as -> by lia. assert (0 < k <= length (pending c))%nat by (rewrite Hpe, length_app, length_drop; lia).
  cbn [with_reply sentlen]. destruct (Z.eqb_spec (sentlen c + Z.of_nat k) (used o)) as [Heq|Hneq].
  - assert (negb (bool_decide (rest = [])) || (u64 (reply_bytes c - size o) =? 0) = true) as Has.
    { case_bool_decide as Hre; [|done]. cbn [with_reply reply_bytes] in Nd. by rewrite Nd, Hre. }
    cbn [with_reply reply_bytes]. rewrite Has. eexists. split; [done|]. apply round_goes; try done.
    + change (pending (with_reply rest (u64 (reply_bytes c - size o)) 0 c) = drop k (pending c)).
      rewrite Pd, Hpe. by rewrite drop_app_length' by (unfold used in *; rewrite length_drop; lia).
    + rewrite Er. cbn. lia.
  - destruct (advance_node c o rest (sentlen c + Z.of_nat k) Hc Hb Er) as [Oa Pa]; [unfold used in *; lia|].
    replace (Z.to_nat (sentlen c + Z.of_nat k - sentlen c)) with k in Pa by lia.
    eexists. split; [done|]. by apply round_goes.
Qed.

Lemma write_round_spec c sk tot :
  client_ok c -> complete c -> clientHasPendingReplies c = true ->
  exists r, write_round c sk tot = Some r /\ round_spec c sk tot r.
Proof.
  intros Hc Hn Hp. unfold write_round. case_bool_decide as Hb; cbn [negb].
  - unfold clientHasPendingReplies in Hp. rewrite Hb in Hp. rewrite bool_decide_eq_true_2 in Hp by done. cbn in Hp.
    destruct (reply c) as [|[o|] rest] eqn:Er; [done| |unfold complete in Hn; rewrite Er in Hn; by apply Forall_inv in Hn].
    by apply write_node_spec.
  - eexists. split; [done|]. by apply write_buf_spec.
Qed.

(** What a whole loop does: the rounds add up. *)
Definition loop_spec (e : env) (c : client) (sk : socket) (tot : Z) (nw : Z) (r : Z * bool * Z * client * socket) : Prop :=
  exists n err c' sk' k, r = (n, err, tot + Z.of_nat k, c', sk') /\ round_post c sk c' sk' k /\
    (clientHasPendingReplies c' = false \/ enough e c' (tot + Z.of_nat k) false = true \/ n <= 0) /\
    (n = -1 -> err = true -> nw <> -1 -> exists pre, script sk = pre ++ WriteError :: script sk') /\
    (forall m r, script sk = Wrote (S m) :: r -> (0 < k)%nat \/ pending c = []).

Lemma no_pending c : client_ok c -> clientHasPendingReplies c = false -> pending c = [] /\ reply c = [] /\ buf c = [].
Proof.
  unfold clientHasPendingReplies, pending. intros Hc [Hb%negb_false_iff Hr%negb_false_iff]%orb_false_iff.
  apply bool_decide_eq_true in Hb, Hr. rewrite queued_content, Hb, Hr. split_and!; [|done..]. apply drop_nil.
Qed.

Lemma has_pending c : client_ok c -> clientHasPendingReplies c = true -> (0 < measure c)%nat.
Proof.
  intros Hc. unfold clientHasPendingReplies, measure. case_bool_decide as Hb.
  - case_bool_decide as Hr; [done|]. intros _. destruct (reply c); [done|]. cbn. lia.
  - intros _. assert (front c = buf c) as Hf by (unfold front; by destruct (buf c)).
    rewrite (front_pending c (content (reply c)) Hc) by by rewrite Hf. rewrite Hf, length_app, length_drop.
    pose proof (ok_sent _ Hc) as Hs. rewrite Hf in Hs. assert (0 < length (buf c))%nat by (destruct (buf c); [done|cbn; lia]). lia.
Qed.

Lemma round_post_trans c1 s1 c2 s2 c3 s3 a b : round_post c1 s1 c2 s2 a -> round_post c2 s2 c3 s3 b -> round_post c1 s1 c3 s3 (a + b).
Proof.
  intros (O1 & N1 & F1 & T1 & P1 & L1 & S1) (O2 & N2 & F2 & T2 & P2 & L2 & S2).
  split_and!; [done|done|congruence| |by rewrite P2, P1, drop_drop| |].
  - rewrite T2, T1, P1, <-app_assoc. f_equal. by rewrite take_take_drop.
  - rewrite P1, length_drop in L2. lia.
  - destruct S1 as [p1 ->], S2 as [p2 ->]. exists (p1 ++ p2). by rewrite app_assoc.
Qed.

Lemma enough_skip e c tot : enough e c tot true = false.
Proof. done. Qed.

Lemma write_loop_spec e fuel c sk nw err tot :
  client_ok c -> complete c -> (measure c <= fuel)%nat -> nw <> -1 ->
  exists r, write_loop e fuel c sk nw err tot = Some r /\ loop_spec e c sk tot nw r.
Proof.
  revert c sk nw err tot. induction fuel as [|fuel IH]; intros c sk nw err tot Hc Hn Hf Hw;
    cbn [write_loop]; destruct (clientHasPendingReplies c) eqn:Hp; cbn [negb].
  1: { apply has_pending in Hp; [lia|done]. }
  1,3: eexists; split; [done|]; destruct (no_pending c Hc Hp) as [Hpe _]; exists nw, err, c, sk, 0%nat; rewrite Z.add_0_r;
    split_and!; [done|by apply round_ends; [..|exists []]|by left|done|by intros; right].
  destruct (write_round_spec c sk tot Hc Hn Hp) as (r & -> & go & n & er & c1 & sk1 & k & -> & Hr & Hgo & Her & Hpr).
  cbn [mbind option_bind]. pose proof Hr as (O1 & N1 & F1 & T1 & P1 & L1 & S1).
  destruct go; cbn [andb negb orb].
  2:{ eexists. split; [done|]. exists n, er, c1, sk1, k. destruct Hgo as [Hle ->]. split_and!; [done|done|by right; right|by intros; apply Her|].
      intros m r Hm. destruct (Hpr m r Hm) as [?|[? _]]; [lia|done]. }
  destruct Hgo as [Hn1 Hme]. destruct (enough e c1 (tot + Z.of_nat k) (n =? 0)) eqn:Hen.
  { destruct (n =? 0) eqn:Hz; [by rewrite enough_skip in Hen|]. eexists. split; [done|]. exists n, er, c1, sk1, k.
    split_and!; [done|done|by right; left|by intros; apply Her|]. intros m r Hm. left. lia. }
  destruct (IH c1 sk1 (if n =? 0 then nw else n) er (tot + Z.of_nat k) O1 N1) as (r & E & n2 & er2 & c2 & sk2 & k2 & -> & R2 & X2 & Er2 & Pr2); [lia|destruct (Z.eqb_spec n 0); lia|].
  eexists. split; [done|]. exists n2, er2, c2, sk2, (k + k2)%nat.
  split_and!; [do 3 f_equal; lia|by eapply round_post_trans| | |].
  - by replace (tot + Z.of_nat (k + k2)) with (tot + Z.of_nat k + Z.of_nat k2) by lia.
  - intros H1 H2 _. destruct Er2 as [pre Hpre]; [done|done|destruct (Z.eqb_spec n 0); lia|]. destruct S1 as [p1 ->]. exists (p1 ++ pre). by rewrite Hpre, app_assoc.
  - intros m r Hm. destruct (Hpr m r Hm) as [?|[_ ->]]; [left; lia|]. destruct (Pr2 m r Hm) as [?|Hnil]; [left; lia|].
    destruct k; [|left; lia]. right. by rewrite P1 in Hnil.
Qed.

Lemma fuel_enough c : (measure c <= write_fuel c)%nat.
Proof. unfold measure, write_fuel, pending. rewrite length_drop. lia. Qed.

(** A call that fails with an error other than EAGAIN is the last one. *)
Lemma write_errors bs sk n err sk' : write bs sk = (n, err, sk') -> exists pre, script sk = pre ++ script sk' /\ (WriteError ∈ pre -> n = -1 /\ err = true).
Proof.
  unfold write. destruct (script sk) as [|[m| |] r] eqn:E; intros [= <- <- <-]; [exists []|exists [Wrote m]|exists [WouldBlock]|exists [WriteError]]; (split; [done|]); rewrite ?list_elem_of_singleton; try done. by intros ?%elem_of_nil.
Qed.
Lemma round_errors c sk tot go n err tot' c' sk' : write_round c sk tot = Some (go, n, err, tot', c', sk') ->
  exists pre, script sk = pre ++ script sk' /\ (WriteError ∈ pre -> go = false /\ n = -1 /\ err = true).
Proof.
  unfold write_round. destruct (negb _).
  - unfold write_buf. destruct (write _ sk) as [[m er] sk1] eqn:E. destruct (write_errors _ _ _ _ _ E) as (pre & Hs & He). destruct (Z.leb_spec m 0); intros [= <- <- <- <- <- <-]; exists pre; (split; [done|]); intros Hin; destruct (He Hin); [done|lia].
  - destruct (reply c) as [|[o|] rest]; [done| |done]. unfold write_node. destruct (used o =? 0); [intros [= <- <- <- <- <- <-]; exists []; split; [done|]; by intros ?%elem_of_nil|].
    destruct (write _ sk) as [[m er] sk1] eqn:E. destruct (write_errors _ _ _ _ _ E) as (pre & Hs & He). destruct (Z.leb_spec m 0); [intros [= <- <- <- <- <- <-]; exists pre; split; [done|]; intros Hin; by destruct (He Hin)|].
    destruct (_ =? used o); [destruct (_ || _); [|done]; cbn [mbind option_bind]|]; intros [= <- <- <- <- <- <-]; exists pre; (split; [done|]); intros Hin; destruct (He Hin); lia.
Qed.
Lemma loop_errors e fuel : forall c sk nw err tot n er tot' c' sk', write_loop e fuel c sk nw err tot = Some (n, er, tot', c', sk') ->
  exists pre, script sk = pre ++ script sk' /\ (WriteError ∈ pre -> n = -1 /\ er = true).
Proof.
  induction fuel as [|fuel IH]; intros c sk nw err tot n er tot' c' sk'; cbn [write_loop]; destruct (negb (clientHasPendingReplies c)); try done.
  1,2: intros [= <- <- <- <- <-]; exists []; (split; [done|]); by intros ?%elem_of_nil.
  destruct (write_round c sk tot) as [[[[[[go m] er1] tot1] c1] sk1]|] eqn:E; [|done]. cbn [mbind option_bind]. destruct (round_errors _ _ _ _ _ _ _ _ _ E) as (pre & Hs & He).
  destruct (negb go || _) eqn:Eg.
  - intros [= <- <- <- <- <-]. exists pre. split; [done|]. intros Hin. destruct (He Hin) as (-> & -> & ->). done.
  - intros E2. destruct (IH _ _ _ _ _ _ _ _ _ _ E2) as (pre2 & Hs2 & He2). exists (pre ++ pre2). split; [by rewrite Hs, Hs2, app_assoc|]. intros [Hin|Hin]%elem_of_app; [|by apply He2]. destruct (He Hin) as (-> & _). done.
Qed.

(** C33: writeToClient, whatever the socket does, hands it a prefix of what is
    pending, in order and without loss or repetition, over the static buffer, the
    blocks and partial writes, and keeps the rest pending; it always ends and no
    assertion fails.  It makes progress whenever the socket takes something.  The
    client is freed on the first failure of the socket (no call has failed for one that is
    kept) or, when it is closing, once everything has been sent, and only then. *)
Theorem writeToClient_correct e sk handler s c :
  client_ok c -> complete c ->
  exists r k, writeToClient e sk handler s c = Some r /\ (k <= length (pending c))%nat /\
    ((exists m rest, script sk = Wrote (S m) :: rest) -> pending c <> [] -> (0 < k)%nat) /\
    match r with
    | Alive s' c' h sk' =>
        taken sk' = taken sk ++ take k (pending c) /\ pending c' = drop k (pending c) /\ client_ok c' /\ complete c' /\
        flags c' = flags c /\ stat_net_output_bytes s' = stat_net_output_bytes s + Z.of_nat k /\
        (clientHasPendingReplies c' = false -> has (flags c) CLIENT_CLOSE_AFTER_REPLY = false /\ h = false) /\
        (exists calls, script sk = calls ++ script sk' /\ WriteError ∉ calls)
    | Freed sk' =>
        taken sk' = taken sk ++ take k (pending c) /\
        (has (flags c) CLIENT_CLOSE_AFTER_REPLY = true /\ k = length (pending c) \/
         exists pre, script sk = pre ++ WriteError :: script sk')
    end.
Proof.
  intros Hc Hn. destruct (write_loop_spec e (write_fuel c) c sk 0 false 0 Hc Hn (fuel_enough c)) as
    (r & E & n & er & c' & sk' & k & -> & (O & N & F & T & P & L & _) & X & Er & Pr); [done|].
  unfold writeToClient. rewrite E. cbn [mbind option_bind].
  assert ((exists m rest, script sk = Wrote (S m) :: rest) -> pending c <> [] -> (0 < k)%nat) as Hprog.
  { intros (m & rest & Hm) Hne. by destruct (Pr m rest Hm). }
  destruct (loop_errors _ _ _ _ _ _ _ _ _ _ _ _ E) as (calls & Hcalls & Herr).
  destruct ((n =? -1) && er) eqn:Hfail.
  { apply andb_true_iff in Hfail as [Hn1%Z.eqb_eq ->]. eexists _, k. split; [done|]. split_and!; [done..|]. right. by apply Er. }
  assert (WriteError ∉ calls) as Hno by (intros Hin; by destruct (Herr Hin) as [-> ->]).
  rewrite Z.add_0_l. set (c1 := if _ && _ then _ else c').
  assert (same_output c' c1 /\ flags c1 = flags c') as [S1 F1] by (unfold c1; destruct ((0 <? _) && _); by split_and!).
  pose proof (same_output_ok _ _ S1 O) as O1. pose proof (same_output_pending _ _ S1) as P1.
  assert (complete c1) as N1 by (unfold complete; destruct S1 as (_ & _ & _ & -> & _); done).
  destruct (clientHasPendingReplies c1) eqn:Hp; cbn [negb].
  - eexists _, k. split; [done|]. split_and!; try done; [by rewrite P1|congruence|by rewrite Hp|by exists calls].
  - destruct (no_pending c1 O1 Hp) as (Pe & Re & Be). cbn [with_buf flags]. rewrite F1, F.
    assert (k = length (pending c)) as Hk.
    { rewrite P1, P in Pe. apply (f_equal length) in Pe. rewrite length_drop in Pe. cbn in Pe. lia. }
    destruct (has (flags c) CLIENT_CLOSE_AFTER_REPLY) eqn:Hcl.
    + eexists _, k. split; [done|]. split_and!; [done..|]. left. done.
    + eexists _, k. split; [done|]. split_and!; try done.
      * rewrite <-P, <-P1, Pe. unfold pending, queued. cbn. by rewrite Re, Be.
      * split; cbn; rewrite ?Re, ?Be; try done; [|apply O1|by left]. rewrite (ok_bytes _ O1), Re. done.
      * cbn. congruence.
      * by exists calls.
Qed.

(** ** Examples *)

Definition demo_env : env := mk_env 1000 (replicate 3 (mk_limits 0 0 0)) 0 (fun _ => 0) (fun n => n).
Definition demo_server : server := mk_server [] [] 0.
Definition demo_client : client := mk_client 7 5 0 REPL_STATE_NONE false (str "+OK" ++ crlf) 2 [] 0 0 0.
Definition demo_items : list reply_item :=
  [RDeferred 2 [RBulk (ObjInt false (-42)); RDeferred 1 [RErrorFormat (str "no" ++ crlf)]]; RBulkCString None].

Lemma demo_allocator : allocator_ok demo_env.
Proof. split; [intros n Hn; cbn; lia|done]. Qed.
Lemma demo_client_ok : client_ok demo_client.
Proof. split; cbn; try done. right. lia. Qed.

Lemma reply_correct_witness :
  exists s' c', reply_all demo_env demo_items (demo_server, demo_client) = Some ((), (s', c')) /\ client_ok c' /\
    pending c' = str "K" ++ crlf ++ str "*2" ++ crlf ++ str "$3" ++ crlf ++ str "-42" ++ crlf ++ str "*1" ++ crlf ++
                 str "-ERR no  " ++ crlf ++ str "$-1" ++ crlf.
Proof.
  destruct (reply_correct demo_env demo_server demo_client demo_items demo_allocator demo_client_ok) as (s' & c' & E & Hc & Hp & _); [..|exists s', c'; split; [done|]; split; [done|]; by apply Hp].
  - apply Forall_cons. split; [|by repeat constructor]. unfold item_ok, fits, object_ok, LONG_MIN, LONG_MAX, LLONG_MAX.
    split_and!; try done; cbn; lia.
  - vm_compute. reflexivity.
Defined.

(** A socket that takes one byte, up to five, three, then blocks. *)
Lemma writeToClient_correct_witness :
  exists s' c' h,
    writeToClient demo_env (mk_socket [] [Wrote 1; Wrote 5; Wrote 3; WouldBlock]) true demo_server
      (with_reply [Some (mk_block 64 (str "123456789"))] 64 2 demo_client) =
      Some (Alive s' c' h (mk_socket (str "K" ++ crlf ++ str "123") [])) /\ pending c' = str "456789".
Proof.
  destruct (writeToClient_correct demo_env (mk_socket [] [Wrote 1; Wrote 5; Wrote 3; WouldBlock]) true demo_server
      (with_reply [Some (mk_block 64 (str "123456789"))] 64 2 demo_client)) as (r & k & E & _ & _ & H).
  - split; try done; [|right; cbn; lia]. constructor; [|done]. vm_compute. discriminate.
  - constructor; done.
  - revert E H. vm_compute. intros [= <-] (H & _). eexists _, _, _. split; reflexivity.
Defined.
