(* ===== verification/Resp.v ===== *)
(** * The request protocol (src/redis-stable/src/networking.c)

    Bytes read from a client are appended to its query buffer;
    processInputBuffer takes requests from the buffer, in the multi bulk form
    *<n>\r\n$<len>\r\n<arg>\r\n... or as a line of text, and executes them.  A request
    may arrive in any number of pieces, so that the state of the parser is kept in
    the client.  The model follows the source with the query buffer as its bytes;
    command execution is a parameter, a function on the state of the server that
    is not modelled here. *)
From stdpp Require Import prelude list list_numbers strings.
From Stdlib Require Import ZArith Lia.
From S2P Require Import Prelude Util SdsText Rio Rdb Reply.

Local Open Scope Z_scope.
Local Open Scope redis_scope.

(** ** The model *)

Definition PROTO_INLINE_MAX_SIZE : Z := 1024 * 64.
Definition PROTO_MBULK_BIG_ARG : Z := 1024 * 32.
Definition PROTO_IOBUF_LEN : Z := 1024 * 16.
Definition PROTO_REQ_INLINE : Z := 1.
Definition PROTO_REQ_MULTIBULK : Z := 2.

(** The members of struct client that the input uses, beside those of the output;
    [argv_size] is the number of pointers argv has room for, [is_asking] whether cmd is
    the ASKING command. *)
Record conn := mk_conn {
  cl : client; querybuf : list Z; qb_pos : nat; reqtype : Z; multibulklen : Z; bulklen : Z;
  argv : list string_obj; argv_size : nat; is_asking : bool; repl_ack_time : Z; reploff : Z; read_reploff : Z }.

Definition set_cl (x : client) (c : conn) : conn :=
  mk_conn x (querybuf c) (qb_pos c) (reqtype c) (multibulklen c) (bulklen c) (argv c) (argv_size c) (is_asking c)
    (repl_ack_time c) (reploff c) (read_reploff c).
Definition set_buf (b : list Z) (p : nat) (c : conn) : conn :=
  mk_conn (cl c) b p (reqtype c) (multibulklen c) (bulklen c) (argv c) (argv_size c) (is_asking c)
    (repl_ack_time c) (reploff c) (read_reploff c).
Definition set_reqtype (t : Z) (c : conn) : conn :=
  mk_conn (cl c) (querybuf c) (qb_pos c) t (multibulklen c) (bulklen c) (argv c) (argv_size c) (is_asking c)
    (repl_ack_time c) (reploff c) (read_reploff c).
Definition set_lens (m b : Z) (c : conn) : conn :=
  mk_conn (cl c) (querybuf c) (qb_pos c) (reqtype c) m b (argv c) (argv_size c) (is_asking c)
    (repl_ack_time c) (reploff c) (read_reploff c).
Definition set_argv (a : list string_obj) (n : nat) (c : conn) : conn :=
  mk_conn (cl c) (querybuf c) (qb_pos c) (reqtype c) (multibulklen c) (bulklen c) a n (is_asking c)
    (repl_ack_time c) (reploff c) (read_reploff c).
Definition set_asking (b : bool) (c : conn) : conn :=
  mk_conn (cl c) (querybuf c) (qb_pos c) (reqtype c) (multibulklen c) (bulklen c) (argv c) (argv_size c) b
    (repl_ack_time c) (reploff c) (read_reploff c).
Definition set_offsets (t off : Z) (c : conn) : conn :=
  mk_conn (cl c) (querybuf c) (qb_pos c) (reqtype c) (multibulklen c) (bulklen c) (argv c) (argv_size c) (is_asking c)
    t off (read_reploff c).

(** *** Searching the buffer *)

Fixpoint strchr (s : list Z) (ch : Z) : option nat :=
  match s with
  | [] => None
  | x :: s => if x =? ch then Some 0%nat else if x =? 0 then None else S <$> strchr s ch
  end.

(** strchr(c->querybuf+c->qb_pos, ch): the position in the buffer; the search ends at
    the first zero byte, at the latest at the terminator of the string. *)
Definition find_in_query (c : conn) (ch : Z) : option (option nat) :=
  assert! (Z.of_nat (qb_pos c) <=? zlen (querybuf c)) ;;
  Some ((fun i => (qb_pos c + i)%nat) <$> strchr (drop (qb_pos c) (querybuf c)) ch).

(** sdslen(c->querybuf)-c->qb_pos *)
Definition unread (c : conn) : Z := zlen (querybuf c) - Z.of_nat (qb_pos c).

(** The bytes from i up to j. *)
Definition slice (l : list Z) (i j : nat) : list Z := take (j - i) (drop i l).

Section Input.
Context (e : env) (proto_max_bulk_len : Z).

(** addReplyError and setProtocolError, whose log message is left out. *)
Definition setProtocolError (x : client) : client := with_flags (Z.lor (flags x) CLIENT_CLOSE_AFTER_REPLY) x.
Definition protocol_error (m : M ()) (s : server) (c : conn) : option (bool * server * conn) :=
  '(_, (s, x)) ← m (s, cl c);
  Some (false, s, set_cl (setProtocolError x) c).
Definition perror (msg : string) : server -> conn -> option (bool * server * conn) := protocol_error (addReplyError e (str msg)).

(** *** Inline requests *)

(** True is C_OK. *)
Definition processInlineBuffer (s : server) (c : conn) : option (bool * server * conn) :=
  nl ← find_in_query c 10;
  match nl with
  | None =>
    if PROTO_INLINE_MAX_SIZE <? unread c then perror "Protocol error: too big inline request" s c
    else Some (false, s, c)
  | Some newline =>
    let cr := negb (newline =? qb_pos c)%nat && bool_decide (querybuf c !! (newline - 1)%nat = Some 13) in
    let newline := if cr then (newline - 1)%nat else newline in
    let linefeed_chars := if cr then 2%nat else 1%nat in
    let querylen := (newline - qb_pos c)%nat in
    args ← sdssplitargs (slice (querybuf c) (qb_pos c) newline);
    match args with
    | None => perror "Protocol error: unbalanced quotes in request" s c
    | Some args =>
      let c := if (querylen =? 0)%nat && has (flags (cl c)) CLIENT_SLAVE then set_offsets (unixtime e) (reploff c) c else c in
      let c := set_buf (querybuf c) (qb_pos c + (querylen + linefeed_chars))%nat c in
      let size := if bool_decide (args = []) then argv_size c else length args in
      Some (true, s, set_argv (ObjRaw <$> filter (fun a => a <> []) args) size c)
    end
  end.

(** *** Multi bulk requests *)

(** c->argv[c->argc++] = o *)
Definition push_arg (o : string_obj) (c : conn) : option conn :=
  assert! (length (argv c) <? argv_size c)%nat ;; Some (set_argv (argv c ++ [o]) (argv_size c) c).

(** The number of arguments; [inl] is the value returned. *)
Definition read_count (s : server) (c : conn) : option ((bool * server * conn) + conn) :=
  assert! (bool_decide (argv c = [])) ;;
  nl ← find_in_query c 13;
  match nl with
  | None =>
    if PROTO_INLINE_MAX_SIZE <? unread c
    then inl <$> perror "Protocol error: too big mbulk count string" s c else Some (inl (false, s, c))
  | Some newline =>
    if unread c - 2 <? Z.of_nat newline - Z.of_nat (qb_pos c) then Some (inl (false, s, c)) else
    assert! (bool_decide (querybuf c !! qb_pos c = Some 42)) ;;
    match string2ll (slice (querybuf c) (qb_pos c + 1) newline) with
    | Some ll =>
      if 1024 * 1024 <? ll then inl <$> perror "Protocol error: invalid multibulk length" s c else
      let c := set_buf (querybuf c) (newline + 2) c in
      if ll <=? 0 then Some (inl (true, s, c)) else
      Some (inr (set_argv (argv c) (Z.to_nat ll) (set_lens ll (bulklen c) c)))
    | None => inl <$> perror "Protocol error: invalid multibulk length" s c
    end
  end.

(** The length of the next argument: the value returned, or whether the loop goes on. *)
Definition read_bulklen (s : server) (c : conn) : option ((bool * server * conn) + (bool * conn)) :=
  nl ← find_in_query c 13;
  match nl with
  | None =>
    if PROTO_INLINE_MAX_SIZE <? unread c
    then inl <$> perror "Protocol error: too big bulk count string" s c else Some (inr (false, c))
  | Some newline =>
    if unread c - 2 <? Z.of_nat newline - Z.of_nat (qb_pos c) then Some (inr (false, c)) else
    if negb (bool_decide (querybuf c !! qb_pos c = Some 36)) then
      x ← querybuf c !! qb_pos c;
      inl <$> protocol_error (addReplyErrorFormat e (str "Protocol error: expected '$', got '" ++ [x] ++ str "'")) s c
    else
    match string2ll (slice (querybuf c) (qb_pos c + 1) newline) with
    | Some ll =>
      if (ll <? 0) || (proto_max_bulk_len <? ll) then inl <$> perror "Protocol error: invalid bulk length" s c else
      let c := set_buf (querybuf c) (newline + 2) c in
      let c := if (PROTO_MBULK_BIG_ARG <=? ll) && (unread c <=? ll + 2)
               then set_buf (drop (qb_pos c) (querybuf c)) 0 c else c in
      Some (inr (true, set_lens (multibulklen c) ll c))
    | None => inl <$> perror "Protocol error: invalid bulk length" s c
    end
  end.

(** The argument, when it is there: whether the loop goes on. *)
Definition read_arg (c : conn) : option (bool * conn) :=
  if unread c <? bulklen c + 2 then Some (false, c) else
  let len := Z.to_nat (bulklen c) in
  c ← (if (qb_pos c =? 0)%nat && (PROTO_MBULK_BIG_ARG <=? bulklen c) && (zlen (querybuf c) =? bulklen c + 2) then
         set_buf [] (qb_pos c) <$> push_arg (ObjRaw (take len (querybuf c))) c
       else
         set_buf (querybuf c) (qb_pos c + (len + 2)) <$>
           push_arg (createStringObject (slice (querybuf c) (qb_pos c) (qb_pos c + len))) c);
  Some (true, set_lens (multibulklen c - 1) (-1) c).

(** The loop over the arguments, one round for each that is left. *)
Fixpoint read_args (fuel : nat) (s : server) (c : conn) : option ((bool * server * conn) + conn) :=
  if multibulklen c =? 0 then Some (inr c) else
  match fuel with
  | O => None
  | S fuel =>
    r ← (if bulklen c =? -1 then read_bulklen s c else Some (inr (true, c)));
    match r with
    | inl ret => Some (inl ret)
    | inr (false, c) => Some (inr c)
    | inr (true, c) =>
      '(go, c) ← read_arg c;
      if go : bool then read_args fuel s c else Some (inr c)
    end
  end.

Definition processMultibulkBuffer (s : server) (c : conn) : option (bool * server * conn) :=
  r ← (if multibulklen c =? 0 then read_count s c else Some (inr c));
  match r with
  | inl ret => Some ret
  | inr c =>
    assert! (0 <? multibulklen c) ;;
    r ← read_args (Z.to_nat (multibulklen c)) s c;
    match r with
    | inl ret => Some ret
    | inr c => Some (multibulklen c =? 0, s, c)
    end
  end.

(** *** The loop over requests *)

Definition freeClientArgv (c : conn) : conn := set_asking false (set_argv [] (argv_size c) c).

Definition resetClient (c : conn) : conn :=
  let prev_asking := is_asking c in
  let c := set_lens 0 (-1) (set_reqtype 0 (freeClientArgv c)) in
  let f := flags (cl c) in
  let f := if negb (has f CLIENT_MULTI) && negb prev_asking then Z.ldiff f CLIENT_ASKING else f in
  let f := Z.ldiff f CLIENT_REPLY_SKIP in
  let f := if has f CLIENT_REPLY_SKIP_NEXT then Z.ldiff (Z.lor f CLIENT_REPLY_SKIP) CLIENT_REPLY_SKIP_NEXT else f in
  set_cl (with_flags f (cl c)) c.

(** Everything else that commands read and change is the data [X].  Execution
    returns whether it was C_OK, and no client when it was freed.  [blocked_in_module] is
    btype == BLOCKED_MODULE. *)
Context {X : Type} (processCommand : server -> conn -> X -> option (bool * server * option conn * X))
  (clientsArePaused lua_timedout : bool) (blocked_in_module : conn -> bool).

(** One round of the loop; the first part of the result is whether it goes on, and a
    client that is gone ends it. *)
Definition input_round (s : server) (c : conn) (x : X) : option (bool * server * option conn * X) :=
  let f := flags (cl c) in
  if negb (has f CLIENT_SLAVE) && clientsArePaused then Some (false, s, Some c, x)
  else if has f CLIENT_BLOCKED then Some (false, s, Some c, x)
  else if lua_timedout && has f CLIENT_MASTER then Some (false, s, Some c, x)
  else if has f (Z.lor CLIENT_CLOSE_AFTER_REPLY CLIENT_CLOSE_ASAP) then Some (false, s, Some c, x)
  else
    let c := if reqtype c =? 0 then
               set_reqtype (if bool_decide (querybuf c !! qb_pos c = Some 42) then PROTO_REQ_MULTIBULK else PROTO_REQ_INLINE) c
             else c in
    '(ok, s, c) ← (if reqtype c =? PROTO_REQ_INLINE then processInlineBuffer s c
                   else if reqtype c =? PROTO_REQ_MULTIBULK then processMultibulkBuffer s c
                   else None);
    if negb ok then Some (false, s, Some c, x) else
    if bool_decide (argv c = []) then Some (true, s, Some (resetClient c), x) else
    '(ok, s, oc, x) ← processCommand s c x;
    match oc with
    | None => Some (false, s, None, x)
    | Some c =>
      let f := flags (cl c) in
      let c :=
        if ok : bool then
          let c := if has f CLIENT_MASTER && negb (has f CLIENT_MULTI)
                   then set_offsets (repl_ack_time c) (read_reploff c - zlen (querybuf c) + Z.of_nat (qb_pos c)) c else c in
          if negb (has f CLIENT_BLOCKED) || negb (blocked_in_module c) then resetClient c else c
        else c in
      Some (true, s, Some c, x)
    end.

Fixpoint input_loop (fuel : nat) (s : server) (c : conn) (x : X) : option (server * option conn * X) :=
  if negb (qb_pos c <? length (querybuf c))%nat then Some (s, Some c, x) else
  match fuel with
  | O => None
  | S fuel =>
    '(go, s, oc, x) ← input_round s c x;
    match oc with
    | Some c => if go : bool then input_loop fuel s c x else Some (s, Some c, x)
    | None => Some (s, None, x)
    end
  end.

(** sdsrange(c->querybuf,c->qb_pos,-1); c->qb_pos = 0; *)
Definition trim_query (c : conn) : conn :=
  if (0 <? qb_pos c)%nat then set_buf (drop (qb_pos c) (querybuf c)) 0 c else c.

(** Every round that goes on takes at least one byte from the buffer. *)
Definition processInputBuffer (s : server) (c : conn) (x : X) : option (server * option conn * X) :=
  '(s, oc, x) ← input_loop (length (querybuf c)) s c x;
  Some (s, option_map trim_query oc, x).

(** *** Reading *)

Definition readlen (c : conn) : Z :=
  if (reqtype c =? PROTO_REQ_MULTIBULK) && negb (multibulklen c =? 0) && negb (bulklen c =? -1) &&
     (PROTO_MBULK_BIG_ARG <=? bulklen c) then
    let remaining := bulklen c + 2 - zlen (querybuf c) in
    if (0 <? remaining) && (remaining <? PROTO_IOBUF_LEN) then remaining else PROTO_IOBUF_LEN
  else PROTO_IOBUF_LEN.

(** The result of read(2), which returns at most readlen of the bytes the socket has. *)
Inductive read_result := Data (bs : list Z) | ReadAgain | ReadError | EndOfFile.

(** For clients other than the master, whose stream is also forwarded; no client is
    left when it was freed.  The first part of the result is how much was read. *)
Definition readQueryFromClient (client_max_querybuf_len : Z) (r : read_result) (s : server) (c : conn) (x : X) :
    option (nat * server * option conn * X) :=
  match r with
  | ReadAgain => Some (0%nat, s, Some c, x)
  | ReadError | EndOfFile => Some (0%nat, s, None, x)
  | Data bs =>
    let got := take (Z.to_nat (readlen c)) bs in
    let c := set_buf (querybuf c ++ got) (qb_pos c) c in
    let c := set_cl (with_times (obuf_soft_limit_reached_time (cl c)) (unixtime e) (cl c)) c in
    if client_max_querybuf_len <? zlen (querybuf c) then Some (length got, s, None, x) else
    '(s, oc, x) ← processInputBuffer s c x;
    Some (length got, s, oc, x)
  end.

End Input.

(** ** The protocol *)

Definition encode (args : list (list Z)) : list Z := header 42 (zlen args) ++ mjoin (bulk <$> args).

(** ** Header lines *)

Lemma strchr_found a ch t : Forall (fun x => x <> ch /\ x <> 0) a -> strchr (a ++ ch :: t) ch = Some (length a).
Proof.
  induction 1 as [|x a [Hx H0] _ IH]; cbn; [by rewrite Z.eqb_refl|].
  destruct (Z.eqb_spec x ch); [done|]. destruct (Z.eqb_spec x 0); [done|]. by rewrite IH.
Qed.
Lemma strchr_absent a ch : Forall (fun x => x <> ch /\ x <> 0) a -> strchr a ch = None.
Proof.
  induction 1 as [|x a [Hx H0] _ IH]; cbn; [done|].
  destruct (Z.eqb_spec x ch); [done|]. destruct (Z.eqb_spec x 0); [done|]. by rewrite IH.
Qed.

Lemma decimal_clean v : Forall (fun x => x <> 13 /\ x <> 0) (decimal v).
Proof.
  assert (forall n, 0 <= n -> Forall (fun x => x <> 13 /\ x <> 0) (dec n)) as Hd.
  { intros n Hn. eapply Forall_impl; [by apply dec_digits|]. intros x Hx. cbn in Hx. lia. }
  unfold decimal. destruct (Z.ltb_spec v 0); [constructor; [lia|]|]; apply Hd; lia.
Qed.

(** The bytes that have been received and not been used. *)
Definition rest_of (c : conn) : list Z := drop (qb_pos c) (querybuf c).
Definition pos_ok (c : conn) : Prop := (qb_pos c <= length (querybuf c))%nat.

Lemma unread_length c : pos_ok c -> unread c = zlen (rest_of c).
Proof. unfold unread, rest_of, pos_ok. rewrite length_drop. lia. Qed.
Lemma find_rest c ch : pos_ok c -> find_in_query c ch = Some ((fun i => (qb_pos c + i)%nat) <$> strchr (rest_of c) ch).
Proof. intros Hp. unfold find_in_query, pos_ok in *. destruct (Z.leb_spec (Z.of_nat (qb_pos c)) (zlen (querybuf c))); [done|lia]. Qed.
Lemma slice_rest c i j : slice (querybuf c) (qb_pos c + i) (qb_pos c + j) = slice (rest_of c) i j.
Proof. unfold slice, rest_of. rewrite drop_drop. f_equal. lia. Qed.
Lemma lookup_rest c i : querybuf c !! (qb_pos c + i)%nat = rest_of c !! i.
Proof. unfold rest_of. by rewrite lookup_drop. Qed.

Lemma prefix_cases (u f h t : list Z) :
  u ++ f = h ++ t -> (exists u', u = h ++ u' /\ u' ++ f = t) \/ (length u < length h)%nat /\ (exists h', h = u ++ h' /\ f = h' ++ t) .
Proof.
  intros H. apply app_eq_inv in H as [(k & -> & ->)|(k & -> & ->)]; [by eauto|].
  destruct k as [|y k]; [left; exists []; by rewrite !app_nil_r|right]. rewrite length_app. cbn. split; [lia|eauto].
Qed.

Definition too_short (c : conn) (newline : nat) : bool := unread c - 2 <? Z.of_nat newline - Z.of_nat (qb_pos c).

Lemma header_found c p v u :
  pos_ok c -> p <> 13 -> p <> 0 -> rest_of c = header p v ++ u ->
  let nl := (qb_pos c + S (length (decimal v)))%nat in
  find_in_query c 13 = Some (Some nl) /\ too_short c nl = false /\ querybuf c !! qb_pos c = Some p /\
  slice (querybuf c) (qb_pos c + 1) nl = decimal v /\ drop (nl + 2) (querybuf c) = u /\ (nl + 2 <= length (querybuf c))%nat.
Proof.
  intros Hp H13 H0 Hr nl. assert (strchr (rest_of c) 13 = Some (S (length (decimal v)))) as Hs.
  { rewrite Hr. unfold header, crlf. rewrite <-app_comm_cons, <-app_assoc. cbn [app].
    rewrite app_comm_cons. apply (strchr_found (p :: decimal v)). constructor; [done|apply decimal_clean]. }
  assert (length (rest_of c) = length (decimal v) + 3 + length u)%nat as Hl.
  { rewrite Hr. unfold header. cbn. rewrite !length_app. cbn. lia. }
  split_and!.
  - by rewrite find_rest, Hs.
  - unfold too_short. rewrite unread_length, Hl by done. unfold nl. destruct (Z.ltb_spec (Z.of_nat (length (decimal v) + 3 + length u) - 2) (Z.of_nat (qb_pos c + S (length (decimal v))) - Z.of_nat (qb_pos c))); [lia|done].
  - rewrite <-(Nat.add_0_r (qb_pos c)), lookup_rest, Hr. done.
  - unfold nl. rewrite slice_rest. unfold slice. rewrite Hr.
    replace (S (length (decimal v)) - 1)%nat with (length (decimal v)) by lia.
    change (drop 1 (header p v ++ u)) with ((decimal v ++ crlf) ++ u). by rewrite <-app_assoc, take_app_length.
  - unfold nl. rewrite <-Nat.add_assoc, <-drop_drop. fold (rest_of c). rewrite Hr. apply drop_app_length'. unfold header. cbn. rewrite length_app. cbn. lia.
  - unfold rest_of in Hl. rewrite length_drop in Hl. unfold pos_ok in Hp. lia.
Qed.

Lemma header_length p v : LLONG_MIN <= v <= LLONG_MAX -> (length (header p v) <= 23)%nat.
Proof. intros Hv. pose proof (decimal_length v Hv). unfold header. cbn. rewrite length_app. cbn. lia. Qed.

Lemma header_partial c p v h' :
  pos_ok c -> p <> 13 -> p <> 0 -> LLONG_MIN <= v <= LLONG_MAX -> header p v = rest_of c ++ h' -> (0 < length h')%nat ->
  find_in_query c 13 = Some None /\ (PROTO_INLINE_MAX_SIZE <? unread c) = false \/
  exists nl, find_in_query c 13 = Some (Some nl) /\ too_short c nl = true.
Proof.
  intros Hp H13 H0 Hv Hh Hl. assert (Forall (fun x => x <> 13 /\ x <> 0) (p :: decimal v)) as Hcl by (constructor; [done|apply decimal_clean]).
  assert ((p :: decimal v) ++ crlf = rest_of c ++ h') as Hh' by done.
  rewrite find_rest by done. unfold too_short. rewrite unread_length by done.
  pose proof (header_length p v Hv) as Hlen. rewrite Hh, length_app in Hlen.
  destruct h' as [|y h' _] using rev_ind; [cbn in Hl; lia|]. unfold crlf in Hh'.
  change [13; 10] with ([13] ++ [10]) in Hh'. rewrite !app_assoc in Hh'. apply app_inj_tail in Hh' as [Hh' <-].
  destruct h' as [|y h' _] using rev_ind.
  - right. rewrite app_nil_r in Hh'. rewrite <-Hh'. rewrite (strchr_found (p :: decimal v) 13 []) by done. eexists. split; [done|].
    rewrite length_app. cbn [length]. destruct (Z.ltb_spec (Z.of_nat (S (length (decimal v)) + 1) - 2) (Z.of_nat (qb_pos c + S (length (decimal v))) - Z.of_nat (qb_pos c))); [done|lia].
  - left. rewrite !app_assoc in Hh'. apply app_inj_tail in Hh' as [Hh' _]. split.
    + rewrite strchr_absent; [done|]. rewrite Hh' in Hcl. by apply Forall_app in Hcl as [? _].
    + unfold PROTO_INLINE_MAX_SIZE. destruct (Z.ltb_spec (1024 * 64) (zlen (rest_of c))); [lia|done].
Qed.

(** ** Reading the arguments *)

(** Everything but the state of the parser is unchanged. *)
Definition framed (c c' : conn) : Prop :=
  cl c' = cl c /\ is_asking c' = is_asking c /\ repl_ack_time c' = repl_ack_time c /\ reploff c' = reploff c /\
  read_reploff c' = read_reploff c.
Lemma framed_trans c1 c2 c3 : framed c1 c2 -> framed c2 c3 -> framed c1 c3.
Proof. unfold framed. intuition congruence. Qed.

(** The request whose arguments are [args] is being read: [done] have been, the
    stream goes on with [todo] and then with [tl], and k arguments more belong to the
    request. *)
Record in_args_of (k : nat) (c : conn) (fut tl : list Z) (done todo : list (list Z)) : Prop := {
  ia_pos : pos_ok c;
  ia_type : reqtype c = PROTO_REQ_MULTIBULK;
  ia_left : multibulklen c = zlen todo + Z.of_nat k;
  ia_done : obj_bytes <$> argv c = done;
  ia_size : argv_size c = (length done + length todo + k)%nat;
  ia_rest : bulklen c = -1 /\ rest_of c ++ fut = mjoin (bulk <$> todo) ++ tl \/
            exists a t, todo = a :: t /\ bulklen c = zlen a /\ rest_of c ++ fut = a ++ crlf ++ mjoin (bulk <$> t) ++ tl }.
Abbreviation in_args := (in_args_of 0).

Section Arguments.
Context (e : env) (maxb : Z).

Definition arg_ok (a : list Z) : Prop := zlen a <= maxb /\ zlen a <= LLONG_MAX.

Lemma set_buf_pos b p c : pos_ok (set_buf b p c) <-> (p <= length b)%nat.
Proof. done. Qed.

Lemma obj_bytes_create a : obj_bytes (createStringObject a) = a.
Proof. unfold createStringObject. by destruct (_ <=? _). Qed.

(** The header of an argument, or not enough of it. *)
Lemma read_bulklen_spec k s c fut tl done a t :
  in_args_of k c fut tl done (a :: t) -> bulklen c = -1 -> arg_ok a ->
  read_bulklen e maxb s c = Some (inr (false, c)) /\ (length (rest_of c) < length (bulk a))%nat /\ fut <> [] \/
  exists c', read_bulklen e maxb s c = Some (inr (true, c')) /\ framed c c' /\ in_args_of k c' fut tl done (a :: t) /\ bulklen c' = zlen a.
Proof.
  intros [Hp Ht Hl Hd Hs Hr] Hb [Hm Ha]. destruct Hr as [[_ Hr]|(a' & t' & _ & Hb' & _)]; [|lia].
  assert (LLONG_MIN <= zlen a <= LLONG_MAX) as Hv by (unfold LLONG_MIN, LLONG_MAX in *; lia).
  change (mjoin (bulk <$> a :: t)) with (bulk a ++ mjoin (bulk <$> t)) in Hr. unfold bulk at 1 in Hr. rewrite <-!app_assoc in Hr.
  apply prefix_cases in Hr as [(u & Hu & Hr)|(Hlt & h' & Hh & Hf)].
  - right. destruct (header_found c 36 (zlen a) u Hp ltac:(lia) ltac:(lia) Hu) as (Fnd & Sh & Hc & Sl & Dr & Le).
    set (nl := (qb_pos c + S (length (decimal (zlen a))))%nat) in *. unfold read_bulklen. rewrite Fnd. cbn [mbind option_bind].
    fold (too_short c nl). rewrite Sh, Hc, bool_decide_eq_true_2 by done. cbn [negb].
    rewrite Sl. rewrite (proj2 (string2ll_iff (decimal (zlen a)) (zlen a))) by done.
    destruct (Z.ltb_spec (zlen a) 0); [lia|]. destruct (Z.ltb_spec maxb (zlen a)); [lia|]. cbn [orb].
    eexists. split; [done|]. destruct (_ && _); (split; [done|]); (split; [|done]).
    + split; try done; [unfold pos_ok; cbn; lia|]. right. exists a, t. split_and!; [done..|]. cbn. unfold rest_of. cbn. by rewrite Dr.
    + split; try done. right. exists a, t. split_and!; [done..|]. cbn. unfold rest_of. cbn. by rewrite Dr.
  - left. split; [|split; [unfold bulk; rewrite length_app; lia|]].
    2:{ intros ->. destruct h'; [|done]. rewrite app_nil_r in Hh. rewrite Hh in Hlt. lia. }
    destruct (header_partial c 36 (zlen a) h' Hp ltac:(lia) ltac:(lia) Hv Hh) as [[Fnd Un]|(nl & Fnd & Sh)].
    { rewrite Hh, length_app in Hlt. lia. }
    + unfold read_bulklen. rewrite Fnd. cbn [mbind option_bind]. by rewrite Un.
    + unfold read_bulklen. rewrite Fnd. cbn [mbind option_bind]. unfold too_short in Sh. by rewrite Sh.
Qed.

(** The bytes of an argument, or not enough of them. *)
Lemma read_arg_spec k c fut tl done a t :
  in_args_of k c fut tl done (a :: t) -> bulklen c = zlen a ->
  read_arg c = Some (false, c) /\ (length (rest_of c) < length (bulk a))%nat /\ fut <> [] \/
  exists c', read_arg c = Some (true, c') /\ framed c c' /\ in_args_of k c' fut tl (done ++ [a]) t /\ bulklen c' = -1.
Proof.
  intros [Hp Ht Hl Hd Hs Hr] Hb. destruct Hr as [[? _]|(a' & t' & [= <- <-] & _ & Hr)]; [lia|].
  rewrite app_assoc in Hr. unfold read_arg. rewrite unread_length, Hb by done.
  apply prefix_cases in Hr as [(u & Hu & Hr)|(Hlt & h' & Hh & Hf)].
  2:{ left. rewrite length_app in Hlt. cbn in Hlt. split; [|split; [unfold bulk; rewrite !length_app; cbn; lia|]].
      - by destruct (Z.ltb_spec (zlen (rest_of c)) (zlen a + 2)); [|lia].
      - intros ->. destruct h'; [|done]. rewrite app_nil_r in Hh. rewrite <-Hh, length_app in Hlt. cbn in Hlt. lia. }
  right. assert (length (rest_of c) = length a + 2 + length u)%nat as Hlr by (rewrite Hu, !length_app; cbn; lia).
  destruct (Z.ltb_spec (zlen (rest_of c)) (zlen a + 2)); [lia|]. rewrite Nat2Z.id.
  assert (length (argv c) = length done) as Hla by (rewrite <-Hd; by rewrite length_fmap).
  assert ((length (argv c) <? argv_size c)%nat = true) as Hroom by (apply Nat.ltb_lt; rewrite Hla, Hs; cbn; lia).
  assert (forall o b p, obj_bytes o = a -> (p <= length b)%nat -> drop p b = u ->
    in_args_of k (set_lens (multibulklen c - 1) (-1) (set_buf b p (set_argv (argv c ++ [o]) (argv_size c) c))) fut tl (done ++ [a]) t) as Hin.
  { intros o b p Ho Hpb Hdr. split; try done.
    - cbn. rewrite Hl. cbn. lia.
    - cbn. by rewrite fmap_app, Hd; cbn; rewrite Ho.
    - cbn. rewrite Hs, length_app. cbn. lia.
    - left. split; [done|]. unfold rest_of. cbn. by rewrite Hdr. }
  unfold push_arg. rewrite Hroom. unfold rest_of in *.
  destruct ((qb_pos c =? 0)%nat && (PROTO_MBULK_BIG_ARG <=? zlen a) && (zlen (querybuf c) =? zlen a + 2)) eqn:Hfast;
    cbn [fmap option_fmap option_map mbind option_bind]; (eexists; split; [done|]); (split; [done|]); (split; [|done]).
  - apply andb_true_iff in Hfast as [[H0%Nat.eqb_eq _]%andb_true_iff H2%Z.eqb_eq]. rewrite H0, drop_0 in Hu.
    assert (u = []) as -> by (apply nil_length_inv; rewrite H0, drop_0 in Hlr; lia).
    change (multibulklen (set_buf [] (qb_pos c) (set_argv (argv c ++ [ObjRaw (take (length a) (querybuf c))]) (argv_size c) c)))
      with (multibulklen c). apply Hin; [|rewrite H0; done|by rewrite H0].
    cbn. by rewrite Hu, <-!app_assoc, take_app_length.
  - cbn [set_buf set_argv multibulklen]. apply Hin.
    + rewrite obj_bytes_create. unfold slice. rewrite Hu, <-app_assoc. replace (qb_pos c + length a - qb_pos c)%nat with (length a) by lia.
      by rewrite take_app_length.
    + rewrite length_drop in Hlr. unfold pos_ok in Hp. lia.
    + rewrite <-drop_drop, Hu. apply drop_app_length'. rewrite length_app. done.
Qed.

Lemma framed_refl c : framed c c.
Proof. done. Qed.

(** A request is complete, or more of it is to come. *)
Definition args_read (c : conn) (fut tl : list Z) (args : list (list Z)) (c' : conn) : Prop :=
  framed c c' /\
  (multibulklen c' = 0 /\ in_args c' fut tl args [] \/
   exists d t, args = d ++ t /\ t <> [] /\ in_args c' fut tl d t /\ fut <> [] /\ (length (rest_of c') < length (mjoin (bulk <$> t)))%nat).

Lemma args_read_trans c1 c2 fut tl args c3 : framed c1 c2 -> args_read c2 fut tl args c3 -> args_read c1 fut tl args c3.
Proof. intros H [F R]. split; [by eapply framed_trans|done]. Qed.

Lemma bulk_head_lt n a t : (n < length (bulk a))%nat -> (n < length (mjoin (bulk <$> a :: t)))%nat.
Proof. change (mjoin (bulk <$> a :: t)) with (bulk a ++ mjoin (bulk <$> t)). rewrite length_app. lia. Qed.

Lemma read_args_spec s todo : forall fuel c fut tl done,
  in_args c fut tl done todo -> Forall arg_ok todo -> (length todo <= fuel)%nat ->
  exists c', read_args e maxb fuel s c = Some (inr c') /\ args_read c fut tl (done ++ todo) c'.
Proof.
  induction todo as [|a t IH]; intros fuel c fut tl done Hin Hok Hf.
  - exists c. pose proof (ia_left _ _ _ _ _ _ Hin) as Hm. cbn in Hm. assert (read_args e maxb fuel s c = Some (inr c)) as -> by (destruct fuel; cbn; by rewrite Hm).
    split; [done|]. split; [apply framed_refl|]. left. by rewrite app_nil_r.
  - destruct fuel as [|fuel]; [cbn in Hf; lia|]. apply Forall_cons in Hok as [Ha Hok]. cbn [read_args].
    pose proof (ia_left _ _ _ _ _ _ Hin) as Hm. destruct (Z.eqb_spec (multibulklen c) 0) as [Hz|_]; [cbn in Hm; lia|].
    assert (forall c0, in_args c0 fut tl done (a :: t) -> (length (rest_of c0) < length (bulk a))%nat -> fut <> [] -> args_read c0 fut tl (done ++ a :: t) c0) as Hstop.
    { intros c0 H0 Hl Hfu. split; [apply framed_refl|]. right. exists done, (a :: t). split_and!; try done. by apply bulk_head_lt. }
    assert (forall c0, in_args c0 fut tl done (a :: t) -> bulklen c0 = zlen a ->
      exists c', ('(go, c) ← read_arg c0; if go : bool then read_args e maxb fuel s c else Some (inr c)) = Some (inr c') /\
        args_read c0 fut tl (done ++ a :: t) c') as Harg.
    { intros c0 H0 Hb0. destruct (read_arg_spec 0 c0 fut tl done a t H0 Hb0) as [(E & Hl & Hfu)|(c1 & E & Hfr & H1 & _)]; rewrite E; cbn [mbind option_bind].
      - exists c0. split; [done|]. by apply Hstop.
      - destruct (IH fuel c1 fut tl (done ++ [a]) H1 Hok) as (c2 & E2 & R2); [cbn in Hf; lia|]. exists c2. split; [done|].
        rewrite <-app_assoc in R2. by eapply args_read_trans. }
    destruct (Z.eqb_spec (bulklen c) (-1)) as [Hb|Hb].
    + destruct (read_bulklen_spec 0 s c fut tl done a t Hin Hb Ha) as [(E & Hl & Hfu)|(c1 & E & Hfr & H1 & Hb1)]; rewrite E; cbn [mbind option_bind].
      * exists c. split; [done|]. by apply Hstop.
      * destruct (Harg c1 H1 Hb1) as (c2 & E2 & R2). exists c2. split; [done|]. by eapply args_read_trans.
    + cbn [mbind option_bind]. apply Harg; [done|]. by destruct (ia_rest _ _ _ _ _ _ Hin) as [[? _]|(? & ? & [= <- <-] & ? & _)].
Qed.

(** Complete arguments with more of the request behind them. *)
Lemma read_args_prefix s k todo : forall fuel c tl d,
  (0 < k)%nat -> in_args_of k c [] tl d todo -> Forall arg_ok todo ->
  exists c', read_args e maxb (length todo + fuel) s c = read_args e maxb fuel s c' /\ framed c c' /\ in_args_of k c' [] tl (d ++ todo) [].
Proof.
  induction todo as [|a t IH]; intros fuel c tl d Hk Hin Hok; [exists c; split_and!; [done..|by rewrite app_nil_r]|].
  apply Forall_cons in Hok as [Ha Hok]. cbn [length Nat.add read_args]. pose proof (ia_left _ _ _ _ _ _ Hin) as Hm. destruct (Z.eqb_spec (multibulklen c) 0) as [Hz|_]; [cbn in Hm; lia|].
  assert (exists c1, (if bulklen c =? -1 then read_bulklen e maxb s c else Some (inr (true, c))) = Some (inr (true, c1)) /\ framed c c1 /\ in_args_of k c1 [] tl d (a :: t) /\ bulklen c1 = zlen a) as (c1 & -> & F1 & H1 & B1).
  { destruct (Z.eqb_spec (bulklen c) (-1)) as [Hb|Hb]; [by destruct (read_bulklen_spec k s c [] tl d a t Hin Hb Ha) as [(_ & _ & [])|H]|].
    exists c. split_and!; [done..|]. by destruct (ia_rest _ _ _ _ _ _ Hin) as [[? _]|(? & ? & [= <- <-] & ? & _)]. }
  cbn [mbind option_bind]. destruct (read_arg_spec k c1 [] tl d a t H1 B1) as [(_ & _ & [])|(c2 & -> & F2 & H2 & _)]; [done|]. cbn [mbind option_bind].
  destruct (IH fuel c2 tl (d ++ [a]) Hk H2 Hok) as (c3 & E3 & F3 & H3). exists c3. split; [done|]. split; [by eapply framed_trans, framed_trans|]. by rewrite <-app_assoc in H3.
Qed.

(** *** The whole request *)

Definition command_ok (args : list (list Z)) : Prop := args <> [] /\ zlen args <= 1024 * 1024 /\ Forall arg_ok args.

(** Between two requests, or with a part of the first line of one. *)
Record between (c : conn) (fut tl : list Z) : Prop := {
  bt_pos : pos_ok c;
  bt_left : multibulklen c = 0;
  bt_bulk : bulklen c = -1;
  bt_argv : argv c = [];
  bt_rest : rest_of c ++ fut = tl }.

Lemma read_count_spec s c fut tl args :
  between c fut (encode args ++ tl) -> reqtype c = PROTO_REQ_MULTIBULK -> command_ok args ->
  read_count e s c = Some (inl (false, s, c)) /\ (length (rest_of c) < length (encode args))%nat /\ fut <> [] \/
  exists c', read_count e s c = Some (inr c') /\ framed c c' /\ in_args c' fut tl [] args.
Proof.
  intros [Hp Hl Hb Ha Hr] Hrt (Hne & Hn & Hok). assert (LLONG_MIN <= zlen args <= LLONG_MAX) as Hv by (unfold LLONG_MIN, LLONG_MAX in *; lia).
  assert (0 < zlen args) as Hpos by (destruct args; [done|cbn; lia]).
  unfold read_count. rewrite bool_decide_eq_true_2 by done. unfold encode in Hr. rewrite <-app_assoc in Hr.
  apply prefix_cases in Hr as [(u & Hu & Hr)|(Hlt & h' & Hh & Hf)].
  - right. destruct (header_found c 42 (zlen args) u Hp ltac:(lia) ltac:(lia) Hu) as (Fnd & Sh & Hc & Sl & Dr & Le).
    set (nl := (qb_pos c + S (length (decimal (zlen args))))%nat) in *. rewrite Fnd. cbn [mbind option_bind].
    fold (too_short c nl). rewrite Sh, Hc, bool_decide_eq_true_2 by done. rewrite Sl.
    rewrite (proj2 (string2ll_iff (decimal (zlen args)) (zlen args))) by done.
    destruct (Z.ltb_spec (1024 * 1024) (zlen args)); [lia|]. destruct (Z.leb_spec (zlen args) 0); [lia|].
    eexists. split; [done|]. split; [done|]. split; try done.
    + cbn. lia.
    + cbn. by rewrite Ha.
    + cbn. lia.
    + left. split; [done|]. unfold rest_of. cbn. by rewrite Dr.
  - left. split; [|split; [unfold encode; rewrite length_app; lia|]].
    2:{ intros ->. destruct h'; [|done]. rewrite app_nil_r in Hh. rewrite Hh in Hlt. lia. }
    destruct (header_partial c 42 (zlen args) h' Hp ltac:(lia) ltac:(lia) Hv Hh) as [[Fnd Un]|(nl & Fnd & Sh)].
    { rewrite Hh, length_app in Hlt. lia. }
    + rewrite Fnd. cbn [mbind option_bind]. by rewrite Un.
    + rewrite Fnd. cbn [mbind option_bind]. unfold too_short in Sh. by rewrite Sh.
Qed.

(** A whole first line. *)
Lemma count_read s c k args tl :
  between c [] (header 42 (zlen args + Z.of_nat k) ++ mjoin (bulk <$> args) ++ tl) -> reqtype c = PROTO_REQ_MULTIBULK -> 0 < zlen args + Z.of_nat k <= 1024 * 1024 ->
  exists c', read_count e s c = Some (inr c') /\ framed c c' /\ in_args_of k c' [] tl [] args.
Proof.
  intros [Hp Hl Hb Ha Hr] Hrt Hn. rewrite app_nil_r in Hr. set (n := zlen args + Z.of_nat k) in *. unfold read_count. rewrite bool_decide_eq_true_2 by done.
  assert (LLONG_MIN <= n <= LLONG_MAX) as Hv by (unfold LLONG_MIN, LLONG_MAX; lia). destruct (header_found c 42 n (mjoin (bulk <$> args) ++ tl) Hp ltac:(lia) ltac:(lia) Hr) as (Fnd & Sh & Hc & Sl & Dr & Le).
  set (nl := (qb_pos c + S (length (decimal n)))%nat) in *. rewrite Fnd. cbn [mbind option_bind]. fold (too_short c nl). rewrite Sh, Hc, bool_decide_eq_true_2 by done. rewrite Sl.
  rewrite (proj2 (string2ll_iff (decimal n) n)) by done. destruct (Z.ltb_spec (1024 * 1024) n); [lia|]. destruct (Z.leb_spec n 0); [lia|].
  eexists. split; [done|]. split; [done|]. split; try done; [cbn; by rewrite Ha|cbn; lia|]. left. split; [done|]. unfold rest_of. cbn. rewrite Dr. by rewrite app_nil_r.
Qed.

(** The parser is somewhere in a request with these arguments. *)
Definition in_request (c : conn) (fut tl : list Z) (args : list (list Z)) : Prop :=
  between c fut (encode args ++ tl) \/ exists d t, args = d ++ t /\ t <> [] /\ in_args c fut tl d t.

(** processMultibulkBuffer finds the whole request, or keeps what has arrived. *)
Lemma multibulk_spec s c fut tl args :
  in_request c fut tl args -> reqtype c = PROTO_REQ_MULTIBULK -> command_ok args ->
  exists ok c', processMultibulkBuffer e maxb s c = Some (ok, s, c') /\ framed c c' /\ reqtype c' = PROTO_REQ_MULTIBULK /\
    if ok : bool then in_args c' fut tl args []
    else in_request c' fut tl args /\ fut <> [] /\ (length (rest_of c') < length (encode args))%nat.
Proof.
  intros Hreq Hrt Hok. unfold processMultibulkBuffer.
  assert (forall c0 d t, args = d ++ t -> t <> [] -> in_args c0 fut tl d t -> framed c c0 ->
    exists ok c', (assert! (0 <? multibulklen c0) ;; r ← read_args e maxb (Z.to_nat (multibulklen c0)) s c0;
                   match r with inl ret => Some ret | inr c => Some (multibulklen c =? 0, s, c) end) = Some (ok, s, c') /\
      framed c c' /\ reqtype c' = PROTO_REQ_MULTIBULK /\
      if ok : bool then in_args c' fut tl args []
      else in_request c' fut tl args /\ fut <> [] /\ (length (rest_of c') < length (encode args))%nat) as Hargs.
  { intros c0 d t Hsp Hne H0 Hfr. assert (Forall arg_ok t) as Hokt by (destruct Hok as (_ & _ & Hok); rewrite Hsp in Hok; by apply Forall_app in Hok as [_ ?]).
    pose proof (ia_left _ _ _ _ _ _ H0) as Hm. assert (0 < zlen t) as Hzt by (destruct t; [done|cbn; lia]).
    destruct (Z.ltb_spec 0 (multibulklen c0)) as [_|?]; [|lia].
    destruct (read_args_spec s t (Z.to_nat (multibulklen c0)) c0 fut tl d H0 Hokt) as (c1 & -> & Hfr1 & [[Hz H1]|(d1 & t1 & Hsp1 & Hne1 & H1 & Hfu & Hlt)]); [lia|..];
      cbn [mbind option_bind].
    - rewrite Hz. exists true, c1. split; [done|]. split; [by eapply framed_trans|]. split; [apply H1|]. by rewrite Hsp.
    - pose proof (ia_left _ _ _ _ _ _ H1) as Hm1. assert (0 < zlen t1) by (destruct t1; [done|cbn; lia]).
      destruct (Z.eqb_spec (multibulklen c1) 0); [lia|]. exists false, c1. split; [done|]. split; [by eapply framed_trans|]. split; [apply H1|].
      split; [right; exists d1, t1; split_and!; [congruence|done..]|]. split; [done|].
      unfold encode. rewrite Hsp, Hsp1, fmap_app, join_app, !length_app. lia. }
  destruct Hreq as [Hbt|(d & t & Hsp & Hne & Hin)].
  - rewrite (bt_left _ _ _ Hbt). cbn [Z.eqb].
    destruct (read_count_spec s c fut tl args Hbt Hrt Hok) as [(-> & Hlt & Hfu)|(c1 & -> & Hfr & H1)]; cbn [mbind option_bind].
    + exists false, c. split; [done|]. split; [done|]. split; [done|]. split; [by left|done].
    + apply (Hargs c1 [] args); [done|apply Hok|done|done].
  - pose proof (ia_left _ _ _ _ _ _ Hin) as Hm. assert (0 < zlen t) by (destruct t; [done|cbn; lia]).
    destruct (Z.eqb_spec (multibulklen c) 0); [lia|]. cbn [mbind option_bind]. by apply (Hargs c d t).
Qed.
End Arguments.

(** ** Executing requests *)

Lemma has_ldiff f m k : Z.land m k = 0 -> has (Z.ldiff f m) k = has f k.
Proof.
  intros Hm. unfold has. do 2 f_equal. apply Z.bits_inj'. intros n Hn. rewrite !Z.land_spec, Z.ldiff_spec.
  apply (f_equal (fun z => Z.testbit z n)) in Hm. rewrite Z.land_spec, Z.bits_0 in Hm.
  destruct (Z.testbit m n), (Z.testbit k n), (Z.testbit f n); done.
Qed.

(** The flags resetClient may change. *)
Definition RESET : Z := Z.lor CLIENT_ASKING (Z.lor CLIENT_REPLY_SKIP CLIENT_REPLY_SKIP_NEXT).

Lemma reset_flags c k : Z.land RESET k = 0 -> has (flags (cl (resetClient c))) k = has (flags (cl c)) k.
Proof.
  intros Hk. unfold RESET in Hk. rewrite !Z.land_lor_distr_l in Hk.
  apply Z.lor_eq_0_iff in Hk as [Ha [Hs Hn]%Z.lor_eq_0_iff].
  unfold resetClient. cbn [set_cl cl with_flags flags]. set (f := flags _).
  assert (forall g : Z, has (if has g CLIENT_REPLY_SKIP_NEXT then Z.ldiff (Z.lor g CLIENT_REPLY_SKIP) CLIENT_REPLY_SKIP_NEXT else g) k = has g k) as Hl.
  { intros g. destruct (has g _); [|done]. by rewrite has_ldiff, has_lor. }
  rewrite Hl, has_ldiff by done. destruct (_ && _); [by rewrite has_ldiff|done].
Qed.

(** A client whose requests are executed. *)
Definition serving (c : conn) : Prop :=
  has (flags (cl c)) CLIENT_BLOCKED = false /\ has (flags (cl c)) CLIENT_MASTER = false /\
  has (flags (cl c)) (Z.lor CLIENT_CLOSE_AFTER_REPLY CLIENT_CLOSE_ASAP) = false.
Lemma serving_flags c c' : flags (cl c') = flags (cl c) -> serving c -> serving c'.
Proof. unfold serving. by intros ->. Qed.
Lemma serving_reset c : serving c -> serving (resetClient c).
Proof. unfold serving. by rewrite !reset_flags. Qed.

(** A client that is blocked or about to be closed. *)
Definition halted (c : conn) : Prop := has (flags (cl c)) CLIENT_BLOCKED = true \/ has (flags (cl c)) (Z.lor CLIENT_CLOSE_AFTER_REPLY CLIENT_CLOSE_ASAP) = true.
Lemma halted_flags c c' : flags (cl c') = flags (cl c) -> halted c -> halted c'.
Proof. unfold halted. by intros ->. Qed.
Lemma halted_reset c : halted c -> halted (resetClient c).
Proof. unfold halted. by rewrite !reset_flags. Qed.

(** Where the parser is in a sequence of requests, of which it has the part up to
    [fut]. *)
Definition at_stream (c : conn) (fut : list Z) (cmds : list (list (list Z))) : Prop :=
  match cmds with
  | [] => between c fut []
  | args :: r => in_request c fut (mjoin (encode <$> r)) args
  end /\ (reqtype c = 0 \/ reqtype c = PROTO_REQ_MULTIBULK).

Lemma between_stream c fut cmds :
  between c fut (mjoin (encode <$> cmds)) -> reqtype c = 0 \/ reqtype c = PROTO_REQ_MULTIBULK -> at_stream c fut cmds.
Proof. intros Hb Hr. split; [|done]. destruct cmds as [|args r]; [done|]. by left. Qed.

(** Only the parser state and the bytes that are left matter. *)
Lemma in_args_ext c c' fut fut' tl d t :
  in_args c fut tl d t -> pos_ok c' -> reqtype c' = reqtype c -> multibulklen c' = multibulklen c -> bulklen c' = bulklen c ->
  argv c' = argv c -> argv_size c' = argv_size c -> rest_of c' ++ fut' = rest_of c ++ fut -> in_args c' fut' tl d t.
Proof. intros [] Hp Et Em Eb Ea Ez Er. split; rewrite ?Et, ?Em, ?Eb, ?Ea, ?Ez, ?Er; done. Qed.

Lemma at_stream_ext c c' fut fut' cmds :
  at_stream c fut cmds -> pos_ok c' -> reqtype c' = reqtype c -> multibulklen c' = multibulklen c -> bulklen c' = bulklen c ->
  argv c' = argv c -> argv_size c' = argv_size c -> rest_of c' ++ fut' = rest_of c ++ fut -> at_stream c' fut' cmds.
Proof.
  intros [Hs Hr] Hp Et Em Eb Ea Ez Er. split; [|by rewrite Et].
  assert (forall tl, between c fut tl -> between c' fut' tl) as Hb.
  { intros tl []. split; rewrite ?Em, ?Eb, ?Ea, ?Er; done. }
  destruct cmds as [|args r]; [by apply Hb|]. destruct Hs as [Hs|(d & t & Hsp & Hne & Hin)]; [left; by apply Hb|right].
  exists d, t. split_and!; [done..|]. by eapply in_args_ext.
Qed.

Lemma header_nonempty p v : (0 < length (header p v))%nat.
Proof. cbn. lia. Qed.
Lemma encode_nonempty args : (0 < length (encode args))%nat.
Proof. unfold encode. rewrite length_app. pose proof (header_nonempty 42 (zlen args)). lia. Qed.
Lemma bulks_nonempty t : t <> [] -> (0 < length (mjoin (bulk <$> t)))%nat.
Proof. destruct t as [|a t]; [done|]. intros _. apply bulk_head_lt. unfold bulk. rewrite length_app. pose proof (header_nonempty 36 (zlen a)). lia. Qed.

(** A request that is not complete is longer than what follows it. *)
Lemma request_length c fut tl args : in_request c fut tl args -> (length tl < length (rest_of c ++ fut))%nat.
Proof.
  intros [Hb|(d & t & _ & Hne & Hin)].
  - rewrite (bt_rest _ _ _ Hb), length_app. pose proof (encode_nonempty args). lia.
  - destruct (ia_rest _ _ _ _ _ _ Hin) as [[_ ->]|(a & t' & _ & _ & ->)].
    + rewrite length_app. pose proof (bulks_nonempty t Hne). lia.
    + rewrite !length_app. cbn. lia.
Qed.

Lemma first_byte c fut tl args :
  in_request c fut tl args -> reqtype c = 0 -> rest_of c <> [] -> querybuf c !! qb_pos c = Some 42.
Proof.
  intros [Hb|(d & t & _ & _ & Hin)] Hr Hne; [|by rewrite (ia_type _ _ _ _ _ _ Hin) in Hr].
  rewrite <-(Nat.add_0_r (qb_pos c)), lookup_rest. pose proof (bt_rest _ _ _ Hb) as He.
  destruct (rest_of c) as [|y r]; [done|]. unfold encode, header in He. by injection He as ->.
Qed.

Section Serving.
Context (e : env) (maxb : Z) {X : Type}.
Context (processCommand : server -> conn -> X -> option (bool * server * option conn * X))
  (f : list (list Z) -> X -> X) (stops : list (list Z) -> X -> bool) (lua_timedout : bool) (blocked_in_module : conn -> bool).

(** Execution is a function of the arguments on the data.  A command that [stops] the
    client (QUIT, CLIENT KILL, a blocking operation that has to wait) leaves it blocked, to be
    closed, or freed, whatever it returns; any other one returns C_OK and leaves the
    client and its query buffer as they are for the next request. *)
Definition executes : Prop := forall s c x, argv c <> [] -> serving c ->
  exists ok s' oc, processCommand s c x = Some (ok, s', oc, f (obj_bytes <$> argv c) x) /\
    if stops (obj_bytes <$> argv c) x then forall c', oc = Some c' -> querybuf c' = querybuf c /\ qb_pos c' = qb_pos c /\ halted c'
    else ok = true /\ exists c', oc = Some c' /\ querybuf c' = querybuf c /\ qb_pos c' = qb_pos c /\ serving c'.

(** The data after some requests; that none of them stops the client, and that the last
    one is the first to do so. *)
Definition executed (ex : list (list (list Z))) (x : X) : X := foldl (fun x a => f a x) x ex.
Fixpoint going (ex : list (list (list Z))) (x : X) : Prop := match ex with [] => True | a :: r => stops a x = false /\ going r (f a x) end.
Definition ended (ex : list (list (list Z))) (x : X) : Prop := exists ex0 a, ex = ex0 ++ [a] /\ going ex0 x /\ stops a (executed ex0 x) = true.
Lemma going_app ex1 ex2 x : going ex1 x -> going ex2 (executed ex1 x) -> going (ex1 ++ ex2) x.
Proof. revert x. induction ex1 as [|a ex1 IH]; intros x; [done|]. intros [H1 H2] H. split; [done|]. by apply IH. Qed.
Lemma ended_app ex1 ex2 x : going ex1 x -> ended ex2 (executed ex1 x) -> ended (ex1 ++ ex2) x.
Proof.
  intros H (ex0 & a & -> & H1 & H2). exists (ex1 ++ ex0), a. split; [by rewrite app_assoc|]. split; [by apply going_app|]. unfold executed. by rewrite foldl_app.
Qed.

Context (Hexec : executes).

Lemma input_round_spec s c fut tl args x :
  in_request c fut tl args -> reqtype c = 0 \/ reqtype c = PROTO_REQ_MULTIBULK -> command_ok maxb args -> serving c -> rest_of c <> [] ->
  (exists go s' oc, input_round e maxb processCommand false lua_timedout blocked_in_module s c x = Some (go, s', oc, f args x) /\
     if stops args x then forall c', oc = Some c' -> halted c' /\ rest_of c' ++ fut = tl
     else go = true /\ exists c', oc = Some c' /\ serving c' /\ between c' fut tl /\ reqtype c' = 0) \/
  (exists s' c', input_round e maxb processCommand false lua_timedout blocked_in_module s c x = Some (false, s', Some c', x) /\ serving c' /\
     in_request c' fut tl args /\ reqtype c' = PROTO_REQ_MULTIBULK /\ fut <> [] /\ (length (rest_of c') < length (encode args))%nat).
Proof.
  intros Hreq Hrt Hok Hs Hne. pose proof Hs as (S1 & S2 & S3). unfold input_round.
  rewrite andb_false_r, S1, S2, andb_false_r, S3.
  set (c0 := if reqtype c =? 0 then _ else c).
  assert (in_request c0 fut tl args /\ reqtype c0 = PROTO_REQ_MULTIBULK /\ framed c c0) as (Hreq0 & Hrt0 & Hfr0).
  { unfold c0. destruct Hrt as [Hr|Hr]; rewrite Hr; cbn [Z.eqb]; [|done].
    rewrite bool_decide_eq_true_2 by (by eapply first_byte). split; [|done].
    destruct Hreq as [Hb|(d & t & _ & _ & Hin)]; [left; by destruct Hb|by rewrite (ia_type _ _ _ _ _ _ Hin) in Hr]. }
  rewrite Hrt0. cbn [Z.eqb PROTO_REQ_MULTIBULK PROTO_REQ_INLINE Pos.eqb].
  destruct (multibulk_spec e maxb s c0 fut tl args Hreq0 Hrt0 Hok) as (ok & c1 & E & Hfr & Hr1 & Hpost). rewrite E. cbn [mbind option_bind].
  assert (serving c1) as Hs1 by (eapply serving_flags; [|exact Hs]; destruct Hfr as [-> _], Hfr0 as [-> _]; done).
  destruct ok; cbn [negb].
  2:{ right. exists s, c1. split; [done|]. split; [done|]. by destruct Hpost as (? & ? & ?). }
  pose proof (ia_done _ _ _ _ _ _ Hpost) as Hd. assert (argv c1 <> []) as Hna by (intros Hz; rewrite Hz in Hd; destruct Hok as [Hok _]; by rewrite <-Hd in Hok).
  rewrite bool_decide_eq_false_2 by done. destruct (Hexec s c1 x Hna Hs1) as (ok & s2 & oc & E2 & H2). rewrite Hd in H2, E2. rewrite E2. cbn [mbind option_bind]. left.
  assert (rest_of c1 ++ fut = tl) as Hrest by (by destruct (ia_rest _ _ _ _ _ _ Hpost) as [[_ Hrest]|(? & ? & ? & _)]).
  destruct (stops args x); [destruct oc as [c2|]; eexists _, s2, _; (split; [done|]); [|done]|].
  { intros c' [= <-]. destruct (H2 c2 eq_refl) as (Q2 & P2 & Hh). assert (rest_of c2 = rest_of c1) as Er by (unfold rest_of; by rewrite Q2, P2). rewrite <-Hrest, <-Er.
    destruct ok; [|done]. destruct (negb _ || _); destruct (_ && _); (split; [|done]); try done; by apply halted_reset. }
  destruct H2 as (-> & c2 & -> & Q2 & P2 & Hs2). pose proof Hs2 as (B2 & M2 & _). rewrite M2, B2. cbn [andb negb orb].
  eexists true, s2, _. split; [done|]. split; [done|]. eexists. split; [done|]. split; [by apply serving_reset|]. split; [|done].
  split; try done.
  - unfold pos_ok. cbn. rewrite Q2, P2. apply Hpost.
  - unfold rest_of. cbn. rewrite Q2, P2. exact Hrest.
Qed.

(** What processing what has arrived does. *)
Definition waiting (fut : list Z) (todo : list (list (list Z))) (oc : option conn) : Prop :=
  exists c', oc = Some c' /\ at_stream c' fut todo /\ serving c' /\ (fut = [] -> todo = []) /\ (forall a r, todo = a :: r -> (length (rest_of c') < length (encode a))%nat).
Definition processed (fut : list Z) (cmds : list (list (list Z))) (x : X) (oc : option conn) (x' : X) : Prop :=
  exists ex todo, cmds = ex ++ todo /\ x' = executed ex x /\ (going ex x /\ waiting fut todo oc \/ ended ex x /\ forall c', oc = Some c' -> halted c').
Lemma processed_more fut cmds ex todo x oc x' : cmds = ex ++ todo -> going ex x -> processed fut todo (executed ex x) oc x' -> processed fut cmds x oc x'.
Proof.
  intros -> Hg (ex2 & todo2 & -> & -> & H). exists (ex ++ ex2), todo2. split; [by rewrite app_assoc|]. split; [unfold executed; by rewrite foldl_app|].
  destruct H as [[H Hw]|[H Hh]]; [left|right]; (split; [|done]); [by apply going_app|by apply ended_app].
Qed.

Lemma at_stream_end c cmds : at_stream c [] cmds -> rest_of c = [] -> cmds = [].
Proof.
  intros [Hs _] Hr. destruct cmds as [|args r]; [done|]. apply request_length in Hs. rewrite app_nil_r, Hr in Hs. cbn in Hs. lia.
Qed.

Lemma input_loop_stop fuel s c x :
  rest_of c = [] -> input_loop e maxb processCommand false lua_timedout blocked_in_module fuel s c x = Some (s, Some c, x).
Proof.
  intros Hz. apply (f_equal length) in Hz. unfold rest_of in Hz. rewrite length_drop in Hz. cbn in Hz.
  assert ((qb_pos c <? length (querybuf c))%nat = false) as Hq by (apply Nat.ltb_ge; lia).
  destruct fuel; cbn [input_loop]; by rewrite Hq.
Qed.

(** A client that is blocked or closing executes nothing. *)
Lemma input_loop_halted fuel s c x :
  halted c -> (length (rest_of c) <= fuel)%nat -> input_loop e maxb processCommand false lua_timedout blocked_in_module fuel s c x = Some (s, Some c, x).
Proof.
  intros Hh Hf. destruct (decide (rest_of c = [])) as [Hz|Hz]; [by apply input_loop_stop|]. destruct fuel as [|fuel]; [destruct (rest_of c); [done|cbn in Hf; lia]|].
  cbn [input_loop]. destruct (negb (qb_pos c <? _)%nat); [done|]. assert (input_round e maxb processCommand false lua_timedout blocked_in_module s c x = Some (false, s, Some c, x)) as ->; [|done].
  unfold input_round. rewrite andb_false_r. destruct (has _ CLIENT_BLOCKED) eqn:Eb; [done|]. destruct (_ && has _ CLIENT_MASTER); [done|]. destruct Hh as [Hh|Hh]; [by rewrite Eb in Hh|by rewrite Hh].
Qed.

Lemma input_loop_spec cmds : Forall (command_ok maxb) cmds -> forall fuel s c fut x,
  at_stream c fut cmds -> serving c -> pos_ok c -> (length (rest_of c) <= fuel)%nat ->
  exists s' oc x', input_loop e maxb processCommand false lua_timedout blocked_in_module fuel s c x = Some (s', oc, x') /\
    processed fut cmds x oc x'.
Proof.
  induction 1 as [|args r Hok Hall IH]; intros fuel s c fut x Hat Hs Hp Hf.
  - assert (rest_of c = []) as Hz by (destruct Hat as [Hb _]; pose proof (bt_rest _ _ _ Hb) as He; by apply app_eq_nil in He as [? _]).
    rewrite input_loop_stop by done.
    eexists _, _, _. split; [done|]. exists [], []. split; [done|]. split; [done|]. left. split; [done|]. by exists c.
  - destruct (decide (rest_of c = [])) as [Hz|Hz].
    { rewrite input_loop_stop by done.
      eexists _, _, _. split; [done|]. exists [], (args :: r). split; [done|]. split; [done|]. left. split; [done|]. exists c. split_and!; try done.
      - intros ->. by apply (at_stream_end c).
      - intros a r' [= <- <-]. rewrite Hz. apply encode_nonempty. }
    destruct fuel as [|fuel]; [destruct (rest_of c); [done|cbn in Hf; lia]|]. cbn [input_loop].
    assert ((qb_pos c <? length (querybuf c))%nat = true) as ->.
    { apply Nat.ltb_lt. destruct (Nat.lt_ge_cases (qb_pos c) (length (querybuf c))) as [?|Hge]; [done|]. by rewrite (drop_ge _ _ Hge : rest_of c = []) in Hz. }
    cbn [negb]. destruct Hat as [Hreq Hrt].
    destruct (input_round_spec s c fut (mjoin (encode <$> r)) args x Hreq Hrt Hok Hs Hz) as [(go & s1 & oc & E & H1)|(s1 & c1 & E & Hs1 & Hreq1 & Hr1 & Hfu & Hlt)]; rewrite E; cbn [mbind option_bind].
    + destruct (stops args x) eqn:Est.
      * assert (exists s2, match oc with Some c => if go then input_loop e maxb processCommand false lua_timedout blocked_in_module fuel s1 c (f args x) else Some (s1, Some c, f args x) | None => Some (s1, None, f args x) end = Some (s2, oc, f args x)) as (s2 & ->).
        { destruct oc as [c1|]; [|by eexists]. destruct go; [|by eexists]. exists s1. destruct (H1 c1 eq_refl) as [Hh Hr]. apply input_loop_halted; [done|]. pose proof (request_length _ _ _ _ Hreq) as Hl. rewrite <-Hr, !length_app in Hl. lia. }
        eexists _, _, _. split; [done|]. exists [args], r. split; [done|]. split; [done|]. right. split; [by exists [], args|]. intros c' Hc'. by apply H1.
      * destruct H1 as (-> & c1 & -> & Hs1 & Hb1 & Hr1). pose proof (request_length _ _ _ _ Hreq) as Hl. pose proof (bt_rest _ _ _ Hb1) as He.
        assert (length (rest_of c1) < length (rest_of c))%nat as Hlt by (rewrite <-He, !length_app in Hl; lia).
        destruct (IH fuel s1 c1 fut (f args x)) as (s2 & oc & x2 & E2 & Hp2); [by apply between_stream; [|left]|done|apply Hb1|lia|].
        exists s2, oc, x2. split; [done|]. by apply (processed_more fut (args :: r) [args] r).
    + exists s1, (Some c1), x. split; [done|]. exists [], (args :: r). split; [done|]. split; [done|]. left. split; [done|]. exists c1. split_and!; try done; [by split; [|right]|by intros a r' [= <- <-]].
Qed.

Lemma trim_rest c : pos_ok c -> rest_of (trim_query c) = rest_of c /\ qb_pos (trim_query c) = 0%nat /\ querybuf (trim_query c) = rest_of c.
Proof.
  intros Hp. unfold trim_query, rest_of. destruct (Nat.ltb_spec 0 (qb_pos c)); cbn; [by rewrite !drop_0|].
  assert (qb_pos c = 0%nat) as -> by lia. by rewrite !drop_0.
Qed.

Lemma at_stream_pos c fut cmds : at_stream c fut cmds -> pos_ok c.
Proof. intros [Hs _]. destruct cmds; [apply Hs|]. destruct Hs as [Hs|(? & ? & _ & _ & Hs)]; apply Hs. Qed.

Lemma processInputBuffer_spec cmds s c fut x :
  Forall (command_ok maxb) cmds -> at_stream c fut cmds -> serving c ->
  exists s' oc x', processInputBuffer e maxb processCommand false lua_timedout blocked_in_module s c x = Some (s', oc, x') /\
    processed fut cmds x oc x' /\ (forall c', oc = Some c' -> qb_pos c' = 0%nat).
Proof.
  intros Hok Hat Hs. unfold processInputBuffer. pose proof (at_stream_pos _ _ _ Hat) as Hp.
  destruct (input_loop_spec cmds Hok (length (querybuf c)) s c fut x Hat Hs Hp) as (s1 & oc1 & x1 & -> & ex & todo & Hsp & Hx & H1).
  { unfold rest_of. rewrite length_drop. lia. }
  cbn [mbind option_bind]. exists s1, (option_map trim_query oc1), x1. split; [done|]. split.
  - exists ex, todo. split; [done|]. split; [done|]. destruct H1 as [[Hg (c1 & -> & Hat1 & Hs1 & Hend & Hpart)]|[He Hh]].
    + left. split; [done|]. exists (trim_query c1). split; [done|]. pose proof (at_stream_pos _ _ _ Hat1) as Hp1. destruct (trim_rest c1 Hp1) as (Hr & Hz & Hq). rewrite Hr. split_and!; try done.
      * eapply at_stream_ext; [exact Hat1|unfold pos_ok; rewrite Hz; lia|unfold trim_query; by destruct (_ <? _)%nat..|by rewrite Hr].
      * eapply serving_flags; [|exact Hs1]. unfold trim_query. by destruct (_ <? _)%nat.
    + right. split; [done|]. intros c' Hc'. destruct oc1 as [c1|]; [|done]. injection Hc' as <-. eapply halted_flags; [|by apply Hh]. unfold trim_query. by destruct (_ <? _)%nat.
  - intros c' Hc'. destruct oc1 as [c1|]; [|done]. injection Hc' as <-. unfold trim_query. by destruct (Nat.ltb_spec 0 (qb_pos c1)); [|lia].
Qed.

(** *** Requests in pieces *)

(** The event loop: the socket has S n of the bytes of the stream at the next read. *)
Fixpoint serve (limit : Z) (plan : list nat) (stream : list Z) (s : server) (c : conn) (x : X) : option (list Z * server * option conn * X) :=
  match plan with
  | [] => Some (stream, s, Some c, x)
  | n :: plan =>
    '(k, s, oc, x) ← readQueryFromClient e maxb processCommand false lua_timedout blocked_in_module limit
                        (if bool_decide (stream = []) then ReadAgain else Data (take (S n) stream)) s c x;
    match oc with
    | Some c => serve limit plan (drop k stream) s c x
    | None => Some (drop k stream, s, None, x)
    end
  end.

Lemma readlen_range c : 0 < readlen c <= PROTO_IOBUF_LEN.
Proof.
  unfold readlen, PROTO_IOBUF_LEN. destruct (_ && _ && _ && _); [|lia].
  destruct (Z.ltb_spec 0 (bulklen c + 2 - zlen (querybuf c))); cbn [andb]; [|lia].
  destruct (Z.ltb_spec (bulklen c + 2 - zlen (querybuf c)) (1024 * 16)); lia.
Qed.

Definition request_fits (limit : Z) (args : list (list Z)) : Prop := command_ok maxb args /\ zlen (encode args) + PROTO_IOBUF_LEN <= limit.

(** One read. *)
Lemma read_spec limit cmds s c x bs fut :
  Forall (request_fits limit) cmds -> PROTO_IOBUF_LEN <= limit -> at_stream c (bs ++ fut) cmds -> serving c -> qb_pos c = 0%nat ->
  (forall a r, cmds = a :: r -> (length (rest_of c) < length (encode a))%nat) -> bs <> [] ->
  exists k s' oc x', readQueryFromClient e maxb processCommand false lua_timedout blocked_in_module limit (Data bs) s c x = Some (k, s', oc, x') /\
    (0 < k <= length bs)%nat /\ processed (drop k bs ++ fut) cmds x oc x' /\ (forall c', oc = Some c' -> qb_pos c' = 0%nat).
Proof.
  intros Hall Hlim Hat Hs Hz Hpart Hne. unfold readQueryFromClient. set (got := take (Z.to_nat (readlen c)) bs).
  pose proof (readlen_range c) as Hrl. assert (length got = Nat.min (Z.to_nat (readlen c)) (length bs)) as Hg by (unfold got; by rewrite length_take).
  assert (0 < length bs)%nat as Hl by (destruct bs; [done|cbn; lia]).
  set (c1 := set_cl _ _). assert (rest_of c1 = rest_of c ++ got) as Hr1.
  { unfold rest_of. cbn [c1 set_cl set_buf querybuf qb_pos]. by rewrite Hz, !drop_0. }
  assert (querybuf c = rest_of c) as Hq by (unfold rest_of; by rewrite Hz, drop_0).
  assert (zlen (rest_of c) + PROTO_IOBUF_LEN <= limit) as Hfit.
  { destruct cmds as [|a r].
    - destruct Hat as [Hb _]. pose proof (bt_rest _ _ _ Hb) as He. apply app_eq_nil in He as [-> _]. cbn. lia.
    - apply Forall_cons in Hall as [[_ Ha] _]. specialize (Hpart a r eq_refl). lia. }
  destruct (Z.ltb_spec limit (zlen (querybuf c1))) as [Hbad|_].
  { cbn [c1 set_cl set_buf querybuf] in Hbad. rewrite length_app, Hq in Hbad. lia. }
  destruct (processInputBuffer_spec cmds s c1 (drop (length got) bs ++ fut) x) as (s2 & c2 & x2 & -> & Hpr & Hz2).
  - eapply Forall_impl; [exact Hall|]. by intros a [? _].
  - eapply at_stream_ext; [exact Hat|unfold pos_ok; cbn; lia|done..|]. rewrite Hr1, <-app_assoc. f_equal.
    rewrite app_assoc. f_equal. unfold got. rewrite length_take.
    destruct (Nat.min_spec (Z.to_nat (readlen c)) (length bs)) as [[_ ->]|[? ->]]; [apply take_drop|].
    rewrite take_ge, drop_ge by lia. apply app_nil_r.
  - by eapply serving_flags; [|exact Hs].
  - cbn [mbind option_bind]. eexists _, s2, c2, x2. split; [done|]. split; [lia|done].
Qed.

(** Later input of a client that is blocked or closing changes nothing but its buffer. *)
Lemma serve_halted limit plan stream s c x : halted c ->
  exists rest s' oc, serve limit plan stream s c x = Some (rest, s', oc, x) /\ (forall c', oc = Some c' -> halted c') /\ (oc <> None -> length rest <= length stream - length plan)%nat.
Proof.
  revert stream s c. induction plan as [|n plan IH]; intros stream s c Hh; cbn [serve]; [exists stream, s, (Some c); split; [done|]; split; [by intros c' [= <-]|cbn; lia]|]. case_bool_decide as He.
  { subst stream. cbn [readQueryFromClient mbind option_bind drop]. destruct (IH [] s c Hh) as (rest & s' & oc & E & H1 & Hl). exists rest, s', oc. split; [done|]. split; [done|]. intros Hoc. specialize (Hl Hoc). cbn in *. lia. }
  unfold readQueryFromClient. pose proof (readlen_range c) as Hrl. set (got := take _ _). assert (0 < length stream)%nat as Hls by (destruct stream; [done|cbn; lia]). assert (0 < length got)%nat as Hg by (unfold got; rewrite !length_take; lia).
  set (c1 := set_cl _ _). destruct (_ <? _); cbn [mbind option_bind]; [eexists _, s, None; split; [done|]; split; [done|congruence]|].
  assert (halted c1) as Hh1 by (eapply halted_flags; [|exact Hh]; done). unfold processInputBuffer. rewrite input_loop_halted by (first [done|unfold rest_of; rewrite length_drop; lia]). cbn [mbind option_bind option_map].
  destruct (IH (drop (length got) stream) s (trim_query c1)) as (rest & s' & oc & E & H1 & Hl); [eapply halted_flags; [|exact Hh1]; unfold trim_query; by destruct (_ <? _)%nat|].
  exists rest, s', oc. split; [done|]. split; [done|]. intros Hoc. specialize (Hl Hoc). rewrite length_drop in Hl. cbn. lia.
Qed.

Lemma serve_spec limit plan : PROTO_IOBUF_LEN <= limit -> forall stream cmds s c x,
  Forall (request_fits limit) cmds -> at_stream c stream cmds -> serving c -> qb_pos c = 0%nat ->
  (forall a r, cmds = a :: r -> (length (rest_of c) < length (encode a))%nat) ->
  exists rest s' oc x', serve limit plan stream s c x = Some (rest, s', oc, x') /\
    (stream <> [] \/ cmds = [] -> processed rest cmds x oc x') /\ (oc <> None -> length rest <= length stream - length plan)%nat.
Proof.
  intros Hlim. induction plan as [|n plan IH]; intros stream cmds s c x Hall Hat Hs Hz Hpart.
  - exists stream, s, (Some c), x. split; [done|]. split; [|cbn; lia]. intros Hor. exists [], cmds. split; [done|]. split; [done|]. left. split; [done|]. exists c. split_and!; try done.
    intros ->. by destruct Hor.
  - cbn [serve]. case_bool_decide as He.
    { subst stream. cbn [readQueryFromClient mbind option_bind drop]. destruct (IH [] cmds s c x) as (rest & s' & c' & x' & E & Hp & Hl); try done.
      exists rest, s', c', x'. split; [done|]. split; [done|]. intros Hoc. specialize (Hl Hoc). cbn in *. lia. }
    destruct (read_spec limit cmds s c x (take (S n) stream) (drop (S n) stream)) as (k & s1 & oc1 & x1 & -> & Hk & Hpr & Hz1); try done.
    { by rewrite take_drop. }
    { by destruct stream. }
    cbn [mbind option_bind]. rewrite length_take in Hk.
    assert (drop k (take (S n) stream) ++ drop (S n) stream = drop k stream) as Hdr.
    { rewrite <-(take_drop (S n) stream) at 3. rewrite drop_app_le; [done|]. rewrite length_take. lia. }
    rewrite Hdr in *. destruct oc1 as [c1|]; [|exists (drop k stream), s1, None, x1; split; [done|]; split; [done|congruence]].
    pose proof Hpr as (ex & todo & Hsp & Hx & [[Hg (c1' & [= <-] & Hat1 & Hs1 & Hend & Hpart1)]|[He1 Hh]]).
    + rewrite Hsp in Hall. apply Forall_app in Hall as [_ Hall].
      destruct (IH (drop k stream) todo s1 c1 x1 Hall Hat1 Hs1 (Hz1 c1 eq_refl) Hpart1) as (rest & s2 & oc2 & x2 & E2 & Hp2 & Hl2).
      exists rest, s2, oc2, x2. split; [done|]. split; [|intros Hoc; specialize (Hl2 Hoc); rewrite length_drop in Hl2; cbn; lia]. intros _.
      eapply (processed_more rest cmds ex todo); [done|done|]. rewrite <-Hx. apply Hp2. destruct (decide (drop k stream = [])); [right; by apply Hend|by left].
    + destruct (serve_halted limit plan (drop k stream) s1 c1 x1 (Hh c1 eq_refl)) as (rest & s2 & oc2 & E2 & Hh2 & Hl2). exists rest, s2, oc2, x1. split; [done|]. split; [|intros Hoc; specialize (Hl2 Hoc); rewrite length_drop in Hl2; cbn; lia].
      intros _. exists ex, todo. split; [done|]. split; [done|]. by right.
Qed.
End Serving.

(** ** Requests sent in pieces *)

(** A request as a client or a replicating server writes it with the functions of
    [Reply]. *)
Definition request (args : list (list Z)) : list Z := wire (RMultiBulkLen (zlen args) :: (RBulkSds <$> args)).

Lemma request_encode args : request args = encode args.
Proof.
  unfold request, wire, encode. cbn [all_pieces pieces app]. change (mjoin (header 42 (zlen args) :: all_pieces (RBulkSds <$> args))) with
    (header 42 (zlen args) ++ mjoin (all_pieces (RBulkSds <$> args))). f_equal.
  induction args as [|a args IH]; [done|].
  change (all_pieces (RBulkSds <$> a :: args)) with (bulk_pieces a ++ all_pieces (RBulkSds <$> args)).
  change (mjoin (bulk <$> a :: args)) with (bulk a ++ mjoin (bulk <$> args)). rewrite join_app.
  unfold bulk_pieces, bulk at 1. cbn [mjoin list_join]. by rewrite app_nil_r, IH.
Qed.

(** A client as createClient leaves it. *)
Definition fresh (c : conn) : Prop :=
  querybuf c = [] /\ qb_pos c = 0%nat /\ reqtype c = 0 /\ multibulklen c = 0 /\ bulklen c = -1 /\ argv c = [].


(** ** Protocol errors *)

(** The request is refused: nothing is taken from the buffer, the error is queued
    and the client is closed once it has been sent. *)
Definition refused (r : option (bool * server * conn)) (c : conn) (msg : list Z) : Prop :=
  exists s' c', r = Some (false, s', c') /\ has (flags (cl c')) CLIENT_CLOSE_AFTER_REPLY = true /\
    pending (cl c') = pending (cl c) ++ str "-ERR " ++ msg ++ crlf /\ client_ok (cl c') /\
    querybuf c' = querybuf c /\ qb_pos c' = qb_pos c /\ argv c' = argv c.

Section Errors.
Context (e : env) (maxb : Z) (He : allocator_ok e).

Lemma protocol_error_spec m s c msg :
  client_ok (cl c) -> accepts_replies (cl c) = true -> reply_bytes (cl c) + budget [str "-ERR "; msg; crlf] < SIZE_MAX - 1024 * 64 ->
  writes m [str "-ERR "; msg; crlf] -> refused (protocol_error m s c) c msg.
Proof.
  intros Hc Ha Hb Hm. destruct (Hm s (cl c) Hc Ha Hb) as (s' & x' & E & _ & Q). unfold protocol_error. rewrite E. cbn [mbind option_bind].
  eexists _, _. split; [done|]. split_and!; try done.
  - cbn. unfold has. rewrite Z.land_lor_distr_l, Z.land_diag. destruct (Z.eqb_spec (Z.lor (Z.land (flags x') CLIENT_CLOSE_AFTER_REPLY) CLIENT_CLOSE_AFTER_REPLY) 0) as [Hz|]; [|done].
    by apply Z.lor_eq_0_iff in Hz as [_ ?].
  - change (pending (cl (set_cl (setProtocolError x') c))) with (pending x'). by rewrite (q_pending _ _ _ Q).
  - destruct (q_ok _ _ _ Q). by split.
Qed.

Lemma error_writes msg : head msg <> Some 45 -> writes (addReplyError e msg) [str "-ERR "; msg; crlf].
Proof.
  intros Hh. pose proof (error_appends e He msg) as H. rewrite bool_decide_eq_false_2 in H by done. by apply appends_writes.
Qed.

(** A whole line that starts with p is in the buffer. *)
Lemma line_found c p w more :
  pos_ok c -> p <> 13 -> p <> 0 -> Forall (fun x => x <> 13 /\ x <> 0) w -> rest_of c = p :: w ++ crlf ++ more ->
  let nl := (qb_pos c + S (length w))%nat in
  find_in_query c 13 = Some (Some nl) /\ too_short c nl = false /\ querybuf c !! qb_pos c = Some p /\
  slice (querybuf c) (qb_pos c + 1) nl = w.
Proof.
  intros Hp H13 H0 Hw Hr nl. assert (length (rest_of c) = length w + 3 + length more)%nat as Hl.
  { rewrite Hr. cbn. rewrite length_app. cbn. lia. }
  split_and!.
  - rewrite find_rest, Hr by done. change (p :: w ++ crlf ++ more) with ((p :: w) ++ 13 :: 10 :: more).
    by rewrite strchr_found by by constructor.
  - unfold too_short. rewrite unread_length, Hl by done. unfold nl.
    destruct (Z.ltb_spec (Z.of_nat (length w + 3 + length more) - 2) (Z.of_nat (qb_pos c + S (length w)) - Z.of_nat (qb_pos c))); [lia|done].
  - rewrite <-(Nat.add_0_r (qb_pos c)), lookup_rest, Hr. done.
  - unfold nl. rewrite slice_rest. unfold slice. rewrite Hr.
    replace (S (length w) - 1)%nat with (length w) by lia. change (drop 1 (p :: w ++ crlf ++ more)) with (w ++ crlf ++ more). by rewrite take_app_length.
Qed.

(** Too many bytes without the end of a line. *)
Lemma line_missing c :
  pos_ok c -> Forall (fun x => x <> 13 /\ x <> 0) (rest_of c) -> PROTO_INLINE_MAX_SIZE < zlen (rest_of c) ->
  find_in_query c 13 = Some None /\ (PROTO_INLINE_MAX_SIZE <? unread c) = true.
Proof.
  intros Hp Hw Hl. rewrite find_rest, strchr_absent, unread_length by done. split; [done|]. by apply Z.ltb_lt.
Qed.

(** The number is not one of the allowed ones, or not a number. *)
Definition bad_number (w : list Z) (lo hi : Z) : Prop := forall n, LLONG_MIN <= n <= LLONG_MAX -> w = decimal n -> n < lo \/ hi < n.

Lemma count_refused s c r msg :
  multibulklen c = 0 -> read_count e s c = inl <$> r -> refused r c msg -> refused (processMultibulkBuffer e maxb s c) c msg.
Proof. intros Hm Er (s' & c' & -> & H). unfold processMultibulkBuffer. rewrite Hm. cbn [Z.eqb]. rewrite Er. by exists s', c'. Qed.

Lemma bulk_refused s c r msg :
  0 < multibulklen c -> bulklen c = -1 -> read_bulklen e maxb s c = inl <$> r -> refused r c msg ->
  refused (processMultibulkBuffer e maxb s c) c msg.
Proof.
  intros Hm Hb Er (s' & c' & -> & H). unfold processMultibulkBuffer. destruct (Z.eqb_spec (multibulklen c) 0) as [?|Hz]; [lia|]. cbn [mbind option_bind].
  destruct (Z.ltb_spec 0 (multibulklen c)); [|lia]. destruct (Z.to_nat (multibulklen c)) as [|n] eqn:En; [lia|].
  cbn [read_args]. destruct (Z.eqb_spec (multibulklen c) 0); [lia|]. rewrite Hb. cbn [Z.eqb Pos.eqb]. rewrite Er. by exists s', c'.
Qed.

(** A client with room for an error message. *)
Definition can_refuse (c : conn) : Prop :=
  client_ok (cl c) /\ accepts_replies (cl c) = true /\ reply_bytes (cl c) + 200000 < SIZE_MAX - 1024 * 64.

Lemma perror_refused s c msg :
  can_refuse c -> head (str msg) <> Some 45 -> zlen (str msg) <= 100 -> refused (perror e msg s c) c (str msg).
Proof.
  intros (Hc & Ha & Hb) Hh Hl. apply protocol_error_spec; [done|done| |by apply error_writes].
  rewrite !budget_cons. change (budget []) with 0. cbn [length] in *. change (zlen (str "-ERR ")) with 5. change (zlen crlf) with 2. lia.
Qed.

Lemma string2ll_bad w lo hi v : bad_number w lo hi -> string2ll w = Some v -> v < lo \/ hi < v.
Proof. intros Hw [Hv ->]%string2ll_iff. by apply Hw. Qed.

Lemma bad_count_refused s c w more :
  can_refuse c -> pos_ok c -> multibulklen c = 0 -> argv c = [] -> Forall (fun x => x <> 13 /\ x <> 0) w ->
  rest_of c = 42 :: w ++ crlf ++ more -> bad_number w LLONG_MIN (1024 * 1024) ->
  refused (processMultibulkBuffer e maxb s c) c (str "Protocol error: invalid multibulk length").
Proof.
  intros Hc Hp Hm Ha Hw Hr Hbad. destruct (line_found c 42 w more Hp ltac:(lia) ltac:(lia) Hw Hr) as (Fnd & Sh & Hx & Sl).
  eapply count_refused; [done| |by apply (perror_refused s c "Protocol error: invalid multibulk length")].
  unfold read_count. rewrite bool_decide_eq_true_2, Fnd by done. cbn [mbind option_bind].
  unfold too_short in Sh. rewrite Sh, Hx, bool_decide_eq_true_2, Sl by done.
  destruct (string2ll w) as [v|] eqn:Ev; [|done]. pose proof Ev as [Hv _]%string2ll_iff.
  destruct (string2ll_bad _ _ _ _ Hbad Ev); [lia|]. by destruct (Z.ltb_spec (1024 * 1024) v); [|lia].
Qed.

Lemma bad_length_refused s c w more :
  can_refuse c -> pos_ok c -> 0 < multibulklen c -> bulklen c = -1 -> Forall (fun x => x <> 13 /\ x <> 0) w ->
  rest_of c = 36 :: w ++ crlf ++ more -> bad_number w 0 maxb ->
  refused (processMultibulkBuffer e maxb s c) c (str "Protocol error: invalid bulk length").
Proof.
  intros Hc Hp Hm Hb Hw Hr Hbad. destruct (line_found c 36 w more Hp ltac:(lia) ltac:(lia) Hw Hr) as (Fnd & Sh & Hx & Sl).
  eapply bulk_refused; [done|done| |by apply (perror_refused s c "Protocol error: invalid bulk length")].
  unfold read_bulklen. rewrite Fnd. cbn [mbind option_bind].
  unfold too_short in Sh. rewrite Sh, Hx, bool_decide_eq_true_2, Sl by done. cbn [negb].
  destruct (string2ll w) as [v|] eqn:Ev; [|done]. destruct (string2ll_bad _ _ _ _ Hbad Ev).
  - by destruct (Z.ltb_spec v 0); [|lia].
  - destruct (v <? 0); [done|]. by destruct (Z.ltb_spec maxb v); [|lia].
Qed.

Lemma no_dollar_refused s c y w more :
  can_refuse c -> pos_ok c -> 0 < multibulklen c -> bulklen c = -1 -> Forall (fun x => x <> 13 /\ x <> 0) w ->
  y <> 36 -> y <> 13 -> y <> 0 -> rest_of c = y :: w ++ crlf ++ more ->
  refused (processMultibulkBuffer e maxb s c) c (one_line (str "Protocol error: expected '$', got '" ++ [y] ++ str "'")).
Proof.
  intros Hc Hp Hm Hb Hw Hy H13 H0 Hr. destruct (line_found c y w more Hp H13 H0 Hw Hr) as (Fnd & Sh & Hx & Sl).
  eapply bulk_refused; [done|done| |].
  - unfold read_bulklen. rewrite Fnd. cbn [mbind option_bind]. unfold too_short in Sh. rewrite Sh, Hx.
    rewrite bool_decide_eq_false_2 by congruence. cbn [negb mbind option_bind]. reflexivity.
  - destruct Hc as (Hc & Ha & Hb'). apply protocol_error_spec; [done|done| |by apply error_writes].
    rewrite !budget_cons. change (budget []) with 0. unfold one_line. rewrite length_fmap, !length_app. cbn. lia.
Qed.

Lemma long_line_refused s c :
  can_refuse c -> pos_ok c -> Forall (fun x => x <> 13 /\ x <> 0) (rest_of c) -> PROTO_INLINE_MAX_SIZE < zlen (rest_of c) ->
  (multibulklen c = 0 -> argv c = [] -> refused (processMultibulkBuffer e maxb s c) c (str "Protocol error: too big mbulk count string")) /\
  (0 < multibulklen c -> bulklen c = -1 -> refused (processMultibulkBuffer e maxb s c) c (str "Protocol error: too big bulk count string")).
Proof.
  intros Hc Hp Hw Hl. destruct (line_missing c Hp Hw Hl) as [Fnd Un]. split; intros Hm Hb.
  - eapply count_refused; [done| |by apply (perror_refused s c "Protocol error: too big mbulk count string")].
    unfold read_count. rewrite bool_decide_eq_true_2, Fnd by done. cbn [mbind option_bind]. by rewrite Un.
  - eapply bulk_refused; [done|done| |by apply (perror_refused s c "Protocol error: too big bulk count string")].
    unfold read_bulklen. rewrite Fnd. cbn [mbind option_bind]. by rewrite Un.
Qed.
End Errors.

(** A line that is no length of an argument: not a number or not an allowed one, without the dollar
    sign, or without an end within 64 KB; and the error. *)
Definition bad_line (maxb : Z) (line msg : list Z) : Prop :=
  (exists w more, line = 36 :: w ++ crlf ++ more /\ Forall (fun x => x <> 13 /\ x <> 0) w /\ bad_number w 0 maxb /\ msg = str "Protocol error: invalid bulk length") \/
  (exists y w more, line = y :: w ++ crlf ++ more /\ Forall (fun x => x <> 13 /\ x <> 0) w /\ y <> 36 /\ y <> 13 /\ y <> 0 /\ msg = one_line (str "Protocol error: expected '$', got '" ++ [y] ++ str "'")) \/
  (Forall (fun x => x <> 13 /\ x <> 0) line /\ PROTO_INLINE_MAX_SIZE < zlen line /\ msg = str "Protocol error: too big bulk count string").
Lemma bad_line_refused e maxb s c line msg :
  allocator_ok e -> can_refuse c -> pos_ok c -> 0 < multibulklen c -> bulklen c = -1 -> rest_of c = line -> bad_line maxb line msg -> refused (processMultibulkBuffer e maxb s c) c msg.
Proof.
  intros He Hc Hp Hm Hb Hr [(w & more & -> & Hw & Hbad & ->)|[(y & w & more & -> & Hw & Hy & H13 & H0 & ->)|(Hw & Hl & ->)]]; [by eapply bad_length_refused|by eapply no_dollar_refused|].
  rewrite <-Hr in Hw, Hl. by apply (long_line_refused e maxb He s c Hc Hp Hw Hl).
Qed.

(** The state of a request: at its first line, or with the arguments d read and the
    complete arguments t in the buffer, in front of a line, with k arguments to come from there. *)
Definition before_line (c : conn) (k : nat) (args : list (list Z)) (line : list Z) : Prop :=
  between c [] (header 42 (zlen args + Z.of_nat k) ++ mjoin (bulk <$> args) ++ line) \/ exists d t, args = d ++ t /\ in_args_of k c [] line d t.
Lemma args_then_line e maxb s c k args line :
  before_line c k args line -> reqtype c = PROTO_REQ_MULTIBULK -> (0 < k)%nat -> zlen args + Z.of_nat k <= 1024 * 1024 -> Forall (arg_ok maxb) args ->
  exists c', processMultibulkBuffer e maxb s c = processMultibulkBuffer e maxb s c' /\ framed c c' /\ in_args_of k c' [] line args [].
Proof.
  intros Hb Hrt Hk Hn Hok.
  assert (exists c0 d t, processMultibulkBuffer e maxb s c = processMultibulkBuffer e maxb s c0 /\ framed c c0 /\ args = d ++ t /\ in_args_of k c0 [] line d t) as (c0 & d & t & E0 & F0 & Hsp & H0).
  { destruct Hb as [Hb|(d & t & Hsp & Hin)]; [|by exists c, d, t]. destruct (count_read e s c k args line Hb Hrt ltac:(lia)) as (c0 & Ec & Fc & Hin). exists c0, [], args. split_and!; [|done..].
    unfold processMultibulkBuffer. rewrite (bt_left _ _ _ Hb). cbn [Z.eqb]. rewrite Ec. cbn [mbind option_bind]. pose proof (ia_left _ _ _ _ _ _ Hin). destruct (Z.eqb_spec (multibulklen c0) 0); [lia|done]. }
  rewrite Hsp in Hok. apply Forall_app in Hok as [_ Hok]. pose proof (ia_left _ _ _ _ _ _ H0) as Hl0. destruct (read_args_prefix e maxb s k t k c0 line d Hk H0 Hok) as (c1 & E1 & F1 & H1). pose proof (ia_left _ _ _ _ _ _ H1) as Hl1. cbn [length Z.of_nat Z.add] in Hl1.
  exists c1. split; [|split; [by eapply framed_trans|by rewrite Hsp]]. rewrite E0. unfold processMultibulkBuffer. destruct (Z.eqb_spec (multibulklen c0) 0); [lia|]. destruct (Z.eqb_spec (multibulklen c1) 0); [lia|]. cbn [mbind option_bind].
  destruct (Z.ltb_spec 0 (multibulklen c0)); [|lia]. destruct (Z.ltb_spec 0 (multibulklen c1)); [|lia]. replace (Z.to_nat (multibulklen c0)) with (length t + k)%nat by lia. replace (Z.to_nat (multibulklen c1)) with k by lia. by rewrite E1.
Qed.


(** ** Inline requests *)

Definition printable (l : list Z) : Prop := Forall (fun x => 32 <= x <= 126) l.

Lemma hex_char_printable d : 0 <= d < 16 -> 32 <= hex_char d <= 126.
Proof. unfold hex_char. intros Hd. destruct (Z.ltb_spec d 10); lia. Qed.

Lemma repr_char_printable c : is_byte c -> printable (repr_char c).
Proof.
  unfold is_byte, repr_char, printable. intros Hc.
  destruct ((c =? 92) || (c =? 34)) eqn:E1; [apply orb_true_iff in E1 as [E1|E1]; apply Z.eqb_eq in E1; subst c; repeat constructor; lia|].
  do 5 (bdestr1; [repeat constructor; lia|]).
  destruct (isprint c) eqn:E2; [unfold isprint in E2; apply andb_true_iff in E2 as [A%Z.leb_le B%Z.leb_le]; by apply Forall_singleton|].
  pose proof (hex_char_printable (c / 16) ltac:(split; [apply Z.div_pos; lia|apply Z.div_lt_upper_bound; lia])).
  pose proof (hex_char_printable (c mod 16) ltac:(apply Z.mod_pos_bound; lia)).
  rewrite !Forall_cons. split_and!; try lia. apply Forall_nil_2.
Qed.

Lemma repr_printable a : Forall is_byte a -> printable (mjoin (repr_char <$> a)).
Proof.
  induction 1 as [|c a Hc _ IH]; [constructor|]. change (mjoin (repr_char <$> c :: a)) with (repr_char c ++ mjoin (repr_char <$> a)).
  apply Forall_app. split; [by apply repr_char_printable|done].
Qed.
Lemma quoted_printable args r : Forall (Forall is_byte) args -> printable r -> printable (quoted args r).
Proof.
  intros Ha Hr. induction Ha as [|a args Hb _ IH]; [done|]. cbn [quoted foldr]. fold (quoted args r). rewrite sdscatrepr_eq.
  apply Forall_app. split; [|constructor; [lia|done]]. constructor; [lia|]. apply Forall_app. split; [by apply repr_printable|by repeat constructor].
Qed.
Lemma line_printable args : Forall (Forall is_byte) args -> printable (sdsjoinsds (sdscatrepr [] <$> args) [32]).
Proof.
  intros Ha. destruct args as [|a args _] using rev_ind; [constructor|]. apply Forall_app in Ha as [Ha [Hb _]%Forall_cons].
  rewrite fmap_app. change (sdscatrepr [] <$> [a]) with [sdscatrepr [] a]. rewrite join_quoted. apply quoted_printable; [done|].
  rewrite sdscatrepr_eq. constructor; [lia|]. apply Forall_app. split; [by apply repr_printable|by repeat constructor].
Qed.

(** Where the line ends, with or without a carriage return. *)
Lemma inline_end c line eol more :
  pos_ok c -> printable line -> eol = [10] \/ eol = [13; 10] -> rest_of c = line ++ eol ++ more ->
  exists nl, find_in_query c 10 = Some (Some nl) /\
    let cr := negb (nl =? qb_pos c)%nat && bool_decide (querybuf c !! (nl - 1)%nat = Some 13) in
    let nl' := if cr then (nl - 1)%nat else nl in
    nl' = (qb_pos c + length line)%nat /\ (if cr then 2 else 1)%nat = length eol /\ slice (querybuf c) (qb_pos c) nl' = line.
Proof.
  intros Hp Hl He Hr.
  assert (slice (querybuf c) (qb_pos c) (qb_pos c + length line) = line) as Hsl.
  { pose proof (slice_rest c 0 (length line)) as H. rewrite Nat.add_0_r in H. rewrite H. unfold slice. rewrite Nat.sub_0_r, drop_0, Hr. by rewrite take_app_length. }
  assert (Forall (fun x => x <> 10 /\ x <> 0) line) as Hcl by (eapply Forall_impl; [exact Hl|]; cbn; lia).
  destruct He as [->| ->].
  - change (rest_of c = line ++ 10 :: more) in Hr. exists (qb_pos c + length line)%nat. rewrite find_rest, Hr, strchr_found by done. split; [done|]. cbn zeta.
    assert (negb (qb_pos c + length line =? qb_pos c)%nat && bool_decide (querybuf c !! (qb_pos c + length line - 1)%nat = Some 13) = false) as ->; [|done].
    destruct (Nat.eqb_spec (qb_pos c + length line) (qb_pos c)) as [|Hne]; [done|]. cbn [negb andb].
    replace (qb_pos c + length line - 1)%nat with (qb_pos c + (length line - 1))%nat by lia. rewrite lookup_rest, Hr, lookup_app_l by lia.
    destruct (lookup_lt_is_Some_2 line (length line - 1)) as [v Hv]; [lia|]. rewrite Hv. apply bool_decide_eq_false_2. intros [= ->].
    pose proof (proj1 (Forall_lookup _ _) Hl _ _ Hv) as H. cbn in H. lia.
  - exists (qb_pos c + S (length line))%nat. rewrite find_rest, Hr by done.
    change (line ++ [13; 10] ++ more) with (line ++ [13] ++ 10 :: more). rewrite app_assoc, strchr_found by (apply Forall_app; split; [done|by repeat constructor]).
    split; [by rewrite length_app; cbn; rewrite Nat.add_1_r|]. cbn zeta.
    assert (negb (qb_pos c + S (length line) =? qb_pos c)%nat && bool_decide (querybuf c !! (qb_pos c + S (length line) - 1)%nat = Some 13) = true) as ->.
    { destruct (Nat.eqb_spec (qb_pos c + S (length line)) (qb_pos c)) as [|Hne]; [lia|]. cbn [negb andb].
      replace (qb_pos c + S (length line) - 1)%nat with (qb_pos c + length line)%nat by lia. rewrite lookup_rest, Hr.
      apply bool_decide_eq_true_2. change (line ++ [13; 10] ++ more) with (line ++ 13 :: 10 :: more). by apply list_lookup_middle. }
    replace (qb_pos c + S (length line) - 1)%nat with (qb_pos c + length line)%nat by lia. done.
Qed.

(** A line of text with arguments in the quoted form of sdscatrepr, whatever
    bytes they contain and however the line ends, is one request with the
    arguments that are not empty, and is taken from the buffer; a line with an
    unterminated quote is refused with an error. *)
Theorem inline_correct e s c args a eol more :
  allocator_ok e -> pos_ok c -> Forall (Forall is_byte) args -> Forall is_byte a -> eol = [10] \/ eol = [13; 10] ->
  (rest_of c = sdsjoinsds (sdscatrepr [] <$> args) [32] ++ eol ++ more ->
     exists c', processInlineBuffer e s c = Some (true, s, c') /\ obj_bytes <$> argv c' = filter (fun a => a <> []) args /\
       rest_of c' = more /\ pos_ok c') /\
  (can_refuse c -> rest_of c = quoted args (34 :: mjoin (repr_char <$> a)) ++ eol ++ more ->
     refused (processInlineBuffer e s c) c (str "Protocol error: unbalanced quotes in request")).
Proof.
  intros He Hp Hargs Ha Heol. split.
  - intros Hr. destruct (inline_end c _ eol more Hp (line_printable args Hargs) Heol Hr) as (nl & Hf & H).
    unfold processInlineBuffer. rewrite Hf. cbn [mbind option_bind]. cbn zeta in H. set (cr := negb _ && _) in *. destruct H as (H1 & H2 & H3). rewrite H3.
    rewrite splitargs_join by done. cbn [mbind option_bind]. rewrite H2. set (nl' := if cr then _ else _) in *.
    set (c0 := if _ && has _ _ then _ else c). assert (querybuf c0 = querybuf c /\ qb_pos c0 = qb_pos c) as [Q0 P0] by (unfold c0; by destruct (_ && has _ _)).
    eexists. split; [done|]. cbn [set_argv set_buf argv querybuf qb_pos]. unfold rest_of, pos_ok in *. cbn [set_argv set_buf argv querybuf qb_pos].
    rewrite Q0, P0, H1. split_and!.
    + rewrite <-list_fmap_compose. apply list_fmap_id.
    + rewrite app_assoc in Hr. rewrite <-drop_drop, Hr. apply drop_app_length'. rewrite length_app. lia.
    + apply (f_equal length) in Hr. rewrite length_drop, !length_app in Hr. lia.
  - intros Hc Hr. assert (printable (quoted args (34 :: mjoin (repr_char <$> a)))) as Hq.
    { apply quoted_printable; [done|]. constructor; [lia|by apply repr_printable]. }
    destruct (inline_end c _ eol more Hp Hq Heol Hr) as (nl & Hf & H).
    unfold processInlineBuffer. rewrite Hf. cbn [mbind option_bind]. cbn zeta in H. set (cr := negb _ && _) in *. destruct H as (H1 & H2 & H3). rewrite H3.
    pose proof (splitargs_bad args a [] Hargs Ha ltac:(by left)) as Hb. rewrite app_nil_r in Hb. rewrite Hb. cbn [mbind option_bind].
    by apply perror_refused.
Qed.

(** ** Examples *)

Definition demo_conn (q : list Z) : conn := mk_conn demo_client q 0 0 0 (-1) [] 0 false 0 0 0.
(** Execution that keeps a journal of the requests, and closes the client at QUIT. *)
Definition demo_exec (s : server) (c : conn) (x : list (list (list Z))) : option (bool * server * option conn * list (list (list Z))) :=
  let a := obj_bytes <$> argv c in
  Some (if bool_decide (a = [str "QUIT"]) then (false, s, Some (set_cl (setProtocolError (cl c)) c), x ++ [a]) else (true, s, Some c, x ++ [a])).
Definition demo_stops (a : list (list Z)) (_ : list (list (list Z))) : bool := bool_decide (a = [str "QUIT"]).
Definition demo_cmds : list (list (list Z)) := [[str "SET"; str "k"; [0; 13; 10; 255]]; [str "QUIT"]; [str "GET"; []]].

Lemma demo_executes : executes demo_exec (fun a x => x ++ [a]) demo_stops.
Proof.
  intros s c x _ Hs. unfold demo_exec, demo_stops. case_bool_decide; (eexists _, s, _; split; [done|]); [|by split; [|exists c]].
  intros c' [= <-]. split; [done|]. split; [done|]. right. cbn [set_cl cl setProtocolError with_flags flags]. unfold has. apply negb_true_iff, Z.eqb_neq. intros E. apply (f_equal (fun z => Z.testbit z 6)) in E. rewrite Z.land_spec, Z.lor_spec, orb_true_r in E. done.
Qed.
Lemma demo_fits : Forall (request_fits 512 65536) demo_cmds.
Proof. repeat constructor; vm_compute; done. Qed.


Lemma demo_can_refuse q : can_refuse (demo_conn q).
Proof. split_and!; [apply demo_client_ok|done|vm_compute; done]. Qed.

Definition demo_bad : conn := set_reqtype PROTO_REQ_MULTIBULK (demo_conn (header 42 2 ++ bulk (str "GET") ++ str "$x" ++ crlf)).
(** The end of an argument is not looked at. *)
Example argument_end_unchecked :
  (fun r => let '(ok, _, c) := r in (ok, obj_bytes <$> argv c)) <$> processMultibulkBuffer demo_env 512 demo_server (set_reqtype PROTO_REQ_MULTIBULK (demo_conn (header 42 1 ++ header 36 3 ++ str "fooXY"))) = Some (true, [str "foo"]).
Proof. vm_compute. reflexivity. Qed.

Lemma inline_correct_witness :
  exists c', processInlineBuffer demo_env demo_server
    (demo_conn (sdsjoinsds (sdscatrepr [] <$> [str "ECHO"; [10; 34]]) [32] ++ crlf ++ str "PING")) = Some (true, demo_server, c') /\
    obj_bytes <$> argv c' = [str "ECHO"; [10; 34]] /\ rest_of c' = str "PING" /\ pos_ok c'.
Proof.
  refine (proj1 (inline_correct demo_env demo_server
    (demo_conn (sdsjoinsds (sdscatrepr [] <$> [str "ECHO"; [10; 34]]) [32] ++ crlf ++ str "PING")) [str "ECHO"; [10; 34]] [] crlf (str "PING")
    demo_allocator _ _ _ _) eq_refl).
  - unfold pos_ok. cbn. lia.
  - repeat constructor; vm_compute; done.
  - constructor.
  - by right.
Defined.
