(* ===== verification/Aof.v ===== *)
(** * The append only file (src/redis-stable/src/aof.c)

    Commands that change data are appended to the file as requests; some are
    translated first, so that times are absolute.  Loading reads the file back
    and runs the requests, and recovers from a file that ends inside a request or
    inside a transaction.  The writer is modelled from the command to the bytes
    appended to the buffers, the loader from the bytes of the file to the commands
    run and the size the file is truncated to.  Command execution is a parameter. *)
From stdpp Require Import prelude list list_numbers strings.
From Stdlib Require Import ZArith Lia.
From S2P Require Import Prelude Util SdsText Rio Rdb Reply Resp.

Local Open Scope Z_scope.
Local Open Scope redis_scope.

(** ** The model: writing *)

(** buf[0] = prefix; len = 1+ll2string(buf+1,sizeof(buf)-1,v); and the line end, in an
    array of n + 1 characters. *)
Definition count_line (n : nat) (prefix v : Z) : option (list Z) :=
  '(b, len) ← ll2string (replicate n 0) (Z.of_nat n) v;
  let buf := prefix :: b in
  let len := 1 + len in
  buf ← mwrite buf len [13];
  buf ← mwrite buf (len + 1) [10];
  Some (take (Z.to_nat (len + 2)) buf).

(** The characters of the decoded object. *)
Definition getDecodedObject (o : string_obj) : option (list Z) :=
  match o with
  | ObjEmbstr s | ObjRaw s => Some s
  | ObjInt _ v => '(buf, _) ← ll2string (replicate 32 0) 32 v; Some (c_string buf)
  end.

Fixpoint cat_args (dst : list Z) (argv : list string_obj) : option (list Z) :=
  match argv with
  | [] => Some dst
  | a :: argv =>
    o ← getDecodedObject a;
    hdr ← count_line 31 36 (zlen o);
    cat_args (((dst ++ hdr) ++ o) ++ crlf) argv
  end.
Definition catAppendOnlyGenericCommand (dst : list Z) (argv : list string_obj) : option (list Z) :=
  hdr ← count_line 31 42 (zlen argv);
  cat_args (dst ++ hdr) argv.

(** The commands the writer distinguishes. *)
Inductive command_proc := expireCommand | pexpireCommand | expireatCommand | setexCommand | psetexCommand | setCommand | otherCommand.

(** A signed result that does not fit is undefined. *)
Definition ll_checked (v : Z) : option Z := assert! ((LLONG_MIN <=? v) && (v <=? LLONG_MAX)) ;; Some v.

Section Writer.
Context (cfg : config) (mstime : Z).

Definition catAppendOnlyExpireAtCommand (buf : list Z) (cmd : command_proc) (key seconds : string_obj) : option (list Z) :=
  s ← getDecodedObject seconds;
  let when := (strtoll10 (c_string s)).1 in
  when ← match cmd with expireCommand | setexCommand | expireatCommand => ll_checked (when * 1000) | _ => Some when end;
  when ← match cmd with expireCommand | pexpireCommand | setexCommand | psetexCommand => ll_checked (when + mstime) | _ => Some when end;
  w ← createStringObjectFromLongLongWithOptions cfg when false;
  catAppendOnlyGenericCommand buf [createStringObject (str "PEXPIREAT"); key; w].

Definition to_lower_char (c : Z) : Z := if (65 <=? c) && (c <=? 90) then c + 32 else c.
(** strcasecmp(a,b) == 0 *)
Definition strcaseeq (a b : list Z) : bool := bool_decide (to_lower_char <$> c_string a = to_lower_char <$> c_string b).

(** The characters of argv[i]->ptr, which must not be encoded as an integer. *)
Definition ptr_chars (o : string_obj) : option (list Z) := match o with ObjEmbstr s | ObjRaw s => Some s | ObjInt _ _ => None end.

(** The loop over the options of SET: exarg and pxarg. *)
Fixpoint set_options (argv : list string_obj) (ex px : option string_obj) : option (option string_obj * option string_obj) :=
  match argv with
  | [] => Some (ex, px)
  | a :: rest =>
    s ← ptr_chars a;
    ex ← (if strcaseeq s (str "ex") then Some <$> head rest else Some ex);
    px ← (if strcaseeq s (str "px") then Some <$> head rest else Some px);
    set_options rest ex px
  end.

Definition AOF_RW_BUF_BLOCK_SIZE : Z := 1024 * 1024 * 10.

(** The bytes in use; free is the room left. *)
Record aofrwblock := mk_rwblock { rw_used : list Z; rw_free : Z }.

(** The loop of aofRewriteBufferAppend; [blocks] are those before the last one. *)
Fixpoint rewrite_append (fuel : nat) (blocks : list aofrwblock) (block : option aofrwblock) (s : list Z) : option (list aofrwblock) :=
  let all b := match b with Some b => blocks ++ [b] | None => blocks end in
  if zlen s =? 0 then Some (all block) else
  match fuel with
  | O => None
  | S fuel =>
    let '(block, s) :=
      match block with
      | Some b =>
        let thislen := if rw_free b <? zlen s then rw_free b else zlen s in
        if thislen =? 0 then (Some b, s)
        else (Some (mk_rwblock (rw_used b ++ take (Z.to_nat thislen) s) (rw_free b - thislen)), drop (Z.to_nat thislen) s)
      | None => (None, s)
      end in
    if zlen s =? 0 then rewrite_append fuel blocks block s
    else rewrite_append fuel (match block with Some b => blocks ++ [b] | None => blocks end) (Some (mk_rwblock [] AOF_RW_BUF_BLOCK_SIZE)) s
  end.
Definition aofRewriteBufferAppend (blocks : list aofrwblock) (s : list Z) : option (list aofrwblock) :=
  rewrite_append (S (length s)) (take (length blocks - 1) blocks) (last blocks) s.

(** The members of struct redisServer that the writer uses. *)
Record aof_state := mk_aof { aof_on : bool; aof_child : bool; aof_selected_db : Z; aof_buf : list Z; aof_rewrite_buf_blocks : list aofrwblock }.

(** The command as it goes to the file. *)
Definition aof_translate (buf : list Z) (cmd : command_proc) (argv : list string_obj) : option (list Z) :=
  match cmd with
  | expireCommand | pexpireCommand | expireatCommand =>
    key ← argv !! 1%nat; seconds ← argv !! 2%nat;
    catAppendOnlyExpireAtCommand buf cmd key seconds
  | setexCommand | psetexCommand =>
    key ← argv !! 1%nat; seconds ← argv !! 2%nat; value ← argv !! 3%nat;
    buf ← catAppendOnlyGenericCommand buf [createStringObject (str "SET"); key; value];
    catAppendOnlyExpireAtCommand buf cmd key seconds
  | setCommand =>
    if (3 <? length argv)%nat then
      buf ← catAppendOnlyGenericCommand buf (take 3 argv);
      key ← argv !! 1%nat;
      '(ex, px) ← set_options (drop 3 argv) None None;
      assert! (negb (match ex, px with Some _, Some _ => true | _, _ => false end)) ;;
      buf ← match ex with Some s => catAppendOnlyExpireAtCommand buf expireCommand key s | None => Some buf end;
      match px with Some s => catAppendOnlyExpireAtCommand buf pexpireCommand key s | None => Some buf end
    else catAppendOnlyGenericCommand buf argv
  | otherCommand => catAppendOnlyGenericCommand buf argv
  end.

Definition feedAppendOnlyFile (st : aof_state) (cmd : command_proc) (dictid : Z) (argv : list string_obj) : option aof_state :=
  let select := negb (dictid =? aof_selected_db st) in
  let seldb := decimal dictid in
  let buf := if select then str "*2" ++ crlf ++ str "$6" ++ crlf ++ str "SELECT" ++ crlf ++ str "$" ++ decimal (zlen seldb) ++ crlf ++ seldb ++ crlf else [] in
  buf ← aof_translate buf cmd argv;
  blocks ← (if aof_child st then aofRewriteBufferAppend (aof_rewrite_buf_blocks st) buf else Some (aof_rewrite_buf_blocks st));
  Some (mk_aof (aof_on st) (aof_child st) (if select then dictid else aof_selected_db st)
               (if aof_on st then aof_buf st ++ buf else aof_buf st) blocks).
End Writer.

(** ** The model: loading *)

(** A FILE: the bytes that follow and the end of file indicator. *)
Record file_in := mk_in { data : list Z; feof : bool }.

(** Up to n characters, ending with a newline; and whether the end was met. *)
Fixpoint gets (n : nat) (l : list Z) : list Z * list Z * bool :=
  match n with
  | O => ([], l, false)
  | S n =>
    match l with
    | [] => ([], [], true)
    | x :: l => if x =? 10 then ([x], l, false) else let '(a, r, e) := gets n l in (x :: a, r, e)
    end
  end.
(** fgets(buf,sizeof(buf),fp) *)
Definition fgets (size : nat) (f : file_in) : option (list Z) * file_in :=
  let '(a, r, e) := gets (size - 1) (data f) in
  match a with [] => (None, mk_in r true) | _ => (Some a, mk_in r (feof f || e)) end.
(** fread(buf,n,1,fp) *)
Definition fread (n : Z) (f : file_in) : option (list Z) * file_in :=
  if n <=? zlen (data f) then (Some (take (Z.to_nat n) (data f)), mk_in (drop (Z.to_nat n) (data f)) (feof f))
  else (None, mk_in [] true).

(** The labels readerr and fmterr, and a failed allocation. *)
Inductive load_failure := ReadErr | FmtErr | NoMemory.

Section Loader.
Context (max_alloc : Z).

(** One round of the loop over the arguments. *)
Definition load_arg (f : file_in) : (load_failure + list Z) * file_in :=
  let '(b, f) := fgets 128 f in
  match b with
  | None => (inl ReadErr, f)
  | Some buf =>
    if negb (bool_decide (head buf = Some 36)) then (inl FmtErr, f) else
    let len := u64 (strtoll10 (c_string (drop 1 buf))).1 in
    if max_alloc <? len then (inl NoMemory, f) else
    let '(a, f) := if len =? 0 then (Some [], f) else fread len f in
    match a with
    | None => (inl ReadErr, f)
    | Some argsds =>
      let '(nl, f) := fread 2 f in
      match nl with None => (inl ReadErr, f) | Some _ => (inr argsds, f) end
    end
  end.
Fixpoint load_args (n : nat) (argv : list (list Z)) (f : file_in) : (load_failure + list (list Z)) * file_in :=
  match n with
  | O => (inr argv, f)
  | S n =>
    let '(r, f) := load_arg f in
    match r with inl e => (inl e, f) | inr a => load_args n (argv ++ [a]) f end
  end.

(** A command; None at the end of the file. *)
Definition load_command (f : file_in) : option (load_failure + list (list Z)) * file_in :=
  let '(b, f) := fgets 128 f in
  match b with
  | None => ((if feof f then None else Some (inl ReadErr)), f)
  | Some buf =>
    if negb (bool_decide (head buf = Some 42)) then (Some (inl FmtErr), f) else
    if (match buf !! 1%nat with Some x => x =? 0 | None => true end) then (Some (inl ReadErr), f) else
    let argc := s32 (strtoll10 (c_string (drop 1 buf))).1 in
    if argc <? 1 then (Some (inl FmtErr), f) else
    if max_alloc <? 8 * argc then (Some (inl NoMemory), f) else
    let '(r, f) := load_args (Z.to_nat argc) [] f in (Some r, f)
  end.

(** What the commands do: whether a name is that of a command, of MULTI or of EXEC, what
    running a command does to the data, and queueing it; in_multi is
    fakeClient->flags & CLIENT_MULTI. *)
Context {X : Type} (known is_multi is_exec : list Z -> bool) (proc queueMultiCommand : list (list Z) -> X -> X) (in_multi : X -> bool).

Definition run_command (args : list (list Z)) (x : X) : X :=
  if in_multi x && negb (is_exec (hd [] args)) then queueMultiCommand args x else proc args x.

(** The loop ends at the end of the file or with a failure; valid_up_to and
    valid_before_multi are offsets in a file of [total] bytes. *)
Fixpoint load_loop (fuel : nat) (truncated : bool) (total : Z) (f : file_in) (x : X) (up_to before : Z) :
    option (option load_failure * file_in * X * Z * Z) :=
  match fuel with
  | O => None
  | S fuel =>
    let '(r, f) := load_command f in
    match r with
    | None => Some (None, f, x, up_to, before)
    | Some (inl e) => Some (Some e, f, x, up_to, before)
    | Some (inr args) =>
      if negb (known (hd [] args)) then Some (Some FmtErr, f, x, up_to, before) else
      let before := if is_multi (hd [] args) then up_to else before in
      let x := run_command args x in
      let up_to := if truncated then total - zlen (data f) else up_to in
      load_loop fuel truncated total f x up_to before
    end
  end.

(** C_ERR for the empty file, C_OK with the data and the size the file then has, or
    exit(1). *)
Inductive load_result := EmptyFile | LoadedOk (x : X) (size : Z) | Exited.

(** [preamble] is rdbLoadRio on a file that starts with a dump: the data and the rest of
    the file, or a failure with the end of file indicator and what was loaded;
    [truncate_ok] whether truncating the file works. *)
Definition loadAppendOnlyFile (aof_load_truncated truncate_ok : bool) (preamble : list Z -> X -> bool * X + X * list Z) (x0 : X) (bs : list Z) :
    option load_result :=
  if zlen bs =? 0 then Some EmptyFile else
  let uxeof x up_to := if aof_load_truncated && truncate_ok then LoadedOk x up_to else Exited in
  let readerr eof x up_to := if eof : bool then uxeof x up_to else Exited in
  match (if bool_decide (take 5 bs = str "REDIS") then preamble bs x0 else inr (x0, bs)) with
  | inl (eof, x) => Some (readerr eof x 0)
  | inr (x, rest) =>
    '(e, f, x, up_to, before) ← load_loop (S (length rest)) aof_load_truncated (zlen bs) (mk_in rest false) x 0 0;
    match e with
    | None => Some (if in_multi x then uxeof x before else LoadedOk x (zlen bs))
    | Some ReadErr => Some (readerr (feof f) x up_to)
    | Some _ => Some Exited
    end
  end.
End Loader.
Arguments EmptyFile {X}.
Arguments LoadedOk {X} _ _.
Arguments Exited {X}.

(** ** What is written *)

Definition arg_fits (o : string_obj) : Prop :=
  match o with ObjInt _ v => LLONG_MIN <= v <= LLONG_MAX | _ => True end /\ zlen (obj_bytes o) <= LLONG_MAX.

Lemma count_line_ok n p v : (22 <= n)%nat -> LLONG_MIN <= v <= LLONG_MAX -> count_line n p v = Some (header p v).
Proof.
  intros Hn Hv. pose proof (decimal_length v Hv) as Hl. unfold count_line.
  rewrite ll2string_ok by (rewrite ?length_replicate; done || lia). cbn [mbind option_bind].
  rewrite drop_replicate. destruct (n - S (length (decimal v)))%nat as [|m] eqn:Em; [lia|]. cbn [replicate].
  rewrite app_comm_cons, mwrite_cell by (cbn; lia). cbn [mbind option_bind].
  rewrite cons_middle, app_assoc, mwrite_cell by (rewrite length_app; cbn; lia). cbn [mbind option_bind]. f_equal.
  unfold header, crlf. rewrite <-!app_assoc. cbn [app].
  replace (p :: decimal v ++ 13 :: 10 :: replicate m 0) with ((p :: decimal v ++ [13; 10]) ++ replicate m 0) by (cbn; by rewrite <-app_assoc).
  rewrite take_app_length'; [done|]. cbn. rewrite length_app. cbn. lia.
Qed.

Lemma decoded_ok o : arg_fits o -> getDecodedObject o = Some (obj_bytes o).
Proof.
  intros [Hv _]. destruct o as [sh v|s|s]; [|done..]. unfold getDecodedObject.
  rewrite ll2string_ok by (rewrite ?length_replicate; done || lia). cbn [mbind option_bind].
  by rewrite c_string_spec by apply decimal_nonzero.
Qed.

Lemma cat_args_ok dst argv : Forall arg_fits argv -> cat_args dst argv = Some (dst ++ mjoin (bulk <$> (obj_bytes <$> argv))).
Proof.
  intros Ha. revert dst. induction Ha as [|o argv Ho _ IH]; intros dst; [by rewrite app_nil_r|].
  cbn [cat_args]. rewrite decoded_ok by done. cbn [mbind option_bind].
  rewrite count_line_ok by (destruct Ho as [_ Ho]; unfold LLONG_MIN; lia). cbn [mbind option_bind]. rewrite IH.
  change (mjoin (bulk <$> (obj_bytes <$> o :: argv))) with (bulk (obj_bytes o) ++ mjoin (bulk <$> (obj_bytes <$> argv))).
  unfold bulk at 2. by rewrite <-!app_assoc.
Qed.

Lemma generic_ok dst argv :
  Forall arg_fits argv -> zlen argv <= LLONG_MAX -> catAppendOnlyGenericCommand dst argv = Some (dst ++ encode (obj_bytes <$> argv)).
Proof.
  intros Ha Hl. unfold catAppendOnlyGenericCommand. rewrite count_line_ok by (unfold LLONG_MIN; lia). cbn [mbind option_bind].
  rewrite cat_args_ok by done. unfold encode. by rewrite length_fmap, <-app_assoc.
Qed.

Section Written.
Context (cfg : config) (mstime : Z).

(** The number of seconds or milliseconds an argument means, and the absolute time. *)
Definition number (o : string_obj) : Z := (strtoll10 (c_string (obj_bytes o))).1.
Definition in_ms (cmd : command_proc) (v : Z) : Z := match cmd with expireCommand | setexCommand | expireatCommand => v * 1000 | _ => v end.
Definition absolute_ms (cmd : command_proc) (v : Z) : Z :=
  match cmd with expireCommand | pexpireCommand | setexCommand | psetexCommand => in_ms cmd v + mstime | _ => in_ms cmd v end.
Definition time_fits (cmd : command_proc) (o : string_obj) : Prop :=
  LLONG_MIN <= in_ms cmd (number o) <= LLONG_MAX /\ LLONG_MIN <= absolute_ms cmd (number o) <= LLONG_MAX.
Definition pexpireat (cmd : command_proc) (key o : string_obj) : list (list Z) :=
  [str "PEXPIREAT"; obj_bytes key; decimal (absolute_ms cmd (number o))].

Lemma ll_checked_ok v : LLONG_MIN <= v <= LLONG_MAX -> ll_checked v = Some v.
Proof. intros [A%Z.leb_le B%Z.leb_le]. unfold ll_checked. by rewrite A, B. Qed.

Lemma long_object v : LLONG_MIN <= v <= LLONG_MAX ->
  exists o, createStringObjectFromLongLongWithOptions cfg v false = Some o /\ obj_bytes o = decimal v /\ arg_fits o.
Proof.
  intros Hv. unfold createStringObjectFromLongLongWithOptions. pose proof (decimal_length v Hv) as Hl.
  assert (forall sh, arg_fits (ObjInt sh v)) as Hf by (intros sh; split; [done|cbn; unfold LLONG_MAX; lia]).
  destruct (_ && _ && _); [by eexists|]. destruct (Z.leb_spec LONG_MIN v); [|unfold LONG_MIN, LLONG_MIN in *; lia].
  destruct (Z.leb_spec v LONG_MAX); [|unfold LONG_MAX, LLONG_MAX in *; lia]. by eexists.
Qed.

Lemma expireat_ok buf cmd key o :
  arg_fits key -> arg_fits o -> time_fits cmd o ->
  catAppendOnlyExpireAtCommand cfg mstime buf cmd key o = Some (buf ++ encode (pexpireat cmd key o)).
Proof.
  intros Hk Ho [H1 H2]. unfold catAppendOnlyExpireAtCommand. rewrite decoded_ok by done. cbn [mbind option_bind]. fold (number o).
  assert (match cmd with expireCommand | setexCommand | expireatCommand => ll_checked (number o * 1000) | _ => Some (number o) end =
    Some (in_ms cmd (number o))) as -> by (destruct cmd; cbn in *; rewrite ?ll_checked_ok by done; done). cbn [mbind option_bind].
  assert (match cmd with expireCommand | pexpireCommand | setexCommand | psetexCommand => ll_checked (in_ms cmd (number o) + mstime) | _ => Some (in_ms cmd (number o)) end =
    Some (absolute_ms cmd (number o))) as -> by (destruct cmd; cbn [absolute_ms] in *; rewrite ?ll_checked_ok by done; done). cbn [mbind option_bind].
  destruct (long_object _ H2) as (w & -> & Hb & Hw). cbn [mbind option_bind].
  rewrite generic_ok; [|by repeat (apply Forall_cons; split)|by cbn].
  cbn [fmap list_fmap]. by rewrite Hb.
Qed.

(** The commands that go to the file for a command. *)
Definition translated (cmd : command_proc) (argv : list string_obj) : list (list (list Z)) :=
  match cmd, argv with
  | expireCommand, _ :: key :: t :: _ | pexpireCommand, _ :: key :: t :: _ | expireatCommand, _ :: key :: t :: _ => [pexpireat cmd key t]
  | setexCommand, _ :: key :: t :: value :: _ | psetexCommand, _ :: key :: t :: value :: _ =>
    [[str "SET"; obj_bytes key; obj_bytes value]; pexpireat cmd key t]
  | setCommand, c :: key :: value :: (_ :: _) as opts =>
    (obj_bytes <$> [c; key; value]) ::
    match set_options (drop 3 argv) None None with
    | Some (Some t, _) => [pexpireat expireCommand key t]
    | Some (None, Some t) => [pexpireat pexpireCommand key t]
    | _ => []
    end
  | _, _ => [obj_bytes <$> argv]
  end.

(** A command that has been executed: it has its arguments, its times fit, and SET has
    at most one expiry. *)
Definition executed_ok (cmd : command_proc) (argv : list string_obj) : Prop :=
  Forall arg_fits argv /\ zlen argv <= LLONG_MAX /\
  match cmd, argv with
  | expireCommand, _ :: _ :: t :: _ | pexpireCommand, _ :: _ :: t :: _ | expireatCommand, _ :: _ :: t :: _ => time_fits cmd t
  | setexCommand, _ :: _ :: t :: _ :: _ | psetexCommand, _ :: _ :: t :: _ :: _ => time_fits cmd t
  | setCommand, _ =>
    match set_options (drop 3 argv) None None with
    | Some (Some t, None) => time_fits expireCommand t
    | Some (None, Some t) => time_fits pexpireCommand t
    | Some (None, None) => True
    | _ => False
    end
  | otherCommand, _ => True
  | _, _ => False
  end.

Lemma set_options_in argv ex px ex' px' :
  set_options argv ex px = Some (ex', px') -> (forall o, ex' = Some o -> ex = Some o \/ o ∈ argv) /\ (forall o, px' = Some o -> px = Some o \/ o ∈ argv).
Proof.
  revert ex px. induction argv as [|a argv IH]; intros ex px H; cbn [set_options] in H; [injection H as <- <-; auto|].
  destruct (ptr_chars a); [|done]. cbn [mbind option_bind] in H.
  destruct (if strcaseeq _ _ then _ else Some ex) as [ex1|] eqn:E1; [|done]. cbn [mbind option_bind] in H.
  destruct (if strcaseeq _ _ then _ else Some px) as [px1|] eqn:E2; [|done]. cbn [mbind option_bind] in H.
  assert (forall (b : bool) (z z1 : option string_obj) o, (if b then Some <$> head argv else Some z) = Some z1 -> z1 = Some o -> z = Some o \/ o ∈ a :: argv) as Hh.
  { intros b z z1 o Hb ->. destruct b; [|injection Hb as ->; by left]. destruct argv as [|y argv]; [done|]. injection Hb as ->. right. set_solver. }
  apply IH in H as [H1 H2]. split; intros o Ho.
  - destruct (H1 o Ho) as [H|H]; [by eapply Hh|right; set_solver].
  - destruct (H2 o Ho) as [H|H]; [by eapply Hh|right; set_solver].
Qed.

Lemma encode_one (buf : list Z) c : buf ++ encode c = buf ++ mjoin (encode <$> [c]).
Proof. change (mjoin (encode <$> [c])) with (encode c ++ []). by rewrite app_nil_r. Qed.
Lemma encode_two (buf : list Z) c d : (buf ++ encode c) ++ encode d = buf ++ mjoin (encode <$> [c; d]).
Proof. change (mjoin (encode <$> [c; d])) with (encode c ++ encode d ++ []). by rewrite app_nil_r, app_assoc. Qed.

Lemma translate_ok buf cmd argv :
  executed_ok cmd argv -> aof_translate cfg mstime buf cmd argv = Some (buf ++ mjoin (encode <$> translated cmd argv)).
Proof.
  intros (Ha & Hl & Hc).
  assert (forall c key t (rest : list string_obj), argv = c :: key :: t :: rest -> arg_fits c /\ arg_fits key /\ arg_fits t /\ Forall arg_fits rest) as Hin.
  { intros c key t rest ->. repeat apply Forall_cons in Ha as [? Ha]. done. }
  destruct cmd; cbn [aof_translate].
  1-3: destruct argv as [|c [|key [|t rest]]]; try done; destruct (Hin _ _ _ _ eq_refl) as (? & ? & ? & _);
    cbn [lookup list_lookup mbind option_bind]; rewrite expireat_ok by done; by rewrite encode_one.
  1-2: destruct argv as [|c [|key [|t [|value rest]]]]; try done; destruct (Hin _ _ _ _ eq_refl) as (? & ? & ? & Hr);
    apply Forall_cons in Hr as [? _]; cbn [lookup list_lookup mbind option_bind];
    rewrite generic_ok by (first [by repeat (apply Forall_cons; split)|by cbn]); cbn [mbind option_bind];
    rewrite expireat_ok by done; rewrite encode_two; done.
  2: rewrite generic_ok by done; cbn [translated]; by rewrite encode_one.
  destruct (Nat.ltb_spec 3 (length argv)) as [H3|H3].
  2:{ rewrite generic_ok by done. destruct argv as [|c [|key [|value [|o rest]]]]; cbn [translated]; try (by rewrite encode_one). cbn in H3. lia. }
  destruct argv as [|c [|key [|value [|o rest]]]]; try (cbn in H3; lia).
  destruct (Hin _ _ _ _ eq_refl) as (? & ? & ? & Hr). cbn [take drop] in *. unfold translated. cbn [drop] in *. change (drop 3 (c :: key :: value :: o :: rest)) with (o :: rest) in *.
  change (take 3 (c :: key :: value :: o :: rest)) with [c; key; value].
  rewrite generic_ok by (first [by repeat (apply Forall_cons; split)|by cbn]). cbn [lookup list_lookup mbind option_bind].
  destruct (set_options (o :: rest) None None) as [[ex px]|] eqn:Eo; [|done]. cbn [mbind option_bind].
  destruct (set_options_in _ _ _ _ _ Eo) as [Hex Hpx]. rewrite Forall_forall in Hr.
  destruct ex as [t|], px as [t'|]; try done; cbn [negb mbind option_bind].
  - destruct (Hex t eq_refl) as [?|Hi]; [done|]. rewrite expireat_ok by auto. by rewrite encode_two.
  - destruct (Hpx t' eq_refl) as [?|Hi]; [done|]. rewrite expireat_ok by auto. by rewrite encode_two.
  - by rewrite encode_one.
Qed.

(** *** The rewrite buffer *)

Definition rw_ok (b : aofrwblock) : Prop := 0 <= rw_free b /\ zlen (rw_used b) + rw_free b = AOF_RW_BUF_BLOCK_SIZE.
Definition rw_content (l : list aofrwblock) : list Z := mjoin (rw_used <$> l).
Definition all_blocks (blocks : list aofrwblock) (block : option aofrwblock) : list aofrwblock :=
  match block with Some b => blocks ++ [b] | None => blocks end.
(** A round that only allocates is needed when the last block is full. *)
Definition alloc_round (block : option aofrwblock) : nat :=
  match block with Some b => if 0 <? rw_free b then 0 else 1 | None => 1 end.

Lemma rw_content_app l1 l2 : rw_content (l1 ++ l2) = rw_content l1 ++ rw_content l2.
Proof. unfold rw_content. by rewrite fmap_app, join_app. Qed.

Lemma rewrite_append_spec fuel : forall blocks block s,
  Forall rw_ok (all_blocks blocks block) -> s = [] \/ (length s + alloc_round block <= fuel)%nat ->
  exists r, rewrite_append fuel blocks block s = Some r /\ Forall rw_ok r /\ rw_content r = rw_content (all_blocks blocks block) ++ s.
Proof.
  induction fuel as [|fuel IH]; intros blocks block s Hok Hf.
  { destruct Hf as [->|Hf]; [exists (all_blocks blocks block); by rewrite app_nil_r|]. destruct s; [|cbn in Hf; lia].
    exists (all_blocks blocks block). by rewrite app_nil_r. }
  cbn [rewrite_append]. destruct (Z.eqb_spec (zlen s) 0) as [Hz|Hz].
  { destruct s; [|done]. exists (all_blocks blocks block). by rewrite app_nil_r. }
  destruct Hf as [->|Hf]; [done|].
  assert (Forall rw_ok [mk_rwblock [] AOF_RW_BUF_BLOCK_SIZE]) as Hnew by (by apply Forall_singleton).
  assert (forall bl bk, all_blocks bl bk = all_blocks blocks block -> (length s <= fuel)%nat ->
    exists r, rewrite_append fuel (all_blocks bl bk) (Some (mk_rwblock [] AOF_RW_BUF_BLOCK_SIZE)) s = Some r /\ Forall rw_ok r /\
      rw_content r = rw_content (all_blocks blocks block) ++ s) as Hfresh.
  { intros bl bk He Hl. destruct (IH (all_blocks bl bk) (Some (mk_rwblock [] AOF_RW_BUF_BLOCK_SIZE)) s) as (r & E & R & C).
    - cbn [all_blocks]. rewrite He. by apply Forall_app.
    - right. cbn [alloc_round rw_free]. change (0 <? AOF_RW_BUF_BLOCK_SIZE) with true. cbn iota. lia.
    - exists r. split; [done|]. split; [done|]. rewrite C. cbn [all_blocks]. rewrite He, rw_content_app. cbn. by rewrite app_nil_r. }
  destruct block as [b|]; cbn [alloc_round] in Hf.
  2:{ destruct (Z.eqb_spec (zlen s) 0); [lia|]. apply (Hfresh blocks None); [done|lia]. }
  assert (rw_ok b) as [Hb1 Hb2] by (cbn [all_blocks] in Hok; rewrite Forall_app, Forall_singleton in Hok; apply Hok).
  set (t := if rw_free b <? zlen s then rw_free b else zlen s). destruct (Z.eqb_spec t 0) as [Ht|Ht].
  { destruct (Z.eqb_spec (zlen s) 0); [lia|]. apply (Hfresh blocks (Some b)); [done|].
    unfold t in Ht. destruct (Z.ltb_spec (rw_free b) (zlen s)); [|lia]. destruct (Z.ltb_spec 0 (rw_free b)); lia. }
  assert (0 < t <= zlen s /\ t <= rw_free b) as [Ht1 Ht2] by (unfold t in *; destruct (Z.ltb_spec (rw_free b) (zlen s)); lia).
  set (b' := mk_rwblock (rw_used b ++ take (Z.to_nat t) s) (rw_free b - t)).
  assert (Forall rw_ok (blocks ++ [b'])) as Hok'.
  { cbn [all_blocks] in Hok. apply Forall_app in Hok as [Hok _]. apply Forall_app. split; [done|]. apply Forall_singleton. split; cbn; [lia|].
    rewrite length_app, length_take. lia. }
  assert (rw_content (blocks ++ [b']) ++ drop (Z.to_nat t) s = rw_content (blocks ++ [b]) ++ s) as Hc.
  { rewrite !rw_content_app, <-!app_assoc. f_equal. cbn. rewrite !app_nil_r, <-app_assoc. by rewrite take_drop. }
  cbn [all_blocks]. rewrite <-Hc. assert (length (drop (Z.to_nat t) s) < length s)%nat by (rewrite length_drop; lia).
  destruct (Z.eqb_spec (zlen (drop (Z.to_nat t) s)) 0) as [Hd|Hd].
  - apply (IH blocks (Some b')); [done|]. left. apply nil_length_inv. lia.
  - destruct (IH (blocks ++ [b']) (Some (mk_rwblock [] AOF_RW_BUF_BLOCK_SIZE)) (drop (Z.to_nat t) s)) as (r & E & R & C).
    + cbn [all_blocks]. by apply Forall_app.
    + right. cbn [alloc_round rw_free]. change (0 <? AOF_RW_BUF_BLOCK_SIZE) with true. cbn iota. lia.
    + exists r. split; [done|]. split; [done|]. rewrite C. cbn [all_blocks]. rewrite rw_content_app. cbn. by rewrite app_nil_r.
Qed.

Lemma rewrite_buffer_ok blocks s :
  Forall rw_ok blocks -> exists r, aofRewriteBufferAppend blocks s = Some r /\ Forall rw_ok r /\ rw_content r = rw_content blocks ++ s.
Proof.
  intros Hok. unfold aofRewriteBufferAppend.
  assert (all_blocks (take (length blocks - 1) blocks) (last blocks) = blocks) as Hall.
  { destruct blocks as [|b l _] using rev_ind; [done|]. rewrite last_snoc, length_app, take_app_length' by (cbn; lia). done. }
  destruct (rewrite_append_spec (S (length s)) (take (length blocks - 1) blocks) (last blocks) s) as (r & E & R & C); [by rewrite Hall| |].
  - right. unfold alloc_round. destruct (last blocks) as [b|]; [destruct (0 <? rw_free b)|]; lia.
  - exists r. by rewrite Hall in C.
Qed.

(** *** The whole writer *)

Definition select_cmd (dictid : Z) : list (list Z) := [str "SELECT"; decimal dictid].
Definition logged (st : aof_state) (cmd : command_proc) (dictid : Z) (argv : list string_obj) : list (list (list Z)) :=
  (if dictid =? aof_selected_db st then [] else [select_cmd dictid]) ++ translated cmd argv.

Lemma feed_ok st cmd dictid argv :
  executed_ok cmd argv -> Forall rw_ok (aof_rewrite_buf_blocks st) ->
  exists st', feedAppendOnlyFile cfg mstime st cmd dictid argv = Some st' /\ aof_selected_db st' = dictid /\
    aof_on st' = aof_on st /\ aof_child st' = aof_child st /\ Forall rw_ok (aof_rewrite_buf_blocks st') /\
    let bs := mjoin (encode <$> logged st cmd dictid argv) in
    aof_buf st' = aof_buf st ++ (if aof_on st then bs else []) /\
    rw_content (aof_rewrite_buf_blocks st') = rw_content (aof_rewrite_buf_blocks st) ++ (if aof_child st then bs else []).
Proof.
  intros Hex Hrw. unfold feedAppendOnlyFile. set (sel := if negb _ then str "*2" ++ _ else []).
  assert (sel = mjoin (encode <$> if dictid =? aof_selected_db st then [] else [select_cmd dictid])) as Hsel.
  { unfold sel. destruct (dictid =? aof_selected_db st); [done|]. cbn [negb].
    change (mjoin (encode <$> [select_cmd dictid])) with (encode (select_cmd dictid) ++ []). rewrite app_nil_r. unfold encode, select_cmd.
    change (mjoin (bulk <$> [str "SELECT"; decimal dictid])) with (bulk (str "SELECT") ++ bulk (decimal dictid) ++ []).
    rewrite app_nil_r. unfold bulk, header. change (decimal (zlen [str "SELECT"; decimal dictid])) with (str "2").
    change (decimal (zlen (str "SELECT"))) with (str "6"). cbn -[decimal]. by rewrite <-app_assoc. }
  rewrite translate_ok by done. cbn [mbind option_bind].
  assert (sel ++ mjoin (encode <$> translated cmd argv) = mjoin (encode <$> logged st cmd dictid argv)) as ->.
  { rewrite Hsel. unfold logged. by rewrite fmap_app, join_app. }
  set (bs := mjoin (encode <$> logged st cmd dictid argv)).
  assert (exists r, (if aof_child st then aofRewriteBufferAppend (aof_rewrite_buf_blocks st) bs else Some (aof_rewrite_buf_blocks st)) = Some r /\
    Forall rw_ok r /\ rw_content r = rw_content (aof_rewrite_buf_blocks st) ++ (if aof_child st then bs else [])) as (r & -> & Hr & Hc).
  { destruct (aof_child st); [by apply rewrite_buffer_ok|]. eexists. by rewrite app_nil_r. }
  cbn [mbind option_bind]. eexists. split; [done|]. cbn. split_and!; try done.
  - by destruct (Z.eqb_spec dictid (aof_selected_db st)).
  - destruct (aof_on st); [done|by rewrite app_nil_r].
Qed.
End Written.

(** ** Reading requests back *)

Lemma gets_line n a l : Forall (fun x => x <> 10) a -> (length a < n)%nat -> gets n (a ++ 10 :: l) = (a ++ [10], l, false).
Proof.
  intros Ha. revert n. induction Ha as [|x a Hx _ IH]; intros n Hn; (destruct n as [|n]; [cbn in Hn; lia|]); cbn [gets app]; [done|].
  destruct (Z.eqb_spec x 10); [done|]. rewrite IH by (cbn in Hn; lia). done.
Qed.
Lemma gets_end n a : Forall (fun x => x <> 10) a -> (length a < n)%nat -> gets n a = (a, [], true).
Proof.
  intros Ha. revert n. induction Ha as [|x a Hx _ IH]; intros n Hn; (destruct n as [|n]; [cbn in Hn; lia|]); cbn [gets]; [done|].
  destruct (Z.eqb_spec x 10); [done|]. rewrite IH by (cbn in Hn; lia). done.
Qed.

Lemma strtoll10_digits ds r :
  Forall (fun c => 48 <= c <= 57) ds -> ds <> [] -> (forall c t, r = c :: t -> ~ 48 <= c <= 57) ->
  strtoll10 (ds ++ r) = (Z.max LLONG_MIN (Z.min LLONG_MAX (dec_val ds)), r).
Proof.
  intros Hd Hne Hr. destruct ds as [|c ds]; [done|]. pose proof (Forall_inv Hd) as Hc. cbn in Hc. unfold strtoll10.
  assert (drop_spaces ((c :: ds) ++ r) = (c :: ds) ++ r) as ->.
  { cbn. unfold isspace. destruct (Z.eqb_spec c 32); [lia|]. destruct (Z.leb_spec c 13); [lia|]. by rewrite andb_false_r. }
  cbn [app]. destruct (Z.eqb_spec c 45); [lia|]. destruct (Z.eqb_spec c 43); [lia|].
  pose proof (span_digits_all (c :: ds) r Hd Hr) as Hs. cbn [app] in Hs. by rewrite Hs.
Qed.

(** The number on a line or on the part of one that is there. *)
Definition line_number (w : list Z) : Z := (strtoll10 (c_string w)).1.

Lemma decimal_dec v : 0 <= v -> decimal v = dec v.
Proof. intros Hv. unfold decimal. by destruct (Z.ltb_spec v 0); [lia|]. Qed.

Lemma line_number_full v : 0 <= v <= LLONG_MAX -> line_number (decimal v ++ crlf) = v.
Proof.
  intros Hv. unfold line_number. rewrite c_string_id.
  - rewrite decimal_dec by lia. rewrite strtoll10_digits; [|apply dec_digits; lia|apply dec_nonempty; lia|intros c t [= <- <-]; lia].
    cbn [fst]. rewrite dec_val_dec by lia. unfold LLONG_MIN, LLONG_MAX in *. lia.
  - apply Forall_app. split; [apply decimal_nonzero|by repeat constructor].
Qed.

(** A proper part of a number line without its prefix: nothing, or some digits with an
    optional carriage return. *)
Lemma line_cut v w h :
  0 <= v -> decimal v ++ crlf = w ++ h -> h <> [] ->
  Forall (fun x => x <> 10 /\ x <> 0) w /\ exists ds ds' r, w = ds ++ r /\ decimal v = ds ++ ds' /\ (r = [] \/ r = [13] /\ ds' = []).
Proof.
  intros Hv Hw Hh. destruct h as [|y h _] using rev_ind; [done|]. unfold crlf in Hw. change [13; 10] with ([13] ++ [10]) in Hw.
  rewrite !app_assoc in Hw. apply app_inj_tail in Hw as [Hw _].
  assert (Forall (fun x => x <> 10 /\ x <> 0) (decimal v ++ [13])) as Hcl.
  { apply Forall_app. split; [|by repeat constructor]. rewrite decimal_dec by lia. eapply Forall_impl; [apply dec_digits; lia|]. cbn. lia. }
  split; [rewrite Hw in Hcl; by apply Forall_app in Hcl as [? _]|].
  destruct h as [|z h _] using rev_ind.
  - exists (decimal v), [], [13]. rewrite !app_nil_r in *. split; [done|]. split; [done|]. by right.
  - rewrite app_assoc in Hw. apply app_inj_tail in Hw as [Hw _]. exists w, h, []. rewrite app_nil_r. split; [done|]. split; [done|by left].
Qed.

Lemma line_number_cut v w h :
  0 <= v <= LLONG_MAX -> decimal v ++ crlf = w ++ h -> h <> [] ->
  0 <= line_number w <= v /\ (0 < v -> w <> [] -> 1 <= line_number w).
Proof.
  intros Hv Hw Hh. destruct (line_cut v w h) as (Hcl & ds & ds' & r & -> & Hd & Hr); [lia|done|done|].
  unfold line_number. rewrite c_string_id by (eapply Forall_impl; [exact Hcl|]; intros ? [_ ?]; done).
  rewrite decimal_dec in Hd by lia. pose proof (dec_digits v ltac:(lia)) as Hdd. pose proof (dec_val_dec v ltac:(lia)) as Hval.
  rewrite Hd in Hdd, Hval. apply Forall_app in Hdd as [Hd1 Hd2]. pose proof (dec_val_app_le ds ds' Hd1 Hd2) as Hle. pose proof (dec_val_nonneg ds Hd1) as Hnn.
  destruct ds as [|c ds].
  { destruct Hr as [->|[-> ->]]; [split; [cbn; lia|done]|]. by apply dec_nonempty in Hd; [|lia]. }
  rewrite strtoll10_digits by (done || by intros ? ? ->; destruct Hr as [?|[[= -> ->] _]]; [done|lia]). cbn [fst].
  rewrite Z.min_r, Z.max_r by (unfold LLONG_MIN, LLONG_MAX in *; lia). split; [lia|]. intros Hpos _.
  pose proof (dec_head v Hpos) as Hh1. rewrite Hd in Hh1. cbn in Hh1.
  assert (dec_val [c] <= dec_val ([c] ++ ds)) as H1 by (apply Forall_cons in Hd1 as [? ?]; by apply dec_val_app_le; [apply Forall_singleton|]).
  cbn [app] in H1. unfold dec_val at 1 in H1. cbn [foldl] in H1. lia.
Qed.

Section Loading.
Context (max_alloc : Z).

Lemma header_split p v : header p v = (p :: decimal v ++ [13]) ++ [10].
Proof. unfold header, crlf. cbn [app]. f_equal. by rewrite <-app_assoc. Qed.

Lemma fgets_header f p v t :
  data f = header p v ++ t -> p <> 10 -> 0 <= v <= LLONG_MAX -> fgets 128 f = (Some (header p v), mk_in t (feof f)).
Proof.
  intros Hd Hp Hv. unfold fgets. rewrite Hd, header_split, <-app_assoc. cbn [app].
  pose proof (header_length p v ltac:(unfold LLONG_MIN; lia)) as Hl. rewrite header_split, length_app in Hl. cbn in Hl.
  change (p :: (decimal v ++ [13]) ++ 10 :: t) with ((p :: decimal v ++ [13]) ++ 10 :: t). rewrite gets_line.
  - cbn [app]. by rewrite orb_false_r.
  - constructor; [done|]. apply Forall_app. split; [|by repeat constructor]. rewrite decimal_dec by lia.
    eapply Forall_impl; [apply dec_digits; lia|]. cbn. lia.
  - cbn. lia.
Qed.

Lemma fgets_cut f p v u h :
  data f = u -> header p v = u ++ h -> u <> [] -> h <> [] -> p <> 10 -> 0 <= v <= LLONG_MAX ->
  exists w, u = p :: w /\ decimal v ++ crlf = w ++ h /\ fgets 128 f = (Some u, mk_in [] true).
Proof.
  intros Hd Hh Hu Hne Hp Hv. destruct u as [|y w]; [done|]. unfold header in Hh. cbn in Hh. injection Hh as <- Hh. exists w. split; [done|]. split; [done|].
  destruct (line_cut v w h) as (Hcl & _); [lia|done|done|]. unfold fgets. rewrite Hd, gets_end.
  - by rewrite orb_true_r.
  - constructor; [done|]. eapply Forall_impl; [exact Hcl|]. by intros ? [? _].
  - pose proof (header_length p v ltac:(unfold LLONG_MIN; lia)) as Hl. unfold header in Hl. rewrite Hh in Hl. cbn in Hl. rewrite length_app in Hl. cbn. lia.
Qed.

Lemma fgets_nothing f : data f = [] -> fgets 128 f = (None, mk_in [] true).
Proof. intros Hd. unfold fgets. by rewrite Hd. Qed.
Lemma fread_ok f a t : data f = a ++ t -> fread (zlen a) f = (Some a, mk_in t (feof f)).
Proof.
  intros Hd. unfold fread. rewrite Hd, length_app. destruct (Z.leb_spec (zlen a) (Z.of_nat (length a + length t))); [|lia].
  by rewrite Nat2Z.id, take_app_length, drop_app_length.
Qed.
Lemma fread_short f n : zlen (data f) < n -> fread n f = (None, mk_in [] true).
Proof. intros Hn. unfold fread. by destruct (Z.leb_spec n (zlen (data f))); [lia|]. Qed.

Definition arg_loads (a : list Z) : Prop := zlen a <= max_alloc /\ zlen a <= LLONG_MAX.

Lemma load_arg_ok f a t : data f = bulk a ++ t -> arg_loads a -> load_arg max_alloc f = (inr a, mk_in t (feof f)).
Proof.
  intros Hd [Ha Hl]. unfold bulk in Hd. rewrite <-!app_assoc in Hd. unfold load_arg. rewrite (fgets_header f 36 (zlen a) _ Hd) by lia.
  cbn [header head]. rewrite bool_decide_eq_true_2 by done. cbn [negb].
  change (strtoll10 (c_string (drop 1 (header 36 (zlen a))))).1 with (line_number (decimal (zlen a) ++ crlf)). rewrite line_number_full by lia.
  rewrite u64_small by (unfold LLONG_MAX in *; lia). destruct (Z.ltb_spec max_alloc (zlen a)); [lia|].
  assert ((if zlen a =? 0 then (Some [], mk_in (a ++ crlf ++ t) (feof f)) else fread (zlen a) (mk_in (a ++ crlf ++ t) (feof f))) =
    (Some a, mk_in (crlf ++ t) (feof f))) as ->.
  { destruct (Z.eqb_spec (zlen a) 0); [destruct a; [done|cbn in *; lia]|]. by rewrite (fread_ok _ a (crlf ++ t)). }
  change 2 with (zlen crlf). by rewrite (fread_ok _ crlf t).
Qed.

Lemma load_arg_cut f a h :
  bulk a = data f ++ h -> h <> [] -> arg_loads a -> exists f', load_arg max_alloc f = (inl ReadErr, f') /\ feof f' = true.
Proof.
  intros Hb Hh [Ha Hl]. destruct (decide (data f = [])) as [Hz|Hz].
  { unfold load_arg. rewrite fgets_nothing by done. by eexists. }
  unfold bulk in Hb. symmetry in Hb. apply prefix_cases in Hb as [(u & Hu & Hr)|(Hlt & h' & Hh1 & Hh2)].
  - unfold load_arg. rewrite (fgets_header f 36 (zlen a) _ Hu) by lia. cbn [header head]. rewrite bool_decide_eq_true_2 by done. cbn [negb].
    change (strtoll10 (c_string (drop 1 (header 36 (zlen a))))).1 with (line_number (decimal (zlen a) ++ crlf)). rewrite line_number_full by lia.
    rewrite u64_small by (unfold LLONG_MAX in *; lia). destruct (Z.ltb_spec max_alloc (zlen a)); [lia|].
    apply prefix_cases in Hr as [(u' & -> & Hr)|(Hlt & h' & -> & ->)].
    + assert ((if zlen a =? 0 then (Some [], mk_in (a ++ u') (feof f)) else fread (zlen a) (mk_in (a ++ u') (feof f))) = (Some a, mk_in u' (feof f))) as ->.
      { destruct (Z.eqb_spec (zlen a) 0); [destruct a; [done|cbn in *; lia]|]. by rewrite (fread_ok _ a u'). }
      rewrite fread_short; [by eexists|]. apply (f_equal length) in Hr. rewrite length_app in Hr. cbn in *. destruct h; [done|]. cbn in Hr. lia.
    + destruct (Z.eqb_spec (Z.of_nat (length (u ++ h'))) 0); [lia|]. rewrite fread_short by (cbn; lia). by eexists.
  - assert (h' <> []) as Hne by (intros ->; rewrite app_nil_r in Hh1; rewrite Hh1 in Hlt; lia).
    destruct (fgets_cut f 36 (zlen a) (data f) h' eq_refl Hh1 Hz Hne ltac:(lia) ltac:(lia)) as (w & Hw & Hd & E).
    unfold load_arg. rewrite E, Hw. cbn [head]. rewrite bool_decide_eq_true_2 by done. cbn [negb].
    change (strtoll10 (c_string (drop 1 (36 :: w)))).1 with (line_number w).
    destruct (line_number_cut (zlen a) w h') as [Hn _]; [lia|done|done|]. rewrite u64_small by (unfold LLONG_MAX in *; lia).
    destruct (Z.ltb_spec max_alloc (line_number w)); [lia|]. destruct (Z.eqb_spec (line_number w) 0).
    + rewrite fread_short by (cbn; lia). by eexists.
    + rewrite fread_short by (cbn; lia). by eexists.
Qed.

Lemma load_args_ok args : forall f acc t,
  data f = mjoin (bulk <$> args) ++ t -> Forall arg_loads args -> load_args max_alloc (length args) acc f = (inr (acc ++ args), mk_in t (feof f)).
Proof.
  induction args as [|a args IH]; intros f acc t Hd Hok; cbn [length load_args].
  { cbn in Hd. rewrite app_nil_r. destruct f. cbn in *. by rewrite Hd. }
  change (mjoin (bulk <$> a :: args)) with (bulk a ++ mjoin (bulk <$> args)) in Hd. rewrite <-app_assoc in Hd. apply Forall_cons in Hok as [Ha Hok].
  rewrite (load_arg_ok f a _ Hd Ha). rewrite (IH _ _ t) by done. by rewrite <-app_assoc.
Qed.

Lemma load_args_cut args : forall f acc h,
  mjoin (bulk <$> args) = data f ++ h -> h <> [] -> Forall arg_loads args ->
  exists f', load_args max_alloc (length args) acc f = (inl ReadErr, f') /\ feof f' = true.
Proof.
  induction args as [|a args IH]; intros f acc h Hd Hh Hok; cbn [length load_args].
  { cbn in Hd. symmetry in Hd. by apply app_eq_nil in Hd as [_ ?]. }
  change (mjoin (bulk <$> a :: args)) with (bulk a ++ mjoin (bulk <$> args)) in Hd. apply Forall_cons in Hok as [Ha Hok].
  symmetry in Hd. apply prefix_cases in Hd as [(u & Hu & Hr)|(Hlt & h' & Hh1 & Hh2)].
  - rewrite (load_arg_ok f a u Hu Ha). by eapply IH.
  - destruct (load_arg_cut f a h' Hh1) as (f' & -> & Hf); [|done|by eexists].
    intros ->. rewrite app_nil_r in Hh1. rewrite Hh1 in Hlt. lia.
Qed.

(** A command that can be in a file. *)
Definition loadable (args : list (list Z)) : Prop :=
  args <> [] /\ zlen args < 2 ^ 31 /\ 8 * zlen args <= max_alloc /\ Forall arg_loads args.

Lemma second_char w : Forall (fun x => x <> 0) w -> w <> [] -> (match (42 :: w) !! 1%nat with Some x => x =? 0 | None => true end) = false.
Proof. destruct w as [|x w]; [done|]. intros Hx _. apply Forall_inv in Hx. by apply Z.eqb_neq. Qed.

Lemma count_positive (args : list (list Z)) : args <> [] -> 0 < zlen args.
Proof. destruct args; [done|]. cbn. lia. Qed.

Lemma load_command_ok f args t :
  data f = encode args ++ t -> loadable args -> load_command max_alloc f = (Some (inr args), mk_in t (feof f)).
Proof.
  intros Hd (Hne & Hn & Hal & Hok). apply count_positive in Hne as Hpos. unfold encode in Hd. rewrite <-app_assoc in Hd. unfold load_command.
  rewrite (fgets_header f 42 (zlen args) _ Hd) by (unfold LLONG_MAX; lia). cbn [header head]. rewrite bool_decide_eq_true_2 by done. cbn [negb].
  unfold header. rewrite second_char.
  2:{ apply Forall_app. split; [apply decimal_nonzero|by repeat constructor]. }
  2:{ intros Hz. by apply app_eq_nil in Hz as [_ ?]. }
  change (strtoll10 (c_string (drop 1 (42 :: decimal (zlen args) ++ crlf)))).1 with (line_number (decimal (zlen args) ++ crlf)).
  rewrite line_number_full by (unfold LLONG_MAX; lia). rewrite s32_small by (unfold INT32_MIN, INT32_MAX; lia).
  destruct (Z.ltb_spec (zlen args) 1); [lia|]. destruct (Z.ltb_spec max_alloc (8 * zlen args)); [lia|].
  rewrite Nat2Z.id. by rewrite (load_args_ok args _ [] t).
Qed.

Lemma load_command_cut f args h :
  encode args = data f ++ h -> data f <> [] -> h <> [] -> loadable args ->
  exists f', load_command max_alloc f = (Some (inl ReadErr), f') /\ feof f' = true.
Proof.
  intros Hd Hz Hh (Hne & Hn & Hal & Hok). apply count_positive in Hne as Hpos. unfold encode in Hd. symmetry in Hd.
  apply prefix_cases in Hd as [(u & Hu & Hr)|(Hlt & h' & Hh1 & Hh2)]; unfold load_command.
  - rewrite (fgets_header f 42 (zlen args) _ Hu) by (unfold LLONG_MAX; lia). cbn [header head]. rewrite bool_decide_eq_true_2 by done. cbn [negb].
    unfold header. rewrite second_char.
    2:{ apply Forall_app. split; [apply decimal_nonzero|by repeat constructor]. }
    2:{ intros Hz'. by apply app_eq_nil in Hz' as [_ ?]. }
    change (strtoll10 (c_string (drop 1 (42 :: decimal (zlen args) ++ crlf)))).1 with (line_number (decimal (zlen args) ++ crlf)).
    rewrite line_number_full by (unfold LLONG_MAX; lia). rewrite s32_small by (unfold INT32_MIN, INT32_MAX; lia).
    destruct (Z.ltb_spec (zlen args) 1); [lia|]. destruct (Z.ltb_spec max_alloc (8 * zlen args)); [lia|].
    rewrite Nat2Z.id. destruct (load_args_cut args (mk_in u (feof f)) [] h) as (f' & -> & Hf); [done|done|done|]. by eexists.
  - assert (h' <> []) as Hne' by (intros ->; rewrite app_nil_r in Hh1; rewrite Hh1 in Hlt; lia).
    destruct (fgets_cut f 42 (zlen args) (data f) h' eq_refl Hh1 Hz Hne' ltac:(lia) ltac:(unfold LLONG_MAX; lia)) as (w & Hw & Hd & E).
    rewrite E, Hw. cbn [head]. rewrite bool_decide_eq_true_2 by done. cbn [negb].
    destruct (decide (w = [])) as [->|Hwne]; [by eexists|].
    destruct (line_cut (zlen args) w h') as (Hcl & _); [lia|done|done|].
    rewrite second_char; [|eapply Forall_impl; [exact Hcl|]; by intros ? [_ ?]|done].
    change (strtoll10 (c_string (drop 1 (42 :: w)))).1 with (line_number w).
    destruct (line_number_cut (zlen args) w h') as [Hv Hv1]; [unfold LLONG_MAX; lia|done|done|]. specialize (Hv1 Hpos Hwne).
    rewrite s32_small by (unfold INT32_MIN, INT32_MAX; lia). destruct (Z.ltb_spec (line_number w) 1); [lia|].
    destruct (Z.ltb_spec max_alloc (8 * line_number w)); [lia|].
    destruct (Z.to_nat (line_number w)) as [|n] eqn:En; [lia|]. cbn [load_args]. unfold load_arg. rewrite fgets_nothing by done. by eexists.
Qed.

Lemma load_command_end f : data f = [] -> load_command max_alloc f = (None, mk_in [] true).
Proof. intros Hd. unfold load_command. by rewrite fgets_nothing. Qed.

(** *** The loop *)

Context {X : Type} (known is_multi is_exec : list Z -> bool) (proc queueMultiCommand : list (list Z) -> X -> X) (in_multi : X -> bool).

Abbreviation run := (run_command is_exec proc queueMultiCommand in_multi).
Definition run_all (x : X) (cmds : list (list (list Z))) : X := foldl (fun x a => run a x) x cmds.

(** Where the last MULTI among the commands starts. *)
Fixpoint last_multi (off before : Z) (cmds : list (list (list Z))) : Z :=
  match cmds with
  | [] => before
  | a :: cmds => last_multi (off + zlen (encode a)) (if is_multi (hd [] a) then off else before) cmds
  end.

(** The part of a sequence of commands that is in the file: whole commands and a
    part of the next. *)
Inductive cut_at : list Z -> list (list (list Z)) -> list (list (list Z)) -> list Z -> Prop :=
  | cut_end cmds : cut_at [] [] cmds []
  | cut_inside a cmds u h : encode a = u ++ h -> u <> [] -> h <> [] -> cut_at u [] (a :: cmds) u
  | cut_after a ex todo u part : cut_at u ex todo part -> cut_at (encode a ++ u) (a :: ex) todo part.

Lemma cut_exists cmds : forall n, exists ex todo part, cut_at (take n (mjoin (encode <$> cmds))) ex todo part /\ cmds = ex ++ todo.
Proof.
  induction cmds as [|a cmds IH]; intros n.
  { exists [], [], []. change (mjoin (encode <$> [])) with (@nil Z). rewrite take_nil. by split; [constructor|]. }
  change (mjoin (encode <$> a :: cmds)) with (encode a ++ mjoin (encode <$> cmds)).
  destruct (decide (length (encode a) <= n)%nat) as [Hle|Hgt].
  - destruct (IH (n - length (encode a))%nat) as (ex & todo & part & Hc & ->). exists (a :: ex), todo, part. split; [|done].
    rewrite take_app_ge by lia. by constructor.
  - rewrite take_app_le by lia. destruct n as [|n]; [exists [], (a :: cmds), []; by split; [constructor|]|].
    exists [], (a :: cmds), (take (S n) (encode a)). split; [|done]. eapply cut_inside; [symmetry; apply take_drop| |].
    + intros Hz. apply (f_equal length) in Hz. rewrite length_take in Hz. cbn [length] in Hz. pose proof (encode_nonempty a). lia.
    + intros Hz. apply (f_equal length) in Hz. rewrite length_drop in Hz. cbn [length] in Hz. lia.
Qed.

Lemma cut_bytes u ex todo part : cut_at u ex todo part -> u = mjoin (encode <$> ex) ++ part.
Proof.
  induction 1 as [|a cmds u h _ _ _|a ex todo u part _ IH]; [done|done|].
  change (mjoin (encode <$> a :: ex)) with (encode a ++ mjoin (encode <$> ex)). by rewrite IH, <-app_assoc.
Qed.

Definition all_loadable (cmds : list (list (list Z))) : Prop := Forall (fun a => loadable a /\ known (hd [] a) = true) cmds.

Lemma load_loop_spec u ex todo part : cut_at u ex todo part -> forall fuel truncated total x up_to before eof,
  all_loadable (ex ++ todo) -> (length u < fuel)%nat -> total = up_to + zlen u \/ truncated = false ->
  exists f' b', load_loop max_alloc known is_multi is_exec proc queueMultiCommand in_multi fuel truncated total (mk_in u eof) x up_to before =
      Some ((match part with [] => None | _ => Some ReadErr end), f', run_all x ex,
            (if truncated then up_to + zlen (mjoin (encode <$> ex)) else up_to), b') /\
    feof f' = true /\ (truncated = true -> b' = last_multi up_to before ex).
Proof.
  induction 1 as [cmds|a cmds u h Hsp Hu Hh|a ex todo u part Hcut IH]; intros fuel truncated total x up_to before eof Hall Hf Ht;
    (destruct fuel as [|fuel]; [lia|]); cbn [load_loop].
  - rewrite load_command_end by done. exists (mk_in [] true), before. split; [|done]. cbn. rewrite Z.add_0_r. by destruct truncated.
  - apply Forall_cons in Hall as [[Ha _] _]. destruct (load_command_cut (mk_in u eof) a h Hsp Hu Hh Ha) as (f' & -> & Hf').
    exists f', before. split; [|done]. destruct u; [done|]. cbn. rewrite Z.add_0_r. by destruct truncated.
  - apply Forall_cons in Hall as [[Ha Hk] Hall]. rewrite (load_command_ok _ a u) by done. rewrite Hk. cbn [negb data feof].
    rewrite length_app in Hf. pose proof (encode_nonempty a).
    destruct (IH fuel truncated total (run a x) (if truncated then total - zlen u else up_to) (if is_multi (hd [] a) then up_to else before) eof)
      as (f' & b' & E & Hf' & Hb'); [done|lia| |].
    { destruct Ht as [->| ->]; [|by right]. destruct truncated; [left; lia|by right]. }
    exists f', b'. rewrite E. change (mjoin (encode <$> a :: ex)) with (encode a ++ mjoin (encode <$> ex)). rewrite length_app.
    destruct truncated; [|done]. destruct Ht as [->|]; [|done]. rewrite length_app in *.
    replace (up_to + Z.of_nat (length (encode a) + length u) - zlen u) with (up_to + zlen (encode a)) in * by lia.
    split; [|done]. unfold run_all. cbn [foldl]. do 3 f_equal. lia.
Qed.

Lemma cut_part u ex todo part :
  cut_at u ex todo part -> (forall a r, todo = a :: r -> (length part < length (encode a))%nat) /\ (todo = [] -> part = []).
Proof.
  induction 1 as [cmds|a cmds u h Hsp Hu Hh|]; [|split; [intros b r [= <- <-]|done]|done].
  - split; [|done]. intros a r _. apply encode_nonempty.
  - rewrite Hsp, length_app. destruct h; [done|]. cbn. lia.
Qed.

Lemma encode_head a : exists t, encode a = 42 :: t.
Proof. by eexists. Qed.

Lemma cut_not_dump u ex todo part : cut_at u ex todo part -> take 5 u <> str "REDIS".
Proof.
  intros Hc Ht. assert (forall a t, u = encode a ++ t \/ (exists h, encode a = u ++ h /\ u <> []) -> False) as Hf.
  { intros a t [->|(h & Hh & Hu)].
    - destruct (encode_head a) as [r Hr]. rewrite Hr in Ht. done.
    - destruct (encode_head a) as [r Hr]. rewrite Hr in Hh. destruct u; [done|]. injection Hh as <- _. done. }
  destruct Hc as [cmds|a cmds u h Hsp Hu Hh|a ex todo u part Hcut]; [done|..].
  - apply (Hf a []). right. eauto.
  - apply (Hf a u). by left.
Qed.

(** What loading a file of commands that was cut gives. *)
Definition recovered (truncated truncate_ok : bool) (x0 : X) (ex : list (list (list Z))) (part : list Z) : load_result :=
  let x := run_all x0 ex in
  let size := zlen (mjoin (encode <$> ex)) in
  match part with
  | [] => if in_multi x then (if truncated && truncate_ok then LoadedOk x (last_multi 0 0 ex) else Exited) else LoadedOk x size
  | _ => if truncated && truncate_ok then LoadedOk x size else Exited
  end.

Lemma load_spec truncated truncate_ok preamble x0 u ex todo part :
  cut_at u ex todo part -> all_loadable (ex ++ todo) -> u <> [] ->
  loadAppendOnlyFile max_alloc known is_multi is_exec proc queueMultiCommand in_multi truncated truncate_ok preamble x0 u =
    Some (recovered truncated truncate_ok x0 ex part).
Proof.
  intros Hc Hall Hu. unfold loadAppendOnlyFile. destruct (Z.eqb_spec (zlen u) 0) as [Hz|_]; [by destruct u|].
  rewrite bool_decide_eq_false_2 by by eapply cut_not_dump.
  destruct (load_loop_spec u ex todo part Hc (S (length u)) truncated (zlen u) x0 0 0 false Hall) as (f' & b' & -> & Hf & Hb); [lia|by left|].
  cbn [mbind option_bind]. unfold recovered. destruct part as [|y part].
  - f_equal. apply cut_bytes in Hc. rewrite app_nil_r in Hc. rewrite <-Hc. destruct (in_multi _); [|done]. destruct truncated; [by rewrite Hb|done].
  - rewrite Hf. by destruct truncated.
Qed.
End Loading.

(** ** From commands to the file and back *)

(** The commands executed, with the time, the database and the arguments of each. *)
Record logged_call := mk_call { call_time : Z; call_proc : command_proc; call_db : Z; call_argv : list string_obj }.

Fixpoint feed_all (cfg : config) (st : aof_state) (l : list logged_call) : option aof_state :=
  match l with
  | [] => Some st
  | c :: l => st ← feedAppendOnlyFile cfg (call_time c) st (call_proc c) (call_db c) (call_argv c); feed_all cfg st l
  end.

(** What a reader of the file sees of them. *)
Fixpoint logged_all (selected : Z) (l : list logged_call) : list (list (list Z)) :=
  match l with
  | [] => []
  | c :: l =>
    ((if call_db c =? selected then [] else [select_cmd (call_db c)]) ++ translated (call_time c) (call_proc c) (call_argv c)) ++
    logged_all (call_db c) l
  end.

Lemma feed_all_ok cfg l : forall st,
  Forall (fun c => executed_ok (call_time c) (call_proc c) (call_argv c)) l -> Forall rw_ok (aof_rewrite_buf_blocks st) ->
  exists st', feed_all cfg st l = Some st' /\ Forall rw_ok (aof_rewrite_buf_blocks st') /\
    let bs := mjoin (encode <$> logged_all (aof_selected_db st) l) in
    aof_buf st' = aof_buf st ++ (if aof_on st then bs else []) /\
    rw_content (aof_rewrite_buf_blocks st') = rw_content (aof_rewrite_buf_blocks st) ++ (if aof_child st then bs else []).
Proof.
  induction l as [|c l IH]; intros st Hl Hrw.
  { exists st. split; [done|]. split; [done|]. cbn. destruct (aof_on st), (aof_child st); by rewrite !app_nil_r. }
  apply Forall_cons in Hl as [Hc Hl]. cbn [feed_all].
  destruct (feed_ok cfg (call_time c) st (call_proc c) (call_db c) (call_argv c) Hc Hrw) as (st1 & -> & Hd & Ho & Hch & Hrw1 & Hb & Hw).
  cbn [mbind option_bind]. destruct (IH st1 Hl Hrw1) as (st2 & -> & Hrw2 & Hb2 & Hw2). exists st2. split; [done|]. split; [done|].
  cbn zeta in *. rewrite Hb2, Hw2, Hb, Hw, Hd, Ho, Hch. cbn [logged_all]. unfold logged. rewrite !fmap_app, !join_app.
  destruct (aof_on st), (aof_child st); by rewrite ?app_nil_r, <-?app_assoc.
Qed.

(** C4: the append only file records what was executed.  Let the file be enabled and new, and let the commands
    be ones the server has executed: their arguments fit, the times of expiring commands are numbers that do not overflow when
    they are made absolute, SET has at most one time, and the loading server knows the commands and can allocate their
    arguments.  Then appending the commands
    with their translations (an absolute PEXPIREAT for every relative expiry, a
    SELECT when the database changes) and loading the file, cut by a crash at any
    byte, runs exactly a prefix of the recorded commands, all of those that are
    complete in the file, each with exactly its arguments.  A file that ends between
    commands outside a transaction is loaded as it is; one that ends inside a command is cut
    at the end of the last complete command, and one that ends inside a
    transaction before its MULTI, when that is enabled, and otherwise the process
    ends.  The buffer for a background rewrite gets the same bytes as the file while a child is writing one, and nothing otherwise. *)
Theorem aof_replay {X : Type} cfg max_alloc known is_multi is_exec (proc queue : list (list Z) -> X -> X) in_multi
    truncated truncate_ok preamble x0 st l n :
  Forall (fun c => executed_ok (call_time c) (call_proc c) (call_argv c)) l -> Forall rw_ok (aof_rewrite_buf_blocks st) ->
  aof_on st = true -> aof_buf st = [] ->
  let cmds := logged_all (aof_selected_db st) l in
  all_loadable max_alloc known cmds ->
  exists st' ex todo part,
    feed_all cfg st l = Some st' /\ rw_content (aof_rewrite_buf_blocks st') = rw_content (aof_rewrite_buf_blocks st) ++ (if aof_child st then aof_buf st' else []) /\
    cmds = ex ++ todo /\ take n (aof_buf st') = mjoin (encode <$> ex) ++ part /\
    (forall a r, todo = a :: r -> (length part < length (encode a))%nat) /\ (todo = [] -> part = []) /\
    loadAppendOnlyFile max_alloc known is_multi is_exec proc queue in_multi truncated truncate_ok preamble x0 (take n (aof_buf st')) =
      Some (if bool_decide (take n (aof_buf st') = []) then EmptyFile
            else recovered is_multi is_exec proc queue in_multi truncated truncate_ok x0 ex part).
Proof.
  intros Hl Hrw Hon Hbuf cmds Hall. destruct (feed_all_ok cfg l st Hl Hrw) as (st' & E & Hrw' & Hb & Hw). cbn zeta in Hb, Hw.
  rewrite Hon, Hbuf in Hb. cbn [app] in Hb. fold cmds in Hb, Hw.
  destruct (cut_exists cmds n) as (ex & todo & part & Hc & Hsp). exists st', ex, todo, part. rewrite Hb.
  destruct (cut_part _ _ _ _ Hc) as [Hp1 Hp2]. split_and!; [done|done|done|by apply cut_bytes in Hc|done|done|].
  case_bool_decide as Hz.
  - unfold loadAppendOnlyFile. by rewrite Hz.
  - eapply load_spec; [exact Hc|by rewrite <-Hsp|done].
Qed.

(** ** Examples *)

(** A dataset that keeps a journal of what was run; the second member is the
    queue of an open transaction. *)
Definition demo_data : Type := list (list (list Z)) * option (list (list (list Z))).
Definition demo_in_multi (x : demo_data) : bool := match x.2 with Some _ => true | None => false end.
Definition demo_is (name : list Z) (s : list Z) : bool := bool_decide (s = name).
Definition demo_proc (args : list (list Z)) (x : demo_data) : demo_data :=
  if demo_is (str "MULTI") (hd [] args) then (x.1, Some [])
  else if demo_is (str "EXEC") (hd [] args) then (x.1 ++ default [] x.2, None)
  else (x.1 ++ [args], x.2).
Definition demo_queue (args : list (list Z)) (x : demo_data) : demo_data := (x.1, (fun q => q ++ [args]) <$> x.2).
Definition demo_load (bs : list Z) : option (@load_result demo_data) :=
  loadAppendOnlyFile 65536 (fun _ => true) (demo_is (str "MULTI")) (demo_is (str "EXEC")) demo_proc demo_queue demo_in_multi
    true true (fun _ x => inl (false, x)) ([], None) bs.

Definition demo_calls : list logged_call :=
  [mk_call 500 otherCommand 0 [ObjRaw (str "SET"); ObjRaw (str "k"); ObjInt false 7];
   mk_call 600 expireCommand 1 [ObjRaw (str "EXPIRE"); ObjRaw (str "k"); ObjRaw (str "10")]].
Definition demo_aof : aof_state := mk_aof true true 0 [] [].
Definition demo_cfg : config := mk_config true false.

Lemma demo_calls_ok : Forall (fun c => executed_ok (call_time c) (call_proc c) (call_argv c)) demo_calls.
Proof. repeat constructor; vm_compute; done. Qed.
Lemma demo_calls_load : all_loadable 65536 (fun _ => true) (logged_all 0 demo_calls).
Proof. unfold all_loadable, loadable. repeat constructor; vm_compute; done. Qed.

(** The commands of a cut file, its second command being incomplete. *)
Lemma aof_replay_witness :
  exists st', feed_all demo_cfg demo_aof demo_calls = Some st' /\ rw_content (aof_rewrite_buf_blocks st') = aof_buf st' /\
    demo_load (take 40 (aof_buf st')) = Some (LoadedOk ([[str "SET"; str "k"; str "7"]], None) 27).
Proof.
  destruct (aof_replay demo_cfg 65536 (fun _ => true) (demo_is (str "MULTI")) (demo_is (str "EXEC")) demo_proc demo_queue demo_in_multi
    true true (fun _ x => inl (false, x)) ([], None) demo_aof demo_calls 40) as (st' & ex & todo & part & E & Hrw & _ & _ & _ & _ & HL).
  - exact demo_calls_ok.
  - constructor.
  - done.
  - done.
  - exact demo_calls_load.
  - exists st'. split_and!; [done|exact Hrw|]. assert (feed_all demo_cfg demo_aof demo_calls = Some st') as E' by exact E.
    vm_compute in E'. injection E' as <-. vm_compute. reflexivity.
Defined.

(** A file that ends inside a command of a transaction. *)
Definition demo_torn : list Z := encode [str "SET"; str "a"; str "1"] ++ encode [str "MULTI"] ++ encode [str "SET"; str "b"; str "2"] ++ str "*3".
(** It is cut after the last complete command, and not before the MULTI as a file
    that ends between two commands of a transaction is. *)
Example torn_transaction_keeps_multi :
  demo_load demo_torn = Some (LoadedOk ([[str "SET"; str "a"; str "1"]], Some [[str "SET"; str "b"; str "2"]]) 69) /\
  demo_load (take 69 demo_torn) = Some (LoadedOk ([[str "SET"; str "a"; str "1"]], Some [[str "SET"; str "b"; str "2"]]) 27).
Proof. split; vm_compute; reflexivity. Qed.
(** What is appended to the recovered file is then lost at the next start. *)
Example torn_transaction_loses_writes :
  exists x size, demo_load (take 69 demo_torn ++ encode [str "SET"; str "c"; str "3"]) = Some (LoadedOk x size) /\
    x.1 = [[str "SET"; str "a"; str "1"]] /\ size = 27.
Proof. eexists _, _. split; [vm_compute; reflexivity|done]. Qed.
