(* ===== verification/Ziplist.v ===== *)
(** * Compact lists (src/redis-stable/src/ziplist.c)

    A list of strings in one block of bytes: a header (total size, offset of the
    last entry, number of entries), the entries, and an end mark.  Every entry
    starts with the size of the one before it, in one byte or in five, so that
    the list can be walked in both directions; changing an entry may change
    the sizes of those that follow.  Strings that are decimal integers are stored as
    integers of the least width.  The model works on the block of bytes, a pointer is an
    offset in it, and an access outside it has no result. *)
From stdpp Require Import prelude list.
From Stdlib Require Import ZArith Lia.
From S2P Require Import Prelude Endianconv Util SdsText.

Local Open Scope Z_scope.
Local Open Scope redis_scope.

Abbreviation zlen l := (Z.of_nat (length l)).

(** ** The model *)

Definition ZIP_END : Z := 255.
Definition ZIP_BIG_PREVLEN : Z := 254.
Definition ZIP_STR_MASK : Z := 0xc0.
Definition ZIP_STR_06B : Z := Z.shiftl 0 6.
Definition ZIP_STR_14B : Z := Z.shiftl 1 6.
Definition ZIP_STR_32B : Z := Z.shiftl 2 6.
Definition ZIP_INT_16B : Z := Z.lor 0xc0 (Z.shiftl 0 4).
Definition ZIP_INT_32B : Z := Z.lor 0xc0 (Z.shiftl 1 4).
Definition ZIP_INT_64B : Z := Z.lor 0xc0 (Z.shiftl 2 4).
Definition ZIP_INT_24B : Z := Z.lor 0xc0 (Z.shiftl 3 4).
Definition ZIP_INT_8B : Z := 0xfe.
Definition ZIP_INT_IMM_MASK : Z := 0x0f.
Definition ZIP_INT_IMM_MIN : Z := 0xf1.
Definition ZIP_INT_IMM_MAX : Z := 0xfd.
Definition INT24_MAX : Z := 0x7fffff.
Definition INT24_MIN : Z := - INT24_MAX - 1.
Definition UINT16_MAX : Z := 65535.
Definition UCHAR_MAX : Z := 255.
Definition ZIPLIST_HEADER_SIZE : Z := 4 * 2 + 2.
Definition ZIPLIST_END_SIZE : Z := 1.

Definition ZIP_IS_STR (enc : Z) : bool := Z.land enc ZIP_STR_MASK <? ZIP_STR_MASK.

(** p[0] *)
Definition byte_at (zl : list Z) (p : Z) : option Z := m ← mread zl p 1; head m.

(** What zipEntry fills in; the pointer to the entry is an offset. *)
Record zlentry := mk_zlentry {
  prevrawlensize : Z;
  prevrawlen : Z;
  lensize : Z;
  len : Z;
  headersize : Z;
  encoding : Z;
  zl_p : Z;
}.

Definition zipIntSize (encoding : Z) : option Z :=
  if encoding =? ZIP_INT_8B then Some 1
  else if encoding =? ZIP_INT_16B then Some 2
  else if encoding =? ZIP_INT_24B then Some 3
  else if encoding =? ZIP_INT_32B then Some 4
  else if encoding =? ZIP_INT_64B then Some 8
  else if (ZIP_INT_IMM_MIN <=? encoding) && (encoding <=? ZIP_INT_IMM_MAX) then Some 0
  else None.

(** The number of bytes of the encoding; they are written when p is not NULL. *)
Definition zipStoreEntryEncoding (zl : list Z) (p : option Z) (encoding rawlen : Z) : option (list Z * Z) :=
  let buf :=
    if ZIP_IS_STR encoding then
      if rawlen <=? 0x3f then [u8 (Z.lor ZIP_STR_06B rawlen)]
      else if rawlen <=? 0x3fff then [Z.lor ZIP_STR_14B (Z.land (Z.shiftr rawlen 8) 0x3f); Z.land rawlen 0xff]
      else [ZIP_STR_32B; Z.land (Z.shiftr rawlen 24) 0xff; Z.land (Z.shiftr rawlen 16) 0xff; Z.land (Z.shiftr rawlen 8) 0xff; Z.land rawlen 0xff]
    else [encoding] in
  match p with
  | None => Some (zl, zlen buf)
  | Some p => zl ← mwrite zl p buf; Some (zl, zlen buf)
  end.

Definition ZIP_ENTRY_ENCODING (zl : list Z) (p : Z) : option Z :=
  encoding ← byte_at zl p;
  Some (if encoding <? ZIP_STR_MASK then Z.land encoding ZIP_STR_MASK else encoding).

(** encoding, lensize and len *)
Definition ZIP_DECODE_LENGTH (zl : list Z) (ptr : Z) : option (Z * Z * Z) :=
  encoding ← ZIP_ENTRY_ENCODING zl ptr;
  if encoding <? ZIP_STR_MASK then
    if encoding =? ZIP_STR_06B then
      b0 ← byte_at zl ptr; Some (encoding, 1, Z.land b0 0x3f)
    else if encoding =? ZIP_STR_14B then
      b0 ← byte_at zl ptr; b1 ← byte_at zl (ptr + 1);
      Some (encoding, 2, Z.lor (Z.shiftl (Z.land b0 0x3f) 8) b1)
    else if encoding =? ZIP_STR_32B then
      b1 ← byte_at zl (ptr + 1); b2 ← byte_at zl (ptr + 2); b3 ← byte_at zl (ptr + 3); b4 ← byte_at zl (ptr + 4);
      Some (encoding, 5, u32 (Z.lor (Z.lor (Z.lor (Z.shiftl b1 24) (Z.shiftl b2 16)) (Z.shiftl b3 8)) b4))
    else None
  else len ← zipIntSize encoding; Some (encoding, 1, len).

Section Ops.
Context `{Host}.
(** The contents of freshly allocated bytes, by position: unspecified. *)
Variable uninit : nat -> Z.

Definition zrealloc (zl : list Z) (n : Z) : list Z :=
  take (Z.to_nat n) zl ++ map uninit (seq (length zl) (Z.to_nat n - length zl)).

(** intrev32ifbe(ZIPLIST_BYTES(zl)), and the assignment of a converted value. *)
Definition ZIPLIST_BYTES (zl : list Z) : option Z := m ← mread zl 0 4; intrev32ifbe (host_load m).
Definition ZIPLIST_TAIL_OFFSET (zl : list Z) : option Z := m ← mread zl 4 4; intrev32ifbe (host_load m).
Definition ZIPLIST_LENGTH (zl : list Z) : option Z := m ← mread zl 8 2; intrev16ifbe (host_load m).
Definition set_ZIPLIST_BYTES (zl : list Z) (v : Z) : option (list Z) := w ← intrev32ifbe (u32 v); mwrite zl 0 (host_store 4 w).
Definition set_ZIPLIST_TAIL_OFFSET (zl : list Z) (v : Z) : option (list Z) := w ← intrev32ifbe (u32 v); mwrite zl 4 (host_store 4 w).
Definition set_ZIPLIST_LENGTH (zl : list Z) (v : Z) : option (list Z) := w ← intrev16ifbe (u16 v); mwrite zl 8 (host_store 2 w).

Definition ZIPLIST_ENTRY_HEAD : Z := ZIPLIST_HEADER_SIZE.
Definition ZIPLIST_ENTRY_TAIL (zl : list Z) : option Z := ZIPLIST_TAIL_OFFSET zl.
Definition ZIPLIST_ENTRY_END (zl : list Z) : option Z := b ← ZIPLIST_BYTES zl; Some (b - 1).

(** The field is compared as it is in memory. *)
Definition ZIPLIST_INCR_LENGTH (zl : list Z) (incr : Z) : option (list Z) :=
  m ← mread zl 8 2;
  if host_load m <? UINT16_MAX then l ← ZIPLIST_LENGTH zl; set_ZIPLIST_LENGTH zl (l + incr) else Some zl.

Definition zipStorePrevEntryLengthLarge (zl : list Z) (p : option Z) (len : Z) : option (list Z * Z) :=
  match p with
  | None => Some (zl, 1 + 4)
  | Some p =>
    zl ← mwrite zl p [ZIP_BIG_PREVLEN];
    m ← memrev32ifbe (host_store 4 len);
    zl ← mwrite zl (p + 1) m;
    Some (zl, 1 + 4)
  end.

Definition zipStorePrevEntryLength (zl : list Z) (p : option Z) (len : Z) : option (list Z * Z) :=
  match p with
  | None => Some (zl, if len <? ZIP_BIG_PREVLEN then 1 else 4 + 1)
  | Some q =>
    if len <? ZIP_BIG_PREVLEN then zl ← mwrite zl q [u8 len]; Some (zl, 1)
    else zipStorePrevEntryLengthLarge zl p len
  end.

Definition ZIP_DECODE_PREVLENSIZE (zl : list Z) (ptr : Z) : option Z :=
  b ← byte_at zl ptr; Some (if b <? ZIP_BIG_PREVLEN then 1 else 5).

(** prevlensize and prevlen *)
Definition ZIP_DECODE_PREVLEN (zl : list Z) (ptr : Z) : option (Z * Z) :=
  prevlensize ← ZIP_DECODE_PREVLENSIZE zl ptr;
  if prevlensize =? 1 then b ← byte_at zl ptr; Some (prevlensize, b)
  else m ← mread zl (ptr + 1) 4; v ← host_load <$> memrev32ifbe m; Some (prevlensize, v).

(** int: the difference of two unsigned integers, converted. *)
Definition zipPrevLenByteDiff (zl : list Z) (p len : Z) : option Z :=
  prevlensize ← ZIP_DECODE_PREVLENSIZE zl p;
  '(_, n) ← zipStorePrevEntryLength zl None len;
  Some (s32 (u32 (n - prevlensize))).

Definition zipRawEntryLength (zl : list Z) (p : Z) : option Z :=
  prevlensize ← ZIP_DECODE_PREVLENSIZE zl p;
  '(encoding, lensize, len) ← ZIP_DECODE_LENGTH zl (p + prevlensize);
  Some (u32 (prevlensize + lensize + len)).

(** The integer and its encoding, for a string that can be encoded. *)
Definition zipTryEncoding (entry : list Z) : option (Z * Z) :=
  if (32 <=? zlen entry) || (zlen entry =? 0) then None else
  value ← string2ll entry;
  Some (value,
    if (0 <=? value) && (value <=? 12) then ZIP_INT_IMM_MIN + value
    else if (- 2 ^ 7 <=? value) && (value <=? 2 ^ 7 - 1) then ZIP_INT_8B
    else if (INT16_MIN <=? value) && (value <=? INT16_MAX) then ZIP_INT_16B
    else if (INT24_MIN <=? value) && (value <=? INT24_MAX) then ZIP_INT_24B
    else if (INT32_MIN <=? value) && (value <=? INT32_MAX) then ZIP_INT_32B
    else ZIP_INT_64B).

Definition zipSaveInteger (zl : list Z) (p value encoding : Z) : option (list Z) :=
  if encoding =? ZIP_INT_8B then mwrite zl p [u8 value]
  else if encoding =? ZIP_INT_16B then m ← memrev16ifbe (host_store 2 value); mwrite zl p m
  else if encoding =? ZIP_INT_24B then m ← memrev32ifbe (host_store 4 (Z.shiftl value 8)); mwrite zl p (drop 1 m)
  else if encoding =? ZIP_INT_32B then m ← memrev32ifbe (host_store 4 value); mwrite zl p m
  else if encoding =? ZIP_INT_64B then m ← memrev64ifbe (host_store 8 value); mwrite zl p m
  else if (ZIP_INT_IMM_MIN <=? encoding) && (encoding <=? ZIP_INT_IMM_MAX) then Some zl
  else None.

Definition zipLoadInteger (zl : list Z) (p encoding : Z) : option Z :=
  if encoding =? ZIP_INT_8B then b ← byte_at zl p; Some (sN 1 b)
  else if encoding =? ZIP_INT_16B then m ← mread zl p 2; v ← host_load <$> memrev16ifbe m; Some (sN 2 v)
  else if encoding =? ZIP_INT_32B then m ← mread zl p 4; v ← host_load <$> memrev32ifbe m; Some (s32 v)
  else if encoding =? ZIP_INT_24B then
    m ← mread zl p 3; v ← host_load <$> memrev32ifbe (0 :: m); Some (Z.shiftr (s32 v) 8)
  else if encoding =? ZIP_INT_64B then m ← mread zl p 8; v ← host_load <$> memrev64ifbe m; Some (s64 v)
  else if (ZIP_INT_IMM_MIN <=? encoding) && (encoding <=? ZIP_INT_IMM_MAX) then
    Some (Z.land encoding ZIP_INT_IMM_MASK - 1)
  else None.

Definition zipEntry (zl : list Z) (p : Z) : option zlentry :=
  '(prevsize, prevlen) ← ZIP_DECODE_PREVLEN zl p;
  '(enc, ls, l) ← ZIP_DECODE_LENGTH zl (p + prevsize);
  Some (mk_zlentry prevsize prevlen ls l (u32 (prevsize + ls)) enc p).

Definition ziplistNew : option (list Z) :=
  let bytes := ZIPLIST_HEADER_SIZE + ZIPLIST_END_SIZE in
  let zl := zrealloc [] bytes in
  zl ← set_ZIPLIST_BYTES zl bytes;
  zl ← set_ZIPLIST_TAIL_OFFSET zl ZIPLIST_HEADER_SIZE;
  zl ← mwrite zl 8 (host_store 2 0);
  mwrite zl (bytes - 1) [ZIP_END].

Definition ziplistResize (zl : list Z) (len : Z) : option (list Z) :=
  zl ← set_ZIPLIST_BYTES (zrealloc zl len) len;
  mwrite zl (len - 1) [ZIP_END].

(** The loop; the size of the list is kept in curlen. *)
Fixpoint cascade_loop (fuel : nat) (zl : list Z) (p curlen : Z) : option (list Z) :=
  match fuel with
  | O => None
  | S fuel =>
    b ← byte_at zl p;
    if b =? ZIP_END then Some zl else
    cur ← zipEntry zl p;
    let rawlen := u32 (headersize cur + len cur) in
    '(_, rawlensize) ← zipStorePrevEntryLength zl None rawlen;
    b ← byte_at zl (p + rawlen);
    if b =? ZIP_END then Some zl else
    next ← zipEntry zl (p + rawlen);
    if prevrawlen next =? rawlen then Some zl else
    if prevrawlensize next <? rawlensize then
      let extra := rawlensize - prevrawlensize next in
      zl ← ziplistResize zl (u32 (curlen + extra));
      let np := p + rawlen in
      tail ← ZIPLIST_TAIL_OFFSET zl;
      zl ← (if negb (tail =? np) then set_ZIPLIST_TAIL_OFFSET zl (tail + extra) else Some zl);
      zl ← memmove zl (np + rawlensize) (np + prevrawlensize next) (u64 (curlen - np - prevrawlensize next - 1));
      '(zl, _) ← zipStorePrevEntryLength zl (Some np) rawlen;
      cascade_loop fuel zl (p + rawlen) (curlen + extra)
    else
      '(zl, _) ← (if rawlensize <? prevrawlensize next then zipStorePrevEntryLengthLarge zl (Some (p + rawlen)) rawlen
                  else zipStorePrevEntryLength zl (Some (p + rawlen)) rawlen);
      Some zl
  end.
Definition __ziplistCascadeUpdate (zl : list Z) (p : Z) : option (list Z) :=
  curlen ← ZIPLIST_BYTES zl;
  cascade_loop (length zl) zl p curlen.

(** The loop that skips the deleted entries. *)
Fixpoint skip_entries (fuel : nat) (zl : list Z) (p i num deleted : Z) : option (Z * Z) :=
  match fuel with
  | O => None
  | S fuel =>
    b ← byte_at zl p;
    if negb (b =? ZIP_END) && (i <? num) then
      n ← zipRawEntryLength zl p;
      skip_entries fuel zl (p + n) (i + 1) num (deleted + 1)
    else Some (p, deleted)
  end.

Definition __ziplistDelete (zl : list Z) (p num : Z) : option (list Z) :=
  first ← zipEntry zl p;
  '(p, deleted) ← skip_entries (length zl) zl p 0 num 0;
  let totlen := u32 (p - zl_p first) in
  if 0 <? totlen then
    b ← byte_at zl p;
    '(zl, nextdiff) ←
      (if negb (b =? ZIP_END) then
         nextdiff ← zipPrevLenByteDiff zl p (prevrawlen first);
         let p := p - nextdiff in
         '(zl, _) ← zipStorePrevEntryLength zl (Some p) (prevrawlen first);
         t ← ZIPLIST_TAIL_OFFSET zl;
         zl ← set_ZIPLIST_TAIL_OFFSET zl (t - totlen);
         tail ← zipEntry zl p;
         b ← byte_at zl (p + u32 (headersize tail + len tail));
         zl ← (if negb (b =? ZIP_END) then t ← ZIPLIST_TAIL_OFFSET zl; set_ZIPLIST_TAIL_OFFSET zl (t + nextdiff) else Some zl);
         n ← ZIPLIST_BYTES zl;
         zl ← memmove zl (zl_p first) p (u64 (n - p - 1));
         Some (zl, nextdiff)
       else
         zl ← set_ZIPLIST_TAIL_OFFSET zl (zl_p first - prevrawlen first);
         Some (zl, 0));
    let offset := zl_p first in
    n ← ZIPLIST_BYTES zl;
    zl ← ziplistResize zl (u32 (n - totlen + nextdiff));
    zl ← ZIPLIST_INCR_LENGTH zl (u32 (- deleted));
    if negb (nextdiff =? 0) then __ziplistCascadeUpdate zl offset else Some zl
  else Some zl.

Definition __ziplistInsert (zl : list Z) (p : Z) (s : list Z) : option (list Z) :=
  let slen := zlen s in
  curlen ← ZIPLIST_BYTES zl;
  b ← byte_at zl p;
  prevlen ← (if negb (b =? ZIP_END) then snd <$> ZIP_DECODE_PREVLEN zl p
             else ptail ← ZIPLIST_ENTRY_TAIL zl; bt ← byte_at zl ptail;
                  if negb (bt =? ZIP_END) then zipRawEntryLength zl ptail else Some 0);
  let '(value, encoding) := default (123456789, 0) (zipTryEncoding s) in
  reqlen ← match zipTryEncoding s with Some _ => zipIntSize encoding | None => Some slen end;
  '(_, n1) ← zipStorePrevEntryLength zl None prevlen;
  '(_, n2) ← zipStoreEntryEncoding zl None encoding slen;
  let reqlen := reqlen + n1 + n2 in
  nextdiff ← (if negb (b =? ZIP_END) then zipPrevLenByteDiff zl p reqlen else Some 0);
  let forcelarge := (nextdiff =? -4) && (reqlen <? 4) in
  let nextdiff := if forcelarge then 0 else nextdiff in
  zl ← ziplistResize zl (u32 (curlen + reqlen + nextdiff));
  b ← byte_at zl p;
  zl ← (if negb (b =? ZIP_END) then
          zl ← memmove zl (p + reqlen) (p - nextdiff) (u64 (curlen - p - 1 + nextdiff));
          '(zl, _) ← (if forcelarge then zipStorePrevEntryLengthLarge zl (Some (p + reqlen)) reqlen
                      else zipStorePrevEntryLength zl (Some (p + reqlen)) reqlen);
          t ← ZIPLIST_TAIL_OFFSET zl;
          zl ← set_ZIPLIST_TAIL_OFFSET zl (t + reqlen);
          tail ← zipEntry zl (p + reqlen);
          b ← byte_at zl (p + (reqlen + headersize tail + len tail));
          if negb (b =? ZIP_END) then t ← ZIPLIST_TAIL_OFFSET zl; set_ZIPLIST_TAIL_OFFSET zl (t + nextdiff) else Some zl
        else set_ZIPLIST_TAIL_OFFSET zl p);
  zl ← (if negb (nextdiff =? 0) then __ziplistCascadeUpdate zl (p + reqlen) else Some zl);
  '(zl, n) ← zipStorePrevEntryLength zl (Some p) prevlen;
  '(zl, m) ← zipStoreEntryEncoding zl (Some (p + n)) encoding slen;
  zl ← (if ZIP_IS_STR encoding then mwrite zl (p + n + m) s else zipSaveInteger zl (p + n + m) value encoding);
  ZIPLIST_INCR_LENGTH zl 1.

(** The two lists, None for NULL; [same] when the pointers are equal.  The result is
    the merged list and whether it is the first one that was extended. *)
Definition ziplistMerge (same : bool) (first second : option (list Z)) : option (option (list Z * bool)) :=
  match first, second with
  | Some first, Some second =>
    if same then Some None else
    first_bytes ← ZIPLIST_BYTES first;
    first_len ← ZIPLIST_LENGTH first;
    second_bytes ← ZIPLIST_BYTES second;
    second_len ← ZIPLIST_LENGTH second;
    let append := second_len <=? first_len in
    let '(target, target_bytes, source, source_bytes) :=
      if append then (first, first_bytes, second, second_bytes) else (second, second_bytes, first, first_bytes) in
    let zlbytes := u64 (first_bytes + second_bytes - ZIPLIST_HEADER_SIZE - ZIPLIST_END_SIZE) in
    let zllength := first_len + second_len in
    let zllength := if zllength <? UINT16_MAX then zllength else UINT16_MAX in
    first_offset ← ZIPLIST_TAIL_OFFSET first;
    second_offset ← ZIPLIST_TAIL_OFFSET second;
    let target := zrealloc target zlbytes in
    target ← (if append then
                m ← mread source ZIPLIST_HEADER_SIZE (u64 (source_bytes - ZIPLIST_HEADER_SIZE));
                mwrite target (target_bytes - ZIPLIST_END_SIZE) m
              else
                target ← memmove target (source_bytes - ZIPLIST_END_SIZE) ZIPLIST_HEADER_SIZE (u64 (target_bytes - ZIPLIST_HEADER_SIZE));
                m ← mread source 0 (u64 (source_bytes - ZIPLIST_END_SIZE));
                mwrite target 0 m);
    target ← set_ZIPLIST_BYTES target zlbytes;
    target ← set_ZIPLIST_LENGTH target zllength;
    target ← set_ZIPLIST_TAIL_OFFSET target (u64 ((first_bytes - ZIPLIST_END_SIZE) + (second_offset - ZIPLIST_HEADER_SIZE)));
    target ← __ziplistCascadeUpdate target first_offset;
    Some (Some (target, append))
  | _, _ => Some None
  end.

(** ZIPLIST_HEAD is 0. *)
Definition ziplistPush (zl s : list Z) (where_ : Z) : option (list Z) :=
  p ← (if where_ =? 0 then Some ZIPLIST_ENTRY_HEAD else ZIPLIST_ENTRY_END zl);
  __ziplistInsert zl p s.

(** while (prevlen > 0 && index--) *)
Fixpoint index_back (fuel : nat) (zl : list Z) (p prevlen index : Z) : option (Z * Z) :=
  match fuel with
  | O => None
  | S fuel =>
    if 0 <? prevlen then
      if negb (index =? 0) then
        let p := p - prevlen in
        '(_, prevlen) ← ZIP_DECODE_PREVLEN zl p;
        index_back fuel zl p prevlen (index - 1)
      else Some (p, index - 1)
    else Some (p, index)
  end.
(** while (p[0] != ZIP_END && index--) *)
Fixpoint index_forward (fuel : nat) (zl : list Z) (p index : Z) : option (Z * Z) :=
  match fuel with
  | O => None
  | S fuel =>
    b ← byte_at zl p;
    if negb (b =? ZIP_END) then
      if negb (index =? 0) then n ← zipRawEntryLength zl p; index_forward fuel zl (p + n) (index - 1)
      else Some (p, index - 1)
    else Some (p, index)
  end.
(** The inner option is NULL. *)
Definition ziplistIndex (zl : list Z) (index : Z) : option (option Z) :=
  '(p, index) ←
    (if index <? 0 then
       assert! (INT32_MIN <? index) ;;
       let index := - index - 1 in
       p ← ZIPLIST_ENTRY_TAIL zl;
       b ← byte_at zl p;
       if negb (b =? ZIP_END) then
         '(_, prevlen) ← ZIP_DECODE_PREVLEN zl p; index_back (length zl) zl p prevlen index
       else Some (p, index)
     else index_forward (length zl) zl ZIPLIST_ENTRY_HEAD index);
  b ← byte_at zl p;
  Some (if (b =? ZIP_END) || (0 <? index) then None else Some p).

Definition ziplistNext (zl : list Z) (p : Z) : option (option Z) :=
  b ← byte_at zl p;
  if b =? ZIP_END then Some None else
  n ← zipRawEntryLength zl p;
  let p := p + n in
  b ← byte_at zl p;
  Some (if b =? ZIP_END then None else Some p).

Definition ziplistPrev (zl : list Z) (p : Z) : option (option Z) :=
  b ← byte_at zl p;
  if b =? ZIP_END then
    p ← ZIPLIST_ENTRY_TAIL zl; b ← byte_at zl p; Some (if b =? ZIP_END then None else Some p)
  else if p =? ZIPLIST_ENTRY_HEAD then Some None
  else '(_, prevlen) ← ZIP_DECODE_PREVLEN zl p; assert! (0 <? prevlen) ;; Some (Some (p - prevlen)).

(** None inside for 0; otherwise the string or the integer. *)
Definition ziplistGet (zl : list Z) (p : option Z) : option (option (list Z + Z)) :=
  match p with
  | None => Some None
  | Some p =>
    b ← byte_at zl p;
    if b =? ZIP_END then Some None else
    entry ← zipEntry zl p;
    if ZIP_IS_STR (encoding entry) then s ← mread zl (p + headersize entry) (len entry); Some (Some (inl s))
    else v ← zipLoadInteger zl (p + headersize entry) (encoding entry); Some (Some (inr v))
  end.

Definition ziplistInsert (zl : list Z) (p : Z) (s : list Z) : option (list Z) := __ziplistInsert zl p s.

(** The offset of the pointer does not change. *)
Definition ziplistDelete (zl : list Z) (p : Z) : option (list Z * Z) :=
  let offset := p in
  zl ← __ziplistDelete zl p 1; Some (zl, offset).

Definition ziplistDeleteRange (zl : list Z) (index num : Z) : option (list Z) :=
  p ← ziplistIndex zl index;
  match p with None => Some zl | Some p => __ziplistDelete zl p num end.

Definition ziplistCompare (zl : list Z) (p : Z) (sstr : list Z) : option bool :=
  b ← byte_at zl p;
  if b =? ZIP_END then Some false else
  entry ← zipEntry zl p;
  if ZIP_IS_STR (encoding entry) then
    if len entry =? zlen sstr then
      m ← mread zl (p + headersize entry) (zlen sstr); Some (bool_decide (m = sstr))
    else Some false
  else
    match zipTryEncoding sstr with
    | Some (sval, _) => zval ← zipLoadInteger zl (p + headersize entry) (encoding entry); Some (zval =? sval)
    | None => Some false
    end.

(** The loop, with vencoding and vll. *)
Fixpoint find_loop (fuel : nat) (zl : list Z) (p : Z) (vstr : list Z) (skip skipcnt vencoding vll : Z) : option (option Z) :=
  match fuel with
  | O => None
  | S fuel =>
    b ← byte_at zl p;
    if b =? ZIP_END then Some None else
    prevlensize ← ZIP_DECODE_PREVLENSIZE zl p;
    '(encoding, lensize, len) ← ZIP_DECODE_LENGTH zl (p + prevlensize);
    let q := p + prevlensize + lensize in
    if skipcnt =? 0 then
      if ZIP_IS_STR encoding then
        eq ← (if len =? zlen vstr then m ← mread zl q (zlen vstr); Some (bool_decide (m = vstr)) else Some false);
        if eq : bool then Some (Some p) else find_loop fuel zl (q + len) vstr skip skip vencoding vll
      else
        let '(vll, vencoding) :=
          if vencoding =? 0 then match zipTryEncoding vstr with Some r => r | None => (vll, UCHAR_MAX) end else (vll, vencoding) in
        assert! (negb (vencoding =? 0)) ;;
        eq ← (if negb (vencoding =? UCHAR_MAX) then ll ← zipLoadInteger zl q encoding; Some (ll =? vll) else Some false);
        if eq : bool then Some (Some p) else find_loop fuel zl (q + len) vstr skip skip vencoding vll
    else find_loop fuel zl (q + len) vstr skip (skipcnt - 1) vencoding vll
  end.
Definition ziplistFind (zl : list Z) (p : Z) (vstr : list Z) (skip : Z) : option (option Z) :=
  find_loop (S (length zl)) zl p vstr skip 0 0 0.

Fixpoint count_entries (fuel : nat) (zl : list Z) (p len : Z) : option Z :=
  match fuel with
  | O => None
  | S fuel =>
    b ← byte_at zl p;
    if negb (b =? ZIP_END) then n ← zipRawEntryLength zl p; count_entries fuel zl (p + n) (u32 (len + 1))
    else Some len
  end.
(** The length, and the list, where it may be stored. *)
Definition ziplistLen (zl : list Z) : option (Z * list Z) :=
  l ← ZIPLIST_LENGTH zl;
  if l <? UINT16_MAX then Some (l, zl) else
  len ← count_entries (length zl) zl ZIPLIST_HEADER_SIZE 0;
  zl ← (if len <? UINT16_MAX then set_ZIPLIST_LENGTH zl len else Some zl);
  Some (len, zl).

Definition ziplistBlobLen (zl : list Z) : option Z := ZIPLIST_BYTES zl.
End Ops.

(** ** The bytes of an entry *)

(** The size of the entry before, in the long form or the short one. *)
Definition plen (large : bool) (n : Z) : list Z := if large then ZIP_BIG_PREVLEN :: le_bytes 4 n else [n].
Definition plen_ok (large : bool) (n : Z) : Prop := 0 <= n < 2 ^ 32 /\ (large = true \/ n < ZIP_BIG_PREVLEN).

(** The header and the data of a string. *)
Definition str_hdr (n : Z) : list Z :=
  if n <=? 63 then [n]
  else if n <=? 16383 then [64 + n / 256; n mod 256]
  else [128; n / 2 ^ 24; n / 2 ^ 16 mod 256; n / 2 ^ 8 mod 256; n mod 256].
Definition str_enc (n : Z) : Z := if n <=? 63 then 0 else if n <=? 16383 then 64 else 128.
Definition int_width (e : Z) : nat := Z.to_nat (default 0 (zipIntSize e)).
Definition hdr_of (s : list Z) : list Z := match zipTryEncoding s with Some (_, e) => [e] | None => str_hdr (zlen s) end.
Definition data_of (s : list Z) : list Z := match zipTryEncoding s with Some (v, e) => le_bytes (int_width e) v | None => s end.
Definition enc_of (s : list Z) : Z := match zipTryEncoding s with Some (_, e) => e | None => str_enc (zlen s) end.
Definition body (s : list Z) : list Z := hdr_of s ++ data_of s.

Definition str_fits (s : list Z) : Prop := zlen s < 2 ^ 32 - 16.

Lemma byte_at_app zl A x B p : zl = A ++ x :: B -> p = zlen A -> byte_at zl p = Some x.
Proof. intros -> ->. unfold byte_at. change (x :: B) with ([x] ++ B). by rewrite mread_app. Qed.
Lemma mread_at zl A m B p n : zl = A ++ m ++ B -> p = zlen A -> n = zlen m -> mread zl p n = Some m.
Proof. intros -> -> ->. by apply mread_app. Qed.
Lemma mwrite_at zl A old m B p : zl = A ++ old ++ B -> p = zlen A -> length old = length m -> mwrite zl p m = Some (A ++ m ++ B).
Proof. intros -> -> Hl. by apply mwrite_app. Qed.

(** The integer encodings. *)
Definition int_enc (v e : Z) : Prop :=
  (0 <= v <= 12 /\ e = 241 + v) \/ (- 2 ^ 7 <= v < 2 ^ 7 /\ e = 254) \/ (- 2 ^ 15 <= v < 2 ^ 15 /\ e = 192) \/
  (- 2 ^ 23 <= v < 2 ^ 23 /\ e = 240) \/ (- 2 ^ 31 <= v < 2 ^ 31 /\ e = 208) \/ (- 2 ^ 63 <= v < 2 ^ 63 /\ e = 224).

Lemma try_ok s v e : zipTryEncoding s = Some (v, e) -> int_enc v e /\ s = decimal v.
Proof.
  unfold zipTryEncoding. destruct (_ || _); [done|]. destruct (string2ll s) as [w|] eqn:Hs; [|done].
  apply string2ll_iff in Hs as [Hw ->]. cbn [mbind option_bind]. intros [= <- <-]. split; [|done].
  unfold int_enc, LLONG_MIN, LLONG_MAX, ZIP_INT_IMM_MIN, ZIP_INT_8B, ZIP_INT_16B, ZIP_INT_24B, ZIP_INT_32B, ZIP_INT_64B, INT16_MIN, INT16_MAX,
    INT24_MIN, INT24_MAX, INT32_MIN, INT32_MAX in *. 
  do 5 (match goal with |- context [if ?b then _ else _] => destruct b eqn:?; [left; breflect; split; [lia|reflexivity]|right] end).
  split; [lia|reflexivity].
Qed.

Lemma decimal_nonempty v : decimal v <> [].
Proof. unfold decimal. destruct (Z.ltb_spec v 0); [done|by apply dec_nonempty]. Qed.
(** A string is encoded when it is the notation of an integer. *)
Lemma try_complete v : LLONG_MIN <= v <= LLONG_MAX -> exists e, zipTryEncoding (decimal v) = Some (v, e).
Proof.
  intros Hv. unfold zipTryEncoding. pose proof (decimal_length v Hv). rewrite (proj2 (Z.leb_gt _ _)) by lia.
  rewrite (proj2 (Z.eqb_neq _ _)) by (destruct (decimal v) eqn:E; [by apply decimal_nonempty in E|cbn; lia]). cbn [orb]. rewrite (proj2 (string2ll_iff (decimal v) v)) by done. by eexists.
Qed.

Lemma imm_size e : 241 <= e <= 253 -> zipIntSize e = Some 0.
Proof.
  intros He. unfold zipIntSize. change ZIP_INT_8B with 254. change ZIP_INT_16B with 192. change ZIP_INT_24B with 240.
  change ZIP_INT_32B with 208. change ZIP_INT_64B with 224. change ZIP_INT_IMM_MIN with 241. change ZIP_INT_IMM_MAX with 253.
  rewrite !(proj2 (Z.eqb_neq _ _)) by lia. by rewrite !(proj2 (Z.leb_le _ _)) by lia.
Qed.
Lemma int_enc_size v e : int_enc v e -> zipIntSize e = Some (Z.of_nat (int_width e)) /\ (int_width e <= 8)%nat.
Proof.
  unfold int_width. intros [[Hv ->]|[[_ ->]|[[_ ->]|[[_ ->]|[[_ ->]|[_ ->]]]]]]; [rewrite imm_size by lia|..]; (split; [done|vm_compute; lia]).
Qed.

Lemma int_enc_range v e : int_enc v e -> 192 <= e < 255.
Proof. unfold int_enc. lia. Qed.

(** A place in a block: the block is split there, or a length is computed. *)
Ltac place := first [done|rewrite <-?app_assoc; reflexivity|rewrite ?length_app; cbn [length]; lia].

(** Reading and writing the parts of an entry at its place. *)
Lemma decode_string zl A n B :
  zl = A ++ str_hdr n ++ B -> 0 <= n < 2 ^ 32 -> ZIP_DECODE_LENGTH zl (zlen A) = Some (str_enc n, zlen (str_hdr n), n).
Proof.
  intros -> Hn. unfold ZIP_DECODE_LENGTH, ZIP_ENTRY_ENCODING, str_hdr, str_enc. change ZIP_STR_MASK with 192.
  assert (forall b k, 0 <= b < 64 -> 0 <= k < 4 -> Z.land (64 * k + b) 192 = 64 * k) as Hmask.
  { intros b k Hb Hk. change 192 with (Z.shiftl 3 6). replace (64 * k + b) with (Z.lor (Z.shiftl k 6) b) by (rewrite lor_shift by lia; lia).
    rewrite Z.land_lor_distr_l, <-Z.shiftl_land. replace (Z.land b (Z.shiftl 3 6)) with 0.
    - rewrite Z.lor_0_r. assert (k = 0 \/ k = 1 \/ k = 2 \/ k = 3) as [->|[->|[->| ->]]] by lia; reflexivity.
    - symmetry. replace b with (Z.land b (Z.ones 6)) by (rewrite Z.land_ones, Z.mod_small by lia; done).
      rewrite <-Z.land_assoc. replace (Z.land (Z.ones 6) (Z.shiftl 3 6)) with 0 by reflexivity. apply Z.land_0_r. }
  destruct (Z.leb_spec n 63); [|destruct (Z.leb_spec n 16383)]; cbn [app].
  - rewrite (byte_at_app _ A n B) by done. cbn [mbind option_bind]. rewrite (proj2 (Z.ltb_lt n 192)) by lia.
    specialize (Hmask n 0). rewrite Z.add_0_l in Hmask. rewrite Hmask by lia. cbn. rewrite land_63, Z.mod_small by lia. done.
  - rewrite (byte_at_app _ A (64 + n / 256) (n mod 256 :: B)) by done. cbn [mbind option_bind]. rewrite (proj2 (Z.ltb_lt (64 + n / 256) 192)) by zdiv_lia.
    assert (Z.land (64 + n / 256) 192 = 64) as -> by (apply (Hmask (n / 256) 1); zdiv_lia).
    change (64 <? 192) with true. change (64 =? ZIP_STR_06B) with false. change (64 =? ZIP_STR_14B) with true. cbv iota.
    rewrite (byte_at_app _ (A ++ [64 + n / 256]) (n mod 256) B) by place. cbn [mbind option_bind].
    rewrite land_63, lor_shift by zdiv_lia. do 2 f_equal. replace ((64 + n / 256) mod 64) with (n / 256) by zdiv_lia. zdiv_lia.
  - set (b1 := n / 2 ^ 24). set (b2 := n / 2 ^ 16 mod 256). set (b3 := n / 2 ^ 8 mod 256). set (b4 := n mod 256).
    rewrite (byte_at_app _ A 128 (b1 :: b2 :: b3 :: b4 :: B)) by done. cbn [mbind option_bind].
    change (128 <? 192) with true. change (Z.land 128 192) with 128. cbv iota. change (128 <? 192) with true.
    change (128 =? ZIP_STR_06B) with false. change (128 =? ZIP_STR_14B) with false. change (128 =? ZIP_STR_32B) with true. cbv iota.
    rewrite (byte_at_app _ (A ++ [128]) b1 (b2 :: b3 :: b4 :: B) (zlen A + 1)) by place.
    rewrite (byte_at_app _ (A ++ [128; b1]) b2 (b3 :: b4 :: B) (zlen A + 2)) by place.
    rewrite (byte_at_app _ (A ++ [128; b1; b2]) b3 (b4 :: B) (zlen A + 3)) by place.
    rewrite (byte_at_app _ (A ++ [128; b1; b2; b3]) b4 B (zlen A + 4)) by place. cbn [mbind option_bind].
    do 2 f_equal. replace (Z.lor (Z.lor (Z.lor (Z.shiftl b1 24) (Z.shiftl b2 16)) (Z.shiftl b3 8)) b4) with n; [apply u32_small; lia|].
    replace (Z.shiftl b1 24) with (Z.shiftl (Z.shiftl (Z.shiftl b1 8) 8) 8) by (by rewrite !Z.shiftl_shiftl by lia).
    replace (Z.shiftl b2 16) with (Z.shiftl (Z.shiftl b2 8) 8) by (by rewrite !Z.shiftl_shiftl by lia).
    rewrite <-!Z.shiftl_lor. unfold b1, b2, b3, b4. rewrite !lor_shift by zdiv_lia. zdiv_lia.
Qed.

Lemma decode_ok zl A s B p :
  zl = A ++ hdr_of s ++ B -> p = zlen A -> str_fits s -> ZIP_DECODE_LENGTH zl p = Some (enc_of s, zlen (hdr_of s), zlen (data_of s)).
Proof.
  intros Hz -> Hs. unfold str_fits in Hs. unfold hdr_of, data_of, enc_of in *. destruct (zipTryEncoding s) as [[v e]|] eqn:Ht; [|apply (decode_string _ _ _ _ Hz); lia].
  apply try_ok in Ht as [Hi _]. pose proof (int_enc_range v e Hi). destruct (int_enc_size v e Hi) as [Hsz _].
  unfold ZIP_DECODE_LENGTH, ZIP_ENTRY_ENCODING. rewrite (byte_at_app _ A e B) by done. cbn [mbind option_bind]. change ZIP_STR_MASK with 192.
  rewrite !(proj2 (Z.ltb_ge e 192)) by lia. rewrite Hsz. cbn [mbind option_bind]. by rewrite length_le_bytes.
Qed.

Lemma is_str_small e : e = 0 \/ e = 64 \/ e = 128 -> ZIP_IS_STR e = true.
Proof. by intros [->|[->| ->]]. Qed.
Lemma is_str_int v e : int_enc v e -> ZIP_IS_STR e = false.
Proof.
  intros [[Hv ->]|[[_ ->]|[[_ ->]|[[_ ->]|[[_ ->]|[_ ->]]]]]]; try done.
  assert (forall k, 0 <= k <= 12 -> ZIP_IS_STR (241 + k) = false) as Hk; [|by apply Hk].
  intros k Hk. assert (k ∈ seqZ 0 13) as Hin by (apply elem_of_seqZ; lia). clear Hk. revert k Hin.
  apply Forall_forall. vm_compute. repeat constructor.
Qed.
Lemma is_str_enc s : ZIP_IS_STR (enc_of s) = match zipTryEncoding s with Some _ => false | None => true end.
Proof.
  unfold enc_of. destruct (zipTryEncoding s) as [[v e]|] eqn:Ht; [by apply try_ok in Ht as [Hi%is_str_int _]|].
  apply is_str_small. unfold str_enc. repeat case_match; auto.
Qed.

(** Stores replace bytes of the same number. *)
Lemma store_encoding_ok zl A old s B p :
  zl = A ++ old ++ B -> p = zlen A -> length old = length (hdr_of s) -> str_fits s ->
  zipStoreEntryEncoding zl (Some p) (snd (default (123456789, 0) (zipTryEncoding s))) (zlen s) = Some (A ++ hdr_of s ++ B, zlen (hdr_of s)).
Proof.
  intros Hz -> Hl Hs. unfold str_fits in Hs. unfold zipStoreEntryEncoding, hdr_of in *. destruct (zipTryEncoding s) as [[v e]|] eqn:Ht; cbn [from_option id snd].
  - apply try_ok in Ht as [Hi%is_str_int _]. rewrite Hi. rewrite (mwrite_at _ A old [e] B) by done. done.
  - change (ZIP_IS_STR 0) with true. cbv iota. change 0x3f with 63. change 0x3fff with 16383. set (n := zlen s) in *. assert (0 <= n) by lia.
    assert ((if n <=? 63 then [u8 (Z.lor ZIP_STR_06B n)]
      else if n <=? 16383 then [Z.lor ZIP_STR_14B (Z.land (n ≫ 8) 63); Z.land n 0xff]
      else [ZIP_STR_32B; Z.land (n ≫ 24) 0xff; Z.land (n ≫ 16) 0xff; Z.land (n ≫ 8) 0xff; Z.land n 0xff]) = str_hdr n) as ->.
    { unfold str_hdr. change 0xff with (Z.ones 8). change 63 with (Z.ones 6). rewrite !Z.land_ones, !Z.shiftr_div_pow2 by lia. change (Z.ones 6) with 63.
      destruct (Z.leb_spec n 63); [|destruct (Z.leb_spec n 16383)].
      - change (Z.lor ZIP_STR_06B n) with n. by rewrite u8_small by lia.
      - change ZIP_STR_14B with (Z.shiftl 1 6). rewrite lor_shift by zdiv_lia. change (2 ^ 6) with 64. change (2 ^ 8) with 256.
        rewrite Z.mod_small by zdiv_lia. done.
      - change ZIP_STR_32B with 128. rewrite (Z.mod_small (n / 2 ^ 24)) by zdiv_lia. done. }
    rewrite (mwrite_at _ A old _ B) by done. done.
Qed.
Lemma store_encoding_size zl s :
  str_fits s -> zipStoreEntryEncoding zl None (snd (default (123456789, 0) (zipTryEncoding s))) (zlen s) = Some (zl, zlen (hdr_of s)).
Proof.
  intros Hs. pose proof (store_encoding_ok (replicate (length (hdr_of s)) 0) [] (replicate (length (hdr_of s)) 0) s [] 0) as H.
  rewrite app_nil_r, length_replicate in H. specialize (H eq_refl eq_refl eq_refl Hs).
  unfold zipStoreEntryEncoding in *. destruct (mwrite _ _ _); [|done]. cbn [mbind option_bind] in H. injection H as _ H. by rewrite H.
Qed.

Section Entries.
Context `{Host}.

Lemma prevlen_ok zl A lg n B p :
  zl = A ++ plen lg n ++ B -> p = zlen A -> plen_ok lg n ->
  ZIP_DECODE_PREVLENSIZE zl p = Some (zlen (plen lg n)) /\ ZIP_DECODE_PREVLEN zl p = Some (zlen (plen lg n), n).
Proof.
  intros Hz -> [Hn Hlg]. unfold ZIP_DECODE_PREVLEN, ZIP_DECODE_PREVLENSIZE. change ZIP_BIG_PREVLEN with 254 in *. destruct lg; cbn [plen app] in Hz |- *.
  - change ZIP_BIG_PREVLEN with 254 in *. rewrite (byte_at_app _ A 254 (le_bytes 4 n ++ B)) by done. cbn [mbind option_bind].
    change (254 <? 254) with false. cbn [mbind option_bind]. split; [done|]. change (5 =? 1) with false. cbv iota.
    rewrite (mread_at _ (A ++ [254]) (le_bytes 4 n) B) by (subst zl; place). cbn [mbind option_bind].
    rewrite load32ifbe by apply length_le_bytes. cbn [mbind option_bind]. rewrite le_val_bytes. rewrite Z.mod_small by (cbn; lia). done.
  - destruct Hlg as [|Hlg]; [done|]. rewrite (byte_at_app _ A n B) by done. cbn [mbind option_bind]. rewrite (proj2 (Z.ltb_lt n 254)) by done.
    cbn [mbind option_bind]. change (1 =? 1) with true. cbv iota. done.
Qed.

Lemma store_large_ok zl A old n B p :
  zl = A ++ old ++ B -> p = zlen A -> length old = 5%nat -> zipStorePrevEntryLengthLarge zl (Some p) n = Some (A ++ plen true n ++ B, 5).
Proof.
  intros -> -> Hl. unfold zipStorePrevEntryLengthLarge. destruct old as [|x old]; [done|]. injection Hl as Hl.
  rewrite (mwrite_at _ A [x] [ZIP_BIG_PREVLEN] (old ++ B)) by done. cbn [mbind option_bind]. rewrite store32ifbe. cbn [mbind option_bind].
  rewrite (mwrite_at _ (A ++ [ZIP_BIG_PREVLEN]) old (le_bytes 4 n) B) by first [place|by rewrite length_le_bytes]. cbn [mbind option_bind]. by rewrite <-app_assoc.
Qed.

(** The form zipStorePrevEntryLength chooses. *)
Definition wide (n : Z) : bool := negb (n <? ZIP_BIG_PREVLEN).
Lemma wide_ok n : 0 <= n < 2 ^ 32 -> plen_ok (wide n) n.
Proof. intros Hn. split; [done|]. unfold wide. destruct (Z.ltb_spec n ZIP_BIG_PREVLEN); auto. Qed.
Lemma length_plen lg n : zlen (plen lg n) = if lg then 5 else 1.
Proof. by destruct lg. Qed.

Lemma store_prevlen_ok zl A old n B p :
  zl = A ++ old ++ B -> p = zlen A -> 0 <= n < 2 ^ 32 -> length old = length (plen (wide n) n) ->
  zipStorePrevEntryLength zl (Some p) n = Some (A ++ plen (wide n) n ++ B, zlen (plen (wide n) n)).
Proof.
  intros Hz -> Hn Hl. unfold zipStorePrevEntryLength, wide in *. destruct (Z.ltb_spec n ZIP_BIG_PREVLEN) as [Hlt|Hge]; cbn [negb] in *.
  - unfold ZIP_BIG_PREVLEN in Hlt. rewrite u8_small by lia. rewrite (mwrite_at _ A old [n] B) by done. done.
  - by rewrite (store_large_ok zl A old n B).
Qed.
Lemma store_prevlen_size zl n : zipStorePrevEntryLength zl None n = Some (zl, zlen (plen (wide n) n)).
Proof. unfold zipStorePrevEntryLength, wide. by destruct (n <? ZIP_BIG_PREVLEN). Qed.

(** The width of the integers. *)
Lemma width_of : int_width 254 = 1%nat /\ int_width 192 = 2%nat /\ int_width 240 = 3%nat /\ int_width 208 = 4%nat /\ int_width 224 = 8%nat.
Proof. by vm_compute. Qed.
Lemma width_imm k : 0 <= k <= 12 -> int_width (241 + k) = 0%nat.
Proof. intros Hk. unfold int_width. by rewrite imm_size by lia. Qed.
(** In the tests of the encoding. *)
Ltac int_cases Hi :=
  destruct Hi as [[Hv ->]|[[Hv ->]|[[Hv ->]|[[Hv ->]|[[Hv ->]|[Hv ->]]]]]];
  unfold ZIP_INT_8B, ZIP_INT_IMM_MIN, ZIP_INT_IMM_MAX, ZIP_INT_IMM_MASK; change ZIP_INT_16B with 192; change ZIP_INT_24B with 240;
  change ZIP_INT_32B with 208; change ZIP_INT_64B with 224;
  [rewrite !(proj2 (Z.eqb_neq _ _)) by lia; rewrite ?(proj2 (Z.leb_le _ _)) by lia|cbn [Z.eqb Pos.eqb]..].

Lemma le_bytes_shift n v : le_bytes (S n) (Z.shiftl v 8) = 0 :: le_bytes n v.
Proof.
  rewrite Z.shiftl_mul_pow2 by lia. change (2 ^ 8) with 256. cbn [le_bytes]. rewrite Z.mod_mul, Z.div_mul by lia. done.
Qed.

Lemma save_int_ok zl A old v e B p :
  zl = A ++ old ++ B -> p = zlen A -> int_enc v e -> length old = int_width e ->
  zipSaveInteger zl p v e = Some (A ++ le_bytes (int_width e) v ++ B).
Proof.
  intros Hz -> Hi Hl. destruct width_of as (W1 & W2 & W3 & W4 & W8). unfold zipSaveInteger. int_cases Hi.
  - rewrite width_imm in * by done. destruct old; [|done]. by rewrite Hz.
  - rewrite W1 in *. by rewrite (mwrite_at _ A old [u8 v] B).
  - rewrite W2 in *. rewrite store16ifbe. cbn [mbind option_bind]. by rewrite (mwrite_at _ A old _ B) by done.
  - rewrite W3 in *. rewrite store32ifbe. cbn [mbind option_bind]. rewrite le_bytes_shift. cbn [drop]. by rewrite (mwrite_at _ A old _ B) by done.
  - rewrite W4 in *. rewrite store32ifbe. cbn [mbind option_bind]. by rewrite (mwrite_at _ A old _ B) by done.
  - rewrite W8 in *. rewrite store64ifbe. cbn [mbind option_bind]. by rewrite (mwrite_at _ A old _ B) by done.
Qed.

Lemma shifted24 v : - 2 ^ 23 <= v < 2 ^ 23 -> Z.shiftr (s32 (256 * le_val (le_bytes 3 v))) 8 = v.
Proof.
  intros Hv. rewrite Z.shiftr_div_pow2, le_val_bytes by lia. change (2 ^ (8 * Z.of_nat 3)) with (2 ^ 24). change (2 ^ 8) with 256.
  rewrite <-Z.mul_mod_distr_l by lia. change (256 * 2 ^ 24) with (2 ^ 32).
  assert (s32 ((256 * v) mod 2 ^ 32) = 256 * v) as ->; [|rewrite Z.mul_comm; apply Z.div_mul; lia].
  rewrite <-(s32_small (256 * v)) at 2 by lia. unfold s32, sN. change (2 ^ (8 * Z.of_nat 4)) with (2 ^ 32). by rewrite Zmod_mod.
Qed.

Lemma load_int_ok zl A v e B p :
  zl = A ++ le_bytes (int_width e) v ++ B -> p = zlen A -> int_enc v e -> zipLoadInteger zl p e = Some v.
Proof.
  intros Hz -> Hi. destruct width_of as (W1 & W2 & W3 & W4 & W8). unfold zipLoadInteger. int_cases Hi.
  - f_equal. change 15 with (Z.ones 4). rewrite Z.land_ones by lia. change (2 ^ 4) with 16. zdiv_lia.
  - rewrite W1 in *. cbn [le_bytes app] in Hz. rewrite (byte_at_app _ A (v mod 256) B) by done. cbn [mbind option_bind].
    f_equal. replace (v mod 256) with (le_val (le_bytes 1 v)) by (rewrite le_val_bytes; done). apply sN_le_bytes; [lia|cbn; lia].
  - rewrite W2 in *. rewrite (mread_at _ A _ B) by done. cbn [mbind option_bind]. rewrite load16ifbe by done. cbn [mbind option_bind]. f_equal. apply sN_le_bytes; [lia|cbn; lia].
  - rewrite W3 in *. rewrite (mread_at _ A _ B) by done. cbn [mbind option_bind]. rewrite load32ifbe by done. cbn [mbind option_bind]. f_equal.
    change (le_val (0 :: le_bytes 3 v)) with (0 + 256 * le_val (le_bytes 3 v)). rewrite Z.add_0_l. by apply shifted24.
  - rewrite W4 in *. rewrite (mread_at _ A _ B) by done. cbn [mbind option_bind]. rewrite load32ifbe by done. cbn [mbind option_bind]. f_equal. apply sN_le_bytes; [lia|cbn; lia].
  - rewrite W8 in *. rewrite (mread_at _ A _ B) by done. cbn [mbind option_bind]. rewrite load64ifbe by done. cbn [mbind option_bind]. f_equal. apply sN_le_bytes; [lia|cbn; lia].
Qed.

Lemma hdr_length s : 1 <= zlen (hdr_of s) <= 5.
Proof. unfold hdr_of, str_hdr. repeat case_match; cbn [length]; lia. Qed.
Lemma data_length s : str_fits s -> zlen (data_of s) < 2 ^ 32 - 16.
Proof.
  intros Hs. unfold data_of. destruct (zipTryEncoding s) as [[v e]|] eqn:Ht; [|done].
  apply try_ok in Ht as [Hi _]. destruct (int_enc_size v e Hi) as [_ Hw]. rewrite length_le_bytes. lia.
Qed.
Lemma body_length s : zlen (body s) = zlen (hdr_of s) + zlen (data_of s).
Proof. unfold body. rewrite length_app. lia. Qed.

Lemma entry_ok zl A lg n s B p :
  zl = A ++ plen lg n ++ body s ++ B -> p = zlen A -> plen_ok lg n -> str_fits s ->
  zipEntry zl p = Some (mk_zlentry (zlen (plen lg n)) n (zlen (hdr_of s)) (zlen (data_of s)) (zlen (plen lg n) + zlen (hdr_of s)) (enc_of s) p) /\
  zipRawEntryLength zl p = Some (zlen (plen lg n) + zlen (body s)).
Proof.
  intros Hz -> Hn Hs. unfold zipEntry, zipRawEntryLength. pose proof (length_plen lg n). pose proof (hdr_length s). pose proof (data_length s Hs).
  destruct (prevlen_ok zl A lg n (body s ++ B) (zlen A)) as [-> ->]; [done..|]. cbn [mbind option_bind].
  rewrite (decode_ok _ (A ++ plen lg n) s (data_of s ++ B)); [|subst zl; unfold body; place|place|done]. cbn [mbind option_bind].
  rewrite !u32_small by (destruct lg; lia). rewrite body_length. split; [done|f_equal; lia].
Qed.
End Entries.
