(* ===== verification/ZiplistOps.v ===== *)
(** * Compact lists: changing a list

    [zl_rep] relates a block to the list of its strings.  The cascade of size updates, insertion,
    deletion and merging implement the operations on the list of strings. *)
From stdpp Require Import prelude list.
From Stdlib Require Import ZArith Lia.
From S2P Require Import Prelude Endianconv Util SdsText Ziplist.

Local Open Scope Z_scope.
Local Open Scope redis_scope.

(** ** Representation *)

(** Whether the size of the entry before is in the long form, and the string. *)
Abbreviation entry := (bool * list Z)%type.
Definition esize (e : entry) : Z := (if e.1 then 5 else 1) + zlen (body e.2).

(** Entries in a row, [prev] being the size of the one before them. *)
Fixpoint chain (prev : Z) (es : list entry) : list Z :=
  match es with [] => [] | e :: es => plen e.1 prev ++ body e.2 ++ chain (esize e) es end.
Fixpoint chain_ok (prev : Z) (es : list entry) : Prop :=
  match es with [] => True | e :: es => plen_ok e.1 prev /\ str_fits e.2 /\ chain_ok (esize e) es end.
(** The size of the last entry, and the offset of it. *)
Fixpoint last_size (prev : Z) (es : list entry) : Z := match es with [] => prev | e :: es => last_size (esize e) es end.
Fixpoint tail_off (es : list entry) : Z :=
  match es with [] => 0 | e :: es => match es with [] => 0 | _ => esize e + tail_off es end end.

Definition zheader (total tail count : Z) : list Z := le_bytes 4 total ++ le_bytes 4 tail ++ le_bytes 2 count.
(** The field holds the number of entries, or 2^16 - 1 when that is not known. *)
Definition count_ok (l n : Z) : Prop := l = UINT16_MAX \/ (l = n /\ 0 <= n < UINT16_MAX).

Record zl_rep (zl : list Z) (es : list entry) : Prop := mk_rep {
  rep_block : exists l, zl = zheader (zlen zl) (10 + tail_off es) l ++ chain 0 es ++ [ZIP_END] /\ count_ok l (zlen es);
  rep_chain : chain_ok 0 es;
  rep_size : zlen zl < 2 ^ 32;
}.
(** The list of strings a block holds. *)
Definition zl_holds (zl : list Z) (ss : list (list Z)) : Prop := exists es, zl_rep zl es /\ ss = snd <$> es.

Lemma esize_length lg s n : zlen (plen lg n ++ body s) = esize (lg, s).
Proof. unfold esize. rewrite length_app, Nat2Z.inj_add, length_plen. done. Qed.
Lemma esize_pos e : 2 <= esize e.
Proof. unfold esize. rewrite body_length. pose proof (hdr_length e.2). destruct e.1; lia. Qed.

Lemma chain_app prev a b : chain prev (a ++ b) = chain prev a ++ chain (last_size prev a) b.
Proof. revert prev. induction a as [|e a IH]; intros prev; [done|]. cbn [chain last_size app]. by rewrite IH, !app_assoc. Qed.
Lemma chain_ok_app prev a b : chain_ok prev (a ++ b) <-> chain_ok prev a /\ chain_ok (last_size prev a) b.
Proof. revert prev. induction a as [|e a IH]; intros prev; cbn [chain_ok last_size app]; [tauto|]. rewrite IH. tauto. Qed.
Lemma last_size_app prev a b : last_size prev (a ++ b) = last_size (last_size prev a) b.
Proof. revert prev. induction a as [|e a IH]; intros prev; [done|]. apply IH. Qed.
Lemma chain_length prev es : zlen (chain prev es) = foldr (fun e n => esize e + n) 0 es.
Proof.
  revert prev. induction es as [|[lg s] es IH]; intros prev; [done|]. cbn [chain foldr].
  rewrite app_assoc, length_app, Nat2Z.inj_add, esize_length, IH. done.
Qed.
Lemma chain_length_prev prev prev' es : zlen (chain prev es) = zlen (chain prev' es).
Proof. by rewrite !chain_length. Qed.
Lemma tail_off_spec prev es : es <> [] -> zlen (chain prev es) = tail_off es + last_size prev es.
Proof.
  rewrite chain_length. revert prev. induction es as [|e es IH]; intros prev Hne; [done|]. cbn [foldr tail_off last_size].
  destruct es as [|e' es]; [cbn; lia|]. rewrite (IH (esize e)) by done. lia.
Qed.
Lemma tail_off_app a b : b <> [] -> tail_off (a ++ b) = zlen (chain 0 a) + tail_off b.
Proof.
  intros Hb. rewrite chain_length. induction a as [|e a IH]; [done|]. cbn [app tail_off foldr].
  destruct (a ++ b) eqn:E; [by apply app_eq_nil in E as [_ ?]|]. rewrite <-E in *. rewrite IH. lia.
Qed.
Lemma tail_off_bounds es : 0 <= tail_off es <= zlen (chain 0 es).
Proof.
  destruct es as [|e es]; [done|]. rewrite (tail_off_spec 0) by done.
  assert (forall p l, 0 <= p -> 0 <= last_size p l) as Hl.
  { intros p l. revert p. induction l as [|x l IH]; intros p Hp; [done|]. cbn. apply IH. pose proof (esize_pos x). lia. }
  assert (0 <= tail_off (e :: es)) as Ht; [|cbn [last_size]; pose proof (Hl (esize e) es); pose proof (esize_pos e); lia].
  generalize (e :: es) as l. induction l as [|x l IH]; [done|]. cbn. destruct l; [done|]. pose proof (esize_pos x). lia.
Qed.
Lemma esize_large s : esize (true, s) = esize (false, s) + 4.
Proof. unfold esize. cbn. lia. Qed.
Lemma tail_off_cons e es : es <> [] -> tail_off (e :: es) = esize e + tail_off es.
Proof. by destruct es. Qed.
Lemma tail_off_large s es : tail_off ((true, s) :: es) = tail_off ((false, s) :: es) + match es with [] => 0 | _ => 4 end.
Proof. destruct es as [|e es]; [done|]. change (esize (true, s) + tail_off (e :: es) = esize (false, s) + tail_off (e :: es) + 4). rewrite esize_large. lia. Qed.
Lemma entries_fit es : zlen es <= zlen (chain 0 es).
Proof. rewrite chain_length. induction es as [|e es IH]; [done|]. cbn [foldr length]. pose proof (esize_pos e). lia. Qed.

Lemma zheader_length t o l : length (zheader t o l) = 10%nat.
Proof. reflexivity. Qed.

(** The first byte of an entry is not the end mark. *)
Lemma plen_head lg n : plen_ok lg n -> exists x t, plen lg n = x :: t /\ x <> ZIP_END.
Proof. intros [Hn Hlg]. destruct lg; [by eexists _, _|]. exists n, []. split; [done|]. unfold ZIP_END, ZIP_BIG_PREVLEN in *. destruct Hlg as [|]; [done|lia]. Qed.
Lemma plen_byte zl A lg n B p : zl = A ++ plen lg n ++ B -> p = zlen A -> plen_ok lg n -> exists x, byte_at zl p = Some x /\ (x =? ZIP_END) = false.
Proof.
  intros -> -> Hn. destruct (plen_head lg n Hn) as (x & t & -> & Hx). exists x. split; [by apply (byte_at_app _ A x (t ++ B))|]. by apply Z.eqb_neq.
Qed.

(** ** Header fields *)
Section Header.
Context `{Host} (uninit : nat -> Z).

Lemma le_val_small n v : 0 <= v < 2 ^ (8 * Z.of_nat n) -> le_val (le_bytes n v) = v.
Proof. intros Hv. rewrite le_val_bytes. by apply Z.mod_small. Qed.

Lemma get_bytes t o l B : 0 <= t < 2 ^ 32 -> ZIPLIST_BYTES (zheader t o l ++ B) = Some t.
Proof.
  intros Ht. unfold ZIPLIST_BYTES. rewrite (mread_at _ [] (le_bytes 4 t) (le_bytes 4 o ++ le_bytes 2 l ++ B)) by done. cbn [mbind option_bind].
  rewrite value32ifbe by first [apply length_le_bytes|apply le_bytes_bytes]. by rewrite le_val_small.
Qed.
Lemma get_tail t o l B : 0 <= o < 2 ^ 32 -> ZIPLIST_TAIL_OFFSET (zheader t o l ++ B) = Some o.
Proof.
  intros Ht. unfold ZIPLIST_TAIL_OFFSET. rewrite (mread_at _ (le_bytes 4 t) (le_bytes 4 o) (le_bytes 2 l ++ B)) by done. cbn [mbind option_bind].
  rewrite value32ifbe by first [apply length_le_bytes|apply le_bytes_bytes]. by rewrite le_val_small.
Qed.
Lemma get_length t o l B : 0 <= l < 2 ^ 16 -> ZIPLIST_LENGTH (zheader t o l ++ B) = Some l.
Proof.
  intros Ht. unfold ZIPLIST_LENGTH. rewrite (mread_at _ (le_bytes 4 t ++ le_bytes 4 o) (le_bytes 2 l) B) by done. cbn [mbind option_bind].
  rewrite value16ifbe by first [apply length_le_bytes|apply le_bytes_bytes]. by rewrite le_val_small.
Qed.
Lemma set_bytes t o l B v : 0 <= v < 2 ^ 32 -> set_ZIPLIST_BYTES (zheader t o l ++ B) v = Some (zheader v o l ++ B).
Proof.
  intros Hv. unfold set_ZIPLIST_BYTES. rewrite u32_small by done. destruct (stored32ifbe v) as (w & -> & Hw). cbn [mbind option_bind]. rewrite Hw.
  by rewrite (mwrite_at _ [] (le_bytes 4 t) (le_bytes 4 v) (le_bytes 4 o ++ le_bytes 2 l ++ B)) by done.
Qed.
Lemma set_tail t o l B v : 0 <= v < 2 ^ 32 -> set_ZIPLIST_TAIL_OFFSET (zheader t o l ++ B) v = Some (zheader t v l ++ B).
Proof.
  intros Hv. unfold set_ZIPLIST_TAIL_OFFSET. rewrite u32_small by done. destruct (stored32ifbe v) as (w & -> & Hw). cbn [mbind option_bind]. rewrite Hw.
  by rewrite (mwrite_at _ (le_bytes 4 t) (le_bytes 4 o) (le_bytes 4 v) (le_bytes 2 l ++ B)) by done.
Qed.
Lemma set_length t o l B v : set_ZIPLIST_LENGTH (zheader t o l ++ B) v = Some (zheader t o (u16 v) ++ B).
Proof.
  unfold set_ZIPLIST_LENGTH. destruct (stored16ifbe (u16 v)) as (w & -> & Hw). cbn [mbind option_bind]. rewrite Hw.
  by rewrite (mwrite_at _ (le_bytes 4 t ++ le_bytes 4 o) (le_bytes 2 l) (le_bytes 2 (u16 v)) B) by done.
Qed.

Lemma length_known l : 0 <= l < 2 ^ 16 -> (host_load (le_bytes 2 l) <? UINT16_MAX) = (l <? UINT16_MAX).
Proof.
  intros Hl. unfold host_load. destruct big_endian; [|by rewrite le_val_small].
  change (le_val (reverse (le_bytes 2 l))) with (l / 256 mod 256 + 256 * (l mod 256 + 256 * 0)). unfold UINT16_MAX.
  destruct (Z.ltb_spec l 65535), (Z.ltb_spec (l / 256 mod 256 + 256 * (l mod 256 + 256 * 0)) 65535); try done; zdiv_lia.
Qed.
Lemma incr_length_ok t o l B d : 0 <= l < 2 ^ 16 ->
  ZIPLIST_INCR_LENGTH (zheader t o l ++ B) d = Some (zheader t o (if l <? UINT16_MAX then u16 (l + d) else l) ++ B).
Proof.
  intros Hl. unfold ZIPLIST_INCR_LENGTH. rewrite (mread_at _ (le_bytes 4 t ++ le_bytes 4 o) (le_bytes 2 l) B) by done. cbn [mbind option_bind].
  rewrite length_known by done. destruct (l <? UINT16_MAX); [|done]. rewrite get_length by done. cbn [mbind option_bind]. apply set_length.
Qed.

(** Growing a list leaves free space before its new end mark; the old one stays. *)
Lemma resize_grow t o l B k zl n : zl = zheader t o l ++ B ++ [ZIP_END] -> n = zlen zl + k -> 0 <= k -> n < 2 ^ 32 ->
  exists J, ziplistResize uninit zl n = Some (zheader n o l ++ B ++ J ++ [ZIP_END]) /\ zlen J = k /\ (0 < k -> head J = Some ZIP_END).
Proof.
  intros -> -> Hk Hn. set (zl := zheader t o l ++ B ++ [ZIP_END]) in *. unfold ziplistResize, zrealloc.
  rewrite take_ge by lia. set (U := map uninit _). assert (zlen U = k) as HU by (unfold U; rewrite length_map, length_seq; lia).
  assert (zlen zl = 11 + zlen B) as Hl by (unfold zl; rewrite !length_app, zheader_length; cbn; lia).
  replace (zl ++ U) with (zheader t o l ++ B ++ [ZIP_END] ++ U) by (unfold zl; by rewrite <-!app_assoc). rewrite set_bytes by lia. cbn [mbind option_bind].
  destruct (exists_last (l := [ZIP_END] ++ U)) as (J & x & HJ); [done|].
  assert (zlen J = k) as HJl by (apply (f_equal length) in HJ; rewrite !length_app in HJ; cbn in HJ; lia).
  rewrite HJ. exists J. split_and!; [|done|].
  - rewrite (mwrite_at _ (zheader (zlen zl + k) o l ++ B ++ J) [x] [ZIP_END] []); [|by rewrite <-!app_assoc|rewrite !length_app, zheader_length; lia|done].
    by rewrite <-!app_assoc.
  - intros H0. destruct J as [|y J]; [cbn in HJl; lia|]. cbn [app] in HJ. by injection HJ as ->.
Qed.
Lemma resize_cut t o l B D x zl n : zl = zheader t o l ++ B ++ x :: D -> n = 11 + zlen B -> n < 2 ^ 32 ->
  ziplistResize uninit zl n = Some (zheader n o l ++ B ++ [ZIP_END]).
Proof.
  intros -> -> Hn. unfold ziplistResize, zrealloc.
  replace (Z.to_nat (11 + zlen B) - length (zheader t o l ++ B ++ x :: D))%nat with 0%nat by (rewrite !length_app, zheader_length; cbn; lia). cbn [seq map].
  replace (take _ _) with (zheader t o l ++ B ++ [x]).
  2:{ replace (zheader t o l ++ B ++ x :: D) with ((zheader t o l ++ B ++ [x]) ++ D) by (by rewrite <-!app_assoc).
      rewrite take_app_length'; [done|]. rewrite !length_app, zheader_length. cbn. lia. }
  rewrite app_nil_r, set_bytes by lia. cbn [mbind option_bind].
  rewrite (mwrite_at _ (zheader (11 + zlen B) o l ++ B) [x] [ZIP_END] []); [|by rewrite <-!app_assoc|rewrite !length_app, zheader_length; lia|done].
  by rewrite <-!app_assoc.
Qed.
End Header.

(** Moving a segment so that it ends before the last byte. *)
Lemma memmove_to_end buf X M Y Z0 x dst src n :
  buf = X ++ M ++ Y -> buf = Z0 ++ [x] -> src = zlen X -> n = zlen M -> 0 <= dst -> dst + n = zlen Z0 ->
  memmove buf dst src n = Some (take (Z.to_nat dst) buf ++ M ++ [x]).
Proof.
  intros HX HZ -> -> Hd Hn. unfold memmove. rewrite (mread_at _ X M Y) by done. cbn [mbind option_bind].
  rewrite (mwrite_at buf (take (Z.to_nat dst) buf) (drop (Z.to_nat dst) Z0) M [x]); [done|..].
  - assert (take (Z.to_nat dst) buf = take (Z.to_nat dst) Z0) as -> by (rewrite HZ; apply take_app_le; lia). by rewrite app_assoc, take_drop.
  - rewrite length_take, HZ, length_app. cbn. lia.
  - rewrite length_drop. lia.
Qed.
(** Moving a segment to the left. *)
Lemma memmove_to_front buf A X M Y dst src n :
  buf = A ++ X ++ M ++ Y -> dst = zlen A -> src = zlen A + zlen X -> n = zlen M ->
  exists Y', memmove buf dst src n = Some (A ++ M ++ Y') /\ zlen Y' = zlen X + zlen Y.
Proof.
  intros Hb -> -> ->. unfold memmove. rewrite (mread_at _ (A ++ X) M Y) by (subst buf; place). cbn [mbind option_bind].
  exists (drop (length M) (X ++ M ++ Y)). split; [|rewrite length_drop, !length_app; lia].
  apply (mwrite_at buf A (take (length M) (X ++ M ++ Y))); [by rewrite take_drop|done|]. rewrite length_take, !length_app. lia.
Qed.

(** ** The cascade of updates *)
Section Cascade.
Context `{Host} (uninit : nat -> Z).

(** Making room for the long form in an entry. *)
Definition grow_next (zl : list Z) (np rawlen curlen : Z) : option (list Z) :=
  zl ← ziplistResize uninit zl (u32 (curlen + 4));
  tail ← ZIPLIST_TAIL_OFFSET zl;
  zl ← (if negb (tail =? np) then set_ZIPLIST_TAIL_OFFSET zl (tail + 4) else Some zl);
  zl ← memmove zl (np + 5) (np + 1) (u64 (curlen - np - 1 - 1));
  '(zl, _) ← zipStorePrevEntryLength zl (Some np) rawlen;
  Some zl.

Lemma grow_next_ok T O l A q R r :
  let zl := zheader T O l ++ A ++ [q] ++ R ++ [ZIP_END] in
  T = zlen zl -> 0 <= O -> O + 4 < 2 ^ 32 -> T + 4 < 2 ^ 32 -> 254 <= r < 2 ^ 32 ->
  grow_next zl (10 + zlen A) r T =
    Some (zheader (T + 4) (if O =? 10 + zlen A then O else O + 4) l ++ A ++ plen true r ++ R ++ [ZIP_END]).
Proof.
  intros zl HT HO HO4 HT4 Hr. unfold grow_next. rewrite u32_small by lia.
  destruct (resize_grow uninit T O l (A ++ [q] ++ R) 4 zl (T + 4)) as (J & -> & HJ & _); [unfold zl; place|lia..|]. cbn [mbind option_bind].
  rewrite get_tail by lia. cbn [mbind option_bind]. set (O' := if O =? _ then _ else _).
  assert ((if negb (O =? 10 + zlen A) then set_ZIPLIST_TAIL_OFFSET (zheader (T + 4) O l ++ (A ++ [q] ++ R) ++ J ++ [ZIP_END]) (O + 4)
           else Some (zheader (T + 4) O l ++ (A ++ [q] ++ R) ++ J ++ [ZIP_END])) = Some (zheader (T + 4) O' l ++ (A ++ [q] ++ R) ++ J ++ [ZIP_END])) as ->.
  { unfold O'. destruct (O =? 10 + zlen A); cbn [negb]; [done|]. apply set_tail. lia. }
  cbn [mbind option_bind]. set (Hd := zheader (T + 4) O' l). assert (length Hd = 10%nat) as HHd by done.
  assert (T = 12 + zlen A + zlen R) as HTl by (rewrite HT; unfold zl; rewrite !length_app, zheader_length; cbn; lia).
  rewrite u64_small by lia. rewrite (memmove_to_end _ (Hd ++ A ++ [q]) R (J ++ [ZIP_END]) (Hd ++ A ++ [q] ++ R ++ J) ZIP_END);
    [|by rewrite <-!app_assoc|by rewrite <-!app_assoc|rewrite ?length_app; cbn [length]; lia..]. cbn [mbind option_bind].
  replace (take _ _) with ((Hd ++ A) ++ take 5 ([q] ++ R ++ J ++ [ZIP_END])).
  2:{ replace (Hd ++ (A ++ [q] ++ R) ++ J ++ [ZIP_END]) with ((Hd ++ A) ++ [q] ++ R ++ J ++ [ZIP_END]) by (by rewrite <-!app_assoc).
      rewrite (take_app_ge (Hd ++ A)) by (rewrite length_app; lia). do 2 f_equal. rewrite length_app. lia. }
  assert (wide r = true) as Hw by (unfold wide, ZIP_BIG_PREVLEN; by rewrite (proj2 (Z.ltb_ge _ _)) by lia).
  rewrite (store_prevlen_ok _ (Hd ++ A) (take 5 ([q] ++ R ++ J ++ [ZIP_END])) r (R ++ [ZIP_END])).
  - cbn [mbind option_bind]. by rewrite Hw, <-!app_assoc.
  - by rewrite <-!app_assoc.
  - rewrite length_app. lia.
  - lia.
  - rewrite Hw, length_take, !length_app. cbn [length plen]. rewrite length_le_bytes. lia.
Qed.

Lemma next_extra lg1 q r : zlen (plen lg1 q) < zlen (plen (wide r) r) -> lg1 = false /\ 254 <= r.
Proof.
  rewrite !length_plen. unfold wide, ZIP_BIG_PREVLEN. destruct lg1; destruct (Z.ltb_spec r 254); cbn; lia || done.
Qed.

(** The entry the cursor is at. *)
Lemma cascade_cur zl A lg n s B p :
  zl = A ++ (plen lg n ++ body s) ++ B -> p = zlen A -> plen_ok lg n -> str_fits s ->
  (exists x, byte_at zl p = Some x /\ (x =? ZIP_END) = false) /\
  (exists cur, zipEntry zl p = Some cur /\ headersize cur + len cur = esize (lg, s) /\ prevrawlen cur = n /\ prevrawlensize cur = zlen (plen lg n) /\
     encoding cur = enc_of s /\ headersize cur = zlen (plen lg n) + zlen (hdr_of s) /\ len cur = zlen (data_of s) /\ zl_p cur = p) /\
  zipRawEntryLength zl p = Some (esize (lg, s)).
Proof.
  intros Hz Hp Hn Hs. rewrite <-app_assoc in Hz. split; [by eapply plen_byte|].
  destruct (entry_ok zl A lg n s B p) as [-> ->]; [done..|].
  assert (zlen (plen lg n) + zlen (body s) = esize (lg, s)) as <- by (unfold esize; by rewrite length_plen).
  split; [|done]. eexists. split; [done|]. cbn. rewrite body_length. split_and!; [lia|done..].
Qed.

(** The cursor has stopped: the entries after it are consistent. *)
Lemma cascade_done T O l M lg n s es zl :
  zl = zheader T O l ++ M ++ (plen lg n ++ body s) ++ chain (esize (lg, s)) es ++ [ZIP_END] -> T = zlen zl ->
  O = 10 + zlen M + tail_off ((lg, s) :: es) ->
  let R := M ++ (plen lg n ++ body s) ++ chain (esize (lg, s)) es ++ [ZIP_END] in
  Some zl = Some (zheader (10 + zlen R) (10 + zlen M + tail_off ((lg, s) :: es)) l ++ R) /\ 10 + zlen R = T.
Proof.
  intros Hz HT HO R. fold R in Hz. assert (10 + zlen R = T) as HR by (rewrite HT, Hz, length_app, zheader_length; lia).
  split; [|done]. by rewrite HR, <-HO, Hz.
Qed.

Lemma cascade_ok es : forall fuel M lg n s q T O l,
  let zl := zheader T O l ++ M ++ (plen lg n ++ body s) ++ chain q es ++ [ZIP_END] in
  (length es < fuel)%nat -> T = zlen zl -> O = 10 + zlen M + tail_off ((lg, s) :: es) -> plen_ok lg n -> str_fits s -> chain_ok q es ->
  T + 4 * zlen es < 2 ^ 32 ->
  exists es', snd <$> es' = snd <$> es /\ chain_ok (esize (lg, s)) es' /\
    let R := M ++ (plen lg n ++ body s) ++ chain (esize (lg, s)) es' ++ [ZIP_END] in
    cascade_loop uninit fuel zl (10 + zlen M) T = Some (zheader (10 + zlen R) (10 + zlen M + tail_off ((lg, s) :: es')) l ++ R) /\
    10 + zlen R <= T + 4 * zlen es.
Proof.
  induction es as [|[lg1 s1] es IH]; intros fuel M lg n s q T O l zl Hf HT HO Hn Hs Hc Hb; (destruct fuel as [|fuel]; [lia|]); cbn [cascade_loop].
  - assert (zlen zl = 11 + zlen M + esize (lg, s)) as Hzl by
      (unfold zl; rewrite <-(esize_length lg s n), !length_app, zheader_length; cbn; lia).
    destruct (cascade_cur zl (zheader T O l ++ M) lg n s [ZIP_END] (10 + zlen M)) as ((x & -> & Hx) & (cur & -> & Hcur & _) & _);
      [unfold zl; place|rewrite length_app, zheader_length; lia|done..|]. cbn [mbind option_bind]. rewrite Hx, Hcur.
    pose proof (esize_pos (lg, s)). rewrite u32_small by lia. rewrite store_prevlen_size. cbn [mbind option_bind].
    rewrite (byte_at_app zl (zheader T O l ++ M ++ plen lg n ++ body s) ZIP_END []).
    2:{ unfold zl. cbn [chain app]. by rewrite <-!app_assoc. }
    2:{ rewrite !length_app, zheader_length, !Nat2Z.inj_add, <-(Nat2Z.inj_add (length (plen lg n))), <-length_app, esize_length. lia. }
    cbn [mbind option_bind]. exists []. split; [done|]. split; [done|].
    destruct (cascade_done T O l M lg n s [] zl) as [E1 E2]; [done..|]. cbn zeta. split; [exact E1|]. lia.
  - destruct Hc as (Hq & Hs1 & Hc). cbn [fst snd] in *. set (e1 := (lg1, s1)) in *.
    assert (zlen zl = 11 + zlen M + esize (lg, s) + zlen (chain q (e1 :: es))) as Hzl by
      (unfold zl; rewrite <-(esize_length lg s n), !length_app, zheader_length; cbn; lia).
    destruct (cascade_cur zl (zheader T O l ++ M) lg n s (chain q (e1 :: es) ++ [ZIP_END]) (10 + zlen M)) as ((x & -> & Hx) & (cur & -> & Hcur & _) & _);
      [unfold zl; place|rewrite length_app, zheader_length; lia|done..|]. cbn [mbind option_bind]. rewrite Hx, Hcur.
    pose proof (esize_pos (lg, s)). rewrite u32_small by lia. rewrite store_prevlen_size. cbn [mbind option_bind].
    set (M' := M ++ plen lg n ++ body s). assert (zlen M' = zlen M + esize (lg, s)) as HM' by (unfold M'; rewrite length_app, Nat2Z.inj_add, esize_length; lia).
    destruct (cascade_cur zl (zheader T O l ++ M') lg1 q s1 (chain (esize e1) es ++ [ZIP_END]) (10 + zlen M + esize (lg, s)))
      as ((x1 & -> & Hx1) & (next & -> & _ & Hnq & Hns & _) & _);
      [unfold zl, M'; cbn [chain]; place|rewrite length_app, zheader_length; lia|done..|]. cbn [mbind option_bind]. rewrite Hx1, Hnq, Hns.
    set (r := esize (lg, s)) in *. destruct (Z.eqb_spec q r) as [->|Hqr].
    { exists (e1 :: es). split; [done|]. split; [done|]. destruct (cascade_done T O l M lg n s (e1 :: es) zl) as [E1 E2]; [done..|].
      cbn zeta. split; [exact E1|]. etrans; [apply Z.eq_le_incl, E2|lia]. }
    destruct (Z.ltb_spec (zlen (plen lg1 q)) (zlen (plen (wide r) r))) as [Hlt|Hge].
    + apply next_extra in Hlt as [Hlg Hr]. subst lg1. assert (wide r = true) as Hw by (unfold wide, ZIP_BIG_PREVLEN; by rewrite (proj2 (Z.ltb_ge _ _)) by lia).
      rewrite Hw. change (zlen (plen true r) - zlen (plen false q)) with 4. change (zlen (plen true r)) with 5. change (zlen (plen false q)) with 1.
      match goal with |- context [?m ≫= ?k] => assert ((m ≫= k) = (grow_next zl (10 + zlen M') r T ≫= fun zl => cascade_loop uninit fuel zl (10 + zlen M') (T + 4))) as -> end.
      { rewrite HM', Z.add_assoc. unfold grow_next. destruct (ziplistResize _ _ _) as [z1|]; [|done]. cbn [mbind option_bind].
        destruct (ZIPLIST_TAIL_OFFSET z1) as [t|]; [|done]. cbn [mbind option_bind]. destruct (if negb _ then _ else _) as [z2|]; [|done]. cbn [mbind option_bind].
        destruct (memmove _ _ _ _) as [z3|]; [|done]. cbn [mbind option_bind]. destruct (zipStorePrevEntryLength _ _ _) as [[z4 ?]|]; done. }
      assert (zl = zheader T O l ++ M' ++ [q] ++ (body s1 ++ chain (esize e1) es) ++ [ZIP_END]) as Hz' by (unfold zl, M', e1; cbn [chain fst snd plen]; place).
      pose proof (tail_off_bounds ((lg, s) :: e1 :: es)) as Hto. rewrite chain_length in Hto. cbn [foldr] in Hto. fold r in Hto. cbn [length] in Hb. rewrite (chain_length q) in Hzl. cbn [foldr] in Hzl.
      pose proof (esize_pos e1). pose proof (Zle_0_nat (length (chain 0 es))) as Hes. rewrite chain_length in Hes.
      rewrite Hz', grow_next_ok; [|by rewrite <-Hz'|lia..]. cbn [mbind option_bind]. rewrite <-!app_assoc, (app_assoc (plen true r)).
      set (O' := if O =? 10 + zlen M' then O else O + 4).
      destruct (IH fuel M' true r s1 (esize e1) (T + 4) O' l) as (es' & Hss & Hok & E & Hle); clear IH.
      * cbn in Hf. lia.
      * rewrite (length_app (zheader _ _ _)), (length_app M'), (length_app (plen _ _ ++ _)), !Nat2Z.inj_add, esize_length, zheader_length, length_app, Nat2Z.inj_add, (chain_length _ es).
        rewrite esize_large. cbn [length]. unfold e1 in Hzl. lia.
      * unfold O'. rewrite HO, HM', tail_off_cons by done. unfold e1. rewrite (tail_off_large s1). fold r. destruct es as [|e2 es]; [cbn; bdestr; lia|].
        pose proof (tail_off_bounds (e2 :: es)). pose proof (esize_pos (false, s1)). rewrite (tail_off_cons (false, s1)) by done. bdestr; lia.
      * split; [lia|by left].
      * done.
      * done.
      * cbn [length] in Hb. lia.
      * exists ((true, s1) :: es'). split; [cbn; by rewrite Hss|]. split; [split_and!; [split; [cbn; lia|by left]|done|done]|].
        rewrite tail_off_cons by done. fold r. cbn zeta in E, Hle |- *.
        replace (M ++ (plen lg n ++ body s) ++ chain r ((true, s1) :: es') ++ [ZIP_END])
          with (M' ++ (plen true r ++ body s1) ++ chain (esize (true, s1)) es' ++ [ZIP_END]) by (unfold M'; cbn [chain fst snd]; place).
        rewrite Z.add_assoc, <-(Z.add_assoc 10), <-HM'. split; [exact E|]. cbn [length]. lia.
    + assert (exists k, (if zlen (plen (wide r) r) <? zlen (plen lg1 q) then zipStorePrevEntryLengthLarge zl (Some (10 + zlen M + r)) r
          else zipStorePrevEntryLength zl (Some (10 + zlen M + r)) r) =
        Some ((zheader T O l ++ M') ++ plen lg1 r ++ body s1 ++ chain (esize e1) es ++ [ZIP_END], k)) as [k ->].
      { assert (zl = (zheader T O l ++ M') ++ plen lg1 q ++ body s1 ++ chain (esize e1) es ++ [ZIP_END]) as Hz' by (unfold zl, M', e1; cbn [chain fst snd]; place).
        assert (10 + zlen M + r = zlen (zheader T O l ++ M')) as Hp by (rewrite length_app, zheader_length; lia). rewrite Hp. rewrite !length_plen in *.
        destruct lg1, (wide r) eqn:Hw; try lia; cbn [Z.ltb Z.compare Pos.compare Pos.compare_cont]; eexists.
        - rewrite (store_prevlen_ok _ _ _ _ _ _ Hz' eq_refl) by (lia || by rewrite Hw). by rewrite Hw.
        - by apply (store_large_ok _ _ _ _ _ _ Hz' eq_refl).
        - rewrite (store_prevlen_ok _ _ _ _ _ _ Hz' eq_refl) by (lia || by rewrite Hw). by rewrite Hw. }
      cbn [mbind option_bind]. exists (e1 :: es). split; [done|].
      assert (plen_ok lg1 r) as Hok by (split; [lia|]; rewrite !length_plen in Hge; unfold wide in Hge; destruct lg1; [by left|right]; destruct (Z.ltb_spec r ZIP_BIG_PREVLEN); [done|cbn in Hge; lia]).
      split; [done|].
      destruct (cascade_done T O l M lg n s (e1 :: es) ((zheader T O l ++ M') ++ plen lg1 r ++ body s1 ++ chain (esize e1) es ++ [ZIP_END])) as [E1 E2].
      * unfold M'. fold r. cbn [chain]. unfold e1. cbn [fst snd]. place.
      * etrans; [exact HT|]. unfold zl, M'. cbn [chain]. unfold e1; cbn [fst snd]. rewrite !length_app, !zheader_length. destruct lg1; cbn [plen length]; rewrite ?length_le_bytes; lia.
      * done.
      * cbn zeta. split; [exact E1|]. etrans; [apply Z.eq_le_incl, E2|lia].
Qed.

Lemma update_ok M lg n s q es T O l zl :
  zl = zheader T O l ++ M ++ (plen lg n ++ body s) ++ chain q es ++ [ZIP_END] ->
  T = zlen zl -> O = 10 + zlen M + tail_off ((lg, s) :: es) -> plen_ok lg n -> str_fits s -> chain_ok q es -> T + 4 * zlen es < 2 ^ 32 ->
  exists es', snd <$> es' = snd <$> es /\ chain_ok (esize (lg, s)) es' /\
    let R := M ++ (plen lg n ++ body s) ++ chain (esize (lg, s)) es' ++ [ZIP_END] in
    __ziplistCascadeUpdate uninit zl (10 + zlen M) = Some (zheader (10 + zlen R) (10 + zlen M + tail_off ((lg, s) :: es')) l ++ R) /\
    10 + zlen R <= T + 4 * zlen es.
Proof.
  intros -> HT HO Hn Hs Hc Hb. unfold __ziplistCascadeUpdate. rewrite get_bytes by lia. cbn [mbind option_bind].
  apply (cascade_ok es _ M lg n s q T O l); try done. pose proof (entries_fit es) as He. rewrite (chain_length_prev 0 q) in He.
  rewrite !length_app, zheader_length. lia.
Qed.
End Cascade.

(** ** Insertion *)
Section Insert.
Context `{Host} (uninit : nat -> Z).

Lemma esize_bound lg s : esize (lg, s) <= zlen s + 18.
Proof.
  unfold esize. cbn [fst snd]. rewrite body_length. pose proof (hdr_length s). unfold data_of. destruct (zipTryEncoding s) as [[v e]|] eqn:Ht.
  - apply try_ok in Ht as [Hi _]. destruct (int_enc_size v e Hi) as [_ Hw]. rewrite length_le_bytes. destruct lg; lia.
  - destruct lg; lia.
Qed.

(** The size of the data, and writing an entry. *)
Lemma data_size s value encoding : default (123456789, 0) (zipTryEncoding s) = (value, encoding) ->
  match zipTryEncoding s with Some _ => zipIntSize encoding | None => Some (zlen s) end = Some (zlen (data_of s)).
Proof.
  unfold data_of. destruct (zipTryEncoding s) as [[v e]|] eqn:Ht; [|done]. intros [= <- <-].
  apply try_ok in Ht as [Hi _]. destruct (int_enc_size v e Hi) as [-> _]. by rewrite length_le_bytes.
Qed.

Lemma write_entry {R} (k : list Z -> option R) zl A J B prev s value encoding p :
  zl = A ++ J ++ B -> p = zlen A -> 0 <= prev < 2 ^ 32 -> str_fits s -> zlen J = esize (wide prev, s) ->
  default (123456789, 0) (zipTryEncoding s) = (value, encoding) ->
  ('(zl, n) ← zipStorePrevEntryLength zl (Some p) prev;
   '(zl, m) ← zipStoreEntryEncoding zl (Some (p + n)) encoding (zlen s);
   zl ← (if ZIP_IS_STR encoding then mwrite zl (p + n + m) s else zipSaveInteger zl (p + n + m) value encoding); k zl) =
  k (A ++ (plen (wide prev) prev ++ body s) ++ B).
Proof.
  intros -> -> Hp Hs HJ Hd. set (P := plen (wide prev) prev). rewrite <-(esize_length _ s prev) in HJ. fold P in HJ. unfold body in HJ. rewrite !length_app in HJ.
  assert (exists J1 J2 J3, J = J1 ++ J2 ++ J3 /\ length J1 = length P /\ length J2 = length (hdr_of s) /\ length J3 = length (data_of s)) as (J1 & J2 & J3 & -> & H1 & H2 & H3).
  { exists (take (length P) J), (take (length (hdr_of s)) (drop (length P) J)), (drop (length (hdr_of s)) (drop (length P) J)).
    rewrite !take_drop. split; [done|]. rewrite !length_take, !length_drop. lia. }
  rewrite (store_prevlen_ok _ A J1 prev (J2 ++ J3 ++ B)); [|by rewrite <-!app_assoc|done..]. cbn [mbind option_bind]. fold P.
  replace encoding with (snd (default (123456789, 0) (zipTryEncoding s))) at 1 by (by rewrite Hd).
  rewrite (store_encoding_ok _ (A ++ P) J2 s (J3 ++ B)); [|place|place|done..]. cbn [mbind option_bind].
  assert (A ++ (P ++ body s) ++ B = ((A ++ P) ++ hdr_of s) ++ data_of s ++ B) as -> by (unfold body; place).
  unfold data_of in *. destruct (zipTryEncoding s) as [[v e]|] eqn:Ht; injection Hd as <- <-.
  - apply try_ok in Ht as [Hi _]. rewrite (is_str_int v e) by done. rewrite length_le_bytes in H3. rewrite (save_int_ok _ (((A ++ P) ++ hdr_of s)) J3 v e B); [done|place|place|done..].
  - change (ZIP_IS_STR 0) with true. cbv iota. rewrite (mwrite_at _ ((A ++ P) ++ hdr_of s) J3 s B); [done|place|place|done].
Qed.

Lemma last_size_range es prev : chain_ok prev es -> 0 <= prev -> 0 <= last_size prev es /\ (es <> [] -> 2 <= last_size prev es).
Proof.
  revert prev. induction es as [|e es IH]; intros prev Hc Hp; [done|]. destruct Hc as (_ & _ & Hc). pose proof (esize_pos e).
  cbn [last_size]. destruct (IH (esize e) Hc) as [H1 H2]; [lia|]. split; [done|]. intros _. destruct es; [done|]. by apply H2.
Qed.

(** The pointers to the last entry and past it. *)
Lemma rep_parts zl es : zl_rep zl es -> exists l, zl = zheader (zlen zl) (10 + tail_off es) l ++ chain 0 es ++ [ZIP_END] /\ count_ok l (zlen es) /\
  zlen zl = 11 + zlen (chain 0 es) /\ 0 <= l < 2 ^ 16 /\ chain_ok 0 es /\ zlen zl < 2 ^ 32 /\ 0 <= last_size 0 es < 2 ^ 32.
Proof.
  intros [(l & Hz & Hl) Hc Hs]. exists l. assert (zlen zl = 11 + zlen (chain 0 es)) as Hlen.
  { rewrite Hz, !length_app, zheader_length. cbn. lia. }
  split_and!; [done..| | |done|done| |].
  - unfold count_ok, UINT16_MAX in Hl. lia.
  - unfold count_ok, UINT16_MAX in Hl. lia.
  - by apply last_size_range.
  - destruct es as [|e es]; [cbn; lia|]. pose proof (tail_off_spec 0 (e :: es) ltac:(done)). pose proof (tail_off_bounds (e :: es)). lia.
Qed.

Lemma tail_entry es : es <> [] -> exists es0 e, es = es0 ++ [e] /\ tail_off es = zlen (chain 0 es0) /\ last_size 0 es = esize e /\
  chain 0 es = chain 0 es0 ++ (plen e.1 (last_size 0 es0) ++ body e.2).
Proof.
  intros Hne. destruct (exists_last Hne) as (es0 & e & ->). exists es0, e. split; [done|]. split; [rewrite tail_off_app by done; cbn; lia|].
  rewrite last_size_app, chain_app. cbn [chain last_size]. by rewrite app_nil_r.
Qed.

Lemma count_incr l n : count_ok l n -> 0 <= n -> count_ok (if l <? UINT16_MAX then u16 (l + 1) else l) (n + 1).
Proof.
  unfold count_ok, UINT16_MAX, u16. intros Hl Hn. destruct (Z.ltb_spec l 65535); [|left; lia].
  destruct Hl as [|[-> _]]; [lia|]. rewrite Z.mod_small by lia. lia.
Qed.

(** The size of the last entry, as the insertion finds it at the end. *)
Lemma prev_at_end zl es : zl_rep zl es ->
  (ptail ← ZIPLIST_ENTRY_TAIL zl; bt ← byte_at zl ptail; if negb (bt =? ZIP_END) then zipRawEntryLength zl ptail else Some 0) = Some (last_size 0 es).
Proof.
  intros Hr. destruct (rep_parts zl es Hr) as (l & Hz & _ & Hlen & _ & Hc & Hs & _). pose proof (tail_off_bounds es).
  unfold ZIPLIST_ENTRY_TAIL. rewrite Hz, get_tail by lia. rewrite <-Hz. cbn [mbind option_bind]. destruct (decide (es = [])) as [->|Hne].
  - rewrite (byte_at_app _ (zheader (zlen zl) (10 + tail_off []) l) ZIP_END []) by done. done.
  - destruct (tail_entry es Hne) as (es0 & [lg s] & -> & Ht & -> & Hch). rewrite Ht. apply chain_ok_app in Hc as (_ & Hn & Hs0 & _).
    destruct (cascade_cur zl (zheader (zlen zl) (10 + tail_off (es0 ++ [(lg, s)])) l ++ chain 0 es0) lg (last_size 0 es0) s [ZIP_END] (10 + zlen (chain 0 es0)))
      as ((x & -> & Hx) & _ & ->); [etrans; [exact Hz|]; rewrite Hch; cbn [fst snd]; place|rewrite length_app, zheader_length; lia|done..|].
    cbn [mbind option_bind]. by rewrite Hx.
Qed.

Lemma make_rep T O l R zl es : zl = zheader T O l ++ R -> R = chain 0 es ++ [ZIP_END] -> T = zlen zl -> O = 10 + tail_off es ->
  chain_ok 0 es -> T < 2 ^ 32 -> count_ok l (zlen es) -> zl_rep zl es.
Proof. intros Hz -> HT HO Hc HT2 Hl. subst T O. split; [by exists l|done..]. Qed.

Lemma insert_end zl es s : zl_rep zl es -> str_fits s -> zlen zl + zlen s + 18 < 2 ^ 32 ->
  exists zl', __ziplistInsert uninit zl (zlen zl - 1) s = Some zl' /\ zl_rep zl' (es ++ [(wide (last_size 0 es), s)]).
Proof.
  intros Hr Hs Hb. pose proof (prev_at_end zl es Hr) as Hprev. destruct (rep_parts zl es Hr) as (l & Hz & Hl & Hlen & Hlr & Hc & Hsz & Hls).
  set (prev := last_size 0 es) in *. pose proof (esize_bound (wide prev) s) as Hbd. pose proof (esize_pos (wide prev, s)).
  unfold __ziplistInsert. assert (ZIPLIST_BYTES zl = Some (zlen zl)) as -> by (rewrite Hz at 1; apply get_bytes; lia). cbn [mbind option_bind].
  assert (byte_at zl (zlen zl - 1) = Some ZIP_END) as ->.
  { apply (byte_at_app zl (zheader (zlen zl) (10 + tail_off es) l ++ chain 0 es) ZIP_END []); [etrans; [exact Hz|]; place|rewrite length_app, zheader_length; lia]. }
  cbn [mbind option_bind]. change (ZIP_END =? ZIP_END) with true. cbn [negb]. rewrite Hprev. cbn [mbind option_bind].
  destruct (default (123456789, 0) (zipTryEncoding s)) as [value encoding] eqn:Ed. rewrite (data_size s value encoding Ed). cbn [mbind option_bind].
  rewrite store_prevlen_size. cbn [mbind option_bind]. pose proof (store_encoding_size zl s Hs) as He. rewrite Ed in He. cbn [snd] in He. rewrite He. clear He. cbn [mbind option_bind].
  set (req := zlen (data_of s) + zlen (plen (wide prev) prev) + zlen (hdr_of s)).
  assert (req = esize (wide prev, s)) as Hreq by (unfold req, esize; cbn [fst snd]; rewrite body_length, length_plen; lia).
  change (0 =? -4) with false. cbn [andb]. change (0 =? 0) with true. cbn [negb]. rewrite u32_small by lia.
  destruct (resize_grow uninit (zlen zl) (10 + tail_off es) l (chain 0 es) req zl (zlen zl + req + 0) Hz) as (J & -> & HJ & HJ0); [lia..|]. cbn [mbind option_bind].
  destruct J as [|j J]; [cbn in HJ; lia|]. specialize (HJ0 ltac:(lia)). cbn in HJ0. injection HJ0 as ->.
  rewrite (byte_at_app _ (zheader (zlen zl + req + 0) (10 + tail_off es) l ++ chain 0 es) ZIP_END (J ++ [ZIP_END])) by first [by rewrite <-app_assoc|rewrite length_app, zheader_length; lia].
  cbn [mbind option_bind]. change (ZIP_END =? ZIP_END) with true. cbn [negb]. rewrite set_tail by lia. cbn [mbind option_bind].
  set (Hd := zheader (zlen zl + req + 0) (zlen zl - 1) l).
  rewrite (write_entry _ _ (Hd ++ chain 0 es) (ZIP_END :: J) [ZIP_END] prev s value encoding (zlen zl - 1));
    [|place|unfold Hd; rewrite length_app, zheader_length; lia|done|done|lia|done].
  unfold Hd. rewrite <-app_assoc, incr_length_ok by done. eexists. split; [done|].
  apply (make_rep (zlen zl + req + 0) (zlen zl - 1) _ _ _ _ eq_refl).
  - rewrite chain_app. cbn [chain]. fold prev. cbn [fst snd]. rewrite app_nil_r. place.
  - rewrite !length_app, !Nat2Z.inj_add, <-(Nat2Z.inj_add (length (plen _ _))), <-length_app, esize_length, zheader_length. cbn [length]. lia.
  - rewrite tail_off_app by done. cbn [tail_off]. lia.
  - apply chain_ok_app. split; [done|]. split; [by apply wide_ok|]. by split.
  - lia.
  - rewrite length_app, Nat2Z.inj_add. apply count_incr; [done|lia].
Qed.

(** The form the next entry gets, and the difference of the sizes. *)
Definition psize (lg : bool) : Z := if lg then 5 else 1.
Definition next_form (lg : bool) (req : Z) : bool := wide req || (lg && (req <? 4)).

Lemma bytediff_ok zl A lg n B p r : zl = A ++ plen lg n ++ B -> p = zlen A -> plen_ok lg n ->
  zipPrevLenByteDiff zl p r = Some (psize (wide r) - psize lg).
Proof.
  intros Hz Hp Hn. unfold zipPrevLenByteDiff. destruct (prevlen_ok zl A lg n B p) as [-> _]; [done..|]. cbn [mbind option_bind].
  rewrite store_prevlen_size. cbn [mbind option_bind]. rewrite !length_plen. unfold psize. by destruct lg, (wide r).
Qed.

Lemma next_form_spec lg req : 0 <= req ->
  let d := psize (wide req) - psize lg in let force := (d =? -4) && (req <? 4) in
  (if force then 0 else d) = psize (next_form lg req) - psize lg /\ force = (lg && negb (wide req) && (req <? 4)) /\
  0 <= req + (psize (next_form lg req) - psize lg) /\ (force = true -> next_form lg req = true) /\ (force = false -> next_form lg req = wide req).
Proof.
  intros Hr d force. unfold force, d, next_form, psize. destruct lg, (wide req) eqn:Hw; unfold wide in Hw; destruct (Z.ltb_spec req 4); cbn; split_and!; (done || lia).
Qed.

(** The bytes the next entry is made of: its own, some before it, or some fewer. *)
Lemma shifted_segment A lg n B d : d = 0 \/ (d = 4 /\ lg = false) \/ (d = -4 /\ lg = true) -> (d = 4 -> 4 <= zlen A) ->
  exists X old, A ++ plen lg n ++ B = X ++ old ++ B /\ zlen X = zlen A - d /\ zlen old = psize lg + d.
Proof.
  intros Hd HA. destruct Hd as [->|[[-> ->]|[-> ->]]].
  - exists A, (plen lg n). split_and!; [done|lia|]. rewrite length_plen. unfold psize. lia.
  - exists (take (length A - 4) A), (drop (length A - 4) A ++ plen false n). split_and!.
    + by rewrite <-app_assoc, (app_assoc (take _ _)), take_drop.
    + specialize (HA eq_refl). rewrite length_take. lia.
    + specialize (HA eq_refl). rewrite length_app, length_drop. cbn [plen length psize]. lia.
  - exists (A ++ take 4 (plen true n)), (drop 4 (plen true n)). split_and!.
    + by rewrite <-app_assoc, (app_assoc (take 4 _)), take_drop.
    + rewrite length_app. cbn. lia.
    + done.
Qed.

(** Making room for an entry of [req] bytes before another one. *)
Lemma make_room T O l C lg n R J T' req d :
  let lg' := next_form lg req in let buf := zheader T' O l ++ (C ++ plen lg n ++ R) ++ J ++ [ZIP_END] in
  d = psize lg' - psize lg -> zlen J = req + d -> 2 <= req < 2 ^ 32 -> T = 11 + zlen C + psize lg + zlen R -> T < 2 ^ 32 ->
  exists J', zlen J' = req /\ forall (X : Type) (k : list Z -> option X),
  (zl ← memmove buf (10 + zlen C + req) (10 + zlen C - d) (u64 (T - (10 + zlen C) - 1 + d));
   '(zl, _) ← (if lg && negb (wide req) && (req <? 4) then zipStorePrevEntryLengthLarge zl (Some (10 + zlen C + req)) req
               else zipStorePrevEntryLength zl (Some (10 + zlen C + req)) req); k zl) =
  k (zheader T' O l ++ (C ++ J') ++ plen lg' req ++ R ++ [ZIP_END]).
Proof.
  intros lg' buf Hd HJ Hreq HT HT2. set (Hd0 := zheader T' O l) in *. assert (length Hd0 = 10%nat) as HH by done.
  destruct (next_form_spec lg req) as (_ & Hforce & _ & Hf1 & Hf2); [lia|]. cbn zeta in *. fold lg' in Hf1, Hf2. rewrite Hforce in Hf1, Hf2.
  destruct (shifted_segment (Hd0 ++ C) lg n (R ++ J ++ [ZIP_END]) d) as (X & old & HX & HlX & Hold).
  { unfold psize, lg', next_form in *. destruct lg, (wide req), (req <? 4); cbn in *; lia. }
  { rewrite length_app. lia. }
  assert (buf = X ++ (old ++ R) ++ J ++ [ZIP_END]) as Hbuf by (rewrite <-(app_assoc old), <-HX; unfold buf; place).
  assert (zlen (old ++ R) = psize lg' + zlen R) as Hm by (rewrite length_app; lia). rewrite length_app, HH in HlX.
  assert (0 <= psize lg' <= 5 /\ 0 <= psize lg <= 5) as [Hps Hps'] by (unfold psize; destruct lg, lg'; lia).
  rewrite u64_small by lia.
  rewrite (memmove_to_end buf X (old ++ R) (J ++ [ZIP_END]) (Hd0 ++ (C ++ plen lg n ++ R) ++ J) ZIP_END);
    [|exact Hbuf|unfold buf; place|lia|lia|lia|rewrite !length_app, !Nat2Z.inj_add, length_plen; fold (psize lg); lia].
  exists (take (Z.to_nat req) (plen lg n ++ R ++ J ++ [ZIP_END])).
  assert (zlen (take (Z.to_nat req) (plen lg n ++ R ++ J ++ [ZIP_END])) = req) as HJ'.
  { rewrite length_take, !length_app. cbn [length]. pose proof (length_plen lg n). fold (psize lg) in *. lia. }
  split; [done|]. intros Y k. set (J' := take (Z.to_nat req) _) in *. cbn [mbind option_bind].
  assert (take (Z.to_nat (10 + zlen C + req)) buf = Hd0 ++ C ++ J') as ->.
  { unfold buf. replace (Hd0 ++ (C ++ plen lg n ++ R) ++ J ++ [ZIP_END]) with ((Hd0 ++ C) ++ plen lg n ++ R ++ J ++ [ZIP_END]) by place.
    rewrite take_app_ge by (rewrite length_app; lia). rewrite <-app_assoc. do 2 f_equal. unfold J'. f_equal. rewrite length_app. lia. }
  assert ((Hd0 ++ C ++ J') ++ (old ++ R) ++ [ZIP_END] = (Hd0 ++ C ++ J') ++ old ++ R ++ [ZIP_END]) as Hz by place.
  assert (10 + zlen C + req = zlen (Hd0 ++ C ++ J')) as Hp by (rewrite !length_app; lia). rewrite Hp.
  assert (zlen (plen lg' req) = psize lg') as Hpl by apply length_plen.
  destruct (lg && negb (wide req) && (req <? 4)).
  - rewrite (store_large_ok _ _ _ _ _ _ Hz eq_refl); [|rewrite (Hf1 eq_refl) in *; cbn [psize] in *; lia]. cbn [mbind option_bind].
    rewrite (Hf1 eq_refl). f_equal; place.
  - rewrite (store_prevlen_ok _ _ _ _ _ _ Hz eq_refl); [|lia|rewrite <-(Hf2 eq_refl); lia]. cbn [mbind option_bind].
    rewrite <-(Hf2 eq_refl). f_equal; place.
Qed.

(** What follows an entry. *)
Definition no_more (es : list entry) : bool := match es with [] => true | _ => false end.
Lemma after_entry zl A lg n s q es p : zl = A ++ (plen lg n ++ body s) ++ chain q es ++ [ZIP_END] -> p = zlen A -> chain_ok q es ->
  exists x, byte_at zl (p + esize (lg, s)) = Some x /\ (x =? ZIP_END) = no_more es.
Proof.
  intros Hz -> Hc. assert (zlen A + esize (lg, s) = zlen (A ++ plen lg n ++ body s)) as Hp by (rewrite length_app, Nat2Z.inj_add, esize_length; lia).
  destruct es as [|e es].
  - exists ZIP_END. split; [|done]. apply (byte_at_app _ (A ++ plen lg n ++ body s) _ []); [subst zl; cbn [chain app]; place|done].
  - destruct Hc as (Hq & _). apply (plen_byte _ (A ++ plen lg n ++ body s) e.1 q (body e.2 ++ chain (esize e) es ++ [ZIP_END])); [subst zl; cbn [chain]; place|done..].
Qed.

(** The offset of the last entry when the size of an entry changes by [d]. *)
Lemma tail_off_resized lg lg' s es : tail_off ((lg', s) :: es) = tail_off ((lg, s) :: es) + match es with [] => 0 | _ => psize lg' - psize lg end.
Proof.
  destruct es as [|e es]; [done|]. rewrite !(tail_off_cons _ (e :: es)) by done. unfold esize, psize. cbn [fst snd]. destruct lg, lg'; lia.
Qed.
Lemma esize_resized lg lg' s : esize (lg', s) = esize (lg, s) + (psize lg' - psize lg).
Proof. unfold esize, psize. cbn [fst snd]. destruct lg, lg'; lia. Qed.

(** The entries after one whose size has changed by [d]; nothing is done when it has not. *)
Lemma settle M lg lg' n s es T O l zl d :
  zl = zheader T O l ++ M ++ (plen lg' n ++ body s) ++ chain (esize (lg, s)) es ++ [ZIP_END] -> d = psize lg' - psize lg ->
  T = zlen zl -> O = 10 + zlen M + tail_off ((lg', s) :: es) -> plen_ok lg' n -> str_fits s -> chain_ok (esize (lg, s)) es -> T + 4 * zlen es < 2 ^ 32 ->
  exists es', snd <$> es' = snd <$> es /\ chain_ok (esize (lg', s)) es' /\
    let R := M ++ (plen lg' n ++ body s) ++ chain (esize (lg', s)) es' ++ [ZIP_END] in
    (if negb (d =? 0) then __ziplistCascadeUpdate uninit zl (10 + zlen M) else Some zl) =
      Some (zheader (10 + zlen R) (10 + zlen M + tail_off ((lg', s) :: es')) l ++ R) /\ 10 + zlen R < 2 ^ 32.
Proof.
  intros Hz Hd HT HO Hn Hs Hc Hb. destruct (Z.eqb_spec d 0) as [H0|_]; cbn [negb].
  - assert (lg' = lg) as -> by (unfold psize in Hd; destruct lg, lg'; (done || lia)). exists es. split; [done|]. split; [done|].
    destruct (cascade_done T O l M lg n s es zl) as [E1 E2]; [done..|]. cbn zeta in *. split; [exact E1|]. rewrite E2. lia.
  - destruct (update_ok uninit M lg' n s (esize (lg, s)) es T O l zl) as (es' & Hss & Hok & E & Hle); [done..|].
    exists es'. split; [done|]. split; [done|]. cbn zeta in *. split; [exact E|]. lia.
Qed.

Lemma insert_before zl es1 lg s2 es2 s : let es := es1 ++ (lg, s2) :: es2 in
  zl_rep zl es -> str_fits s -> zlen zl + zlen s + 22 + 4 * zlen es2 < 2 ^ 32 ->
  exists zl' es2', __ziplistInsert uninit zl (10 + zlen (chain 0 es1)) s = Some zl' /\
    zl_rep zl' (es1 ++ (wide (last_size 0 es1), s) :: es2') /\ snd <$> es2' = s2 :: (snd <$> es2).
Proof.
  intros es Hr Hs Hb. destruct (rep_parts zl es Hr) as (l & Hz & Hl & Hlen & Hlr & Hc & Hsz & _).
  pose proof Hc as (Hc1 & Hn & Hs2 & Hc2)%chain_ok_app. cbn [fst snd] in Hn, Hs2, Hc2. set (prev := last_size 0 es1) in *. set (C := chain 0 es1) in *.
  assert (0 <= prev < 2 ^ 32) as Hprev by apply Hn. pose proof (esize_bound (wide prev) s) as Hbd. pose proof (esize_pos (wide prev, s)).
  set (B := body s2 ++ chain (esize (lg, s2)) es2). assert (chain 0 es = C ++ plen lg prev ++ B) as Hch by (unfold es; by rewrite chain_app).
  assert (zlen zl = 11 + zlen C + psize lg + zlen B) as HT by (rewrite Hlen, Hch, !length_app, !Nat2Z.inj_add, length_plen; fold (psize lg); lia).
  set (Hd0 := zheader (zlen zl) (10 + tail_off es) l) in *. rewrite Hch in Hz.
  assert (zl = (Hd0 ++ C) ++ plen lg prev ++ B ++ [ZIP_END]) as Hz1 by (etrans; [exact Hz|]; place).
  assert (10 + zlen C = zlen (Hd0 ++ C)) as Hp by (rewrite length_app; unfold Hd0; rewrite zheader_length; lia).
  unfold __ziplistInsert. assert (ZIPLIST_BYTES zl = Some (zlen zl)) as -> by (rewrite Hz at 1; apply get_bytes; lia). cbn [mbind option_bind].
  destruct (plen_byte zl _ lg prev _ _ Hz1 Hp Hn) as (x & -> & Hx). destruct (prevlen_ok zl _ lg prev _ _ Hz1 Hp Hn) as [_ Hdec].
  cbn [mbind option_bind]. rewrite Hx. cbn [negb]. rewrite Hdec. cbn [fmap option_fmap option_map snd mbind option_bind].
  destruct (default (123456789, 0) (zipTryEncoding s)) as [value encoding] eqn:Ed. rewrite (data_size s value encoding Ed). cbn [mbind option_bind].
  rewrite store_prevlen_size. cbn [mbind option_bind]. pose proof (store_encoding_size zl s Hs) as He. rewrite Ed in He. cbn [snd] in He. rewrite He. clear He. cbn [mbind option_bind].
  set (req := zlen (data_of s) + zlen (plen (wide prev) prev) + zlen (hdr_of s)).
  assert (req = esize (wide prev, s)) as Hreq by (unfold req, esize; cbn [fst snd]; rewrite body_length, length_plen; lia).
  rewrite (bytediff_ok zl _ lg prev _ _ req Hz1 Hp Hn). cbn [mbind option_bind].
  destruct (next_form_spec lg req) as (Hnd & Hforce & Hpos & _); [lia|]. cbn zeta in Hnd, Hforce, Hpos. rewrite Hnd, Hforce.
  set (lg' := next_form lg req) in *. remember (psize lg' - psize lg) as d eqn:Hdd.
  assert (-4 <= d <= 4) as Hd4 by (subst d; unfold psize; destruct lg, lg'; lia). rewrite u32_small by lia.
  destruct (resize_grow uninit (zlen zl) (10 + tail_off es) l (C ++ plen lg prev ++ B) (req + d) zl (zlen zl + req + d)) as (J & -> & HJ & _); [exact Hz|lia..|].
  cbn [mbind option_bind]. set (T' := zlen zl + req + d).
  destruct (plen_byte (zheader T' (10 + tail_off es) l ++ (C ++ plen lg prev ++ B) ++ J ++ [ZIP_END]) (zheader T' (10 + tail_off es) l ++ C)
    lg prev (B ++ J ++ [ZIP_END]) (10 + zlen C)) as (y & -> & Hy); [place|rewrite length_app, zheader_length; lia|done|].
  cbn [mbind option_bind]. rewrite Hy. cbn [negb].
  destruct (make_room (zlen zl) (10 + tail_off es) l C lg prev B J T' req d) as (J' & HJ' & Hroom); [done|lia|lia|done|lia|].
  rewrite Hroom. clear Hroom. fold lg'.
  assert (0 <= tail_off es <= zlen zl - 11) as Hto by (pose proof (tail_off_bounds es); lia).
  rewrite get_tail by lia. cbn [mbind option_bind]. rewrite set_tail by lia. cbn [mbind option_bind]. set (O1 := 10 + tail_off es + req).
  assert (plen_ok lg' req) as Hn'.
  { split; [lia|]. unfold lg', next_form, wide. destruct (Z.ltb_spec req ZIP_BIG_PREVLEN); [by right|by left]. }
  assert (zlen (C ++ J') = zlen C + req) as HCJ by (rewrite length_app; lia).
  destruct (cascade_cur (zheader T' O1 l ++ (C ++ J') ++ plen lg' req ++ B ++ [ZIP_END]) (zheader T' O1 l ++ C ++ J') lg' req s2
    (chain (esize (lg, s2)) es2 ++ [ZIP_END]) (10 + zlen C + req)) as (_ & (tl & -> & Htl & _) & _);
    [unfold B; place|rewrite length_app, zheader_length; lia|done..|]. cbn [mbind option_bind].
  rewrite <-(Z.add_assoc req), Htl, (Z.add_assoc (10 + zlen C)).
  destruct (after_entry (zheader T' O1 l ++ (C ++ J') ++ plen lg' req ++ B ++ [ZIP_END]) (zheader T' O1 l ++ C ++ J') lg' req s2
    (esize (lg, s2)) es2 (10 + zlen C + req)) as (z & -> & Hz2); [unfold B; place|rewrite length_app, zheader_length; lia|done|].
  cbn [mbind option_bind]. rewrite Hz2. set (O2 := 10 + zlen (C ++ J') + tail_off ((lg', s2) :: es2)).
  assert (tail_off es = zlen C + tail_off ((lg, s2) :: es2)) as Hte by (unfold es; by rewrite tail_off_app).
  pose proof (tail_off_resized lg lg' s2 es2) as Htr. rewrite <-Hdd in Htr.
  match goal with |- context [if negb (no_more es2) then ?a else ?b] =>
    assert ((if negb (no_more es2) then a else b) = Some (zheader T' O2 l ++ (C ++ J') ++ plen lg' req ++ B ++ [ZIP_END])) as -> end.
  { unfold O1, O2. destruct es2; cbn [negb no_more].
    - do 3 f_equal. lia.
    - rewrite get_tail by lia. cbn [mbind option_bind]. rewrite set_tail by lia. do 3 f_equal. lia. }
  cbn [mbind option_bind].
  destruct (settle (C ++ J') lg lg' req s2 es2 T' O2 l (zheader T' O2 l ++ (C ++ J') ++ plen lg' req ++ B ++ [ZIP_END]) d) as (es2' & Hss & Hok & E & HR);
    [unfold B; place|done| |done|done|done|done|lia|].
  { rewrite !length_app, !Nat2Z.inj_add, zheader_length, length_plen. fold (psize lg'). cbn [length]. lia. }
  cbn zeta in E, HR. rewrite <-Z.add_assoc, <-HCJ, E. cbn [mbind option_bind].
  set (R := (C ++ J') ++ (plen lg' req ++ body s2) ++ chain (esize (lg', s2)) es2' ++ [ZIP_END]) in *.
  set (O3 := 10 + zlen (C ++ J') + tail_off ((lg', s2) :: es2')).
  rewrite (write_entry _ _ (zheader (10 + zlen R) O3 l ++ C) J' ((plen lg' req ++ body s2) ++ chain (esize (lg', s2)) es2' ++ [ZIP_END]) prev s value encoding (10 + zlen C));
    [|unfold R; place|rewrite length_app, zheader_length; lia|done|done|lia|done].
  rewrite <-app_assoc, incr_length_ok by done. eexists _, ((lg', s2) :: es2'). split; [done|]. split; [|cbn; by rewrite Hss].
  apply (make_rep (10 + zlen R) O3 _ _ _ _ eq_refl).
  - rewrite chain_app. cbn [chain]. fold C prev. cbn [fst snd]. rewrite <-Hreq. place.
  - rewrite (length_app (zheader _ _ _)), (length_app C), (length_app (plen (wide prev) prev ++ _)), !Nat2Z.inj_add, esize_length, zheader_length.
    unfold R. rewrite (length_app (C ++ J')), !Nat2Z.inj_add, HCJ. lia.
  - rewrite tail_off_app by done. unfold O3. rewrite (tail_off_cons (wide prev, s)) by done. fold C. lia.
  - apply chain_ok_app. split; [done|]. fold prev. cbn [chain_ok fst snd]. rewrite <-Hreq. split_and!; [by apply wide_ok|done..].
  - done.
  - assert (zlen (es1 ++ (wide prev, s) :: (lg', s2) :: es2') = zlen es + 1) as ->; [|apply count_incr; [done|lia]].
    apply (f_equal length) in Hss. rewrite !length_fmap in Hss. unfold es. rewrite !length_app. cbn [length]. lia.
Qed.
End Insert.

(** ** Deletion *)
Section Delete.
Context `{Host} (uninit : nat -> Z).

Lemma skip_ok del : forall fuel zl A prev rest es3 i num deleted p,
  zl = A ++ chain prev del ++ rest -> rest = chain (last_size prev del) es3 ++ [ZIP_END] -> chain_ok prev (del ++ es3) -> p = zlen A ->
  (length del < fuel)%nat -> (i + zlen del = num \/ (es3 = [] /\ i + zlen del <= num)) ->
  skip_entries fuel zl p i num deleted = Some (p + zlen (chain prev del), deleted + zlen del).
Proof.
  induction del as [|[lg s] del IH]; intros fuel zl A prev rest es3 i num deleted p Hz Hr Hc Hp Hf Hi; (destruct fuel as [|fuel]; [lia|]); cbn [skip_entries].
  - cbn [chain app last_size length] in *. change (Z.of_nat 0) with 0 in *. rewrite !Z.add_0_r in *. destruct es3 as [|e es3].
    + rewrite (byte_at_app _ A ZIP_END []) by (subst; done). done.
    + destruct Hc as [Hn _]. destruct (plen_byte zl A e.1 prev (body e.2 ++ chain (esize e) es3 ++ [ZIP_END]) p) as (x & -> & Hx);
        [subst; cbn [chain]; place|done|done|]. cbn [mbind option_bind]. rewrite (proj2 (Z.ltb_ge i num)) by (destruct Hi as [|[]]; [lia|done]). by rewrite andb_false_r.
  - destruct Hc as (Hn & Hs & Hc). cbn [fst snd] in *. cbn [chain fst snd] in Hz. cbn [length] in *.
    destruct (cascade_cur zl A lg prev s (chain (esize (lg, s)) del ++ rest) p) as ((x & -> & Hx) & _ & ->); [subst; place|done..|]. cbn [mbind option_bind].
    rewrite Hx, (proj2 (Z.ltb_lt i num)) by lia. cbn [negb andb].
    rewrite (IH fuel zl (A ++ plen lg prev ++ body s) (esize (lg, s)) rest es3); [|subst; place|done|done| |lia|destruct Hi as [|[]]; [left; lia|right; split; [done|lia]]].
    + f_equal. cbn [chain fst snd]. rewrite (app_assoc (plen lg prev)), (length_app (_ ++ _)), Nat2Z.inj_add, esize_length. f_equal; lia.
    + rewrite length_app, Nat2Z.inj_add, esize_length. lia.
Qed.

Lemma count_decr l n k : count_ok l n -> 0 <= k <= n -> n < 2 ^ 32 -> count_ok (if l <? UINT16_MAX then u16 (l + u32 (- k)) else l) (n - k).
Proof.
  unfold count_ok, UINT16_MAX, u16, u32. intros Hl Hk Hn. destruct (Z.ltb_spec l 65535); [|left; lia].
  destruct Hl as [|[-> _]]; [lia|]. right. split; [|lia]. change (2 ^ 32) with (2 ^ 16 * 65536). rewrite Z.add_mod, Z.rem_mul_r by lia.
  rewrite <-Z.add_mod_idemp_r at 1 by lia. zdiv_lia.
Qed.

(** The parts of a list around deleted entries. *)
Lemma delete_parts zl es1 e del es3 : zl_rep zl (es1 ++ (e :: del) ++ es3) ->
  let prev := last_size 0 es1 in let C := chain 0 es1 in let D := chain prev (e :: del) in
  exists l, let Hd := zheader (zlen zl) (10 + tail_off (es1 ++ (e :: del) ++ es3)) l in
  zl = Hd ++ C ++ D ++ chain (last_size prev (e :: del)) es3 ++ [ZIP_END] /\ length Hd = 10%nat /\
  count_ok l (zlen (es1 ++ (e :: del) ++ es3)) /\ 0 <= l < 2 ^ 16 /\
  zlen zl = 11 + zlen C + zlen D + zlen (chain 0 es3) /\ zlen zl < 2 ^ 32 /\ chain_ok 0 es1 /\ chain_ok prev (e :: del) /\
  chain_ok (last_size prev (e :: del)) es3 /\ 0 <= prev < 2 ^ 32 /\ 2 <= zlen D /\ (254 <= prev -> 6 <= zlen D) /\ 1 + zlen del <= zlen D.
Proof.
  intros Hr prev C D. destruct (rep_parts _ _ Hr) as (l & Hz & Hl & Hlen & Hlr & Hc & Hs & _). exists l. cbn zeta.
  rewrite !chain_app in Hz, Hlen. rewrite !chain_ok_app in Hc. fold prev C D in Hz, Hlen, Hc. destruct Hc as (Hc1 & Hcd & Hc3).
  rewrite !length_app, !Nat2Z.inj_add, (chain_length_prev _ 0 es3) in Hlen. rewrite <-!app_assoc in Hz.
  assert (zlen D = esize e + zlen (chain 0 del)) as HD.
  { unfold D. destruct e as [lg s]. cbn [chain]. rewrite (app_assoc (plen _ _)), length_app, Nat2Z.inj_add, esize_length, (chain_length_prev _ 0 del). done. }
  pose proof (esize_pos e). pose proof (entries_fit del). split_and!; try done; try lia.
  - apply Hcd.
  - apply Hcd.
  - intros Hp. destruct Hcd as ([_ [Hlg|Hlg]] & _); [|unfold ZIP_BIG_PREVLEN in Hlg; lia]. rewrite HD. unfold esize. rewrite Hlg, body_length. pose proof (hdr_length e.2). lia.
Qed.

Lemma first_entry zl A e prev B : zl = A ++ chain prev [e] ++ B -> chain_ok prev [e] ->
  exists first, zipEntry zl (zlen A) = Some first /\ prevrawlen first = prev /\ zl_p first = zlen A.
Proof.
  intros Hz (Hn & Hs & _). destruct e as [lg s]. destruct (cascade_cur zl A lg prev s B (zlen A)) as (_ & (first & -> & _ & Hp & _ & _ & _ & _ & Hq) & _); [|done..|].
  - subst zl. cbn [chain fst snd]. rewrite app_nil_r. place.
  - by exists first.
Qed.

(** Everything from an entry on is deleted. *)
Lemma delete_to_end zl es1 e del num : zl_rep zl (es1 ++ (e :: del) ++ []) -> 1 + zlen del <= num ->
  exists zl', __ziplistDelete uninit zl (10 + zlen (chain 0 es1)) num = Some zl' /\ zl_rep zl' es1.
Proof.
  intros Hr Hnum. pose proof (tail_off_bounds es1) as Htb. destruct (delete_parts _ _ _ _ _ Hr) as (l & Hz & HH & Hl & Hlr & Hlen & Hs & Hc1 & Hcd & _ & Hprev & HD & _ & Hn).
  set (prev := last_size 0 es1) in *. set (C := chain 0 es1) in *. cbn zeta in *. set (Hd := zheader _ _ _) in *. set (D := chain prev (e :: del)) in *.
  assert (10 + zlen C = zlen (Hd ++ C)) as Hp by (rewrite length_app; lia). unfold __ziplistDelete.
  destruct (first_entry zl (Hd ++ C) e prev (chain (esize e) del ++ [ZIP_END])) as (first & E1 & E2 & E3).
  { etrans; [exact Hz|]. unfold D. cbn [chain app]. rewrite app_nil_r. place. }
  { destruct Hcd as (? & ? & _). by split. }
  rewrite <-Hp in E1, E3. rewrite E1. cbn [mbind option_bind].
  rewrite (skip_ok (e :: del) _ zl (Hd ++ C) prev [ZIP_END] []); [|etrans; [exact Hz|]; place|done|by rewrite app_nil_r|done| |right; split; [done|cbn [length]; lia]].
  2:{ cbn [length]. lia. }
  cbn [mbind option_bind]. fold D. rewrite E3. replace (10 + zlen C + zlen D - (10 + zlen C)) with (zlen D) by lia. rewrite u32_small by lia.
  rewrite (proj2 (Z.ltb_lt 0 (zlen D))) by lia.
  rewrite (byte_at_app zl (Hd ++ C ++ D) ZIP_END []) by first [etrans; [exact Hz|]; place|rewrite !length_app; lia]. cbn [mbind option_bind].
  change (ZIP_END =? ZIP_END) with true. cbn [negb]. rewrite E2.
  assert (10 + zlen C - prev = 10 + tail_off es1) as Ho.
  { unfold C, prev. destruct es1 as [|e1 es1]; [done|]. rewrite (tail_off_spec 0 (e1 :: es1)) by done. lia. }
  rewrite Ho. assert (set_ZIPLIST_TAIL_OFFSET zl (10 + tail_off es1) = Some (zheader (zlen zl) (10 + tail_off es1) l ++ C ++ D ++ [ZIP_END])) as ->
    by (rewrite Hz at 1; apply set_tail; lia). cbn [mbind option_bind]. rewrite get_bytes by lia. cbn [mbind option_bind].
  rewrite Z.add_0_r, (u32_small (zlen zl - zlen D)) by lia. destruct D as [|x D0] eqn:ED; [cbn in HD; lia|].
  rewrite (resize_cut uninit (zlen zl) (10 + tail_off es1) l C (D0 ++ [ZIP_END]) x); [|done|cbn [chain length] in *; lia|lia]. cbn [mbind option_bind].
  rewrite incr_length_ok by done. cbn [mbind option_bind]. change (0 =? 0) with true. cbn [negb]. eexists. split; [done|].
  apply (make_rep (zlen zl - zlen (x :: D0)) (10 + tail_off es1) _ _ _ _ eq_refl); try done.
  - rewrite !length_app, zheader_length. cbn [chain length] in *. lia.
  - lia.
  - replace (zlen es1) with (zlen (es1 ++ (e :: del) ++ []) - (0 + zlen (e :: del))) by (rewrite !length_app; cbn [length]; lia).
    apply count_decr; [done| |]; rewrite !length_app; cbn [length]; [lia|]. pose proof (entries_fit es1) as Hf1. fold C in Hf1. lia.
Qed.

(** Some entries after the deleted ones stay: the next one gets a new predecessor. *)
Lemma delete_middle zl es1 e del lg s es4 : zl_rep zl (es1 ++ (e :: del) ++ (lg, s) :: es4) -> zlen zl + 4 + 4 * zlen es4 < 2 ^ 32 ->
  exists zl' es4', __ziplistDelete uninit zl (10 + zlen (chain 0 es1)) (1 + zlen del) = Some zl' /\
    zl_rep zl' (es1 ++ (wide (last_size 0 es1), s) :: es4') /\ snd <$> es4' = snd <$> es4.
Proof.
  intros Hr Hb. destruct (delete_parts _ _ _ _ _ Hr) as (l & Hz & HH & Hl & Hlr & Hlen & Hs & Hc1 & Hcd & Hc3 & Hprev & HD & HD6 & Hn).
  set (es := es1 ++ (e :: del) ++ (lg, s) :: es4) in *. set (prev := last_size 0 es1) in *. set (C := chain 0 es1) in *. cbn zeta in *.
  set (Hd := zheader _ _ _) in *. set (D := chain prev (e :: del)) in *. set (q := last_size prev (e :: del)) in *.
  set (B := body s ++ chain (esize (lg, s)) es4). assert (chain q ((lg, s) :: es4) = plen lg q ++ B) as HB by done. rewrite HB in Hz.
  assert (zlen (chain 0 ((lg, s) :: es4)) = psize lg + zlen B) as HBl by (rewrite (chain_length_prev 0 q), HB, length_app, Nat2Z.inj_add, length_plen; done).
  assert (10 + zlen C = zlen (Hd ++ C)) as Hp by (rewrite length_app; lia). unfold __ziplistDelete.
  destruct (first_entry zl (Hd ++ C) e prev (chain (esize e) del ++ plen lg q ++ B ++ [ZIP_END])) as (first & E1 & E2 & E3).
  { etrans; [exact Hz|]. unfold D. cbn [chain app]. rewrite app_nil_r. place. }
  { destruct Hcd as (? & ? & _). by split. }
  rewrite <-Hp in E1, E3. rewrite E1. cbn [mbind option_bind].
  rewrite (skip_ok (e :: del) _ zl (Hd ++ C) prev (chain q ((lg, s) :: es4) ++ [ZIP_END]) ((lg, s) :: es4));
    [|rewrite HB; etrans; [exact Hz|]; place|done|by apply chain_ok_app|done|cbn [length]; lia|left; cbn [length]; lia].
  cbn [mbind option_bind]. fold D. rewrite E3. replace (10 + zlen C + zlen D - (10 + zlen C)) with (zlen D) by lia. rewrite (u32_small (zlen D)) by lia.
  rewrite (proj2 (Z.ltb_lt 0 (zlen D))) by lia. destruct Hc3 as (Hq & Hs3 & Hc4). cbn [fst snd] in Hq, Hs3, Hc4.
  assert (zl = (Hd ++ C ++ D) ++ plen lg q ++ B ++ [ZIP_END]) as Hz1 by (etrans; [exact Hz|]; place).
  assert (10 + zlen C + zlen D = zlen (Hd ++ C ++ D)) as Hp1 by (rewrite !length_app; lia).
  destruct (plen_byte zl _ lg q _ _ Hz1 Hp1 Hq) as (x & -> & Hx). cbn [mbind option_bind]. rewrite Hx. cbn [negb]. rewrite E2.
  rewrite (bytediff_ok zl _ lg q _ _ prev Hz1 Hp1 Hq). cbn [mbind option_bind]. set (w := wide prev).
  remember (psize w - psize lg) as d eqn:Hdd.
  destruct (shifted_segment D lg q (B ++ [ZIP_END]) d) as (X & old & HX & HlX & Hold).
  { subst d. unfold psize. destruct lg, w; lia. }
  { intros Hd4. assert (w = true) as Hw by (unfold psize in Hdd; destruct w, lg; (done || lia)).
    unfold w, wide, ZIP_BIG_PREVLEN in Hw. apply negb_true_iff, Z.ltb_ge in Hw. lia. }
  assert (-4 <= d <= 4) as Hd4 by (subst d; unfold psize; destruct lg, w; lia). assert (psize w = psize lg + d) as Hpw by lia.
  rewrite (store_prevlen_ok _ (Hd ++ C ++ X) old prev (B ++ [ZIP_END])); [|etrans; [exact Hz|]; rewrite <-!app_assoc, HX; place|rewrite !length_app; lia|done|].
  2:{ fold w. pose proof (length_plen w prev) as Hpl. fold (psize w) in Hpl. lia. }
  cbn [mbind option_bind]. fold w. replace (10 + zlen C + zlen D - d) with (10 + zlen C + zlen X) by lia.
  assert (tail_off es = zlen C + (zlen D + tail_off ((lg, s) :: es4))) as Hte.
  { unfold es. rewrite tail_off_app by done. rewrite (tail_off_app (e :: del)) by done. by rewrite (chain_length_prev 0 prev (e :: del)). }
  pose proof (tail_off_bounds ((lg, s) :: es4)) as Htb. rewrite HBl in Htb.
  unfold Hd. rewrite <-!app_assoc. rewrite get_tail by lia. cbn [mbind option_bind]. rewrite set_tail by lia. cbn [mbind option_bind].
  set (O1 := 10 + tail_off es - zlen D). set (W := plen w prev ++ B ++ [ZIP_END]).
  destruct (cascade_cur (zheader (zlen zl) O1 l ++ C ++ X ++ W) (zheader (zlen zl) O1 l ++ C ++ X) w prev s
    (chain (esize (lg, s)) es4 ++ [ZIP_END]) (10 + zlen C + zlen X)) as (_ & (tl & -> & Htl & _) & _);
    [unfold W, B; place|rewrite !length_app, zheader_length; lia|by apply wide_ok|done|]. cbn [mbind option_bind].
  rewrite Htl. pose proof (esize_resized lg w s) as Her. rewrite <-Hdd in Her.
  assert (zlen B = zlen (body s) + zlen (chain 0 es4)) as HBs by (unfold B; rewrite length_app, Nat2Z.inj_add, (chain_length_prev _ 0 es4); done).
  assert (esize (lg, s) = psize lg + zlen (body s)) as Hes by done. assert (1 <= psize lg <= 5) as Hpl5 by (destruct lg; cbn; lia).
  rewrite (u32_small (esize (w, s))) by lia.
  destruct (after_entry (zheader (zlen zl) O1 l ++ C ++ X ++ W) (zheader (zlen zl) O1 l ++ C ++ X) w prev s
    (esize (lg, s)) es4 (10 + zlen C + zlen X)) as (z & -> & Hz2); [unfold W, B; place|rewrite !length_app, zheader_length; lia|done|].
  cbn [mbind option_bind]. rewrite Hz2. set (O2 := 10 + zlen C + tail_off ((w, s) :: es4)).
  pose proof (tail_off_resized lg w s es4) as Htr. rewrite <-Hdd in Htr.
  match goal with |- context [if negb (no_more es4) then ?a else ?b] =>
    assert ((if negb (no_more es4) then a else b) = Some (zheader (zlen zl) O2 l ++ C ++ X ++ W)) as -> end.
  { unfold O1, O2. destruct es4; cbn [negb no_more].
    - do 3 f_equal. lia.
    - rewrite get_tail by lia. cbn [mbind option_bind]. rewrite set_tail by lia. do 3 f_equal. lia. }
  cbn [mbind option_bind]. rewrite get_bytes by lia. cbn [mbind option_bind]. rewrite (u64_small (zlen zl - _ - 1)) by lia.
  set (W0 := plen w prev ++ B). assert (zlen W0 = psize w + zlen B) as HW0 by (unfold W0; rewrite length_app, Nat2Z.inj_add, length_plen; done).
  destruct (memmove_to_front (zheader (zlen zl) O2 l ++ C ++ X ++ W) (zheader (zlen zl) O2 l ++ C) X W0 [ZIP_END] (10 + zlen C) (10 + zlen C + zlen X)
    (zlen zl - (10 + zlen C + zlen X) - 1)) as (Y & -> & HY); [unfold W, W0; place|rewrite length_app, zheader_length; lia|rewrite length_app, zheader_length; lia|lia|].
  cbn [mbind option_bind]. rewrite <-app_assoc, get_bytes by lia. cbn [mbind option_bind]. rewrite (u32_small (zlen zl - zlen D + d)) by lia.
  destruct Y as [|y Y]; [cbn in HY; lia|]. set (T := zlen zl - zlen D + d).
  rewrite (resize_cut uninit (zlen zl) O2 l (C ++ W0) Y y); [|by rewrite <-!app_assoc|rewrite length_app; lia|lia]. cbn [mbind option_bind].
  rewrite incr_length_ok by done. cbn [mbind option_bind]. set (l' := if l <? UINT16_MAX then _ else l).
  destruct (settle uninit C lg w prev s es4 T O2 l' (zheader T O2 l' ++ (C ++ W0) ++ [ZIP_END]) d) as (es4' & Hss & Hok & E & HR);
    [unfold W0, B; place|done|rewrite !length_app, zheader_length; cbn [length]; lia|done|by apply wide_ok|done|done|lia|].
  cbn zeta in E, HR. rewrite E. eexists _, es4'. split; [done|]. split; [|done].
  apply (make_rep _ _ _ _ _ _ eq_refl).
  - rewrite chain_app. cbn [chain fst snd]. fold C prev w. place.
  - rewrite (length_app (zheader _ _ _)), zheader_length. lia.
  - rewrite tail_off_app by done. fold C. lia.
  - apply chain_ok_app. split; [done|]. fold prev. cbn [chain_ok fst snd]. split_and!; [by apply wide_ok|done..].
  - done.
  - assert (zlen (es1 ++ (w, s) :: es4') = zlen es - (0 + zlen (e :: del))) as ->.
    { apply (f_equal length) in Hss. rewrite !length_fmap in Hss. unfold es. rewrite !length_app. cbn [length]. lia. }
    pose proof (entries_fit es1) as Hf1. fold C in Hf1. pose proof (entries_fit ((lg, s) :: es4)) as Hf2.
    apply count_decr; [done|..]; unfold es; rewrite !length_app; cbn [length] in *; lia.
Qed.
End Delete.
