(* ===== verification/ZiplistSpec.v ===== *)
(** * Compact lists: merging, reading, and the list of strings they implement

    Merging two lists, walking in both directions, reading, comparing and searching entries,
    and counting them; then the statements that the operations implement
    those of the list of strings, for every place in the list. *)
From stdpp Require Import prelude list.
From Stdlib Require Import ZArith Lia.
From S2P Require Import Prelude Endianconv Util SdsText Ziplist ZiplistOps.

Local Open Scope Z_scope.
Local Open Scope redis_scope.

Section Merge.
Context `{Host} (uninit : nat -> Z).

Lemma zrealloc_grow zl k : 0 <= k -> exists U, zrealloc uninit zl (zlen zl + k) = zl ++ U /\ zlen U = k.
Proof.
  intros Hk. unfold zrealloc. rewrite take_ge by lia. eexists. split; [done|]. rewrite length_map, length_seq. lia.
Qed.

Lemma count_sum l1 l2 n1 n2 : count_ok l1 n1 -> count_ok l2 n2 -> 0 <= n1 -> 0 <= n2 ->
  count_ok (u16 (if l1 + l2 <? UINT16_MAX then l1 + l2 else UINT16_MAX)) (n1 + n2).
Proof.
  unfold count_ok, UINT16_MAX, u16. intros H1 H2 Hn1 Hn2. destruct (Z.ltb_spec (l1 + l2) 65535); rewrite Z.mod_small by lia; lia.
Qed.

(** The two lists in one block, before the header is updated. *)
Lemma joined first second T1 O1 l1 C1 T2 O2 l2 C2 (append : bool) :
  first = zheader T1 O1 l1 ++ C1 ++ [ZIP_END] -> second = zheader T2 O2 l2 ++ C2 ++ [ZIP_END] -> zlen first < 2 ^ 32 -> zlen second < 2 ^ 32 ->
  let '(target, tb, source, sb) := if append then (first, zlen first, second, zlen second) else (second, zlen second, first, zlen first) in
  exists T O l,
  (if append then
     m ← mread source ZIPLIST_HEADER_SIZE (u64 (sb - ZIPLIST_HEADER_SIZE));
     mwrite (zrealloc uninit target (zlen first + zlen second - ZIPLIST_HEADER_SIZE - ZIPLIST_END_SIZE)) (tb - ZIPLIST_END_SIZE) m
   else
     target ← memmove (zrealloc uninit target (zlen first + zlen second - ZIPLIST_HEADER_SIZE - ZIPLIST_END_SIZE)) (sb - ZIPLIST_END_SIZE) ZIPLIST_HEADER_SIZE (u64 (tb - ZIPLIST_HEADER_SIZE));
     m ← mread source 0 (u64 (sb - ZIPLIST_END_SIZE));
     mwrite target 0 m) = Some (zheader T O l ++ C1 ++ C2 ++ [ZIP_END]).
Proof.
  intros H1 H2 Hs1 Hs2. assert (zlen first = 11 + zlen C1) as L1 by (rewrite H1, !length_app, zheader_length; cbn [length]; lia).
  assert (zlen second = 11 + zlen C2) as L2 by (rewrite H2, !length_app, zheader_length; cbn [length]; lia).
  change ZIPLIST_HEADER_SIZE with 10. change ZIPLIST_END_SIZE with 1. destruct append.
  - exists T1, O1, l1. rewrite u64_small by lia.
    rewrite (mread_at second (zheader T2 O2 l2) (C2 ++ [ZIP_END]) []); [|by rewrite app_nil_r|by rewrite zheader_length|rewrite length_app; cbn [length]; lia].
    cbn [mbind option_bind]. destruct (zrealloc_grow first (zlen C2)) as (U & HU & HUl); [lia|].
    replace (zlen first + zlen second - 10 - 1) with (zlen first + zlen C2) by lia. rewrite HU.
    rewrite (mwrite_at _ (zheader T1 O1 l1 ++ C1) ([ZIP_END] ++ U) (C2 ++ [ZIP_END]) []); [f_equal; rewrite app_nil_r; place| | |].
    + rewrite app_nil_r, H1. place.
    + rewrite length_app, zheader_length. lia.
    + rewrite !length_app. cbn [length]. lia.
  - exists T1, O1, l1. rewrite !u64_small by lia. destruct (zrealloc_grow second (zlen C1)) as (U & HU & HUl); [lia|].
    replace (zlen first + zlen second - 10 - 1) with (zlen second + zlen C1) by lia. rewrite HU. unfold memmove.
    rewrite (mread_at (second ++ U) (zheader T2 O2 l2) (C2 ++ [ZIP_END]) U); [|rewrite H2; place|by rewrite zheader_length|rewrite length_app; cbn [length]; lia].
    cbn [mbind option_bind]. set (buf := second ++ U). set (k := (10 + length C1)%nat). assert (zlen buf = 11 + zlen C1 + zlen C2) as Hb by (unfold buf; rewrite length_app; lia).
    rewrite (mwrite_at buf (take k buf) (drop k buf) (C2 ++ [ZIP_END]) []); [|by rewrite app_nil_r, take_drop|rewrite length_take; lia|rewrite length_drop, length_app; cbn [length]; lia].
    cbn [mbind option_bind]. rewrite (mread_at first [] (zheader T1 O1 l1 ++ C1) [ZIP_END]); [|rewrite H1; place|done|rewrite length_app, zheader_length; lia].
    cbn [mbind option_bind]. rewrite (mwrite_at _ [] (take k buf) (zheader T1 O1 l1 ++ C1) (C2 ++ [ZIP_END])); [f_equal; cbn [app]; place|by rewrite app_nil_r|done|].
    rewrite length_take, length_app, zheader_length. lia.
Qed.

(** The cascade from the end of the first list. *)
Lemma seam es1 es2 l T zl : zl = zheader T (10 + zlen (chain 0 es1) + tail_off es2) l ++ chain 0 es1 ++ chain 0 es2 ++ [ZIP_END] -> T = zlen zl ->
  chain_ok 0 es1 -> chain_ok 0 es2 -> es2 <> [] -> T + 4 * zlen es2 < 2 ^ 32 -> count_ok l (zlen es1 + zlen es2) ->
  exists zl' es2', __ziplistCascadeUpdate uninit zl (10 + tail_off es1) = Some zl' /\ zl_rep zl' (es1 ++ es2') /\ snd <$> es2' = snd <$> es2.
Proof.
  intros Hz HT Hc1 Hc2 Hne Hb Hl. destruct (decide (es1 = [])) as [->|Hne1].
  - destruct es2 as [|[lg s] es]; [done|]. pose proof Hc2 as (Hn & Hs & Hc). cbn [fst snd] in *.
    destruct (update_ok uninit [] lg 0 s (esize (lg, s)) es T (10 + 0 + tail_off ((lg, s) :: es)) l zl) as (es' & Hss & Hok & E & HR);
      [rewrite Hz; cbn [chain app fst snd]; place|done|done|done|done|done|cbn [length] in Hb; lia|]. cbn zeta in E, HR.
    eexists _, ((lg, s) :: es'). split; [exact E|]. split; [|cbn; by rewrite Hss]. apply (make_rep _ _ _ _ _ _ eq_refl).
    + cbn [chain app fst snd]. place.
    + rewrite (length_app (zheader _ _ _)), zheader_length. lia.
    + cbn [length app]. lia.
    + by split_and!.
    + cbn [length] in Hb. lia.
    + apply (f_equal length) in Hss. rewrite !length_fmap in Hss. cbn [app length] in *. by rewrite Hss.
  - destruct (tail_entry es1 Hne1) as (es0 & [lg s] & -> & Ht & Hls & Hch). cbn [fst snd] in Hch.
    pose proof Hc1 as (Hc0 & Hn & Hs & _)%chain_ok_app. cbn [fst snd] in Hn, Hs. set (prev := last_size 0 es0) in *.
    destruct (update_ok uninit (chain 0 es0) lg prev s 0 es2 T (10 + zlen (chain 0 (es0 ++ [(lg, s)])) + tail_off es2) l zl) as (es2' & Hss & Hok & E & HR);
      [rewrite Hz, Hch; place|done| |done|done|done|done|].
    { rewrite Hch, length_app, Nat2Z.inj_add, esize_length, tail_off_cons by done. lia. }
    cbn zeta in E, HR. rewrite Ht. eexists _, es2'. split; [exact E|]. split; [|done]. apply (make_rep _ _ _ _ _ _ eq_refl).
    + rewrite !chain_app, !last_size_app. cbn [chain last_size fst snd]. fold prev. rewrite app_nil_r. place.
    + rewrite (length_app (zheader _ _ _)), zheader_length. lia.
    + assert (es2' <> []) as Hne2 by (intros ->; destruct es2; [done|discriminate Hss]).
      rewrite <-app_assoc, tail_off_app by done. cbn [app]. lia.
    + apply chain_ok_app. split; [done|]. by rewrite Hls.
    + lia.
    + apply (f_equal length) in Hss. rewrite !length_fmap in Hss. rewrite length_app, Hss, Nat2Z.inj_add. done.
Qed.
End Merge.

(** ** Reading *)

(** The offset of the entry with a number, or of the end mark. *)
Definition offset (es : list entry) (k : nat) : Z := 10 + zlen (chain 0 (take k es)).
Definition prev_size (es : list entry) (k : nat) : Z := last_size 0 (take k es).

Section Read.
Context `{Host}.

Lemma offset_S es k lg s : es !! k = Some (lg, s) -> offset es (S k) = offset es k + esize (lg, s).
Proof.
  intros Hk. unfold offset. erewrite take_S_r by done. rewrite chain_app, length_app. cbn [chain fst snd]. rewrite app_nil_r, Nat2Z.inj_add, esize_length. lia.
Qed.
Lemma prev_size_S es k e : es !! k = Some e -> prev_size es (S k) = esize e.
Proof. intros Hk. unfold prev_size. erewrite take_S_r by done. by rewrite last_size_app. Qed.

Lemma at_entry zl es k lg s : zl_rep zl es -> es !! k = Some (lg, s) ->
  exists A, zl = A ++ (plen lg (prev_size es k) ++ body s) ++ chain (esize (lg, s)) (drop (S k) es) ++ [ZIP_END] /\ offset es k = zlen A /\
    plen_ok lg (prev_size es k) /\ str_fits s /\ chain_ok (esize (lg, s)) (drop (S k) es).
Proof.
  intros Hr Hk. destruct (rep_parts zl es Hr) as (l & Hz & _ & _ & _ & Hc & _). pose proof (take_drop_middle es k _ Hk) as Hes.
  assert (chain 0 es = chain 0 (take k es) ++ (plen lg (prev_size es k) ++ body s) ++ chain (esize (lg, s)) (drop (S k) es)) as Hch.
  { rewrite <-Hes at 1. rewrite chain_app. cbn [chain fst snd]. unfold prev_size. place. }
  rewrite <-Hes in Hc. apply chain_ok_app in Hc as (Hc1 & Hn & Hs & Hc2). cbn [fst snd] in Hn, Hs, Hc2.
  exists (zheader (zlen zl) (10 + tail_off es) l ++ chain 0 (take k es)). split_and!; [|unfold offset; rewrite length_app, zheader_length; lia|exact Hn|done|done].
  etrans; [exact Hz|]. rewrite Hch. place.
Qed.
Lemma at_end zl es : zl_rep zl es -> byte_at zl (offset es (length es)) = Some ZIP_END /\ offset es (length es) = zlen zl - 1.
Proof.
  intros Hr. destruct (rep_parts zl es Hr) as (l & Hz & _ & Hlen & _). unfold offset. rewrite take_ge by lia. split; [|lia].
  apply (byte_at_app zl (zheader (zlen zl) (10 + tail_off es) l ++ chain 0 es) ZIP_END []); [etrans; [exact Hz|]; place|rewrite length_app, zheader_length; lia].
Qed.

(** What the decoders give at an entry. *)
Lemma entry_reads zl es k lg s : zl_rep zl es -> es !! k = Some (lg, s) ->
  (exists x, byte_at zl (offset es k) = Some x /\ (x =? ZIP_END) = false) /\
  zipRawEntryLength zl (offset es k) = Some (esize (lg, s)) /\
  (exists c, ZIP_DECODE_PREVLEN zl (offset es k) = Some (c, prev_size es k)) /\
  (exists cur, zipEntry zl (offset es k) = Some cur /\ encoding cur = enc_of s /\ headersize cur = zlen (plen lg (prev_size es k)) + zlen (hdr_of s) /\ len cur = zlen (data_of s)) /\
  ZIP_DECODE_PREVLENSIZE zl (offset es k) = Some (zlen (plen lg (prev_size es k))) /\
  ZIP_DECODE_LENGTH zl (offset es k + zlen (plen lg (prev_size es k))) = Some (enc_of s, zlen (hdr_of s), zlen (data_of s)).
Proof.
  intros Hr Hk. destruct (at_entry zl es k lg s Hr Hk) as (A & Hz & Ho & Hn & Hs & _). rewrite Ho.
  destruct (cascade_cur zl A lg (prev_size es k) s _ (zlen A) Hz eq_refl Hn Hs) as (Hb & (cur & Ec & _ & _ & _ & E1 & E2 & E3 & _) & Hraw).
  rewrite <-app_assoc in Hz. destruct (prevlen_ok zl A lg (prev_size es k) _ (zlen A) Hz eq_refl Hn) as [Hps Hp].
  split_and!; [done|done|by eexists|by exists cur|done|]. apply (decode_ok _ (A ++ plen lg (prev_size es k)) s (data_of s ++ chain (esize (lg, s)) (drop (S k) es) ++ [ZIP_END]));
    [etrans; [exact Hz|]; unfold body; place|place|done].
Qed.
(** The data of an entry. *)
Lemma entry_data zl es k lg s : zl_rep zl es -> es !! k = Some (lg, s) ->
  exists A B, zl = A ++ data_of s ++ B /\ zlen A = offset es k + zlen (plen lg (prev_size es k)) + zlen (hdr_of s).
Proof.
  intros Hr Hk. destruct (at_entry zl es k lg s Hr Hk) as (A & Hz & Ho & _). rewrite Ho.
  exists (A ++ plen lg (prev_size es k) ++ hdr_of s), (chain (esize (lg, s)) (drop (S k) es) ++ [ZIP_END]).
  split; [etrans; [exact Hz|]; unfold body; place|rewrite !length_app; lia].
Qed.

Lemma rep_count zl es : zl_rep zl es -> 2 * zlen es + 11 <= zlen zl.
Proof.
  intros Hr. destruct (rep_parts zl es Hr) as (l & _ & _ & -> & _). rewrite chain_length. clear. induction es as [|e es IH]; [done|].
  cbn [foldr length]. pose proof (esize_pos e). lia.
Qed.

Lemma forward_ok zl es : zl_rep zl es -> forall fuel j i, (length es - j < fuel)%nat -> (j <= length es)%nat -> 0 <= i ->
  index_forward fuel zl (offset es j) i =
    Some (if Z.of_nat j + i <? zlen es then (offset es (j + Z.to_nat i), -1) else (offset es (length es), i - (zlen es - Z.of_nat j))).
Proof.
  intros Hr. induction fuel as [|fuel IH]; intros j i Hf Hj Hi; [lia|]. cbn [index_forward]. destruct (es !! j) as [[lg s]|] eqn:Hk.
  - destruct (entry_reads zl es j lg s Hr Hk) as ((x & -> & Hx) & -> & _). cbn [mbind option_bind]. rewrite Hx. cbn [negb].
    apply lookup_lt_Some in Hk as Hlt. destruct (Z.eqb_spec i 0) as [->|Hi0]; cbn [negb].
    + rewrite (proj2 (Z.ltb_lt _ _)) by lia. by rewrite Nat.add_0_r.
    + rewrite <-(offset_S es j lg s Hk), IH by lia. destruct (Z.ltb_spec (Z.of_nat (S j) + (i - 1)) (zlen es)), (Z.ltb_spec (Z.of_nat j + i) (zlen es)); try lia.
      * by replace (S j + Z.to_nat (i - 1))%nat with (j + Z.to_nat i)%nat by lia.
      * do 2 f_equal. lia.
  - apply lookup_ge_None in Hk. assert (j = length es) as -> by lia. destruct (at_end zl es Hr) as [-> _]. cbn [mbind option_bind].
    change (ZIP_END =? ZIP_END) with true. cbn [negb]. rewrite (proj2 (Z.ltb_ge _ _)) by lia. do 2 f_equal. lia.
Qed.

Lemma prev_size_pos es k : chain_ok 0 es -> (k <= length es)%nat -> 0 <= prev_size es k /\ ((0 < k)%nat -> 2 <= prev_size es k) /\ prev_size es 0 = 0.
Proof.
  intros Hc Hk. unfold prev_size. rewrite <-(take_drop k es) in Hc. apply chain_ok_app in Hc as [Hc _].
  destruct (last_size_range (take k es) 0 Hc) as [H1 H2]; [done|]. split_and!; [done| |done]. intros H0. apply H2. intros Hn. apply (f_equal length) in Hn. rewrite length_take in Hn. cbn [length] in Hn. lia.
Qed.

Lemma back_ok zl es : zl_rep zl es -> forall j fuel i, (j < fuel)%nat -> (j < length es)%nat -> 0 <= i ->
  index_back fuel zl (offset es j) (prev_size es j) i = Some (if i <? Z.of_nat j then (offset es (j - Z.to_nat i), -1) else (offset es 0, i - Z.of_nat j)).
Proof.
  intros Hr. pose proof (rep_chain _ _ Hr) as Hc. induction j as [|j IH]; intros fuel i Hf Hj Hi; (destruct fuel as [|fuel]; [lia|]); cbn [index_back].
  - rewrite (proj2 (Z.ltb_ge i (Z.of_nat 0))) by lia. change (0 <? prev_size es 0) with false. cbv iota. do 2 f_equal. lia.
  - destruct (prev_size_pos es (S j) Hc) as (_ & Hp & _); [lia|]. specialize (Hp ltac:(lia)). rewrite (proj2 (Z.ltb_lt 0 _)) by lia.
    destruct (Z.eqb_spec i 0) as [->|Hi0]; cbn [negb].
    + rewrite (proj2 (Z.ltb_lt _ _)) by lia. by rewrite Nat.sub_0_r.
    + destruct (lookup_lt_is_Some_2 es j) as [[lg s] Hk]; [lia|]. rewrite (offset_S es j lg s Hk), (prev_size_S es j _ Hk).
      replace (offset es j + esize (lg, s) - esize (lg, s)) with (offset es j) by lia.
      destruct (entry_reads zl es j lg s Hr Hk) as (_ & _ & (c & ->) & _). cbn [mbind option_bind]. rewrite IH by lia.
      destruct (Z.ltb_spec (i - 1) (Z.of_nat j)), (Z.ltb_spec i (Z.of_nat (S j))); try lia.
      * by replace (j - Z.to_nat (i - 1))%nat with (S j - Z.to_nat i)%nat by lia.
      * do 2 f_equal. lia.
Qed.

Lemma tail_offset es : es <> [] -> 10 + tail_off es = offset es (length es - 1).
Proof.
  intros Hne. destruct (tail_entry es Hne) as (es0 & e & -> & Ht & _). rewrite Ht. unfold offset. rewrite length_app. cbn [length].
  replace (length es0 + 1 - 1)%nat with (length es0) by lia. by rewrite take_app_length.
Qed.
Lemma get_tail_rep zl es : zl_rep zl es -> ZIPLIST_TAIL_OFFSET zl = Some (10 + tail_off es).
Proof.
  intros Hr. destruct (rep_parts zl es Hr) as (l & Hz & _ & Hlen & _ & _ & Hs & _). pose proof (tail_off_bounds es) as Htb.
  rewrite Hz at 1. apply get_tail. lia.
Qed.

Lemma index_ok zl es i : zl_rep zl es -> INT32_MIN < i ->
  ziplistIndex zl i = Some (let k := if i <? 0 then zlen es + i else i in if (0 <=? k) && (k <? zlen es) then Some (offset es (Z.to_nat k)) else None).
Proof.
  intros Hr Hi. pose proof (rep_count zl es Hr) as Hcnt. unfold ziplistIndex.
  destruct (at_end zl es Hr) as [Hend _].
  assert (forall k, (k < length es)%nat -> exists x, byte_at zl (offset es k) = Some x /\ (x =? ZIP_END) = false) as Hentry.
  { intros k Hk. destruct (lookup_lt_is_Some_2 es k Hk) as [[lg s] Hl]. by destruct (entry_reads zl es k lg s Hr Hl) as (? & _). }
  destruct (Z.ltb_spec i 0) as [Hneg|Hpos].
  - rewrite (proj2 (Z.ltb_lt _ _) Hi). cbv iota zeta. unfold ZIPLIST_ENTRY_TAIL.
    rewrite (get_tail_rep zl es Hr). cbn [mbind option_bind]. destruct (decide (es = [])) as [->|Hne].
    + change (10 + tail_off []) with (offset [] (length (A := entry) [])). rewrite Hend. cbn [mbind option_bind]. change (ZIP_END =? ZIP_END) with true. cbn [negb].
      cbn [mbind option_bind]. rewrite Hend. cbn [mbind option_bind]. change (ZIP_END =? ZIP_END) with true. cbn [length orb].
      rewrite (proj2 (Z.leb_gt 0 _)) by lia. done.
    + assert (0 < length es)%nat as Hl0 by (destruct es; [done|cbn; lia]).
      rewrite tail_offset by done. destruct (lookup_lt_is_Some_2 es (length es - 1)) as [[lg s] Hk]; [lia|].
      destruct (entry_reads zl es _ lg s Hr Hk) as ((x & -> & Hx) & _ & (c & ->) & _). cbn [mbind option_bind]. rewrite Hx. cbn [negb mbind option_bind].
      rewrite (back_ok zl es Hr) by lia. cbn [mbind option_bind]. destruct (Z.ltb_spec (- i - 1) (Z.of_nat (length es - 1))) as [Hlt|Hge].
      * destruct (Hentry (length es - 1 - Z.to_nat (- i - 1))%nat) as (y & -> & Hy); [lia|]. cbn [mbind option_bind]. rewrite Hy. cbn [orb].
        change (0 <? -1) with false. cbv iota. rewrite (proj2 (Z.leb_le 0 _)), (proj2 (Z.ltb_lt (zlen es + i) _)) by lia. cbn [andb]. do 3 f_equal. lia.
      * destruct (Hentry 0%nat) as (y & -> & Hy); [lia|]. cbn [mbind option_bind]. rewrite Hy. cbn [orb].
        destruct (Z.ltb_spec 0 (- i - 1 - Z.of_nat (length es - 1))), (Z.leb_spec 0 (zlen es + i)); try lia; [done|].
        rewrite (proj2 (Z.ltb_lt (zlen es + i) _)) by lia. cbn [andb]. do 3 f_equal. lia.
  - change ZIPLIST_ENTRY_HEAD with (offset es 0). rewrite (forward_ok zl es Hr) by lia. cbn [mbind option_bind]. rewrite (proj2 (Z.leb_le 0 i)) by lia. cbn [andb].
    change (Z.of_nat 0 + i) with (0 + i). rewrite Z.add_0_l. destruct (Z.ltb_spec i (zlen es)) as [Hlt|Hge]; cbn [mbind option_bind].
    + destruct (Hentry (0 + Z.to_nat i)%nat) as (y & -> & Hy); [lia|]. cbn [mbind option_bind]. by rewrite Hy.
    + rewrite Hend. done.
Qed.

Lemma zl_next_ok zl es k : zl_rep zl es -> (k <= length es)%nat ->
  ziplistNext zl (offset es k) = Some (if (S k <? length es)%nat then Some (offset es (S k)) else None).
Proof.
  intros Hr Hk. unfold ziplistNext. destruct (at_end zl es Hr) as [Hend _]. destruct (es !! k) as [[lg s]|] eqn:Hl.
  - destruct (entry_reads zl es k lg s Hr Hl) as ((x & -> & Hx) & -> & _). cbn [mbind option_bind]. rewrite Hx, <-(offset_S es k lg s Hl). cbn [mbind option_bind].
    apply lookup_lt_Some in Hl. destruct (Nat.ltb_spec (S k) (length es)) as [Hlt|Hge].
    + destruct (lookup_lt_is_Some_2 es (S k) Hlt) as [[lg' s'] Hl']. destruct (entry_reads zl es (S k) lg' s' Hr Hl') as ((y & -> & Hy) & _). cbn [mbind option_bind]. by rewrite Hy.
    + replace (S k) with (length es) by lia. by rewrite Hend.
  - apply lookup_ge_None in Hl. assert (k = length es) as -> by lia. rewrite Hend. cbn [mbind option_bind]. change (ZIP_END =? ZIP_END) with true. cbv iota.
    by rewrite (proj2 (Nat.ltb_ge _ _)) by lia.
Qed.

Lemma prev_ok zl es k : zl_rep zl es -> (k <= length es)%nat ->
  ziplistPrev zl (offset es k) = Some (match k with O => None | S k => Some (offset es k) end).
Proof.
  intros Hr Hk. unfold ziplistPrev. destruct (at_end zl es Hr) as [Hend _]. pose proof (rep_chain _ _ Hr) as Hc. destruct (es !! k) as [[lg s]|] eqn:Hl.
  - destruct (entry_reads zl es k lg s Hr Hl) as ((x & -> & Hx) & _ & (c & Hdec) & _). cbn [mbind option_bind]. rewrite Hx. destruct k as [|k].
    + change (offset es 0 =? ZIPLIST_ENTRY_HEAD) with true. done.
    + destruct (prev_size_pos es (S k) Hc) as (_ & Hp & _); [lia|]. specialize (Hp ltac:(lia)).
      destruct (lookup_lt_is_Some_2 es k) as [[lg' s'] Hl']; [lia|]. rewrite (offset_S es k lg' s' Hl') in *. rewrite (prev_size_S es k _ Hl') in *.
      pose proof (Zle_0_nat (length (chain 0 (take k es)))). rewrite (proj2 (Z.eqb_neq _ _)) by (unfold offset; change ZIPLIST_ENTRY_HEAD with 10; lia).
      rewrite Hdec. cbn [mbind option_bind]. rewrite (proj2 (Z.ltb_lt 0 _)) by lia. do 2 f_equal. lia.
  - apply lookup_ge_None in Hl. assert (k = length es) as -> by lia. rewrite Hend. cbn [mbind option_bind]. change (ZIP_END =? ZIP_END) with true. cbv iota.
    unfold ZIPLIST_ENTRY_TAIL. rewrite (get_tail_rep zl es Hr). cbn [mbind option_bind]. destruct es as [|e es].
    + change (10 + tail_off []) with (offset [] (length (A := entry) [])). by rewrite Hend.
    + rewrite tail_offset by done. cbn [length] in *. replace (S (length es) - 1)%nat with (length es) by lia.
      destruct (lookup_lt_is_Some_2 (e :: es) (length es)) as [[lg' s'] Hl']; [cbn; lia|].
      destruct (entry_reads zl _ _ lg' s' Hr Hl') as ((y & -> & Hy) & _). cbn [mbind option_bind]. by rewrite Hy.
Qed.

(** What is read of a string: an integer in place of its notation. *)
Definition value_of (s : list Z) : list Z + Z := match zipTryEncoding s with Some (v, _) => inr v | None => inl s end.
Definition notation (r : list Z + Z) : list Z := match r with inl s => s | inr v => decimal v end.
Lemma notation_value s : notation (value_of s) = s.
Proof. unfold value_of. destruct (zipTryEncoding s) as [[v e]|] eqn:Ht; [|done]. by apply try_ok in Ht as [_ ->]. Qed.

Lemma zl_load_entry zl es k lg s v e : zl_rep zl es -> es !! k = Some (lg, s) -> zipTryEncoding s = Some (v, e) ->
  zipLoadInteger zl (offset es k + zlen (plen lg (prev_size es k)) + zlen (hdr_of s)) e = Some v.
Proof.
  intros Hr Hk Ht. destruct (entry_data zl es k lg s Hr Hk) as (A & B & Hz & Ha). unfold data_of in Hz. rewrite Ht in Hz.
  eapply (load_int_ok zl A v e B); [exact Hz|done|by apply try_ok in Ht as [? _]].
Qed.
Lemma read_entry zl es k lg s : zl_rep zl es -> es !! k = Some (lg, s) -> zipTryEncoding s = None ->
  mread zl (offset es k + zlen (plen lg (prev_size es k)) + zlen (hdr_of s)) (zlen s) = Some s.
Proof.
  intros Hr Hk Ht. destruct (entry_data zl es k lg s Hr Hk) as (A & B & Hz & Ha). unfold data_of in Hz. rewrite Ht in Hz. by apply (mread_at zl A s B).
Qed.

Lemma get_ok zl es k : zl_rep zl es -> (k <= length es)%nat -> ziplistGet zl (Some (offset es k)) = Some (value_of <$> (snd <$> es) !! k).
Proof.
  intros Hr Hk. unfold ziplistGet. rewrite list_lookup_fmap. destruct (es !! k) as [[lg s]|] eqn:Hl.
  - destruct (entry_reads zl es k lg s Hr Hl) as ((x & -> & Hx) & _ & _ & (cur & -> & E1 & E2 & E3) & _). cbn [mbind option_bind fmap option_fmap option_map snd].
    rewrite Hx, E1, E2, E3, is_str_enc, Z.add_assoc. unfold value_of. destruct (zipTryEncoding s) as [[v e]|] eqn:Ht.
    + unfold enc_of. rewrite Ht. by rewrite (zl_load_entry zl es k lg s v e).
    + unfold data_of. rewrite Ht. by rewrite (read_entry zl es k lg s).
  - apply lookup_ge_None in Hl. assert (k = length es) as -> by lia. destruct (at_end zl es Hr) as [-> _]. done.
Qed.

(** Comparing with an entry, as both ziplistCompare and ziplistFind do it. *)
Definition same_entry (zl : list Z) (q enc l : Z) (sstr : list Z) : option bool :=
  if ZIP_IS_STR enc then (if l =? zlen sstr then m ← mread zl q (zlen sstr); Some (bool_decide (m = sstr)) else Some false)
  else match zipTryEncoding sstr with Some (sval, _) => zval ← zipLoadInteger zl q enc; Some (zval =? sval) | None => Some false end.
Lemma same_entry_ok zl es k lg s sstr : zl_rep zl es -> es !! k = Some (lg, s) ->
  same_entry zl (offset es k + zlen (plen lg (prev_size es k)) + zlen (hdr_of s)) (enc_of s) (zlen (data_of s)) sstr = Some (bool_decide (s = sstr)).
Proof.
  intros Hr Hk. unfold same_entry. rewrite is_str_enc. destruct (zipTryEncoding s) as [[v e]|] eqn:Ht.
  - unfold enc_of. rewrite Ht. pose proof (zl_load_entry zl es k lg s v e Hr Hk Ht) as Hld. apply try_ok in Ht as Hs. destruct Hs as [_ Hs].
    destruct (zipTryEncoding sstr) as [[w e']|] eqn:Hw; cbn [mbind option_bind].
    + rewrite Hld. cbn [mbind option_bind]. f_equal. apply try_ok in Hw as Hs'. destruct Hs' as [_ Hs'].
      destruct (Z.eqb_spec v w) as [Hvw|Hvw]; symmetry; [apply bool_decide_eq_true; congruence|apply bool_decide_eq_false]. intros Hss. congruence.
    + f_equal. symmetry. apply bool_decide_eq_false. congruence.
  - unfold data_of. rewrite Ht. destruct (Z.eqb_spec (zlen s) (zlen sstr)) as [He|He].
    + rewrite <-He. by rewrite (read_entry zl es k lg s).
    + f_equal. symmetry. apply bool_decide_eq_false. congruence.
Qed.

Lemma compare_ok zl es k sstr : zl_rep zl es -> (k <= length es)%nat -> ziplistCompare zl (offset es k) sstr = Some (bool_decide ((snd <$> es) !! k = Some sstr)).
Proof.
  intros Hr Hk. unfold ziplistCompare. rewrite list_lookup_fmap. destruct (es !! k) as [[lg s]|] eqn:Hl.
  - destruct (entry_reads zl es k lg s Hr Hl) as ((x & -> & Hx) & _ & _ & (cur & -> & E1 & E2 & E3) & _). cbn [mbind option_bind fmap option_fmap option_map snd].
    rewrite Hx, E1, E2, E3, Z.add_assoc. etrans; [exact (same_entry_ok zl es k lg s sstr Hr Hl)|]. f_equal. apply bool_decide_ext. split; congruence.
  - apply lookup_ge_None in Hl. assert (k = length es) as -> by lia. destruct (at_end zl es Hr) as [-> _]. done.
Qed.

(** The first string equal to v, of those that are looked at. *)
Fixpoint search (v : list Z) (skip skipcnt : Z) (ss : list (list Z)) : option nat :=
  match ss with
  | [] => None
  | s :: ss =>
    if skipcnt =? 0 then (if bool_decide (s = v) then Some O else S <$> search v skip skip ss)
    else S <$> search v skip (skipcnt - 1) ss
  end.
(** What is remembered of the encoding of the string that is searched. *)
Definition memo_ok (v : list Z) (venc vll : Z) : Prop :=
  venc = 0 \/ (venc = UCHAR_MAX /\ zipTryEncoding v = None) \/ zipTryEncoding v = Some (vll, venc).

Lemma memo_ready v venc vll venc' vll' : memo_ok v venc vll ->
  (if venc =? 0 then match zipTryEncoding v with Some r => r | None => (vll, UCHAR_MAX) end else (vll, venc)) = (vll', venc') ->
  (venc' =? 0) = false /\ memo_ok v venc' vll' /\
  forall zl q enc l, ZIP_IS_STR enc = false ->
    (if negb (venc' =? UCHAR_MAX) then ll ← zipLoadInteger zl q enc; Some (ll =? vll') else Some false) = same_entry zl q enc l v.
Proof.
  intros Hm He. assert ((venc' = UCHAR_MAX /\ zipTryEncoding v = None) \/ zipTryEncoding v = Some (vll', venc')) as Hv.
  { destruct (Z.eqb_spec venc 0) as [->|H0]; [destruct (zipTryEncoding v) as [[w e]|]; [right; congruence|left; by simplify_eq]|].
    simplify_eq. by destruct Hm as [|Hm]. }
  unfold same_entry. destruct Hv as [[-> Hv]|Hv].
  - split_and!; [done|right; by left|]. intros zl q enc l ->. by rewrite Hv.
  - pose proof (try_ok _ _ _ Hv) as [Hi%int_enc_range _]. split_and!; [apply Z.eqb_neq; lia|by right; right|]. intros zl q enc l ->. rewrite Hv.
    unfold UCHAR_MAX. by rewrite (proj2 (Z.eqb_neq _ _)) by lia.
Qed.

Lemma find_ok zl es v skip : zl_rep zl es -> forall fuel k skipcnt venc vll,
  (length es - k < fuel)%nat -> (k <= length es)%nat -> memo_ok v venc vll ->
  find_loop fuel zl (offset es k) v skip skipcnt venc vll = Some ((fun i => offset es (k + i)) <$> search v skip skipcnt (drop k (snd <$> es))).
Proof.
  intros Hr. induction fuel as [|fuel IH]; intros k skipcnt venc vll Hf Hk Hm; [lia|]. cbn [find_loop]. destruct (es !! k) as [[lg s]|] eqn:Hl.
  - destruct (entry_reads zl es k lg s Hr Hl) as ((x & -> & Hx) & _ & _ & _ & -> & Hdec). cbn [mbind option_bind]. rewrite Hx. rewrite Hdec. cbn [mbind option_bind].
    apply lookup_lt_Some in Hl as Hlt. rewrite (drop_S (snd <$> es) s k) by (rewrite list_lookup_fmap, Hl; done). cbn [search].
    replace (offset es k + zlen (plen lg (prev_size es k)) + zlen (hdr_of s) + zlen (data_of s)) with (offset es (S k))
      by (rewrite (offset_S es k lg s Hl); unfold esize; cbn [fst snd]; rewrite length_plen, body_length; lia).
    assert (forall c e l, memo_ok v e l -> find_loop fuel zl (offset es (S k)) v skip c e l =
      Some ((fun i => offset es (k + i)) <$> (S <$> search v skip c (drop (S k) (snd <$> es))))) as Hrec.
    { intros c e l Hml. rewrite IH by (done || lia). f_equal. rewrite <-option_fmap_compose. apply option_fmap_ext. intros i. cbn. by rewrite Nat.add_succ_r. }
    destruct (Z.eqb_spec skipcnt 0) as [->|Hsk]; [|by apply Hrec].
    pose proof (same_entry_ok zl es k lg s v Hr Hl) as Hsame. destruct (ZIP_IS_STR (enc_of s)) eqn:Hstr.
    + unfold same_entry in Hsame. rewrite Hstr in Hsame. rewrite Hsame. cbn [mbind option_bind]. case_bool_decide; [|by apply Hrec].
      cbn. by rewrite Nat.add_0_r.
    + destruct (if venc =? 0 then _ else _) as [vll' venc'] eqn:He. destruct (memo_ready v venc vll venc' vll' Hm He) as (-> & Hm' & Hq). cbn [negb].
      rewrite (Hq _ _ _ (zlen (data_of s)) Hstr), Hsame. cbn [mbind option_bind]. case_bool_decide; [|by apply Hrec]. cbn. by rewrite Nat.add_0_r.
  - apply lookup_ge_None in Hl. assert (k = length es) as -> by lia. destruct (at_end zl es Hr) as [-> _]. cbn [mbind option_bind]. change (ZIP_END =? ZIP_END) with true. cbv iota.
    by rewrite drop_ge by (rewrite length_fmap; lia).
Qed.

Lemma count_entries_ok zl es : zl_rep zl es -> forall fuel j, (length es - j < fuel)%nat -> (j <= length es)%nat ->
  count_entries fuel zl (offset es j) (Z.of_nat j) = Some (zlen es).
Proof.
  intros Hr. pose proof (rep_count zl es Hr) as Hcnt. pose proof (rep_size _ _ Hr) as Hs.
  induction fuel as [|fuel IH]; intros j Hf Hj; [lia|]. cbn [count_entries]. destruct (es !! j) as [[lg s]|] eqn:Hl.
  - destruct (entry_reads zl es j lg s Hr Hl) as ((x & -> & Hx) & -> & _). cbn [mbind option_bind]. rewrite Hx. cbn [negb]. apply lookup_lt_Some in Hl as Hlt.
    rewrite <-(offset_S es j lg s Hl), u32_small by lia. replace (Z.of_nat j + 1) with (Z.of_nat (S j)) by lia. apply IH; lia.
  - apply lookup_ge_None in Hl. assert (j = length es) as -> by lia. destruct (at_end zl es Hr) as [-> _]. done.
Qed.

Lemma len_ok zl es : zl_rep zl es -> exists zl', ziplistLen zl = Some (zlen es, zl') /\ zl_rep zl' es /\ length zl' = length zl.
Proof.
  intros Hr. pose proof (rep_count zl es Hr) as Hcnt. destruct (rep_parts zl es Hr) as (l & Hz & Hl & Hlen & Hlr & Hc & Hs & _). unfold ziplistLen.
  assert (ZIPLIST_LENGTH zl = Some l) as -> by (rewrite Hz; by apply get_length). cbn [mbind option_bind]. destruct (Z.ltb_spec l UINT16_MAX) as [Hlt|Hge].
  - destruct Hl as [Hl|[-> _]]; [lia|]. by exists zl.
  - assert (count_entries (length zl) zl ZIPLIST_HEADER_SIZE 0 = Some (zlen es)) as -> by (apply (count_entries_ok zl es Hr _ 0%nat); lia). cbn [mbind option_bind].
    destruct (Z.ltb_spec (zlen es) UINT16_MAX) as [Hn|Hn]; [|by exists zl].
    assert (set_ZIPLIST_LENGTH zl (zlen es) = Some (zheader (zlen zl) (10 + tail_off es) (zlen es) ++ chain 0 es ++ [ZIP_END])) as ->.
    { rewrite Hz at 1. rewrite set_length. unfold u16, UINT16_MAX in *. by rewrite Z.mod_small by lia. }
    cbn [mbind option_bind]. eexists. split; [done|]. assert (zlen (zheader (zlen zl) (10 + tail_off es) (zlen es) ++ chain 0 es ++ [ZIP_END]) = zlen zl) as Hzl.
    { rewrite !length_app, zheader_length. cbn [length]. lia. }
    split; [|lia]. apply (make_rep _ _ _ _ _ _ eq_refl); try done. right. split; [done|lia].
Qed.
End Read.

(** ** The operations on the list of strings *)

Abbreviation strings es := (snd <$> es).
(** The room an insertion may need: the entry, and four bytes for every size that may have to
    be stored in the long form. *)
Definition room (zl : list Z) (es : list entry) (extra : Z) : Prop := zlen zl + extra + 22 + 4 * zlen es < 2 ^ 32.

Section Correct.
Context `{Host} (uninit : nat -> Z).

Lemma new_ok : exists zl, ziplistNew uninit = Some zl /\ zl_rep zl [].
Proof.
  unfold ziplistNew. change (ZIPLIST_HEADER_SIZE + ZIPLIST_END_SIZE) with 11. change ZIPLIST_HEADER_SIZE with 10. unfold zrealloc.
  rewrite take_nil. cbn [app length seq Z.to_nat Pos.to_nat Pos.iter_op Nat.add Nat.sub map].
  set (u := uninit). unfold set_ZIPLIST_BYTES, set_ZIPLIST_TAIL_OFFSET. rewrite !u32_small by lia.
  destruct (stored32ifbe 11) as (w1 & -> & H1). destruct (stored32ifbe 10) as (w2 & -> & H2). cbn [mbind option_bind]. rewrite H1, H2.
  assert (host_store 2 0 = le_bytes 2 0) as -> by (unfold host_store; by destruct big_endian).
  eexists. split; [vm_compute; reflexivity|]. apply (make_rep 11 10 0 [ZIP_END] _ [] eq_refl); try done. right. unfold UINT16_MAX. cbn. lia.
Qed.

Lemma offset_app es1 es2 k : (k <= length es1)%nat -> offset (es1 ++ es2) k = offset es1 k.
Proof. intros Hk. unfold offset. by rewrite take_app_le. Qed.

Lemma insert_at zl es k s : zl_rep zl es -> (k <= length es)%nat -> str_fits s -> room zl es (zlen s) ->
  exists zl' es', __ziplistInsert uninit zl (offset es k) s = Some zl' /\ zl_rep zl' es' /\
    strings es' = take k (strings es) ++ s :: drop k (strings es) /\ offset es' k = offset es k.
Proof.
  intros Hr Hk Hs Hb. unfold room in Hb. destruct (drop k es) as [|[lg s2] es2] eqn:Hd.
  - assert (k = length es) as -> by (apply (f_equal length) in Hd; rewrite length_drop in Hd; cbn in Hd; lia). destruct (at_end zl es Hr) as [_ Ho]. rewrite Ho.
    destruct (insert_end uninit zl es s Hr Hs) as (zl' & E & Hr'); [lia|]. eexists zl', _. split; [exact E|]. split; [exact Hr'|].
    rewrite fmap_app, take_ge, drop_ge by (rewrite length_fmap; lia). split; [done|]. by rewrite offset_app, Ho by lia.
  - pose proof (take_drop k es) as Hes. rewrite Hd in Hes. unfold offset at 1. rewrite <-Hes in Hr.
    assert (length (take k es) = k) as Hlk by (rewrite length_take; lia).
    assert (zlen es2 <= zlen es) as Hl2 by (apply (f_equal length) in Hes; rewrite length_app in Hes; cbn in Hes; lia).
    destruct (insert_before uninit zl (take k es) lg s2 es2 s Hr Hs) as (zl' & es' & E & Hr' & Hss); [lia|].
    eexists zl', _. split; [exact E|]. split; [exact Hr'|]. split.
    + rewrite fmap_app. cbn [fmap list_fmap]. rewrite Hss. rewrite <-fmap_take, <-fmap_drop, Hd. done.
    + rewrite offset_app by lia. unfold offset. by rewrite take_take, Nat.min_id.
Qed.

Lemma delete_at zl es k num : zl_rep zl es -> (k < length es)%nat -> 0 <= num -> room zl es 0 ->
  exists zl' es', __ziplistDelete uninit zl (offset es k) num = Some zl' /\ zl_rep zl' es' /\
    strings es' = take k (strings es) ++ drop (k + Z.to_nat num) (strings es) /\ offset es' k = offset es k.
Proof.
  intros Hr Hk Hn Hb. unfold room in Hb. destruct (decide (num = 0)) as [->|Hn0].
  { destruct (lookup_lt_is_Some_2 es k Hk) as [[lg s] Hl]. destruct (entry_reads zl es k lg s Hr Hl) as ((x & Hx & _) & _).
    destruct (at_entry zl es k lg s Hr Hl) as (A & Hz & Ho & Hpl & Hs & _). rewrite Ho in Hx |- *.
    destruct (cascade_cur zl A lg _ s _ (zlen A) Hz eq_refl Hpl Hs) as (_ & (cur & Ec & _ & _ & _ & _ & _ & _ & Hp) & _).
    exists zl, es. split; [|split; [done|]; rewrite Nat.add_0_r, take_drop; done]. unfold __ziplistDelete. rewrite Ec. cbn [mbind option_bind].
    pose proof (rep_count zl es Hr) as Hc. destruct (length zl) as [|fuel] eqn:Hf; [lia|]. cbn [skip_entries]. rewrite Hx. cbn [mbind option_bind].
    change (0 <? 0) with false. rewrite andb_false_r. cbn [mbind option_bind]. rewrite Hp, Z.sub_diag. done. }
  assert (length (take k es) = k) as Hlk by (rewrite length_take; lia). pose proof (take_drop k es) as Hes.
  destruct (drop k es) as [|e rest] eqn:Hd; [apply (f_equal length) in Hd; rewrite length_drop in Hd; cbn in Hd; lia|].
  set (m := (Z.to_nat num - 1)%nat). pose proof (take_drop m rest) as Hrest.
  assert (drop (k + Z.to_nat num) es = drop m rest) as Hdrop.
  { rewrite <-(drop_drop es (Z.to_nat num) k), Hd. unfold m. replace (Z.to_nat num) with (S (Z.to_nat num - 1)) at 1 by lia. done. }
  assert (strings es = strings (take k es) ++ strings (e :: rest)) as Hss by (by rewrite <-fmap_app, Hes).
  rewrite <-fmap_take, <-fmap_drop, Hdrop. unfold offset at 1.
  assert (zlen es = Z.of_nat k + 1 + zlen rest) as Hl by (rewrite <-Hes, length_app, Hlk; cbn [length]; lia).
  destruct (drop m rest) as [|[lg s] es4] eqn:Hdm.
  - rewrite app_nil_r in Hrest. rewrite <-Hes, <-(app_nil_r (e :: rest)) in Hr.
    destruct (delete_to_end uninit zl (take k es) e rest num Hr) as (zl' & E & Hr').
    { apply (f_equal length) in Hrest. rewrite length_take in Hrest. unfold m in Hrest. lia. }
    exists zl', (take k es). split; [exact E|]. split; [done|]. split; [by rewrite app_nil_r|]. unfold offset. by rewrite take_take, Nat.min_id.
  - assert (length (take m rest) = m) as Hlm.
    { apply (f_equal length) in Hdm. rewrite length_drop in Hdm. cbn in Hdm. rewrite length_take. lia. }
    assert (zlen es4 <= zlen rest) as Hl4 by (rewrite <-Hrest, length_app; cbn [length]; lia).
    rewrite <-Hes, <-Hrest in Hr. change (e :: take m rest ++ (lg, s) :: es4) with ((e :: take m rest) ++ (lg, s) :: es4) in Hr.
    destruct (delete_middle uninit zl (take k es) e (take m rest) lg s es4 Hr) as (zl' & es4' & E & Hr' & Hs4); [lia|].
    rewrite Hlm in E. replace (1 + Z.of_nat m) with num in E by (unfold m; lia).
    eexists zl', _. split; [exact E|]. split; [exact Hr'|]. split; [rewrite fmap_app; cbn [fmap list_fmap]; rewrite Hs4; done|].
    rewrite offset_app by lia. unfold offset. by rewrite take_take, Nat.min_id.
Qed.

(** C15: a new list is empty; inserting a string before the entry with number k, or
    at the end, makes the list of strings with that string at place k, whatever
    sizes have to be rewritten after it, and leaves the entries before it
    where they were; pushing inserts at the first or at the last place. *)
Theorem ziplist_insert_correct zl es k s :
  zl_rep zl es -> (k <= length es)%nat -> str_fits s -> room zl es (zlen s) ->
  (exists zl0, ziplistNew uninit = Some zl0 /\ zl_rep zl0 []) /\
  (exists zl' es', ziplistInsert uninit zl (offset es k) s = Some zl' /\ zl_rep zl' es' /\
     strings es' = take k (strings es) ++ s :: drop k (strings es) /\ offset es' k = offset es k) /\
  (exists zl' es', ziplistPush uninit zl s 0 = Some zl' /\ zl_rep zl' es' /\ strings es' = s :: strings es) /\
  (exists zl' es', ziplistPush uninit zl s 1 = Some zl' /\ zl_rep zl' es' /\ strings es' = strings es ++ [s]).
Proof.
  intros Hr Hk Hs Hb. split_and!; [apply new_ok|by apply insert_at|..].
  - destruct (insert_at zl es 0 s Hr ltac:(lia) Hs Hb) as (zl' & es' & E & Hr' & Hss & _). exists zl', es'. by split_and!.
  - destruct (insert_at zl es (length es) s Hr ltac:(lia) Hs Hb) as (zl' & es' & E & Hr' & Hss & _). exists zl', es'. split_and!; [|done|].
    + unfold ziplistPush, ZIPLIST_ENTRY_END. change (1 =? 0) with false. cbv iota. destruct (rep_parts zl es Hr) as (l & Hz & _ & _ & _ & _ & Hsz & _).
      assert (ZIPLIST_BYTES zl = Some (zlen zl)) as -> by (rewrite Hz at 1; apply get_bytes; lia). cbn [mbind option_bind].
      destruct (at_end zl es Hr) as [_ <-]. exact E.
    + rewrite Hss, take_ge, drop_ge by (rewrite length_fmap; lia). done.
Qed.

(** C22: deleting a range starting at a number counted from the front or from the back
    removes exactly those of its strings that exist, and deleting one entry leaves the
    pointer at the entry that followed it; the sizes the entries keep of each
    other stay consistent. *)
Theorem ziplist_delete_correct zl es i num :
  zl_rep zl es -> INT32_MIN < i -> 0 <= num -> room zl es 0 ->
  let k := if i <? 0 then zlen es + i else i in
  (exists zl' es', ziplistDeleteRange uninit zl i num = Some zl' /\ zl_rep zl' es' /\
     strings es' = if (0 <=? k) && (k <? zlen es) then take (Z.to_nat k) (strings es) ++ drop (Z.to_nat k + Z.to_nat num) (strings es) else strings es) /\
  (0 <= k < zlen es -> exists zl' es', ziplistDelete uninit zl (offset es (Z.to_nat k)) = Some (zl', offset es' (Z.to_nat k)) /\ zl_rep zl' es' /\
     strings es' = delete (Z.to_nat k) (strings es)).
Proof.
  intros Hr Hi Hn Hb k. split.
  - unfold ziplistDeleteRange. rewrite (index_ok zl es i Hr Hi). fold k. cbn [mbind option_bind].
    destruct ((0 <=? k) && (k <? zlen es)) eqn:E; [|by exists zl, es]. breflect.
    destruct (delete_at zl es (Z.to_nat k) num Hr) as (zl' & es' & E & Hr' & Hss & _); [lia|done|done|]. by exists zl', es'.
  - intros Hk. destruct (delete_at zl es (Z.to_nat k) 1 Hr) as (zl' & es' & E & Hr' & Hss & Ho); [lia|done|done|]. exists zl', es'. unfold ziplistDelete.
    rewrite E, Ho. split_and!; [done|done|]. rewrite Hss, delete_take_drop, Nat.add_1_r. done.
Qed.

(** C23: merging two lists, the second of which is not empty, gives the strings of the first followed by
    those of the second, whichever of the two blocks is extended, and nothing is done for the same
    list or for a null pointer. *)
Theorem ziplist_merge_correct first second es1 es2 :
  zl_rep first es1 -> zl_rep second es2 -> es2 <> [] -> zlen first + zlen second + 4 * zlen es2 < 2 ^ 32 ->
  (exists zl' es' append, ziplistMerge uninit false (Some first) (Some second) = Some (Some (zl', append)) /\ zl_rep zl' es' /\
     strings es' = strings es1 ++ strings es2) /\
  ziplistMerge uninit true (Some first) (Some second) = Some None /\ ziplistMerge uninit false None (Some second) = Some None /\
  ziplistMerge uninit false (Some first) None = Some None.
Proof.
  intros Hr1 Hr2 Hne Hb. split_and!; [|done..].
  destruct (rep_parts _ _ Hr1) as (l1 & Hz1 & Hl1 & Hlen1 & Hlr1 & Hc1 & Hs1 & _). destruct (rep_parts _ _ Hr2) as (l2 & Hz2 & Hl2 & Hlen2 & Hlr2 & Hc2 & Hs2 & _).
  pose proof (tail_off_bounds es1). pose proof (tail_off_bounds es2). unfold ziplistMerge.
  assert (ZIPLIST_BYTES first = Some (zlen first)) as -> by (rewrite Hz1 at 1; apply get_bytes; lia).
  assert (ZIPLIST_LENGTH first = Some l1) as -> by (rewrite Hz1; by apply get_length).
  assert (ZIPLIST_BYTES second = Some (zlen second)) as -> by (rewrite Hz2 at 1; apply get_bytes; lia).
  assert (ZIPLIST_LENGTH second = Some l2) as -> by (rewrite Hz2; by apply get_length). cbn [mbind option_bind].
  rewrite (get_tail_rep first es1 Hr1), (get_tail_rep second es2 Hr2). cbn [mbind option_bind].
  set (append := l2 <=? l1). pose proof (joined uninit first second _ _ _ _ _ _ _ _ append Hz1 Hz2 Hs1 Hs2) as Hj.
  destruct (if append then _ else _) as [[[target tb] source] sb]. change ZIPLIST_HEADER_SIZE with 10 in *. change ZIPLIST_END_SIZE with 1 in *.
  rewrite (u64_small (zlen first + zlen second - 10 - 1)) by lia. destruct Hj as (T & O & l & ->). cbn [mbind option_bind].
  set (T' := zlen first + zlen second - 10 - 1). rewrite set_bytes by lia. cbn [mbind option_bind]. rewrite set_length. cbn [mbind option_bind].
  rewrite u64_small by lia. rewrite set_tail by lia. cbn [mbind option_bind].
  destruct (seam uninit es1 es2 (u16 (if l1 + l2 <? UINT16_MAX then l1 + l2 else UINT16_MAX)) T'
    (zheader T' (10 + zlen (chain 0 es1) + tail_off es2) (u16 (if l1 + l2 <? UINT16_MAX then l1 + l2 else UINT16_MAX)) ++ chain 0 es1 ++ chain 0 es2 ++ [ZIP_END]))
    as (zl' & es2' & E & Hr & Hss); [done|rewrite !length_app, zheader_length; cbn [length]; lia|done|done|done|lia|by apply count_sum; try lia|].
  replace (zlen first - 1 + (10 + tail_off es2 - 10)) with (10 + zlen (chain 0 es1) + tail_off es2) by lia. rewrite E. cbn [mbind option_bind].
  exists zl', (es1 ++ es2'), append. split_and!; [done|done|]. by rewrite fmap_app, Hss.
Qed.
End Correct.

(** C24: reading gives the list of strings: an index counted from either end finds its entry,
    stepping forward and back goes to the neighbours, an entry reads as its
    string (as the integer it denotes where it is stored so), comparison is
    equality of strings, a search finds the first equal string among those it looks
    at, and the length is the number of strings however the header holds it. *)
Theorem ziplist_read_correct `{Host} zl es k i v skip :
  zl_rep zl es -> (k <= length es)%nat -> INT32_MIN < i ->
  ziplistIndex zl i = Some (let n := if i <? 0 then zlen es + i else i in if (0 <=? n) && (n <? zlen es) then Some (offset es (Z.to_nat n)) else None) /\
  ziplistNext zl (offset es k) = Some (if (S k <? length es)%nat then Some (offset es (S k)) else None) /\
  ziplistPrev zl (offset es k) = Some (match k with O => None | S k => Some (offset es k) end) /\
  (exists r, ziplistGet zl (Some (offset es k)) = Some r /\ notation <$> r = strings es !! k) /\
  ziplistCompare zl (offset es k) v = Some (bool_decide (strings es !! k = Some v)) /\
  ziplistFind zl (offset es k) v skip = Some ((fun j => offset es (k + j)) <$> search v skip 0 (drop k (strings es))) /\
  (exists zl', ziplistLen zl = Some (zlen es, zl') /\ zl_rep zl' es) /\ ziplistBlobLen zl = Some (zlen zl).
Proof.
  intros Hr Hk Hi. pose proof (rep_count zl es Hr) as Hc. split_and!.
  - by apply index_ok.
  - by apply zl_next_ok.
  - by apply prev_ok.
  - eexists. split; [by apply get_ok|]. rewrite <-option_fmap_compose. destruct (strings es !! k) as [s|]; [|done]. cbn. by rewrite notation_value.
  - by apply compare_ok.
  - apply find_ok; [done|lia|done|by left].
  - destruct (len_ok zl es Hr) as (zl' & E & Hr' & _). by exists zl'.
  - destruct (rep_parts zl es Hr) as (l & Hz & _ & _ & _ & _ & Hsz & _). unfold ziplistBlobLen. rewrite Hz at 1. apply get_bytes. lia.
Qed.

(** ** Examples *)

#[local] Instance demo_host : Host := {| big_endian := false |}.
Definition demo_es : list entry := [(false, replicate 260 97); (true, [104; 105]); (false, [52; 50])].
Definition demo_block (es : list entry) : list Z :=
  zheader (11 + zlen (chain 0 es)) (10 + tail_off es) (zlen es) ++ chain 0 es ++ [ZIP_END].
Lemma demo_rep es : chain_ok 0 es -> 11 + zlen (chain 0 es) < 2 ^ 32 -> zlen es < UINT16_MAX -> zl_rep (demo_block es) es.
Proof.
  intros Hc Hs Hl. apply (make_rep _ _ _ _ _ _ eq_refl eq_refl); try done.
  - unfold demo_block. rewrite !length_app, zheader_length. cbn [length]. lia.
  - right. split; [done|lia].
Qed.
Lemma demo_es_rep : zl_rep (demo_block demo_es) demo_es.
Proof.
  apply demo_rep; [|by vm_compute..]. cbn [chain_ok demo_es fst snd]. unfold plen_ok, str_fits.
  split_and!; try done; first [by right|by left|vm_compute; intuition congruence].
Qed.

Lemma ziplist_insert_correct_witness : exists zl' es', ziplistInsert (fun _ => 0) (demo_block demo_es) (offset demo_es 1) [55] = Some zl' /\
  zl_rep zl' es' /\ strings es' = [replicate 260 97; [55]; [104; 105]; [52; 50]].
Proof.
  destruct (ziplist_insert_correct (fun _ => 0) (demo_block demo_es) demo_es 1 [55]) as (_ & (zl' & es' & E & Hr & Hs & _) & _).
  - exact demo_es_rep.
  - cbn. lia.
  - by vm_compute.
  - by vm_compute.
  - exists zl', es'. split_and!; [exact E|exact Hr|exact Hs].
Defined.
Lemma ziplist_delete_correct_witness : exists zl' es', ziplistDeleteRange (fun _ => 0) (demo_block demo_es) (-3) 1 = Some zl' /\
  zl_rep zl' es' /\ strings es' = [[104; 105]; [52; 50]].
Proof.
  destruct (ziplist_delete_correct (fun _ => 0) (demo_block demo_es) demo_es (-3) 1) as ((zl' & es' & E & Hr & Hs) & _).
  - exact demo_es_rep.
  - by vm_compute.
  - lia.
  - by vm_compute.
  - exists zl', es'. split_and!; [exact E|exact Hr|exact Hs].
Defined.
Lemma ziplist_merge_correct_witness : exists zl' es' append,
  ziplistMerge (fun _ => 0) false (Some (demo_block demo_es)) (Some (demo_block demo_es)) = Some (Some (zl', append)) /\
  zl_rep zl' es' /\ strings es' = strings demo_es ++ strings demo_es.
Proof.
  destruct (ziplist_merge_correct (fun _ => 0) (demo_block demo_es) (demo_block demo_es) demo_es demo_es) as ((zl' & es' & append & E & Hr & Hs) & _).
  - exact demo_es_rep.
  - exact demo_es_rep.
  - done.
  - by vm_compute.
  - exists zl', es', append. split_and!; [exact E|exact Hr|exact Hs].
Defined.
Lemma ziplist_read_correct_witness : ziplistFind (demo_block demo_es) (offset demo_es 0) [52; 50] 0 = Some (Some (offset demo_es 2)).
Proof.
  refine (proj1 (proj2 (proj2 (proj2 (proj2 (proj2 (ziplist_read_correct (demo_block demo_es) demo_es 0 (-1) [52; 50] 0 demo_es_rep _ _))))))).
  - lia.
  - by vm_compute.
Defined.

(** Merging with an empty second list leaves the offset of the last entry at the end mark:
    the last string is no longer found from the back. *)
Example merge_with_empty_loses_tail :
  exists zl, ziplistMerge (fun _ => 0) false (Some (demo_block demo_es)) (Some (demo_block [])) = Some (Some (zl, true)) /\
    ziplistIndex zl (-1) = Some None /\ ziplistIndex zl 2 = Some (Some (offset demo_es 2)).
Proof. eexists. split; [vm_compute; reflexivity|]. split; vm_compute; reflexivity. Qed.
