(* ===== verification/Multi.v ===== *)
(** * Transactions (src/redis-stable/src/multi.c, and processCommand of server.c)

    A client queues commands between MULTI and EXEC and runs them at once; keys it watches
    make the EXEC fail when they are modified in between.  Watched keys are kept twice: as a
    list in each client, and in an index from keys to clients for the code that
    modifies a key.  The state is the clients by number, the index, the data set (a
    parameter) and what is sent to the append only file and to the replicas.  Other commands are a
    parameter: the effect they have, among it the keys they modify. *)
From stdpp Require Import prelude list gmap strings.
From Stdlib Require Import ZArith Lia.
From S2P Require Import Prelude Util SdsText Rio Rdb Reply Resp.

Local Open Scope Z_scope.
Local Open Scope redis_scope.

(** ** The model *)

Definition CLIENT_DIRTY_CAS : Z := 2 ^ 5.
Definition CLIENT_DIRTY_EXEC : Z := 2 ^ 12.
Definition CMD_WRITE : Z := 2 ^ 0.
Definition CMD_READONLY : Z := 2 ^ 1.
Definition CMD_DENYOOM : Z := 2 ^ 2.
Definition CMD_ADMIN : Z := 2 ^ 4.
Definition CMD_LOADING : Z := 2 ^ 9.
Definition CMD_STALE : Z := 2 ^ 10.

(** The procedures the code distinguishes. *)
Inductive command_proc :=
  | execCommand_ | discardCommand_ | multiCommand_ | watchCommand_ | unwatchCommand_ | authCommand | pingCommand | subscribeCommand
  | unsubscribeCommand | psubscribeCommand | punsubscribeCommand | replconfCommand | shutdownCommand | scriptCommand | otherCommand (n : Z).
#[global] Instance command_proc_eq_dec : EqDecision command_proc.
Proof. solve_decision. Defined.

Record redisCommand := mk_command { cmd_name : list Z; proc : command_proc; arity : Z; cmd_flags : Z; has_keys : bool }.

Record multiCmd := mk_mc { mc_cmd : redisCommand; mc_argv : list (list Z) }.
(** The commands (their number is the length) and the flags of all of them. *)
Record multiState := mk_ms { commands : list multiCmd; ms_cmd_flags : Z }.

(** What a command replies: shared objects, errors and array lengths. *)
Inductive shared_object :=
  ok_ | queued | execaborterr | nullmultibulk_ | noautherr | oomerr | bgsaveerr | noreplicaserr | roslaveerr | masterdownerr | loadingerr | slowscripterr.
Inductive reply := Shared (o : shared_object) | ErrorText (msg : list Z) | MultiBulkLen (n : Z) | Bytes (bs : list Z).

(** A key in a database. *)
Abbreviation watchedKey := (Z * list Z)%type.

(** The members of struct client that are used here. *)
Record tclient := mk_tclient {
  tflags : Z;
  tdb : Z;
  watched_keys : list watchedKey;
  mstate : multiState;
  tcmd : option redisCommand;
  targv : list (list Z);
  authenticated : bool;
  replies : list reply;
}.

Definition with_tflags (f : Z) (c : tclient) : tclient := mk_tclient f (tdb c) (watched_keys c) (mstate c) (tcmd c) (targv c) (authenticated c) (replies c).
Definition with_watched (l : list watchedKey) (c : tclient) : tclient := mk_tclient (tflags c) (tdb c) l (mstate c) (tcmd c) (targv c) (authenticated c) (replies c).
Definition with_mstate (m : multiState) (c : tclient) : tclient := mk_tclient (tflags c) (tdb c) (watched_keys c) m (tcmd c) (targv c) (authenticated c) (replies c).
Definition with_command (m : option redisCommand) (a : list (list Z)) (c : tclient) : tclient :=
  mk_tclient (tflags c) (tdb c) (watched_keys c) (mstate c) m a (authenticated c) (replies c).
Definition with_tdb (d : Z) (c : tclient) : tclient := mk_tclient (tflags c) d (watched_keys c) (mstate c) (tcmd c) (targv c) (authenticated c) (replies c).
Definition with_replies (r : list reply) (c : tclient) : tclient :=
  mk_tclient (tflags c) (tdb c) (watched_keys c) (mstate c) (tcmd c) (targv c) (authenticated c) r.

Definition add_reply (r : reply) (c : tclient) : tclient := with_replies (replies c ++ [r]) c.
Definition set_flag (m : Z) (c : tclient) : tclient := with_tflags (Z.lor (tflags c) m) c.
(** c->flags &= ~m *)
Definition clear_flag (m : Z) (c : tclient) : tclient := with_tflags (Z.ldiff (tflags c) m) c.

Section Transactions.
Context {X : Type}.
(** dictFind(wk->db->dict, wk->key->ptr) != NULL *)
Context (key_exists : X -> Z -> list Z -> bool).

(** signalModifiedKey(db,key), and signalFlushedDb(dbid) with the data set before the flush. *)
Inductive touch := Modified (db : Z) (key : list Z) | Flushed (dbid : Z) (before : X).

(** What a command that is not of this file does: the data set, the keys it modifies, its replies, the
    database it selects, its arguments as it leaves them, what it propagates,
    whether it counts as a change, and whether the server still is a master.  Commands that authenticate a
    client or free other clients (AUTH, CLIENT KILL) are outside. *)
Record effects := mk_effects {
  eff_data : X; eff_touch : list touch; eff_reply : list reply; eff_db : Z; eff_argv : list (list Z);
  eff_propagate : list (list (list Z)); eff_dirty : bool; eff_slave : bool;
}.
Context (effect : X -> Z -> redisCommand -> list (list Z) -> effects).

Record world := mk_world {
  clients : gmap Z tclient;
  index : gmap watchedKey (list Z);
  data : X;
  propagated : list (list (list Z));
  masterhost : bool;
  repl_backlog : option (list Z);
  touched : list touch;
}.
Definition with_clients (m : gmap Z tclient) (w : world) : world := mk_world m (index w) (data w) (propagated w) (masterhost w) (repl_backlog w) (touched w).
Definition with_index (i : gmap watchedKey (list Z)) (w : world) : world := mk_world (clients w) i (data w) (propagated w) (masterhost w) (repl_backlog w) (touched w).
Definition with_data (x : X) (w : world) : world := mk_world (clients w) (index w) x (propagated w) (masterhost w) (repl_backlog w) (touched w).
Definition with_propagated (p : list (list (list Z))) (w : world) : world := mk_world (clients w) (index w) (data w) p (masterhost w) (repl_backlog w) (touched w).
Definition with_master (h : bool) (b : option (list Z)) (w : world) : world := mk_world (clients w) (index w) (data w) (propagated w) h b (touched w).
(** A record of the calls, for the statements. *)
Definition with_touched (t : list touch) (w : world) : world := mk_world (clients w) (index w) (data w) (propagated w) (masterhost w) (repl_backlog w) t.
(** A change of one client. *)
Definition upd (c : Z) (f : tclient -> tclient) (w : world) : world := with_clients (alter f c (clients w)) w.

Definition initClientMultiState : multiState := mk_ms [] 0.

Definition queueMultiCommand (c : tclient) : option tclient :=
  cmd ← tcmd c;
  Some (with_mstate (mk_ms (commands (mstate c) ++ [mk_mc cmd (targv c)]) (Z.lor (ms_cmd_flags (mstate c)) (cmd_flags cmd))) c).

Definition flagTransaction (c : tclient) : tclient := if has (tflags c) CLIENT_MULTI then set_flag CLIENT_DIRTY_EXEC c else c.

(** listDelNode(clients,listSearchKey(clients,c)), with a node that must exist. *)
Fixpoint remove_first (c : Z) (l : list Z) : option (list Z) :=
  match l with [] => None | x :: l => if x =? c then Some l else (fun l => x :: l) <$> remove_first c l end.

Fixpoint unwatch_loop (c : Z) (l : list watchedKey) (idx : gmap watchedKey (list Z)) : option (gmap watchedKey (list Z)) :=
  match l with
  | [] => Some idx
  | wk :: l =>
    cls ← idx !! wk;
    cls ← remove_first c cls;
    unwatch_loop c l (match cls with [] => delete wk idx | _ => <[wk := cls]> idx end)
  end.
Definition unwatchAllKeys (c : Z) (w : world) : option world :=
  cl ← clients w !! c;
  if bool_decide (watched_keys cl = []) then Some w else
  idx ← unwatch_loop c (watched_keys cl) (index w);
  Some (upd c (with_watched []) (with_index idx w)).

(** freeClientMultiState only releases memory. *)
Definition discardTransaction (c : Z) (w : world) : option world :=
  let w := upd c (with_mstate initClientMultiState) w in
  let w := upd c (clear_flag (Z.lor (Z.lor CLIENT_MULTI CLIENT_DIRTY_CAS) CLIENT_DIRTY_EXEC)) w in
  unwatchAllKeys c w.

Definition multiCommand (c : Z) (w : world) : option world :=
  cl ← clients w !! c;
  if has (tflags cl) CLIENT_MULTI then Some (upd c (add_reply (ErrorText (str "MULTI calls can not be nested"))) w)
  else Some (upd c (add_reply (Shared ok_)) (upd c (set_flag CLIENT_MULTI) w)).

Definition discardCommand (c : Z) (w : world) : option world :=
  cl ← clients w !! c;
  if negb (has (tflags cl) CLIENT_MULTI) then Some (upd c (add_reply (ErrorText (str "DISCARD without MULTI"))) w)
  else w ← discardTransaction c w; Some (upd c (add_reply (Shared ok_)) w).

Definition watchForKey (c : Z) (key : list Z) (w : world) : option world :=
  cl ← clients w !! c;
  let wk := (tdb cl, key) in
  if bool_decide (wk ∈ watched_keys cl) then Some w else
  let cls := default [] (index w !! wk) in
  let w := with_index (<[wk := cls ++ [c]]> (index w)) w in
  Some (upd c (fun cl => with_watched (watched_keys cl ++ [wk]) cl) w).

Fixpoint watch_loop (c : Z) (keys : list (list Z)) (w : world) : option world :=
  match keys with [] => Some w | k :: keys => w ← watchForKey c k w; watch_loop c keys w end.
Definition watchCommand (c : Z) (w : world) : option world :=
  cl ← clients w !! c;
  if has (tflags cl) CLIENT_MULTI then Some (upd c (add_reply (ErrorText (str "WATCH inside MULTI is not allowed"))) w)
  else w ← watch_loop c (drop 1 (targv cl)) w; Some (upd c (add_reply (Shared ok_)) w).

Definition unwatchCommand (c : Z) (w : world) : option world :=
  w ← unwatchAllKeys c w;
  Some (upd c (add_reply (Shared ok_)) (upd c (clear_flag CLIENT_DIRTY_CAS) w)).

(** The list holds pointers to clients. *)
Fixpoint mark_dirty (l : list Z) (m : gmap Z tclient) : option (gmap Z tclient) :=
  match l with [] => Some m | c :: l => cl ← m !! c; mark_dirty l (<[c := set_flag CLIENT_DIRTY_CAS cl]> m) end.
Definition touchWatchedKey (db : Z) (key : list Z) (w : world) : option world :=
  if bool_decide (filter (fun kv : watchedKey * list Z => kv.1.1 = db) (index w) = ∅) then Some w else
  match index w !! (db, key) with
  | None => Some w
  | Some cls => m ← mark_dirty cls (clients w); Some (with_clients m w)
  end.

(** The loop over the keys a client watches. *)
Fixpoint flush_keys (x : X) (dbid : Z) (l : list watchedKey) (c : tclient) : tclient :=
  match l with
  | [] => c
  | wk :: l => flush_keys x dbid l (if ((dbid =? -1) || (wk.1 =? dbid)) && key_exists x wk.1 wk.2 then set_flag CLIENT_DIRTY_CAS c else c)
  end.
Definition touchWatchedKeysOnFlush (dbid : Z) (x : X) (w : world) : world :=
  with_clients ((fun c => flush_keys x dbid (watched_keys c) c) <$> clients w) w.

Definition do_touch (t : touch) (w : world) : option world :=
  w ← match t with Modified db key => touchWatchedKey db key w | Flushed dbid x => Some (touchWatchedKeysOnFlush dbid x w) end;
  Some (with_touched (touched w ++ [t]) w).
Fixpoint do_touches (l : list touch) (w : world) : option world :=
  match l with [] => Some w | t :: l => w ← do_touch t w; do_touches l w end.

(** call(c,full ? CMD_CALL_FULL : CMD_CALL_NONE) for a command that is not of this file. *)
Definition call_other (full : bool) (c : Z) (cmd : redisCommand) (w : world) : option (world * bool) :=
  cl ← clients w !! c;
  let e := effect (data w) (tdb cl) cmd (targv cl) in
  w ← do_touches (eff_touch e) w;
  let w := with_data (eff_data e) w in
  let w := upd c (fun cl => with_replies (replies cl ++ eff_reply e) (with_tdb (eff_db e) (with_command (tcmd cl) (eff_argv e) cl))) w in
  Some (with_master (eff_slave e) (repl_backlog w) (with_propagated (propagated w ++ (if full then eff_propagate e else [])) w), eff_dirty e).

Definition execCommandPropagateMulti (w : world) : world := with_propagated (propagated w ++ [[str "MULTI"]]) w.

(** call(c) in the loop of EXEC: the commands that can be queued. *)
Definition call_queued (full : bool) (c : Z) (cmd : redisCommand) (w : world) : option (world * bool) :=
  match proc cmd with
  | execCommand_ | discardCommand_ | multiCommand_ | watchCommand_ => None
  | unwatchCommand_ => w ← unwatchCommand c w; Some (w, false)
  | _ => call_other full c cmd w
  end.

(** The loop over the queue, from the command with number j on; whether MULTI was propagated and
    whether something was changed. *)
Fixpoint exec_loop (fuel : nat) (full : bool) (c : Z) (j : nat) (must_propagate dirty : bool) (w : world) : option (world * bool * bool) :=
  match fuel with
  | O => None
  | S fuel =>
    cl ← clients w !! c;
    match commands (mstate cl) !! j with
    | None => Some (w, must_propagate, dirty)
    | Some mc =>
      let w := upd c (with_command (Some (mc_cmd mc)) (mc_argv mc)) w in
      let first := negb must_propagate && negb (has (cmd_flags (mc_cmd mc)) (Z.lor CMD_READONLY CMD_ADMIN)) in
      let w := if first then execCommandPropagateMulti w else w in
      '(w, d) ← call_queued full c (mc_cmd mc) w;
      cl ← clients w !! c;
      cmd ← tcmd cl;
      let w := upd c (with_mstate (mk_ms (<[j := mk_mc cmd (targv cl)]> (commands (mstate cl))) (ms_cmd_flags (mstate cl)))) w in
      exec_loop fuel full c (S j) (must_propagate || first) (dirty || d) w
    end
  end.

(** [loading] and [slave_ro] are server.loading and server.repl_slave_ro; the result says whether the command
    counts as a change.  Monitors are not modelled. *)
Definition execCommand (loading slave_ro : bool) (c : Z) (w : world) : option (world * bool) :=
  cl ← clients w !! c;
  let was_master := negb (masterhost w) in
  if negb (has (tflags cl) CLIENT_MULTI) then Some (upd c (add_reply (ErrorText (str "EXEC without MULTI"))) w, false)
  else if has (tflags cl) (Z.lor CLIENT_DIRTY_CAS CLIENT_DIRTY_EXEC) then
    let w := upd c (add_reply (Shared (if has (tflags cl) CLIENT_DIRTY_EXEC then execaborterr else nullmultibulk_))) w in
    w ← discardTransaction c w; Some (w, false)
  else if negb loading && masterhost w && slave_ro && negb (has (tflags cl) CLIENT_MASTER) && has (ms_cmd_flags (mstate cl)) CMD_WRITE then
    let w := upd c (add_reply (ErrorText (str "Transaction contains write commands but instance is now a read-only slave. EXEC aborted."))) w in
    w ← discardTransaction c w; Some (w, false)
  else
    w ← unwatchAllKeys c w;
    let orig_argv := targv cl in
    let orig_cmd := tcmd cl in
    let w := upd c (add_reply (MultiBulkLen (Z.of_nat (length (commands (mstate cl)))))) w in
    '(w, must_propagate, dirty) ← exec_loop (S (length (commands (mstate cl)))) (negb loading) c 0 false false w;
    let w := upd c (with_command orig_cmd orig_argv) w in
    w ← discardTransaction c w;
    if must_propagate : bool then
      let is_master := negb (masterhost w) in
      let backlog := if was_master && negb is_master then (fun b => b ++ str "*1" ++ crlf ++ str "$4" ++ crlf ++ str "EXEC" ++ crlf) <$> repl_backlog w else repl_backlog w in
      Some (with_master (masterhost w) backlog w, true)
    else Some (w, dirty).

(** call(c,CMD_CALL_FULL) *)
Definition call (loading slave_ro : bool) (c : Z) (cmd : redisCommand) (w : world) : option world :=
  match proc cmd with
  | multiCommand_ => multiCommand c w
  | discardCommand_ => discardCommand c w
  | watchCommand_ => watchCommand c w
  | unwatchCommand_ => unwatchCommand c w
  | execCommand_ =>
    '(w, dirty) ← execCommand loading slave_ro c w;
    cl ← clients w !! c;
    Some (if dirty : bool then with_propagated (propagated w ++ [targv cl]) w else w)
  | _ => fst <$> call_other true c cmd w
  end.

(** The members of struct redisServer that processCommand reads, and what the calls of other parts give. *)
Record senv := mk_senv {
  filters : list (list Z) -> list (list Z);          (* moduleCallCommandFilters *)
  lookupCommand : list Z -> option redisCommand;
  requirepass : bool;
  cluster_enabled : bool;
  lua_caller_master : bool;
  misrouted : redisCommand -> list (list Z) -> bool; (* n == NULL || n != server.cluster->myself *)
  redirect_text : list Z;
  maxmemory : bool;
  lua_timedout : bool;
  evict : X -> X * list touch * bool;                (* freeMemoryIfNeededAndSafe, C_ERR *)
  client_freed : bool;                               (* server.current_client == NULL *)
  deny_write_type : Z;
  aof_last_write_error : list Z;                     (* strerror(server.aof_last_write_errno) *)
  repl_min_slaves_to_write : Z;
  repl_min_slaves_max_lag : Z;
  repl_good_slaves_count : Z;
  repl_slave_ro : bool;
  repl_connected : bool;
  repl_serve_stale_data : bool;
  loading : bool;
  ready : X -> X * list touch;                       (* handleClientsBlockedOnKeys *)
}.

Definition DISK_ERROR_TYPE_NONE : Z := 0.
Definition DISK_ERROR_TYPE_RDB : Z := 2.

(** !strcasecmp(s,"quit") *)
Definition is_quit (s : list Z) : bool := strcaseeq (c_string s) (str "quit").

(** The arguments in the reply to an unknown command: for (i=1; i < c->argc && sdslen(args) < 128; i++) *)
Fixpoint unknown_args (l : list (list Z)) (args : list Z) : list Z :=
  match l with
  | [] => args
  | a :: l => if (length args <? 128)%nat then unknown_args l (args ++ str "`" ++ take (128 - length args) (c_string a) ++ str "`, ") else args
  end.

Definition is_proc (cmd : redisCommand) (p : command_proc) : bool := bool_decide (proc cmd = p).
Definition in_pubsub (cmd : redisCommand) : bool :=
  existsb (is_proc cmd) [pingCommand; subscribeCommand; unsubscribeCommand; psubscribeCommand; punsubscribeCommand].

(** tolower of the first character of argv[1], when argc is 2 *)
Definition second_is (args : list (list Z)) (ch : Z) : bool :=
  bool_decide (length args = 2%nat) && match args !! 1%nat with Some s => bool_decide (tolower <$> head s = Some ch) | None => false end.
Definition allowed_when_slow (cmd : redisCommand) (args : list (list Z)) : bool :=
  is_proc cmd authCommand || is_proc cmd replconfCommand || (is_proc cmd shutdownCommand && second_is args 110) || (is_proc cmd scriptCommand && second_is args 107).

(** The checks that refuse the command: whether the transaction is flagged, discarded or left alone, and the
    reply. *)
Inductive on_refusal := Flag | Discard | Leave.
Definition refuse (c : Z) (how : on_refusal) (r : reply) (w : world) : option world :=
  w ← match how with Flag => Some (upd c flagTransaction w) | Discard => discardTransaction c w | Leave => Some w end;
  Some (upd c (add_reply r) w).

(** The checks after memory was freed, in the order of the source. *)
Definition late_checks (e : senv) (cl : tclient) (cmd : redisCommand) (master : bool) (oom : bool) : option (on_refusal * reply) :=
  if oom && (has (cmd_flags cmd) CMD_DENYOOM || (has (tflags cl) CLIENT_MULTI && negb (is_proc cmd execCommand_))) then Some (Flag, Shared oomerr)
  else if negb (deny_write_type e =? DISK_ERROR_TYPE_NONE) && master && (has (cmd_flags cmd) CMD_WRITE || is_proc cmd pingCommand) then
    Some (Flag, if deny_write_type e =? DISK_ERROR_TYPE_RDB then Shared bgsaveerr else Bytes (str "-MISCONF Errors writing to the AOF file: " ++ aof_last_write_error e ++ crlf))
  else if master && negb (repl_min_slaves_to_write e =? 0) && negb (repl_min_slaves_max_lag e =? 0) && has (cmd_flags cmd) CMD_WRITE &&
          (repl_good_slaves_count e <? repl_min_slaves_to_write e) then Some (Flag, Shared noreplicaserr)
  else if negb master && repl_slave_ro e && negb (has (tflags cl) CLIENT_MASTER) && has (cmd_flags cmd) CMD_WRITE then Some (Leave, Shared roslaveerr)
  else if has (tflags cl) CLIENT_PUBSUB && negb (in_pubsub cmd) then
    Some (Leave, ErrorText (str "only (P)SUBSCRIBE / (P)UNSUBSCRIBE / PING / QUIT allowed in this context"))
  else if negb master && negb (repl_connected e) && negb (repl_serve_stale_data e) && negb (has (cmd_flags cmd) CMD_STALE) then Some (Flag, Shared masterdownerr)
  else if loading e && negb (has (cmd_flags cmd) CMD_LOADING) then Some (Leave, Shared loadingerr)
  else if lua_timedout e && negb (allowed_when_slow cmd (targv cl)) then Some (Flag, Shared slowscripterr)
  else None.

(** The checks before. *)
Definition early_checks (e : senv) (cl : tclient) (cmd : redisCommand) : option (on_refusal * reply) :=
  let argc := Z.of_nat (length (targv cl)) in
  if ((0 <? arity cmd) && negb (arity cmd =? argc)) || (argc <? - arity cmd) then
    Some (Flag, ErrorText (str "wrong number of arguments for '" ++ cmd_name cmd ++ str "' command"))
  else if requirepass e && negb (authenticated cl) && negb (is_proc cmd authCommand) then Some (Flag, Shared noautherr)
  else if cluster_enabled e && negb (has (tflags cl) CLIENT_MASTER) && negb (has (tflags cl) CLIENT_LUA && lua_caller_master e) &&
          (has_keys cmd || is_proc cmd execCommand_) && misrouted e cmd (targv cl) then
    Some (if is_proc cmd execCommand_ then Discard else Flag, Bytes (redirect_text e))
  else None.

Definition exempt_from_queue (cmd : redisCommand) : bool := existsb (is_proc cmd) [execCommand_; discardCommand_; multiCommand_; watchCommand_].

(** A client disconnects: the part of freeClient that concerns transactions. *)
Definition free_client (c : Z) (w : world) : option world :=
  w ← unwatchAllKeys c w; Some (with_clients (delete c (clients w)) w).

(** C_OK is true. *)
Definition processCommand (e : senv) (c : Z) (w : world) : option (bool * world) :=
  let w := upd c (fun cl => with_command (tcmd cl) (filters e (targv cl)) cl) w in
  cl ← clients w !! c;
  name ← head (targv cl);
  if is_quit name then Some (false, upd c (set_flag CLIENT_CLOSE_AFTER_REPLY) (upd c (add_reply (Shared ok_)) w)) else
  let w := upd c (with_command (lookupCommand e name) (targv cl)) w in
  cl ← clients w !! c;
  match tcmd cl with
  | None =>
    let text := str "unknown command `" ++ c_string name ++ str "`, with args beginning with: " ++ unknown_args (drop 1 (targv cl)) [] in
    w ← refuse c Flag (ErrorText text) w; Some (true, w)
  | Some cmd =>
    match early_checks e cl cmd with
    | Some (how, r) => w ← refuse c how r w; Some (true, w)
    | None =>
      let '(x, ts, oom) := if maxmemory e && negb (lua_timedout e) then evict e (data w) else (data w, [], false) in
      w ← do_touches ts w;
      let w := with_data x w in
      if maxmemory e && negb (lua_timedout e) && client_freed e then w ← free_client c w; Some (false, w) else
      cl ← clients w !! c;
      match late_checks e cl cmd (negb (masterhost w)) oom with
      | Some (how, r) => w ← refuse c how r w; Some (true, w)
      | None =>
        if has (tflags cl) CLIENT_MULTI && negb (exempt_from_queue cmd) then
          cl ← queueMultiCommand cl;
          Some (true, upd c (add_reply (Shared queued)) (with_clients (<[c := cl]> (clients w)) w))
        else
          w ← call (loading e) (repl_slave_ro e) c cmd w;
          let '(x, ts) := ready e (data w) in
          w ← do_touches ts w;
          Some (true, with_data x w)
      end
    end
  end.

End Transactions.

(** ** The two records of watched keys agree *)

Section Watching.
Context {X : Type} (key_exists : X -> Z -> list Z -> bool) (effect : X -> Z -> redisCommand -> list (list Z) -> effects (X := X)).
Abbreviation world := (@world X).

(** Every key a client watches has it in its list, once, and the other way round; only commands that can be
    queued are queued. *)
Record watch_ok (w : world) : Prop := mk_watch_ok {
  ok_client : forall c cl, clients w !! c = Some cl ->
    NoDup (watched_keys cl) /\ (forall wk, wk ∈ watched_keys cl -> exists cls, index w !! wk = Some cls /\ c ∈ cls) /\
    (forall mc, mc ∈ commands (mstate cl) -> exempt_from_queue (mc_cmd mc) = false);
  ok_index : forall wk cls, index w !! wk = Some cls ->
    cls <> [] /\ NoDup cls /\ (forall c, c ∈ cls -> exists cl, clients w !! c = Some cl /\ wk ∈ watched_keys cl);
}.

(** The parts of a client that the index depends on. *)
Definition same_watch (cl cl' : tclient) : Prop := watched_keys cl' = watched_keys cl.
Definition queue_ok (cl : tclient) : Prop := forall mc, mc ∈ commands (mstate cl) -> exempt_from_queue (mc_cmd mc) = false.

Lemma lookup_upd c f (w : world) i : clients (upd c f w) !! i = if decide (i = c) then f <$> clients w !! c else clients w !! i.
Proof. cbn. destruct (decide (i = c)) as [->|Hn]; [apply lookup_alter_eq|by apply lookup_alter_ne]. Qed.

Lemma ok_upd c f (w : world) : watch_ok w -> (forall cl, clients w !! c = Some cl -> same_watch cl (f cl) /\ queue_ok (f cl)) -> watch_ok (upd c f w).
Proof.
  intros [Hc Hi] Hf. split.
  - intros i cl Hl. rewrite lookup_upd in Hl. destruct (decide (i = c)) as [->|Hn]; [|by apply Hc].
    destruct (clients w !! c) as [cl0|] eqn:E; [|done]. injection Hl as <-. destruct (Hf _ eq_refl) as [Hw Hq]. destruct (Hc c cl0 E) as (H1 & H2 & _).
    rewrite Hw. by split_and!.
  - intros wk cls Hl. cbn in Hl. destruct (Hi wk cls Hl) as (H1 & H2 & H3). split_and!; [done|done|]. intros i Hin. destruct (H3 i Hin) as (cl & Hcl & Hwk).
    rewrite lookup_upd. destruct (decide (i = c)) as [->|Hn]; [|by eauto]. rewrite Hcl. eexists. split; [done|]. destruct (Hf cl Hcl) as [-> _]. done.
Qed.
Lemma ok_same (w w' : world) : clients w' = clients w -> index w' = index w -> watch_ok w -> watch_ok w'.
Proof. intros E1 E2 [Hc Hi]. split; rewrite E1, E2; done. Qed.

Lemma remove_first_spec c l : NoDup l -> c ∈ l -> remove_first c l = Some (filter (fun x => x <> c) l).
Proof.
  induction l as [|x l IH]; intros Hnd Hin; [by apply elem_of_nil in Hin|]. apply NoDup_cons in Hnd as [Hx Hnd]. cbn [remove_first].
  destruct (Z.eqb_spec x c) as [->|Hn].
  - rewrite filter_cons_False by tauto. f_equal. symmetry. clear IH Hin. induction l as [|y l IH]; [done|]. apply not_elem_of_cons in Hx as [Hy Hx].
    rewrite filter_cons_True by done. f_equal. apply IH; [done|]. by apply NoDup_cons in Hnd as [_ ?].
  - rewrite filter_cons_True by done. apply elem_of_cons in Hin as [->|Hin]; [done|]. by rewrite IH.
Qed.

(** What is left of the clients of a key. *)
Definition without (c : Z) (cls : list Z) : option (list Z) := match filter (fun x => x <> c) cls with [] => None | l => Some l end.

Lemma unwatch_loop_spec c l : forall idx, NoDup l -> (forall wk, wk ∈ l -> exists cls, idx !! wk = Some cls /\ NoDup cls /\ c ∈ cls) ->
  exists idx', unwatch_loop c l idx = Some idx' /\ forall wk, idx' !! wk = if decide (wk ∈ l) then idx !! wk ≫= without c else idx !! wk.
Proof.
  induction l as [|wk l IH]; intros idx Hnd Hl.
  { exists idx. split; [done|]. intros k. by rewrite decide_False by apply not_elem_of_nil. }
  apply NoDup_cons in Hnd as [Hwk Hnd]. destruct (Hl wk) as (cls & E & Hn & Hc); [left|]. cbn [unwatch_loop]. rewrite E. cbn [mbind option_bind].
  rewrite remove_first_spec by done. cbn [mbind option_bind]. set (cls' := filter _ cls). set (idx1 := match cls' with [] => _ | _ => _ end).
  assert (forall k, idx1 !! k = if decide (k = wk) then without c cls else idx !! k) as H1.
  { intros k. unfold idx1, without. fold cls'. destruct cls' as [|x r]; destruct (decide (k = wk)) as [->|Hk]; [apply lookup_delete_eq|by apply lookup_delete_ne|apply lookup_insert_eq|by apply lookup_insert_ne]. }
  destruct (IH idx1 Hnd) as (idx' & E' & H').
  { intros k Hk. rewrite H1, decide_False by (intros ->; done). apply Hl. by right. }
  exists idx'. split; [done|]. intros k. rewrite H', H1. destruct (decide (k = wk)) as [->|Hk].
  - rewrite decide_False by done. rewrite decide_True by left. by rewrite E.
  - destruct (decide (k ∈ l)) as [Hin|Hin]; [by rewrite decide_True by (by right)|]. rewrite decide_False; [done|]. by apply not_elem_of_cons.
Qed.

(** Everything but the clients, the index and the record of modified keys. *)
Definition same_rest (w w' : world) : Prop :=
  data w' = data w /\ propagated w' = propagated w /\ masterhost w' = masterhost w /\ repl_backlog w' = repl_backlog w.
Lemma same_rest_refl w : same_rest w w.
Proof. done. Qed.
Lemma same_rest_trans w1 w2 w3 : same_rest w1 w2 -> same_rest w2 w3 -> same_rest w1 w3.
Proof. intros (A & B & C & D) (A' & B' & C' & D'). split_and!; congruence. Qed.

Lemma with_watched_nil cl : watched_keys cl = [] -> with_watched [] cl = cl.
Proof. destruct cl. cbn. by intros ->. Qed.

Lemma without_elem c cls cls' i : without c cls = Some cls' -> (i ∈ cls' <-> i ∈ cls /\ i <> c) /\ cls' <> [] /\ (NoDup cls -> NoDup cls').
Proof.
  unfold without. destruct (filter _ cls) as [|x l] eqn:E; [done|]. intros [= <-]. rewrite <-E. split_and!; [|by rewrite E|apply NoDup_filter].
  rewrite list_elem_of_filter. tauto.
Qed.
Lemma without_none c cls i : without c cls = None -> i ∈ cls -> i = c.
Proof.
  unfold without. destruct (filter _ cls) as [|x l] eqn:E; [|done]. intros _ Hi. destruct (decide (i = c)) as [|Hn]; [done|].
  assert (i ∈ filter (fun x => x <> c) cls) as Hf by by apply list_elem_of_filter. rewrite E in Hf. by apply elem_of_nil in Hf.
Qed.

Lemma unwatch_ok c w cl : watch_ok w -> clients w !! c = Some cl ->
  exists w', unwatchAllKeys c w = Some w' /\ watch_ok w' /\ clients w' = alter (with_watched []) c (clients w) /\ same_rest w w' /\ touched w' = touched w.
Proof.
  intros Hok Hcl. destruct (ok_client _ Hok c cl Hcl) as (Hnd & Hwk & Hq). unfold unwatchAllKeys. rewrite Hcl. cbn [mbind option_bind].
  case_bool_decide as Hnil.
  { exists w. split_and!; try done. apply map_eq. intros i. destruct (decide (i = c)) as [->|Hi]; [|by rewrite lookup_alter_ne].
    rewrite lookup_alter_eq, Hcl. cbn. by rewrite with_watched_nil. }
  destruct (unwatch_loop_spec c (watched_keys cl) (index w) Hnd) as (idx & -> & Hidx).
  { intros wk Hin. destruct (Hwk wk Hin) as (cls & E & Hc). exists cls. destruct (ok_index _ Hok wk cls E) as (_ & Hn & _). done. }
  cbn [mbind option_bind]. eexists. split; [done|]. split_and!; try done. split.
  - intros i cl' Hl. rewrite lookup_upd in Hl. cbn [clients with_index] in Hl. destruct (decide (i = c)) as [->|Hi].
    + rewrite Hcl in Hl. injection Hl as <-. cbn. split_and!; [constructor|intros wk Hin; by apply elem_of_nil in Hin|done].
    + destruct (ok_client _ Hok i cl' Hl) as (H1 & H2 & H3). split_and!; [done| |done]. intros wk Hin. destruct (H2 wk Hin) as (cls & E & Hc). cbn. rewrite Hidx, E.
      destruct (decide (wk ∈ watched_keys cl)) as [Hw|Hw]; [|by eauto]. cbn [mbind option_bind]. destruct (without c cls) as [cls'|] eqn:Ew.
      * exists cls'. split; [done|]. by apply (without_elem c cls cls').
      * by apply (without_none c cls i) in Ew.
  - intros wk cls Hl. cbn in Hl. rewrite Hidx in Hl.
    assert (exists cls0, index w !! wk = Some cls0 /\ cls <> [] /\ NoDup cls /\ forall i, i ∈ cls -> i ∈ cls0 /\ i <> c) as (cls0 & E & Hne & Hn & Hin).
    { destruct (decide (wk ∈ watched_keys cl)) as [Hw|Hw].
      - destruct (index w !! wk) as [cls0|] eqn:E; [|done]. cbn in Hl. destruct (ok_index _ Hok wk cls0 E) as (_ & Hn0 & _). exists cls0.
        destruct (without_elem c cls0 cls 0 Hl) as (_ & Hne & Hn). split_and!; [done|done|by apply Hn|]. intros i. by apply (without_elem c cls0 cls i).
      - destruct (ok_index _ Hok wk cls Hl) as (Hne & Hn & Hin). exists cls. split_and!; [done..|]. intros i Hi. split; [done|]. intros ->.
        destruct (Hin c Hi) as (cl0 & E0 & Hw0). congruence. }
    split_and!; [done..|]. intros i Hi. destruct (Hin i Hi) as [Hi0 Hic]. destruct (ok_index _ Hok wk cls0 E) as (_ & _ & H3). destruct (H3 i Hi0) as (cl' & E' & Hw').
    exists cl'. rewrite lookup_upd. cbn [clients with_index]. by rewrite decide_False.
Qed.

(** *** Touching keys *)

(** Whether a modification concerns a client. *)
Definition hits (t : touch) (cl : tclient) : bool :=
  match t with
  | Modified db key => bool_decide ((db, key) ∈ watched_keys cl)
  | Flushed dbid x => existsb (fun wk => ((dbid =? -1) || (wk.1 =? dbid)) && key_exists x wk.1 wk.2) (watched_keys cl)
  end.
Definition marked (b : bool) (cl : tclient) : tclient := if b then set_flag CLIENT_DIRTY_CAS cl else cl.

Lemma set_flag_twice m cl : set_flag m (set_flag m cl) = set_flag m cl.
Proof. unfold set_flag, with_tflags. cbn. by rewrite <-Z.lor_assoc, Z.lor_diag. Qed.
Lemma marked_marked a b cl : marked a (marked b cl) = marked (b || a) cl.
Proof. destruct a, b; cbn [marked orb]; [apply set_flag_twice|done..]. Qed.
Lemma watched_marked b cl : watched_keys (marked b cl) = watched_keys cl.
Proof. by destruct b. Qed.
Lemma hits_marked t b cl : hits t (marked b cl) = hits t cl.
Proof. by destruct t, b. Qed.

Lemma mark_dirty_spec l : forall m, NoDup l -> (forall c, c ∈ l -> is_Some (m !! c)) ->
  exists m', mark_dirty l m = Some m' /\ forall c, m' !! c = marked (bool_decide (c ∈ l)) <$> m !! c.
Proof.
  induction l as [|x l IH]; intros m Hnd Hl.
  { exists m. split; [done|]. intros c. rewrite bool_decide_eq_false_2 by apply not_elem_of_nil. by destruct (m !! c). }
  apply NoDup_cons in Hnd as [Hx Hnd]. destruct (Hl x) as [cl Hcl]; [left|]. cbn [mark_dirty]. rewrite Hcl. cbn [mbind option_bind].
  destruct (IH (<[x := set_flag CLIENT_DIRTY_CAS cl]> m) Hnd) as (m' & E & Hm').
  { intros c Hc. rewrite lookup_insert_ne by (intros ->; done). apply Hl. by right. }
  exists m'. split; [done|]. intros c. rewrite Hm'. destruct (decide (c = x)) as [->|Hn].
  - rewrite lookup_insert_eq, Hcl. rewrite bool_decide_eq_false_2 by done. rewrite bool_decide_eq_true_2 by left. done.
  - rewrite lookup_insert_ne by done. do 2 f_equal. apply bool_decide_ext. rewrite elem_of_cons. tauto.
Qed.

Lemma flush_keys_spec x dbid l : forall cl, flush_keys key_exists x dbid l cl =
  marked (existsb (fun wk => ((dbid =? -1) || (wk.1 =? dbid)) && key_exists x wk.1 wk.2) l) cl.
Proof.
  induction l as [|wk l IH]; intros cl; [done|]. cbn [flush_keys existsb]. rewrite IH. set (b := (_ || _) && _).
  change (if b then set_flag CLIENT_DIRTY_CAS cl else cl) with (marked b cl). by rewrite marked_marked.
Qed.

(** Changing all clients in a way that keeps what they watch and queue. *)
Lemma ok_fmap (f : tclient -> tclient) w w' : watch_ok w -> clients w' = f <$> clients w -> index w' = index w ->
  (forall cl, watched_keys (f cl) = watched_keys cl /\ mstate (f cl) = mstate cl) -> watch_ok w'.
Proof.
  intros [Hc Hi] E1 E2 Hf. split.
  - intros i cl Hl. rewrite E1, lookup_fmap in Hl. destruct (clients w !! i) as [cl0|] eqn:E; [|done]. injection Hl as <-. destruct (Hf cl0) as [-> ->]. rewrite E2. by apply (Hc i).
  - intros wk cls Hl. rewrite E2 in Hl. destruct (Hi wk cls Hl) as (H1 & H2 & H3). split_and!; [done|done|]. intros i Hin. destruct (H3 i Hin) as (cl & Hcl & Hw).
    exists (f cl). rewrite E1, lookup_fmap, Hcl. by destruct (Hf cl) as [-> _].
Qed.

Lemma do_touch_ok t w : watch_ok w ->
  exists w', do_touch key_exists t w = Some w' /\ watch_ok w' /\ clients w' = (fun cl => marked (hits t cl) cl) <$> clients w /\ index w' = index w /\
    same_rest w w' /\ touched w' = touched w ++ [t].
Proof.
  intros Hok. assert (exists w', match t with Modified db key => touchWatchedKey db key w | Flushed dbid x => Some (touchWatchedKeysOnFlush key_exists dbid x w) end = Some w' /\
    clients w' = (fun cl => marked (hits t cl) cl) <$> clients w /\ index w' = index w /\ same_rest w w' /\ touched w' = touched w) as (w' & E & Hcl & Hi & Hr & Ht).
  { destruct t as [db key|dbid x].
    - unfold touchWatchedKey. assert (forall i cl, clients w !! i = Some cl -> index w !! (db, key) = None -> hits (Modified db key) cl = false) as Hnone.
      { intros i cl Hl Hn. apply bool_decide_eq_false. intros Hin. destruct (ok_client _ Hok i cl Hl) as (_ & H2 & _). destruct (H2 _ Hin) as (cls & E & _). congruence. }
      assert (index w !! (db, key) = None -> clients w = (fun cl => marked (hits (Modified db key) cl) cl) <$> clients w) as Hsame.
      { intros Hn. apply map_eq. intros i. rewrite lookup_fmap. destruct (clients w !! i) as [cl|] eqn:E; [|done].
        change (Some cl = Some (marked (hits (Modified db key) cl) cl)). by rewrite (Hnone i cl E Hn). }
      case_bool_decide as Hem.
      { exists w. split_and!; [done| |done..]. apply Hsame. destruct (index w !! (db, key)) as [cls|] eqn:E; [|done].
        assert (filter (fun kv : watchedKey * list Z => kv.1.1 = db) (index w) !! (db, key) = Some cls) as Hf by by apply map_lookup_filter_Some.
        rewrite Hem, lookup_empty in Hf. done. }
      destruct (index w !! (db, key)) as [cls|] eqn:E; [|by exists w; split_and!; try done; apply Hsame].
      destruct (ok_index _ Hok _ _ E) as (_ & Hn & Hin). destruct (mark_dirty_spec cls (clients w) Hn) as (m & -> & Hm).
      { intros c Hc. destruct (Hin c Hc) as (cl & -> & _). done. }
      cbn [mbind option_bind]. eexists. split; [done|]. split_and!; try done. cbn. apply map_eq. intros i. rewrite Hm, lookup_fmap.
      destruct (clients w !! i) as [cl|] eqn:Ei; [|done]. cbn. do 2 f_equal. apply bool_decide_ext. split.
      + intros Hi. destruct (Hin i Hi) as (cl' & E' & Hw). congruence.
      + intros Hw. destruct (ok_client _ Hok i cl Ei) as (_ & H2 & _). destruct (H2 _ Hw) as (cls' & E' & Hi). congruence.
    - eexists. split; [done|]. split_and!; try done. cbn. apply map_fmap_ext. intros i cl _. apply flush_keys_spec. }
  unfold do_touch. rewrite E. cbn [mbind option_bind]. eexists. split; [done|]. split_and!; try done.
  - apply (ok_fmap (fun cl => marked (hits t cl) cl) w); [done..|]. intros cl. by destruct (hits t cl).
  - cbn. by rewrite Ht.
Qed.

Definition hit_by (ts : list touch) (cl : tclient) : bool := existsb (fun t => hits t cl) ts.
Lemma hit_marked ts b cl : hit_by ts (marked b cl) = hit_by ts cl.
Proof. unfold hit_by. induction ts as [|t ts IH]; [done|]. cbn [existsb]. by rewrite IH, hits_marked. Qed.

Lemma do_touches_ok ts : forall w, watch_ok w ->
  exists w', do_touches key_exists ts w = Some w' /\ watch_ok w' /\ clients w' = (fun cl => marked (hit_by ts cl) cl) <$> clients w /\ index w' = index w /\
    same_rest w w' /\ touched w' = touched w ++ ts.
Proof.
  induction ts as [|t ts IH]; intros w Hok.
  { exists w. split_and!; try done; [|by rewrite app_nil_r]. symmetry. etrans; [|apply map_fmap_id]. by apply map_fmap_ext. }
  destruct (do_touch_ok t w Hok) as (w1 & E1 & Hok1 & Hc1 & Hi1 & Hr1 & Ht1). cbn [do_touches]. rewrite E1. cbn [mbind option_bind].
  destruct (IH w1 Hok1) as (w2 & E2 & Hok2 & Hc2 & Hi2 & Hr2 & Ht2). exists w2. split_and!; [done|done| |congruence|by eapply same_rest_trans|by rewrite Ht2, Ht1, <-app_assoc].
  rewrite Hc2, Hc1, <-map_fmap_compose. apply map_fmap_ext. intros i cl _. cbn. by rewrite hit_marked, marked_marked.
Qed.

(** *** Every operation of a client keeps the records in agreement, and does to the other
    clients nothing but marking those that watch a modified key. *)
Definition good (c : Z) (w w' : world) : Prop :=
  watch_ok w' /\ is_Some (clients w' !! c) /\
  exists ts, touched w' = touched w ++ ts /\ forall i, i <> c -> clients w' !! i = (fun cl => marked (hit_by ts cl) cl) <$> clients w !! i.

Lemma marked_nothing (o : option tclient) : (fun cl => marked (hit_by [] cl) cl) <$> o = o.
Proof. by destruct o. Qed.

Lemma good_refl c w : watch_ok w -> is_Some (clients w !! c) -> good c w w.
Proof. intros Hok Hc. split_and!; [done|done|]. exists []. split; [by rewrite app_nil_r|]. intros i _. by rewrite marked_nothing. Qed.
Lemma good_trans c w1 w2 w3 : good c w1 w2 -> good c w2 w3 -> good c w1 w3.
Proof.
  intros (_ & _ & ts & Ht & Hi) (Hok & Hc & ts' & Ht' & Hi'). split_and!; [done|done|]. exists (ts ++ ts'). split; [by rewrite Ht', Ht, app_assoc|].
  intros i Hn. rewrite Hi', Hi by done. rewrite <-option_fmap_compose. apply option_fmap_ext. intros cl. cbn. rewrite hit_marked, marked_marked.
  unfold hit_by. by rewrite existsb_app.
Qed.
Lemma good_upd c f w : watch_ok w -> is_Some (clients w !! c) -> (forall cl, clients w !! c = Some cl -> same_watch cl (f cl) /\ queue_ok (f cl)) -> good c w (upd c f w).
Proof.
  intros Hok [cl Hc] Hf. split_and!; [by apply ok_upd|rewrite lookup_upd, decide_True, Hc by done; by eexists|]. exists []. split; [by rewrite app_nil_r|].
  intros i Hi. by rewrite marked_nothing, lookup_upd, decide_False.
Qed.
Lemma good_same c w w' : watch_ok w -> is_Some (clients w !! c) -> clients w' = clients w -> index w' = index w -> touched w' = touched w -> good c w w'.
Proof.
  intros Hok Hc E1 E2 E3. split_and!; [by eapply ok_same|by rewrite E1|]. exists []. split; [by rewrite app_nil_r|]. intros i _. by rewrite marked_nothing, E1.
Qed.
Lemma keeps_queue c w cl : watch_ok w -> clients w !! c = Some cl -> queue_ok cl.
Proof. intros Hok Hc. by destruct (ok_client _ Hok c cl Hc) as (_ & _ & ?). Qed.

(** A change of a client that leaves its queue and its keys. *)
Lemma good_plain c f w : watch_ok w -> is_Some (clients w !! c) -> (forall cl, watched_keys (f cl) = watched_keys cl /\ mstate (f cl) = mstate cl) -> good c w (upd c f w).
Proof.
  intros Hok Hc Hf. apply good_upd; [done|done|]. intros cl E. destruct (Hf cl) as [H1 H2]. split; [done|]. unfold queue_ok. rewrite H2. by apply (keeps_queue c w).
Qed.
Lemma good_unwatch c w cl : watch_ok w -> clients w !! c = Some cl -> exists w', unwatchAllKeys c w = Some w' /\ good c w w' /\ same_rest w w' /\
  clients w' !! c = Some (with_watched [] cl).
Proof.
  intros Hok Hc. destruct (unwatch_ok c w cl Hok Hc) as (w' & E & Hok' & Hcl & Hr & Ht). exists w'.
  assert (clients w' !! c = Some (with_watched [] cl)) as Hc' by (by rewrite Hcl, lookup_alter_eq, Hc).
  split_and!; [done| |done|done]. split_and!; [done|by rewrite Hc'|]. exists []. split; [by rewrite app_nil_r|]. intros i Hi. by rewrite marked_nothing, Hcl, lookup_alter_ne.
Qed.

(** The state of a client that is in no transaction. *)
Definition TX_FLAGS : Z := Z.lor (Z.lor CLIENT_MULTI CLIENT_DIRTY_CAS) CLIENT_DIRTY_EXEC.
Definition no_transaction (cl : tclient) : tclient := with_watched [] (clear_flag TX_FLAGS (with_mstate initClientMultiState cl)).

Lemma upd_upd c f g (w : world) : upd c f (upd c g w) = upd c (fun cl => f (g cl)) w.
Proof. unfold upd, with_clients. cbn. f_equal. apply alter_alter_eq. Qed.
Lemma lookup_upd_same c f (w : world) cl : clients w !! c = Some cl -> clients (upd c f w) !! c = Some (f cl).
Proof. intros Hc. by rewrite lookup_upd, decide_True, Hc by done. Qed.

Lemma discard_ok c w cl : watch_ok w -> clients w !! c = Some cl ->
  exists w', discardTransaction c w = Some w' /\ good c w w' /\ same_rest w w' /\ clients w' !! c = Some (no_transaction cl).
Proof.
  intros Hok Hc. unfold discardTransaction. fold TX_FLAGS. rewrite upd_upd. set (f := fun cl => clear_flag TX_FLAGS (with_mstate initClientMultiState cl)).
  assert (good c w (upd c f w)) as Hg.
  { apply good_upd; [done|by rewrite Hc|]. intros cl0 _. split; [done|]. intros mc Hmc. by apply elem_of_nil in Hmc. }
  destruct (good_unwatch c (upd c f w) (f cl)) as (w' & -> & Hg' & Hr & Hc'); [apply Hg|by apply lookup_upd_same|].
  exists w'. split_and!; [done|by eapply good_trans|done|done].
Qed.

Lemma good_some c w w' : good c w w' -> watch_ok w' /\ is_Some (clients w' !! c).
Proof. by intros (H1 & H2 & _). Qed.
Lemma ends_with c (w : world) r : watch_ok w -> is_Some (clients w !! c) -> good c w (upd c (add_reply r) w).
Proof. intros Hok Hc. by apply good_plain. Qed.
#[local] Hint Resolve good_refl good_trans good_some : redis.

Lemma watchForKey_ok c key w : watch_ok w -> is_Some (clients w !! c) -> exists w', watchForKey c key w = Some w' /\ good c w w'.
Proof.
  intros Hok [cl Hc]. unfold watchForKey. rewrite Hc. cbn [mbind option_bind]. set (wk := (tdb cl, key)). case_bool_decide as Hin.
  { exists w. split; [done|]. by apply good_refl. }
  eexists. split; [done|]. set (cls := default [] (index w !! wk)).
  assert (NoDup cls /\ (c ∉ cls) /\ forall i, i ∈ cls -> exists cl, clients w !! i = Some cl /\ wk ∈ watched_keys cl) as (Hnd & Hnc & Hcls).
  { unfold cls. destruct (index w !! wk) as [l|] eqn:E; cbn; [|split_and!; [constructor|apply not_elem_of_nil|intros i Hi; by apply elem_of_nil in Hi]].
    destruct (ok_index _ Hok _ _ E) as (_ & Hn & Hi). split_and!; [done| |done]. intros Hcl. destruct (Hi c Hcl) as (cl' & E' & Hw). congruence. }
  split_and!; [|rewrite lookup_upd, decide_True by done; cbn; by rewrite Hc|].
  - split.
    + intros i cl' Hl. rewrite lookup_upd in Hl. cbn [clients with_index] in Hl. destruct (decide (i = c)) as [->|Hi].
      * rewrite Hc in Hl. injection Hl as <-. destruct (ok_client _ Hok c cl Hc) as (H1 & H2 & H3). cbn. split_and!; [| |done].
        -- apply NoDup_app. split_and!; [done| |apply NoDup_singleton]. intros k Hk Hk'. apply list_elem_of_singleton in Hk' as ->. done.
        -- intros k Hk. apply elem_of_app in Hk as [Hk|Hk%list_elem_of_singleton].
           ++ destruct (H2 k Hk) as (cls' & E & Hc'). rewrite lookup_insert_ne by (intros <-; done). eauto.
           ++ subst k. rewrite lookup_insert_eq. eexists. split; [done|]. apply elem_of_app. right. by apply list_elem_of_singleton.
      * destruct (ok_client _ Hok i cl' Hl) as (H1 & H2 & H3). split_and!; [done| |done]. intros k Hk. destruct (H2 k Hk) as (cls' & E & Hi'). cbn.
        destruct (decide (k = wk)) as [->|Hk']; [|rewrite lookup_insert_ne by done; by eauto]. rewrite lookup_insert_eq. eexists. split; [done|].
        apply elem_of_app. left. unfold cls. by rewrite E.
    + intros k l Hl. cbn in Hl. destruct (decide (k = wk)) as [->|Hk].
      * rewrite lookup_insert_eq in Hl. injection Hl as <-. split_and!; [by destruct cls| |].
        -- apply NoDup_app. split_and!; [done| |apply NoDup_singleton]. intros i Hi Hi'. apply list_elem_of_singleton in Hi' as ->. done.
        -- intros i Hi. rewrite lookup_upd. cbn [clients with_index]. destruct (decide (i = c)) as [->|Hic].
           ++ rewrite Hc. eexists. split; [done|]. cbn. apply elem_of_app. right. by apply list_elem_of_singleton.
           ++ apply elem_of_app in Hi as [Hi|Hi%list_elem_of_singleton]; [by apply Hcls|done].
      * rewrite lookup_insert_ne in Hl by done. destruct (ok_index _ Hok k l Hl) as (H1 & H2 & H3). split_and!; [done|done|]. intros i Hi. destruct (H3 i Hi) as (cl' & E & Hw).
        rewrite lookup_upd. cbn [clients with_index]. destruct (decide (i = c)) as [->|Hic]; [|by eauto]. rewrite Hc in *. eexists. split; [done|]. cbn.
        apply elem_of_app. left. congruence.
  - exists []. split; [by rewrite app_nil_r|]. intros i Hi. by rewrite marked_nothing, lookup_upd, decide_False.
Qed.

Lemma watch_loop_ok c keys : forall w, watch_ok w -> is_Some (clients w !! c) -> exists w', watch_loop c keys w = Some w' /\ good c w w'.
Proof.
  induction keys as [|k keys IH]; intros w Hok Hc; [exists w; split; [done|by apply good_refl]|]. cbn [watch_loop].
  destruct (watchForKey_ok c k w Hok Hc) as (w1 & -> & Hg). cbn [mbind option_bind]. destruct (good_some _ _ _ Hg) as [Hok1 Hc1].
  destruct (IH w1 Hok1 Hc1) as (w2 & -> & Hg2). exists w2. split; [done|by eapply good_trans].
Qed.

(** What a command that is not of this file does, to its client as well. *)
Lemma call_other_ok full c cmd w cl : watch_ok w -> clients w !! c = Some cl ->
  let e := effect (data w) (tdb cl) cmd (targv cl) in
  exists w', call_other key_exists effect full c cmd w = Some (w', eff_dirty e) /\ good c w w' /\ data w' = eff_data e /\ propagated w' = propagated w ++ (if full then eff_propagate e else []) /\
    masterhost w' = eff_slave e /\ repl_backlog w' = repl_backlog w /\
    exists cl', clients w' !! c = Some cl' /\ mstate cl' = mstate cl /\ tcmd cl' = tcmd cl /\ targv cl' = eff_argv e /\ tdb cl' = eff_db e /\
      replies cl' = replies cl ++ eff_reply e /\ watched_keys cl' = watched_keys cl /\ tflags cl' = tflags (marked (hit_by (eff_touch e) cl) cl).
Proof.
  intros Hok Hc e. unfold call_other. rewrite Hc. cbn [mbind option_bind]. fold e.
  destruct (do_touches_ok (eff_touch e) w Hok) as (w1 & -> & Hok1 & Hcl1 & Hi1 & (Hd1 & Hp1 & Hm1 & Hb1) & Ht1). cbn [mbind option_bind].
  assert (clients w1 !! c = Some (marked (hit_by (eff_touch e) cl) cl)) as Hc1 by (by rewrite Hcl1, lookup_fmap, Hc).
  set (f := fun cl0 => with_replies _ _). set (w2 := upd c f (with_data (eff_data e) w1)). eexists. split; [done|].
  assert (good c w w1) as Hg1.
  { split_and!; [done|by rewrite Hc1|]. exists (eff_touch e). split; [done|]. intros i _. by rewrite Hcl1, lookup_fmap. }
  assert (good c w1 (with_data (eff_data e) w1)) as Hg1' by (apply good_same; try done; by rewrite Hc1).
  assert (good c (with_data (eff_data e) w1) w2) as Hg2.
  { apply good_plain; [apply Hg1'|apply Hg1'|]. intros cl0. by destruct cl0. }
  split_and!.
  - eapply good_trans; [exact Hg1|]. eapply good_trans; [exact Hg1'|]. eapply good_trans; [exact Hg2|]. by apply good_same; [apply Hg2|apply Hg2|..].
  - done.
  - cbn. by rewrite Hp1.
  - done.
  - cbn. by rewrite Hb1.
  - eexists. split; [cbn [clients with_master with_propagated]; unfold w2; by apply lookup_upd_same|]. destruct (hit_by (eff_touch e) cl); by split_and!.
Qed.

(** *** Running a queue, as a function of the commands *)
Record qstate := mk_q { q_data : X; q_db : Z; q_replies : list reply; q_propagated : list (list (list Z)); q_must : bool; q_dirty : bool; q_slave : bool }.
Definition starts_block (must : bool) (cmd : redisCommand) : bool := negb must && negb (has (cmd_flags cmd) (Z.lor CMD_READONLY CMD_ADMIN)).
Definition run_one (full : bool) (q : qstate) (mc : multiCmd) : qstate :=
  let first := starts_block (q_must q) (mc_cmd mc) in
  let prop := if first then q_propagated q ++ [[str "MULTI"]] else q_propagated q in
  match proc (mc_cmd mc) with
  | unwatchCommand_ => mk_q (q_data q) (q_db q) (q_replies q ++ [Shared ok_]) prop (q_must q || first) (q_dirty q) (q_slave q)
  | _ =>
    let e := effect (q_data q) (q_db q) (mc_cmd mc) (mc_argv mc) in
    mk_q (eff_data e) (eff_db e) (q_replies q ++ eff_reply e) (prop ++ (if full then eff_propagate e else [])) (q_must q || first) (q_dirty q || eff_dirty e) (eff_slave e)
  end.
Definition run_queue (full : bool) (q : qstate) (l : list multiCmd) : qstate := foldl (run_one full) q l.

(** The world in which the queue is at q, for a client that watches nothing. *)
Definition at_queue (c : Z) (q : qstate) (w : world) (cl : tclient) : Prop :=
  clients w !! c = Some cl /\ data w = q_data q /\ tdb cl = q_db q /\ replies cl = q_replies q /\ propagated w = q_propagated q /\ masterhost w = q_slave q /\ watched_keys cl = [].

Lemma hit_nothing ts cl : watched_keys cl = [] -> hit_by ts cl = false.
Proof.
  intros Hw. unfold hit_by. induction ts as [|t ts IH]; [done|]. cbn [existsb]. rewrite IH, orb_false_r. destruct t; cbn; rewrite Hw; [|done].
  apply bool_decide_eq_false, not_elem_of_nil.
Qed.

Lemma call_queued_ok full c w cl q mc : watch_ok w -> at_queue c q w cl -> exempt_from_queue (mc_cmd mc) = false -> tcmd cl = Some (mc_cmd mc) -> targv cl = mc_argv mc ->
  let w0 := if starts_block (q_must q) (mc_cmd mc) then execCommandPropagateMulti w else w in
  exists w' d cl', call_queued key_exists effect full c (mc_cmd mc) w0 = Some (w', d) /\ good c w w' /\ at_queue c (run_one full q mc) w' cl' /\
    q_dirty (run_one full q mc) = q_dirty q || d /\ mstate cl' = mstate cl /\ (exists cmd, tcmd cl' = Some cmd /\ cmd = mc_cmd mc) /\ repl_backlog w' = repl_backlog w /\
    has (tflags cl') CLIENT_MULTI = has (tflags cl) CLIENT_MULTI.
Proof.
  intros Hok (Hc & Hd & Hdb & Hrep & Hp & Hm & Hw) Hex Hcmd Hargv w0.
  assert (good c w w0) as Hg0 by (unfold w0; destruct (starts_block _ _); [apply good_same|apply good_refl]; try done; by rewrite Hc).
  assert (clients w0 !! c = Some cl /\ data w0 = data w /\ masterhost w0 = masterhost w /\ repl_backlog w0 = repl_backlog w /\
    propagated w0 = if starts_block (q_must q) (mc_cmd mc) then propagated w ++ [[str "MULTI"]] else propagated w) as (Hc0 & Hd0 & Hm0 & Hb0 & Hp0)
    by (unfold w0; by destruct (starts_block _ _)).
  assert (watch_ok w0) as Hok0 by apply Hg0. unfold call_queued, run_one.
  destruct (decide (proc (mc_cmd mc) = unwatchCommand_)) as [Hu|Hu].
  - rewrite Hu. unfold unwatchCommand. destruct (good_unwatch c w0 cl Hok0 Hc0) as (w1 & -> & Hg1 & (Hd1 & Hp1 & Hm1 & Hb1) & Hc1). cbn [mbind option_bind]. rewrite upd_upd.
    set (f := fun cl0 => add_reply (Shared ok_) (clear_flag CLIENT_DIRTY_CAS cl0)). eexists _, false, (f (with_watched [] cl)). split; [done|].
    assert (good c w1 (upd c f w1)) as Hg2 by (apply good_plain; [apply Hg1|apply Hg1|by intros []]). split_and!; cbn.
    + eapply good_trans; [exact Hg0|]. by eapply good_trans.
    + split_and!; cbn; [by apply (lookup_upd_same c f)|congruence|done|by rewrite Hrep|by rewrite Hp1, Hp0, Hp|congruence|done].
    + by rewrite orb_false_r.
    + done.
    + eauto.
    + congruence.
    + unfold has. f_equal. f_equal. apply Z.bits_inj'. intros n Hn. rewrite !Z.land_spec, Z.ldiff_spec. unfold CLIENT_MULTI, CLIENT_DIRTY_CAS.
      rewrite !Z.pow2_bits_eqb by lia. destruct (Z.eqb_spec 3 n) as [<-|]; [by rewrite andb_true_r|by rewrite !andb_false_r].
  - assert (forall A (a b : A), match proc (mc_cmd mc) with execCommand_ | discardCommand_ | multiCommand_ | watchCommand_ => a | unwatchCommand_ => a | _ => b end = b) as Hmatch.
    { intros A a b. unfold exempt_from_queue, is_proc in Hex. cbn in Hex. destruct (proc (mc_cmd mc)); done. }
    destruct (call_other_ok full c (mc_cmd mc) w0 cl Hok0 Hc0) as (w1 & E & Hg1 & Hd1 & Hp1 & Hm1 & Hb1 & cl' & Hc1 & Hms & Hcm & Har & Hdb' & Hre & Hwa & Hfl).
    rewrite Hd0, Hd, Hdb, Hargv in *. set (e := effect _ _ _ _) in *. exists w1, (eff_dirty e), cl'.
    assert (call_queued key_exists effect full c (mc_cmd mc) w0 = call_other key_exists effect full c (mc_cmd mc) w0) as Hcq.
    { unfold call_queued. unfold exempt_from_queue, is_proc in Hex. cbn in Hex. destruct (proc (mc_cmd mc)); done. }
    unfold call_queued in Hcq. rewrite Hcq, E. split; [done|]. split; [by eapply good_trans|].
    assert (run_one full q mc = mk_q (eff_data e) (eff_db e) (q_replies q ++ eff_reply e)
      ((if starts_block (q_must q) (mc_cmd mc) then q_propagated q ++ [[str "MULTI"]] else q_propagated q) ++ (if full then eff_propagate e else []))
      (q_must q || starts_block (q_must q) (mc_cmd mc)) (q_dirty q || eff_dirty e) (eff_slave e)) as Hrun.
    { unfold run_one. fold e. destruct (proc (mc_cmd mc)); done. }
    unfold run_one in Hrun. fold e in Hrun. rewrite Hrun. cbn. split_and!.
    + split_and!; cbn; [done|done|done|by rewrite Hre, Hrep|by rewrite Hp1, Hp0, Hp|done|congruence].
    + done.
    + done.
    + eexists. split; [by rewrite Hcm|]. by rewrite Hcmd in *.
    + congruence.
    + by rewrite Hfl, hit_nothing.
Qed.

Lemma queue_insert (l : list multiCmd) (j : nat) mc argv : (forall m, m ∈ l -> exempt_from_queue (mc_cmd m) = false) -> exempt_from_queue (mc_cmd mc) = false ->
  forall m, m ∈ <[j := mk_mc (mc_cmd mc) argv]> l -> exempt_from_queue (mc_cmd m) = false.
Proof.
  intros Hl Hmc m Hm. apply list_elem_of_lookup_1 in Hm as [i Hi]. apply list_lookup_insert_Some in Hi as [(_ & <- & _)|[_ Hi]]; [done|].
  by apply Hl, (list_elem_of_lookup_2 _ i).
Qed.

(** The loop runs the rest of the queue. *)
Lemma exec_loop_ok full c rest : forall j q w cl, watch_ok w -> at_queue c q w cl -> drop j (commands (mstate cl)) = rest ->
  exists w' cl', exec_loop key_exists effect (S (length rest)) full c j (q_must q) (q_dirty q) w =
      Some (w', q_must (run_queue full q rest), q_dirty (run_queue full q rest)) /\
    good c w w' /\ at_queue c (run_queue full q rest) w' cl' /\ repl_backlog w' = repl_backlog w.
Proof.
  induction rest as [|mc rest IH]; intros j q w cl Hok Hq Hdrop; pose proof Hq as (Hc & _); cbn [length exec_loop]; rewrite Hc; cbn [mbind option_bind].
  { rewrite <-(Nat.add_0_r j), <-lookup_drop, Hdrop. cbn. exists w, cl. split_and!; [done|by apply good_refl|done|done]. }
  assert (commands (mstate cl) !! j = Some mc) as Hj by (by rewrite <-(Nat.add_0_r j), <-lookup_drop, Hdrop).
  rewrite Hj.
  assert (exempt_from_queue (mc_cmd mc) = false) as Hex by (by eapply (keeps_queue c w cl), list_elem_of_lookup_2).
  set (f := with_command (Some (mc_cmd mc)) (mc_argv mc)). assert (good c w (upd c f w)) as Hg1 by (apply good_plain; [done|by rewrite Hc|by intros []]).
  assert (at_queue c q (upd c f w) (f cl)) as Hq1.
  { destruct Hq as (? & ? & ? & ? & ? & ? & ?). split_and!; try done. by apply lookup_upd_same. }
  destruct (call_queued_ok full c (upd c f w) (f cl) q mc) as (w2 & d & cl2 & E2 & Hg2 & Hq2 & Hd2 & Hms2 & (cmd & Hcmd & ->) & Hb2 & _); [apply Hg1|done..|].
  unfold starts_block in E2. rewrite E2. cbn [mbind option_bind]. pose proof Hq2 as (Hc2 & _). rewrite Hc2. cbn [mbind option_bind]. rewrite Hcmd. cbn [mbind option_bind].
  set (g := with_mstate _). assert (good c w2 (upd c g w2)) as Hg3.
  { apply good_upd; [apply Hg2|by rewrite Hc2|]. intros cl0 _. split; [done|]. refine (queue_insert _ j mc _ _ Hex). apply (keeps_queue c w2); [apply Hg2|done]. }
  destruct (IH (S j) (run_one full q mc) (upd c g w2) (g cl2)) as (w' & cl' & E & Hg & Hq' & Hb').
  - apply Hg3.
  - destruct Hq2 as (? & ? & ? & ? & ? & ? & ?). split_and!; try done. by apply lookup_upd_same.
  - cbn. rewrite drop_insert_lt by lia. rewrite Hms2. cbn. rewrite <-Nat.add_1_r, <-drop_drop. by rewrite Hdrop.
  - exists w', cl'. assert (q_must q || starts_block (q_must q) (mc_cmd mc) = q_must (run_one full q mc)) as Hmust by (unfold run_one; by destruct (proc (mc_cmd mc))).
    unfold starts_block in Hmust. rewrite Hmust, <-Hd2. split_and!; [exact E| |done|by rewrite Hb'].
    eapply good_trans; [exact Hg1|]. eapply good_trans; [exact Hg2|]. by eapply good_trans.
Qed.
End Watching.
