(* ===== verification/MultiSpec.v ===== *)
(** * What transactions promise

    The commands of the clients, connections, disconnections and the work the server does in
    the background as events, the invariant over all histories of them, and the outcome
    of an EXEC: nothing, when a watched key was modified since the WATCH, and otherwise
    the queued commands one after the other. *)
From stdpp Require Import prelude list gmap strings.
From Stdlib Require Import ZArith Lia.
From S2P Require Import Prelude Util SdsText Rio Rdb Reply Resp Multi.

Local Open Scope Z_scope.
Local Open Scope redis_scope.

(** ** Flags *)

Lemma has_union f m k : has (Z.lor f m) k = has f k || has m k.
Proof.
  unfold has. rewrite Z.land_lor_distr_l. destruct (Z.eqb_spec (Z.land f k) 0) as [->|H1]; [by rewrite Z.lor_0_l|].
  destruct (Z.eqb_spec (Z.lor (Z.land f k) (Z.land m k)) 0) as [E|]; [|done]. by apply Z.lor_eq_0_iff in E as [? _].
Qed.
Lemma has_mask f a b : has f (Z.lor a b) = has f a || has f b.
Proof. unfold has. rewrite !(Z.land_comm f). apply (has_union a b f). Qed.
Lemma has_ldiff_self f m : has (Z.ldiff f m) m = false.
Proof. unfold has. by rewrite Z.land_ldiff. Qed.
Lemma has_set_flag m k cl : has (tflags (set_flag m cl)) k = has (tflags cl) k || has m k.
Proof. apply has_union. Qed.
Lemma has_marked b k cl : has (tflags (marked b cl)) k = has (tflags cl) k || (b && has CLIENT_DIRTY_CAS k).
Proof. destruct b; [apply has_set_flag|]. cbn. by rewrite orb_false_r. Qed.

(** ** Histories *)

Section Histories.
Context {X : Type} (key_exists : X -> Z -> list Z -> bool) (effect : X -> Z -> redisCommand -> list (list Z) -> effects (X := X)).
Abbreviation world := (@world X).
Abbreviation good := (good key_exists).
Abbreviation hit_by := (hit_by key_exists).

(** createClient: the members that are used here. *)
Definition createClient : tclient := mk_tclient 0 0 [] initClientMultiState None [] false [].

Inductive event :=
  | Connect (i : Z)
  | Request (e : senv (X := X)) (i : Z) (args : list (list Z))
  | Disconnect (i : Z)
  | Background (f : X -> X * list (touch (X := X))).

Definition run_event (ev : event) (w : world) : option world :=
  match ev with
  | Connect i => Some (with_clients (<[i := createClient]> (clients w)) w)
  | Request e i args => snd <$> processCommand key_exists effect e i (upd i (with_command None args) w)
  | Disconnect i => free_client i w
  | Background f => let '(x, ts) := f (data w) in w ← do_touches key_exists ts w; Some (with_data x w)
  end.
(** A new client has a number of its own, only clients that are connected send requests, and the filters of
    modules leave a command name. *)
Definition enabled (ev : event) (w : world) : bool :=
  match ev with
  | Connect i => bool_decide (clients w !! i = None)
  | Request e i args => bool_decide (is_Some (clients w !! i)) && negb (bool_decide (filters e args = []))
  | Disconnect i => bool_decide (is_Some (clients w !! i))
  | Background f => true
  end.
Fixpoint history (evs : list event) (w : world) : option world :=
  match evs with [] => Some w | ev :: evs => if enabled ev w then w ← run_event ev w; history evs w else None end.
Definition init_world (x : X) (slave : bool) (backlog : option (list Z)) : world := mk_world ∅ ∅ x [] slave backlog [].

(** *** What an operation of one client does, and to the other clients *)
Definition affects (c : Z) (w w' : world) : Prop :=
  watch_ok w' /\ exists ts, touched w' = touched w ++ ts /\ forall i, i <> c -> clients w' !! i = (fun cl => marked (hit_by ts cl) cl) <$> clients w !! i.

(** While a client goes on watching its keys, it is marked when one of them is modified and only then. *)
Definition window (c : Z) (w w' : world) : Prop := exists ts cl cl',
  touched w' = touched w ++ ts /\ clients w !! c = Some cl /\ clients w' !! c = Some cl' /\ watched_keys cl' = watched_keys cl /\
  has (tflags cl') CLIENT_DIRTY_CAS = has (tflags cl) CLIENT_DIRTY_CAS || hit_by ts cl.

Lemma hit_by_watched ts cl cl' : watched_keys cl' = watched_keys cl -> hit_by ts cl' = hit_by ts cl.
Proof.
  intros Hw. unfold Multi.hit_by. induction ts as [|t ts IH]; [done|]. cbn [existsb]. rewrite IH. f_equal. destruct t; cbn; by rewrite Hw.
Qed.
Lemma hit_by_app ts ts' cl : hit_by (ts ++ ts') cl = hit_by ts cl || hit_by ts' cl.
Proof. apply existsb_app. Qed.

Lemma window_trans c w1 w2 w3 : window c w1 w2 -> window c w2 w3 -> window c w1 w3.
Proof.
  intros (ts & cl & cl2 & Ht & Hc & Hc2 & Hw & Hf) (ts' & cl2' & cl3 & Ht' & Hc2' & Hc3 & Hw' & Hf').
  assert (cl2' = cl2) as -> by congruence. exists (ts ++ ts'), cl, cl3. split_and!; [by rewrite Ht', Ht, app_assoc|done|done|congruence|].
  by rewrite Hf', Hf, (hit_by_watched ts' cl cl2 Hw), hit_by_app, orb_assoc.
Qed.
Lemma window_upd c f w : is_Some (clients w !! c) ->
  (forall cl, watched_keys (f cl) = watched_keys cl /\ has (tflags (f cl)) CLIENT_DIRTY_CAS = has (tflags cl) CLIENT_DIRTY_CAS) -> window c w (upd c f w).
Proof.
  intros [cl Hc] Hf. exists [], cl, (f cl). destruct (Hf cl) as [Hw Hb]. split_and!; [by rewrite app_nil_r|done|by apply lookup_upd_same|done|].
  by rewrite Hb, orb_false_r.
Qed.
Lemma window_same c w w' : is_Some (clients w !! c) -> clients w' = clients w -> touched w' = touched w -> window c w w'.
Proof. intros [cl Hc] E1 E2. exists [], cl, cl. rewrite E1, E2, app_nil_r. split_and!; try done. by rewrite orb_false_r. Qed.
Lemma window_marked c w w' ts : is_Some (clients w !! c) -> touched w' = touched w ++ ts ->
  clients w' !! c = (fun cl => marked (hit_by ts cl) cl) <$> clients w !! c -> window c w w'.
Proof.
  intros [cl Hc] Ht Hm. rewrite Hc in Hm. eexists ts, cl, _. split_and!; [done|done|exact Hm|apply watched_marked|].
  by rewrite has_marked, andb_true_r.
Qed.
Lemma affects_window c i w w' : affects c w w' -> i <> c -> is_Some (clients w !! i) -> window i w w'.
Proof. intros (_ & ts & Ht & Hi) Hn Hs. eapply window_marked; [done|done|by apply Hi]. Qed.
Lemma good_affects c w w' : good c w w' -> affects c w w'.
Proof. by intros (H1 & _ & H2). Qed.

(** An operation of client c, which keeps the watch of c if [q] holds. *)
Definition does (q : Prop) (c : Z) (w w' : world) : Prop := good c w w' /\ (q -> window c w w').
Lemma does_trans q c w1 w2 w3 : does q c w1 w2 -> does q c w2 w3 -> does q c w1 w3.
Proof. intros [H1 H2] [H3 H4]. split; [by eapply good_trans|]. intros Hq. eapply window_trans; [by apply H2|by apply H4]. Qed.
Lemma does_alive (q : Prop) c w w' : does q c w w' -> watch_ok w' /\ is_Some (clients w' !! c).
Proof. intros [Hg _]. exact (good_some key_exists c w w' Hg). Qed.

(** Changes of a client that keep its keys, its queue and whether it was marked. *)
Definition harmless (f : tclient -> tclient) : Prop := forall cl,
  watched_keys (f cl) = watched_keys cl /\ mstate (f cl) = mstate cl /\ has (tflags (f cl)) CLIENT_DIRTY_CAS = has (tflags cl) CLIENT_DIRTY_CAS.
Lemma does_upd q c f w : harmless f -> watch_ok w -> is_Some (clients w !! c) -> does q c w (upd c f w).
Proof. intros Hf Hok Hc. split; [apply good_plain; [done..|]|intros _; apply window_upd; [done|]]; intros cl; destruct (Hf cl) as (? & ? & ?); done. Qed.
Lemma does_same q c w w' : watch_ok w -> is_Some (clients w !! c) -> clients w' = clients w -> index w' = index w -> touched w' = touched w -> does q c w w'.
Proof. intros Hok Hc E1 E2 E3. split; [by apply good_same|]. intros _. by apply window_same. Qed.
Lemma does_not (q : Prop) c w w' : ~ q -> good c w w' -> does q c w w'.
Proof. by intros Hn Hg. Qed.

Lemma harmless_reply r : harmless (add_reply r).
Proof. done. Qed.
Lemma harmless_command m a : harmless (with_command m a).
Proof. done. Qed.
Lemma harmless_set m : has m CLIENT_DIRTY_CAS = false -> harmless (set_flag m).
Proof. intros Hm cl. split_and!; [done|done|]. by rewrite has_set_flag, Hm, orb_false_r. Qed.
Lemma harmless_flag : harmless flagTransaction.
Proof. intros cl. unfold flagTransaction. destruct (has _ _); [|done]. by apply harmless_set. Qed.
#[local] Hint Resolve harmless_reply harmless_command harmless_flag : redis.

Lemma does_touches q c ts x w : watch_ok w -> is_Some (clients w !! c) -> exists w', do_touches key_exists ts w = Some w' /\ does q c w (with_data x w').
Proof.
  intros Hok Hc. destruct (do_touches_ok key_exists ts w Hok) as (w' & E & Hok' & Hcl & Hi & Hr & Ht). exists w'. split; [done|].
  assert (forall i, clients (with_data x w') !! i = (fun cl => marked (hit_by ts cl) cl) <$> clients w !! i) as Hm by (intros i; cbn; by rewrite Hcl, lookup_fmap).
  split; [|intros _; by eapply window_marked]. split_and!; [by apply (ok_same w')|rewrite Hm; destruct Hc as [? ->]; done|]. exists ts. by split.
Qed.

(** *** EXEC *)

(** A client that is in no transaction and watches nothing. *)
Definition idle (cl : tclient) : Prop := has (tflags cl) TX_FLAGS = false /\ watched_keys cl = [] /\ mstate cl = initClientMultiState.
Lemma idle_no_transaction cl : idle (no_transaction cl).
Proof. split_and!; [apply has_ldiff_self|done|done]. Qed.

(** The transaction ends with a reply and nothing else. *)
Definition aborted (c : Z) (r : reply) (cl : tclient) (w w' : world) : Prop :=
  same_rest w w' /\ touched w' = touched w /\ clients w' !! c = Some (no_transaction (add_reply r cl)).
(** The commands of the queue ran one after the other. *)
Definition queue_start (cl : tclient) (w : world) : qstate :=
  mk_q (data w) (tdb cl) (replies cl ++ [MultiBulkLen (Z.of_nat (length (commands (mstate cl))))]) (propagated w) false false (masterhost w).
Definition ran (full : bool) (c : Z) (cl : tclient) (w w' : world) (d : bool) : Prop :=
  let q := run_queue effect full (queue_start cl w) (commands (mstate cl)) in
  data w' = q_data q /\ propagated w' = q_propagated q /\ masterhost w' = q_slave q /\ d = q_must q || q_dirty q /\
  repl_backlog w' = (if q_must q && negb (masterhost w) && q_slave q then (fun b => b ++ str "*1" ++ crlf ++ str "$4" ++ crlf ++ str "EXEC" ++ crlf) <$> repl_backlog w else repl_backlog w) /\
  exists cl', clients w' !! c = Some cl' /\ replies cl' = q_replies q /\ tdb cl' = q_db q /\ targv cl' = targv cl /\ tcmd cl' = tcmd cl /\ idle cl'.

(** What EXEC is meant to do. *)
Definition exec_outcome (loading slave_ro : bool) (c : Z) (cl : tclient) (w w' : world) (d : bool) : Prop :=
  if negb (has (tflags cl) CLIENT_MULTI) then w' = upd c (add_reply (ErrorText (str "EXEC without MULTI"))) w /\ d = false
  else if has (tflags cl) CLIENT_DIRTY_EXEC then aborted c (Shared execaborterr) cl w w' /\ d = false
  else if has (tflags cl) CLIENT_DIRTY_CAS then aborted c (Shared nullmultibulk_) cl w w' /\ d = false
  else if negb loading && masterhost w && slave_ro && negb (has (tflags cl) CLIENT_MASTER) && has (ms_cmd_flags (mstate cl)) CMD_WRITE then
    aborted c (ErrorText (str "Transaction contains write commands but instance is now a read-only slave. EXEC aborted.")) cl w w' /\ d = false
  else ran (negb loading) c cl w w' d.

Lemma abort_ok c r w cl : watch_ok w -> clients w !! c = Some cl ->
  exists w', discardTransaction c (upd c (add_reply r) w) = Some w' /\ good c w w' /\ aborted c r cl w w'.
Proof.
  intros Hok Hc. assert (good c w (upd c (add_reply r) w)) as Hg by (apply ends_with; [done|by rewrite Hc]).
  destruct (discard_ok key_exists c (upd c (add_reply r) w) (add_reply r cl)) as (w' & E & Hg' & Hr & Hc'); [apply Hg|by apply lookup_upd_same|].
  exists w'. split; [done|]. split; [by eapply good_trans|]. split; [done|]. split; [|done]. unfold discardTransaction in E. rewrite upd_upd in E.
  destruct (unwatch_ok c (upd c (fun cl => clear_flag TX_FLAGS (with_mstate initClientMultiState cl)) (upd c (add_reply r) w))
    (clear_flag TX_FLAGS (with_mstate initClientMultiState (add_reply r cl)))) as (w1 & E1 & _ & _ & _ & Ht).
  - apply ok_upd; [apply Hg|]. intros cl0 _. split; [done|]. intros mc Hmc. by apply elem_of_nil in Hmc.
  - rewrite upd_upd. by apply (lookup_upd_same c (fun cl => clear_flag TX_FLAGS (with_mstate initClientMultiState (add_reply r cl)))).
  - fold TX_FLAGS in E. rewrite E1 in E. injection E as <-. by rewrite Ht.
Qed.

Lemma exec_runs loading c w cl : watch_ok w -> clients w !! c = Some cl ->
  let q := run_queue effect (negb loading) (queue_start cl w) (commands (mstate cl)) in
  exists w0 w1 w2 w3, unwatchAllKeys c w = Some w0 /\
    exec_loop key_exists effect (S (length (commands (mstate cl)))) (negb loading) c 0 false false
      (upd c (add_reply (MultiBulkLen (Z.of_nat (length (commands (mstate cl)))))) w0) = Some (w1, q_must q, q_dirty q) /\
    w2 = upd c (with_command (tcmd cl) (targv cl)) w1 /\ discardTransaction c w2 = Some w3 /\ good c w w3 /\
    data w3 = q_data q /\ propagated w3 = q_propagated q /\ masterhost w3 = q_slave q /\ repl_backlog w3 = repl_backlog w /\
    exists cl', clients w3 !! c = Some cl' /\ replies cl' = q_replies q /\ tdb cl' = q_db q /\ targv cl' = targv cl /\ tcmd cl' = tcmd cl /\ idle cl'.
Proof.
  intros Hok Hc q. destruct (good_unwatch key_exists c w cl Hok Hc) as (w0 & E0 & Hg0 & (Hd0 & Hp0 & Hm0 & Hb0) & Hc0).
  set (f := add_reply _). assert (good c w0 (upd c f w0)) as Hg1 by (apply ends_with; apply Hg0).
  destruct (exec_loop_ok key_exists effect (negb loading) c (commands (mstate cl)) 0 (queue_start cl w) (upd c f w0) (f (with_watched [] cl)))
    as (w1 & cl1 & E1 & Hg2 & (Hc1 & Hd1 & Hdb1 & Hr1 & Hp1 & Hm1 & Hw1) & Hb1); [apply Hg1| |done|].
  { split_and!; try done. by apply lookup_upd_same. }
  set (g := with_command (tcmd cl) (targv cl)). assert (good c w1 (upd c g w1)) as Hg3 by (apply good_plain; [apply Hg2|by rewrite Hc1|by intros []]).
  destruct (discard_ok key_exists c (upd c g w1) (g cl1)) as (w3 & E3 & Hg4 & (Hd3 & Hp3 & Hm3 & Hb3) & Hc3); [apply Hg3|by apply lookup_upd_same|].
  exists w0, w1, (upd c g w1), w3. do 2 (split; [done|]). do 2 (split; [done|]). split.
  - eapply good_trans; [exact Hg0|]. eapply good_trans; [exact Hg1|]. eapply good_trans; [exact Hg2|]. by eapply good_trans.
  - split_and!; [by rewrite Hd3|by rewrite Hp3|by rewrite Hm3|by rewrite Hb3; cbn; rewrite Hb1|]. eexists. split; [exact Hc3|]. split_and!; try done. apply idle_no_transaction.
Qed.

Lemma execCommand_ok loading slave_ro c w cl : watch_ok w -> clients w !! c = Some cl ->
  exists w' d, execCommand key_exists effect loading slave_ro c w = Some (w', d) /\ good c w w' /\ exec_outcome loading slave_ro c cl w w' d.
Proof.
  intros Hok Hc. unfold execCommand, exec_outcome. rewrite Hc. cbn [mbind option_bind]. rewrite has_mask.
  destruct (has (tflags cl) CLIENT_MULTI); cbn [negb]; [|eexists _, false; split_and!; [done|apply ends_with; [done|by rewrite Hc]|done|done]].
  destruct (has (tflags cl) CLIENT_DIRTY_EXEC).
  { rewrite orb_true_r. destruct (abort_ok c (Shared execaborterr) w cl Hok Hc) as (w' & -> & Hg & Ha). by exists w', false. }
  rewrite orb_false_r. destruct (has (tflags cl) CLIENT_DIRTY_CAS).
  { destruct (abort_ok c (Shared nullmultibulk_) w cl Hok Hc) as (w' & -> & Hg & Ha). by exists w', false. }
  destruct (negb loading && _ && _ && _ && _).
  { edestruct (abort_ok c) as (w' & -> & Hg & Ha); [exact Hok|exact Hc|]. by exists w', false. }
  destruct (exec_runs loading c w cl Hok Hc) as (w0 & w1 & w2 & w3 & -> & Hl & -> & Ed & Hg & Hd & Hp & Hm & Hb & Hcl). cbn [mbind option_bind] in *. rewrite Hl.
  cbn [mbind option_bind]. rewrite Ed. cbn [mbind option_bind]. unfold ran. set (q := run_queue _ _ _ _) in *. destruct (q_must q) eqn:Em.
  - eexists _, true. split; [done|]. split.
    + eapply good_trans; [exact Hg|]. apply good_same; [apply Hg|apply Hg|done..].
    + cbn. split_and!; try done. rewrite Hb, Hm, negb_involutive. by destruct (negb (masterhost w)), (q_slave q).
  - exists w3, (q_dirty q). split_and!; done.
Qed.

(** *** Commands *)

(** The commands after which a client goes on watching what it watched. *)
Definition keeps_watch (cmd : redisCommand) : Prop := proc cmd ∉ [execCommand_; discardCommand_; watchCommand_; unwatchCommand_].

Lemma call_ok loading slave_ro c cmd w : watch_ok w -> is_Some (clients w !! c) ->
  exists w', call key_exists effect loading slave_ro c cmd w = Some w' /\ does (keeps_watch cmd) c w w'.
Proof.
  intros Hok [cl Hc]. assert (forall r, does (keeps_watch cmd) c w (upd c (add_reply r) w)) as Hreply by (intros r; apply does_upd; [done|done|by rewrite Hc]).
  assert (proc cmd <> execCommand_ -> proc cmd <> discardCommand_ -> proc cmd <> multiCommand_ -> proc cmd <> watchCommand_ -> proc cmd <> unwatchCommand_ ->
    exists w', fst <$> call_other key_exists effect true c cmd w = Some w' /\ does (keeps_watch cmd) c w w') as Hother.
  { intros _ _ _ _ _. unfold call_other. rewrite Hc. cbn [mbind option_bind]. set (e := effect _ _ _ _).
    destruct (does_touches (keeps_watch cmd) c (eff_touch e) (eff_data e) w Hok) as (w1 & -> & H1); [by rewrite Hc|]. cbn [mbind option_bind fmap option_fmap option_map fst].
    eexists. split; [done|]. eapply does_trans; [exact H1|]. apply does_alive in H1 as [Hok1 Hc1]. set (f := fun cl0 => with_replies _ _).
    assert (does (keeps_watch cmd) c (with_data (eff_data e) w1) (upd c f (with_data (eff_data e) w1))) as H2 by (by apply does_upd).
    eapply does_trans; [exact H2|]. apply does_alive in H2 as [Hok2 Hc2]. by apply does_same. }
  unfold call. destruct (proc cmd) eqn:Hp; try (apply Hother; congruence).
  - destruct (execCommand_ok loading slave_ro c w cl Hok Hc) as (w' & d & -> & Hg & _). cbn [mbind option_bind]. pose proof Hg as (Hok' & [cl' Hc'] & _). rewrite Hc'. cbn [mbind option_bind].
    eexists. split; [done|]. apply does_not; [unfold keeps_watch; rewrite Hp; set_solver|]. eapply good_trans; [exact Hg|]. by destruct d; apply good_same; try done; rewrite Hc'.
  - unfold discardCommand. rewrite Hc. cbn [mbind option_bind]. destruct (negb _); [by eexists; split; [done|apply Hreply]|].
    destruct (discard_ok key_exists c w cl Hok Hc) as (w' & -> & Hg & _ & Hc'). cbn [mbind option_bind]. eexists. split; [done|].
    apply does_not; [unfold keeps_watch; rewrite Hp; set_solver|]. eapply good_trans; [exact Hg|]. apply ends_with; apply Hg.
  - unfold multiCommand. rewrite Hc. cbn [mbind option_bind]. destruct (has _ _); [by eexists; split; [done|apply Hreply]|].
    eexists. split; [done|]. rewrite upd_upd. apply does_upd; [|done|by rewrite Hc]. intros cl0. by apply (harmless_set CLIENT_MULTI).
  - unfold watchCommand. rewrite Hc. cbn [mbind option_bind]. destruct (has _ _); [by eexists; split; [done|apply Hreply]|].
    destruct (watch_loop_ok key_exists c (drop 1 (targv cl)) w Hok) as (w' & -> & Hg); [by rewrite Hc|]. cbn [mbind option_bind]. eexists. split; [done|].
    apply does_not; [unfold keeps_watch; rewrite Hp; set_solver|]. eapply good_trans; [exact Hg|]. apply ends_with; apply Hg.
  - unfold unwatchCommand. destruct (good_unwatch key_exists c w cl Hok Hc) as (w' & -> & Hg & _ & Hc'). cbn [mbind option_bind]. eexists. split; [done|].
    apply does_not; [unfold keeps_watch; rewrite Hp; set_solver|]. rewrite upd_upd. eapply good_trans; [exact Hg|]. by apply good_plain; [apply Hg|apply Hg|intros []].
Qed.

Lemma refuse_ok c how r w (q : Prop) : (how = Discard -> ~ q) -> watch_ok w -> is_Some (clients w !! c) -> exists w', refuse c how r w = Some w' /\ does q c w w'.
Proof.
  intros Hq Hok Hc. unfold refuse. destruct how; cbn [mbind option_bind].
  - eexists. split; [done|]. rewrite upd_upd. apply does_upd; [|done|done]. intros cl. apply harmless_flag.
  - destruct Hc as [cl Hc]. destruct (discard_ok key_exists c w cl Hok Hc) as (w' & -> & Hg & _). cbn [mbind option_bind]. eexists. split; [done|].
    apply does_not; [by apply Hq|]. eapply good_trans; [exact Hg|]. apply ends_with; apply Hg.
  - eexists. split; [done|]. by apply does_upd.
Qed.
Lemma early_discard (e : senv (X := X)) cl cmd how r : early_checks e cl cmd = Some (how, r) -> how = Discard -> proc cmd = execCommand_.
Proof.
  unfold early_checks. intros H ->. destruct (_ || _); [done|]. destruct (_ && _); [done|]. destruct (_ && _); [|done].
  destruct (is_proc cmd execCommand_) eqn:E; [by apply bool_decide_eq_true in E|done].
Qed.
Lemma late_discard (e : senv (X := X)) cl cmd m o how r : late_checks e cl cmd m o = Some (how, r) -> how <> Discard.
Proof. unfold late_checks. intros H ->. repeat (case_match; [by injection H|]). done. Qed.

(** A client that is freed takes its keys out of the index. *)
Definition gone (c : Z) (w w' : world) : Prop := affects c w w' /\ clients w' !! c = None.
Lemma free_ok c w : watch_ok w -> is_Some (clients w !! c) -> exists w', free_client c w = Some w' /\ gone c w w'.
Proof.
  intros Hok [cl Hc]. unfold free_client. destruct (good_unwatch key_exists c w cl Hok Hc) as (w1 & -> & (Hok1 & _ & ts & Ht & Hi) & _ & Hc1). cbn [mbind option_bind].
  eexists. split; [done|]. split; [|apply lookup_delete_eq]. split.
  - split.
    + intros i cl' Hl. cbn in Hl. apply lookup_delete_Some in Hl as [_ Hl]. by apply (ok_client _ Hok1).
    + intros wk cls Hl. destruct (ok_index _ Hok1 wk cls Hl) as (H1 & H2 & H3). split_and!; [done..|]. intros i Hin. destruct (H3 i Hin) as (cl' & E & Hw).
      exists cl'. split; [|done]. cbn. rewrite lookup_delete_ne; [done|]. intros <-. rewrite Hc1 in E. injection E as <-. by apply elem_of_nil in Hw.
  - exists ts. split; [done|]. intros i Hn. cbn. rewrite lookup_delete_ne by done. by apply Hi.
Qed.
Lemma affects_trans c w1 w2 w3 : affects c w1 w2 -> affects c w2 w3 -> affects c w1 w3.
Proof.
  intros (_ & ts & Ht & Hi) (Hok & ts' & Ht' & Hi'). split; [done|]. exists (ts ++ ts'). split; [by rewrite Ht', Ht, app_assoc|].
  intros i Hn. rewrite Hi', Hi by done. rewrite <-option_fmap_compose. apply option_fmap_ext. intros cl. cbn. by rewrite hit_marked, marked_marked, hit_by_app.
Qed.

Definition request_keeps (e : senv (X := X)) (args : list (list Z)) : Prop :=
  forall name cmd, head (filters e args) = Some name -> lookupCommand e name = Some cmd -> keeps_watch cmd.

Lemma queue_step c w cl cmd (q : Prop) : watch_ok w -> clients w !! c = Some cl -> tcmd cl = Some cmd -> exempt_from_queue cmd = false ->
  exists cl', queueMultiCommand cl = Some cl' /\ does q c w (upd c (add_reply (Shared queued)) (with_clients (<[c := cl']> (clients w)) w)).
Proof.
  intros Hok Hc Hcmd Hex. unfold queueMultiCommand. rewrite Hcmd. cbn [mbind option_bind]. eexists. split; [done|]. set (m := mk_ms _ _).
  assert (with_clients (<[c := with_mstate m cl]> (clients w)) w = upd c (fun cl0 => with_mstate m cl0) w) as ->.
  { unfold upd. f_equal. apply map_eq. intros i. destruct (decide (i = c)) as [->|Hi]; [by rewrite lookup_insert_eq, lookup_alter_eq, Hc|].
    by rewrite lookup_insert_ne, lookup_alter_ne by done. }
  rewrite upd_upd. split.
  - apply good_upd; [done|by rewrite Hc|]. intros cl0 _. split; [done|]. intros mc Hmc. cbn in Hmc. apply elem_of_app in Hmc as [Hmc|Hmc].
    + by apply (keeps_queue c w cl).
    + apply list_elem_of_singleton in Hmc as ->. done.
  - intros _. apply window_upd; [by rewrite Hc|]. by intros cl0.
Qed.

(** The command once it was found and the first checks passed. *)
Lemma late_part e c cmd w (q : Prop) oom : (q -> keeps_watch cmd) -> watch_ok w -> (exists cl, clients w !! c = Some cl /\ tcmd cl = Some cmd) ->
  exists b w', (cl ← clients w !! c;
      match late_checks e cl cmd (negb (masterhost w)) oom with
      | Some (how, r) => w ← refuse c how r w; Some (true, w)
      | None =>
        if has (tflags cl) CLIENT_MULTI && negb (exempt_from_queue cmd) then
          cl ← queueMultiCommand cl;
          Some (true, upd c (add_reply (Shared queued)) (with_clients (<[c := cl]> (clients w)) w))
        else
          w ← call key_exists effect (loading e) (repl_slave_ro e) c cmd w;
          let '(x, ts) := ready e (data w) in
          w ← do_touches key_exists ts w;
          Some (true, with_data x w)
      end) = Some (b, w') /\ does q c w w'.
Proof.
  intros Hq Hok (cl & Hc & Hcmd). rewrite Hc. cbn [mbind option_bind]. destruct (late_checks _ _ _ _ _) as [[how r]|] eqn:El.
  { destruct (refuse_ok c how r w q) as (w' & -> & Hd); [intros Hh; by destruct (late_discard _ _ _ _ _ _ _ El Hh)|done|by rewrite Hc|]. by exists true, w'. }
  destruct (has (tflags cl) CLIENT_MULTI && negb (exempt_from_queue cmd)) eqn:Em.
  { apply andb_true_iff in Em as [_ Hex%negb_true_iff]. destruct (queue_step c w cl cmd q Hok Hc Hcmd Hex) as (cl' & -> & Hd). cbn [mbind option_bind]. by eexists true, _. }
  destruct (call_ok (loading e) (repl_slave_ro e) c cmd w Hok) as (w1 & -> & H1); [by rewrite Hc|]. cbn [mbind option_bind].
  destruct (ready e (data w1)) as [x ts]. destruct (does_alive _ _ _ _ H1) as [Hok1 Hc1]. destruct (does_touches q c ts x w1 Hok1 Hc1) as (w2 & -> & H2). cbn [mbind option_bind].
  eexists true, _. split; [done|]. eapply does_trans; [|exact H2]. destruct H1 as [H11 H12]. split; [done|]. intros H. by apply H12, Hq.
Qed.

Lemma processCommand_ok e c args w : watch_ok w -> is_Some (clients w !! c) -> filters e args <> [] ->
  exists b w', processCommand key_exists effect e c (upd c (with_command None args) w) = Some (b, w') /\
    (does (request_keeps e args) c w w' \/ gone c w w').
Proof.
  intros Hok [cl Hc] Hargs. set (q := request_keeps e args). unfold processCommand.
  set (h := with_command None args). set (f := fun cl0 : tclient => with_command (tcmd cl0) (filters e (targv cl0)) cl0).
  set (w0 := upd c f (upd c h w)). assert (does q c w w0) as H0 by (unfold w0; rewrite upd_upd; apply does_upd; [done|done|by rewrite Hc]).
  assert (clients w0 !! c = Some (f (h cl))) as Hc0 by (apply lookup_upd_same, lookup_upd_same, Hc). rewrite Hc0. cbn [mbind option_bind].
  change (targv (f (h cl))) with (filters e args). destruct (filters e args) as [|name rest] eqn:Ef; [done|]. cbn [head mbind option_bind].
  destruct (is_quit name).
  { eexists false, _. split; [done|]. left. eapply does_trans; [exact H0|]. rewrite upd_upd. apply does_upd; [|apply (does_alive _ _ _ _ H0)..].
    intros cl0. exact (harmless_set CLIENT_CLOSE_AFTER_REPLY eq_refl (add_reply (Shared ok_) cl0)). }
  set (g := with_command (lookupCommand e name) (name :: rest)). assert (does q c w (upd c g w0)) as H1.
  { eapply does_trans; [exact H0|]. apply does_upd; [done|apply (does_alive _ _ _ _ H0)..]. }
  set (w1 := upd c g w0) in *. assert (clients w1 !! c = Some (g (f (h cl)))) as Hc1 by (apply lookup_upd_same, Hc0).
  rewrite Hc1. cbn [mbind option_bind]. change (tcmd (g (f (h cl)))) with (lookupCommand e name). destruct (does_alive _ _ _ _ H1) as [Hok1 _].
  destruct (lookupCommand e name) as [cmd|] eqn:Ecmd.
  2:{ set (r := ErrorText _). destruct (refuse_ok c Flag r w1 q) as (w' & -> & Hd); [done|done|by rewrite Hc1|]. eexists true, w'. split; [done|]. left. by eapply does_trans. }
  assert (q -> keeps_watch cmd) as Hq by (intros H; apply (H name cmd); [by rewrite Ef|done]).
  destruct (early_checks e (g (f (h cl))) cmd) as [[how r]|] eqn:Ee.
  { destruct (refuse_ok c how r w1 q) as (w' & -> & Hd); [|done|by rewrite Hc1|].
    - intros Hh H. apply Hq in H. revert H. unfold keeps_watch. rewrite (early_discard _ _ _ _ _ Ee Hh). set_solver.
    - eexists true, w'. split; [done|]. left. by eapply does_trans. }
  destruct (if maxmemory e && negb (lua_timedout e) then _ else _) as [[x ts] oom].
  destruct (does_touches q c ts x w1 Hok1) as (w2 & E2 & H2); [by rewrite Hc1|]. pose proof (do_touches_ok key_exists ts w1 Hok1) as (w2' & E2' & _ & Hcl2 & _).
  assert (w2' = w2) as -> by congruence. rewrite E2. cbn [mbind option_bind]. destruct (does_alive _ _ _ _ H2) as [Hok2 Hc2].
  destruct (maxmemory e && negb (lua_timedout e) && client_freed e).
  { destruct (free_ok c (with_data x w2) Hok2 Hc2) as (w' & -> & Hg & Hn). eexists false, w'. split; [done|]. right. split; [|done].
    eapply affects_trans; [apply good_affects, H1|]. eapply affects_trans; [apply good_affects, H2|done]. }
  destruct (late_part e c cmd (with_data x w2) q oom) as (b & w' & E & Hd); [done|done| |].
  - eexists. split; [cbn; by rewrite Hcl2, lookup_fmap, Hc1|]. by destruct (hit_by _ _).
  - exists b, w'. split; [exact E|]. left. eapply does_trans; [exact H1|]. by eapply does_trans.
Qed.

(** *** Events *)

(** The event is not the end of the watch of client c. *)
Definition keeps (c : Z) (ev : event) : Prop :=
  match ev with Connect i | Disconnect i => i <> c | Request e i args => i = c -> request_keeps e args | Background _ => True end.

Lemma connect_ok i (w : world) : watch_ok w -> clients w !! i = None -> watch_ok (with_clients (<[i := createClient]> (clients w)) w).
Proof.
  intros Hok Hi. split; cbn.
  - intros c cl Hl. apply lookup_insert_Some in Hl as [[<- <-]|[_ Hl]]; [|by apply (ok_client _ Hok)]. cbn.
    split_and!; [constructor|intros wk Hin; by apply elem_of_nil in Hin|intros mc Hin; by apply elem_of_nil in Hin].
  - intros wk cls Hl. destruct (ok_index _ Hok wk cls Hl) as (H1 & H2 & H3). split_and!; [done..|]. intros c Hc. destruct (H3 c Hc) as (cl & E & Hw).
    exists cl. by rewrite lookup_insert_ne by congruence.
Qed.

(** An event runs, keeps the invariant and, as far as it keeps the watch of c, marks c exactly when one of its keys
    is modified; a client that is gone stays away. *)
Lemma event_ok ev w : watch_ok w -> enabled ev w = true -> exists w', run_event ev w = Some w' /\ watch_ok w' /\
  forall c, keeps c ev -> if clients w !! c is Some _ then clients w' !! c = None \/ window c w w' else clients w' !! c = None.
Proof.
  intros Hok Hen. destruct ev as [i|e i args|i|f]; cbn in Hen; cbn [run_event].
  - apply bool_decide_eq_true in Hen. eexists. split; [done|]. split; [by apply connect_ok|]. intros c Hc. cbn in *.
    destruct (clients w !! c) as [cl|] eqn:E; [right|by rewrite lookup_insert_ne].
    exists [], cl, cl. split_and!; [by rewrite app_nil_r|done|cbn; by rewrite lookup_insert_ne|done|by rewrite orb_false_r].
  - apply andb_true_iff in Hen as [[cl Hc]%bool_decide_eq_true Hf%negb_true_iff%bool_decide_eq_false].
    destruct (processCommand_ok e i args w Hok) as (b & w' & -> & Hd); [by rewrite Hc|done|]. exists w'. split; [done|].
    assert (affects i w w') as Ha by (destruct Hd as [[Hg _]|[Ha _]]; [by apply good_affects|done]). split; [apply Ha|]. intros c Hk. cbn in Hk.
    destruct (decide (c = i)) as [->|Hn].
    + rewrite Hc. destruct Hd as [[_ Hw]|[_ Hgone]]; [right; by apply Hw, Hk|by left].
    + destruct (clients w !! c) as [cl'|] eqn:E; [right; eapply affects_window; [done|done|by rewrite E]|].
      destruct Ha as (_ & ts & _ & Hi). by rewrite Hi, E.
  - apply bool_decide_eq_true in Hen as Hc. destruct (free_ok i w Hok Hc) as (w' & -> & Ha & Hn). exists w'. split; [done|]. split; [apply Ha|]. intros c Hk. cbn in Hk.
    destruct (clients w !! c) as [cl'|] eqn:E; [right; eapply affects_window; [done|done|by rewrite E]|].
    destruct Ha as (_ & ts & _ & Hi). by rewrite Hi, E.
  - destruct (f (data w)) as [x ts]. destruct (do_touches_ok key_exists ts w Hok) as (w' & -> & Hok' & Hcl & Hi & _ & Ht). cbn [mbind option_bind].
    eexists. split; [done|]. split; [by apply (ok_same w')|]. intros c _. destruct (clients w !! c) as [cl|] eqn:E; [right|cbn; by rewrite Hcl, lookup_fmap, E].
    apply (window_marked c w _ ts); [by rewrite E|done|]. cbn. by rewrite Hcl, lookup_fmap.
Qed.

Lemma history_ok evs : forall w w', watch_ok w -> history evs w = Some w' -> watch_ok w'.
Proof.
  induction evs as [|ev evs IH]; intros w w' Hok H; cbn [history] in H; [congruence|]. destruct (enabled ev w) eqn:Hen; [|done].
  destruct (event_ok ev w Hok Hen) as (w1 & E & Hok1 & _). rewrite E in H. by eapply IH.
Qed.
Lemma init_ok x slave backlog : watch_ok (init_world x slave backlog).
Proof. by split. Qed.

Lemma stays_away evs c : forall w w', watch_ok w -> Forall (keeps c) evs -> clients w !! c = None -> history evs w = Some w' -> clients w' !! c = None.
Proof.
  induction evs as [|ev evs IH]; intros w w' Hok Hk Hn H; cbn [history] in H; [congruence|]. destruct (enabled ev w) eqn:Hen; [|done].
  apply Forall_cons in Hk as [Hk1 Hk]. destruct (event_ok ev w Hok Hen) as (w1 & E & Hok1 & Hw). rewrite E in H. specialize (Hw c Hk1). rewrite Hn in Hw. by eapply IH.
Qed.
Lemma history_window evs c : forall w w', watch_ok w -> Forall (keeps c) evs -> is_Some (clients w !! c) -> history evs w = Some w' -> is_Some (clients w' !! c) -> window c w w'.
Proof.
  induction evs as [|ev evs IH]; intros w w' Hok Hk Hc H Hc'; cbn [history] in H.
  { injection H as <-. by apply window_same. }
  destruct (enabled ev w) eqn:Hen; [|done]. apply Forall_cons in Hk as [Hk1 Hk]. destruct (event_ok ev w Hok Hen) as (w1 & E & Hok1 & Hw). rewrite E in H.
  specialize (Hw c Hk1). destruct Hc as [cl Hc]. rewrite Hc in Hw. destruct Hw as [Hn|Hw].
  - rewrite (stays_away evs c w1 w' Hok1 Hk Hn H) in Hc'. by destruct Hc'.
  - eapply window_trans; [exact Hw|]. eapply IH; [done|done| |done|done]. by destruct Hw as (_ & _ & cl' & _ & _ & -> & _).
Qed.

(** C18: From the start of the server, after any sequence of connections, requests, disconnections and background work,
    the keys each client watches and the index from keys to clients agree, and whatever happens next
    is handled: no assertion of unwatchAllKeys fails and no list holds a client that was freed. *)
Theorem transactions_safe evs x slave backlog w : history evs (init_world x slave backlog) = Some w ->
  watch_ok w /\ forall ev, enabled ev w = true -> exists w', run_event ev w = Some w' /\ watch_ok w'.
Proof.
  intros H. assert (watch_ok w) as Hok by (eapply history_ok; [apply init_ok|exact H]). split; [done|]. intros ev Hen.
  destruct (event_ok ev w Hok Hen) as (w' & E & Hok' & _). eauto.
Qed.

End Histories.

(** ** A server with one counter *)

Module Counter.
Definition exists_ (_ : Z) (_ : Z) (_ : list Z) : bool := true.
Definition incr : redisCommand := mk_command (str "incr") (otherCommand 1) 2 CMD_WRITE true.
(** INCR of the only key. *)
Definition run (x : Z) (db : Z) (cmd : redisCommand) (args : list (list Z)) : effects (X := Z) :=
  mk_effects (x + 1) [Modified 0 (str "k")] [Bytes (str ":")] db args [args] true false.
Definition table (name : list Z) : option redisCommand :=
  if bool_decide (name = str "WATCH") then Some (mk_command name watchCommand_ (-2) 0 true)
  else if bool_decide (name = str "MULTI") then Some (mk_command name multiCommand_ 1 0 false)
  else if bool_decide (name = str "INCR") then Some incr else None.
Definition env : senv (X := Z) := mk_senv (fun a => a) table false false false (fun _ _ => false) [] false false (fun x => (x, [], false)) false 0 [] 0 0 0 false true true false (fun x => (x, [])).
Definition request (i : Z) (args : list string) : event (X := Z) := Request env i (str <$> args).
Definition start : world (X := Z) := init_world 5 false None.
Definition watching : list event := [Connect 1; Connect 2; request 1 ["WATCH"; "k"]].
Definition queueing : list event := [request 1 ["MULTI"]; request 1 ["INCR"; "k"]].
Definition interfering : list event := queueing ++ [request 2 ["INCR"; "k"]].
Definition at_ (evs : list event) : world (X := Z) := default start (history exists_ run evs start).
Definition client1 (w : world (X := Z)) : tclient := default createClient (clients w !! 1).

Lemma transactions_safe_witness : watch_ok (at_ (watching ++ interfering)) /\
  forall ev, enabled ev (at_ (watching ++ interfering)) = true -> exists w', run_event exists_ run ev (at_ (watching ++ interfering)) = Some w' /\ watch_ok w'.
Proof. apply (transactions_safe exists_ run (watching ++ interfering) 5 false None). vm_compute; reflexivity. Defined.

Lemma interfering_keeps : Forall (keeps 1) interfering.
Proof.
  apply Forall_cons; split; [|apply Forall_cons; split; [|apply Forall_cons; split; [|apply Forall_nil; exact I]]]; intros Hi; [| |discriminate Hi];
    intros name cmd [= <-] Hl; vm_compute in Hl; injection Hl as <-; apply (bool_decide_unpack _); vm_compute; exact I.
Qed.

End Counter.
