(* ===== verification/Pubsub.v ===== *)
(** * Publish and subscribe (src/redis-stable/src/pubsub.c)

    The two records of subscriptions, one in every client and one in the server, the messages that are published, and the guard of processCommand.  The specification has the record of the clients only: a message goes to
    every client once for its channel and once for every pattern it matches. *)
From stdpp Require Import prelude list list_numbers gmap strings.
From Stdlib Require Import ZArith Lia.
From S2P Require Import Prelude Util Glob SdsText Rio Rdb Reply Resp.

Local Open Scope Z_scope.
Local Open Scope redis_scope.

#[local] Arguments str : simpl never.

(** ** State *)

Definition channel : Type := list Z.
(** c->pubsub_channels, c->pubsub_patterns, c->flags & CLIENT_PUBSUB, and what was queued for the client. *)
Record subscriber := mk_sub { sub_channels : gset channel; sub_patterns : list channel; sub_flag : bool; sub_replies : list reply_item }.
(** The clients, and server.pubsub_channels and server.pubsub_patterns. *)
Record pubsub := mk_pubsub { subscribers : gmap Z subscriber; pubsub_channels : gmap channel (list Z); pubsub_patterns : list (Z * channel) }.

Definition with_subscribers (m : gmap Z subscriber) (s : pubsub) : pubsub := mk_pubsub m (pubsub_channels s) (pubsub_patterns s).
Definition with_table (m : gmap channel (list Z)) (s : pubsub) : pubsub := mk_pubsub (subscribers s) m (pubsub_patterns s).
Definition with_patterns (l : list (Z * channel)) (s : pubsub) : pubsub := mk_pubsub (subscribers s) (pubsub_channels s) l.
Definition set_channels (m : gset channel) (cl : subscriber) : subscriber := mk_sub m (sub_patterns cl) (sub_flag cl) (sub_replies cl).
Definition set_patterns (l : list channel) (cl : subscriber) : subscriber := mk_sub (sub_channels cl) l (sub_flag cl) (sub_replies cl).
Definition set_flag (b : bool) (cl : subscriber) : subscriber := mk_sub (sub_channels cl) (sub_patterns cl) b (sub_replies cl).
(** The calls of addReply; what they queue for a client that takes no replies is the matter of [Reply]. *)
Definition queue (l : list reply_item) (cl : subscriber) : subscriber := mk_sub (sub_channels cl) (sub_patterns cl) (sub_flag cl) (sub_replies cl ++ l).
Definition on_client (c : Z) (f : subscriber -> subscriber) (s : pubsub) : pubsub := with_subscribers (alter f c (subscribers s)) s.

(** ** Replies *)

Definition mbulkhdr (n : Z) : reply_item := RObject (ObjRaw (header 42 n)).
(** shared.messagebulk and the like. *)
Definition namebulk (name : string) : reply_item := RObject (ObjRaw (bulk (str name))).
Definition clientSubscriptionsCount (cl : subscriber) : Z := Z.of_nat (base.size (sub_channels cl)) + zlen (sub_patterns cl).
Definition notice (name : string) (what : reply_item) (cl : subscriber) : list reply_item := [mbulkhdr 3; namebulk name; what; RLongLong (clientSubscriptionsCount cl)].
Definition message_items (ch msg : list Z) : list reply_item := [mbulkhdr 3; namebulk "message"; RBulk (ObjRaw ch); RBulk (ObjRaw msg)].
Definition pmessage_items (pat ch msg : list Z) : list reply_item := [mbulkhdr 4; namebulk "pmessage"; RBulk (ObjRaw pat); RBulk (ObjRaw ch); RBulk (ObjRaw msg)].
Definition nullbulk : reply_item := RObject (ObjRaw (str "$-1" ++ crlf)).

(** ** Operations *)

Section Operations.
(** The order in which an iterator visits the keys of a dictionary. *)
Context (iter : gset channel -> list channel).

(** listSearchKey and listDelNode. *)
Fixpoint unlink {A} `{EqDecision A} (x : A) (l : list A) : option (list A) :=
  match l with
  | [] => None
  | y :: l => if decide (x = y) then Some l else (fun l => y :: l) <$> unlink x l
  end.
Definition notify_client (c : Z) (name : string) (what : reply_item) (s : pubsub) : pubsub := on_client c (fun cl => queue (notice name what cl) cl) s.

Definition pubsubSubscribeChannel (c : Z) (ch : channel) (s : pubsub) : option pubsub :=
  cl ← subscribers s !! c;
  let s :=
    if decide (ch ∈ sub_channels cl) then s
    else with_table (<[ch := default [] (pubsub_channels s !! ch) ++ [c]]> (pubsub_channels s)) (on_client c (fun cl => set_channels ({[ch]} ∪ sub_channels cl) cl) s) in
  Some (notify_client c "subscribe" (RBulk (ObjRaw ch)) s).
(** The assertions are cases without a result. *)
Definition pubsubUnsubscribeChannel (c : Z) (ch : channel) (notify : bool) (s : pubsub) : option (Z * pubsub) :=
  cl ← subscribers s !! c;
  '(n, s) ←
    (if decide (ch ∈ sub_channels cl) then
       let s := on_client c (fun cl => set_channels (sub_channels cl ∖ {[ch]}) cl) s in
       l ← pubsub_channels s !! ch;
       l ← unlink c l;
       Some (1, with_table (match l with [] => delete ch (pubsub_channels s) | _ => <[ch := l]> (pubsub_channels s) end) s)
     else Some (0, s));
  Some (n, if notify then notify_client c "unsubscribe" (RBulk (ObjRaw ch)) s else s).
Definition pubsubSubscribePattern (c : Z) (pat : channel) (s : pubsub) : option pubsub :=
  cl ← subscribers s !! c;
  let s :=
    if decide (pat ∈ sub_patterns cl) then s
    else with_patterns (pubsub_patterns s ++ [(c, pat)]) (on_client c (fun cl => set_patterns (sub_patterns cl ++ [pat]) cl) s) in
  Some (notify_client c "psubscribe" (RBulk (ObjRaw pat)) s).
Definition pubsubUnsubscribePattern (c : Z) (pat : channel) (notify : bool) (s : pubsub) : option (Z * pubsub) :=
  cl ← subscribers s !! c;
  '(n, s) ←
    match unlink pat (sub_patterns cl) with
    | Some l =>
      let s := on_client c (set_patterns l) s in
      l ← unlink (c, pat) (pubsub_patterns s);
      Some (1, with_patterns l s)
    | None => Some (0, s)
    end;
  Some (n, if notify then notify_client c "punsubscribe" (RBulk (ObjRaw pat)) s else s).

Fixpoint unsubscribe_each (f : channel -> pubsub -> option (Z * pubsub)) (l : list channel) (count : Z) (s : pubsub) : option (Z * pubsub) :=
  match l with [] => Some (count, s) | x :: l => '(n, s) ← f x s; unsubscribe_each f l (count + n) s end.
Definition pubsubUnsubscribeAllChannels (c : Z) (notify : bool) (s : pubsub) : option (Z * pubsub) :=
  cl ← subscribers s !! c;
  '(count, s) ← unsubscribe_each (fun ch => pubsubUnsubscribeChannel c ch notify) (iter (sub_channels cl)) 0 s;
  Some (count, if notify && (count =? 0) then notify_client c "unsubscribe" nullbulk s else s).
Definition pubsubUnsubscribeAllPatterns (c : Z) (notify : bool) (s : pubsub) : option (Z * pubsub) :=
  cl ← subscribers s !! c;
  '(count, s) ← unsubscribe_each (fun pat => pubsubUnsubscribePattern c pat notify) (sub_patterns cl) 0 s;
  Some (count, if notify && (count =? 0) then notify_client c "punsubscribe" nullbulk s else s).

Definition matches (pat ch : channel) : option bool := stringmatchlen (pat ++ [0]) (zlen pat) ch false.
Fixpoint publish_channel (ch msg : list Z) (l : list Z) (n : Z) (s : pubsub) : Z * pubsub :=
  match l with [] => (n, s) | c :: l => publish_channel ch msg l (n + 1) (on_client c (queue (message_items ch msg)) s) end.
Fixpoint publish_patterns (ch msg : list Z) (l : list (Z * channel)) (n : Z) (s : pubsub) : option (Z * pubsub) :=
  match l with
  | [] => Some (n, s)
  | (c, pat) :: l =>
    b ← matches pat ch;
    if b : bool then publish_patterns ch msg l (n + 1) (on_client c (queue (pmessage_items pat ch msg)) s) else publish_patterns ch msg l n s
  end.
Definition pubsubPublishMessage (ch msg : list Z) (s : pubsub) : option (Z * pubsub) :=
  let '(n, s) := publish_channel ch msg (default [] (pubsub_channels s !! ch)) 0 s in
  publish_patterns ch msg (pubsub_patterns s) n s.

(** ** Commands *)

Inductive pubsub_command :=
  | SUBSCRIBE (l : list channel) | UNSUBSCRIBE (l : list channel) | PSUBSCRIBE (l : list channel) | PUNSUBSCRIBE (l : list channel)
  | PUBLISH (ch msg : list Z) | CHANNELS (pat : option channel) | NUMSUB (l : list channel) | NUMPAT.

Fixpoint each (f : channel -> pubsub -> option pubsub) (l : list channel) (s : pubsub) : option pubsub :=
  match l with [] => Some s | x :: l => s ← f x s; each f l s end.
Definition clear_flag (c : Z) : pubsub -> pubsub := on_client c (fun cl => if clientSubscriptionsCount cl =? 0 then set_flag false cl else cl).
Definition subscribeCommand (c : Z) (l : list channel) (s : pubsub) : option pubsub := s ← each (pubsubSubscribeChannel c) l s; Some (on_client c (set_flag true) s).
Definition unsubscribeCommand (c : Z) (l : list channel) (s : pubsub) : option pubsub :=
  s ← match l with [] => snd <$> pubsubUnsubscribeAllChannels c true s | _ => each (fun ch s => snd <$> pubsubUnsubscribeChannel c ch true s) l s end; Some (clear_flag c s).
Definition psubscribeCommand (c : Z) (l : list channel) (s : pubsub) : option pubsub := s ← each (pubsubSubscribePattern c) l s; Some (on_client c (set_flag true) s).
Definition punsubscribeCommand (c : Z) (l : list channel) (s : pubsub) : option pubsub :=
  s ← match l with [] => snd <$> pubsubUnsubscribeAllPatterns c true s | _ => each (fun pat s => snd <$> pubsubUnsubscribePattern c pat true s) l s end; Some (clear_flag c s).
Definition publishCommand (c : Z) (ch msg : list Z) (s : pubsub) : option pubsub := '(n, s) ← pubsubPublishMessage ch msg s; Some (on_client c (queue [RLongLong n]) s).

Fixpoint matching (pat : option channel) (l : list channel) : option (list channel) :=
  match l with
  | [] => Some []
  | ch :: l => b ← match pat with None => Some true | Some pat => matches pat ch end; l ← matching pat l; Some (if b : bool then ch :: l else l)
  end.
Definition channels_command (c : Z) (pat : option channel) (s : pubsub) : option pubsub :=
  l ← matching pat (iter (dom (pubsub_channels s))); Some (on_client c (queue [RDeferred (zlen l) ((fun ch => RBulk (ObjRaw ch)) <$> l)]) s).
Definition numsub_command (c : Z) (l : list channel) (s : pubsub) : pubsub :=
  on_client c (queue (RMultiBulkLen (zlen l * 2) :: (l ≫= fun ch => [RBulk (ObjRaw ch); RLongLong (zlen (default [] (pubsub_channels s !! ch)))]))) s.
Definition numpat_command (c : Z) (s : pubsub) : pubsub := on_client c (queue [RLongLong (zlen (pubsub_patterns s))]) s.

(** processCommand: the number of arguments, and what a client that listens may ask for. *)
Definition pubsub_arity (cmd : pubsub_command) : option string := match cmd with SUBSCRIBE [] => Some "subscribe" | PSUBSCRIBE [] => Some "psubscribe" | _ => None end%string.
Definition subscription_command (cmd : pubsub_command) : bool := match cmd with SUBSCRIBE _ | UNSUBSCRIBE _ | PSUBSCRIBE _ | PUNSUBSCRIBE _ => true | _ => false end.
Definition in_context : list Z := str "only (P)SUBSCRIBE / (P)UNSUBSCRIBE / PING / QUIT allowed in this context".
Definition pubsub_proc (c : Z) (cmd : pubsub_command) (s : pubsub) : option pubsub :=
  match cmd with
  | SUBSCRIBE l => subscribeCommand c l s | UNSUBSCRIBE l => unsubscribeCommand c l s | PSUBSCRIBE l => psubscribeCommand c l s | PUNSUBSCRIBE l => punsubscribeCommand c l s
  | PUBLISH ch msg => publishCommand c ch msg s | CHANNELS pat => channels_command c pat s | NUMSUB l => Some (numsub_command c l s) | NUMPAT => Some (numpat_command c s)
  end.
Definition pubsub_process (c : Z) (cmd : pubsub_command) (s : pubsub) : option pubsub :=
  cl ← subscribers s !! c;
  match pubsub_arity cmd with
  | Some name => Some (on_client c (queue [RErrorFormat (str "wrong number of arguments for '" ++ str name ++ str "' command")]) s)
  | None => if sub_flag cl && negb (subscription_command cmd) then Some (on_client c (queue [RError in_context]) s) else pubsub_proc c cmd s
  end.

(** A client connects, gives a command, or is freed, which ends its subscriptions; the server publishes events of the key space. *)
Inductive pubsub_event := Connect (c : Z) | Ask (c : Z) (cmd : pubsub_command) | Notify (ch msg : list Z) | Free (c : Z).
Definition new_subscriber : subscriber := mk_sub ∅ [] false [].
Definition pubsub_free (c : Z) (s : pubsub) : option pubsub :=
  '(_, s) ← pubsubUnsubscribeAllChannels c false s;
  '(_, s) ← pubsubUnsubscribeAllPatterns c false s;
  Some (with_subscribers (delete c (subscribers s)) s).
Definition pubsub_step (ev : pubsub_event) (s : pubsub) : option pubsub :=
  match ev with
  | Connect c => Some (match subscribers s !! c with Some _ => s | None => with_subscribers (<[c := new_subscriber]> (subscribers s)) s end)
  | Ask c cmd => if decide (is_Some (subscribers s !! c)) then pubsub_process c cmd s else Some s
  | Notify ch msg => snd <$> pubsubPublishMessage ch msg s
  | Free c => if decide (is_Some (subscribers s !! c)) then pubsub_free c s else Some s
  end.
Fixpoint pubsub_run (l : list pubsub_event) (s : pubsub) : option pubsub := match l with [] => Some s | ev :: l => s ← pubsub_step ev s; pubsub_run l s end.
End Operations.
Definition pubsub_start : pubsub := mk_pubsub ∅ ∅ [].
