(* ===== verification/PubsubSpec.v ===== *)
(** * Publish and subscribe: the records agree and every message arrives

    The specification of Pubsub on the clients alone, the invariant between the two records of subscriptions, and the theorem over histories of connections, commands, published messages and disconnections. *)
From stdpp Require Import prelude list list_numbers gmap strings.
From Stdlib Require Import ZArith Lia.
From S2P Require Import Prelude Util Glob SdsText Rio Rdb Reply Resp Pubsub.

Local Open Scope Z_scope.
Local Open Scope redis_scope.

#[local] Arguments str : simpl never.

(** ** The specification *)

Section Spec.
Context (iter : gset channel -> list channel).
Abbreviation clients := (gmap Z subscriber).

Definition matchb (pat ch : channel) : bool := default false (matches pat ch).
(** What a client gets of a message: once for the channel, and once for each of its patterns that the channel matches, in the order in which it subscribed to them. *)
Definition hears (ch : channel) (cl : subscriber) : bool := bool_decide (ch ∈ sub_channels cl).
Definition matched (ch : channel) (cl : subscriber) : list channel := filter (fun p => matchb p ch = true) (sub_patterns cl).
Definition deliver (ch msg : list Z) (cl : subscriber) : subscriber :=
  queue ((if hears ch cl then message_items ch msg else []) ++ (matched ch cl ≫= fun p => pmessage_items p ch msg)) cl.
Definition copies (ch : channel) (cl : subscriber) : nat := ((if hears ch cl then 1 else 0) + length (matched ch cl))%nat.
Definition total (f : subscriber -> nat) (m : clients) : Z := Z.of_nat (sum_list_with (fun p => f p.2) (map_to_list m)).

Definition tell (name : string) (what : reply_item) (cl : subscriber) : subscriber := queue (notice name what cl) cl.
Definition subscribe (ch : channel) (cl : subscriber) : subscriber := tell "subscribe" (RBulk (ObjRaw ch)) (set_channels ({[ch]} ∪ sub_channels cl) cl).
Definition psubscribe (pat : channel) (cl : subscriber) : subscriber := tell "psubscribe" (RBulk (ObjRaw pat)) (if decide (pat ∈ sub_patterns cl) then cl else set_patterns (sub_patterns cl ++ [pat]) cl).
Definition drop_channel (ch : channel) (cl : subscriber) : subscriber := set_channels (sub_channels cl ∖ {[ch]}) cl.
Definition drop_pattern (pat : channel) (cl : subscriber) : subscriber := set_patterns (filter (fun p => p <> pat) (sub_patterns cl)) cl.
Definition unsubscribe (cl : subscriber) (ch : channel) : subscriber := tell "unsubscribe" (RBulk (ObjRaw ch)) (drop_channel ch cl).
Definition punsubscribe (cl : subscriber) (pat : channel) : subscriber := tell "punsubscribe" (RBulk (ObjRaw pat)) (drop_pattern pat cl).
Definition listens (cl : subscriber) : subscriber := set_flag (negb (clientSubscriptionsCount cl =? 0)) cl.
Definition own_command (cmd : pubsub_command) (cl : subscriber) : subscriber :=
  match cmd with
  | SUBSCRIBE l => listens (foldl (flip subscribe) cl l)
  | PSUBSCRIBE l => listens (foldl (flip psubscribe) cl l)
  | UNSUBSCRIBE [] => listens (if decide (sub_channels cl = ∅) then tell "unsubscribe" nullbulk cl else foldl unsubscribe cl (iter (sub_channels cl)))
  | UNSUBSCRIBE l => listens (foldl unsubscribe cl l)
  | PUNSUBSCRIBE [] => listens (if decide (sub_patterns cl = []) then tell "punsubscribe" nullbulk cl else foldl punsubscribe cl (sub_patterns cl))
  | PUNSUBSCRIBE l => listens (foldl punsubscribe cl l)
  | _ => cl
  end.
(** The answers to questions, which are about all clients. *)
Definition active (m : clients) : gset channel := ⋃ ((fun p => sub_channels p.2) <$> map_to_list m).
Definition shown (pat : option channel) (ch : channel) : bool := match pat with None => true | Some pat => matchb pat ch end.
Definition answer (cmd : pubsub_command) (m : clients) : list reply_item :=
  match cmd with
  | PUBLISH ch msg => [RLongLong (total (copies ch) m)]
  | CHANNELS pat => let l := filter (fun ch => shown pat ch = true) (iter (active m)) in [RDeferred (zlen l) ((fun ch => RBulk (ObjRaw ch)) <$> l)]
  | NUMSUB l => RMultiBulkLen (zlen l * 2) :: (l ≫= fun ch => [RBulk (ObjRaw ch); RLongLong (total (fun cl => if hears ch cl then 1 else 0)%nat m)])
  | NUMPAT => [RLongLong (total (fun cl => length (sub_patterns cl)) m)]
  | _ => []
  end.
Definition published (cmd : pubsub_command) (m : clients) : clients := match cmd with PUBLISH ch msg => deliver ch msg <$> m | _ => m end.
Definition spec_step (ev : pubsub_event) (m : clients) : clients :=
  match ev with
  | Connect c => match m !! c with Some _ => m | None => <[c := new_subscriber]> m end
  | Notify ch msg => deliver ch msg <$> m
  | Free c => delete c m
  | Ask c cmd =>
    match m !! c with
    | None => m
    | Some cl =>
      match pubsub_arity cmd with
      | Some name => alter (queue [RErrorFormat (str "wrong number of arguments for '" ++ str name ++ str "' command")]) c m
      | None =>
        if negb (subscription_command cmd) then
          if sub_flag cl then alter (queue [RError in_context]) c m
          else alter (queue (answer cmd m)) c (published cmd m)
        else alter (own_command cmd) c m
      end
    end
  end.
Definition spec_run (l : list pubsub_event) : clients := foldl (flip spec_step) ∅ l.

(** ** The two records *)

Definition channels_of (m : clients) (c : Z) : gset channel := match m !! c with Some cl => sub_channels cl | None => ∅ end.
Definition patterns_of (m : clients) (c : Z) : list channel := match m !! c with Some cl => sub_patterns cl | None => [] end.
Definition of_client (c : Z) (l : list (Z * channel)) : list channel := (filter (fun p => p.1 = c) l).*2.
#[local] Arguments of_client : simpl never.
#[local] Arguments patterns_of : simpl never.
#[local] Arguments channels_of : simpl never.
Record agree (s : pubsub) : Prop := {
  ag_table : forall ch l, pubsub_channels s !! ch = Some l -> NoDup l /\ l <> [];
  ag_channels : forall ch c, c ∈ default [] (pubsub_channels s !! ch) <-> ch ∈ channels_of (subscribers s) c;
  ag_patterns : forall c, of_client c (pubsub_patterns s) = patterns_of (subscribers s) c;
  ag_nodup : forall c, NoDup (patterns_of (subscribers s) c);
}.
Lemma channels_of_insert m c c' cl : channels_of (<[c := cl]> m) c' = if decide (c' = c) then sub_channels cl else channels_of m c'.
Proof. unfold channels_of. destruct (decide (c' = c)) as [->|Hc]; [by rewrite lookup_insert_eq|by rewrite lookup_insert_ne]. Qed.
Lemma patterns_of_insert m c c' cl : patterns_of (<[c := cl]> m) c' = if decide (c' = c) then sub_patterns cl else patterns_of m c'.
Proof. unfold patterns_of. destruct (decide (c' = c)) as [->|Hc]; [by rewrite lookup_insert_eq|by rewrite lookup_insert_ne]. Qed.
Lemma agree_same s s' : pubsub_channels s' = pubsub_channels s -> pubsub_patterns s' = pubsub_patterns s -> (forall c, channels_of (subscribers s') c = channels_of (subscribers s) c) ->
  (forall c, patterns_of (subscribers s') c = patterns_of (subscribers s) c) -> agree s -> agree s'.
Proof. intros E1 E2 E3 E4 [H1 H2 H3 H4]. split; rewrite ?E1, ?E2; [done|intros; rewrite E3; apply H2|intros; rewrite E4; apply H3|intros; rewrite E4; apply H4]. Qed.

(** From s to s' the client has become cl. *)
Definition becomes (c : Z) (cl : subscriber) (s s' : pubsub) : Prop := agree s' /\ subscribers s' = <[c := cl]> (subscribers s).
Lemma becomes_trans c cl1 cl2 s1 s2 s3 : becomes c cl1 s1 s2 -> becomes c cl2 s2 s3 -> becomes c cl2 s1 s3.
Proof. intros [_ E1] [H E2]. split; [done|]. by rewrite E2, E1, insert_insert_eq. Qed.
Lemma becomes_refl c cl s : agree s -> subscribers s !! c = Some cl -> becomes c cl s s.
Proof. intros Ha Hc. split; [done|]. by rewrite insert_id. Qed.
Lemma becomes_lookup c cl s s' : becomes c cl s s' -> subscribers s' !! c = Some cl.
Proof. intros [_ ->]. apply lookup_insert_eq. Qed.
Lemma alter_known {A} (f : A -> A) c (m : gmap Z A) x : m !! c = Some x -> alter f c m = <[c := f x]> m.
Proof. intros Hx. apply map_eq. intros c'. destruct (decide (c = c')) as [<-|Hc]; [by rewrite lookup_alter_eq, lookup_insert_eq, Hx|by rewrite lookup_alter_ne, lookup_insert_ne]. Qed.
(** A change that is not about subscriptions. *)
Lemma becomes_quiet f c cl s : agree s -> subscribers s !! c = Some cl -> sub_channels (f cl) = sub_channels cl -> sub_patterns (f cl) = sub_patterns cl -> becomes c (f cl) s (on_client c f s).
Proof.
  intros Ha Hc E1 E2. split; [|by apply alter_known]. apply (agree_same s); [done..| | |done]; intros c'; unfold on_client; cbn; rewrite (alter_known f c _ cl Hc).
  - rewrite channels_of_insert. case_decide as Hx; [|done]. subst. unfold channels_of. by rewrite Hc.
  - rewrite patterns_of_insert. case_decide as Hx; [|done]. subst. unfold patterns_of. by rewrite Hc.
Qed.
Lemma becomes_notify c cl name what s : agree s -> subscribers s !! c = Some cl -> becomes c (tell name what cl) s (notify_client c name what s).
Proof. intros Ha Hc. by apply (becomes_quiet (tell name what)). Qed.
Lemma agree_here s c cl : agree s -> subscribers s !! c = Some cl -> (forall ch, c ∈ default [] (pubsub_channels s !! ch) <-> ch ∈ sub_channels cl) /\ of_client c (pubsub_patterns s) = sub_patterns cl /\ NoDup (sub_patterns cl).
Proof.
  intros [H1 H2 H3 H4] Hc. specialize (H3 c). specialize (H4 c). unfold patterns_of in *. rewrite Hc in *. split_and!; [|done..]. intros ch. rewrite H2. unfold channels_of. by rewrite Hc.
Qed.

(** ** Subscriptions *)

Lemma subscribe_ok c ch cl s : agree s -> subscribers s !! c = Some cl -> exists s', pubsubSubscribeChannel c ch s = Some s' /\ becomes c (subscribe ch cl) s s'.
Proof.
  intros Ha Hc. destruct (agree_here s c cl Ha Hc) as (Hch & Hpat & Hnd). unfold pubsubSubscribeChannel. rewrite Hc. cbn [mbind option_bind]. eexists. split; [done|]. unfold subscribe. case_decide as Hin.
  { replace ({[ch]} ∪ sub_channels cl) with (sub_channels cl) by set_solver. replace (set_channels (sub_channels cl) cl) with cl by (by destruct cl). by apply becomes_notify. }
  set (s1 := with_table _ _). assert (becomes c (set_channels ({[ch]} ∪ sub_channels cl) cl) s s1) as Hb; [|eapply becomes_trans; [exact Hb|]; apply becomes_notify; [apply Hb|by eapply becomes_lookup]].
  split; [|by apply (alter_known (fun cl => set_channels ({[ch]} ∪ sub_channels cl) cl))]. destruct Ha as [H1 H2 H3 H4]. unfold s1. split; cbn; rewrite ?(alter_known _ c _ cl Hc).
  - intros ch' l [[<- <-]|[Hne Hl]]%lookup_insert_Some; [|by eapply H1]. split; [|by destruct (default [] _)]. apply NoDup_app. split_and!; [destruct (pubsub_channels s !! ch) as [l|] eqn:El; [by eapply (H1 ch)|constructor]| |apply NoDup_singleton].
    intros x Hx ->%list_elem_of_singleton. by apply Hin, Hch.
  - intros ch' c'. rewrite channels_of_insert. destruct (decide (ch' = ch)) as [->|Hne].
    + rewrite lookup_insert_eq. cbn. rewrite elem_of_app, list_elem_of_singleton, H2. case_decide as Hx; [subst; cbn; set_solver|]. split; [intros [?|?]; done|by left].
    + rewrite lookup_insert_ne by done. rewrite H2. case_decide as Hx; [subst; cbn; unfold channels_of; rewrite Hc; set_solver|done].
  - intros c'. rewrite patterns_of_insert, H3. case_decide as Hx; [subst; unfold patterns_of; by rewrite Hc|done].
  - intros c'. rewrite patterns_of_insert. case_decide; [done|apply H4].
Qed.
Lemma unlink_some {A} `{EqDecision A} (x : A) l : x ∈ l -> exists l', unlink x l = Some l' /\ l ≡ₚ x :: l'.
Proof.
  induction l as [|y l IH]; intros Hx; [by apply not_elem_of_nil in Hx|]. cbn. case_decide as He; [subst; by exists l|]. apply elem_of_cons in Hx as [?|Hx]; [done|]. destruct (IH Hx) as (l' & -> & Hp). exists (y :: l'). split; [done|]. rewrite Hp. constructor.
Qed.
Lemma unlink_none {A} `{EqDecision A} (x : A) l : x ∉ l -> unlink x l = None.
Proof. induction l as [|y l IH]; intros Hx; [done|]. apply not_elem_of_cons in Hx as [Hy Hx]. cbn. rewrite decide_False by done. by rewrite IH. Qed.
Lemma filter_whole {A} (P : A -> Prop) `{!forall x, Decision (P x)} (l : list A) : (forall x, x ∈ l -> P x) -> filter P l = l.
Proof. induction l as [|y l IH]; intros Hl; [done|]. rewrite filter_cons_True by (apply Hl; left). f_equal. apply IH. intros x Hx. apply Hl. by right. Qed.
(** In a list without duplicates one is removed as all are. *)
Lemma unlink_filter {A} `{EqDecision A} (x : A) l : NoDup l -> x ∈ l -> unlink x l = Some (filter (fun y => y <> x) l).
Proof.
  induction l as [|y l IH]; intros Hn Hx; [by apply not_elem_of_nil in Hx|]. apply NoDup_cons in Hn as [Hy Hn]. cbn [unlink]. case_decide as He.
  - subst. rewrite filter_cons_False by naive_solver. f_equal. symmetry. apply filter_whole. by intros z Hz ->.
  - apply elem_of_cons in Hx as [?|Hx]; [done|]. rewrite filter_cons_True by done. by rewrite IH.
Qed.
Lemma unsubscribe_ok c ch notify cl s : agree s -> subscribers s !! c = Some cl ->
  exists s', pubsubUnsubscribeChannel c ch notify s = Some ((if decide (ch ∈ sub_channels cl) then 1 else 0), s') /\ becomes c (if notify then unsubscribe cl ch else drop_channel ch cl) s s'.
Proof.
  intros Ha Hc. destruct (agree_here s c cl Ha Hc) as (Hch & Hpat & Hnd). unfold pubsubUnsubscribeChannel. rewrite Hc. cbn [mbind option_bind].
  assert (forall s1, becomes c (drop_channel ch cl) s s1 -> becomes c (if notify then unsubscribe cl ch else drop_channel ch cl) s (if notify then notify_client c "unsubscribe" (RBulk (ObjRaw ch)) s1 else s1)) as Hnot.
  { intros s1 Hb. destruct notify; [|done]. eapply becomes_trans; [exact Hb|]. apply becomes_notify; [apply Hb|by eapply becomes_lookup]. }
  case_decide as Hin; cbn [mbind option_bind].
  2:{ eexists. split; [done|]. apply Hnot. unfold drop_channel. replace (sub_channels cl ∖ {[ch]}) with (sub_channels cl) by set_solver. replace (set_channels (sub_channels cl) cl) with cl by (by destruct cl). by apply becomes_refl. }
  cbn [on_client with_subscribers pubsub_channels]. destruct (pubsub_channels s !! ch) as [l|] eqn:El; [|apply Hch in Hin; rewrite El in Hin; by apply not_elem_of_nil in Hin]. cbn [mbind option_bind].
  assert (c ∈ l) as Hcl by (apply Hch in Hin; by rewrite El in Hin). destruct (unlink_some c l Hcl) as (l' & -> & Hp). cbn [mbind option_bind]. eexists. split; [done|]. apply Hnot.
  destruct Ha as [H1 H2 H3 H4]. destruct (H1 ch l El) as [Hnl _]. rewrite Hp in Hnl. apply NoDup_cons in Hnl as [Hcl' Hnl'].
  assert (default [] (match l' with [] => delete ch (pubsub_channels s) | _ => <[ch := l']> (pubsub_channels s) end !! ch) = l') as Hhere by (destruct l'; [by rewrite lookup_delete_eq|by rewrite lookup_insert_eq]).
  assert (forall ch', ch' <> ch -> match l' with [] => delete ch (pubsub_channels s) | _ => <[ch := l']> (pubsub_channels s) end !! ch' = pubsub_channels s !! ch') as Hthere by (intros ch' Hne; destruct l'; [by rewrite lookup_delete_ne|by rewrite lookup_insert_ne]).
  split; [|by apply (alter_known (drop_channel ch))]. split; cbn; rewrite ?(alter_known _ c _ cl Hc).
  - intros ch' l0 Hl0. destruct (decide (ch' = ch)) as [->|Hne]; [|rewrite Hthere in Hl0 by done; by eapply H1]. rewrite Hl0 in Hhere. cbn in Hhere. subst l0. split; [done|]. intros ->. by rewrite lookup_delete_eq in Hl0.
  - intros ch' c'. rewrite channels_of_insert. destruct (decide (ch' = ch)) as [->|Hne].
    + rewrite Hhere. case_decide as Hx; [subst; cbn; split; [done|set_solver]|]. rewrite <-H2, El. cbn. rewrite Hp, elem_of_cons. naive_solver.
    + rewrite Hthere, H2 by done. case_decide as Hx; [subst; cbn; unfold channels_of; rewrite Hc; set_solver|done].
  - intros c'. rewrite patterns_of_insert, H3. case_decide as Hx; [subst; unfold patterns_of; by rewrite Hc|done].
  - intros c'. rewrite patterns_of_insert. case_decide; [done|apply H4].
Qed.

Lemma of_client_app c l l' : of_client c (l ++ l') = of_client c l ++ of_client c l'.
Proof. unfold of_client. by rewrite filter_app, fmap_app. Qed.
Lemma psubscribe_ok c pat cl s : agree s -> subscribers s !! c = Some cl -> exists s', pubsubSubscribePattern c pat s = Some s' /\ becomes c (psubscribe pat cl) s s'.
Proof.
  intros Ha Hc. destruct (agree_here s c cl Ha Hc) as (Hch & Hpat & Hnd). unfold pubsubSubscribePattern. rewrite Hc. cbn [mbind option_bind]. eexists. split; [done|]. unfold psubscribe. case_decide as Hin; [by apply becomes_notify|].
  set (s1 := with_patterns _ _). assert (becomes c (set_patterns (sub_patterns cl ++ [pat]) cl) s s1) as Hb; [|eapply becomes_trans; [exact Hb|]; apply becomes_notify; [apply Hb|by eapply becomes_lookup]].
  split; [|by apply (alter_known (fun cl => set_patterns (sub_patterns cl ++ [pat]) cl))]. destruct Ha as [H1 H2 H3 H4]. unfold s1. split; cbn; rewrite ?(alter_known _ c _ cl Hc).
  - done.
  - intros ch c'. rewrite channels_of_insert, H2. case_decide as Hx; [subst; unfold channels_of; by rewrite Hc|done].
  - intros c'. rewrite of_client_app, patterns_of_insert, H3. unfold of_client. rewrite filter_cons, filter_nil. cbn [fst]. destruct (decide (c = c')) as [<-|Hne]; [rewrite ?decide_True by done; unfold patterns_of; by rewrite Hc|]. rewrite ?decide_False by congruence. by rewrite app_nil_r.
  - intros c'. rewrite patterns_of_insert. case_decide; [|apply H4]. apply NoDup_app. split_and!; [done| |apply NoDup_singleton]. by intros x Hx ->%list_elem_of_singleton.
Qed.
Lemma of_client_unlink c pat l : pat ∈ of_client c l -> NoDup (of_client c l) -> exists l', unlink (c, pat) l = Some l' /\ of_client c l' = filter (fun p => p <> pat) (of_client c l) /\ forall c', c' <> c -> of_client c' l' = of_client c' l.
Proof.
  induction l as [|[c0 p0] l IH]; intros Hin Hnd; [by apply not_elem_of_nil in Hin|]. cbn [unlink]. unfold of_client in Hin, Hnd |- *. rewrite filter_cons in Hin, Hnd. rewrite !filter_cons. cbn [fst] in *.
  destruct (decide (c0 = c)) as [->|Hc]; cbn [fmap list_fmap snd] in *.
  - apply NoDup_cons in Hnd as [Hn Hnd]. destruct (decide ((c, pat) = (c, p0))) as [[= ->]|Hne].
    + exists l. split; [done|]. split; [|intros c' Hc'; rewrite filter_cons, decide_False by (cbn; congruence); done]. rewrite filter_cons_False by naive_solver. symmetry. apply filter_whole. intros x Hx. congruence.
    + assert (pat <> p0) as Hp by congruence. apply elem_of_cons in Hin as [?|Hin]; [done|]. destruct (IH Hin Hnd) as (l' & -> & E1 & E2). eexists. split; [done|]. unfold of_client in *. split.
      * rewrite filter_cons_True by done. cbn [fmap list_fmap snd]. rewrite E1, filter_cons_True by done. done.
      * intros c' Hc'. rewrite !filter_cons, !decide_False by (cbn; congruence). by apply E2.
  - rewrite decide_False by congruence. destruct (IH Hin Hnd) as (l' & -> & E1 & E2). eexists. split; [done|]. unfold of_client in *. split; [by rewrite filter_cons_False|].
    intros c' Hc'. rewrite !filter_cons. destruct (decide _); cbn [fmap list_fmap]; by rewrite E2.
Qed.
Lemma punsubscribe_ok c pat notify cl s : agree s -> subscribers s !! c = Some cl ->
  exists s', pubsubUnsubscribePattern c pat notify s = Some ((if decide (pat ∈ sub_patterns cl) then 1 else 0), s') /\ becomes c (if notify then punsubscribe cl pat else drop_pattern pat cl) s s'.
Proof.
  intros Ha Hc. destruct (agree_here s c cl Ha Hc) as (Hch & Hpat & Hnd). unfold pubsubUnsubscribePattern. rewrite Hc. cbn [mbind option_bind].
  assert (forall s1, becomes c (drop_pattern pat cl) s s1 -> becomes c (if notify then punsubscribe cl pat else drop_pattern pat cl) s (if notify then notify_client c "punsubscribe" (RBulk (ObjRaw pat)) s1 else s1)) as Hnot.
  { intros s1 Hb. destruct notify; [|done]. eapply becomes_trans; [exact Hb|]. apply becomes_notify; [apply Hb|by eapply becomes_lookup]. }
  case_decide as Hin.
  2:{ rewrite unlink_none by done. eexists. split; [done|]. apply Hnot. unfold drop_pattern. rewrite filter_whole by (intros x Hx ->; done). replace (set_patterns (sub_patterns cl) cl) with cl by (by destruct cl). by apply becomes_refl. }
  rewrite unlink_filter by done. cbn [on_client with_subscribers pubsub_patterns]. rewrite <-Hpat in Hin, Hnd. destruct (of_client_unlink c pat _ Hin Hnd) as (l' & -> & E1 & E2). cbn [mbind option_bind]. eexists. split; [done|]. apply Hnot.
  destruct Ha as [H1 H2 H3 H4]. rewrite Hpat in *. split; [|by apply (alter_known (set_patterns _))]. split; cbn; rewrite ?(alter_known _ c _ cl Hc).
  - done.
  - intros ch c'. rewrite channels_of_insert, H2. case_decide as Hx; [subst; unfold channels_of; by rewrite Hc|done].
  - intros c'. rewrite patterns_of_insert. case_decide as Hx; [by subst|]. by rewrite E2, H3.
  - intros c'. rewrite patterns_of_insert. case_decide; [|apply H4]. by apply NoDup_filter.
Qed.

(** ** Lists of channels *)

Section Each.
Context (c : Z) (g : subscriber -> channel -> subscriber).
Lemma each_ok f : (forall x cl s, agree s -> subscribers s !! c = Some cl -> exists s', f x s = Some s' /\ becomes c (g cl x) s s') ->
  forall l cl s, agree s -> subscribers s !! c = Some cl -> exists s', each f l s = Some s' /\ becomes c (foldl g cl l) s s'.
Proof.
  intros Hf. induction l as [|x l IH]; intros cl s Ha Hc; [exists s; split; [done|by apply becomes_refl]|]. destruct (Hf x cl s Ha Hc) as (s1 & E1 & Hb1). destruct (IH (g cl x) s1) as (s2 & E2 & Hb2); [apply Hb1|by eapply becomes_lookup|].
  exists s2. cbn [each foldl]. rewrite E1. split; [done|]. by eapply becomes_trans.
Qed.
Lemma unsubscribe_each_ok f (P : channel -> subscriber -> Prop) :
  (forall x cl s, agree s -> subscribers s !! c = Some cl -> exists n s', f x s = Some (n, s') /\ 0 <= n /\ (P x cl -> 1 <= n) /\ becomes c (g cl x) s s') ->
  forall l cl s count, agree s -> subscribers s !! c = Some cl -> exists k s', unsubscribe_each f l count s = Some (count + k, s') /\ 0 <= k /\ (l = [] -> k = 0) /\ (forall x l', l = x :: l' -> P x cl -> 1 <= k) /\ becomes c (foldl g cl l) s s'.
Proof.
  intros Hf. induction l as [|x l IH]; intros cl s count Ha Hc; [exists 0, s; rewrite Z.add_0_r; split_and!; [done..|by apply becomes_refl]|]. destruct (Hf x cl s Ha Hc) as (n & s1 & E1 & Hn & HP & Hb1).
  destruct (IH (g cl x) s1 (count + n)) as (k & s2 & E2 & Hk & _ & _ & Hb2); [apply Hb1|by eapply becomes_lookup|]. exists (n + k), s2. cbn [unsubscribe_each foldl]. rewrite E1. cbn [mbind option_bind]. rewrite E2, Z.add_assoc. split_and!; [done|lia|done| |by eapply becomes_trans].
  intros x' l' [= <- <-] Hx. specialize (HP Hx). lia.
Qed.
End Each.
Context (Hiter : forall X, iter X ≡ₚ elements X).
Lemma unsubscribe_all_ok c notify cl s : agree s -> subscribers s !! c = Some cl ->
  exists n s', pubsubUnsubscribeAllChannels iter c notify s = Some (n, s') /\
    becomes c (if notify then (if decide (sub_channels cl = ∅) then tell "unsubscribe" nullbulk cl else foldl unsubscribe cl (iter (sub_channels cl))) else foldl (flip drop_channel) cl (iter (sub_channels cl))) s s'.
Proof.
  intros Ha Hc. unfold pubsubUnsubscribeAllChannels. rewrite Hc. cbn [mbind option_bind].
  destruct (unsubscribe_each_ok c (fun cl ch => if notify then unsubscribe cl ch else drop_channel ch cl) (fun ch => pubsubUnsubscribeChannel c ch notify) (fun ch cl => ch ∈ sub_channels cl)) with (l := iter (sub_channels cl)) (cl := cl) (s := s) (count := 0) as (k & s' & E & Hk & Hk0 & Hk1 & Hb); [|done..|].
  { intros x cl' s1 Ha1 Hc1. destruct (unsubscribe_ok c x notify cl' s1 Ha1 Hc1) as (s2 & E2 & Hb2). eexists _, s2. split; [exact E2|]. split_and!; [case_decide; lia| |done]. intros Hx. by rewrite decide_True. }
  rewrite E. cbn [mbind option_bind]. eexists _, _. split; [done|]. rewrite Z.add_0_l. destruct notify; cbn [andb]; [|exact Hb].
  specialize (Hiter (sub_channels cl)). destruct (decide (sub_channels cl = ∅)) as [He|He].
  - rewrite He, elements_empty in Hiter. apply Permutation_nil_r in Hiter. rewrite He in Hk0, Hb. rewrite Hk0, Hiter in * by done. cbn [Z.eqb foldl] in *. apply (becomes_trans _ cl _ _ s'); [done|]. apply becomes_notify; [apply Hb|by eapply becomes_lookup].
  - destruct (iter (sub_channels cl)) as [|x l] eqn:El; [symmetry in Hiter; apply Permutation_nil_r in Hiter; by apply elements_empty_inv in Hiter; apply leibniz_equiv in Hiter|].
    destruct (Z.eqb_spec k 0); [|done]. assert (1 <= k); [|lia]. apply (Hk1 x l eq_refl). apply elem_of_elements. rewrite <-Hiter. left.
Qed.
Lemma punsubscribe_all_ok c notify cl s : agree s -> subscribers s !! c = Some cl ->
  exists n s', pubsubUnsubscribeAllPatterns c notify s = Some (n, s') /\
    becomes c (if notify then (if decide (sub_patterns cl = []) then tell "punsubscribe" nullbulk cl else foldl punsubscribe cl (sub_patterns cl)) else foldl (flip drop_pattern) cl (sub_patterns cl)) s s'.
Proof.
  intros Ha Hc. unfold pubsubUnsubscribeAllPatterns. rewrite Hc. cbn [mbind option_bind].
  destruct (unsubscribe_each_ok c (fun cl pat => if notify then punsubscribe cl pat else drop_pattern pat cl) (fun pat => pubsubUnsubscribePattern c pat notify) (fun pat cl => pat ∈ sub_patterns cl)) with (l := sub_patterns cl) (cl := cl) (s := s) (count := 0) as (k & s' & E & Hk & Hk0 & Hk1 & Hb); [|done..|].
  { intros x cl' s1 Ha1 Hc1. destruct (punsubscribe_ok c x notify cl' s1 Ha1 Hc1) as (s2 & E2 & Hb2). eexists _, s2. split; [exact E2|]. split_and!; [case_decide; lia| |done]. intros Hx. by rewrite decide_True. }
  rewrite E. cbn [mbind option_bind]. eexists _, _. split; [done|]. rewrite Z.add_0_l. destruct notify; cbn [andb]; [|exact Hb]. destruct (decide (sub_patterns cl = [])) as [He|He].
  - rewrite Hk0 by done. rewrite He in Hb. cbn [Z.eqb foldl] in *. apply (becomes_trans _ cl _ _ s'); [done|]. apply becomes_notify; [apply Hb|by eapply becomes_lookup].
  - destruct (Z.eqb_spec k 0); [|done]. destruct (sub_patterns cl) as [|x l] eqn:El; [done|]. assert (1 <= k); [|lia]. apply (Hk1 x l eq_refl). left.
Qed.

(** ** Messages *)

Lemma matches_total pat ch : matches pat ch = Some (matchb pat ch).
Proof.
  unfold matchb, matches, stringmatchlen. rewrite Nat2Z.id. destruct (match_loop_spec [] false (S (length pat)) [] pat ch (Nat.lt_succ_diag_r _)) as (b & Hb & _). change ([] ++ ?x) with x in Hb. change (Z.of_nat (length [])) with 0 in Hb. by rewrite Hb.
Qed.
Lemma queue_nil cl : queue [] cl = cl.
Proof. destruct cl. unfold queue. cbn. by rewrite app_nil_r. Qed.
Lemma queue_queue l l' cl : queue l' (queue l cl) = queue (l ++ l') cl.
Proof. unfold queue. cbn. by rewrite app_assoc. Qed.
Lemma lookup_on_client c f s c' : subscribers (on_client c f s) !! c' = (if decide (c' = c) then f else fun x => x) <$> subscribers s !! c'.
Proof.
  unfold on_client. cbn. destruct (decide (c' = c)) as [->|Hc]; [by rewrite lookup_alter_eq|]. rewrite lookup_alter_ne by done. by destruct (subscribers s !! c').
Qed.
Lemma publish_channel_ok ch msg l : NoDup l -> forall n s, exists s', publish_channel ch msg l n s = (n + zlen l, s') /\ pubsub_channels s' = pubsub_channels s /\ pubsub_patterns s' = pubsub_patterns s /\
  forall c, subscribers s' !! c = queue (if decide (c ∈ l) then message_items ch msg else []) <$> subscribers s !! c.
Proof.
  induction 1 as [|c l Hc Hl IH]; intros n s; cbn [publish_channel].
  { exists s. split_and!; [f_equal; cbn; lia|done..|]. intros c. rewrite decide_False by apply not_elem_of_nil. destruct (subscribers s !! c); cbn; [by rewrite queue_nil|done]. }
  destruct (IH (n + 1) (on_client c (queue (message_items ch msg)) s)) as (s' & -> & E1 & E2 & E3). exists s'. split_and!; [f_equal; cbn [length]; lia|done..|]. intros c'. rewrite E3, lookup_on_client. destruct (subscribers s !! c') as [cl|]; cbn; [|done]. f_equal.
  destruct (decide (c' = c)) as [->|Hne]; [rewrite (decide_False (P := c ∈ l)), (decide_True (P := c ∈ c :: l)) by (done || left); apply queue_nil|]. cbn. destruct (decide (c' ∈ l)); [rewrite decide_True by (by right)|rewrite decide_False by (rewrite elem_of_cons; tauto)]; done.
Qed.
Lemma publish_patterns_ok ch msg l : forall n s, exists s', publish_patterns ch msg l n s = Some (n + zlen (filter (fun p => matchb p.2 ch = true) l), s') /\ pubsub_channels s' = pubsub_channels s /\ pubsub_patterns s' = pubsub_patterns s /\
  forall c, subscribers s' !! c = queue (filter (fun p => matchb p ch = true) (of_client c l) ≫= fun p => pmessage_items p ch msg) <$> subscribers s !! c.
Proof.
  induction l as [|[c pat] l IH]; intros n s; cbn [publish_patterns].
  { exists s. split_and!; [do 2 f_equal; cbn; lia|done..|]. intros c. destruct (subscribers s !! c); cbn; [by rewrite queue_nil|done]. }
  rewrite matches_total. cbn [mbind option_bind]. rewrite filter_cons. cbn [snd]. destruct (matchb pat ch) eqn:Em.
  - destruct (IH (n + 1) (on_client c (queue (pmessage_items pat ch msg)) s)) as (s' & -> & E1 & E2 & E3). exists s'. rewrite decide_True by done. split_and!; [do 2 f_equal; cbn [length]; lia|done..|]. intros c'. rewrite E3, lookup_on_client. destruct (subscribers s !! c') as [cl|]; cbn [fmap option_fmap option_map]; [|done]. f_equal.
    unfold of_client. rewrite filter_cons. cbn [fst]. destruct (decide (c' = c)) as [->|Hne]; [|by rewrite decide_False by congruence]. rewrite (decide_True (P := c = c)) by done. cbn [fmap list_fmap snd]. rewrite filter_cons_True by done. cbn [mbind list_bind]. by rewrite queue_queue.
  - destruct (IH n s) as (s' & -> & E1 & E2 & E3). exists s'. rewrite decide_False by done. split_and!; [done..|]. intros c'. rewrite E3. do 3 f_equal. unfold of_client. rewrite (filter_cons _ (c, pat)). cbn [fst]. destruct (decide (c = c')); [|done]. cbn [fmap list_fmap snd]. by rewrite filter_cons_False by congruence.
Qed.

(** *** Counting *)

Lemma sum_with_add {A} (f g : A -> nat) l : sum_list_with (fun x => f x + g x)%nat l = (sum_list_with f l + sum_list_with g l)%nat.
Proof. induction l as [|x l IH]; [done|]. rewrite !sum_list_with_foldr in *. cbn. lia. Qed.
Lemma sum_with_ext {A} (f g : A -> nat) l : (forall x, x ∈ l -> f x = g x) -> sum_list_with f l = sum_list_with g l.
Proof. induction l as [|x l IH]; intros Hl; [done|]. rewrite !sum_list_with_foldr in *. cbn. rewrite (Hl x) by left. rewrite IH; [done|]. intros y Hy. apply Hl. by right. Qed.
Lemma sum_with_zero {A} (l : list A) : sum_list_with (fun _ => 0%nat) l = 0%nat.
Proof. induction l as [|x l IH]; [done|]. rewrite !sum_list_with_foldr in *. cbn. done. Qed.
(** Counting by client. *)
Lemma sum_one (m : gmap Z subscriber) c : is_Some (m !! c) -> sum_list_with (fun p : Z * subscriber => if decide (p.1 = c) then 1 else 0)%nat (map_to_list m) = 1%nat.
Proof.
  intros [cl Hc]. rewrite <-(insert_delete_id m c cl Hc). rewrite map_to_list_insert by apply lookup_delete_eq. rewrite sum_list_with_foldr. cbn [foldr fst]. rewrite decide_True by done. rewrite <-sum_list_with_foldr.
  rewrite (sum_with_ext _ (fun _ => 0%nat)); [by rewrite sum_with_zero|]. intros [c' cl'] [Hne _]%elem_of_map_to_list%lookup_delete_Some. cbn. by rewrite decide_False.
Qed.
Lemma of_client_cons c x l : of_client c (x :: l) = (if decide (x.1 = c) then [x.2] else []) ++ of_client c l.
Proof. unfold of_client. rewrite filter_cons. by destruct (decide (x.1 = c)). Qed.
Lemma sum_clients (m : gmap Z subscriber) l : (forall x, x ∈ l -> is_Some (m !! x.1)) -> length l = sum_list_with (fun p => length (of_client p.1 l)) (map_to_list m).
Proof.
  induction l as [|x l IH]; intros Hl; [by rewrite (sum_with_ext _ (fun _ => 0%nat)), sum_with_zero|].
  rewrite (sum_with_ext _ (fun p => (if decide (p.1 = x.1) then 1 else 0) + length (of_client p.1 l)))%nat.
  - rewrite sum_with_add, sum_one by (apply Hl; left). cbn [length]. rewrite <-IH; [done|]. intros y Hy. apply Hl. by right.
  - intros p _. rewrite of_client_cons, length_app. f_equal. destruct (decide (p.1 = x.1)); [by rewrite decide_True|by rewrite decide_False].
Qed.
Lemma of_client_filter (Q : channel -> Prop) `{!forall x, Decision (Q x)} c (l : list (Z * channel)) : of_client c (filter (fun p => Q p.2) l) = filter Q (of_client c l).
Proof.
  induction l as [|x l IH]; [done|]. rewrite of_client_cons, filter_app, <-IH, filter_cons. destruct (decide (Q x.2)).
  - rewrite of_client_cons. f_equal. destruct (decide (x.1 = c)); [|done]. by rewrite filter_cons_True.
  - destruct (decide (x.1 = c)); [|done]. by rewrite filter_cons_False.
Qed.
Lemma of_client_keys c (l : list Z) : NoDup l -> length (of_client c ((fun c => (c, [])) <$> l)) = if decide (c ∈ l) then 1%nat else 0%nat.
Proof.
  induction 1 as [|x l Hx Hl IH]; [by rewrite decide_False by apply not_elem_of_nil|]. rewrite fmap_cons, of_client_cons, length_app, IH. cbn [fst]. destruct (decide (x = c)) as [->|Hne].
  - rewrite (decide_False (P := c ∈ l)), (decide_True (P := c ∈ c :: l)) by (done || left). done.
  - destruct (decide (c ∈ l)); [rewrite decide_True by (by right)|rewrite decide_False by (rewrite elem_of_cons; naive_solver)]; done.
Qed.
Lemma table_count ch s : agree s -> zlen (default [] (pubsub_channels s !! ch)) = total (fun cl => if hears ch cl then 1 else 0)%nat (subscribers s).
Proof.
  intros Ha. set (l := default [] _). assert (NoDup l) as Hnd by (unfold l; destruct (pubsub_channels s !! ch) as [l0|] eqn:El; [by eapply (ag_table s Ha ch)|constructor]).
  unfold total. f_equal. rewrite <-(length_fmap (fun c => (c, [] : channel)) l), (sum_clients (subscribers s)).
  - apply sum_with_ext. intros [c cl] Hc%elem_of_map_to_list. cbn [fst snd]. rewrite of_client_keys by done. unfold hears. destruct (agree_here s c cl Ha Hc) as (Hch & _). specialize (Hch ch). fold l in Hch.
    destruct (decide (c ∈ l)) as [H|H]; [by rewrite bool_decide_eq_true_2 by tauto|by rewrite bool_decide_eq_false_2 by tauto].
  - intros x (c & -> & Hc)%list_elem_of_fmap. cbn. apply (ag_channels s Ha) in Hc. unfold channels_of in Hc. destruct (subscribers s !! c); [done|set_solver].
Qed.
Lemma pattern_there s x : agree s -> x ∈ pubsub_patterns s -> is_Some (subscribers s !! x.1).
Proof.
  intros Ha Hx. assert (x.2 ∈ of_client x.1 (pubsub_patterns s)) as Hin by (unfold of_client; apply list_elem_of_fmap; exists x; split; [done|]; by apply list_elem_of_filter).
  rewrite (ag_patterns s Ha) in Hin. unfold patterns_of in Hin. destruct (subscribers s !! x.1); [done|]. by apply not_elem_of_nil in Hin.
Qed.
Lemma pattern_count (Q : channel -> Prop) `{!forall x, Decision (Q x)} s : agree s -> zlen (filter (fun p => Q p.2) (pubsub_patterns s)) = total (fun cl => length (filter Q (sub_patterns cl))) (subscribers s).
Proof.
  intros Ha. unfold total. f_equal. rewrite (sum_clients (subscribers s)).
  - apply sum_with_ext. intros [c cl] Hc%elem_of_map_to_list. cbn [fst snd]. rewrite of_client_filter. by destruct (agree_here s c cl Ha Hc) as (_ & -> & _).
  - intros x [_ Hx]%list_elem_of_filter. by apply (pattern_there s).
Qed.
Lemma deliver_same ch msg (m : gmap Z subscriber) c : channels_of (deliver ch msg <$> m) c = channels_of m c /\ patterns_of (deliver ch msg <$> m) c = patterns_of m c.
Proof. unfold channels_of, patterns_of. rewrite lookup_fmap. by destruct (m !! c). Qed.
Lemma publish_ok ch msg s : agree s -> exists s', pubsubPublishMessage ch msg s = Some (total (copies ch) (subscribers s), s') /\ agree s' /\ subscribers s' = deliver ch msg <$> subscribers s.
Proof.
  intros Ha. unfold pubsubPublishMessage. set (l := default [] _). assert (NoDup l) as Hnd by (unfold l; destruct (pubsub_channels s !! ch) as [l0|] eqn:El; [by eapply (ag_table s Ha ch)|constructor]).
  destruct (publish_channel_ok ch msg l Hnd 0 s) as (s1 & -> & E1 & E2 & E3). destruct (publish_patterns_ok ch msg (pubsub_patterns s1) (0 + zlen l) s1) as (s2 & -> & F1 & F2 & F3).
  assert (subscribers s2 = deliver ch msg <$> subscribers s) as Hs.
  { apply map_eq. intros c. rewrite F3, E3, E2, lookup_fmap. destruct (subscribers s !! c) as [cl|] eqn:Hc; [|done]. cbn [fmap option_fmap option_map]. f_equal. rewrite queue_queue. unfold deliver, hears, matched.
    destruct (agree_here s c cl Ha Hc) as (Hch & -> & _). do 2 f_equal. specialize (Hch ch). fold l in Hch. destruct (decide (c ∈ l)) as [H|H]; [by rewrite bool_decide_eq_true_2 by tauto|by rewrite bool_decide_eq_false_2 by tauto]. }
  exists s2. split_and!; [|apply (agree_same s); [congruence..| | |done]; intros c; rewrite Hs; apply deliver_same|done]. rewrite E2, Z.add_0_l. do 2 f_equal. transitivity (total (fun cl => if hears ch cl then 1 else 0)%nat (subscribers s) + total (fun cl => length (matched ch cl)) (subscribers s)).
  - f_equal; [exact (table_count ch s Ha)|exact (pattern_count (fun p => matchb p ch = true) s Ha)].
  - unfold total. rewrite <-Nat2Z.inj_add, <-sum_with_add. done.
Qed.

(** ** The flag of clients that listen *)

Definition idle (cl : subscriber) : bool := clientSubscriptionsCount cl =? 0.
Definition flag_ok (cl : subscriber) : Prop := sub_flag cl = negb (idle cl).
Lemma idle_iff cl : idle cl = true <-> sub_channels cl = ∅ /\ sub_patterns cl = [].
Proof.
  unfold idle, clientSubscriptionsCount. rewrite Z.eqb_eq. split.
  - intros H. split; [apply leibniz_equiv, size_empty_inv; lia|]. apply length_zero_iff_nil. lia.
  - intros [-> ->]. rewrite size_empty. done.
Qed.
Definition shrinks (f : subscriber -> channel -> subscriber) : Prop := forall cl x, (idle cl = true -> idle (f cl x) = true) /\ sub_flag (f cl x) = sub_flag cl.
Lemma unsubscribe_shrinks : shrinks unsubscribe.
Proof. intros cl x. split; [|done]. rewrite !idle_iff. cbn. intros [-> ->]. split; [set_solver|done]. Qed.
Lemma punsubscribe_shrinks : shrinks punsubscribe.
Proof. intros cl x. split; [|done]. rewrite !idle_iff. cbn. intros [-> ->]. by split. Qed.
Lemma shrinks_fold f l : shrinks f -> forall cl, (idle cl = true -> idle (foldl f cl l) = true) /\ sub_flag (foldl f cl l) = sub_flag cl.
Proof. intros Hf. induction l as [|x l IH]; intros cl; [done|]. cbn [foldl]. destruct (IH (f cl x)) as [H1 H2], (Hf cl x) as [H3 H4]. split; [auto|congruence]. Qed.
(** The flag is cleared when the last subscription has ended. *)
Lemma clear_flag_ok c cl0 cl s s' : flag_ok cl0 -> (idle cl0 = true -> idle cl = true) -> sub_flag cl = sub_flag cl0 -> becomes c cl s s' -> becomes c (listens cl) s (clear_flag c s').
Proof.
  intros Hf Hi Hs Hb. eapply becomes_trans; [exact Hb|]. replace (listens cl) with ((fun cl => if clientSubscriptionsCount cl =? 0 then set_flag false cl else cl) cl).
  - apply (becomes_quiet (fun cl => if clientSubscriptionsCount cl =? 0 then set_flag false cl else cl)); [apply Hb|by eapply becomes_lookup|..]; cbv beta; by destruct (_ =? _).
  - cbv beta. unfold listens. unfold flag_ok, idle in *. destruct (Z.eqb_spec (clientSubscriptionsCount cl) 0) as [|Hne]; [done|]. cbn [negb]. destruct (clientSubscriptionsCount cl0 =? 0); [by specialize (Hi eq_refl)|]. destruct cl; cbn in *. by rewrite Hs, Hf.
Qed.
Definition grows (f : subscriber -> channel -> subscriber) : Prop := forall cl x, idle (f cl x) = false.
Lemma subscribe_grows : grows (flip subscribe).
Proof. intros cl x. apply not_true_iff_false. rewrite idle_iff. cbn. intros [H _]. assert (x ∈ ({[x]} ∪ sub_channels cl : gset channel)) as Hx by set_solver. rewrite H in Hx. set_solver. Qed.
Lemma psubscribe_grows : grows (flip psubscribe).
Proof. intros cl x. apply not_true_iff_false. rewrite idle_iff. cbn. intros [_ H]. case_decide as Hin; [rewrite H in Hin; by apply not_elem_of_nil in Hin|]. cbn in H. by destruct (sub_patterns cl). Qed.
Lemma grows_fold f l cl : grows f -> l <> [] -> idle (foldl f cl l) = false.
Proof. intros Hf Hl. destruct (exists_last Hl) as (l' & x & ->). rewrite foldl_app. apply Hf. Qed.
Lemma set_flag_ok c cl s s' : idle cl = false -> becomes c cl s s' -> becomes c (listens cl) s (on_client c (set_flag true) s').
Proof.
  intros Hi Hb. eapply becomes_trans; [exact Hb|]. unfold listens. unfold idle in Hi. rewrite Hi. by apply (becomes_quiet (set_flag true)); [apply Hb|eapply becomes_lookup|..].
Qed.

(** ** Steps *)

Lemma becomes_alter c f cl s s' : subscribers s !! c = Some cl -> becomes c (f cl) s s' -> agree s' /\ subscribers s' = alter f c (subscribers s).
Proof. intros Hc [Ha E]. split; [done|]. by rewrite E, (alter_known f c _ cl). Qed.
Lemma own_ok c cmd cl s : agree s -> subscribers s !! c = Some cl -> flag_ok cl -> subscription_command cmd = true -> pubsub_arity cmd = None -> exists s', pubsub_proc iter c cmd s = Some s' /\ becomes c (own_command cmd cl) s s'.
Proof.
  intros Ha Hc Hf Hcmd Har. destruct cmd as [l|l|l|l| | | |]; try done; cbn [pubsub_proc own_command].
  - destruct (each_ok c (flip subscribe) (pubsubSubscribeChannel c) (fun x cl s => subscribe_ok c x cl s) l cl s Ha Hc) as (s1 & E & Hb). unfold subscribeCommand. rewrite E. cbn [mbind option_bind]. eexists. split; [done|]. apply set_flag_ok; [|done]. apply grows_fold; [apply subscribe_grows|by destruct l].
  - unfold unsubscribeCommand. destruct l as [|x l].
    + destruct (unsubscribe_all_ok c true cl s Ha Hc) as (n & s1 & E & Hb). rewrite E. cbn [fmap option_fmap option_map snd mbind option_bind]. eexists. split; [done|]. apply (clear_flag_ok c cl); [done|..|exact Hb]; destruct (decide _); try done; apply shrinks_fold, unsubscribe_shrinks.
    + destruct (each_ok c unsubscribe (fun ch s => snd <$> pubsubUnsubscribeChannel c ch true s)) with (l := x :: l) (cl := cl) (s := s) as (s1 & E & Hb); [|done..|].
      { intros ch cl' s' Ha' Hc'. destruct (unsubscribe_ok c ch true cl' s' Ha' Hc') as (s2 & E2 & Hb2). exists s2. by rewrite E2. }
      rewrite E. eexists. split; [done|]. apply (clear_flag_ok c cl); [done|..|exact Hb]; apply shrinks_fold, unsubscribe_shrinks.
  - destruct (each_ok c (flip psubscribe) (pubsubSubscribePattern c) (fun x cl s => psubscribe_ok c x cl s) l cl s Ha Hc) as (s1 & E & Hb). unfold psubscribeCommand. rewrite E. cbn [mbind option_bind]. eexists. split; [done|]. apply set_flag_ok; [|done]. apply grows_fold; [apply psubscribe_grows|by destruct l].
  - unfold punsubscribeCommand. destruct l as [|x l].
    + destruct (punsubscribe_all_ok c true cl s Ha Hc) as (n & s1 & E & Hb). rewrite E. cbn [fmap option_fmap option_map snd mbind option_bind]. eexists. split; [done|]. apply (clear_flag_ok c cl); [done|..|exact Hb]; destruct (decide _); try done; apply shrinks_fold, punsubscribe_shrinks.
    + destruct (each_ok c punsubscribe (fun ch s => snd <$> pubsubUnsubscribePattern c ch true s)) with (l := x :: l) (cl := cl) (s := s) as (s1 & E & Hb); [|done..|].
      { intros ch cl' s' Ha' Hc'. destruct (punsubscribe_ok c ch true cl' s' Ha' Hc') as (s2 & E2 & Hb2). exists s2. by rewrite E2. }
      rewrite E. eexists. split; [done|]. apply (clear_flag_ok c cl); [done|..|exact Hb]; apply shrinks_fold, punsubscribe_shrinks.
Qed.
Lemma matching_ok pat l : matching pat l = Some (filter (fun ch => shown pat ch = true) l).
Proof.
  induction l as [|ch l IH]; [done|]. cbn [matching]. assert (match pat with None => Some true | Some pat => matches pat ch end = Some (shown pat ch)) as -> by (destruct pat; [apply matches_total|done]). cbn [mbind option_bind]. rewrite IH. cbn [mbind option_bind]. rewrite filter_cons.
  destruct (shown pat ch); [by rewrite decide_True|by rewrite decide_False].
Qed.
Lemma active_ok s : agree s -> dom (pubsub_channels s) = active (subscribers s).
Proof.
  intros Ha. apply set_eq. intros ch. unfold active. rewrite elem_of_dom, elem_of_union_list. split.
  - intros [l Hl]. destruct (ag_table s Ha ch l Hl) as [_ Hne]. destruct l as [|c l]; [done|]. assert (ch ∈ channels_of (subscribers s) c) as Hc by (apply (ag_channels s Ha); rewrite Hl; left). unfold channels_of in Hc.
    destruct (subscribers s !! c) as [cl|] eqn:El; [|set_solver]. exists (sub_channels cl). split; [|done]. apply list_elem_of_fmap. exists (c, cl). split; [done|]. by apply elem_of_map_to_list.
  - intros (X & ([c cl] & -> & Hc%elem_of_map_to_list)%list_elem_of_fmap & Hch). cbn in Hch. destruct (agree_here s c cl Ha Hc) as (H & _). apply H in Hch. destruct (pubsub_channels s !! ch); [done|]. by apply not_elem_of_nil in Hch.
Qed.
Lemma question_ok c cmd cl s : agree s -> subscribers s !! c = Some cl -> subscription_command cmd = false ->
  exists s', pubsub_proc iter c cmd s = Some s' /\ agree s' /\ subscribers s' = alter (queue (answer cmd (subscribers s))) c (published cmd (subscribers s)).
Proof.
  intros Ha Hc Hcmd. assert (forall l, agree (on_client c (queue l) s) /\ subscribers (on_client c (queue l) s) = alter (queue l) c (subscribers s)) as Hq by (intros l; split; [|done]; by apply (becomes_quiet (queue l) c cl)).
  destruct cmd as [| | | |ch msg|pat|l|]; try done; cbn [pubsub_proc answer published].
  - unfold publishCommand. destruct (publish_ok ch msg s Ha) as (s1 & -> & Ha1 & E1). cbn [mbind option_bind]. eexists. split; [done|]. cbn. rewrite E1. split; [|done]. apply (becomes_quiet _ c (deliver ch msg cl)); [done| |done..]. by rewrite E1, lookup_fmap, Hc.
  - unfold channels_command. rewrite matching_ok. cbn [mbind option_bind]. eexists. split; [done|]. cbn zeta. rewrite (active_ok s Ha). apply Hq.
  - unfold numsub_command. eexists. split; [done|]. assert (forall ch, zlen (default [] (pubsub_channels s !! ch)) = total (fun cl => if hears ch cl then 1 else 0)%nat (subscribers s)) as Hn by (intros ch; by apply table_count).
    replace (l ≫= fun ch => [RBulk (ObjRaw ch); RLongLong (zlen (default [] (pubsub_channels s !! ch)))]) with (l ≫= fun ch => [RBulk (ObjRaw ch); RLongLong (total (fun cl => if hears ch cl then 1 else 0)%nat (subscribers s))]); [apply Hq|].
    clear -Hn. induction l as [|ch l IH]; [done|]. cbn [mbind list_bind]. by rewrite IH, Hn.
  - unfold numpat_command. eexists. split; [done|]. pose proof (pattern_count (fun _ => True) s Ha) as Hn. rewrite filter_whole in Hn by done. rewrite Hn. replace (total (fun cl => length (sub_patterns cl)) (subscribers s)) with (total (fun cl => length (filter (fun _ => True) (sub_patterns cl))) (subscribers s)); [apply Hq|].
    unfold total. f_equal. apply sum_with_ext. intros p _. by rewrite filter_whole.
Qed.
Lemma drop_channels l cl : sub_channels (foldl (flip drop_channel) cl l) = sub_channels cl ∖ list_to_set l /\ sub_patterns (foldl (flip drop_channel) cl l) = sub_patterns cl.
Proof. revert cl. induction l as [|x l IH]; intros cl; [cbn; split; [set_solver|done]|]. cbn [foldl flip]. destruct (IH (drop_channel x cl)) as [-> ->]. cbn. split; [set_solver|done]. Qed.
Lemma drop_patterns l cl : sub_patterns (foldl (flip drop_pattern) cl l) = filter (fun p => p ∉ l) (sub_patterns cl) /\ sub_channels (foldl (flip drop_pattern) cl l) = sub_channels cl.
Proof.
  revert cl. induction l as [|x l IH]; intros cl; [cbn [foldl]; split; [|done]; symmetry; apply filter_whole; intros p _; apply not_elem_of_nil|]. cbn [foldl flip]. destruct (IH (drop_pattern x cl)) as [-> ->]. split; [|done]. cbn [drop_pattern set_patterns sub_patterns].
  rewrite list_filter_filter. apply list_filter_iff. intros p. rewrite not_elem_of_cons. tauto.
Qed.
Lemma free_client_ok c cl s : agree s -> subscribers s !! c = Some cl -> exists s', pubsub_free iter c s = Some s' /\ agree s' /\ subscribers s' = delete c (subscribers s).
Proof.
  intros Ha Hc. unfold pubsub_free. destruct (unsubscribe_all_ok c false cl s Ha Hc) as (n1 & s1 & -> & Hb1). cbn [mbind option_bind]. set (cl1 := foldl _ _ _) in Hb1.
  destruct (punsubscribe_all_ok c false cl1 s1 (proj1 Hb1) (becomes_lookup _ _ _ _ Hb1)) as (n2 & s2 & -> & Hb2). cbn [mbind option_bind]. set (cl2 := foldl _ _ _) in Hb2.
  eexists. split; [done|]. destruct Hb2 as [Ha2 E2], Hb1 as [_ E1]. rewrite E1, insert_insert_eq in E2. cbn. rewrite E2, delete_insert_eq. split; [|done].
  assert (sub_channels cl2 = ∅ /\ sub_patterns cl2 = []) as [H1 H2].
  { destruct (drop_patterns (sub_patterns cl1) cl1) as [F1 F2]. destruct (drop_channels (iter (sub_channels cl)) cl) as [G1 G2]. unfold cl2. rewrite F1, F2. unfold cl1. rewrite G1. split.
    - apply set_eq. intros x. rewrite elem_of_difference, elem_of_list_to_set, (Hiter (sub_channels cl)), elem_of_elements. set_solver.
    - apply elem_of_nil_inv. intros p [Hp Hin]%list_elem_of_filter. done. }
  apply (agree_same s2); [done..| | |done]; intros c'; cbn; rewrite E2; unfold channels_of, patterns_of; (destruct (decide (c' = c)) as [->|Hne]; [by rewrite lookup_delete_eq, lookup_insert_eq|by rewrite lookup_delete_ne, lookup_insert_ne]).
Qed.
Definition flags_ok (m : gmap Z subscriber) : Prop := forall c cl, m !! c = Some cl -> flag_ok cl.
Lemma step_ok ev s : agree s -> flags_ok (subscribers s) -> exists s', pubsub_step iter ev s = Some s' /\ agree s' /\ subscribers s' = spec_step ev (subscribers s).
Proof.
  intros Ha Hf. destruct ev as [c|c cmd|ch msg|c]; cbn [pubsub_step spec_step].
  - eexists. split; [done|]. destruct (subscribers s !! c) eqn:Hc; [done|]. split; [|done]. apply (agree_same s); [done..| | |done]; intros c'; cbn; unfold channels_of, patterns_of; (destruct (decide (c' = c)) as [->|Hne]; [by rewrite lookup_insert_eq, Hc|by rewrite lookup_insert_ne]).
  - destruct (subscribers s !! c) as [cl|] eqn:Hc; [rewrite decide_True by done|rewrite decide_False by (by intros [? ?]); by exists s]. unfold pubsub_process. rewrite Hc. cbn [mbind option_bind].
    destruct (pubsub_arity cmd) as [name|] eqn:Ear; [eexists; split; [done|]; split; [|done]; by apply (becomes_quiet (queue _) c cl)|]. destruct (subscription_command cmd) eqn:Esub; cbn [negb].
    + rewrite andb_false_r. destruct (own_ok c cmd cl s Ha Hc (Hf c cl Hc) Esub Ear) as (s' & E & Hb). exists s'. split; [done|]. by apply (becomes_alter c (own_command cmd) cl).
    + rewrite andb_true_r. destruct (sub_flag cl); [eexists; split; [done|]; split; [|done]; by apply (becomes_quiet (queue _) c cl)|]. by apply (question_ok c cmd cl).
  - destruct (publish_ok ch msg s Ha) as (s' & -> & H). by exists s'.
  - destruct (subscribers s !! c) as [cl|] eqn:Hc; [rewrite decide_True by done|rewrite decide_False by (by intros [? ?])]; [by apply (free_client_ok c cl)|]. exists s. split; [done|]. split; [done|]. by rewrite delete_id.
Qed.
Lemma listens_ok cl : flag_ok (listens cl).
Proof. done. Qed.
Lemma flags_alter f c m : (forall cl, flag_ok cl -> flag_ok (f cl)) -> flags_ok m -> flags_ok (alter f c m).
Proof. intros Hf Hm c' cl Hc. apply lookup_alter_Some in Hc as [(-> & cl0 & Hc & ->)|[_ Hc]]; [by eapply Hf, Hm|by eapply Hm]. Qed.
Lemma spec_flags ev m : flags_ok m -> flags_ok (spec_step ev m).
Proof.
  intros Hm. assert (forall ch msg, flags_ok (deliver ch msg <$> m)) as Hd by (intros ch msg c cl; rewrite lookup_fmap; destruct (m !! c) as [cl0|] eqn:Hc; [|done]; intros [= <-]; exact (Hm c cl0 Hc)).
  destruct ev as [c|c cmd|ch msg|c]; cbn [spec_step].
  - destruct (m !! c); [done|]. intros c' cl [[<- <-]|[_ Hc]]%lookup_insert_Some; [done|by apply (Hm c')].
  - destruct (m !! c) as [cl|] eqn:Hc; [|done]. destruct (pubsub_arity cmd); [by apply flags_alter|]. destruct (negb (subscription_command cmd)) eqn:Esub.
    + destruct (sub_flag cl); apply flags_alter; try done. destruct cmd; try done. apply Hd.
    + apply flags_alter; [|done]. intros cl' _. destruct cmd as [|[]| |[]| | | |]; done.
  - done.
  - intros c' cl [_ Hc]%lookup_delete_Some. by apply (Hm c').
Qed.
Lemma run_ok l : forall s, agree s -> flags_ok (subscribers s) -> exists s', pubsub_run iter l s = Some s' /\ agree s' /\ flags_ok (subscribers s') /\ subscribers s' = foldl (flip spec_step) (subscribers s) l.
Proof.
  induction l as [|ev l IH]; intros s Ha Hf; [by exists s|]. destruct (step_ok ev s Ha Hf) as (s1 & E1 & Ha1 & Hs1). cbn [pubsub_run foldl flip]. rewrite E1. cbn [mbind option_bind]. rewrite <-Hs1. apply IH; [done|]. rewrite Hs1. by apply spec_flags.
Qed.
End Spec.

(** ** The theorem *)

(** C11: whatever clients do with publish and subscribe, the two records of subscriptions agree and no assertion fails: over every history of connections, commands, messages published by clients or for events of the
    key space, and disconnections, every client has been queued exactly the confirmations of its own requests and, for each message published while it was connected, one copy when it was subscribed to the channel and
    one for each of its patterns that match, in the order of the subscriptions; PUBLISH, PUBSUB CHANNELS, NUMSUB and NUMPAT answer with the true numbers; the table of channels holds exactly those with a subscriber; and a
    client is restricted to the commands of publish and subscribe exactly while it has a subscription.  The order in which a dictionary is iterated is free. *)
Theorem pubsub_delivers iter l : (forall X, iter X ≡ₚ elements X) ->
  exists s, pubsub_run iter l pubsub_start = Some s /\ subscribers s = spec_run iter l /\
    (forall ch, is_Some (pubsub_channels s !! ch) <-> exists c cl, subscribers s !! c = Some cl /\ ch ∈ sub_channels cl) /\
    (forall c cl, subscribers s !! c = Some cl -> sub_flag cl = true <-> sub_channels cl <> ∅ \/ sub_patterns cl <> []).
Proof.
  intros Hiter. destruct (run_ok iter Hiter l pubsub_start) as (s & E & Ha & Hf & Hs); [split; try done; [intros ch c; cbn; rewrite lookup_empty; cbn; unfold channels_of; cbn; rewrite lookup_empty; set_solver|intros c; unfold patterns_of; cbn; rewrite lookup_empty; constructor]|done|].
  exists s. split_and!; [done..| |].
  - intros ch. rewrite <-elem_of_dom, (active_ok s Ha). unfold active. rewrite elem_of_union_list. split.
    + intros (X & ([c cl] & -> & Hc%elem_of_map_to_list)%list_elem_of_fmap & Hch). by exists c, cl.
    + intros (c & cl & Hc & Hch). exists (sub_channels cl). split; [|done]. apply list_elem_of_fmap. exists (c, cl). split; [done|]. by apply elem_of_map_to_list.
  - intros c cl Hc. rewrite (Hf c cl Hc). pose proof (idle_iff cl) as Hi. destruct (idle cl); cbn [negb]; [split; [done|]; destruct Hi as [Hi _]; specialize (Hi eq_refl) as [-> ->]; naive_solver|]. split; [|done]. intros _.
    destruct (decide (sub_channels cl = ∅)) as [H1|H1]; [|by left]. right. intros H2. destruct Hi as [_ Hi]. by specialize (Hi (conj H1 H2)).
Qed.

(** ** Examples *)

Definition demo_history : list pubsub_event :=
  [Connect 1; Connect 2; Connect 3; Ask 1 (SUBSCRIBE [str "news"]); Ask 2 (PSUBSCRIBE [str "n*"; str "x"]); Ask 2 (SUBSCRIBE [str "news"]); Ask 3 (PUBLISH (str "news") (str "hi")); Ask 2 (PUBLISH (str "news") (str "no"));
   Ask 2 (UNSUBSCRIBE []); Free 1; Ask 3 (PUBLISH (str "news") (str "ho")); Ask 3 NUMPAT; Ask 3 (CHANNELS None); Ask 3 (SUBSCRIBE [])]%string.
Lemma pubsub_delivers_witness : exists s, pubsub_run elements demo_history pubsub_start = Some s /\ subscribers s = spec_run elements demo_history /\ subscribers s !! 1 = None /\ pubsub_channels s = ∅ /\
  sub_replies <$> subscribers s !! 3 = Some [RLongLong 3; RLongLong 1; RLongLong 2; RDeferred 0 []; RErrorFormat (str "wrong number of arguments for 'subscribe' command")] /\
  (fun cl => (sub_patterns cl, sub_flag cl, drop 12 (sub_replies cl))) <$> subscribers s !! 2 = Some ([str "n*"; str "x"], true,
    message_items (str "news") (str "hi") ++ pmessage_items (str "n*") (str "news") (str "hi") ++ [RError in_context; mbulkhdr 3; namebulk "unsubscribe"; RBulk (ObjRaw (str "news")); RLongLong 2] ++ pmessage_items (str "n*") (str "news") (str "ho")).
Proof.
  destruct (pubsub_delivers elements demo_history) as (s & E & Hs & Ht & _); [intros X; reflexivity|]. exists s. split; [exact E|]. split; [exact Hs|]. rewrite Hs. split_and!; [vm_compute; reflexivity| |vm_compute; reflexivity|vm_compute; reflexivity].
  assert (pubsub_channels <$> pubsub_run elements demo_history pubsub_start = Some ∅) as Hc by (vm_compute; reflexivity). rewrite E in Hc. apply (inj Some) in Hc. exact Hc.
Defined.
