(* ===== verification/Replication.v ===== *)
(** * Replication, seen from a master (src/redis-stable/src/replication.c)

    A master sends every replica the same stream of bytes and keeps the last part of it in a
    circular buffer, the backlog, so that a replica that lost its connection can continue
    where it stopped; other replicas get a dump of the data set first and the stream from the
    point where the dump was taken.  The replicas are the elements of server.slaves; what is queued for one is the
    list of the calls that queued it, whose effect on the buffers is the subject of Reply.
    What the model adds for the statements is marked ghost: the whole stream, the offset at which a replica
    was attached to it, and the offset at which a dump was started. *)
From stdpp Require Import prelude list strings.
From Stdlib Require Import ZArith Lia.
From S2P Require Import Prelude Util SdsText Rio Rdb Reply Resp Aof.

Local Open Scope Z_scope.
Local Open Scope redis_scope.

(** ** The model *)

Definition SLAVE_STATE_WAIT_BGSAVE_START : Z := 6.
Definition SLAVE_STATE_WAIT_BGSAVE_END : Z := 7.
Definition SLAVE_STATE_SEND_BULK : Z := 8.
Definition SLAVE_CAPA_EOF : Z := 2 ^ 0.
Definition SLAVE_CAPA_PSYNC2 : Z := 2 ^ 1.
Definition CLIENT_PRE_PSYNC : Z := 2 ^ 16.
Definition CONFIG_REPL_BACKLOG_MIN_SIZE : Z := 1024 * 16.
Definition CONFIG_RUN_ID_SIZE : Z := 40.
Definition PROTO_SHARED_SELECT_CMDS : Z := 10.

Inductive rdb_child_type := RDB_CHILD_TYPE_DISK | RDB_CHILD_TYPE_SOCKET.
#[global] Instance rdb_child_type_eq_dec : EqDecision rdb_child_type.
Proof. solve_decision. Defined.

(** The members of struct client a replica uses: [items] are the calls that filled its output buffers, [direct] the bytes
    written to its socket past the buffers, [start] (ghost) the offset of the first byte of the stream in the buffers. *)
Record slave := mk_slave {
  sid : Z; sflags : Z; replstate : Z; slave_capa : Z; psync_initial_offset : Z; repl_put_online_on_ack : bool;
  repl_ack_off : Z; repl_ack_time : Z; last_interaction : Z; repldboff : Z; repldbsize : Z; replpreamble : option (list Z);
  items : list reply_item; direct : list Z; start : Z;
}.
Definition set_sflags (f : Z) (c : slave) : slave := mk_slave (sid c) f (replstate c) (slave_capa c) (psync_initial_offset c) (repl_put_online_on_ack c)
  (repl_ack_off c) (repl_ack_time c) (last_interaction c) (repldboff c) (repldbsize c) (replpreamble c) (items c) (direct c) (start c).
Definition set_state (st : Z) (c : slave) : slave := mk_slave (sid c) (sflags c) st (slave_capa c) (psync_initial_offset c) (repl_put_online_on_ack c)
  (repl_ack_off c) (repl_ack_time c) (last_interaction c) (repldboff c) (repldbsize c) (replpreamble c) (items c) (direct c) (start c).
Definition set_ack (on_ack : bool) (off time : Z) (c : slave) : slave := mk_slave (sid c) (sflags c) (replstate c) (slave_capa c) (psync_initial_offset c) on_ack
  off time (last_interaction c) (repldboff c) (repldbsize c) (replpreamble c) (items c) (direct c) (start c).
Definition set_bulk (off size : Z) (pre : option (list Z)) (c : slave) : slave := mk_slave (sid c) (sflags c) (replstate c) (slave_capa c) (psync_initial_offset c) (repl_put_online_on_ack c)
  (repl_ack_off c) (repl_ack_time c) (last_interaction c) off size pre (items c) (direct c) (start c).
Definition set_items (l : list reply_item) (c : slave) : slave := mk_slave (sid c) (sflags c) (replstate c) (slave_capa c) (psync_initial_offset c) (repl_put_online_on_ack c)
  (repl_ack_off c) (repl_ack_time c) (last_interaction c) (repldboff c) (repldbsize c) (replpreamble c) l (direct c) (start c).
Definition set_direct (bs : list Z) (c : slave) : slave := mk_slave (sid c) (sflags c) (replstate c) (slave_capa c) (psync_initial_offset c) (repl_put_online_on_ack c)
  (repl_ack_off c) (repl_ack_time c) (last_interaction c) (repldboff c) (repldbsize c) (replpreamble c) (items c) bs (start c).
Definition set_start (initial o : Z) (c : slave) : slave := mk_slave (sid c) (sflags c) (replstate c) (slave_capa c) initial (repl_put_online_on_ack c)
  (repl_ack_off c) (repl_ack_time c) (last_interaction c) (repldboff c) (repldbsize c) (replpreamble c) (items c) (direct c) o.
Definition set_capa (capa : Z) (c : slave) : slave := mk_slave (sid c) (sflags c) (replstate c) capa (psync_initial_offset c) (repl_put_online_on_ack c)
  (repl_ack_off c) (repl_ack_time c) (last_interaction c) (repldboff c) (repldbsize c) (replpreamble c) (items c) (direct c) (start c).
Definition queue_item (i : reply_item) (c : slave) : slave := set_items (items c ++ [i]) c.

(** The members of struct redisServer: [history] and [base] (ghost) are the stream and the offset before its first byte; the child
    process that saves comes with the offset at which it was started (ghost). *)
Record rserver := mk_rserver {
  masterhost : bool; backlog : option (list Z); backlog_size : Z; backlog_idx : Z; backlog_histlen : Z; backlog_off : Z;
  master_repl_offset : Z; replid : list Z; replid2 : list Z; second_replid_offset : Z; slaveseldb : Z; slaves : list slave;
  rdb_child : option (rdb_child_type * Z); aof_child : bool; repl_no_slaves_since : Z; good_slaves : Z; history : list Z; base : Z;
}.
Definition set_backlog (b : option (list Z)) (size idx histlen off : Z) (s : rserver) : rserver := mk_rserver (masterhost s) b size idx histlen off
  (master_repl_offset s) (replid s) (replid2 s) (second_replid_offset s) (slaveseldb s) (slaves s) (rdb_child s) (aof_child s) (repl_no_slaves_since s) (good_slaves s) (history s) (base s).
Definition set_stream (h : list Z) (off : Z) (s : rserver) : rserver := mk_rserver (masterhost s) (backlog s) (backlog_size s) (backlog_idx s) (backlog_histlen s) (backlog_off s)
  off (replid s) (replid2 s) (second_replid_offset s) (slaveseldb s) (slaves s) (rdb_child s) (aof_child s) (repl_no_slaves_since s) (good_slaves s) h (base s).
Definition set_ids (id id2 : list Z) (off2 : Z) (s : rserver) : rserver := mk_rserver (masterhost s) (backlog s) (backlog_size s) (backlog_idx s) (backlog_histlen s) (backlog_off s)
  (master_repl_offset s) id id2 off2 (slaveseldb s) (slaves s) (rdb_child s) (aof_child s) (repl_no_slaves_since s) (good_slaves s) (history s) (base s).
Definition set_slaves (l : list slave) (s : rserver) : rserver := mk_rserver (masterhost s) (backlog s) (backlog_size s) (backlog_idx s) (backlog_histlen s) (backlog_off s)
  (master_repl_offset s) (replid s) (replid2 s) (second_replid_offset s) (slaveseldb s) l (rdb_child s) (aof_child s) (repl_no_slaves_since s) (good_slaves s) (history s) (base s).
Definition set_seldb (d : Z) (s : rserver) : rserver := mk_rserver (masterhost s) (backlog s) (backlog_size s) (backlog_idx s) (backlog_histlen s) (backlog_off s)
  (master_repl_offset s) (replid s) (replid2 s) (second_replid_offset s) d (slaves s) (rdb_child s) (aof_child s) (repl_no_slaves_since s) (good_slaves s) (history s) (base s).
Definition set_child (c : option (rdb_child_type * Z)) (s : rserver) : rserver := mk_rserver (masterhost s) (backlog s) (backlog_size s) (backlog_idx s) (backlog_histlen s) (backlog_off s)
  (master_repl_offset s) (replid s) (replid2 s) (second_replid_offset s) (slaveseldb s) (slaves s) c (aof_child s) (repl_no_slaves_since s) (good_slaves s) (history s) (base s).
Definition set_counts (since good : Z) (s : rserver) : rserver := mk_rserver (masterhost s) (backlog s) (backlog_size s) (backlog_idx s) (backlog_histlen s) (backlog_off s)
  (master_repl_offset s) (replid s) (replid2 s) (second_replid_offset s) (slaveseldb s) (slaves s) (rdb_child s) (aof_child s) since good (history s) (base s).
Definition set_master (h : bool) (s : rserver) : rserver := mk_rserver h (backlog s) (backlog_size s) (backlog_idx s) (backlog_histlen s) (backlog_off s)
  (master_repl_offset s) (replid s) (replid2 s) (second_replid_offset s) (slaveseldb s) (slaves s) (rdb_child s) (aof_child s) (repl_no_slaves_since s) (good_slaves s) (history s) (base s).

Definition set_aof (b : bool) (s : rserver) : rserver := mk_rserver (masterhost s) (backlog s) (backlog_size s) (backlog_idx s) (backlog_histlen s) (backlog_off s)
  (master_repl_offset s) (replid s) (replid2 s) (second_replid_offset s) (slaveseldb s) (slaves s) (rdb_child s) b (repl_no_slaves_since s) (good_slaves s) (history s) (base s).

(** The configuration and what the system answers during one operation. *)
Record renv := mk_renv {
  unixtime : Z;
  malloc_content : Z -> list Z;          (* the bytes of a new block *)
  random_hex : list Z;                   (* getRandomHexChars *)
  write_ok : Z -> bool;                  (* write(fd,buf,buflen) == buflen, for the socket of a client *)
  event_ok : Z -> bool;                  (* aeCreateFileEvent *)
  dump_size : Z -> option Z;             (* open and fstat of the dump *)
  fork_ok : bool; pipe_ok : bool;
  has_master_db : bool;                  (* server.master or server.cached_master *)
  repl_link_up : bool;                   (* server.repl_state == REPL_STATE_CONNECTED *)
  repl_diskless_sync : bool; repl_diskless_sync_delay : Z;
  min_slaves_to_write : Z; min_slaves_max_lag : Z;
  repl_timeout : Z; repl_backlog_time_limit : Z;
  ping_now : bool;                       (* replication_cron_loops % server.repl_ping_slave_period == 0 *)
  manual_failover_in_progress : bool;
}.

(** *** The backlog *)

Definition createReplicationBacklog (e : renv) (s : rserver) : option rserver :=
  assert! (bool_decide (backlog s = None)) ;;
  Some (set_backlog (Some (malloc_content e (backlog_size s))) (backlog_size s) 0 0 (master_repl_offset s + 1) s).

Definition resizeReplicationBacklog (e : renv) (newsize : Z) (s : rserver) : rserver :=
  let newsize := if newsize <? CONFIG_REPL_BACKLOG_MIN_SIZE then CONFIG_REPL_BACKLOG_MIN_SIZE else newsize in
  if backlog_size s =? newsize then s else
  match backlog s with
  | Some _ => set_backlog (Some (malloc_content e newsize)) newsize 0 0 (master_repl_offset s + 1) s
  | None => set_backlog None newsize (backlog_idx s) (backlog_histlen s) (backlog_off s) s
  end.

Definition freeReplicationBacklog (s : rserver) : option rserver :=
  assert! (bool_decide (slaves s = [])) ;;
  Some (set_backlog None (backlog_size s) (backlog_idx s) (backlog_histlen s) (backlog_off s) s).

(** The loop of feedReplicationBacklog. *)
Fixpoint feed_loop (fuel : nat) (p : list Z) (s : rserver) : option rserver :=
  match fuel with
  | O => None
  | S fuel =>
    if zlen p =? 0 then Some s else
    let thislen := Z.min (backlog_size s - backlog_idx s) (zlen p) in
    b ← backlog s;
    b ← mwrite b (backlog_idx s) (take (Z.to_nat thislen) p);
    let idx := backlog_idx s + thislen in
    let idx := if idx =? backlog_size s then 0 else idx in
    feed_loop fuel (drop (Z.to_nat thislen) p) (set_backlog (Some b) (backlog_size s) idx (backlog_histlen s + thislen) (backlog_off s) s)
  end.
Definition feedReplicationBacklog (p : list Z) (s : rserver) : option rserver :=
  let s := set_stream (history s ++ p) (master_repl_offset s + zlen p) s in
  s ← feed_loop (S (length p)) p s;
  let histlen := if backlog_size s <? backlog_histlen s then backlog_size s else backlog_histlen s in
  Some (set_backlog (backlog s) (backlog_size s) (backlog_idx s) histlen (master_repl_offset s - histlen + 1) s).

Definition feedReplicationBacklogWithObject (o : string_obj) (s : rserver) : option rserver :=
  match o with
  | ObjInt _ v => '(llstr, len) ← ll2string (replicate LONG_STR_SIZE 0) (Z.of_nat LONG_STR_SIZE) v; feedReplicationBacklog (take (Z.to_nat len) llstr) s
  | ObjEmbstr b | ObjRaw b => feedReplicationBacklog b s
  end.

(** The loop of addReplyReplicationBacklog, over at most two parts of the buffer. *)
Fixpoint backlog_parts (fuel : nat) (b : list Z) (size j len : Z) (c : slave) : option slave :=
  match fuel with
  | O => None
  | S fuel =>
    if len =? 0 then Some c else
    let thislen := if size - j <? len then size - j else len in
    part ← mread b j thislen;
    backlog_parts fuel b size 0 (len - thislen) (queue_item (RSds part) c)
  end.
Definition addReplyReplicationBacklog (s : rserver) (offset : Z) (c : slave) : option (slave * Z) :=
  if backlog_histlen s =? 0 then Some (c, 0) else
  let skip := offset - backlog_off s in
  let j := Z.rem (backlog_idx s + (backlog_size s - backlog_histlen s)) (backlog_size s) in
  let j := Z.rem (j + skip) (backlog_size s) in
  b ← backlog s;
  c ← backlog_parts 3 b (backlog_size s) j (backlog_histlen s - skip) c;
  Some (c, backlog_histlen s - skip).

(** *** Feeding the replicas *)

Definition select_bytes (buflen : nat) (dictid : Z) : option (list Z) :=
  '(b, len) ← ll2string (replicate buflen 0) (Z.of_nat buflen) dictid;
  '(d, dlen) ← ll2string (replicate 32 0) 32 len;
  Some (str "*2" ++ crlf ++ str "$6" ++ crlf ++ str "SELECT" ++ crlf ++ str "$" ++ take (Z.to_nat dlen) d ++ crlf ++ c_string b ++ crlf).
(** shared.select[j], and the object made for other databases. *)
Definition select_object (dictid : Z) : option string_obj :=
  if (0 <=? dictid) && (dictid <? PROTO_SHARED_SELECT_CMDS) then ObjRaw <$> select_bytes 64 dictid else ObjRaw <$> select_bytes LONG_STR_SIZE dictid.

(** What is queued for every replica that does not wait for a dump to start. *)
Definition to_slaves (l : list reply_item) (s : rserver) : rserver :=
  set_slaves ((fun c => if replstate c =? SLAVE_STATE_WAIT_BGSAVE_START then c else set_items (items c ++ l) c) <$> slaves s) s.

(** The arguments, with the line end that is already in the array. *)
Fixpoint feed_args (argv : list string_obj) (s : rserver) : option rserver :=
  match argv with
  | [] => Some s
  | o :: argv =>
    let objlen := zlen (obj_bytes o) in
    aux ← count_line (LONG_STR_SIZE + 2) 36 objlen;
    s ← feedReplicationBacklog aux s;
    s ← feedReplicationBacklogWithObject o s;
    s ← feedReplicationBacklog (drop (length aux - 2) aux) s;
    feed_args argv s
  end.

Definition replicationFeedSlaves (dictid : Z) (argv : list string_obj) (s : rserver) : option rserver :=
  if masterhost s then Some s
  else if bool_decide (backlog s = None) && bool_decide (slaves s = []) then Some s
  else
    assert! (negb (negb (bool_decide (slaves s = [])) && bool_decide (backlog s = None))) ;;
    s ← (if negb (slaveseldb s =? dictid) then
           selectcmd ← select_object dictid;
           s ← (if bool_decide (backlog s = None) then Some s else feedReplicationBacklogWithObject selectcmd s);
           Some (to_slaves [RObject selectcmd] s)
         else Some s);
    let s := set_seldb dictid s in
    s ← (if bool_decide (backlog s = None) then Some s else
           aux ← count_line (LONG_STR_SIZE + 2) 42 (zlen argv);
           s ← feedReplicationBacklog aux s;
           feed_args argv s);
    Some (to_slaves (RMultiBulkLen (zlen argv) :: (RBulk <$> argv)) s).

Definition replicationFeedSlavesFromMasterStream (buf : list Z) (s : rserver) : option rserver :=
  s ← (if bool_decide (backlog s = None) then Some s else feedReplicationBacklog buf s);
  Some (to_slaves [RString buf] s).

(** *** Replication ids *)

Definition changeReplicationId (e : renv) (s : rserver) : rserver := set_ids (random_hex e) (replid2 s) (second_replid_offset s) s.
Definition clearReplicationId2 (s : rserver) : rserver := set_ids (replid s) (replicate (Z.to_nat CONFIG_RUN_ID_SIZE) 48) (-1) s.
Definition shiftReplicationId (e : renv) (s : rserver) : rserver :=
  changeReplicationId e (set_ids (replid s) (replid s) (master_repl_offset s + 1) s).

(** *** Replicas that come and go *)

Definition refreshGoodSlavesCount (e : renv) (s : rserver) : rserver :=
  if (min_slaves_to_write e =? 0) || (min_slaves_max_lag e =? 0) then s else
  let good := length (filter (fun c => replstate c = SLAVE_STATE_ONLINE /\ unixtime e - repl_ack_time c <= min_slaves_max_lag e) (slaves s)) in
  set_counts (repl_no_slaves_since s) (Z.of_nat good) s.

(** The part of freeClient that concerns a replica, for those in the list that satisfy a test. *)
Definition free_slaves (e : renv) (doomed : slave -> bool) (s : rserver) : rserver :=
  if existsb doomed (slaves s) then
    let l := filter (fun c => doomed c = false) (slaves s) in
    let s := set_slaves l s in
    let s := if bool_decide (l = []) then set_counts (unixtime e) (good_slaves s) s else s in
    refreshGoodSlavesCount e s
  else s.
Definition free_slave (e : renv) (i : Z) (s : rserver) : rserver := free_slaves e (fun c => sid c =? i) s.
Definition disconnectSlaves (e : renv) (s : rserver) : rserver := free_slaves e (fun _ => true) s.

Definition fullresync_line (s : rserver) (offset : Z) : list Z := str "+FULLRESYNC " ++ replid s ++ str " " ++ decimal offset ++ crlf.
(** A replica, and the database the stream has selected. *)
Definition replicationSetupSlaveForFullResync (e : renv) (s : rserver) (offset : Z) (c : slave) : slave * bool :=
  let c := set_start offset (offset + 1) c in
  let c := set_state SLAVE_STATE_WAIT_BGSAVE_END c in
  if has (sflags c) CLIENT_PRE_PSYNC then (c, true)
  else if write_ok e (sid c) then (set_direct (direct c ++ fullresync_line s offset) c, true)
  else (set_sflags (Z.lor (sflags c) CLIENT_CLOSE_ASAP) c, false).
(** For every replica that waits for a dump to start. *)
Definition setup_waiting (e : renv) (s : rserver) : rserver :=
  let waiting c := replstate c =? SLAVE_STATE_WAIT_BGSAVE_START in
  let l := (fun c => if waiting c then (replicationSetupSlaveForFullResync e s (master_repl_offset s) c).1 else c) <$> slaves s in
  let s' := if existsb waiting (slaves s) then set_seldb (-1) s else s in
  set_slaves l s'.

Definition rdbPopulateSaveInfo (e : renv) (s : rserver) : bool := (negb (masterhost s) && negb (bool_decide (backlog s = None))) || has_master_db e.
Definition child_running (s : rserver) : bool := aof_child s || negb (bool_decide (rdb_child s = None)).
Definition rdbSaveBackground (e : renv) (s : rserver) : rserver * bool :=
  if child_running s then (s, false)
  else if fork_ok e then (set_child (Some (RDB_CHILD_TYPE_DISK, master_repl_offset s)) s, true) else (s, false).
Definition rdbSaveToSlavesSockets (e : renv) (s : rserver) : rserver * bool :=
  if child_running s then (s, false)
  else if negb (pipe_ok e) then (s, false)
  else
    let clientids := sid <$> filter (fun c => replstate c = SLAVE_STATE_WAIT_BGSAVE_START) (slaves s) in
    let s := setup_waiting e s in
    if fork_ok e then (set_child (Some (RDB_CHILD_TYPE_SOCKET, master_repl_offset s)) s, true)
    else (set_slaves ((fun c => if bool_decide (sid c ∈ clientids) then set_state SLAVE_STATE_WAIT_BGSAVE_START c else c) <$> slaves s) s, false).

Definition startBgsaveForReplication (e : renv) (mincapa : Z) (s : rserver) : rserver :=
  let socket_target := repl_diskless_sync e && has mincapa SLAVE_CAPA_EOF in
  let '(s, ok) :=
    if rdbPopulateSaveInfo e s then (if socket_target then rdbSaveToSlavesSockets e s else rdbSaveBackground e s) else (s, false) in
  if ok : bool then (if socket_target then s else setup_waiting e s)
  else set_slaves (filter (fun c => replstate c <> SLAVE_STATE_WAIT_BGSAVE_START) (slaves s)) s.

Definition waiting_slaves (s : rserver) : list slave := filter (fun c => replstate c = SLAVE_STATE_WAIT_BGSAVE_START) (slaves s).
Definition mincapa_of (l : list slave) : Z := foldl (fun m c => if m =? -1 then slave_capa c else Z.land m (slave_capa c)) (-1) l.

(** What becomes of a replica when the dump it waits for is there; none for one that is freed. *)
Definition dump_ready (e : renv) (ok : bool) (type : rdb_child_type) (c : slave) : option slave :=
  if negb (replstate c =? SLAVE_STATE_WAIT_BGSAVE_END) then Some c else
  match type with
  | RDB_CHILD_TYPE_SOCKET => Some (set_ack true (repl_ack_off c) (unixtime e) (set_state SLAVE_STATE_ONLINE c))
  | RDB_CHILD_TYPE_DISK =>
    if negb ok then None else
    match dump_size e (sid c) with
    | None => None
    | Some size =>
      if event_ok e (sid c) then Some (set_bulk 0 size (Some (str "$" ++ decimal size ++ crlf)) (set_state SLAVE_STATE_SEND_BULK c)) else None
    end
  end.
Definition updateSlavesWaitingBgsave (e : renv) (ok : bool) (type : rdb_child_type) (s : rserver) : rserver :=
  let waiting := waiting_slaves s in
  let s := free_slaves e (fun c => bool_decide (dump_ready e ok type c = None)) s in
  let s := set_slaves (omap (dump_ready e ok type) (slaves s)) s in
  if bool_decide (waiting = []) then s else startBgsaveForReplication e (mincapa_of waiting) s.
Definition backgroundSaveDoneHandlerDisk (e : renv) (ok : bool) (s : rserver) : rserver :=
  updateSlavesWaitingBgsave e ok RDB_CHILD_TYPE_DISK (set_child None s).
(** [report] is what the child sent: the numbers of the replicas and their errors. *)
Definition backgroundSaveDoneHandlerSocket (e : renv) (ok : bool) (report : list (Z * Z)) (s : rserver) : rserver :=
  let s := set_child None s in
  let report := if ok then report else [] in
  let failed c := (replstate c =? SLAVE_STATE_WAIT_BGSAVE_END) &&
    match list_find (fun r : Z * Z => r.1 = sid c) report with Some (_, (_, errorcode)) => negb (errorcode =? 0) | None => true end in
  let s := free_slaves e failed s in
  updateSlavesWaitingBgsave e ok RDB_CHILD_TYPE_SOCKET s.

(** *** PSYNC and SYNC *)

Definition id_matches (s : rserver) (id : list Z) (psync_offset : Z) : bool :=
  strcaseeq id (replid s) || (strcaseeq id (replid2 s) && (psync_offset <=? second_replid_offset s)).
Definition continue_line (s : rserver) (c : slave) : list Z :=
  if has (slave_capa c) SLAVE_CAPA_PSYNC2 then str "+CONTINUE " ++ replid s ++ crlf else str "+CONTINUE" ++ crlf.

(** C_OK is true; the client then is the last of the replicas. *)
Definition masterTryPartialResynchronization (e : renv) (master_replid offset : list Z) (c : slave) (s : rserver) : option (rserver * slave * bool) :=
  match string2ll offset with
  | None => Some (s, queue_item (RError (str "value is not an integer or out of range")) c, false)
  | Some psync_offset =>
    if negb (id_matches s master_replid psync_offset) then Some (s, c, false)
    else if bool_decide (backlog s = None) || (psync_offset <? backlog_off s) || (backlog_off s + backlog_histlen s <? psync_offset) then Some (s, c, false)
    else
      let c := set_sflags (Z.lor (sflags c) CLIENT_SLAVE) c in
      let c := set_state SLAVE_STATE_ONLINE c in
      let c := set_ack false (repl_ack_off c) (unixtime e) c in
      if negb (write_ok e (sid c)) then
        let c := set_start (psync_initial_offset c) (master_repl_offset s + 1) (set_sflags (Z.lor (sflags c) CLIENT_CLOSE_ASAP) c) in
        Some (set_slaves (slaves s ++ [c]) s, c, true)
      else
        let c := set_direct (direct c ++ continue_line s c) c in
        '(c, _) ← addReplyReplicationBacklog s psync_offset c;
        let c := set_start (psync_initial_offset c) psync_offset c in
        Some (refreshGoodSlavesCount e (set_slaves (slaves s ++ [c]) s), c, true)
  end.

(** The client is returned unless it became a replica.  [items] of a client that is no replica are its pending replies. *)
Definition syncCommand (e : renv) (argv : list (list Z)) (c : slave) (s : rserver) : option (rserver * option slave) :=
  if has (sflags c) CLIENT_SLAVE then Some (s, Some c)
  else if masterhost s && negb (repl_link_up e) then
    Some (s, Some (queue_item (RSds (str "-NOMASTERLINK Can't SYNC while not connected with my master" ++ crlf)) c))
  else if negb (bool_decide (items c = [])) then Some (s, Some (queue_item (RError (str "SYNC and PSYNC are invalid with pending output")) c))
  else
    name ← argv !! 0%nat;
    '(s, c, done_) ← (if strcaseeq name (str "psync") then
        id ← argv !! 1%nat;
        off ← argv !! 2%nat;
        masterTryPartialResynchronization e id off c s
      else Some (s, set_sflags (Z.lor (sflags c) CLIENT_PRE_PSYNC) c, false));
    if done_ : bool then Some (s, None) else
    let c := set_state SLAVE_STATE_WAIT_BGSAVE_START c in
    let c := set_sflags (Z.lor (sflags c) CLIENT_SLAVE) c in
    s ← (if bool_decide (slaves s = []) && bool_decide (backlog s = None)
         then createReplicationBacklog e (clearReplicationId2 (changeReplicationId e s)) else Some s);
    match rdb_child s with
    | Some (RDB_CHILD_TYPE_DISK, _) =>
      match list_find (fun c => replstate c = SLAVE_STATE_WAIT_BGSAVE_END) (slaves s) with
      | Some (_, other) =>
        if Z.land (slave_capa c) (slave_capa other) =? slave_capa other then
          let c := set_items (items other) c in
          let '(c, _) := replicationSetupSlaveForFullResync e s (psync_initial_offset other) c in
          Some (set_seldb (-1) (set_slaves (slaves s ++ [c]) s), None)
        else Some (set_slaves (slaves s ++ [c]) s, None)
      | None => Some (set_slaves (slaves s ++ [c]) s, None)
      end
    | Some (RDB_CHILD_TYPE_SOCKET, _) => Some (set_slaves (slaves s ++ [c]) s, None)
    | None =>
      let s := set_slaves (slaves s ++ [c]) s in
      if repl_diskless_sync e && has (slave_capa c) SLAVE_CAPA_EOF then Some (s, None)
      else if negb (aof_child s) then Some (startBgsaveForReplication e (slave_capa c) s, None)
      else Some (s, None)
    end.

(** *** Commands and transfers of a replica *)

(** What becomes of a replica: it stays, is put online, or is freed. *)
Inductive fate := Stays (c : slave) | PutOnline (c : slave) | IsFreed.
Definition putSlaveOnline (e : renv) (c : slave) : fate :=
  if event_ok e (sid c) then PutOnline (set_ack false (repl_ack_off c) (unixtime e) (set_state SLAVE_STATE_ONLINE c)) else IsFreed.

(** The options of REPLCONF; whether the replica is to be put online. *)
Definition NET_IP_STR_LEN : Z := 46.
Fixpoint replconf_loop (e : renv) (args : list (list Z)) (c : slave) : option (slave * bool) :=
  match args with
  | [] => Some (queue_item (RObject (ObjRaw (str "+OK" ++ crlf))) c, false)
  | opt :: val :: args =>
    if strcaseeq opt (str "listening-port") then
      match string2ll val with
      | None => Some (queue_item (RError (str "value is not an integer or out of range")) c, false)
      | Some _ => replconf_loop e args c
      end
    else if strcaseeq opt (str "ip-address") then
      if zlen val <? NET_IP_STR_LEN then replconf_loop e args c
      else Some (queue_item (RErrorFormat (str "REPLCONF ip-address provided by replica instance is too long: " ++ decimal (zlen val) ++ str " bytes")) c, false)
    else if strcaseeq opt (str "capa") then
      let capa := if strcaseeq val (str "eof") then SLAVE_CAPA_EOF else if strcaseeq val (str "psync2") then SLAVE_CAPA_PSYNC2 else 0 in
      replconf_loop e args (set_capa (Z.lor (slave_capa c) capa) c)
    else if strcaseeq opt (str "ack") then
      if negb (has (sflags c) CLIENT_SLAVE) then Some (c, false) else
      match string2ll val with
      | None => Some (c, false)
      | Some offset =>
        let c := set_ack (repl_put_online_on_ack c) (if repl_ack_off c <? offset then offset else repl_ack_off c) (unixtime e) c in
        Some (c, repl_put_online_on_ack c && (replstate c =? SLAVE_STATE_ONLINE))
      end
    else if strcaseeq opt (str "getack") then Some (c, false)
    else Some (queue_item (RErrorFormat (str "Unrecognized REPLCONF option: " ++ c_string opt)) c, false)
  | _ => None
  end.
Definition replconfCommand (e : renv) (argv : list (list Z)) (c : slave) : option fate :=
  if Z.rem (zlen argv) 2 =? 0 then Some (Stays (queue_item (RObject (ObjRaw (str "-ERR syntax error" ++ crlf))) c)) else
  '(c, online) ← replconf_loop e (drop 1 argv) c;
  Some (if online : bool then putSlaveOnline e c else Stays c).

(** One call of the write handler that sends the dump, with the results of the two writes it may make; the
    file is read in pieces of PROTO_IOBUF_LEN. *)
Definition wrote (w : write_result) (bs : list Z) : option nat := match w with Wrote n => Some (Nat.min n (length bs)) | _ => None end.
Definition send_data (e : renv) (file : list Z) (w : write_result) (c : slave) : fate :=
  let buf := take (Z.to_nat PROTO_IOBUF_LEN) (drop (Z.to_nat (repldboff c)) file) in
  if bool_decide (buf = []) then IsFreed else
  match w with
  | WouldBlock => Stays c
  | WriteError => IsFreed
  | Wrote n =>
    let n := Nat.min n (length buf) in
    let c := set_bulk (repldboff c + Z.of_nat n) (repldbsize c) (replpreamble c) (set_direct (direct c ++ take n buf) c) in
    if repldboff c =? repldbsize c then putSlaveOnline e c else Stays c
  end.
Definition sendBulkToSlave (e : renv) (file : list Z) (w1 w2 : write_result) (c : slave) : fate :=
  match replpreamble c with
  | None => send_data e file w2 c
  | Some pre =>
    match wrote w1 pre with
    | None => IsFreed
    | Some n =>
      let c := set_direct (direct c ++ take n pre) c in
      if bool_decide (drop n pre = []) then send_data e file w2 (set_bulk (repldboff c) (repldbsize c) None c)
      else Stays (set_bulk (repldboff c) (repldbsize c) (Some (drop n pre)) c)
    end
  end.

(** The list after a change of the replica with number i. *)
Definition fate_slave (f : fate) : option slave := match f with Stays c | PutOnline c => Some c | IsFreed => None end.
Definition put_online (f : fate) : bool := match f with PutOnline _ => true | _ => false end.
Definition on_slave (e : renv) (i : Z) (f : slave -> fate) (s : rserver) : rserver :=
  let s' := free_slaves e (fun c => (sid c =? i) && bool_decide (fate_slave (f c) = None)) s in
  let s' := set_slaves (omap (fun c => if sid c =? i then fate_slave (f c) else Some c) (slaves s')) s' in
  if existsb (fun c => (sid c =? i) && put_online (f c)) (slaves s) then refreshGoodSlavesCount e s' else s'.

(** *** Time and roles *)

(** The part of replicationCron that concerns a master. *)
Definition cron_ping (e : renv) (s : rserver) : option rserver :=
  if ping_now e && negb (bool_decide (slaves s = [])) && negb (manual_failover_in_progress e)
  then replicationFeedSlaves (slaveseldb s) [ObjEmbstr (str "PING")] s else Some s.
Definition is_presync (s : rserver) (c : slave) : bool :=
  (replstate c =? SLAVE_STATE_WAIT_BGSAVE_START) ||
  ((replstate c =? SLAVE_STATE_WAIT_BGSAVE_END) && negb (bool_decide (fst <$> rdb_child s = Some RDB_CHILD_TYPE_SOCKET))).
Definition cron_newlines (e : renv) (s : rserver) : rserver :=
  set_slaves ((fun c => if is_presync s c && write_ok e (sid c) then set_direct (direct c ++ [10]) c else c) <$> slaves s) s.
Definition timed_out (e : renv) (c : slave) : bool :=
  (replstate c =? SLAVE_STATE_ONLINE) && negb (has (sflags c) CLIENT_PRE_PSYNC) && (repl_timeout e <? unixtime e - repl_ack_time c).
Definition cron_backlog (e : renv) (s : rserver) : option rserver :=
  if bool_decide (slaves s = []) && negb (repl_backlog_time_limit e =? 0) && negb (bool_decide (backlog s = None)) && negb (masterhost s) &&
     (repl_backlog_time_limit e <? unixtime e - repl_no_slaves_since s)
  then freeReplicationBacklog (clearReplicationId2 (changeReplicationId e s)) else Some s.
Definition max_idle (e : renv) (l : list slave) : Z := foldl (fun m c => Z.max m (unixtime e - last_interaction c)) 0 l.
Definition cron_bgsave (e : renv) (s : rserver) : rserver :=
  if child_running s then s else
  let w := waiting_slaves s in
  if negb (bool_decide (w = [])) && (negb (repl_diskless_sync e) || (repl_diskless_sync_delay e <? max_idle e w))
  then startBgsaveForReplication e (mincapa_of w) s else s.
Definition replicationCron (e : renv) (s : rserver) : option rserver :=
  s ← cron_ping e s;
  let s := cron_newlines e s in
  let s := free_slaves e (timed_out e) s in
  s ← cron_backlog e s;
  Some (refreshGoodSlavesCount e (cron_bgsave e s)).

(** The effect of replicationUnsetMaster on the replicas of this instance. *)
Definition replicationUnsetMaster (e : renv) (s : rserver) : rserver :=
  if negb (masterhost s) then s else
  let s := shiftReplicationId e (set_master false s) in
  let s := set_seldb (-1) (disconnectSlaves e s) in
  set_counts (unixtime e) (good_slaves s) s.
(** The effect of replicationSetMaster on them. *)
Definition replicationSetMaster (e : renv) (s : rserver) : rserver := disconnectSlaves e (set_master true s).
