(* ===== verification/ReplicationInv.v ===== *)
(** * The backlog holds the end of the stream, and every replica its part of it

    The circular buffer as the last bytes of the stream, the bytes a command becomes, and the invariant of the
    server with its preservation by every operation. *)
From stdpp Require Import prelude list strings.
From Stdlib Require Import ZArith Lia.
From S2P Require Import Prelude Util SdsText Rio Rdb Reply Resp Aof Replication.

Local Open Scope Z_scope.
Local Open Scope redis_scope.

(** ** The circular buffer *)

Lemma mwrite_some b off bs : 0 <= off -> off + zlen bs <= zlen b ->
  exists b', mwrite b off bs = Some b' /\ zlen b' = zlen b /\
    forall i, b' !! i = if decide (Z.to_nat off <= i < Z.to_nat off + length bs)%nat then bs !! (i - Z.to_nat off)%nat else b !! i.
Proof.
  intros H1 H2. unfold mwrite, in_buf. replace (_ && _) with true by (symmetry; rewrite !andb_true_iff, !Z.leb_le; lia). eexists. split; [done|]. split.
  { rewrite !length_app, length_take, length_drop. lia. }
  intros i. destruct (decide _) as [Hi|Hi].
  - rewrite lookup_app_r by (rewrite length_take; lia). rewrite length_take, Nat.min_l by lia. by rewrite lookup_app_l by lia.
  - destruct (decide (i < Z.to_nat off)%nat) as [Hl|Hl].
    + rewrite lookup_app_l by (rewrite length_take; lia). by rewrite lookup_take_lt by lia.
    + rewrite lookup_app_r by (rewrite length_take; lia). rewrite length_take, Nat.min_l by lia. rewrite lookup_app_r by lia. rewrite lookup_drop. f_equal. lia.
Qed.
Lemma mread_some b off n : 0 <= off -> 0 <= n -> off + n <= zlen b -> mread b off n = Some (take (Z.to_nat n) (drop (Z.to_nat off) b)).
Proof. intros H1 H2 H3. unfold mread, in_buf. by replace (_ && _) with true by (symmetry; rewrite !andb_true_iff, !Z.leb_le; lia). Qed.

(** The k-th last byte of the stream is the k-th byte before the index, for the last n of them as far as they fit. *)
Record ring (b : list Z) (size idx n : Z) (h : list Z) : Prop := mk_ring {
  ring_size : zlen b = size; ring_idx : 0 <= idx < size; ring_n : 0 <= n <= zlen h;
  ring_at : forall k, 0 <= k < n -> k < size -> b !! Z.to_nat ((idx - 1 - k) mod size) = h !! Z.to_nat (zlen h - 1 - k);
}.

Lemma ring_empty b size h : zlen b = size -> 0 < size -> ring b size 0 0 h.
Proof. intros H1 H2. split; [done|lia|lia|]. intros k Hk. lia. Qed.

Lemma mod_cases size a : 0 < size -> - size <= a < size -> a mod size = if a <? 0 then a + size else a.
Proof.
  intros Hs Ha. destruct (Z.ltb_spec a 0); [|apply Z.mod_small; lia]. rewrite <-(Z.mod_add a 1) by lia. rewrite Z.mul_1_l. apply Z.mod_small. lia.
Qed.

Lemma ring_write b size idx n h p : ring b size idx n h -> p <> [] ->
  let t := Z.min (size - idx) (zlen p) in let q := take (Z.to_nat t) p in
  exists b', mwrite b idx q = Some b' /\ 0 < t /\ ring b' size (if idx + t =? size then 0 else idx + t) (n + t) (h ++ q).
Proof.
  intros [Hb Hi Hn Hat] Hp t q. assert (0 < zlen p) as Hp' by (destruct p; [done|cbn; lia]). assert (0 < t) as Ht by lia.
  assert (zlen q = t) as Hq by (unfold q; rewrite length_take; lia). destruct (mwrite_some b idx q) as (b' & E & Hl & Hlk); [lia|lia|]. exists b'. split; [done|]. split; [done|]. split.
  - lia.
  - destruct (Z.eqb_spec (idx + t) size); lia.
  - rewrite length_app. lia.
  - intros k Hk Hks. set (idx' := if idx + t =? size then 0 else idx + t).
    assert ((idx' - 1 - k) mod size = (idx + t - 1 - k) mod size) as ->.
    { unfold idx'. destruct (Z.eqb_spec (idx + t) size) as [E'|]; [|done]. rewrite E'. replace (size - 1 - k) with ((0 - 1 - k) + 1 * size) by lia. by rewrite Z.mod_add by lia. }
    rewrite mod_cases by lia. rewrite Hlk, length_app. destruct (Z.ltb_spec (idx + t - 1 - k) 0) as [Hneg|Hpos].
    + rewrite decide_False by lia. rewrite lookup_app_l by lia. specialize (Hat (k - t)). rewrite mod_cases in Hat by lia.
      destruct (Z.ltb_spec (idx - 1 - (k - t)) 0); [|lia]. replace (idx + t - 1 - k + size) with (idx - 1 - (k - t) + size) by lia.
      rewrite Hat by lia. f_equal. lia.
    + destruct (decide (k < t)) as [Hkt|Hkt].
      * rewrite decide_True by lia. rewrite lookup_app_r by lia. f_equal. lia.
      * rewrite decide_False by lia. rewrite lookup_app_l by lia. specialize (Hat (k - t)). rewrite mod_cases in Hat by lia.
        destruct (Z.ltb_spec (idx - 1 - (k - t)) 0); [lia|]. replace (idx + t - 1 - k) with (idx - 1 - (k - t)) by lia. rewrite Hat by lia. f_equal. lia.
Qed.

(** A part of the buffer that does not wrap around is a part of the stream. *)
Lemma ring_part b size idx n h j k t : ring b size idx n h -> n <= size -> 0 <= t -> 0 <= j -> j + t <= size -> 0 <= k -> k + t <= n ->
  j = (idx - n + k) mod size -> take (Z.to_nat t) (drop (Z.to_nat j) b) = take (Z.to_nat t) (drop (Z.to_nat (zlen h - n + k)) h).
Proof.
  intros [Hb Hi Hn Hat] Hns Ht Hj Hjt Hk Hkt Hjk. apply list_eq. intros i. destruct (decide (Z.of_nat i < t)) as [Hit|Hit].
  2:{ rewrite !lookup_ge_None_2; [done|rewrite length_take; lia..]. }
  rewrite !lookup_take_lt, !lookup_drop by lia. specialize (Hat (n - 1 - k - Z.of_nat i)).
  replace (idx - 1 - (n - 1 - k - Z.of_nat i)) with (idx - n + k + Z.of_nat i) in Hat by lia. rewrite Z.add_mod, <-Hjk in Hat by lia.
  rewrite (Z.mod_small (Z.of_nat i)) in Hat by lia. rewrite Z.mod_small in Hat by lia.
  replace (Z.to_nat j + i)%nat with (Z.to_nat (j + Z.of_nat i)) by lia. rewrite Hat by lia. f_equal. lia.
Qed.

Lemma queue_items c l : set_items (items c ++ l) c = foldl (fun c i => queue_item i c) c l.
Proof.
  revert c. induction l as [|i l IH]; intros c; cbn [foldl]; [rewrite app_nil_r; by destruct c|]. rewrite <-IH. cbn. by rewrite <-app_assoc.
Qed.
Lemma wire_app l1 l2 : wire (l1 ++ l2) = wire l1 ++ wire l2.
Proof. unfold wire. induction l1 as [|i l1 IH]; [done|]. cbn [app all_pieces]. by rewrite !join_app, <-app_assoc, IH. Qed.

(** Reading from any offset that is still there. *)
Lemma backlog_read s b offset c : backlog s = Some b -> ring b (backlog_size s) (backlog_idx s) (backlog_histlen s) (history s) ->
  backlog_histlen s <= backlog_size s -> backlog_off s = master_repl_offset s - backlog_histlen s + 1 ->
  backlog_off s <= offset <= backlog_off s + backlog_histlen s ->
  exists l len, addReplyReplicationBacklog s offset c = Some (set_items (items c ++ l) c, len) /\
    wire l = drop (Z.to_nat (zlen (history s) - (master_repl_offset s + 1 - offset))) (history s) /\ len = master_repl_offset s + 1 - offset.
Proof.
  intros Hb Hr Hhs Hoff Ho. pose proof Hr as [Hbs Hi Hn _]. set (n := backlog_histlen s) in *. set (size := backlog_size s) in *. set (h := history s) in *.
  unfold addReplyReplicationBacklog. fold n size. destruct (Z.eqb_spec n 0) as [Hz|Hz].
  { exists [], 0. rewrite app_nil_r. split_and!; [by destruct c| |lia]. rewrite drop_ge; [done|]. lia. }
  set (skip := offset - backlog_off s). rewrite (Z.rem_mod_nonneg (backlog_idx s + (size - n)) size) by lia.
  rewrite Z.rem_mod_nonneg by (pose proof (Z.mod_pos_bound (backlog_idx s + (size - n)) size); lia).
  assert (((backlog_idx s + (size - n)) mod size + skip) mod size = (backlog_idx s - n + skip) mod size) as ->.
  { rewrite Zplus_mod_idemp_l. replace (backlog_idx s + (size - n) + skip) with (backlog_idx s - n + skip + 1 * size) by lia. by rewrite Z.mod_add by lia. }
  set (j := (backlog_idx s - n + skip) mod size). assert (0 <= j < size) as Hj by (apply Z.mod_pos_bound; lia). rewrite Hb. cbn [mbind option_bind].
  set (len := n - skip). assert (0 <= len) as Hlen by lia.
  assert (forall pre, drop (Z.to_nat (zlen h - (master_repl_offset s + 1 - offset))) h = pre ->
    take (Z.to_nat len) (drop (Z.to_nat (zlen h - n + skip)) h) = pre) as Hall.
  { intros pre <-. rewrite take_ge; [f_equal; lia|]. rewrite length_drop. lia. }
  cbn [backlog_parts]. destruct (Z.eqb_spec len 0) as [Hl0|Hl0].
  { exists [], len. rewrite app_nil_r. split_and!; [by destruct c| |lia]. rewrite <-(Hall _ eq_refl), Hl0. done. }
  destruct (Z.ltb_spec (size - j) len) as [Hw|Hw].
  - rewrite (mread_some b j (size - j)) by lia. cbn [mbind option_bind]. destruct (Z.eqb_spec (len - (size - j)) 0); [lia|].
    destruct (Z.ltb_spec (size - 0) (len - (size - j))); [lia|]. rewrite (mread_some b 0 (len - (size - j))) by lia. cbn [mbind option_bind].
    destruct (Z.eqb_spec (len - (size - j) - (len - (size - j))) 0); [|lia]. eexists [_; _], len. rewrite queue_items. split_and!; [done| |lia].
    rewrite <-(Hall _ eq_refl). unfold wire. cbn [all_pieces pieces mjoin list_join app]. rewrite app_nil_r.
    rewrite (ring_part b size (backlog_idx s) n h j skip (size - j)) by (done || lia).
    rewrite (ring_part b size (backlog_idx s) n h 0 (skip + (size - j)) (len - (size - j))).
    + set (d := drop (Z.to_nat (zlen h - n + skip)) h). replace (drop (Z.to_nat (zlen h - n + (skip + (size - j)))) h) with (drop (Z.to_nat (size - j)) d).
      * replace (Z.to_nat len) with (Z.to_nat (size - j) + Z.to_nat (len - (size - j)))%nat by lia. apply take_take_drop.
      * unfold d. rewrite drop_drop. f_equal. lia.
    + done. + done. + lia. + lia. + lia. + lia. + lia.
    + replace (backlog_idx s - n + (skip + (size - j))) with (backlog_idx s - n + skip - j + 1 * size) by lia. rewrite Z.mod_add by lia.
      unfold j. by rewrite Zminus_mod_idemp_r, Z.sub_diag, Z.mod_0_l by lia.
  - rewrite (mread_some b j len) by lia. cbn [mbind option_bind]. destruct (Z.eqb_spec (len - len) 0); [|lia]. eexists [_], len. rewrite queue_items. split_and!; [done| |lia].
    rewrite <-(Hall _ eq_refl). unfold wire. cbn [all_pieces pieces mjoin list_join app]. rewrite app_nil_r.
    by apply (ring_part b size (backlog_idx s) n h j skip len); try done; lia.
Qed.

(** ** Feeding the backlog *)

(** The offsets and the buffer agree with the stream. *)
Record log_ok (s : rserver) : Prop := mk_log_ok {
  log_size : 0 < backlog_size s;
  log_offset : master_repl_offset s = base s + zlen (history s);
  log_ring : forall b, backlog s = Some b -> ring b (backlog_size s) (backlog_idx s) (backlog_histlen s) (history s) /\
    backlog_histlen s <= backlog_size s /\ backlog_off s = master_repl_offset s - backlog_histlen s + 1;
}.

(** Nothing but the buffer and the stream is changed, and the stream grows by p. *)
Record fed (p : list Z) (s s' : rserver) : Prop := mk_fed {
  fed_history : history s' = history s ++ p; fed_slaves : slaves s' = slaves s; fed_base : base s' = base s; fed_child : rdb_child s' = rdb_child s;
  fed_seldb : slaveseldb s' = slaveseldb s; fed_master : masterhost s' = masterhost s; fed_some : is_Some (backlog s) -> is_Some (backlog s');
}.
Lemma fed_nil s : fed [] s s.
Proof. split; try done. by rewrite app_nil_r. Qed.
Lemma fed_trans p q s1 s2 s3 : fed p s1 s2 -> fed q s2 s3 -> fed (p ++ q) s1 s3.
Proof. intros [A1 A2 A3 A4 A5 A6 A7] [B1 B2 B3 B4 B5 B6 B7]. split; try congruence; [by rewrite B1, A1, app_assoc|auto]. Qed.

Lemma feed_loop_ok fuel : forall p s b h, (length p < fuel)%nat -> backlog s = Some b -> ring b (backlog_size s) (backlog_idx s) (backlog_histlen s) h ->
  exists s' b' idx', feed_loop fuel p s = Some s' /\ s' = set_backlog (Some b') (backlog_size s) idx' (backlog_histlen s + zlen p) (backlog_off s) s /\
    ring b' (backlog_size s) idx' (backlog_histlen s + zlen p) (h ++ p).
Proof.
  induction fuel as [|fuel IH]; intros p s b h Hf Hb Hr; [lia|]. cbn [feed_loop]. destruct (Z.eqb_spec (zlen p) 0) as [Hz|Hz].
  { destruct p; [|cbn in Hz; lia]. exists s, b, (backlog_idx s). rewrite app_nil_r, Z.add_0_r. split_and!; [done| |done]. destruct s. cbn in *. by subst. }
  destruct (ring_write b (backlog_size s) (backlog_idx s) (backlog_histlen s) h p Hr) as (b1 & E & Ht & Hr1); [by destruct p|].
  rewrite Hb. cbn [mbind option_bind]. rewrite E. cbn [mbind option_bind]. set (t := Z.min _ _) in *. set (idx := if _ =? _ then 0 else _) in *.
  destruct (IH (drop (Z.to_nat t) p) (set_backlog (Some b1) (backlog_size s) idx (backlog_histlen s + t) (backlog_off s) s) b1 (h ++ take (Z.to_nat t) p))
    as (s' & b' & idx' & E' & Hs' & Hr'); [rewrite length_drop; lia|done|done|].
  cbn in Hs', Hr'. assert (backlog_histlen s + t + zlen (drop (Z.to_nat t) p) = backlog_histlen s + zlen p) as Hl by (rewrite length_drop; lia). rewrite Hl in *.
  exists s', b', idx'. split_and!; [done|done|]. by rewrite <-app_assoc, take_drop in Hr'.
Qed.

Lemma feed_backlog_ok p s : log_ok s -> is_Some (backlog s) -> exists s', feedReplicationBacklog p s = Some s' /\ log_ok s' /\ fed p s s'.
Proof.
  intros [Hs Ho Hl] [b Hb]. destruct (Hl b Hb) as (Hr & Hle & Hoff). unfold feedReplicationBacklog.
  destruct (feed_loop_ok (S (length p)) p (set_stream (history s ++ p) (master_repl_offset s + zlen p) s) b (history s)) as (s' & b' & idx' & -> & -> & Hr'); [lia|done|done|].
  cbn [mbind option_bind]. cbn. set (n := backlog_histlen s + zlen p) in *. eexists. split; [done|]. split; [|split; try done; cbn; by eexists].
  split; cbn; [done|rewrite length_app; lia|]. intros b0 [= <-]. cbn in Hr'. destruct Hr' as [H1 H2 H3 H4]. split_and!; [|destruct (Z.ltb_spec (backlog_size s) n); lia|done].
  split; [done|done|destruct (Z.ltb_spec (backlog_size s) n); lia|]. intros k Hk Hks. apply H4; [|done]. destruct (Z.ltb_spec (backlog_size s) n); lia.
Qed.

Lemma long_str v : LLONG_MIN <= v <= LLONG_MAX -> exists r, ll2string (replicate LONG_STR_SIZE 0) (Z.of_nat LONG_STR_SIZE) v = Some (decimal v ++ 0 :: r, zlen (decimal v)).
Proof.
  intros Hv. pose proof (decimal_length v Hv). unfold LONG_STR_SIZE. rewrite ll2string_ok by (rewrite ?length_replicate; done || lia). by eexists.
Qed.
Lemma feed_object_ok o s : arg_fits o -> log_ok s -> is_Some (backlog s) -> exists s', feedReplicationBacklogWithObject o s = Some s' /\ log_ok s' /\ fed (obj_bytes o) s s'.
Proof.
  intros [Ho _] Hl Hb. destruct o as [sh v|b|b]; [|by apply feed_backlog_ok..]. unfold feedReplicationBacklogWithObject. destruct (long_str v Ho) as [r ->]. cbn [mbind option_bind].
  rewrite Nat2Z.id, take_app_length. by apply feed_backlog_ok.
Qed.

Lemma feed_args_ok argv : forall s, Forall arg_fits argv -> log_ok s -> is_Some (backlog s) ->
  exists s', feed_args argv s = Some s' /\ log_ok s' /\ fed (mjoin (bulk <$> (obj_bytes <$> argv))) s s'.
Proof.
  induction argv as [|o argv IH]; intros s Ha Hl Hb; [exists s; split_and!; [done|done|apply fed_nil]|]. apply Forall_cons in Ha as [Ho Ha]. cbn [feed_args].
  rewrite count_line_ok by (unfold LONG_STR_SIZE; destruct Ho as [_ ?]; unfold LLONG_MIN; lia). cbn [mbind option_bind]. set (n := zlen (obj_bytes o)).
  destruct (feed_backlog_ok (header 36 n) s Hl Hb) as (s1 & -> & Hl1 & F1). cbn [mbind option_bind]. assert (is_Some (backlog s1)) as Hb1 by by apply F1.
  destruct (feed_object_ok o s1 Ho Hl1 Hb1) as (s2 & -> & Hl2 & F2). cbn [mbind option_bind]. assert (is_Some (backlog s2)) as Hb2 by by apply F2.
  replace (drop (length (header 36 n) - 2) (header 36 n)) with crlf.
  2:{ unfold header. rewrite app_comm_cons, length_app. cbn [length crlf]. rewrite drop_app_length'; [done|]. cbn. lia. }
  destruct (feed_backlog_ok crlf s2 Hl2 Hb2) as (s3 & -> & Hl3 & F3). cbn [mbind option_bind]. assert (is_Some (backlog s3)) as Hb3 by by apply F3.
  destruct (IH s3 Ha Hl3 Hb3) as (s4 & -> & Hl4 & F4). exists s4. split_and!; [done|done|].
  change (mjoin (bulk <$> (obj_bytes <$> o :: argv))) with (bulk (obj_bytes o) ++ mjoin (bulk <$> (obj_bytes <$> argv))). unfold bulk at 1. fold n. rewrite <-!app_assoc.
  eapply fed_trans; [exact F1|]. eapply fed_trans; [exact F2|]. by eapply fed_trans.
Qed.

(** ** The invariant *)

(** A replica that waits for a dump to start has nothing queued; the buffers of any other hold exactly the stream from its
    first offset on; and a replica that waits for a dump to end waits for the one that
    is being made, which holds the stream up to that offset. *)
Record slave_ok (h : list Z) (from : Z) (child : option (rdb_child_type * Z)) (c : slave) : Prop := mk_slave_ok {
  so_waiting : replstate c = SLAVE_STATE_WAIT_BGSAVE_START -> items c = [];
  so_stream : replstate c <> SLAVE_STATE_WAIT_BGSAVE_START -> from < start c <= from + zlen h + 1 /\ wire (items c) = drop (Z.to_nat (start c - 1 - from)) h;
  so_dump : replstate c = SLAVE_STATE_WAIT_BGSAVE_END -> snd <$> child = Some (psync_initial_offset c);
  so_initial : replstate c = SLAVE_STATE_WAIT_BGSAVE_END \/ replstate c = SLAVE_STATE_SEND_BULK -> start c = psync_initial_offset c + 1;
}.
(** The server, with the child process its replicas wait for. *)
Record repl_inv (child : option (rdb_child_type * Z)) (s : rserver) : Prop := mk_repl_inv {
  ok_log : log_ok s;
  ok_some : slaves s <> [] -> backlog s <> None;
  ok_slaves : Forall (slave_ok (history s) (base s) child) (slaves s);
  ok_ids : NoDup (sid <$> slaves s);
}.
Definition repl_ok (s : rserver) : Prop := repl_inv (rdb_child s) s.
Definition env_ok (e : renv) : Prop := forall n, 0 < n -> zlen (malloc_content e n) = n.

Lemma states_differ : SLAVE_STATE_WAIT_BGSAVE_START <> SLAVE_STATE_WAIT_BGSAVE_END /\ SLAVE_STATE_WAIT_BGSAVE_START <> SLAVE_STATE_ONLINE /\
  SLAVE_STATE_WAIT_BGSAVE_START <> SLAVE_STATE_SEND_BULK /\ SLAVE_STATE_WAIT_BGSAVE_END <> SLAVE_STATE_ONLINE /\
  SLAVE_STATE_WAIT_BGSAVE_END <> SLAVE_STATE_SEND_BULK /\ SLAVE_STATE_ONLINE <> SLAVE_STATE_SEND_BULK.
Proof. done. Qed.

(** Operations that leave the stream and the buffer alone. *)
Record same_log (s s' : rserver) : Prop := mk_same_log {
  sl_backlog : backlog s' = backlog s; sl_size : backlog_size s' = backlog_size s; sl_idx : backlog_idx s' = backlog_idx s;
  sl_histlen : backlog_histlen s' = backlog_histlen s; sl_off : backlog_off s' = backlog_off s; sl_master : master_repl_offset s' = master_repl_offset s;
  sl_history : history s' = history s; sl_base : base s' = base s;
}.
Lemma same_log_refl s : same_log s s.
Proof. done. Qed.
Lemma same_log_trans s1 s2 s3 : same_log s1 s2 -> same_log s2 s3 -> same_log s1 s3.
Proof. intros [] []. split; congruence. Qed.
Lemma same_log_ok s s' : same_log s s' -> log_ok s -> log_ok s'.
Proof. intros [E1 E2 E3 E4 E5 E6 E7 E8] [H1 H2 H3]. split; rewrite ?E1, ?E2, ?E3, ?E4, ?E5, ?E6, ?E7, ?E8; done. Qed.
Lemma same_log_inv ch ch' s s' : same_log s s' -> repl_inv ch s -> (slaves s' <> [] -> backlog s <> None) -> Forall (slave_ok (history s) (base s) ch') (slaves s') ->
  NoDup (sid <$> slaves s') -> repl_inv ch' s'.
Proof.
  intros Hl [H1 H2 H3 H4] Hs Hf Hn. pose proof Hl as [E1 E2 E3 E4 E5 E6 E7 E8]. split; [by eapply same_log_ok|by rewrite E1|by rewrite E7, E8|done].
Qed.
(** The same replicas. *)
Lemma same_log_slaves ch s s' : same_log s s' -> slaves s' = slaves s -> repl_inv ch s -> repl_inv ch s'.
Proof. intros Hl E Hi. eapply same_log_inv; [done|done|rewrite E; apply Hi..]. Qed.

Lemma refresh_same e s : same_log s (refreshGoodSlavesCount e s) /\ slaves (refreshGoodSlavesCount e s) = slaves s /\ rdb_child (refreshGoodSlavesCount e s) = rdb_child s.
Proof. unfold refreshGoodSlavesCount. by destruct (_ || _). Qed.
Lemma refresh_inv ch e s : repl_inv ch s -> repl_inv ch (refreshGoodSlavesCount e s).
Proof. destruct (refresh_same e s) as (H1 & H2 & _). by apply same_log_slaves. Qed.

Lemma Forall_sublist {A} (P : A -> Prop) (l l' : list A) : l `sublist_of` l' -> Forall P l' -> Forall P l.
Proof. intros Hs. rewrite !Forall_forall. intros Hp x Hx. apply Hp. by apply (sublist_subseteq l l' Hs). Qed.
Lemma filter_slaves_all {A} (P : A -> Prop) `{!forall x, Decision (P x)} (l : list A) : Forall P l -> filter P l = l.
Proof. induction 1 as [|x l Hx _ IH]; [done|]. by rewrite filter_cons_True, IH. Qed.

Lemma filter_slaves_inv ch s (P : slave -> Prop) `{!forall x, Decision (P x)} : repl_inv ch s -> repl_inv ch (set_slaves (filter P (slaves s)) s).
Proof.
  intros [H1 H2 H3 H4]. split; cbn; [by apply (same_log_ok s)| | |].
  - intros Hne. apply H2. intros E. by rewrite E in Hne.
  - eapply Forall_sublist; [apply sublist_filter|done].
  - eapply sublist_NoDup; [exact H4|]. apply fmap_sublist, sublist_filter.
Qed.
Lemma free_slaves_inv ch e d s : repl_inv ch s -> repl_inv ch (free_slaves e d s).
Proof.
  intros Hi. unfold free_slaves. destruct (existsb _ _); [|done]. apply refresh_inv. apply (filter_slaves_inv ch s (fun c => d c = false)) in Hi.
  case_bool_decide; [by eapply same_log_slaves; [| |exact Hi]|done].
Qed.
Lemma free_slaves_child e d s : rdb_child (free_slaves e d s) = rdb_child s /\ same_log s (free_slaves e d s) /\
  (slaves (free_slaves e d s) = filter (fun c => d c = false) (slaves s)).
Proof.
  unfold free_slaves. destruct (existsb d (slaves s)) eqn:E.
  - set (s1 := if bool_decide _ then _ else _). destruct (refresh_same e s1) as (H1 & H2 & H3). rewrite H2, H3.
    assert (same_log s s1 /\ slaves s1 = filter (fun c => d c = false) (slaves s) /\ rdb_child s1 = rdb_child s) as (A & B & C) by (unfold s1; by case_bool_decide).
    split_and!; [done|by eapply same_log_trans|done].
  - split_and!; [done|done|]. symmetry. apply filter_slaves_all. apply Forall_forall. intros c Hc. destruct (d c) eqn:Ed; [|done].
    assert (existsb d (slaves s) = true) as Hx; [|congruence]. apply existsb_exists. exists c. split; [by apply list_elem_of_In|done].
Qed.

(** ** Feeding the replicas *)

Lemma slave_feed h from ch c l : slave_ok h from ch c ->
  slave_ok (h ++ wire l) from ch (if replstate c =? SLAVE_STATE_WAIT_BGSAVE_START then c else set_items (items c ++ l) c).
Proof.
  intros [H1 H2 H3 H4]. destruct (Z.eqb_spec (replstate c) SLAVE_STATE_WAIT_BGSAVE_START) as [E|E].
  { by split. }
  destruct (H2 E) as [Ho Hw]. split; [done| |done|done]. intros _. split; [cbn; rewrite length_app; lia|].
  change (items (set_items (items c ++ l) c)) with (items c ++ l). change (start (set_items (items c ++ l) c)) with (start c). rewrite wire_app, Hw. symmetry. apply drop_app_le. lia.
Qed.

(** The stream grows by what the calls queue. *)
Lemma to_slaves_inv ch s s' l : repl_inv ch s -> log_ok s' -> is_Some (backlog s') -> fed (wire l) s s' -> repl_inv ch (to_slaves l s').
Proof.
  intros [H1 H2 H3 H4] Hl [b Hb] [F1 F2 F3 _ _ _ _]. split; cbn.
  - by apply (same_log_ok s').
  - intros _. by rewrite Hb.
  - rewrite F1, F2, F3. apply Forall_fmap. eapply Forall_impl; [exact H3|]. intros c Hc. by apply slave_feed.
  - rewrite F2. assert (sid <$> ((fun c => if replstate c =? SLAVE_STATE_WAIT_BGSAVE_START then c else set_items (items c ++ l) c) <$> slaves s) = sid <$> slaves s) as ->; [|done].
    rewrite <-list_fmap_compose. apply list_fmap_ext. intros i c _. cbn. by destruct (_ =? _).
Qed.
Lemma to_slaves_child l s : rdb_child (to_slaves l s) = rdb_child s.
Proof. done. Qed.

Lemma select_ok dictid : LLONG_MIN <= dictid <= LLONG_MAX -> select_object dictid = Some (ObjRaw (encode [str "SELECT"; decimal dictid])).
Proof.
  intros Hd. pose proof (decimal_length dictid Hd) as Hl. unfold select_object.
  assert (forall n, (21 <= n)%nat -> select_bytes n dictid = Some (encode [str "SELECT"; decimal dictid])) as Hb.
  { intros n Hn. unfold select_bytes. rewrite ll2string_ok by (rewrite ?length_replicate; done || lia). cbn [mbind option_bind].
    rewrite ll2string_ok by (rewrite ?length_replicate; unfold LLONG_MIN, LLONG_MAX; lia). cbn [mbind option_bind]. rewrite Nat2Z.id, take_app_length.
    rewrite c_string_spec by apply decimal_nonzero. f_equal. unfold encode. cbn [fmap list_fmap mjoin list_join]. unfold bulk, header. rewrite app_nil_r.
    generalize (decimal (zlen (decimal dictid))). generalize (decimal dictid). intros d a. cbn [app]. rewrite <-!app_assoc. reflexivity. }
  destruct (_ && _); rewrite Hb by (unfold LONG_STR_SIZE; lia); done.
Qed.

Lemma select_length dictid : LLONG_MIN <= dictid <= LLONG_MAX -> zlen (encode [str "SELECT"; decimal dictid]) <= 100.
Proof.
  intros Hd. pose proof (decimal_length dictid Hd) as Hl. pose proof (decimal_length (zlen (decimal dictid)) ltac:(unfold LLONG_MIN, LLONG_MAX; lia)) as Hl'. revert Hl'.
  unfold encode. cbn [fmap list_fmap mjoin list_join]. unfold bulk, header. rewrite app_nil_r. generalize (decimal (zlen (decimal dictid))). revert Hl. generalize (decimal dictid).
  intros d Hd' a Ha. cbn [app]. rewrite <-!app_assoc. change (decimal (zlen [str "SELECT"; d])) with [50]. change (decimal (zlen (str "SELECT"))) with [54].
  change (str "SELECT") with [83; 69; 76; 69; 67; 84]. unfold crlf. cbn [app length]. rewrite !length_app. cbn [length]. rewrite !length_app. cbn [length]. lia.
Qed.

Definition command_fits (s : rserver) (dictid : Z) (argv : list string_obj) : Prop :=
  (slaveseldb s <> dictid -> LLONG_MIN <= dictid <= LLONG_MAX) /\ Forall arg_fits argv /\ zlen argv <= LLONG_MAX.

(** What a command adds to the stream: its encoding, after a SELECT when the database changes. *)
Definition command_bytes (s : rserver) (dictid : Z) (argv : list string_obj) : list Z :=
  (if slaveseldb s =? dictid then [] else encode [str "SELECT"; decimal dictid]) ++ encode (obj_bytes <$> argv).

Lemma wire_command argv : wire (RMultiBulkLen (zlen argv) :: (RBulk <$> argv)) = encode (obj_bytes <$> argv).
Proof.
  unfold wire, encode. cbn [all_pieces pieces app]. rewrite length_fmap.
  change (mjoin (header 42 (zlen argv) :: all_pieces (RBulk <$> argv))) with (header 42 (zlen argv) ++ mjoin (all_pieces (RBulk <$> argv))). f_equal.
  induction argv as [|o argv IH]; [done|].
  change (mjoin (all_pieces (RBulk <$> o :: argv))) with (mjoin (bulk_pieces (obj_bytes o) ++ all_pieces (RBulk <$> argv))).
  change (mjoin (bulk <$> (obj_bytes <$> o :: argv))) with (bulk (obj_bytes o) ++ mjoin (bulk <$> (obj_bytes <$> argv))). rewrite join_app, IH. f_equal.
Qed.

Lemma replicationFeedSlaves_ok dictid argv s : repl_ok s -> command_fits s dictid argv ->
  exists s', replicationFeedSlaves dictid argv s = Some s' /\ repl_ok s' /\ rdb_child s' = rdb_child s /\ base s' = base s /\
    history s' = history s ++ (if masterhost s || bool_decide (backlog s = None) then [] else command_bytes s dictid argv).
Proof.
  intros Hok (Hd & Ha & Hn). pose proof Hok as [Hl Hs _ _]. unfold replicationFeedSlaves, command_bytes. destruct (masterhost s); [exists s; rewrite app_nil_r; by split_and!|]. cbn [orb].
  destruct (backlog s) as [b|] eqn:Hb; cycle 1.
  { rewrite bool_decide_eq_true_2 by done. destruct (slaves s) as [|c l]; [|by destruct Hs]. rewrite bool_decide_eq_true_2 by done. exists s. rewrite app_nil_r. by split_and!. }
  rewrite !(bool_decide_eq_false_2 (Some b = None)) by done. cbn [andb]. rewrite andb_false_r. cbn [negb].
  assert (exists s1, (if negb (slaveseldb s =? dictid) then selectcmd ← select_object dictid; s0 ← feedReplicationBacklogWithObject selectcmd s; Some (to_slaves [RObject selectcmd] s0) else Some s) = Some s1 /\
    repl_inv (rdb_child s) s1 /\ is_Some (backlog s1) /\ history s1 = history s ++ (if slaveseldb s =? dictid then [] else encode [str "SELECT"; decimal dictid]) /\
    rdb_child s1 = rdb_child s /\ base s1 = base s) as (s1 & -> & Hi1 & Hb1 & Hh1 & Hc1 & Hbs1).
  { destruct (Z.eqb_spec (slaveseldb s) dictid) as [|Hne]; cbn [negb]; [exists s; rewrite app_nil_r; by split_and!|]. specialize (Hd Hne). rewrite select_ok by done. cbn [mbind option_bind].
    set (o := ObjRaw _). destruct (feed_object_ok o s) as (s0 & -> & Hl0 & F0); [split; [done|]|done|by rewrite Hb|].
    { pose proof (select_length dictid Hd). unfold o, LLONG_MAX. cbn [obj_bytes]. lia. }
    cbn [mbind option_bind]. eexists. split; [done|]. split_and!; [|apply F0; by rewrite Hb|apply F0|apply F0|apply F0].
    apply (to_slaves_inv _ s s0); [done|done|apply F0; by rewrite Hb|]. unfold wire. cbn. by rewrite app_nil_r. }
  cbn [mbind option_bind]. set (s2 := set_seldb dictid s1). assert (repl_inv (rdb_child s) s2) as Hi2 by (by apply (same_log_slaves _ s1)).
  destruct Hb1 as [b1 Hb1]. assert (backlog s2 = Some b1) as Hb2 by done. rewrite Hb2, (bool_decide_eq_false_2 (Some b1 = None)) by done.
  rewrite count_line_ok by (unfold LONG_STR_SIZE, LLONG_MIN; lia). cbn [mbind option_bind].
  destruct (feed_backlog_ok (header 42 (zlen argv)) s2) as (s3 & -> & Hl3 & F3); [apply Hi2|by rewrite Hb2|]. cbn [mbind option_bind].
  destruct (feed_args_ok argv s3) as (s4 & -> & Hl4 & F4); [done|done|apply F3; by rewrite Hb2|]. cbn [mbind option_bind].
  assert (fed (encode (obj_bytes <$> argv)) s2 s4) as F by (unfold encode; rewrite length_fmap; by eapply fed_trans).
  eexists. split; [done|]. split_and!.
  - unfold repl_ok. rewrite to_slaves_child, (fed_child _ _ _ F). change (rdb_child s2) with (rdb_child s1). rewrite Hc1.
    apply (to_slaves_inv _ s2 s4); [done|done|apply F; by rewrite Hb2|]. by rewrite wire_command.
  - rewrite to_slaves_child, (fed_child _ _ _ F). done.
  - change (base (to_slaves _ s4)) with (base s4). by rewrite (fed_base _ _ _ F).
  - change (history (to_slaves _ s4)) with (history s4). rewrite (fed_history _ _ _ F). change (history s2) with (history s1). by rewrite Hh1, <-app_assoc.
Qed.

Lemma proxy_ok buf s : repl_ok s -> exists s', replicationFeedSlavesFromMasterStream buf s = Some s' /\ repl_ok s' /\
  history s' = history s ++ (if bool_decide (backlog s = None) then [] else buf) /\ base s' = base s.
Proof.
  intros Hok. pose proof Hok as [Hl Hs _ _]. unfold replicationFeedSlavesFromMasterStream. destruct (backlog s) as [b|] eqn:Hb.
  - rewrite (bool_decide_eq_false_2 (Some b = None)) by done. destruct (feed_backlog_ok buf s Hl) as (s1 & -> & Hl1 & F); [by rewrite Hb|]. cbn [mbind option_bind]. eexists. split; [done|].
    split_and!; [|apply F|apply F]. unfold repl_ok. rewrite to_slaves_child, (fed_child _ _ _ F). apply (to_slaves_inv _ s s1); [done|done|apply F; by rewrite Hb|].
    unfold wire. cbn. by rewrite app_nil_r.
  - rewrite bool_decide_eq_true_2 by done. cbn [mbind option_bind]. destruct (slaves s) as [|c l] eqn:E; [|by destruct Hs]. eexists. split; [done|]. rewrite app_nil_r. split_and!; [|done|done].
    apply (same_log_slaves _ s); [done| |done]. cbn. by rewrite E.
Qed.
