(* ===== verification/ReplicationSpec.v ===== *)
(** * What replication promises

    Dumps, synchronizations and everything else that happens to the replicas keeps the invariant of ReplicationInv; over all
    histories of events a replica gets exactly the stream that follows its dump or the offset it asked for. *)
From stdpp Require Import prelude list strings.
From Stdlib Require Import ZArith Lia.
From S2P Require Import Prelude Util SdsText Rio Rdb Reply Resp Aof Replication ReplicationInv.

Local Open Scope Z_scope.
Local Open Scope redis_scope.

(** ** Dumps *)

Lemma setup_fields e s off c : let c' := (replicationSetupSlaveForFullResync e s off c).1 in
  sid c' = sid c /\ replstate c' = SLAVE_STATE_WAIT_BGSAVE_END /\ items c' = items c /\ start c' = off + 1 /\ psync_initial_offset c' = off.
Proof. unfold replicationSetupSlaveForFullResync. cbn. destruct (has _ _); [done|]. by destruct (write_ok _ _). Qed.

(** A dump is started at the present offset, for the replicas that wait. *)
Lemma setup_slave_ok e s s0 t c : log_ok s -> slave_ok (history s) (base s) None c ->
  slave_ok (history s) (base s) (Some (t, master_repl_offset s))
    (if replstate c =? SLAVE_STATE_WAIT_BGSAVE_START then (replicationSetupSlaveForFullResync e s0 (master_repl_offset s) c).1 else c).
Proof.
  intros Hl [H1 H2 H3 H4]. destruct (Z.eqb_spec (replstate c) SLAVE_STATE_WAIT_BGSAVE_START) as [E|E].
  - destruct (setup_fields e s0 (master_repl_offset s) c) as (_ & F2 & F3 & F4 & F5). set (c' := (replicationSetupSlaveForFullResync _ _ _ _).1) in *.
    pose proof (log_offset s Hl). split.
    + rewrite F2. done.
    + intros _. rewrite F3, F4, (H1 E). split; [lia|]. rewrite drop_ge; [done|]. lia.
    + intros _. by rewrite F5.
    + intros _. by rewrite F4, F5.
  - split; [done|by apply H2| |done]. intros E'. by specialize (H3 E').
Qed.

Lemma setup_sids e s (f : slave -> bool) off (l : list slave) : sid <$> ((fun c => if f c then (replicationSetupSlaveForFullResync e s off c).1 else c) <$> l) = sid <$> l.
Proof.
  rewrite <-list_fmap_compose. apply list_fmap_ext. intros i c _. cbn [compose]. unfold compose. destruct (f c); [|done]. by destruct (setup_fields e s off c) as (-> & _).
Qed.
Lemma setup_waiting_same e s : same_log s (setup_waiting e s) /\ rdb_child (setup_waiting e s) = rdb_child s.
Proof. unfold setup_waiting. by destruct (existsb _ _). Qed.
Lemma setup_waiting_slaves e s : slaves (setup_waiting e s) =
  (fun c => if replstate c =? SLAVE_STATE_WAIT_BGSAVE_START then (replicationSetupSlaveForFullResync e s (master_repl_offset s) c).1 else c) <$> slaves s.
Proof. unfold setup_waiting. by destruct (existsb _ _). Qed.

Lemma setup_waiting_inv e s t : repl_inv None s -> repl_inv (Some (t, master_repl_offset s)) (setup_waiting e s).
Proof.
  intros Hi. pose proof Hi as [H1 H2 H3 H4]. destruct (setup_waiting_same e s) as [Hs _]. eapply same_log_inv; [exact Hs|exact Hi|..]; rewrite setup_waiting_slaves.
  - intros Hne. apply H2. intros E. by rewrite E in Hne.
  - apply Forall_fmap. eapply Forall_impl; [exact H3|]. intros c Hc. by apply setup_slave_ok.
  - by rewrite setup_sids.
Qed.

Lemma NoDup_fmap_sid (l : list slave) c c' : NoDup (sid <$> l) -> c ∈ l -> c' ∈ l -> sid c = sid c' -> c = c'.
Proof.
  intros Hn (i & Hi)%list_elem_of_lookup (j & Hj)%list_elem_of_lookup E. assert (i = j) as ->.
  { eapply (NoDup_lookup (sid <$> l)); [done| |]; rewrite list_lookup_fmap; [by rewrite Hi|by rewrite Hj, E]. }
  congruence.
Qed.
(** When the process could not be started, everything is as before. *)
Lemma undo_ok e s ids : repl_inv None s -> ids = sid <$> filter (fun c => replstate c = SLAVE_STATE_WAIT_BGSAVE_START) (slaves s) ->
  let s' := setup_waiting e s in
  repl_inv None (set_slaves ((fun c => if bool_decide (sid c ∈ ids) then set_state SLAVE_STATE_WAIT_BGSAVE_START c else c) <$> slaves s') s').
Proof.
  intros Hi -> s'. pose proof Hi as [H1 H2 H3 H4]. destruct (setup_waiting_same e s) as [Hs _]. set (g := fun c => if bool_decide _ then _ else c). assert (slaves (set_slaves (g <$> slaves s') s') = g <$> slaves s') as Eg by done.
  eapply same_log_inv; [|exact Hi|..]; rewrite ?Eg.
  - eapply same_log_trans; [exact Hs|]. done.
  - unfold s'. rewrite setup_waiting_slaves. intros Hne. apply H2. intros E. by rewrite E in Hne.
  - unfold s'. rewrite setup_waiting_slaves. rewrite <-list_fmap_compose. apply Forall_fmap, Forall_forall. intros c Hc. unfold compose, g.
    assert (slave_ok (history s) (base s) None c) as Hcok by (by eapply Forall_forall in H3).
    destruct (Z.eqb_spec (replstate c) SLAVE_STATE_WAIT_BGSAVE_START) as [E|E].
    + destruct (setup_fields e s (master_repl_offset s) c) as (F1 & F2 & F3 & _). rewrite F1. rewrite bool_decide_eq_true_2.
      * split; cbn; [intros _; rewrite F3; by apply Hcok|done|done|by intros []].
      * apply list_elem_of_fmap. exists c. split; [done|]. by apply list_elem_of_filter.
    + rewrite bool_decide_eq_false_2; [done|]. intros Hin. apply list_elem_of_fmap in Hin as (c2 & Heq & Hc2). apply list_elem_of_filter in Hc2 as [Hst Hc2].
      apply E. by rewrite (NoDup_fmap_sid (slaves s) c c2).
  - unfold s'. rewrite setup_waiting_slaves.
    assert (forall l : list slave, sid <$> (g <$> l) = sid <$> l) as Hg; [|by rewrite Hg, setup_sids].
    intros l. rewrite <-list_fmap_compose. apply list_fmap_ext. intros i c _. unfold compose, g. by case_bool_decide.
Qed.

Lemma drop_waiting_ok s : repl_ok s -> repl_ok (set_slaves (filter (fun c => replstate c <> SLAVE_STATE_WAIT_BGSAVE_START) (slaves s)) s).
Proof. apply filter_slaves_inv. Qed.

Lemma startBgsave_ok e m s : repl_ok s -> repl_ok (startBgsaveForReplication e m s) /\ same_log s (startBgsaveForReplication e m s).
Proof.
  intros Hok. unfold startBgsaveForReplication. destruct (rdbPopulateSaveInfo e s); [|split; [by apply drop_waiting_ok|done]].
  destruct (child_running s) eqn:Erun.
  { assert ((if repl_diskless_sync e && has m SLAVE_CAPA_EOF then rdbSaveToSlavesSockets e s else rdbSaveBackground e s) = (s, false)) as ->.
    { unfold rdbSaveToSlavesSockets, rdbSaveBackground. rewrite Erun. by destruct (_ && _). }
    split; [by apply drop_waiting_ok|done]. }
  apply orb_false_iff in Erun as [Ea Er%negb_false_iff%bool_decide_eq_true]. assert (repl_inv None s) as Hi by (unfold repl_ok in Hok; by rewrite Er in Hok).
  assert (child_running s = false) as Erun by (unfold child_running; by rewrite Ea, Er).
  destruct (repl_diskless_sync e && has m SLAVE_CAPA_EOF).
  - unfold rdbSaveToSlavesSockets. rewrite Erun. destruct (pipe_ok e); cbn [negb]; [|split; [by apply drop_waiting_ok|done]].
    destruct (setup_waiting_same e s) as [Hs Hc]. destruct (fork_ok e).
    + split; [|eapply same_log_trans; [exact Hs|done]]. unfold repl_ok. cbn [rdb_child set_child]. rewrite (sl_master _ _ Hs).
      apply (same_log_slaves _ (setup_waiting e s)); [done|done|]. by apply setup_waiting_inv.
    + set (l := fmap _ _). split; [|eapply same_log_trans; [exact Hs|done]]. unfold repl_ok.
      set (s1 := set_slaves l (setup_waiting e s)). assert (repl_inv None s1) as Hi1 by by apply undo_ok.
      assert (rdb_child s1 = None) as Hc1 by (change (rdb_child (setup_waiting e s) = None); by rewrite Hc).
      change (repl_inv (rdb_child s1) (set_slaves (filter (fun c => replstate c <> SLAVE_STATE_WAIT_BGSAVE_START) (slaves s1)) s1)). rewrite Hc1. by apply filter_slaves_inv.
  - unfold rdbSaveBackground. rewrite Erun. destruct (fork_ok e); [|split; [by apply drop_waiting_ok|done]].
    set (s1 := set_child _ s). destruct (setup_waiting_same e s1) as [Hs Hc]. split; [|by eapply same_log_trans; [|exact Hs]].
    unfold repl_ok. rewrite Hc. apply (setup_waiting_inv e s1 RDB_CHILD_TYPE_DISK). by apply (same_log_slaves _ s).
Qed.

(** *** When a dump is done *)

Lemma dump_ready_ok h from ch e ok type c c' : slave_ok h from ch c -> dump_ready e ok type c = Some c' -> slave_ok h from None c' /\ sid c' = sid c.
Proof.
  intros [H1 H2 H3 H4]. unfold dump_ready. destruct states_differ as (D1 & D2 & D3 & D4 & D5 & D6).
  destruct (Z.eqb_spec (replstate c) SLAVE_STATE_WAIT_BGSAVE_END) as [E|E]; cbn [negb]; [|intros [= <-]; split; [|done]; by split].
  assert (replstate c <> SLAVE_STATE_WAIT_BGSAVE_START) as En by congruence. specialize (H2 En). specialize (H4 (or_introl E)).
  destruct type.
  - destruct ok; [|done]. cbn [negb]. destruct (dump_size e (sid c)); [|done]. destruct (event_ok e (sid c)); [|done]. intros [= <-]. split; [|done]. by split.
  - intros [= <-]. split; [|done]. split; cbn; [done|done|done|]. by intros [].
Qed.

Lemma omap_fate_ok (P Q : slave -> Prop) (l : list slave) g : (forall c c', P c -> g c = Some c' -> Q c' /\ sid c' = sid c) ->
  Forall P l -> Forall Q (omap g l) /\ (sid <$> omap g l) `sublist_of` (sid <$> l).
Proof.
  intros Hg. induction 1 as [|c l Hc _ [IH1 IH2]]; [done|]. cbn [omap list_omap]. destruct (g c) as [c'|] eqn:E; [|split; [done|by apply sublist_cons]].
  destruct (Hg c c' Hc E) as [Hq Hs]. split; [by constructor|]. cbn [fmap list_fmap]. rewrite Hs. by apply sublist_skip.
Qed.
Lemma omap_slaves_inv ch ch' (R : slave -> Prop) g s : repl_inv ch s -> Forall R (slaves s) ->
  (forall c c', slave_ok (history s) (base s) ch c -> R c -> g c = Some c' -> slave_ok (history s) (base s) ch' c' /\ sid c' = sid c) ->
  repl_inv ch' (set_slaves (omap g (slaves s)) s).
Proof.
  intros Hi HR Hg. pose proof Hi as [H1 H2 H3 H4].
  destruct (omap_fate_ok (fun c => slave_ok (history s) (base s) ch c /\ R c) (slave_ok (history s) (base s) ch') (slaves s) g) as [Hf Hs].
  { intros c c' []. by apply Hg. }
  { by apply Forall_and. }
  eapply same_log_inv; [|exact Hi|..]; try done; cbn [slaves set_slaves].
  - intros Hne. apply H2. intros E. rewrite E in Hne. done.
  - by eapply sublist_NoDup.
Qed.

Lemma updateSlaves_ok ch e ok type s : rdb_child s = None -> repl_inv ch s ->
  repl_ok (updateSlavesWaitingBgsave e ok type s) /\ same_log s (updateSlavesWaitingBgsave e ok type s).
Proof.
  intros Hc Hi. unfold updateSlavesWaitingBgsave. set (d := fun c => bool_decide _). destruct (free_slaves_child e d s) as (Hc1 & Hs1 & _).
  set (s1 := free_slaves e d s) in *. set (s2 := set_slaves _ s1). assert (repl_ok s2) as Hok2.
  { unfold repl_ok. change (rdb_child s2) with (rdb_child s1). rewrite Hc1, Hc. apply (omap_slaves_inv ch None (fun _ => True)); [by apply free_slaves_inv|by apply Forall_true|].
    intros c c' Hco _ E. by eapply dump_ready_ok. }
  assert (same_log s s2) as Hs2 by (by eapply same_log_trans; [exact Hs1|]).
  case_bool_decide; [done|]. destruct (startBgsave_ok e (mincapa_of (waiting_slaves s)) s2 Hok2). split; [done|by eapply same_log_trans].
Qed.
Lemma done_disk_ok e ok s : repl_ok s -> repl_ok (backgroundSaveDoneHandlerDisk e ok s) /\ same_log s (backgroundSaveDoneHandlerDisk e ok s).
Proof.
  intros Hok. destruct (updateSlaves_ok (rdb_child s) e ok RDB_CHILD_TYPE_DISK (set_child None s)) as [H1 H2]; [done|by apply (same_log_slaves _ s)|]. split; [done|by eapply same_log_trans; [|exact H2]].
Qed.
Lemma done_socket_ok e ok report s : repl_ok s -> repl_ok (backgroundSaveDoneHandlerSocket e ok report s) /\ same_log s (backgroundSaveDoneHandlerSocket e ok report s).
Proof.
  intros Hok. unfold backgroundSaveDoneHandlerSocket. set (d := fun c => _ && _). destruct (free_slaves_child e d (set_child None s)) as (Hc1 & Hs1 & _).
  destruct (updateSlaves_ok (rdb_child s) e ok RDB_CHILD_TYPE_SOCKET (free_slaves e d (set_child None s))) as [H1 H2]; [by rewrite Hc1| |].
  - apply free_slaves_inv. by apply (same_log_slaves _ s).
  - split; [done|]. eapply same_log_trans; [|exact H2]. by eapply same_log_trans; [|exact Hs1].
Qed.

(** ** Synchronization *)

Definition in_backlog (s : rserver) (o : Z) : bool := negb (bool_decide (backlog s = None)) && (backlog_off s <=? o) && (o <=? backlog_off s + backlog_histlen s).

(** A replica that is added at the end. *)
Lemma add_slave_inv ch s s' c : repl_inv ch s -> same_log s s' -> slaves s' = slaves s ++ [c] -> backlog s <> None -> sid c ∉ sid <$> slaves s ->
  slave_ok (history s) (base s) ch c -> repl_inv ch s'.
Proof.
  intros Hi Hl Hs Hb Hn Hc. pose proof Hi as [H1 H2 H3 H4]. eapply same_log_inv; [exact Hl|exact Hi|done|rewrite Hs; by apply Forall_app_2; [|apply Forall_singleton]|].
  rewrite Hs, fmap_app. apply NoDup_app. split_and!; [done| |apply NoDup_singleton]. intros i Hi' Hs'. apply list_elem_of_singleton in Hs' as ->. done.
Qed.

(** A PSYNC is accepted exactly when the id is known for this offset and the backlog reaches back to it; the replica
    then has in its buffers the rest of the stream from there on. *)
Lemma psync_ok e id off o c s : repl_ok s -> items c = [] -> sid c ∉ sid <$> slaves s -> string2ll off = Some o ->
  exists s' c', masterTryPartialResynchronization e id off c s = Some (s', c', id_matches s id o && in_backlog s o) /\
    if id_matches s id o && in_backlog s o then
      repl_ok s' /\ same_log s s' /\ slaves s' = slaves s ++ [c'] /\ sid c' = sid c /\ replstate c' = SLAVE_STATE_ONLINE /\
      (write_ok e (sid c) = true -> start c' = o /\ direct c' = direct c ++ continue_line s c /\ base s < o /\ wire (items c') = drop (Z.to_nat (o - 1 - base s)) (history s))
    else s' = s /\ c' = c.
Proof.
  intros Hok Hit Hsid Ho. unfold masterTryPartialResynchronization, in_backlog. rewrite Ho. destruct (id_matches s id o); cbn [negb andb]; [|by exists s, c].
  destruct (backlog s) as [b|] eqn:Hb; [|by exists s, c]. rewrite (bool_decide_eq_false_2 (Some b = None)) by done. cbn [negb andb orb].
  rewrite (Z.leb_antisym o), (Z.leb_antisym (backlog_off s + _)). destruct (Z.ltb_spec o (backlog_off s)) as [H1|H1]; cbn [negb andb orb]; [by exists s, c|].
  destruct (Z.ltb_spec (backlog_off s + backlog_histlen s) o) as [H2|H2]; cbn [negb]; [by exists s, c|].
  pose proof Hok as [Hl Hs _ _]. destruct (log_ring s Hl b Hb) as (Hr & Hle & Hoff). pose proof (log_offset s Hl) as Hmo. pose proof (ring_n _ _ _ _ _ Hr) as Hn.
  set (c1 := set_ack _ _ _ _). destruct (write_ok e (sid c1)) eqn:Hw; cbn [negb].
  - set (c2 := set_direct _ _). destruct (backlog_read s b o c2) as (l & len & -> & Hwire & _); [done|done|done|done|done|]. cbn [mbind option_bind]. eexists _, _. split; [done|].
    set (c3 := set_start _ _ _). destruct (refresh_same e (set_slaves (slaves s ++ [c3]) s)) as (R1 & R2 & R3).
    assert (items c3 = l) as Hi3 by (change (items c ++ l = l); by rewrite Hit). assert (start c3 = o) as Hs3 by done.
    assert (wire (items c3) = drop (Z.to_nat (o - 1 - base s)) (history s)) as Hw3 by (rewrite Hi3, Hwire; f_equal; lia).
    assert (same_log s (refreshGoodSlavesCount e (set_slaves (slaves s ++ [c3]) s))) as Hsl by (by eapply same_log_trans; [|exact R1]). split_and!; try done; [|intros _; split_and!; [done|done|lia|done]].
    unfold repl_ok. rewrite R3. apply (add_slave_inv _ s _ c3); [done|done|done|by rewrite Hb|done|]. split; [done| |done|by intros []].
    intros _. rewrite Hs3. split; [lia|done].
  - eexists _, _. split; [done|]. set (c3 := set_start _ _ _). split; [|split_and!; try done; intros Hw2; change (sid c1) with (sid c) in Hw; congruence].
    apply (add_slave_inv _ s _ c3); [done|done|done|by rewrite Hb|done|]. split; [done| |done|by intros []].
    intros _. change (start c3) with (master_repl_offset s + 1). change (items c3) with (items c). rewrite Hit. split; [lia|]. rewrite drop_ge; [done|]. lia.
Qed.

Lemma create_backlog_ok e s : env_ok e -> log_ok s -> backlog s = None -> slaves s = [] ->
  exists s', createReplicationBacklog e (clearReplicationId2 (changeReplicationId e s)) = Some s' /\ repl_ok s' /\ slaves s' = [] /\ rdb_child s' = rdb_child s /\
    aof_child s' = aof_child s /\ history s' = history s /\ base s' = base s /\ backlog s' <> None.
Proof.
  intros He Hl Hb Hs. unfold createReplicationBacklog. cbn [backlog clearReplicationId2 changeReplicationId set_ids]. rewrite bool_decide_eq_true_2 by done. eexists. split; [done|].
  split_and!; try done. pose proof (log_size s Hl) as H0. split; cbn; [|done|by rewrite Hs|rewrite Hs; constructor].
  split; cbn; [done|apply Hl|]. intros b [= <-]. split_and!; [apply ring_empty; [by apply He|done]|lia|lia].
Qed.

(** What a client has to send: SYNC, or PSYNC with an id and a number. *)
Definition sync_args (argv : list (list Z)) : Prop := exists name rest, argv = name :: rest /\
  (strcaseeq name (str "psync") = true -> exists id off o r, rest = id :: off :: r /\ string2ll off = Some o).

Lemma find_waiting l j other : list_find (fun c : slave => replstate c = SLAVE_STATE_WAIT_BGSAVE_END) l = Some (j, other) -> other ∈ l /\ replstate other = SLAVE_STATE_WAIT_BGSAVE_END.
Proof. intros (H1 & H2 & _)%list_find_Some. split; [by eapply list_elem_of_lookup_2|done]. Qed.

(** The second half: a client that could not continue waits for a dump, the one being made if it can. *)
Lemma full_sync_ok e s c : repl_ok s -> backlog s <> None -> items c = [] -> sid c ∉ sid <$> slaves s -> replstate c = SLAVE_STATE_WAIT_BGSAVE_START ->
  exists s', match rdb_child s with
    | Some (RDB_CHILD_TYPE_DISK, _) =>
      match list_find (fun c => replstate c = SLAVE_STATE_WAIT_BGSAVE_END) (slaves s) with
      | Some (_, other) =>
        if Z.land (slave_capa c) (slave_capa other) =? slave_capa other then
          let c := set_items (items other) c in
          let '(c, _) := replicationSetupSlaveForFullResync e s (psync_initial_offset other) c in
          Some (set_seldb (-1) (set_slaves (slaves s ++ [c]) s), None)
        else Some (set_slaves (slaves s ++ [c]) s, None)
      | None => Some (set_slaves (slaves s ++ [c]) s, None)
      end
    | Some (RDB_CHILD_TYPE_SOCKET, _) => Some (set_slaves (slaves s ++ [c]) s, None)
    | None =>
      let s := set_slaves (slaves s ++ [c]) s in
      if repl_diskless_sync e && has (slave_capa c) SLAVE_CAPA_EOF then Some (s, None)
      else if negb (aof_child s) then Some (startBgsaveForReplication e (slave_capa c) s, None)
      else Some (s, None)
    end = Some (s', @None slave) /\ repl_ok s' /\ same_log s s'.
Proof.
  intros Hok Hb Hit Hsid Hst. assert (slave_ok (history s) (base s) (rdb_child s) c) as Hc.
  { split; rewrite ?Hst; [done|done|done|]. by intros []. }
  assert (repl_ok (set_slaves (slaves s ++ [c]) s)) as Hadd by (by apply (add_slave_inv _ s _ c)).
  destruct (rdb_child s) as [[[] fork]|] eqn:Ech; cycle 1.
  - by eexists.
  - cbn zeta. destruct (_ && _); [by eexists|]. destruct (negb _); [|by eexists]. eexists. split; [done|].
    destruct (startBgsave_ok e (slave_capa c) _ Hadd) as [S1 S2]. split; [done|]. by eapply same_log_trans; [|exact S2].
  - destruct (list_find _ (slaves s)) as [[j other]|] eqn:Ef; [|by eexists]. apply find_waiting in Ef as [Hin Hwe]. destruct (_ =? _); [|by eexists]. cbn zeta.
    pose proof (setup_fields e s (psync_initial_offset other) (set_items (items other) c)) as (F1 & F2 & F3 & F4 & F5).
    destruct (replicationSetupSlaveForFullResync e s (psync_initial_offset other) (set_items (items other) c)) as [c' w]. cbn in F1, F2, F3, F4, F5. eexists. split; [done|].
    split; [|done]. unfold repl_ok. apply (add_slave_inv (rdb_child s) s _ c'); [exact Hok|done|done|done|by rewrite F1|]. cbn. rewrite Ech.
    assert (slave_ok (history s) (base s) (Some (RDB_CHILD_TYPE_DISK, fork)) other) as [G1 G2 G3 G4].
    { destruct Hok as [_ _ Hall _]. rewrite Ech in Hall. by eapply Forall_forall in Hall. }
    destruct states_differ as (D1 & _). assert (replstate other <> SLAVE_STATE_WAIT_BGSAVE_START) as Hne by congruence. specialize (G4 (or_introl Hwe)).
    split; [by rewrite F2|intros _; rewrite F3, F4, <-G4; by apply G2|intros _; rewrite F5; by apply G3|intros _; by rewrite F4, F5].
Qed.

(** The stream only grows. *)
Definition grows (s s' : rserver) : Prop := base s' = base s /\ exists p, history s' = history s ++ p.
Lemma grows_same s s' : history s' = history s -> base s' = base s -> grows s s'.
Proof. intros H1 H2. split; [done|]. exists []. by rewrite app_nil_r. Qed.
Lemma grows_log s s' : same_log s s' -> grows s s'.
Proof. intros [_ _ _ _ _ _ H1 H2]. by apply grows_same. Qed.
Lemma grows_trans s1 s2 s3 : grows s1 s2 -> grows s2 s3 -> grows s1 s3.
Proof. intros [H1 [p H2]] [H3 [q H4]]. split; [congruence|]. exists (p ++ q). by rewrite H4, H2, app_assoc. Qed.

Lemma sync_ok e argv c s : env_ok e -> repl_ok s -> sid c ∉ sid <$> slaves s -> sync_args argv ->
  exists s' r, syncCommand e argv c s = Some (s', r) /\ repl_ok s' /\ grows s s'.
Proof.
  intros He Hok Hsid (name & rest & -> & Hargs). unfold syncCommand. destruct (has (sflags c) CLIENT_SLAVE); [by eexists _, _; split_and!; [done|done|apply grows_log]|].
  destruct (_ && _); [by eexists _, _; split_and!; [done|done|apply grows_log]|]. case_bool_decide as Hit; cbn [negb]; [|by eexists _, _; split_and!; [done|done|apply grows_log]].
  cbn [lookup list_lookup]. cbn [mbind option_bind].
  assert (forall c, items c = [] -> sid c ∉ sid <$> slaves s -> exists s' (r : option slave),
    (let c := set_state SLAVE_STATE_WAIT_BGSAVE_START c in
     let c := set_sflags (Z.lor (sflags c) CLIENT_SLAVE) c in
     s ← (if bool_decide (slaves s = []) && bool_decide (backlog s = None)
          then createReplicationBacklog e (clearReplicationId2 (changeReplicationId e s)) else Some s);
     match rdb_child s with
     | Some (RDB_CHILD_TYPE_DISK, _) =>
       match list_find (fun c => replstate c = SLAVE_STATE_WAIT_BGSAVE_END) (slaves s) with
       | Some (_, other) =>
         if Z.land (slave_capa c) (slave_capa other) =? slave_capa other then
           let c := set_items (items other) c in
           let '(c, _) := replicationSetupSlaveForFullResync e s (psync_initial_offset other) c in
           Some (set_seldb (-1) (set_slaves (slaves s ++ [c]) s), None)
         else Some (set_slaves (slaves s ++ [c]) s, None)
       | None => Some (set_slaves (slaves s ++ [c]) s, None)
       end
     | Some (RDB_CHILD_TYPE_SOCKET, _) => Some (set_slaves (slaves s ++ [c]) s, None)
     | None =>
       let s := set_slaves (slaves s ++ [c]) s in
       if repl_diskless_sync e && has (slave_capa c) SLAVE_CAPA_EOF then Some (s, None)
       else if negb (aof_child s) then Some (startBgsaveForReplication e (slave_capa c) s, None)
       else Some (s, None)
     end) = Some (s', r) /\ repl_ok s' /\ grows s s') as Hfull.
  { intros c0 Hi0 Hs0. cbn zeta. set (c1 := set_sflags _ _). case_bool_decide as Hsl; cbn [andb].
    - case_bool_decide as Hb.
      + destruct (create_backlog_ok e s He (ok_log _ _ Hok) Hb Hsl) as (s1 & -> & Hok1 & Hs1 & Hc1 & Ha1 & Hh1 & Hb1 & Hne). cbn [mbind option_bind].
        destruct (full_sync_ok e s1 c1) as (s2 & E & Hok2 & Hl2); [done|done|done|rewrite Hs1; apply not_elem_of_nil|done|]. eexists _, _. split; [exact E|]. split; [done|].
        eapply grows_trans; [by apply grows_same|by apply grows_log].
      + cbn [mbind option_bind]. destruct (full_sync_ok e s c1) as (s2 & E & Hok2 & Hl2); [done|done|done|done|done|]. eexists _, _. split; [exact E|]. split; [done|by apply grows_log].
    - cbn [mbind option_bind]. destruct (full_sync_ok e s c1) as (s2 & E & Hok2 & Hl2); [done|by apply Hok|done|done|done|]. eexists _, _. split; [exact E|]. split; [done|by apply grows_log]. }
  destruct (strcaseeq name (str "psync")) eqn:En.
  - destruct (Hargs eq_refl) as (id & off & o & r & -> & Ho). cbn [lookup list_lookup]. cbn [mbind option_bind].
    destruct (psync_ok e id off o c s Hok Hit Hsid Ho) as (s1 & c1 & -> & Hp). cbn [mbind option_bind]. destruct (id_matches s id o && in_backlog s o).
    + destruct Hp as (Hok1 & Hl1 & _). eexists _, _. split_and!; [done|done|by apply grows_log].
    + destruct Hp as [-> ->]. by apply Hfull.
  - cbn [mbind option_bind]. by apply Hfull.
Qed.

(** ** Everything else *)

Lemma on_slave_ok e i f s (R : slave -> Prop) : repl_ok s -> Forall R (slaves s) ->
  (forall h from ch c c', slave_ok h from ch c -> R c -> fate_slave (f c) = Some c' -> sid c = i -> slave_ok h from ch c' /\ sid c' = sid c) ->
  repl_ok (on_slave e i f s) /\ same_log s (on_slave e i f s).
Proof.
  intros Hok HR Hf. unfold on_slave. set (d := fun c => _ && bool_decide _). destruct (free_slaves_child e d s) as (Hc1 & Hs1 & Hl1). pose proof (free_slaves_inv _ e d s Hok) as Hi1.
  set (s1 := free_slaves e d s) in *. set (s2 := set_slaves _ s1).
  assert (repl_ok s2 /\ same_log s s2) as [Hok2 Hs2].
  { split; [|by eapply same_log_trans; [exact Hs1|]]. unfold repl_ok. change (rdb_child s2) with (rdb_child s1). rewrite Hc1. apply (omap_slaves_inv (rdb_child s) (rdb_child s) R); [done| |].
    - rewrite Hl1. eapply Forall_sublist; [apply sublist_filter|done].
    - intros c c' Hco Hrc E. destruct (Z.eqb_spec (sid c) i) as [Hi|Hi]; [by eapply Hf|]. by injection E as <-. }
  destruct (existsb _ _); [|done]. destruct (refresh_same e s2) as (R1 & R2 & R3). split; [unfold repl_ok; rewrite R3; by apply refresh_inv|by eapply same_log_trans].
Qed.

Lemma put_online_ok h from ch e c c' : slave_ok h from ch c -> replstate c = SLAVE_STATE_ONLINE \/ replstate c = SLAVE_STATE_SEND_BULK -> fate_slave (putSlaveOnline e c) = Some c' ->
  slave_ok h from ch c' /\ sid c' = sid c.
Proof.
  intros [H1 H2 H3 H4] Hst. unfold putSlaveOnline. destruct (event_ok e (sid c)); [|done]. intros [= <-]. split; [|done].
  assert (replstate c <> SLAVE_STATE_WAIT_BGSAVE_START) as Hn by (destruct Hst as [-> | ->]; done). split; cbn; [done|intros _; by apply H2|done|by intros []].
Qed.

(** The acknowledgement of an offset. *)
Definition ack_args (off : list Z) : list (list Z) := [str "REPLCONF"; str "ACK"; off].
Definition on_ack (e : renv) (off : list Z) (c : slave) : fate := default (Stays c) (replconfCommand e (ack_args off) c).
Lemma on_ack_ok h from ch e off c c' : slave_ok h from ch c -> fate_slave (on_ack e off c) = Some c' -> slave_ok h from ch c' /\ sid c' = sid c.
Proof.
  intros Hc. unfold on_ack, replconfCommand. change (Z.rem (zlen (ack_args off)) 2 =? 0) with false. cbn iota. cbn [ack_args drop replconf_loop].
  change (strcaseeq (str "ACK") (str "listening-port")) with false. change (strcaseeq (str "ACK") (str "ip-address")) with false.
  change (strcaseeq (str "ACK") (str "capa")) with false. change (strcaseeq (str "ACK") (str "ack")) with true. cbn iota.
  destruct (has (sflags c) CLIENT_SLAVE); cbn [negb]; [|by intros [= <-]]. destruct (string2ll off) as [o|]; [|by intros [= <-]]. cbn [mbind option_bind default].
  set (c1 := set_ack _ _ _ c). assert (slave_ok h from ch c1) as Hc1 by (destruct Hc; by split). destruct (_ && _) eqn:E; [|by intros [= <-]].
  apply andb_true_iff in E as [_ E%Z.eqb_eq]. intros Hf. destruct (put_online_ok h from ch e c1 c' Hc1) as [? ?]; [by left|done|]. done.
Qed.

Lemma send_data_ok h from ch e file w c c' : slave_ok h from ch c -> replstate c = SLAVE_STATE_SEND_BULK -> fate_slave (send_data e file w c) = Some c' ->
  slave_ok h from ch c' /\ sid c' = sid c.
Proof.
  intros Hc Hst. unfold send_data. case_bool_decide; [done|]. destruct w as [n| |]; [|intros [= <-]; done|done]. set (c1 := set_bulk _ _ _ _).
  assert (slave_ok h from ch c1) as Hc1 by (destruct Hc; by split). destruct (_ =? _); [|intros [= <-]; done].
  intros E. destruct (put_online_ok h from ch e c1 c' Hc1) as [? Hs]; [by right|done|]. split; [done|]. by rewrite Hs.
Qed.
Lemma bulk_ok h from ch e file w1 w2 c c' : slave_ok h from ch c -> replstate c = SLAVE_STATE_SEND_BULK -> fate_slave (sendBulkToSlave e file w1 w2 c) = Some c' ->
  slave_ok h from ch c' /\ sid c' = sid c.
Proof.
  intros Hc Hst. unfold sendBulkToSlave. destruct (replpreamble c) as [pre|]; [|by apply send_data_ok]. destruct (wrote w1 pre) as [n|]; [|done]. case_bool_decide.
  - intros E. eapply send_data_ok in E as [? ->]; [|destruct Hc; by split|done]. done.
  - intros [= <-]. split; [destruct Hc; by split|done].
Qed.

Lemma fmap_slaves_ok g s : repl_ok s -> (forall h from ch c, slave_ok h from ch c -> slave_ok h from ch (g c) /\ sid (g c) = sid c) -> repl_ok (set_slaves (g <$> slaves s) s).
Proof.
  intros Hok Hg. pose proof Hok as [H1 H2 H3 H4]. eapply same_log_inv; [|exact Hok|..]; try done; cbn [slaves set_slaves].
  - intros Hne. apply H2. intros E. by rewrite E in Hne.
  - apply Forall_fmap. eapply Forall_impl; [exact H3|]. intros c Hc. by apply Hg.
  - replace (sid <$> (g <$> slaves s)) with (sid <$> slaves s); [done|]. rewrite <-list_fmap_compose. apply list_fmap_ext. intros i c Hc.
    apply list_elem_of_lookup_2 in Hc. eapply Forall_forall in H3; [|exact Hc]. unfold compose. by destruct (Hg _ _ _ _ H3) as [_ ->].
Qed.

Lemma resize_ok e n s : env_ok e -> repl_ok s -> repl_ok (resizeReplicationBacklog e n s) /\ grows s (resizeReplicationBacklog e n s).
Proof.
  intros He Hok. unfold resizeReplicationBacklog. set (m := if n <? _ then _ else n). assert (0 < m) as Hm.
  { unfold m, CONFIG_REPL_BACKLOG_MIN_SIZE. destruct (Z.ltb_spec n (1024 * 16)); lia. }
  destruct (_ =? _); [split; [done|by apply grows_same]|]. pose proof Hok as [[L1 L2 L3] H2 H3 H4]. destruct (backlog s) as [b|] eqn:Hb; (split; [|by apply grows_same]).
  - split; cbn; [|done|done|done]. split; cbn; [done|done|]. intros b' [= <-]. split_and!; [apply ring_empty; [by apply He|done]|lia|lia].
  - split; cbn; [|done|done|done]. by split.
Qed.

Lemma cron_ok e s : repl_ok s -> exists s', replicationCron e s = Some s' /\ repl_ok s' /\ grows s s'.
Proof.
  intros Hok. unfold replicationCron.
  assert (exists s1, cron_ping e s = Some s1 /\ repl_ok s1 /\ grows s s1) as (s1 & -> & Hok1 & G1).
  { unfold cron_ping. destruct (_ && _ && _); [|exists s; do 2 (split; [done|]); by apply grows_same].
    destruct (replicationFeedSlaves_ok (slaveseldb s) [ObjEmbstr (str "PING")] s Hok) as (s1 & -> & Hok1 & _ & Hb & Hh).
    { split_and!; [done| |done]. by repeat constructor. }
    exists s1. do 2 (split; [done|]). split; [done|by eexists]. }
  cbn [mbind option_bind]. set (s2 := free_slaves e (timed_out e) (cron_newlines e s1)).
  assert (repl_ok s2 /\ same_log s1 s2) as [Hok2 S2].
  { destruct (free_slaves_child e (timed_out e) (cron_newlines e s1)) as (C & S & _). split; [|by eapply same_log_trans; [|exact S]]. unfold repl_ok, s2. rewrite C. apply free_slaves_inv.
    apply fmap_slaves_ok; [done|]. intros h from ch c Hc. destruct (_ && _); [|done]. split; [destruct Hc; by split|done]. }
  assert (exists s3, cron_backlog e s2 = Some s3 /\ repl_ok s3 /\ history s3 = history s2 /\ base s3 = base s2) as (s3 & -> & Hok3 & Hh3 & Hb3).
  { unfold cron_backlog. destruct (_ && _ && _ && _ && _) eqn:E; [|by exists s2]. unfold freeReplicationBacklog. cbn [slaves clearReplicationId2 changeReplicationId set_ids].
    repeat apply andb_true_iff in E as [E _]. rewrite E. eexists. split; [done|]. split_and!; try done. apply bool_decide_eq_true in E.
    destruct Hok2 as [[L1 L2 L3] H2 H3 H4]. split; cbn; [by split|by rewrite E|done|done]. }
  cbn [mbind option_bind]. eexists. split; [done|]. set (s4 := cron_bgsave e s3). assert (repl_ok s4 /\ same_log s3 s4) as [Hok4 S4].
  { unfold s4, cron_bgsave. destruct (child_running s3); [done|]. destruct (_ && _); [|done]. by apply startBgsave_ok. }
  destruct (refresh_same e s4) as (R1 & R2 & R3). split; [unfold repl_ok; rewrite R3; by apply refresh_inv|].
  eapply grows_trans; [exact G1|]. eapply grows_trans; [by apply grows_log|]. eapply grows_trans; [by apply grows_same|]. eapply grows_trans; [by apply grows_log|by apply grows_log].
Qed.

Lemma disconnect_ok e s : repl_ok s -> repl_ok (disconnectSlaves e s) /\ same_log s (disconnectSlaves e s).
Proof. intros Hok. destruct (free_slaves_child e (fun _ => true) s) as (C & S & _). split; [|done]. unfold repl_ok, disconnectSlaves. rewrite C. by apply free_slaves_inv. Qed.
Lemma promote_ok e s : repl_ok s -> repl_ok (replicationUnsetMaster e s) /\ same_log s (replicationUnsetMaster e s).
Proof.
  intros Hok. unfold replicationUnsetMaster. destruct (masterhost s); cbn [negb]; [|done]. set (s1 := shiftReplicationId e _).
  assert (repl_ok s1) as Hok1 by (by apply (same_log_slaves _ s)). destruct (disconnect_ok e s1 Hok1) as [Hok2 S2]. split; [|eapply same_log_trans; [|by eapply same_log_trans; [exact S2|]]; done].
  by apply (same_log_slaves _ (disconnectSlaves e s1)).
Qed.
Lemma demote_ok e s : repl_ok s -> repl_ok (replicationSetMaster e s) /\ same_log s (replicationSetMaster e s).
Proof.
  intros Hok. assert (repl_ok (set_master true s)) as Hok1 by (by apply (same_log_slaves _ s)). destruct (disconnect_ok e _ Hok1) as [Hok2 S2].
  split; [done|by eapply same_log_trans; [|exact S2]].
Qed.

(** A dump that nobody waits for, as BGSAVE starts it. *)
Lemma bgsave_ok e s : repl_ok s -> repl_ok ((rdbSaveBackground e s).1) /\ same_log s ((rdbSaveBackground e s).1).
Proof.
  intros Hok. unfold rdbSaveBackground, child_running. destruct (aof_child s); [done|]. cbn [orb]. case_bool_decide as Hc; cbn [negb]; [|done]. destruct (fork_ok e); [|done]. split; [|done].
  unfold repl_ok in *. rewrite Hc in Hok. pose proof Hok as [H1 H2 H3 H4]. eapply same_log_inv; [|exact Hok|..]; try done. cbn.
  eapply Forall_impl; [exact H3|]. intros c [A B C D]. split; [done|done| |done]. intros E. by specialize (C E).
Qed.

(** ** Histories *)

Inductive revent :=
  | Propagate (dictid : Z) (argv : list string_obj)            (* a command of a client *)
  | Proxied (buf : list Z)                                      (* bytes of the stream of our own master *)
  | Sync (e : renv) (argv : list (list Z)) (c : slave)          (* SYNC or PSYNC of a client *)
  | DumpDone (e : renv) (ok : bool) | TransferDone (e : renv) (ok : bool) (report : list (Z * Z))
  | Ack (e : renv) (i : Z) (off : list Z) | Bulk (e : renv) (i : Z) (file : list Z) (w1 w2 : write_result)
  | Lost (e : renv) (i : Z) | Cron (e : renv) | Resize (e : renv) (n : Z)
  | Promote (e : renv) | Demote (e : renv) | Bgsave (e : renv) | AofChild (b : bool).

Definition rstep (ev : revent) (s : rserver) : option rserver :=
  match ev with
  | Propagate dictid argv => replicationFeedSlaves dictid argv s
  | Proxied buf => replicationFeedSlavesFromMasterStream buf s
  | Sync e argv c => fst <$> syncCommand e argv c s
  | DumpDone e ok => Some (backgroundSaveDoneHandlerDisk e ok s)
  | TransferDone e ok report => Some (backgroundSaveDoneHandlerSocket e ok report s)
  | Ack e i off => Some (on_slave e i (on_ack e off) s)
  | Bulk e i file w1 w2 => Some (on_slave e i (sendBulkToSlave e file w1 w2) s)
  | Lost e i => Some (free_slave e i s)
  | Cron e => replicationCron e s
  | Resize e n => Some (resizeReplicationBacklog e n s)
  | Promote e => Some (replicationUnsetMaster e s)
  | Demote e => Some (replicationSetMaster e s)
  | Bgsave e => Some ((rdbSaveBackground e s).1)
  | AofChild b => Some (set_aof b s)
  end.
(** Numbers fit their types, a new client has a number of its own, PSYNC comes with a number, and the handler of a
    dump is only called for a replica the dump is sent to. *)
Definition allowed (ev : revent) (s : rserver) : Prop :=
  match ev with
  | Propagate dictid argv => command_fits s dictid argv
  | Sync e argv c => env_ok e /\ (sid c ∉ (sid <$> slaves s)) /\ sync_args argv
  | Bulk _ i _ _ _ => Forall (fun c => sid c = i -> replstate c = SLAVE_STATE_SEND_BULK) (slaves s)
  | Resize e _ => env_ok e
  | _ => True
  end.
Definition fresh_server (size offset : Z) (id : list Z) (slave_of : bool) : rserver :=
  mk_rserver slave_of None size 0 0 0 offset id (replicate 40 48) (-1) (-1) [] None false 0 0 [] offset.
Inductive reached : rserver -> Prop :=
  | reach_fresh size offset id slave_of : 0 < size -> reached (fresh_server size offset id slave_of)
  | reach_event ev s s' : reached s -> allowed ev s -> rstep ev s = Some s' -> reached s'.

Lemma rstep_ok ev s : repl_ok s -> allowed ev s -> exists s', rstep ev s = Some s' /\ repl_ok s' /\ grows s s'.
Proof.
  intros Hok Ha. destruct ev as [dictid argv|buf|e argv c|e ok|e ok report|e i off|e i file w1 w2|e i|e|e n|e|e|e|b]; cbn [rstep allowed] in *.
  - destruct (replicationFeedSlaves_ok dictid argv s Hok Ha) as (s' & E & Hok' & _ & Hb & Hh). exists s'. do 2 (split; [done|]). split; [done|by eexists].
  - destruct (proxy_ok buf s Hok) as (s' & E & Hok' & Hh & Hb). exists s'. do 2 (split; [done|]). split; [done|by eexists].
  - destruct Ha as (He & Hn & Hargs). destruct (sync_ok e argv c s He Hok Hn Hargs) as (s' & r & -> & Hok' & G). by exists s'.
  - eexists. split; [done|]. destruct (done_disk_ok e ok s Hok). split; [done|by apply grows_log].
  - eexists. split; [done|]. destruct (done_socket_ok e ok report s Hok). split; [done|by apply grows_log].
  - eexists. split; [done|]. destruct (on_slave_ok e i (on_ack e off) s (fun _ => True)) as [H1 H2]; [done|by apply Forall_true| |split; [done|by apply grows_log]].
    intros h from ch c c' Hc _ E _. by eapply on_ack_ok.
  - eexists. split; [done|]. destruct (on_slave_ok e i (sendBulkToSlave e file w1 w2) s (fun c => sid c = i -> replstate c = SLAVE_STATE_SEND_BULK)) as [H1 H2];
      [done|done| |split; [done|by apply grows_log]]. intros h from ch c c' Hc Hr E Hs. eapply bulk_ok; [exact Hc|by apply Hr|exact E].
  - eexists. split; [done|]. destruct (free_slaves_child e (fun c => sid c =? i) s) as (C & S & _). split; [unfold repl_ok, free_slave; rewrite C; by apply free_slaves_inv|by apply grows_log].
  - by apply cron_ok.
  - eexists. split; [done|]. by apply resize_ok.
  - eexists. split; [done|]. destruct (promote_ok e s Hok). split; [done|by apply grows_log].
  - eexists. split; [done|]. destruct (demote_ok e s Hok). split; [done|by apply grows_log].
  - eexists. split; [done|]. destruct (bgsave_ok e s Hok). split; [done|by apply grows_log].
  - eexists. split; [done|]. split; [by apply (same_log_slaves _ s)|by apply grows_log].
Qed.

Lemma reached_ok s : reached s -> repl_ok s.
Proof.
  induction 1 as [size offset id slave_of Hs|ev s s' _ IH Ha E].
  - split; cbn; [|done|constructor|constructor]. split; cbn; [done|lia|done].
  - destruct (rstep_ok ev s IH Ha) as (s1 & E1 & Hok1 & _). congruence.
Qed.

(** C12: As long as every PSYNC comes with a numeric offset (the example bad_offset_in_stream shows what happens otherwise) and a replica sends
    nothing but SYNC, PSYNC and REPLCONF ACK on its link, with arguments and numbers that fit their types: whatever else happens to a master (commands, the stream of its own master, replicas that come, acknowledge and go, dumps that
    succeed or fail, changes of the role and of the size of the backlog), what is queued for a replica that has or is
    getting its dump is exactly the stream from its first offset on, and a replica that waits for a dump waits for the one being made,
    which was started at the offset it was told.  Nothing that can happen next fails an assertion or
    leaves the buffer. *)
Theorem replica_stream s : reached s ->
  (forall c, c ∈ slaves s -> replstate c <> SLAVE_STATE_WAIT_BGSAVE_START ->
    base s < start c <= master_repl_offset s + 1 /\ wire (items c) = drop (Z.to_nat (start c - 1 - base s)) (history s) /\
    (replstate c = SLAVE_STATE_WAIT_BGSAVE_END -> start c = psync_initial_offset c + 1 /\ snd <$> rdb_child s = Some (psync_initial_offset c))) /\
  (forall ev, allowed ev s -> exists s', rstep ev s = Some s' /\ grows s s').
Proof.
  intros Hr. pose proof (reached_ok s Hr) as Hok. split.
  - intros c Hc Hst. destruct Hok as [Hl _ Hall _]. eapply Forall_forall in Hall as [H1 H2 H3 H4]; [|exact Hc]. destruct (H2 Hst) as [Ho Hw]. rewrite (log_offset s Hl).
    split_and!; [lia|lia|done|]. intros E. split; [by apply H4; left|by apply H3].
  - intros ev Ha. destruct (rstep_ok ev s Hok Ha) as (s' & E & _ & G). by exists s'.
Qed.

(** C13: A PSYNC with a numeric offset, of a client with nothing queued, continues the stream without a gap.  It is accepted exactly when the id is the present one, or the previous one and the
    offset is at most second_replid_offset, where that history ended, and the backlog exists and still holds the offset or ends right before it; the replica is then online, and, when the
    line can be written to it, what is queued for it is
    the stream from the offset it asked for on; otherwise nothing is changed and a full synchronization follows. *)
Theorem psync_correct e id off o c s : reached s -> items c = [] -> sid c ∉ sid <$> slaves s -> string2ll off = Some o ->
  exists s' c' accepted, masterTryPartialResynchronization e id off c s = Some (s', c', accepted) /\
    (accepted = true <->
       (strcaseeq id (replid s) = true \/ strcaseeq id (replid2 s) = true /\ o <= second_replid_offset s) /\
       backlog s <> None /\ backlog_off s <= o <= backlog_off s + backlog_histlen s) /\
    if accepted then
      same_log s s' /\ slaves s' = slaves s ++ [c'] /\ replstate c' = SLAVE_STATE_ONLINE /\
      (write_ok e (sid c) = true -> direct c' = direct c ++ continue_line s c /\ base s < o /\ wire (items c') = drop (Z.to_nat (o - 1 - base s)) (history s))
    else s' = s /\ c' = c.
Proof.
  intros Hr Hit Hsid Ho. destruct (psync_ok e id off o c s (reached_ok s Hr) Hit Hsid Ho) as (s' & c' & E & Hp). exists s', c', (id_matches s id o && in_backlog s o). split; [exact E|]. split.
  { unfold id_matches, in_backlog. rewrite !andb_true_iff, orb_true_iff, andb_true_iff, negb_true_iff, bool_decide_eq_false, !Z.leb_le. tauto. }
  destruct (id_matches s id o && in_backlog s o); [|done]. destruct Hp as (_ & H2 & H3 & _ & H5 & H6). do 3 (split; [done|]). intros Hw. by destruct (H6 Hw) as (_ & ? & ? & ?).
Qed.

(** ** A master with a small backlog *)

Module Demo.
Definition env : renv := mk_renv 100 (fun n => replicate (Z.to_nat n) 0) (replicate 40 97) (fun _ => true) (fun _ => true) (fun _ => Some 3) true true false true false 0 0 0 60 3600 false false.
Definition client (i : Z) : slave := mk_slave i 0 0 SLAVE_CAPA_PSYNC2 0 false 0 0 0 0 0 None [] [] 0.
Definition s0 : rserver := fresh_server 40 1000 (replicate 40 98) false.
Definition obj (x : string) : string_obj := ObjRaw (str x).
Definition full (i : Z) : revent := Sync env (str <$> ["PSYNC"; "?"; "-1"]) (client i).
Definition set1 : revent := Propagate 0 (obj <$> ["SET"; "a"; "1"]).
Definition next (ev : revent) (s : rserver) : rserver := default s (rstep ev s).
Definition s1 : rserver := next (full 1) s0.
Definition s2 : rserver := next set1 s1.
Definition s3 : rserver := next set1 s2.
(** The last SET, which is what a second replica asks for. *)
Definition last_set : list Z := encode (str <$> ["SET"; "a"; "1"]).

Lemma s3_reached : reached s3.
Proof.
  assert (env_ok env) as He by (intros n Hn; cbn; rewrite length_replicate; lia).
  assert (reached s0) as H0 by by constructor.
  assert (reached s1) as H1.
  { apply (reach_event (full 1) s0); [done| |vm_compute; reflexivity]. split_and!; [done|apply not_elem_of_nil|]. eexists _, _. split; [done|]. intros _. eexists _, _, (-1), _. by split. }
  assert (forall s, slaveseldb s = -1 \/ slaveseldb s = 0 -> allowed set1 s) as Hset.
  { intros s _. split_and!; [done| |done]. by repeat (constructor; [done|]). }
  assert (reached s2) as H2 by (apply (reach_event set1 s1); [done|apply Hset; by left|vm_compute; reflexivity]).
  apply (reach_event set1 s2); [done|apply Hset; by right|vm_compute; reflexivity].
Qed.

Lemma replica_stream_witness : exists c, slaves s3 = [c] /\ base s3 < start c <= master_repl_offset s3 + 1 /\
  wire (items c) = encode (str <$> ["SELECT"; "0"]) ++ last_set ++ last_set /\ forall ev, allowed ev s3 -> exists s', rstep ev s3 = Some s' /\ grows s3 s'.
Proof.
  destruct (replica_stream s3 s3_reached) as [Hc Hev]. destruct (slaves s3) as [|c [|]] eqn:E; [vm_compute in E; discriminate E| |vm_compute in E; discriminate E].
  assert (head (slaves s3) = Some c) as Hh by (by rewrite E). exists c. destruct (Hc c) as (H1 & H2 & _); [left| |].
  { vm_compute in Hh. injection Hh as <-. done. }
  split_and!; [done|apply H1|apply H1| |exact Hev]. rewrite H2. vm_compute in Hh. injection Hh as <-. vm_compute. reflexivity.
Defined.

(** A replica that lost the connection before the last command. *)
Lemma psync_correct_witness : exists s' c', masterTryPartialResynchronization env (replicate 40 97) (str "1051") (client 2) s3 = Some (s', c', true) /\
  length (slaves s') = 2%nat /\ wire (items c') = last_set.
Proof.
  destruct (psync_correct env (replicate 40 97) (str "1051") 1051 (client 2) s3 s3_reached) as (s' & c' & acc & E & Hacc & Hp); [done|apply (bool_decide_unpack _); vm_compute; exact I|vm_compute; reflexivity|].
  assert (acc = true) as -> by (apply Hacc; split; [left; vm_compute; reflexivity|split; [vm_compute; congruence|vm_compute; split; congruence]]). destruct Hp as (_ & Hs & _ & Hw).
  exists s', c'. split_and!; [exact E|rewrite Hs; vm_compute; reflexivity|]. destruct (Hw eq_refl) as (_ & _ & ->). vm_compute. reflexivity.
Defined.

(** A PSYNC whose offset is no number is answered with an error that stays in the buffer, so that it is sent to the replica, which
    was told of a full synchronization, as a part of the stream. *)
Example bad_offset_in_stream :
  let s := next set1 (next (Sync env (str <$> ["PSYNC"; "?"; "x"]) (client 1)) s0) in
  (fun c => (replstate c, wire (items c))) <$> slaves s =
    [(SLAVE_STATE_WAIT_BGSAVE_END, str "-ERR value is not an integer or out of range" ++ crlf ++ history s)].
Proof. vm_compute. reflexivity. Qed.
End Demo.
