(* ===== verification/Keyspace.v ===== *)
(** * The key space and string objects (src/redis-stable/src/db.c, object.c)

    A database maps keys to objects and keys to times of expiry.  Objects are counted references: the key
    space shares them with the arguments of commands and changes them in place when nobody else holds them, so the
    model has a heap of objects, and the databases and the argument vector hold addresses.  Operations are computations on
    that state; None is a failed assertion, a panic, an access to a freed object, a signed overflow or an allocation the system refuses.
    Access times, statistics and the cluster's index of keys are left out, and objects of the other types are opaque. *)
From stdpp Require Import prelude list gmap strings.
From Stdlib Require Import ZArith Lia.
From S2P Require Import Prelude Util SdsText Rio Rdb Reply Resp Aof.

Local Open Scope Z_scope.
Local Open Scope redis_scope.

(** ** State *)

(** A value of a module has the name of its module type. *)
Inductive obj_type := OBJ_STRING | OBJ_LIST | OBJ_SET | OBJ_ZSET | OBJ_HASH | OBJ_STREAM | OBJ_MODULE (name : string).
#[global] Instance obj_type_eq_dec : EqDecision obj_type.
Proof. solve_decision. Defined.
(** The contents of an object: a string in one of its encodings, or a value of another type. *)
Inductive value := VString (o : string_obj) | VOther (t : obj_type) (v : Z).
Record robj := mk_robj { val : value; refcount : Z }.
Definition type_of (v : value) : obj_type := match v with VString _ => OBJ_STRING | VOther t _ => t end.

Abbreviation key := (list Z).
(** A database whose values are of type V: addresses in the server. *)
Record redisDb (V : Type) := mk_db { dict : gmap key V; expires : gmap key Z }.
Arguments mk_db {V}.
Arguments dict {V}.
Arguments expires {V}.

(** What operations report to the rest of the server: the changes since the last save, the keys signalled as modified, the databases signalled
    as flushed, the notifications, the deletions of expired keys sent to replicas and the append only file, the keys signalled to blocked
    clients, and the keys with a time of expiry that were written on a replica. *)
Record report := mk_report {
  dirty : Z; signals : list (nat * key); flushed : list Z; events : list (string * key * nat); expirations : list (nat * key);
  ready : list (nat * key); slaveKeysWithExpire : gmap key Z }.
Definition with_dirty (n : Z) (r : report) : report := mk_report n (signals r) (flushed r) (events r) (expirations r) (ready r) (slaveKeysWithExpire r).
Definition add_signal (x : nat * key) (r : report) : report := mk_report (dirty r) (signals r ++ [x]) (flushed r) (events r) (expirations r) (ready r) (slaveKeysWithExpire r).
Definition add_flushed (x : Z) (r : report) : report := mk_report (dirty r) (signals r) (flushed r ++ [x]) (events r) (expirations r) (ready r) (slaveKeysWithExpire r).
Definition add_event (x : string * key * nat) (r : report) : report := mk_report (dirty r) (signals r) (flushed r) (events r ++ [x]) (expirations r) (ready r) (slaveKeysWithExpire r).
Definition add_expiration (x : nat * key) (r : report) : report := mk_report (dirty r) (signals r) (flushed r) (events r) (expirations r ++ [x]) (ready r) (slaveKeysWithExpire r).
Definition add_ready (x : nat * key) (r : report) : report := mk_report (dirty r) (signals r) (flushed r) (events r) (expirations r) (ready r ++ [x]) (slaveKeysWithExpire r).
Definition with_slave_keys (m : gmap key Z) (r : report) : report := mk_report (dirty r) (signals r) (flushed r) (events r) (expirations r) (ready r) m.

(** The heap and the next free address; server.db; the selected database, the arguments and the replies of the client whose command is executed. *)
Record ks := mk_ks {
  heap : gmap Z robj; next : Z; dbs : list (redisDb Z); seldb : nat; kargv : list Z; kreplies : list reply_item; rep : report }.
Definition with_heap (h : gmap Z robj) (n : Z) (s : ks) : ks := mk_ks h n (dbs s) (seldb s) (kargv s) (kreplies s) (rep s).
Definition with_dbs (l : list (redisDb Z)) (s : ks) : ks := mk_ks (heap s) (next s) l (seldb s) (kargv s) (kreplies s) (rep s).
Definition with_seldb (d : nat) (s : ks) : ks := mk_ks (heap s) (next s) (dbs s) d (kargv s) (kreplies s) (rep s).
Definition with_kargv (l : list Z) (s : ks) : ks := mk_ks (heap s) (next s) (dbs s) (seldb s) l (kreplies s) (rep s).
Definition with_kreplies (l : list reply_item) (s : ks) : ks := mk_ks (heap s) (next s) (dbs s) (seldb s) (kargv s) l (rep s).
Definition with_rep (r : report) (s : ks) : ks := mk_ks (heap s) (next s) (dbs s) (seldb s) (kargv s) (kreplies s) r.

(** The settings, the clock and the context of one command. *)
Record kenv := mk_kenv {
  k_master : bool;                 (* server.masterhost == NULL *)
  k_slave_ro : bool;
  k_loading : bool;
  k_lua_start : option Z;          (* server.lua_time_start when there is a lua_caller *)
  k_cached : Z;                    (* server.mstime, the time while a command is executed *)
  k_now : Z;                       (* mstime() *)
  k_later : Z;                     (* mstime() when it is called again *)
  k_logged : Z;                    (* mstime() when the command is written to the append only file *)
  k_current_master : bool;         (* server.current_client == server.master *)
  k_client_master : bool;          (* c->flags & CLIENT_MASTER *)
  k_readonly : bool;               (* c->cmd->flags & CMD_READONLY *)
  k_cmd_name : list Z;             (* c->cmd->name *)
  k_cluster : bool;
  k_lazy_expire : bool;            (* server.lazyfree_lazy_expire *)
  k_saveparams : bool;             (* server.saveparamslen > 0 *)
  k_blocking : nat -> list key;    (* the keys of blocking_keys of a database *)
  k_alloc : Z -> bool;             (* whether a string of that length can be allocated *)
  k_config : config;
}.

Definition K (A : Type) : Type := ks -> option (A * ks).
#[global] Instance K_ret : MRet K := fun A a s => Some (a, s).
#[global] Instance K_bind : MBind K := fun A B f m s => '(a, s) ← m s; f a s.
Definition change (f : ks -> ks) : K () := fun s => Some ((), f s).
Definition liftK {A} (o : option A) : K A := fun s => a ← o; Some (a, s).
Definition assertK (b : bool) : K () := fun s => if b then Some ((), s) else None.
Definition on_report (f : report -> report) : K () := change (fun s => with_rep (f (rep s)) s).
(** A loop with a value that each round updates. *)
Fixpoint for_each {A B} (f : A -> B -> K B) (l : list A) (b : B) : K B :=
  match l with [] => mret b | x :: l => b ← f x b; for_each f l b end.

(** ** Objects *)

(** shared.integers[v] is at the address - 1 - v, shared.del and shared.unlink at 0 and 1. *)
Definition shared_integer (v : Z) : Z := - 1 - v.
Definition shared_del : Z := 0.
Definition shared_unlink : Z := 1.
Definition OBJ_SHARED_REFCOUNT : Z := 2 ^ 31 - 1.
Definition obj_at (h : gmap Z robj) (a : Z) : option robj :=
  if a <? 0 then Some (mk_robj (VString (ObjInt true (- 1 - a))) OBJ_SHARED_REFCOUNT) else h !! a.
Definition get_obj (a : Z) : K robj := fun s => o ← obj_at (heap s) a; Some (o, s).
Definition set_obj (a : Z) (o : robj) : K () := change (fun s => with_heap (<[a := o]> (heap s)) (next s) s).

Definition createObject (v : value) : K Z := fun s => Some (next s, with_heap (<[next s := mk_robj v 1]> (heap s)) (next s + 1) s).
Definition incrRefCount (a : Z) : K () :=
  o ← get_obj a;
  if negb (refcount o =? OBJ_SHARED_REFCOUNT) then set_obj a (mk_robj (val o) (refcount o + 1)) else mret ().
Definition decrRefCount (a : Z) : K () :=
  o ← get_obj a;
  if refcount o =? 1 then change (fun s => with_heap (delete a (heap s)) (next s) s)
  else if refcount o <=? 0 then liftK None
  else if negb (refcount o =? OBJ_SHARED_REFCOUNT) then set_obj a (mk_robj (val o) (refcount o - 1)) else mret ().

(** The object described by createStringObject* : a shared integer when the description says so, a new object otherwise. *)
Definition store_string (o : string_obj) : K Z :=
  match o with ObjInt true v => incrRefCount (shared_integer v);; mret (shared_integer v) | _ => createObject (VString o) end.
(** serverAssert(o->type == OBJ_STRING) *)
Definition string_of (v : value) : option string_obj := match v with VString o => Some o | VOther _ _ => None end.
(** o->ptr of an object that is encoded as an sds *)
Definition sds_of (v : value) : option (list Z) := match v with VString (ObjRaw b) | VString (ObjEmbstr b) => Some b | _ => None end.
Definition is_embstr (o : string_obj) : bool := match o with ObjEmbstr _ => true | _ => false end.
Definition is_raw (o : string_obj) : bool := match o with ObjRaw _ => true | _ => false end.
Definition is_int (o : string_obj) : bool := match o with ObjInt _ _ => true | _ => false end.

Definition tryObjectEncoding (e : kenv) (a : Z) : K Z :=
  o ← get_obj a;
  so ← liftK (string_of (val o));
  match so with
  | ObjInt _ _ => mret a
  | ObjEmbstr s | ObjRaw s =>
    if 1 <? refcount o then mret a else
    match (if zlen s <=? 20 then string2l s else None) with
    | Some v =>
      if negb (no_shared_integers (k_config e)) && (0 <=? v) && (v <? OBJ_SHARED_INTEGERS) then
        decrRefCount a;; incrRefCount (shared_integer v);; mret (shared_integer v)
      else if is_raw so then set_obj a (mk_robj (VString (ObjInt false v)) (refcount o));; mret a
      else decrRefCount a;; n ← liftK (createStringObjectFromLongLongForValue (k_config e) v); store_string n
    | None =>
      if zlen s <=? OBJ_ENCODING_EMBSTR_SIZE_LIMIT then
        if is_embstr so then mret a else n ← createObject (VString (ObjEmbstr s)); decrRefCount a;; mret n
      else mret a
    end
  end.

Definition stringObjectLen (a : Z) : K Z :=
  o ← get_obj a;
  so ← liftK (string_of (val o));
  match so with ObjInt _ v => liftK (sdigits10 v) | ObjEmbstr s | ObjRaw s => mret (zlen s) end.

(** ** Replies and arguments *)

Definition replyK (i : reply_item) : K () := change (fun s => with_kreplies (kreplies s ++ [i]) s).
(** The shared objects that are replies. *)
Inductive shared_reply := Ok | Czero | Cone | Nullbulk | Emptybulk | Wrongtypeerr | Nokeyerr | Syntaxerr | Sameobjecterr | Outofrangeerr | Colon | Crlf.
Definition line (s : string) : list Z := str s ++ crlf.
Definition shared_text (r : shared_reply) : list Z :=
  match r with
  | Ok => line "+OK" | Czero => line ":0" | Cone => line ":1" | Nullbulk => line "$-1" | Emptybulk => line "$0" ++ crlf
  | Wrongtypeerr => line "-WRONGTYPE Operation against a key holding the wrong kind of value"
  | Nokeyerr => line "-ERR no such key" | Syntaxerr => line "-ERR syntax error"
  | Sameobjecterr => line "-ERR source and destination objects are the same"
  | Outofrangeerr => line "-ERR index out of range" | Colon => str ":" | Crlf => crlf
  end.
Definition shared_item (r : shared_reply) : reply_item := RObject (ObjRaw (shared_text r)).
Definition reply_shared (r : shared_reply) : K () := replyK (shared_item r).
Definition reply_integer (v : Z) : K () := replyK (RLongLong v).
Definition reply_error (s : string) : K () := replyK (RError (str s)).
(** addReplyBulk(c,o), addReply(c,o): the calls are recorded with the encoding of the object; what they queue, and that the length of the
    number -2^63 is computed with an overflow, is the matter of [Reply]. *)
Definition reply_bulk (a : Z) : K () := o ← get_obj a; so ← liftK (string_of (val o)); replyK (RBulk so).
Definition reply_object (a : Z) : K () := o ← get_obj a; so ← liftK (string_of (val o)); replyK (RObject so).

(** c->argv[i], and its characters. *)
Definition arg (i : nat) : K Z := fun s => a ← kargv s !! i; Some (a, s).
Definition arg_sds (i : nat) : K (list Z) := a ← arg i; o ← get_obj a; liftK (sds_of (val o)).
Definition argc : K nat := fun s => Some (length (kargv s), s).
(** c->argv[i] = tryObjectEncoding(c->argv[i]) *)
Definition encode_arg (e : kenv) (i : nat) : K Z :=
  a ← arg i; a ← tryObjectEncoding e a; change (fun s => with_kargv (<[i := a]> (kargv s)) s);; mret a.

(** None is C_ERR. *)
Definition getLongLongFromObject (o : option Z) : K (option Z) :=
  match o with
  | None => mret (Some 0)
  | Some a =>
    o ← get_obj a;
    so ← liftK (string_of (val o));
    mret (match so with ObjInt _ v => Some v | ObjEmbstr s | ObjRaw s => string2ll s end)
  end.
Definition getLongLongFromObjectOrReply (o : option Z) (msg : option string) : K (option Z) :=
  r ← getLongLongFromObject o;
  match r with Some v => mret (Some v) | None => reply_error (default "value is not an integer or out of range"%string msg);; mret None end.
Definition getLongFromObjectOrReply (o : option Z) (msg : option string) : K (option Z) :=
  r ← getLongLongFromObjectOrReply o msg;
  match r with
  | None => mret None
  | Some v => if (v <? LONG_MIN) || (LONG_MAX <? v) then reply_error (default "value is out of range"%string msg);; mret None else mret (Some v)
  end.
(** True when an error was sent. *)
Definition checkType (a : Z) (t : obj_type) : K bool :=
  o ← get_obj a;
  if bool_decide (type_of (val o) = t) then mret false else reply_shared Wrongtypeerr;; mret true.

(** The argument vector of a command that was read, and its release. *)
Fixpoint load_args (l : list (list Z)) : K () :=
  match l with
  | [] => mret ()
  | bs :: l => a ← store_string (createStringObject bs); change (fun s => with_kargv (kargv s ++ [a]) s);; load_args l
  end.
Fixpoint decr_all (l : list Z) : K () := match l with [] => mret () | a :: l => decrRefCount a;; decr_all l end.
Definition freeClientArgv : K () := fun s => (decr_all (kargv s);; change (with_kargv [])) s.
(** rewriteClientCommandVector(c,2,a,b) *)
Definition rewriteClientCommandVector (a b : Z) : K () :=
  incrRefCount a;; incrRefCount b;; (fun s => decr_all (kargv s) s);; change (with_kargv [a; b]).

(** ** The database *)

Definition get_db (d : nat) : K (redisDb Z) := fun s => db ← dbs s !! d; Some (db, s).
Definition set_db (d : nat) (db : redisDb Z) : K () := change (fun s => with_dbs (<[d := db]> (dbs s)) s).
Definition signalModifiedKey (d : nat) (k : key) : K () := on_report (add_signal (d, k)).
Definition signalFlushedDb (dbid : Z) : K () := on_report (add_flushed dbid).
Definition notifyKeyspaceEvent (ev : string) (k : key) (d : nat) : K () := on_report (add_event (ev, k, d)).
Definition add_dirty (n : Z) : K () := on_report (fun r => with_dirty (dirty r + n) r).
Definition propagateExpire (d : nat) (k : key) : K () := on_report (add_expiration (d, k)).
Definition signalKeyAsReady (d : nat) (k : key) : K () := on_report (add_ready (d, k)).

(** dbSyncDelete; dbAsyncDelete differs in who frees the value. *)
Definition dbDelete (d : nat) (k : key) : K bool :=
  db ← get_db d;
  match dict db !! k with
  | Some a => set_db d (mk_db (delete k (dict db)) (delete k (expires db)));; decrRefCount a;; mret true
  | None => set_db d (mk_db (dict db) (delete k (expires db)));; mret false
  end.

Definition getExpire (d : nat) (k : key) : K Z :=
  db ← get_db d;
  match expires db !! k with
  | None => mret (-1)
  | Some t => assertK (bool_decide (is_Some (dict db !! k)));; mret t
  end.
(** The time a command compares with. *)
Definition command_time (e : kenv) : Z := match k_lua_start e with Some t => t | None => k_cached e end.
Definition keyIsExpired (e : kenv) (d : nat) (k : key) : K bool :=
  when ← getExpire d k;
  mret (if when <? 0 then false else if k_loading e then false else when <? command_time e).
Definition expireIfNeeded (e : kenv) (d : nat) (k : key) : K bool :=
  b ← keyIsExpired e d k;
  if negb b then mret false
  else if negb (k_master e) then mret true
  else propagateExpire d k;; notifyKeyspaceEvent "expired" k d;; dbDelete d k.

Definition lookupKey (d : nat) (k : key) : K (option Z) := db ← get_db d; mret (dict db !! k).
Definition lookupKeyRead (e : kenv) (d : nat) (k : key) : K (option Z) :=
  b ← expireIfNeeded e d k;
  if b && (k_master e || (negb (k_current_master e) && k_readonly e)) then mret None else lookupKey d k.
Definition lookupKeyWrite (e : kenv) (d : nat) (k : key) : K (option Z) := expireIfNeeded e d k;; lookupKey d k.
Definition lookupKeyReadOrReply (e : kenv) (d : nat) (k : key) (r : shared_reply) : K (option Z) :=
  o ← lookupKeyRead e d k; match o with None => reply_shared r;; mret None | Some a => mret (Some a) end.
Definition lookupKeyWriteOrReply (e : kenv) (d : nat) (k : key) (r : shared_reply) : K (option Z) :=
  o ← lookupKeyWrite e d k; match o with None => reply_shared r;; mret None | Some a => mret (Some a) end.

Definition dbAdd (d : nat) (k : key) (a : Z) : K () :=
  db ← get_db d;
  assertK (bool_decide (dict db !! k = None));;
  set_db d (mk_db (<[k := a]> (dict db)) (expires db));;
  o ← get_obj a;
  if bool_decide (type_of (val o) = OBJ_LIST \/ type_of (val o) = OBJ_ZSET) then signalKeyAsReady d k else mret ().
Definition dbOverwrite (d : nat) (k : key) (a : Z) : K () :=
  db ← get_db d;
  old ← liftK (dict db !! k);
  set_db d (mk_db (<[k := a]> (dict db)) (expires db));;
  decrRefCount old.
Definition removeExpire (d : nat) (k : key) : K bool :=
  db ← get_db d;
  assertK (bool_decide (is_Some (dict db !! k)));;
  set_db d (mk_db (dict db) (delete k (expires db)));;
  mret (bool_decide (is_Some (expires db !! k))).
Definition rememberSlaveKeyWithExpire (d : nat) (k : key) : K () :=
  if 63 <? Z.of_nat d then mret () else
  on_report (fun r => with_slave_keys (<[k := Z.lor (default 0 (slaveKeysWithExpire r !! k)) (Z.shiftl 1 (Z.of_nat d))]> (slaveKeysWithExpire r)) r).
Definition setExpire (e : kenv) (d : nat) (k : key) (when : Z) : K () :=
  db ← get_db d;
  assertK (bool_decide (is_Some (dict db !! k)));;
  set_db d (mk_db (dict db) (<[k := when]> (expires db)));;
  if negb (k_master e) && negb (k_slave_ro e) && negb (k_client_master e) then rememberSlaveKeyWithExpire d k else mret ().
Definition setKey (e : kenv) (d : nat) (k : key) (a : Z) : K () :=
  o ← lookupKeyWrite e d k;
  match o with None => dbAdd d k a | Some _ => dbOverwrite d k a end;;
  incrRefCount a;;
  removeExpire d k;;
  signalModifiedKey d k.

Definition dbUnshareStringValue (d : nat) (k : key) (a : Z) : K Z :=
  o ← get_obj a;
  so ← liftK (string_of (val o));
  if negb (refcount o =? 1) || negb (is_raw so) then
    bs ← liftK (getDecodedObject so);
    n ← createObject (VString (ObjRaw bs));
    dbOverwrite d k n;;
    mret n
  else mret a.

(** dictEmpty of the two tables of a database: every value is released. *)
Definition empty_one (d : nat) : K Z :=
  db ← get_db d;
  set_db d (mk_db ∅ ∅);;
  decr_all (map_to_list (dict db)).*2;;
  mret (Z.of_nat (base.size (dict db))).
(** emptyDb of one database, and of all with None *)
Definition emptyDb (dbnum : option nat) : K Z := fun s =>
  (n ← for_each (fun d n => m ← empty_one d; mret (n + m)) (match dbnum with Some d => [d] | None => seq 0 (length (dbs s)) end) 0;
   (if bool_decide (dbnum = None) then on_report (with_slave_keys ∅) else mret ());;
   mret n) s.

(** selectDb; False is C_ERR. *)
Definition selectDb (id : Z) : K bool := fun s =>
  if (id <? 0) || (zlen (dbs s) <=? id) then Some (false, s) else Some (true, with_seldb (Z.to_nat id) s).
