(* ===== verification/KeyCommands.v ===== *)
(** * Commands on keys and strings (src/redis-stable/src/t_string.c, db.c, expire.c)

    The commands on strings but INCRBYFLOAT, the commands on keys of any type and the commands on times of expiry,
    each as the computation of its handler on the state of Keyspace, and the way one command of a client is executed:
    its arguments become objects, their number is checked against the command table (server.c), the handler runs and the arguments are released. *)
From stdpp Require Import prelude list gmap strings.
From Stdlib Require Import ZArith Lia.
From S2P Require Import Prelude Util SdsText Rio Rdb Reply Resp Aof Keyspace.

Local Open Scope Z_scope.
Local Open Scope redis_scope.

(** The selected database, c->db. *)
Definition cdb : K nat := fun s => Some (seldb s, s).
Definition notify (ev : string) (k : key) : K () := d ← cdb; notifyKeyspaceEvent ev k d.
Definition signal (k : key) : K () := d ← cdb; signalModifiedKey d k.

(** ** t_string.c *)

(** True is C_OK; the argument is a long long. *)
Definition checkStringLength (size : Z) : K bool :=
  if 512 * 1024 * 1024 <? size then reply_error "string exceeds maximum allowed size (512MB)";; mret false else mret true.

Definition OBJ_SET_NO_FLAGS : Z := 0.
Definition OBJ_SET_NX : Z := 2 ^ 0.
Definition OBJ_SET_XX : Z := 2 ^ 1.
Definition OBJ_SET_EX : Z := 2 ^ 2.
Definition OBJ_SET_PX : Z := 2 ^ 3.

(** The unit of times: true is UNIT_SECONDS.  Replies: None is NULL. *)
Definition set_time (e : kenv) (expire : option Z) (seconds : bool) : K (option Z) :=
  match expire with
  | None => mret (Some 0)
  | Some o =>
    v ← getLongLongFromObjectOrReply (Some o) None;
    match v with
    | None => mret None
    | Some ms =>
      if ms <=? 0 then replyK (RErrorFormat (str "invalid expire time in " ++ k_cmd_name e));; mret None
      else if seconds then ms ← liftK (ll_checked (ms * 1000)); mret (Some ms) else mret (Some ms)
    end
  end.
Definition setGenericCommand (e : kenv) (flags : Z) (k : key) (v : Z) (expire : option Z) (seconds : bool) (ok_reply abort_reply : shared_reply) : K () :=
  t ← set_time e expire seconds;
  match t with
  | None => mret ()
  | Some ms =>
    d ← cdb;
    found ← (if has flags OBJ_SET_NX then o ← lookupKeyWrite e d k; mret (bool_decide (is_Some o)) else mret false);
    missing ← (if (found : bool) then mret false else if has flags OBJ_SET_XX then o ← lookupKeyWrite e d k; mret (bool_decide (o = None)) else mret false);
    if found || missing then reply_shared abort_reply
    else
      setKey e d k v;;
      add_dirty 1;;
      (if bool_decide (is_Some expire) then when ← liftK (ll_checked (k_now e + ms)); setExpire e d k when else mret ());;
      notify "set" k;;
      (if bool_decide (is_Some expire) then notify "expire" k else mret ());;
      reply_shared ok_reply
  end.

(** a[0] and a[1] are the letters, in any case, and a[2] is the terminator. *)
Definition option_is (a : list Z) (l1 l2 : Z) : bool :=
  match a ++ [0] with x :: y :: z :: _ => (tolower x =? l1) && (tolower y =? l2) && (z =? 0) | _ => false end.
(** The options of SET from the argument j on: the flags, the unit and the index of the argument with the time. *)
Fixpoint set_options (l : list (list Z)) (j : nat) (flags : Z) (seconds : bool) (expire : option nat) : option (Z * bool * option nat) :=
  match l with
  | [] => Some (flags, seconds, expire)
  | a :: l =>
    if option_is a 110 120 && negb (has flags OBJ_SET_XX) then set_options l (S j) (Z.lor flags OBJ_SET_NX) seconds expire
    else if option_is a 120 120 && negb (has flags OBJ_SET_NX) then set_options l (S j) (Z.lor flags OBJ_SET_XX) seconds expire
    else match l with
    | [] => None
    | _ :: l =>
      if option_is a 101 120 && negb (has flags OBJ_SET_PX) then set_options l (S (S j)) (Z.lor flags OBJ_SET_EX) true (Some (S j))
      else if option_is a 112 120 && negb (has flags OBJ_SET_EX) then set_options l (S (S j)) (Z.lor flags OBJ_SET_PX) false (Some (S j))
      else None
    end
  end.
(** The characters of the arguments from i on. *)
Definition args_from (i : nat) : K (list (list Z)) := n ← argc; for_each (fun j l => bs ← arg_sds j; mret (l ++ [bs])) (seq i (n - i)) [].
Definition setCommand (e : kenv) : K () :=
  l ← args_from 3;
  match set_options l 3 OBJ_SET_NO_FLAGS true None with
  | None => reply_shared Syntaxerr
  | Some (flags, seconds, expire) =>
    t ← match expire with Some j => a ← arg j; mret (Some a) | None => mret None end;
    v ← encode_arg e 2;
    k ← arg_sds 1;
    setGenericCommand e flags k v t seconds Ok Nullbulk
  end.
Definition setnxCommand (e : kenv) : K () :=
  v ← encode_arg e 2; k ← arg_sds 1; setGenericCommand e OBJ_SET_NX k v None true Cone Czero.
Definition setexCommand (e : kenv) : K () :=
  v ← encode_arg e 3; k ← arg_sds 1; t ← arg 2; setGenericCommand e OBJ_SET_NO_FLAGS k v (Some t) true Ok Nullbulk.
Definition psetexCommand (e : kenv) : K () :=
  v ← encode_arg e 3; k ← arg_sds 1; t ← arg 2; setGenericCommand e OBJ_SET_NO_FLAGS k v (Some t) false Ok Nullbulk.

(** True is C_OK. *)
Definition getGenericCommand (e : kenv) : K bool :=
  d ← cdb;
  k ← arg_sds 1;
  o ← lookupKeyReadOrReply e d k Nullbulk;
  match o with
  | None => mret true
  | Some a =>
    o ← get_obj a;
    if negb (bool_decide (type_of (val o) = OBJ_STRING)) then reply_shared Wrongtypeerr;; mret false
    else reply_bulk a;; mret true
  end.
Definition getCommand (e : kenv) : K () := getGenericCommand e;; mret ().
Definition getsetCommand (e : kenv) : K () :=
  ok ← getGenericCommand e;
  if negb ok then mret () else
  v ← encode_arg e 2;
  d ← cdb;
  k ← arg_sds 1;
  setKey e d k v;;
  notify "set" k;;
  add_dirty 1.

(** sdsgrowzero(s,len), then memcpy(s+offset,value,sdslen(value)) *)
Definition grow_zero (s : list Z) (len : Z) : list Z := if len <=? zlen s then s else s ++ replicate (Z.to_nat (len - zlen s)) 0.
Definition setrangeCommand (e : kenv) : K () :=
  v ← arg_sds 3;
  a ← arg 2;
  offset ← getLongFromObjectOrReply (Some a) None;
  match offset with
  | None => mret ()
  | Some offset =>
    if offset <? 0 then reply_error "offset is out of range" else
    d ← cdb;
    k ← arg_sds 1;
    o ← lookupKeyWrite e d k;
    let len := u64 (offset + zlen v) in
    o ← match o with
        | None =>
          if zlen v =? 0 then reply_shared Czero;; mret None else
          ok ← checkStringLength (s64 len);
          if negb ok then mret None else
          assertK (k_alloc e len);;
          n ← createObject (VString (ObjRaw (replicate (Z.to_nat len) 0)));
          dbAdd d k n;;
          mret (Some n)
        | Some a =>
          b ← checkType a OBJ_STRING;
          if (b : bool) then mret None else
          olen ← stringObjectLen a;
          if zlen v =? 0 then reply_integer olen;; mret None else
          ok ← checkStringLength (s64 len);
          if negb ok then mret None else
          n ← dbUnshareStringValue d k a;
          mret (Some n)
        end;
    match o with
    | None => mret ()
    | Some a =>
      o ← get_obj a;
      s ← liftK (sds_of (val o));
      assertK ((len <=? zlen s) || k_alloc e len);;
      s ← liftK (mwrite (grow_zero s len) offset v);
      set_obj a (mk_robj (VString (ObjRaw s)) (refcount o));;
      signal k;;
      notify "setrange" k;;
      add_dirty 1;;
      reply_integer (zlen s)
    end
  end.

(** The part of a string that GETRANGE sends: None is an empty reply. *)
Definition range_of (s : list Z) (start end_ : Z) : option (list Z) :=
  let strlen := zlen s in
  if (start <? 0) && (end_ <? 0) && (end_ <? start) then None else
  let start := if start <? 0 then strlen + start else start in
  let end_ := if end_ <? 0 then strlen + end_ else end_ in
  let start := if start <? 0 then 0 else start in
  let end_ := if end_ <? 0 then 0 else end_ in
  let end_ := if strlen <=? end_ then strlen - 1 else end_ in
  if (end_ <? start) || (strlen =? 0) then None
  else Some (take (Z.to_nat (end_ - start + 1)) (drop (Z.to_nat start) s)).
Definition getrangeCommand (e : kenv) : K () :=
  a ← arg 2; start ← getLongLongFromObjectOrReply (Some a) None;
  match start with None => mret () | Some start =>
  a ← arg 3; end_ ← getLongLongFromObjectOrReply (Some a) None;
  match end_ with None => mret () | Some end_ =>
  d ← cdb; k ← arg_sds 1;
  o ← lookupKeyReadOrReply e d k Emptybulk;
  match o with None => mret () | Some a =>
  b ← checkType a OBJ_STRING;
  if (b : bool) then mret () else
  o ← get_obj a;
  so ← liftK (string_of (val o));
  s ← liftK (match so with ObjInt _ v => '(buf, n) ← ll2string (replicate 32 0) 32 v; Some (take (Z.to_nat n) buf) | ObjEmbstr s | ObjRaw s => Some s end);
  match range_of s start end_ with None => reply_shared Emptybulk | Some r => replyK (RBulkCBuffer r) end
  end end end.

(** Indices of the arguments from 1 on. *)
Definition arg_indices : K (list nat) := n ← argc; mret (seq 1 (n - 1)).
Definition mgetCommand (e : kenv) : K () :=
  n ← argc;
  replyK (RMultiBulkLen (Z.of_nat n - 1));;
  l ← arg_indices;
  for_each (fun j _ =>
    d ← cdb; k ← arg_sds j;
    o ← lookupKeyRead e d k;
    match o with
    | None => reply_shared Nullbulk
    | Some a => o ← get_obj a; if negb (bool_decide (type_of (val o) = OBJ_STRING)) then reply_shared Nullbulk else reply_bulk a
    end) l ().

(** The arguments j, j + 2, ..., one for each pair *)
Fixpoint pairs_exist (e : kenv) (n j : nat) : K bool :=
  match n with
  | O => mret false
  | S n => d ← cdb; k ← arg_sds j; o ← lookupKeyWrite e d k; if bool_decide (is_Some o) then mret true else pairs_exist e n (j + 2)
  end.
Fixpoint set_pairs (e : kenv) (n j : nat) : K () :=
  match n with
  | O => mret ()
  | S n => v ← encode_arg e (j + 1); d ← cdb; k ← arg_sds j; setKey e d k v;; notify "set" k;; set_pairs e n (j + 2)
  end.
Definition msetGenericCommand (e : kenv) (nx : bool) : K () :=
  n ← argc;
  if (Nat.modulo n 2 =? 0)%nat then reply_error "wrong number of arguments for MSET" else
  found ← (if nx then pairs_exist e (Nat.div n 2) 1 else mret false);
  if (found : bool) then reply_shared Czero else
  set_pairs e (Nat.div n 2) 1;;
  add_dirty ((Z.of_nat n - 1) / 2);;
  reply_shared (if nx then Cone else Ok).

Definition incrDecrCommand (e : kenv) (incr : Z) : K () :=
  d ← cdb;
  k ← arg_sds 1;
  o ← lookupKeyWrite e d k;
  b ← match o with Some a => checkType a OBJ_STRING | None => mret false end;
  if (b : bool) then mret () else
  v ← getLongLongFromObjectOrReply o None;
  match v with
  | None => mret ()
  | Some oldvalue =>
    if (incr <? 0) && (oldvalue <? 0) && (incr <? LLONG_MIN - oldvalue) || (0 <? incr) && (0 <? oldvalue) && (LLONG_MAX - oldvalue <? incr)
    then reply_error "increment or decrement would overflow" else
    value ← liftK (ll_checked (oldvalue + incr));
    inplace ← match o with
      | Some a => ob ← get_obj a; so ← liftK (string_of (val ob));
        mret ((refcount ob =? 1) && is_int so && ((value <? 0) || (OBJ_SHARED_INTEGERS <=? value)) && (LONG_MIN <=? value) && (value <=? LONG_MAX))
      | None => mret false
      end;
    new ← match o with
      | Some a =>
        if (inplace : bool) then ob ← get_obj a; set_obj a (mk_robj (VString (ObjInt false value)) (refcount ob));; mret a
        else n ← liftK (createStringObjectFromLongLongForValue (k_config e) value); n ← store_string n; dbOverwrite d k n;; mret n
      | None => n ← liftK (createStringObjectFromLongLongForValue (k_config e) value); n ← store_string n; dbAdd d k n;; mret n
      end;
    signal k;;
    notify "incrby" k;;
    add_dirty 1;;
    reply_shared Colon;; reply_object new;; reply_shared Crlf
  end.
Definition incrbyCommand (e : kenv) : K () :=
  a ← arg 2; v ← getLongLongFromObjectOrReply (Some a) None;
  match v with None => mret () | Some incr => incrDecrCommand e incr end.
Definition decrbyCommand (e : kenv) : K () :=
  a ← arg 2; v ← getLongLongFromObjectOrReply (Some a) None;
  match v with None => mret () | Some incr => incr ← liftK (ll_checked (- incr)); incrDecrCommand e incr end.

Definition appendCommand (e : kenv) : K () :=
  d ← cdb;
  k ← arg_sds 1;
  o ← lookupKeyWrite e d k;
  totlen ← match o with
    | None => v ← encode_arg e 2; dbAdd d k v;; incrRefCount v;; n ← stringObjectLen v; mret (Some n)
    | Some a =>
      b ← checkType a OBJ_STRING;
      if (b : bool) then mret None else
      append ← arg_sds 2;
      n ← stringObjectLen a;
      ok ← checkStringLength (s64 (u64 (n + zlen append)));
      if negb ok then mret None else
      a ← dbUnshareStringValue d k a;
      o ← get_obj a;
      s ← liftK (sds_of (val o));
      assertK (k_alloc e (zlen s + zlen append));;
      set_obj a (mk_robj (VString (ObjRaw (s ++ append))) (refcount o));;
      mret (Some (zlen (s ++ append)))
    end;
  match totlen with
  | None => mret ()
  | Some n => signal k;; notify "append" k;; add_dirty 1;; reply_integer n
  end.
Definition strlenCommand (e : kenv) : K () :=
  d ← cdb; k ← arg_sds 1;
  o ← lookupKeyReadOrReply e d k Czero;
  match o with None => mret () | Some a =>
  b ← checkType a OBJ_STRING;
  if (b : bool) then mret () else n ← stringObjectLen a; reply_integer n
  end.

(** ** db.c *)

(** False is C_ERR. *)
Definition getFlushCommandFlags : K bool :=
  n ← argc;
  if (1 <? n)%nat then
    bad ← (if (2 <? n)%nat then mret true else a ← arg_sds 1; mret (negb (strcaseeq (c_string a) (str "async"))));
    if (bad : bool) then reply_shared Syntaxerr;; mret false else mret true
  else mret true.
Definition flushdbCommand : K () :=
  ok ← getFlushCommandFlags;
  if negb ok then mret () else
  d ← cdb; signalFlushedDb (Z.of_nat d);; n ← emptyDb (Some d); add_dirty n;; reply_shared Ok.
(** The synchronous save restores server.dirty from an int. *)
Definition flushallCommand (e : kenv) : K () :=
  ok ← getFlushCommandFlags;
  if negb ok then mret () else
  signalFlushedDb (-1);; n ← emptyDb None; add_dirty n;; reply_shared Ok;;
  (if k_saveparams e then on_report (fun r => with_dirty (s32 (dirty r)) r) else mret ());;
  add_dirty 1.
(** DEL and UNLINK *)
Definition delGenericCommand (e : kenv) : K () :=
  l ← arg_indices;
  numdel ← for_each (fun j numdel =>
    d ← cdb; k ← arg_sds j;
    expireIfNeeded e d k;;
    deleted ← dbDelete d k;
    if (deleted : bool) then signalModifiedKey d k;; notifyKeyspaceEvent "del" k d;; add_dirty 1;; mret (numdel + 1) else mret numdel) l 0;
  reply_integer numdel.
(** EXISTS and TOUCH *)
Definition existsCommand (e : kenv) : K () :=
  l ← arg_indices;
  count ← for_each (fun j count => d ← cdb; k ← arg_sds j; o ← lookupKeyRead e d k; mret (if bool_decide (is_Some o) then count + 1 else count)) l 0;
  reply_integer count.
Definition selectCommand (e : kenv) : K () :=
  a ← arg 1; id ← getLongFromObjectOrReply (Some a) (Some "invalid DB index"%string);
  match id with
  | None => mret ()
  | Some id =>
    if k_cluster e && negb (id =? 0) then reply_error "SELECT is not allowed in cluster mode" else
    ok ← selectDb (s32 id);
    if negb ok then reply_error "DB index is out of range" else reply_shared Ok
  end.
Definition dbsizeCommand : K () := d ← cdb; db ← get_db d; reply_integer (Z.of_nat (base.size (dict db))).
(** The name of a module's type is not modelled. *)
Definition type_name (t : obj_type) : string :=
  match t with OBJ_STRING => "string" | OBJ_LIST => "list" | OBJ_SET => "set" | OBJ_ZSET => "zset" | OBJ_HASH => "hash" | OBJ_STREAM => "stream" | OBJ_MODULE name => name end.
Definition typeCommand (e : kenv) : K () :=
  d ← cdb; k ← arg_sds 1; o ← lookupKeyRead e d k;
  match o with None => replyK (RStatus (str "none")) | Some a => o ← get_obj a; replyK (RStatus (str (type_name (type_of (val o))))) end.
Definition renameGenericCommand (e : kenv) (nx : bool) : K () :=
  d ← cdb; k1 ← arg_sds 1; k2 ← arg_sds 2;
  o ← lookupKeyWriteOrReply e d k1 Nokeyerr;
  match o with
  | None => mret ()
  | Some o =>
    if bool_decide (k1 = k2) then reply_shared (if nx then Czero else Ok) else
    incrRefCount o;;
    expire ← getExpire d k1;
    found ← lookupKeyWrite e d k2;
    if bool_decide (is_Some found) && nx then decrRefCount o;; reply_shared Czero else
    (if bool_decide (is_Some found) then dbDelete d k2;; mret () else mret ());;
    dbAdd d k2 o;;
    (if negb (expire =? -1) then setExpire e d k2 expire else mret ());;
    dbDelete d k1;;
    signalModifiedKey d k1;; signalModifiedKey d k2;;
    notifyKeyspaceEvent "rename_from" k1 d;; notifyKeyspaceEvent "rename_to" k2 d;;
    add_dirty 1;;
    reply_shared (if nx then Cone else Ok)
  end.
Definition INT_MIN : Z := - 2 ^ 31.
Definition INT_MAX : Z := 2 ^ 31 - 1.
Definition moveCommand (e : kenv) : K () :=
  if k_cluster e then reply_error "MOVE is not allowed in cluster mode" else
  src ← cdb;
  a ← arg 2; id ← getLongLongFromObject (Some a);
  ok ← match id with Some dbid => if (dbid <? INT_MIN) || (INT_MAX <? dbid) then mret false else selectDb dbid | None => mret false end;
  if negb ok then reply_shared Outofrangeerr else
  dst ← cdb;
  selectDb (Z.of_nat src);;
  if bool_decide (src = dst) then reply_shared Sameobjecterr else
  k ← arg_sds 1;
  o ← lookupKeyWrite e src k;
  match o with
  | None => reply_shared Czero
  | Some o =>
    expire ← getExpire src k;
    found ← lookupKeyWrite e dst k;
    if bool_decide (is_Some found) then reply_shared Czero else
    dbAdd dst k o;;
    (if negb (expire =? -1) then setExpire e dst k expire else mret ());;
    incrRefCount o;;
    dbDelete src k;;
    add_dirty 1;;
    reply_shared Cone
  end.
Definition scanDatabaseForReadyLists (e : kenv) (d : nat) : K () :=
  for_each (fun k _ =>
    o ← lookupKey d k;
    match o with
    | None => mret ()
    | Some a => o ← get_obj a; if bool_decide (type_of (val o) ∈ [OBJ_LIST; OBJ_STREAM; OBJ_ZSET]) then signalKeyAsReady d k else mret ()
    end) (k_blocking e d) ().
(** False is C_ERR. *)
Definition dbSwapDatabases (e : kenv) (id1 id2 : Z) : K bool := fun s =>
  let dbnum := zlen (dbs s) in
  if (id1 <? 0) || (dbnum <=? id1) || (id2 <? 0) || (dbnum <=? id2) then Some (false, s)
  else if id1 =? id2 then Some (true, s)
  else
    let d1 := Z.to_nat id1 in let d2 := Z.to_nat id2 in
    (db1 ← get_db d1; db2 ← get_db d2; set_db d1 db2;; set_db d2 db1;; scanDatabaseForReadyLists e d1;; scanDatabaseForReadyLists e d2;; mret true) s.
Definition swapdbCommand (e : kenv) : K () :=
  if k_cluster e then reply_error "SWAPDB is not allowed in cluster mode" else
  a ← arg 1; id1 ← getLongFromObjectOrReply (Some a) (Some "invalid first DB index"%string);
  match id1 with None => mret () | Some id1 =>
  a ← arg 2; id2 ← getLongFromObjectOrReply (Some a) (Some "invalid second DB index"%string);
  match id2 with None => mret () | Some id2 =>
  ok ← dbSwapDatabases e (s32 id1) (s32 id2);
  if negb ok then reply_error "DB index is out of range" else add_dirty 1;; reply_shared Ok
  end end.

(** ** expire.c *)

(** Tries to expire a key of the table of times, with the time of the cycle. *)
Definition activeExpireCycleTryExpire (d : nat) (k : key) (now : Z) : K bool :=
  db ← get_db d;
  t ← liftK (expires db !! k);
  if t <? now then propagateExpire d k;; dbDelete d k;; notifyKeyspaceEvent "expired" k d;; mret true else mret false.

Definition expireGenericCommand (e : kenv) (basetime : Z) (seconds : bool) : K () :=
  key ← arg 1; param ← arg 2;
  v ← getLongLongFromObjectOrReply (Some param) None;
  match v with
  | None => mret ()
  | Some when =>
    when ← (if seconds then liftK (ll_checked (when * 1000)) else mret when);
    when ← liftK (ll_checked (when + basetime));
    d ← cdb; k ← arg_sds 1;
    o ← lookupKeyWrite e d k;
    if bool_decide (o = None) then reply_shared Czero else
    if (when <=? k_later e) && negb (k_loading e) && k_master e then
      deleted ← dbDelete d k;
      assertK deleted;;
      add_dirty 1;;
      rewriteClientCommandVector (if k_lazy_expire e then shared_unlink else shared_del) key;;
      signalModifiedKey d k;;
      notifyKeyspaceEvent "del" k d;;
      reply_shared Cone
    else
      setExpire e d k when;;
      reply_shared Cone;;
      signalModifiedKey d k;;
      notifyKeyspaceEvent "expire" k d;;
      add_dirty 1
  end.
Definition ttlGenericCommand (e : kenv) (output_ms : bool) : K () :=
  d ← cdb; k ← arg_sds 1;
  o ← lookupKeyRead e d k;
  if bool_decide (o = None) then reply_integer (-2) else
  expire ← getExpire d k;
  ttl ← (if negb (expire =? -1) then ttl ← liftK (ll_checked (expire - k_now e)); mret (if ttl <? 0 then 0 else ttl) else mret (-1));
  if ttl =? -1 then reply_integer (-1)
  else if output_ms then reply_integer ttl
  else ttl ← liftK (ll_checked (ttl + 500)); reply_integer (Z.quot ttl 1000).
Definition persistCommand (e : kenv) : K () :=
  d ← cdb; k ← arg_sds 1;
  o ← lookupKeyWrite e d k;
  if bool_decide (is_Some o) then
    b ← removeExpire d k;
    if (b : bool) then reply_shared Cone;; add_dirty 1 else reply_shared Czero
  else reply_shared Czero.

(** ** Execution of a command *)

Inductive kcmd :=
  | GET | SET | SETNX | SETEX | PSETEX | GETSET | SETRANGE | GETRANGE | MGET | MSET | MSETNX | INCR | DECR | INCRBY | DECRBY | APPEND | STRLEN
  | DEL | UNLINK | EXISTS | TOUCH | SELECT | FLUSHDB | FLUSHALL | DBSIZE | TYPE | RENAME | RENAMENX | MOVE | SWAPDB
  | EXPIRE | EXPIREAT | PEXPIRE | PEXPIREAT | TTL | PTTL | PERSIST.
Definition exec (e : kenv) (c : kcmd) : K () :=
  match c with
  | GET => getCommand e | SET => setCommand e | SETNX => setnxCommand e | SETEX => setexCommand e | PSETEX => psetexCommand e
  | GETSET => getsetCommand e | SETRANGE => setrangeCommand e | GETRANGE => getrangeCommand e | MGET => mgetCommand e
  | MSET => msetGenericCommand e false | MSETNX => msetGenericCommand e true
  | INCR => incrDecrCommand e 1 | DECR => incrDecrCommand e (-1) | INCRBY => incrbyCommand e | DECRBY => decrbyCommand e
  | APPEND => appendCommand e | STRLEN => strlenCommand e
  | DEL | UNLINK => delGenericCommand e | EXISTS | TOUCH => existsCommand e | SELECT => selectCommand e
  | FLUSHDB => flushdbCommand | FLUSHALL => flushallCommand e | DBSIZE => dbsizeCommand | TYPE => typeCommand e
  | RENAME => renameGenericCommand e false | RENAMENX => renameGenericCommand e true | MOVE => moveCommand e | SWAPDB => swapdbCommand e
  | EXPIRE => expireGenericCommand e (k_now e) true | EXPIREAT => expireGenericCommand e 0 true
  | PEXPIRE => expireGenericCommand e (k_now e) false | PEXPIREAT => expireGenericCommand e 0 false
  | TTL => ttlGenericCommand e false | PTTL => ttlGenericCommand e true | PERSIST => persistCommand e
  end.

(** The command table: the number of arguments, at least that many when it is negative. *)
Definition table_arity (c : kcmd) : Z :=
  match c with
  | FLUSHDB | FLUSHALL => -1 | DEL | UNLINK | EXISTS | TOUCH | MGET => -2 | SET | MSET | MSETNX => -3
  | DBSIZE => 1 | GET | STRLEN | INCR | DECR | SELECT | TYPE | TTL | PTTL | PERSIST => 2
  | SETNX | APPEND | INCRBY | DECRBY | GETSET | SWAPDB | MOVE | RENAME | RENAMENX | EXPIRE | EXPIREAT | PEXPIRE | PEXPIREAT => 3
  | SETEX | PSETEX | SETRANGE | GETRANGE => 4
  end.
Definition arity_ok (c : kcmd) (n : nat) : bool :=
  negb ((0 <? table_arity c) && negb (table_arity c =? Z.of_nat n)) && negb (Z.of_nat n <? - table_arity c).

(** What happens to the server: a command with its arguments, the first of which is its name; a client with another selected
    database is served; the periodic expiry tries a key; a command of another data type, or a dump that is loaded, creates a key that is missing. *)
Inductive kevent :=
  | Command (e : kenv) (c : kcmd) (args : list (list Z))
  | Client (d : nat)
  | Cycle (d : nat) (k : key) (now : Z)
  | Create (d : nat) (k : key) (ty : obj_type) (v : Z).
Definition kstep (ev : kevent) : K () :=
  match ev with
  | Command e c args =>
    load_args args;;
    (if arity_ok c (length args) then exec e c
     else replyK (RErrorFormat (str "wrong number of arguments for '" ++ k_cmd_name e ++ str "' command")));;
    freeClientArgv
  | Client d => fun s => if (d <? length (dbs s))%nat then Some ((), with_seldb d s) else None
  | Cycle d k now => fun s =>
    match dbs s !! d with Some db => if bool_decide (is_Some (expires db !! k)) then (activeExpireCycleTryExpire d k now;; mret ()) s else Some ((), s) | None => Some ((), s) end
  | Create d k ty v => fun s =>
    match dbs s !! d with
    | Some db => if bool_decide (dict db !! k = None) && negb (bool_decide (ty = OBJ_STRING)) then (a ← createObject (VOther ty v); dbAdd d k a) s else Some ((), s)
    | None => Some ((), s)
    end
  end.
Fixpoint krun (l : list kevent) : K () := match l with [] => mret () | ev :: l => kstep ev;; krun l end.

(** A server that starts: the shared objects, and empty databases. *)
Definition start_heap : gmap Z robj := <[shared_del := mk_robj (VString (ObjEmbstr (str "DEL"))) 1]> {[shared_unlink := mk_robj (VString (ObjEmbstr (str "UNLINK"))) 1]}.
Definition start_report : report := mk_report 0 [] [] [] [] [] ∅.
Definition kstart (dbnum : nat) : ks := mk_ks start_heap 2 (replicate dbnum (mk_db ∅ ∅)) 0 [] [] start_report.
