(* ===== verification/KeyspaceAbs.v ===== *)
(** * The key space as maps of values

    What the commands of KeyCommands do, without objects: a database maps keys to byte strings or opaque values and to times of expiry.
    No sharing, encoding or counting of references is left, a command first removes the key it names when its time is over, and then is a case distinction on the value of the key.
    None is left where the handlers compute a signed number that does not fit or a string cannot be allocated. *)
From stdpp Require Import prelude list gmap strings.
From Stdlib Require Import ZArith Lia.
From S2P Require Import Prelude Util SdsText Rio Rdb Reply Resp Aof Keyspace KeyCommands.

Local Open Scope Z_scope.
Local Open Scope redis_scope.

(** ** State *)

Inductive aval := AString (bs : list Z) | AOther (t : obj_type) (v : Z).
#[global] Instance aval_eq_dec : EqDecision aval.
Proof. solve_decision. Defined.
Definition atype (v : aval) : obj_type := match v with AString _ => OBJ_STRING | AOther t _ => t end.
Abbreviation adb := (redisDb aval).
Record ast := mk_ast { adbs : list adb; asel : nat; aargs : list (list Z); areplies : list reply_item; arep : report }.
Definition with_adbs (l : list adb) (t : ast) : ast := mk_ast l (asel t) (aargs t) (areplies t) (arep t).
Definition with_asel (d : nat) (t : ast) : ast := mk_ast (adbs t) d (aargs t) (areplies t) (arep t).
Definition with_aargs (l : list (list Z)) (t : ast) : ast := mk_ast (adbs t) (asel t) l (areplies t) (arep t).
Definition say (i : reply_item) (t : ast) : ast := mk_ast (adbs t) (asel t) (aargs t) (areplies t ++ [i]) (arep t).
Definition log (f : report -> report) (t : ast) : ast := mk_ast (adbs t) (asel t) (aargs t) (areplies t) (f (arep t)).

Definition the_db (d : nat) (t : ast) : adb := default (mk_db ∅ ∅) (adbs t !! d).
Definition on_db (d : nat) (f : adb -> adb) (t : ast) : ast := with_adbs (alter f d (adbs t)) t.
Definition value_of (d : nat) (k : key) (t : ast) : option aval := dict (the_db d t) !! k.
Definition expiry_of (d : nat) (k : key) (t : ast) : option Z := expires (the_db d t) !! k.
Definition store (d : nat) (k : key) (v : aval) : ast -> ast := on_db d (fun db => mk_db (<[k := v]> (dict db)) (expires db)).
Definition clear_expiry (d : nat) (k : key) : ast -> ast := on_db d (fun db => mk_db (dict db) (delete k (expires db))).
Definition drop_key (d : nat) (k : key) : ast -> ast := on_db d (fun db => mk_db (delete k (dict db)) (delete k (expires db))).
Definition shared (r : shared_reply) : ast -> ast := say (shared_item r).
Definition failed (s : string) : ast -> ast := say (RError (str s)).
Definition changed (n : Z) : ast -> ast := log (fun r => with_dirty (dirty r + n) r).
Definition touched (d : nat) (k : key) : ast -> ast := log (add_signal (d, k)).
Definition notified (ev : string) (k : key) (d : nat) : ast -> ast := log (add_event (ev, k, d)).

(** ** Expiry *)

Definition expired (e : kenv) (d : nat) (k : key) (t : ast) : bool :=
  match expiry_of d k t with Some w => (0 <=? w) && negb (k_loading e) && (w <? command_time e) | None => false end.
(** A master removes the key. *)
Definition purge (e : kenv) (d : nat) (k : key) (t : ast) : ast :=
  if expired e d k t && k_master e then drop_key d k (notified "expired" k d (log (add_expiration (d, k)) t)) else t.
(** The value a command that reads sees: a replica hides what is expired from its clients. *)
Definition visible (e : kenv) (d : nat) (k : key) (t : ast) : option aval :=
  if expired e d k t && (k_master e || (negb (k_current_master e) && k_readonly e)) then None else value_of d k t.
(** The new time of a key, which a writable replica remembers. *)
Definition expire_at (e : kenv) (d : nat) (k : key) (w : Z) (t : ast) : ast :=
  let t := on_db d (fun db => mk_db (dict db) (<[k := w]> (expires db))) t in
  if negb (k_master e) && negb (k_slave_ro e) && negb (k_client_master e) && (Z.of_nat d <=? 63)
  then log (fun r => with_slave_keys (<[k := Z.lor (default 0 (slaveKeysWithExpire r !! k)) (Z.shiftl 1 (Z.of_nat d))]> (slaveKeysWithExpire r)) r) t else t.
(** The time as commands see it: -1 also stands for none. *)
Definition expiry_or (d : nat) (k : key) (t : ast) : Z := default (-1) (expiry_of d k t).

(** ** Commands *)

Definition karg (i : nat) (t : ast) : list Z := default [] (aargs t !! i).
Definition not_integer : string := "value is not an integer or out of range".

(** The value replaces the old one, and the key has no time of expiry. *)
Definition replace (e : kenv) (d : nat) (k : key) (v : aval) (t : ast) : ast := touched d k (clear_expiry d k (store d k v (purge e d k t))).

(** The length of time in milliseconds, or the error. *)
Definition time_arg (e : kenv) (expire : option (list Z)) (seconds : bool) : option (Z + reply_item) :=
  match expire with
  | None => Some (inl 0)
  | Some bs =>
    match string2ll bs with
    | None => Some (inr (RError (str not_integer)))
    | Some ms =>
      if ms <=? 0 then Some (inr (RErrorFormat (str "invalid expire time in " ++ k_cmd_name e)))
      else if seconds then inl <$> ll_checked (ms * 1000) else Some (inl ms)
    end
  end.
Definition aset (e : kenv) (flags : Z) (k v : list Z) (expire : option (list Z)) (seconds : bool) (ok_reply abort_reply : shared_reply) (t : ast) : option ast :=
  ms ← time_arg e expire seconds;
  match ms with
  | inr err => Some (say err t)
  | inl ms =>
    let d := asel t in
    let there := bool_decide (is_Some (value_of d k (purge e d k t))) in
    if has flags OBJ_SET_NX && there || has flags OBJ_SET_XX && negb there then Some (shared abort_reply (purge e d k t))
    else
      let t := changed 1 (replace e d k (AString v) t) in
      match expire with
      | None => Some (shared ok_reply (notified "set" k d t))
      | Some _ => when ← ll_checked (k_now e + ms); Some (shared ok_reply (notified "expire" k d (notified "set" k d (expire_at e d k when t))))
      end
  end.
Definition aSET (e : kenv) (t : ast) : option ast :=
  match set_options (drop 3 (aargs t)) 3 OBJ_SET_NO_FLAGS true None with
  | None => Some (shared Syntaxerr t)
  | Some (flags, seconds, expire) => aset e flags (karg 1 t) (karg 2 t) ((fun j => karg j t) <$> expire) seconds Ok Nullbulk t
  end.

(** The reply to GET. *)
Definition get_reply (v : option aval) : reply_item :=
  match v with None => shared_item Nullbulk | Some (AString s) => RBulk (ObjRaw s) | Some (AOther _ _) => shared_item Wrongtypeerr end.
Definition is_other (v : option aval) : bool := match v with Some (AOther _ _) => true | _ => false end.
Definition aget (e : kenv) (t : ast) : ast :=
  let d := asel t in let k := karg 1 t in say (get_reply (visible e d k t)) (purge e d k t).
Definition agetset (e : kenv) (t : ast) : ast :=
  let d := asel t in let k := karg 1 t in
  if is_other (visible e d k t) then aget e t
  else changed 1 (notified "set" k d (replace e d k (AString (karg 2 t)) (aget e t))).

(** The bytes of v at the offset, after the old bytes and zeros where there were none. *)
Definition overwrite_at (old : list Z) (offset : Z) (v : list Z) : list Z :=
  let o := Z.to_nat offset in take o (old ++ replicate (o - length old) 0) ++ v ++ drop (o + length v) old.
(** Strings that are too long are refused by a comparison of long longs. *)
Definition too_long (n : Z) : bool := 512 * 1024 * 1024 <? s64 (u64 n).
Definition asetrange (e : kenv) (t : ast) : option ast :=
  match string2ll (karg 2 t) with
  | None => Some (failed not_integer t)
  | Some offset =>
    if offset <? 0 then Some (failed "offset is out of range" t) else
    let d := asel t in let k := karg 1 t in let v := karg 3 t in
    let t := purge e d k t in
    match value_of d k t with
    | Some (AOther _ _) => Some (shared Wrongtypeerr t)
    | o =>
      let old := match o with Some (AString s) => s | _ => [] end in
      if bool_decide (v = []) then Some (say (RLongLong (zlen old)) t)
      else if too_long (offset + zlen v) then Some (failed "string exceeds maximum allowed size (512MB)" t)
      else if (bool_decide (o = None) || (zlen old <? u64 (offset + zlen v))) && negb (k_alloc e (u64 (offset + zlen v))) then None
      else if Z.max (zlen old) (u64 (offset + zlen v)) <? offset + zlen v then None
      else
        let s := overwrite_at old offset v in
        Some (say (RLongLong (zlen s)) (changed 1 (notified "setrange" k d (touched d k (store d k (AString s) t)))))
    end
  end.
Definition agetrange (e : kenv) (t : ast) : ast :=
  match string2ll (karg 2 t), string2ll (karg 3 t) with
  | Some start, Some end_ =>
    let d := asel t in let k := karg 1 t in
    say (match visible e d k t with
         | None => shared_item Emptybulk
         | Some (AOther _ _) => shared_item Wrongtypeerr
         | Some (AString s) => match range_of s start end_ with None => shared_item Emptybulk | Some r => RBulkCBuffer r end
         end) (purge e d k t)
  | _, _ => failed not_integer t
  end.
Definition amget (e : kenv) (t : ast) : ast :=
  let d := asel t in
  foldl (fun t k => say (match visible e d k t with Some (AString s) => RBulk (ObjRaw s) | _ => shared_item Nullbulk end) (purge e d k t))
    (say (RMultiBulkLen (zlen (tail (aargs t)))) t) (tail (aargs t)).

Fixpoint pairs (l : list (list Z)) : list (list Z * list Z) := match l with k :: v :: l => (k, v) :: pairs l | _ => [] end.
(** The keys are tried in turn until one exists. *)
Fixpoint any_there (e : kenv) (d : nat) (l : list key) (t : ast) : bool * ast :=
  match l with
  | [] => (false, t)
  | k :: l => let t := purge e d k t in if bool_decide (is_Some (value_of d k t)) then (true, t) else any_there e d l t
  end.
Definition amset (e : kenv) (nx : bool) (t : ast) : ast :=
  if (Nat.modulo (length (aargs t)) 2 =? 0)%nat then failed "wrong number of arguments for MSET" t else
  let d := asel t in
  let l := pairs (tail (aargs t)) in
  let '(found, t) := if nx then any_there e d l.*1 t else (false, t) in
  if (found : bool) then shared Czero t
  else shared (if nx then Cone else Ok) (changed (zlen l) (foldl (fun t kv => notified "set" kv.1 d (replace e d kv.1 (AString kv.2) t)) t l)).

Definition aincr (e : kenv) (incr : Z) (t : ast) : ast :=
  let d := asel t in let k := karg 1 t in
  let t := purge e d k t in
  match value_of d k t with
  | Some (AOther _ _) => shared Wrongtypeerr t
  | o =>
    match (match o with Some (AString s) => string2ll s | _ => Some 0 end) with
    | None => failed not_integer t
    | Some n =>
      if (LLONG_MIN <=? n + incr) && (n + incr <=? LLONG_MAX) then
        say (RLongLong (n + incr)) (changed 1 (notified "incrby" k d (touched d k (store d k (AString (decimal (n + incr))) t))))
      else failed "increment or decrement would overflow" t
    end
  end.
Definition aincrby (e : kenv) (t : ast) : ast := match string2ll (karg 2 t) with None => failed not_integer t | Some n => aincr e n t end.
Definition adecrby (e : kenv) (t : ast) : option ast :=
  match string2ll (karg 2 t) with None => Some (failed not_integer t) | Some n => n ← ll_checked (- n); Some (aincr e n t) end.
Definition aappend (e : kenv) (t : ast) : option ast :=
  let d := asel t in let k := karg 1 t in let v := karg 2 t in
  let t := purge e d k t in
  let put s := Some (say (RLongLong (zlen s)) (changed 1 (notified "append" k d (touched d k (store d k (AString s) t))))) in
  match value_of d k t with
  | None => put v
  | Some (AOther _ _) => Some (shared Wrongtypeerr t)
  | Some (AString old) =>
    if too_long (zlen old + zlen v) then Some (failed "string exceeds maximum allowed size (512MB)" t)
    else if k_alloc e (zlen old + zlen v) then put (old ++ v) else None
  end.
Definition astrlen (e : kenv) (t : ast) : ast :=
  let d := asel t in let k := karg 1 t in
  say (match visible e d k t with None => shared_item Czero | Some (AString s) => RLongLong (zlen s) | Some (AOther _ _) => shared_item Wrongtypeerr end) (purge e d k t).

Definition flush_args (t : ast) : bool :=
  match aargs t with [_; a] => strcaseeq (c_string a) (str "async") | _ :: _ :: _ => false | _ => true end.
Definition no_keys : adb := mk_db ∅ ∅.
Definition aflushdb (t : ast) : ast :=
  if negb (flush_args t) then shared Syntaxerr t else
  let d := asel t in
  shared Ok (changed (Z.of_nat (base.size (dict (the_db d t)))) (on_db d (fun _ => no_keys) (log (add_flushed (Z.of_nat d)) t))).
Definition all_keys (t : ast) : Z := foldr (fun db n => Z.of_nat (base.size (dict db)) + n) 0 (adbs t).
Definition aflushall (e : kenv) (t : ast) : ast :=
  if negb (flush_args t) then shared Syntaxerr t else
  let n := all_keys t in
  let t := shared Ok (changed n (log (with_slave_keys ∅) (with_adbs ((fun _ => no_keys) <$> adbs t) (log (add_flushed (-1)) t)))) in
  changed 1 (if k_saveparams e then log (fun r => with_dirty (s32 (dirty r)) r) t else t).
Definition adel (e : kenv) (t : ast) : ast :=
  let d := asel t in
  let '(n, t) := foldl (fun '(n, t) k =>
    let t := purge e d k t in
    if bool_decide (is_Some (value_of d k t)) then (n + 1, changed 1 (notified "del" k d (touched d k (drop_key d k t)))) else (n, t)) (0, t) (tail (aargs t)) in
  say (RLongLong n) t.
Definition aexists (e : kenv) (t : ast) : ast :=
  let d := asel t in
  let '(n, t) := foldl (fun '(n, t) k => (if bool_decide (is_Some (visible e d k t)) then n + 1 else n, purge e d k t)) (0, t) (tail (aargs t)) in
  say (RLongLong n) t.
(** Database numbers are cut to ints. *)
Definition aselect (e : kenv) (t : ast) : ast :=
  match string2ll (karg 1 t) with
  | None => failed "invalid DB index" t
  | Some id =>
    if k_cluster e && negb (id =? 0) then failed "SELECT is not allowed in cluster mode" t
    else if (0 <=? s32 id) && (s32 id <? zlen (adbs t)) then shared Ok (with_asel (Z.to_nat (s32 id)) t)
    else failed "DB index is out of range" t
  end.
Definition adbsize (t : ast) : ast := say (RLongLong (Z.of_nat (base.size (dict (the_db (asel t) t))))) t.
Definition atype_command (e : kenv) (t : ast) : ast :=
  let d := asel t in let k := karg 1 t in
  say (RStatus (str (match visible e d k t with None => "none" | Some v => type_name (atype v) end))) (purge e d k t).

Definition made_ready (d : nat) (k : key) (v : aval) (t : ast) : ast :=
  if bool_decide (atype v = OBJ_LIST \/ atype v = OBJ_ZSET) then log (add_ready (d, k)) t else t.
Definition keep_expiry (e : kenv) (d : nat) (k : key) (w : Z) (t : ast) : ast := if w =? -1 then t else expire_at e d k w t.
Definition arename (e : kenv) (nx : bool) (t : ast) : ast :=
  let d := asel t in let k1 := karg 1 t in let k2 := karg 2 t in
  let t := purge e d k1 t in
  match value_of d k1 t with
  | None => shared Nokeyerr t
  | Some v =>
    if bool_decide (k1 = k2) then shared (if nx then Czero else Ok) t else
    let w := expiry_or d k1 t in
    let t := purge e d k2 t in
    if bool_decide (is_Some (value_of d k2 t)) && nx then shared Czero t
    else
      shared (if nx then Cone else Ok) (changed 1 (notified "rename_to" k2 d (notified "rename_from" k1 d (touched d k2 (touched d k1
        (drop_key d k1 (keep_expiry e d k2 w (made_ready d k2 v (store d k2 v (drop_key d k2 t))))))))))
  end.
Definition amove (e : kenv) (t : ast) : ast :=
  if k_cluster e then failed "MOVE is not allowed in cluster mode" t else
  let src := asel t in let k := karg 1 t in
  match string2ll (karg 2 t) with
  | Some id =>
    if (0 <=? id) && (id <? zlen (adbs t)) && (id <=? INT_MAX) then
      let dst := Z.to_nat id in
      if bool_decide (src = dst) then shared Sameobjecterr t else
      let t := purge e src k t in
      match value_of src k t with
      | None => shared Czero t
      | Some v =>
        let w := expiry_or src k t in
        let t := purge e dst k t in
        if bool_decide (is_Some (value_of dst k t)) then shared Czero t
        else shared Cone (changed 1 (drop_key src k (keep_expiry e dst k w (made_ready dst k v (store dst k v t)))))
      end
    else shared Outofrangeerr t
  | None => shared Outofrangeerr t
  end.
Definition ready_lists (e : kenv) (d : nat) (t : ast) : ast :=
  foldl (fun t k => match value_of d k t with
    | Some v => if bool_decide (atype v ∈ [OBJ_LIST; OBJ_STREAM; OBJ_ZSET]) then log (add_ready (d, k)) t else t
    | None => t end) t (k_blocking e d).
Definition aswapdb (e : kenv) (t : ast) : ast :=
  if k_cluster e then failed "SWAPDB is not allowed in cluster mode" t else
  match string2ll (karg 1 t) with
  | None => failed "invalid first DB index" t
  | Some i =>
    match string2ll (karg 2 t) with
    | None => failed "invalid second DB index" t
    | Some j =>
      let i := s32 i in let j := s32 j in
      if (0 <=? i) && (i <? zlen (adbs t)) && (0 <=? j) && (j <? zlen (adbs t)) then
        shared Ok (changed 1 (if i =? j then t else
          let i := Z.to_nat i in let j := Z.to_nat j in
          ready_lists e j (ready_lists e i (with_adbs (<[j := the_db i t]> (<[i := the_db j t]> (adbs t))) t))))
      else failed "DB index is out of range" t
    end
  end.

Definition aexpire (e : kenv) (basetime : Z) (seconds : bool) (t : ast) : option ast :=
  let d := asel t in let k := karg 1 t in
  match string2ll (karg 2 t) with
  | None => Some (failed not_integer t)
  | Some when =>
    when ← (if seconds then ll_checked (when * 1000) else Some when);
    when ← ll_checked (when + basetime);
    let t := purge e d k t in
    match value_of d k t with
    | None => Some (shared Czero t)
    | Some _ =>
      Some (if (when <=? k_later e) && negb (k_loading e) && k_master e
            then shared Cone (notified "del" k d (touched d k (with_aargs [str (if k_lazy_expire e then "UNLINK" else "DEL"); k] (changed 1 (drop_key d k t)))))
            else changed 1 (notified "expire" k d (touched d k (shared Cone (expire_at e d k when t)))))
    end
  end.
Definition attl (e : kenv) (output_ms : bool) (t : ast) : option ast :=
  let d := asel t in let k := karg 1 t in
  match visible e d k t with
  | None => Some (say (RLongLong (-2)) (purge e d k t))
  | Some _ =>
    let w := expiry_or d k t in
    if w =? -1 then Some (say (RLongLong (-1)) (purge e d k t))
    else
      ttl ← ll_checked (w - k_now e);
      let ttl := Z.max 0 ttl in
      ttl ← (if output_ms then Some ttl else ttl ← ll_checked (ttl + 500); Some (ttl / 1000));
      Some (say (RLongLong ttl) (purge e d k t))
  end.
Definition apersist (e : kenv) (t : ast) : ast :=
  let d := asel t in let k := karg 1 t in
  let t := purge e d k t in
  match value_of d k t, expiry_of d k t with
  | Some _, Some _ => changed 1 (shared Cone (clear_expiry d k t))
  | _, _ => shared Czero t
  end.

Definition aexec (e : kenv) (c : kcmd) (t : ast) : option ast :=
  match c with
  | GET => Some (aget e t) | SET => aSET e t
  | SETNX => aset e OBJ_SET_NX (karg 1 t) (karg 2 t) None true Cone Czero t
  | SETEX => aset e OBJ_SET_NO_FLAGS (karg 1 t) (karg 3 t) (Some (karg 2 t)) true Ok Nullbulk t
  | PSETEX => aset e OBJ_SET_NO_FLAGS (karg 1 t) (karg 3 t) (Some (karg 2 t)) false Ok Nullbulk t
  | GETSET => Some (agetset e t) | SETRANGE => asetrange e t | GETRANGE => Some (agetrange e t) | MGET => Some (amget e t)
  | MSET => Some (amset e false t) | MSETNX => Some (amset e true t)
  | INCR => Some (aincr e 1 t) | DECR => Some (aincr e (-1) t) | INCRBY => Some (aincrby e t) | DECRBY => adecrby e t
  | APPEND => aappend e t | STRLEN => Some (astrlen e t)
  | DEL | UNLINK => Some (adel e t) | EXISTS | TOUCH => Some (aexists e t) | SELECT => Some (aselect e t)
  | FLUSHDB => Some (aflushdb t) | FLUSHALL => Some (aflushall e t) | DBSIZE => Some (adbsize t) | TYPE => Some (atype_command e t)
  | RENAME => Some (arename e false t) | RENAMENX => Some (arename e true t) | MOVE => Some (amove e t) | SWAPDB => Some (aswapdb e t)
  | EXPIRE => aexpire e (k_now e) true t | EXPIREAT => aexpire e 0 true t | PEXPIRE => aexpire e (k_now e) false t | PEXPIREAT => aexpire e 0 false t
  | TTL => attl e false t | PTTL => attl e true t | PERSIST => Some (apersist e t)
  end.

Definition acycle (d : nat) (k : key) (now : Z) (t : ast) : ast :=
  match expiry_of d k t with
  | Some w => if w <? now then notified "expired" k d (drop_key d k (log (add_expiration (d, k)) t)) else t
  | None => t
  end.
Definition astep (ev : kevent) (t : ast) : option ast :=
  match ev with
  | Command e c args =>
    let t := with_aargs args t in
    t ← (if arity_ok c (length args) then aexec e c t
         else Some (say (RErrorFormat (str "wrong number of arguments for '" ++ k_cmd_name e ++ str "' command")) t));
    Some (with_aargs [] t)
  | Client d => if (d <? length (adbs t))%nat then Some (with_asel d t) else None
  | Cycle d k now => Some (acycle d k now t)
  | Create d k ty v =>
    Some (if (d <? length (adbs t))%nat && bool_decide (value_of d k t = None) && negb (bool_decide (ty = OBJ_STRING))
          then made_ready d k (AOther ty v) (store d k (AOther ty v) t) else t)
  end.
Fixpoint arun (l : list kevent) (t : ast) : option ast := match l with [] => Some t | ev :: l => t ← astep ev t; arun l t end.
Definition astart (dbnum : nat) : ast := mk_ast (replicate dbnum no_keys) 0 [] [] start_report.
