(* ===== verification/KeyspaceInv.v ===== *)
(** * References to objects and the maps they stand for

    The reference count of an object is the number of entries of the databases and of arguments that hold it, with a ledger for
    the references that a computation holds or owes in between.  Under that invariant no operation of Keyspace touches a freed object or changes an
    object that someone else can see, and each of them is the operation on maps of KeyspaceAbs. *)
From stdpp Require Import prelude list gmap strings.
From Stdlib Require Import ZArith Lia.
From S2P Require Import Prelude Util SdsText Rio Rdb Reply Resp Aof Keyspace KeyCommands KeyspaceAbs.

Local Open Scope Z_scope.
Local Open Scope redis_scope.

(** ** Counting references *)

Definition one (a x : Z) : Z := if decide (x = a) then 1 else 0.
Fixpoint cnt (l : list Z) (x : Z) : Z := match l with [] => 0 | a :: l => one a x + cnt l x end.
Definition occ (m : gmap key Z) : Z -> Z := cnt (map_to_list m).*2.
Fixpoint in_dbs (l : list (redisDb Z)) (x : Z) : Z := match l with [] => 0 | db :: l => occ (dict db) x + in_dbs l x end.
(** The references of the shared objects that have a count. *)
Definition ext (x : Z) : Z := if (x =? shared_del) || (x =? shared_unlink) then 1 else 0.
Definition held (l : list (redisDb Z)) (argv : list Z) (x : Z) : Z := in_dbs l x + cnt argv x + ext x.

Lemma one_nonneg a x : 0 <= one a x.
Proof. unfold one. case_decide; lia. Qed.
Lemma one_eq a : one a a = 1.
Proof. unfold one. by case_decide. Qed.
Lemma one_ne a x : x <> a -> one a x = 0.
Proof. unfold one. by case_decide. Qed.
Lemma ext_nonneg x : 0 <= ext x.
Proof. unfold ext. destruct (_ || _); lia. Qed.
Lemma cnt_nonneg l x : 0 <= cnt l x.
Proof. induction l as [|a l IH]; cbn; [lia|]. pose proof (one_nonneg a x). lia. Qed.
Lemma cnt_app l l' x : cnt (l ++ l') x = cnt l x + cnt l' x.
Proof. induction l as [|a l IH]; cbn; lia. Qed.
Lemma cnt_perm l l' x : l ≡ₚ l' -> cnt l x = cnt l' x.
Proof. induction 1; cbn; lia. Qed.
Lemma cnt_elem l x : x ∈ l -> 1 <= cnt l x.
Proof. intros (l1 & l2 & ->)%list_elem_of_split. rewrite cnt_app. cbn. rewrite one_eq. pose proof (cnt_nonneg l1 x). pose proof (cnt_nonneg l2 x). lia. Qed.
Lemma cnt_pos l x : 0 < cnt l x -> x ∈ l.
Proof.
  induction l as [|a l IH]; cbn; [lia|]. unfold one at 1. case_decide as Hx; [subst; left|]. intros H. right. apply IH. lia.
Qed.
Lemma cnt_insert l i a b x : l !! i = Some a -> cnt (<[i := b]> l) x = cnt l x - one a x + one b x.
Proof.
  revert i. induction l as [|c l IH]; intros [|i] Hi; try done; csimpl in *.
  - injection Hi as ->. lia.
  - rewrite (IH i Hi). lia.
Qed.
Lemma occ_nonneg m x : 0 <= occ m x.
Proof. apply cnt_nonneg. Qed.
Lemma occ_empty x : occ ∅ x = 0.
Proof. unfold occ. by rewrite map_to_list_empty. Qed.
Lemma occ_insert m k a x : m !! k = None -> occ (<[k := a]> m) x = occ m x + one a x.
Proof. intros Hk. unfold occ. rewrite (cnt_perm _ ((k, a) :: map_to_list m).*2); [cbn; lia|]. by rewrite map_to_list_insert. Qed.
Lemma occ_delete m k a x : m !! k = Some a -> occ (delete k m) x = occ m x - one a x.
Proof. intros Hk. rewrite <-(insert_delete_id m k a Hk) at 2. rewrite occ_insert by apply lookup_delete_eq. lia. Qed.
Lemma occ_overwrite m k a b x : m !! k = Some a -> occ (<[k := b]> m) x = occ m x - one a x + one b x.
Proof. intros Hk. rewrite <-insert_delete_eq, occ_insert by apply lookup_delete_eq. rewrite (occ_delete m k a) by done. lia. Qed.
Lemma occ_lookup m k a : m !! k = Some a -> 1 <= occ m a.
Proof. intros Hk. apply cnt_elem, list_elem_of_fmap. exists (k, a). split; [done|]. by apply elem_of_map_to_list. Qed.
Lemma in_dbs_nonneg l x : 0 <= in_dbs l x.
Proof. induction l as [|db l IH]; cbn; [lia|]. pose proof (occ_nonneg (dict db) x). lia. Qed.
Lemma in_dbs_insert l d db db' x : l !! d = Some db -> in_dbs (<[d := db']> l) x = in_dbs l x - occ (dict db) x + occ (dict db') x.
Proof.
  revert d. induction l as [|c l IH]; intros [|d] Hd; try done; csimpl in *.
  - injection Hd as ->. lia.
  - rewrite (IH d Hd). lia.
Qed.
Lemma in_dbs_lookup l d db x : l !! d = Some db -> occ (dict db) x <= in_dbs l x.
Proof.
  revert d. induction l as [|c l IH]; intros [|d] Hd; try done; csimpl in *.
  - injection Hd as ->. pose proof (in_dbs_nonneg l x). lia.
  - specialize (IH d Hd). pose proof (occ_nonneg (dict c) x). lia.
Qed.
Lemma held_dict l argv d db k a : l !! d = Some db -> dict db !! k = Some a -> 1 <= held l argv a.
Proof.
  intros Hd Hk. unfold held. pose proof (in_dbs_lookup l d db a Hd). pose proof (occ_lookup _ _ _ Hk). pose proof (cnt_nonneg argv a). pose proof (ext_nonneg a). lia.
Qed.
Lemma held_arg l argv i a : argv !! i = Some a -> 1 <= held l argv a.
Proof.
  intros Hi. unfold held. pose proof (in_dbs_nonneg l a). pose proof (cnt_elem argv a (list_elem_of_lookup_2 _ _ _ Hi)). pose proof (ext_nonneg a). lia.
Qed.
Lemma held_nonneg l argv a : 0 <= held l argv a.
Proof. unfold held. pose proof (in_dbs_nonneg l a). pose proof (cnt_nonneg argv a). pose proof (ext_nonneg a). lia. Qed.

(** ** The heap *)

Definition value_ok (v : value) : Prop :=
  match v with VString (ObjInt _ n) => LLONG_MIN <= n <= LLONG_MAX | VString _ => True | VOther t _ => t <> OBJ_STRING end.
Definition alive (h : gmap Z robj) (a : Z) : Prop := if a <? 0 then - OBJ_SHARED_INTEGERS <= a else is_Some (h !! a).

(** A heap in which H references are in the databases, the arguments and the server, and the ledger is b. *)
Record heap_ok (h : gmap Z robj) (n : Z) (H b : Z -> Z) : Prop := mk_heap_ok {
  ho_next : 0 <= n;
  ho_fresh : forall a o, h !! a = Some o -> 0 <= a < n;
  ho_count : forall a o, h !! a = Some o -> value_ok (val o) /\ 1 <= refcount o <= OBJ_SHARED_REFCOUNT /\ (refcount o = OBJ_SHARED_REFCOUNT \/ refcount o = H a + b a);
  ho_live : forall a, 0 <= a -> h !! a = None -> H a = 0 /\ b a = 0;
  ho_shared : forall a, a < 0 -> 0 < H a -> - OBJ_SHARED_INTEGERS <= a }.

(** The contents of some objects are kept. *)
Definition keeps (P : Z -> Prop) (h h' : gmap Z robj) : Prop := forall x, P x -> val <$> obj_at h' x = val <$> obj_at h x.

Lemma keeps_refl P h : keeps P h h.
Proof. done. Qed.
Lemma keeps_trans (P : Z -> Prop) h h1 h2 : keeps P h h1 -> keeps P h1 h2 -> keeps P h h2.
Proof. intros H1 H2 x Hx. by rewrite H2, H1. Qed.
Lemma keeps_weaken (P Q : Z -> Prop) h h' : (forall x, P x -> Q x) -> keeps Q h h' -> keeps P h h'.
Proof. intros HP HQ x Hx. by apply HQ, HP. Qed.

Lemma heap_ok_ext h n H b H' b' : (forall x, H x = H' x) -> (forall x, b x = b' x) -> heap_ok h n H b -> heap_ok h n H' b'.
Proof.
  intros EH Eb [Hn Hf Hc Hl Hs]. split; [done..| | |].
  - intros a o. rewrite <-EH, <-Eb. apply Hc.
  - intros a. rewrite <-EH, <-Eb. apply Hl.
  - intros a. rewrite <-EH. apply Hs.
Qed.

(** References move between the holders and the ledger. *)
Lemma heap_ok_shift h n H b H' b' :
  heap_ok h n H b -> (forall x, H' x + b' x = H x + b x) -> (forall x, 0 < H' x -> alive h x) -> (forall x, 0 <= H' x) -> heap_ok h n H' b'.
Proof.
  intros [Hn Hf Hc Hl Hs] Hsum Ha Hp. split; [done|done|..].
  - intros a o Ho. rewrite Hsum. by apply Hc.
  - intros a H0 Hno. destruct (Hl a H0 Hno). specialize (Hsum a). specialize (Hp a). destruct (decide (0 < H' a)) as [Hr|Hr]; [|lia].
    apply Ha in Hr. unfold alive in Hr. destruct (Z.ltb_spec a 0); [lia|]. rewrite Hno in Hr. by destruct Hr.
  - intros a H0 Hpos. specialize (Ha a Hpos). unfold alive in Ha. destruct (Z.ltb_spec a 0); [done|lia].
Qed.

Lemma alive_held h n H b a : heap_ok h n H b -> 0 < H a -> alive h a.
Proof.
  intros Hh Hp. unfold alive. destruct (Z.ltb_spec a 0); [by eapply ho_shared|].
  destruct (h !! a) eqn:E; [done|]. destruct (ho_live _ _ _ _ Hh a) as [? _]; [lia|done|lia].
Qed.

Lemma obj_at_alive h a : alive h a -> is_Some (obj_at h a).
Proof. unfold alive, obj_at. by destruct (a <? 0). Qed.
Lemma obj_at_nonneg h a : 0 <= a -> obj_at h a = h !! a.
Proof. intros Ha. unfold obj_at. by destruct (Z.ltb_spec a 0); [lia|]. Qed.

Lemma K_bind_ok {A B} (m : K A) (f : A -> K B) s a s' : m s = Some (a, s') -> (m ≫= f) s = f a s'.
Proof. unfold mbind, K_bind. by intros ->. Qed.
Lemma K_bind_none {A B} (m : K A) (f : A -> K B) s : m s = None -> (m ≫= f) s = None.
Proof. unfold mbind, K_bind. by intros ->. Qed.

Lemma get_obj_ok h n s a o : obj_at h a = Some o -> get_obj a (with_heap h n s) = Some (o, with_heap h n s).
Proof. intros Ho. unfold get_obj. cbn. by rewrite Ho. Qed.
Lemma with_heap_twice h n h' n' s : with_heap h n (with_heap h' n' s) = with_heap h n s.
Proof. done. Qed.
Lemma with_heap_id s : with_heap (heap s) (next s) s = s.
Proof. by destruct s. Qed.

(** The address is not a shared integer, or nothing changes. *)
Lemma value_ok_shared a : a < 0 -> - OBJ_SHARED_INTEGERS <= a -> value_ok (VString (ObjInt true (- 1 - a))).
Proof. cbn. unfold LLONG_MIN, LLONG_MAX, OBJ_SHARED_INTEGERS. lia. Qed.
Lemma obj_value_ok h n H b a o : heap_ok h n H b -> alive h a -> obj_at h a = Some o -> value_ok (val o).
Proof.
  intros Hh Ha. unfold alive, obj_at in *. destruct (Z.ltb_spec a 0) as [Hz|Hz].
  - intros [= <-]. by apply value_ok_shared.
  - intros Ho. by eapply ho_count.
Qed.

Lemma keeps_insert P h a o v : h !! a = Some o -> keeps P h (<[a := mk_robj (val o) v]> h).
Proof.
  intros Ho x _. unfold obj_at. destruct (x <? 0); [done|]. destruct (decide (x = a)) as [->|]; [by rewrite lookup_insert_eq, Ho|by rewrite lookup_insert_ne].
Qed.

Lemma keeps_alive (P : Z -> Prop) h h' x : keeps P h h' -> P x -> alive h x -> alive h' x.
Proof.
  intros Hk Hx. specialize (Hk x Hx). unfold alive, obj_at in *. destruct (x <? 0); [done|]. destruct (h !! x); [|by intros []]. by destruct (h' !! x).
Qed.
Lemma alive_nonneg h a o : 0 <= a -> obj_at h a = Some o -> h !! a = Some o.
Proof. intros Ha. by rewrite obj_at_nonneg. Qed.

(** The count of an object changes with the ledger. *)
Lemma heap_ok_count h n H b a o c b' :
  heap_ok h n H b -> h !! a = Some o -> (forall x, x <> a -> b' x = b x) -> 1 <= c <= OBJ_SHARED_REFCOUNT -> (c = OBJ_SHARED_REFCOUNT \/ c = H a + b' a) ->
  heap_ok (<[a := mk_robj (val o) c]> h) n H b'.
Proof.
  intros [Hn Hf Hc Hl Hs] Ho Hb Hr He. split; [done|..|done].
  - intros x p [[<- <-]|[? Hx]]%lookup_insert_Some; by eapply Hf.
  - intros x p [[<- <-]|[? Hx]]%lookup_insert_Some; cbn; [|rewrite Hb by done; by apply Hc]. split; [by eapply Hc|done].
  - intros x Hx [Hno Hne]%lookup_insert_None. rewrite Hb by done. by apply Hl.
Qed.

Lemma incr_spec s H b a :
  heap_ok (heap s) (next s) H b -> alive (heap s) a ->
  exists h, incrRefCount a s = Some ((), with_heap h (next s) s) /\ heap_ok h (next s) H (fun x => b x + one a x) /\ keeps (fun _ => True) (heap s) h.
Proof.
  intros Hh Ha. destruct (obj_at_alive _ _ Ha) as [o Ho]. unfold incrRefCount.
  rewrite (K_bind_ok _ _ _ o s) by (unfold get_obj; by rewrite Ho).
  destruct (Z.ltb_spec a 0) as [Hz|Hz].
  { unfold obj_at in Ho. destruct (Z.ltb_spec a 0); [|lia]. injection Ho as <-. cbn [refcount]. rewrite Z.eqb_refl. cbn [negb].
    exists (heap s). rewrite with_heap_id. split; [done|]. split; [|apply keeps_refl]. destruct Hh as [Hn Hf Hc Hl Hs]. split; [done..| | |done].
    - intros x p Hp. rewrite one_ne, Z.add_0_r by (specialize (Hf _ _ Hp); lia). by apply Hc.
    - intros x Hx Hno. rewrite one_ne, Z.add_0_r by lia. by apply Hl. }
  pose proof (alive_nonneg _ _ _ Hz Ho) as Ho'. destruct (ho_count _ _ _ _ Hh a o Ho') as (Hv & Hr & Hc).
  destruct (Z.eqb_spec (refcount o) OBJ_SHARED_REFCOUNT) as [Hsh|Hsh]; cbn [negb].
  - exists (heap s). rewrite with_heap_id. split; [done|]. split; [|apply keeps_refl]. destruct Hh as [Hn Hf Hc' Hl Hs]. split; [done..| | |done].
    + intros x p Hp. destruct (decide (x = a)) as [->|]; [replace p with o by congruence; tauto|]. rewrite one_ne, Z.add_0_r by done. by apply Hc'.
    + intros x Hx Hno. rewrite one_ne, Z.add_0_r by congruence. by apply Hl.
  - exists (<[a := mk_robj (val o) (refcount o + 1)]> (heap s)). split; [done|]. split; [|by apply keeps_insert].
    eapply heap_ok_count; [done..| |lia|]; [intros x Hx; rewrite one_ne by done; lia|]. rewrite one_eq. right. lia.
Qed.

Lemma decr_spec s H b a :
  heap_ok (heap s) (next s) H b -> alive (heap s) a -> (0 <= a -> 2 <= H a + b a \/ (H a = 0 /\ b a = 1)) ->
  exists h, decrRefCount a s = Some ((), with_heap h (next s) s) /\ heap_ok h (next s) H (fun x => b x - one a x) /\
    keeps (fun x => 0 < H x \/ 0 < b x - one a x \/ x <> a) (heap s) h /\ (forall x, x <> a -> obj_at h x = obj_at (heap s) x).
Proof.
  intros Hh Ha Hp. destruct (obj_at_alive _ _ Ha) as [o Ho]. unfold decrRefCount.
  rewrite (K_bind_ok _ _ _ o s) by (unfold get_obj; by rewrite Ho).
  destruct (Z.ltb_spec a 0) as [Hz|Hz].
  { unfold obj_at in Ho. destruct (Z.ltb_spec a 0); [|lia]. injection Ho as <-. cbn [refcount]. change (OBJ_SHARED_REFCOUNT =? 1) with false. change (OBJ_SHARED_REFCOUNT <=? 0) with false.
    rewrite Z.eqb_refl. cbn [negb].
    exists (heap s). rewrite with_heap_id. split; [done|]. split; [|split; [apply keeps_refl|done]]. destruct Hh as [Hn Hf Hc Hl Hs]. split; [done..| | |done].
    - intros x p Hx. rewrite one_ne, Z.sub_0_r by (specialize (Hf _ _ Hx); lia). by apply Hc.
    - intros x Hx Hno. rewrite one_ne, Z.sub_0_r by lia. by apply Hl. }
  pose proof (alive_nonneg _ _ _ Hz Ho) as Ho'. destruct (ho_count _ _ _ _ Hh a o Ho') as (Hv & Hr & Hc). specialize (Hp Hz).
  destruct (Z.eqb_spec (refcount o) 1) as [H1|H1].
  - assert (H a = 0 /\ b a = 1) as [H0 Hb1] by (unfold OBJ_SHARED_REFCOUNT in *; lia).
    exists (delete a (heap s)). split; [done|]. split; [|split; [|intros x Hx; unfold obj_at; by rewrite lookup_delete_ne]].
    + destruct Hh as [Hn Hf Hc' Hl Hs]. split; [done|..|done].
      * intros x p [_ Hx]%lookup_delete_Some. by eapply Hf.
      * intros x p [Hne Hx]%lookup_delete_Some. rewrite one_ne, Z.sub_0_r by done. by apply Hc'.
      * intros x Hx [->|Hno]%lookup_delete_None; [rewrite one_eq; lia|]. destruct (decide (x = a)) as [->|]; [congruence|]. rewrite one_ne, Z.sub_0_r by done. by apply Hl.
    + intros x Hx. unfold obj_at. destruct (x <? 0); [done|]. rewrite lookup_delete_ne; [done|]. intros <-. rewrite one_eq in Hx. lia.
  - destruct (Z.leb_spec (refcount o) 0); [lia|].
    destruct (Z.eqb_spec (refcount o) OBJ_SHARED_REFCOUNT) as [Hsh|Hsh]; cbn [negb].
    + exists (heap s). rewrite with_heap_id. split; [done|]. split; [|split; [apply keeps_refl|done]]. destruct Hh as [Hn Hf Hc' Hl Hs]. split; [done..| | |done].
      * intros x p Hx. destruct (decide (x = a)) as [->|]; [replace p with o by congruence; tauto|]. rewrite one_ne, Z.sub_0_r by done. by apply Hc'.
      * intros x Hx Hno. rewrite one_ne, Z.sub_0_r by congruence. by apply Hl.
    + exists (<[a := mk_robj (val o) (refcount o - 1)]> (heap s)). split; [done|]. split; [|split; [by apply keeps_insert|intros x Hx; unfold obj_at; by rewrite lookup_insert_ne]].
      eapply heap_ok_count; [done..| |lia|]; [intros x Hx; rewrite one_ne by done; lia|]. rewrite one_eq. right. lia.
Qed.

Lemma create_spec s H b v :
  heap_ok (heap s) (next s) H b -> value_ok v ->
  createObject v s = Some (next s, with_heap (<[next s := mk_robj v 1]> (heap s)) (next s + 1) s) /\
  heap_ok (<[next s := mk_robj v 1]> (heap s)) (next s + 1) H (fun x => b x + one (next s) x) /\
  keeps (fun x => x <> next s) (heap s) (<[next s := mk_robj v 1]> (heap s)) /\ H (next s) = 0 /\ b (next s) = 0 /\ 0 <= next s.
Proof.
  intros Hh Hv. pose proof (ho_next _ _ _ _ Hh) as Hn.
  assert (heap s !! next s = None) as Hno. { destruct (heap s !! next s) eqn:E; [|done]. pose proof (ho_fresh _ _ _ _ Hh _ _ E). lia. }
  destruct (ho_live _ _ _ _ Hh (next s) Hn Hno) as [H0 Hb]. split_and!; [done| |..|done|done|done].
  - destruct Hh as [_ Hf Hc Hl Hs]. split; [lia|..|done].
    + intros a o [[<- <-]|[? Ho]]%lookup_insert_Some; [lia|]. specialize (Hf _ _ Ho). lia.
    + intros a o [[<- <-]|[? Ho]]%lookup_insert_Some; cbn; [rewrite one_eq; unfold OBJ_SHARED_REFCOUNT; split_and!; [done|lia..]|]. rewrite one_ne, Z.add_0_r by done. by apply Hc.
    + intros a Ha [Hna Hne]%lookup_insert_None. rewrite one_ne, Z.add_0_r by done. by apply Hl.
  - intros x Hx. unfold obj_at. destruct (x <? 0); [done|]. by rewrite lookup_insert_ne.
Qed.

(** An object nobody else holds is changed in place. *)
Lemma heap_ok_set h n H b a o v :
  heap_ok h n H b -> h !! a = Some o -> value_ok v ->
  heap_ok (<[a := mk_robj v (refcount o)]> h) n H b /\ keeps (fun x => x <> a) h (<[a := mk_robj v (refcount o)]> h).
Proof.
  intros [Hn Hf Hc Hl Hs] Ho Hv. split; [split; [done|..|done]|].
  - intros x p [[<- <-]|[? Hx]]%lookup_insert_Some; by eapply Hf.
  - intros x p [[<- <-]|[? Hx]]%lookup_insert_Some; cbn; [|by apply Hc]. split; [done|by eapply Hc].
  - intros x Hx [Hno Hne]%lookup_insert_None. by apply Hl.
  - intros x Hx. unfold obj_at. destruct (x <? 0); [done|]. by rewrite lookup_insert_ne.
Qed.

(** ** What values stand for *)

Definition abs_value (v : value) : aval := match v with VString o => AString (obj_bytes o) | VOther t n => AOther t n end.
Definition den (h : gmap Z robj) (a : Z) : aval := match obj_at h a with Some o => abs_value (val o) | None => AOther OBJ_STREAM 0 end.
Definition abs_db (h : gmap Z robj) (db : redisDb Z) : adb := mk_db (den h <$> dict db) (expires db).

Lemma den_keeps (P : Z -> Prop) h h' x : keeps P h h' -> P x -> den h' x = den h x.
Proof. intros Hk Hx. specialize (Hk x Hx). unfold den. destruct (obj_at h' x), (obj_at h x); try done. cbn in Hk. congruence. Qed.
Lemma abs_value_type v : atype (abs_value v) = type_of v.
Proof. by destruct v. Qed.

Lemma string2ll_int v : LLONG_MIN <= v <= LLONG_MAX -> string2ll (decimal v) = Some v.
Proof. intros Hv. by apply string2ll_iff. Qed.
Lemma string2ll_range bs v : string2ll bs = Some v -> LLONG_MIN <= v <= LLONG_MAX.
Proof. intros Hs. by apply string2ll_iff in Hs as []. Qed.
Lemma string2l_eq bs : string2l bs = string2ll bs.
Proof.
  unfold string2l. destruct (string2ll bs) as [v|] eqn:E; [|done]. apply string2ll_range in E. cbn. unfold LLONG_MIN, LLONG_MAX, LONG_MIN, LONG_MAX in *.
  destruct (Z.ltb_spec v (- 2 ^ 63)), (Z.gtb_spec v (2 ^ 63 - 1)); try done; lia.
Qed.

(** ** Objects for strings *)

Lemma from_long_long cfg v :
  LLONG_MIN <= v <= LLONG_MAX -> exists so, createStringObjectFromLongLongForValue cfg v = Some so /\ obj_bytes so = decimal v /\
    value_ok (VString so) /\ (forall w, so = ObjInt true w -> 0 <= w < OBJ_SHARED_INTEGERS).
Proof.
  intros Hv. unfold createStringObjectFromLongLongForValue, createStringObjectFromLongLongWithOptions. destruct (_ && _ && _) eqn:E.
  - apply andb_true_iff in E as [E _]. exists (ObjInt true v). split_and!; [done|done|done|]. intros w [= <-]. lia.
  - exists (ObjInt false v). unfold LLONG_MIN, LLONG_MAX, LONG_MIN, LONG_MAX in *. destruct (Z.leb_spec (- 2 ^ 63) v), (Z.leb_spec v (2 ^ 63 - 1)); try lia. done.
Qed.

Lemma den_shared h v : 0 <= v -> den h (shared_integer v) = AString (decimal v).
Proof. intros Hv. unfold den, obj_at, shared_integer. destruct (Z.ltb_spec (- 1 - v) 0); [|lia]. cbn. do 2 f_equal. lia. Qed.

Lemma keeps_new h n H b v : heap_ok h n H b -> keeps (alive h) h (<[n := mk_robj v 1]> h).
Proof.
  intros Hh x Hx. unfold alive, obj_at in *. destruct (x <? 0); [done|]. rewrite lookup_insert_ne; [done|]. intros <-. destruct Hx as [o Ho]. pose proof (ho_fresh _ _ _ _ Hh _ _ Ho). lia.
Qed.

Lemma store_string_spec s H b so :
  heap_ok (heap s) (next s) H b -> value_ok (VString so) -> (forall w, so = ObjInt true w -> 0 <= w < OBJ_SHARED_INTEGERS) ->
  exists a h n, store_string so s = Some (a, with_heap h n s) /\ heap_ok h n H (fun x => b x + one a x) /\ keeps (alive (heap s)) (heap s) h /\
    alive h a /\ den h a = AString (obj_bytes so).
Proof.
  intros Hh Hv Hw. destruct (match so with ObjInt true _ => true | _ => false end) eqn:Es.
  - destruct so as [[] v|?|?]; try done. specialize (Hw v eq_refl). cbn [store_string].
    assert (alive (heap s) (shared_integer v)) as Ha. { unfold alive, shared_integer. destruct (Z.ltb_spec (- 1 - v) 0); [|lia]. unfold OBJ_SHARED_INTEGERS in *. lia. }
    destruct (incr_spec s H b _ Hh Ha) as (h & E & Hh' & Hk). exists (shared_integer v), h, (next s). rewrite (K_bind_ok _ _ _ _ _ E).
    split_and!; [done|done|by eapply keeps_weaken; [|apply Hk]|by apply (keeps_alive _ _ _ _ Hk)|]. apply den_shared. lia.
  - destruct (create_spec s H b _ Hh Hv) as (E & Hh' & Hk & _ & _ & Hn). exists (next s), (<[next s := mk_robj (VString so) 1]> (heap s)), (next s + 1).
    split; [by destruct so as [[] v|?|?]|]. split; [done|]. split; [by eapply keeps_new|]. unfold alive, den, obj_at. destruct (Z.ltb_spec (next s) 0); [lia|]. by rewrite lookup_insert_eq.
Qed.

Lemma encoding_done s H b a bs :
  heap_ok (heap s) (next s) H b -> alive (heap s) a -> den (heap s) a = AString bs ->
  exists a' h n, Some (a, s) = Some (a', with_heap h n s) /\ heap_ok h n H (fun x => b x - one a x + one a' x) /\ keeps (fun x => 0 < H x) (heap s) h /\
    alive h a' /\ den h a' = AString bs.
Proof.
  intros Hh Ha Hd. exists a, (heap s), (next s). rewrite with_heap_id. split_and!; [done| |apply keeps_refl|done|done]. eapply heap_ok_ext; [..|done]; [done|]. intros x. cbn. lia.
Qed.

Lemma string_object_den h a o so : obj_at h a = Some o -> val o = VString so -> den h a = AString (obj_bytes so).
Proof. intros Ho Hv. unfold den. by rewrite Ho, Hv. Qed.

(** The characters of a number are encoded in an object of their own. *)
Lemma encode_number e s H b a o so bs v :
  heap_ok (heap s) (next s) H b -> (forall x, 0 <= H x) -> heap s !! a = Some o -> val o = VString so -> sds_of (val o) = Some bs -> refcount o = 1 -> H a = 0 -> b a = 1 ->
  string2l bs = Some v ->
  exists a' h n,
    (if negb (no_shared_integers (k_config e)) && (0 <=? v) && (v <? OBJ_SHARED_INTEGERS) then decrRefCount a;; incrRefCount (shared_integer v);; mret (shared_integer v)
     else if is_raw so then set_obj a (mk_robj (VString (ObjInt false v)) (refcount o));; mret a
     else decrRefCount a;; n ← liftK (createStringObjectFromLongLongForValue (k_config e) v); store_string n) s = Some (a', with_heap h n s) /\
    heap_ok h n H (fun x => b x - one a x + one a' x) /\ keeps (fun x => 0 < H x) (heap s) h /\ alive h a' /\ den h a' = AString bs.
Proof.
  intros Hh Hp Ho Hv Hs Hr H0 Hb Hl. rewrite string2l_eq in Hl. apply string2ll_iff in Hl as [Hrange ->].
  pose proof (ho_fresh _ _ _ _ Hh _ _ Ho) as Hf.
  assert (alive (heap s) a) as Ha. { unfold alive. destruct (Z.ltb_spec a 0); [lia|done]. }
  destruct (decr_spec s H b a Hh Ha) as (h & E & Hh' & Hk & _); [by right|].
  destruct (_ && _ && _) eqn:Esh; [|destruct (is_raw so) eqn:Eraw].
  - apply andb_true_iff in Esh as [[_ ?%Z.leb_le]%andb_true_iff ?%Z.ltb_lt]. rewrite (K_bind_ok _ _ _ _ _ E).
    destruct (store_string_spec (with_heap h (next s) s) H _ (ObjInt true v) Hh') as (a' & h2 & n2 & E2 & Hh2 & Hk2 & Ha2 & Hd2); [exact Hrange|intros w [= <-]; lia|].
    cbn [store_string] in E2. exists a', h2, n2. rewrite E2. split_and!; [done|done| |done|done].
    eapply keeps_trans; [eapply keeps_weaken, Hk; tauto|]. intros x Hx. apply Hk2. by eapply alive_held.
  - destruct (heap_ok_set _ _ _ _ _ _ (VString (ObjInt false v)) Hh Ho Hrange) as [Hh2 Hk2]. eexists a, _, (next s). split; [done|].
    split; [eapply heap_ok_ext; [..|done]; [done|intros x; cbn; lia]|]. split; [eapply keeps_weaken, Hk2; intros x Hx ->; lia|].
    unfold alive, den, obj_at. destruct (Z.ltb_spec a 0); [lia|]. by rewrite lookup_insert_eq.
  - rewrite (K_bind_ok _ _ _ _ _ E). destruct (from_long_long (k_config e) v Hrange) as (n & En & Hbn & Hvn & Hwn). rewrite En.
    cbv beta. rewrite (K_bind_ok (liftK (Some n)) _ _ n (with_heap h (next s) s)) by done.
    destruct (store_string_spec (with_heap h (next s) s) H _ n Hh' Hvn Hwn) as (a' & h2 & n2 & E2 & Hh2 & Hk2 & Ha2 & Hd2).
    exists a', h2, n2. rewrite E2, Hd2, Hbn. split_and!; [done|done| |done|done].
    eapply keeps_trans; [eapply keeps_weaken, Hk; tauto|]. intros x Hx. apply Hk2. by eapply alive_held.
Qed.

(** Encoding of an object that holds characters. *)
Lemma encode_chars e s H b a o so bs :
  heap_ok (heap s) (next s) H b -> (forall x, 0 <= H x) -> alive (heap s) a -> obj_at (heap s) a = Some o -> val o = VString so -> 1 <= b a -> sds_of (val o) = Some bs ->
  exists a' h n,
    (if 1 <? refcount o then (mret a : K Z) else
     match (if zlen bs <=? 20 then string2l bs else None) with
     | Some v =>
       if negb (no_shared_integers (k_config e)) && (0 <=? v) && (v <? OBJ_SHARED_INTEGERS) then decrRefCount a;; incrRefCount (shared_integer v);; mret (shared_integer v)
       else if is_raw so then set_obj a (mk_robj (VString (ObjInt false v)) (refcount o));; mret a
       else decrRefCount a;; n ← liftK (createStringObjectFromLongLongForValue (k_config e) v); store_string n
     | None =>
       if zlen bs <=? OBJ_ENCODING_EMBSTR_SIZE_LIMIT then
         if is_embstr so then mret a else n ← createObject (VString (ObjEmbstr bs)); decrRefCount a;; mret n
       else mret a
     end) s = Some (a', with_heap h n s) /\
    heap_ok h n H (fun x => b x - one a x + one a' x) /\ keeps (fun x => 0 < H x) (heap s) h /\ alive h a' /\ den h a' = AString bs.
Proof.
  intros Hh Hp Ha Ho Hv Hb Hs. assert (den (heap s) a = AString bs) as Hd.
  { rewrite (string_object_den _ _ _ _ Ho Hv). rewrite Hv in Hs. destruct so; cbn in *; congruence. }
  pose proof (encoding_done s H b a _ Hh Ha Hd) as Hdone.
  destruct (Z.ltb_spec 1 (refcount o)) as [Hr|Hr]; [exact Hdone|].
  assert (0 <= a) as Ha0. { unfold obj_at in Ho. destruct (Z.ltb_spec a 0); [|lia]. injection Ho as <-. done. }
  pose proof (alive_nonneg _ _ _ Ha0 Ho) as Ho'. destruct (ho_count _ _ _ _ Hh _ _ Ho') as (_ & Hr1 & Hc). specialize (Hp a) as Hpa.
  assert (refcount o = 1 /\ H a = 0 /\ b a = 1) as (Hr' & H0 & Hb1) by (unfold OBJ_SHARED_REFCOUNT in *; lia).
  destruct (if zlen bs <=? 20 then string2l bs else None) as [v|] eqn:El.
  { destruct (zlen bs <=? 20); [|done]. by apply encode_number. }
  destruct (zlen bs <=? OBJ_ENCODING_EMBSTR_SIZE_LIMIT); [|exact Hdone]. destruct (is_embstr so); [exact Hdone|].
  destruct (create_spec s H b (VString (ObjEmbstr bs)) Hh) as (E & Hh1 & Hk1 & HN & HbN & Hn); [done|]. rewrite (K_bind_ok _ _ _ _ _ E).
  set (h1 := <[next s := _]> (heap s)) in *. assert (a <> next s) as Hne by (intros ->; lia).
  assert (alive h1 a) as Ha1 by by eapply keeps_alive.
  destruct (decr_spec (with_heap h1 (next s + 1) s) H _ a Hh1 Ha1) as (h2 & E2 & Hh2 & Hk2 & _); [rewrite one_ne by done; lia|].
  rewrite (K_bind_ok _ _ _ _ _ E2). exists (next s), h2, (next s + 1). split; [done|]. split.
  { eapply heap_ok_ext; [..|exact Hh2]; [done|intros x; cbn; lia]. }
  split; [eapply keeps_trans; [eapply keeps_weaken, Hk1; intros x Hx ->; lia|eapply keeps_weaken, Hk2; tauto]|].
  assert (alive h1 (next s)) as HaN. { unfold alive, h1. destruct (Z.ltb_spec (next s) 0); [lia|]. by rewrite lookup_insert_eq. }
  split; [eapply keeps_alive; [exact Hk2|right; right; congruence|done]|]. rewrite (den_keeps _ _ _ _ Hk2) by (right; right; congruence).
  unfold den, obj_at, h1. cbn [heap with_heap]. destruct (Z.ltb_spec (next s) 0); [lia|]. by rewrite lookup_insert_eq.
Qed.

(** Encoding takes a reference to a string and gives one to an object with the same bytes; what others hold is not changed. *)
Lemma encoding_spec e s H b a o so :
  heap_ok (heap s) (next s) H b -> (forall x, 0 <= H x) -> alive (heap s) a -> obj_at (heap s) a = Some o -> val o = VString so -> 1 <= b a ->
  exists a' h n, tryObjectEncoding e a s = Some (a', with_heap h n s) /\ heap_ok h n H (fun x => b x - one a x + one a' x) /\
    keeps (fun x => 0 < H x) (heap s) h /\ alive h a' /\ den h a' = AString (obj_bytes so).
Proof.
  intros Hh Hp Ha Ho Hv Hb. pose proof (string_object_den _ _ _ _ Ho Hv) as Hd. pose proof (encoding_done s H b a _ Hh Ha Hd) as Hdone.
  unfold tryObjectEncoding. rewrite (K_bind_ok _ _ _ o s) by (unfold get_obj; by rewrite Ho). rewrite (K_bind_ok _ _ _ so s) by (by rewrite Hv).
  destruct so as [sh v|bs|bs]; [exact Hdone|..]; eapply (encode_chars e s H b a o _ bs); try done; by rewrite Hv.
Qed.

(** Several references are dropped. *)
Lemma decr_all_spec l s H b :
  heap_ok (heap s) (next s) H b -> (forall x, 0 <= H x) -> (forall x, cnt l x <= b x) -> (forall x, x ∈ l -> alive (heap s) x) ->
  exists h, decr_all l s = Some ((), with_heap h (next s) s) /\ heap_ok h (next s) H (fun x => b x - cnt l x) /\
    keeps (fun x => 0 < H x \/ 0 < b x - cnt l x) (heap s) h.
Proof.
  revert s b. induction l as [|a l IH]; intros s b Hh Hp Hb Ha; cbn [decr_all cnt].
  { exists (heap s). rewrite with_heap_id. split_and!; [done| |apply keeps_refl]. eapply heap_ok_ext; [..|done]; [done|intros x; cbn; lia]. }
  pose proof (Hb a) as Hba. cbn in Hba. rewrite one_eq in Hba. pose proof (cnt_nonneg l a).
  destruct (decr_spec s H b a Hh) as (h & E & Hh1 & Hk1 & _); [apply Ha; left|intros _; specialize (Hp a); lia|]. rewrite (K_bind_ok _ _ _ _ _ E).
  destruct (IH (with_heap h (next s) s) (fun x => b x - one a x) Hh1 Hp) as (h2 & E2 & Hh2 & Hk2).
  { intros x. specialize (Hb x). cbn in Hb. lia. }
  { intros x Hx. eapply keeps_alive; [exact Hk1| |apply Ha; by right]. right; left. specialize (Hb x). cbn in Hb. pose proof (cnt_elem l x Hx). lia. }
  exists h2. rewrite E2. split; [done|]. split; [eapply heap_ok_ext; [..|exact Hh2]; [done|intros x; cbn; lia]|].
  eapply keeps_trans; [eapply keeps_weaken, Hk1|eapply keeps_weaken, Hk2]; intros x; cbn; pose proof (cnt_nonneg l x); lia.
Qed.
