(* ===== verification/KeyspaceRel.v ===== *)
(** * The operations of the key space as operations on maps

    The relation between the state of the server and the maps of KeyspaceAbs, and the lemma of each operation of Keyspace: it returns, and it is related to the operation on maps. *)
From stdpp Require Import prelude list gmap strings.
From Stdlib Require Import ZArith Lia.
From S2P Require Import Prelude Util SdsText Rio Rdb Reply Resp Aof Keyspace KeyCommands KeyspaceAbs KeyspaceInv.

Local Open Scope Z_scope.
Local Open Scope redis_scope.

(** The arguments in E may have been encoded; b is the ledger. *)
Record rel (E : nat -> Prop) (b : Z -> Z) (s : ks) (t : ast) : Prop := mk_rel {
  r_heap : heap_ok (heap s) (next s) (held (dbs s) (kargv s)) b;
  r_dbs : adbs t = abs_db (heap s) <$> dbs s;
  r_exp : forall d db k, dbs s !! d = Some db -> is_Some (expires db !! k) -> is_Some (dict db !! k);
  r_sel : asel t = seldb s;
  r_lt : (seldb s < length (dbs s))%nat;
  r_args : Forall2 (fun bs a => den (heap s) a = AString bs) (aargs t) (kargv s);
  r_sds : forall i a, kargv s !! i = Some a -> ~ E i -> exists o bs, obj_at (heap s) a = Some o /\ sds_of (val o) = Some bs;
  r_wire : wire (areplies t) = wire (kreplies s);
  r_rep : arep t = rep s;
  r_const : den (heap s) shared_del = AString (str "DEL") /\ den (heap s) shared_unlink = AString (str "UNLINK") }.
Definition z0 : Z -> Z := fun _ => 0.

(** ** Computations that return *)

Definition does {A} (m : K A) (s : ks) (P : A -> ks -> Prop) : Prop := exists a s', m s = Some (a, s') /\ P a s'.
Lemma K_bind_inv {A B} (m : K A) (f : A -> K B) s b s' : (m ≫= f) s = Some (b, s') -> exists a s1, m s = Some (a, s1) /\ f a s1 = Some (b, s').
Proof. unfold mbind, K_bind. destruct (m s) as [[a s1]|]; cbn [mbind option_bind]; [|done]. by eexists _, _. Qed.
Lemma does_bind {A B} (m : K A) (f : A -> K B) s P : does m s (fun a s' => does (f a) s' P) -> does (m ≫= f) s P.
Proof. intros (a & s1 & E & b & s2 & E2 & HP). exists b, s2. split; [|done]. by rewrite (K_bind_ok _ _ _ _ _ E). Qed.
Lemma does_step {A B} (m : K A) (f : A -> K B) s (P : A -> ks -> Prop) Q : does m s P -> (forall a s', P a s' -> does (f a) s' Q) -> does (m ≫= f) s Q.
Proof. intros (a & s1 & E & HP) Hf. apply does_bind. exists a, s1. split; [done|]. by apply Hf. Qed.
Lemma does_mono {A} (m : K A) s (P Q : A -> ks -> Prop) : does m s P -> (forall a s', P a s' -> Q a s') -> does m s Q.
Proof. intros (a & s1 & E & HP) Hf. exists a, s1. split; [done|]. by apply Hf. Qed.
Lemma does_ret {A} (a : A) s (P : A -> ks -> Prop) : P a s -> does (mret a) s P.
Proof. intros HP. by exists a, s. Qed.
Lemma does_eq {A} (m : K A) a s s' (P : A -> ks -> Prop) : m s = Some (a, s') -> P a s' -> does m s P.
Proof. intros E HP. by exists a, s'. Qed.
Lemma does_get_obj a o s (P : robj -> ks -> Prop) : obj_at (heap s) a = Some o -> P o s -> does (get_obj a) s P.
Proof. intros Ho HP. exists o, s. split; [unfold get_obj; by rewrite Ho|done]. Qed.

Ltac keep H := refine (keeps_weaken _ _ _ _ _ H); cbv beta; intros; first [tauto | lia | done].

(** ** The parts of the relation *)

Section Rel.
Context (E : nat -> Prop).

Lemma rel_heap b b' s t h n :
  rel E b s t -> heap_ok h n (held (dbs s) (kargv s)) b' -> keeps (fun x => 0 < held (dbs s) (kargv s) x) (heap s) h -> rel E b' (with_heap h n s) t.
Proof.
  intros [Hh Hd He Hs Hl Ha Hsd Hw Hr [Hc1 Hc2]] Hh' Hk. split; cbn; try done.
  - rewrite Hd. apply list_fmap_ext. intros d db Hdb. unfold abs_db. f_equal. apply map_fmap_ext. intros k a Hka. symmetry. eapply den_keeps; [exact Hk|]. pose proof (held_dict _ (kargv s) _ _ _ _ Hdb Hka). cbv beta. lia.
  - apply Forall2_same_length_lookup_2; [by eapply Forall2_length|]. intros i bs a Hi Hj.
    rewrite (den_keeps _ _ _ _ Hk); [by eapply (Forall2_lookup_lr _ _ _ _ _ _ Ha)|]. pose proof (held_arg (dbs s) _ _ _ Hj). cbv beta. lia.
  - intros i a Hi HE. destruct (Hsd i a Hi HE) as (o & bs & Ho & Hbs). specialize (Hk a). rewrite Ho in Hk.
    destruct (obj_at h a) as [o'|]; [|by assert (None = Some (val o)) by (apply Hk; pose proof (held_arg (dbs s) _ _ _ Hi); cbv beta; lia)].
    exists o', bs. split; [done|]. assert (Some (val o') = Some (val o)) as [= ->]; [|done]. apply Hk. pose proof (held_arg (dbs s) _ _ _ Hi). lia.
  - assert (forall x, ext x = 1 -> 0 < held (dbs s) (kargv s) x) as Hx.
    { intros x Hx. unfold held. rewrite Hx. pose proof (in_dbs_nonneg (dbs s) x). pose proof (cnt_nonneg (kargv s) x). lia. }
    split; (rewrite (den_keeps _ _ _ _ Hk); [done|by apply Hx]).
Qed.

Lemma rel_ledger b b' s t : (forall x, b x = b' x) -> rel E b s t -> rel E b' s t.
Proof. intros Hb [Hh Hd He Hs Hl Ha Hsd Hw Hr Hc]. split; try done. by eapply heap_ok_ext. Qed.

Lemma rel_report b s t f : rel E b s t -> rel E b (with_rep (f (rep s)) s) (log f t).
Proof. intros [Hh Hd He Hs Hl Ha Hsd Hw Hr Hc]. split; try done. cbn. by rewrite Hr. Qed.

Lemma all_pieces_app l l' : all_pieces (l ++ l') = all_pieces l ++ all_pieces l'.
Proof. induction l as [|i l IH]; cbn; [done|]. by rewrite IH, app_assoc. Qed.
Lemma wire_concat l l' : wire (l ++ l') = wire l ++ wire l'.
Proof. unfold wire. by rewrite all_pieces_app, join_app. Qed.
Lemma rel_reply b s t i j : rel E b s t -> wire [i] = wire [j] -> rel E b (with_kreplies (kreplies s ++ [i]) s) (say j t).
Proof. intros [Hh Hd He Hs Hl Ha Hsd Hw Hr Hc] Hij. split; try done. cbn [areplies say kreplies with_kreplies]. by rewrite !wire_concat, Hij, Hw. Qed.

(** The object of a key. *)
Definition looked (s : ks) (d : nat) (k : key) (o : option Z) : Prop := exists db, dbs s !! d = Some db /\ o = dict db !! k.

Lemma the_db_abs b s t d db : rel E b s t -> dbs s !! d = Some db -> adbs t !! d = Some (abs_db (heap s) db) /\ the_db d t = abs_db (heap s) db.
Proof. intros Hr Hd. assert (adbs t !! d = Some (abs_db (heap s) db)) as Ha by (rewrite (r_dbs _ _ _ _ Hr), list_lookup_fmap, Hd; done). split; [done|]. unfold the_db. by rewrite Ha. Qed.
Lemma looked_value b s t d k o : rel E b s t -> looked s d k o -> value_of d k t = den (heap s) <$> o.
Proof. intros Hr (db & Hd & ->). unfold value_of. rewrite (proj2 (the_db_abs _ _ _ _ _ Hr Hd)). cbn. by rewrite lookup_fmap. Qed.
Lemma looked_expiry b s t d db k : rel E b s t -> dbs s !! d = Some db -> expiry_of d k t = expires db !! k.
Proof. intros Hr Hd. unfold expiry_of. by rewrite (proj2 (the_db_abs _ _ _ _ _ Hr Hd)). Qed.
Lemma looked_object b s t d k a : rel E b s t -> looked s d k (Some a) ->
  alive (heap s) a /\ exists o, obj_at (heap s) a = Some o /\ value_ok (val o) /\ value_of d k t = Some (abs_value (val o)) /\ den (heap s) a = abs_value (val o).
Proof.
  intros Hr Hl. pose proof (looked_value _ _ _ _ _ _ Hr Hl) as Hv. destruct Hl as (db & Hd & Hk).
  assert (alive (heap s) a) as Ha. { eapply alive_held; [apply Hr|]. pose proof (held_dict _ (kargv s) _ _ _ _ Hd (eq_sym Hk)). lia. }
  split; [done|]. destruct (obj_at_alive _ _ Ha) as [o Ho]. exists o. split; [done|]. split; [by eapply obj_value_ok; [apply Hr|..]|].
  unfold den in *. rewrite Hv. cbn. by rewrite Ho.
Qed.
Lemma arg_object b s t i a : rel E b s t -> kargv s !! i = Some a ->
  alive (heap s) a /\ exists o so, obj_at (heap s) a = Some o /\ val o = VString so /\ value_ok (VString so) /\ aargs t !! i = Some (obj_bytes so) /\ den (heap s) a = AString (obj_bytes so).
Proof.
  intros Hr Hi. assert (alive (heap s) a) as Ha. { eapply alive_held; [apply Hr|]. pose proof (held_arg (dbs s) _ _ _ Hi). lia. }
  split; [done|]. destruct (obj_at_alive _ _ Ha) as [o Ho]. destruct (Forall2_lookup_r _ _ _ _ _ (r_args _ _ _ _ Hr) Hi) as (bs & Hbs & Hd).
  pose proof (obj_value_ok _ _ _ _ _ _ (r_heap _ _ _ _ Hr) Ha Ho) as Hv. unfold den in *. rewrite Ho in Hd |- *.
  destruct (val o) as [so|ty v] eqn:Ev; [|done]. exists o, so. injection Hd as <-. done.
Qed.
Lemma args_length b s t : rel E b s t -> length (aargs t) = length (kargv s).
Proof. intros Hr. eapply Forall2_length, Hr. Qed.

(** ** Databases *)

Lemma on_db_ext d f g t : (forall db, adbs t !! d = Some db -> f db = g db) -> on_db d f t = on_db d g t.
Proof.
  intros Hf. unfold on_db, with_adbs. f_equal. apply list_eq. intros i. destruct (decide (i = d)) as [->|Hne].
  - rewrite !list_lookup_alter_eq. destruct (adbs t !! d) eqn:Ed; [|done]. cbn. f_equal. by apply Hf.
  - by rewrite !list_lookup_alter_ne.
Qed.

Lemma occ_pos m x : 0 < occ m x -> exists k, m !! k = Some x.
Proof. intros Hx%cnt_pos. apply list_elem_of_fmap in Hx as ([k y] & -> & Hy). exists k. by apply elem_of_map_to_list in Hy. Qed.

Lemma rel_set_db b b' s t d db db' f :
  rel E b s t -> dbs s !! d = Some db -> (forall x, b' x = b x + occ (dict db) x - occ (dict db') x) ->
  (forall k a, dict db' !! k = Some a -> alive (heap s) a) -> (forall k, is_Some (expires db' !! k) -> is_Some (dict db' !! k)) ->
  abs_db (heap s) db' = f (abs_db (heap s) db) -> rel E b' (with_dbs (<[d := db']> (dbs s)) s) (on_db d f t).
Proof.
  intros [Hh Hd He Hs Hl Ha Hsd Hw Hr Hc] Hdb Hb Hal Hex Hf. split; cbn; try done.
  - eapply heap_ok_shift; [exact Hh|..].
    + intros x. unfold held. rewrite (in_dbs_insert _ _ db) by done. rewrite Hb. lia.
    + intros x Hx. destruct (decide (0 < held (dbs s) (kargv s) x)); [by eapply alive_held|]. unfold held in *. rewrite (in_dbs_insert _ _ db) in Hx by done.
      destruct (occ_pos (dict db') x) as [k Hk]; [|by eapply Hal]. pose proof (in_dbs_lookup _ _ _ x Hdb). pose proof (occ_nonneg (dict db) x). lia.
    + intros x. apply held_nonneg.
  - rewrite Hd. apply list_eq. intros i. rewrite list_lookup_fmap. destruct (decide (i = d)) as [->|Hne].
    + rewrite list_lookup_alter_eq, list_lookup_insert_eq, list_lookup_fmap, Hdb by (by eapply lookup_lt_Some). cbn. by rewrite Hf.
    + by rewrite list_lookup_alter_ne, list_lookup_insert_ne, list_lookup_fmap.
  - intros i x k [(<- & <- & _)|[? Hx]]%list_lookup_insert_Some; [apply Hex|by eapply He].
  - by rewrite length_insert.
Qed.

(** What an operation on a key leaves alone. *)
Record others (b : Z -> Z) (s s1 : ks) (d : nat) (k : key) : Prop := mk_others {
  o_argv : kargv s1 = kargv s;
  o_sel : seldb s1 = seldb s;
  o_len : length (dbs s1) = length (dbs s);
  o_looked : forall d' k' o, d' <> d \/ k' <> k -> looked s d' k' o -> looked s1 d' k' o;
  o_keeps : keeps (fun x => 0 < b x) (heap s) (heap s1) }.

Lemma others_refl b s d k : others b s s d k.
Proof. by split. Qed.
Lemma others_trans b s s1 s2 d k : others b s s1 d k -> others b s1 s2 d k -> others b s s2 d k.
Proof. intros [A1 B1 C1 D1 F1] [A2 B2 C2 D2 F2]. split; [congruence..| |by eapply keeps_trans]. intros d' k' o Hne Hl. by apply D2, D1. Qed.
Lemma looked_set_db s d db d' k' o : looked s d' k' o -> d' <> d \/ dict db !! k' = o -> looked (with_dbs (<[d := db]> (dbs s)) s) d' k' o.
Proof.
  intros (x & Hx & ->) Hne. destruct (decide (d' = d)) as [->|Hd].
  - destruct Hne as [?|<-]; [done|]. exists db. cbn. rewrite list_lookup_insert_eq by (by eapply lookup_lt_Some). done.
  - exists x. cbn. by rewrite list_lookup_insert_ne.
Qed.
Lemma others_set_db b s d k db db' : dbs s !! d = Some db -> (forall k', k' <> k -> dict db' !! k' = dict db !! k') -> others b s (with_dbs (<[d := db']> (dbs s)) s) d k.
Proof.
  intros Hd Hk. split; cbn; [done..|by rewrite length_insert| |done]. intros d' k' o Hne Hl. apply looked_set_db; [done|].
  destruct (decide (d' = d)) as [->|]; [right|by left]. destruct Hl as (x & Hx & ->). rewrite Hk; [congruence|]. by destruct Hne.
Qed.

Lemma get_db_some b s t d : rel E b s t -> (d < length (dbs s))%nat -> exists db, dbs s !! d = Some db /\ get_db d s = Some (db, s).
Proof. intros _ Hd. destruct (lookup_lt_is_Some_2 _ _ Hd) as [db Hdb]. exists db. unfold get_db. by rewrite Hdb. Qed.

Lemma dict_alive b s t d db k a : rel E b s t -> dbs s !! d = Some db -> dict db !! k = Some a -> alive (heap s) a.
Proof. intros Hr Hd Hk. eapply alive_held; [apply Hr|]. pose proof (held_dict _ (kargv s) _ _ _ _ Hd Hk). lia. Qed.

(** The release of a reference of the ledger. *)
Lemma rel_decr b s t a :
  rel E b s t -> alive (heap s) a -> (0 <= a -> 2 <= held (dbs s) (kargv s) a + b a \/ held (dbs s) (kargv s) a = 0 /\ b a = 1) ->
  does (decrRefCount a) s (fun _ s1 => rel E (fun x => b x - one a x) s1 t /\ (forall d k, others (fun x => b x - one a x) s s1 d k) /\ dbs s1 = dbs s /\
    (forall x, x <> a -> obj_at (heap s1) x = obj_at (heap s) x)).
Proof.
  intros Hr Ha Hb. destruct (decr_spec s _ b a (r_heap _ _ _ _ Hr) Ha Hb) as (h & Eq & Hh & Hk & Hu). eapply does_eq; [exact Eq|].
  split; [eapply rel_heap; [done..|keep Hk]|]. split; [|done]. intros d k. split; try done. keep Hk.
Qed.
Lemma rel_incr b s t a :
  rel E b s t -> alive (heap s) a ->
  does (incrRefCount a) s (fun _ s1 => rel E (fun x => b x + one a x) s1 t /\ dbs s1 = dbs s /\ kargv s1 = kargv s /\ keeps (fun _ => True) (heap s) (heap s1) /\ seldb s1 = seldb s).
Proof.
  intros Hr Ha. destruct (incr_spec s _ b a (r_heap _ _ _ _ Hr) Ha) as (h & Eq & Hh & Hk). eapply does_eq; [exact Eq|].
  split; [eapply rel_heap; [done..|keep Hk]|done].
Qed.

Lemma dbDelete_spec b s t d k :
  rel E b s t -> (d < length (dbs s))%nat -> (forall x, 0 <= b x) ->
  does (dbDelete d k) s (fun r s1 => rel E b s1 (drop_key d k t) /\ r = bool_decide (is_Some (value_of d k t)) /\ others b s s1 d k).
Proof.
  intros Hr Hd Hb. destruct (get_db_some _ _ _ _ Hr Hd) as (db & Hdb & Eg). unfold dbDelete. apply does_bind. eapply does_eq; [exact Eg|].
  rewrite (looked_value _ _ _ _ k (dict db !! k) Hr) by (by exists db). destruct (dict db !! k) as [a|] eqn:Ek.
  - set (db' := mk_db (delete k (dict db)) (delete k (expires db))).
    assert (rel E (fun x => b x + one a x) (with_dbs (<[d := db']> (dbs s)) s) (drop_key d k t)) as Hr1.
    { eapply rel_set_db; [done..| | | |]; cbn.
      - intros x. rewrite (occ_delete _ _ a) by done. lia.
      - intros k' x [_ Hx]%lookup_delete_Some. by eapply dict_alive.
      - intros k' [w [Hne Hw]%lookup_delete_Some]. rewrite lookup_delete_ne by done. eapply r_exp; by eauto.
      - unfold abs_db. cbn. by rewrite fmap_delete. }
    apply does_bind. eapply does_eq; [done|]. assert (alive (heap s) a) as Ha by by eapply dict_alive.
    eapply does_step; [apply (rel_decr _ _ _ a Hr1)|].
    + done.
    + intros _. rewrite one_eq. specialize (Hb a). pose proof (held_nonneg (<[d := db']> (dbs s)) (kargv s) a). cbn. lia.
    + cbn. intros _ s1 (Hr2 & Ho & _). apply does_ret. split; [eapply rel_ledger, Hr2; intros x; cbn; lia|]. split; [done|].
      eapply others_trans; [apply (others_set_db _ s d k db db'); [done|]; intros k' Hk'; cbn; by rewrite lookup_delete_ne|].
      specialize (Ho d k). destruct Ho as [? ? ? ? HK]. split; try done. keep HK.
  - apply does_bind. eapply does_eq; [done|]. apply does_ret. split; [|split; [done|by eapply others_set_db]].
    eapply rel_set_db; [done..| | | |]; cbn.
    + intros x. lia.
    + intros k' x Hx. by eapply dict_alive.
    + intros k' [w [Hne Hw]%lookup_delete_Some]. eapply r_exp; by eauto.
    + unfold abs_db. cbn. rewrite (delete_id (den _ <$> _)); [done|]. by rewrite lookup_fmap, Ek.
Qed.

(** ** Expiry and lookup *)

Lemma on_report_spec b s t f : rel E b s t -> does (on_report f) s (fun _ s1 => rel E b s1 (log f t) /\ s1 = with_rep (f (rep s)) s).
Proof. intros Hr. eapply does_eq; [done|]. split; [by apply rel_report|done]. Qed.
Lemma others_report b s r d k : others b s (with_rep r s) d k.
Proof. by split. Qed.

Lemma getExpire_spec b s t d k : rel E b s t -> (d < length (dbs s))%nat -> getExpire d k s = Some (expiry_or d k t, s).
Proof.
  intros Hr Hd. destruct (get_db_some _ _ _ _ Hr Hd) as (db & Hdb & Eg). unfold getExpire. rewrite (K_bind_ok _ _ _ _ _ Eg).
  unfold expiry_or. rewrite (looked_expiry _ _ _ _ _ _ Hr Hdb). destruct (expires db !! k) as [w|] eqn:Ew; [|done].
  rewrite (K_bind_ok _ _ _ () s); [done|]. unfold assertK. rewrite bool_decide_eq_true_2; [done|]. by eapply r_exp; eauto.
Qed.

Lemma keyIsExpired_spec b e s t d k : rel E b s t -> (d < length (dbs s))%nat -> keyIsExpired e d k s = Some (expired e d k t, s).
Proof.
  intros Hr Hd. unfold keyIsExpired. rewrite (K_bind_ok _ _ _ _ _ (getExpire_spec _ _ _ _ k Hr Hd)). unfold mret, K_ret, expired, expiry_or. do 2 f_equal.
  destruct (expiry_of d k t) as [w|]; cbn [from_option]; [unfold Datatypes.id|done]. destruct (Z.ltb_spec w 0), (Z.leb_spec 0 w); try lia; try done. by destruct (k_loading e).
Qed.

Lemma expired_value b e s t d k : rel E b s t -> (d < length (dbs s))%nat -> expired e d k t = true -> is_Some (value_of d k t).
Proof.
  intros Hr Hd Hx. destruct (get_db_some _ _ _ _ Hr Hd) as (db & Hdb & _). unfold expired in Hx. rewrite (looked_expiry _ _ _ _ _ _ Hr Hdb) in Hx.
  rewrite (looked_value _ _ _ _ k (dict db !! k) Hr) by (by exists db). apply fmap_is_Some. eapply r_exp; [done..|]. by destruct (expires db !! k).
Qed.

Lemma expireIfNeeded_spec b e s t d k :
  rel E b s t -> (d < length (dbs s))%nat -> (forall x, 0 <= b x) ->
  does (expireIfNeeded e d k) s (fun r s1 => rel E b s1 (purge e d k t) /\ r = expired e d k t /\ others b s s1 d k).
Proof.
  intros Hr Hd Hb. unfold expireIfNeeded, purge. apply does_bind. eapply does_eq; [by eapply keyIsExpired_spec|].
  destruct (expired e d k t) eqn:Ex; cbn [negb andb]; [|apply does_ret; by split_and!; [|done|apply others_refl]].
  destruct (k_master e); cbn [negb]; [|apply does_ret; by split_and!; [|done|apply others_refl]].
  eapply does_step; [by eapply on_report_spec|]. intros _ s1 [Hr1 ->]. eapply does_step; [by eapply on_report_spec|]. intros _ s2 [Hr2 ->].
  eapply does_mono; [by apply (dbDelete_spec _ _ _ d k Hr2)|]. intros r s3 (Hr3 & -> & Ho3). split; [done|]. split.
  - rewrite bool_decide_eq_true_2; [done|]. by apply (expired_value b e s t d k).
  - eapply others_trans; [|exact Ho3]. by split.
Qed.

Lemma lookup_looked s d k : (d < length (dbs s))%nat -> does (lookupKey d k) s (fun o s1 => s1 = s /\ looked s d k o).
Proof.
  intros Hd. destruct (lookup_lt_is_Some_2 _ _ Hd) as [db Hdb]. eapply does_eq; [unfold lookupKey, get_db, mbind, K_bind; by rewrite Hdb|]. split; [done|]. by exists db.
Qed.

Lemma lookupKeyWrite_spec b e s t d k :
  rel E b s t -> (d < length (dbs s))%nat -> (forall x, 0 <= b x) ->
  does (lookupKeyWrite e d k) s (fun o s1 => rel E b s1 (purge e d k t) /\ looked s1 d k o /\ others b s s1 d k).
Proof.
  intros Hr Hd Hb. unfold lookupKeyWrite. eapply does_step; [by eapply expireIfNeeded_spec|]. intros x s1 (Hr1 & _ & Ho).
  eapply does_mono; [apply lookup_looked; by rewrite (o_len _ _ _ _ _ Ho)|]. by intros o s2 [-> Hl].
Qed.

Definition saw (e : kenv) (b : Z -> Z) (t : ast) (d : nat) (k : key) (s : ks) (o : option Z) (s1 : ks) : Prop :=
  rel E b s1 (purge e d k t) /\ visible e d k t = den (heap s1) <$> o /\ (forall a, o = Some a -> looked s1 d k o) /\ others b s s1 d k.

Lemma lookupKeyRead_spec b e s t d k :
  rel E b s t -> (d < length (dbs s))%nat -> (forall x, 0 <= b x) -> does (lookupKeyRead e d k) s (saw e b t d k s).
Proof.
  intros Hr Hd Hb. unfold lookupKeyRead, saw, visible. eapply does_step; [by eapply expireIfNeeded_spec|]. intros x s1 (Hr1 & -> & Ho).
  destruct (expired e d k t && (k_master e || _)) eqn:Ev; [by apply does_ret|].
  eapply does_mono; [apply lookup_looked; by rewrite (o_len _ _ _ _ _ Ho)|]. intros o s2 [-> Hl]. split; [done|]. split; [|done].
  rewrite <-(looked_value _ _ _ _ _ _ Hr1 Hl). unfold purge. destruct (expired e d k t); [|done]. by destruct (k_master e).
Qed.

Lemma say_spec b s t i j : rel E b s t -> wire [i] = wire [j] -> does (replyK i) s (fun _ s1 => rel E b s1 (say j t) /\ s1 = with_kreplies (kreplies s ++ [i]) s).
Proof. intros Hr Hw. eapply does_eq; [done|]. split; [by apply rel_reply|done]. Qed.
Lemma shared_spec b s t r : rel E b s t -> does (reply_shared r) s (fun _ s1 => rel E b s1 (shared r t) /\ s1 = with_kreplies (kreplies s ++ [shared_item r]) s).
Proof. intros Hr. by apply say_spec. Qed.

(** ** Changes of a key *)

Lemma looked_here s d k db : dbs s !! d = Some db -> looked s d k (dict db !! k).
Proof. intros Hd. by exists db. Qed.
Lemma looked_new s d k db x : (d < length (dbs s))%nat -> dict db !! k = x -> looked (with_dbs (<[d := db]> (dbs s)) s) d k x.
Proof. intros Hd <-. exists db. cbn. by rewrite list_lookup_insert_eq. Qed.

Lemma dbAdd_spec b s t d k a :
  rel E b s t -> looked s d k None -> alive (heap s) a ->
  does (dbAdd d k a) s (fun _ s1 => rel E (fun x => b x - one a x) s1 (made_ready d k (den (heap s) a) (store d k (den (heap s) a) t)) /\
    looked s1 d k (Some a) /\ others b s s1 d k /\ heap s1 = heap s).
Proof.
  intros Hr (db & Hdb & Hk) Ha. unfold dbAdd. apply does_bind. eapply does_eq; [unfold get_db; by rewrite Hdb|].
  apply does_bind. eapply does_eq; [unfold assertK; by rewrite bool_decide_eq_true_2|].
  set (db' := mk_db (<[k := a]> (dict db)) (expires db)). set (s1 := with_dbs (<[d := db']> (dbs s)) s).
  assert (rel E (fun x => b x - one a x) s1 (store d k (den (heap s) a) t)) as Hr1.
  { eapply rel_set_db; [done..| | | |]; cbn.
    - intros x. rewrite occ_insert by done. lia.
    - intros k' x [[<- <-]|[_ Hx]]%lookup_insert_Some; [done|by eapply dict_alive].
    - intros k' Hk'. rewrite lookup_insert_is_Some'. right. eapply r_exp; by eauto.
    - unfold abs_db. cbn. by rewrite fmap_insert. }
  assert (looked s1 d k (Some a)) as Hl1. { apply looked_new; [by eapply lookup_lt_Some|]. apply lookup_insert_eq. }
  assert (others b s s1 d k) as Ho1. { apply (others_set_db _ _ _ _ db db'); [done|]. intros k' Hne. cbn. by rewrite lookup_insert_ne. }
  apply does_bind. eapply does_eq; [done|]. destruct (obj_at_alive _ _ Ha) as [o Ho]. apply does_bind. eapply does_get_obj; [exact Ho|].
  unfold made_ready. assert (atype (den (heap s) a) = type_of (val o)) as -> by (unfold den; rewrite Ho; apply abs_value_type).
  case_bool_decide; [|by apply does_ret]. eapply does_mono; [by eapply on_report_spec|]. intros _ s2 [Hr2 ->]. split; [done|]. split; [done|]. split; [|done]. eapply others_trans; [done|]. by split.
Qed.

Lemma dbOverwrite_spec b s t d k a old :
  rel E b s t -> looked s d k (Some old) -> alive (heap s) a -> (forall x, x <> a -> 0 <= b x) -> (a = old -> 2 <= held (dbs s) (kargv s) a + b a) ->
  (a <> old -> 0 <= b old) ->
  does (dbOverwrite d k a) s (fun _ s1 => rel E (fun x => b x - one a x) s1 (store d k (den (heap s) a) t) /\
    looked s1 d k (Some a) /\ others (fun x => b x - one a x) s s1 d k /\ den (heap s1) a = den (heap s) a /\ (a <> old -> obj_at (heap s1) a = obj_at (heap s) a)).
Proof.
  intros Hr (db & Hdb & Hk) Ha Hb Hsame Hold. unfold dbOverwrite. apply does_bind. eapply does_eq; [unfold get_db; by rewrite Hdb|].
  apply does_bind. eapply does_eq; [unfold liftK; by rewrite <-Hk|].
  set (db' := mk_db (<[k := a]> (dict db)) (expires db)). set (s1 := with_dbs (<[d := db']> (dbs s)) s).
  assert (rel E (fun x => b x - one a x + one old x) s1 (store d k (den (heap s) a) t)) as Hr1.
  { eapply rel_set_db; [done..| | | |]; cbn.
    - intros x. rewrite (occ_overwrite _ _ old) by done. lia.
    - intros k' x [[<- <-]|[_ Hx]]%lookup_insert_Some; [done|by eapply dict_alive].
    - intros k' Hk'. rewrite lookup_insert_is_Some'. right. eapply r_exp; by eauto.
    - unfold abs_db. cbn. by rewrite fmap_insert. }
  assert (looked s1 d k (Some a)) as Hl1. { apply looked_new; [by eapply lookup_lt_Some|]. apply lookup_insert_eq. }
  assert (forall b, others b s s1 d k) as Ho1. { intros b'. apply (others_set_db _ _ _ _ db db'); [done|]. intros k' Hne. cbn. by rewrite lookup_insert_ne. }
  apply does_bind. eapply does_eq; [done|]. assert (alive (heap s) old) as Hao by by eapply dict_alive.
  assert (held (dbs s1) (kargv s1) old = held (dbs s) (kargv s) old - 1 + one a old) as Hheld.
  { unfold held. cbn. rewrite (in_dbs_insert _ _ db) by done. cbn. rewrite (occ_overwrite _ _ old), one_eq by done. lia. }
  pose proof (held_nonneg (dbs s1) (kargv s1) old) as Hnn. eapply does_mono; [apply (rel_decr _ _ _ old Hr1); [done|]|].
  - intros _. rewrite one_eq. destruct (decide (a = old)) as [->|Hne]; [left; rewrite one_eq in *; specialize (Hsame eq_refl); lia|].
    rewrite one_ne in * by done. specialize (Hold Hne). lia.
  - cbn. intros _ s2 (Hr2 & Ho2 & Hd2 & Hu2). split; [eapply rel_ledger, Hr2; intros x; cbn; lia|]. split.
    { destruct Hl1 as (x & Hx & Hxk). exists x. by rewrite Hd2. }
    split; [|split; [|apply Hu2]].
    + eapply others_trans; [apply Ho1|]. specialize (Ho2 d k). destruct Ho2 as [? ? ? ? HK]. split; try done. keep HK.
    + pose proof (looked_value _ _ _ _ _ _ Hr1 Hl1) as Hv1. assert (looked s2 d k (Some a)) as Hl2 by (destruct Hl1 as (x & Hx & Hxk); exists x; by rewrite Hd2).
      pose proof (looked_value _ _ _ _ _ _ Hr2 Hl2) as Hv2. rewrite Hv1 in Hv2. cbn in Hv2. congruence.
Qed.

Lemma removeExpire_spec b s t d k a :
  rel E b s t -> looked s d k (Some a) ->
  does (removeExpire d k) s (fun r s1 => rel E b s1 (clear_expiry d k t) /\ r = bool_decide (is_Some (expiry_of d k t)) /\ (forall b', others b' s s1 d k) /\ heap s1 = heap s /\ looked s1 d k (Some a)).
Proof.
  intros Hr (db & Hdb & Hk). unfold removeExpire. apply does_bind. eapply does_eq; [unfold get_db; by rewrite Hdb|].
  apply does_bind. eapply does_eq; [unfold assertK; rewrite <-Hk; by rewrite bool_decide_eq_true_2|]. apply does_bind. eapply does_eq; [done|]. apply does_ret.
  split; [|rewrite (looked_expiry _ _ _ _ _ _ Hr Hdb); split; [done|split; [|split; [done|]]]].
  - eapply rel_set_db; [done..| | | |]; cbn; [intros x; lia|by intros; eapply dict_alive| |done]. intros k' [w [_ Hw]%lookup_delete_Some]. eapply r_exp; by eauto.
  - intros b'. by eapply others_set_db.
  - apply looked_new; [by eapply lookup_lt_Some|done].
Qed.

Lemma setExpire_spec b e s t d k a w :
  rel E b s t -> looked s d k (Some a) ->
  does (setExpire e d k w) s (fun _ s1 => rel E b s1 (expire_at e d k w t) /\ (forall b', others b' s s1 d k) /\ heap s1 = heap s /\ looked s1 d k (Some a)).
Proof.
  intros Hr (db & Hdb & Hk). unfold setExpire. apply does_bind. eapply does_eq; [unfold get_db; by rewrite Hdb|].
  apply does_bind. eapply does_eq; [unfold assertK; rewrite <-Hk; by rewrite bool_decide_eq_true_2|]. apply does_bind. eapply does_eq; [done|].
  set (db' := mk_db (dict db) (<[k := w]> (expires db))). set (s1 := with_dbs (<[d := db']> (dbs s)) s).
  assert (rel E b s1 (on_db d (fun db => mk_db (dict db) (<[k := w]> (expires db))) t)) as Hr1.
  { eapply rel_set_db; [done..| | | |]; cbn; [intros x; lia|by intros; eapply dict_alive| |done].
    intros k' [v [[<- _]|[_ Hw]]%lookup_insert_Some]; [by rewrite <-Hk|]. eapply r_exp; by eauto. }
  assert (forall b', others b' s s1 d k) as Ho1 by (intros b'; by eapply others_set_db).
  assert (looked s1 d k (Some a)) as Hl1 by (apply looked_new; [by eapply lookup_lt_Some|done]).
  unfold expire_at. destruct (negb (k_master e) && negb (k_slave_ro e) && negb (k_client_master e)); cbn [andb]; [|by apply does_ret].
  unfold rememberSlaveKeyWithExpire. destruct (Z.ltb_spec 63 (Z.of_nat d)), (Z.leb_spec (Z.of_nat d) 63); try lia; [by apply does_ret|].
  eapply does_mono; [by eapply on_report_spec|]. intros _ s2 [Hr2 ->]. split; [done|]. split; [|done]. intros b'. eapply others_trans; [done|]. by split.
Qed.

Lemma rel_lt b s t d : rel E b s t -> (d < length (dbs s))%nat <-> (d < length (adbs t))%nat.
Proof. intros Hr. by rewrite (r_dbs _ _ _ _ Hr), length_fmap. Qed.

Lemma aargs_purge e d k t : aargs (purge e d k t) = aargs t.
Proof. unfold purge. by destruct (_ && _). Qed.
Lemma asel_purge e d k t : asel (purge e d k t) = asel t.
Proof. unfold purge. by destruct (_ && _). Qed.

Lemma setKey_spec e s t d k i a v :
  rel E z0 s t -> (d < length (dbs s))%nat -> kargv s !! i = Some a -> aargs t !! i = Some v ->
  does (setKey e d k a) s (fun _ s1 => rel E z0 s1 (replace e d k (AString v) t) /\ looked s1 d k (Some a) /\ others z0 s s1 d k).
Proof.
  intros Hr Hd Hi Hv. unfold setKey, replace. eapply does_step; [by apply (lookupKeyWrite_spec z0 e s t d k)|]. intros o s1 (Hr1 & Hl1 & Ho1).
  pose proof (o_argv _ _ _ _ _ Ho1) as Hargv. rewrite <-Hargv in Hi.
  destruct (arg_object _ _ _ _ _ Hr1 Hi) as (Ha & ob & so & _ & _ & _ & Hbs & Hden). rewrite aargs_purge in Hbs. rewrite Hv in Hbs. injection Hbs as ->.
  pose proof (held_arg (dbs s1) _ _ _ Hi) as Hheld.
  assert (does (match o with None => dbAdd d k a | Some _ => dbOverwrite d k a end) s1 (fun _ s2 =>
    rel E (fun x => - one a x) s2 (store d k (AString (obj_bytes so)) (purge e d k t)) /\ looked s2 d k (Some a) /\ others z0 s s2 d k /\ alive (heap s2) a)) as Hset.
  { destruct o as [old|].
    - eapply does_mono; [apply (dbOverwrite_spec z0 _ _ d k a old Hr1 Hl1 Ha); [done| |done]|].
      + intros ->. destruct Hl1 as (db & Hdb & Hk). cbn. unfold held, z0 in *. pose proof (in_dbs_lookup _ _ _ old Hdb). pose proof (occ_lookup _ _ _ (eq_sym Hk)).
        pose proof (cnt_elem _ _ (list_elem_of_lookup_2 _ _ _ Hi)). pose proof (ext_nonneg old). lia.
      + cbn. intros _ s2 (Hr2 & Hl2 & Ho2 & Hd2 & _). rewrite Hden in Hr2. split; [eapply rel_ledger, Hr2; intros x; unfold z0; lia|]. split; [done|]. split.
        * eapply others_trans; [done|]. destruct Ho2 as [? ? ? ? ?]. by split.
        * by eapply looked_object.
    - eapply does_mono; [by apply (dbAdd_spec z0 _ _ d k a Hr1 Hl1 Ha)|]. cbn. intros _ s2 (Hr2 & Hl2 & Ho2 & Hh2). rewrite Hden in Hr2.
      split; [eapply rel_ledger, Hr2; intros x; unfold z0; lia|]. split; [done|]. split; [by eapply others_trans|]. by rewrite Hh2. }
  eapply does_step; [exact Hset|]. intros _ s2 (Hr2 & Hl2 & Ho2 & Ha2).
  eapply does_step; [by apply (rel_incr _ _ _ a Hr2)|]. cbn. intros _ s3 (Hr3 & Hd3 & Hv3 & Hk3 & Hs3).
  assert (looked s3 d k (Some a)) as Hl3 by (destruct Hl2 as (x & Hx & Hxk); exists x; by rewrite Hd3).
  eapply does_step; [by apply (removeExpire_spec _ _ _ d k a Hr3)|]. intros _ s4 (Hr4 & _ & Ho4 & _ & Hl4).
  eapply does_mono; [by eapply on_report_spec|]. intros _ s5 [Hr5 ->]. split; [eapply rel_ledger, Hr5; intros x; unfold z0; lia|]. split; [by destruct Hl4 as (x & Hx & Hxk); exists x|].
  eapply others_trans; [exact Ho2|]. eapply (others_trans _ _ s3); [|eapply others_trans; [apply Ho4|by split]].
  split; [done|done|by rewrite Hd3| |by keep Hk3]. intros d' k' x _ (y & Hy & Hxy). exists y. by rewrite Hd3.
Qed.

(** ** Arguments and numbers *)

Lemma arg_spec b s t i : rel E b s t -> (i < length (aargs t))%nat -> exists a, kargv s !! i = Some a /\ arg i s = Some (a, s).
Proof.
  intros Hr Hi. rewrite (args_length _ _ _ Hr) in Hi. destruct (lookup_lt_is_Some_2 _ _ Hi) as [a Ha]. exists a. split; [done|]. unfold arg. by rewrite Ha.
Qed.
Lemma karg_lookup i t : (i < length (aargs t))%nat -> aargs t !! i = Some (karg i t).
Proof. intros Hi. unfold karg. by destruct (lookup_lt_is_Some_2 _ _ Hi) as [bs ->]. Qed.
Lemma arg_sds_spec b s t i : rel E b s t -> (i < length (aargs t))%nat -> ~ E i -> arg_sds i s = Some (karg i t, s).
Proof.
  intros Hr Hi HE. destruct (arg_spec _ _ _ _ Hr Hi) as (a & Ha & Ea). unfold arg_sds. rewrite (K_bind_ok _ _ _ _ _ Ea).
  destruct (arg_object _ _ _ _ _ Hr Ha) as (_ & o & so & Ho & Hv & _ & Hb & _). destruct (r_sds _ _ _ _ Hr i a Ha HE) as (o' & bs & Ho' & Hs).
  rewrite (K_bind_ok _ _ _ o s) by (unfold get_obj; by rewrite Ho). rewrite Ho in Ho'. injection Ho' as <-. unfold liftK. rewrite Hs. cbn.
  rewrite (karg_lookup i t Hi) in Hb. injection Hb as ->. rewrite Hv in Hs. destruct so; cbn in *; congruence.
Qed.

Lemma getLongLong_spec s a o bs : obj_at (heap s) a = Some o -> value_ok (val o) -> abs_value (val o) = AString bs -> getLongLongFromObject (Some a) s = Some (string2ll bs, s).
Proof.
  intros Ho Hv Hb. unfold getLongLongFromObject. rewrite (K_bind_ok _ _ _ o s) by (unfold get_obj; by rewrite Ho).
  destruct (val o) as [so|? ?] eqn:Ev; [|done]. rewrite (K_bind_ok _ _ _ so s) by done. injection Hb as <-. unfold mret, K_ret. do 2 f_equal.
  destruct so as [sh v|?|?]; [|done..]. symmetry. by apply string2ll_int.
Qed.
Lemma number_spec b s t a o bs msg :
  rel E b s t -> obj_at (heap s) a = Some o -> value_ok (val o) -> abs_value (val o) = AString bs ->
  does (getLongLongFromObjectOrReply (Some a) msg) s (fun r s1 => r = string2ll bs /\
    match string2ll bs with Some _ => s1 = s | None => rel E b s1 (failed (default not_integer msg) t) end).
Proof.
  intros Hr Ho Hv Hb. unfold getLongLongFromObjectOrReply. apply does_bind. eapply does_eq; [by eapply getLongLong_spec|]. destruct (string2ll bs); [by apply does_ret|].
  eapply does_step; [by apply (say_spec _ _ _ _ (RError (str (default not_integer msg))) Hr)|]. intros _ s1 [Hr1 _]. by apply does_ret.
Qed.
Lemma arg_number b s t i msg a :
  rel E b s t -> kargv s !! i = Some a ->
  does (getLongLongFromObjectOrReply (Some a) msg) s (fun r s1 => r = string2ll (karg i t) /\
    match string2ll (karg i t) with Some _ => s1 = s | None => rel E b s1 (failed (default not_integer msg) t) end).
Proof.
  intros Hr Hi. destruct (arg_object _ _ _ _ _ Hr Hi) as (_ & o & so & Ho & Hv & Hok & Hb & _). unfold karg. rewrite Hb. cbn.
  eapply number_spec; [done..| |]; by rewrite Hv.
Qed.
Lemma arg_long b s t i msg a :
  rel E b s t -> kargv s !! i = Some a ->
  does (getLongFromObjectOrReply (Some a) msg) s (fun r s1 => r = string2ll (karg i t) /\
    match string2ll (karg i t) with Some _ => s1 = s | None => rel E b s1 (failed (default not_integer msg) t) end).
Proof.
  intros Hr Hi. unfold getLongFromObjectOrReply. eapply does_step; [by apply (arg_number _ _ _ i msg a Hr Hi)|]. intros r s1 [-> Hs1].
  destruct (string2ll (karg i t)) as [v|] eqn:Ev; [|by apply does_ret]. apply string2ll_range in Ev. unfold LONG_MIN, LONG_MAX, LLONG_MIN, LLONG_MAX in *.
  destruct (Z.ltb_spec v (- 2 ^ 63)), (Z.ltb_spec (2 ^ 63 - 1) v); try lia. by apply does_ret.
Qed.
Lemma checkType_spec b s t a o :
  rel E b s t -> obj_at (heap s) a = Some o -> value_ok (val o) ->
  does (checkType a OBJ_STRING) s (fun r s1 => match abs_value (val o) with AString _ => r = false /\ s1 = s | AOther _ _ => r = true /\ rel E b s1 (shared Wrongtypeerr t) end).
Proof.
  intros Hr Ho Hv. unfold checkType. apply does_bind. eapply does_get_obj; [done|]. destruct (val o) as [so|ty v]; cbn; [by apply does_ret|].
  cbn in Hv. rewrite bool_decide_eq_false_2 by done. eapply does_step; [by apply (shared_spec _ _ _ Wrongtypeerr Hr)|]. intros _ s1 [Hr1 _]. by apply does_ret.
Qed.
Lemma stringLen_spec s a o bs : obj_at (heap s) a = Some o -> value_ok (val o) -> abs_value (val o) = AString bs -> stringObjectLen a s = Some (zlen bs, s).
Proof.
  intros Ho Hv Hb. unfold stringObjectLen. rewrite (K_bind_ok _ _ _ o s) by (unfold get_obj; by rewrite Ho).
  destruct (val o) as [so|? ?] eqn:Ev; [|done]. rewrite (K_bind_ok _ _ _ so s) by done. injection Hb as <-.
  destruct so as [sh v|?|?]; [|done..]. unfold liftK. cbn. by rewrite sdigits10_spec.
Qed.

(** ** Encoding of an argument, changes in place *)

Lemma cnt_two l i j a : i <> j -> l !! i = Some a -> l !! j = Some a -> 2 <= cnt l a.
Proof.
  intros Hne Hi Hj. pose proof (cnt_insert l i a (a + 1) a Hi) as Hc. rewrite one_eq, one_ne in Hc by lia.
  assert (1 <= cnt (<[i := a + 1]> l) a); [|lia]. apply cnt_elem, (list_elem_of_lookup_2 _ j). by rewrite list_lookup_insert_ne.
Qed.

Lemma encode_arg_spec e s t i a bs :
  rel E z0 s t -> E i -> kargv s !! i = Some a -> aargs t !! i = Some bs ->
  does (encode_arg e i) s (fun a' s1 => rel E z0 s1 t /\ kargv s1 !! i = Some a' /\ dbs s1 = dbs s /\ seldb s1 = seldb s /\ length (kargv s1) = length (kargv s) /\
    (forall j, j <> i -> kargv s1 !! j = kargv s !! j)).
Proof.
  intros Hr HE Hi Hbs. destruct (arg_object _ _ _ _ _ Hr Hi) as (Ha & o & so & Ho & Hv & _ & Hb & Hd). rewrite Hbs in Hb. injection Hb as ->.
  set (H := fun x => held (dbs s) (kargv s) x - one a x).
  assert (forall x, held (dbs s) (kargv s) x = in_dbs (dbs s) x + cnt (kargv s) x + ext x) as Hheld by done.
  assert (forall x, 0 <= H x) as Hnn.
  { intros x. unfold H. pose proof (in_dbs_nonneg (dbs s) x). pose proof (cnt_nonneg (kargv s) x). pose proof (ext_nonneg x). rewrite Hheld. unfold one. case_decide; [subst|lia].
    pose proof (cnt_elem _ _ (list_elem_of_lookup_2 _ _ _ Hi)). lia. }
  assert (heap_ok (heap s) (next s) H (one a)) as Hh.
  { eapply heap_ok_shift; [apply Hr|..|done]; [intros x; unfold H, z0; lia|]. intros x Hx. eapply alive_held; [apply Hr|]. unfold H in Hx. pose proof (one_nonneg a x). lia. }
  destruct (encoding_spec e s H (one a) a o so Hh Hnn Ha Ho Hv) as (a' & h & n & Eq & Hh' & Hk & Ha' & Hd'); [by rewrite one_eq|].
  unfold encode_arg. apply does_bind. eapply does_eq; [unfold arg; by rewrite Hi|]. apply does_bind. eapply does_eq; [exact Eq|]. apply does_bind. eapply does_eq; [done|]. apply does_ret.
  pose proof (lookup_lt_Some _ _ _ Hi) as Hlt. split; [|cbn; split_and!; [by rewrite list_lookup_insert_eq|done|done|by rewrite length_insert|intros j Hj; by rewrite list_lookup_insert_ne]].
  assert (forall j x, j <> i -> kargv s !! j = Some x -> 0 < H x) as Hj.
  { intros j x Hne Hx. unfold H. rewrite Hheld. pose proof (in_dbs_nonneg (dbs s) x). pose proof (ext_nonneg x). unfold one. case_decide; [subst; pose proof (cnt_two _ _ _ _ Hne Hx Hi); lia|].
    pose proof (cnt_elem _ _ (list_elem_of_lookup_2 _ _ _ Hx)). lia. }
  assert (forall x, 1 <= in_dbs (dbs s) x \/ ext x = 1 -> 0 < H x) as Hdb.
  { intros x Hx. unfold H. rewrite Hheld. pose proof (in_dbs_nonneg (dbs s) x). pose proof (ext_nonneg x). unfold one. case_decide; [subst; pose proof (cnt_elem _ _ (list_elem_of_lookup_2 _ _ _ Hi)); lia|]. pose proof (cnt_nonneg (kargv s) x). lia. }
  destruct Hr as [_ Hds He Hs Hl Hargs Hsd Hw Hrep [Hc1 Hc2]]. split; cbn; try done.
  - eapply heap_ok_shift; [exact Hh'|..].
    + intros x. unfold H, held, z0. rewrite (cnt_insert _ _ a) by done. lia.
    + intros x Hx. unfold held in Hx. rewrite (cnt_insert _ _ a) in Hx by done. destruct (decide (x = a')) as [->|Hne]; [done|]. rewrite (one_ne a') in Hx by done.
      eapply alive_held; [exact Hh'|]. unfold H. rewrite Hheld. lia.
    + intros x. apply held_nonneg.
  - rewrite Hds. apply list_fmap_ext. intros d db Hdb'. unfold abs_db. f_equal. apply map_fmap_ext. intros k x Hx. symmetry. eapply den_keeps; [exact Hk|]. apply Hdb. left.
    pose proof (in_dbs_lookup _ _ _ x Hdb'). pose proof (occ_lookup _ _ _ Hx). lia.
  - apply Forall2_same_length_lookup_2; [rewrite length_insert; by eapply Forall2_length|]. intros j bs x Hj1 Hj2. destruct (decide (j = i)) as [->|Hne].
    + rewrite list_lookup_insert_eq in Hj2 by done. injection Hj2 as <-. rewrite Hd'. congruence.
    + rewrite list_lookup_insert_ne in Hj2 by done. rewrite (den_keeps _ _ _ _ Hk) by (by eapply Hj). by eapply (Forall2_lookup_lr _ _ _ _ _ _ Hargs).
  - intros j x Hjx HEj. destruct (decide (j = i)) as [->|Hne]; [done|]. rewrite list_lookup_insert_ne in Hjx by done. destruct (Hsd j x Hjx HEj) as (o' & bs' & Ho' & Hs').
    specialize (Hk x (Hj _ _ Hne Hjx)). rewrite Ho' in Hk. destruct (obj_at h x) as [o2|]; [|done]. exists o2, bs'. split; [done|]. cbn in Hk. congruence.
  - split; (rewrite (den_keeps _ _ _ _ Hk); [done|by apply Hdb; right]).
Qed.

(** An object that only a key holds. *)
Lemma sole_holder s t d k a o :
  rel E z0 s t -> looked s d k (Some a) -> obj_at (heap s) a = Some o -> refcount o = 1 ->
  heap s !! a = Some o /\ held (dbs s) (kargv s) a = 1 /\ (forall d' k', looked s d' k' (Some a) -> d' = d /\ k' = k) /\ (forall i, kargv s !! i <> Some a) /\ ext a = 0.
Proof.
  intros Hr (db & Hdb & Hk) Ho Hc.
  assert (0 <= a) as Ha0. { unfold obj_at in Ho. destruct (Z.ltb_spec a 0); [|lia]. injection Ho as <-. done. }
  pose proof (alive_nonneg _ _ _ Ha0 Ho) as Ho'. destruct (ho_count _ _ _ _ (r_heap _ _ _ _ Hr) _ _ Ho') as (_ & _ & Hcnt).
  assert (held (dbs s) (kargv s) a = 1) as Hh by (unfold z0, OBJ_SHARED_REFCOUNT in *; lia).
  pose proof (in_dbs_lookup _ _ _ a Hdb) as Hi. pose proof (occ_lookup _ _ _ (eq_sym Hk)) as Hoc. pose proof (cnt_nonneg (kargv s) a) as Hcn. pose proof (ext_nonneg a) as Hen.
  assert (cnt (kargv s) a = 0 /\ ext a = 0 /\ in_dbs (dbs s) a = 1) as (Hc0 & He0 & Hi1) by (unfold held in Hh; lia).
  split_and!; [done|done| | |done].
  - intros d' k' (db' & Hdb' & Hk'). destruct (decide (d' = d)) as [->|Hne].
    + split; [done|]. replace db' with db in * by congruence. destruct (decide (k' = k)) as [|Hnk]; [done|]. exfalso.
      pose proof (occ_delete (dict db) k a a (eq_sym Hk)) as Hd. rewrite one_eq in Hd. assert (1 <= occ (delete k (dict db)) a); [|lia]. eapply (occ_lookup _ k'). by rewrite lookup_delete_ne.
    + exfalso. pose proof (in_dbs_insert (dbs s) d db (mk_db ∅ ∅) a Hdb) as Hd. cbn in Hd. rewrite occ_empty in Hd.
      assert (occ (dict db') a <= in_dbs (<[d := mk_db ∅ ∅]> (dbs s)) a) as Hx by (apply (in_dbs_lookup _ d'); by rewrite list_lookup_insert_ne).
      pose proof (occ_lookup _ _ _ (eq_sym Hk')). lia.
  - intros i Hia. pose proof (cnt_elem _ _ (list_elem_of_lookup_2 _ _ _ Hia)). lia.
Qed.

Lemma modify_spec s t d k a o v :
  rel E z0 s t -> looked s d k (Some a) -> obj_at (heap s) a = Some o -> refcount o = 1 -> value_ok v ->
  does (set_obj a (mk_robj v (refcount o))) s (fun _ s1 => rel E z0 s1 (store d k (abs_value v) t) /\ dbs s1 = dbs s /\ seldb s1 = seldb s /\ kargv s1 = kargv s /\
    looked s1 d k (Some a) /\ obj_at (heap s1) a = Some (mk_robj v 1)).
Proof.
  intros Hr Hl Ho Hc Hv. destruct (sole_holder _ _ _ _ _ _ Hr Hl Ho Hc) as (Ho' & Hh & Huniq & Hargv & Hext).
  destruct (heap_ok_set _ _ _ _ _ _ v (r_heap _ _ _ _ Hr) Ho' Hv) as [Hh' Hk]. eapply does_eq; [done|].
  set (h := <[a := mk_robj v (refcount o)]> (heap s)) in *. pose proof (ho_fresh _ _ _ _ (r_heap _ _ _ _ Hr) _ _ Ho') as Hf.
  assert (obj_at h a = Some (mk_robj v 1)) as Hoa by (rewrite obj_at_nonneg by lia; unfold h; rewrite lookup_insert_eq; congruence).
  split; [|done]. destruct Hr as [_ Hds He Hs Hlt Hargs Hsd Hw Hrep [Hc1 Hc2]]. split; cbn; try done.
  - rewrite Hds. apply list_eq. intros i. destruct (decide (i = d)) as [->|Hne].
    + rewrite list_lookup_alter_eq, !list_lookup_fmap. destruct (dbs s !! d) as [db|] eqn:Edb; [|done]. cbn. f_equal. unfold abs_db. cbn. f_equal.
      apply map_eq. intros k'. destruct Hl as (db' & Hdb' & Hk'). replace db' with db in * by congruence. rewrite lookup_fmap. destruct (decide (k' = k)) as [->|Hnk].
      * rewrite lookup_insert_eq, <-Hk'. cbn. unfold den. by rewrite Hoa.
      * rewrite lookup_insert_ne, lookup_fmap by done. destruct (dict db !! k') as [x|] eqn:Ex; [|done]. cbn. f_equal. symmetry. apply (den_keeps _ _ _ _ Hk). intros ->.
        destruct (Huniq d k') as [_ ?]; [by exists db|done].
    + rewrite list_lookup_alter_ne, !list_lookup_fmap by done. destruct (dbs s !! i) as [db|] eqn:Edb; [|done]. cbn. f_equal. unfold abs_db. f_equal.
      apply map_fmap_ext. intros k' x Hx. symmetry. apply (den_keeps _ _ _ _ Hk). intros ->. destruct (Huniq i k') as [? _]; [by exists db|done].
  - apply Forall2_same_length_lookup_2; [by eapply Forall2_length|]. intros j bs x Hj1 Hj2. rewrite (den_keeps _ _ _ _ Hk) by (intros ->; by eapply Hargv). by eapply (Forall2_lookup_lr _ _ _ _ _ _ Hargs).
  - intros j x Hjx HEj. destruct (Hsd j x Hjx HEj) as (o' & bs' & Ho2 & Hs'). assert (x <> a) as Hne by (intros ->; by eapply Hargv). specialize (Hk x Hne). rewrite Ho2 in Hk.
    destruct (obj_at h x) as [o2|]; [|done]. exists o2, bs'. split; [done|]. cbn in Hk. congruence.
  - split; (rewrite (den_keeps _ _ _ _ Hk); [done|intros <-; done]).
Qed.

Lemma decoded_value so : value_ok (VString so) -> getDecodedObject so = Some (obj_bytes so).
Proof.
  destruct so as [sh v|?|?]; [|done..]. intros Hv. apply (decoded_ok (ObjInt sh v)). split; [done|]. cbn. pose proof (decimal_length v Hv). unfold LLONG_MAX. lia.
Qed.

Lemma store_same d k v t : value_of d k t = Some v -> store d k v t = t.
Proof.
  intros Hv. unfold store, on_db, with_adbs. destruct t as [l se ar rp rr]. cbn in *. f_equal. unfold value_of, the_db in Hv. cbn in Hv.
  apply list_eq. intros i. destruct (decide (i = d)) as [->|Hne]; [|by rewrite list_lookup_alter_ne]. rewrite list_lookup_alter_eq.
  destruct (l !! d) as [db|] eqn:Ed; [|done]. cbn in *. rewrite insert_id by done. by destruct db.
Qed.

(** A private copy in the database. *)
Lemma dbUnshare_spec s t d k a o bs :
  rel E z0 s t -> looked s d k (Some a) -> obj_at (heap s) a = Some o -> value_ok (val o) -> abs_value (val o) = AString bs ->
  does (dbUnshareStringValue d k a) s (fun n s1 => rel E z0 s1 t /\ looked s1 d k (Some n) /\ obj_at (heap s1) n = Some (mk_robj (VString (ObjRaw bs)) 1) /\
    seldb s1 = seldb s /\ kargv s1 = kargv s).
Proof.
  intros Hr Hl Ho Hv Hb. unfold dbUnshareStringValue. apply does_bind. eapply does_get_obj; [done|].
  destruct (val o) as [so|? ?] eqn:Ev; [|done]. injection Hb as <-. apply does_bind. eapply does_eq; [done|].
  destruct (negb (refcount o =? 1) || negb (is_raw so)) eqn:Ec.
  - apply does_bind. eapply does_eq; [unfold liftK; by rewrite decoded_value|].
    destruct (create_spec s _ _ (VString (ObjRaw (obj_bytes so))) (r_heap _ _ _ _ Hr) I) as (Eq & Hh & Hk & H0 & Hz & Hn). apply does_bind. eapply does_eq; [exact Eq|].
    set (n := next s) in *. set (h := <[n := _]> (heap s)) in *.
    assert (rel E (fun x => z0 x + one n x) (with_heap h (n + 1) s) t) as Hr1 by (eapply rel_heap; [done..|]; refine (keeps_weaken _ _ _ _ _ Hk); intros x Hx ->; lia).
    assert (obj_at h n = Some (mk_robj (VString (ObjRaw (obj_bytes so))) 1)) as Hon by (rewrite obj_at_nonneg by lia; apply lookup_insert_eq).
    assert (n <> a) as Hne. { intros <-. destruct Hl as (db & Hdb & Hka). pose proof (held_dict _ (kargv s) _ _ _ _ Hdb (eq_sym Hka)). lia. }
    assert (alive h n) as Han. { unfold alive. destruct (Z.ltb_spec n 0); [lia|]. by rewrite <-(obj_at_nonneg h n), Hon by lia. }
    eapply does_step; [apply (dbOverwrite_spec _ _ _ d k n a Hr1)|].
    + done.
    + done.
    + intros x Hx. rewrite one_ne by done. done.
    + done.
    + intros _. rewrite one_ne by done. done.
    + cbn. intros _ s2 (Hr2 & Hl2 & Ho2 & _ & Hu2). apply does_ret. split; [|split; [done|split; [by rewrite Hu2|by destruct Ho2]]].
      rewrite (store_same d k _ t) in Hr2; [by eapply rel_ledger, Hr2; intros x; unfold z0; lia|].
      rewrite (looked_value _ _ _ _ _ _ Hr Hl). cbn. unfold den. by rewrite Ho, Ev, Hon.
  - apply orb_false_iff in Ec as [Ec Er]. apply negb_false_iff in Ec, Er. apply Z.eqb_eq in Ec. apply does_ret. split; [done|]. split; [done|]. split; [|done].
    destruct so as [?|?|bs]; try done. rewrite Ho. destruct o as [v c]. cbn in *. congruence.
Qed.

(** ** The argument vector *)

Lemma const_held l argv x : x = shared_del \/ x = shared_unlink -> 1 <= held l argv x.
Proof. intros Hx. unfold held. pose proof (in_dbs_nonneg l x). pose proof (cnt_nonneg argv x). assert (ext x = 1) by (by destruct Hx as [->| ->]). lia. Qed.

(** The vector is replaced: the references of the old one are dropped after those of the new one are taken. *)
Lemma rel_new_argv F s t h n argv aargv :
  rel E z0 s t -> heap_ok h n (held (dbs s) argv) z0 -> keeps (fun x => 0 < held (dbs s) [] x) (heap s) h ->
  Forall2 (fun bs a => den h a = AString bs) aargv argv ->
  (forall i a, argv !! i = Some a -> ~ F i -> exists o bs, obj_at h a = Some o /\ sds_of (val o) = Some bs) ->
  rel F z0 (with_kargv argv (with_heap h n s)) (with_aargs aargv t).
Proof.
  intros [Hh Hd He Hs Hl Ha Hsd Hw Hr [Hc1 Hc2]] Hh' Hk Hargs Hsd'. split; cbn; try done.
  - rewrite Hd. apply list_fmap_ext. intros d db Hdb. unfold abs_db. f_equal. apply map_fmap_ext. intros k a Hka. symmetry. eapply den_keeps; [exact Hk|]. pose proof (held_dict _ [] _ _ _ _ Hdb Hka). cbv beta. lia.
  - split; (rewrite (den_keeps _ _ _ _ Hk); [done|]); [pose proof (const_held (dbs s) [] shared_del)|pose proof (const_held (dbs s) [] shared_unlink)]; cbv beta; lia.
Qed.

Lemma held_split l argv x : held l argv x = held l [] x + cnt argv x.
Proof. unfold held. cbn. lia. Qed.

Lemma argv_ledger b s t : rel E b s t -> heap_ok (heap s) (next s) (held (dbs s) []) (fun x => b x + cnt (kargv s) x).
Proof.
  intros Hr. eapply heap_ok_shift; [apply Hr|..].
  - intros x. rewrite (held_split _ (kargv s)). lia.
  - intros x Hx. eapply alive_held; [apply Hr|]. rewrite held_split. pose proof (cnt_nonneg (kargv s) x). lia.
  - intros x. apply held_nonneg.
Qed.
Lemma argv_alive b s t x : rel E b s t -> x ∈ kargv s -> alive (heap s) x.
Proof. intros Hr Hx. eapply alive_held; [apply Hr|]. rewrite held_split. pose proof (cnt_elem _ _ Hx). pose proof (held_nonneg (dbs s) [] x). lia. Qed.

Lemma freeClientArgv_spec s t : rel E z0 s t -> does freeClientArgv s (fun _ s1 => rel (fun _ => False) z0 s1 (with_aargs [] t)).
Proof.
  intros Hr. unfold freeClientArgv. destruct (decr_all_spec (kargv s) s _ _ (argv_ledger _ _ _ Hr)) as (h & Eq & Hh & Hk).
  { intros x. apply held_nonneg. }
  { intros x. unfold z0. lia. }
  { intros x. by eapply argv_alive. }
  eapply does_eq; [by rewrite (K_bind_ok _ _ _ _ _ Eq)|]. eapply (rel_new_argv _ s); [done|..|by constructor|done].
  - eapply heap_ok_ext; [..|exact Hh]; [done|]. intros x. unfold z0. lia.
  - keep Hk.
Qed.

Lemma rewriteVector_spec s t x a i nm k :
  rel E z0 s t -> x = shared_del \/ x = shared_unlink -> den (heap s) x = AString nm -> kargv s !! i = Some a -> aargs t !! i = Some k ->
  does (rewriteClientCommandVector x a) s (fun _ s1 => rel (fun _ => True) z0 s1 (with_aargs [nm; k] t)).
Proof.
  intros Hr Hx Hnm Hi Hka. destruct (arg_object _ _ _ _ _ Hr Hi) as (Ha & o & so & _ & _ & _ & Hbs & Hd). rewrite Hka in Hbs. injection Hbs as ->.
  assert (alive (heap s) x) as Hax. { eapply alive_held; [apply Hr|]. pose proof (const_held (dbs s) (kargv s) x Hx). lia. }
  destruct (incr_spec s _ _ x (argv_ledger _ _ _ Hr) Hax) as (h1 & E1 & Hh1 & Hk1).
  destruct (incr_spec (with_heap h1 (next s) s) _ _ a Hh1) as (h2 & E2 & Hh2 & Hk2); [by eapply keeps_alive|].
  destruct (decr_all_spec (kargv s) (with_heap h2 (next s) s) _ _ Hh2) as (h3 & E3 & Hh3 & Hk3).
  { intros y. apply held_nonneg. }
  { intros y. unfold z0. pose proof (one_nonneg x y). pose proof (one_nonneg a y). lia. }
  { intros y Hy. eapply keeps_alive; [exact Hk2|done|]. eapply keeps_alive; [exact Hk1|done|]. by eapply argv_alive. }
  cbn in *. eapply does_eq.
  { unfold rewriteClientCommandVector. rewrite (K_bind_ok _ _ _ _ _ E1), (K_bind_ok _ _ _ _ _ E2). erewrite K_bind_ok; [done|exact E3]. }
  assert (keeps (fun y => 0 < held (dbs s) [] y \/ 0 < one x y + one a y) (heap s) h3) as Hk.
  { unfold z0 in *. eapply keeps_trans; [|keep Hk3]. eapply keeps_trans; [keep Hk1|keep Hk2]. }
  change (with_kargv [x; a] (with_heap h3 (next s) (with_heap h2 (next s) s))) with (with_kargv [x; a] (with_heap h3 (next s) s)).
  eapply (rel_new_argv _ s); [done|..].
  - eapply heap_ok_shift; [exact Hh3|..].
    + intros y. rewrite (held_split _ [x; a]). cbn. unfold z0. lia.
    + intros y Hy. rewrite held_split in Hy. cbn in Hy. destruct (decide (0 < held (dbs s) [] y)) as [Hp|Hp]; [by eapply alive_held|].
      eapply keeps_alive; [exact Hk|right; lia|]. assert (y = x \/ y = a) as [->| ->]; [|done..]. unfold one in *. repeat case_decide; tauto || lia.
    + intros y. apply held_nonneg.
  - keep Hk.
  - pose proof (one_nonneg x a). pose proof (one_nonneg a x). repeat constructor; (rewrite (den_keeps _ _ _ _ Hk); [done|]); right; rewrite one_eq; lia.
  - tauto.
Qed.

(** An object for a string becomes the next argument. *)
Lemma push_arg_spec so bs s t :
  obj_bytes so = bs -> sds_of (VString so) = Some bs -> value_ok (VString so) -> (forall i, ~ E i) -> rel E z0 s t ->
  does (a ← createObject (VString so); change (fun s => with_kargv (kargv s ++ [a]) s)) s (fun _ s1 => rel E z0 s1 (with_aargs (aargs t ++ [bs]) t)).
Proof.
  intros Hso Hsds Hok HE Hr.
  destruct (create_spec s _ _ (VString so) (r_heap _ _ _ _ Hr) Hok) as (Eq & Hh & Hk & H0 & _ & Hn). apply does_bind. eapply does_eq; [done|].
  set (n := next s) in *. set (h := <[n := _]> (heap s)) in *. eapply does_eq; [done|].
  assert (obj_at h n = Some (mk_robj (VString so) 1)) as Hon by (rewrite obj_at_nonneg by lia; apply lookup_insert_eq).
  assert (forall x, 0 < held (dbs s) (kargv s) x -> x <> n) as Hne by (intros x Hx ->; lia).
  apply (rel_new_argv E s t h (n + 1) (kargv s ++ [n]) (aargs t ++ [bs]) Hr).
  - eapply heap_ok_shift; [exact Hh|..].
    + intros x. rewrite (held_split _ (kargv s ++ [n])), (held_split _ (kargv s)), cnt_app. cbn. unfold z0. lia.
    + intros x Hx. destruct (decide (x = n)) as [->|Hxn]; [unfold alive; destruct (Z.ltb_spec n 0); [lia|]; by rewrite <-(obj_at_nonneg h n), Hon by lia|].
      eapply alive_held; [exact Hh|]. rewrite held_split, cnt_app in Hx. rewrite held_split. cbn in Hx. rewrite one_ne in Hx by done. lia.
    + intros x. apply held_nonneg.
  - refine (keeps_weaken _ _ _ _ _ Hk). intros x Hx. apply Hne. rewrite held_split. pose proof (cnt_nonneg (kargv s) x). lia.
  - apply Forall2_app; [|constructor; [|constructor]; unfold den; rewrite Hon; cbn; by rewrite Hso].
    apply Forall2_same_length_lookup_2; [by eapply Forall2_length, Hr|]. intros j x y Hx Hy. rewrite (den_keeps _ _ _ _ Hk); [by eapply (Forall2_lookup_lr _ _ _ _ _ _ (r_args _ _ _ _ Hr))|].
    apply Hne. pose proof (held_arg (dbs s) _ _ _ Hy). lia.
  - intros j x [Hx|[_ Hx]]%lookup_app_Some HEj.
    + destruct (r_sds _ _ _ _ Hr j x Hx HEj) as (o' & bs' & Ho' & Hs'). assert (x <> n) as Hxn by (apply Hne; pose proof (held_arg (dbs s) _ _ _ Hx); lia).
      specialize (Hk x Hxn). rewrite Ho' in Hk. destruct (obj_at h x) as [o2|]; [|done]. exists o2, bs'. split; [done|]. cbn in Hk. congruence.
    + apply list_lookup_singleton_Some in Hx as [_ <-]. by exists (mk_robj (VString so) 1), bs.
Qed.
Lemma with_aargs_app t l l' : with_aargs (aargs (with_aargs l t) ++ l') (with_aargs l t) = with_aargs (l ++ l') t.
Proof. done. Qed.
Lemma load_args_spec l s t : (forall i, ~ E i) -> rel E z0 s t -> does (load_args l) s (fun _ s1 => rel E z0 s1 (with_aargs (aargs t ++ l) t)).
Proof.
  intros HE. revert s t. induction l as [|bs l IH]; intros s t Hr; cbn [load_args].
  { apply does_ret. rewrite app_nil_r. by destruct t. }
  assert (exists so, store_string (createStringObject bs) = createObject (VString so) /\ obj_bytes so = bs /\ sds_of (VString so) = Some bs /\ value_ok (VString so)) as (so & -> & Hso & Hsds & Hok).
  { unfold createStringObject. destruct (_ <=? _); [by exists (ObjEmbstr bs)|by exists (ObjRaw bs)]. }
  destruct (push_arg_spec so bs s t Hso Hsds Hok HE Hr) as ([] & s1 & E1 & Hr1). destruct (IH s1 _ Hr1) as ([] & s2 & E2 & Hr2). rewrite with_aargs_app, <-app_assoc in Hr2.
  apply K_bind_inv in E1 as (a & s0 & Ea & Eb). exists (), s2. split; [|done]. by rewrite (K_bind_ok _ _ _ _ _ Ea), (K_bind_ok _ _ _ _ _ Eb).
Qed.

(** ** Whole databases *)

Lemma empty_one_spec s t d :
  rel E z0 s t -> (d < length (dbs s))%nat ->
  does (empty_one d) s (fun n s1 => rel E z0 s1 (on_db d (fun _ => no_keys) t) /\ n = Z.of_nat (base.size (dict (the_db d t))) /\ length (dbs s1) = length (dbs s)).
Proof.
  intros Hr Hd. destruct (get_db_some _ _ _ _ Hr Hd) as (db & Hdb & Eg). unfold empty_one. apply does_bind. eapply does_eq; [exact Eg|].
  set (s1 := with_dbs (<[d := mk_db ∅ ∅]> (dbs s)) s).
  assert (rel E (occ (dict db)) s1 (on_db d (fun _ => no_keys) t)) as Hr1.
  { eapply rel_set_db; [done..| | | |]; cbn [dict expires]; [intros x; change (occ (dict db) x = z0 x + occ (dict db) x - 0); unfold z0; lia|by intros k a Hk%lookup_empty_Some|by intros k [w Hk%lookup_empty_Some]|].
    unfold abs_db. cbn. by rewrite fmap_empty. }
  apply does_bind. eapply does_eq; [done|].
  destruct (decr_all_spec (map_to_list (dict db)).*2 s1 _ _ (r_heap _ _ _ _ Hr1)) as (h & Eq & Hh & Hk).
  { intros x. apply held_nonneg. }
  { done. }
  { intros x ([k y] & -> & Hy)%list_elem_of_fmap. apply elem_of_map_to_list in Hy. exact (dict_alive _ _ _ _ _ _ _ Hr Hdb Hy). }
  apply does_bind. eapply does_eq; [exact Eq|]. apply does_ret. split; [|split; [|cbn; by rewrite length_insert]].
  - eapply rel_heap; [exact Hr1|eapply heap_ok_ext; [..|exact Hh]; [done|]|keep Hk]. intros x. unfold z0. change (occ (dict db) x - occ (dict db) x = 0). lia.
  - rewrite (proj2 (the_db_abs _ _ _ _ _ Hr Hdb)). cbn. by rewrite map_size_fmap.
Qed.

Lemma empty_rest_spec rest j s t n :
  rel E z0 s t -> adbs t = replicate j no_keys ++ rest ->
  does (for_each (fun d n => m ← empty_one d; mret (n + m)) (seq j (length rest)) n) s (fun m s1 =>
    rel E z0 s1 (with_adbs (replicate (j + length rest) no_keys) t) /\ m = n + foldr (fun db n => Z.of_nat (base.size (dict db)) + n) 0 rest).
Proof.
  revert j s t n. induction rest as [|db rest IH]; intros j s t n Hr Ht; cbn [length seq for_each foldr].
  { apply does_ret. rewrite Nat.add_0_r. split; [|lia]. rewrite app_nil_r in Ht. rewrite <-Ht. by destruct t. }
  assert (length (dbs s) = j + S (length rest))%nat as Hlen.
  { pose proof (f_equal length (r_dbs _ _ _ _ Hr)) as Hl. rewrite Ht, length_app, length_replicate, length_fmap in Hl. done. }
  apply does_bind. eapply does_step; [apply (empty_one_spec s t j Hr); lia|]. intros m s1 (Hr1 & -> & _). apply does_ret.
  assert (adbs t !! j = Some db) as Hj by (rewrite Ht, lookup_app_r, length_replicate, Nat.sub_diag by (by rewrite length_replicate); done).
  eapply does_mono; [apply (IH (S j) s1 _ _ Hr1)|].
  - cbn. rewrite Ht, alter_app_r_alt, length_replicate, Nat.sub_diag by (by rewrite length_replicate).
    change (alter (fun _ => no_keys) 0%nat (db :: rest)) with (no_keys :: rest). rewrite (cons_middle no_keys (replicate j no_keys) rest), app_assoc, <-replicate_S_end. done.
  - intros m s2 [Hr2 ->]. rewrite Nat.add_succ_r. split; [exact Hr2|]. unfold the_db. rewrite Hj. cbn. lia.
Qed.

Lemma emptyDb_all s t :
  rel E z0 s t -> does (emptyDb None) s (fun n s1 => n = all_keys t /\ rel E z0 s1 (log (with_slave_keys ∅) (with_adbs ((fun _ => no_keys) <$> adbs t) t))).
Proof.
  intros Hr. assert (length (dbs s) = length (adbs t)) as Hl by (by rewrite (r_dbs _ _ _ _ Hr), length_fmap).
  destruct (empty_rest_spec (adbs t) 0 s t 0 Hr eq_refl) as (n & s1 & Eq & Hr1 & ->). rewrite <-Hl in Eq.
  destruct (on_report_spec _ _ _ (with_slave_keys ∅) Hr1) as ([] & s2 & E2 & Hr2 & _). eapply does_eq.
  - unfold emptyDb. rewrite (K_bind_ok _ _ _ _ _ Eq). cbn [bool_decide]. by rewrite (K_bind_ok _ _ _ _ _ E2).
  - split; [done|]. cbn [plus] in Hr2. by rewrite (const_fmap (fun _ => no_keys) (adbs t) no_keys).
Qed.
Lemma emptyDb_one s t d :
  rel E z0 s t -> (d < length (dbs s))%nat -> does (emptyDb (Some d)) s (fun n s1 => n = Z.of_nat (base.size (dict (the_db d t))) /\ rel E z0 s1 (on_db d (fun _ => no_keys) t)).
Proof.
  intros Hr Hd. destruct (empty_one_spec s t d Hr Hd) as (n & s1 & Eq & Hr1 & -> & _). eapply does_eq; [|done].
  unfold emptyDb, for_each, mbind, K_bind, mret, K_ret. by rewrite Eq.
Qed.
End Rel.
