(* ===== verification/KeyspaceRefine.v ===== *)
(** * The commands implement the commands on maps

    Each handler of KeyCommands, started in a state that is related to maps, returns in a state that is related to what the command of
    KeyspaceAbs makes of them, and has no result where that has none. *)
From stdpp Require Import prelude list gmap strings.
From Stdlib Require Import ZArith Lia.
From S2P Require Import Prelude Util SdsText Rio Rdb Reply Resp Aof Keyspace KeyCommands KeyspaceAbs KeyspaceInv KeyspaceRel.

Local Open Scope Z_scope.
Local Open Scope redis_scope.

#[local] Arguments str : simpl never.
#[local] Arguments ll_checked : simpl never.

Definition implements (m : K ()) (s : ks) (o : option ast) : Prop :=
  match o with Some t => does m s (fun _ s1 => rel (fun _ => True) z0 s1 t) | None => m s = None end.

Lemma rel_weaken (E F : nat -> Prop) b s t : (forall i, E i -> F i) -> rel E b s t -> rel F b s t.
Proof. intros HEF [Hh Hd He Hs Hl Ha Hsd Hw Hr Hc]. split; try done. intros i a Hi HF. apply (Hsd i a Hi). auto. Qed.

Section Steps.
Context {E : nat -> Prop}.

Lemma implements_step {A} (m : K A) (f : A -> K ()) s (P : A -> ks -> Prop) o : does m s P -> (forall a s1, P a s1 -> implements (f a) s1 o) -> implements (m ≫= f) s o.
Proof.
  intros (a & s1 & Em & HP) Hf. specialize (Hf a s1 HP). unfold implements in *. destruct o; [|by rewrite (K_bind_ok _ _ _ _ _ Em)]. apply does_bind. by exists a, s1.
Qed.
Lemma implements_eq {A} (m : K A) (f : A -> K ()) s a s1 o : m s = Some (a, s1) -> implements (f a) s1 o -> implements (m ≫= f) s o.
Proof. intros Em Hf. eapply implements_step; [by eapply (does_eq _ _ _ _ (fun x y => x = a /\ y = s1))|]. by intros x y [-> ->]. Qed.
Lemma implements_none {A} (m : K A) (f : A -> K ()) s : m s = None -> implements (m ≫= f) s None.
Proof. intros Em. by apply K_bind_none. Qed.
Lemma implements_does (m : K ()) s t : does m s (fun _ s1 => rel E z0 s1 t) -> implements m s (Some t).
Proof. intros Hm. eapply does_mono; [exact Hm|]. intros a s1 Hr. by eapply rel_weaken, Hr. Qed.
Lemma implements_ret s t : rel E z0 s t -> implements (mret ()) s (Some t).
Proof. intros Hr. apply implements_does. by apply does_ret. Qed.
(** Several binds are one after the other. *)
Lemma implements_assoc {A B} (m : K A) (f : A -> K B) (g : B -> K ()) s o : implements (m ≫= fun a => f a ≫= g) s o -> implements ((m ≫= f) ≫= g) s o.
Proof.
  assert (((m ≫= f) ≫= g) s = (m ≫= fun a => f a ≫= g) s) as Heq by (unfold mbind, K_bind; destruct (m s) as [[a s1]|]; done).
  unfold implements, does. by rewrite Heq.
Qed.
Lemma implements_group {A B} (m : K A) (f : A -> K B) (g : B -> K ()) s o : implements ((m ≫= f) ≫= g) s o -> implements (m ≫= fun a => f a ≫= g) s o.
Proof.
  assert (((m ≫= f) ≫= g) s = (m ≫= fun a => f a ≫= g) s) as Heq by (unfold mbind, K_bind; destruct (m s) as [[a s1]|]; done).
  unfold implements, does. by rewrite Heq.
Qed.
Lemma implements_group_some {A B} (m : K A) (f : A -> K B) (g : option A -> K ()) s o :
  implements ((m ≫= fun a => f a ≫= fun _ => mret a) ≫= fun a => g (Some a)) s o -> implements ((m ≫= fun a => f a ≫= fun _ => mret (Some a)) ≫= g) s o.
Proof.
  assert (((m ≫= fun a => f a ≫= fun _ => mret a) ≫= fun a => g (Some a)) s = ((m ≫= fun a => f a ≫= fun _ => mret (Some a)) ≫= g) s) as Heq.
  { unfold mbind, K_bind. destruct (m s) as [[a s1]|]; [|done]. cbn. by destruct (f a s1) as [[b s2]|]. }
  unfold implements, does. by rewrite Heq.
Qed.
Lemma implements_fuse {A B C} (m : K A) (f : A -> K B) (g : A -> B -> C) (k : C -> K ()) s o :
  implements ((m ≫= fun a => f a ≫= fun b => mret (g a b)) ≫= k) s o -> implements (m ≫= fun a => f a ≫= fun b => k (g a b)) s o.
Proof.
  assert (((m ≫= fun a => f a ≫= fun b => mret (g a b)) ≫= k) s = (m ≫= fun a => f a ≫= fun b => k (g a b)) s) as Heq.
  { unfold mbind, K_bind. destruct (m s) as [[a s1]|]; [|done]. cbn. by destruct (f a s1) as [[b s2]|]. }
  unfold implements, does. by rewrite Heq.
Qed.

Lemma report_step b s t f (k : () -> K ()) o :
  rel E b s t -> (rel E b (with_rep (f (rep s)) s) (log f t) -> implements (k ()) (with_rep (f (rep s)) s) o) -> implements (on_report f ≫= k) s o.
Proof. intros Hr Hk. eapply implements_eq; [done|]. by apply Hk, rel_report. Qed.
Lemma report_last s t f : rel E z0 s t -> implements (on_report f) s (Some (log f t)).
Proof. intros Hr. apply implements_does. eapply does_eq; [done|]. by apply rel_report. Qed.
Lemma reply_step b s t i j (k : () -> K ()) o :
  rel E b s t -> wire [i] = wire [j] -> (rel E b (with_kreplies (kreplies s ++ [i]) s) (say j t) -> implements (k ()) (with_kreplies (kreplies s ++ [i]) s) o) -> implements (replyK i ≫= k) s o.
Proof. intros Hr Hw Hk. eapply implements_eq; [done|]. by apply Hk, rel_reply. Qed.
Lemma reply_last s t i j : rel E z0 s t -> wire [i] = wire [j] -> implements (replyK i) s (Some (say j t)).
Proof. intros Hr Hw. apply implements_does. eapply does_eq; [done|]. by apply rel_reply. Qed.
Lemma cdb_step b s t (k : nat -> K ()) o : rel E b s t -> implements (k (asel t)) s o -> implements (cdb ≫= k) s o.
Proof. intros Hr Hk. eapply implements_eq; [done|]. by rewrite <-(r_sel _ _ _ _ Hr). Qed.
Lemma notify_step b s t ev k (f : () -> K ()) o :
  rel E b s t -> (rel E b (with_rep (add_event (ev, k, asel t) (rep s)) s) (notified ev k (asel t) t) -> implements (f ()) (with_rep (add_event (ev, k, asel t) (rep s)) s) o) ->
  implements (notify ev k ≫= f) s o.
Proof. intros Hr Hk. apply implements_assoc. eapply cdb_step; [done|]. by eapply report_step. Qed.
Lemma signal_step b s t k (f : () -> K ()) o :
  rel E b s t -> (rel E b (with_rep (add_signal (asel t, k) (rep s)) s) (touched (asel t) k t) -> implements (f ()) (with_rep (add_signal (asel t, k) (rep s)) s) o) ->
  implements (signal k ≫= f) s o.
Proof. intros Hr Hk. apply implements_assoc. eapply cdb_step; [done|]. by eapply report_step. Qed.

Lemma sel_lt b s t : rel E b s t -> (asel t < length (dbs s))%nat.
Proof. intros Hr. rewrite (r_sel _ _ _ _ Hr). apply Hr. Qed.
Lemma arg_step b s t i (f : Z -> K ()) o : rel E b s t -> (i < length (aargs t))%nat -> (forall a, kargv s !! i = Some a -> implements (f a) s o) -> implements (arg i ≫= f) s o.
Proof. intros Hr Hi Hf. destruct (arg_spec E _ _ _ _ Hr Hi) as (a & Ha & Ea). eapply implements_eq; [exact Ea|]. by apply Hf. Qed.
Lemma arg_sds_step b s t i (f : list Z -> K ()) o : rel E b s t -> (i < length (aargs t))%nat -> ~ E i -> implements (f (karg i t)) s o -> implements (arg_sds i ≫= f) s o.
Proof. intros Hr Hi HE Hf. by eapply implements_eq; [eapply arg_sds_spec|]. Qed.
End Steps.

(** ** Facts about the maps *)

Lemma purge_idem e d k t : purge e d k (purge e d k t) = purge e d k t.
Proof.
  unfold purge at 2 3. destruct (expired e d k t && k_master e) eqn:Ex; [|unfold purge; by rewrite Ex].
  unfold purge. assert (expired e d k (drop_key d k (notified "expired" k d (log (add_expiration (d, k)) t))) = false) as ->; [|done].
  unfold expired, expiry_of, the_db. cbn. rewrite list_lookup_alter_eq. destruct (adbs t !! d); cbn; by rewrite ?lookup_delete_eq.
Qed.
Lemma karg_purge e d k i t : karg i (purge e d k t) = karg i t.
Proof. unfold karg. by rewrite aargs_purge. Qed.

(** ** Commands on strings *)

Section Strings.
Context (e : kenv).
Abbreviation ready0 := (rel (fun _ => False) z0).

Lemma set_time_spec (E : nat -> Prop) s t (expire : option (nat * Z)) seconds :
  rel E z0 s t -> (forall j a, expire = Some (j, a) -> kargv s !! j = Some a) ->
  match time_arg e ((fun p => karg p.1 t) <$> expire) seconds with
  | None => set_time e (snd <$> expire) seconds s = None
  | Some (inl ms) => set_time e (snd <$> expire) seconds s = Some (Some ms, s)
  | Some (inr err) => does (set_time e (snd <$> expire) seconds) s (fun r s1 => r = None /\ rel E z0 s1 (say err t))
  end.
Proof.
  intros Hr Hex. destruct expire as [[j a]|]; [|done]. specialize (Hex j a eq_refl). cbn. destruct (arg_number E _ _ _ j None a Hr Hex) as (r & s1 & Eq & -> & Hs1).
  destruct (string2ll (karg j t)) as [ms|] eqn:En.
  - subst s1. destruct (Z.leb_spec ms 0) as [Hms|Hms].
    + apply does_bind. eapply does_eq; [exact Eq|]. cbv beta iota. rewrite (proj2 (Z.leb_le ms 0) Hms). eapply does_step; [eapply (say_spec E _ _ _ _ _ Hr); reflexivity|]. intros _ s1 [Hr1 _]. by apply does_ret.
    + assert (forall (f : option Z -> K (option Z)), (getLongLongFromObjectOrReply (Some a) None ≫= f) s = f (Some ms) s) as Hf by (intros f; by apply K_bind_ok).
      unfold set_time. rewrite Hf, (proj2 (Z.leb_gt ms 0) Hms). destruct seconds; [|done].
      destruct (ll_checked (ms * 1000)) as [v|] eqn:Ev; [|done]. done.
  - apply does_bind. eapply does_eq; [exact Eq|]. by apply does_ret.
Qed.

(** The conditions NX and XX. *)
Lemma set_refused (E : nat -> Prop) s t flags k :
  rel E z0 s t -> let d := asel t in let there := bool_decide (is_Some (value_of d k (purge e d k t))) in
  does (found ← (if has flags OBJ_SET_NX then o ← lookupKeyWrite e d k; mret (bool_decide (is_Some o)) else mret false);
        missing ← (if (found : bool) then mret false else if has flags OBJ_SET_XX then o ← lookupKeyWrite e d k; mret (bool_decide (o = None)) else mret false);
        mret (found || missing)) s
    (fun r s1 => r = has flags OBJ_SET_NX && there || has flags OBJ_SET_XX && negb there /\
      exists t1, rel E z0 s1 t1 /\ purge e d k t1 = purge e d k t /\ (r = true -> t1 = purge e d k t) /\ kargv s1 = kargv s /\ aargs t1 = aargs t /\ asel t1 = asel t).
Proof.
  intros Hr d there. assert (Hlook : forall s0 t0, rel E z0 s0 t0 -> purge e d k t0 = purge e d k t -> kargv s0 = kargv s -> aargs t0 = aargs t -> asel t0 = asel t ->
    does (lookupKeyWrite e d k) s0 (fun o s1 => bool_decide (is_Some o) = there /\ rel E z0 s1 (purge e d k t) /\ kargv s1 = kargv s)).
  { intros s0 t0 Hr0 Hp Ha _ Hs. eapply does_mono; [apply (lookupKeyWrite_spec E z0 e s0 t0 d k Hr0)|]; [unfold d; rewrite <-Hs; by eapply sel_lt|done|].
    intros o s1 (Hr1 & Hl1 & Ho1). rewrite Hp in Hr1. split; [|split; [done|by rewrite (o_argv _ _ _ _ _ Ho1)]]. unfold there. rewrite (looked_value E _ _ _ _ _ _ Hr1 Hl1).
    apply bool_decide_ext. by rewrite fmap_is_Some. }
  assert (forall o : option Z, bool_decide (o = None) = negb (bool_decide (is_Some o))) as Hneg.
  { intros [a|]; [rewrite bool_decide_eq_false_2 by done; by rewrite bool_decide_eq_true_2|]. rewrite bool_decide_eq_true_2 by done. rewrite bool_decide_eq_false_2; [done|]. by intros []. }
  destruct (has flags OBJ_SET_NX) eqn:Enx.
  - apply does_bind. eapply does_step; [by eapply Hlook|]. intros o s1 (Ho & Hr1 & Ha1). apply does_ret. rewrite Ho. destruct there; cbn [andb orb negb].
    + apply does_bind, does_ret, does_ret. split; [done|]. exists (purge e d k t). by rewrite purge_idem, aargs_purge, asel_purge.
    + destruct (has flags OBJ_SET_XX); [|apply does_bind, does_ret, does_ret; split; [done|]; exists (purge e d k t); by rewrite purge_idem, aargs_purge, asel_purge].
      apply does_bind. eapply does_step; [apply (Hlook s1 _ Hr1); by rewrite ?purge_idem, ?aargs_purge, ?asel_purge|]. intros o2 s2 (Ho2 & Hr2 & Ha2). apply does_ret, does_ret.
      rewrite Hneg, Ho2. split; [done|]. exists (purge e d k t). by rewrite purge_idem, aargs_purge, asel_purge.
  - apply does_bind, does_ret. destruct (has flags OBJ_SET_XX); cbn [andb orb]; [|apply does_bind, does_ret, does_ret; split; [done|by exists t]].
    apply does_bind. eapply does_step; [by eapply Hlook|]. intros o s1 (Ho & Hr1 & Ha1). apply does_ret, does_ret. rewrite Hneg, Ho. split; [done|].
    exists (purge e d k t). by rewrite purge_idem, aargs_purge, asel_purge.
Qed.

Lemma is_Some_fmap_decide {A B} (f : A -> B) (o : option A) : bool_decide (is_Some (f <$> o)) = bool_decide (is_Some o).
Proof. apply bool_decide_ext. by rewrite fmap_is_Some. Qed.

Lemma setGeneric_impl (E : nat -> Prop) s t flags i va k (expire : option (nat * Z)) seconds okr abr :
  rel E z0 s t -> kargv s !! i = Some va -> (forall j a, expire = Some (j, a) -> kargv s !! j = Some a) ->
  implements (setGenericCommand e flags k va (snd <$> expire) seconds okr abr) s (aset e flags k (karg i t) ((fun p => karg p.1 t) <$> expire) seconds okr abr t).
Proof.
  intros Hr Hi Hex. unfold setGenericCommand, aset. pose proof (set_time_spec E s t expire seconds Hr Hex) as Ht.
  destruct (time_arg e _ seconds) as [[ms|err]|]; cbn [mbind option_bind].
  2: { eapply implements_step; [exact Ht|]. intros r s1 [-> Hr1]. by eapply implements_ret. }
  2: { by apply implements_none. }
  eapply implements_eq; [exact Ht|]. eapply cdb_step; [exact Hr|].
  pose proof (set_refused E s t flags k Hr) as Href. cbn zeta in Href. set (d := asel t) in *. set (refused := has flags OBJ_SET_NX && _ || _) in *.
  apply (implements_fuse _ _ (fun found missing : bool => found || missing) (fun r : bool => if r then _ else _)).
  eapply implements_step; [exact Href|]. intros r s1 (-> & t1 & Hr1 & Hp1 & Ht1 & Ha1 & Haa & Hs1).
  destruct refused; [rewrite (Ht1 eq_refl) in Hr1; by eapply reply_last|]. clear Ht1.
  assert (replace e d k (AString (karg i t)) t1 = replace e d k (AString (karg i t)) t) as Hrep by (unfold replace; by rewrite Hp1).
  assert (i < length (aargs t))%nat as Hlt by (rewrite (args_length E _ _ _ Hr); by eapply lookup_lt_Some).
  eapply implements_step; [apply (setKey_spec E e s1 t1 d k i va (karg i t) Hr1)|].
  { rewrite <-Hs1. by eapply sel_lt. }
  { by rewrite Ha1. }
  { rewrite Haa. by apply karg_lookup. }
  intros _ s2 (Hr2 & Hl2 & Ho2). rewrite Hrep in Hr2. eapply report_step; [exact Hr2|]. clear Hr2. intros Hr2. change (log (fun r => with_dirty (dirty r + 1) r)) with (changed 1) in Hr2.
  set (t2 := changed 1 _) in *. assert (asel t2 = d) as Hd2 by (unfold t2, replace; cbn; by rewrite asel_purge).
  rewrite !is_Some_fmap_decide. destruct expire as [[j a]|]; cbn [fmap option_fmap option_map].
  - rewrite bool_decide_eq_true_2 by done. destruct (ll_checked (k_now e + ms)) as [w|] eqn:Ew; cbn [mbind option_bind]; [|by apply implements_none].
    apply implements_assoc. eapply implements_eq; [done|].
    eapply implements_step; [by eapply (setExpire_spec E z0 e _ t2 d k va w Hr2)|]. intros _ s3 (Hr3 & _).
    assert (asel (expire_at e d k w t2) = d) as Hd3 by (unfold expire_at; destruct (_ && _); done).
    eapply notify_step; [exact Hr3|]. rewrite Hd3. clear Hr3. intros Hr3. eapply notify_step; [exact Hr3|]. change (asel (notified "set" k d (expire_at e d k w t2))) with (asel (expire_at e d k w t2)). rewrite Hd3. intros Hr4. by eapply reply_last.
  - rewrite bool_decide_eq_false_2 by (by intros []). eapply implements_eq; [done|]. eapply notify_step; [exact Hr2|]. rewrite Hd2. intros Hr3. eapply implements_eq; [done|]. by eapply reply_last.
Qed.

Lemma encode_step s t i (f : Z -> K ()) o :
  rel (eq i) z0 s t -> (i < length (aargs t))%nat ->
  (forall a s1, rel (eq i) z0 s1 t -> kargv s1 !! i = Some a -> (forall j, j <> i -> kargv s1 !! j = kargv s !! j) -> dbs s1 = dbs s -> implements (f a) s1 o) -> implements (encode_arg e i ≫= f) s o.
Proof.
  intros Hr Hi Hf. destruct (arg_spec _ _ _ _ _ Hr Hi) as (a & Ha & _).
  eapply implements_step; [by apply (encode_arg_spec (eq i) e s t i a (karg i t) Hr); [..|apply karg_lookup]|]. intros a' s1 (Hr1 & Ha1 & Hd1 & _ & _ & Hj). by apply Hf.
Qed.
Lemma start_encoding s t i : ready0 s t -> rel (eq i) z0 s t.
Proof. by apply rel_weaken. Qed.

Lemma setnx_impl s t : ready0 s t -> (length (aargs t) = 3)%nat -> implements (setnxCommand e) s (aset e OBJ_SET_NX (karg 1 t) (karg 2 t) None true Cone Czero t).
Proof.
  intros Hr Hlen. eapply encode_step; [by apply start_encoding|lia|]. intros a s1 Hr1 Ha1 _ _. eapply arg_sds_step; [exact Hr1|lia|done|].
  by apply (setGeneric_impl (eq 2%nat) s1 t OBJ_SET_NX 2 a (karg 1 t) None true Cone Czero).
Qed.
Lemma setex_impl s t seconds (m : K ()) :
  m = (v ← encode_arg e 3; k ← arg_sds 1; x ← arg 2; setGenericCommand e OBJ_SET_NO_FLAGS k v (Some x) seconds Ok Nullbulk) ->
  ready0 s t -> (length (aargs t) = 4)%nat -> implements m s (aset e OBJ_SET_NO_FLAGS (karg 1 t) (karg 3 t) (Some (karg 2 t)) seconds Ok Nullbulk t).
Proof.
  intros -> Hr Hlen. eapply encode_step; [by apply start_encoding|lia|]. intros a s1 Hr1 Ha1 _ _. eapply arg_sds_step; [exact Hr1|lia|done|].
  eapply arg_step; [exact Hr1|lia|]. intros x Hx. apply (setGeneric_impl (eq 3%nat) s1 t OBJ_SET_NO_FLAGS 3 a (karg 1 t) (Some (2%nat, x)) seconds Ok Nullbulk); [done|done|].
  by intros j y [= <- <-].
Qed.

Lemma set_options_index l j flags seconds ex flags' seconds' i :
  set_options l j flags seconds ex = Some (flags', seconds', Some i) -> ex = Some i \/ (j < i < j + length l)%nat.
Proof.
  revert j flags seconds ex. induction l as [l IH] using (well_founded_induction (Wf_nat.well_founded_ltof _ length)). unfold Wf_nat.ltof in IH.
  intros j flags seconds ex. destruct l as [|a l]; cbn; [intros [= <- <- ->]; by left|]. cbn in IH.
  destruct (_ && _); [intros [?|?]%IH; [by left|right; lia|lia]|]. destruct (_ && _); [intros [?|?]%IH; [by left|right; lia|lia]|].
  destruct l as [|b l]; [done|]. cbn in *. destruct (_ && _); [intros [[= <-]|?]%IH; lia|]. destruct (_ && _); [intros [[= <-]|?]%IH; lia|done].
Qed.

Lemma args_from_loop (E : nat -> Prop) b s t i n l :
  rel E b s t -> (i + n = length (aargs t))%nat -> (forall j, (i <= j)%nat -> ~ E j) ->
  for_each (fun j l => bs ← arg_sds j; mret (l ++ [bs])) (seq i n) l s = Some (l ++ drop i (aargs t), s).
Proof.
  intros Hr. revert i l. induction n as [|n IH]; intros i l Hn HE; cbn [seq for_each].
  { rewrite drop_ge by lia. by rewrite app_nil_r. }
  assert (i < length (aargs t))%nat as Hi by lia.
  erewrite K_bind_ok; [|rewrite (K_bind_ok _ _ _ _ _ (arg_sds_spec E _ _ _ i Hr Hi (HE i (le_n i)))); done].
  rewrite IH by (lia || (intros j Hj; apply HE; lia)). rewrite (drop_S _ (karg i t) i) by (by apply karg_lookup). by rewrite <-app_assoc.
Qed.
Lemma args_from_spec (E : nat -> Prop) b s t i : rel E b s t -> (i <= length (aargs t))%nat -> (forall j, (i <= j)%nat -> ~ E j) -> args_from i s = Some (drop i (aargs t), s).
Proof.
  intros Hr Hi HE. unfold args_from. rewrite (K_bind_ok _ _ _ (length (kargv s)) s) by done. rewrite <-(args_length E _ _ _ Hr). apply (args_from_loop E b s t i _ []); [done|lia|done].
Qed.

Lemma set_impl s t : ready0 s t -> (3 <= length (aargs t))%nat -> implements (setCommand e) s (aSET e t).
Proof.
  intros Hr Hlen. unfold setCommand, aSET. eapply implements_eq; [apply (args_from_spec _ _ _ _ _ Hr); [lia|tauto]|].
  destruct (set_options _ 3 _ _ _) as [[[flags seconds] ex]|] eqn:Eo; [|by eapply reply_last].
  assert (exists p : option (nat * Z), fst <$> p = ex /\ (forall j a, p = Some (j, a) -> (3 < j)%nat /\ kargv s !! j = Some a) /\
    (match ex with Some j => a ← arg j; mret (Some a) | None => mret None end : K (option Z)) s = Some (snd <$> p, s)) as (p & <- & Hp & Ep).
  { destruct ex as [j|]; [|by exists None]. apply set_options_index in Eo as [?|Hj]; [done|]. rewrite length_drop in Hj.
    destruct (arg_spec _ _ _ _ j Hr) as (a & Ha & Ea); [lia|]. exists (Some (j, a)). split; [done|]. split; [intros ? ? [= <- <-]; split; [lia|done]|]. by rewrite (K_bind_ok _ _ _ _ _ Ea). }
  eapply implements_eq; [exact Ep|]. eapply encode_step; [by apply start_encoding|lia|]. intros a s1 Hr1 Ha1 Hj1 _. eapply arg_sds_step; [exact Hr1|lia|done|].
  pose proof (setGeneric_impl (eq 2%nat) s1 t flags 2 a (karg 1 t) p seconds Ok Nullbulk Hr1 Ha1) as Hset. rewrite <-option_fmap_compose. apply Hset.
  intros j x Hjx. destruct (Hp j x Hjx) as [? Hx]. by rewrite Hj1 by lia.
Qed.

Lemma readOrReply_spec (E : nat -> Prop) s t d k r :
  rel E z0 s t -> (d < length (dbs s))%nat ->
  does (lookupKeyReadOrReply e d k r) s (fun o s1 => kargv s1 = kargv s /\
    match o with
    | None => visible e d k t = None /\ rel E z0 s1 (shared r (purge e d k t))
    | Some a => rel E z0 s1 (purge e d k t) /\ looked s1 d k o /\ exists ob, obj_at (heap s1) a = Some ob /\ value_ok (val ob) /\ visible e d k t = Some (abs_value (val ob))
    end).
Proof.
  intros Hr Hd. unfold lookupKeyReadOrReply. eapply does_step; [by apply (lookupKeyRead_spec E z0 e s t d k Hr)|]. intros o s1 (Hr1 & Hv & Hl & Ho).
  destruct o as [a|]; cbn in Hv.
  - apply does_ret. split; [apply Ho|]. split; [done|]. split; [by eapply Hl|]. destruct (looked_object E _ _ _ _ _ _ Hr1 (Hl a eq_refl)) as (_ & ob & Hob & Hok & _ & Hden). exists ob. by rewrite Hv, Hden.
  - eapply does_step; [by apply (shared_spec E _ _ _ r Hr1)|]. intros _ s2 [Hr2 ->]. apply does_ret. split; [apply Ho|done].
Qed.

Lemma reply_bulk_spec (E : nat -> Prop) s t a ob bs :
  rel E z0 s t -> obj_at (heap s) a = Some ob -> abs_value (val ob) = AString bs -> does (reply_bulk a) s (fun _ s1 => rel E z0 s1 (say (RBulk (ObjRaw bs)) t) /\ kargv s1 = kargv s).
Proof.
  intros Hr Ho Hb. unfold reply_bulk. apply does_bind. eapply does_get_obj; [done|]. destruct (val ob) as [so|]; [|done]. injection Hb as <-.
  apply does_bind. eapply does_eq; [done|]. eapply does_mono; [by apply (say_spec E _ _ _ (RBulk so) (RBulk (ObjRaw (obj_bytes so))) Hr)|]. by intros _ s1 [Hr1 ->].
Qed.

Lemma getGeneric_spec (E : nat -> Prop) s t :
  rel E z0 s t -> (1 < length (aargs t))%nat -> ~ E 1%nat ->
  does (getGenericCommand e) s (fun r s1 => r = negb (is_other (visible e (asel t) (karg 1 t) t)) /\ rel E z0 s1 (aget e t) /\ kargv s1 = kargv s).
Proof.
  intros Hr Hlen HE. unfold getGenericCommand, aget. apply does_bind. eapply does_eq; [done|]. rewrite <-(r_sel _ _ _ _ Hr). set (d := asel t).
  apply does_bind. eapply does_eq; [by eapply arg_sds_spec|]. set (k := karg 1 t). eapply does_step; [apply (readOrReply_spec E s t d k Nullbulk Hr); by eapply sel_lt|].
  intros [a|] s1 [Ha1 H1]; [|destruct H1 as [-> Hr1]; by apply does_ret]. destruct H1 as (Hr1 & Hl1 & ob & Hob & Hok & ->). apply does_bind. eapply does_get_obj; [done|].
  destruct (val ob) as [so|ty v] eqn:Ev; cbn in Hok |- *.
  - eapply does_step; [apply (reply_bulk_spec E s1 _ a ob (obj_bytes so) Hr1 Hob); by rewrite Ev|]. intros _ s2 [Hr2 Ha2]. apply does_ret. by rewrite Ha2.
  - rewrite bool_decide_eq_false_2 by done. cbn [negb]. eapply does_step; [by apply (shared_spec E _ _ _ Wrongtypeerr Hr1)|]. intros _ s2 [Hr2 ->]. by apply does_ret.
Qed.
Lemma get_impl s t : ready0 s t -> (length (aargs t) = 2)%nat -> implements (getCommand e) s (Some (aget e t)).
Proof. intros Hr Hlen. eapply implements_step; [apply (getGeneric_spec _ s t Hr); [lia|tauto]|]. intros r s1 (_ & Hr1 & _). by eapply implements_ret. Qed.
Lemma getset_impl s t : ready0 s t -> (length (aargs t) = 3)%nat -> implements (getsetCommand e) s (Some (agetset e t)).
Proof.
  intros Hr Hlen. unfold getsetCommand, agetset. eapply implements_step; [apply (getGeneric_spec (eq 2%nat) s t); [by apply start_encoding|lia|done]|]. intros r s1 (-> & Hr1 & Ha1).
  rewrite negb_involutive. destruct (is_other _); [by eapply implements_ret|].
  assert (aargs (aget e t) = aargs t) as Haa by (unfold aget; cbn; apply aargs_purge). assert (asel (aget e t) = asel t) as Hs by (unfold aget; cbn; apply asel_purge).
  eapply encode_step; [exact Hr1|rewrite Haa; lia|]. intros v s2 Hr2 Hv2 _ _. eapply cdb_step; [exact Hr2|]. eapply arg_sds_step; [exact Hr2|rewrite Haa; lia|done|]. rewrite Hs.
  replace (karg 1 (aget e t)) with (karg 1 t) by (unfold karg; by rewrite Haa).
  eapply implements_step; [apply (setKey_spec _ e s2 _ (asel t) (karg 1 t) 2 v (karg 2 t) Hr2); [rewrite <-Hs; by eapply sel_lt|done|rewrite Haa; apply karg_lookup; lia]|].
  intros _ s3 (Hr3 & _). eapply notify_step; [exact Hr3|]. assert (asel (replace e (asel t) (karg 1 t) (AString (karg 2 t)) (aget e t)) = asel t) as -> by (unfold replace; cbn; by rewrite asel_purge).
  intros Hr4. by eapply report_last.
Qed.

Lemma strlen_impl s t : ready0 s t -> (length (aargs t) = 2)%nat -> implements (strlenCommand e) s (Some (astrlen e t)).
Proof.
  intros Hr Hlen. unfold strlenCommand, astrlen. eapply cdb_step; [exact Hr|]. eapply arg_sds_step; [exact Hr|lia|tauto|].
  eapply implements_step; [apply (readOrReply_spec _ s t (asel t) (karg 1 t) Czero Hr); by eapply sel_lt|]. intros [a|] s1 [Ha1 H1]; [|destruct H1 as [-> Hr1]; by eapply implements_ret].
  destruct H1 as (Hr1 & Hl1 & ob & Hob & Hok & ->). eapply implements_step; [by apply (checkType_spec _ _ _ _ a ob Hr1)|]. intros r s2. destruct (abs_value (val ob)) as [bs|ty v] eqn:Eb.
  - intros [-> ->]. eapply implements_eq; [by eapply stringLen_spec|]. by eapply reply_last.
  - intros [-> Hr2]. by eapply implements_ret.
Qed.

(** *** Numbers *)

Lemma number_reply_spec (E : nat -> Prop) s t a ob v :
  rel E z0 s t -> obj_at (heap s) a = Some ob -> abs_value (val ob) = AString (decimal v) ->
  does (reply_shared Colon;; reply_object a;; reply_shared Crlf) s (fun _ s1 => rel E z0 s1 (say (RLongLong v) t)).
Proof.
  intros Hr Ho Hb. destruct (val ob) as [so|] eqn:Ev; [|done]. injection Hb as Hb.
  eapply does_eq.
  - unfold reply_shared, reply_object, replyK, change, mbind, K_bind. cbn [mbind option_bind]. unfold get_obj. cbn [heap with_kreplies]. rewrite Ho. cbn [mbind option_bind]. rewrite Ev. done.
  - destruct Hr as [Hh Hd He Hs Hl Ha Hsd Hw Hrep Hc]. split; try done. cbn [areplies say kreplies with_kreplies]. rewrite !wire_concat, <-Hw, <-!app_assoc. f_equal.
    unfold wire. cbn [all_pieces pieces shared_item shared_text app obj_bytes]. rewrite Hb. unfold header. change (str ":") with [58]. cbn. by rewrite !app_nil_r.
Qed.

Lemma new_number_spec (E : nat -> Prop) s t v so :
  rel E z0 s t -> createStringObjectFromLongLongForValue (k_config e) v = Some so -> LLONG_MIN <= v <= LLONG_MAX ->
  does (store_string so) s (fun a s1 => rel E (one a) s1 t /\ alive (heap s1) a /\ den (heap s1) a = AString (decimal v) /\ dbs s1 = dbs s /\ seldb s1 = seldb s).
Proof.
  intros Hr Hso Hv. destruct (from_long_long (k_config e) v Hv) as (so' & E' & Hb & Hok & Hw). rewrite Hso in E'. injection E' as <-.
  destruct (store_string_spec s _ _ so (r_heap _ _ _ _ Hr) Hok Hw) as (a & h & n & Eq & Hh & Hk & Ha & Hd). eapply does_eq; [exact Eq|].
  rewrite Hb in Hd. split; [|done]. eapply rel_ledger; [|eapply rel_heap; [exact Hr|exact Hh|]].
  - done.
  - refine (keeps_weaken _ _ _ _ _ Hk). intros x Hx. eapply alive_held; [apply Hr|done].
Qed.

(** A number is stored under a key. *)
Lemma store_number_spec (E : nat -> Prop) s t d k o v (m : Z -> K ()) :
  rel E z0 s t -> looked s d k o -> m = (fun a => match o with Some _ => dbOverwrite d k a | None => dbAdd d k a end) -> LLONG_MIN <= v <= LLONG_MAX ->
  does (n ← liftK (createStringObjectFromLongLongForValue (k_config e) v); a ← store_string n; m a;; mret a) s
    (fun a s1 => rel E z0 s1 (store d k (AString (decimal v)) t) /\ looked s1 d k (Some a)).
Proof.
  intros Hr Hl -> Hv. destruct (from_long_long (k_config e) v Hv) as (so & Eso & _). apply does_bind. eapply does_eq; [unfold liftK; by rewrite Eso|].
  eapply does_step; [by apply (new_number_spec E s t v so Hr)|]. intros a s1 (Hr1 & Ha1 & Hd1 & Hdb1 & Hs1). assert (looked s1 d k o) as Hl1 by (destruct Hl as (db & Hdb & ->); exists db; by rewrite Hdb1).
  destruct o as [old|].
  - eapply does_step; [apply (dbOverwrite_spec E _ s1 t d k a old Hr1 Hl1 Ha1)|].
    + intros x _. apply one_nonneg.
    + intros ->. rewrite one_eq. destruct Hl1 as (db & Hdb & Hk). pose proof (held_dict _ (kargv s1) _ _ _ _ Hdb (eq_sym Hk)). lia.
    + intros _. apply one_nonneg.
    + intros _ s2 (Hr2 & Hl2 & _). apply does_ret. rewrite Hd1 in Hr2. split; [|done]. eapply rel_ledger, Hr2. intros x. unfold z0. lia.
  - eapply does_step; [apply (dbAdd_spec E _ s1 t d k a Hr1 Hl1 Ha1)|]. intros _ s2 (Hr2 & Hl2 & _). apply does_ret. rewrite Hd1 in Hr2. split; [|done].
    eapply rel_ledger, Hr2. intros x. unfold z0. lia.
Qed.

Lemma sum_check old incr : LLONG_MIN <= old <= LLONG_MAX -> LLONG_MIN <= incr <= LLONG_MAX ->
  (incr <? 0) && (old <? 0) && (incr <? LLONG_MIN - old) || (0 <? incr) && (0 <? old) && (LLONG_MAX - old <? incr) = negb ((LLONG_MIN <=? old + incr) && (old + incr <=? LLONG_MAX)).
Proof.
  unfold LLONG_MIN, LLONG_MAX. intros Ho Hi. apply eq_true_iff_eq. rewrite negb_true_iff, orb_true_iff, !andb_true_iff, andb_false_iff, !Z.ltb_lt, !Z.leb_gt. lia.
Qed.

(** The new value: in place when only the key holds the number, a new object otherwise. *)
Lemma incr_store_spec (E : nat -> Prop) s t d k o v :
  rel E z0 s t -> looked s d k o -> (forall a, o = Some a -> exists bs, value_of d k t = Some (AString bs)) -> LLONG_MIN <= v <= LLONG_MAX ->
  does (inplace ← match o with
      | Some a => ob ← get_obj a; so ← liftK (string_of (val ob));
        mret ((refcount ob =? 1) && is_int so && ((v <? 0) || (OBJ_SHARED_INTEGERS <=? v)) && (LONG_MIN <=? v) && (v <=? LONG_MAX))
      | None => mret false
      end;
    match o with
      | Some a =>
        if (inplace : bool) then ob ← get_obj a; set_obj a (mk_robj (VString (ObjInt false v)) (refcount ob));; mret a
        else n ← liftK (createStringObjectFromLongLongForValue (k_config e) v); n ← store_string n; dbOverwrite d k n;; mret n
      | None => n ← liftK (createStringObjectFromLongLongForValue (k_config e) v); n ← store_string n; dbAdd d k n;; mret n
      end) s (fun a s1 => rel E z0 s1 (store d k (AString (decimal v)) t) /\ looked s1 d k (Some a)).
Proof.
  intros Hr Hl Hstr Hv. destruct o as [a|].
  - destruct (looked_object E _ _ _ _ _ _ Hr Hl) as (Ha & ob & Hob & Hok & Hval & Hden). destruct (Hstr a eq_refl) as [bs Hbs]. rewrite Hval in Hbs. injection Hbs as Hbs.
    destruct (val ob) as [so|] eqn:Ev; [|done].
    apply does_bind. eapply (does_eq _ _ s s). { rewrite (K_bind_ok _ _ _ ob s) by (unfold get_obj; by rewrite Hob). rewrite Ev. done. }
    destruct (_ && _ && _ && _ && _) eqn:Ei; [|by apply (store_number_spec E s t d k (Some a) v (dbOverwrite d k))].
    rewrite !andb_true_iff in Ei. destruct Ei as [[[[Hc%Z.eqb_eq _] _] _] _].
    apply does_bind. eapply does_get_obj; [done|]. eapply does_step; [by apply (modify_spec E s t d k a ob (VString (ObjInt false v)) Hr Hl Hob Hc)|].
    intros _ s1 (Hr1 & _ & _ & _ & Hl1 & _). by apply does_ret.
  - apply does_bind, does_ret. by apply (store_number_spec E s t d k None v (dbAdd d k)).
Qed.

Lemma asel_store d k v t : asel (store d k v t) = asel t.
Proof. done. Qed.

Lemma incr_tail (E : nat -> Prop) s t k o old incr :
  let d := asel t in rel E z0 s t -> looked s d k o -> (forall a, o = Some a -> exists bs, value_of d k t = Some (AString bs)) -> LLONG_MIN <= old <= LLONG_MAX -> LLONG_MIN <= incr <= LLONG_MAX ->
  implements (
    if (incr <? 0) && (old <? 0) && (incr <? LLONG_MIN - old) || (0 <? incr) && (0 <? old) && (LLONG_MAX - old <? incr)
    then reply_error "increment or decrement would overflow" else
    value ← liftK (ll_checked (old + incr));
    inplace ← match o with
      | Some a => ob ← get_obj a; so ← liftK (string_of (val ob));
        mret ((refcount ob =? 1) && is_int so && ((value <? 0) || (OBJ_SHARED_INTEGERS <=? value)) && (LONG_MIN <=? value) && (value <=? LONG_MAX))
      | None => mret false
      end;
    new ← match o with
      | Some a =>
        if (inplace : bool) then ob ← get_obj a; set_obj a (mk_robj (VString (ObjInt false value)) (refcount ob));; mret a
        else n ← liftK (createStringObjectFromLongLongForValue (k_config e) value); n ← store_string n; dbOverwrite d k n;; mret n
      | None => n ← liftK (createStringObjectFromLongLongForValue (k_config e) value); n ← store_string n; dbAdd d k n;; mret n
      end;
    signal k;;
    notify "incrby" k;;
    add_dirty 1;;
    reply_shared Colon;; reply_object new;; reply_shared Crlf) s
  (Some (if (LLONG_MIN <=? old + incr) && (old + incr <=? LLONG_MAX) then
        say (RLongLong (old + incr)) (changed 1 (notified "incrby" k d (touched d k (store d k (AString (decimal (old + incr))) t))))
      else failed "increment or decrement would overflow" t)).
Proof.
  intros d Hr Hl Hstr Ho Hi. rewrite sum_check by done. destruct ((LLONG_MIN <=? old + incr) && (old + incr <=? LLONG_MAX)) eqn:Es; cbn [negb]; [|by eapply reply_last].
  apply andb_true_iff in Es as [Hs1%Z.leb_le Hs2%Z.leb_le]. set (v := old + incr) in *. eapply implements_eq; [unfold liftK; by rewrite ll_checked_ok|].
  apply implements_group. eapply implements_step; [by apply (incr_store_spec E s t d k o v)|]. intros a s1 [Hr1 Hl1].
  eapply signal_step; [exact Hr1|]. clear Hr1. intros Hr1. eapply notify_step; [exact Hr1|]. clear Hr1. intros Hr1. eapply report_step; [exact Hr1|]. clear Hr1. intros Hr1.
  assert (looked s1 d k (Some a)) as Hl1' by done.
  match type of Hr1 with rel _ _ ?x _ => set (s2 := x) in * end. assert (looked s2 d k (Some a)) as Hl2 by done.
  destruct (looked_object E _ _ _ _ _ _ Hr1 Hl2) as (_ & ob & Hob & _ & Hval & _).
  apply (implements_does (E := E)). eapply (number_reply_spec E); [exact Hr1|exact Hob|].
  assert (value_of d k (store d k (AString (decimal v)) t) = Some (AString (decimal v))) as Hsv.
  { unfold value_of, the_db, store. cbn. rewrite list_lookup_alter_eq. destruct (adbs t !! d) as [db|] eqn:Ed; cbn; [by rewrite lookup_insert_eq|].
    pose proof (sel_lt _ _ _ Hr) as Hlt. rewrite (rel_lt E _ _ _ _ Hr) in Hlt. apply lookup_ge_None in Ed. unfold d in Ed. lia. }
  change (value_of d k (store d k (AString (decimal v)) t) = Some (abs_value (val ob))) in Hval. congruence.
Qed.

Lemma incr_impl (E : nat -> Prop) s t incr :
  rel E z0 s t -> ~ E 1%nat -> (1 < length (aargs t))%nat -> LLONG_MIN <= incr <= LLONG_MAX -> implements (incrDecrCommand e incr) s (Some (aincr e incr t)).
Proof.
  intros Hr HE Hlen Hi. unfold incrDecrCommand, aincr. eapply cdb_step; [exact Hr|]. eapply arg_sds_step; [exact Hr|done|done|]. set (d := asel t). set (k := karg 1 t).
  eapply implements_step; [apply (lookupKeyWrite_spec E z0 e s t d k Hr); [by eapply sel_lt|done]|]. intros o s1 (Hr1 & Hl1 & _).
  set (t1 := purge e d k t) in *. assert (asel t1 = d) as Hd1 by apply asel_purge.
  destruct o as [a|].
  - destruct (looked_object E _ _ _ _ _ _ Hr1 Hl1) as (_ & ob & Hob & Hok & Hval & _). rewrite Hval. eapply implements_step; [by apply (checkType_spec E _ _ _ a ob Hr1)|].
    intros r s2. destruct (abs_value (val ob)) as [bs|ty v] eqn:Eb; [|intros [-> Hr2]; by eapply implements_ret]. intros [-> ->].
    eapply implements_step; [by apply (number_spec E _ _ _ a ob bs None Hr1)|]. intros v s2 [-> Hs2]. destruct (string2ll bs) as [old|] eqn:En; [subst s2|by eapply implements_ret].
    pose proof (incr_tail E s1 t1 k (Some a) old incr) as Ht. cbn zeta in Ht. rewrite Hd1 in Ht. apply Ht; [done|done| |by eapply string2ll_range|done]. intros a' [= <-]. by exists bs.
  - rewrite (looked_value E _ _ _ _ _ _ Hr1 Hl1). cbn [fmap option_fmap option_map]. eapply implements_eq; [done|]. eapply implements_eq; [done|].
    pose proof (incr_tail E s1 t1 k None 0 incr) as Ht. cbn zeta in Ht. rewrite Hd1 in Ht. apply Ht; [done|done|done|unfold LLONG_MIN, LLONG_MAX; lia|done].
Qed.
Lemma incrby_impl s t : ready0 s t -> (length (aargs t) = 3)%nat -> implements (incrbyCommand e) s (Some (aincrby e t)).
Proof.
  intros Hr Hlen. unfold incrbyCommand, aincrby. eapply arg_step; [exact Hr|lia|]. intros a Ha. eapply implements_step; [by apply (arg_number _ _ _ _ 2 None a Hr)|].
  intros v s1 [-> Hs1]. destruct (string2ll (karg 2 t)) as [n|] eqn:En; [subst s1|by eapply implements_ret]. eapply incr_impl; [exact Hr|tauto|lia|by eapply string2ll_range].
Qed.
Lemma ll_checked_range v w : ll_checked v = Some w -> w = v /\ LLONG_MIN <= v <= LLONG_MAX.
Proof.
  unfold ll_checked. destruct ((LLONG_MIN <=? v) && (v <=? LLONG_MAX)) eqn:Ev; [|done]. intros [= <-]. apply andb_true_iff in Ev as [?%Z.leb_le ?%Z.leb_le]. done.
Qed.
Lemma decrby_impl s t : ready0 s t -> (length (aargs t) = 3)%nat -> implements (decrbyCommand e) s (adecrby e t).
Proof.
  intros Hr Hlen. unfold decrbyCommand, adecrby. eapply arg_step; [exact Hr|lia|]. intros a Ha. eapply implements_step; [by apply (arg_number _ _ _ _ 2 None a Hr)|].
  intros v s1 [-> Hs1]. destruct (string2ll (karg 2 t)) as [n|] eqn:En; [subst s1|by eapply implements_ret].
  destruct (ll_checked (- n)) as [m|] eqn:Em; cbn [mbind option_bind]; [|by apply implements_none]. eapply implements_eq; [done|]. apply ll_checked_range in Em as [-> Hm].
  eapply incr_impl; [exact Hr|tauto|lia|done].
Qed.

(** *** Parts of strings *)

Lemma finish_change (E : nat -> Prop) s t k ev n d :
  rel E z0 s t -> asel t = d -> implements (signal k;; notify ev k;; add_dirty 1;; reply_integer n) s (Some (say (RLongLong n) (changed 1 (notified ev k d (touched d k t))))).
Proof.
  intros Hr <-. eapply signal_step; [exact Hr|]. clear Hr. intros Hr. eapply notify_step; [exact Hr|]. clear Hr. intros Hr. eapply report_step; [exact Hr|]. intros Hr1. by eapply reply_last.
Qed.

Lemma length_check_step (E : nat -> Prop) s t n (f : bool -> K ()) o1 o2 :
  rel E z0 s t -> (too_long n = false -> implements (f true) s o2) ->
  (forall s1, rel E z0 s1 (failed "string exceeds maximum allowed size (512MB)" t) -> too_long n = true -> implements (f false) s1 o1) ->
  implements (checkStringLength (s64 (u64 n)) ≫= f) s (if too_long n then o1 else o2).
Proof.
  intros Hr H2 H1. unfold checkStringLength. fold (too_long n). destruct (too_long n) eqn:El.
  - apply implements_assoc. eapply reply_step; [exact Hr|reflexivity|]. intros Hr1. eapply implements_eq; [done|]. by apply H1.
  - eapply implements_eq; [done|]. by apply H2.
Qed.

Lemma append_impl s t : ready0 s t -> (length (aargs t) = 3)%nat -> implements (appendCommand e) s (aappend e t).
Proof.
  intros Hr Hlen. unfold appendCommand, aappend. eapply cdb_step; [exact Hr|]. eapply arg_sds_step; [exact Hr|lia|tauto|].
  set (d := asel t). set (k := karg 1 t). set (v := karg 2 t). eapply implements_step; [apply (lookupKeyWrite_spec _ z0 e s t d k Hr); [by eapply sel_lt|done]|].
  intros o s1 (Hr1 & Hl1 & Ho1). cbn zeta. set (t1 := purge e d k t) in *. assert (asel t1 = d) as Hd1 by apply asel_purge.
  assert (aargs t1 = aargs t) as Ha1 by apply aargs_purge. assert (karg 2 t1 = v) as Hv by (unfold karg; by rewrite Ha1).
  destruct o as [a|].
  - destruct (looked_object _ _ _ _ _ _ _ Hr1 Hl1) as (_ & ob & Hob & Hok & Hval & _). rewrite Hval. apply implements_assoc. eapply implements_step; [by apply (checkType_spec _ _ _ _ a ob Hr1)|].
    intros r s2. destruct (abs_value (val ob)) as [bs|ty w] eqn:Eb; [|intros [-> Hr2]; eapply implements_eq; [done|]; by eapply implements_ret]. intros [-> ->].
    apply implements_assoc. eapply arg_sds_step; [exact Hr1|rewrite Ha1; lia|tauto|]. rewrite Hv. apply implements_assoc. eapply implements_eq; [by eapply stringLen_spec|].
    apply implements_assoc. eapply length_check_step; [exact Hr1| |intros s2 Hr2 _; eapply implements_eq; [done|]; by eapply implements_ret].
    intros _. cbn [negb]. apply implements_assoc. eapply implements_step; [by apply (dbUnshare_spec _ s1 t1 d k a ob bs Hr1)|]. intros n s2 (Hr2 & Hl2 & Hon & _).
    apply implements_assoc. eapply implements_eq; [unfold get_obj; by rewrite Hon|]. apply implements_assoc. eapply implements_eq; [done|]. apply implements_assoc.
    destruct (k_alloc e (zlen bs + zlen v)) eqn:Ek; [|by apply implements_none]. eapply implements_eq; [done|].
    apply implements_assoc. eapply implements_step; [by apply (modify_spec _ s2 t1 d k n _ (VString (ObjRaw (bs ++ v))) Hr2 Hl2 Hon)|]. intros _ s3 (Hr3 & _).
    eapply implements_eq; [done|]. eapply finish_change; [exact Hr3|exact Hd1].
  - rewrite (looked_value _ _ _ _ _ _ _ Hr1 Hl1). cbn [fmap option_fmap option_map]. apply implements_assoc. eapply encode_step; [by apply start_encoding|rewrite Ha1; lia|].
    intros x s2 Hr2 Hx2 _ Hdb2. assert (looked s2 d k None) as Hl2 by (destruct Hl1 as (db & Hdb & ?); exists db; by rewrite Hdb2).
    destruct (arg_object _ _ _ _ _ _ Hr2 Hx2) as (Hax & ob & so & Hob & Hvo & Hok & Hbs & Hden). rewrite (karg_lookup 2 t1), Hv in Hbs by (rewrite Ha1; lia). injection Hbs as Hbs.
    apply implements_assoc. eapply implements_step; [by apply (dbAdd_spec _ _ s2 t1 d k x Hr2 Hl2)|]. intros _ s3 (Hr3 & Hl3 & Ho3 & Hh3). rewrite Hden, <-Hbs in Hr3.
    change (made_ready d k (AString v) (store d k (AString v) t1)) with (store d k (AString v) t1) in Hr3. rewrite <-Hh3 in Hax.
    apply implements_assoc. eapply implements_step; [by apply (rel_incr _ _ _ _ x Hr3)|]. cbv beta. intros _ s4 (Hr4 & _ & _ & Hk4 & _). apply rel_ledger with (b' := z0) in Hr4; [|intros y; unfold z0; lia].
    specialize (Hk4 x I). rewrite Hh3, Hob in Hk4. destruct (obj_at (heap s4) x) as [ob4|] eqn:Eob4; [|done]. cbn in Hk4. injection Hk4 as Hk4.
    apply implements_assoc. eapply implements_eq; [apply (stringLen_spec s4 x ob4 v Eob4); rewrite Hk4, Hvo; [done|]; cbn; by rewrite Hbs|]. eapply implements_eq; [done|].
    eapply finish_change; [exact Hr4|exact Hd1].
Qed.

Lemma grown_write old offset v :
  let len := u64 (offset + zlen v) in 0 <= offset ->
  mwrite (grow_zero old len) offset v = if Z.max (zlen old) len <? offset + zlen v then None else Some (overwrite_at old offset v).
Proof.
  intros len Ho. pose proof (u64_range (offset + zlen v)) as Hu. fold len in Hu.
  assert (len <= offset + zlen v) as Hle by (unfold len, u64; apply Z.mod_le; lia).
  assert (zlen (grow_zero old len) = Z.max (zlen old) len) as Hlen.
  { unfold grow_zero. destruct (Z.leb_spec len (zlen old)); [lia|]. rewrite length_app, length_replicate. lia. }
  unfold mwrite, in_buf. destruct (Z.ltb_spec (Z.max (zlen old) len) (offset + zlen v)) as [Hb|Hb].
  { destruct (_ && _) eqn:Ei; [|done]. rewrite !andb_true_iff, !Z.leb_le in Ei. lia. }
  replace (_ && _) with true by (symmetry; rewrite !andb_true_iff, !Z.leb_le; lia). f_equal. unfold overwrite_at. set (o := Z.to_nat offset).
  unfold grow_zero in *. destruct (Z.leb_spec len (zlen old)) as [Hc|Hc].
  - replace (o - length old)%nat with 0%nat by lia. by rewrite app_nil_r.
  - assert (len = offset + zlen v) as -> by lia. f_equal; [|f_equal].
    + destruct (decide (o <= length old)%nat); [rewrite !take_app_le by lia; done|]. rewrite !take_app_ge by lia. f_equal. rewrite !take_replicate. f_equal. lia.
    + rewrite !drop_ge; [done|lia|]. rewrite length_app, length_replicate. lia.
Qed.

Lemma store_store d k v w t : store d k v (store d k w t) = store d k v t.
Proof.
  unfold store, on_db, with_adbs. cbn. f_equal. rewrite list_alter_alter_eq. apply list_eq. intros i. destruct (decide (i = d)) as [->|]; [|by rewrite !list_lookup_alter_ne].
  rewrite !list_lookup_alter_eq. destruct (adbs t !! d); [|done]. cbn. by rewrite insert_insert_eq.
Qed.

Lemma setrange_tail (E : nat -> Prop) s t d k a old offset v :
  let len := u64 (offset + zlen v) in
  rel E z0 s t -> asel t = d -> looked s d k (Some a) -> obj_at (heap s) a = Some (mk_robj (VString (ObjRaw old)) 1) -> 0 <= offset ->
  implements (
    o ← get_obj a; s ← liftK (sds_of (val o)); assertK ((len <=? zlen s) || k_alloc e len);; s ← liftK (mwrite (grow_zero s len) offset v);
    set_obj a (mk_robj (VString (ObjRaw s)) (refcount o));; signal k;; notify "setrange" k;; add_dirty 1;; reply_integer (zlen s)) s
  (if (zlen old <? len) && negb (k_alloc e len) then None else if Z.max (zlen old) len <? offset + zlen v then None else
   let s := overwrite_at old offset v in Some (say (RLongLong (zlen s)) (changed 1 (notified "setrange" k d (touched d k (store d k (AString s) t)))))).
Proof.
  intros len Hr Hd Hl Ho Hoff. eapply implements_eq; [unfold get_obj; by rewrite Ho|]. eapply implements_eq; [done|]. cbn [refcount].
  assert ((zlen old <? len) && negb (k_alloc e len) = negb ((len <=? zlen old) || k_alloc e len)) as ->.
  { destruct (Z.ltb_spec (zlen old) len), (Z.leb_spec len (zlen old)); try lia; by destruct (k_alloc e len). }
  destruct ((len <=? zlen old) || k_alloc e len) eqn:Ek; cbn [negb]; [|by apply implements_none]. eapply implements_eq; [done|].
  pose proof (grown_write old offset v Hoff) as Hw. cbn zeta in Hw. fold len in Hw. rewrite Hw. destruct (_ <? _); [by apply implements_none|]. eapply implements_eq; [done|].
  eapply implements_step; [by apply (modify_spec E s t d k a _ (VString (ObjRaw (overwrite_at old offset v))) Hr Hl Ho)|]. intros _ s1 (Hr1 & _). eapply finish_change; [exact Hr1|exact Hd].
Qed.

Lemma create_key_spec (E : nat -> Prop) s t d k v :
  rel E z0 s t -> looked s d k None -> value_ok v ->
  does (n ← createObject v; dbAdd d k n;; mret n) s (fun n s1 => rel E z0 s1 (made_ready d k (abs_value v) (store d k (abs_value v) t)) /\ looked s1 d k (Some n) /\
    obj_at (heap s1) n = Some (mk_robj v 1)).
Proof.
  intros Hr Hl Hv. destruct (create_spec s _ _ v (r_heap _ _ _ _ Hr) Hv) as (Eq & Hh & Hk & H0 & _ & Hn). apply does_bind. eapply does_eq; [exact Eq|].
  set (n := next s) in *. set (h := <[n := _]> (heap s)) in *.
  assert (rel E (fun x => z0 x + one n x) (with_heap h (n + 1) s) t) as Hr1 by (eapply rel_heap; [done..|]; refine (keeps_weaken _ _ _ _ _ Hk); intros x Hx ->; lia).
  assert (obj_at h n = Some (mk_robj v 1)) as Hon by (rewrite obj_at_nonneg by lia; apply lookup_insert_eq).
  assert (alive h n) as Han. { unfold alive. destruct (Z.ltb_spec n 0); [lia|]. by rewrite <-(obj_at_nonneg h n), Hon by lia. }
  eapply does_step; [by apply (dbAdd_spec E _ _ _ d k n Hr1)|]. intros _ s2 (Hr2 & Hl2 & _ & Hh2). apply does_ret. split; [|split; [done|by rewrite Hh2]].
  unfold den in Hr2. cbn [heap with_heap] in Hr2. rewrite Hon in Hr2. eapply rel_ledger, Hr2. intros x. unfold z0. lia.
Qed.

Lemma setrange_impl s t : ready0 s t -> (length (aargs t) = 4)%nat -> implements (setrangeCommand e) s (asetrange e t).
Proof.
  intros Hr Hlen. unfold setrangeCommand, asetrange. eapply arg_sds_step; [exact Hr|lia|tauto|]. eapply arg_step; [exact Hr|lia|]. intros x Hx.
  eapply implements_step; [by apply (arg_long _ _ _ _ 2 None x Hr)|]. intros r s1 [-> Hs1]. destruct (string2ll (karg 2 t)) as [offset|] eqn:En; [subst s1|by eapply implements_ret].
  destruct (Z.ltb_spec offset 0) as [Hneg|Hoff]; [by eapply reply_last|]. eapply cdb_step; [exact Hr|]. eapply arg_sds_step; [exact Hr|lia|tauto|].
  set (d := asel t). set (k := karg 1 t). set (v := karg 3 t). eapply implements_step; [apply (lookupKeyWrite_spec _ z0 e s t d k Hr); [by eapply sel_lt|done]|].
  intros o s1 (Hr1 & Hl1 & _). cbn zeta. set (t1 := purge e d k t) in *. assert (asel t1 = d) as Hd1 by apply asel_purge. set (len := u64 (offset + zlen v)).
  assert ((zlen v =? 0) = bool_decide (v = [])) as Hemp by (destruct v; [done|]; rewrite bool_decide_eq_false_2 by done; cbn; apply Z.eqb_neq; lia).
  destruct o as [a|].
  - destruct (looked_object _ _ _ _ _ _ _ Hr1 Hl1) as (_ & ob & Hob & Hok & Hval & _). rewrite Hval. apply implements_assoc. eapply implements_step; [by apply (checkType_spec _ _ _ _ a ob Hr1)|].
    intros r s2. destruct (abs_value (val ob)) as [old|ty w] eqn:Eb; [|intros [-> Hr2]; eapply implements_eq; [done|]; by eapply implements_ret]. intros [-> ->].
    apply implements_assoc. eapply implements_eq; [by eapply stringLen_spec|]. rewrite Hemp. case_bool_decide as Hv0.
    { apply implements_assoc. eapply reply_step; [exact Hr1|reflexivity|]. intros Hr2. eapply implements_eq; [done|]. by eapply implements_ret. }
    rewrite bool_decide_eq_false_2 by done. cbn [orb]. apply implements_assoc. eapply length_check_step; [exact Hr1| |intros s2 Hr2 _; eapply implements_eq; [done|]; by eapply implements_ret].
    intros _. cbn [negb]. apply implements_assoc. eapply implements_step; [by apply (dbUnshare_spec _ s1 t1 d k a ob old Hr1)|]. intros n s2 (Hr2 & Hl2 & Hon & _). eapply implements_eq; [done|].
    by apply (setrange_tail _ s2 t1 d k n old offset v Hr2 Hd1).
  - rewrite (looked_value _ _ _ _ _ _ _ Hr1 Hl1). cbn [fmap option_fmap option_map]. rewrite Hemp. case_bool_decide as Hv0.
    { apply implements_assoc. eapply (reply_step _ _ _ _ (RLongLong 0) _ _ Hr1); [by vm_compute|]. intros Hr2. eapply implements_eq; [done|]. by eapply implements_ret. }
    rewrite bool_decide_eq_true_2 by done. cbn [orb andb]. apply implements_assoc. eapply length_check_step; [exact Hr1| |intros s2 Hr2 _; eapply implements_eq; [done|]; by eapply implements_ret].
    intros _. cbn [negb]. fold len. destruct (k_alloc e len) eqn:Ek; cbn [negb].
    2: { by apply implements_none, K_bind_none. }
    apply implements_assoc. eapply implements_eq; [done|].
    pose proof (u64_range (offset + zlen v)) as Hu. fold len in Hu. set (zeros := replicate (Z.to_nat len) 0).
    assert (zlen zeros = len) as Hz by (unfold zeros; rewrite length_replicate; lia).
    apply implements_group_some. eapply implements_step; [by apply (create_key_spec _ s1 t1 d k (VString (ObjRaw zeros)) Hr1)|].
    intros n s2 (Hr2 & Hl2 & Hon). change (made_ready d k (abs_value (VString (ObjRaw zeros))) (store d k (abs_value (VString (ObjRaw zeros))) t1)) with (store d k (AString zeros) t1) in Hr2.
    pose proof (setrange_tail _ s2 _ d k n zeros offset v Hr2 Hd1 Hl2 Hon Hoff) as Ht. cbn zeta in Ht. fold len in Ht. rewrite Hz, Z.ltb_irrefl, Z.max_id, store_store, Ek in Ht. cbn [andb] in Ht.
    change (zlen []) with 0. rewrite (Z.max_r 0 len) by lia. destruct (Z.ltb_spec len (offset + zlen v)) as [|Hle]; [exact Ht|].
    replace (overwrite_at [] offset v) with (overwrite_at zeros offset v); [exact Ht|].
    assert (len <= offset + zlen v) by (unfold len, u64; apply Z.mod_le; lia).
    unfold overwrite_at. rewrite !drop_ge by (cbn; lia). f_equal. unfold zeros. cbn [length app].
    rewrite length_replicate, <-replicate_add, !take_replicate. f_equal. lia.
Qed.

Lemma getrange_impl s t : ready0 s t -> (length (aargs t) = 4)%nat -> implements (getrangeCommand e) s (Some (agetrange e t)).
Proof.
  intros Hr Hlen. unfold getrangeCommand, agetrange. eapply arg_step; [exact Hr|lia|]. intros x Hx.
  eapply implements_step; [by apply (arg_number _ _ _ _ 2 None x Hr)|]. intros r s1 [-> Hs1]. destruct (string2ll (karg 2 t)) as [start|] eqn:En; [subst s1|by eapply implements_ret].
  eapply arg_step; [exact Hr|lia|]. intros y Hy. eapply implements_step; [by apply (arg_number _ _ _ _ 3 None y Hr)|]. intros r s1 [-> Hs1].
  destruct (string2ll (karg 3 t)) as [end_|] eqn:En2; [subst s1|by eapply implements_ret]. eapply cdb_step; [exact Hr|]. eapply arg_sds_step; [exact Hr|lia|tauto|].
  set (d := asel t). set (k := karg 1 t). eapply implements_step; [apply (readOrReply_spec _ s t d k Emptybulk Hr); by eapply sel_lt|].
  intros [a|] s1 [Ha1 H1]; [|destruct H1 as [-> Hr1]; by eapply implements_ret]. destruct H1 as (Hr1 & Hl1 & ob & Hob & Hok & ->).
  eapply implements_step; [by apply (checkType_spec _ _ _ _ a ob Hr1)|]. intros r s2. destruct (abs_value (val ob)) as [bs|ty v] eqn:Eb; [|intros [-> Hr2]; by eapply implements_ret].
  intros [-> ->]. eapply implements_eq; [unfold get_obj; by rewrite Hob|]. destruct (val ob) as [so|] eqn:Ev; [|done]. injection Eb as <-. eapply implements_eq; [done|].
  assert ((match so with ObjInt _ v => '(buf, n) ← ll2string (replicate 32 0) 32 v; Some (take (Z.to_nat n) buf) | ObjEmbstr s | ObjRaw s => Some s end) = Some (obj_bytes so)) as ->.
  { destruct so as [sh v|?|?]; [|done..]. cbn in Hok. pose proof (decimal_length v Hok). rewrite ll2string_ok by (rewrite ?length_replicate; done || lia). cbn [mbind option_bind]. by rewrite take_decimal. }
  eapply implements_eq; [done|]. destruct (range_of (obj_bytes so) start end_); by eapply reply_last.
Qed.

(** *** Several keys *)

Lemma drop_one {A} (l : list A) : drop 1 l = tail l.
Proof. by destruct l. Qed.
(** A loop over arguments and the same loop over their characters. *)
Lemma args_fold {B C} (f : nat -> B -> K B) (step : C -> key -> C) (R : B -> C -> ks -> Prop) (args : list key) n i x c s :
  (forall j k x c s, args !! j = Some k -> (i <= j)%nat -> R x c s -> does (f j x) s (fun x' s' => R x' (step c k) s')) ->
  (i + n = length args)%nat -> R x c s -> does (for_each f (seq i n) x) s (fun x' s' => R x' (foldl step c (drop i args)) s').
Proof.
  revert i x c s. induction n as [|n IH]; intros i x c s Hf Hn Hx; cbn [seq for_each].
  { apply does_ret. by rewrite drop_ge by lia. }
  destruct (lookup_lt_is_Some_2 args i) as [k Hk]; [lia|]. eapply does_step; [by apply (Hf i k x c s)|]. intros x' s' Hx'.
  rewrite (drop_S _ k i Hk). cbn [foldl]. apply IH; [|lia|done]. intros j k' y c' s0 Hj Hle. apply Hf; [done|lia].
Qed.

(** The key of a round. *)
Lemma round_key (E : nat -> Prop) s t args j k : rel E z0 s t -> aargs t = args -> args !! j = Some k -> ~ E j -> arg_sds j s = Some (k, s).
Proof.
  intros Hr <- Hj HE. rewrite (arg_sds_spec E _ _ _ j Hr); [|by eapply lookup_lt_Some|done]. unfold karg. by rewrite Hj.
Qed.

Definition in_loop (d : nat) (args : list key) (t : ast) (s : ks) : Prop := ready0 s t /\ aargs t = args /\ asel t = d.
Lemma in_loop_sel d args t s : in_loop d args t s -> (d < length (dbs s))%nat.
Proof. intros (Hr & _ & <-). by eapply sel_lt. Qed.

Lemma mget_impl s t : ready0 s t -> (2 <= length (aargs t))%nat -> implements (mgetCommand e) s (Some (amget e t)).
Proof.
  intros Hr Hlen. unfold mgetCommand, amget. eapply implements_eq; [done|]. rewrite <-(args_length _ _ _ _ Hr).
  eapply reply_step; [exact Hr|reflexivity|]. intros Hr1. eapply implements_eq; [done|]. cbv beta. cbn [kargv with_kreplies]. rewrite <-(args_length _ _ _ _ Hr).
  replace (zlen (tail (aargs t))) with (Z.of_nat (length (aargs t)) - 1) by (destruct (aargs t); cbn in *; lia).
  apply (implements_does (E := fun _ => False)). set (d := asel t) in *. set (args := aargs t) in *.
  eapply does_mono; [apply (args_fold _ (fun t k => say (match visible e d k t with Some (AString s) => RBulk (ObjRaw s) | _ => shared_item Nullbulk end) (purge e d k t))
    (fun _ t s => in_loop d args t s) args _ 1 () (say (RMultiBulkLen (zlen args - 1)) t) _)|].
  - intros j k [] t1 s1 Hj _ Hloop. pose proof (in_loop_sel _ _ _ _ Hloop) as Hd. destruct Hloop as (Hr2 & Ha2 & Hs2). apply does_bind. eapply does_eq; [done|]. rewrite <-(r_sel _ _ _ _ Hr2), Hs2.
    apply does_bind. eapply does_eq; [exact (round_key _ _ _ args j k Hr2 Ha2 Hj (fun H => H))|]. eapply does_step; [by apply (lookupKeyRead_spec _ z0 e s1 t1 d k Hr2)|]. intros o s2 (Hr3 & Hv & Hl & _).
    assert (forall i t0 s0, ready0 s0 (say i t0) -> t0 = purge e d k t1 -> in_loop d args (say i t0) s0) as Hin.
    { intros i t0 s0 Hr0 ->. split; [done|]. cbn. by rewrite aargs_purge, asel_purge. }
    rewrite Hv. destruct o as [a|]; cbn [fmap option_fmap option_map].
    + destruct (looked_object _ _ _ _ _ _ _ Hr3 (Hl a eq_refl)) as (_ & ob & Hob & Hok & _ & Hden). rewrite Hden. apply does_bind. eapply does_get_obj; [done|].
      destruct (val ob) as [so|ty v] eqn:Ev; cbn in Hok |- *.
      * eapply does_mono; [apply (reply_bulk_spec _ s2 _ a ob (obj_bytes so) Hr3 Hob); by rewrite Ev|]. intros _ s3 [Hr4 _]. by apply Hin.
      * rewrite bool_decide_eq_false_2 by done. cbn [negb]. eapply does_mono; [by apply (shared_spec _ _ _ _ Nullbulk Hr3)|]. intros _ s3 [Hr4 _]. by apply Hin.
    + eapply does_mono; [by apply (shared_spec _ _ _ _ Nullbulk Hr3)|]. intros _ s3 [Hr4 _]. by apply Hin.
  - lia.
  - split; [exact Hr1|done].
  - intros [] s2 (Hr2 & _). by rewrite drop_one in Hr2.
Qed.

Abbreviation even_rel := (rel Nat.Even z0).
Lemma drop_pair (args : list key) j : (j + 2 <= length args)%nat -> exists k v, args !! j = Some k /\ args !! (j + 1)%nat = Some v /\ drop j args = k :: v :: drop (j + 2) args.
Proof.
  intros Hj. destruct (lookup_lt_is_Some_2 args j) as [k Hk]; [lia|]. destruct (lookup_lt_is_Some_2 args (j + 1)) as [v Hv]; [lia|]. exists k, v. split; [done|]. split; [done|].
  rewrite (drop_S _ k j Hk), (drop_S _ v (S j)) by (by rewrite <-Nat.add_1_r). do 2 f_equal. f_equal. lia.
Qed.
Lemma odd_not_even j : Nat.Odd j -> ~ Nat.Even j.
Proof. intros Ho He. by apply (Nat.Even_Odd_False j). Qed.

Lemma any_there_frame d l t : aargs (any_there e d l t).2 = aargs t /\ asel (any_there e d l t).2 = asel t.
Proof.
  revert t. induction l as [|k l IH]; intros t; cbn; [done|]. case_bool_decide; cbn; [by rewrite aargs_purge, asel_purge|]. destruct (IH (purge e d k t)) as [-> ->]. by rewrite aargs_purge, asel_purge.
Qed.

Lemma pairs_exist_spec n j s t d args :
  even_rel s t -> aargs t = args -> asel t = d -> Nat.Odd j -> (j + 2 * n = length args)%nat ->
  does (pairs_exist e n j) s (fun r s1 => r = (any_there e d (pairs (drop j args)).*1 t).1 /\ even_rel s1 (any_there e d (pairs (drop j args)).*1 t).2).
Proof.
  revert j s t. induction n as [|n IH]; intros j s t Hr Ha Hd Hj Hn; cbn [pairs_exist].
  { rewrite drop_ge by lia. by apply does_ret. }
  destruct (drop_pair args j) as (k & v & Hk & Hv & ->); [lia|]. cbn [pairs fmap list_fmap any_there fst]. rewrite <-Hd.
  apply does_bind. eapply does_eq; [unfold cdb; by rewrite <-(r_sel _ _ _ _ Hr)|]. apply does_bind. eapply does_eq; [exact (round_key _ _ _ args j k Hr Ha Hk (odd_not_even j Hj))|].
  eapply does_step; [apply (lookupKeyWrite_spec _ z0 e s t _ k Hr); [by eapply sel_lt|done]|]. intros o s1 (Hr1 & Hl1 & _).
  rewrite (looked_value _ _ _ _ _ _ _ Hr1 Hl1), is_Some_fmap_decide. destruct (bool_decide (is_Some o)); [by apply does_ret|]. rewrite Hd in *.
  apply IH; [done|by rewrite aargs_purge|by rewrite asel_purge| |lia]. destruct Hj as [m ->]. exists (m + 1)%nat. lia.
Qed.

Lemma replace_frame d k v t : aargs (replace e d k v t) = aargs t /\ asel (replace e d k v t) = asel t.
Proof. unfold replace. cbn. by rewrite aargs_purge, asel_purge. Qed.

Lemma set_pairs_spec n j s t d args :
  even_rel s t -> aargs t = args -> asel t = d -> Nat.Odd j -> (j + 2 * n = length args)%nat ->
  does (set_pairs e n j) s (fun _ s1 => even_rel s1 (foldl (fun t kv => notified "set" kv.1 d (replace e d kv.1 (AString kv.2) t)) t (pairs (drop j args)))).
Proof.
  revert j s t. induction n as [|n IH]; intros j s t Hr Ha Hd Hj Hn; cbn [set_pairs].
  { rewrite drop_ge by lia. by apply does_ret. }
  destruct (drop_pair args j) as (k & v & Hk & Hv & ->); [lia|]. cbn [pairs foldl fst snd].
  assert (j + 1 < length (aargs t))%nat as Hlt by (rewrite Ha; lia). destruct (arg_spec _ _ _ _ _ Hr Hlt) as (x & Hx & _).
  eapply does_step; [apply (encode_arg_spec _ e s t (j + 1) x v Hr); [destruct Hj as [m ->]; exists (m + 1)%nat; lia|done|by rewrite Ha]|].
  intros x' s1 (Hr1 & Hx1 & _). apply does_bind. eapply does_eq; [unfold cdb; by rewrite <-(r_sel _ _ _ _ Hr1), Hd|].
  apply does_bind. eapply does_eq; [exact (round_key _ _ _ args j k Hr1 Ha Hk (odd_not_even j Hj))|].
  eapply does_step; [apply (setKey_spec _ e s1 t d k (j + 1) x' v Hr1); [rewrite <-Hd; by eapply sel_lt|done|by rewrite Ha]|]. intros _ s2 (Hr2 & _).
  destruct (replace_frame d k (AString v) t) as [Ha2 Hs2].
  apply does_bind. eapply does_eq; [done|]. cbv beta. rewrite <-(r_sel _ _ _ _ Hr2), Hs2, Hd.
  apply IH; [by apply rel_report|by cbn; rewrite aargs_purge|by cbn; rewrite asel_purge| |lia]. destruct Hj as [m ->]. exists (m + 1)%nat. lia.
Qed.

Lemma length_pairs l : (length (pairs l) = Nat.div (length l) 2)%nat.
Proof.
  induction l as [l IH] using (well_founded_induction (Wf_nat.well_founded_ltof _ length)). unfold Wf_nat.ltof in IH.
  destruct l as [|k [|v l]]; [done|done|]. cbn [pairs length]. rewrite IH by (cbn; lia). replace (S (S (length l))) with (length l + 1 * 2)%nat by lia. rewrite Nat.div_add by lia. lia.
Qed.

Lemma mset_impl nx s t : ready0 s t -> (1 <= length (aargs t))%nat -> implements (msetGenericCommand e nx) s (Some (amset e nx t)).
Proof.
  intros Hr0 Hlen. unfold msetGenericCommand, amset. eapply implements_eq; [done|]. rewrite <-(args_length _ _ _ _ Hr0).
  assert (even_rel s t) as Hr by (by eapply rel_weaken, Hr0). set (args := aargs t) in *.
  destruct (Nat.eqb_spec (Nat.modulo (length args) 2) 0) as [|Hodd]; [by eapply reply_last|].
  pose proof (Nat.div_mod (length args) 2) as Hdm. pose proof (Nat.mod_upper_bound (length args) 2) as Hub. set (n := Nat.div (length args) 2) in *.
  assert (1 + 2 * n = length args)%nat as Hn by lia. assert (Nat.Odd 1) as H1 by (by exists 0%nat).
  assert (zlen (pairs (tail args)) = (Z.of_nat (length args) - 1) / 2) as Hz.
  { rewrite length_pairs. replace (length (tail args)) with (n * 2)%nat by (destruct args; cbn in *; lia). rewrite Nat.div_mul by lia. replace (Z.of_nat (length args) - 1) with (Z.of_nat n * 2) by lia. by rewrite Z.div_mul. }
  assert (Hset : forall s1 t1, even_rel s1 t1 -> aargs t1 = args -> asel t1 = asel t ->
    implements (set_pairs e n 1;; add_dirty ((Z.of_nat (length args) - 1) / 2);; reply_shared (if nx then Cone else Ok)) s1
     (Some (shared (if nx then Cone else Ok) (changed (zlen (pairs (tail args))) (foldl (fun t kv => notified "set" kv.1 (asel t1) (replace e (asel t1) kv.1 (AString kv.2) t)) t1 (pairs (tail args))))))).
  { intros s1 t1 Hr1 Ha1 Hs1. eapply implements_step; [by apply (set_pairs_spec n 1 s1 t1 (asel t1) args)|]. rewrite drop_one. intros _ s2 Hr2. rewrite <-Hz.
    eapply report_step; [exact Hr2|]. intros Hr3. by eapply reply_last. }
  destruct nx.
  - pose proof (pairs_exist_spec n 1 s t (asel t) args Hr eq_refl eq_refl H1 Hn) as Hp. rewrite drop_one in Hp. eapply implements_step; [exact Hp|]. intros r s1 [-> Hr1].
    destruct (any_there_frame (asel t) (pairs (tail args)).*1 t) as [Ha1 Hs1]. destruct (any_there e (asel t) (pairs (tail args)).*1 t) as [found t1] eqn:Eat. cbn [fst snd] in *.
    destruct found; [by eapply reply_last|]. rewrite <-Hs1. by apply Hset.
  - eapply implements_eq; [done|]. by apply Hset.
Qed.
End Strings.
