(* ===== verification/KeyspaceKeys.v ===== *)
(** * The commands on keys implement the commands on maps

    The commands of db.c and expire.c, and the execution of a sequence of commands. *)
From stdpp Require Import prelude list gmap strings.
From Stdlib Require Import ZArith Lia.
From S2P Require Import Prelude Util SdsText Rio Rdb Reply Resp Aof Keyspace KeyCommands KeyspaceAbs KeyspaceInv KeyspaceRel KeyspaceRefine.

Local Open Scope Z_scope.
Local Open Scope redis_scope.

#[local] Arguments str : simpl never.
#[local] Arguments ll_checked : simpl never.

Section Keys.
Context (e : kenv).
Abbreviation ready0 := (rel (fun _ => False) z0).

(** What is missing has no time of expiry and is not changed by a deletion. *)
Lemma missing_expiry (E : nat -> Prop) b s t d k : rel E b s t -> value_of d k t = None -> expiry_of d k t = None.
Proof.
  intros Hr Hv. destruct (decide (d < length (dbs s))%nat) as [Hd|Hd].
  - destruct (get_db_some E _ _ _ _ Hr Hd) as (db & Hdb & _). rewrite (looked_expiry E _ _ _ _ _ _ Hr Hdb). rewrite (looked_value E _ _ _ _ k (dict db !! k) Hr) in Hv by (by exists db).
    destruct (expires db !! k) as [w|] eqn:Ew; [|done]. destruct (r_exp _ _ _ _ Hr d db k Hdb) as [a Ha]; [by rewrite Ew|]. by rewrite Ha in Hv.
  - rewrite (rel_lt E _ _ _ _ Hr) in Hd. unfold expiry_of, the_db. by rewrite lookup_ge_None_2 by lia.
Qed.
Lemma drop_missing d k t : value_of d k t = None -> expiry_of d k t = None -> drop_key d k t = t.
Proof.
  intros Hv He. unfold drop_key, on_db, with_adbs. destruct t as [l se ar rp rr]. cbn. f_equal. unfold value_of, expiry_of, the_db in *. cbn in *.
  apply list_eq. intros i. destruct (decide (i = d)) as [->|]; [|by rewrite list_lookup_alter_ne]. rewrite list_lookup_alter_eq. destruct (l !! d) as [db|]; [|done]. cbn in *.
  rewrite !delete_id by done. by destruct db.
Qed.

Lemma del_impl s t : ready0 s t -> (1 <= length (aargs t))%nat -> implements (delGenericCommand e) s (Some (adel e t)).
Proof.
  intros Hr Hlen. unfold delGenericCommand, adel. eapply implements_eq; [done|]. rewrite <-(args_length _ _ _ _ Hr). set (args := aargs t) in *. set (d := asel t).
  set (step := fun '(n, t) k => let t := purge e d k t in if bool_decide (is_Some (value_of d k t)) then (n + 1, changed 1 (notified "del" k d (touched d k (drop_key d k t)))) else (n, t)).
  eapply implements_step; [apply (args_fold _ step (fun n c s => n = c.1 /\ in_loop d args c.2 s) args _ 1 0 (0, t))|].
  - intros j k n [n' t1] s1 Hj Hle [-> Hloop]. pose proof (in_loop_sel _ _ _ _ Hloop) as Hlt. destruct Hloop as (Hr1 & Ha1 & Hs1). cbn [fst snd] in *.
    apply does_bind. eapply does_eq; [unfold cdb; by rewrite <-(r_sel _ _ _ _ Hr1), Hs1|]. apply does_bind. eapply does_eq; [exact (round_key _ _ _ args j k Hr1 Ha1 Hj (fun H => H))|].
    eapply does_step; [by apply (expireIfNeeded_spec _ z0 e s1 t1 d k Hr1)|]. intros _ s2 (Hr2 & _ & Ho2).
    eapply does_step; [apply (dbDelete_spec _ z0 s2 _ d k Hr2); [by rewrite (o_len _ _ _ _ _ Ho2)|done]|]. intros r s3 (Hr3 & -> & _). unfold step.
    destruct (bool_decide (is_Some (value_of d k (purge e d k t1)))) eqn:Eb.
    + eapply does_step; [by eapply on_report_spec|]. intros _ s4 [Hr4 _]. eapply does_step; [by eapply on_report_spec|]. intros _ s5 [Hr5 _]. eapply does_step; [by eapply on_report_spec|]. intros _ s6 [Hr6 _].
      apply does_ret. split; [done|]. split; [done|]. cbn. by rewrite aargs_purge, asel_purge.
    + apply does_ret. split; [done|]. split; [|cbn; by rewrite aargs_purge, asel_purge]. cbn [snd]. apply bool_decide_eq_false, eq_None_not_Some in Eb.
      rewrite drop_missing in Hr3; [done|done|]. by eapply missing_expiry.
  - lia.
  - split; [done|]. by split.
  - rewrite drop_one. intros n s1 [-> (Hr1 & _)]. destruct (foldl step (0, t) (tail args)) as [n t1]. by eapply reply_last.
Qed.

Lemma exists_impl s t : ready0 s t -> (1 <= length (aargs t))%nat -> implements (existsCommand e) s (Some (aexists e t)).
Proof.
  intros Hr Hlen. unfold existsCommand, aexists. eapply implements_eq; [done|]. rewrite <-(args_length _ _ _ _ Hr). set (args := aargs t) in *. set (d := asel t).
  set (step := fun '(n, t) k => (if bool_decide (is_Some (visible e d k t)) then n + 1 else n, purge e d k t)).
  eapply implements_step; [apply (args_fold _ step (fun n c s => n = c.1 /\ in_loop d args c.2 s) args _ 1 0 (0, t))|].
  - intros j k n [n' t1] s1 Hj Hle [-> Hloop]. pose proof (in_loop_sel _ _ _ _ Hloop) as Hlt. destruct Hloop as (Hr1 & Ha1 & Hs1). cbn [fst snd] in *.
    apply does_bind. eapply does_eq; [unfold cdb; by rewrite <-(r_sel _ _ _ _ Hr1), Hs1|]. apply does_bind. eapply does_eq; [exact (round_key _ _ _ args j k Hr1 Ha1 Hj (fun H => H))|].
    eapply does_step; [by apply (lookupKeyRead_spec _ z0 e s1 t1 d k Hr1)|]. intros o s2 (Hr2 & Hv & _). apply does_ret. unfold step. cbn [fst snd]. rewrite Hv, is_Some_fmap_decide.
    split; [done|]. split; [done|]. by rewrite aargs_purge, asel_purge.
  - lia.
  - split; [done|]. by split.
  - rewrite drop_one. intros n s1 [-> (Hr1 & _)]. destruct (foldl step (0, t) (tail args)) as [n t1]. by eapply reply_last.
Qed.

Lemma rel_select (E : nat -> Prop) b s t d : rel E b s t -> (d < length (dbs s))%nat -> rel E b (with_seldb d s) (with_asel d t).
Proof. intros [Hh Hd He Hs Hl Ha Hsd Hw Hr Hc] Hlt. by split. Qed.

Lemma length_adbs (E : nat -> Prop) b s t : rel E b s t -> length (dbs s) = length (adbs t).
Proof. intros Hr. by rewrite (r_dbs _ _ _ _ Hr), length_fmap. Qed.

Lemma select_impl s t : ready0 s t -> (length (aargs t) = 2)%nat -> implements (selectCommand e) s (Some (aselect e t)).
Proof.
  intros Hr Hlen. unfold selectCommand, aselect. eapply arg_step; [exact Hr|lia|]. intros a Ha.
  eapply implements_step; [by apply (arg_long _ _ _ _ 1 (Some "invalid DB index"%string) a Hr)|]. intros r s1 [-> Hs1]. destruct (string2ll (karg 1 t)) as [id|]; [subst s1|by eapply implements_ret].
  destruct (k_cluster e && _); [by eapply reply_last|]. rewrite <-(length_adbs _ _ _ _ Hr).
  destruct ((0 <=? s32 id) && (s32 id <? zlen (dbs s))) eqn:Ei.
  - apply andb_true_iff in Ei as [H0%Z.leb_le H1%Z.ltb_lt]. eapply implements_eq; [unfold selectDb; rewrite (proj2 (Z.ltb_ge _ _) H0), (proj2 (Z.leb_gt _ _) H1); done|]. cbn [negb].
    eapply reply_last; [|reflexivity]. apply rel_select; [done|lia].
  - eapply implements_eq; [unfold selectDb; replace (_ || _) with true; [done|]; symmetry; apply orb_true_iff; apply andb_false_iff in Ei as [?%Z.leb_gt|?%Z.ltb_ge]; [left; lia|right; lia]|].
    by eapply reply_last.
Qed.

Lemma flush_flags (E : nat -> Prop) s t : rel E z0 s t -> ~ E 1%nat -> does getFlushCommandFlags s (fun r s1 => r = flush_args t /\ if flush_args t then s1 = s else rel E z0 s1 (shared Syntaxerr t)).
Proof.
  intros Hr HE. unfold getFlushCommandFlags, flush_args. apply does_bind. eapply does_eq; [done|]. rewrite <-(args_length E _ _ _ Hr).
  destruct (aargs t) as [|x [|a l]] eqn:Ea; [by apply does_ret|by apply does_ret|]. cbn [length Nat.ltb Nat.leb].
  assert (does (reply_shared Syntaxerr;; mret false) s (fun r s1 => r = false /\ rel E z0 s1 (shared Syntaxerr t))) as Hbad.
  { eapply does_step; [by apply (shared_spec E _ _ _ Syntaxerr Hr)|]. intros _ s1 [Hr1 _]. by apply does_ret. }
  destruct l as [|b l].
  - apply does_bind, does_bind. eapply does_eq; [apply (arg_sds_spec E _ _ _ 1 Hr); [by rewrite Ea; cbn; lia|done]|]. apply does_ret. unfold karg. rewrite Ea. cbn [lookup list_lookup default from_option].
    destruct (strcaseeq _ _); cbn [negb]; [by apply does_ret|exact Hbad].
  - apply does_bind, does_ret. exact Hbad.
Qed.
Lemma flushdb_impl s t : ready0 s t -> implements flushdbCommand s (Some (aflushdb t)).
Proof.
  intros Hr. unfold flushdbCommand, aflushdb. eapply implements_step; [apply (flush_flags _ s t Hr); tauto|]. intros r s1 [-> H1]. destruct (flush_args t); cbn [negb]; [subst s1|by eapply implements_ret].
  eapply cdb_step; [exact Hr|]. eapply report_step; [exact Hr|]. intros Hr1. eapply implements_step; [apply (emptyDb_one _ _ _ (asel t) Hr1); exact (sel_lt _ _ _ Hr)|]. intros n s2 [-> Hr2].
  eapply report_step; [exact Hr2|]. intros Hr3. by eapply reply_last.
Qed.
Lemma flushall_impl s t : ready0 s t -> implements (flushallCommand e) s (Some (aflushall e t)).
Proof.
  intros Hr. unfold flushallCommand, aflushall. eapply implements_step; [apply (flush_flags _ s t Hr); tauto|]. intros r s1 [-> H1]. destruct (flush_args t); cbn [negb]; [subst s1|by eapply implements_ret].
  eapply report_step; [exact Hr|]. intros Hr1. eapply implements_step; [by apply (emptyDb_all _ _ _ Hr1)|]. intros n s2 [-> Hr2]. eapply report_step; [exact Hr2|]. intros Hr3.
  eapply reply_step; [exact Hr3|reflexivity|]. intros Hr4. destruct (k_saveparams e).
  - eapply report_step; [exact Hr4|]. intros Hr5. by eapply report_last.
  - eapply implements_eq; [done|]. by eapply report_last.
Qed.
Lemma dbsize_impl s t : ready0 s t -> implements dbsizeCommand s (Some (adbsize t)).
Proof.
  intros Hr. unfold dbsizeCommand, adbsize. eapply cdb_step; [exact Hr|]. destruct (get_db_some _ _ _ _ (asel t) Hr) as (db & Hdb & Eg); [by eapply sel_lt|]. eapply implements_eq; [exact Eg|].
  rewrite (proj2 (the_db_abs _ _ _ _ _ _ Hr Hdb)). cbn. rewrite map_size_fmap. by eapply reply_last.
Qed.
Lemma type_impl s t : ready0 s t -> (length (aargs t) = 2)%nat -> implements (typeCommand e) s (Some (atype_command e t)).
Proof.
  intros Hr Hlen. unfold typeCommand, atype_command. eapply cdb_step; [exact Hr|]. eapply arg_sds_step; [exact Hr|lia|tauto|].
  eapply implements_step; [apply (lookupKeyRead_spec _ z0 e s t (asel t) (karg 1 t) Hr); [by eapply sel_lt|done]|]. intros o s1 (Hr1 & Hv & Hl & _). rewrite Hv. destruct o as [a|]; cbn [fmap option_fmap option_map].
  - destruct (looked_object _ _ _ _ _ _ _ Hr1 (Hl a eq_refl)) as (_ & ob & Hob & Hok & _ & Hden). rewrite Hden, abs_value_type. eapply implements_eq; [unfold get_obj; by rewrite Hob|]. by eapply reply_last.
  - by eapply reply_last.
Qed.

Lemma looked_missing (E : nat -> Prop) b s t d k : rel E b s t -> (d < length (dbs s))%nat -> value_of d k t = None -> looked s d k None.
Proof.
  intros Hr Hd Hv. destruct (get_db_some E _ _ _ _ Hr Hd) as (db & Hdb & _). exists db. split; [done|]. rewrite (looked_value E _ _ _ _ k (dict db !! k) Hr) in Hv by (by exists db).
  by destruct (dict db !! k).
Qed.
Lemma value_dropped d k t : value_of d k (drop_key d k t) = None.
Proof. unfold value_of, the_db, drop_key. cbn. rewrite list_lookup_alter_eq. destruct (adbs t !! d); cbn; [by rewrite lookup_delete_eq|done]. Qed.

(** The key is removed if it is there; in the other case nothing is to be removed. *)
Lemma delete_found_spec (E : nat -> Prop) b s t d k o :
  rel E b s t -> (d < length (dbs s))%nat -> (forall x, 0 <= b x) -> looked s d k o ->
  does (if bool_decide (is_Some o) then dbDelete d k;; mret () else mret ()) s (fun _ s1 => rel E b s1 (drop_key d k t) /\ looked s1 d k None /\ others b s s1 d k).
Proof.
  intros Hr Hd Hb Hl. destruct o as [a|].
  - rewrite bool_decide_eq_true_2 by done. eapply does_step; [by apply (dbDelete_spec E b s t d k Hr)|]. intros r s1 (Hr1 & _ & Ho1). apply does_ret. split; [done|]. split; [|done].
    eapply looked_missing; [exact Hr1|by rewrite (o_len _ _ _ _ _ Ho1)|apply value_dropped].
  - rewrite bool_decide_eq_false_2 by (by intros []). apply does_ret. pose proof (looked_value E _ _ _ _ _ _ Hr Hl) as Hv. cbn in Hv.
    rewrite drop_missing; [by split; [|split; [|apply others_refl]]|done|by eapply missing_expiry].
Qed.

Lemma keep_expiry_spec (E : nat -> Prop) b s t d k a w :
  rel E b s t -> looked s d k (Some a) ->
  does (if negb (w =? -1) then setExpire e d k w else mret ()) s (fun _ s1 => rel E b s1 (keep_expiry e d k w t) /\ (forall b', others b' s s1 d k) /\ heap s1 = heap s).
Proof.
  intros Hr Hl. unfold keep_expiry. destruct (w =? -1); cbn [negb]; [apply does_ret; split; [done|]; split; [intros; apply others_refl|done]|].
  eapply does_mono; [by apply (setExpire_spec E b e s t d k a w Hr)|]. by intros _ s1 (Hr1 & Ho1 & Hh1 & _).
Qed.

Lemma asel_keep d k w t : asel (keep_expiry e d k w t) = asel t.
Proof. unfold keep_expiry, expire_at. destruct (w =? -1); [done|]. by destruct (_ && _). Qed.
Lemma asel_ready d k v t : asel (made_ready d k v t) = asel t.
Proof. unfold made_ready. by case_bool_decide. Qed.

Lemma rename_tail (E : nat -> Prop) (nx : bool) s t d k1 k2 a v w o :
  rel E (one a) s t -> (d < length (dbs s))%nat -> k1 <> k2 -> looked s d k2 o -> looked s d k1 (Some a) -> den (heap s) a = v -> alive (heap s) a ->
  implements (
    (if bool_decide (is_Some o) then dbDelete d k2;; mret () else mret ());;
    dbAdd d k2 a;;
    (if negb (w =? -1) then setExpire e d k2 w else mret ());;
    dbDelete d k1;;
    signalModifiedKey d k1;; signalModifiedKey d k2;;
    notifyKeyspaceEvent "rename_from" k1 d;; notifyKeyspaceEvent "rename_to" k2 d;;
    add_dirty 1;;
    reply_shared (if nx then Cone else Ok)) s
  (Some (shared (if nx then Cone else Ok) (changed 1 (notified "rename_to" k2 d (notified "rename_from" k1 d (touched d k2 (touched d k1
        (drop_key d k1 (keep_expiry e d k2 w (made_ready d k2 v (store d k2 v (drop_key d k2 t)))))))))))).
Proof.
  intros Hr Hd Hne Hl2 Hl1 Hv Ha. eapply implements_step; [by apply (delete_found_spec E (one a) s t d k2 o Hr); [..|intros x; apply one_nonneg|]|]. intros _ s1 (Hr1 & Hm1 & Ho1).
  assert (0 < one a a) as Hpos by (rewrite one_eq; lia). pose proof (keeps_alive _ _ _ _ (o_keeps _ _ _ _ _ Ho1) Hpos Ha) as Ha1. pose proof (den_keeps _ _ _ _ (o_keeps _ _ _ _ _ Ho1) Hpos) as Hd1.
  eapply implements_step; [by apply (dbAdd_spec E (one a) s1 _ d k2 a Hr1 Hm1)|]. intros _ s2 (Hr2 & Hl22 & Ho2 & Hh2). rewrite Hd1, Hv in Hr2. apply rel_ledger with (b' := z0) in Hr2; [|intros x; unfold z0; lia].
  eapply implements_step; [by apply (keep_expiry_spec E z0 s2 _ d k2 a w Hr2)|]. intros _ s3 (Hr3 & Ho3 & _).
  eapply implements_step; [apply (dbDelete_spec E z0 s3 _ d k1 Hr3); [|done]; by rewrite (o_len _ _ _ _ _ (Ho3 z0)), (o_len _ _ _ _ _ Ho2), (o_len _ _ _ _ _ Ho1)|]. intros r s4 (Hr4 & _).
  eapply report_step; [exact Hr4|]. clear Hr4. intros Hr4. eapply report_step; [exact Hr4|]. clear Hr4. intros Hr4. eapply report_step; [exact Hr4|]. clear Hr4. intros Hr4.
  eapply report_step; [exact Hr4|]. clear Hr4. intros Hr4. eapply report_step; [exact Hr4|]. clear Hr4. intros Hr4. by eapply reply_last.
Qed.

Lemma writeOrReply_step (E : nat -> Prop) s t d k r (f : option Z -> K ()) o1 :
  rel E z0 s t -> (d < length (dbs s))%nat -> (forall s1, rel E z0 s1 (shared r (purge e d k t)) -> value_of d k (purge e d k t) = None -> implements (f None) s1 o1) ->
  (forall a s1, rel E z0 s1 (purge e d k t) -> looked s1 d k (Some a) -> length (dbs s1) = length (dbs s) -> implements (f (Some a)) s1 o1) ->
  implements (lookupKeyWriteOrReply e d k r ≫= f) s o1.
Proof.
  intros Hr Hd Hnone Hsome. apply implements_assoc. eapply implements_step; [by apply (lookupKeyWrite_spec E z0 e s t d k Hr)|]. intros [a|] s1 (Hr1 & Hl1 & Ho1).
  - eapply implements_eq; [done|]. apply Hsome; [done|done|by destruct Ho1].
  - apply implements_assoc. eapply reply_step; [exact Hr1|reflexivity|]. intros Hr2. eapply implements_eq; [done|]. apply Hnone; [done|]. by rewrite (looked_value E _ _ _ _ _ _ Hr1 Hl1).
Qed.

Lemma rename_impl nx s t : ready0 s t -> (length (aargs t) = 3)%nat -> implements (renameGenericCommand e nx) s (Some (arename e nx t)).
Proof.
  intros Hr Hlen. unfold renameGenericCommand, arename. eapply cdb_step; [exact Hr|]. eapply arg_sds_step; [exact Hr|lia|tauto|]. eapply arg_sds_step; [exact Hr|lia|tauto|].
  set (d := asel t). set (k1 := karg 1 t). set (k2 := karg 2 t). eapply writeOrReply_step; [exact Hr|by eapply sel_lt|..].
  { intros s1 Hr1 ->. by eapply implements_ret. }
  intros a s1 Hr1 Hl1 Hlen1. set (t1 := purge e d k1 t) in *. destruct (looked_object _ _ _ _ _ _ _ Hr1 Hl1) as (Ha & ob & Hob & Hok & Hval & Hden). rewrite Hval. set (v := abs_value (val ob)) in *.
  case_bool_decide as Hk; [by eapply reply_last|]. eapply implements_step; [by apply (rel_incr _ _ _ _ a Hr1)|]. cbv beta. intros _ s2 (Hr2 & Hdb2 & _ & Hk2 & _).
  apply rel_ledger with (b' := one a) in Hr2; [|done]. assert (d < length (dbs s2))%nat as Hd2 by (rewrite Hdb2, Hlen1; by eapply sel_lt).
  eapply implements_eq; [by apply (getExpire_spec _ _ _ _ _ k1 Hr2)|].
  eapply implements_step; [apply (lookupKeyWrite_spec _ (one a) e s2 t1 d k2 Hr2); [done|apply one_nonneg]|]. intros o s3 (Hr3 & Hl3 & Ho3).
  assert (looked s3 d k1 (Some a)) as Hl31. { apply (o_looked _ _ _ _ _ Ho3); [by right|]. destruct Hl1 as (db & Hdb & ?). exists db. by rewrite Hdb2. }
  assert (0 < one a a) as Hpos by (rewrite one_eq; lia). pose proof (keeps_alive _ _ _ a Hk2 I Ha) as Ha2. pose proof (den_keeps _ _ _ a Hk2 I) as Hden2.
  pose proof (keeps_alive _ _ _ _ (o_keeps _ _ _ _ _ Ho3) Hpos Ha2) as Ha3. pose proof (den_keeps _ _ _ _ (o_keeps _ _ _ _ _ Ho3) Hpos) as Hden3.
  rewrite (looked_value _ _ _ _ _ _ _ Hr3 Hl3), is_Some_fmap_decide. destruct (bool_decide (is_Some o) && nx) eqn:Enx.
  - eapply implements_step; [apply (rel_decr _ _ _ _ a Hr3 Ha3)|]; [intros _; left; rewrite one_eq; destruct Hl31 as (db & Hdb & Hka); pose proof (held_dict _ (kargv s3) _ _ _ _ Hdb (eq_sym Hka)); lia|].
    cbv beta. intros _ s4 (Hr4 & _). apply rel_ledger with (b' := z0) in Hr4; [|intros x; unfold z0; lia]. by eapply reply_last.
  - eapply rename_tail; [exact Hr3|by rewrite (o_len _ _ _ _ _ Ho3)|done|done|done|congruence|done].
Qed.

Lemma select_back (E : nat -> Prop) b s t id :
  rel E b s t -> 0 <= id < zlen (dbs s) -> selectDb id s = Some (true, with_seldb (Z.to_nat id) s) /\ selectDb (Z.of_nat (asel t)) (with_seldb (Z.to_nat id) s) = Some (true, s).
Proof.
  intros Hr Hid. pose proof (sel_lt _ _ _ Hr) as Hlt. unfold selectDb. cbn [dbs with_seldb]. split.
  - rewrite (proj2 (Z.ltb_ge _ _) (proj1 Hid)), (proj2 (Z.leb_gt _ _) (proj2 Hid)). done.
  - destruct (Z.ltb_spec (Z.of_nat (asel t)) 0); [lia|]. destruct (Z.leb_spec (zlen (dbs s)) (Z.of_nat (asel t))); [lia|]. cbn. rewrite Nat2Z.id, (r_sel _ _ _ _ Hr). by destruct s.
Qed.

Lemma move_tail (E : nat -> Prop) s t src dst k a w :
  rel E z0 s t -> (src < length (dbs s))%nat -> looked s dst k None -> looked s src k (Some a) ->
  implements (
    dbAdd dst k a;; (if negb (w =? -1) then setExpire e dst k w else mret ());; incrRefCount a;; dbDelete src k;; add_dirty 1;; reply_shared Cone) s
  (Some (shared Cone (changed 1 (drop_key src k (keep_expiry e dst k w (made_ready dst k (den (heap s) a) (store dst k (den (heap s) a) t))))))).
Proof.
  intros Hr Hlt Hm Hl. destruct (looked_object E _ _ _ _ _ _ Hr Hl) as (Ha & _). eapply implements_step; [by apply (dbAdd_spec E z0 s t dst k a Hr Hm)|]. intros _ s1 (Hr1 & Hl1 & Ho1 & Hh1).
  eapply implements_step; [by apply (keep_expiry_spec E _ s1 _ dst k a w Hr1)|]. intros _ s2 (Hr2 & Ho2 & Hh2).
  eapply implements_step; [apply (rel_incr E _ _ _ a Hr2); by rewrite Hh2, Hh1|]. cbv beta. intros _ s3 (Hr3 & Hdb3 & _). apply rel_ledger with (b' := z0) in Hr3; [|intros x; unfold z0; lia].
  eapply implements_step; [apply (dbDelete_spec E z0 s3 _ src k Hr3); [|done]; by rewrite Hdb3, (o_len _ _ _ _ _ (Ho2 z0)), (o_len _ _ _ _ _ Ho1)|]. intros r s4 (Hr4 & _).
  eapply report_step; [exact Hr4|]. intros Hr5. by eapply reply_last.
Qed.

Lemma move_body (E : nat -> Prop) s t src dst k :
  rel E z0 s t -> (src < length (dbs s))%nat -> (dst < length (dbs s))%nat -> src <> dst ->
  implements (
    o ← lookupKeyWrite e src k;
    match o with
    | None => reply_shared Czero
    | Some o =>
      expire ← getExpire src k;
      found ← lookupKeyWrite e dst k;
      if bool_decide (is_Some found) then reply_shared Czero else
      dbAdd dst k o;; (if negb (expire =? -1) then setExpire e dst k expire else mret ());; incrRefCount o;; dbDelete src k;; add_dirty 1;; reply_shared Cone
    end) s
  (Some (let t := purge e src k t in
      match value_of src k t with
      | None => shared Czero t
      | Some v =>
        let w := expiry_or src k t in
        let t := purge e dst k t in
        if bool_decide (is_Some (value_of dst k t)) then shared Czero t
        else shared Cone (changed 1 (drop_key src k (keep_expiry e dst k w (made_ready dst k v (store dst k v t)))))
      end)).
Proof.
  intros Hr Hsrc Hdst Hne. eapply implements_step; [by apply (lookupKeyWrite_spec E z0 e s t src k Hr)|]. intros o s1 (Hr1 & Hl1 & Ho1). cbn zeta. set (t1 := purge e src k t) in *.
  rewrite (looked_value E _ _ _ _ _ _ Hr1 Hl1). destruct o as [a|]; cbn [fmap option_fmap option_map]; [|by eapply reply_last].
  assert (length (dbs s1) = length (dbs s)) as Hlen1 by apply Ho1. eapply implements_eq; [apply (getExpire_spec E _ _ _ _ k Hr1); by rewrite Hlen1|].
  eapply implements_step; [apply (lookupKeyWrite_spec E z0 e s1 t1 dst k Hr1); [by rewrite Hlen1|done]|]. intros o s2 (Hr2 & Hl2 & Ho2).
  rewrite (looked_value E _ _ _ _ _ _ Hr2 Hl2), is_Some_fmap_decide. destruct o as [b|]; [rewrite bool_decide_eq_true_2 by done; by eapply reply_last|].
  rewrite bool_decide_eq_false_2 by (by intros []). assert (looked s2 src k (Some a)) as Hl21 by (apply (o_looked _ _ _ _ _ Ho2); [by left|done]).
  assert (den (heap s1) a = den (heap s2) a) as ->.
  { pose proof (looked_value E _ _ _ _ _ _ Hr1 Hl1) as H1. pose proof (looked_value E _ _ _ _ _ _ Hr2 Hl21) as H2. cbn in H1, H2.
    assert (value_of src k (purge e dst k t1) = value_of src k t1) as Hfr; [|congruence].
    unfold purge. destruct (_ && _); [|done]. unfold value_of, the_db. cbn. by rewrite list_lookup_alter_ne by done. }
  apply (move_tail E s2 _ src dst k a _ Hr2); [|done|done]. by rewrite (o_len _ _ _ _ _ Ho2), Hlen1.
Qed.

Lemma move_impl s t : ready0 s t -> (length (aargs t) = 3)%nat -> implements (moveCommand e) s (Some (amove e t)).
Proof.
  intros Hr Hlen. unfold moveCommand, amove. destruct (k_cluster e); [by eapply reply_last|]. eapply cdb_step; [exact Hr|]. eapply arg_step; [exact Hr|lia|]. intros x Hx.
  destruct (arg_object _ _ _ _ _ _ Hr Hx) as (_ & ob & so & Hob & Hv & Hok & Hbs & _). assert (karg 2 t = obj_bytes so) as -> by (unfold karg; by rewrite Hbs).
  eapply implements_eq; [apply (getLongLong_spec s x ob (obj_bytes so) Hob); by rewrite Hv|].
  destruct (string2ll (obj_bytes so)) as [id|]; [|eapply implements_eq; [done|]; by eapply reply_last]. rewrite <-(length_adbs _ _ _ _ Hr).
  destruct ((0 <=? id) && (id <? zlen (dbs s)) && (id <=? INT_MAX)) eqn:Eid.
  - rewrite !andb_true_iff, !Z.leb_le, Z.ltb_lt in Eid. destruct Eid as [[H0 H1] H2]. destruct (select_back _ _ _ _ id Hr (conj H0 H1)) as [Esel Eback].
    rewrite (proj2 (Z.ltb_ge id INT_MIN)), (proj2 (Z.ltb_ge INT_MAX id)) by (unfold INT_MIN; lia). cbn [orb]. eapply implements_eq; [exact Esel|]. cbn [negb].
    eapply implements_eq; [done|]. eapply implements_eq; [exact Eback|]. cbn [seldb with_seldb].
    case_bool_decide as Heq; [by eapply reply_last|]. eapply arg_sds_step; [exact Hr|lia|tauto|]. eapply move_body; [exact Hr|by eapply sel_lt|lia|done].
  - eapply (implements_eq _ _ _ false s); [|by eapply reply_last]. destruct ((id <? INT_MIN) || (INT_MAX <? id)) eqn:Er; [done|]. unfold selectDb. replace ((id <? 0) || _) with true; [done|].
    symmetry. apply orb_true_iff. apply orb_false_iff in Er as [_ ?%Z.ltb_ge]. rewrite !andb_false_iff, !Z.leb_gt, Z.ltb_ge in Eid. rewrite Z.ltb_lt, Z.leb_le. lia.
Qed.

(** ** Times *)

Lemma expire_impl basetime seconds s t : ready0 s t -> (length (aargs t) = 3)%nat -> implements (expireGenericCommand e basetime seconds) s (aexpire e basetime seconds t).
Proof.
  intros Hr Hlen. unfold expireGenericCommand, aexpire. eapply arg_step; [exact Hr|lia|]. intros ka Hka. eapply arg_step; [exact Hr|lia|]. intros x Hx.
  eapply implements_step; [by apply (arg_number _ _ _ _ 2 None x Hr)|]. intros r s1 [-> Hs1]. destruct (string2ll (karg 2 t)) as [when|]; [subst s1|by eapply implements_ret].
  set (w1 := if seconds then ll_checked (when * 1000) else Some when). assert ((if seconds then liftK (ll_checked (when * 1000)) else mret when) s = liftK w1 s) as Ew by (by destruct seconds).
  destruct w1 as [w|]; cbn [mbind option_bind]; [|by apply implements_none]. eapply implements_eq; [exact Ew|].
  destruct (ll_checked (w + basetime)) as [w2|]; cbn [mbind option_bind]; [|by apply implements_none]. eapply implements_eq; [done|].
  eapply cdb_step; [exact Hr|]. eapply arg_sds_step; [exact Hr|lia|tauto|]. set (d := asel t). set (k := karg 1 t).
  eapply implements_step; [apply (lookupKeyWrite_spec _ z0 e s t d k Hr); [by eapply sel_lt|done]|]. intros o s1 (Hr1 & Hl1 & Ho1). cbn zeta. set (t1 := purge e d k t) in *.
  rewrite (looked_value _ _ _ _ _ _ _ Hr1 Hl1). destruct o as [a|]; cbn [fmap option_fmap option_map]; [rewrite bool_decide_eq_false_2 by done|rewrite bool_decide_eq_true_2 by done; by eapply reply_last].
  destruct ((w2 <=? k_later e) && negb (k_loading e) && k_master e).
  - eapply implements_step; [apply (dbDelete_spec _ z0 s1 t1 d k Hr1); [|done]; rewrite (o_len _ _ _ _ _ Ho1); by eapply sel_lt|]. intros r s2 (Hr2 & -> & Ho2).
    rewrite (looked_value _ _ _ _ _ _ _ Hr1 Hl1). eapply implements_eq; [unfold assertK; by rewrite bool_decide_eq_true_2|]. eapply report_step; [exact Hr2|]. intros Hr3.
    eapply implements_step.
    { eapply (rewriteVector_spec _ _ _ _ ka 1 (str (if k_lazy_expire e then "UNLINK" else "DEL")) k Hr3).
      - destruct (k_lazy_expire e); [by right|by left].
      - destruct (r_const _ _ _ _ Hr3) as [? ?]. by destruct (k_lazy_expire e).
      - cbn. by rewrite (o_argv _ _ _ _ _ Ho2), (o_argv _ _ _ _ _ Ho1).
      - cbn. unfold t1. rewrite aargs_purge. apply karg_lookup. lia. }
    intros x4 s4 Hr4. eapply report_step; [exact Hr4|]. clear Hr4. intros Hr4. eapply report_step; [exact Hr4|]. clear Hr4. intros Hr4. by eapply reply_last.
  - eapply implements_step; [by apply (setExpire_spec _ z0 e s1 t1 d k a w2 Hr1)|]. intros _ s2 (Hr2 & _). eapply reply_step; [exact Hr2|reflexivity|]. intros Hr3.
    eapply report_step; [exact Hr3|]. clear Hr3. intros Hr3. eapply report_step; [exact Hr3|]. clear Hr3. intros Hr3. by eapply report_last.
Qed.

Lemma visible_purge d k t v : visible e d k t = Some v -> purge e d k t = t /\ value_of d k t = Some v.
Proof. unfold visible, purge. destruct (expired e d k t); [|done]. destruct (k_master e); [done|]. destruct (_ && _); [done|]. done. Qed.

Lemma ttl_impl ms s t : ready0 s t -> (length (aargs t) = 2)%nat -> implements (ttlGenericCommand e ms) s (attl e ms t).
Proof.
  intros Hr Hlen. unfold ttlGenericCommand, attl. eapply cdb_step; [exact Hr|]. eapply arg_sds_step; [exact Hr|lia|tauto|]. set (d := asel t). set (k := karg 1 t).
  eapply implements_step; [apply (lookupKeyRead_spec _ z0 e s t d k Hr); [by eapply sel_lt|done]|]. intros o s1 (Hr1 & Hv & Hl & Ho1). rewrite Hv.
  destruct o as [a|]; cbn [fmap option_fmap option_map]; [rewrite bool_decide_eq_false_2 by done|rewrite bool_decide_eq_true_2 by done; by eapply reply_last].
  destruct (visible_purge d k t _ Hv) as [Hp _]. rewrite Hp in *. eapply implements_eq; [apply (getExpire_spec _ _ _ _ _ k Hr1); rewrite (o_len _ _ _ _ _ Ho1); by eapply sel_lt|].
  destruct (Z.eqb_spec (expiry_or d k t) (-1)) as [->|Hne]; cbn [negb]; [eapply implements_eq; [done|]; by eapply reply_last|].
  destruct (ll_checked (expiry_or d k t - k_now e)) as [ttl|]; cbn [mbind option_bind]; [|by apply implements_none, K_bind_none]. apply implements_assoc. eapply implements_eq; [done|]. eapply implements_eq; [done|].
  assert ((if ttl <? 0 then 0 else ttl) = Z.max 0 ttl) as -> by (destruct (Z.ltb_spec ttl 0); lia). destruct (Z.eqb_spec (Z.max 0 ttl) (-1)); [lia|].
  destruct ms; cbn [mbind option_bind]; [by eapply reply_last|]. destruct (ll_checked (Z.max 0 ttl + 500)) as [u|] eqn:Eu; cbn [mbind option_bind]; [|by apply implements_none].
  eapply implements_eq; [done|]. apply ll_checked_range in Eu as [-> _]. rewrite Z.quot_div_nonneg by lia. by eapply reply_last.
Qed.

Lemma persist_impl s t : ready0 s t -> (length (aargs t) = 2)%nat -> implements (persistCommand e) s (Some (apersist e t)).
Proof.
  intros Hr Hlen. unfold persistCommand, apersist. eapply cdb_step; [exact Hr|]. eapply arg_sds_step; [exact Hr|lia|tauto|]. set (d := asel t). set (k := karg 1 t).
  eapply implements_step; [apply (lookupKeyWrite_spec _ z0 e s t d k Hr); [by eapply sel_lt|done]|]. intros o s1 (Hr1 & Hl1 & Ho1). cbn zeta. set (t1 := purge e d k t) in *.
  rewrite (looked_value _ _ _ _ _ _ _ Hr1 Hl1). destruct o as [a|]; cbn [fmap option_fmap option_map]; [rewrite bool_decide_eq_true_2 by done|rewrite bool_decide_eq_false_2 by (by intros []); by eapply reply_last].
  eapply implements_step; [by apply (removeExpire_spec _ z0 s1 t1 d k a Hr1)|]. intros r s2 (Hr2 & -> & _). destruct (expiry_of d k t1) as [w|] eqn:Ew.
  - rewrite bool_decide_eq_true_2 by done. eapply reply_step; [exact Hr2|reflexivity|]. intros Hr3. by eapply report_last.
  - rewrite bool_decide_eq_false_2 by (by intros []). assert (clear_expiry d k t1 = t1) as Hc; [|rewrite Hc in Hr2; by eapply reply_last].
    unfold clear_expiry, on_db, with_adbs. destruct t1 as [l se ar rp rr]. cbn. f_equal. unfold expiry_of, the_db in Ew. cbn in Ew. apply list_eq. intros i.
    destruct (decide (i = d)) as [->|]; [|by rewrite list_lookup_alter_ne]. rewrite list_lookup_alter_eq. destruct (l !! d) as [db|]; [|done]. cbn in *. rewrite delete_id by done. by destruct db.
Qed.

(** ** Exchange of databases *)

Lemma scan_spec (E : nat -> Prop) d s t : rel E z0 s t -> (d < length (dbs s))%nat -> does (scanDatabaseForReadyLists e d) s (fun _ s1 => rel E z0 s1 (ready_lists e d t) /\ dbs s1 = dbs s).
Proof.
  unfold scanDatabaseForReadyLists, ready_lists. generalize (k_blocking e d) as l. intros l. revert s t. induction l as [|k l IH]; intros s t Hr Hd; cbn [for_each foldl]; [by apply does_ret|].
  apply does_bind. eapply does_step; [by apply lookup_looked|]. intros o s1 [-> Hl]. rewrite (looked_value E _ _ _ _ _ _ Hr Hl). destruct o as [a|]; cbn [fmap option_fmap option_map].
  - destruct (looked_object E _ _ _ _ _ _ Hr Hl) as (_ & ob & Hob & _ & _ & Hden). rewrite Hden, abs_value_type. apply does_bind. eapply does_get_obj; [done|]. case_bool_decide.
    + eapply does_eq; [done|]. eapply does_mono; [apply IH; [by apply rel_report|done]|]. by intros [] s1 [Hr1 Hd1].
    + apply does_ret. by apply IH.
  - apply does_ret. by apply IH.
Qed.

Lemma swap_rel (E : nat -> Prop) s t i j db1 db2 :
  rel E z0 s t -> dbs s !! i = Some db1 -> dbs s !! j = Some db2 -> i <> j ->
  rel E z0 (with_dbs (<[j := db1]> (<[i := db2]> (dbs s))) s) (with_adbs (<[j := the_db i t]> (<[i := the_db j t]> (adbs t))) t).
Proof.
  intros Hr H1 H2 Hne.
  assert (rel E (fun x => occ (dict db1) x - occ (dict db2) x) (with_dbs (<[i := db2]> (dbs s)) s) (on_db i (fun _ => abs_db (heap s) db2) t)) as Hr1.
  { apply (rel_set_db E z0 _ s t i db1 db2 (fun _ => abs_db (heap s) db2) Hr H1); [intros x; unfold z0; lia|intros k a Hk; exact (dict_alive E _ _ _ _ _ _ _ Hr H2 Hk)|intros k Hk; exact (r_exp _ _ _ _ Hr _ _ k H2 Hk)|done]. }
  assert (rel E z0 (with_dbs (<[j := db1]> (<[i := db2]> (dbs s))) s) (on_db j (fun _ => abs_db (heap s) db1) (on_db i (fun _ => abs_db (heap s) db2) t))) as Hr2.
  { apply (rel_set_db E _ z0 _ _ j db2 db1 (fun _ => abs_db (heap s) db1) Hr1); cbn; [by rewrite list_lookup_insert_ne|intros x; unfold z0; lia|intros k a Hk; exact (dict_alive E _ _ _ _ _ _ _ Hr H1 Hk)|intros k Hk; exact (r_exp _ _ _ _ Hr _ _ k H1 Hk)|done]. }
  assert (with_adbs (<[j := the_db i t]> (<[i := the_db j t]> (adbs t))) t = on_db j (fun _ => abs_db (heap s) db1) (on_db i (fun _ => abs_db (heap s) db2) t)) as ->; [|done].
  rewrite (proj2 (the_db_abs E _ _ _ _ _ Hr H1)), (proj2 (the_db_abs E _ _ _ _ _ Hr H2)). unfold on_db, with_adbs. cbn. f_equal.
  pose proof (lookup_lt_Some _ _ _ H1) as L1. pose proof (lookup_lt_Some _ _ _ H2) as L2. rewrite (length_adbs E _ _ _ Hr) in L1, L2.
  apply list_eq. intros n. destruct (decide (n = j)) as [->|Hnj].
  - rewrite list_lookup_insert_eq by (by rewrite length_insert). rewrite list_lookup_alter_eq. rewrite list_lookup_alter_ne by done. destruct (lookup_lt_is_Some_2 _ _ L2) as [x ->]. done.
  - rewrite list_lookup_insert_ne, list_lookup_alter_ne by done. destruct (decide (n = i)) as [->|Hni].
    + rewrite list_lookup_insert_eq, list_lookup_alter_eq by done. destruct (lookup_lt_is_Some_2 _ _ L1) as [x ->]. done.
    + by rewrite list_lookup_insert_ne, list_lookup_alter_ne.
Qed.

Lemma swapdb_impl s t : ready0 s t -> (length (aargs t) = 3)%nat -> implements (swapdbCommand e) s (Some (aswapdb e t)).
Proof.
  intros Hr Hlen. unfold swapdbCommand, aswapdb. destruct (k_cluster e); [by eapply reply_last|]. eapply arg_step; [exact Hr|lia|]. intros x Hx.
  eapply implements_step; [by apply (arg_long _ _ _ _ 1 (Some "invalid first DB index"%string) x Hr)|]. intros r s1 [-> Hs1]. destruct (string2ll (karg 1 t)) as [i|]; [subst s1|by eapply implements_ret].
  eapply arg_step; [exact Hr|lia|]. intros y Hy.
  eapply implements_step; [by apply (arg_long _ _ _ _ 2 (Some "invalid second DB index"%string) y Hr)|]. intros r s1 [-> Hs1]. destruct (string2ll (karg 2 t)) as [j|]; [subst s1|by eapply implements_ret].
  rewrite <-(length_adbs _ _ _ _ Hr). set (a := s32 i). set (b := s32 j). cbn zeta.
  assert (((a <? 0) || (zlen (dbs s) <=? a) || (b <? 0) || (zlen (dbs s) <=? b)) = negb ((0 <=? a) && (a <? zlen (dbs s)) && (0 <=? b) && (b <? zlen (dbs s)))) as Hcond.
  { rewrite !negb_andb, !Z.leb_antisym, !Z.ltb_antisym, !negb_involutive. done. }
  destruct ((0 <=? a) && (a <? zlen (dbs s)) && (0 <=? b) && (b <? zlen (dbs s))) eqn:Ein; cbn [negb] in Hcond.
  2: { eapply implements_eq; [unfold dbSwapDatabases; by rewrite Hcond|]. by eapply reply_last. }
  rewrite !andb_true_iff, !Z.leb_le, !Z.ltb_lt in Ein. destruct Ein as [[[Ha0 Ha1] Hb0] Hb1].
  destruct (Z.eqb_spec a b) as [Hab|Hab].
  { eapply implements_eq; [unfold dbSwapDatabases; rewrite Hcond; rewrite (proj2 (Z.eqb_eq a b) Hab); done|]. eapply report_step; [exact Hr|]. intros Hr1. by eapply reply_last. }
  destruct (lookup_lt_is_Some_2 (dbs s) (Z.to_nat a)) as [db1 H1]; [lia|]. destruct (lookup_lt_is_Some_2 (dbs s) (Z.to_nat b)) as [db2 H2]; [lia|].
  assert (Z.to_nat a <> Z.to_nat b) as Hne by lia. pose proof (swap_rel _ s t _ _ db1 db2 Hr H1 H2 Hne) as Hr1.
  destruct (scan_spec _ (Z.to_nat a) _ _ Hr1) as ([] & s2 & E2 & Hr2 & Hd2); [cbn; rewrite !length_insert; lia|].
  destruct (scan_spec _ (Z.to_nat b) _ _ Hr2) as ([] & s3 & E3 & Hr3 & _); [rewrite Hd2; cbn; rewrite !length_insert; lia|].
  eapply (implements_eq _ _ _ true s3).
  { unfold dbSwapDatabases. rewrite Hcond, (proj2 (Z.eqb_neq a b) Hab). cbv zeta. rewrite (K_bind_ok _ _ s db1 s) by (unfold get_db; by rewrite H1).
    rewrite (K_bind_ok _ _ s db2 s) by (unfold get_db; by rewrite H2). rewrite (K_bind_ok _ _ s () (with_dbs (<[Z.to_nat a := db2]> (dbs s)) s)) by done.
    rewrite (K_bind_ok _ _ _ () (with_dbs (<[Z.to_nat b := db1]> (<[Z.to_nat a := db2]> (dbs s))) s)) by done. by rewrite (K_bind_ok _ _ _ _ _ E2), (K_bind_ok _ _ _ _ _ E3). }
  eapply report_step; [exact Hr3|]. intros Hr4. by eapply reply_last.
Qed.
End Keys.

(** ** All commands *)

Lemma arity_range c n : arity_ok c n = true -> (0 < table_arity c -> Z.of_nat n = table_arity c) /\ (table_arity c < 0 -> - table_arity c <= Z.of_nat n).
Proof.
  unfold arity_ok. rewrite andb_true_iff, !negb_true_iff, andb_false_iff, negb_false_iff, Z.ltb_ge, Z.eqb_eq, Z.ltb_ge. lia.
Qed.

(** Every command of the table, with a number of arguments the table allows, does what the command on maps does. *)
Lemma exec_implements e c s t : rel (fun _ => False) z0 s t -> arity_ok c (length (aargs t)) = true -> implements (exec e c) s (aexec e c t).
Proof.
  intros Hr Ha. apply arity_range in Ha as [Hpos Hneg].
  destruct c; cbn [table_arity] in Hpos, Hneg; cbn [exec aexec]; first [specialize (Hpos ltac:(lia)); clear Hneg | specialize (Hneg ltac:(lia)); clear Hpos].
  - apply get_impl; [done|lia].
  - apply set_impl; [done|lia].
  - apply setnx_impl; [done|lia].
  - by apply setex_impl; [|done|lia].
  - by apply setex_impl; [|done|lia].
  - apply getset_impl; [done|lia].
  - apply setrange_impl; [done|lia].
  - apply getrange_impl; [done|lia].
  - apply mget_impl; [done|lia].
  - apply mset_impl; [done|lia].
  - apply mset_impl; [done|lia].
  - eapply incr_impl; [exact Hr|tauto|lia|unfold LLONG_MIN, LLONG_MAX; lia].
  - eapply incr_impl; [exact Hr|tauto|lia|unfold LLONG_MIN, LLONG_MAX; lia].
  - apply incrby_impl; [done|lia].
  - apply decrby_impl; [done|lia].
  - apply append_impl; [done|lia].
  - apply strlen_impl; [done|lia].
  - apply del_impl; [done|lia].
  - apply del_impl; [done|lia].
  - apply exists_impl; [done|lia].
  - apply exists_impl; [done|lia].
  - apply select_impl; [done|lia].
  - by apply flushdb_impl.
  - by apply flushall_impl.
  - by apply dbsize_impl.
  - apply type_impl; [done|lia].
  - apply rename_impl; [done|lia].
  - apply rename_impl; [done|lia].
  - apply move_impl; [done|lia].
  - apply swapdb_impl; [done|lia].
  - apply expire_impl; [done|lia].
  - apply expire_impl; [done|lia].
  - apply expire_impl; [done|lia].
  - apply expire_impl; [done|lia].
  - apply ttl_impl; [done|lia].
  - apply ttl_impl; [done|lia].
  - apply persist_impl; [done|lia].
Qed.
