(* ===== verification/KeyspaceFrame.v ===== *)
(** * What a command changes, and what it reports

    On the maps of KeyspaceAbs: a command changes only entries of keys among its arguments, or flushes databases, and it signals each entry it
    changes, the exceptions aside. *)
From stdpp Require Import prelude list gmap strings.
From Stdlib Require Import ZArith Lia.
From S2P Require Import Prelude Util SdsText Rio Rdb Reply Resp Aof Keyspace KeyCommands KeyspaceAbs KeyspaceInv KeyspaceRel KeyspaceRefine KeyspaceKeys.

Local Open Scope Z_scope.
Local Open Scope redis_scope.

Definition entry (d : nat) (k : key) (t : ast) : option aval * option Z := (value_of d k t, expiry_of d k t).

Lemma entry_on_db_ne d d' k f t : d' <> d -> entry d' k (on_db d f t) = entry d' k t.
Proof. intros Hne. unfold entry, value_of, expiry_of, the_db. cbn. by rewrite list_lookup_alter_ne. Qed.
Lemma entry_on_db d d' k' f t :
  (forall db, dict (f db) !! k' = dict db !! k' /\ expires (f db) !! k' = expires db !! k') -> entry d' k' (on_db d f t) = entry d' k' t.
Proof.
  intros Hf. destruct (decide (d' = d)) as [->|Hne]; [|by apply entry_on_db_ne]. unfold entry, value_of, expiry_of, the_db. cbn. rewrite list_lookup_alter_eq.
  destruct (adbs t !! d) as [db|]; [|done]. cbn. by destruct (Hf db) as [-> ->].
Qed.

(** What happened since t0: the keys signalled as modified, the keys expired, the databases flushed, where that may happen; D are changes that are not reported. *)
Definition traced (fb : bool) (args : list key) (t0 : ast) (D : list (nat * key)) (t : ast) : Prop :=
  exists sg ex fl, signals (arep t) = signals (arep t0) ++ sg /\ expirations (arep t) = expirations (arep t0) ++ ex /\ flushed (arep t) = flushed (arep t0) ++ fl /\
    (forall d k, (d, k) ∈ sg \/ (d, k) ∈ ex \/ (d, k) ∈ D -> k ∈ args) /\
    (forall d k, entry d k t = entry d k t0 \/ (d, k) ∈ D \/ (d, k) ∈ sg \/ (d, k) ∈ ex \/ fb = true /\ (Z.of_nat d ∈ fl \/ -1 ∈ fl)).

Section Trace.
Context (fb : bool) (args : list key) (t0 : ast).
Abbreviation tr := (traced fb args t0).

Lemma tr_refl : tr [] t0.
Proof. exists [], [], []. rewrite !app_nil_r. split_and!; [done..| |by left]. by intros d k [[]%not_elem_of_nil|[[]%not_elem_of_nil|[]%not_elem_of_nil]]. Qed.
(** Steps that change neither entries nor these reports. *)
Lemma tr_same D t t' :
  tr D t -> (forall d k, entry d k t' = entry d k t) -> signals (arep t') = signals (arep t) -> expirations (arep t') = expirations (arep t) -> flushed (arep t') = flushed (arep t) -> tr D t'.
Proof. intros (sg & ex & fl & H1 & H2 & H3 & Hk & He) Hen Es Ex Ef. exists sg, ex, fl. split_and!; [congruence..|done|]. intros d k. rewrite Hen. apply He. Qed.
Lemma tr_say D t i : tr D t -> tr D (say i t).
Proof. intros Ht. by apply (tr_same D t). Qed.
Lemma tr_shared D t r : tr D t -> tr D (shared r t).
Proof. apply tr_say. Qed.
Lemma tr_failed D t r : tr D t -> tr D (failed r t).
Proof. apply tr_say. Qed.
Lemma tr_args D t l : tr D t -> tr D (with_aargs l t).
Proof. intros Ht. by apply (tr_same D t). Qed.
Lemma tr_changed D t n : tr D t -> tr D (changed n t).
Proof. intros Ht. by apply (tr_same D t). Qed.
Lemma tr_notified D t ev k d : tr D t -> tr D (notified ev k d t).
Proof. intros Ht. by apply (tr_same D t). Qed.
Lemma tr_slave D t f : tr D t -> tr D (log (fun r => with_slave_keys (f r) r) t).
Proof. intros Ht. by apply (tr_same D t). Qed.
Lemma tr_dirty D t f : tr D t -> tr D (log (fun r => with_dirty (f r) r) t).
Proof. intros Ht. by apply (tr_same D t). Qed.
Lemma tr_ready D t d k v : tr D t -> tr D (made_ready d k v t).
Proof. intros Ht. unfold made_ready. case_bool_decide; [|done]. by apply (tr_same D t). Qed.

(** A change of one entry, reported or not. *)
Lemma tr_on_db D t d k f :
  tr D t -> k ∈ args -> (forall k' db, k' <> k -> dict (f db) !! k' = dict db !! k' /\ expires (f db) !! k' = expires db !! k') -> tr ((d, k) :: D) (on_db d f t).
Proof.
  intros (sg & ex & fl & H1 & H2 & H3 & Hk & He) Hka Hf. exists sg, ex, fl. split_and!; [done..| |].
  - intros d' k' Hdk. rewrite elem_of_cons in Hdk. destruct Hdk as [?|[?|[[= -> ->]|?]]]; [..|done|]; apply (Hk d' k'); tauto.
  - intros d' k'. destruct (decide ((d', k') = (d, k))) as [->|Hne]; [right; left; left|]. destruct (He d' k') as [<-|Hr]; [|rewrite elem_of_cons; tauto].
    left. destruct (decide (d' = d)) as [->|]; [|by apply entry_on_db_ne]. apply (entry_on_db d d k'). intros db. apply Hf. congruence.
Qed.
Lemma tr_store D t d k v : tr D t -> k ∈ args -> tr ((d, k) :: D) (store d k v t).
Proof. intros Ht Hk. apply tr_on_db; [done..|]. intros k' db Hne. cbn. by rewrite lookup_insert_ne. Qed.
Lemma tr_clear D t d k : tr D t -> k ∈ args -> tr ((d, k) :: D) (clear_expiry d k t).
Proof. intros Ht Hk. apply tr_on_db; [done..|]. intros k' db Hne. cbn. by rewrite lookup_delete_ne. Qed.
Lemma tr_drop D t d k : tr D t -> k ∈ args -> tr ((d, k) :: D) (drop_key d k t).
Proof. intros Ht Hk. apply tr_on_db; [done..|]. intros k' db Hne. cbn. by rewrite !lookup_delete_ne. Qed.
Lemma tr_expire D t e d k w : tr D t -> k ∈ args -> tr ((d, k) :: D) (expire_at e d k w t).
Proof.
  intros Ht Hk. assert (tr ((d, k) :: D) (on_db d (fun db => mk_db (dict db) (<[k := w]> (expires db))) t)) as Ht1.
  { apply tr_on_db; [done..|]. intros k' db Hne. cbn. by rewrite lookup_insert_ne. }
  unfold expire_at. destruct (_ && _); [by apply tr_slave|done].
Qed.
Lemma tr_keep D t e d k w : tr D t -> (d, k) ∈ D -> k ∈ args -> tr ((d, k) :: D) (keep_expiry e d k w t).
Proof. intros Ht HD Hk. unfold keep_expiry. destruct (_ =? _); [|by apply tr_expire]. destruct Ht as (sg & ex & fl & H1 & H2 & H3 & Hk' & He). exists sg, ex, fl. split_and!; [done..| |].
  - intros d' k' Hdk. rewrite elem_of_cons in Hdk. destruct Hdk as [?|[?|[[= -> ->]|?]]]; [..|done|]; apply (Hk' d' k'); tauto.
  - intros d' k'. destruct (He d' k'); [by left|right]. rewrite elem_of_cons. tauto.
Qed.

(** The signal of a changed key. *)
Lemma tr_touched D t d k : tr ((d, k) :: D) t -> tr D (touched d k t).
Proof.
  intros (sg & ex & fl & H1 & H2 & H3 & Hk & He). exists (sg ++ [(d, k)]), ex, fl. split_and!; [cbn; by rewrite H1, app_assoc|done|done|..].
  - intros d' k' Hdk. apply (Hk d' k'). rewrite elem_of_app, list_elem_of_singleton in Hdk. rewrite elem_of_cons. tauto.
  - intros d' k'. rewrite elem_of_app, list_elem_of_singleton. specialize (He d' k'). rewrite elem_of_cons in He. tauto.
Qed.
Lemma tr_weaken D D' t : tr D t -> (forall x, x ∈ D -> x ∈ D') -> (forall d k, (d, k) ∈ D' -> k ∈ args) -> tr D' t.
Proof.
  intros (sg & ex & fl & H1 & H2 & H3 & Hk & He) HD HD'. exists sg, ex, fl. split_and!; [done..| |].
  - intros d k Hdk. destruct Hdk as [?|[?|?]]; [apply (Hk d k); tauto..|by eapply HD'].
  - intros d k. destruct (He d k) as [?|[?%HD|?]]; tauto.
Qed.
Lemma tr_signalled D t d k : k ∈ args -> tr D t -> tr D (touched d k t).
Proof.
  intros Hk (sg & ex & fl & H1 & H2 & H3 & Hk' & He). exists (sg ++ [(d, k)]), ex, fl. split_and!; [cbn; by rewrite H1, app_assoc|done|done|..].
  - intros d' k' Hdk. rewrite elem_of_app, list_elem_of_singleton in Hdk. destruct Hdk as [[?|[= -> ->]]|[?|?]]; [|done|..]; apply (Hk' d' k'); tauto.
  - intros d' k'. destruct (He d' k') as [Hen|[Hd|Hr]]; [by left|tauto|]. rewrite elem_of_app. tauto.
Qed.

(** The removal of an expired key is reported to replicas. *)
Lemma tr_purge D t e d k : tr D t -> k ∈ args -> tr D (purge e d k t).
Proof.
  intros Ht Hk. unfold purge. destruct (_ && _); [|done]. assert (tr ((d, k) :: D) (drop_key d k t)) as (sg & ex & fl & H1 & H2 & H3 & Hka & He) by by apply tr_drop.
  exists sg, (ex ++ [(d, k)]), fl. split_and!; [done|cbn in *; by rewrite H2, app_assoc|done|..].
  - intros d' k' Hdk. apply (Hka d' k'). rewrite elem_of_app, list_elem_of_singleton in Hdk. rewrite elem_of_cons. tauto.
  - intros d' k'. change (entry d' k' (drop_key d k _)) with (entry d' k' (drop_key d k t)). rewrite elem_of_app, list_elem_of_singleton. specialize (He d' k'). rewrite elem_of_cons in He. tauto.
Qed.
Lemma tr_replace D t e d k v : tr D t -> k ∈ args -> tr D (replace e d k v t).
Proof.
  intros Ht Hk. unfold replace. apply tr_touched. eapply (tr_weaken ((d, k) :: (d, k) :: D)); [|intros x; rewrite !elem_of_cons; tauto|].
  - apply tr_clear; [|done]. apply tr_store; [|done]. by apply tr_purge.
  - intros d' k' Hdk. apply elem_of_cons in Hdk as [[= -> ->]|Hdk]; [done|]. destruct Ht as (sg & ex & fl & _ & _ & _ & Hka & _). apply (Hka d' k'). tauto.
Qed.

Lemma tr_touched_then D t d k t' :
  tr ((d, k) :: D) t -> (forall d' k', (d', k') <> (d, k) -> entry d' k' t' = entry d' k' t) -> signals (arep t') = signals (arep t) ++ [(d, k)] ->
  expirations (arep t') = expirations (arep t) -> flushed (arep t') = flushed (arep t) -> tr D t'.
Proof.
  intros (sg & ex & fl & H1 & H2 & H3 & Hk & He) Hen Es Ex Ef. exists (sg ++ [(d, k)]), ex, fl. split_and!; [by rewrite Es, H1, app_assoc|congruence..| |].
  - intros d' k' Hdk. apply (Hk d' k'). rewrite elem_of_app, list_elem_of_singleton in Hdk. rewrite elem_of_cons. tauto.
  - intros d' k'. rewrite elem_of_app, list_elem_of_singleton. destruct (decide ((d', k') = (d, k))) as [->|Hne]; [tauto|]. rewrite Hen by done. specialize (He d' k'). rewrite elem_of_cons in He. tauto.
Qed.

Lemma tr_flush_one D t d : fb = true -> tr D t -> tr D (on_db d (fun _ => no_keys) (log (add_flushed (Z.of_nat d)) t)).
Proof.
  intros Hfb (sg & ex & fl & H1 & H2 & H3 & Hk & He). exists sg, ex, (fl ++ [Z.of_nat d]). split_and!; [done|done|cbn; by rewrite H3, app_assoc|done|].
  intros d' k'. destruct (decide (d' = d)) as [->|Hne]; [do 4 right; split; [done|left]; rewrite elem_of_app, list_elem_of_singleton; by right|].
  rewrite entry_on_db_ne by done. rewrite !elem_of_app. specialize (He d' k'). change (entry d' k' (log _ t)) with (entry d' k' t). tauto.
Qed.
Lemma tr_flush_all D t : fb = true -> tr D t -> tr D (log (with_slave_keys ∅) (with_adbs ((fun _ => no_keys) <$> adbs t) (log (add_flushed (-1)) t))).
Proof.
  intros Hfb (sg & ex & fl & H1 & H2 & H3 & Hk & He). exists sg, ex, (fl ++ [-1]). split_and!; [done|done|cbn; by rewrite H3, app_assoc|done|].
  intros d' k'. do 4 right. split; [done|right]. rewrite elem_of_app, list_elem_of_singleton. by right.
Qed.
Lemma tr_fold {A} D (f : ast -> A -> ast) l t : tr D t -> (forall t x, x ∈ l -> tr D t -> tr D (f t x)) -> tr D (foldl f t l).
Proof. revert t. induction l as [|x l IH]; intros t Ht Hf; cbn; [done|]. apply IH; [apply Hf; [left|done]|]. intros t' y Hy. apply Hf. by right. Qed.
Lemma tr_fold2 {A B} D (f : B * ast -> A -> B * ast) l b t : tr D t -> (forall b t x, x ∈ l -> tr D t -> tr D (f (b, t) x).2) -> tr D (foldl f (b, t) l).2.
Proof.
  revert b t. induction l as [|x l IH]; intros b t Ht Hf; cbn [foldl]; [done|]. specialize (Hf b t x) as Hx. destruct (f (b, t) x) as [b' t'] eqn:Ef. apply IH.
  - apply Hx; [left|done].
  - intros b1 t1 y Hy. apply Hf. by right.
Qed.
End Trace.

Lemma karg_in i t : (i < length (aargs t))%nat -> karg i t ∈ aargs t.
Proof. intros Hi. eapply list_elem_of_lookup_2, (karg_lookup i t Hi). Qed.
Lemma tail_in (l : list key) k : k ∈ tail l -> k ∈ l.
Proof. destruct l; [done|]. by right. Qed.

Create HintDb trace.
#[export] Hint Resolve tr_say tr_shared tr_failed tr_args tr_changed tr_notified tr_ready tr_dirty tr_purge tr_replace tr_touched tr_store tr_refl : trace.

(** ** The commands *)

Definition flushes (c : kcmd) : bool := match c with FLUSHDB | FLUSHALL => true | _ => false end.

Section Commands.
Context (e : kenv) (fb : bool).

Lemma expire_set_traced t0 t d k v w : traced fb (aargs t0) t0 [] t -> k ∈ aargs t0 -> traced fb (aargs t0) t0 [] (expire_at e d k w (changed 1 (replace e d k v t))).
Proof.
  intros Ht Hk. assert (traced fb (aargs t0) t0 [(d, k)] (clear_expiry d k (store d k v (purge e d k t)))) as Ht1.
  { eapply (tr_weaken _ _ _ [(d, k); (d, k)]); [apply tr_clear; [|done]; apply tr_store; [|done]; by apply tr_purge|intros x; rewrite !elem_of_cons; tauto|].
    intros d' k' Hdk. apply list_elem_of_singleton in Hdk. by injection Hdk as -> ->. }
  eapply tr_touched_then; [exact Ht1|..]; [|by unfold expire_at; destruct (_ && _)..]. intros d' k' Hne.
  assert (entry d' k' (on_db d (fun db => mk_db (dict db) (<[k := w]> (expires db))) (changed 1 (replace e d k v t))) = entry d' k' (clear_expiry d k (store d k v (purge e d k t)))) as Hen.
  { destruct (decide (d' = d)) as [->|Hd]; [|by rewrite entry_on_db_ne]. rewrite (entry_on_db d d k'); [done|]. intros db. cbn. rewrite lookup_insert_ne; [done|congruence]. }
  unfold expire_at. by destruct (_ && _).
Qed.

Lemma set_traced flags k v expire seconds okr abr t t' :
  k ∈ aargs t -> aset e flags k v expire seconds okr abr t = Some t' -> traced fb (aargs t) t [] t'.
Proof.
  intros Hk. unfold aset. destruct (time_arg e expire seconds) as [[ms|err]|]; cbn [mbind option_bind]; [|intros [= <-]; auto with trace|done].
  destruct (_ || _); [intros [= <-]; auto with trace|]. destruct expire as [x|]; [|intros [= <-]; auto with trace].
  destruct (ll_checked _) as [w|]; cbn [mbind option_bind]; [|done]. intros [= <-]. apply tr_shared, tr_notified, tr_notified. apply expire_set_traced; auto with trace.
Qed.
Lemma SET_traced t t' : (3 <= length (aargs t))%nat -> aSET e t = Some t' -> traced fb (aargs t) t [] t'.
Proof.
  intros Hlen. unfold aSET. destruct (set_options _ _ _ _ _) as [[[flags seconds] ex]|]; [|intros [= <-]; auto with trace]. intros Hs. eapply set_traced; [|exact Hs]. apply karg_in. lia.
Qed.
Lemma get_traced t : (1 < length (aargs t))%nat -> traced fb (aargs t) t [] (aget e t).
Proof. intros Hlen. unfold aget. auto using karg_in with trace. Qed.
Lemma getset_traced t : (1 < length (aargs t))%nat -> traced fb (aargs t) t [] (agetset e t).
Proof.
  intros Hlen. unfold agetset. destruct (is_other _); [by apply get_traced|]. apply tr_changed, tr_notified, tr_replace; [by apply get_traced|by apply karg_in].
Qed.
Lemma setrange_traced t t' : (1 < length (aargs t))%nat -> asetrange e t = Some t' -> traced fb (aargs t) t [] t'.
Proof.
  intros Hlen. pose proof (karg_in 1 t Hlen) as Hk. unfold asetrange. destruct (string2ll _) as [o|]; [|intros [= <-]; auto with trace]. destruct (_ <? _); [intros [= <-]; auto with trace|].
  cbn zeta. destruct (value_of _ _ _) as [[s|ty w]|]; [|intros [= <-]; auto with trace|].
  all: case_bool_decide; [intros [= <-]; auto with trace|]; destruct (too_long _); [intros [= <-]; auto with trace|]; repeat (destruct (_ && _); [done|]); destruct (_ <? _); [done|].
  all: intros [= <-]; auto 8 with trace.
Qed.
Lemma getrange_traced t : (1 < length (aargs t))%nat -> traced fb (aargs t) t [] (agetrange e t).
Proof. intros Hlen. unfold agetrange. destruct (string2ll _); [|auto with trace]. destruct (string2ll _); auto using karg_in with trace. Qed.
Lemma mget_traced t : traced fb (aargs t) t [] (amget e t).
Proof. unfold amget. apply tr_fold; [auto with trace|]. intros t1 k Hk%tail_in Ht1. auto with trace. Qed.
Lemma pairs_in l k v : (k, v) ∈ pairs l -> k ∈ l.
Proof.
  induction l as [l IH] using (well_founded_induction (Wf_nat.well_founded_ltof _ length)). unfold Wf_nat.ltof in IH. destruct l as [|a [|b l]]; cbn; [by intros []%not_elem_of_nil..|].
  intros [[= -> ->]|Hkv]%elem_of_cons; [by left|]. right; right. by apply IH; [cbn; lia|].
Qed.
Lemma any_there_traced t0 d l t : traced fb (aargs t0) t0 [] t -> (forall k, k ∈ l -> k ∈ aargs t0) -> traced fb (aargs t0) t0 [] (any_there e d l t).2.
Proof.
  revert t. induction l as [|k l IH]; intros t Ht Hl; cbn; [done|]. assert (traced fb (aargs t0) t0 [] (purge e d k t)) as Hp by (apply tr_purge; [done|apply Hl; left]).
  case_bool_decide; [done|]. apply IH; [done|]. intros k' Hk'. apply Hl. by right.
Qed.
Lemma mset_traced nx t : traced fb (aargs t) t [] (amset e nx t).
Proof.
  unfold amset. destruct (_ =? _)%nat; [auto with trace|]. set (l := pairs (tail (aargs t))). assert (forall k, k ∈ l.*1 -> k ∈ aargs t) as Hl.
  { intros k ([k' v] & -> & Hkv)%list_elem_of_fmap. by apply tail_in, (pairs_in _ _ v). }
  assert (forall t1, traced fb (aargs t) t [] t1 -> traced fb (aargs t) t [] (foldl (fun t' kv => notified "set" kv.1 (asel t) (replace e (asel t) kv.1 (AString kv.2) t')) t1 l)) as Hf.
  { intros t1 Ht1. apply tr_fold; [done|]. intros t2 [k v] Hkv Ht2. apply tr_notified, tr_replace; [done|]. apply Hl, list_elem_of_fmap. by exists (k, v). }
  destruct nx.
  - pose proof (any_there_traced t (asel t) l.*1 t (tr_refl _ _ t) Hl) as Ha. destruct (any_there e (asel t) l.*1 t) as [[] t1]; cbn in Ha; auto with trace.
  - auto with trace.
Qed.
Lemma incr_traced n t : (1 < length (aargs t))%nat -> traced fb (aargs t) t [] (aincr e n t).
Proof.
  intros Hlen. pose proof (karg_in 1 t Hlen) as Hk. unfold aincr. cbn zeta. destruct (value_of _ _ _) as [[s|ty w]|]; [|auto with trace|].
  - destruct (string2ll s); [|auto with trace]. destruct (_ && _); auto 8 with trace.
  - destruct (_ && _); auto 8 with trace.
Qed.
Lemma append_traced t t' : (1 < length (aargs t))%nat -> aappend e t = Some t' -> traced fb (aargs t) t [] t'.
Proof.
  intros Hlen. pose proof (karg_in 1 t Hlen) as Hk. unfold aappend. cbn zeta. destruct (value_of _ _ _) as [[s|ty w]|]; [|intros [= <-]; auto with trace|intros [= <-]; auto 8 with trace].
  destruct (too_long _); [intros [= <-]; auto with trace|]. destruct (k_alloc e _); [|done]. intros [= <-]; auto 8 with trace.
Qed.
Lemma del_traced t : traced fb (aargs t) t [] (adel e t).
Proof.
  unfold adel. set (f := fun '(n, t') k => _). pose proof (tr_fold2 fb (aargs t) t [] f (tail (aargs t)) 0 t (tr_refl _ _ t)) as Hf.
  destruct (foldl f (0, t) (tail (aargs t))) as [n t1] eqn:Ef. cbn in Hf. apply tr_say, Hf. intros n' t2 k Hk%tail_in Ht2. unfold f. cbn zeta. case_bool_decide; cbn [snd]; [|by apply tr_purge].
  apply tr_changed, tr_notified, tr_touched, tr_drop; [by apply tr_purge|done].
Qed.
Lemma exists_traced t : traced fb (aargs t) t [] (aexists e t).
Proof.
  unfold aexists. set (f := fun '(n, t') k => _). pose proof (tr_fold2 fb (aargs t) t [] f (tail (aargs t)) 0 t (tr_refl _ _ t)) as Hf.
  destruct (foldl f (0, t) (tail (aargs t))) as [n t1] eqn:Ef. cbn in Hf. apply tr_say, Hf. intros n' t2 k Hk%tail_in Ht2. by apply tr_purge.
Qed.
Lemma select_traced t : traced fb (aargs t) t [] (aselect e t).
Proof.
  unfold aselect. destruct (string2ll _); [|auto with trace]. destruct (k_cluster e && _); [auto with trace|]. destruct (_ && _); [|auto with trace]. apply tr_shared. by apply (tr_same _ _ _ _ t); [apply tr_refl|..].
Qed.
Lemma flushdb_traced t : fb = true -> traced fb (aargs t) t [] (aflushdb t).
Proof. intros Hfb. unfold aflushdb. destruct (negb _); [auto with trace|]. apply tr_shared, tr_changed, tr_flush_one, tr_refl; done. Qed.
Lemma flushall_traced t : fb = true -> traced fb (aargs t) t [] (aflushall e t).
Proof.
  intros Hfb. unfold aflushall. destruct (negb _); [auto with trace|]. cbn zeta.
  assert (traced fb (aargs t) t [] (shared Ok (changed (all_keys t) (log (with_slave_keys ∅) (with_adbs ((fun _ => no_keys) <$> adbs t) (log (add_flushed (-1)) t)))))) as Ht by (apply tr_shared, tr_changed, tr_flush_all, tr_refl; done).
  apply tr_changed. destruct (k_saveparams e); [by apply tr_dirty|done].
Qed.
Lemma rename_traced nx t : (2 < length (aargs t))%nat -> traced fb (aargs t) t [] (arename e nx t).
Proof.
  intros Hlen. assert (karg 1 t ∈ aargs t) as H1 by (apply karg_in; lia). assert (karg 2 t ∈ aargs t) as H2 by (apply karg_in; lia). unfold arename. cbn zeta.
  set (d := asel t). set (k1 := karg 1 t) in *. set (k2 := karg 2 t) in *. destruct (value_of d k1 _) as [v|]; [|auto with trace]. case_bool_decide; [auto with trace|]. destruct (_ && _); [auto with trace|].
  apply tr_shared, tr_changed, tr_notified, tr_notified, tr_touched, tr_touched.
  eapply (tr_weaken _ _ _ [(d, k1); (d, k2); (d, k2); (d, k2)]); [|intros x; rewrite !elem_of_cons; tauto|].
  - apply tr_drop; [|done]. apply tr_keep; [|rewrite !elem_of_cons; tauto|done]. apply tr_ready, tr_store; [|done]. apply tr_drop; [|done]. auto with trace.
  - intros d' k' Hdk. rewrite !elem_of_cons in Hdk. destruct Hdk as [[= -> ->]|[[= -> ->]|[]%not_elem_of_nil]]; done.
Qed.
Lemma expire_traced basetime seconds t t' : (1 < length (aargs t))%nat -> aexpire e basetime seconds t = Some t' -> traced fb (aargs t) t [] t'.
Proof.
  intros Hlen. pose proof (karg_in 1 t Hlen) as Hk. unfold aexpire. cbn zeta. destruct (string2ll _) as [w|]; [|intros [= <-]; auto with trace].
  destruct (if seconds then _ else _) as [w1|]; cbn [mbind option_bind]; [|done]. destruct (ll_checked _) as [w2|]; cbn [mbind option_bind]; [|done].
  destruct (value_of _ _ _); [|intros [= <-]; auto with trace]. destruct (_ && _); intros [= <-].
  - apply tr_shared, tr_notified, tr_touched, tr_args, tr_changed, tr_drop; auto with trace.
  - apply tr_changed, tr_notified, tr_touched, tr_shared, tr_expire; auto with trace.
Qed.
Lemma ttl_traced ms t t' : (1 < length (aargs t))%nat -> attl e ms t = Some t' -> traced fb (aargs t) t [] t'.
Proof.
  intros Hlen. pose proof (karg_in 1 t Hlen) as Hk. unfold attl. cbn zeta. destruct (visible _ _ _ _); [|intros [= <-]; auto with trace]. destruct (_ =? _); [intros [= <-]; auto with trace|].
  destruct (ll_checked _) as [u|]; cbn [mbind option_bind]; [|done]. destruct ms; cbn [mbind option_bind]; [intros [= <-]; auto with trace|].
  destruct (ll_checked _) as [u'|]; cbn [mbind option_bind]; [|done]. intros [= <-]; auto with trace.
Qed.

(** The two commands that change an entry without a signal. *)
Lemma persist_traced t : (1 < length (aargs t))%nat -> exists D, traced fb (aargs t) t D (apersist e t).
Proof.
  intros Hlen. pose proof (karg_in 1 t Hlen) as Hk. unfold apersist. cbn zeta. destruct (value_of _ _ _); [|exists []; auto with trace]. destruct (expiry_of _ _ _); [|exists []; auto with trace].
  eexists. apply tr_changed, tr_shared, tr_clear; auto with trace.
Qed.
Lemma move_traced t : (1 < length (aargs t))%nat -> exists D, traced fb (aargs t) t D (amove e t).
Proof.
  intros Hlen. pose proof (karg_in 1 t Hlen) as Hk. unfold amove. destruct (k_cluster e); [exists []; auto with trace|]. cbn zeta. destruct (string2ll _) as [id|]; [|exists []; auto with trace].
  destruct (_ && _); [|exists []; auto with trace]. case_bool_decide; [exists []; auto with trace|]. destruct (value_of _ _ _); [|exists []; auto with trace]. case_bool_decide; [exists []; auto 6 with trace|].
  eexists. apply tr_shared, tr_changed, tr_drop; [|done]. apply tr_keep; [|left|done]. apply tr_ready, tr_store; auto with trace.
Qed.

Lemma exec_traced c t t' :
  arity_ok c (length (aargs t)) = true -> aexec e c t = Some t' -> (flushes c = true -> fb = true) -> c <> SWAPDB -> exists D, traced fb (aargs t) t D t' /\ (c <> MOVE -> c <> PERSIST -> D = []).
Proof.
  intros Ha Hex Hfb Hsw. apply arity_range in Ha as [Hpos Hneg].
  assert (forall P : Prop, (c <> MOVE -> c <> PERSIST -> P) -> (c = MOVE \/ c = PERSIST) \/ P) as Hc by (intros P HP; destruct c; tauto || (right; apply HP; done)).
  destruct (Hc (traced fb (aargs t) t [] t')) as [Hmp|Ht]; [|destruct Hmp as [-> | ->]|by exists []].
  - clear Hc. intros Hm Hp.
    destruct c; cbn [table_arity] in Hpos, Hneg; cbn [aexec] in Hex; try done; first [specialize (Hpos ltac:(lia)); clear Hneg | specialize (Hneg ltac:(lia)); clear Hpos];
      try (injection Hex as <-).
    + apply get_traced. lia.
    + eapply SET_traced; [|done]. lia.
    + eapply set_traced; [|done]. apply karg_in. lia.
    + eapply set_traced; [|done]. apply karg_in. lia.
    + eapply set_traced; [|done]. apply karg_in. lia.
    + apply getset_traced. lia.
    + eapply setrange_traced; [|done]. lia.
    + apply getrange_traced. lia.
    + apply mget_traced.
    + apply mset_traced.
    + apply mset_traced.
    + apply incr_traced. lia.
    + apply incr_traced. lia.
    + unfold aincrby. destruct (string2ll _); [apply incr_traced; lia|auto with trace].
    + unfold adecrby in Hex. destruct (string2ll _); [|injection Hex as <-; auto with trace]. destruct (ll_checked _) as [n|]; cbn [mbind option_bind] in Hex; [|done]. injection Hex as <-. apply incr_traced. lia.
    + eapply append_traced; [|done]. lia.
    + unfold astrlen. apply tr_say, tr_purge; [apply tr_refl|apply karg_in; lia].
    + apply del_traced.
    + apply del_traced.
    + apply exists_traced.
    + apply exists_traced.
    + apply select_traced.
    + by apply flushdb_traced, Hfb.
    + by apply flushall_traced, Hfb.
    + unfold adbsize. auto with trace.
    + unfold atype_command. apply tr_say, tr_purge; [apply tr_refl|apply karg_in; lia].
    + apply rename_traced. lia.
    + apply rename_traced. lia.
    + eapply expire_traced; [|done]. lia.
    + eapply expire_traced; [|done]. lia.
    + eapply expire_traced; [|done]. lia.
    + eapply expire_traced; [|done]. lia.
    + eapply ttl_traced; [|done]. lia.
    + eapply ttl_traced; [|done]. lia.
  - injection Hex as <-. destruct (move_traced t) as [D HD]; [cbn in Hpos; lia|]. by exists D.
  - injection Hex as <-. destruct (persist_traced t) as [D HD]; [cbn in Hpos; lia|]. by exists D.
Qed.
End Commands.
