(* ===== verification/KeyspaceSpec.v ===== *)
(** * What the key space guarantees

    Runs of a server from its start: every sequence of commands gives the replies and the contents that the commands on maps give, objects are neither leaked nor
    lost, changes are signalled, and a value stays until its time is over. *)
From stdpp Require Import prelude list gmap strings.
From Stdlib Require Import ZArith Lia.
From S2P Require Import Prelude Util SdsText Rio Rdb Reply Resp Aof Keyspace KeyCommands KeyspaceAbs KeyspaceInv KeyspaceRel KeyspaceRefine KeyspaceKeys KeyspaceFrame.

Local Open Scope Z_scope.
Local Open Scope redis_scope.

#[local] Arguments str : simpl never.

(** ** Runs *)

(** Between commands there are no arguments. *)
Definition between (s : ks) (t : ast) : Prop := rel (fun _ => False) z0 s t /\ aargs t = [].

Lemma in_dbs_empty n x : in_dbs (replicate n (mk_db ∅ ∅)) x = 0.
Proof. induction n as [|n IH]; [done|]. change (occ ∅ x + in_dbs (replicate n (mk_db ∅ ∅)) x = 0). by rewrite IH. Qed.
Lemma start_between n : (0 < n)%nat -> between (kstart n) (astart n).
Proof.
  intros Hn. split; [|done]. assert (forall x, held (dbs (kstart n)) [] x = ext x) as Hheld.
  { intros x. unfold held, kstart. cbn [dbs cnt]. rewrite in_dbs_empty. lia. }
  split; try done.
  - split.
    + done.
    + intros a o Ho. unfold kstart, start_heap, shared_del, shared_unlink in Ho. cbn in Ho. apply lookup_insert_Some in Ho as [[<- _]|[_ [<- _]%lookup_singleton_Some]]; cbn; lia.
    + intros a o Ho. rewrite Hheld. unfold z0, ext. unfold kstart, start_heap in Ho. cbn in Ho. apply lookup_insert_Some in Ho as [[<- <-]|[_ [<- <-]%lookup_singleton_Some]]; cbn; unfold OBJ_SHARED_REFCOUNT; split_and!; try done; lia.
    + intros a _ Hno. rewrite Hheld. split; [|done]. unfold kstart, start_heap in Hno. cbn in Hno. apply lookup_insert_None in Hno as [H1 H2]. apply lookup_singleton_None in H1. unfold ext.
      destruct (Z.eqb_spec a shared_del), (Z.eqb_spec a shared_unlink); by try congruence.
    + intros a Ha. rewrite Hheld. unfold ext, shared_del, shared_unlink. destruct (Z.eqb_spec a 0), (Z.eqb_spec a 1); cbn; lia.
  - cbn. by rewrite fmap_replicate.
  - intros d db k Hd. cbn in Hd. apply lookup_replicate in Hd as [-> _]. cbn. by intros [? ?%lookup_empty_Some].
  - cbn. by rewrite length_replicate.
Qed.

Definition related_run (o : option (() * ks)) (o' : option ast) : Prop := match o' with Some t => exists s, o = Some ((), s) /\ between s t | None => o = None end.

Lemma step_between ev s t : between s t -> related_run (kstep ev s) (astep ev t).
Proof.
  intros [Hr Ha]. unfold related_run. destruct ev as [e c args|d|d k now|d k ty v]; cbn [kstep astep].
  - destruct (load_args_spec _ args s t (fun i H => H) Hr) as ([] & s1 & E1 & Hr1). rewrite Ha in Hr1. cbn [app] in Hr1. rewrite (K_bind_ok _ _ _ _ _ E1).
    assert (implements (if arity_ok c (length args) then exec e c else replyK (RErrorFormat (str "wrong number of arguments for '" ++ k_cmd_name e ++ str "' command"))) s1
      (if arity_ok c (length args) then aexec e c (with_aargs args t) else Some (say (RErrorFormat (str "wrong number of arguments for '" ++ k_cmd_name e ++ str "' command")) (with_aargs args t)))) as Him.
    { destruct (arity_ok c (length args)) eqn:Ear; [by apply exec_implements|by eapply reply_last]. }
    destruct (if arity_ok c (length args) then aexec e c (with_aargs args t) else _) as [t1|]; cbn [implements mbind option_bind] in *; [|by apply K_bind_none].
    destruct Him as ([] & s2 & E2 & Hr2). rewrite (K_bind_ok _ _ _ _ _ E2). destruct (freeClientArgv_spec _ s2 t1 Hr2) as ([] & s3 & E3 & Hr3). by exists s3.
  - rewrite <-(length_adbs _ _ _ _ Hr). destruct (Nat.ltb_spec d (length (dbs s))); [|done]. exists (with_seldb d s). split; [done|]. split; [by apply rel_select|done].
  - destruct (dbs s !! d) as [db|] eqn:Ed.
    + unfold acycle. rewrite (looked_expiry _ _ _ _ _ _ k Hr Ed). destruct (expires db !! k) as [w|] eqn:Ew; [|by exists s].
      rewrite bool_decide_eq_true_2 by done. assert (d < length (dbs s))%nat as Hd by (by eapply lookup_lt_Some).
      unfold activeExpireCycleTryExpire. destruct (w <? now) eqn:Et.
      * destruct (dbDelete_spec _ _ (with_rep (add_expiration (d, k) (rep s)) s) _ d k (rel_report _ _ _ _ (add_expiration (d, k)) Hr) Hd) as (r & s1 & E1 & Hr1 & _); [done|].
        eexists. split; [|split; [by apply (rel_report _ _ _ _ (add_event ("expired"%string, k, d)) Hr1)|done]].
        unfold mbind, K_bind, get_db, liftK. rewrite Ed. cbn [mbind option_bind]. rewrite Ew. cbn [mbind option_bind]. rewrite Et. unfold propagateExpire, on_report, change. cbn [mbind option_bind]. rewrite E1. done.
      * exists s. split; [|done]. unfold mbind, K_bind, get_db, liftK. rewrite Ed. cbn [mbind option_bind]. rewrite Ew. cbn [mbind option_bind]. by rewrite Et.
    + exists s. split; [done|]. unfold acycle, expiry_of, the_db. rewrite (r_dbs _ _ _ _ Hr), list_lookup_fmap, Ed. done.
  - rewrite <-(length_adbs _ _ _ _ Hr). destruct (dbs s !! d) as [db|] eqn:Ed.
    + rewrite (proj2 (Nat.ltb_lt _ _)) by (by eapply lookup_lt_Some). cbn [andb]. pose proof (looked_here s d k db Ed) as Hl. rewrite (looked_value _ _ _ _ _ _ _ Hr Hl).
      assert (bool_decide (den (heap s) <$> dict db !! k = None) = bool_decide (dict db !! k = None)) as -> by (apply bool_decide_ext; by destruct (dict db !! k)).
      destruct (bool_decide (dict db !! k = None)) eqn:Eb; [|by exists s]. apply bool_decide_eq_true in Eb. rewrite Eb in Hl. destruct (bool_decide (ty = OBJ_STRING)) eqn:Ety; [by exists s|]. cbn [andb negb].
      apply bool_decide_eq_false in Ety. destruct (create_key_spec _ s t d k (VOther ty v) Hr Hl Ety) as (n & s1 & E1 & Hr1 & _). exists s1. split; [|split; [done|]].
      * revert E1. unfold mbind, K_bind. destruct (createObject _ s) as [[a s']|]; [|done]. cbn [mbind option_bind]. destruct (dbAdd d k a s') as [[[] s2]|]; [|done]. cbn. by intros [= _ ->].
      * unfold made_ready. by case_bool_decide.
    + rewrite (proj2 (Nat.ltb_ge _ _)) by (by apply lookup_ge_None). by exists s.
Qed.

Lemma run_between l s t : between s t -> related_run (krun l s) (arun l t).
Proof.
  revert s t. induction l as [|ev l IH]; intros s t Hb; cbn [krun arun]; [by exists s|]. pose proof (step_between ev s t Hb) as Hs. unfold related_run in Hs.
  destruct (astep ev t) as [t1|]; cbn [mbind option_bind]; [|by apply K_bind_none]. destruct Hs as (s1 & E1 & Hb1). rewrite (K_bind_ok _ _ _ _ _ E1). by apply IH.
Qed.

(** ** What runs keep *)

Definition reachable (n : nat) (s : ks) : Prop := (0 < n)%nat /\ exists l, krun l (kstart n) = Some ((), s).
Lemma reachable_between n s : reachable n s -> exists t, between s t.
Proof.
  intros [Hn [l Hl]]. pose proof (run_between l _ _ (start_between n Hn)) as Hr. unfold related_run in Hr. destruct (arun l (astart n)) as [t|]; [|congruence].
  destruct Hr as (s' & E & Hb). exists t. by simplify_eq.
Qed.
(** What a database holds at a key: the value and the time of expiry. *)
Definition kentry (d : nat) (k : key) (s : ks) : option aval * option Z :=
  match dbs s !! d with Some db => (den (heap s) <$> dict db !! k, expires db !! k) | None => (None, None) end.
Lemma kentry_abs E b s t d k : rel E b s t -> kentry d k s = entry d k t.
Proof.
  intros Hr. unfold kentry, entry, value_of, expiry_of, the_db. rewrite (r_dbs _ _ _ _ Hr), list_lookup_fmap. destruct (dbs s !! d) as [db|]; cbn; [|done]. by rewrite lookup_fmap.
Qed.

(** A change at one key leaves the others. *)
Lemma entry_on_db_at d k d' k' f t :
  (d', k') <> (d, k) -> (forall db, k' <> k -> dict (f db) !! k' = dict db !! k') -> (forall db, k' <> k -> expires (f db) !! k' = expires db !! k') -> entry d' k' (on_db d f t) = entry d' k' t.
Proof. intros Hne Hf Hg. destruct (decide (d' = d)) as [->|Hd]; [|by apply entry_on_db_ne]. apply entry_on_db. intros db. assert (k' <> k) by congruence. auto. Qed.

(** One command on the maps. *)
Lemma command_traced e c args t t' fb :
  astep (Command e c args) t = Some t' -> (flushes c = true -> fb = true) -> c <> SWAPDB -> exists D, traced fb args t D t' /\ (c <> MOVE -> c <> PERSIST -> D = []).
Proof.
  intros Hs Hfb Hsw. cbn [astep] in Hs. destruct (arity_ok c (length args)) eqn:Ear; cbn [mbind option_bind] in Hs.
  - destruct (aexec e c (with_aargs args t)) as [t1|] eqn:Eex; cbn [mbind option_bind] in Hs; [|done]. injection Hs as <-. by apply (exec_traced e fb c (with_aargs args t) t1 Ear Eex Hfb Hsw).
  - injection Hs as <-. exists []. split; [|done]. apply tr_args, tr_say, tr_args, tr_refl.
Qed.

(** Events that leave a key alone until the time w: commands that neither name it nor act on whole databases, and expiry before that time. *)
Definition spares (k : key) (w : Z) (ev : kevent) : bool :=
  match ev with
  | Command _ c args => negb (bool_decide (k ∈ args)) && negb (flushes c) && match c with SWAPDB => false | _ => true end
  | Cycle _ k' now => negb (bool_decide (k' = k)) || (now <=? w)
  | Client _ | Create _ _ _ _ => true
  end.
Lemma step_spares k w d v ev t t' : spares k w ev = true -> astep ev t = Some t' -> entry d k t = (Some v, Some w) -> entry d k t' = (Some v, Some w).
Proof.
  intros Hsp Hs He. destruct ev as [e c args|d'|d' k' now|d' k' ty x].
  - cbn [spares] in Hsp. rewrite !andb_true_iff, !negb_true_iff, bool_decide_eq_false in Hsp. destruct Hsp as [[Hk Hfl] Hsw].
    destruct (command_traced e c args t t' false Hs ltac:(congruence) ltac:(by intros ->)) as (D & (sg & ex & fl & _ & _ & _ & Hin & Hent) & _).
    specialize (Hin d k). destruct (Hent d k) as [->|Hr]; [done|]. destruct Hr as [?|[?|[?|[? _]]]]; [tauto..|done].
  - cbn [astep] in Hs. destruct (d' <? length (adbs t))%nat; [|done]. by injection Hs as <-.
  - cbn [astep] in Hs. injection Hs as <-. unfold acycle. destruct (expiry_of d' k' t) as [w'|] eqn:Ew; [|done]. destruct (Z.ltb_spec w' now); [|done].
    rewrite <-He. change (entry d k (drop_key d' k' t) = entry d k t). apply (entry_on_db_at d' k' d k); [|intros db Hk; by apply lookup_delete_ne..]. intros [= <- <-]. unfold entry in He. injection He as _ Hw. rewrite Hw in Ew. injection Ew as <-.
    cbn [spares] in Hsp. rewrite bool_decide_eq_true_2 in Hsp by done. cbn in Hsp. lia.
  - cbn [astep] in Hs. injection Hs as <-. destruct (_ && _) eqn:Ec; [|done]. rewrite <-He. unfold made_ready.
    assert (entry d k (store d' k' (AOther ty x) t) = entry d k t) as Hst; [|destruct (bool_decide (_ \/ _)); exact Hst].
    apply (entry_on_db_at d' k' d k); [|intros db Hk; by apply lookup_insert_ne|done]. intros [= <- <-]. rewrite !andb_true_iff, bool_decide_eq_true in Ec. destruct Ec as [[_ Hno] _]. unfold entry in He. congruence.
Qed.
Lemma run_spares k w d v l t t' : forallb (spares k w) l = true -> arun l t = Some t' -> entry d k t = (Some v, Some w) -> entry d k t' = (Some v, Some w).
Proof.
  revert t. induction l as [|ev l IH]; intros t Hl Hr He; [by injection Hr as <-|]. cbn in Hl. apply andb_true_iff in Hl as [Hev Hl]. cbn [arun] in Hr.
  destruct (astep ev t) as [t1|] eqn:Es; cbn [mbind option_bind] in Hr; [|done]. eapply IH; [done..|]. by eapply step_spares.
Qed.
Lemma arun_app l l' t : arun (l ++ l') t = arun l t ≫= arun l'.
Proof. revert t. induction l as [|ev l IH]; intros t; [done|]. cbn [arun app]. destruct (astep ev t) as [t1|]; cbn [mbind option_bind]; [apply IH|done]. Qed.

Lemma krun_app l l' s : krun (l ++ l') s = '(_, s1) ← krun l s; krun l' s1.
Proof.
  revert s. induction l as [|ev l IH]; intros s; [done|]. cbn [krun app]. unfold mbind, K_bind. destruct (kstep ev s) as [[[] s1]|]; cbn [mbind option_bind]; [apply IH|done].
Qed.

(** What replaces a value with a time leaves. *)
Lemma purge_length e d k t : length (adbs (purge e d k t)) = length (adbs t).
Proof. unfold purge. destruct (_ && _); [|done]. apply length_alter. Qed.
Lemma purge_sel e d k t : asel (purge e d k t) = asel t.
Proof. unfold purge. by destruct (_ && _). Qed.
Lemma expire_at_sel e d k w t : asel (expire_at e d k w t) = asel t.
Proof. unfold expire_at. by destruct (_ && _). Qed.
Lemma the_db_on_db d f t : (d < length (adbs t))%nat -> the_db d (on_db d f t) = f (the_db d t).
Proof. intros [db Hdb]%lookup_lt_is_Some. unfold the_db, on_db, with_adbs. cbn. by rewrite list_lookup_alter_eq, Hdb. Qed.
Lemma the_db_expire e d k w t : (d < length (adbs t))%nat -> the_db d (expire_at e d k w t) = mk_db (dict (the_db d t)) (<[k := w]> (expires (the_db d t))).
Proof. intros Hlt. rewrite <-(the_db_on_db d (fun db => mk_db (dict db) (<[k := w]> (expires db)))) by done. unfold expire_at. by destruct (_ && _). Qed.
Lemma replace_length e d k v t : length (adbs (replace e d k v t)) = length (adbs t).
Proof. unfold replace, touched, clear_expiry, store, on_db, with_adbs, log. cbn. by rewrite !length_alter, purge_length. Qed.
Lemma the_db_replace e d k v t : (d < length (adbs t))%nat ->
  exists db, the_db d (replace e d k v t) = mk_db (<[k := v]> (dict db)) (delete k (expires db)).
Proof.
  intros Hlt. exists (the_db d (purge e d k t)). unfold replace. change (the_db d (touched d k ?x)) with (the_db d x). unfold clear_expiry, store.
  rewrite !the_db_on_db; [done|..]; cbn; by rewrite ?length_alter, purge_length.
Qed.
Lemma expire_set_entry e d k v w t : (d < length (adbs t))%nat -> entry d k (expire_at e d k w (changed 1 (replace e d k v t))) = (Some v, Some w).
Proof.
  intros Hlt. unfold entry, value_of, expiry_of. rewrite the_db_expire by (change (adbs (changed 1 ?x)) with (adbs x); by rewrite replace_length). change (the_db d (changed 1 ?x)) with (the_db d x).
  destruct (the_db_replace e d k v t Hlt) as [db ->]. cbn. by rewrite !lookup_insert_eq.
Qed.

(** PSETEX stores the value and its time. *)
Lemma psetex_entry e c0 k msb ms v t t' :
  string2ll msb = Some ms -> 0 < ms -> (asel t < length (adbs t))%nat -> astep (Command e PSETEX [c0; k; msb; v]) t = Some t' -> asel t' = asel t /\ entry (asel t) k t' = (Some (AString v), Some (k_now e + ms)).
Proof.
  intros Hms Hpos Hlt Hs. cbn [astep aexec] in Hs. change (arity_ok PSETEX _) with true in Hs. cbn iota in Hs. unfold aset, time_arg in Hs. change (karg 2 _) with msb in Hs. rewrite Hms, (proj2 (Z.leb_gt _ _)) in Hs by lia.
  cbn [mbind option_bind] in Hs. change (has OBJ_SET_NO_FLAGS OBJ_SET_NX) with false in Hs. change (has OBJ_SET_NO_FLAGS OBJ_SET_XX) with false in Hs. cbn [andb orb] in Hs.
  unfold ll_checked in Hs. destruct (_ && _); cbn [mbind option_bind] in Hs; [|done]. injection Hs as <-. split; [cbn; rewrite expire_at_sel; apply (purge_sel e (asel t) k (with_aargs [c0; k; msb; v] t))|].
  apply (expire_set_entry e (asel t) k (AString v) (k_now e + ms) (with_aargs _ t)). done.
Qed.

(** The reply of GET on a master. *)
Lemma get_reply_of e d k t v w :
  entry d k t = (Some (AString v), Some w) -> 0 <= w -> k_master e = true -> k_loading e = false ->
  get_reply (visible e d k t) = if command_time e <=? w then RBulk (ObjRaw v) else shared_item Nullbulk.
Proof.
  intros [= Hv Hw] Hpos Hm Hl. unfold visible, expired. rewrite Hw, Hv, Hl, Hm, (proj2 (Z.leb_le _ _) Hpos). cbn [andb orb negb]. rewrite andb_true_r.
  destruct (Z.ltb_spec w (command_time e)), (Z.leb_spec (command_time e) w); by try lia.
Qed.
Lemma purge_replies e d k t : areplies (purge e d k t) = areplies t.
Proof. unfold purge. by destruct (_ && _). Qed.
Lemma get_step e c k t :
  astep (Command e GET [c; k]) t = Some (with_aargs [] (say (get_reply (visible e (asel t) k t)) (purge e (asel t) k (with_aargs [c; k] t)))).
Proof. done. Qed.

(** ** Theorems *)

(** C6: the commands of KeyCommands on shared, counted and encoded objects implement the commands on maps.  From the start of a server with any number of databases, every sequence of
    commands of any clients, expiry cycles and creations of other values either aborts in both or in none, and then the server holds the same values and times in the same databases,
    has the same database selected, has sent the same bytes as replies, and has reported the same changes, signals, notifications and expirations. *)
Theorem keyspace_refines n l :
  (0 < n)%nat ->
  match arun l (astart n) with
  | Some t => exists s, krun l (kstart n) = Some ((), s) /\ adbs t = abs_db (heap s) <$> dbs s /\ asel t = seldb s /\ wire (areplies t) = wire (kreplies s) /\ arep t = rep s
  | None => krun l (kstart n) = None
  end.
Proof.
  intros Hn. pose proof (run_between l _ _ (start_between n Hn)) as Hr. unfold related_run in Hr. destruct (arun l (astart n)) as [t|]; [|done].
  destruct Hr as (s & E & Hr & _). exists s. split; [done|]. split_and!; apply Hr.
Qed.

(** C7: in every state the server reaches between commands no object is leaked, freed too early or shared unknowingly: the argument vector is empty, every object in the heap has as many references as there
    are keys, in any database, that hold it (plus the server's own for the two shared command names), unless its counter is saturated, and at least one; every value of a key is an object
    of the heap or a shared integer; and every key with a time of expiry has a value. *)
Theorem objects_counted n s :
  reachable n s ->
  kargv s = [] /\
  (forall a o, heap s !! a = Some o -> 1 <= refcount o <= OBJ_SHARED_REFCOUNT /\ (refcount o = OBJ_SHARED_REFCOUNT \/ refcount o = in_dbs (dbs s) a + ext a)) /\
  (forall d db k a, dbs s !! d = Some db -> dict db !! k = Some a -> if a <? 0 then - OBJ_SHARED_INTEGERS <= a else is_Some (heap s !! a)) /\
  (forall d db k, dbs s !! d = Some db -> is_Some (expires db !! k) -> is_Some (dict db !! k)).
Proof.
  intros (t & Hr & Ha)%reachable_between. assert (kargv s = []) as Hk.
  { pose proof (r_args _ _ _ _ Hr) as Hf. rewrite Ha in Hf. by apply Forall2_nil_inv_l in Hf. }
  pose proof (r_heap _ _ _ _ Hr) as Hh. split_and!; [done|..].
  - intros a o Ho. destruct (ho_count _ _ _ _ Hh a o Ho) as (_ & Hc & Hrc). split; [done|]. unfold held, z0 in Hrc. rewrite Hk in Hrc. cbn in Hrc. destruct Hrc as [Hs|Hc']; [by left|right; lia].
  - intros d db k a Hd Hka. apply (alive_held _ _ _ _ a Hh). pose proof (held_dict (dbs s) (kargv s) d db k a Hd Hka). lia.
  - apply Hr.
Qed.

(** C8: a change of a key is reported.  When a command other than MOVE, PERSIST and SWAPDB changes the value or the time of expiry of a key of any database, including removals of the key, then it has signalled the key as
    modified, or reported it as expired to replicas and the append only file, and the key is one of its arguments; or the command has signalled the database as flushed.  WATCH and client notifications rely on these signals. *)
Theorem changes_signalled n s e c args s' d k :
  reachable n s -> kstep (Command e c args) s = Some ((), s') -> c ∉ [MOVE; PERSIST; SWAPDB] -> kentry d k s' <> kentry d k s ->
  exists sg ex fl, signals (rep s') = signals (rep s) ++ sg /\ expirations (rep s') = expirations (rep s) ++ ex /\ flushed (rep s') = flushed (rep s) ++ fl /\
    (((d, k) ∈ sg \/ (d, k) ∈ ex) /\ k ∈ args \/ flushes c = true /\ (Z.of_nat d ∈ fl \/ -1 ∈ fl)).
Proof.
  intros (t & Hb)%reachable_between Hs Hc Hne. pose proof (step_between (Command e c args) s t Hb) as Hrel. unfold related_run in Hrel. rewrite !elem_of_cons in Hc.
  destruct (astep (Command e c args) t) as [t'|] eqn:Est; [|congruence]. destruct Hrel as (s1 & E & Hr' & _). rewrite Hs in E. injection E as <-.
  destruct (command_traced e c args t t' (flushes c) Est ltac:(done) ltac:(tauto)) as (D & (sg & ex & fl & H1 & H2 & H3 & Hin & Hent) & HD). destruct Hb as [Hr _].
  rewrite (r_rep _ _ _ _ Hr), (r_rep _ _ _ _ Hr') in H1, H2, H3. exists sg, ex, fl. split_and!; [done..|].
  rewrite (kentry_abs _ _ _ _ d k Hr), (kentry_abs _ _ _ _ d k Hr') in Hne. rewrite HD in Hent by tauto. specialize (Hin d k). specialize (Hent d k). rewrite elem_of_nil in Hent. tauto.
Qed.

(** C9: a value lives until its time is over, and not longer.  After PSETEX of a key, whatever other clients do that does not name the key, flush or swap databases, and whatever the expiry cycle does at any time before the
    key's time has passed, a GET of the key on a master replies the value as long as the time the command compares with is not past the time of expiry, and the null bulk afterwards. *)
Theorem kept_until_expiry n s e c0 k msb ms v s1 evs s2 e' c1 :
  reachable n s -> string2ll msb = Some ms -> 0 < ms -> 0 <= k_now e -> kstep (Command e PSETEX [c0; k; msb; v]) s = Some ((), s1) ->
  forallb (spares k (k_now e + ms)) evs = true -> krun (evs ++ [Client (seldb s)]) s1 = Some ((), s2) -> k_master e' = true -> k_loading e' = false ->
  exists s3, kstep (Command e' GET [c1; k]) s2 = Some ((), s3) /\
    wire (kreplies s3) = wire (kreplies s2) ++ wire [if command_time e' <=? k_now e + ms then RBulk (ObjRaw v) else shared_item Nullbulk].
Proof.
  intros (t & Hb)%reachable_between Hms Hpos Hnow Hset Hsp Hrun Hm Hld. pose proof Hb as [Hr _].
  pose proof (step_between _ s t Hb : related_run (kstep (Command e PSETEX [c0; k; msb; v]) s) _) as H1. unfold related_run in H1. destruct (astep _ t) as [t1|] eqn:E1; [|congruence].
  destruct H1 as (s1' & E & Hb1). rewrite Hset in E. injection E as <-.
  apply (psetex_entry e c0 k msb ms v t t1 Hms Hpos) in E1 as [Hsel Hen]; [|rewrite (r_sel _ _ _ _ Hr), <-(length_adbs _ _ _ _ Hr); apply Hr].
  pose proof (run_between (evs ++ [Client (seldb s)]) s1 t1 Hb1) as H2. unfold related_run in H2. destruct (arun _ t1) as [t2|] eqn:E2; [|congruence].
  destruct H2 as (s2' & E & Hb2). rewrite Hrun in E. injection E as <-.
  rewrite arun_app in E2. destruct (arun evs t1) as [t1'|] eqn:E1'; cbn [mbind option_bind] in E2; [|done]. apply (run_spares _ _ _ _ _ _ _ Hsp E1') in Hen.
  cbn [arun astep] in E2. destruct (_ <? _)%nat; cbn [mbind option_bind] in E2; [|done]. injection E2 as <-.
  pose proof (step_between (Command e' GET [c1; k]) s2 _ Hb2) as H3. unfold related_run in H3. rewrite get_step in H3. destruct H3 as (s3 & E3 & Hr3 & _). exists s3. split; [done|].
  destruct Hb2 as [Hr2 _]. rewrite <-(r_wire _ _ _ _ Hr3), <-(r_wire _ _ _ _ Hr2), <-(get_reply_of e' (asel t) k t1' v (k_now e + ms)) by (done || lia).
  rewrite <-(r_sel _ _ _ _ Hr), <-wire_concat. change (areplies (with_asel (asel t) t1')) with (areplies (with_aargs [c1; k] (with_asel (asel t) t1'))).
  by rewrite <-(purge_replies e' (asel t) k (with_aargs [c1; k] (with_asel (asel t) t1'))).
Qed.

(** ** Examples *)

Definition demo_env (now : Z) : kenv :=
  mk_kenv true true false None now now now now false false false (str "cmd") false false true (fun _ => []) (fun m => m <=? 2 ^ 30) (mk_config true false).
Definition cmd (now : Z) (c : kcmd) (args : list string) : kevent := Command (demo_env now) c (str <$> args).
(** Two keys share an object after MSET of a small number; INCR replaces it for one of them, APPEND changes the other. *)
Definition demo_run : list kevent :=
  [cmd 5 MSET ["mset"; "a"; "7"; "b"; "7"]; cmd 6 INCR ["incr"; "a"]; cmd 6 APPEND ["append"; "b"; "up"]; cmd 7 GET ["get"; "b"]; cmd 7 RENAME ["rename"; "a"; "b"]; cmd 8 GET ["get"; "b"];
   cmd 8 PEXPIRE ["pexpire"; "b"; "10"]; Cycle 0 (str "b") 18; cmd 18 TTL ["pttl"; "b"]; Client 1; cmd 19 GET ["get"; "b"]; Create 1 (str "q") OBJ_LIST 4; cmd 19 GET ["get"; "q"];
   Client 0; Cycle 0 (str "b") 19; cmd 20 EXISTS ["exists"; "b"]]%string.

Lemma keyspace_refines_witness :
  exists t s, arun demo_run (astart 2) = Some t /\ krun demo_run (kstart 2) = Some ((), s) /\ adbs t = abs_db (heap s) <$> dbs s /\ arep t = rep s /\
    wire (kreplies s) = line "+OK" ++ line ":8" ++ line ":3" ++ line "$3" ++ line "7up" ++ line "+OK" ++ line "$1" ++ line "8" ++ line ":1" ++ line ":0" ++ line "$-1" ++
      line "-WRONGTYPE Operation against a key holding the wrong kind of value" ++ line ":0".
Proof.
  pose proof (keyspace_refines 2 demo_run ltac:(lia)) as H. destruct (arun demo_run (astart 2)) as [t|] eqn:Et; [|vm_compute in Et; congruence].
  destruct H as (s & E & H1 & _ & H2 & H3). exists t, s. split_and!; [reflexivity|exact E|exact H1|exact H3|]. rewrite <-H2. assert (Some (wire (areplies t)) = (wire ∘ areplies) <$> arun demo_run (astart 2)) as Hw by (rewrite Et; reflexivity).
  apply (inj Some). rewrite Hw. vm_compute. reflexivity.
Defined.

(** A server where a key and the arguments have shared a string. *)
Definition demo_end : option ks := snd <$> krun demo_run (kstart 2).
Lemma demo_reachable : exists s, demo_end = Some s /\ reachable 2 s.
Proof.
  unfold demo_end. destruct (krun demo_run (kstart 2)) as [[[] s]|] eqn:E; [|vm_compute in E; congruence]. exists s. split; [reflexivity|]. split; [lia|]. exists demo_run. exact E.
Defined.
Lemma objects_counted_witness : exists s o, demo_end = Some s /\ kargv s = [] /\ heap s !! shared_del = Some o /\ refcount o = in_dbs (dbs s) shared_del + ext shared_del.
Proof.
  destruct demo_reachable as (s & E & Hr). destruct (objects_counted 2 s Hr) as (H1 & H2 & _). assert ((fun s => heap s !! shared_del) <$> demo_end = Some (Some (mk_robj (VString (ObjEmbstr (str "DEL"))) 1))) as Hd by (vm_compute; reflexivity).
  rewrite E in Hd. apply (inj Some) in Hd. cbn in Hd. eexists s, _. split_and!; [exact E|exact H1|exact Hd|]. destruct (H2 _ _ Hd) as [_ [Hs|Hc]]; [discriminate Hs|exact Hc].
Defined.

Lemma changes_signalled_witness :
  exists s s', krun (take 1 demo_run) (kstart 2) = Some ((), s) /\ kstep (cmd 6 INCR ["incr"; "a"]%string) s = Some ((), s') /\
    exists sg ex fl, signals (rep s') = signals (rep s) ++ sg /\ expirations (rep s') = expirations (rep s) ++ ex /\ flushed (rep s') = flushed (rep s) ++ fl /\
    (((0%nat, str "a") ∈ sg \/ (0%nat, str "a") ∈ ex) /\ str "a" ∈ str <$> ["incr"; "a"]%string \/ flushes INCR = true /\ (0 ∈ fl \/ -1 ∈ fl)).
Proof.
  destruct (krun (take 1 demo_run) (kstart 2)) as [[[] s]|] eqn:E; [|vm_compute in E; congruence].
  assert (krun (take 2 demo_run) (kstart 2) = kstep (cmd 6 INCR ["incr"; "a"]%string) s) as E2.
  { change (take 2 demo_run) with (take 1 demo_run ++ [cmd 6 INCR ["incr"; "a"]%string]). rewrite krun_app, E. cbn [mbind option_bind krun]. unfold mbind, K_bind. destruct (kstep _ s) as [[[] s1]|]; reflexivity. }
  destruct (kstep _ s) as [[[] s']|] eqn:Es; [|vm_compute in E2; congruence]. exists s, s'. split_and!; [reflexivity|exact Es|].
  apply (changes_signalled 2 s (demo_env 6) INCR (str <$> ["incr"; "a"]%string) s' 0 (str "a")); [split; [lia|]; exists (take 1 demo_run); exact E|exact Es|intros H; rewrite !elem_of_cons, elem_of_nil in H; destruct H as [H|[H|[H|[]]]]; discriminate H|].
  assert ((fun p => kentry 0 (str "a") p.2) <$> krun (take 1 demo_run) (kstart 2) = Some (Some (AString (str "7")), None)) as Hb by (vm_compute; reflexivity).
  assert ((fun p => kentry 0 (str "a") p.2) <$> krun (take 2 demo_run) (kstart 2) = Some (Some (AString (str "8")), None)) as Ha by (vm_compute; reflexivity).
  rewrite E in Hb. rewrite E2 in Ha. cbn [fmap option_fmap option_map mbind option_bind snd] in Hb, Ha. apply (inj Some) in Hb, Ha. rewrite Ha, Hb. intros H. vm_compute in H. congruence.
Defined.

(** The value is there until the time 15, whatever is done to another key and however often the expiry cycle runs. *)
Definition demo_spared : list kevent := [cmd 6 DEL ["del"; "a"]; Cycle 0 (str "k") 15; Client 1; cmd 14 SET ["set"; "a"; "1"]]%string.
Lemma kept_until_expiry_witness :
  exists s1 s2, kstep (cmd 5 PSETEX ["psetex"; "k"; "10"; "v"]%string) (kstart 2) = Some ((), s1) /\ krun (demo_spared ++ [Client 0]) s1 = Some ((), s2) /\
    (exists s3, kstep (cmd 15 GET ["get"; "k"]%string) s2 = Some ((), s3) /\ wire (kreplies s3) = wire (kreplies s2) ++ line "$1" ++ line "v") /\
    (exists s3, kstep (cmd 16 GET ["get"; "k"]%string) s2 = Some ((), s3) /\ wire (kreplies s3) = wire (kreplies s2) ++ line "$-1").
Proof.
  destruct (kstep (cmd 5 PSETEX ["psetex"; "k"; "10"; "v"]%string) (kstart 2)) as [[[] s1]|] eqn:E1; [|vm_compute in E1; congruence].
  assert (krun (cmd 5 PSETEX ["psetex"; "k"; "10"; "v"]%string :: demo_spared ++ [Client 0]) (kstart 2) = krun (demo_spared ++ [Client 0]) s1) as E2 by (cbn [krun]; unfold mbind at 1, K_bind; rewrite E1; reflexivity).
  destruct (krun (demo_spared ++ [Client 0]) s1) as [[[] s2]|] eqn:E3; [|vm_compute in E2; congruence]. exists s1, s2. split; [reflexivity|]. split; [exact E3|].
  assert (reachable 2 (kstart 2)) as Hr by (split; [lia|]; exists []; reflexivity). split.
  - destruct (kept_until_expiry 2 (kstart 2) (demo_env 5) (str "psetex") (str "k") (str "10") 10 (str "v") s1 demo_spared s2 (demo_env 15) (str "get")) as (s3 & E & H);
      [exact Hr|vm_compute; reflexivity|lia|cbn; lia|exact E1|vm_compute; reflexivity|exact E3|reflexivity|reflexivity|]. exists s3. split; [exact E|]. rewrite H. f_equal.
  - destruct (kept_until_expiry 2 (kstart 2) (demo_env 5) (str "psetex") (str "k") (str "10") 10 (str "v") s1 demo_spared s2 (demo_env 16) (str "get")) as (s3 & E & H);
      [exact Hr|vm_compute; reflexivity|lia|cbn; lia|exact E1|vm_compute; reflexivity|exact E3|reflexivity|reflexivity|]. exists s3. split; [exact E|]. rewrite H. f_equal.
Defined.
