(* ===== verification/KeyspaceTotal.v ===== *)
(** * The commands return

    Runs in which clocks, numbers and lengths stay in a range that a real server does not leave: no command aborts.  The
    bounds are kept by an invariant on the maps: strings are not longer than 512 megabytes and times of expiry are small enough to be computed with. *)
From stdpp Require Import prelude list gmap strings.
From Stdlib Require Import ZArith Lia.
From S2P Require Import Prelude Util SdsText Rio Rdb Reply Resp Aof Keyspace KeyCommands KeyspaceAbs KeyspaceInv KeyspaceRel KeyspaceRefine KeyspaceKeys KeyspaceFrame KeyspaceSpec.

Local Open Scope Z_scope.
Local Open Scope redis_scope.

#[local] Arguments str : simpl never.

(** ** The invariant *)

Definition string_limit : Z := 512 * 1024 * 1024.
Definition number_limit : Z := 2 ^ 53.
Definition time_limit : Z := 1001 * number_limit.
Definition value_fits (v : aval) : Prop := match v with AString bs => zlen bs <= string_limit | AOther _ _ => True end.
Definition time_fits (w : Z) : Prop := - time_limit <= w <= time_limit.
Definition entry_fits (en : option aval * option Z) : Prop := (forall v, en.1 = Some v -> value_fits v) /\ (forall w, en.2 = Some w -> time_fits w).
Definition sane (n : nat) (t : ast) : Prop := length (adbs t) = n /\ forall d k, entry_fits (entry d k t).

Section Sane.
Context (n : nat).

Lemma sane_same t t' : adbs t' = adbs t -> sane n t -> sane n t'.
Proof. intros E [Hl Hs]. split; [by rewrite E|]. intros d k. unfold entry, value_of, expiry_of, the_db. rewrite E. apply (Hs d k). Qed.
Lemma sane_say i t : sane n t -> sane n (say i t).
Proof. by apply sane_same. Qed.
Lemma sane_shared r t : sane n t -> sane n (shared r t).
Proof. by apply sane_same. Qed.
Lemma sane_failed r t : sane n t -> sane n (failed r t).
Proof. by apply sane_same. Qed.
Lemma sane_log f t : sane n t -> sane n (log f t).
Proof. by apply sane_same. Qed.
Lemma sane_changed x t : sane n t -> sane n (changed x t).
Proof. by apply sane_same. Qed.
Lemma sane_touched d k t : sane n t -> sane n (touched d k t).
Proof. by apply sane_same. Qed.
Lemma sane_notified ev k d t : sane n t -> sane n (notified ev k d t).
Proof. by apply sane_same. Qed.
Lemma sane_args l t : sane n t -> sane n (with_aargs l t).
Proof. by apply sane_same. Qed.
Lemma sane_sel d t : sane n t -> sane n (with_asel d t).
Proof. by apply sane_same. Qed.
Lemma sane_ready d k v t : sane n t -> sane n (made_ready d k v t).
Proof. apply sane_same. unfold made_ready. by case_bool_decide. Qed.

Lemma sane_db t d : sane n t -> forall k, entry_fits (dict (the_db d t) !! k, expires (the_db d t) !! k).
Proof. intros [_ Hs] k. apply (Hs d k). Qed.
Lemma sane_on_db d f t :
  (forall k db, (forall k, entry_fits (dict db !! k, expires db !! k)) -> entry_fits (dict (f db) !! k, expires (f db) !! k)) -> sane n t -> sane n (on_db d f t).
Proof.
  intros Hf [Hl Hs]. split; [cbn; by rewrite length_alter|]. intros d' k. destruct (decide (d' = d)) as [->|Hne]; [|rewrite entry_on_db_ne by done; apply Hs].
  unfold entry, value_of, expiry_of, the_db. cbn. rewrite list_lookup_alter_eq. destruct (adbs t !! d) as [db|] eqn:Ed; cbn; [|by split; cbn; intros ? ?%lookup_empty_Some].
  apply Hf. intros k'. specialize (Hs d k'). unfold entry, value_of, expiry_of, the_db in Hs. by rewrite Ed in Hs.
Qed.
Lemma sane_store d k v t : value_fits v -> sane n t -> sane n (store d k v t).
Proof. intros Hv. apply sane_on_db. intros k' db Hdb. split; cbn; [|apply Hdb]. intros v' [[_ <-]|[_ Hl]]%lookup_insert_Some; [done|]. by apply (Hdb k'). Qed.
Lemma sane_clear d k t : sane n t -> sane n (clear_expiry d k t).
Proof. apply sane_on_db. intros k' db Hdb. split; cbn; [apply Hdb|]. intros w [_ Hl]%lookup_delete_Some. by apply (Hdb k'). Qed.
Lemma sane_drop d k t : sane n t -> sane n (drop_key d k t).
Proof. apply sane_on_db. intros k' db Hdb. split; cbn; intros x [_ Hl]%lookup_delete_Some; by apply (Hdb k'). Qed.
Lemma sane_flush d t : sane n t -> sane n (on_db d (fun _ => no_keys) t).
Proof. apply sane_on_db. intros k' db _. by split; cbn; intros ? ?%lookup_empty_Some. Qed.
Lemma sane_expire e d k w t : time_fits w -> sane n t -> sane n (expire_at e d k w t).
Proof.
  intros Hw Hs. assert (sane n (on_db d (fun db => mk_db (dict db) (<[k := w]> (expires db))) t)) as Ht; [|unfold expire_at; destruct (_ && _); [by apply sane_log|done]].
  revert Hs. apply sane_on_db. intros k' db Hdb. split; cbn; [apply Hdb|]. intros w' [[_ <-]|[_ Hl]]%lookup_insert_Some; [done|]. by apply (Hdb k').
Qed.
Lemma sane_purge e d k t : sane n t -> sane n (purge e d k t).
Proof. intros Hs. unfold purge. destruct (_ && _); [|done]. by apply sane_drop, sane_notified, sane_log. Qed.
Lemma sane_replace e d k v t : value_fits v -> sane n t -> sane n (replace e d k v t).
Proof. intros Hv Hs. unfold replace. by apply sane_touched, sane_clear, sane_store, sane_purge. Qed.
Lemma sane_value d k v t : sane n t -> value_of d k t = Some v -> value_fits v.
Proof. intros [_ Hs] Hv. by apply (Hs d k). Qed.
Lemma sane_time d k t : sane n t -> time_fits (expiry_or d k t).
Proof. intros [_ Hs]. unfold expiry_or. destruct (expiry_of d k t) as [w|] eqn:Ew; [by apply (Hs d k)|]. cbn. unfold time_fits, time_limit, number_limit. lia. Qed.
Lemma sane_keep e d k w t : time_fits w -> sane n t -> sane n (keep_expiry e d k w t).
Proof. intros Hw Hs. unfold keep_expiry. destruct (_ =? _); [done|]. by apply sane_expire. Qed.
Lemma sane_fold {A} (f : ast -> A -> ast) l t : sane n t -> (forall t x, x ∈ l -> sane n t -> sane n (f t x)) -> sane n (foldl f t l).
Proof. revert t. induction l as [|x l IH]; intros t Ht Hf; cbn; [done|]. apply IH; [apply Hf; [left|done]|]. intros t' y Hy. apply Hf. by right. Qed.
Lemma sane_fold2 {A B} (f : B * ast -> A -> B * ast) l b t : sane n t -> (forall b t x, x ∈ l -> sane n t -> sane n (f (b, t) x).2) -> sane n (foldl f (b, t) l).2.
Proof.
  revert b t. induction l as [|x l IH]; intros b t Ht Hf; cbn [foldl]; [done|]. specialize (Hf b t x) as Hx. destruct (f (b, t) x) as [b' t'] eqn:Ef. apply IH.
  - apply Hx; [left|done].
  - intros b1 t1 y Hy. apply Hf. by right.
Qed.
End Sane.

Create HintDb sane.
#[export] Hint Resolve sane_say sane_shared sane_failed sane_log sane_changed sane_touched sane_notified sane_args sane_sel sane_ready sane_store sane_clear sane_drop sane_flush sane_purge sane_replace sane_keep sane_time sane_value : sane.

(** ** The commands *)

(** The clock, what can be allocated, and the arguments of a command. *)
Definition arg_fits (a : list Z) : Prop := zlen a <= string_limit /\ forall v, string2ll a = Some v -> - number_limit <= v <= number_limit.
Record tame (e : kenv) (args : list (list Z)) : Prop := mk_tame {
  t_now : 0 <= k_now e <= number_limit;
  t_alloc : forall m, 0 <= m <= string_limit -> k_alloc e m = true;
  t_args : Forall arg_fits args }.

Lemma limit_checked v : - time_limit <= v <= time_limit -> ll_checked v = Some v.
Proof. intros Hv. unfold time_limit, number_limit in Hv. unfold ll_checked, LLONG_MIN, LLONG_MAX. rewrite (proj2 (andb_true_iff _ _)); [done|]. split; apply Z.leb_le; lia. Qed.
Lemma too_long_exact m : 0 <= m < 2 ^ 62 -> too_long m = (string_limit <? m).
Proof. intros Hm. unfold too_long, string_limit. rewrite u64_small, s64_small by lia. done. Qed.
Lemma overwrite_at_length old offset v : 0 <= offset -> v <> [] -> zlen (overwrite_at old offset v) = Z.max (zlen old) (offset + zlen v).
Proof. intros Ho Hv. unfold overwrite_at. rewrite !length_app, length_take, length_drop, length_app, length_replicate. lia. Qed.
Lemma decimal_fits v : LLONG_MIN <= v <= LLONG_MAX -> value_fits (AString (decimal v)).
Proof. intros Hv. pose proof (decimal_length v Hv). cbn. unfold string_limit. lia. Qed.

Section Returns.
Context (n : nat) (e : kenv).
Definition returns (o : option ast) : Prop := exists t, o = Some t /\ sane n t.
Lemma returned t : sane n t -> returns (Some t).
Proof. intros Hs. by exists t. Qed.
Hint Resolve returned : sane.

Lemma karg_fits i t : Forall arg_fits (aargs t) -> arg_fits (karg i t).
Proof.
  intros Hf. unfold karg. destruct (aargs t !! i) as [a|] eqn:Ea; cbn; [by eapply (Forall_lookup_1 _ _ _ _ Hf)|]. split; [done|]. intros v. unfold string2ll. cbn. done.
Qed.
Lemma elem_fits l a : Forall arg_fits l -> a ∈ l -> value_fits (AString a).
Proof. intros Hf Ha. by apply (proj1 (Forall_forall _ _) Hf). Qed.
Lemma tail_fits l : Forall arg_fits l -> Forall arg_fits (tail l).
Proof. by intros [|]. Qed.

Lemma set_returns flags k v expire seconds okr abr t :
  tame e (aargs t) -> sane n t -> arg_fits v -> (forall bs, expire = Some bs -> arg_fits bs) -> returns (aset e flags k v expire seconds okr abr t).
Proof.
  intros Ht Hs [Hv _] Hx. assert (sane n (changed 1 (replace e (asel t) k (AString v) t))) as Hr by auto with sane. destruct (t_now _ _ Ht) as [Hn0 Hn]. unfold aset, time_arg.
  destruct expire as [bs|]; cbn [mbind option_bind]; [|destruct (_ || _); auto with sane]. destruct (string2ll bs) as [ms|] eqn:Ems; cbn [mbind option_bind]; [|auto with sane].
  apply (proj2 (Hx bs eq_refl)) in Ems. destruct (Z.leb_spec ms 0); cbn [mbind option_bind]; [auto with sane|]. unfold number_limit in *.
  assert (exists ms', (if seconds then inl <$> ll_checked (ms * 1000) else Some (inl ms)) = Some (inl ms' : Z + reply_item) /\ 0 < ms' <= 1000 * 2 ^ 53) as (ms' & -> & Hms').
  { destruct seconds; [|exists ms; split; [done|lia]]. rewrite limit_checked by (unfold time_limit, number_limit; lia). exists (ms * 1000). split; [done|lia]. }
  cbn [mbind option_bind]. destruct (_ || _); [auto with sane|]. rewrite limit_checked by (unfold time_limit, number_limit; lia). cbn [mbind option_bind].
  apply returned, sane_shared, sane_notified, sane_notified, sane_expire; [unfold time_fits, time_limit, number_limit; lia|done].
Qed.
Lemma SET_returns t : tame e (aargs t) -> sane n t -> returns (aSET e t).
Proof.
  intros Ht Hs. unfold aSET. destruct (set_options _ _ _ _ _) as [[[flags seconds] expire]|]; [|auto with sane]. apply set_returns; [done..|apply karg_fits, Ht|].
  intros bs Hbs. destruct expire; [|done]. injection Hbs as <-. apply karg_fits, Ht.
Qed.
Lemma get_sane t : sane n t -> sane n (aget e t).
Proof. intros Hs. unfold aget. cbn zeta. auto with sane. Qed.
Lemma getset_sane t : tame e (aargs t) -> sane n t -> sane n (agetset e t).
Proof.
  intros Ht Hs. unfold agetset. cbn zeta. destruct (is_other _); [by apply get_sane|]. apply sane_changed, sane_notified, sane_replace; [|by apply get_sane]. apply (karg_fits 2 t (t_args _ _ Ht)).
Qed.
Lemma setrange_returns t : tame e (aargs t) -> sane n t -> returns (asetrange e t).
Proof.
  intros Ht Hs. unfold asetrange. destruct (string2ll (karg 2 t)) as [off|] eqn:Eo; [|auto with sane]. apply (proj2 (karg_fits 2 t (t_args _ _ Ht))) in Eo. destruct (Z.ltb_spec off 0); [auto with sane|]. cbn zeta.
  destruct (karg_fits 3 t (t_args _ _ Ht)) as [Hv _]. set (v := karg 3 t) in *. set (t1 := purge e (asel t) (karg 1 t) t). assert (sane n t1) as Hs1 by (unfold t1; auto with sane).
  assert (forall o, (forall bs, o = Some (AString bs) -> zlen bs <= string_limit) -> is_other o = false ->
    let old := match o with Some (AString s) => s | _ => [] end in 0 <= zlen old <= string_limit) as Hold.
  { intros o Ho Hno old. unfold old. destruct o as [[bs|]|]; [|done|]; [split; [lia|by apply Ho]|done]. }
  assert (forall o, (forall bs, o = Some (AString bs) -> zlen bs <= string_limit) -> is_other o = false -> forall old, old = match o with Some (AString s) => s | _ => [] end ->
    returns (if bool_decide (v = []) then Some (say (RLongLong (zlen old)) t1)
      else if too_long (off + zlen v) then Some (failed "string exceeds maximum allowed size (512MB)" t1)
      else if (bool_decide (o = None) || (zlen old <? u64 (off + zlen v))) && negb (k_alloc e (u64 (off + zlen v))) then None
      else if Z.max (zlen old) (u64 (off + zlen v)) <? off + zlen v then None
      else Some (say (RLongLong (zlen (overwrite_at old off v))) (changed 1 (notified "setrange" (karg 1 t) (asel t) (touched (asel t) (karg 1 t) (store (asel t) (karg 1 t) (AString (overwrite_at old off v)) t1))))))) as Hmain.
  { intros o Ho Hno old ->. specialize (Hold o Ho Hno). cbn zeta in Hold. set (old := match o with Some (AString s) => s | _ => [] end) in *. case_bool_decide as Hv0; [auto with sane|]. assert (0 <= zlen v) by (lia).
    unfold string_limit, number_limit in *. rewrite too_long_exact by lia. unfold string_limit. destruct (Z.ltb_spec (512 * 1024 * 1024) (off + zlen v)); [auto with sane|]. rewrite u64_small by lia.
    rewrite (t_alloc _ _ Ht) by (unfold string_limit; lia). rewrite andb_false_r, (proj2 (Z.ltb_ge _ _)) by lia.
    apply returned, sane_say, sane_changed, sane_notified, sane_touched, sane_store; [|done]. cbn. rewrite overwrite_at_length by (done || lia). unfold string_limit. lia. }
  destruct (value_of _ _ _) as [[bs|ty x]|] eqn:Ev.
  - apply (Hmain (Some (AString bs))); [|done..]. intros bs' [= ->]. apply (sane_value _ _ _ _ _ Hs1 Ev).
  - auto with sane.
  - by apply (Hmain None).
Qed.
Lemma getrange_sane t : sane n t -> sane n (agetrange e t).
Proof. intros Hs. unfold agetrange. destruct (string2ll _); [|auto with sane]. destruct (string2ll _); auto with sane. Qed.
Lemma mget_sane t : sane n t -> sane n (amget e t).
Proof. intros Hs. unfold amget. cbn zeta. apply sane_fold; auto with sane. Qed.
Lemma pairs_fit l k v : Forall arg_fits l -> (k, v) ∈ pairs l -> value_fits (AString v).
Proof.
  intros Hf. assert (forall m, (length l <= m)%nat -> (k, v) ∈ pairs l -> v ∈ l) as Hin; [|intros Hkv; apply (elem_fits l); [done|by apply (Hin (length l))]].
  clear Hf. intros m. revert l. induction m as [|m IH]; intros [|a [|b l]] Hm; cbn in *; try (by intros []%not_elem_of_nil); [lia|]. rewrite !elem_of_cons. intros [[= <- <-]|Hkv]; [tauto|]. right. right. apply IH; [lia|done].
Qed.
Lemma any_there_sane d l t : sane n t -> sane n (any_there e d l t).2.
Proof. revert t. induction l as [|k l IH]; intros t Hs; cbn; [done|]. case_bool_decide; cbn; auto with sane. Qed.
Lemma mset_sane nx t : tame e (aargs t) -> sane n t -> sane n (amset e nx t).
Proof.
  intros Ht Hs. unfold amset. destruct (_ =? _)%nat; [auto with sane|]. cbn zeta. set (l := pairs (tail (aargs t))).
  assert (sane n (if nx then any_there e (asel t) l.*1 t else (false, t)).2) as Hs1 by (destruct nx; [by apply any_there_sane|done]).
  destruct (if nx then _ else _) as [[] t1]; cbn in Hs1; [auto with sane|]. apply sane_shared, sane_changed, sane_fold; [done|]. intros t' [k v] Hkv Hs'. apply sane_notified, sane_replace; [|done].
  eapply (pairs_fit (tail (aargs t))); [|done]. apply tail_fits, Ht.
Qed.
Lemma incr_sane x t : sane n t -> sane n (aincr e x t).
Proof.
  intros Hs. unfold aincr. cbn zeta. set (t1 := purge e (asel t) (karg 1 t) t). assert (sane n t1) as Hs1 by (unfold t1; auto with sane). assert (forall o, sane n match o with
    | None => failed not_integer t1
    | Some y => if (LLONG_MIN <=? y + x) && (y + x <=? LLONG_MAX) then
        say (RLongLong (y + x)) (changed 1 (notified "incrby" (karg 1 t) (asel t) (touched (asel t) (karg 1 t) (store (asel t) (karg 1 t) (AString (decimal (y + x))) t1))))
      else failed "increment or decrement would overflow" t1 end) as Hm.
  { intros [y|]; [|auto with sane]. destruct (_ && _) eqn:Eb; [|auto with sane]. apply sane_say, sane_changed, sane_notified, sane_touched, sane_store; [|done]. apply decimal_fits. lia. }
  destruct (value_of _ _ _) as [[bs|]|]; [apply Hm|auto with sane|apply (Hm (Some 0))].
Qed.
Lemma append_returns t : tame e (aargs t) -> sane n t -> returns (aappend e t).
Proof.
  intros Ht Hs. unfold aappend. cbn zeta. destruct (karg_fits 2 t (t_args _ _ Ht)) as [Hv _]. set (t1 := purge e (asel t) (karg 1 t) t). assert (sane n t1) as Hs1 by (unfold t1; auto with sane).
  destruct (value_of _ _ _) as [[old|]|] eqn:Ev; [|auto with sane|apply returned; auto 6 with sane]. apply (sane_value _ _ _ _ _ Hs1) in Ev. cbn in Ev. unfold string_limit in *.
  rewrite too_long_exact by lia. destruct (Z.ltb_spec string_limit (zlen old + zlen (karg 2 t))); [auto with sane|]. rewrite (t_alloc _ _ Ht) by lia.
  apply returned, sane_say, sane_changed, sane_notified, sane_touched, sane_store; [|done]. cbn. rewrite length_app. lia.
Qed.
Lemma flushdb_sane t : sane n t -> sane n (aflushdb t).
Proof. intros Hs. unfold aflushdb. destruct (negb _); auto with sane. Qed.
Lemma flushall_sane t : sane n t -> sane n (aflushall e t).
Proof.
  intros Hs. unfold aflushall. destruct (negb _); [auto with sane|]. cbn zeta. assert (sane n (with_adbs ((fun _ => no_keys) <$> adbs t) t)) as Hf.
  { split; [cbn; rewrite length_fmap; apply Hs|]. intros d k. unfold entry, value_of, expiry_of, the_db. cbn. rewrite list_lookup_fmap. destruct (adbs t !! d); cbn; by split; cbn; intros ? ?%lookup_empty_Some. }
  apply sane_changed. destruct (k_saveparams e); [apply sane_log|]; by apply sane_shared, sane_changed, sane_log.
Qed.
Lemma del_sane t : sane n t -> sane n (adel e t).
Proof.
  intros Hs. unfold adel. cbn zeta. match goal with |- context [foldl ?f _ _] => pose proof (sane_fold2 n f (tail (aargs t)) 0 t Hs) as Hf end.
  destruct (foldl _ _ _) as [x t1]; cbn [snd] in Hf. apply sane_say, Hf. intros b t' k _ Ht'. cbn. case_bool_decide; cbn; auto 6 with sane.
Qed.
Lemma exists_sane t : sane n t -> sane n (aexists e t).
Proof.
  intros Hs. unfold aexists. cbn zeta. match goal with |- context [foldl ?f _ _] => pose proof (sane_fold2 n f (tail (aargs t)) 0 t Hs) as Hf end.
  destruct (foldl _ _ _) as [x t1]; cbn [snd] in Hf. apply sane_say, Hf. intros b t' k _ Ht'. cbn. auto with sane.
Qed.
Lemma select_sane t : sane n t -> sane n (aselect e t).
Proof. intros Hs. unfold aselect. destruct (string2ll _); [|auto with sane]. destruct (k_cluster e && _); [auto with sane|]. destruct (_ && _); auto with sane. Qed.
Lemma rename_sane nx t : sane n t -> sane n (arename e nx t).
Proof.
  intros Hs. unfold arename. cbn zeta. set (t1 := purge e (asel t) (karg 1 t) t). assert (sane n t1) as Hs1 by (unfold t1; auto with sane). destruct (value_of _ _ t1) as [v|] eqn:Ev; [|auto with sane].
  case_bool_decide; [auto with sane|]. destruct (_ && _); [auto with sane|]. apply sane_shared, sane_changed, sane_notified, sane_notified, sane_touched, sane_touched, sane_drop, sane_keep; [by apply (sane_time n)|].
  apply sane_ready, sane_store; [by apply (sane_value _ _ _ _ _ Hs1 Ev)|]. auto with sane.
Qed.
Lemma move_sane t : sane n t -> sane n (amove e t).
Proof.
  intros Hs. unfold amove. destruct (k_cluster e); [auto with sane|]. cbn zeta. destruct (string2ll _) as [id|]; [|auto with sane]. destruct (_ && _); [|auto with sane]. case_bool_decide; [auto with sane|].
  set (t1 := purge e (asel t) (karg 1 t) t). assert (sane n t1) as Hs1 by (unfold t1; auto with sane). destruct (value_of _ _ t1) as [v|] eqn:Ev; [|auto with sane]. case_bool_decide; [auto with sane|].
  apply sane_shared, sane_changed, sane_drop, sane_keep; [by apply (sane_time n)|]. apply sane_ready, sane_store; [by apply (sane_value _ _ _ _ _ Hs1 Ev)|]. auto with sane.
Qed.
Lemma ready_lists_sane d t : sane n t -> sane n (ready_lists e d t).
Proof. intros Hs. unfold ready_lists. apply sane_fold; [done|]. intros t' k _ Ht'. destruct (value_of _ _ _); [|done]. case_bool_decide; auto with sane. Qed.
Lemma swapdb_sane t : sane n t -> sane n (aswapdb e t).
Proof.
  intros Hs. unfold aswapdb. destruct (k_cluster e); [auto with sane|]. destruct (string2ll _) as [i|]; [|auto with sane]. destruct (string2ll _) as [j|]; [|auto with sane]. cbn zeta.
  destruct (_ && _); [|auto with sane]. apply sane_shared, sane_changed. destruct (_ =? _); [done|]. apply ready_lists_sane, ready_lists_sane. destruct Hs as [Hl Hs]. split; [cbn; by rewrite !length_insert|].
  intros d k. assert (exists d', the_db d (with_adbs (<[Z.to_nat (s32 j) := the_db (Z.to_nat (s32 i)) t]> (<[Z.to_nat (s32 i) := the_db (Z.to_nat (s32 j)) t]> (adbs t))) t) = the_db d' t) as [d' Hd'].
  { unfold the_db at 1. cbn. destruct (<[_ := _]> (<[_ := _]> (adbs t)) !! d) as [db|] eqn:Ed; cbn; [|exists d; unfold the_db; apply lookup_ge_None in Ed; rewrite !length_insert in Ed; by rewrite (lookup_ge_None_2 _ _ Ed)].
    apply list_lookup_insert_Some in Ed as [(_ & <- & _)|[_ [(_ & <- & _)|[_ Ed]]%list_lookup_insert_Some]]; [by eexists..|]. exists d. unfold the_db. by rewrite Ed. }
  unfold entry, value_of, expiry_of. rewrite Hd'. apply (Hs d' k).
Qed.
Lemma expire_returns basetime seconds t : tame e (aargs t) -> 0 <= basetime <= number_limit -> sane n t -> returns (aexpire e basetime seconds t).
Proof.
  intros Ht Hb Hs. unfold aexpire. cbn zeta. destruct (string2ll (karg 2 t)) as [w|] eqn:Ew; [|auto with sane]. apply (proj2 (karg_fits 2 t (t_args _ _ Ht))) in Ew.
  assert (exists w', (if seconds then ll_checked (w * 1000) else Some w) = Some w' /\ - 1000 * number_limit <= w' <= 1000 * number_limit) as (w' & -> & Hw').
  { unfold number_limit in *. destruct seconds; [|exists w; split; [done|lia]]. rewrite limit_checked by (unfold time_limit, number_limit; lia). exists (w * 1000). split; [done|lia]. }
  cbn [mbind option_bind]. assert (- time_limit <= w' + basetime <= time_limit) as Hl by (unfold time_limit, number_limit in *; lia). rewrite limit_checked by done. cbn [mbind option_bind].
  destruct (value_of _ _ _); [|auto with sane]. apply returned. destruct (_ && _); [auto 8 with sane|]. apply sane_changed, sane_notified, sane_touched, sane_shared, sane_expire; [done|auto with sane].
Qed.
Lemma ttl_returns ms t : tame e (aargs t) -> sane n t -> returns (attl e ms t).
Proof.
  intros Ht Hs. unfold attl. cbn zeta. destruct (visible _ _ _ _); [|auto with sane]. pose proof (sane_time n (asel t) (karg 1 t) t Hs) as Hw. destruct (_ =? _); [auto with sane|]. destruct (t_now _ _ Ht) as [Hn0 Hn].
  unfold time_fits, time_limit, number_limit in *. assert (forall v, - 1002 * 2 ^ 53 <= v <= 1002 * 2 ^ 53 -> ll_checked v = Some v) as Hc.
  { intros v Hv. unfold ll_checked, LLONG_MIN, LLONG_MAX. rewrite (proj2 (andb_true_iff _ _)); [done|]. split; apply Z.leb_le; lia. }
  rewrite Hc by lia. cbn [mbind option_bind]. destruct ms; cbn [mbind option_bind]; [auto with sane|]. rewrite Hc by lia. cbn [mbind option_bind]. auto with sane.
Qed.
Lemma persist_sane t : sane n t -> sane n (apersist e t).
Proof. intros Hs. unfold apersist. cbn zeta. destruct (value_of _ _ _); [|auto with sane]. destruct (expiry_of _ _ _); auto with sane. Qed.

Lemma exec_returns c t : tame e (aargs t) -> sane n t -> returns (aexec e c t).
Proof.
  intros Ht Hs. pose proof (fun i => karg_fits i t (t_args _ _ Ht)) as Hk.
  destruct c; cbn [aexec];
    try apply returned; auto using SET_returns, setrange_returns, append_returns, ttl_returns, get_sane, getset_sane, getrange_sane, mget_sane, mset_sane, incr_sane, flushdb_sane, flushall_sane, del_sane, exists_sane,
      select_sane, rename_sane, move_sane, swapdb_sane, persist_sane with sane.
  - apply set_returns; auto. done.
  - apply set_returns; auto. by intros bs [= <-].
  - apply set_returns; auto. by intros bs [= <-].
  - unfold aincrby. destruct (string2ll _); auto using incr_sane with sane.
  - unfold adecrby. destruct (string2ll (karg 2 t)) as [x|] eqn:Ex; [|auto with sane]. apply (proj2 (Hk 2%nat)) in Ex. rewrite limit_checked by (unfold time_limit, number_limit in *; lia). cbn [mbind option_bind]. auto using incr_sane with sane.
  - unfold astrlen. cbn zeta. auto with sane.
  - unfold atype_command. cbn zeta. auto with sane.
  - apply expire_returns; [done|apply Ht|done].
  - apply expire_returns; [done| |done]. unfold number_limit. lia.
  - apply expire_returns; [done|apply Ht|done].
  - apply expire_returns; [done| |done]. unfold number_limit. lia.
Qed.
End Returns.

(** ** Runs *)

Definition event_tame (n : nat) (ev : kevent) : Prop :=
  match ev with Command e _ args => tame e args | Client d => (d < n)%nat | Cycle _ _ _ | Create _ _ _ _ => True end.
Lemma start_sane n : sane n (astart n).
Proof.
  split; [apply length_replicate|]. intros d k. unfold entry, value_of, expiry_of, the_db. cbn. destruct (replicate n no_keys !! d) as [db|] eqn:Ed; cbn.
  - apply lookup_replicate in Ed as [-> _]. by split; cbn; intros ? ?%lookup_empty_Some.
  - by split; cbn; intros ? ?%lookup_empty_Some.
Qed.
Lemma step_returns n ev t : event_tame n ev -> sane n t -> exists t', astep ev t = Some t' /\ sane n t'.
Proof.
  intros He Hs. destruct ev as [e c args|d|d k now|d k ty v]; cbn [astep event_tame] in *.
  - destruct (arity_ok c (length args)); cbn [mbind option_bind].
    + destruct (exec_returns n e c (with_aargs args t) He ltac:(auto with sane)) as (t1 & -> & Hs1). cbn [mbind option_bind]. eexists. split; [done|]. auto with sane.
    + eexists. split; [done|]. auto with sane.
  - destruct Hs as [Hl Hs]. rewrite Hl, (proj2 (Nat.ltb_lt _ _)) by done. eexists. split; [done|]. apply sane_sel. by split.
  - eexists. split; [done|]. unfold acycle. destruct (expiry_of d k t); [|done]. destruct (_ <? _); [|done]. by apply sane_notified, sane_drop, sane_log.
  - eexists. split; [done|]. destruct (_ && _); [|done]. by apply sane_ready, sane_store.
Qed.

(** C10: no command aborts.  In a run in which the clock and the numbers among the arguments are at most 2^53 in absolute value, no argument is longer than 512 megabytes, strings up to that length can be
    allocated and clients use databases that exist, every command of KeyCommands returns: no assertion or panic is reached, no freed object is used and no signed number overflows in the computations of the command itself; and no string value is
    longer than 512 megabytes.  The replies are recorded as calls of the functions of [Reply]; queueing the number -2^63, to which enough decrements lead, overflows there (item_ok of [Reply] excludes it). *)
Theorem commands_return n l :
  (0 < n)%nat -> Forall (event_tame n) l -> exists s, krun l (kstart n) = Some ((), s) /\ forall d k bs, (kentry d k s).1 = Some (AString bs) -> zlen bs <= string_limit.
Proof.
  intros Hn Hl. assert (forall t, sane n t -> exists t', arun l t = Some t' /\ sane n t') as Hr.
  { induction Hl as [|ev l He Hl IH]; intros t Hs; [by exists t|]. destruct (step_returns n ev t He Hs) as (t1 & E1 & Hs1). cbn [arun]. rewrite E1. by apply IH. }
  pose proof (run_between l _ _ (start_between n Hn)) as Hb. unfold related_run in Hb. destruct (Hr (astart n) (start_sane n)) as (t & Ht & Hs). rewrite Ht in Hb. destruct Hb as (s & E & Hb & _).
  exists s. split; [done|]. intros d k bs. rewrite (kentry_abs _ _ _ _ d k Hb). apply (sane_value n d k (AString bs) t Hs).
Qed.

(** ** Examples *)

Definition small_run : list kevent := [cmd 5 SETEX ["setex"; "k"; "10"; "12"]; cmd 6 DECRBY ["decrby"; "k"; "20"]; Client 1; cmd 7 SETRANGE ["setrange"; "k"; "3"; "x"]; cmd 8 TTL ["ttl"; "k"]]%string.
Lemma small_env args now : 0 <= now <= 100 -> Forall arg_fits args -> tame (demo_env now) args.
Proof. intros Hn Ha. split; [cbn; unfold number_limit; lia| |done]. intros m Hm. cbn. unfold string_limit in Hm. lia. Qed.
Lemma small_arg s : zlen (str s) <= string_limit -> match string2ll (str s) with Some v => (- number_limit <=? v) && (v <=? number_limit) | None => true end = true -> arg_fits (str s).
Proof. intros Hl Hv. split; [done|]. intros v E. rewrite E in Hv. lia. Qed.
Lemma commands_return_witness : exists s, krun small_run (kstart 2) = Some ((), s) /\ forall d k bs, (kentry d k s).1 = Some (AString bs) -> zlen bs <= string_limit.
Proof.
  apply (commands_return 2 small_run); [lia|]. unfold small_run.
  repeat (apply Forall_cons_2; [first [cbn [event_tame]; lia | apply small_env; [lia|]; cbn [fmap list_fmap]; repeat (apply Forall_cons_2; [apply small_arg; [vm_compute; discriminate | vm_compute; reflexivity]|]); apply Forall_nil_2]|]).
  apply Forall_nil_2.
Defined.

(** The bounds are needed: a number near the limits of its type makes the negation of DECRBY, the multiplication of SETEX or the sum of PEXPIRE overflow, and an offset near the limit passes the check of the length of SETRANGE,
    which compares a sum that has wrapped around to a negative number. *)
Example commands_overflow :
  krun [cmd 5 DECRBY ["decrby"; "k"; "-9223372036854775808"]]%string (kstart 1) = None /\
  krun [cmd 5 SETEX ["setex"; "k"; "9223372036854775807"; "v"]]%string (kstart 1) = None /\
  krun [cmd 5 PEXPIRE ["pexpire"; "k"; "9223372036854775807"]]%string (kstart 1) = None /\
  krun [cmd 5 SET ["set"; "k"; "v"]; cmd 5 SETRANGE ["setrange"; "k"; "9223372036854775807"; "xx"]]%string (kstart 1) = None /\
  is_Some (krun [cmd 5 SETRANGE ["setrange"; "k"; "9223372036854775806"; "x"]]%string (kstart 1)).
Proof. split_and!; vm_compute; try reflexivity. by eexists. Qed.
(** Database numbers are longs that are passed as ints. *)
Example select_wraps : (fun p => (seldb p.2, wire (kreplies p.2))) <$> krun [cmd 5 SELECT ["select"; "4294967297"]]%string (kstart 2) = Some (1%nat, line "+OK").
Proof. vm_compute. reflexivity. Qed.
(** PERSIST, MOVE and SWAPDB change what keys hold without the signal. *)
Example unsignalled :
  (fun p => (kentry 0 (str "k") p.2, signals (rep p.2))) <$> krun [cmd 5 PSETEX ["psetex"; "k"; "9"; "v"]; cmd 6 PERSIST ["persist"; "k"]]%string (kstart 2) = Some ((Some (AString (str "v")), None), [(0%nat, str "k")]) /\
  (fun p => (kentry 0 (str "k") p.2, kentry 1 (str "k") p.2, signals (rep p.2))) <$> krun [cmd 5 SET ["set"; "k"; "v"]; cmd 6 MOVE ["move"; "k"; "1"]]%string (kstart 2) = Some ((None, None), (Some (AString (str "v")), None), [(0%nat, str "k")]) /\
  (fun p => (kentry 0 (str "k") p.2, kentry 1 (str "k") p.2, signals (rep p.2), flushed (rep p.2))) <$> krun [cmd 5 SET ["set"; "k"; "v"]; cmd 6 SWAPDB ["swapdb"; "0"; "1"]]%string (kstart 2)
    = Some ((None, None), (Some (AString (str "v")), None), [(0%nat, str "k")], []).
Proof. split_and!; vm_compute; reflexivity. Qed.
