(* ===== verification/KeyspaceAof.v ===== *)
(** * The key space and the append only file (call and propagate of src/redis-stable/src/server.c)

    What a command and the expiry of keys send to the append only file, a server that keeps the file, and a server that loads it.  The lemmas at the end compare the two readings of the options of SET: setCommand skips the
    argument after EX and PX, the writer of the file looks at every argument, and they find the same time. *)
From stdpp Require Import prelude list gmap strings.
From Stdlib Require Import ZArith Lia.
From S2P Require Import Prelude Util SdsText Rio Rdb Reply Resp Aof Keyspace KeyCommands KeyspaceAbs KeyspaceInv KeyspaceRel KeyspaceRefine KeyspaceKeys KeyspaceFrame KeyspaceSpec.

Local Open Scope Z_scope.
Local Open Scope redis_scope.

#[local] Arguments str : simpl never.
#[local] Arguments ll_checked : simpl never.

(** ** The model *)

Definition command_names : list (string * kcmd) :=
  [("get", GET); ("set", SET); ("setnx", SETNX); ("setex", SETEX); ("psetex", PSETEX); ("append", APPEND); ("strlen", STRLEN); ("del", DEL); ("unlink", UNLINK); ("exists", EXISTS); ("incr", INCR); ("decr", DECR);
   ("mget", MGET); ("setrange", SETRANGE); ("getrange", GETRANGE); ("incrby", INCRBY); ("decrby", DECRBY); ("getset", GETSET); ("mset", MSET); ("msetnx", MSETNX); ("select", SELECT); ("swapdb", SWAPDB); ("move", MOVE);
   ("rename", RENAME); ("renamenx", RENAMENX); ("expire", EXPIRE); ("expireat", EXPIREAT); ("pexpire", PEXPIRE); ("pexpireat", PEXPIREAT); ("dbsize", DBSIZE); ("type", TYPE); ("ttl", TTL); ("touch", TOUCH); ("pttl", PTTL);
   ("persist", PERSIST); ("flushdb", FLUSHDB); ("flushall", FLUSHALL)]%string.
(** The keys of server.commands are compared without case. *)
Definition lookupCommand (name : list Z) : option kcmd := snd <$> List.find (fun p => strcaseeq name (str p.1)) command_names.
(** cmd->proc, as far as the append only file distinguishes it. *)
Definition proc_of (c : kcmd) : command_proc :=
  match c with
  | EXPIRE => expireCommand | PEXPIRE => pexpireCommand | EXPIREAT => expireatCommand | SETEX => Aof.setexCommand | PSETEX => Aof.psetexCommand | SET => Aof.setCommand
  | _ => otherCommand
  end.

(** propagateExpire: the command for a key that has expired. *)
Definition expire_call (lazy : bool) (x : nat * key) : logged_call :=
  mk_call 0 otherCommand (Z.of_nat x.1) [createStringObject (str (if lazy then "UNLINK" else "DEL")); createStringObject x.2].
Definition new_expirations (r r' : report) : list (nat * key) := drop (length (expirations r)) (expirations r').
(** What is sent to the file for a command with the time of the call: the keys that expired while it was executed, and then the command
    with the arguments it has left in c->argv, when server.dirty has grown.  c->cmd is the command that c->argv[0] names. *)
Definition calls_of (lazy : bool) (now : Z) (r r' : report) (d : nat) (argv : list string_obj) : list logged_call :=
  (expire_call lazy <$> new_expirations r r') ++
  (if dirty r <? dirty r' then [mk_call now (default otherCommand (proc_of <$> ((obj_bytes <$> head argv) ≫= lookupCommand))) (Z.of_nat d) argv] else []).
Definition arg_objects : K (list string_obj) := fun s => (fun l => (l, s)) <$> mapM (fun a => o ← obj_at (heap s) a; string_of (val o)) (kargv s).
Definition get_report : K report := fun s => Some (rep s, s).
Definition call (e : kenv) (c : kcmd) : K (list logged_call) :=
  r ← get_report; exec e c;; argv ← arg_objects; r' ← get_report; d ← cdb; mret (calls_of (k_lazy_expire e) (k_logged e) r r' d argv).
(** One event of a server that keeps an append only file. *)
Definition lstep (lazy : bool) (ev : kevent) : K (list logged_call) :=
  match ev with
  | Command e c args =>
    load_args args;;
    l ← (if arity_ok c (length args) then call e c
         else replyK (RErrorFormat (str "wrong number of arguments for '" ++ k_cmd_name e ++ str "' command"));; mret []);
    freeClientArgv;; mret l
  | _ => r ← get_report; kstep ev;; r' ← get_report; mret (expire_call lazy <$> new_expirations r r')
  end.
Fixpoint lrun (lazy : bool) (l : list kevent) : K (list logged_call) :=
  match l with [] => mret [] | ev :: l => a ← lstep lazy ev; b ← lrun lazy l; mret (a ++ b) end.

(** The arguments of a command of the file, which are objects with raw strings, and the command in the context of the fake client: cmd->proc is called without a check of the arity. *)
Fixpoint load_file_args (l : list (list Z)) : K () :=
  match l with
  | [] => mret ()
  | bs :: l => a ← createObject (VString (ObjRaw bs)); change (fun s => with_kargv (kargv s ++ [a]) s);; load_file_args l
  end.
Definition load_proc (el : kenv) (args : list (list Z)) : K () := c ← liftK (lookupCommand (hd [] args)); load_file_args args;; exec el c;; freeClientArgv.
(** A server that loads: none of the commands opens a transaction, and nothing is loaded after a crash. *)
Definition load_file (el : kenv) (max_alloc : Z) (truncated truncate_ok : bool) (preamble : list Z -> option ks -> bool * option ks + option ks * list Z) (s : ks) (file : list Z) : option (@load_result (option ks)) :=
  loadAppendOnlyFile max_alloc (fun name => bool_decide (is_Some (lookupCommand name))) (strcaseeq (str "multi")) (strcaseeq (str "exec"))
    (fun args x => s ← x; snd <$> load_proc el args s) (fun _ x => x) (fun _ => false) truncated truncate_ok preamble (Some s) file.

(** ** The options of SET *)

Lemma option_is_caseeq a x y : 97 <= x <= 122 -> 97 <= y <= 122 -> option_is a x y = Aof.strcaseeq a [x; y].
Proof.
  intros Hx Hy. unfold option_is, Aof.strcaseeq. assert (to_lower_char <$> c_string [x; y] = [x; y]) as ->.
  { assert (forall z, 97 <= z <= 122 -> (z =? 0) = false /\ to_lower_char z = z) as Hz by (intros z Hz; unfold to_lower_char; destruct (Z.leb_spec z 90); split; [lia| |lia|]; by rewrite ?andb_false_r; lia).
    destruct (Hz x Hx) as [E1 E1'], (Hz y Hy) as [E2 E2']. cbn. rewrite E1. cbn. rewrite E2. cbn. by rewrite E1', E2'. }
  change tolower with to_lower_char. assert (forall z, to_lower_char z = x \/ to_lower_char z = y -> (z =? 0) = false) as Hnz by (intros z Hz; unfold to_lower_char in Hz; destruct (Z.eqb_spec z 0) as [->|]; [cbn in Hz; lia|done]).
  destruct a as [|a [|b r]]; cbn [app].
  - symmetry. by apply bool_decide_eq_false_2.
  - destruct (a =? 0) eqn:Ea; cbn [c_string]; rewrite Ea; symmetry; by apply bool_decide_eq_false_2.
  - cbn [c_string]. destruct (a =? 0) eqn:Ea; [|destruct (b =? 0) eqn:Eb].
    + rewrite bool_decide_eq_false_2 by done. destruct (Z.eqb_spec (to_lower_char a) x) as [Hax|]; [|by destruct r]. rewrite Hnz in Ea by tauto. done.
    + rewrite bool_decide_eq_false_2 by done. destruct (Z.eqb_spec (to_lower_char b) y) as [Hby|]; [|by destruct r; rewrite andb_false_r]. rewrite Hnz in Eb by tauto. done.
    + destruct r as [|z r]; cbn [app c_string fmap list_fmap]; [|destruct (z =? 0) eqn:Ez]; cbn [fmap list_fmap].
      * rewrite andb_true_r. destruct (Z.eqb_spec (to_lower_char a) x), (Z.eqb_spec (to_lower_char b) y); cbn; symmetry; (apply bool_decide_eq_true_2 || apply bool_decide_eq_false_2); congruence.
      * rewrite andb_true_r. destruct (Z.eqb_spec (to_lower_char a) x), (Z.eqb_spec (to_lower_char b) y); cbn; symmetry; (apply bool_decide_eq_true_2 || apply bool_decide_eq_false_2); congruence.
      * rewrite andb_false_r. symmetry. by apply bool_decide_eq_false_2.
Qed.
Lemma decimal_chars v : Forall (fun c => c = 45 \/ 48 <= c <= 57) (decimal v).
Proof.
  unfold decimal. destruct (Z.ltb_spec v 0); [constructor; [by left|]|]; (eapply Forall_impl; [apply dec_digits; lia|]); cbn; intros; lia.
Qed.
(** A number is not an option. *)
Lemma integer_no_option bs v x y : string2ll bs = Some v -> 97 <= x <= 122 -> option_is bs x y = false.
Proof.
  intros [_ ->]%string2ll_iff Hx. unfold option_is. pose proof (decimal_chars v) as Hd. destruct (decimal v) as [|a r]; [done|]. apply Forall_inv in Hd. cbn [app].
  destruct (r ++ [0]) as [|b [|z r']]; [done..|]. destruct (Z.eqb_spec (tolower a) x) as [Ha|]; [|done]. unfold tolower in Ha. destruct (Z.leb_spec 65 a); cbn in Ha; lia.
Qed.

(** How the append only file passes over an argument. *)
Lemma option_once a x y x' y' : option_is a x y = true -> x <> x' -> option_is a x' y' = false.
Proof.
  intros Hxy Hne. unfold option_is in *. destruct (a ++ [0]) as [|a0 [|b0 [|c0 r0]]]; [done..|]. destruct (Z.eqb_spec (tolower a0) x) as [Hx|]; [|done]. destruct (Z.eqb_spec (tolower a0) x'); [congruence|done].
Qed.
Lemma aof_option a l ex px :
  Aof.set_options (ObjRaw a :: l) ex px = (ex0 ← (if option_is a 101 120 then Some <$> head l else Some ex); px0 ← (if option_is a 112 120 then Some <$> head l else Some px); Aof.set_options l ex0 px0).
Proof. cbn [Aof.set_options ptr_chars mbind option_bind]. change (str "ex") with [101; 120]. change (str "px") with [112; 120]. by rewrite <-!option_is_caseeq by lia. Qed.
Lemma aof_skip a l ex px : option_is a 101 120 = false -> option_is a 112 120 = false -> Aof.set_options (ObjRaw a :: l) ex px = Aof.set_options l ex px.
Proof. intros H1 H2. by rewrite aof_option, H1, H2. Qed.
(** With a further argument there is always a result. *)
Lemma aof_any a b l ex px : exists ex0 px0, Aof.set_options (ObjRaw a :: b :: l) ex px = Aof.set_options (b :: l) ex0 px0.
Proof. rewrite aof_option. cbn [head fmap option_fmap option_map]. destruct (option_is a 101 120), (option_is a 112 120); by eexists _, _. Qed.
(** A time with its number. *)
Lemma aof_time a b l ex px (seconds : bool) :
  option_is a (if seconds then 101 else 112) 120 = true -> is_Some (string2ll b) ->
  Aof.set_options (ObjRaw a :: ObjRaw b :: l) ex px = if seconds then Aof.set_options l (Some (ObjRaw b)) px else Aof.set_options l ex (Some (ObjRaw b)).
Proof.
  intros Ha [v Hb]. rewrite aof_option. cbn [head fmap option_fmap option_map].
  destruct seconds; rewrite Ha, (option_once _ _ _ _ _ Ha) by lia; cbn [mbind option_bind]; apply aof_skip; by eapply integer_no_option; [|lia].
Qed.

(** The last time among the options, as the command and as the append only file find it. *)
Definition found_time (l : list (list Z)) (j : nat) (seconds' : bool) (expire' : option nat) (ex px : option string_obj) : Prop :=
  exists i v, expire' = Some (j + i)%nat /\ l !! i = Some v /\
    (is_Some (string2ll v) -> exists ex' px', Aof.set_options (ObjRaw <$> l) ex px = Some (ex', px') /\ (if seconds' then ex' else px') = Some (ObjRaw v)).
Lemma options_agree m l j flags seconds expire ex px flags' seconds' expire' :
  (length l <= m)%nat -> KeyCommands.set_options l j flags seconds expire = Some (flags', seconds', expire') ->
  (expire' = expire /\ seconds' = seconds /\ Aof.set_options (ObjRaw <$> l) ex px = Some (ex, px)) \/ found_time l j seconds' expire' ex px.
Proof.
  revert l j flags seconds expire ex px. induction m as [|m IH]; intros [|a l] j flags seconds expire ex px Hm Ho; cbn [length] in Hm; try lia; try (cbn in Ho; injection Ho as <- <- <-; by left).
  cbn [KeyCommands.set_options] in Ho.
  assert (forall flags2, option_is a 101 120 = false -> option_is a 112 120 = false -> KeyCommands.set_options l (S j) flags2 seconds expire = Some (flags', seconds', expire') ->
    (expire' = expire /\ seconds' = seconds /\ Aof.set_options (ObjRaw <$> a :: l) ex px = Some (ex, px)) \/ found_time (a :: l) j seconds' expire' ex px) as Hskip.
  { intros flags2 H1 H2 Ho2. rewrite fmap_cons, aof_skip by done. destruct (IH l (S j) flags2 seconds expire ex px ltac:(lia) Ho2) as [?|(i & v & Hi & Hv & Hx)]; [by left|]. right. exists (S i), v.
    split_and!; [rewrite Hi; f_equal; lia|done|]. by rewrite fmap_cons, aof_skip. }
  destruct (option_is a 110 120) eqn:En; cbn [andb] in Ho.
  { rewrite (option_once a 110 120 101 120), (option_once a 110 120 112 120), (option_once a 110 120 120 120) in * by done. cbn [andb] in Ho. destruct (negb (has flags OBJ_SET_XX)); [by eapply Hskip|]. by destruct l. }
  destruct (option_is a 120 120) eqn:Ex; cbn [andb] in Ho.
  { rewrite (option_once a 120 120 101 120), (option_once a 120 120 112 120) in * by done. destruct (negb (has flags OBJ_SET_NX)); [by eapply Hskip|]. by destruct l. }
  clear Hskip. destruct l as [|b l]; [done|]. cbn [length] in Hm.
  assert (forall flags2 (sec2 : bool), option_is a (if sec2 then 101 else 112) 120 = true -> KeyCommands.set_options l (S (S j)) flags2 sec2 (Some (S j)) = Some (flags', seconds', expire') ->
    found_time (a :: b :: l) j seconds' expire' ex px) as Htime.
  { intros flags2 sec2 Ha Ho2. destruct (IH l (S (S j)) flags2 sec2 (Some (S j)) (if sec2 then Some (ObjRaw b) else ex) (if sec2 then px else Some (ObjRaw b)) ltac:(lia) Ho2) as [(Hi & Hs & Hr)|(i & v & Hi & Hv & Hx)].
    - exists 1%nat, b. split_and!; [rewrite Hi; f_equal; lia|done|]. intros Hb. rewrite !fmap_cons, (aof_time _ _ _ _ _ sec2 Ha Hb), Hs. destruct sec2; eexists _, _; by split.
    - assert (exists x l', l = x :: l') as (x & l' & ->) by (destruct l; [done|by eexists _, _]). rewrite !fmap_cons in *.
      exists (S (S i)), v. split_and!; [rewrite Hi; f_equal; lia|done|]. intros Hb. rewrite !fmap_cons. destruct (aof_any a (ObjRaw b) (ObjRaw x :: (ObjRaw <$> l')) ex px) as (ex1 & px1 & ->). destruct (aof_any b (ObjRaw x) (ObjRaw <$> l') ex1 px1) as (ex2 & px2 & ->).
      destruct (IH (x :: l') (S (S j)) flags2 sec2 (Some (S j)) ex2 px2 ltac:(lia) Ho2) as [(Hi' & _ & _)|(i' & v' & Hi' & Hv' & Hx')]; [rewrite Hi in Hi'; injection Hi'; lia|].
      rewrite Hi in Hi'. injection Hi' as Hi'. assert (i' = i) as -> by lia. rewrite Hv in Hv'. injection Hv' as <-. rewrite fmap_cons in Hx'. auto. }
  right. destruct (option_is a 101 120 && negb (has flags OBJ_SET_PX)) eqn:E1; [apply andb_true_iff in E1 as [E1 _]; by apply (Htime _ true E1 Ho)|].
  destruct (option_is a 112 120 && negb (has flags OBJ_SET_EX)) eqn:E2; [apply andb_true_iff in E2 as [E2 _]; by apply (Htime _ false E2 Ho)|done].
Qed.
