(* ===== verification/KeyspaceReplay.v ===== *)
(** * Commands that are logged have the effect of the commands that were executed

    On the maps of KeyspaceAbs: a server that loads expires nothing, and when it is given a deletion for each key that expired
    during a command, and then the command as it is translated for the append only file, it ends with the same data. *)
From stdpp Require Import prelude list gmap strings.
From Stdlib Require Import ZArith Lia.
From S2P Require Import Prelude Util SdsText Rio Rdb Reply Resp Aof Keyspace KeyCommands KeyspaceAbs KeyspaceInv KeyspaceRel KeyspaceRefine KeyspaceKeys KeyspaceFrame KeyspaceSpec KeyspaceAof.

Local Open Scope Z_scope.
Local Open Scope redis_scope.

#[local] Arguments str : simpl never.
#[local] Arguments ll_checked : simpl never.
#[local] Arguments lookupCommand : simpl never.

(** ** Data *)

(** Every key with a time of expiry has a value. *)
Definition data_ok (l : list adb) : Prop := forall db k, db ∈ l -> is_Some (expires db !! k) -> is_Some (dict db !! k).
Definition at_ (l : list adb) (d : nat) (k : key) : option aval * option Z :=
  let db := default no_keys (l !! d) in (dict db !! k, expires db !! k).
Lemma entry_at d k t : entry d k t = at_ (adbs t) d k.
Proof. done. Qed.
Lemma same_value d k t u : adbs t = adbs u -> value_of d k t = value_of d k u.
Proof. unfold value_of, the_db. by intros ->. Qed.
Lemma same_expiry d k t u : adbs t = adbs u -> expiry_of d k t = expiry_of d k u.
Proof. unfold expiry_of, the_db. by intros ->. Qed.
(** Data is what it is at each key. *)
Lemma adb_ext (db db' : adb) : (forall k, dict db !! k = dict db' !! k) -> (forall k, expires db !! k = expires db' !! k) -> db = db'.
Proof. destruct db, db'; cbn. intros H1 H2. f_equal; by apply map_eq. Qed.
Lemma data_ext (l l' : list adb) : length l = length l' -> (forall d k, at_ l d k = at_ l' d k) -> l = l'.
Proof.
  intros Hl Ha. apply list_eq. intros d. destruct (l !! d) as [db|] eqn:E, (l' !! d) as [db'|] eqn:E'; [|exfalso..|done].
  - f_equal. unfold at_ in Ha. apply adb_ext; intros k; specialize (Ha d k); rewrite E, E' in Ha; cbn in Ha; congruence.
  - apply lookup_lt_Some in E. apply lookup_ge_None in E'. lia.
  - apply lookup_lt_Some in E'. apply lookup_ge_None in E. lia.
Qed.
Lemma data_ok_at l d k : data_ok l -> (at_ l d k).1 = None -> (at_ l d k).2 = None.
Proof.
  intros Hok Hn. unfold at_ in *. cbn in *. destruct (l !! d) as [db|] eqn:Ed; [|done]. cbn in *. destruct (expires db !! k) eqn:Ee; [|done].
  destruct (Hok db k) as [v Hv]; [by eapply list_elem_of_lookup_2|by eexists|]. congruence.
Qed.

(** Keys that are removed. *)
Definition drop_at (l : list adb) (x : nat * key) : list adb := alter (fun db => mk_db (delete x.2 (dict db)) (delete x.2 (expires db))) x.1 l.
Definition drops (l : list adb) (ex : list (nat * key)) : list adb := foldl drop_at l ex.
Lemma drops_app l ex ex' : drops l (ex ++ ex') = drops (drops l ex) ex'.
Proof. apply foldl_app. Qed.
Lemma drops_length ex l : length (drops l ex) = length l.
Proof. revert l. induction ex as [|x ex IH]; intros l; [done|]. cbn. rewrite IH. apply length_alter. Qed.
Lemma at_drop l x d k : at_ (drop_at l x) d k = if decide ((d, k) = x) then (None, None) else at_ l d k.
Proof.
  destruct x as [d' k']. unfold at_, drop_at. cbn. destruct (decide (d = d')) as [->|Hd].
  - rewrite list_lookup_alter_eq. destruct (l !! d') as [db|]; cbn; [|by case_decide].
    case_decide as Hx; [injection Hx as ->; by rewrite !lookup_delete_eq|]. rewrite !lookup_delete_ne by congruence. done.
  - rewrite list_lookup_alter_ne by done. case_decide as Hx; [congruence|done].
Qed.
Lemma at_drops ex l d k : at_ (drops l ex) d k = if decide ((d, k) ∈ ex) then (None, None) else at_ l d k.
Proof.
  revert l. induction ex as [|x ex IH]; intros l; cbn [drops foldl]; [case_decide as H; [by apply not_elem_of_nil in H|done]|]. fold (drops (drop_at l x) ex). rewrite IH, at_drop.
  repeat case_decide; try done; rewrite elem_of_cons in *; tauto.
Qed.
Lemma drop_at_ok l x : data_ok l -> data_ok (drop_at l x).
Proof.
  intros Hok db k Hdb Hs. apply list_elem_of_lookup in Hdb as [d Hd]. pose proof (at_drop l x d k) as Ha. unfold at_ at 1 in Ha. rewrite Hd in Ha. cbn in Ha.
  case_decide; [injection Ha as H1 H2; rewrite H2 in Hs; by destruct Hs|]. pose proof (data_ok_at l d k Hok) as Hk. rewrite <-Ha in Hk. cbn in Hk. destruct (dict db !! k); [done|]. rewrite Hk in Hs by done. by destruct Hs.
Qed.
Lemma drops_ok ex l : data_ok l -> data_ok (drops l ex).
Proof. revert l. induction ex as [|x ex IH]; intros l Hok; [done|]. by apply IH, drop_at_ok. Qed.

(** ** Expiry while a command is executed *)

Section Live.
Context (e : kenv) (He : k_master e = true) (Hld : k_loading e = false).

(** From t to p keys have expired and nothing else has happened to the data. *)
Definition purged (t p : ast) : Prop :=
  exists ex, expirations (arep p) = expirations (arep t) ++ ex /\ adbs p = drops (adbs t) ex /\ dirty (arep p) = dirty (arep t) /\ asel p = asel t /\ aargs p = aargs t /\ forall x, x ∈ ex -> (x.1 < length (adbs t))%nat.
Lemma purged_refl t : purged t t.
Proof. exists []. rewrite app_nil_r. split_and!; try done. by intros x ?%not_elem_of_nil. Qed.
Lemma purged_trans t p q : purged t p -> purged p q -> purged t q.
Proof.
  intros (ex & H1 & H2 & H3 & H4 & H5 & H6) (ex' & H1' & H2' & H3' & H4' & H5' & H6'). exists (ex ++ ex'). rewrite drops_app, <-H2, H2', H1', H1, app_assoc. split_and!; try congruence.
  rewrite H2, drops_length in H6'. intros x [?|?]%elem_of_app; auto.
Qed.
Lemma expired_there f d k t : expired f d k t = true -> (d < length (adbs t))%nat.
Proof.
  unfold expired, expiry_of, the_db. intros Hx. destruct (adbs t !! d) as [db|] eqn:Ed; [by eapply lookup_lt_Some|]. cbn in Hx. by rewrite lookup_empty in Hx.
Qed.
Lemma purged_purge d k t p : purged t p -> purged t (purge e d k p).
Proof.
  intros Hp. apply (purged_trans _ _ _ Hp). unfold purge. destruct (expired e d k p && k_master e) eqn:Ex; [|apply purged_refl]. apply andb_true_iff in Ex as [Ex _]. exists [(d, k)]. split_and!; try done. intros x ->%list_elem_of_singleton. by eapply expired_there.
Qed.
Lemma purged_say i t p : purged t p -> purged t (say i p).
Proof. done. Qed.
Lemma purge_at d k t d' k' : at_ (adbs (purge e d k t)) d' k' = if decide ((d', k') = (d, k)) then (if expired e d k t then (None, None) else at_ (adbs t) d k) else at_ (adbs t) d' k'.
Proof.
  unfold purge. rewrite He, andb_true_r. destruct (expired e d k t).
  - change (adbs (drop_key d k _)) with (drop_at (adbs t) (d, k)). rewrite at_drop. done.
  - case_decide as Hx; [by injection Hx as -> ->|done].
Qed.
Lemma purge_fresh d k t : expired e d k (purge e d k t) = false.
Proof.
  destruct (expired e d k t) eqn:Ex.
  - pose proof (purge_at d k t d k) as Ha. rewrite decide_True, Ex in Ha by done. unfold expired. change (expiry_of d k (purge e d k t)) with (at_ (adbs (purge e d k t)) d k).2. by rewrite Ha.
  - unfold purge. by rewrite Ex.
Qed.
Lemma purge_twice d k t : purge e d k (purge e d k t) = purge e d k t.
Proof. unfold purge at 1. by rewrite purge_fresh. Qed.
Lemma visible_purged d k t : visible e d k t = value_of d k (purge e d k t).
Proof.
  unfold visible. rewrite He. cbn [orb]. rewrite andb_true_r. pose proof (purge_at d k t d k) as Ha. rewrite decide_True in Ha by done. change (value_of d k (purge e d k t)) with (at_ (adbs (purge e d k t)) d k).1.
  rewrite Ha. by destruct (expired e d k t).
Qed.
End Live.

(** ** Loading *)

Section Loading.
Context (el : kenv) (Hel : k_loading el = true) (Hcl : k_cluster el = false).

(** The commands of the file, one after the other. *)
Definition reload1 (args : list (list Z)) (u : ast) : option ast := c ← lookupCommand (hd [] args); if arity_ok c (length args) then astep (Command el c args) u else None.
Fixpoint reload (cmds : list (list (list Z))) (u : ast) : option ast := match cmds with [] => Some u | a :: cmds => u ← reload1 a u; reload cmds u end.
Lemma reload_app l l' u : reload (l ++ l') u = reload l u ≫= reload l'.
Proof. revert u. induction l as [|a l IH]; intros u; [done|]. cbn [reload app]. destruct (reload1 a u) as [u1|]; cbn [mbind option_bind]; [apply IH|done]. Qed.

Lemma expired_loading d k u : expired el d k u = false.
Proof. unfold expired. destruct (expiry_of d k u); [|done]. by rewrite Hel, andb_false_r. Qed.
Lemma purge_loading d k u : purge el d k u = u.
Proof. unfold purge. by rewrite expired_loading. Qed.
Lemma visible_loading d k u : visible el d k u = value_of d k u.
Proof. unfold visible. by rewrite expired_loading. Qed.

(** In the database d the commands take the data from l to l'. *)
Definition reloads (d : nat) (l : list adb) (cmds : list (list (list Z))) (l' : list adb) : Prop :=
  forall u, adbs u = l -> asel u = d -> exists u', reload cmds u = Some u' /\ adbs u' = l' /\ asel u' = d.
Lemma reloads_nil d l : reloads d l [] l.
Proof. intros u Hu Hd. by exists u. Qed.
Lemma reloads_app d l l1 l2 c1 c2 : reloads d l c1 l1 -> reloads d l1 c2 l2 -> reloads d l (c1 ++ c2) l2.
Proof. intros H1 H2 u Hu Hd. destruct (H1 u Hu Hd) as (u1 & E1 & Ha & Hs). destruct (H2 u1 Ha Hs) as (u2 & E2 & ?). exists u2. split; [|done]. rewrite reload_app, E1. done. Qed.
Lemma reloads_one d l l' args c :
  lookupCommand (hd [] args) = Some c -> arity_ok c (length args) = true ->
  (forall u, adbs u = l -> asel u = d -> aargs u = args -> exists u1, aexec el c u = Some u1 /\ adbs u1 = l' /\ asel u1 = d) -> reloads d l [args] l'.
Proof.
  intros Hc Har Hex u Hu Hd. destruct (Hex (with_aargs args u)) as (u1 & E & Hl' & Hd1); [done..|]. exists (with_aargs [] u1). split; [|done].
  cbn [reload]. unfold reload1. rewrite Hc. cbn [mbind option_bind astep]. rewrite Har. cbn iota. by rewrite E.
Qed.

(** A deletion from the file. *)
Lemma adel_one u c k : aargs u = [c; k] -> data_ok (adbs u) -> adbs (adel el u) = drop_at (adbs u) (asel u, k) /\ asel (adel el u) = asel u.
Proof.
  intros Ha Hok. unfold adel. rewrite Ha. cbn [tail foldl]. rewrite purge_loading. case_bool_decide as Hv; [done|]. split; [|done]. change (adbs u = drop_at (adbs u) (asel u, k)).
  apply data_ext; [by rewrite <-(drops_length [(asel u, k)] (adbs u))|]. intros d' k'. rewrite at_drop. case_decide as Hx; [|done]. injection Hx as -> ->.
  change (value_of (asel u) k u) with (at_ (adbs u) (asel u) k).1 in Hv. rewrite <-eq_None_not_Some in Hv. pose proof (data_ok_at _ _ _ Hok Hv). destruct (at_ _ _ _); cbn in *; congruence.
Qed.
Lemma reloads_del (lazy : bool) d l k : data_ok l -> reloads d l [[str (if lazy then "UNLINK" else "DEL")%string; k]] (drop_at l (d, k)).
Proof.
  intros Hok. apply (reloads_one _ _ _ _ (if lazy then UNLINK else DEL)); [by destruct lazy|by destruct lazy|]. intros u Hu Hd Ha. exists (adel el u). split; [by destruct lazy|].
  rewrite <-Hu, <-Hd. eapply adel_one; [done|]. by rewrite Hu.
Qed.
(** SET without options, and the time of a key. *)
Lemma reloads_set d l c k v : lookupCommand c = Some SET -> (d < length l)%nat ->
  reloads d l [[c; k; v]] (alter (fun db => mk_db (dict db) (delete k (expires db))) d (alter (fun db => mk_db (<[k := AString v]> (dict db)) (expires db)) d l)).
Proof.
  intros Hc Hd. apply (reloads_one _ _ _ _ SET); [done..|]. intros u Hu Hs Ha. cbn [aexec]. unfold aSET, aset. rewrite Ha. cbn [drop set_options mbind option_bind fmap option_fmap option_map time_arg].
  change (has OBJ_SET_NO_FLAGS OBJ_SET_NX) with false. change (has OBJ_SET_NO_FLAGS OBJ_SET_XX) with false. cbn [andb orb]. eexists. split; [done|]. unfold karg, replace. rewrite Ha, purge_loading. cbn. by rewrite Hu, Hs.
Qed.
Lemma reloads_pexpireat d l c k w : lookupCommand c = Some PEXPIREAT -> LLONG_MIN <= w <= LLONG_MAX -> is_Some (at_ l d k).1 ->
  reloads d l [[c; k; decimal w]] (alter (fun db => mk_db (dict db) (<[k := w]> (expires db))) d l).
Proof.
  intros Hc Hw Hv. apply (reloads_one _ _ _ _ PEXPIREAT); [done..|]. intros u Hu Hs Ha. cbn [aexec]. assert (karg 1 u = k /\ karg 2 u = decimal w) as [Hk1 Hk2] by (unfold karg; by rewrite Ha). unfold aexpire. rewrite Hk1, Hk2. cbn zeta.
  rewrite string2ll_int by done. cbn [mbind option_bind]. rewrite Z.add_0_r, ll_checked_ok by done. cbn [mbind option_bind]. rewrite purge_loading. change (value_of (asel u) k u) with (at_ (adbs u) (asel u) k).1. rewrite Hu, Hs. destruct Hv as [v ->].
  eexists. split; [done|]. rewrite Hel. cbn [negb]. rewrite andb_false_r. cbn [andb]. change (adbs (changed 1 ?x)) with (adbs x). unfold expire_at. destruct (_ && _); cbn; by rewrite Hu.
Qed.
End Loading.

(** ** A command and its entry in the file *)

Section Outcome.
Context (e : kenv) (He : k_master e = true) (Hld : k_loading e = false) (Hce : k_cluster e = false).
Context (el : kenv) (Hel : k_loading el = true) (Hcl : k_cluster el = false) (Hal : forall m, k_alloc e m = true -> k_alloc el m = true).

Definition proc_named (args : list (list Z)) : command_proc := default otherCommand (proc_of <$> (head args ≫= lookupCommand)).
(** The times of a command fit, and SET has at most one. *)
Definition call_ok (now : Z) (cmd : command_proc) (argv : list string_obj) : Prop :=
  match cmd, argv with
  | expireCommand, _ :: _ :: x :: _ | pexpireCommand, _ :: _ :: x :: _ | expireatCommand, _ :: _ :: x :: _ => time_fits now cmd x
  | Aof.setexCommand, _ :: _ :: x :: _ :: _ | Aof.psetexCommand, _ :: _ :: x :: _ :: _ => time_fits now cmd x
  | Aof.setCommand, _ =>
    match Aof.set_options (drop 3 argv) None None with
    | Some (Some x, None) => time_fits now expireCommand x
    | Some (None, Some x) => time_fits now pexpireCommand x
    | Some (None, None) => True
    | _ => False
    end
  | otherCommand, _ => True
  | _, _ => False
  end.
Lemma executed_call_ok now cmd argv : executed_ok now cmd argv <-> Forall arg_fits argv /\ zlen argv <= LLONG_MAX /\ call_ok now cmd argv.
Proof. done. Qed.
(** The commands sent to the file when t has become t' bring the data of a server that has removed the expired keys to the same state. *)
Definition outcome (t t' : ast) : Prop :=
  exists p, purged t p /\ expirations (arep t') = expirations (arep p) /\ (dirty (arep t') <= dirty (arep t) -> adbs t' = adbs p) /\
    (dirty (arep t) < dirty (arep t') -> asel t' = asel t /\ call_ok (k_now e) (proc_named (aargs t')) (ObjRaw <$> aargs t') /\
      reloads el (asel t) (adbs p) (translated (k_now e) (proc_named (aargs t')) (ObjRaw <$> aargs t')) (adbs t')).
Lemma outcome_quiet t p t' : purged t p -> expirations (arep t') = expirations (arep p) -> adbs t' = adbs p -> dirty (arep t') <= dirty (arep t) -> outcome t t'.
Proof. intros Hp Hx Ha Hd. exists p. split_and!; [done..|lia]. Qed.
Lemma translated_other now args : translated now otherCommand (ObjRaw <$> args) = [args].
Proof. cbn. f_equal. induction args as [|a args IH]; [done|]. cbn. by f_equal. Qed.
(** A command that is logged as it is. *)
Lemma outcome_again c t p t' :
  head (aargs t') ≫= lookupCommand = Some c -> arity_ok c (length (aargs t')) = true -> proc_of c = otherCommand -> purged t p -> expirations (arep t') = expirations (arep p) -> asel t' = asel t ->
  (dirty (arep t') <= dirty (arep t) -> adbs t' = adbs p) ->
  (forall u, adbs u = adbs p -> asel u = asel t -> aargs u = aargs t' -> exists u1, aexec el c u = Some u1 /\ adbs u1 = adbs t' /\ asel u1 = asel t) -> outcome t t'.
Proof.
  intros Hc Har Hpr Hp Hx Hs Hq Hex. exists p. split_and!; [done..|]. intros _. split; [done|]. unfold proc_named. rewrite Hc. change (default otherCommand (proc_of <$> Some c)) with (proc_of c). rewrite Hpr, translated_other. split; [done|].
  apply (reloads_one _ _ _ _ _ c); [|done..]. destruct (aargs t'); [done|]. done.
Qed.
(** Commands on one key. *)
Lemma outcome_key c t t' k :
  head (aargs t) ≫= lookupCommand = Some c -> arity_ok c (length (aargs t)) = true -> proc_of c = otherCommand -> let p := purge e (asel t) k t in
  expirations (arep t') = expirations (arep p) -> asel t' = asel t -> aargs t' = aargs t -> (dirty (arep t') <= dirty (arep t) -> adbs t' = adbs p) ->
  (forall u, adbs u = adbs p -> asel u = asel t -> aargs u = aargs t -> exists u1, aexec el c u = Some u1 /\ adbs u1 = adbs t' /\ asel u1 = asel t) -> outcome t t'.
Proof.
  intros Hc Har Hpr p Hx Hs Ha Hq Hex. apply (outcome_again c t p); try done; [by rewrite Ha..| |by rewrite Ha]. apply purged_purge, purged_refl.
Qed.
Lemma purge_args d k t : aargs (purge e d k t) = aargs t.
Proof. unfold purge. by destruct (_ && _). Qed.
Lemma purge_dirty d k t : dirty (arep (purge e d k t)) = dirty (arep t).
Proof. unfold purge. by destruct (_ && _). Qed.

(** Commands that only read. *)
Lemma outcome_read t k t' : adbs t' = adbs (purge e (asel t) k t) -> arep t' = arep (purge e (asel t) k t) -> outcome t t'.
Proof. intros Ha Hr. eapply outcome_quiet; [apply purged_purge, (purged_refl t)|by rewrite Hr|done|]. by rewrite Hr, purge_dirty. Qed.
Lemma outcome_none t t' : adbs t' = adbs t -> arep t' = arep t -> outcome t t'.
Proof. intros Ha Hr. eapply outcome_quiet; [apply (purged_refl t)|by rewrite Hr|done|]. by rewrite Hr. Qed.

Section Key.
Context (t : ast) (c : kcmd) (Hc : head (aargs t) ≫= lookupCommand = Some c) (Har : arity_ok c (length (aargs t)) = true).
Abbreviation p := (purge e (asel t) (karg 1 t) t).

Lemma same_karg i u : aargs u = aargs t -> karg i u = karg i t.
Proof. unfold karg. by intros ->. Qed.

Lemma incr_outcome n : proc_of c = otherCommand -> (forall u, aargs u = aargs t -> aexec el c u = Some (aincr el n u)) -> outcome t (aincr e n t).
Proof.
  intros Hpr Hex. unfold aincr. cbn zeta. destruct (value_of (asel t) (karg 1 t) p) as [[bs|ty x]|] eqn:Ev; [|by apply (outcome_read t (karg 1 t))|].
  1: destruct (string2ll bs) as [m|] eqn:Em; [|by apply (outcome_read t (karg 1 t))].
  all: destruct (_ && _) eqn:Eb in |- *; [|by apply (outcome_read t (karg 1 t))].
  all: apply (outcome_key c t _ (karg 1 t)); try done; [apply purge_sel|apply purge_args|cbn; rewrite purge_dirty; lia|].
  all: intros u Hu Hs Ha; rewrite Hex by done; eexists; split; [done|]; unfold aincr; rewrite (same_karg 1 u Ha), purge_loading, (same_value _ _ u p Hu), Hs, Ev by done; rewrite ?Em, Eb; cbn; rewrite Hu; by split.
Qed.
Lemma getset_outcome : c = GETSET -> outcome t (agetset e t).
Proof.
  intros ->. unfold agetset. cbn zeta. rewrite visible_purged by done. destruct (is_other _) eqn:Eo; [by apply (outcome_read t (karg 1 t))|].
  assert (replace e (asel t) (karg 1 t) (AString (karg 2 t)) (aget e t) = touched (asel t) (karg 1 t) (clear_expiry (asel t) (karg 1 t) (store (asel t) (karg 1 t) (AString (karg 2 t)) (aget e t)))) as ->.
  { unfold replace. do 3 f_equal. unfold purge. assert (expired e (asel t) (karg 1 t) (aget e t) = expired e (asel t) (karg 1 t) p) as -> by done. by rewrite purge_fresh. }
  apply (outcome_key GETSET t _ (karg 1 t)); try done; [apply purge_sel|apply purge_args|cbn; rewrite purge_dirty; lia|].
  intros u Hu Hs Ha. eexists. split; [done|]. unfold agetset. rewrite (same_karg 1 u Ha), (same_karg 2 u Ha), visible_loading, (same_value _ _ u p Hu), Hs, Eo by done. unfold replace. rewrite purge_loading by done. cbn.
  rewrite purge_loading by done. by rewrite Hu.
Qed.
Lemma append_outcome t' : c = APPEND -> aappend e t = Some t' -> outcome t t'.
Proof.
  intros -> Hex. unfold aappend in Hex. cbn zeta in Hex. destruct (value_of (asel t) (karg 1 t) p) as [[old|ty x]|] eqn:Ev.
  - destruct (too_long _) eqn:El; [injection Hex as <-; by apply (outcome_read t (karg 1 t))|]. destruct (k_alloc e _) eqn:Eal; [|done]. injection Hex as <-.
    apply (outcome_key APPEND t _ (karg 1 t)); try done; [apply purge_sel|apply purge_args|cbn; rewrite purge_dirty; lia|].
    intros u Hu Hs Ha. cbn [aexec]. unfold aappend. rewrite (same_karg 1 u Ha), (same_karg 2 u Ha), purge_loading, (same_value _ _ u p Hu), Hs, Ev, El, (Hal _ Eal) by done. eexists. split; [done|]. cbn. by rewrite Hu.
  - injection Hex as <-. by apply (outcome_read t (karg 1 t)).
  - injection Hex as <-. apply (outcome_key APPEND t _ (karg 1 t)); try done; [apply purge_sel|apply purge_args|cbn; rewrite purge_dirty; lia|].
    intros u Hu Hs Ha. cbn [aexec]. unfold aappend. rewrite (same_karg 1 u Ha), (same_karg 2 u Ha), purge_loading, (same_value _ _ u p Hu), Hs, Ev by done. eexists. split; [done|]. cbn. by rewrite Hu.
Qed.
End Key.

(** *** SET and its variants *)

(** The number an argument means to the append only file. *)
Lemma number_raw bs v : string2ll bs = Some v -> number (ObjRaw bs) = v.
Proof.
  intros [Hv ->]%string2ll_iff. unfold number. cbn [obj_bytes]. assert (c_string (decimal v) = decimal v) as ->; [|by rewrite strtoll10_decimal].
  pose proof (decimal_nonzero v) as Hn. induction Hn as [|c l Hc _ IH]; [done|]. cbn. apply Z.eqb_neq in Hc. by rewrite Hc, IH.
Qed.
Lemma time_fits_raw cmd v now bs : string2ll bs = Some v -> LLONG_MIN <= in_ms cmd v <= LLONG_MAX -> LLONG_MIN <= absolute_ms now cmd v <= LLONG_MAX -> time_fits now cmd (ObjRaw bs).
Proof. intros Hv H1 H2. unfold time_fits. by rewrite (number_raw _ _ Hv). Qed.
Definition set_at (d : nat) (k : key) (v : list Z) (l : list adb) : list adb :=
  alter (fun db => mk_db (dict db) (delete k (expires db))) d (alter (fun db => mk_db (<[k := AString v]> (dict db)) (expires db)) d l).
Definition time_at (d : nat) (k : key) (w : Z) (l : list adb) : list adb := alter (fun db => mk_db (dict db) (<[k := w]> (expires db))) d l.
Lemma set_at_value d k v l : (d < length l)%nat -> is_Some (at_ (set_at d k v l) d k).1.
Proof. intros [db Hdb]%lookup_lt_is_Some. unfold at_, set_at. rewrite !list_lookup_alter_eq, Hdb. cbn. rewrite lookup_insert_eq. by eexists. Qed.
(** What SET has done: nothing, or the value is stored, with its time. *)
Definition set_done (flags : Z) (k v : list Z) (expire : option (list Z)) (seconds : bool) (t t' : ast) : Prop :=
  let p := purge e (asel t) k t in
  expirations (arep t') = expirations (arep p) /\ dirty (arep t') = dirty (arep t) + 1 /\ asel t' = asel t /\ aargs t' = aargs t /\
  has flags OBJ_SET_NX && bool_decide (is_Some (value_of (asel t) k p)) || has flags OBJ_SET_XX && negb (bool_decide (is_Some (value_of (asel t) k p))) = false /\
  match expire with
  | None => adbs t' = set_at (asel t) k v (adbs p)
  | Some bs => exists ms, string2ll bs = Some ms /\ LLONG_MIN <= (if seconds then ms * 1000 else ms) <= LLONG_MAX /\
      let w := k_now e + (if seconds then ms * 1000 else ms) in LLONG_MIN <= w <= LLONG_MAX /\ adbs t' = time_at (asel t) k w (set_at (asel t) k v (adbs p))
  end.
Lemma expire_at_facts d k w t : let t' := expire_at e d k w t in
  adbs t' = time_at d k w (adbs t) /\ expirations (arep t') = expirations (arep t) /\ dirty (arep t') = dirty (arep t) /\ asel t' = asel t /\ aargs t' = aargs t.
Proof. unfold expire_at. cbn zeta. by destruct (_ && _). Qed.
Lemma ll_checked_some v w : ll_checked v = Some w -> w = v /\ LLONG_MIN <= v <= LLONG_MAX.
Proof. unfold ll_checked. destruct (_ && _) eqn:Eb; cbn; [|done]. intros [= <-]. lia. Qed.
Lemma set_cases flags k v expire seconds okr abr t t' : aset e flags k v expire seconds okr abr t = Some t' -> outcome t t' \/ set_done flags k v expire seconds t t'.
Proof.
  unfold aset. intros Hex. destruct (time_arg e expire seconds) as [[ms|err]|] eqn:Et; cbn [mbind option_bind] in Hex; [| |done].
  2:{ injection Hex as <-. left. by apply outcome_none. }
  destruct (_ || _) eqn:Ec; [injection Hex as <-; left; by apply (outcome_read t k)|]. right. unfold set_done. unfold time_arg in Et. destruct expire as [bs|].
  - destruct (string2ll bs) as [m|] eqn:Em; [|done]. destruct (m <=? 0); [done|]. destruct (ll_checked (k_now e + ms)) as [w|] eqn:Ew; cbn [mbind option_bind] in Hex; [|done]. injection Hex as <-.
    apply ll_checked_some in Ew as [-> Hw]. assert (ms = (if seconds then m * 1000 else m) /\ LLONG_MIN <= ms <= LLONG_MAX) as [-> Hms].
    { destruct seconds; [destruct (ll_checked (m * 1000)) eqn:Ek; cbn in Et; [|done]; injection Et as <-; by apply ll_checked_some in Ek as [-> ?]|]. injection Et as <-. split; [done|]. by apply string2ll_iff in Em as [? _]. }
    destruct (expire_at_facts (asel t) k (k_now e + (if seconds then m * 1000 else m)) (changed 1 (replace e (asel t) k (AString v) t))) as (H1 & H2 & H3 & H4 & H5).
    split_and!; [done|cbn in *; rewrite H3, purge_dirty; lia|cbn in *; by rewrite H4, purge_sel|cbn in *; by rewrite H5, purge_args|done|]. exists m. split; [done|]. split; [done|]. by split.
  - injection Et as <-. injection Hex as <-. split_and!; try done; [cbn; rewrite purge_dirty; lia|apply purge_sel|apply purge_args].
Qed.
(** A value with its time, from the file. *)
Lemma reloads_timed d l c k v w now cmd ts ms :
  lookupCommand c = Some SET -> (d < length l)%nat -> string2ll ts = Some ms -> w = absolute_ms now cmd ms -> LLONG_MIN <= w <= LLONG_MAX ->
  reloads el d l [[c; k; v]; pexpireat now cmd (ObjRaw k) (ObjRaw ts)] (time_at d k w (set_at d k v l)).
Proof.
  intros Hc Hd Hms -> Hw. apply (reloads_app el d l (set_at d k v l) _ [_] [_]); [by apply reloads_set|]. unfold pexpireat. rewrite (number_raw _ _ Hms). cbn [obj_bytes].
  apply (reloads_pexpireat el Hel); [done|done|by apply set_at_value].
Qed.
Lemma set_done_outcome flags k v expire seconds t t' cmds :
  set_done flags k v expire seconds t t' -> cmds = translated (k_now e) (proc_named (aargs t)) (ObjRaw <$> aargs t) ->
  call_ok (k_now e) (proc_named (aargs t)) (ObjRaw <$> aargs t) /\ reloads el (asel t) (adbs (purge e (asel t) k t)) cmds (adbs t') -> outcome t t'.
Proof.
  intros (H1 & H2 & H3 & H4 & _) -> Hr. exists (purge e (asel t) k t). split; [apply purged_purge, purged_refl|]. split; [done|]. split; [lia|]. intros _. split; [done|]. by rewrite H4.
Qed.
Lemma setex_outcome c t t' seconds cmd :
  (c = SETEX /\ cmd = Aof.setexCommand /\ seconds = true \/ c = PSETEX /\ cmd = Aof.psetexCommand /\ seconds = false) ->
  head (aargs t) ≫= lookupCommand = Some c -> arity_ok c (length (aargs t)) = true -> (asel t < length (adbs t))%nat ->
  aset e OBJ_SET_NO_FLAGS (karg 1 t) (karg 3 t) (Some (karg 2 t)) seconds Ok Nullbulk t = Some t' -> outcome t t'.
Proof.
  intros Hc Hl Har Hlt Hex. destruct (set_cases _ _ _ _ _ _ _ _ _ Hex) as [?|Hd]; [done|]. eapply (set_done_outcome _ _ _ _ _ _ _ _ Hd); [done|].
  assert (exists c0 k ts v, aargs t = [c0; k; ts; v]) as (c0 & k & ts & v & Ha).
  { apply arity_range in Har as [Hpos _]. assert (Z.of_nat (length (aargs t)) = 4) as H4 by (destruct Hc as [(-> & _)|(-> & _)]; apply Hpos; done). destruct (aargs t) as [|c0 [|k [|ts [|v [|? ?]]]]]; cbn in H4; try lia. by eexists _, _, _, _. }
  unfold karg, set_done in *. rewrite Ha in *. cbn [lookup list_lookup default from_option] in *. cbn zeta in Hd. destruct Hd as (_ & _ & _ & _ & _ & ms & Hms & Hin & Hw & Hd). unfold proc_named. rewrite Hl. cbn [fmap option_fmap option_map].
  unfold Datatypes.id in *. rewrite Hd.
  destruct Hc as [(-> & -> & ->)|(-> & -> & ->)]; cbn [proc_of default from_option Datatypes.id list_fmap translated obj_bytes call_ok]; (split; [by apply (time_fits_raw _ ms); [..|cbn [in_ms]|cbn [absolute_ms in_ms]; lia]|]);
    (apply (reloads_timed _ _ _ _ _ _ _ _ _ ms); [done|by rewrite purge_length|done|cbn [absolute_ms in_ms]; lia|done]).
Qed.
Lemma setnx_outcome t t' :
  head (aargs t) ≫= lookupCommand = Some SETNX -> arity_ok SETNX (length (aargs t)) = true -> aset e OBJ_SET_NX (karg 1 t) (karg 2 t) None true Cone Czero t = Some t' -> outcome t t'.
Proof.
  intros Hl Har Hex. destruct (set_cases _ _ _ _ _ _ _ _ _ Hex) as [?|Hd]; [done|]. unfold set_done in Hd. destruct Hd as (H1 & H2 & H3 & H4 & Hnx & Hd).
  apply (outcome_key SETNX t _ (karg 1 t)); try done; [lia|]. intros u Hu Hs Ha. cbn [aexec]. unfold aset. cbn [time_arg mbind option_bind]. rewrite !(same_karg t _ u Ha), Hs, purge_loading, (same_value _ _ u _ Hu), Hnx by done.
  eexists. split; [done|]. unfold replace. rewrite purge_loading by done. cbn. by rewrite Hu.
Qed.
(** The times that the append only file finds: not one of each kind. *)
Definition one_time (args : list (list Z)) : bool := match Aof.set_options (ObjRaw <$> drop 3 args) None None with Some (Some _, Some _) => false | _ => true end.
Lemma SET_outcome t t' :
  head (aargs t) ≫= lookupCommand = Some SET -> arity_ok SET (length (aargs t)) = true -> (asel t < length (adbs t))%nat -> one_time (aargs t) = true -> aSET e t = Some t' -> outcome t t'.
Proof.
  intros Hl Har Hlt Ho Hex. unfold aSET in Hex. destruct (KeyCommands.set_options _ _ _ _ _) as [[[flags seconds] expire]|] eqn:Eo; [|injection Hex as <-; by apply outcome_none].
  destruct (set_cases _ _ _ _ _ _ _ _ _ Hex) as [?|Hd]; [done|]. eapply (set_done_outcome _ _ _ _ _ _ _ _ Hd); [done|].
  assert (exists c0 k v opts, aargs t = c0 :: k :: v :: opts) as (c0 & k & v & opts & Ha).
  { apply arity_range in Har as [_ Hneg]. assert (3 <= Z.of_nat (length (aargs t))) as H3 by (apply Hneg; done). destruct (aargs t) as [|c0 [|k [|v opts]]]; cbn in H3; try lia. by eexists _, _, _, _. }
  assert (karg 1 t = k /\ karg 2 t = v) as [Hk1 Hk2] by (unfold karg; by rewrite Ha). rewrite Hk1, Hk2 in *. unfold set_done in Hd. cbn zeta in Hd. destruct Hd as (_ & _ & _ & _ & _ & Hd).
  unfold proc_named, one_time in *. rewrite Hl. rewrite Ha in *. change (default otherCommand (proc_of <$> Some SET)) with Aof.setCommand. change (drop 3 (c0 :: k :: v :: opts)) with opts in *. change (lookupCommand c0 = Some SET) in Hl.
  change (ObjRaw <$> c0 :: k :: v :: opts) with (ObjRaw c0 :: ObjRaw k :: ObjRaw v :: (ObjRaw <$> opts)).
  assert (translated (k_now e) Aof.setCommand (ObjRaw c0 :: ObjRaw k :: ObjRaw v :: (ObjRaw <$> opts)) = [c0; k; v] ::
    match Aof.set_options (ObjRaw <$> opts) None None with Some (Some x, _) => [pexpireat (k_now e) expireCommand (ObjRaw k) x] | Some (None, Some x) => [pexpireat (k_now e) pexpireCommand (ObjRaw k) x] | _ => [] end) as ->.
  { destruct opts; [done|]. done. }
  destruct (options_agree (length opts) opts 3 _ _ None None None _ _ _ ltac:(lia) Eo) as [(-> & _ & Hr)|(i & b & -> & Hb & Hr)].
  - cbn [call_ok drop]. change (drop 0 ?x) with x. rewrite Hr, Hd. split; [done|]. by apply reloads_set; [..|rewrite purge_length].
  - cbn [fmap option_fmap option_map] in Hd. assert (karg (3 + i) t = b) as Hkb by (unfold karg; rewrite Ha; change ((c0 :: k :: v :: opts) !! (3 + i)%nat) with (opts !! i); by rewrite Hb). rewrite Hkb in Hd. destruct Hd as (ms & Hms & Hin & Hw & Hd). rewrite Hd.
    destruct Hr as (ex & px & Hr & Hx); [by eexists|]. cbn [call_ok drop]. change (drop 0 ?x) with x. rewrite Hr in *. destruct seconds; subst; [destruct px; [done|]|destruct ex; [done|]];
      (split; [by apply (time_fits_raw _ ms); [..|cbn [absolute_ms in_ms]; lia]|]); (apply (reloads_timed _ _ _ _ _ _ _ _ _ ms); [done|by rewrite purge_length|done|cbn [absolute_ms in_ms]; lia|done]).
Qed.

(** *** The other commands on a key *)

Lemma setrange_outcome t t' :
  head (aargs t) ≫= lookupCommand = Some SETRANGE -> arity_ok SETRANGE (length (aargs t)) = true -> asetrange e t = Some t' -> outcome t t'.
Proof.
  intros Hl Har Hex. unfold asetrange in Hex. destruct (string2ll (karg 2 t)) as [off|] eqn:Eoff; [|injection Hex as <-; by apply outcome_none].
  destruct (off <? 0) eqn:Eneg; [injection Hex as <-; by apply outcome_none|]. cbn zeta in Hex. set (p := purge e (asel t) (karg 1 t) t) in *.
  assert (forall o old, value_of (asel t) (karg 1 t) p = o -> is_other o = false -> old = match o with Some (AString s) => s | _ => [] end ->
    (if bool_decide (karg 3 t = []) then Some (say (RLongLong (zlen old)) p)
      else if too_long (off + zlen (karg 3 t)) then Some (failed "string exceeds maximum allowed size (512MB)" p)
      else if (bool_decide (o = None) || (zlen old <? u64 (off + zlen (karg 3 t)))) && negb (k_alloc e (u64 (off + zlen (karg 3 t)))) then None
      else if Z.max (zlen old) (u64 (off + zlen (karg 3 t))) <? off + zlen (karg 3 t) then None
      else Some (say (RLongLong (zlen (overwrite_at old off (karg 3 t)))) (changed 1 (notified "setrange" (karg 1 t) (asel t) (touched (asel t) (karg 1 t) (store (asel t) (karg 1 t) (AString (overwrite_at old off (karg 3 t))) p)))))) = Some t' -> outcome t t') as Hmain.
  { intros o old Ho Hno -> Hx. case_bool_decide as Hv; [injection Hx as <-; by apply (outcome_read t (karg 1 t))|]. destruct (too_long _) eqn:El; [injection Hx as <-; by apply (outcome_read t (karg 1 t))|].
    match type of Hx with (if ?b then None else _) = _ => destruct b eqn:Eal; [done|] end. match type of Hx with (if ?b then None else _) = _ => destruct b eqn:Emx; [done|] end. injection Hx as <-.
    apply (outcome_key SETRANGE t _ (karg 1 t)); try done; [apply purge_sel|apply purge_args|cbn; unfold p; rewrite purge_dirty; lia|].
    intros u Hu Hs Ha. cbn [aexec]. unfold asetrange. rewrite !(same_karg t _ u Ha), Eoff, Eneg, purge_loading, (same_value _ _ u p Hu), Hs, Ho by done.
    assert ((bool_decide (o = None) || (zlen (match o with Some (AString s) => s | _ => [] end) <? u64 (off + zlen (karg 3 t)))) && negb (k_alloc el (u64 (off + zlen (karg 3 t)))) = false) as Eal'.
    { apply andb_false_iff in Eal as [Eal|Eal]; [by rewrite Eal|]. apply negb_false_iff in Eal. rewrite (Hal _ Eal). apply andb_false_r. }
    destruct o as [[s|]|]; [|done|]; rewrite (bool_decide_eq_false_2 (karg 3 t = [])), El by done;
      (match goal with |- context [if ?b then None else if ?b' then None else _] => replace b with false by (symmetry; exact Eal'); replace b' with false by (symmetry; exact Emx) end); (eexists; split; [done|]; cbn; by rewrite Hu). }
  destruct (value_of (asel t) (karg 1 t) p) as [[s|ty x]|] eqn:Ev.
  - by apply (Hmain (Some (AString s)) s).
  - injection Hex as <-. by apply (outcome_read t (karg 1 t)).
  - by apply (Hmain None []).
Qed.
Lemma persist_outcome t : head (aargs t) ≫= lookupCommand = Some PERSIST -> arity_ok PERSIST (length (aargs t)) = true -> outcome t (apersist e t).
Proof.
  intros Hl Har. unfold apersist. cbn zeta. set (p := purge e (asel t) (karg 1 t) t). destruct (value_of (asel t) (karg 1 t) p) as [v|] eqn:Ev; [|by apply (outcome_read t (karg 1 t))].
  destruct (expiry_of (asel t) (karg 1 t) p) as [w|] eqn:Ew; [|by apply (outcome_read t (karg 1 t))].
  apply (outcome_key PERSIST t _ (karg 1 t)); try done; [apply purge_sel|apply purge_args|cbn; unfold p; rewrite purge_dirty; lia|].
  intros u Hu Hs Ha. eexists. split; [done|]. unfold apersist. rewrite !(same_karg t _ u Ha), purge_loading, (same_value _ _ u p Hu), (same_expiry _ _ u p Hu), Hs, Ev, Ew by done. cbn. by rewrite Hu.
Qed.
Definition expire_cmd (c : kcmd) (basetime : Z) (seconds : bool) : Prop :=
  match c with EXPIRE => basetime = k_now e /\ seconds = true | EXPIREAT => basetime = 0 /\ seconds = true | PEXPIRE => basetime = k_now e /\ seconds = false | PEXPIREAT => basetime = 0 /\ seconds = false | _ => False end.
Lemma expire_outcome c basetime seconds t t' :
  expire_cmd c basetime seconds -> head (aargs t) ≫= lookupCommand = Some c -> arity_ok c (length (aargs t)) = true -> (asel t < length (adbs t))%nat -> data_ok (adbs t) ->
  aexpire e basetime seconds t = Some t' -> outcome t t'.
Proof.
  intros Hcmd Hl Har Hlt Hok Hex. assert (exists c0 k ts, aargs t = [c0; k; ts]) as (c0 & k & ts & Ha).
  { apply arity_range in Har as [Hpos _]. assert (Z.of_nat (length (aargs t)) = 3) as H3 by (destruct c; try done; apply Hpos; done). destruct (aargs t) as [|c0 [|k [|ts [|? ?]]]]; cbn in H3; try lia. by eexists _, _, _. }
  assert (karg 1 t = k /\ karg 2 t = ts) as [Hk1 Hk2] by (unfold karg; by rewrite Ha). unfold aexpire in Hex. cbn zeta in Hex. rewrite Hk1, Hk2 in Hex.
  destruct (string2ll ts) as [n|] eqn:En; [|injection Hex as <-; by apply outcome_none].
  destruct (if seconds then ll_checked (n * 1000) else Some n) as [n1|] eqn:E1; cbn [mbind option_bind] in Hex; [|done]. destruct (ll_checked (n1 + basetime)) as [w|] eqn:E2; cbn [mbind option_bind] in Hex; [|done].
  apply ll_checked_some in E2 as [-> Hw]. assert (n1 = (if seconds then n * 1000 else n) /\ LLONG_MIN <= n1 <= LLONG_MAX) as [-> Hin].
  { destruct seconds; [by apply ll_checked_some in E1 as [-> ?]|injection E1 as <-]. split; [done|]. by apply string2ll_iff in En as [? _]. }
  set (p := purge e (asel t) k t) in *. assert (purged t p) as Hp by apply purged_purge, purged_refl.
  destruct (value_of (asel t) k p) as [v|] eqn:Ev; [|injection Hex as <-; by apply (outcome_read t k)]. injection Hex as <-. destruct (_ && _ && _).
  - exists p. split; [done|]. split; [done|]. split; [cbn; unfold p; rewrite purge_dirty; lia|]. intros _. split; [apply purge_sel|].
    change (adbs (shared Cone _)) with (drop_at (adbs p) (asel t, k)). unfold proc_named. cbn [aargs shared say notified touched log with_aargs head].
    assert (default otherCommand (proc_of <$> (Some (str (if k_lazy_expire e then "UNLINK" else "DEL")) ≫= lookupCommand)) = otherCommand) as -> by (by destruct (k_lazy_expire e)).
    rewrite translated_other. split; [done|]. apply (reloads_del el Hel). destruct Hp as (ex & _ & -> & _). by apply drops_ok.
  - destruct (expire_at_facts (asel t) k ((if seconds then n * 1000 else n) + basetime) p) as (H1 & H2 & H3 & H4 & H5).
    exists p. split; [done|]. split; [done|]. split; [cbn in *; rewrite H3; unfold p; rewrite purge_dirty; lia|]. intros _. split; [cbn in *; rewrite H4; apply purge_sel|].
    assert (aargs (changed 1 (notified "expire" k (asel t) (touched (asel t) k (shared Cone (expire_at e (asel t) k ((if seconds then n * 1000 else n) + basetime) p))))) = aargs t) as -> by (cbn in *; rewrite H5; apply purge_args).
    change (adbs (changed 1 _)) with (adbs (expire_at e (asel t) k ((if seconds then n * 1000 else n) + basetime) p)). rewrite H1. unfold proc_named. rewrite Hl, Ha.
    assert (reloads el (asel t) (adbs p) [[str "PEXPIREAT"; k; decimal ((if seconds then n * 1000 else n) + basetime)]] (time_at (asel t) k ((if seconds then n * 1000 else n) + basetime) (adbs p))) as Hr.
    { apply (reloads_pexpireat el Hel); [done|done|]. change (at_ (adbs p) (asel t) k).1 with (value_of (asel t) k p). rewrite Ev. by eexists. }
    destruct c; try done; destruct Hcmd as [-> ->]; cbn [fmap option_fmap option_map proc_of default from_option Datatypes.id list_fmap translated obj_bytes call_ok]; rewrite ?Z.add_0_r in *;
      (split; [try done; by apply (time_fits_raw _ n); [..|cbn [absolute_ms in_ms]; lia]|]); unfold pexpireat; rewrite ?(number_raw _ _ En); cbn [obj_bytes absolute_ms in_ms]; try done.
    rewrite Ha in Hl. apply string2ll_iff in En as [_ ->]. apply (reloads_pexpireat el Hel); [done|done|]. change (at_ (adbs p) (asel t) k).1 with (value_of (asel t) k p). rewrite Ev. by eexists.
Qed.

(** *** Commands on several keys and databases *)

Lemma keep_expiry_facts d k w t : let t' := keep_expiry e d k w t in
  adbs t' = (if w =? -1 then adbs t else time_at d k w (adbs t)) /\ expirations (arep t') = expirations (arep t) /\ dirty (arep t') = dirty (arep t) /\ asel t' = asel t /\ aargs t' = aargs t.
Proof. unfold keep_expiry. cbn zeta. destruct (_ =? _); [done|]. apply expire_at_facts. Qed.
Lemma made_ready_facts d k v t : let t' := made_ready d k v t in
  adbs t' = adbs t /\ expirations (arep t') = expirations (arep t) /\ dirty (arep t') = dirty (arep t) /\ asel t' = asel t /\ aargs t' = aargs t.
Proof. unfold made_ready. cbn zeta. by case_bool_decide. Qed.
(** The purge of another key. *)
Lemma purge_other d k d' k' t : (d', k') <> (d, k) -> at_ (adbs (purge e d k t)) d' k' = at_ (adbs t) d' k'.
Proof. intros Hne. rewrite purge_at by done. by rewrite decide_False. Qed.
Lemma value_at d k t : value_of d k t = (at_ (adbs t) d k).1.
Proof. done. Qed.
Lemma expiry_or_at d k t : expiry_or d k t = default (-1) (at_ (adbs t) d k).2.
Proof. done. Qed.

(** The value with its time at another key, and the key is removed. *)
Definition moved (d k1 : _) (d' k2 : _) (v : aval) (w : Z) (l : list adb) : list adb :=
  let l := alter (fun db => mk_db (<[k2 := v]> (dict db)) (expires db)) d' l in
  drop_at (if w =? -1 then l else time_at d' k2 w l) (d, k1).
Lemma moved_facts f d k1 d' k2 v w t : let t' := drop_key d k1 (keep_expiry f d' k2 w (made_ready d' k2 v (store d' k2 v t))) in adbs t' = moved d k1 d' k2 v w (adbs t).
Proof. cbn zeta. unfold keep_expiry, made_ready, moved, expire_at. case_bool_decide; destruct (_ =? _); try done; by destruct (_ && _). Qed.
Lemma moved_sel f d k1 d' k2 v w t : asel (drop_key d k1 (keep_expiry f d' k2 w (made_ready d' k2 v (store d' k2 v t)))) = asel t.
Proof. unfold keep_expiry, made_ready, expire_at. case_bool_decide; destruct (_ =? _); try done; by destruct (_ && _). Qed.
Lemma moved_report d k1 d' k2 v w t : let t' := drop_key d k1 (keep_expiry e d' k2 w (made_ready d' k2 v (store d' k2 v t))) in
  expirations (arep t') = expirations (arep t) /\ dirty (arep t') = dirty (arep t) /\ asel t' = asel t /\ aargs t' = aargs t.
Proof. cbn zeta. unfold keep_expiry, made_ready, expire_at. case_bool_decide; destruct (_ =? _); try done; by destruct (_ && _). Qed.

Lemma rename_outcome c (nx : bool) t :
  c = (if nx then RENAMENX else RENAME) -> head (aargs t) ≫= lookupCommand = Some c -> arity_ok c (length (aargs t)) = true -> outcome t (arename e nx t).
Proof.
  intros Hc Hl Har. unfold arename. cbn zeta. set (p1 := purge e (asel t) (karg 1 t) t). destruct (value_of (asel t) (karg 1 t) p1) as [v|] eqn:Ev; [|by apply (outcome_read t (karg 1 t))].
  case_bool_decide as Hk; [by apply (outcome_read t (karg 1 t))|]. set (p := purge e (asel t) (karg 2 t) p1). assert (purged t p) as Hp by apply purged_purge, purged_purge, purged_refl.
  assert (dirty (arep p) = dirty (arep t)) as Hdp by (unfold p, p1; by rewrite !purge_dirty). assert (asel p = asel t /\ aargs p = aargs t) as [Hsp Hap] by (unfold p, p1; by rewrite !purge_sel, !purge_args).
  destruct (_ && nx) eqn:Enx; [apply (outcome_quiet t p); try done; cbn; lia|].
  assert (at_ (adbs p) (asel t) (karg 1 t) = at_ (adbs p1) (asel t) (karg 1 t)) as Hk1 by (apply purge_other; congruence).
  set (w := expiry_or (asel t) (karg 1 t) p1). set (q := drop_key (asel t) (karg 2 t) p).
  destruct (moved_report (asel t) (karg 1 t) (asel t) (karg 2 t) v w q) as (H1 & H2 & H3 & H4). change (aargs q) with (aargs p) in H4. change (asel q) with (asel p) in H3. pose proof (moved_facts e (asel t) (karg 1 t) (asel t) (karg 2 t) v w q) as H5. cbn zeta in *.
  set (r := drop_key (asel t) (karg 1 t) _) in *. assert (arity_ok c (length (aargs (shared (if nx then Cone else Ok) (changed 1 (notified "rename_to" (karg 2 t) (asel t) (notified "rename_from" (karg 1 t) (asel t) (touched (asel t) (karg 2 t) (touched (asel t) (karg 1 t) r)))))))) = true) as Har'.
  { cbn [aargs shared say changed notified touched log]. by rewrite H4, Hap. }
  apply (outcome_again c t p); try done.
  - cbn [aargs shared say changed notified touched log]. by rewrite H4, Hap.
  - by destruct c, nx.
  - cbn [asel shared say changed notified touched log]. by rewrite H3, Hsp.
  - cbn [arep shared say changed notified touched log dirty with_dirty add_event add_signal]. rewrite H2. change (arep q) with (arep p). lia.
  - intros u Hu Hs Ha. cbn [aargs shared say changed notified touched log] in Ha. rewrite H4, Hap in Ha. exists (arename el nx u). split; [by rewrite Hc; destruct nx|].
    unfold arename. rewrite !(same_karg t _ u Ha), !purge_loading, !value_at, Hu, Hs, Hk1, <-value_at, Ev by done. rewrite bool_decide_eq_false_2 by done.
    change (value_of (asel t) (karg 2 t) p) with (at_ (adbs p) (asel t) (karg 2 t)).1 in Enx. rewrite Enx, expiry_or_at, Hu, Hk1, <-expiry_or_at. fold w.
    change (adbs (shared _ (changed _ (notified _ _ _ (notified _ _ _ (touched _ _ (touched _ _ ?x))))))) with (adbs x). rewrite moved_facts, H5. change (adbs (drop_key (asel t) (karg 2 t) u)) with (drop_at (adbs u) (asel t, karg 2 t)). rewrite Hu. split; [done|].
    change (asel (shared _ (changed _ (notified _ _ _ (notified _ _ _ (touched _ _ (touched _ _ ?x))))))) with (asel x). by rewrite moved_sel.
Qed.
Lemma move_outcome t : head (aargs t) ≫= lookupCommand = Some MOVE -> arity_ok MOVE (length (aargs t)) = true -> outcome t (amove e t).
Proof.
  intros Hl Har. unfold amove. rewrite Hce. cbn zeta. destruct (string2ll (karg 2 t)) as [id|] eqn:Eid; [|by apply outcome_none]. destruct (_ && _ && _) eqn:Erange; [|by apply outcome_none]. case_bool_decide as Hsd; [by apply outcome_none|].
  set (k := karg 1 t). set (src := asel t) in *. set (dst := Z.to_nat id) in *. set (p1 := purge e src k t). destruct (value_of src k p1) as [v|] eqn:Ev; [|by apply (outcome_read t k)].
  set (p := purge e dst k p1). assert (purged t p) as Hp by apply purged_purge, purged_purge, purged_refl.
  assert (dirty (arep p) = dirty (arep t)) as Hdp by (unfold p, p1; by rewrite !purge_dirty). assert (asel p = asel t /\ aargs p = aargs t) as [Hsp Hap] by (unfold p, p1; by rewrite !purge_sel, !purge_args).
  case_bool_decide as Hv2; [apply (outcome_quiet t p); try done; cbn; lia|].
  assert (at_ (adbs p) src k = at_ (adbs p1) src k) as Hk1 by (apply purge_other; congruence).
  set (w := expiry_or src k p1). destruct (moved_report src k dst k v w p) as (H1 & H2 & H3 & H4). pose proof (moved_facts e src k dst k v w p) as H5. cbn zeta in *. set (r := drop_key src k _) in *.
  apply (outcome_again MOVE t p); try done.
  - cbn [aargs shared say changed log]. by rewrite H4, Hap.
  - cbn [aargs shared say changed log]. by rewrite H4, Hap.
  - cbn [asel shared say changed log]. by rewrite H3, Hsp.
  - cbn [arep shared say changed log dirty with_dirty]. rewrite H2. lia.
  - intros u Hu Hs Ha. cbn [aargs shared say changed log] in Ha. rewrite H4, Hap in Ha. exists (amove el u). split; [done|].
    assert (length (adbs u) = length (adbs t)) as Hlen by (rewrite Hu; destruct Hp as (ex & _ & -> & _); apply drops_length).
    unfold amove. rewrite Hcl, !(same_karg t _ u Ha), Eid, Hs, Hlen, Erange. fold k src dst. rewrite bool_decide_eq_false_2, !purge_loading, !value_at, Hu, Hk1, <-value_at, Ev by done.
    rewrite value_at in Hv2. rewrite bool_decide_eq_false_2, expiry_or_at, Hu, Hk1, <-expiry_or_at by done. fold w.
    change (adbs (shared _ (changed _ ?x))) with (adbs x). rewrite moved_facts, H5, Hu. split; [done|]. change (asel (shared _ (changed _ ?x))) with (asel x). by rewrite moved_sel.
Qed.
Lemma ready_lists_data f d t : adbs (ready_lists f d t) = adbs t /\ expirations (arep (ready_lists f d t)) = expirations (arep t) /\ dirty (arep (ready_lists f d t)) = dirty (arep t) /\ asel (ready_lists f d t) = asel t /\ aargs (ready_lists f d t) = aargs t.
Proof.
  unfold ready_lists. generalize (k_blocking f d). intros l. revert t. induction l as [|k l IH]; intros t; [done|]. cbn [foldl]. destruct (value_of d k t) as [v|]; [|apply IH]. case_bool_decide; [|apply IH]. apply (IH (log (add_ready (d, k)) t)).
Qed.
Lemma swapdb_outcome t : head (aargs t) ≫= lookupCommand = Some SWAPDB -> arity_ok SWAPDB (length (aargs t)) = true -> outcome t (aswapdb e t).
Proof.
  intros Hl Har. unfold aswapdb. rewrite Hce. destruct (string2ll (karg 1 t)) as [i|] eqn:Ei; [|by apply outcome_none]. destruct (string2ll (karg 2 t)) as [j|] eqn:Ej; [|by apply outcome_none]. cbn zeta.
  destruct (_ && _ && _ && _) eqn:Er; [|by apply outcome_none].
  set (t1 := if s32 i =? s32 j then t else _). assert (expirations (arep t1) = expirations (arep t) /\ dirty (arep t1) = dirty (arep t) /\ asel t1 = asel t /\ aargs t1 = aargs t) as (H1 & H2 & H3 & H4).
  { unfold t1. destruct (_ =? _); [done|]. repeat match goal with |- context [ready_lists e ?d ?x] => destruct (ready_lists_data e d x) as (_ & -> & -> & -> & ->) end. done. }
  apply (outcome_again SWAPDB t t); try done.
  - cbn [aargs shared say changed log]. by rewrite H4.
  - cbn [aargs shared say changed log]. by rewrite H4.
  - apply purged_refl.
  - cbn [arep shared say changed log dirty with_dirty]. rewrite H2. lia.
  - intros u Hu Hs Ha. cbn [aargs shared say changed log] in Ha. rewrite H4 in Ha. exists (aswapdb el u). split; [done|]. unfold aswapdb. rewrite Hcl, !(same_karg t _ u Ha), Ei, Ej, Hu, Er. change (adbs (shared _ (changed _ ?x))) with (adbs x). change (asel (shared _ (changed _ ?x))) with (asel x).
    unfold t1. destruct (_ =? _); [done|].
    assert (forall f d x, adbs (ready_lists f d x) = adbs x /\ asel (ready_lists f d x) = asel x) as Hrl by (intros f d x; by destruct (ready_lists_data f d x) as (? & _ & _ & ? & _)).
    rewrite !(proj1 (Hrl _ _ _)), !(proj2 (Hrl _ _ _)). unfold the_db. cbn. by rewrite Hu.
Qed.
Lemma select_outcome t : outcome t (aselect e t).
Proof. unfold aselect. destruct (string2ll _); [|by apply outcome_none]. destruct (k_cluster e && _); [by apply outcome_none|]. destruct (_ && _); by apply outcome_none. Qed.

(** *** Flushing *)

Lemma at_flush l d d' k : at_ (alter (fun _ => no_keys) d l) d' k = if decide (d' = d) then (None, None) else at_ l d' k.
Proof.
  unfold at_. case_decide as Hd; [|by rewrite list_lookup_alter_ne]. subst. rewrite list_lookup_alter_eq. by destruct (l !! d).
Qed.
Lemma flushdb_outcome t : head (aargs t) ≫= lookupCommand = Some FLUSHDB -> arity_ok FLUSHDB (length (aargs t)) = true -> data_ok (adbs t) -> outcome t (aflushdb t).
Proof.
  intros Hl Har Hok. unfold aflushdb. destruct (flush_args t) eqn:Ef; cbn [negb]; [|by apply outcome_none]. apply (outcome_again FLUSHDB t t); try done; [apply purged_refl|..].
  - intros Hd. cbn in Hd. assert (dict (the_db (asel t) t) = ∅) as Hem by (apply map_size_empty_inv; lia). apply data_ext; [cbn; by rewrite length_alter|]. intros d' k'. cbn. rewrite at_flush. case_decide as Hx; [|done]. subst.
    assert ((at_ (adbs t) (asel t) k').1 = None) as Hn by (unfold at_, the_db in *; cbn in *; change (mk_db ∅ ∅ : adb) with no_keys in Hem; by rewrite Hem). pose proof (data_ok_at _ _ _ Hok Hn). destruct (at_ _ _ _); cbn in *; congruence.
  - intros u Hu Hs Ha. eexists. split; [done|]. unfold aflushdb. assert (flush_args u = true) as -> by (unfold flush_args in *; by rewrite Ha). cbn. by rewrite Hu, Hs.
Qed.
(** The number of changes fits an int when it is saved and restored. *)
Definition flush_counts (t : ast) : Prop := k_saveparams e = true -> - 2 ^ 31 <= dirty (arep t) /\ dirty (arep t) + all_keys t < 2 ^ 31.
Lemma all_keys_nonneg l : 0 <= foldr (fun (db : adb) n => Z.of_nat (base.size (dict db)) + n) 0 l.
Proof. induction l as [|db l IH]; cbn; lia. Qed.
Lemma flushall_outcome t : head (aargs t) ≫= lookupCommand = Some FLUSHALL -> arity_ok FLUSHALL (length (aargs t)) = true -> flush_counts t -> outcome t (aflushall e t).
Proof.
  intros Hl Har Hfc. unfold aflushall. destruct (flush_args t) eqn:Ef; cbn [negb]; [|by apply outcome_none]. cbn zeta. apply (outcome_again FLUSHALL t t).
  - by destruct (k_saveparams e).
  - by destruct (k_saveparams e).
  - done.
  - apply purged_refl.
  - by destruct (k_saveparams e).
  - by destruct (k_saveparams e).
  - pose proof (all_keys_nonneg (adbs t)) as Hn. fold (all_keys t) in Hn. unfold flush_counts in Hfc. destruct (k_saveparams e); cbn; [|lia]. destruct (Hfc eq_refl). rewrite s32_small by (unfold INT32_MIN, INT32_MAX; lia). lia.
  - intros u Hu Hs Ha. assert (aargs u = aargs t) as Ha' by (rewrite Ha; by destruct (k_saveparams e)). eexists. split; [done|]. unfold aflushall. assert (flush_args u = true) as -> by (unfold flush_args in *; by rewrite Ha'). cbn [negb]. cbn zeta.
    destruct (k_saveparams e), (k_saveparams el); cbn; by rewrite Hu.
Qed.

(** *** Commands with many keys *)

Lemma purge_cases f d k t : purge f d k t = t \/ purge f d k t = drop_key d k (notified "expired" k d (log (add_expiration (d, k)) t)).
Proof. unfold purge. destruct (_ && _); [by right|by left]. Qed.
(** From t to t' keys of the database d have been changed, and some of them have expired. *)
Definition touches (d : nat) (keys : list key) (t t' : ast) (ex : list (nat * key)) : Prop :=
  expirations (arep t') = expirations (arep t) ++ ex /\ (forall x, x ∈ ex -> x.1 = d /\ x.2 ∈ keys) /\ length (adbs t') = length (adbs t) /\ asel t' = asel t /\ aargs t' = aargs t /\
  (forall d' k', ~ (d' = d /\ k' ∈ keys) -> at_ (adbs t') d' k' = at_ (adbs t) d' k').
Lemma touches_refl d keys t : touches d keys t t [].
Proof. split_and!; try done; [by rewrite app_nil_r|]. by intros x ?%not_elem_of_nil. Qed.
Lemma touches_trans d keys t t1 t2 ex1 ex2 : touches d keys t t1 ex1 -> touches d keys t1 t2 ex2 -> touches d keys t t2 (ex1 ++ ex2).
Proof.
  intros (H1 & H2 & H3 & H4 & H5 & H6) (G1 & G2 & G3 & G4 & G5 & G6). split_and!; try congruence; [by rewrite G1, H1, app_assoc| |].
  - intros x [?|?]%elem_of_app; auto.
  - intros d' k' Hn. rewrite G6, H6; done.
Qed.
Lemma touches_weaken d keys keys' t t' ex : (forall k, k ∈ keys -> k ∈ keys') -> touches d keys t t' ex -> touches d keys' t t' ex.
Proof. intros Hk (H1 & H2 & H3 & H4 & H5 & H6). split_and!; try done; [intros x Hx; destruct (H2 x Hx); auto|]. intros d' k' Hn. apply H6. intros [? ?]. auto. Qed.
Lemma touches_purge f d k t : exists ex, touches d [k] t (purge f d k t) ex /\ adbs (purge f d k t) = drops (adbs t) ex.
Proof.
  destruct (purge_cases f d k t) as [->| ->]; [exists []; split; [apply touches_refl|done]|]. exists [(d, k)]. split; [|done]. split_and!; try done; [intros x ->%list_elem_of_singleton; split; [done|by left]|cbn; apply length_alter|].
  intros d' k' Hn. change (adbs (drop_key d k _)) with (drop_at (adbs t) (d, k)). rewrite at_drop, decide_False; [done|]. intros [= -> ->]. apply Hn. split; [done|by left].
Qed.
(** The state with the same report in which the keys have just expired. *)
Definition expired_state (t : ast) (ex : list (nat * key)) : ast := with_adbs (drops (adbs t) ex) (log (fun r => mk_report (dirty r) (signals r) (flushed r) (events r) (expirations r ++ ex) (ready r) (slaveKeysWithExpire r)) t).
Lemma expired_state_purged t ex : (forall x, x ∈ ex -> (x.1 < length (adbs t))%nat) -> purged t (expired_state t ex).
Proof. intros Hx. by exists ex. Qed.
Lemma touches_in d keys t t' ex : touches d keys t t' ex -> (d < length (adbs t))%nat -> forall x, x ∈ ex -> (x.1 < length (adbs t))%nat.
Proof. intros (_ & H2 & _) Hd x Hx. by destruct (H2 x Hx) as [-> _]. Qed.
Lemma expired_state_at t t' d keys ex : touches d keys t t' ex -> forall d' k', ~ (d' = d /\ k' ∈ keys) -> at_ (adbs (expired_state t ex)) d' k' = at_ (adbs t') d' k'.
Proof. intros (_ & H2 & _ & _ & _ & H6) d' k' Hn. rewrite H6 by done. cbn. rewrite at_drops, decide_False; [done|]. intros Hin. by apply H2 in Hin. Qed.

(** Folds that only let keys expire. *)
Lemma purged_fold {A} (f : A * ast -> key -> A * ast) d l a t0 t :
  (forall a t k, adbs (f (a, t) k).2 = adbs (purge e d k t) /\ arep (f (a, t) k).2 = arep (purge e d k t) /\ asel (f (a, t) k).2 = asel t /\ aargs (f (a, t) k).2 = aargs t) -> purged t0 t -> purged t0 (foldl f (a, t) l).2.
Proof.
  intros Hf. revert a t. induction l as [|k l IH]; intros a t Hp; [done|]. cbn [foldl]. destruct (f (a, t) k) as [a' t'] eqn:Ef. apply IH. destruct (Hf a t k) as (H1 & H2 & H3 & H4). rewrite Ef in H1, H2, H3, H4. cbn in *.
  destruct (purged_purge e d k t0 t Hp) as (ex & G1 & G2 & G3 & G4 & G5 & G6). exists ex. rewrite H1, H2, H3, H4. rewrite purge_sel in G4. rewrite purge_args in G5. done.
Qed.
Lemma purged_outcome t p i : purged t p -> outcome t (say i p).
Proof. intros Hp. apply (outcome_quiet t p); try done. destruct Hp as (ex & _ & _ & Hd & _). cbn. lia. Qed.
Lemma exists_outcome t : outcome t (aexists e t).
Proof.
  unfold aexists. cbn zeta. match goal with |- context [foldl ?f _ _] => pose proof (purged_fold f (asel t) (tail (aargs t)) 0 t t) as Hf end. destruct (foldl _ _ _) as [x t1]. cbn [snd] in Hf. apply purged_outcome, Hf; [|apply purged_refl].
  intros a t' k. cbn. by rewrite purge_sel, purge_args.
Qed.
Lemma mget_outcome t : outcome t (amget e t).
Proof.
  unfold amget. cbn zeta. generalize (RMultiBulkLen (zlen (tail (aargs t)))). intros i. set (g := fun t' k => say _ (purge e (asel t) k t')).
  assert (forall l t', purged t t' -> purged t (foldl g t' l)) as Hg.
  { intros l. induction l as [|k l IH]; intros t' Hp; [done|]. cbn [foldl]. apply IH. by apply purged_say, purged_purge. }
  assert (purged t (foldl g (say i t) (tail (aargs t)))) as Hp by (apply Hg; by apply purged_say, purged_refl). apply (outcome_quiet t _ _ Hp); try done. destruct Hp as (ex & _ & _ & Hd & _). lia.
Qed.

(** DEL removes the keys. *)
Definition del_key (f : kenv) (d : nat) : Z * ast -> key -> Z * ast := fun '(n, t) k =>
  let t := purge f d k t in if bool_decide (is_Some (value_of d k t)) then (n + 1, changed 1 (notified "del" k d (touched d k (drop_key d k t)))) else (n, t).
Lemma del_key_step f d n t k : data_ok (adbs t) ->
  let '(n', t') := del_key f d (n, t) k in
  data_ok (adbs t') /\ n <= n' /\ dirty (arep t') = dirty (arep t) + (n' - n) /\ at_ (adbs t') d k = (None, None) /\
  exists ex, touches d [k] t t' ex /\ (n' = n -> adbs t' = drops (adbs t) ex).
Proof.
  intros Hok. cbn. destruct (touches_purge f d k t) as (ex & Ht & Hd). assert (data_ok (adbs (purge f d k t))) as Hok' by (rewrite Hd; by apply drops_ok).
  assert (dirty (arep (purge f d k t)) = dirty (arep t)) as Hdi by (destruct (purge_cases f d k t) as [-> | ->]; done). case_bool_decide as Hv.
  - change (adbs (changed _ _)) with (drop_at (adbs (purge f d k t)) (d, k)). split; [by apply drop_at_ok|]. split; [lia|]. split; [cbn; lia|]. split; [by rewrite at_drop, decide_True|]. exists ex. split; [|lia].
    destruct Ht as (H1 & H2 & H3 & H4 & H5 & H6). split_and!; try done; [cbn; by rewrite length_alter|]. intros d' k' Hn. change (adbs (changed _ _)) with (drop_at (adbs (purge f d k t)) (d, k)).
    rewrite at_drop, decide_False by (intros [= -> ->]; apply Hn; split; [done|by left]). by apply H6.
  - split; [done|]. split; [lia|]. split; [lia|]. split; [|exists ex; by split]. rewrite value_at, <-eq_None_not_Some in Hv. pose proof (data_ok_at _ _ _ Hok' Hv). destruct (at_ _ _ _); cbn in *; congruence.
Qed.
Lemma del_fold f d l : forall n t, data_ok (adbs t) ->
  let '(n', t') := foldl (del_key f d) (n, t) l in
  n <= n' /\ dirty (arep t') = dirty (arep t) + (n' - n) /\ (forall k, k ∈ l -> at_ (adbs t') d k = (None, None)) /\ exists ex, touches d l t t' ex /\ (n' = n -> adbs t' = drops (adbs t) ex).
Proof.
  induction l as [|k l IH]; intros n t Hok; cbn [foldl].
  { split; [lia|]. split; [lia|]. split; [by intros k ?%not_elem_of_nil|]. exists []. split; [apply touches_refl|done]. }
  pose proof (del_key_step f d n t k Hok) as Hs. destruct (del_key f d (n, t) k) as [n1 t1]. destruct Hs as (Hok1 & Hn1 & Hd1 & Ha1 & ex1 & Ht1 & Hq1).
  specialize (IH n1 t1 Hok1). destruct (foldl (del_key f d) (n1, t1) l) as [n2 t2]. destruct IH as (Hn2 & Hd2 & Ha2 & ex2 & Ht2 & Hq2). split; [lia|]. split; [lia|]. split.
  - intros k' [->|Hk']%elem_of_cons; [|by apply Ha2]. destruct (decide (k ∈ l)) as [Hk|Hk]; [by apply Ha2|]. destruct Ht2 as (_ & _ & _ & _ & _ & H6). rewrite H6; [done|]. by intros [_ ?].
  - exists (ex1 ++ ex2). split; [|intros Hn; by rewrite drops_app, <-Hq1, Hq2 by lia].
    apply (touches_trans _ _ _ t1); [apply (touches_weaken _ [k]); [by intros k' ->%list_elem_of_singleton; left|done]|apply (touches_weaken _ l); [by right|done]].
Qed.
Lemma adel_eq f t : adel f t = let '(n, t') := foldl (del_key f (asel t)) (0, t) (tail (aargs t)) in say (RLongLong n) t'.
Proof. done. Qed.
Lemma del_outcome c t : c = DEL \/ c = UNLINK -> head (aargs t) ≫= lookupCommand = Some c -> arity_ok c (length (aargs t)) = true -> (asel t < length (adbs t))%nat -> data_ok (adbs t) -> outcome t (adel e t).
Proof.
  intros Hc Hl Har Hlt Hok. rewrite adel_eq. pose proof (del_fold e (asel t) (tail (aargs t)) 0 t Hok) as Hf. destruct (foldl _ _ _) as [n t'] eqn:Efold. destruct Hf as (Hn & Hd & Ha & ex & Ht & Hq).
  pose proof (expired_state_at _ _ _ _ _ Ht) as Hat. pose proof (touches_in _ _ _ _ _ Ht Hlt) as Hin. destruct Ht as (H1 & H2 & H3 & H4 & H5 & H6). apply (outcome_again c t (expired_state t ex)); try done.
  - cbn. by rewrite H5.
  - cbn. by rewrite H5.
  - by destruct Hc as [-> | ->].
  - by apply expired_state_purged.
  - cbn. intros Hle. apply Hq. lia.
  - intros u Hu Hs Hau. cbn in Hau. rewrite H5 in Hau. exists (adel el u). split; [by destruct Hc as [-> | ->]|]. rewrite adel_eq, Hs, Hau.
    assert (data_ok (adbs u)) as Hoku by (rewrite Hu; by apply drops_ok). pose proof (del_fold el (asel t) (tail (aargs t)) 0 u Hoku) as Hf. destruct (foldl (del_key el (asel t)) (0, u) (tail (aargs t))) as [n2 u']. destruct Hf as (_ & _ & Ha2 & ex2 & (_ & _ & G3 & G4 & _ & G6) & _). cbn. split; [|congruence].
    apply data_ext; [rewrite G3, Hu, H3; cbn; apply drops_length|]. intros d' k'. destruct (decide (d' = asel t /\ k' ∈ tail (aargs t))) as [[-> Hk]|Hno]; [by rewrite Ha, Ha2|]. rewrite G6, Hu by done. by apply Hat.
Qed.

(** MSET sets the keys, whatever they held. *)
Lemma replace_at f d k v t d' k' :
  at_ (adbs (replace f d k v t)) d' k' = if decide ((d', k') = (d, k)) then (if (d <? length (adbs t))%nat then (Some v, None) else (None, None)) else at_ (adbs t) d' k'.
Proof.
  destruct (touches_purge f d k t) as (ex & (_ & _ & H3 & _ & _ & H6) & _). unfold replace. change (adbs (touched _ _ _)) with
    (alter (fun db => mk_db (dict db) (delete k (expires db))) d (alter (fun db : adb => mk_db (<[k := v]> (dict db)) (expires db)) d (adbs (purge f d k t)))).
  case_decide as Hx.
  - injection Hx as -> ->. unfold at_. rewrite !list_lookup_alter_eq. destruct (Nat.ltb_spec d (length (adbs t))) as [Hlt|Hge].
    + rewrite <-H3 in Hlt. apply lookup_lt_is_Some in Hlt as [db ->]. cbn. by rewrite lookup_insert_eq, lookup_delete_eq.
    + by rewrite lookup_ge_None_2 by lia.
  - rewrite <-H6 by (intros [-> ->%list_elem_of_singleton]; done). unfold at_. destruct (decide (d' = d)) as [->|Hd]; [|by rewrite !list_lookup_alter_ne]. rewrite !list_lookup_alter_eq.
    destruct (adbs (purge f d k t) !! d) as [db|]; [|done]. cbn. assert (k' <> k) by congruence. by rewrite lookup_insert_ne, lookup_delete_ne.
Qed.
Lemma replace_touches f d k v t : exists ex, touches d [k] t (replace f d k v t) ex /\ dirty (arep (replace f d k v t)) = dirty (arep t).
Proof.
  destruct (touches_purge f d k t) as (ex & (H1 & H2 & H3 & H4 & H5 & H6) & _). exists ex. split; [|destruct (purge_cases f d k t) as [E|E]; unfold replace; rewrite E; done].
  split_and!; try done; [by rewrite replace_length|]. intros d' k' Hn. rewrite replace_at, decide_False; [done|]. intros [= -> ->]. apply Hn. split; [done|by left].
Qed.
Definition put_pair (f : kenv) (d : nat) (t : ast) (kv : key * list Z) : ast := notified "set" kv.1 d (replace f d kv.1 (AString kv.2) t).
Lemma put_touches f d l : forall t, exists ex, touches d l.*1 t (foldl (put_pair f d) t l) ex /\ dirty (arep (foldl (put_pair f d) t l)) = dirty (arep t).
Proof.
  induction l as [|[k v] l IH]; intros t; cbn [foldl fmap list_fmap fst]; [exists []; split; [apply touches_refl|done]|].
  destruct (replace_touches f d k (AString v) t) as (ex1 & Ht1 & Hd1). destruct (IH (put_pair f d t (k, v))) as (ex2 & Ht2 & Hd2). exists (ex1 ++ ex2). split; [|by rewrite Hd2].
  eapply touches_trans; [eapply (touches_weaken _ [k]); [|exact Ht1]; by intros k' ->%list_elem_of_singleton; left|]. eapply (touches_weaken _ l.*1); [by right|]. exact Ht2.
Qed.
Lemma put_agree f g d l : forall t u, length (adbs t) = length (adbs u) -> (forall d' k', ~ (d' = d /\ k' ∈ l.*1) -> at_ (adbs t) d' k' = at_ (adbs u) d' k') ->
  adbs (foldl (put_pair f d) t l) = adbs (foldl (put_pair g d) u l).
Proof.
  induction l as [|[k v] l IH]; intros t u Hl Hag; cbn [foldl].
  { apply data_ext; [done|]. intros d' k'. apply Hag. cbn. by intros [_ ?%not_elem_of_nil]. }
  apply IH.
  - change (length (adbs (replace f d k (AString v) t)) = length (adbs (replace g d k (AString v) u))). by rewrite !replace_length.
  - intros d' k' Hn. change (at_ (adbs (replace f d k (AString v) t)) d' k' = at_ (adbs (replace g d k (AString v) u)) d' k'). rewrite !replace_at, Hl. case_decide as Hx; [done|]. apply Hag. cbn.
    intros [-> [->|?]%elem_of_cons]; [done|]. by apply Hn.
Qed.
Lemma any_there_facts f d l : forall t, let '(b, t1) := any_there f d l t in exists ex, touches d l t t1 ex /\ adbs t1 = drops (adbs t) ex /\ dirty (arep t1) = dirty (arep t) /\
  (b = false -> forall k, k ∈ l -> (at_ (adbs t1) d k).1 = None).
Proof.
  induction l as [|k l IH]; intros t; cbn [any_there]; [exists []; split_and!; [apply touches_refl|done|done|by intros _ k ?%not_elem_of_nil]|].
  destruct (touches_purge f d k t) as (ex1 & Ht1 & Hd1). assert (dirty (arep (purge f d k t)) = dirty (arep t)) as Hdi by (destruct (purge_cases f d k t) as [-> | ->]; done). apply (touches_weaken _ _ (k :: l)) in Ht1; [|by intros k' ->%list_elem_of_singleton; left].
  cbn zeta. case_bool_decide as Hv; [exists ex1; by split_and!|]. specialize (IH (purge f d k t)). destruct (any_there f d l (purge f d k t)) as [b t1]. destruct IH as (ex2 & Ht2 & Hd2 & Hdi2 & Hn2).
  exists (ex1 ++ ex2). split_and!; [eapply touches_trans; [done|]; by eapply touches_weaken; [|done]; right|by rewrite drops_app, <-Hd1|congruence|].
  intros Hb k' [->|Hk']%elem_of_cons; [|by apply Hn2]. rewrite Hd2, at_drops. case_decide; [done|]. by rewrite value_at, <-eq_None_not_Some in Hv.
Qed.
Lemma any_there_none d l u : (forall k, k ∈ l -> (at_ (adbs u) d k).1 = None) -> any_there el d l u = (false, u).
Proof.
  induction l as [|k l IH]; intros Hn; [done|]. cbn [any_there]. rewrite purge_loading by done. cbn zeta. rewrite bool_decide_eq_false_2; [apply IH; intros k' ?; apply Hn; by right|]. rewrite value_at, Hn by left. by intros [? ?].
Qed.
Lemma pairs_nonempty l : (2 <= length l)%nat -> 0 < zlen (pairs l).
Proof. destruct l as [|a [|b l]]; cbn; lia. Qed.
Lemma mset_outcome (nx : bool) c t : c = (if nx then MSETNX else MSET) -> head (aargs t) ≫= lookupCommand = Some c -> arity_ok c (length (aargs t)) = true -> (asel t < length (adbs t))%nat -> outcome t (amset e nx t).
Proof.
  intros Hc Hl Har Hlt. unfold amset. destruct (Nat.modulo _ _ =? 0)%nat eqn:Ev; [by apply outcome_none|]. cbn zeta. set (l := pairs (tail (aargs t))).
  assert (exists ex, touches (asel t) l.*1 t (if nx then any_there e (asel t) l.*1 t else (false, t)).2 ex /\ adbs (if nx then any_there e (asel t) l.*1 t else (false, t)).2 = drops (adbs t) ex /\ dirty (arep (if nx then any_there e (asel t) l.*1 t else (false, t)).2) = dirty (arep t) /\
    ((if nx then any_there e (asel t) l.*1 t else (false, t)).1 = false -> nx = true -> forall k, k ∈ l.*1 -> (at_ (adbs (if nx then any_there e (asel t) l.*1 t else (false, t)).2) (asel t) k).1 = None)) as (ex1 & Ht1 & Hd1 & Hdi1 & Hn1).
  { destruct nx; [|exists []; split_and!; [apply touches_refl|done..]]. pose proof (any_there_facts e (asel t) l.*1 t) as Hf. destruct (any_there _ _ _ _) as [b t1]. destruct Hf as (ex & H1 & H2 & H3 & H4). exists ex. split_and!; try done. auto. }
  destruct (if nx then any_there e (asel t) l.*1 t else (false, t)) as [found t1] eqn:Eany. cbn [fst snd] in *. destruct found.
  { pose proof (touches_in _ _ _ _ _ Ht1 Hlt). destruct Ht1 as (H1 & H2 & H3 & H4 & H5 & H6). apply (outcome_quiet t (expired_state t ex1)); [by apply expired_state_purged|done|done|]. cbn. lia. }
  fold (put_pair e (asel t)). destruct (put_touches e (asel t) l t1) as (ex2 & Ht2 & Hdi2). pose proof (touches_trans _ _ _ _ _ _ _ Ht1 Ht2) as Ht. pose proof (expired_state_at _ _ _ _ _ Ht) as Hat. pose proof (touches_in _ _ _ _ _ Ht Hlt) as Hin.
  destruct Ht as (H1 & H2 & H3 & H4 & H5 & H6). set (r := foldl (put_pair e (asel t)) t1 l) in *.
  assert (0 < zlen l) as Hpos.
  { apply pairs_nonempty. apply arity_range in Har as [_ Hneg]. assert (3 <= Z.of_nat (length (aargs t))) by (destruct nx; subst; by apply Hneg). destruct (aargs t) as [|? [|? [|? ?]]]; cbn in *; lia. }
  apply (outcome_again c t (expired_state t (ex1 ++ ex2))); try done.
  - cbn [aargs shared say changed log]. by rewrite H5.
  - cbn [aargs shared say changed log]. by rewrite H5.
  - destruct nx; by subst.
  - by apply expired_state_purged.
  - cbn [arep shared say changed log dirty with_dirty]. lia.
  - intros u Hu Hs Hau. cbn [aargs shared say changed log] in Hau. rewrite H5 in Hau. exists (amset el nx u). split; [destruct nx; by subst|]. unfold amset. rewrite Hau, Ev, Hs. cbn zeta. fold l. fold (put_pair el (asel t)).
    assert ((if nx then any_there el (asel t) l.*1 u else (false, u)) = (false, u)) as ->.
    { destruct nx; [|done]. apply any_there_none. intros k Hk. rewrite Hu. change (adbs (expired_state t (ex1 ++ ex2))) with (drops (adbs t) (ex1 ++ ex2)). rewrite drops_app, at_drops, <-Hd1. case_decide; [done|]. by apply Hn1. }
    change (adbs (shared _ (changed _ ?x))) with (adbs x). change (asel (shared _ (changed _ ?x))) with (asel x). destruct (put_touches el (asel t) l u) as (ex3 & (_ & _ & _ & G4 & _ & _) & _). split; [|by rewrite G4].
    apply put_agree; [rewrite Hu; destruct Ht1 as (_ & _ & -> & _); cbn; apply drops_length|]. intros d' k' Hn. rewrite Hu, Hat by done. destruct Ht2 as (_ & _ & _ & _ & _ & G6). by rewrite G6.
Qed.

(** *** Any command *)

Lemma exec_outcome c t t' :
  head (aargs t) ≫= lookupCommand = Some c -> arity_ok c (length (aargs t)) = true -> (asel t < length (adbs t))%nat -> data_ok (adbs t) -> (c = SET -> one_time (aargs t) = true) -> (c = FLUSHALL -> flush_counts t) ->
  aexec e c t = Some t' -> outcome t t'.
Proof.
  intros Hl Har Hlt Hok Hone Hfc Hex. destruct c; cbn [aexec] in Hex; try (injection Hex as <-).
  - by apply (outcome_read t (karg 1 t)).
  - by apply SET_outcome; auto.
  - by apply setnx_outcome.
  - eapply (setex_outcome SETEX _ _ true); [left; done|done..].
  - eapply (setex_outcome PSETEX _ _ false); [right; done|done..].
  - by apply (getset_outcome t GETSET).
  - by apply setrange_outcome.
  - unfold agetrange. destruct (string2ll _); [|by apply outcome_none]. destruct (string2ll _); [|by apply outcome_none]. by apply (outcome_read t (karg 1 t)).
  - apply mget_outcome.
  - by apply (mset_outcome false MSET).
  - by apply (mset_outcome true MSETNX).
  - by apply (incr_outcome t INCR).
  - by apply (incr_outcome t DECR).
  - unfold aincrby. destruct (string2ll (karg 2 t)) as [n|] eqn:En; [|by apply outcome_none]. apply (incr_outcome t INCRBY); try done. intros u Ha. cbn [aexec]. unfold aincrby. by rewrite (same_karg t _ u Ha), En.
  - unfold adecrby in Hex. destruct (string2ll (karg 2 t)) as [n|] eqn:En; [|injection Hex as <-; by apply outcome_none]. destruct (ll_checked (- n)) as [m|] eqn:Em; cbn [mbind option_bind] in Hex; [|done]. injection Hex as <-.
    apply (incr_outcome t DECRBY); try done. intros u Ha. cbn [aexec]. unfold adecrby. by rewrite (same_karg t _ u Ha), En, Em.
  - by apply (append_outcome t APPEND).
  - by apply (outcome_read t (karg 1 t)).
  - apply (del_outcome DEL); auto.
  - apply (del_outcome UNLINK); auto.
  - apply exists_outcome.
  - apply exists_outcome.
  - apply select_outcome.
  - by apply flushdb_outcome.
  - by apply flushall_outcome; auto.
  - by apply outcome_none.
  - by apply (outcome_read t (karg 1 t)).
  - by apply (rename_outcome RENAME false).
  - by apply (rename_outcome RENAMENX true).
  - by apply move_outcome.
  - by apply swapdb_outcome.
  - by apply (expire_outcome EXPIRE (k_now e) true).
  - by apply (expire_outcome EXPIREAT 0 true).
  - by apply (expire_outcome PEXPIRE (k_now e) false).
  - by apply (expire_outcome PEXPIREAT 0 false).
  - unfold attl in Hex. destruct (visible _ _ _ _); [|injection Hex as <-; by apply (outcome_read t (karg 1 t))]. cbn zeta in Hex. destruct (_ =? _); [injection Hex as <-; by apply (outcome_read t (karg 1 t))|].
    destruct (ll_checked _); cbn [mbind option_bind] in Hex; [|done]. destruct (ll_checked _); cbn [mbind option_bind] in Hex; [|done]. injection Hex as <-. by apply (outcome_read t (karg 1 t)).
  - unfold attl in Hex. destruct (visible _ _ _ _); [|injection Hex as <-; by apply (outcome_read t (karg 1 t))]. cbn zeta in Hex. destruct (_ =? _); [injection Hex as <-; by apply (outcome_read t (karg 1 t))|].
    destruct (ll_checked _); cbn [mbind option_bind] in Hex; [|done]. injection Hex as <-. by apply (outcome_read t (karg 1 t)).
  - by apply persist_outcome.
Qed.
End Outcome.
