(* ===== verification/KeyspaceRebuild.v ===== *)
(** * The log of the commands on counted objects

    What a command on objects writes to the append only file is what it writes on maps of byte strings: the numbers among the arguments are written as text, the options of SET stay character strings, and the
    arguments that are left after a command are those it was given or a deletion.  At the end, the SELECT commands between the entries and the deletions of expired keys when they are loaded. *)
From stdpp Require Import prelude list gmap strings.
From Stdlib Require Import ZArith Lia.
From S2P Require Import Prelude Util SdsText Rio Rdb Reply Resp Aof Keyspace KeyCommands KeyspaceAbs KeyspaceInv KeyspaceRel KeyspaceRefine KeyspaceKeys KeyspaceFrame KeyspaceSpec KeyspaceAof KeyspaceReplay.

Local Open Scope Z_scope.
Local Open Scope redis_scope.

#[local] Arguments str : simpl never.
#[local] Arguments ll_checked : simpl never.
#[local] Arguments lookupCommand : simpl never.

(** ** The options of SET stay character strings *)

(** A computation that leaves the arguments from the third on in place, and encodes no object as a number but those of X. *)
Definition keeps_args {A} (X : Z -> Prop) (m : K A) : Prop := forall s a s', m s = Some (a, s') ->
  next s <= next s' /\ (forall i, (3 <= i)%nat -> kargv s' !! i = kargv s !! i) /\
  (forall x o, x < next s -> ~ X x -> heap s' !! x = Some o -> exists o0, heap s !! x = Some o0 /\ (is_Some (sds_of (val o0)) -> is_Some (sds_of (val o)))).
Section Keeps.
Context (X : Z -> Prop).
Lemma ka_same {A} (m : K A) : (forall s a s', m s = Some (a, s') -> heap s' = heap s /\ next s' = next s /\ kargv s' = kargv s) -> keeps_args X m.
Proof. intros Hm s a s' E. destruct (Hm s a s' E) as (-> & -> & ->). split; [lia|]. split; [done|]. intros x o _ _ Ho. by exists o. Qed.
Lemma ka_ret {A} (a : A) : keeps_args X (mret a).
Proof. apply ka_same. by intros s a' s' [= _ <-]. Qed.
Lemma ka_bind {A B} (m : K A) (f : A -> K B) : keeps_args X m -> (forall a, keeps_args X (f a)) -> keeps_args X (m ≫= f).
Proof.
  intros Hm Hf s b s' E. unfold mbind, K_bind in E. destruct (m s) as [[a s1]|] eqn:E1; cbn [mbind option_bind] in E; [|done]. destruct (Hm s a s1 E1) as (N1 & A1 & H1), (Hf a s1 b s' E) as (N2 & A2 & H2). split; [lia|]. split.
  - intros i Hi. by rewrite A2, A1.
  - intros x o Hx HX Ho. destruct (H2 x o ltac:(lia) HX Ho) as (o1 & Ho1 & Hs1). destruct (H1 x o1 Hx HX Ho1) as (o0 & Ho0 & Hs0). exists o0. auto.
Qed.
Lemma ka_lift {A} (o : option A) : keeps_args X (liftK o).
Proof. apply ka_same. intros s a s'. unfold liftK. destruct o; cbn; [|done]. by intros [= _ <-]. Qed.
Lemma ka_assert b : keeps_args X (assertK b).
Proof. apply ka_same. intros s a s'. unfold assertK. destruct b; [|done]. by intros [= _ <-]. Qed.
Lemma ka_report f : keeps_args X (on_report f).
Proof. apply ka_same. by intros s a s' [= _ <-]. Qed.
Lemma ka_reply i : keeps_args X (replyK i).
Proof. apply ka_same. by intros s a s' [= _ <-]. Qed.
Lemma ka_set_db d db : keeps_args X (set_db d db).
Proof. apply ka_same. by intros s a s' [= _ <-]. Qed.
Lemma ka_get_db d : keeps_args X (get_db d).
Proof. apply ka_same. intros s a s'. unfold get_db. destruct (dbs s !! d); cbn; [|done]. by intros [= _ <-]. Qed.
Lemma ka_get_obj x : keeps_args X (get_obj x).
Proof. apply ka_same. intros s a s'. unfold get_obj. destruct (obj_at _ x); cbn; [|done]. by intros [= _ <-]. Qed.
Lemma ka_arg i : keeps_args X (arg i).
Proof. apply ka_same. intros s a s'. unfold arg. destruct (kargv s !! i); cbn; [|done]. by intros [= _ <-]. Qed.
Lemma ka_argc : keeps_args X argc.
Proof. apply ka_same. by intros s a s' [= _ <-]. Qed.
Lemma ka_cdb : keeps_args X cdb.
Proof. apply ka_same. by intros s a s' [= _ <-]. Qed.
Lemma ka_if {A} (b : bool) (m m' : K A) : keeps_args X m -> keeps_args X m' -> keeps_args X (if b then m else m').
Proof. by destruct b. Qed.
Lemma ka_for {A B} (f : A -> B -> K B) l : (forall a b, keeps_args X (f a b)) -> forall b, keeps_args X (for_each f l b).
Proof. intros Hf. induction l as [|a l IH]; intros b; cbn [for_each]; [apply ka_ret|]. by apply ka_bind. Qed.
Lemma ka_create v : keeps_args X (createObject v).
Proof. intros s a s' [= _ <-]. cbn. split; [lia|]. split; [done|]. intros x o Hx _. rewrite lookup_insert_ne by lia. intros Ho. by exists o. Qed.
(** Objects change in place: to a string, or an object of X. *)
Lemma ka_update x (f : robj -> K ()) : (forall o s a s', obj_at (heap s) x = Some o -> f o s = Some (a, s') ->
    heap s' = heap s /\ next s' = next s /\ kargv s' = kargv s \/ (exists o', heap s' = <[x := o']> (heap s) /\ next s' = next s /\ kargv s' = kargv s /\ 0 <= x /\ (X x \/ val o' = val o)) \/ (heap s' = delete x (heap s) /\ next s' = next s /\ kargv s' = kargv s)) ->
  keeps_args X (o ← get_obj x; f o).
Proof.
  intros Hf s a s' E. unfold mbind, K_bind, get_obj in E. destruct (obj_at (heap s) x) as [o|] eqn:Eo; cbn [mbind option_bind] in E; [|done].
  destruct (Hf o s a s' Eo E) as [(Eh & -> & ->)|[(o' & Eh & -> & -> & Hx & Hv)|(Eh & -> & ->)]]; (split; [lia|]; split; [done|]); intros y oy _ HX; rewrite Eh.
  - intros Hy. by exists oy.
  - intros [[<- <-]|[_ Hy]]%lookup_insert_Some; [|by exists oy]. destruct Hv as [?|Hv]; [done|]. exists o. rewrite obj_at_nonneg in Eo by done. by rewrite Hv.
  - intros [_ Hy]%lookup_delete_Some. by exists oy.
Qed.
Lemma shared_count h x o : obj_at h x = Some o -> x < 0 -> refcount o = OBJ_SHARED_REFCOUNT.
Proof. unfold obj_at. intros Ho Hx. rewrite (proj2 (Z.ltb_lt _ _) Hx) in Ho. by injection Ho as <-. Qed.
Lemma ka_incr x : keeps_args X (incrRefCount x).
Proof.
  apply ka_update. intros o s a s' Ho E. destruct (Z.eqb_spec (refcount o) OBJ_SHARED_REFCOUNT) as [|Hne]; cbn [negb] in E; injection E as _ <-; [by left|]. right. left. eexists. split_and!; [done..| |by right].
  destruct (Z.lt_ge_cases x 0) as [Hx|]; [|done]. by apply (shared_count _ _ _ Ho) in Hx.
Qed.
Lemma ka_decr x : keeps_args X (decrRefCount x).
Proof.
  apply ka_update. intros o s a s' Ho E. destruct (refcount o =? 1); [injection E as _ <-; right; by right|]. destruct (refcount o <=? 0); [done|]. destruct (Z.eqb_spec (refcount o) OBJ_SHARED_REFCOUNT) as [|Hne]; cbn [negb] in E; injection E as _ <-; [by left|].
  right. left. eexists. split_and!; [done..| |by right]. destruct (Z.lt_ge_cases x 0) as [Hx|]; [|done]. by apply (shared_count _ _ _ Ho) in Hx.
Qed.
End Keeps.

Ltac ka :=
  repeat first
    [ progress intros
    | apply ka_ret | apply ka_lift | apply ka_assert | apply ka_report | apply ka_reply | apply ka_set_db | apply ka_get_db | apply ka_get_obj | apply ka_arg | apply ka_argc | apply ka_cdb | apply ka_create
    | apply ka_incr | apply ka_decr | apply ka_for
    | match goal with |- keeps_args _ (match ?x with _ => _ end) => destruct x end
    | apply ka_bind ].

Section KeepsSet.
Context (e : kenv) (X : Z -> Prop).
Lemma ka_reply_shared r : keeps_args X (reply_shared r).
Proof. unfold reply_shared. ka. Qed.
Lemma ka_number o m : keeps_args X (getLongLongFromObjectOrReply o m).
Proof. unfold getLongLongFromObjectOrReply, getLongLongFromObject, reply_error. ka. Qed.
Lemma ka_delete d k : keeps_args X (dbDelete d k).
Proof. unfold dbDelete. ka. Qed.
Lemma ka_expired d k : keeps_args X (expireIfNeeded e d k).
Proof. unfold expireIfNeeded, keyIsExpired, getExpire, propagateExpire, notifyKeyspaceEvent. repeat first [apply ka_delete | progress ka]. Qed.
Lemma ka_lookup_write d k : keeps_args X (lookupKeyWrite e d k).
Proof. unfold lookupKeyWrite, lookupKey. repeat first [apply ka_expired | progress ka]. Qed.
Lemma ka_setKey d k a : keeps_args X (setKey e d k a).
Proof. unfold setKey, dbAdd, dbOverwrite, removeExpire, signalModifiedKey, signalKeyAsReady. repeat first [apply ka_lookup_write | progress ka]. Qed.
Lemma ka_setGeneric flags k v expire seconds okr abr : keeps_args X (setGenericCommand e flags k v expire seconds okr abr).
Proof.
  unfold setGenericCommand, set_time, setExpire, rememberSlaveKeyWithExpire, notify, notifyKeyspaceEvent, add_dirty. repeat first [apply ka_number | apply ka_lookup_write | apply ka_setKey | apply ka_reply_shared | progress ka].
Qed.
Lemma ka_arg_sds i : keeps_args X (arg_sds i).
Proof. unfold arg_sds. ka. Qed.
Lemma ka_encoding x : X x -> keeps_args X (tryObjectEncoding e x).
Proof.
  intros HX. unfold tryObjectEncoding. apply ka_bind; [apply ka_get_obj|]. intros o. apply ka_bind; [apply ka_lift|]. intros so.
  assert (forall v n, keeps_args X (set_obj x (mk_robj v n))) as Hset.
  { intros v n s a s' [= _ <-]. cbn. split; [lia|]. split; [done|]. intros y oy _ HY [[<- _]|[_ Hy]]%lookup_insert_Some; [done|]. by exists oy. }
  unfold store_string. repeat first [apply Hset | progress ka].
Qed.
End KeepsSet.

Definition reads {A} (m : K A) : Prop := forall s a s', m s = Some (a, s') -> s' = s.
Lemma reads_bind {A B} (m : K A) (f : A -> K B) : reads m -> (forall a, reads (f a)) -> reads (m ≫= f).
Proof. intros Hm Hf s b s' E. unfold mbind, K_bind in E. destruct (m s) as [[a s1]|] eqn:E1; cbn [mbind option_bind] in E; [|done]. apply Hm in E1 as ->. by apply Hf in E. Qed.
Lemma reads_arg_sds i : reads (arg_sds i).
Proof.
  intros s a s'. unfold arg_sds, mbind, K_bind, arg, get_obj, liftK. destruct (kargv s !! i); cbn [mbind option_bind]; [|done]. destruct (obj_at _ _); cbn [mbind option_bind]; [|done]. destruct (sds_of _); cbn; [|done]. by intros [= _ <-].
Qed.
Lemma reads_args_from i : reads (args_from i).
Proof.
  unfold args_from. apply reads_bind; [by intros s a s' [= _ <-]|]. intros n. set (f := fun j (l : list (list Z)) => bs ← arg_sds j; mret (l ++ [bs])). assert (forall l b, reads (for_each f l b)) as Hf; [|apply Hf].
  induction l as [|j l IH]; intros b; cbn [for_each]; [by intros s a s' [= _ <-]|]. apply reads_bind; [|intros b1; apply IH]. apply reads_bind; [apply reads_arg_sds|]. by intros ? s a s' [= _ <-].
Qed.
Lemma set_keeps e s s' : setCommand e s = Some ((), s') ->
  next s <= next s' /\ (forall i, (3 <= i)%nat -> kargv s' !! i = kargv s !! i) /\
  (forall x o, x < next s -> kargv s !! 2%nat <> Some x -> heap s' !! x = Some o -> exists o0, heap s !! x = Some o0 /\ (is_Some (sds_of (val o0)) -> is_Some (sds_of (val o)))).
Proof.
  set (X := fun x => kargv s !! 2%nat = Some x). unfold setCommand. intros (l & s1 & ->%reads_args_from & E)%K_bind_inv.
  destruct (KeyCommands.set_options l _ _ _ _) as [[[flags seconds] expire]|]; [|by apply (ka_reply_shared X Syntaxerr s () s' E)].
  apply K_bind_inv in E as (tm & s1 & E2 & E). assert (s1 = s) as ->.
  { destruct expire as [j|]; [|by injection E2]. unfold mbind, K_bind, arg in E2. destruct (kargv s !! j); cbn in E2; [|done]. by injection E2. }
  apply K_bind_inv in E as (v & s2 & E3 & E).
  assert (keeps_args X (k ← arg_sds 1; setGenericCommand e flags k v tm seconds Ok Nullbulk)) as Hrest by (apply ka_bind; [apply ka_arg_sds|]; intros k; apply ka_setGeneric).
  destruct (Hrest s2 () s' E) as (N2 & A2 & H2).
  unfold encode_arg, mbind, K_bind, arg in E3. destruct (kargv s !! 2%nat) as [x|] eqn:Ex; cbn [mbind option_bind] in E3; [|done].
  destruct (tryObjectEncoding e x s) as [[y s3]|] eqn:E4; cbn [mbind option_bind] in E3; [|done]. injection E3 as _ <-. destruct (ka_encoding e X x eq_refl s y s3 E4) as (N1 & A1 & H1).
  cbn in N2, H2, A2. split; [lia|]. split; [intros i Hi; rewrite A2, list_lookup_insert_ne by lia; by apply A1|].
  intros z o Hz HX Ho. destruct (H2 z o ltac:(lia) HX Ho) as (o1 & Ho1 & Hs1). destruct (H1 z o1 Hz HX Ho1) as (o0 & Ho0 & Hs0). exists o0. auto.
Qed.
(** The arguments are new objects, one after the other. *)
Lemma load_args_addresses l s s' : load_args l s = Some ((), s') -> next s' = next s + zlen l /\ kargv s' = kargv s ++ ((fun i => next s + Z.of_nat i) <$> seq 0 (length l)).
Proof.
  revert s. induction l as [|bs l IH]; intros s E; cbn [load_args] in E; [injection E as <-; cbn; rewrite app_nil_r; split; [lia|done]|].
  assert (store_string (createStringObject bs) = createObject (VString (createStringObject bs))) as Hst by (unfold createStringObject; by destruct (_ <=? _)).
  rewrite Hst in E. unfold mbind, K_bind, createObject, change in E. cbn [mbind option_bind] in E. apply IH in E as [En Ea]. cbn in En, Ea. rewrite En, Ea. cbn [length seq fmap list_fmap]. split; [lia|]. rewrite <-app_assoc. f_equal. cbn. f_equal; [lia|].
  rewrite <-fmap_S_seq, <-list_fmap_compose. apply list_fmap_ext. intros i j _. cbn. lia.
Qed.

(** ** What is logged *)

Definition raw (o : string_obj) : string_obj := ObjRaw (obj_bytes o).
Definition raw_call (x : logged_call) : logged_call := mk_call (call_time x) (call_proc x) (call_db x) (raw <$> call_argv x).
(** A call whose numbers fit; the options of SET are character strings. *)
Definition plain (x : logged_call) : Prop :=
  Forall (fun o => match o with ObjInt _ v => LLONG_MIN <= v <= LLONG_MAX | _ => True end) (call_argv x) /\ (call_proc x = Aof.setCommand -> Forall (fun o => is_Some (ptr_chars o)) (drop 3 (call_argv x))).
Definition raw2 (r : option string_obj * option string_obj) : option string_obj * option string_obj := (option_map raw r.1, option_map raw r.2).
Lemma set_options_raw l (ex px : option string_obj) : Forall (fun o => is_Some (ptr_chars o)) l ->
  Aof.set_options (raw <$> l) (option_map raw ex) (option_map raw px) = raw2 <$> Aof.set_options l ex px.
Proof.
  intros Hl. revert ex px. induction Hl as [|o l [b Hb] Hl IH]; intros ex px; [done|]. assert (b = obj_bytes o) as -> by (destruct o; cbn in *; congruence). cbn [fmap list_fmap Aof.set_options]. rewrite Hb. cbn [raw ptr_chars mbind option_bind].
  assert (head (raw <$> l) = raw <$> head l) as -> by by destruct l.
  assert (forall (b : bool) (z : option string_obj) (g : option string_obj -> option (option string_obj * option string_obj)) g', (forall z, g' (option_map raw z) = raw2 <$> g z) ->
    (z0 ← (if b then Some <$> (raw <$> head l) else Some (option_map raw z)); g' z0) = raw2 <$> (z0 ← (if b then Some <$> head l else Some z); g z0)) as Hstep.
  { intros b' z g g' Hg. destruct b'; [|cbn; apply Hg]. destruct (head l) as [y|]; cbn; [apply (Hg (Some y))|done]. }
  apply Hstep. intros ex1. apply Hstep. intros px1. apply IH.
Qed.
Lemma number_of_raw o : number (raw o) = number o.
Proof. done. Qed.
Lemma fmap_raw_bytes (l : list string_obj) : obj_bytes <$> (raw <$> l) = obj_bytes <$> l.
Proof. induction l as [|o l IH]; [done|]. cbn. by f_equal. Qed.
Lemma translated_raw now cmd argv : (cmd = Aof.setCommand -> Forall (fun o => is_Some (ptr_chars o)) (drop 3 argv)) -> translated now cmd (raw <$> argv) = translated now cmd argv.
Proof.
  intros Hs. destruct cmd.
  1-5: destruct argv as [|c [|k [|x [|v r]]]]; try done; cbn; by rewrite ?fmap_raw_bytes.
  - destruct argv as [|c [|k [|v [|o r]]]]; try done. specialize (Hs eq_refl). change (drop 3 (c :: k :: v :: o :: r)) with (o :: r) in Hs. pose proof (set_options_raw (o :: r) None None Hs) as Hr. cbn [option_map] in Hr.
    change (translated now Aof.setCommand (raw <$> c :: k :: v :: o :: r)) with ((obj_bytes <$> [raw c; raw k; raw v]) ::
      match Aof.set_options (raw <$> o :: r) None None with Some (Some x, _) => [pexpireat now expireCommand (raw k) x] | Some (None, Some x) => [pexpireat now pexpireCommand (raw k) x] | _ => [] end).
    rewrite Hr. change (translated now Aof.setCommand (c :: k :: v :: o :: r)) with ((obj_bytes <$> [c; k; v]) ::
      match Aof.set_options (o :: r) None None with Some (Some x, _) => [pexpireat now expireCommand k x] | Some (None, Some x) => [pexpireat now pexpireCommand k x] | _ => [] end).
    f_equal. destruct (Aof.set_options (o :: r) None None) as [[[x|] [y|]]|]; done.
  - cbn. by rewrite fmap_raw_bytes.
Qed.
Lemma call_ok_raw now cmd argv : (cmd = Aof.setCommand -> Forall (fun o => is_Some (ptr_chars o)) (drop 3 argv)) -> call_ok now cmd (raw <$> argv) <-> call_ok now cmd argv.
Proof.
  intros Hs. destruct cmd.
  1-5: destruct argv as [|c [|k [|x [|v r]]]]; done.
  - specialize (Hs eq_refl). pose proof (set_options_raw (drop 3 argv) None None Hs) as Hr. cbn [option_map] in Hr. unfold call_ok. rewrite <-fmap_drop, Hr. destruct (Aof.set_options (drop 3 argv) None None) as [[[x|] [y|]]|]; done.
  - done.
Qed.
Lemma logged_all_raw l sel : Forall plain l -> logged_all sel (raw_call <$> l) = logged_all sel l.
Proof. intros Hl. revert sel. induction Hl as [|x l [_ Hx] Hl IH]; intros sel; [done|]. cbn [fmap list_fmap logged_all raw_call call_db call_time call_proc call_argv]. by rewrite IH, translated_raw. Qed.

(** The calls on the maps. *)
Definition acalls (lazy : bool) (now : Z) (r r' : report) (d : nat) (args : list (list Z)) : list logged_call :=
  ((raw_call ∘ expire_call lazy) <$> new_expirations r r') ++ (if dirty r <? dirty r' then [mk_call now (proc_named args) (Z.of_nat d) (ObjRaw <$> args)] else []).
Definition alstep (lazy : bool) (ev : kevent) (t : ast) : option (list logged_call * ast) :=
  match ev with
  | Command e c args =>
    if arity_ok c (length args) then t' ← aexec e c (with_aargs args t); Some (acalls (k_lazy_expire e) (k_logged e) (arep t) (arep t') (asel t') (aargs t'), with_aargs [] t')
    else t' ← astep ev t; Some ([], t')
  | _ => t' ← astep ev t; Some ((raw_call ∘ expire_call lazy) <$> new_expirations (arep t) (arep t'), t')
  end.

(** ** The arguments after a command *)

Section Args.
Context (e : kenv).
Definition args_kept (t t' : ast) : Prop := aargs t' = aargs t.
Lemma looked_args t k i : args_kept t (say i (purge e (asel t) k t)).
Proof. apply purge_args. Qed.
Lemma set_args flags k v expire seconds okr abr t t' : aset e flags k v expire seconds okr abr t = Some t' -> args_kept t t'.
Proof.
  unfold aset. destruct (time_arg e expire seconds) as [[ms|err]|]; cbn [mbind option_bind]; [| |done]; [|by intros [= <-]]. destruct (_ || _); [intros [= <-]; apply looked_args|]. destruct expire; [|intros [= <-]; apply purge_args].
  destruct (ll_checked _) as [w|]; cbn [mbind option_bind]; [|done]. intros [= <-]. destruct (expire_at_facts e (asel t) k w (changed 1 (replace e (asel t) k (AString v) t))) as (_ & _ & _ & _ & H). unfold args_kept. cbn in *. rewrite H. apply purge_args.
Qed.
Lemma incr_args n t : args_kept t (aincr e n t).
Proof.
  unfold aincr, args_kept. cbn zeta. set (p := purge e (asel t) (karg 1 t) t). assert (aargs p = aargs t) as Hp by apply purge_args. destruct (value_of _ _ p) as [[bs|]|]; [|done|].
  - destruct (string2ll bs); [|done]. by destruct (_ && _).
  - by destruct (_ && _).
Qed.
Lemma setrange_args t t' : asetrange e t = Some t' -> args_kept t t'.
Proof.
  unfold asetrange, args_kept. destruct (string2ll _); [|by intros [= <-]]. destruct (_ <? 0); [by intros [= <-]|]. cbn zeta. set (p := purge e (asel t) (karg 1 t) t). assert (aargs p = aargs t) as Hp by apply purge_args.
  destruct (value_of _ _ p) as [[bs|]|]; [|by intros [= <-]|]; (case_bool_decide; [by intros [= <-]|]); (destruct (too_long _); [by intros [= <-]|]); (destruct (_ && negb _); [done|]); (destruct (Z.max _ _ <? _); [done|]); by intros [= <-].
Qed.
Lemma append_args t t' : aappend e t = Some t' -> args_kept t t'.
Proof.
  unfold aappend, args_kept. cbn zeta. set (p := purge e (asel t) (karg 1 t) t). assert (aargs p = aargs t) as Hp by apply purge_args.
  destruct (value_of _ _ p) as [[bs|]|]; [|by intros [= <-]|by intros [= <-]]. destruct (too_long _); [by intros [= <-]|]. destruct (k_alloc e _); [|done]. by intros [= <-].
Qed.
Lemma ttl_args ms t t' : attl e ms t = Some t' -> args_kept t t'.
Proof.
  unfold attl. destruct (visible _ _ _ _); [|intros [= <-]; apply looked_args]. cbn zeta. destruct (_ =? _); [intros [= <-]; apply looked_args|]. destruct (ll_checked _); cbn [mbind option_bind]; [|done].
  destruct ms; cbn [mbind option_bind]; [intros [= <-]; apply looked_args|]. destruct (ll_checked _); cbn [mbind option_bind]; [|done]. intros [= <-]; apply looked_args.
Qed.
Lemma mset_args nx t : args_kept t (amset e nx t).
Proof.
  unfold amset, args_kept. destruct (_ =? _)%nat; [done|]. cbn zeta. set (l := pairs (tail (aargs t))). assert (aargs (if nx then any_there e (asel t) l.*1 t else (false, t)).2 = aargs t) as Ha.
  { destruct nx; [|done]. pose proof (any_there_facts e (asel t) l.*1 t) as Hf. destruct (any_there _ _ _ _) as [b t1]. destruct Hf as (ex & (_ & _ & _ & _ & H & _) & _). done. }
  destruct (if nx then _ else _) as [[] t1]; cbn [snd] in Ha; [done|]. fold (put_pair e (asel t)). destruct (put_touches e (asel t) l t1) as (ex & (_ & _ & _ & _ & H & _) & _). cbn [aargs shared say changed log]. by rewrite H.
Qed.
Lemma del_args t : data_ok (adbs t) -> args_kept t (adel e t).
Proof.
  intros Hok. rewrite adel_eq. pose proof (del_fold e (asel t) (tail (aargs t)) 0 t Hok) as Hf. destruct (foldl (del_key e (asel t)) (0, t) (tail (aargs t))) as [n t']. destruct Hf as (_ & _ & _ & ex & (_ & _ & _ & _ & H & _) & _). done.
Qed.
Lemma exists_args t : args_kept t (aexists e t).
Proof.
  unfold aexists. cbn zeta. match goal with |- context [foldl ?f _ _] => pose proof (purged_fold e f (asel t) (tail (aargs t)) 0 t t) as Hf; destruct (foldl f (0, t) (tail (aargs t))) as [x t1] end. cbn [snd] in Hf.
  destruct Hf as (ex & _ & _ & _ & _ & H & _); [intros a t' k; cbn; by rewrite purge_sel, purge_args|apply purged_refl|]. done.
Qed.
Lemma mget_args t : args_kept t (amget e t).
Proof.
  unfold amget, args_kept. cbn zeta. set (g := fun t' k => say _ (purge e (asel t) k t')). assert (forall l t', aargs (foldl g t' l) = aargs t') as Hg; [|by rewrite Hg].
  induction l as [|k l IH]; intros t'; [done|]. cbn [foldl]. rewrite IH. apply purge_args.
Qed.
Lemma rename_args nx t : args_kept t (arename e nx t).
Proof.
  unfold arename, args_kept. cbn zeta. destruct (value_of _ _ _) as [v|]; [|apply purge_args]. case_bool_decide; [apply purge_args|]. destruct (_ && nx); [cbn; by rewrite !purge_args|].
  match goal with |- context [drop_key ?d ?k1 (keep_expiry e ?d' ?k2 ?w (made_ready _ _ ?v (store _ _ _ ?q)))] => destruct (moved_report e d k1 d' k2 v w q) as (_ & _ & _ & Hm) end. cbn [aargs shared say changed notified touched log] in *. rewrite Hm. cbn. by rewrite !purge_args.
Qed.
Lemma move_args t : args_kept t (amove e t).
Proof.
  unfold amove, args_kept. destruct (k_cluster e); [done|]. cbn zeta. destruct (string2ll _) as [id|]; [|done]. destruct (_ && _ && _); [|done]. case_bool_decide; [done|]. destruct (value_of _ _ _) as [v|]; [|apply purge_args]. case_bool_decide; [cbn; by rewrite !purge_args|].
  match goal with |- context [drop_key ?d ?k1 (keep_expiry e ?d' ?k2 ?w (made_ready _ _ ?v (store _ _ _ ?q)))] => destruct (moved_report e d k1 d' k2 v w q) as (_ & _ & _ & Hm) end. cbn [aargs shared say changed log] in *. rewrite Hm. by rewrite !purge_args.
Qed.
Lemma swapdb_args t : args_kept t (aswapdb e t).
Proof.
  unfold aswapdb, args_kept. destruct (k_cluster e); [done|]. destruct (string2ll _); [|done]. destruct (string2ll _); [|done]. cbn zeta. destruct (_ && _ && _ && _); [|done]. cbn [aargs shared say changed log]. destruct (_ =? _); [done|].
  assert (forall f d x, aargs (ready_lists f d x) = aargs x) as Hr by (intros f d x; by destruct (ready_lists_data f d x) as (_ & _ & _ & _ & ?)). by rewrite !Hr.
Qed.
Lemma expire_args b sec t t' : aexpire e b sec t = Some t' -> args_kept t t' \/ exists lz k, aargs t' = [str (if (lz : bool) then "UNLINK" else "DEL")%string; k].
Proof.
  unfold aexpire, args_kept. destruct (string2ll _); [|intros [= <-]; by left]. cbn zeta. destruct (if sec then _ else _); cbn [mbind option_bind]; [|done]. destruct (ll_checked _) as [w|]; cbn [mbind option_bind]; [|done].
  destruct (value_of _ _ _); [|intros [= <-]; left; apply purge_args]. intros [= <-]. destruct (_ && _ && _); [right; by eexists _, _|left].
  destruct (expire_at_facts e (asel t) (karg 1 t) w (purge e (asel t) (karg 1 t) t)) as (_ & _ & _ & _ & H). cbn in *. rewrite H. apply purge_args.
Qed.
Lemma exec_args c t t' : data_ok (adbs t) -> aexec e c t = Some t' -> args_kept t t' \/ exists lz k, aargs t' = [str (if (lz : bool) then "UNLINK" else "DEL")%string; k].
Proof.
  intros Hok Hex. destruct c; cbn [aexec] in Hex; try (injection Hex as <-); try (eapply expire_args, Hex); left.
  all: try (eapply set_args, Hex). all: try apply looked_args. all: auto using incr_args, mset_args, del_args, exists_args, mget_args, rename_args, move_args, swapdb_args, setrange_args, append_args. all: try (eapply ttl_args, Hex).
  - unfold aSET in Hex. destruct (KeyCommands.set_options _ _ _ _ _) as [[[? ?] ?]|]; [eapply set_args, Hex|by injection Hex as <-].
  - unfold agetset, args_kept. cbn zeta. destruct (is_other _); [apply looked_args|]. change (aargs (purge e (asel t) (karg 1 t) (aget e t)) = aargs t). rewrite purge_args. apply purge_args.
  - unfold agetrange. destruct (string2ll _); [|done]. destruct (string2ll _); [apply looked_args|done].
  - unfold aincrby. destruct (string2ll _); [apply incr_args|done].
  - unfold adecrby in Hex. destruct (string2ll _); [|by injection Hex as <-]. destruct (ll_checked _); cbn [mbind option_bind] in Hex; [|done]. injection Hex as <-. apply incr_args.
  - unfold aselect, args_kept. destruct (string2ll _); [|done]. destruct (k_cluster e && _); [done|]. by destruct (_ && _).
  - unfold aflushdb, args_kept. by destruct (negb _).
  - unfold aflushall, args_kept. destruct (negb _); [done|]. cbn zeta. by destruct (k_saveparams e).
  - done.
  - unfold apersist, args_kept. cbn zeta. destruct (value_of _ _ _); [|apply purge_args]. destruct (expiry_of _ _ _); apply purge_args.
Qed.
End Args.

(** ** The log of the server *)

Lemma arg_objects_ok E s t : rel E z0 s t ->
  exists objs, arg_objects s = Some (objs, s) /\ obj_bytes <$> objs = aargs t /\ Forall (fun o => match o with ObjInt _ v => LLONG_MIN <= v <= LLONG_MAX | _ => True end) objs /\
    Forall2 (fun a o => exists ob, obj_at (heap s) a = Some ob /\ val ob = VString o) (kargv s) objs.
Proof.
  intros Hr. pose proof (r_args _ _ _ _ Hr) as Ha. assert (forall i a, kargv s !! i = Some a -> alive (heap s) a) as Hal.
  { intros i a Hi. apply (alive_held _ _ _ _ a (r_heap _ _ _ _ Hr)). pose proof (held_arg (dbs s) (kargv s) i a Hi). lia. }
  assert (forall argv args, (forall a, a ∈ argv -> alive (heap s) a) -> Forall2 (fun bs a => den (heap s) a = AString bs) args argv ->
    exists objs, mapM (fun a => o ← obj_at (heap s) a; string_of (val o)) argv = Some objs /\ obj_bytes <$> objs = args /\ Forall (fun o => match o with ObjInt _ v => LLONG_MIN <= v <= LLONG_MAX | _ => True end) objs /\
      Forall2 (fun a o => exists ob, obj_at (heap s) a = Some ob /\ val ob = VString o) argv objs) as Hm.
  { intros argv args Hlive Hf. induction Hf as [|bs a args argv Hd Hf IH]; [by exists []|]. destruct IH as (objs & E1 & H1 & H2 & H3); [intros x Hx; apply Hlive; by right|]. unfold den in Hd. destruct (obj_at (heap s) a) as [ob|] eqn:Eo; [|done].
    destruct (val ob) as [so|] eqn:Ev; [|done]. injection Hd as <-. exists (so :: objs). cbn [mapM]. rewrite Eo. cbn [mbind option_bind]. rewrite Ev. cbn [string_of mbind option_bind]. rewrite E1. split; [done|]. split; [cbn; by f_equal|].
    split; [|constructor; [by exists ob|done]]. constructor; [|done]. pose proof (obj_value_ok _ _ _ _ a ob (r_heap _ _ _ _ Hr) (Hlive a ltac:(left)) Eo) as Hv. rewrite Ev in Hv. by destruct so. }
  destruct (Hm (kargv s) (aargs t)) as (objs & E1 & H); [|done|].
  - intros a [i Hi]%list_elem_of_lookup. by eapply Hal.
  - exists objs. split; [|done]. unfold arg_objects. cbv beta in *. rewrite E1. done.
Qed.
Lemma head_bytes (objs : list string_obj) : obj_bytes <$> head objs = head (obj_bytes <$> objs).
Proof. by destruct objs. Qed.
Lemma raw_bytes (objs : list string_obj) : raw <$> objs = ObjRaw <$> (obj_bytes <$> objs).
Proof. induction objs as [|o l IH]; [done|]. cbn. by f_equal. Qed.
Lemma calls_raw lazy now r r' d objs args : obj_bytes <$> objs = args -> raw_call <$> calls_of lazy now r r' d objs = acalls lazy now r r' d args.
Proof.
  intros Ha. unfold calls_of, acalls. rewrite fmap_app, <-list_fmap_compose. f_equal. destruct (_ <? _); [|done]. cbn. unfold raw_call. cbn. rewrite head_bytes, Ha, raw_bytes, Ha. done.
Qed.
Lemma expire_call_plain lazy x : plain (expire_call lazy x).
Proof. split; [|done]. unfold expire_call, createStringObject. cbn [call_argv]. repeat constructor; by destruct (_ <=? _). Qed.
(** The name of a command is its first argument. *)
Definition names (c : kcmd) (args : list (list Z)) : Prop := head args ≫= lookupCommand = Some c.
Definition well_named (ev : kevent) : Prop := match ev with Command _ c args => names c args | _ => True end.
Lemma calls_plain e c args s0 t0 s1 s2 t2 objs :
  between s0 t0 -> load_args args s0 = Some ((), s1) -> rel (fun _ => False) z0 s1 (with_aargs args t0) -> exec e c s1 = Some ((), s2) -> rel (fun _ => True) z0 s2 t2 -> aexec e c (with_aargs args t0) = Some t2 -> names c args -> data_ok (adbs t0) ->
  arg_objects s2 = Some (objs, s2) -> obj_bytes <$> objs = aargs t2 -> Forall (fun o => match o with ObjInt _ v => LLONG_MIN <= v <= LLONG_MAX | _ => True end) objs ->
  Forall2 (fun a o => exists ob, obj_at (heap s2) a = Some ob /\ val ob = VString o) (kargv s2) objs -> Forall plain (calls_of (k_lazy_expire e) (k_logged e) (rep s1) (rep s2) (seldb s2) objs).
Proof.
  intros [Hr0 Ha0] Eload Hr1 Eex Hr2 Haex Hname Hok Eobj Hbytes Hints Hobjs. unfold calls_of. apply Forall_app. split; [apply Forall_fmap, Forall_forall; intros x _; apply expire_call_plain|]. destruct (_ <? _); [|constructor]. constructor; [|constructor]. split; [done|]. cbn [call_proc call_argv].
  rewrite head_bytes, Hbytes. destruct (exec_args e c (with_aargs args t0) t2 Hok Haex) as [Hk|(lz & k & Hk)]; rewrite Hk; [|intros Hp; by destruct lz]. change (aargs (with_aargs args t0)) with args. unfold names in Hname. rewrite Hname. intros Hp. assert (c = SET) as -> by (by destruct c). clear Hp.
  destruct (set_keeps e s1 s2 Eex) as (_ & Hka & Hkh). assert (kargv s0 = []) as Hk0 by (pose proof (r_args _ _ _ _ Hr0) as Hf; rewrite Ha0 in Hf; by apply Forall2_nil_inv_l in Hf).
  destruct (load_args_addresses args s0 s1 Eload) as [Hnext Hargv]. rewrite Hk0 in Hargv. cbn [app] in Hargv.
  assert (forall i a, kargv s1 !! i = Some a -> a = next s0 + Z.of_nat i /\ (i < length args)%nat) as Hadr.
  { intros i a Hi. rewrite Hargv, list_lookup_fmap in Hi. destruct (seq 0 (length args) !! i) as [j|] eqn:Ej; [|done]. apply lookup_seq in Ej as [-> Hj]. injection Hi as <-. done. }
  apply Forall_forall. intros o Ho. apply list_elem_of_lookup in Ho as [i Hi]. rewrite lookup_drop in Hi. apply Forall2_lookup_r with (1 := Hobjs) in Hi as (a & Hai & ob & Hob & Hv).
  rewrite Hka in Hai by lia. destruct (Hadr _ _ Hai) as [Heq Hlt]. assert (0 <= next s0) as Hn0 by apply (ho_next _ _ _ _ (r_heap _ _ _ _ Hr0)). rewrite obj_at_nonneg in Hob by lia.
  destruct (Hkh a ob) as (o1 & Ho1 & Hs1); [lia| |done|].
  { intros H2. apply Hadr in H2 as [H2 _]. lia. }
  destruct (r_sds _ _ _ _ Hr1 _ _ Hai) as (o1' & bs & Ho1' & Hbs); [tauto|]. rewrite obj_at_nonneg, Ho1 in Ho1' by lia. injection Ho1' as <-. destruct Hs1 as [b Hb]; [by rewrite Hbs|]. rewrite Hv in Hb. destruct o; cbn in *; [done|by eexists..].
Qed.

Lemma between_ok s t : between s t -> data_ok (adbs t) /\ (asel t < length (adbs t))%nat.
Proof.
  intros [Hr _]. split; [|rewrite (r_sel _ _ _ _ Hr), <-(length_adbs _ _ _ _ Hr); apply Hr]. intros db k Hdb Hx. rewrite (r_dbs _ _ _ _ Hr) in Hdb. apply list_elem_of_fmap in Hdb as (db0 & -> & [d Hd]%list_elem_of_lookup). cbn in *.
  destruct (r_exp _ _ _ _ Hr d db0 k Hd Hx) as [v Hv]. rewrite lookup_fmap, Hv. by eexists.
Qed.
Lemma load_between args s t : between s t -> exists s1, load_args args s = Some ((), s1) /\ rel (fun _ => False) z0 s1 (with_aargs args t).
Proof. intros [Hr Ha]. destruct (load_args_spec _ args s t (fun i H => H) Hr) as ([] & s1 & E1 & Hr1). rewrite Ha in Hr1. by exists s1. Qed.
Lemma lstep_between lazy ev s t : well_named ev -> between s t ->
  match alstep lazy ev t with
  | Some (la, t') => exists l s', lstep lazy ev s = Some (l, s') /\ raw_call <$> l = la /\ Forall plain l /\ between s' t'
  | None => lstep lazy ev s = None
  end.
Proof.
  intros Hname Hb. pose proof (step_between ev s t Hb) as Hst. unfold related_run in Hst.
  assert ((forall e c args, ev <> Command e c args) -> match (t' ← astep ev t; Some ((raw_call ∘ expire_call lazy) <$> new_expirations (arep t) (arep t'), t')) with
    | Some (la, t') => exists l s', (r ← get_report; kstep ev;; r' ← get_report; mret (expire_call lazy <$> new_expirations r r')) s = Some (l, s') /\ raw_call <$> l = la /\ Forall plain l /\ between s' t'
    | None => (r ← get_report; kstep ev;; r' ← get_report; mret (expire_call lazy <$> new_expirations r r')) s = None end) as Hother.
  { intros _. rewrite (K_bind_ok get_report _ s (rep s) s) by done. destruct (astep ev t) as [t'|]; cbn [mbind option_bind]; [|by apply K_bind_none]. destruct Hst as (s' & E & Hb'). eexists _, s'. split; [by rewrite (K_bind_ok _ _ _ _ _ E)|].
    destruct Hb as [Hr _], Hb' as [Hr' Ha']. rewrite <-(r_rep _ _ _ _ Hr), <-(r_rep _ _ _ _ Hr'). split; [by rewrite <-list_fmap_compose|]. split; [|by split]. apply Forall_fmap, Forall_forall. intros x _. apply expire_call_plain. }
  destruct ev as [e c args|d|d k now|d k ty v]; cbn [alstep lstep]; [|by apply Hother..]. clear Hother. destruct (load_between args s t Hb) as (s1 & E1 & Hr1). rewrite (K_bind_ok _ _ _ _ _ E1).
  destruct (arity_ok c (length args)) eqn:Ear.
  - pose proof (exec_implements e c s1 _ Hr1 Ear) as Him. destruct (aexec e c (with_aargs args t)) as [t2|] eqn:Eax; cbn [mbind option_bind implements] in *.
    2:{ apply K_bind_none. unfold call. rewrite (K_bind_ok get_report _ s1 (rep s1) s1) by done. by apply K_bind_none. }
    destruct Him as ([] & s2 & E2 & Hr2). destruct (arg_objects_ok _ s2 t2 Hr2) as (objs & Eo & Hby & Hints & Hobjs). destruct (between_ok s t Hb) as [Hok _].
    assert (call e c s1 = Some (calls_of (k_lazy_expire e) (k_logged e) (rep s1) (rep s2) (seldb s2) objs, s2)) as Ecall.
    { unfold call. rewrite (K_bind_ok get_report _ s1 (rep s1) s1) by done. rewrite (K_bind_ok _ _ _ _ _ E2), (K_bind_ok _ _ _ _ _ Eo). done. }
    rewrite (K_bind_ok _ _ _ _ _ Ecall). destruct (freeClientArgv_spec _ s2 t2 Hr2) as ([] & s3 & E3 & Hr3). eexists _, s3. split; [by rewrite (K_bind_ok _ _ _ _ _ E3)|].
    rewrite (calls_raw _ _ _ _ _ _ _ Hby), <-(r_rep _ _ _ _ Hr1), <-(r_rep _ _ _ _ Hr2), <-(r_sel _ _ _ _ Hr2). split; [done|]. split; [|by split].
    rewrite (r_rep _ _ _ _ Hr1), (r_rep _ _ _ _ Hr2), (r_sel _ _ _ _ Hr2). by eapply calls_plain.
  - cbn [astep mbind option_bind]. rewrite Ear. cbn [mbind option_bind].
    destruct (freeClientArgv_spec _ _ _ (rel_reply _ _ _ _ (RErrorFormat (str "wrong number of arguments for '" ++ k_cmd_name e ++ str "' command")) _ Hr1 eq_refl)) as ([] & s3 & E3 & Hr3). exists [], s3. split; [|by split].
    rewrite (K_bind_ok _ _ s1 [] (with_kreplies (kreplies s1 ++ [RErrorFormat (str "wrong number of arguments for '" ++ k_cmd_name e ++ str "' command")]) s1)) by done. by rewrite (K_bind_ok _ _ _ _ _ E3).
Qed.

(** ** Loading *)

Section Reload.
Context (el : kenv) (Hel : k_loading el = true) (Hcl : k_cluster el = false).

Definition selected (sel : Z) (u : ast) : Prop := sel = -1 \/ sel = Z.of_nat (asel u).
Definition last_db (sel : Z) (l : list logged_call) : Z := default sel (call_db <$> last l).
Lemma logged_app sel a b : logged_all sel (a ++ b) = logged_all sel a ++ logged_all (last_db sel a) b.
Proof.
  revert sel. induction a as [|x a IH]; intros sel; [done|]. cbn [app logged_all]. rewrite IH, app_assoc. do 2 f_equal. unfold last_db. rewrite last_cons. by destruct (last a).
Qed.
Lemma last_db_app sel a b : last_db sel (a ++ b) = last_db (last_db sel a) b.
Proof. unfold last_db. rewrite last_app. by destruct (last b). Qed.
(** A call with the SELECT before it. *)
Lemma reload_call sel x d l l' u :
  call_db x = Z.of_nat d -> (d < length l)%nat -> zlen l <= 2 ^ 31 -> reloads el d l (translated (call_time x) (call_proc x) (call_argv x)) l' -> adbs u = l -> selected sel u ->
  exists u', reload el (logged_all sel [x]) u = Some u' /\ adbs u' = l' /\ selected (last_db sel [x]) u'.
Proof.
  intros Hdb Hd Hlen Hr Hu Hs. assert (forall v, adbs v = l -> asel v = d -> exists u', reload el (translated (call_time x) (call_proc x) (call_argv x)) v = Some u' /\ adbs u' = l' /\ selected (last_db sel [x]) u') as Hgo.
  { intros v Hv Hsv. destruct (Hr v Hv Hsv) as (u' & E & Ha & Hsel). exists u'. split_and!; [done..|]. right. cbn. by rewrite Hdb, Hsel. }
  cbn [logged_all]. rewrite app_nil_r. destruct (Z.eqb_spec (call_db x) sel) as [Heq|Hne]; cbn [app].
  - apply Hgo; [done|]. destruct Hs as [->|Hs]; [lia|]. lia.
  - cbn [reload]. assert (reload1 el (select_cmd (call_db x)) u = Some (with_aargs [] (shared Ok (with_asel d (with_aargs (select_cmd (call_db x)) u))))) as ->; [|cbn [mbind option_bind]; by apply Hgo].
    unfold reload1, select_cmd. change (lookupCommand (hd [] [str "SELECT"; decimal (call_db x)])) with (Some SELECT). cbn [mbind option_bind astep]. change (arity_ok SELECT _) with true. cbn iota. cbn [aexec]. unfold aselect, karg. cbn [aargs with_aargs lookup list_lookup default from_option Datatypes.id].
    rewrite Hdb, string2ll_int by (unfold LLONG_MIN, LLONG_MAX; lia). rewrite Hcl. cbn [andb]. rewrite s32_small by (unfold INT32_MIN, INT32_MAX; lia). cbn [adbs with_aargs]. rewrite Hu, (proj2 (Z.leb_le _ _)), (proj2 (Z.ltb_lt _ _)) by lia. cbn [andb mbind option_bind]. by rewrite Nat2Z.id.
Qed.
(** The deletions of expired keys. *)
Lemma reload_expired lazy ex : forall sel u, data_ok (adbs u) -> zlen (adbs u) <= 2 ^ 31 -> (forall x, x ∈ ex -> (x.1 < length (adbs u))%nat) -> selected sel u ->
  exists u', reload el (logged_all sel ((raw_call ∘ expire_call lazy) <$> ex)) u = Some u' /\ adbs u' = drops (adbs u) ex /\ selected (last_db sel ((raw_call ∘ expire_call lazy) <$> ex)) u'.
Proof.
  induction ex as [|[d k] ex IH]; intros sel u Hok Hlen Hin Hs; [by exists u|]. rewrite fmap_cons. change (?x :: ?l) with ([x] ++ l). rewrite logged_app, last_db_app, reload_app.
  destruct (reload_call sel ((raw_call ∘ expire_call lazy) (d, k)) d (adbs u) (drop_at (adbs u) (d, k)) u) as (u1 & E1 & Ha1 & Hs1); [done|apply (Hin (d, k)); left|done| |done|done|].
  - assert (translated (call_time ((raw_call ∘ expire_call lazy) (d, k))) (call_proc ((raw_call ∘ expire_call lazy) (d, k))) (call_argv ((raw_call ∘ expire_call lazy) (d, k))) = [[str (if lazy then "UNLINK" else "DEL"); k]]) as ->.
    { cbn. unfold createStringObject. by repeat (destruct (_ <=? _)). }
    by apply reloads_del.
  - rewrite E1. cbn [mbind option_bind]. destruct (IH (last_db sel [(raw_call ∘ expire_call lazy) (d, k)]) u1) as (u2 & E2 & Ha2 & Hs2); rewrite ?Ha1.
    + by apply drop_at_ok.
    + unfold drop_at. by rewrite length_alter.
    + unfold drop_at. rewrite length_alter. intros x Hx. apply Hin. by right.
    + done.
    + exists u2. split; [done|]. by rewrite Ha2, Ha1.
Qed.
End Reload.
