(* ===== verification/KeyspaceRecover.v ===== *)
(** * Loading the append only file rebuilds the key space

    A server that has executed any commands and kept an append only file, and a server that loads that file: both hold the same data. *)
From stdpp Require Import prelude list gmap strings.
From Stdlib Require Import ZArith Lia.
From S2P Require Import Prelude Util SdsText Rio Rdb Reply Resp Aof Keyspace KeyCommands KeyspaceAbs KeyspaceInv KeyspaceRel KeyspaceRefine KeyspaceKeys KeyspaceFrame KeyspaceSpec KeyspaceAof KeyspaceReplay KeyspaceRebuild.

Local Open Scope Z_scope.
Local Open Scope redis_scope.

#[local] Arguments str : simpl never.
#[local] Arguments ll_checked : simpl never.
#[local] Arguments lookupCommand : simpl never.

(** ** The number of databases *)

Definition alen (t : ast) : nat := length (adbs t).
Lemma alen_on_db d f t : alen (on_db d f t) = alen t.
Proof. apply length_alter. Qed.
Lemma alen_log f t : alen (log f t) = alen t.
Proof. done. Qed.
Lemma alen_say i t : alen (say i t) = alen t.
Proof. done. Qed.
Lemma alen_purge e d k t : alen (purge e d k t) = alen t.
Proof. apply purge_length. Qed.
Lemma alen_expire_at e d k w t : alen (expire_at e d k w t) = alen t.
Proof. unfold expire_at. cbn zeta. destruct (_ && _); apply alen_on_db. Qed.
Lemma alen_made_ready d k v t : alen (made_ready d k v t) = alen t.
Proof. unfold made_ready. by case_bool_decide. Qed.
Lemma alen_keep_expiry e d k w t : alen (keep_expiry e d k w t) = alen t.
Proof. unfold keep_expiry. destruct (_ =? _); [done|apply alen_expire_at]. Qed.
Lemma alen_ready_lists e d t : alen (ready_lists e d t) = alen t.
Proof. unfold alen. by destruct (ready_lists_data e d t) as [-> _]. Qed.
Lemma alen_replace e d k v t : alen (replace e d k v t) = alen t.
Proof. apply replace_length. Qed.
Lemma alen_purged t p : purged t p -> alen p = alen t.
Proof. intros (ex & _ & H & _). unfold alen. rewrite H. apply drops_length. Qed.
Lemma alen_with_adbs l t : alen (with_adbs l t) = length l.
Proof. done. Qed.
Lemma alen_with_aargs l t : alen (with_aargs l t) = alen t.
Proof. done. Qed.
Create Rewrite HintDb alen.
#[local] Hint Rewrite alen_on_db alen_log alen_say alen_purge alen_expire_at alen_made_ready alen_keep_expiry alen_ready_lists alen_replace alen_with_adbs alen_with_aargs @length_fmap @length_insert : alen.
Ltac alen_all :=
  repeat first
    [ done
    | match goal with H : None = Some _ |- _ => discriminate H | H : Some _ = Some _ |- _ => injection H as H; subst end
    | match goal with |- context [alen (match ?x with _ => _ end)] => destruct x eqn:? end
    | match goal with H : match ?x with _ => _ end = Some _ |- _ => destruct x eqn:? | H : ?x ≫= _ = Some _ |- _ => destruct x eqn:?; cbn [mbind option_bind] in H | H : (match ?x with _ => _ end) _ = Some _ |- _ => destruct x eqn:? end
    | progress (unfold store, clear_expiry, drop_key, shared, failed, changed, touched, notified; autorewrite with alen) ].
Lemma alen_touches d keys t t' ex : touches d keys t t' ex -> alen t' = alen t.
Proof. by intros (_ & _ & H & _). Qed.
Lemma alen_mget e t : alen (amget e t) = alen t.
Proof.
  unfold amget. cbn zeta. set (g := fun t' k => say _ (purge e (asel t) k t')). assert (forall l t', alen (foldl g t' l) = alen t') as Hg; [|by rewrite Hg].
  induction l as [|k l IH]; intros t'; [done|]. cbn [foldl]. rewrite IH. apply alen_purge.
Qed.
Lemma alen_mset e nx t : alen (amset e nx t) = alen t.
Proof.
  unfold amset. destruct (_ =? _)%nat; [done|]. cbn zeta. set (l := pairs (tail (aargs t))). assert (alen (if nx then any_there e (asel t) l.*1 t else (false, t)).2 = alen t) as Ha.
  { destruct nx; [|done]. pose proof (any_there_facts e (asel t) l.*1 t) as Hf. destruct (any_there _ _ _ _) as [b t1]. destruct Hf as (ex & Ht & _). by apply alen_touches in Ht. }
  destruct (if nx then _ else _) as [[] t1]; cbn [snd] in Ha; [done|]. fold (put_pair e (asel t)). destruct (put_touches e (asel t) l t1) as (ex & Ht & _). apply alen_touches in Ht. change (alen (foldl (put_pair e (asel t)) t1 l) = alen t). congruence.
Qed.
Lemma alen_del e t : data_ok (adbs t) -> alen (adel e t) = alen t.
Proof.
  intros Hok. rewrite adel_eq. pose proof (del_fold e (asel t) (tail (aargs t)) 0 t Hok) as Hf. destruct (foldl (del_key e (asel t)) (0, t) (tail (aargs t))) as [n t']. destruct Hf as (_ & _ & _ & ex & Ht & _). by apply alen_touches in Ht.
Qed.
Lemma alen_exists e t : alen (aexists e t) = alen t.
Proof.
  unfold aexists. cbn zeta. match goal with |- context [foldl ?f _ _] => pose proof (purged_fold e f (asel t) (tail (aargs t)) 0 t t) as Hf; destruct (foldl f (0, t) (tail (aargs t))) as [x t1] end. cbn [snd] in Hf.
  apply (alen_purged t t1), Hf; [|apply purged_refl]. intros a t' k. cbn. by rewrite purge_sel, purge_args.
Qed.
Lemma exec_alen e c t t' : data_ok (adbs t) -> aexec e c t = Some t' -> alen t' = alen t.
Proof.
  intros Hok Hex. destruct c; cbn [aexec] in Hex; try (injection Hex as <-).
  all: cbv beta delta [aSET aset asetrange aappend aexpire attl adecrby aincrby aget agetset agetrange aincr astrlen aselect aflushdb adbsize atype_command arename amove apersist aswapdb aflushall] in *; cbn zeta in *.
  all: try (alen_all; fail).
  all: auto using alen_mget, alen_mset, alen_del, alen_exists.
  all: alen_all.
Qed.

(** ** The log of a run *)

(** The translation of a command for the file reads the clock. *)
Definition timed (cmd : command_proc) : bool := match cmd with expireatCommand | otherCommand => false | _ => true end.
Lemma translated_time now now' cmd argv : (timed cmd = true -> now = now') -> translated now cmd argv = translated now' cmd argv /\ (call_ok now cmd argv <-> call_ok now' cmd argv).
Proof. intros Ht. destruct cmd; try (by rewrite (Ht eq_refl)); [|done]. destruct argv as [|c [|k [|x r]]]; done. Qed.
(** A server that executes commands of clients as a master outside a cluster, with names that are those of the commands; the loading server can allocate what it could.  SET has at most one time, the number of
    changes since the last save fits an int when FLUSHALL saves, and the clock shows the same time when a command with a length of time is executed and when it is written: without these the server stops, does not log, or
    logs another time. *)
Definition live (el : kenv) (ev : kevent) (changes keys : Z) : Prop :=
  match ev with
  | Command e c args =>
    k_master e = true /\ k_cluster e = false /\ (forall m, k_alloc e m = true -> k_alloc el m = true) /\ names c args /\ (timed (proc_of c) = true -> k_logged e = k_now e) /\ (c = SET -> one_time args = true) /\
    (c = FLUSHALL -> k_saveparams e = true -> - 2 ^ 31 <= changes /\ changes + keys < 2 ^ 31)
  | Create _ _ _ _ => False
  | _ => True
  end.
(** The commands logged, with the data before them. *)
Definition replays (el : kenv) (la : list logged_call) (l l' : list adb) : Prop :=
  forall sel u, adbs u = l -> selected sel u -> exists u', reload el (logged_all sel la) u = Some u' /\ adbs u' = l' /\ selected (last_db sel la) u'.
Lemma replays_app el la lb l l1 l2 : replays el la l l1 -> replays el lb l1 l2 -> replays el (la ++ lb) l l2.
Proof.
  intros H1 H2 sel u Hu Hs. destruct (H1 sel u Hu Hs) as (u1 & E1 & Ha1 & Hs1). destruct (H2 _ u1 Ha1 Hs1) as (u2 & E2 & Ha2 & Hs2). exists u2. rewrite logged_app, reload_app, E1, last_db_app. done.
Qed.
Lemma replays_nil el l : replays el [] l l.
Proof. intros sel u Hu Hs. by exists u. Qed.
Lemma new_expirations_app r r' ex : expirations r' = expirations r ++ ex -> new_expirations r r' = ex.
Proof. intros H. unfold new_expirations. by rewrite H, drop_app_length. Qed.
Definition call_fine (x : logged_call) : Prop := 0 <= call_db x < 2 ^ 31 /\ call_ok (call_time x) (call_proc x) (call_argv x).

Section Replay.
Context (el : kenv) (Hel : k_loading el = true) (Hcl : k_cluster el = false).
Lemma replays_expired lazy l ex : data_ok l -> zlen l <= 2 ^ 31 -> (forall x, x ∈ ex -> (x.1 < length l)%nat) -> replays el ((raw_call ∘ expire_call lazy) <$> ex) l (drops l ex).
Proof. intros Hok Hl Hin sel u <- Hs. by apply reload_expired. Qed.
Lemma expired_fine lazy (l : list adb) ex : zlen l <= 2 ^ 31 -> (forall x, x ∈ ex -> (x.1 < length l)%nat) -> Forall call_fine ((raw_call ∘ expire_call lazy) <$> ex).
Proof. intros Hl Hin. apply Forall_fmap, Forall_forall. intros x Hx. split; [|done]. specialize (Hin x Hx). cbn. lia. Qed.
Lemma replay_command e c args lazy t la t' :
  live el (Command e c args) (dirty (arep t)) (all_keys t) -> data_ok (adbs t) -> (asel t < alen t)%nat -> Z.of_nat (alen t) <= 2 ^ 31 -> alstep lazy (Command e c args) t = Some (la, t') ->
  replays el la (adbs t) (adbs t') /\ Forall call_fine la /\ alen t' = alen t.
Proof.
  intros (Hm & Hce & Hal & Hn & Hclock & Hone & Hfc) Hok Hsel Hlen Hst. cbn [alstep] in Hst. destruct (arity_ok c (length args)) eqn:Ear.
  2:{ cbn [astep] in Hst. rewrite Ear in Hst. cbn [mbind option_bind] in Hst. injection Hst as <- <-. split; [apply replays_nil|by split]. }
  destruct (aexec e c (with_aargs args t)) as [t2|] eqn:Ex; cbn [mbind option_bind] in Hst; [|done]. injection Hst as <- <-.
  split_and!; [| |by apply (exec_alen e c (with_aargs args t) _ Hok Ex)].
  all: destruct (exec_outcome e Hm Hce el Hel Hcl Hal c (with_aargs args t) t2 Hn Ear Hsel Hok Hone Hfc Ex) as (p & (ex & Hx & Hd & Hdi & Hs & Hpa & Hin) & Hx2 & Hquiet & Hloud).
  all: unfold acalls; rewrite (new_expirations_app (arep t) (arep t2) ex) by (by rewrite Hx2, Hx).
  all: destruct (translated_time (k_logged e) (k_now e) (proc_named (aargs t2)) (ObjRaw <$> aargs t2)) as [Htr Hco].
  1,3: intros Ht; apply Hclock; destruct (exec_args e c (with_aargs args t) _ Hok Ex) as [Hk|(lz & k & Hk)]; unfold proc_named in Ht; rewrite Hk in Ht; [|by destruct lz]; cbn [aargs with_aargs] in Ht; unfold names in Hn; by rewrite Hn in Ht.
  all: cbn [arep adbs asel with_aargs] in *; destruct (Z.ltb_spec (dirty (arep t)) (dirty (arep t2))) as [Hlt|Hge]; rewrite ?app_nil_r.
  - destruct (Hloud Hlt) as (Hs2 & Hcok & Hrl). rewrite Hs2. eapply replays_app; [by apply replays_expired|]. intros sel u Hu Hsl. rewrite Hd in *.
    apply (reload_call el Hcl sel _ (asel t) (drops (adbs t) ex)); rewrite ?drops_length; try done; cbn [call_time call_proc call_argv]; by rewrite Htr.
  - rewrite Hquiet, Hd by lia. by apply replays_expired.
  - destruct (Hloud Hlt) as (Hs2 & Hcok & Hrl). apply Forall_app. split; [by eapply expired_fine|]. constructor; [|done]. split; [|by apply Hco]. cbn. unfold alen in *. lia.
  - by eapply expired_fine.
Qed.
Lemma replay_step ev lazy t la t' :
  live el ev (dirty (arep t)) (all_keys t) -> data_ok (adbs t) -> (asel t < alen t)%nat -> Z.of_nat (alen t) <= 2 ^ 31 -> alstep lazy ev t = Some (la, t') ->
  replays el la (adbs t) (adbs t') /\ Forall call_fine la /\ alen t' = alen t.
Proof.
  destruct ev as [e c args|d|d k now|d k ty v]; intros Hlive Hok Hsel Hlen; [by apply replay_command|..]; [| |done]; cbn [alstep astep].
  - destruct (_ <? _)%nat; cbn [mbind option_bind]; [|done]. intros [= <- <-]. rewrite (new_expirations_app _ _ []) by (by rewrite app_nil_r). split; [apply replays_nil|by split].
  - cbn [mbind option_bind]. intros [= <- <-]. unfold acycle. destruct (expiry_of d k t) as [w|] eqn:Ew; [destruct (w <? now)|]; [|by rewrite (new_expirations_app _ _ []) by (by rewrite app_nil_r); split; [apply replays_nil|]..].
    rewrite (new_expirations_app _ _ [(d, k)]) by done. assert (forall x, x ∈ [(d, k)] -> (x.1 < length (adbs t))%nat) as Hin; [|by split_and!; [apply replays_expired|eapply expired_fine|apply (alen_on_db d _ (log (add_expiration (d, k)) t))]].
    intros x ->%list_elem_of_singleton. cbn. unfold expiry_of, the_db in Ew. destruct (adbs t !! d) eqn:Ed; [by eapply lookup_lt_Some|]. cbn in Ew. by rewrite lookup_empty in Ew.
Qed.
End Replay.

(** *** The server *)

Definition key_count (s : ks) : Z := foldr (fun db n => Z.of_nat (base.size (dict db)) + n) 0 (dbs s).
Fixpoint live_run (el : kenv) (l : list kevent) (s : ks) : Prop :=
  match l with
  | [] => True
  | ev :: l => live el ev (dirty (rep s)) (key_count s) /\ match kstep ev s with Some (_, s') => live_run el l s' | None => True end
  end.
Lemma key_count_abs s t : between s t -> all_keys t = key_count s.
Proof.
  intros [Hr _]. unfold all_keys, key_count. rewrite (r_dbs _ _ _ _ Hr). induction (dbs s) as [|db l IH]; [done|]. cbn [fmap list_fmap foldr]. rewrite IH. unfold abs_db. cbn [dict]. by rewrite map_size_fmap.
Qed.
(** Keeping the log changes nothing. *)
Lemma lstep_kstep lazy ev s la s' : lstep lazy ev s = Some (la, s') -> kstep ev s = Some ((), s').
Proof.
  destruct ev as [e c args|d|d k now|d k ty v]; cbn [lstep].
  2-4: intros (r & s0 & [= <- <-] & ([] & s1 & E1 & (r' & s2 & [= <- <-] & [= _ <-])%K_bind_inv)%K_bind_inv)%K_bind_inv; done.
  intros ([] & s1 & E1 & (l & s2 & E2 & ([] & s3 & E3 & [= <- <-])%K_bind_inv)%K_bind_inv)%K_bind_inv. cbn [kstep]. rewrite (K_bind_ok _ _ _ _ _ E1).
  destruct (arity_ok c (length args)); [|by apply K_bind_inv in E2 as ([] & s4 & E4 & [= <- <-]); rewrite (K_bind_ok _ _ _ _ _ E4)].
  unfold call in E2. apply K_bind_inv in E2 as (r & s4 & [= <- <-] & ([] & s5 & E5 & (objs & s6 & E6 & (r' & s7 & [= <- <-] & (d & s8 & [= <- <-] & [= _ <-])%K_bind_inv)%K_bind_inv)%K_bind_inv)%K_bind_inv).
  assert (s6 = s5) as -> by (unfold arg_objects in E6; destruct (mapM _ _); cbn in E6; [by injection E6|done]). by rewrite (K_bind_ok _ _ _ _ _ E5).
Qed.

Section Run.
Context (el : kenv) (Hel : k_loading el = true) (Hcl : k_cluster el = false).
Lemma replay_run lazy l : forall s t la s', between s t -> Z.of_nat (alen t) <= 2 ^ 31 -> live_run el l s -> lrun lazy l s = Some (la, s') ->
  exists t', between s' t' /\ replays el (raw_call <$> la) (adbs t) (adbs t') /\ Forall plain la /\ Forall call_fine (raw_call <$> la).
Proof.
  induction l as [|ev l IH]; intros s t la s' Hb Hlen Hlive Hrun; cbn [lrun] in Hrun.
  { injection Hrun as <- <-. exists t. split; [done|]. split; [apply replays_nil|]. by split. }
  apply K_bind_inv in Hrun as (la1 & s1 & E1 & (la2 & s2 & E2 & [= <- <-])%K_bind_inv). destruct Hlive as [Hev Hrest]. rewrite (lstep_kstep _ _ _ _ _ E1) in Hrest.
  assert (well_named ev) as Hwn by (destruct ev; [apply Hev|done..]). pose proof (lstep_between lazy ev s t Hwn Hb) as Hst. destruct (alstep lazy ev t) as [[la1' t1]|] eqn:Ea; [|congruence].
  destruct Hst as (la1'' & s1' & E1' & Hraw & Hpl & Hb1). rewrite E1 in E1'. injection E1' as <- <-. destruct (between_ok s t Hb) as [Hok Hsel].
  destruct (replay_step el Hel Hcl ev lazy t la1' t1) as (Hr1 & Hf1 & Hl1); [|done..|]. { rewrite (key_count_abs s t Hb). destruct Hb as [Hr _]. by rewrite (r_rep _ _ _ _ Hr). }
  destruct (IH s1 t1 la2 s2 Hb1 ltac:(by rewrite Hl1) Hrest E2) as (t2 & Hb2 & Hr2 & Hp2 & Hf2). exists t2. rewrite !fmap_app, Hraw. split; [done|]. split; [by eapply replays_app|]. split; by apply Forall_app.
Qed.
End Run.

(** *** What is written can be read *)

(** The arguments fit the memory of the server that loads. *)
Definition fits (max_alloc : Z) (x : logged_call) : Prop :=
  zlen (call_argv x) < 2 ^ 31 /\ 8 * zlen (call_argv x) <= max_alloc /\ Forall (fun o => arg_loads max_alloc (obj_bytes o)) (call_argv x).
Lemma executed_fine max_alloc x : plain x -> call_fine (raw_call x) -> fits max_alloc x -> executed_ok (call_time x) (call_proc x) (call_argv x).
Proof.
  intros [Hi Hs] [_ Hc] (Hn & _ & Ha). apply executed_call_ok. split_and!; [|unfold LLONG_MAX; lia|by apply (call_ok_raw _ _ _ Hs)].
  rewrite Forall_forall in *. intros o Ho. split; [by apply Hi|]. by apply (Ha o Ho).
Qed.
Ltac each := repeat (apply Forall_cons_2; [|]); try apply Forall_nil_2.
Section Readable.
Context (max_alloc : Z) (Hmax : 64 <= max_alloc).
Lemma decimal_loads v : LLONG_MIN <= v <= LLONG_MAX -> arg_loads max_alloc (decimal v).
Proof. intros Hv. pose proof (decimal_length v Hv). unfold arg_loads, LLONG_MAX. lia. Qed.
Lemma short_loads s : zlen s <= 64 -> arg_loads max_alloc s.
Proof. unfold arg_loads, LLONG_MAX. lia. Qed.
Lemma few_loadable args : args <> [] -> zlen args <= 8 -> Forall (arg_loads max_alloc) args -> loadable max_alloc args.
Proof. intros Hne Hl Ha. unfold loadable. split_and!; try done; lia. Qed.
Lemma pexpireat_loadable now cmd key o : arg_loads max_alloc (obj_bytes key) -> time_fits now cmd o -> loadable max_alloc (pexpireat now cmd key o).
Proof. intros Hk [_ Ht]. apply few_loadable; [done..|]. each; [by apply short_loads|done|by apply decimal_loads]. Qed.
Lemma translated_loadable x : call_fine x -> fits max_alloc x -> Forall (fun a => a <> [] -> loadable max_alloc a) (translated (call_time x) (call_proc x) (call_argv x)).
Proof.
  intros [_ Hc] (Hn & H8 & Ha). destruct x as [now cmd db argv]. cbn [call_time call_proc call_argv] in *.
  assert (Forall (fun a => a <> [] -> loadable max_alloc a) [obj_bytes <$> argv]) as Hall.
  { constructor; [|constructor]. intros Hne. unfold loadable. rewrite length_fmap. split_and!; [done..|]. by apply Forall_fmap. }
  assert (forall now' cmd' k o, k ∈ argv -> time_fits now' cmd' o -> Forall (fun a => a <> [] -> loadable max_alloc a) [pexpireat now' cmd' k o]) as Hpx.
  { intros now' cmd' k o Hk Ht. constructor; [|constructor]. intros _. apply pexpireat_loadable; [|done]. rewrite Forall_forall in Ha. by apply Ha. }
  assert (forall c k v, arg_loads max_alloc c -> k ∈ argv -> v ∈ argv -> [c; obj_bytes k; obj_bytes v] <> [] -> loadable max_alloc [c; obj_bytes k; obj_bytes v]) as Hset.
  { intros c k v Hc' Hk Hv _. rewrite Forall_forall in Ha. apply few_loadable; [done..|]. each; [done|by apply Ha..]. }
  destruct cmd; try done.
  1-3: destruct argv as [|c [|k [|o r]]]; try done; apply Hpx; [set_solver|done].
  1-2: destruct argv as [|c [|k [|o [|v r]]]]; try done; constructor; [apply Hset; [by apply short_loads|set_solver..]|apply Hpx; [set_solver|done]].
  destruct argv as [|c [|k [|v [|o r]]]]; try done. cbn [translated call_ok drop] in *. constructor; [apply Hset; [rewrite Forall_forall in Ha; apply Ha; set_solver|set_solver..]|].
  destruct (Aof.set_options (o :: r) None None) as [[[x|] [y|]]|]; try done; (apply Hpx; [set_solver|done]).
Qed.
Lemma logged_loadable l sel : Forall call_fine l -> Forall (fits max_alloc) l -> Forall (fun a => a <> [] -> loadable max_alloc a) (logged_all sel l).
Proof.
  intros Hf. revert sel. induction Hf as [|x l Hx Hf IH]; intros sel Hl; [constructor|]. apply Forall_cons in Hl as [Hfx Hl]. cbn [logged_all]. rewrite !Forall_app. split_and!; [|by apply translated_loadable|by apply IH].
  destruct (_ =? _); [constructor|]. constructor; [|constructor]. intros _. apply few_loadable; [done..|]. destruct Hx as [Hd _]. each; [by apply short_loads|]. apply decimal_loads. unfold LLONG_MIN, LLONG_MAX. lia.
Qed.
End Readable.

(** *** The server that loads *)

Lemma load_file_args_spec l s t : rel (fun _ => False) z0 s t -> does (load_file_args l) s (fun _ s1 => rel (fun _ => False) z0 s1 (with_aargs (aargs t ++ l) t)).
Proof.
  revert s t. induction l as [|bs l IH]; intros s t Hr; cbn [load_file_args]; [apply does_ret; rewrite app_nil_r; by destruct t|].
  destruct (push_arg_spec _ (ObjRaw bs) bs s t eq_refl eq_refl I (fun i H => H) Hr) as ([] & s1 & E1 & Hr1). destruct (IH s1 _ Hr1) as ([] & s2 & E2 & Hr2). rewrite with_aargs_app, <-app_assoc in Hr2.
  apply K_bind_inv in E1 as (a & s0 & Ea & Eb). exists (), s2. split; [|done]. by rewrite (K_bind_ok _ _ _ _ _ Ea), (K_bind_ok _ _ _ _ _ Eb).
Qed.
Lemma load_proc_between el args s u u' : between s u -> reload1 el args u = Some u' -> exists s', load_proc el args s = Some ((), s') /\ between s' u'.
Proof.
  intros [Hr Ha] E. unfold reload1 in E. unfold load_proc. destruct (lookupCommand (hd [] args)) as [c|]; cbn [mbind option_bind] in E; [|done]. destruct (arity_ok c (length args)) eqn:Ear; [|done]. cbn [astep] in E. rewrite Ear in E. cbn zeta in E.
  rewrite (K_bind_ok (liftK (Some c)) _ s c s) by done. destruct (load_file_args_spec args s u Hr) as ([] & s1 & E1 & Hr1). rewrite Ha in Hr1. rewrite (K_bind_ok _ _ _ _ _ E1).
  pose proof (exec_implements el c s1 _ Hr1 Ear) as Him. cbn [app] in Him. destruct (aexec el c (with_aargs args u)) as [u2|]; cbn [mbind option_bind implements] in *; [|done]. injection E as <-.
  destruct Him as ([] & s2 & E2 & Hr2). rewrite (K_bind_ok _ _ _ _ _ E2). destruct (freeClientArgv_spec _ s2 u2 Hr2) as ([] & s3 & E3 & Hr3). by exists s3.
Qed.
Lemma load_all_between el is_exec queue cmds : forall s u u', between s u -> reload el cmds u = Some u' ->
  exists s', run_all is_exec (fun args x => s ← x; snd <$> load_proc el args s) queue (fun _ => false) (Some s) cmds = Some s' /\ between s' u'.
Proof.
  induction cmds as [|a cmds IH]; intros s u u' Hb E; cbn [reload] in E; [injection E as <-; by exists s|]. destruct (reload1 el a u) as [u1|] eqn:E1; cbn [mbind option_bind] in E; [|done].
  destruct (load_proc_between el a s u u1 Hb E1) as (s1 & Es1 & Hb1). destruct (IH s1 u1 u' Hb1 E) as (s2 & Es2 & Hb2). exists s2. split; [|done]. unfold run_all in *. cbn [foldl].
  unfold run_command at 2. cbn [andb mbind option_bind]. by rewrite Es1.
Qed.
(** Every command that was loaded has a name. *)
Lemma reload_known el cmds : forall u u', reload el cmds u = Some u' -> Forall (fun a => a <> [] /\ is_Some (lookupCommand (hd [] a))) cmds.
Proof.
  induction cmds as [|a cmds IH]; intros u u' E; cbn [reload] in E; [constructor|]. destruct (reload1 el a u) as [u1|] eqn:E1; cbn [mbind option_bind] in E; [|done]. constructor; [|by eapply IH].
  unfold reload1 in E1. destruct (lookupCommand (hd [] a)) eqn:El; [|done]. split; [|done]. by intros ->.
Qed.
Lemma cut_whole cmds : cut_at (mjoin (encode <$> cmds)) cmds [] [].
Proof. induction cmds as [|a cmds IH]; [constructor|]. by constructor. Qed.

(** ** The theorem *)

(** What a server holds: the values and the times of expiry. *)
Definition kdata (s : ks) : list adb := abs_db (heap s) <$> dbs s.

(** C3: the append only file holds the data.  Let a master outside a cluster start with n empty databases and an empty file, let clients give it any of the commands of KeyCommands under their own names (values of other types are not
    created), and let keys expire and the expiry cycle run at any time, where (1) no SET has both EX and PX among its arguments, (2) the clock shows the same time when a command with a length of time is executed and when it is written,
    (3) the number of changes fits an int when FLUSHALL saves, and (4) the arguments can be allocated by the loading server; the examples below show that (1) to (3) are needed.  Then the append only file can be written,
    and a server that starts with n empty databases and loads it ends, without expiring anything, with the same value and the same time of expiry at every key of every database, also when the clock has gone on.
    When nothing was written the file is empty and there is no data. *)
Theorem aof_rebuilds cfg el max_alloc lazy n l calls s st truncated truncate_ok preamble :
  k_loading el = true -> k_cluster el = false -> 64 <= max_alloc -> (0 < n)%nat -> Z.of_nat n <= 2 ^ 31 ->
  live_run el l (kstart n) -> lrun lazy l (kstart n) = Some (calls, s) -> Forall (fits max_alloc) calls ->
  aof_on st = true -> aof_selected_db st = -1 -> aof_buf st = [] -> Forall rw_ok (aof_rewrite_buf_blocks st) ->
  exists st', feed_all cfg st calls = Some st' /\
    if bool_decide (aof_buf st' = [])
    then load_file el max_alloc truncated truncate_ok preamble (kstart n) (aof_buf st') = Some EmptyFile /\ kdata s = kdata (kstart n)
    else exists s', load_file el max_alloc truncated truncate_ok preamble (kstart n) (aof_buf st') = Some (LoadedOk (Some s') (zlen (aof_buf st'))) /\ kdata s' = kdata s.
Proof.
  intros Hel Hcl Hmax Hn Hn31 Hlive Hrun Hfits Hon Hsel0 Hbuf Hrw. pose proof (start_between n Hn) as Hb0.
  destruct (replay_run el Hel Hcl lazy l _ _ calls s Hb0 ltac:(by cbn; rewrite length_replicate) Hlive Hrun) as (t & Hb & Hrep & Hpl & Hfine).
  destruct (Hrep (-1) (astart n) eq_refl ltac:(by left)) as (u & Eu & Hu & _). rewrite logged_all_raw in Eu by done.
  assert (Forall (fun c => executed_ok (call_time c) (call_proc c) (call_argv c)) calls) as Hex.
  { rewrite Forall_fmap in Hfine. rewrite Forall_forall in *. intros x Hx. eapply executed_fine; [by apply Hpl|by apply Hfine|by apply Hfits]. }
  destruct (feed_all_ok cfg calls st Hex Hrw) as (st' & Est & _ & Hb' & _). cbn zeta in Hb'. rewrite Hon, Hbuf, Hsel0 in Hb'. cbn [app] in Hb'. exists st'. split; [done|].
  destruct (load_all_between el (strcaseeq (str "exec")) (fun _ x => x) _ _ _ _ Hb0 Eu) as (s' & Es' & Hbs').
  assert (forall s t, between s t -> kdata s = adbs t) as Hdata by (intros s1 t1 [Hr1 _]; by rewrite (r_dbs _ _ _ _ Hr1)).
  case_bool_decide as Hz.
  - split; [by rewrite Hz|]. rewrite Hb' in Hz. assert (logged_all (-1) calls = []) as Hnil. { destruct (logged_all (-1) calls) as [|a r]; [done|]. by destruct (encode_head a) as [w Hw]; rewrite fmap_cons in Hz; cbn in Hz. }
    rewrite Hnil in Eu. injection Eu as <-. by rewrite (Hdata _ _ Hb), (Hdata _ _ Hb0), Hu.
  - exists s'. rewrite (Hdata _ _ Hb), (Hdata _ _ Hbs'), Hu. split; [|done]. unfold load_file. rewrite Hb' in *. erewrite load_spec; [|apply cut_whole| |done].
    + unfold recovered. by rewrite Es'.
    + rewrite app_nil_r. pose proof (reload_known _ _ _ _ Eu) as Hk. pose proof (logged_loadable max_alloc Hmax _ (-1) Hfine) as Hlo. rewrite logged_all_raw in Hlo by done. specialize (Hlo ltac:(by rewrite Forall_fmap; eapply Forall_impl; [exact Hfits|]; intros x; unfold fits; cbn; rewrite length_fmap, Forall_fmap)).
      unfold all_loadable. rewrite Forall_forall in *. intros a Ha. destruct (Hk a Ha) as [Hne Hs]. split; [by apply Hlo|by apply bool_decide_eq_true_2].
Qed.

(** ** Examples *)

(** Runs without FLUSHALL need no count of the changes. *)
Lemma live_anywhere el l : (forall ev a b, ev ∈ l -> live el ev a b) -> forall s, live_run el l s.
Proof.
  induction l as [|ev l IH]; intros Hl s; [done|]. split; [apply Hl; left|]. destruct (kstep ev s) as [[_ s']|]; [|done]. apply IH. intros ev' a b Hev. apply Hl. by right.
Qed.
Definition demo_loading : kenv := mk_kenv true true true None 90 90 90 90 false false false (str "cmd") false false true (fun _ => []) (fun m => m <=? 2 ^ 30) (mk_config true false).
(** A key that expires in the first database while the second is used, a time in seconds, an argument that becomes a number, and a name in capitals. *)
Definition logged_run : list kevent :=
  [cmd 5 PSETEX ["psetex"; "k"; "10"; "v"]; cmd 6 SET ["Set"; "a"; "7"; "ex"; "2"]; cmd 7 INCR ["incr"; "a"]; Client 1; cmd 8 APPEND ["append"; "b"; "xy"]; cmd 9 GET ["get"; "b"]; Cycle 0 (str "k") 20]%string.
Definition no_dump (bs : list Z) (x : option ks) : bool * option ks + option ks * list Z := inl (false, x).
Definition new_aof : aof_state := mk_aof true false (-1) [] [].
Definition logged_file : list Z :=
  mjoin (encode <$> (fmap str <$>
    [["SELECT"; "0"]; ["SET"; "k"; "v"]; ["PEXPIREAT"; "k"; "15"]; ["Set"; "a"; "7"]; ["PEXPIREAT"; "a"; "2006"]; ["incr"; "a"]; ["SELECT"; "1"]; ["append"; "b"; "xy"]; ["SELECT"; "0"]; ["DEL"; "k"]]%string)).
Definition demo_file (l : list kevent) : option (list Z) := p ← lrun false l (kstart 2); aof_buf <$> feed_all (mk_config true false) new_aof p.1.
Lemma logged_run_live : live_run demo_loading logged_run (kstart 2).
Proof.
  apply live_anywhere. intros ev a b Hev. unfold logged_run in Hev. rewrite !elem_of_cons, elem_of_nil in Hev. destruct Hev as [->|[->|[->|[->|[->|[->|[->|[]]]]]]]]; cbn [cmd live].
  all: try exact I. all: split_and!; first [reflexivity | (intros m Hm; exact Hm) | (intros _; reflexivity) | (intros H; discriminate H)].
Qed.
Lemma aof_rebuilds_witness : exists s s',
  demo_file logged_run = Some logged_file /\ snd <$> lrun false logged_run (kstart 2) = Some s /\
  load_file demo_loading 65536 true true no_dump (kstart 2) logged_file = Some (LoadedOk (Some s') (zlen logged_file)) /\ kdata s' = kdata s /\
  kentry 0 (str "a") s = (Some (AString (str "8")), Some 2006) /\ kentry 0 (str "k") s = (None, None) /\ kentry 1 (str "b") s = (Some (AString (str "xy")), None).
Proof.
  assert (demo_file logged_run = Some logged_file) as Hfile by (vm_compute; reflexivity).
  assert ((fun p => (kentry 0 (str "a") p.2, kentry 0 (str "k") p.2, kentry 1 (str "b") p.2)) <$> lrun false logged_run (kstart 2) = Some ((Some (AString (str "8")), Some 2006), (None, None), (Some (AString (str "xy")), None))) as Hen by (vm_compute; reflexivity).
  assert ((fun p => forallb (fun x => (zlen (call_argv x) <? 8) && forallb (fun o => zlen (obj_bytes o) <? 64) (call_argv x)) p.1) <$> lrun false logged_run (kstart 2) = Some true) as Hfits by (vm_compute; reflexivity).
  destruct (lrun false logged_run (kstart 2)) as [[calls s]|] eqn:Erun; [|discriminate Hfits].
  apply (inj Some) in Hfits, Hen. cbn [fst snd] in Hfits, Hen. injection Hen as H1 H2 H3. unfold demo_file in Hfile. rewrite Erun in Hfile. cbn [mbind option_bind fst] in Hfile.
  destruct (aof_rebuilds (mk_config true false) demo_loading 65536 false 2 logged_run calls s new_aof true true no_dump) as (st' & Est & Hres); try reflexivity; try lia; [apply logged_run_live|exact Erun| |constructor|].
  - apply Forall_forall. intros x Hx. rewrite forallb_forall in Hfits. apply list_elem_of_In in Hx. specialize (Hfits x Hx). apply andb_true_iff in Hfits as [Hl Ha]. rewrite forallb_forall in Ha. split; [lia|]. split; [lia|].
    apply Forall_forall. intros o Ho. apply list_elem_of_In in Ho. specialize (Ha o Ho). unfold arg_loads, LLONG_MAX. lia.
  - rewrite Est in Hfile. cbn in Hfile. apply (inj Some) in Hfile. rewrite Hfile in Hres. rewrite bool_decide_eq_false_2 in Hres by (vm_compute; discriminate). destruct Hres as (s' & Hload & Hd).
    exists s, s'. split_and!; [unfold demo_file; rewrite Erun; cbn [mbind option_bind fst]; rewrite Est; cbn; rewrite Hfile; reflexivity|reflexivity|exact Hload|exact Hd|congruence|congruence|congruence].
Defined.

(** The conditions are needed.  SET accepts an option in the place of a time that a later one replaces, and the writer of the file, which looks at every argument, finds both kinds of time and stops the server. *)
Example set_stops_the_server :
  demo_file [cmd 5 SET ["set"; "k"; "v"; "EX"; "PX"; "EX"; "9"]]%string = None /\
  (fun p => kentry 0 (str "k") p.2) <$> lrun false [cmd 5 SET ["set"; "k"; "v"; "EX"; "PX"; "EX"; "9"]]%string (kstart 2) = Some (Some (AString (str "v")), Some 9005).
Proof. split; vm_compute; reflexivity. Qed.
(** The time of expiry is computed again when the command is written: a key lives longer after the file is loaded. *)
Definition slow_env : kenv := mk_kenv true true false None 5 5 5 8 false false false (str "cmd") false false true (fun _ => []) (fun m => m <=? 2 ^ 30) (mk_config true false).
Example later_in_the_file :
  (fun p => kentry 0 (str "k") p.2) <$> lrun false [Command slow_env PSETEX (str <$> ["psetex"; "k"; "10"; "v"]%string)] (kstart 2) = Some (Some (AString (str "v")), Some 15) /\
  demo_file [Command slow_env PSETEX (str <$> ["psetex"; "k"; "10"; "v"]%string)] = Some (mjoin (encode <$> (fmap str <$> [["SELECT"; "0"]; ["SET"; "k"; "v"]; ["PEXPIREAT"; "k"; "18"]]%string))).
Proof. split; vm_compute; reflexivity. Qed.
(** FLUSHALL saves the number of changes in an int: after 2^31 changes the number is smaller than before, and the command is not written. *)
Example flushall_not_written : fst <$> lstep false (cmd 5 FLUSHALL ["flushall"]%string) (mk_ks start_heap 2 [mk_db ∅ ∅] 0 [] [] (mk_report (2 ^ 31) [] [] [] [] [] ∅)) = Some [].
Proof. vm_compute. reflexivity. Qed.
